(* ===== verification/_CoqProject ===== *)
-Q . S2P
Prelude.v
GoStrings.v
GoHttp.v
GoJson.v
ProxyConfig.v
Matcher.v
Cors.v
Filters.v
Router.v
RouterSpec.v
Shadow.v
RouterState.v
ConfigPush.v
RouteBinding.v
ListenerMerge.v
ReferenceGrant.v
Ingress.v
IngressBuild.v
BackendPasses.v
Converter.v
ConverterSpec.v
HeaderTimeout.v
Handler.v
HostnameOwnership.v
RenderNames.v
ConfigResolver.v
ListenerView.v
ParentBinding.v
EffectiveHostnames.v
RouteSync.v
RoutePartition.v
SyncAll.v
RouteStatus.v
PushSync.v
BackendTLS.v
StatusWriter.v
CertRefs.v
GatewayStatus.v
ListenerSetStatus.v
Render.v
Infra.v
ConvertFrame.v
Mappers.v
RouteController.v
StatusEvents.v
ClassStatus.v
Resync.v
ProxyMain.v
OriginProxy.v
Observe.v
Durations.v
Fanout.v
RouteReconcilers.v
Manager.v
TunnelStart.v
WebSocketPipe.v
