(* ===== verification/Prelude.v ===== *)
(** * Verification of the Cloudflare Tunnel Gateway controller

    The program implements the Kubernetes Gateway API on top of a Cloudflare
    Tunnel.  It has two halves.  The controller ([internal/controller] and the
    packages it calls) watches Gateways, ListenerSets and routes, decides which
    routes bind to which listeners, writes the tunnel's ingress document and
    pushes a routing configuration to the data plane.  The proxy
    ([internal/proxy]) is that data plane: it validates and compiles a pushed
    configuration, swaps it in atomically, and routes, filters and forwards each
    request.  The controller's pusher talks to the proxy's config API; versions
    order the configurations.

    ** Files

    Definitions keep the names of the Go code; record fields carry a short
    prefix, Go's string enums stay strings, pointers are options, slices lists.
    A definition ends where the code calls something outside the repository:
    that is a parameter, named below.

    - [Prelude]: results with errors, machine integers, stable sorting and
      comparator chains, list lemmas, the tactics [go_cases] and [breflect].
    - [GoStrings], [GoHttp]: the parts of [strings], [net/http], [net/url] and
      [path] the program uses, with their algebra (prefixes, suffixes, case
      folding, canonical header keys, query escaping and its inverse).
    - [GoJson]: what [encoding/json] writes for strings, arrays and objects, and
      that its output determines the value (prefix injectivity).
    - [ProxyConfig]: [proxy/config.go], the pushed configuration and [Validate]
      ([Validate_spec]: it accepts exactly the well-formed configurations).
    - [Durations]: the timeouts on the wire and [ParseConfig], with the formatter and
      the parser of [time.Duration] as the standard library has them.
    - [Matcher]: [proxy/matcher.go]; compiled matches mean what the match says.
    - [Cors]: [proxy/cors.go].
    - [Filters]: [proxy/filter.go]: header modification, redirect, rewrite,
      mirror, compilation and application of filter lists.
    - [Router]: [proxy/router.go] up to [Route]; [RouterSpec] states the Gateway
      API precedence over the configuration and proves that the compiled table
      refines it, for every order the runtime may iterate a map in.
    - [Shadow]: [proxy/shadow.go], the detection of rules that can never be
      reached, and its canonical match keys.
    - [RouterState]: the mutable router: [UpdateConfig], the first-config
      channel, readiness, transport keys and pruning ([proxy/handler.go]),
      [proxy/startup_protocol.go].  A step relation [step] interleaves the
      operations; invariants are proved by induction over runs.
    - [ConfigPush]: [proxy/api.go] and [proxy/pusher.go] on top of
      [RouterState]; a push runs against arbitrary interference of other
      goroutines and a network that loses requests or answers.  [Fanout]: a push to
      many endpoints, and the concurrent pushes of [controller/route_syncer.go] as a
      bounded group of goroutines over a shared world.
    - [RouteBinding]: [internal/routebinding]; hostname patterns denote sets of
      hosts and the intersection is exact for them.
    - [ListenerMerge]: [internal/listenermerge].
    - [ReferenceGrant]: [internal/referencegrant].
    - [Ingress]: [internal/ingress/diff.go] and the sync of the ingress document
      in [controller/route_syncer.go]; [IngressBuild]: the rest of
      [internal/ingress], with [ExternalBackendSpec] of [api/v1alpha1].
    - [BackendPasses]: the passes of the controller over a converted
      configuration ([proxy/mark_unavailable.go], [proxy/expand_headless.go],
      [proxy/external_backend.go] and the tail of [buildProxyConfig]).
    - [Converter]: [proxy/converter.go], [proxy/grpc_converter.go] and
      [proxy/backendref_common.go]; the diagnostics sink is a state monad.
      [ConverterSpec] proves what a conversion promises its two clients, the
      proxy's [Validate] and the passes.

    - [HeaderTimeout]: [proxy/headertimeout.go], the caller and the timer callback
      as threads of one step relation with the inner transport, the client and
      the reader of the body.
    - [Handler]: [proxy/handler.go] and [proxy/handler_websocket.go]: the order
      of decisions of [ServeHTTP], the request a backend gets, backend TLS.
    - [WebSocketPipe]: the connections of an upgrade, from the dial to every deferred
      close, and the byte pipe as a step relation of its copiers, the handler and the
      peers.
    - [OriginProxy]: [tunnel/origin.go], the writer between the handler and the tunnel
      that turns trailers into cloudflared's.
    - [Observe]: [proxy/accesslog.go], [proxy/metrics.go], the spans of
      [proxy/handler.go], [tracing/tracing.go] and [cfmetrics/errors.go]: what one
      request logs and counts, and many at once.
    - [HostnameOwnership]: [internal/hostnameownership].
    - [RenderNames]: the object names of [internal/render].
    - [ConfigResolver]: [internal/config] and the connector token of
      [internal/tunnel/bootstrap.go].
    - [ListenerView]: [controller/listenerset_view.go], the merged view of a
      Gateway with its store and cache; [ParentBinding] resolves one parentRef
      against it; [EffectiveHostnames]: the hostnames and the redirect scheme a
      route gets from its listeners.
    - [RouteSync]: collection of routes and cross-type conflicts; [RoutePartition]:
      data planes and tunnels; [SyncAll]: one sync from the cluster to the
      documents, its errors, its pushes and its requeue.
    - [RouteStatus]: [controller/route_status.go], the conditions and their write.
    - [PushSync]: the push bookkeeping of [controller/proxy_syncer.go]: what was
      last delivered to a partition, when a push is skipped, replays, and the
      interleaving of overlapping syncs.
    - [BackendTLS]: [controller/backendtlspolicy_controller.go] and the resolvers
      of [controller/proxy_syncer.go] that put its policies into a configuration.

    - [StatusWriter]: the retried status write that the controllers share, and
      the lemmas on setting conditions.
    - [CertRefs]: certificate references of Gateways and ListenerSets
      ([controller/gateway_client_cert.go], [controller/listenerset_tls.go]) and
      the client certificate the proxy presents.
    - [GatewayStatus], [ListenerSetStatus], [ClassStatus]: the reconcilers of
      [controller/gateway_controller.go], [controller/listenerset_controller.go],
      [controller/gatewayclass_controller.go] and
      [controller/gatewayclassconfig_controller.go].
    - [Render]: the manifests of [internal/render]; [Infra]:
      [controller/gateway_infra_reconciler.go] in a state and error monad over a
      store of objects and Secrets that defaults what it is sent, with a fault for
      every API call.
    - [ConvertFrame]: what a conversion reads of the cluster.  [Mappers]:
      [controller/mappers.go], which routes an event enqueues; [StatusEvents]: the
      mappers of the status controllers; [RouteController]:
      [controller/reconcile_route.go] and [controller/startup_sync.go], the
      watches, one reconcile of a route and the startup sync; [RouteReconcilers]:
      [controller/httproute_controller.go] and [controller/grpcroute_controller.go] on
      top of [SyncAll], [RouteStatus] and [RouteController].
    - [Manager]: [controller/manager.go] in a monad that registers components and may
      fail, and the cluster domain of [internal/dns] and [cmd/controller/cmd/root.go].
    - [Resync]: [controller/proxy_endpoint_reconciler.go] and
      [controller/proxy_secret_reconciler.go]: what an EndpointSlice event replays
      through [PushSync], and how a rotated tunnel token rolls the proxies.
    - [ProxyMain]: [cmd/proxy/main.go]: the options read from the environment, and
      tunnel mode as a step relation of its signal goroutine, its main goroutine and
      what they start; the handler those options build, [resolveProtocolFlag] and the
      grace period of [tunnel/bootstrap.go].
    - [TunnelStart]: the rest of [tunnel/bootstrap.go], up to the daemon.

    ** What the theorems show

    Routing: the best candidate wins, priorities follow the tiers within the CRD
    limits, selection is exactly weighted, validated configurations cannot panic
    the proxy.  State: updates are all or nothing, the first configuration is
    delivered once, readiness does not regress, pruning keeps the transports in
    use.  Delivery: who may write, which answer means what, recovery from stale
    versions.  Filters: headers, rewrites, CORS and mirroring do what they
    promise and leave the primary request alone.  Control plane: binding,
    hostname intersection, namespace policies, listener conflicts, reference
    grants, and the ingress document are exact, order independent and converge.
    Conversion: whatever the routes and the cluster say, the configuration the
    controller pushes passes [Validate] and compiles, an empty path expression
    apart; traffic fractions survive
    conversion and headless expansion; what cannot be honoured answers with an
    error instead of reaching a backend.  Diagnostics: a rule is reported as
    shadowed exactly when an earlier one has the same matches, and such a rule
    is never served.  Handler: when it dials, with which request and which
    certificates; the header deadline settles its race in every interleaving.
    Tenancy: a Gateway with its own plane is served by it or not at all, a tunnel
    carries exactly the routes accepted on its Gateways, a sync writes nothing
    else, an error reaches exactly the parents it concerns, and a reconcile that
    asks for no retry read everything, brought every document up to date and wrote
    every status.  Status: the conditions say exactly what
    happened, entries of other controllers survive concurrent writes.  Pushes: a
    skipped push would have changed nothing at any endpoint, and a partition's
    bookkeeping is touched by nobody else; the first claim assumes one caller per
    partition at a time ([disciplined]); [late_record_skips_rollback] shows why.
    TLS policies: the policy the status accepts is the one the data plane
    enforces, and one that cannot be honoured never falls back to plaintext.
    Status controllers: listener, entry and Gateway conditions are exact, survive
    concurrent writers, and the controllers that decide the same question agree.
    Data planes: the reconciler touches only what its Gateway owns whatever the
    API answers, converges in one run over the defaulting of the API server, and the rendered pods read the tokens the
    controller pushes with.  Events: a Service event that changes what is pushed
    reaches a route that uses the Service, with the exceptions stated there; a Secret
    or grant event that enqueues nothing changes nothing that is read; the startup sync ends with its first
    complete success; an endpoint event replays exactly the planes it concerns.
    Process: the shutdown of a proxy is staged in every interleaving, and one told to
    stop before it dialled never dials; the daemon and the manager start complete and
    as configured, or not at all.  Concurrency: pushing concurrently is pushing each, an
    upgraded session keeps its bytes in order and ends, the gauges never leak.  The
    wire: trailers and timeouts arrive as they were sent.  Reports: a reconcile reports
    every route of its kind whatever fails, and gRPC over quic is refused in the open.

    Lemmas that record where the code departs from its comments:
    [method_tier_not_strict], [exact_rule_after_prefix],
    [tie_break_is_per_component], [grpc_filter_status_overwritten],
    [recreated_gateway_stale], [foreign_group_binds],
    [foreign_gateway_widens_scope], [empty_regex_path_refused], [upgrade_keeps_internal_headers],
    [client_marker_blocks_restore], [base_path_escape_lost],
    [diagnostics_cross_kinds], [unevaluated_parent_accepted],
    [failed_refs_message_over_cap], [edge_hint_on_pending_route],
    [late_record_skips_rollback], [orphaned_ancestors_kept],
    [foreign_route_no_ancestor], [foreign_group_target_applies],
    [unknown_san_accepted_but_refused], [grant_list_failure_invalidates],
    [route_counted_twice], [listenerset_ref_counted],
    [conflicted_set_entry_ignored], [unserved_set_accepted],
    [unreadable_secret_disagrees], [mirror_grant_unmapped],
    [same_generation_ignored], [rotation_ignored],
    [listener_certificate_unmapped], [empty_token_reported_valid],
    [address_endpoints_unwatched], [bare_service_unrecognised],
    [revision_ambiguous], [config_failure_exits_zero],
    [informational_status_final], [announced_field_sent_twice],
    [informational_status_recorded], [nan_rate_logs_nothing],
    [nan_trace_rate_unclamped], [cross_type_loser_stale],
    [namespace_domain_unrecognised], [handler_returns_while_copying].

    ** Parameters and bounds

    [Regexp] (the RE2 engine), [UrlParser] ([url.Parse]), [Sha256],
    [JsonConfig] (the JSON codec), [Cluster], [GrantClient] and [Client] (the
    Kubernetes API), [ServiceReader] and [Resolvers] (reads of Services and
    reference targets), [DurationParser] ([time.ParseDuration]),
    [KubeClient], [ListenerViews] and [ConfigReader] (reads of Gateways,
    ListenerSets, classes, Secrets and custom resources), [TokenDecoder] and
    [UuidParser] (connector tokens and tunnel ids), [SelectorParser] (label
    selectors), [HostLookup] (DNS of the push endpoints), [PolicyReader] and
    [PemReader] (TLS policies and their certificates), [CloudflareAPI] (the tunnel configurations), [HttpGuts]
    (token lists of a header), [X509] (certificates), [ErrorText] (texts of
    errors), [WildcardOrder], [EntrySort] and [SortFunc] (what an unstable sort
    may return), the draws of [math/rand], [SecretReader], [GatewayReader],
    [RouteLists], [DeploymentReader] and the CRD reader (reads of the status
    controllers), [ApiText], [StatusText] and [SetText] (texts of their errors),
    [FloatParser] ([strconv.ParseFloat]), [TimeoutsCodec] (the JSON of a
    timeouts object), [FloatProduct] (the multiplication of floats in
    [time.ParseDuration]), [ManagerEnv] and [LabelSelectorParser] (controller-runtime),
    [Cloudflared] (the constructors of the daemon), [UpgradeNet] (the backend and the
    writer of an upgrade), [ApiServer] (the pull policy and the address the API server
    chooses where a spec names none), [random_bytes] (the generated token), and [secret_fault] with the fault script
    of a [PlaneState] (what the API answers the infrastructure reconciler).  No theorem assumes
    more of them than its statement says; [UrlParserLaws], [Sha256Laws],
    [X509Laws], [ConfigReaderLaws], [FloatProductLaws] and [Generations] name the laws
    theorems need.
    The API server's optimistic locking is the hypothesis of the status write: one
    resource version is one object.  Loops are structural, and the compare-and-swap
    loop recurses on the list of interfering actions; only Euclid's loop of
    [expand_headless.go] has fuel, 64 rounds, which [gcd_loop_gcd] shows to be
    enough for every 32-bit weight.  [int] is 64 bits; sums and priorities wrap and the theorems show
    when they do not.  Strings are bytes; case folding is ASCII, which is what
    host names and header names need.

    ** Not modelled

    What is left is not the program's own logic or cannot be stated about it.  The
    registration of instruments, their export and the log handlers have no state the
    program reads back.  The HTTP servers, the reverse proxy, the transports and the
    mux are the standard library; cloudflared and controller-runtime are other
    projects, and so is the registration of watches with them (which watches exist
    and their predicates are in [RouteController] and [RouteReconcilers]).  Secret and
    CRD caches and the latency between a write and its read belong to the API client.
    The construction of clients and the flags of the command line only pass values on.
    Generated code and the packages that compare documents with code ([docsdrift],
    [rbacdrift]) serve the build. *)
From stdpp Require Import sorting.
From stdpp Require Import base gmap strings numbers list.

(** ** Scope and automation *)

Declare Scope go_scope.
Delimit Scope go_scope with go.
Create HintDb go discriminated.
Create Rewrite HintDb go_rw.

(** Case analysis on the boolean tests and matches a translated function
    performs, with the trivial equations solved on the way. *)
Ltac go_cases :=
  simplify_eq/=; try done; repeat (case_match; simplify_eq/=; try done).

(** Turns boolean facts of the executable definitions into propositions. *)
Ltac breflect :=
  repeat match goal with
  | H : (_ && _) = true |- _ => apply andb_true_iff in H as [??]
  | H : (_ || _) = true |- _ => apply orb_true_iff in H
  | H : (_ || _) = false |- _ => apply orb_false_iff in H as [??]
  | H : negb _ = true |- _ => apply negb_true_iff in H
  | H : negb _ = false |- _ => apply negb_false_iff in H
  | H : bool_decide _ = true |- _ => apply bool_decide_eq_true in H
  | H : bool_decide _ = false |- _ => apply bool_decide_eq_false in H
  | H : (_ <=? _)%Z = true |- _ => apply Z.leb_le in H
  | H : (_ <=? _)%Z = false |- _ => apply Z.leb_gt in H
  | H : (_ <? _)%Z = true |- _ => apply Z.ltb_lt in H
  | H : (_ <? _)%Z = false |- _ => apply Z.ltb_ge in H
  | H : (_ =? _)%Z = true |- _ => apply Z.eqb_eq in H
  | H : (_ =? _)%Z = false |- _ => apply Z.eqb_neq in H
  | H : (_ <=? _)%nat = true |- _ => apply Nat.leb_le in H
  | H : (_ <=? _)%nat = false |- _ => apply Nat.leb_gt in H
  | H : (_ <? _)%nat = true |- _ => apply Nat.ltb_lt in H
  | H : (_ <? _)%nat = false |- _ => apply Nat.ltb_ge in H
  end.

(** ** Results: a Go function returning [(value, error)] *)

Inductive res (E A : Type) : Type :=
| Ok (a : A)
| Err (e : E).
Arguments Ok {E A} a.
Arguments Err {E A} e.

Global Instance res_ret {E} : MRet (res E) := fun A a => Ok a.
Global Instance res_bind {E} : MBind (res E) := fun A B f m =>
  match m with Ok a => f a | Err e => Err e end.
Global Instance res_fmap {E} : FMap (res E) := fun A B f m =>
  match m with Ok a => Ok (f a) | Err e => Err e end.

Definition is_ok {E A} (m : res E A) : bool :=
  match m with Ok _ => true | Err _ => false end.

(** [errors.Wrap(err, ...)]. *)
Definition map_err {E F A} (f : E -> F) (m : res E A) : res F A :=
  match m with Ok a => Ok a | Err e => Err (f e) end.

(** A [for idx, x := range l { y, err := f(idx, x); if err != nil { return nil, err }; out = append(out, y) }]. *)
Fixpoint mapi_res_from {E A B} (i : nat) (f : nat -> A -> res E B) (l : list A) : res E (list B) :=
  match l with
  | [] => Ok []
  | x :: l' => y ← f i x; ys ← mapi_res_from (S i) f l'; Ok (y :: ys)
  end.
Definition mapi_res {E A B} (f : nat -> A -> res E B) (l : list A) : res E (list B) :=
  mapi_res_from 0 f l.

(** A [for idx, x := range l { if err := f(idx, x); err != nil { return err } }]. *)
Fixpoint iteri_res_from {E A} (i : nat) (f : nat -> A -> res E unit) (l : list A) : res E unit :=
  match l with
  | [] => Ok tt
  | x :: l' => _ ← f i x; iteri_res_from (S i) f l'
  end.
Definition iteri_res {E A} (f : nat -> A -> res E unit) (l : list A) : res E unit :=
  iteri_res_from 0 f l.

Section bind_lemmas.
Context {E A B : Type}.

Lemma bind_Ok (m : res E A) (f : A -> res E B) b :
  (m ≫= f) = Ok b <-> exists a, m = Ok a /\ f a = Ok b.
Proof. destruct m; simpl; split; [eauto|by intros (? & [= ->] & ?)|done|by intros (? & ? & ?)]. Qed.

Lemma bind_Err (m : res E A) (f : A -> res E B) e :
  (m ≫= f) = Err e <-> m = Err e \/ exists a, m = Ok a /\ f a = Err e.
Proof.
  destruct m; simpl; split.
  - eauto.
  - by intros [?|(? & [= ->] & ?)].
  - intros [= ->]. by left.
  - by intros [[= ->]|(? & ? & ?)].
Qed.

Lemma seq_Ok (m : res E unit) (k : res E B) b :
  (_ ← m; k) = Ok b <-> m = Ok tt /\ k = Ok b.
Proof. destruct m as [[]|]; simpl; split; try done; by intros [??]. Qed.

Lemma map_err_Ok {F} (g : E -> F) (m : res E A) a : map_err g m = Ok a <-> m = Ok a.
Proof. by destruct m; simpl; split; intros [=->]. Qed.

End bind_lemmas.

Section loop_lemmas.
Context {E A B : Type}.

Lemma mapi_res_from_Ok (f : nat -> A -> res E B) l i ys :
  mapi_res_from i f l = Ok ys <->
  length ys = length l /\
  forall k x, l !! k = Some x -> exists y, ys !! k = Some y /\ f (i + k) x = Ok y.
Proof.
  revert i ys. induction l as [|x l IH]; intros i ys; cbn [mapi_res_from].
  - split; [intros [= <-]; done|]. intros [Hl _]. by destruct ys.
  - rewrite bind_Ok. setoid_rewrite bind_Ok. split.
    + intros (y & Hy & ys' & Hys & [= <-]). apply IH in Hys as [Hlen Hall]. split; [simpl; lia|].
      intros [|k] z Hz; simplify_eq/=.
      * exists y. by rewrite Nat.add_0_r.
      * destruct (Hall k z Hz) as (y' & ? & ?). exists y'. split; [done|].
        by replace (i + S k) with (S i + k) by lia.
    + intros [Hlen Hall]. destruct ys as [|y ys]; [done|].
      destruct (Hall 0 x eq_refl) as (y' & Hy' & Hf); simplify_eq/=.
      rewrite Nat.add_0_r in Hf. exists y'. split; [done|]. exists ys. split; [|done].
      apply IH. split; [lia|]. intros k z Hz.
      destruct (Hall (S k) z Hz) as (w & ? & Hw). exists w. split; [done|].
      by replace (S i + k) with (i + S k) by lia.
Qed.

Lemma iteri_res_from_Ok (f : nat -> A -> res E unit) l i :
  iteri_res_from i f l = Ok tt <-> forall k x, l !! k = Some x -> f (i + k) x = Ok tt.
Proof.
  revert i. induction l as [|x l IH]; intros i; cbn [iteri_res_from]; [done|].
  rewrite bind_Ok. split.
  - intros ([] & Hx & Hl) [|k] z Hz; simplify_eq/=.
    + by rewrite Nat.add_0_r.
    + replace (i + S k) with (S i + k) by lia. by apply IH.
  - intros Hall. exists tt. split.
    + specialize (Hall 0 x eq_refl). by rewrite Nat.add_0_r in Hall.
    + apply IH. intros k z Hz. specialize (Hall (S k) z Hz).
      by replace (i + S k) with (S i + k) in Hall by lia.
Qed.
End loop_lemmas.

(** ** Machine integers: [int32], [int64] (and [int], 64 bits wide) as [Z] *)

Definition MaxInt32 : Z := 2147483647.
Definition MaxInt64 : Z := 9223372036854775807.
Definition wrap (w : Z) (z : Z) : Z := (z + 2 ^ (w - 1)) mod 2 ^ w - 2 ^ (w - 1).
Definition int32 (z : Z) : Z := wrap 32 z.
Definition int64 (z : Z) : Z := wrap 64 z.
Definition is_int32 (z : Z) : Prop := (- MaxInt32 - 1 <= z <= MaxInt32)%Z.
Definition is_int64 (z : Z) : Prop := (- MaxInt64 - 1 <= z <= MaxInt64)%Z.

Lemma int32_id z : is_int32 z -> int32 z = z.
Proof.
  unfold is_int32, MaxInt32, int32, wrap. intros H.
  change (2 ^ (32 - 1))%Z with 2147483648%Z. change (2 ^ 32)%Z with 4294967296%Z.
  rewrite Z.mod_small; lia.
Qed.
Lemma int64_id z : is_int64 z -> int64 z = z.
Proof.
  unfold is_int64, MaxInt64, int64, wrap. intros H.
  change (2 ^ (64 - 1))%Z with 9223372036854775808%Z.
  change (2 ^ 64)%Z with 18446744073709551616%Z.
  rewrite Z.mod_small; lia.
Qed.

(** ** Stable sorting: [sort.SliceStable] and [slices.SortStableFunc]

    The stable sort of a list for a "less" test is unique, so any algorithm
    computes it; insertion sort is the executable definition used here. *)

Section stable_sort.
Context {A : Type} (less : A -> A -> bool).

Fixpoint insert_by (x : A) (l : list A) : list A :=
  match l with
  | [] => [x]
  | y :: l' => if less y x then y :: insert_by x l' else x :: y :: l'
  end.
Definition stable_sort (l : list A) : list A := foldr insert_by [] l.

Lemma insert_by_perm x l : insert_by x l ≡ₚ x :: l.
Proof.
  induction l as [|y l IH]; simpl; [done|].
  destruct (less y x); [|done]. rewrite IH. apply Permutation_swap.
Qed.

Lemma stable_sort_perm l : stable_sort l ≡ₚ l.
Proof.
  induction l as [|x l IH]; [done|]. unfold stable_sort in *. simpl.
  rewrite insert_by_perm. by rewrite IH.
Qed.

Lemma elem_of_stable_sort x l : x ∈ stable_sort l <-> x ∈ l.
Proof. by rewrite stable_sort_perm. Qed.
End stable_sort.

(** The order a "less" test induces: [x] may stand before [y]. *)
Definition not_after {A} (less : A -> A -> bool) (x y : A) : Prop := less y x = false.

(** A "less" test is a strict weak order when it is asymmetric and its
    complement is transitive; every comparator of the program is one. *)
Class StrictWeak {A} (less : A -> A -> bool) : Prop := {
  sw_asym x y : less x y = true -> less y x = false;
  sw_trans x y z : not_after less x y -> not_after less y z -> not_after less x z;
}.

Section stable_sort_sorted.
Context {A : Type} (less : A -> A -> bool) `{!StrictWeak less}.

Lemma insert_by_sorted x l :
  StronglySorted (not_after less) l -> StronglySorted (not_after less) (insert_by less x l).
Proof.
  induction 1 as [|y l Hl IH Hy]; simpl; [repeat constructor|].
  destruct (less y x) eqn:Hyx.
  - constructor; [done|]. rewrite insert_by_perm. constructor; [|done].
    by apply sw_asym.
  - constructor; [by constructor|]. constructor; [done|].
    rewrite Forall_forall in Hy |- *. intros z Hz. eapply sw_trans; [|by apply Hy]. done.
Qed.

Lemma stable_sort_sorted l : StronglySorted (not_after less) (stable_sort less l).
Proof. induction l; simpl; [constructor|by apply insert_by_sorted]. Qed.

(** Sorting a sorted list changes nothing. *)
Lemma stable_sort_id l : StronglySorted (not_after less) l -> stable_sort less l = l.
Proof.
  induction 1 as [|x l Hl IH Hx]; [done|]. unfold stable_sort in *. simpl. rewrite IH.
  destruct Hx as [|y l Hy _]; [done|]. simpl. unfold not_after in Hy. by rewrite Hy.
Qed.

(** When ties only happen between equal elements the sorted list does not
    depend on the order the input arrived in. *)
Lemma stable_sort_order_independent l1 l2 :
  (forall x y, x ∈ l1 -> y ∈ l1 -> less x y = false -> less y x = false -> x = y) ->
  l1 ≡ₚ l2 -> stable_sort less l1 = stable_sort less l2.
Proof.
  intros Htie Hp. apply (StronglySorted_unique_strong (not_after less)).
  - intros x y Hx%elem_of_stable_sort Hy%elem_of_stable_sort Hxy Hyx.
    rewrite <-Hp in Hy. by apply Htie.
  - apply stable_sort_sorted.
  - apply stable_sort_sorted.
  - by rewrite !stable_sort_perm.
Qed.
End stable_sort_sorted.

(** Comparator chains: [if c := cmp.Compare(key(x), key(y)); c != 0 { return c }; ...]. *)
Class StrictTotal {K} (lt : K -> K -> bool) : Prop := {
  st_weak :: StrictWeak lt;
  st_total a b : lt a b = false -> lt b a = false -> a = b;
}.
Section lex.
Context {A K : Type} `{!EqDecision K} (key : A -> K) (lt : K -> K -> bool) (rest : A -> A -> bool).

Definition lex_less (x y : A) : bool :=
  if negb (bool_decide (key x = key y)) then lt (key x) (key y) else rest x y.
Definition by_key (x y : A) : bool := lt (key x) (key y).

Context `{!StrictTotal lt}.

Global Instance by_key_strict : StrictWeak by_key.
Proof. split; unfold by_key, not_after; intros; [by apply sw_asym|by eapply sw_trans]. Qed.

Context `{!StrictWeak rest}.

Global Instance lex_less_strict : StrictWeak lex_less.
Proof.
  split.
  - intros x y. unfold lex_less. rewrite (bool_decide_ext (key y = key x) (key x = key y)) by done.
    case_bool_decide; simpl; [apply sw_asym|apply (sw_asym (less := lt))].
  - intros x y z. unfold not_after, lex_less.
    destruct (bool_decide_reflect (key y = key x)) as [Hyx|Hyx],
      (bool_decide_reflect (key z = key y)) as [Hzy|Hzy],
      (bool_decide_reflect (key z = key x)) as [Hzx|Hzx]; simpl; intros H1 H2; try congruence.
    + by apply (sw_trans (less := rest) _ y).
    + destruct Hyx. rewrite Hzx in H2. by apply (st_total (lt := lt)).
    + by apply (sw_trans (less := lt) _ (key y)).
Qed.
Lemma lex_less_tie x y :
  lex_less x y = false -> lex_less y x = false -> key x = key y /\ rest x y = false /\ rest y x = false.
Proof.
  unfold lex_less. rewrite (bool_decide_ext (key y = key x) (key x = key y)) by done.
  case_bool_decide as Hk; simpl; [done|]. intros H1 H2. destruct Hk. by apply (st_total (lt := lt)).
Qed.
End lex.

Global Instance Z_ltb_total : StrictTotal Z.ltb.
Proof.
  split; [split|]; unfold not_after; intros *; rewrite ?Z.ltb_lt, ?Z.ltb_ge; lia.
Qed.

Definition bool_less (a b : bool) : bool := a && negb b.
Global Instance bool_less_total : StrictTotal bool_less.
Proof. split; [split|]; unfold not_after; intros [] []; try done; by intros []. Qed.

(** ** List lemmas shared by the components *)

Lemma find_first_sorted {A} (R : A -> A -> Prop) (p : A -> bool) (l : list A) x :
  StronglySorted R l -> List.find p l = Some x ->
  x ∈ l /\ p x = true /\ forall y, y ∈ l -> p y = true -> y = x \/ R x y.
Proof.
  induction 1 as [|z l Hl IH Hz]; simpl; [done|].
  destruct (p z) eqn:Hpz.
  - intros [= ->]. split_and!; [by left|done|].
    intros y Hy _. apply elem_of_cons in Hy as [->|Hy]; [by left|right].
    rewrite Forall_forall in Hz. by apply Hz.
  - intros (Hx & Hpx & Hall)%IH. split_and!; [by right|done|].
    intros y [->|Hy]%elem_of_cons Hpy; [congruence|]. by apply Hall.
Qed.

Lemma find_none_forall {A} (p : A -> bool) (l : list A) :
  List.find p l = None <-> forall x, x ∈ l -> p x = false.
Proof.
  induction l as [|y l IH]; simpl; [by split; [intros _ x ?%elem_of_nil|]|].
  destruct (p y) eqn:Hp; split.
  - done.
  - intros H. rewrite (H y) in Hp; [done|by left].
  - intros H x Hx. apply elem_of_cons in Hx as [->|Hx]; [done|]. by apply (proj1 IH H).
  - intros H. apply (proj2 IH). intros x Hx. apply H. by right.
Qed.

Lemma existsb_elem_of {A} (p : A -> bool) (l : list A) :
  existsb p l = true <-> exists x, x ∈ l /\ p x = true.
Proof. rewrite existsb_exists. by setoid_rewrite list_elem_of_In. Qed.

Lemma existsb_elem_of_false {A} (p : A -> bool) (l : list A) :
  existsb p l = false <-> forall x, x ∈ l -> p x = false.
Proof.
  rewrite <-not_true_iff_false, existsb_elem_of. split.
  - intros H x Hx. apply not_true_iff_false. intros Hp. apply H. by exists x.
  - intros H (x & Hx & Hp). specialize (H x Hx). congruence.
Qed.

Lemma forallb_elem_of {A} (p : A -> bool) (l : list A) :
  forallb p l = true <-> forall x, x ∈ l -> p x = true.
Proof. rewrite forallb_forall. by setoid_rewrite list_elem_of_In. Qed.

Lemma StronglySorted_weaken {A} (R1 R2 : A -> A -> Prop) (l : list A) :
  (forall x y, R1 x y -> R2 x y) -> StronglySorted R1 l -> StronglySorted R2 l.
Proof. intros HR. induction 1; constructor; [done|]. eapply Forall_impl; eauto. Qed.

Lemma StronglySorted_lookup {A} (R : A -> A -> Prop) (l : list A) i j x y :
  StronglySorted R l -> l !! i = Some x -> l !! j = Some y -> i < j -> R x y.
Proof.
  intros Hl. revert i j. induction Hl as [|z l Hl IH Hz]; intros [|i] [|j] Hi Hj Hij; simplify_eq/=; try lia.
  - rewrite Forall_forall in Hz. apply Hz. by eapply list_elem_of_lookup_2.
  - apply (IH i j); done || lia.
Qed.

(** Boolean [List.filter], as the loops that skip elements translate to. *)
Lemma elem_of_list_filter {A} (p : A -> bool) (l : list A) x : x ∈ List.filter p l <-> x ∈ l /\ p x = true.
Proof. rewrite !list_elem_of_In, List.filter_In. done. Qed.

Lemma StronglySorted_filter {A} (R : A -> A -> Prop) (p : A -> bool) l :
  StronglySorted R l -> StronglySorted R (List.filter p l).
Proof.
  induction 1 as [|x l Hl IH Hx]; simpl; [constructor|]. destruct (p x); [|done]. constructor; [done|].
  apply Forall_forall. intros y [Hy _]%elem_of_list_filter. rewrite Forall_forall in Hx. auto.
Qed.

Lemma List_filter_all {A} (p : A -> bool) (l : list A) : (forall x, x ∈ l -> p x = true) -> List.filter p l = l.
Proof.
  induction l as [|x l IH]; intros H; simpl; [done|]. rewrite H by (by left). f_equal. apply IH.
  intros y Hy. apply H. by right.
Qed.
Lemma List_filter_none {A} (p : A -> bool) (l : list A) : (forall x, x ∈ l -> p x = false) -> List.filter p l = [].
Proof.
  induction l as [|x l IH]; intros H; simpl; [done|]. rewrite H by (by left). apply IH.
  intros y Hy. apply H. by right.
Qed.
Lemma Permutation_List_filter {A} (p : A -> bool) (l1 l2 : list A) :
  l1 ≡ₚ l2 -> List.filter p l1 ≡ₚ List.filter p l2.
Proof.
  induction 1 as [|x l1 l2 _ IH|x y l|l1 l2 l3 _ IH1 _ IH2]; simpl; [done|..].
  - destruct (p x); [by constructor|done].
  - destruct (p x), (p y); try done. constructor.
  - by transitivity (List.filter p l2).
Qed.

Section filter_lemmas.
Context {A : Type} (P : A -> Prop) `{!forall x, Decision (P x)}.

Lemma filter_all (l : list A) : (forall x, x ∈ l -> P x) -> filter P l = l.
Proof.
  induction l as [|x l IH]; intros Hl; [done|].
  rewrite filter_cons_True by (apply Hl; by left). f_equal. apply IH. intros y Hy. apply Hl. by right.
Qed.
Lemma filter_none (l : list A) : (forall x, x ∈ l -> ~ P x) -> filter P l = [].
Proof.
  induction l as [|x l IH]; intros Hl; [done|].
  rewrite filter_cons_False by (apply Hl; by left). apply IH. intros y Hy. apply Hl. by right.
Qed.
Lemma filter_ext_in (Q : A -> Prop) `{!forall x, Decision (Q x)} (l : list A) :
  (forall x, x ∈ l -> P x <-> Q x) -> filter P l = filter Q l.
Proof.
  induction l as [|x l IH]; intros Hl; [done|].
  assert (Hx : P x <-> Q x) by (apply Hl; by left).
  assert (Ht : filter P l = filter Q l) by (apply IH; intros y Hy; apply Hl; by right).
  rewrite !filter_cons, Ht. repeat case_decide; tauto.
Qed.
End filter_lemmas.
