(* ===== verification/GoStrings.v ===== *)
(** * Go's [strings] package on byte strings

    Go strings are byte sequences; [string] (a list of 8-bit [ascii]) is their
    model.  [ToLower] is the ASCII case fold: hostnames, header names and label
    values are ASCII by the Gateway API CRD patterns the sources cite. *)
From Stdlib Require Import Ascii DecimalString DecimalFacts DecimalZ.
From stdpp Require Import base strings list.
From S2P Require Import Prelude.

(** ** Definitions *)

Fixpoint str_drop (n : nat) (s : string) : string :=
  match n, s with
  | O, _ => s
  | S n', EmptyString => EmptyString
  | S n', String _ s' => str_drop n' s'
  end.
Fixpoint str_take (n : nat) (s : string) : string :=
  match n, s with
  | S n', String c s' => String c (str_take n' s')
  | _, _ => EmptyString
  end.

Definition HasPrefix (s p : string) : bool := String.prefix p s.
Definition HasSuffix (s suffix : string) : bool :=
  (String.length suffix <=? String.length s) &&
  bool_decide (str_drop (String.length s - String.length suffix) s = suffix).
Definition TrimPrefix (s p : string) : string :=
  if HasPrefix s p then str_drop (String.length p) s else s.
Definition TrimSuffix (s p : string) : string :=
  if HasSuffix s p then str_take (String.length s - String.length p) s else s.
Definition CutPrefix (s p : string) : option string :=
  if HasPrefix s p then Some (str_drop (String.length p) s) else None.

Fixpoint string_map (f : ascii -> ascii) (s : string) : string :=
  match s with
  | EmptyString => EmptyString
  | String c s' => String (f c) (string_map f s')
  end.
Definition byte_val (c : ascii) : N := N_of_ascii c.
Definition in_range (lo hi : ascii) (c : ascii) : bool :=
  (byte_val lo <=? byte_val c)%N && (byte_val c <=? byte_val hi)%N.
Definition is_upper (c : ascii) : bool := in_range "A" "Z" c.
Definition is_lower (c : ascii) : bool := in_range "a" "z" c.
Definition is_digit (c : ascii) : bool := in_range "0" "9" c.
Definition lower_byte (c : ascii) : ascii :=
  if is_upper c then ascii_of_N (byte_val c + 32) else c.
Definition upper_byte (c : ascii) : ascii :=
  if is_lower c then ascii_of_N (byte_val c - 32) else c.
Definition ToLower (s : string) : string := string_map lower_byte s.
Definition EqualFold (s t : string) : bool := bool_decide (ToLower s = ToLower t).

Fixpoint str_existsb (p : ascii -> bool) (s : string) : bool :=
  match s with
  | EmptyString => false
  | String c s' => p c || str_existsb p s'
  end.
Fixpoint str_forallb (p : ascii -> bool) (s : string) : bool :=
  match s with
  | EmptyString => true
  | String c s' => p c && str_forallb p s'
  end.

(** [strings.IndexByte] and [strings.LastIndexByte]; [-1] is [None]. *)
Fixpoint IndexByte (s : string) (c : ascii) : option nat :=
  match s with
  | EmptyString => None
  | String d s' => if bool_decide (d = c) then Some 0 else S <$> IndexByte s' c
  end.
Fixpoint LastIndexByte (s : string) (c : ascii) : option nat :=
  match s with
  | EmptyString => None
  | String d s' =>
      match LastIndexByte s' c with
      | Some i => Some (S i)
      | None => if bool_decide (d = c) then Some 0 else None
      end
  end.
Definition ContainsByte (s : string) (c : ascii) : bool :=
  str_existsb (fun d => bool_decide (d = c)) s.

(** [strings.Cut(s, sep)]: the text around the first [sep]. *)
Fixpoint Cut (s sep : string) : option (string * string) :=
  if HasPrefix s sep then Some (EmptyString, str_drop (String.length sep) s)
  else match s with
       | EmptyString => None
       | String c s' =>
           match Cut s' sep with
           | Some (before, after) => Some (String c before, after)
           | None => None
           end
       end.

Fixpoint Join (l : list string) (sep : string) : string :=
  match l with
  | [] => EmptyString
  | [x] => x
  | x :: l' => x +:+ sep +:+ Join l' sep
  end.

(** [strings.Replace(s, old, new, 1)] for a non-empty [old]. *)
Definition Replace1 (s old new : string) : string :=
  match Cut s old with
  | Some (before, after) => before +:+ new +:+ after
  | None => s
  end.

(** [strings.Split(s, "c")] for a one-byte separator. *)
Fixpoint SplitByte (s : string) (c : ascii) : list string :=
  match s with
  | EmptyString => [EmptyString]
  | String d s' =>
      if bool_decide (d = c) then EmptyString :: SplitByte s' c
      else match SplitByte s' c with
           | [] => [String d EmptyString]
           | x :: l => String d x :: l
           end
  end.

Definition is_space (c : ascii) : bool := Ascii.is_space c.
Fixpoint TrimLeftSpace (s : string) : string :=
  match s with
  | String c s' => if is_space c then TrimLeftSpace s' else s
  | EmptyString => EmptyString
  end.
Fixpoint TrimRightSpace (s : string) : string :=
  match s with
  | EmptyString => EmptyString
  | String c s' =>
      match TrimRightSpace s' with
      | EmptyString => if is_space c then EmptyString else String c EmptyString
      | t => String c t
      end
  end.
Definition TrimSpace (s : string) : string := TrimRightSpace (TrimLeftSpace s).

(** [a < b] on strings, i.e. [strings.Compare(a, b) < 0]. *)
Definition str_ltb (a b : string) : bool :=
  match String.compare a b with Lt => true | _ => false end.

(** [strconv.Itoa] / [fmt.Sprintf("%d")]. *)
Definition Itoa (z : Z) : string := NilZero.string_of_int (Z.to_int z).

(** ** Algebra of concatenation *)

Lemma sapp_nil_l s : EmptyString +:+ s = s.
Proof. done. Qed.
Lemma sapp_cons c s t : String c s +:+ t = String c (s +:+ t).
Proof. done. Qed.
Lemma sapp_nil_r s : s +:+ EmptyString = s.
Proof. induction s as [|c s IH]; [done|]. by rewrite sapp_cons, IH. Qed.
Lemma sapp_assoc s t u : (s +:+ t) +:+ u = s +:+ (t +:+ u).
Proof. induction s as [|c s IH]; [done|]. by rewrite !sapp_cons, IH. Qed.
Lemma length_sapp s t : String.length (s +:+ t) = String.length s + String.length t.
Proof. induction s as [|c s IH]; [done|]. rewrite sapp_cons. simpl. lia. Qed.
Lemma sapp_inv_head s t u : s +:+ t = s +:+ u -> t = u.
Proof. induction s as [|c s IH]; [done|]. rewrite !sapp_cons. intros [= H]. auto. Qed.
Lemma str_drop_app s t : str_drop (String.length s) (s +:+ t) = t.
Proof. by induction s. Qed.
Lemma str_take_app s t : str_take (String.length s) (s +:+ t) = s.
Proof. induction s as [|c s IH]; [by destruct t|]. rewrite sapp_cons. simpl. by f_equal. Qed.
Lemma str_take_drop n s : str_take n s +:+ str_drop n s = s.
Proof.
  revert s. induction n as [|n IH]; intros [|c s]; try done.
  simpl. rewrite sapp_cons. by f_equal.
Qed.
Lemma sapp_inv_tail s t u : t +:+ s = u +:+ s -> t = u.
Proof.
  intros H. assert (String.length t = String.length u) as Hl.
  { apply (f_equal String.length) in H. rewrite !length_sapp in H. lia. }
  by rewrite <-(str_take_app t s), Hl, H, str_take_app.
Qed.
Lemma sapp_eq_length_l s1 t1 s2 t2 :
  String.length s1 = String.length s2 -> s1 +:+ t1 = s2 +:+ t2 -> s1 = s2 /\ t1 = t2.
Proof.
  intros Hl H. assert (s1 = s2) as ->.
  { by rewrite <-(str_take_app s1 t1), Hl, H, str_take_app. }
  split; [done|]. by apply sapp_inv_head in H.
Qed.
Lemma sapp_eq_length_r s1 t1 s2 t2 :
  String.length t1 = String.length t2 -> s1 +:+ t1 = s2 +:+ t2 -> s1 = s2 /\ t1 = t2.
Proof.
  intros Hl H. apply sapp_eq_length_l; [|done].
  apply (f_equal String.length) in H. rewrite !length_sapp in H. lia.
Qed.
Lemma slength_zero s : String.length s = 0 <-> s = EmptyString.
Proof. by destruct s. Qed.

(** ** What the tests mean *)

Lemma HasPrefix_spec s p : HasPrefix s p = true <-> exists t, s = p +:+ t.
Proof.
  unfold HasPrefix. split.
  - revert s. induction p as [|c p IH]; intros s; [by exists s|].
    destruct s as [|d s]; simpl; [done|].
    destruct (ascii_dec c d) as [->|]; [|done].
    intros (t & ->)%IH. by exists t.
  - intros (t & ->). induction p as [|c p IH]; [by destruct t|].
    rewrite sapp_cons. simpl. by destruct (ascii_dec c c).
Qed.

Lemma HasSuffix_spec s suf : HasSuffix s suf = true <-> exists t, s = t +:+ suf.
Proof.
  unfold HasSuffix. split.
  - intros H. breflect. exists (str_take (String.length s - String.length suf) s).
    rewrite <-H0 at 2. by rewrite str_take_drop.
  - intros (t & ->). rewrite length_sapp.
    replace (String.length t + String.length suf - String.length suf)
      with (String.length t) by lia.
    rewrite str_drop_app, bool_decide_true by done.
    apply andb_true_iff. split; [|done]. apply Nat.leb_le. lia.
Qed.

Lemma HasPrefix_app s p : HasPrefix (p +:+ s) p = true.
Proof. apply HasPrefix_spec. eauto. Qed.
Lemma HasSuffix_app s suf : HasSuffix (s +:+ suf) suf = true.
Proof. apply HasSuffix_spec. eauto. Qed.
Lemma HasSuffix_refl s : HasSuffix s s = true.
Proof. apply HasSuffix_spec. by exists EmptyString. Qed.

Lemma HasSuffix_length s suf : HasSuffix s suf = true -> String.length suf <= String.length s.
Proof. intros (t & ->)%HasSuffix_spec. rewrite length_sapp. lia. Qed.

(** Two suffixes of one string are nested; of equal length they are equal. *)
Lemma suffix_nested t1 s1 t2 s2 :
  t1 +:+ s1 = t2 +:+ s2 -> String.length s2 <= String.length s1 ->
  exists u, s1 = u +:+ s2 /\ t2 = t1 +:+ u.
Proof.
  intros H Hl. exists (str_drop (String.length t1) t2).
  assert (Hlen := f_equal String.length H). rewrite !length_sapp in Hlen.
  assert (t2 = t1 +:+ str_drop (String.length t1) t2) as Ht2.
  { assert (str_take (String.length t1) (t2 +:+ s2) = t1) as Ht by (by rewrite <-H, str_take_app).
    rewrite <-(str_take_drop (String.length t1) t2) at 1. f_equal.
    rewrite <-(str_take_drop (String.length t1) t2), sapp_assoc in Ht.
    assert (String.length (str_take (String.length t1) t2) = String.length t1) as Hlt.
    { assert (String.length t1 <= String.length t2) as Hle by lia. clear -Hle.
      revert t2 Hle. induction t1; intros [|c t2] Hle; simpl in *; try lia.
      f_equal. apply IHt1. lia. }
    rewrite <-Hlt in Ht at 1. by rewrite str_take_app in Ht. }
  split; [|done]. rewrite Ht2, sapp_assoc in H. by apply sapp_inv_head in H.
Qed.

Lemma HasSuffix_same_length h s1 s2 :
  HasSuffix h s1 = true -> HasSuffix h s2 = true ->
  String.length s1 = String.length s2 -> s1 = s2.
Proof.
  intros (t1 & ->)%HasSuffix_spec (t2 & H)%HasSuffix_spec Hl.
  by apply sapp_eq_length_r in H as [_ ->].
Qed.

Lemma TrimPrefix_app p s : TrimPrefix (p +:+ s) p = s.
Proof. unfold TrimPrefix. by rewrite HasPrefix_app, str_drop_app. Qed.
Lemma TrimPrefix_none s p : HasPrefix s p = false -> TrimPrefix s p = s.
Proof. unfold TrimPrefix. by intros ->. Qed.

(** ** Case folding *)

Lemma string_map_app f s t : string_map f (s +:+ t) = string_map f s +:+ string_map f t.
Proof. induction s as [|c s IH]; [done|]. rewrite !sapp_cons. simpl. by rewrite IH. Qed.
Lemma length_string_map f s : String.length (string_map f s) = String.length s.
Proof. induction s; simpl; auto. Qed.
Lemma ToLower_app s t : ToLower (s +:+ t) = ToLower s +:+ ToLower t.
Proof. apply string_map_app. Qed.
Lemma length_ToLower s : String.length (ToLower s) = String.length s.
Proof. apply length_string_map. Qed.
Lemma lower_byte_idemp c : lower_byte (lower_byte c) = lower_byte c.
Proof. by destruct c as [[] [] [] [] [] [] [] []]. Qed.
Lemma ToLower_idemp s : ToLower (ToLower s) = ToLower s.
Proof.
  unfold ToLower. induction s as [|c s IH]; [done|]. simpl. by rewrite lower_byte_idemp, IH.
Qed.
Lemma ToLower_empty s : ToLower s = EmptyString <-> s = EmptyString.
Proof. by destruct s. Qed.

(** ** The order on strings *)

Lemma str_ltb_irrefl a : str_ltb a a = false.
Proof.
  unfold str_ltb. assert (String.compare a a = Eq) as ->; [|done].
  induction a as [|c a IH]; [done|]. simpl. unfold Ascii.compare. by rewrite N.compare_refl.
Qed.
Lemma str_ltb_total a b : str_ltb a b = false -> str_ltb b a = false -> a = b.
Proof.
  unfold str_ltb. rewrite (String.compare_antisym b a).
  destruct (String.compare a b) eqn:H; try done. intros _ _.
  by apply String.compare_eq_iff.
Qed.
Lemma str_leb_ltb a b : str_ltb b a = false <-> String.le a b.
Proof.
  unfold str_ltb, String.le, String.leb. rewrite (String.compare_antisym b a).
  by destruct (String.compare a b).
Qed.
Global Instance str_ltb_sw : StrictWeak str_ltb.
Proof.
  split.
  - intros x y. unfold str_ltb. rewrite (String.compare_antisym y x).
    by destruct (String.compare x y).
  - unfold not_after. intros x y z. rewrite !str_leb_ltb. by intros; etrans.
Qed.
Global Instance str_ltb_strict_total : StrictTotal str_ltb.
Proof. split; [apply _|]. intros a b. apply str_ltb_total. Qed.

#[export] Hint Resolve HasPrefix_app HasSuffix_app HasSuffix_refl : go.
#[export] Hint Rewrite sapp_nil_l sapp_nil_r sapp_assoc length_sapp ToLower_app length_ToLower
  ToLower_idemp : go_rw.

(** ** Cutting *)

Lemma HasPrefix_drop s p : HasPrefix s p = true -> s = p +:+ str_drop (String.length p) s.
Proof. intros [t ->]%HasPrefix_spec. by rewrite str_drop_app. Qed.

Lemma Cut_Some s sep a b : Cut s sep = Some (a, b) -> s = a +:+ sep +:+ b.
Proof.
  revert a b. induction s as [|c s IH]; intros a b; cbn [Cut].
  - destruct (HasPrefix EmptyString sep) eqn:Hp; [|done].
    intros [= <- <-]. by apply HasPrefix_drop.
  - destruct (HasPrefix (String c s) sep) eqn:Hp.
    + intros [= <- <-]. by apply HasPrefix_drop.
    + destruct (Cut s sep) as [[a' b']|]; [|done]. intros [= <- <-].
      by rewrite (IH a' b' eq_refl), sapp_cons.
Qed.

(** Text before a separator byte that does not contain it is cut off whole. *)
Lemma Cut_byte_app a c b :
  str_existsb (fun d => bool_decide (d = c)) a = false ->
  Cut (a +:+ String c b) (String c EmptyString) = Some (a, b).
Proof.
  intros Ha. assert (forall s, HasPrefix (String c s) (String c EmptyString) = true) as Hc.
  { intros s. apply HasPrefix_spec. by exists s. }
  induction a as [|d a IH]; cbn [str_existsb] in Ha.
  - change (EmptyString +:+ String c b) with (String c b). cbn [Cut]. by rewrite Hc.
  - breflect. rewrite sapp_cons. cbn [Cut].
    destruct (HasPrefix (String d (a +:+ String c b)) (String c EmptyString)) eqn:Hp.
    + apply HasPrefix_spec in Hp as [t Ht]. rewrite sapp_cons in Ht. congruence.
    + by rewrite IH.
Qed.

(** The same for a longer separator whose first byte does not occur before it. *)
Lemma Cut_sep_app a c sep b :
  str_existsb (fun d => bool_decide (d = c)) a = false ->
  Cut (a +:+ (String c sep +:+ b)) (String c sep) = Some (a, b).
Proof.
  intros Ha. induction a as [|d a IH]; cbn [str_existsb] in Ha.
  - rewrite sapp_nil_l, sapp_cons. cbn [Cut]. rewrite <-sapp_cons, HasPrefix_app, str_drop_app. done.
  - breflect. rewrite sapp_cons. cbn [Cut].
    destruct (HasPrefix (String d (a +:+ (String c sep +:+ b))) (String c sep)) eqn:Hp.
    + apply HasPrefix_spec in Hp as [t Ht]. rewrite !sapp_cons in Ht. congruence.
    + by rewrite IH.
Qed.

(** ** Decimal numerals and joined lists *)

Lemma Itoa_inj z1 z2 : Itoa z1 = Itoa z2 -> z1 = z2.
Proof.
  assert (Hto : forall z, Z.of_int (Z.to_int z) = z) by apply DecimalZ.of_to.
  assert (Hnil : forall z, Z.to_int z <> Decimal.Pos Decimal.Nil /\ Z.to_int z <> Decimal.Neg Decimal.Nil).
  { intros z. split; intros H; pose proof (Hto z) as Hz; rewrite H in Hz; simpl in Hz; subst z; discriminate H. }
  intros H. apply DecimalZ.to_int_inj. apply (f_equal NilZero.int_of_string) in H. unfold Itoa in H.
  rewrite !NilZero.isi in H by apply Hnil. congruence.
Qed.

Definition numeral_byte (c : ascii) : bool := is_digit c || bool_decide (c = "-"%char).
Lemma string_of_uint_bytes u : str_forallb numeral_byte (NilEmpty.string_of_uint u) = true.
Proof. induction u; simpl; done. Qed.
Lemma Itoa_bytes z : str_forallb numeral_byte (Itoa z) = true.
Proof.
  assert (Hu : forall u, str_forallb numeral_byte (NilZero.string_of_uint u) = true).
  { intros u. unfold NilZero.string_of_uint. destruct u; [done|apply string_of_uint_bytes..]. }
  unfold Itoa. destruct (Z.to_int z); cbn [NilZero.string_of_int]; [apply Hu|].
  cbn [str_forallb]. apply andb_true_iff. split; [done|apply Hu].
Qed.

(** A byte that does not occur. *)
Definition lacks (c : ascii) (s : string) : Prop := str_existsb (fun d => bool_decide (d = c)) s = false.
Lemma lacks_app c s t : lacks c (s +:+ t) <-> lacks c s /\ lacks c t.
Proof.
  unfold lacks. induction s as [|d s IH]; [by rewrite sapp_nil_l; naive_solver|].
  rewrite sapp_cons. cbn [str_existsb]. rewrite !orb_false_iff, IH. tauto.
Qed.
Lemma lacks_Itoa c z : numeral_byte c = false -> lacks c (Itoa z).
Proof.
  intros Hc. generalize (Itoa_bytes z). unfold lacks. generalize (Itoa z). intros s.
  induction s as [|d s IH]; cbn [str_forallb str_existsb]; [done|].
  rewrite andb_true_iff. intros [Hd Hs]. rewrite IH by done. rewrite orb_false_r.
  apply bool_decide_eq_false_2. intros ->. congruence.
Qed.

(** The first separator splits a string in one way. *)
Lemma cut_inj c a1 b1 a2 b2 :
  lacks c a1 -> lacks c a2 -> a1 +:+ String c b1 = a2 +:+ String c b2 -> a1 = a2 /\ b1 = b2.
Proof.
  intros H1 H2 He. pose proof (Cut_byte_app a1 c b1 H1) as C1. rewrite He in C1.
  rewrite (Cut_byte_app a2 c b2 H2) in C1. by simplify_eq.
Qed.
Lemma Join_byte_inj c l1 l2 :
  (forall s, s ∈ l1 -> s <> "" /\ lacks c s) -> (forall s, s ∈ l2 -> s <> "" /\ lacks c s) ->
  Join l1 (String c EmptyString) = Join l2 (String c EmptyString) -> l1 = l2.
Proof.
  assert (Hcut : forall x l s, lacks c s -> x +:+ String c EmptyString +:+ l = s -> False).
  { intros x l s Hs He. rewrite <-He in Hs. apply lacks_app in Hs as [_ Hs]. unfold lacks in Hs.
    change (String c EmptyString +:+ l) with (String c l) in Hs. cbn [str_existsb] in Hs.
    by rewrite bool_decide_eq_true_2 in Hs. }
  revert l2. induction l1 as [|x l1 IH]; intros l2 H1 H2.
  - destruct l2 as [|y [|z l2]]; [done|..]; cbn [Join]; intros He; destruct (H2 y) as [Hy _]; try by left.
    + by rewrite <-He in Hy.
    + by destruct y.
  - destruct (H1 x) as [Hx Hxc]; [by left|].
    destruct l2 as [|y l2].
    { intros He. exfalso. revert He. destruct l1 as [|x' l1]; cbn [Join]; [done|by destruct x]. }
    destruct (H2 y) as [Hy Hyc]; [by left|].
    destruct l1 as [|x' l1], l2 as [|y' l2].
    + cbn [Join]. by intros ->.
    + cbn [Join]. intros He. exfalso. eapply (Hcut _ _ _ Hxc). exact (eq_sym He).
    + cbn [Join]. intros He. exfalso. eapply (Hcut _ _ _ Hyc). exact He.
    + intros He. change (Join (x :: x' :: l1) (String c EmptyString)) with
        (x +:+ String c (Join (x' :: l1) (String c EmptyString))) in He.
      change (Join (y :: y' :: l2) (String c EmptyString)) with
        (y +:+ String c (Join (y' :: l2) (String c EmptyString))) in He.
      apply cut_inj in He as [-> He]; [|done..]. f_equal. apply IH; [..|done].
      * intros s Hs. apply H1. by right.
      * intros s Hs. apply H2. by right.
Qed.
