(* ===== verification/GoHttp.v ===== *)
(** * Go's [net/http] header map, request and response, [net/url] and [path]

    What the sources use of the Go standard library: canonical header keys and
    the [http.Header] operations, the query-string parser behind
    [url.URL.Query] with its escaping, the components of a URL the program
    reads ([Scheme], [Host], [Path], [RawQuery]; the parser itself is the
    parameter [UrlParser]), and [path.Clean]. *)
From Stdlib Require Import Ascii.
From stdpp Require Import base gmap strings list.
From S2P Require Import Prelude GoStrings.

(** ** [http.Header] *)

(** RFC 7230 token bytes ([textproto.validHeaderFieldByte]). *)
Definition token_byte (c : ascii) : bool :=
  is_upper c || is_lower c || is_digit c ||
  bool_decide (c ∈ ["!"; "#"; "$"; "%"; "&"; "'"; "*"; "+"; "-"; "."; "^"; "_"; "`"; "|"; "~"]%char).

Fixpoint canonicalize (upper : bool) (s : string) : string :=
  match s with
  | EmptyString => EmptyString
  | String c s' =>
      let c' := if upper then upper_byte c else lower_byte c in
      String c' (canonicalize (bool_decide (c' = "-"%char)) s')
  end.
(** [textproto.CanonicalMIMEHeaderKey]: a key with a non-token byte is kept. *)
Definition CanonicalHeaderKey (s : string) : string :=
  if str_forallb token_byte s then canonicalize true s else s.

Abbreviation Header := (gmap string (list string)).
Definition header_Values (h : Header) (k : string) : list string :=
  default [] (h !! CanonicalHeaderKey k).
Definition header_Get (h : Header) (k : string) : string :=
  match header_Values h k with [] => "" | v :: _ => v end.
Definition header_Set (h : Header) (k v : string) : Header :=
  <[CanonicalHeaderKey k := [v]]> h.
Definition header_Add (h : Header) (k v : string) : Header :=
  <[CanonicalHeaderKey k := header_Values h k ++ [v]]> h.
Definition header_Del (h : Header) (k : string) : Header :=
  delete (CanonicalHeaderKey k) h.

(** ** Percent-decoding and query strings *)

Definition ishex (c : ascii) : bool := is_digit c || in_range "a" "f" c || in_range "A" "F" c.
Definition unhex (c : ascii) : N :=
  if is_digit c then byte_val c - byte_val "0"
  else if in_range "a" "f" c then byte_val c - byte_val "a" + 10
  else if in_range "A" "F" c then byte_val c - byte_val "A" + 10
  else 0.

(** [url.unescape]; [plus] is the query-component mode, in which ['+'] is a
    space.  [None] is an [EscapeError]. *)
Fixpoint unescape (plus : bool) (s : string) : option string :=
  match s with
  | EmptyString => Some EmptyString
  | String "%"%char s' =>
      match s' with
      | String a (String b rest) =>
          if ishex a && ishex b then
            String (ascii_of_N (16 * unhex a + unhex b)) <$> unescape plus rest
          else None
      | _ => None
      end
  | String c s' =>
      String (if plus && bool_decide (c = "+"%char) then " "%char else c) <$> unescape plus s'
  end.

(** [url.ParseQuery]: pairs in order; a segment that holds a semicolon or does
    not decode is dropped ([URL.Query] discards the error). *)
Definition parse_query_pair (seg : string) : option (string * string) :=
  if bool_decide (seg = "") || ContainsByte seg ";" then None
  else
    let '(k, v) := default (seg, "") (Cut seg "=") in
    k' ← unescape true k; v' ← unescape true v; Some (k', v').
Definition ParseQuery (q : string) : list (string * string) :=
  omap parse_query_pair (SplitByte q "&").
Definition query_Values (q : string) (k : string) : list string :=
  omap (fun kv => if bool_decide (kv.1 = k) then Some kv.2 else None) (ParseQuery q).
Definition query_Get (q : string) (k : string) : string :=
  match query_Values q k with [] => "" | v :: _ => v end.

(** ** URLs *)

Record URL := mkURL {
  url_Scheme : string;
  url_Host : string;
  url_Path : string;
  url_RawPath : string;
  url_RawQuery : string;
}.

(** [url.Parse] is a parameter: [None] is an error, otherwise the components
    the program reads. *)
Class UrlParser := url_Parse : string -> option URL.

(** Bytes [url.shouldEscape] leaves alone in every mode. *)
Definition unreserved (c : ascii) : bool :=
  is_upper c || is_lower c || is_digit c || bool_decide (c ∈ ["-"; "_"; "."; "~"]%char).
Definition shouldEscapePath (c : ascii) : bool :=
  negb (unreserved c || bool_decide (c ∈ ["$"; "&"; "+"; ","; "/"; ":"; ";"; "="; "@"]%char)).
Definition shouldEscapeHost (c : ascii) : bool :=
  negb (unreserved c ||
        bool_decide (c ∈ ["!"; "$"; "&"; "'"; "("; ")"; "*"; "+"; ","; ";"; "="; ":"; "["; "]";
                          "<"; ">"; "034"]%char)).
(** [url.QueryEscape]: every reserved byte is escaped, a space becomes ['+']. *)
Definition shouldEscapeQuery (c : ascii) : bool := negb (unreserved c).

Definition hex_digit (n : N) : ascii :=
  if (n <? 10)%N then ascii_of_N (byte_val "0" + n) else ascii_of_N (byte_val "A" + n - 10).
Fixpoint escape (should : ascii -> bool) (plus : bool) (s : string) : string :=
  match s with
  | EmptyString => EmptyString
  | String c s' =>
      if plus && bool_decide (c = " "%char) then String "+" (escape should plus s')
      else if should c then
        String "%" (String (hex_digit (byte_val c / 16)) (String (hex_digit (byte_val c mod 16))
          (escape should plus s')))
      else String c (escape should plus s')
  end.
Definition QueryEscape (s : string) : string := escape shouldEscapeQuery true s.

Definition validEncodedPath (s : string) : bool :=
  str_forallb (fun c =>
    bool_decide (c ∈ ["!"; "$"; "&"; "'"; "("; ")"; "*"; "+"; ","; ";"; "="; ":"; "@"; "["; "]"; "%"]%char)
    || negb (shouldEscapePath c)) s.
Definition EscapedPath (u : URL) : string :=
  if negb (bool_decide (url_RawPath u = "")) && validEncodedPath (url_RawPath u) &&
     bool_decide (unescape false (url_RawPath u) = Some (url_Path u))
  then url_RawPath u
  else if bool_decide (url_Path u = "*") then "*"
  else escape shouldEscapePath false (url_Path u).

Definition with_query (s q : string) : string := if bool_decide (q = "") then s else s +:+ "?" +:+ q.

(** [URL.String] for a URL with a scheme, no user info and no fragment. *)
Definition URL_String (u : URL) : string :=
  let path := EscapedPath u in
  let authority :=
    (if negb (bool_decide (url_Host u = "")) || negb (bool_decide (url_Path u = "")) then "//" else "")
    +:+ escape shouldEscapeHost false (url_Host u) in
  let slash := if negb (bool_decide (path = "")) && negb (HasPrefix path "/") &&
                  negb (bool_decide (url_Host u = "")) then "/" else "" in
  with_query (url_Scheme u +:+ ":" +:+ authority +:+ slash +:+ path) (url_RawQuery u).

(** [URL.RequestURI] for a URL without an opaque part. *)
Definition RequestURI (u : URL) : string :=
  let path := EscapedPath u in
  with_query (if bool_decide (path = "") then "/" else path) (url_RawQuery u).

(** ** [path.Clean] on the segments between slashes *)

Fixpoint clean_segments (rooted : bool) (stack segs : list string) : list string :=
  match segs with
  | [] => rev stack
  | seg :: segs' =>
      if bool_decide (seg = "") || bool_decide (seg = ".") then clean_segments rooted stack segs'
      else if bool_decide (seg = "..") then
        match stack with
        | top :: stack' =>
            if bool_decide (top = "..") then clean_segments rooted (".." :: stack) segs'
            else clean_segments rooted stack' segs'
        | [] => clean_segments rooted (if rooted then [] else [".."]) segs'
        end
      else clean_segments rooted (seg :: stack) segs'
  end.
Definition Clean (p : string) : string :=
  if bool_decide (p = "") then "."
  else
    let rooted := HasPrefix p "/" in
    let body := Join (clean_segments rooted [] (SplitByte p "/")) "/" in
    if rooted then "/" +:+ body else if bool_decide (body = "") then "." else body.

(** ** Requests and responses *)

(** A request body: absent, or a reader that yields [data] and then either the
    end of the stream or a read error. *)
Inductive Body :=
| nilBody
| NoBody
| Reader (data : string) (err : bool).

(** The fields of [*http.Request] the program reads or writes.  [req_matchedPrefix]
    is the value stored in the request context under [matchedPrefixKey]. *)
Record Request := mkRequest {
  req_Method : string;
  req_Host : string;
  req_URL : URL;
  req_Header : Header;
  req_matchedPrefix : option string;
  req_Body : Body;
  req_ContentLength : Z;
}.

Definition set_Path (p : string) (r : Request) : Request :=
  let u := req_URL r in
  mkRequest (req_Method r) (req_Host r)
    (mkURL (url_Scheme u) (url_Host u) p (url_RawPath u) (url_RawQuery u))
    (req_Header r) (req_matchedPrefix r) (req_Body r) (req_ContentLength r).
Definition set_Host (h : string) (r : Request) : Request :=
  mkRequest (req_Method r) h (req_URL r) (req_Header r) (req_matchedPrefix r) (req_Body r)
    (req_ContentLength r).
Definition set_Header (h : Header) (r : Request) : Request :=
  mkRequest (req_Method r) (req_Host r) (req_URL r) h (req_matchedPrefix r) (req_Body r)
    (req_ContentLength r).
Definition set_Prefix (p : string) (r : Request) : Request :=
  mkRequest (req_Method r) (req_Host r) (req_URL r) (req_Header r) (Some p) (req_Body r)
    (req_ContentLength r).
Definition set_Body (b : Body) (len : Z) (r : Request) : Request :=
  mkRequest (req_Method r) (req_Host r) (req_URL r) (req_Header r) (req_matchedPrefix r) b len.

(** A body-less request, the shape most routing examples use. *)
Definition plain_request (method host path query : string) (h : Header) : Request :=
  mkRequest method host (mkURL "" "" path "" query) h None NoBody 0.

(** [*http.Response]; [resp_Request] is the request it answers. *)
Record Response := mkResponse {
  resp_StatusCode : Z;
  resp_Header : Header;
  resp_Request : option Request;
}.

(** ** Canonical keys: lookups are case-insensitive *)

Lemma lower_upper_byte c : lower_byte (upper_byte c) = lower_byte c.
Proof. by destruct c as [[] [] [] [] [] [] [] []]. Qed.
Lemma upper_lower_byte c : upper_byte (lower_byte c) = upper_byte c.
Proof. by destruct c as [[] [] [] [] [] [] [] []]. Qed.
Lemma upper_byte_idemp c : upper_byte (upper_byte c) = upper_byte c.
Proof. by destruct c as [[] [] [] [] [] [] [] []]. Qed.
Lemma token_lower_byte c : token_byte (lower_byte c) = token_byte c.
Proof. by destruct c as [[] [] [] [] [] [] [] []]. Qed.
Lemma token_upper_byte c : token_byte (upper_byte c) = token_byte c.
Proof. by destruct c as [[] [] [] [] [] [] [] []]. Qed.

Lemma canonicalize_lower u s : canonicalize u (ToLower s) = canonicalize u s.
Proof.
  revert u. induction s as [|c s IH]; intros u; [done|].
  unfold ToLower in *. simpl. rewrite IH. destruct u.
  - by rewrite upper_lower_byte.
  - by rewrite lower_byte_idemp.
Qed.
Lemma canonicalize_idemp u s : canonicalize u (canonicalize u s) = canonicalize u s.
Proof.
  revert u. induction s as [|c s IH]; intros u; [done|].
  simpl. destruct u; [rewrite upper_byte_idemp|rewrite lower_byte_idemp]; f_equal; apply IH.
Qed.
Lemma token_lower s : str_forallb token_byte (ToLower s) = str_forallb token_byte s.
Proof.
  induction s as [|c s IH]; [done|]. unfold ToLower in *. simpl.
  by rewrite token_lower_byte, IH.
Qed.
Lemma token_canonicalize u s :
  str_forallb token_byte (canonicalize u s) = str_forallb token_byte s.
Proof.
  revert u. induction s as [|c s IH]; intros u; [done|]. simpl. rewrite IH.
  by destruct u; rewrite ?token_upper_byte, ?token_lower_byte.
Qed.

(** Header names that are RFC 7230 tokens. *)
Definition is_token (s : string) : bool := str_forallb token_byte s.

Lemma CanonicalHeaderKey_idemp s :
  CanonicalHeaderKey (CanonicalHeaderKey s) = CanonicalHeaderKey s.
Proof.
  unfold CanonicalHeaderKey at 2 3. destruct (str_forallb token_byte s) eqn:Ht.
  - unfold CanonicalHeaderKey. by rewrite token_canonicalize, Ht, canonicalize_idemp.
  - unfold CanonicalHeaderKey. by rewrite Ht.
Qed.
Lemma CanonicalHeaderKey_fold s t :
  is_token s = true -> ToLower s = ToLower t -> CanonicalHeaderKey s = CanonicalHeaderKey t.
Proof.
  unfold is_token. intros Hs He. unfold CanonicalHeaderKey.
  rewrite <-(token_lower t), <-He, token_lower, Hs.
  by rewrite <-(canonicalize_lower true s), He, canonicalize_lower.
Qed.

(** Do two header names denote one map key? *)
Definition same_key (k k' : string) : bool :=
  bool_decide (CanonicalHeaderKey k = CanonicalHeaderKey k').

(** Decides [same_key] on literal names. *)
Ltac eval_keys :=
  repeat match goal with
  | |- context [same_key ?a ?b] =>
      let r := eval vm_compute in (same_key a b) in
      replace (same_key a b) with r by (vm_compute; reflexivity)
  end; cbn [andb].

Section header_laws.
Implicit Types (h : Header) (k v : string).

Lemma header_Values_Set h k v k' :
  header_Values (header_Set h k v) k' = if same_key k k' then [v] else header_Values h k'.
Proof.
  unfold header_Values, header_Set, same_key. rewrite lookup_insert.
  by case_decide; case_bool_decide.
Qed.
Lemma header_Values_Add h k v k' :
  header_Values (header_Add h k v) k' =
  if same_key k k' then header_Values h k' ++ [v] else header_Values h k'.
Proof.
  unfold header_Add, same_key. unfold header_Values at 1. rewrite lookup_insert.
  case_decide as Hk; case_bool_decide; try done. simpl. unfold header_Values. by rewrite Hk.
Qed.
Lemma header_Values_Del h k k' :
  header_Values (header_Del h k) k' = if same_key k k' then [] else header_Values h k'.
Proof.
  unfold header_Values, header_Del, same_key. rewrite lookup_delete.
  by case_decide; case_bool_decide.
Qed.
End header_laws.

(** ** A query value survives escaping *)

Lemma unescape_percent plus a b rest :
  unescape plus (String "%" (String a (String b rest))) =
  if ishex a && ishex b then String (ascii_of_N (16 * unhex a + unhex b)) <$> unescape plus rest else None.
Proof. reflexivity. Qed.
Lemma unescape_other plus c rest :
  c <> "%"%char ->
  unescape plus (String c rest) =
  String (if plus && bool_decide (c = "+"%char) then " "%char else c) <$> unescape plus rest.
Proof. destruct c as [[] [] [] [] [] [] [] []]; intros Hc; solve [reflexivity|by destruct Hc]. Qed.
Lemma hex_digits_byte c :
  let a := hex_digit (byte_val c / 16) in
  let b := hex_digit (byte_val c mod 16) in
  ishex a && ishex b = true /\ ascii_of_N (16 * unhex a + unhex b) = c.
Proof. destruct c as [[] [] [] [] [] [] [] []]; vm_compute; done. Qed.
Lemma unreserved_plain c : shouldEscapeQuery c = false -> c <> "%"%char /\ c <> "+"%char.
Proof. destruct c as [[] [] [] [] [] [] [] []]; intros Hc; solve [discriminate Hc|done]. Qed.

Lemma unescape_escape_byte c rest :
  unescape true (escape shouldEscapeQuery true (String c EmptyString) +:+ rest) = String c <$> unescape true rest.
Proof.
  cbn [escape]. destruct (bool_decide_reflect (c = " "%char)) as [->|Hsp]; cbn [andb]; [by rewrite sapp_cons, unescape_other|].
  destruct (shouldEscapeQuery c) eqn:Hc; rewrite !sapp_cons, sapp_nil_l.
  - rewrite unescape_percent. destruct (hex_digits_byte c) as [-> ->]. done.
  - apply unreserved_plain in Hc as [H1 H2]. rewrite unescape_other by done.
    by rewrite (bool_decide_false (c = "+"%char)).
Qed.
Lemma escape_cons should plus c s :
  escape should plus (String c s) = escape should plus (String c EmptyString) +:+ escape should plus s.
Proof. cbn [escape]. by destruct (plus && _), (should c). Qed.
Lemma unescape_QueryEscape s : unescape true (QueryEscape s) = Some s.
Proof.
  unfold QueryEscape. induction s as [|c s IH]; [done|].
  rewrite escape_cons, unescape_escape_byte, IH. done.
Qed.

(** Bytes with a meaning in a query string do not occur in an escaped value. *)
Definition query_plain (c : ascii) : bool := negb (bool_decide (c ∈ ["&"; ";"; "="; "#"]%char)).
Lemma str_forallb_app p s t : str_forallb p (s +:+ t) = str_forallb p s && str_forallb p t.
Proof. induction s as [|c s IH]; [done|]. rewrite sapp_cons. cbn [str_forallb]. by rewrite IH, andb_assoc. Qed.
Lemma QueryEscape_plain s : str_forallb query_plain (QueryEscape s) = true.
Proof.
  unfold QueryEscape. induction s as [|c s IH]; [done|]. rewrite escape_cons, str_forallb_app, IH, andb_true_r.
  destruct c as [[] [] [] [] [] [] [] []]; vm_compute; reflexivity.
Qed.
Lemma str_forallb_impl (p q : ascii -> bool) s :
  (forall c, p c = true -> q c = true) -> str_forallb p s = true -> str_forallb q s = true.
Proof.
  intros Hpq. induction s as [|c s IH]; cbn [str_forallb]; [done|]. rewrite !andb_true_iff. intros [? ?]. auto.
Qed.
Lemma str_existsb_forallb p s : str_existsb p s = negb (str_forallb (fun c => negb (p c)) s).
Proof.
  induction s as [|c s IH]; cbn [str_existsb str_forallb]; [done|]. rewrite IH. by destruct (p c).
Qed.
Lemma SplitByte_plain s c : str_forallb (fun d => negb (bool_decide (d = c))) s = true -> SplitByte s c = [s].
Proof.
  induction s as [|d s IH]; cbn [str_forallb SplitByte]; [done|]. intros [Hd Hs]%andb_true_iff.
  apply negb_true_iff in Hd. by rewrite Hd, IH.
Qed.

(** The single pair [k=v] of an escaped query is read back. *)
Lemma query_Get_single k v :
  str_forallb (fun c => query_plain c && negb (bool_decide (c ∈ ["%"; "+"]%char))) k = true -> k <> "" ->
  query_Get (k +:+ "=" +:+ QueryEscape v) k = v.
Proof.
  intros Hk Hne.
  assert (Hkp : str_forallb query_plain k = true /\ unescape true k = Some k /\
    str_existsb (fun d => bool_decide (d = "="%char)) k = false).
  { clear Hne. induction k as [|c k IH]; [done|]. cbn [str_forallb] in Hk |- *.
    apply andb_true_iff in Hk as [Hc Hk]. apply andb_true_iff in Hc as [Hq Hc]. destruct (IH Hk) as (H1 & H2 & H3).
    apply negb_true_iff, bool_decide_eq_false in Hc. cbn [str_existsb].
    rewrite Hq, H1, H3, unescape_other, H2 by set_solver.
    rewrite (bool_decide_false (c = "+"%char)) by set_solver. split_and!; [done|done|].
    rewrite bool_decide_false; [done|]. unfold query_plain in Hq.
    apply negb_true_iff, bool_decide_eq_false in Hq. set_solver. }
  destruct Hkp as (Hkp & Hku & Hke).
  assert (Hno : forall x, x ∈ ["&"; ";"]%char ->
    str_forallb (fun d => negb (bool_decide (d = x))) (k +:+ "=" +:+ QueryEscape v) = true).
  { intros x Hx. rewrite !str_forallb_app. rewrite !andb_true_iff. split_and!.
    - eapply str_forallb_impl; [|exact Hkp]. intros c. unfold query_plain.
      rewrite !negb_true_iff, !bool_decide_eq_false. set_solver.
    - cbn. rewrite bool_decide_false; [done|]. set_solver.
    - eapply str_forallb_impl; [|apply QueryEscape_plain]. intros c. unfold query_plain.
      rewrite !negb_true_iff, !bool_decide_eq_false. set_solver. }
  unfold query_Get, query_Values, ParseQuery. rewrite SplitByte_plain by (apply Hno; set_solver).
  assert (Hpair : parse_query_pair (k +:+ "=" +:+ QueryEscape v) = Some (k, v)).
  { unfold parse_query_pair. rewrite bool_decide_false by (by destruct k).
    assert (ContainsByte (k +:+ "=" +:+ QueryEscape v) ";" = false) as ->.
    { unfold ContainsByte. rewrite str_existsb_forallb. apply negb_false_iff, Hno. set_solver. }
    cbn [orb]. change ("=" +:+ QueryEscape v) with (String "=" (QueryEscape v)).
    rewrite (Cut_byte_app k "=" (QueryEscape v) Hke). cbn [default]. simpl.
    by rewrite Hku, unescape_QueryEscape. }
  cbn [omap list_omap]. rewrite Hpair. cbn. by rewrite bool_decide_true.
Qed.
