(* ===== verification/GoJson.v ===== *)
(** * The encoder of [encoding/json] for strings, records and lists

    [json.Marshal] of the plain data the program uses as map keys: strings with
    the escapes of [appendString] (HTML-safe, invalid UTF-8 replaced by
    [\ufffd]), objects whose empty members are left out, and arrays.  The
    encoder is injective on valid UTF-8, which is what makes an encoded value
    an identity. *)
From Stdlib Require Import Ascii.
From stdpp Require Import base strings list.
From S2P Require Import Prelude GoStrings.

(** ** Runes *)

Definition byte_between (lo hi : N) (c : ascii) : bool :=
  (lo <=? byte_val c)%N && (byte_val c <=? hi)%N.
Definition continuation (c : ascii) : bool := byte_between 128 191 c.

(** The well-formed byte sequences of [utf8.DecodeRuneInString]: the second
    byte's range depends on the first. *)
Definition two_byte (b0 b1 : ascii) : bool := byte_between 194 223 b0 && continuation b1.
Definition three_byte (b0 b1 b2 : ascii) : bool :=
  (if (byte_val b0 =? 224)%N then byte_between 160 191 b1
   else if (byte_val b0 =? 237)%N then byte_between 128 159 b1
   else byte_between 225 239 b0 && continuation b1) && continuation b2.
Definition four_byte (b0 b1 b2 b3 : ascii) : bool :=
  (if (byte_val b0 =? 240)%N then byte_between 144 191 b1
   else if (byte_val b0 =? 244)%N then byte_between 128 143 b1
   else byte_between 241 243 b0 && continuation b1) && continuation b2 && continuation b3.

Inductive Rune :=
| RuneAscii (b : ascii)
| Rune2 (b0 b1 : ascii)
| Rune3 (b0 b1 b2 : ascii)
| Rune4 (b0 b1 b2 b3 : ascii)
| RuneInvalid (b : ascii).

Fixpoint runes (s : string) : list Rune :=
  match s with
  | EmptyString => []
  | String b0 s1 =>
      if (byte_val b0 <? 128)%N then RuneAscii b0 :: runes s1
      else match s1 with
           | EmptyString => RuneInvalid b0 :: runes s1
           | String b1 s2 =>
               if two_byte b0 b1 then Rune2 b0 b1 :: runes s2
               else match s2 with
                    | EmptyString => RuneInvalid b0 :: runes s1
                    | String b2 s3 =>
                        if three_byte b0 b1 b2 then Rune3 b0 b1 b2 :: runes s3
                        else match s3 with
                             | EmptyString => RuneInvalid b0 :: runes s1
                             | String b3 s4 =>
                                 if four_byte b0 b1 b2 b3 then Rune4 b0 b1 b2 b3 :: runes s4
                                 else RuneInvalid b0 :: runes s1
                             end
                    end
           end
  end.

(** ** Strings *)

Definition hex (n : N) : ascii :=
  if (n <? 10)%N then ascii_of_N (48 + n) else ascii_of_N (87 + n).
Definition backslash : ascii := "092".
Definition quote : ascii := "034".
Definition escaped (c : ascii) (s : string) : string := String backslash (String c s).

(** [htmlSafeSet]: printable ASCII without the quote, the backslash, [<], [>]
    and [&]. *)
Definition html_safe (b : ascii) : bool :=
  byte_between 32 127 b && negb (bool_decide (b ∈ [quote; backslash; "<"; ">"; "&"]%char)).
Definition encode_byte (b : ascii) : string :=
  if html_safe b then String b EmptyString
  else if bool_decide (b ∈ [quote; backslash]) then escaped b EmptyString
  else match byte_val b with
       | 8 => escaped "b" EmptyString
       | 9 => escaped "t" EmptyString
       | 10 => escaped "n" EmptyString
       | 12 => escaped "f" EmptyString
       | 13 => escaped "r" EmptyString
       | n => escaped "u" (String "0" (String "0" (String (hex (n / 16)) (String (hex (n mod 16)) EmptyString))))
       end%N.

(** U+2028 and U+2029 are escaped as well. *)
Definition line_separator (b0 b1 b2 : ascii) : bool :=
  (byte_val b0 =? 226)%N && (byte_val b1 =? 128)%N && byte_between 168 169 b2.
Definition encode_rune (r : Rune) : string :=
  match r with
  | RuneAscii b => encode_byte b
  | Rune2 b0 b1 => String b0 (String b1 EmptyString)
  | Rune3 b0 b1 b2 =>
      if line_separator b0 b1 b2
      then escaped "u" (String "2" (String "0" (String "2" (String (hex (byte_val b2 mod 16)) EmptyString))))
      else String b0 (String b1 (String b2 EmptyString))
  | Rune4 b0 b1 b2 b3 => String b0 (String b1 (String b2 (String b3 EmptyString)))
  | RuneInvalid _ => escaped "u" "fffd"
  end.
Fixpoint encode_runes (rs : list Rune) : string :=
  match rs with
  | [] => EmptyString
  | r :: rs' => encode_rune r +:+ encode_runes rs'
  end.

Definition json_string (s : string) : string :=
  String quote (encode_runes (runes s) +:+ String quote EmptyString).

Definition is_invalid (r : Rune) : bool := match r with RuneInvalid _ => true | _ => false end.
Definition ValidString (s : string) : bool := negb (existsb is_invalid (runes s)).

(** ** Objects and arrays *)

(** A member: its key and, unless [omitempty] drops it, its encoded value. *)
Definition json_member (key : string) (value : string) : string := json_string key +:+ ":" +:+ value.
Definition json_object (members : list string) : string := "{" +:+ Join members "," +:+ "}".
Definition json_array {A} (enc : A -> string) (l : list A) : string :=
  "[" +:+ Join (enc <$> l) "," +:+ "]".

(** ** Injectivity

    Encoders are composed by writing one value after another, so injectivity is
    stated with the text that follows: the encoding of a value can be split off
    any longer text in one way only. *)

Definition prefix_injective {A} (P : A -> Prop) (enc : A -> string) : Prop :=
  forall a a' r r', P a -> P a' -> enc a +:+ r = enc a' +:+ r' -> a = a' /\ r = r'.

Lemma prefix_injective_eq {A} (P : A -> Prop) enc a a' :
  prefix_injective P enc -> P a -> P a' -> enc a = enc a' -> a = a'.
Proof.
  intros Hinj Ha Ha' He. apply (Hinj a a' EmptyString EmptyString Ha Ha'). by rewrite He.
Qed.

Definition well_formed_rune (r : Rune) : Prop :=
  match r with
  | RuneAscii b => (byte_val b <? 128)%N = true
  | Rune2 b0 b1 => two_byte b0 b1 = true
  | Rune3 b0 b1 b2 => three_byte b0 b1 b2 = true
  | Rune4 b0 b1 b2 b3 => four_byte b0 b1 b2 b3 = true
  | RuneInvalid _ => False
  end.

(** The inverse of [encode_rune] on text that starts with an encoded rune. *)
Definition unhex_low (c : ascii) : N := if is_digit c then byte_val c - 48 else byte_val c - 87.
Definition decode_escape (s : string) : option (Rune * string) :=
  match s with
  | String "u" (String h1 (String h2 (String h3 (String h4 rest)))) =>
      if bool_decide (h1 = "2"%char)
      then Some (Rune3 (ascii_of_N 226) (ascii_of_N 128) (ascii_of_N (160 + unhex_low h4)), rest)
      else Some (RuneAscii (ascii_of_N (16 * unhex_low h3 + unhex_low h4)), rest)
  | String "b" rest => Some (RuneAscii (ascii_of_N 8), rest)
  | String "t" rest => Some (RuneAscii (ascii_of_N 9), rest)
  | String "n" rest => Some (RuneAscii (ascii_of_N 10), rest)
  | String "f" rest => Some (RuneAscii (ascii_of_N 12), rest)
  | String "r" rest => Some (RuneAscii (ascii_of_N 13), rest)
  | String c rest => Some (RuneAscii c, rest)
  | EmptyString => None
  end.
Definition decode_rune (s : string) : option (Rune * string) :=
  match s with
  | EmptyString => None
  | String b0 s1 =>
      if bool_decide (b0 = backslash) then decode_escape s1
      else if (byte_val b0 <? 128)%N then Some (RuneAscii b0, s1)
      else if (byte_val b0 <? 224)%N then
        match s1 with String b1 s2 => Some (Rune2 b0 b1, s2) | _ => None end
      else if (byte_val b0 <? 240)%N then
        match s1 with String b1 (String b2 s3) => Some (Rune3 b0 b1 b2, s3) | _ => None end
      else match s1 with String b1 (String b2 (String b3 s4)) => Some (Rune4 b0 b1 b2 b3, s4) | _ => None end
  end.

Lemma decode_byte b rest :
  (byte_val b <? 128)%N = true -> decode_rune (encode_byte b +:+ rest) = Some (RuneAscii b, rest).
Proof. destruct b as [[] [] [] [] [] [] [] []]; intros H; first [discriminate H|vm_compute; reflexivity]. Qed.

(** Multi-byte runes start with a byte that names their length. *)
Lemma decode_high b0 s n m :
  byte_between n m b0 = true -> (128 <= n)%N ->
  decode_rune (String b0 s) =
    (if (byte_val b0 <? 224)%N then
       match s with String b1 s2 => Some (Rune2 b0 b1, s2) | _ => None end
     else if (byte_val b0 <? 240)%N then
       match s with String b1 (String b2 s3) => Some (Rune3 b0 b1 b2, s3) | _ => None end
     else match s with String b1 (String b2 (String b3 s4)) => Some (Rune4 b0 b1 b2 b3, s4) | _ => None end).
Proof.
  unfold byte_between. rewrite andb_true_iff, !N.leb_le. intros [Hn Hm] H128. cbn [decode_rune].
  rewrite bool_decide_false.
  2:{ intros ->. change (byte_val backslash) with 92%N in Hn. lia. }
  by rewrite (proj2 (N.ltb_ge (byte_val b0) 128)) by lia.
Qed.

Lemma three_byte_lead b0 b1 b2 : three_byte b0 b1 b2 = true -> byte_between 224 239 b0 = true.
Proof.
  unfold three_byte, byte_between. rewrite !andb_true_iff, !N.leb_le. intros [H _].
  destruct (N.eqb_spec (byte_val b0) 224); [lia|]. destruct (N.eqb_spec (byte_val b0) 237); [lia|].
  rewrite !andb_true_iff, !N.leb_le in H. lia.
Qed.
Lemma four_byte_lead b0 b1 b2 b3 : four_byte b0 b1 b2 b3 = true -> byte_between 240 244 b0 = true.
Proof.
  unfold four_byte, byte_between. rewrite !andb_true_iff, !N.leb_le. intros [[H _] _].
  destruct (N.eqb_spec (byte_val b0) 240); [lia|]. destruct (N.eqb_spec (byte_val b0) 244); [lia|].
  rewrite !andb_true_iff, !N.leb_le in H. lia.
Qed.

Lemma byte_val_inj b n : byte_val b = n -> b = ascii_of_N n.
Proof. intros <-. symmetry. apply ascii_N_embedding. Qed.

Lemma decode_encode r rest :
  well_formed_rune r -> decode_rune (encode_rune r +:+ rest) = Some (r, rest).
Proof.
  destruct r as [b|b0 b1|b0 b1 b2|b0 b1 b2 b3|b]; cbn [well_formed_rune encode_rune]; intros Hr; [|..|done].
  - by apply decode_byte.
  - unfold two_byte in Hr. apply andb_true_iff in Hr as [H0 _]. rewrite !sapp_cons, sapp_nil_l.
    rewrite (decode_high _ _ _ _ H0) by lia. unfold byte_between in H0.
    rewrite andb_true_iff, !N.leb_le in H0. by rewrite (proj2 (N.ltb_lt (byte_val b0) 224)) by lia.
  - destruct (line_separator b0 b1 b2) eqn:Hs.
    + unfold line_separator, byte_between in Hs. rewrite !andb_true_iff, !N.eqb_eq, !N.leb_le in Hs.
      destruct Hs as [[H0%byte_val_inj H1%byte_val_inj] H2]. subst b0 b1.
      assert (byte_val b2 = 168 \/ byte_val b2 = 169)%N as [->%byte_val_inj| ->%byte_val_inj] by lia;
        vm_compute; reflexivity.
    + apply three_byte_lead in Hr. rewrite !sapp_cons, sapp_nil_l.
      rewrite (decode_high _ _ _ _ Hr) by lia. unfold byte_between in Hr.
      rewrite andb_true_iff, !N.leb_le in Hr. rewrite (proj2 (N.ltb_ge (byte_val b0) 224)) by lia.
      by rewrite (proj2 (N.ltb_lt (byte_val b0) 240)) by lia.
  - apply four_byte_lead in Hr. rewrite !sapp_cons, sapp_nil_l.
    rewrite (decode_high _ _ _ _ Hr) by lia. unfold byte_between in Hr.
    rewrite andb_true_iff, !N.leb_le in Hr. rewrite (proj2 (N.ltb_ge (byte_val b0) 224)) by lia.
    by rewrite (proj2 (N.ltb_ge (byte_val b0) 240)) by lia.
Qed.

(** ** Strings are prefix-injective *)

Definition rune_bytes (r : Rune) (s : string) : string :=
  match r with
  | RuneAscii b | RuneInvalid b => String b s
  | Rune2 b0 b1 => String b0 (String b1 s)
  | Rune3 b0 b1 b2 => String b0 (String b1 (String b2 s))
  | Rune4 b0 b1 b2 b3 => String b0 (String b1 (String b2 (String b3 s)))
  end.

(** One step of the decoder. *)
Lemma runes_step b0 s1 :
  exists r s', runes (String b0 s1) = r :: runes s' /\ String b0 s1 = rune_bytes r s' /\
    String.length s' <= String.length s1 /\ (is_invalid r = false -> well_formed_rune r).
Proof.
  cbn [runes]. destruct (byte_val b0 <? 128)%N eqn:H0; [by exists (RuneAscii b0), s1|].
  assert (forall rs, rs = RuneInvalid b0 :: runes s1 -> exists r s', rs = r :: runes s' /\
    String b0 s1 = rune_bytes r s' /\ String.length s' <= String.length s1 /\
    (is_invalid r = false -> well_formed_rune r)) as Hinv.
  { intros rs ->. by exists (RuneInvalid b0), s1. }
  destruct s1 as [|b1 s2]; [by apply Hinv|]. destruct (two_byte b0 b1) eqn:H1.
  { exists (Rune2 b0 b1), s2. simpl. split_and!; auto with lia. }
  destruct s2 as [|b2 s3]; [by apply Hinv|]. destruct (three_byte b0 b1 b2) eqn:H2.
  { exists (Rune3 b0 b1 b2), s3. simpl. split_and!; auto with lia. }
  destruct s3 as [|b3 s4]; [by apply Hinv|]. destruct (four_byte b0 b1 b2 b3) eqn:H3; [|by apply Hinv].
  exists (Rune4 b0 b1 b2 b3), s4. simpl. split_and!; auto with lia.
Qed.

(** Decoding into runes loses nothing, and every rune that is not invalid is well formed. *)
Lemma runes_spec s :
  foldr rune_bytes EmptyString (runes s) = s /\
  forall r, r ∈ runes s -> is_invalid r = false -> well_formed_rune r.
Proof.
  remember (String.length s) as n eqn:Hn. revert s Hn.
  induction (lt_wf n) as [n _ IH]. intros [|b0 s1] Hn.
  { split; [done|]. by intros r ?%elem_of_nil. }
  destruct (runes_step b0 s1) as (r & s' & -> & He & Hlen & Hwf). cbn [String.length] in Hn.
  destruct (IH (String.length s') ltac:(lia) s' eq_refl) as [IH1 IH2]. split.
  - simpl. by rewrite IH1.
  - intros r' [->|?]%elem_of_cons; [done|]. by apply IH2.
Qed.
Lemma runes_valid s r : ValidString s = true -> r ∈ runes s -> well_formed_rune r.
Proof.
  unfold ValidString. rewrite negb_true_iff, existsb_elem_of_false. intros Hv Hr.
  by apply (proj2 (runes_spec s)); [|apply Hv].
Qed.

(** No encoded rune starts with the closing quote. *)
Lemma encode_rune_quote r rest rest' :
  well_formed_rune r -> encode_rune r +:+ rest <> String quote rest'.
Proof.
  intros Hr He. apply (f_equal decode_rune) in He as Hd. rewrite (decode_encode _ _ Hr) in Hd.
  cbn in Hd. injection Hd as -> _. vm_compute in He. discriminate He.
Qed.

Lemma encode_runes_inj rs rs' r r' :
  (forall x, x ∈ rs -> well_formed_rune x) -> (forall x, x ∈ rs' -> well_formed_rune x) ->
  encode_runes rs +:+ String quote r = encode_runes rs' +:+ String quote r' -> rs = rs' /\ r = r'.
Proof.
  revert rs'. induction rs as [|x rs IH]; intros [|x' rs'] Hw Hw'; cbn [encode_runes];
    rewrite ?sapp_nil_l, ?sapp_assoc; intros He.
  - split; [done|]. by simplify_eq.
  - symmetry in He. destruct (encode_rune_quote x' _ _ (Hw' x' ltac:(by left)) He).
  - destruct (encode_rune_quote x _ _ (Hw x ltac:(by left)) He).
  - apply (f_equal decode_rune) in He. rewrite decode_encode in He by (apply Hw; by left).
    rewrite decode_encode in He by (apply Hw'; by left).
    injection He as -> He. apply IH in He as [-> ->]; [done|..]; intros y Hy; [apply Hw|apply Hw']; by right.
Qed.

Lemma json_string_inj : prefix_injective (fun s => ValidString s = true) json_string.
Proof.
  intros s s' r r' Hs Hs'. unfold json_string. rewrite !sapp_cons, !sapp_assoc, !sapp_cons, !sapp_nil_l.
  intros [= He]. apply encode_runes_inj in He as [He ->]; [|intros x; by apply runes_valid..].
  split; [|done]. by rewrite <-(proj1 (runes_spec s)), He, (proj1 (runes_spec s')).
Qed.

(** ** Arrays are prefix-injective *)

Definition starts_with (c : ascii) (s : string) : Prop := exists t, s = String c t.

Lemma json_array_inj {A} (P : A -> Prop) (enc : A -> string) :
  prefix_injective P enc -> (forall a, P a -> starts_with "{" (enc a)) ->
  prefix_injective (fun l => forall a, a ∈ l -> P a) (json_array enc).
Proof.
  intros Hinj Hstart l l' r r' Hl Hl'. unfold json_array. rewrite !sapp_assoc, !sapp_cons, !sapp_nil_l.
  intros [= He]. revert l' He Hl'. induction l as [|a l IH]; intros [|a' l'] He Hl'.
  - split; [done|]. by simplify_eq.
  - destruct (Hstart a') as [t Ht]; [by apply Hl'; left|]. destruct l'; cbn in He; rewrite Ht in He; discriminate He.
  - destruct (Hstart a) as [t Ht]; [by apply Hl; left|]. destruct l; cbn in He; rewrite Ht in He; discriminate He.
  - assert (Hj : forall x xs rr, Join (enc <$> x :: xs) "," +:+ rr =
      enc x +:+ (if xs is [] then "" else ",") +:+ Join (enc <$> xs) "," +:+ rr).
    { intros x [|y ys] rr; [done|]. change (enc <$> x :: y :: ys) with (enc x :: (enc <$> y :: ys)).
      change (Join (enc x :: (enc <$> y :: ys)) ",") with (enc x +:+ "," +:+ Join (enc <$> y :: ys) ",").
      by rewrite !sapp_assoc. }
    rewrite !Hj in He. apply Hinj in He as [-> He]; [|by apply Hl; left|by apply Hl'; left].
    assert (Hcl : l = l' /\ r = r').
    { destruct l as [|x l], l' as [|x' l'].
      - by injection He.
      - discriminate He.
      - discriminate He.
      - apply sapp_inv_head in He. apply IH in He; [done|..]; intros y Hy; [apply Hl|apply Hl']; by right. }
    by destruct Hcl as [-> ->].
Qed.

(** ** Objects with optional members are prefix-injective *)

Definition optional {A} (key : string) (enc : A -> string) (o : option A) : list string :=
  match o with Some a => [json_member key (enc a)] | None => [] end.

(** The members still to come, the separator written before each, and the closing brace. *)
Fixpoint object_rest (sep : string) (members : list string) : string :=
  match members with
  | [] => "}"
  | m :: ms => sep +:+ m +:+ object_rest "," ms
  end.
Lemma json_object_rest members : json_object members = "{" +:+ object_rest "" members.
Proof.
  unfold json_object. f_equal. destruct members as [|m ms]; [done|]. cbn [object_rest]. rewrite sapp_nil_l.
  revert m. induction ms as [|m' ms IH]; intros m; [done|].
  change (Join (m :: m' :: ms) ",") with (m +:+ "," +:+ Join (m' :: ms) ",").
  rewrite !sapp_assoc, IH. done.
Qed.

(** Two keys whose texts differ before either ends. *)
Definition distinct_keys (k k' : string) : Prop :=
  forall x y, json_string k +:+ x <> json_string k' +:+ y.
Definition avoids (key : string) (members : list string) : Prop :=
  forall m, m ∈ members -> exists k v, m = json_member k v /\ distinct_keys key k.
Lemma avoids_app key ms ms' : avoids key ms -> avoids key ms' -> avoids key (ms ++ ms').
Proof. intros H H' m [?|?]%elem_of_app; [by apply H|by apply H']. Qed.
Lemma avoids_optional {A} key k (enc : A -> string) o : distinct_keys key k -> avoids key (optional k enc o).
Proof.
  intros Hk m Hm. destruct o as [a|]; [|by apply elem_of_nil in Hm].
  apply list_elem_of_singleton in Hm as ->. by exists k, (enc a).
Qed.

Lemma object_rest_avoids key sep members r x :
  sep = "" \/ sep = "," -> avoids key members -> object_rest sep members +:+ r <> sep +:+ json_string key +:+ x.
Proof.
  intros Hsep Hav He. destruct members as [|m ms]; cbn [object_rest] in He.
  { destruct Hsep as [-> | ->]; discriminate He. }
  destruct (Hav m) as (k & v & -> & Hk); [by left|]. rewrite sapp_assoc in He. apply sapp_inv_head in He.
  unfold json_member in He. rewrite !sapp_assoc in He. by apply (Hk x (":" +:+ v +:+ object_rest "," ms +:+ r)).
Qed.

Lemma optional_inj {A} (P : A -> Prop) (enc : A -> string) key sep o o' ms ms' r r' :
  prefix_injective P enc -> (forall a, o = Some a -> P a) -> (forall a, o' = Some a -> P a) ->
  sep = "" \/ sep = "," -> avoids key ms -> avoids key ms' ->
  object_rest sep (optional key enc o ++ ms) +:+ r = object_rest sep (optional key enc o' ++ ms') +:+ r' ->
  o = o' /\ exists sep', (sep' = "" \/ sep' = ",") /\
    object_rest sep' ms +:+ r = object_rest sep' ms' +:+ r'.
Proof.
  intros Hinj Ho Ho' Hsep Hav Hav' He.
  destruct o as [a|], o' as [a'|]; cbn [optional app object_rest] in He; unfold json_member in He;
    rewrite ?sapp_assoc in He.
  - do 3 apply sapp_inv_head in He. apply Hinj in He as [-> He]; [|auto..]. split; [done|].
    exists ",". auto.
  - symmetry in He. by apply object_rest_avoids in He.
  - by apply object_rest_avoids in He.
  - split; [done|]. by exists sep.
Qed.
Lemma object_end_inj sep r r' : object_rest sep [] +:+ r = object_rest sep [] +:+ r' -> r = r'.
Proof. cbn [object_rest]. apply sapp_inv_head. Qed.
