(* ===== verification/ProxyConfig.v ===== *)
(** * The proxy configuration ([internal/proxy/config.go], [diagnostics.go])

    The data the controller pushes to the proxy and the proxy's validation of
    it.  Go's string enums stay strings here, because unknown values reach the
    validator; pointers are [option]s, slices are lists. *)
From stdpp Require Import base sets strings list.
From S2P Require Import Prelude GoStrings.

(** ** Data *)

Definition PathMatchExact : string := "Exact".
Definition PathMatchPathPrefix : string := "PathPrefix".
Definition PathMatchRegularExpression : string := "RegularExpression".
Definition HeaderMatchExact : string := "Exact".
Definition HeaderMatchRegularExpression : string := "RegularExpression".
Definition QueryParamMatchExact : string := "Exact".
Definition QueryParamMatchRegularExpression : string := "RegularExpression".

Record PathMatch := mkPathMatch { pm_Type : string; pm_Value : string }.
Record HeaderMatch := mkHeaderMatch { hm_Type : string; hm_Name : string; hm_Value : string }.
Record QueryParamMatch := mkQueryParamMatch { qm_Type : string; qm_Name : string; qm_Value : string }.
Record RouteMatch := mkRouteMatch {
  match_Path : option PathMatch;
  match_Headers : list HeaderMatch;
  match_QueryParams : list QueryParamMatch;
  match_Method : string;
}.

Definition FilterRequestHeaderModifier : string := "RequestHeaderModifier".
Definition FilterResponseHeaderModifier : string := "ResponseHeaderModifier".
Definition FilterRequestRedirect : string := "RequestRedirect".
Definition FilterURLRewrite : string := "URLRewrite".
Definition FilterRequestMirror : string := "RequestMirror".
Definition FilterCORS : string := "CORS".

Record HeaderValue := mkHeaderValue { hv_Name : string; hv_Value : string }.
Record HeaderModifier := mkHeaderModifier {
  mod_Set : list HeaderValue;
  mod_Add : list HeaderValue;
  mod_Remove : list string;
}.

Definition RedirectPathFullReplace : string := "ReplaceFullPath".
Definition RedirectPathPrefixReplace : string := "ReplacePrefixMatch".
Record RedirectPath := mkRedirectPath { rp_Type : string; rp_Value : string }.
Record RedirectConfig := mkRedirectConfig {
  redirect_Scheme : option string;
  redirect_Hostname : option string;
  redirect_Port : option Z;
  redirect_Path : option RedirectPath;
  redirect_StatusCode : option Z;
}.

Definition URLRewriteFullPath : string := "ReplaceFullPath".
Definition URLRewritePrefixMatch : string := "ReplacePrefixMatch".
Record URLRewritePath := mkURLRewritePath {
  urp_Type : string;
  urp_ReplaceFullPath : option string;
  urp_ReplacePrefixMatch : option string;
}.
Record URLRewriteConfig := mkURLRewriteConfig {
  rewrite_Hostname : option string;
  rewrite_Path : option URLRewritePath;
}.

Definition BackendProtocolHTTP : string := "".
Definition BackendProtocolH2C : string := "h2c".
Definition isKnownBackendProtocol (p : string) : bool :=
  bool_decide (p = BackendProtocolHTTP) || bool_decide (p = BackendProtocolH2C).

Record BackendTLSConfig := mkBackendTLSConfig {
  tls_CABundlePEM : string;
  tls_ServerName : string;
  tls_SubjectAltNames : list string;
  tls_SubjectAltNameURIs : list string;
  tls_ClientCertPEM : string;
  tls_ClientKeyPEM : string;
}.
Definition HasSANConstraints (c : option BackendTLSConfig) : bool :=
  match c with
  | None => false
  | Some c => (0 <? length (tls_SubjectAltNames c)) || (0 <? length (tls_SubjectAltNameURIs c))
  end.
Definition HasClientCert (c : option BackendTLSConfig) : bool :=
  match c with
  | None => false
  | Some c => (0 <? String.length (tls_ClientCertPEM c)) && (0 <? String.length (tls_ClientKeyPEM c))
  end.

Record MirrorConfig := mkMirrorConfig {
  mirror_BackendURL : string;
  mirror_Percent : option Z;
  mirror_TLS : option BackendTLSConfig;
  mirror_Protocol : string;
}.

(** [cors.go]: [CORSConfig]. *)
Record CORSConfig := mkCORSConfig {
  cors_AllowOrigins : list string;
  cors_AllowCredentials : bool;
  cors_AllowMethods : list string;
  cors_AllowHeaders : list string;
  cors_ExposeHeaders : list string;
  cors_MaxAge : Z;
}.

Record RouteFilter := mkRouteFilter {
  filter_Type : string;
  filter_RequestHeaderModifier : option HeaderModifier;
  filter_ResponseHeaderModifier : option HeaderModifier;
  filter_RequestRedirect : option RedirectConfig;
  filter_URLRewrite : option URLRewriteConfig;
  filter_RequestMirror : option MirrorConfig;
  filter_CORS : option CORSConfig;
}.

Record BackendRef := mkBackendRef {
  be_URL : string;
  be_Weight : Z;
  be_Protocol : string;
  be_TLS : option BackendTLSConfig;
  be_Filters : list RouteFilter;
  be_WebSocket : bool;
  be_UnavailableStatus : Z;
}.

(** Durations in nanoseconds ([time.Duration]). *)
Record RouteTimeouts := mkRouteTimeouts { to_Request : Z; to_Backend : Z }.

Record RouteRule := mkRouteRule {
  rule_Hostnames : list string;
  rule_Matches : list RouteMatch;
  rule_Filters : list RouteFilter;
  rule_Backends : list BackendRef;
  rule_Timeouts : option RouteTimeouts;
  rule_UnavailableStatus : Z;
}.

(** [diagnostics.go]: what the converter reports about a route. *)
Inductive DiagnosticTarget :=
| DiagnosticAccepted | DiagnosticResolvedRefs | DiagnosticShadowed
| DiagnosticProxyConfigPush | DiagnosticTunnelShared | DiagnosticEvent.
Record RouteDiagnostic := mkRouteDiagnostic {
  diag_Namespace : string;
  diag_Name : string;
  diag_RuleIndex : Z;
  diag_Target : DiagnosticTarget;
  diag_Reason : string;
  diag_Message : string;
  diag_WholeRule : bool;
  diag_EventType : string;
}.

(** [shadow.go]: the source route of one flattened rule; the creation time in
    nanoseconds. *)
Record RuleProvenance := mkRuleProvenance {
  prov_Kind : string;
  prov_Namespace : string;
  prov_Name : string;
  prov_CreationTimestamp : Z;
  prov_RuleIndex : Z;
}.

Record Config := mkConfig {
  cfg_Version : Z;
  cfg_Rules : list RouteRule;
  cfg_HasGRPCRoute : bool;
  cfg_Diagnostics : list RouteDiagnostic;
  cfg_Provenance : list RuleProvenance;
}.

(** ** Validation *)

Inductive ConfigError :=
| errVersionNegative
| errURLRequired
| errWeightNonNegative
| errUnknownProtocol (p : string)
| errUnknownPathType (t : string)
| errUnknownHeaderType (t : string)
| errUnknownQueryType (t : string)
| errNameRequired
| errPathValueRequired
| errUnknownFilterType (t : string)
| errFilterConfigRequired (field : string)
| errMirrorPercentRange (p : Z)
| errCORSMaxAgeNegative (a : Z)
| ErrAt (field : string) (idx : nat) (e : ConfigError).

Definition required {A} (field : string) (o : option A) : res ConfigError unit :=
  match o with None => Err (errFilterConfigRequired field) | Some _ => Ok tt end.

Definition validateMirrorFilter (m : option MirrorConfig) : res ConfigError unit :=
  match m with
  | None => Err (errFilterConfigRequired "requestMirror")
  | Some m =>
      match mirror_Percent m with
      | Some pct => if (pct <? 0)%Z || (100 <? pct)%Z then Err (errMirrorPercentRange pct) else Ok tt
      | None => Ok tt
      end
  end.

Definition validateCORSFilter (c : option CORSConfig) : res ConfigError unit :=
  match c with
  | None => Err (errFilterConfigRequired "cors")
  | Some c => if (cors_MaxAge c <? 0)%Z then Err (errCORSMaxAgeNegative (cors_MaxAge c)) else Ok tt
  end.

Definition RouteFilter_validate (f : RouteFilter) : res ConfigError unit :=
  if bool_decide (filter_Type f = FilterRequestHeaderModifier) then
    required "requestHeaderModifier" (filter_RequestHeaderModifier f)
  else if bool_decide (filter_Type f = FilterResponseHeaderModifier) then
    required "responseHeaderModifier" (filter_ResponseHeaderModifier f)
  else if bool_decide (filter_Type f = FilterRequestRedirect) then
    required "requestRedirect" (filter_RequestRedirect f)
  else if bool_decide (filter_Type f = FilterURLRewrite) then
    required "urlRewrite" (filter_URLRewrite f)
  else if bool_decide (filter_Type f = FilterRequestMirror) then
    validateMirrorFilter (filter_RequestMirror f)
  else if bool_decide (filter_Type f = FilterCORS) then
    validateCORSFilter (filter_CORS f)
  else Err (errUnknownFilterType (filter_Type f)).

Definition validate_header_match (idx : nat) (h : HeaderMatch) : res ConfigError unit :=
  if negb (bool_decide (hm_Type h = HeaderMatchExact) ||
           bool_decide (hm_Type h = HeaderMatchRegularExpression))
  then Err (ErrAt "header" idx (errUnknownHeaderType (hm_Type h)))
  else if bool_decide (hm_Name h = "") then Err (ErrAt "header" idx errNameRequired)
  else Ok tt.
Definition validate_query_match (idx : nat) (q : QueryParamMatch) : res ConfigError unit :=
  if negb (bool_decide (qm_Type q = QueryParamMatchExact) ||
           bool_decide (qm_Type q = QueryParamMatchRegularExpression))
  then Err (ErrAt "queryParam" idx (errUnknownQueryType (qm_Type q)))
  else if bool_decide (qm_Name q = "") then Err (ErrAt "queryParam" idx errNameRequired)
  else Ok tt.
Definition validate_path_match (p : PathMatch) : res ConfigError unit :=
  if negb (bool_decide (pm_Type p = PathMatchExact) ||
           bool_decide (pm_Type p = PathMatchPathPrefix) ||
           bool_decide (pm_Type p = PathMatchRegularExpression))
  then Err (errUnknownPathType (pm_Type p))
  else if bool_decide (pm_Value p = "") then Err errPathValueRequired
  else Ok tt.

Definition RouteMatch_validate (m : RouteMatch) : res ConfigError unit :=
  _ ← match match_Path m with Some p => validate_path_match p | None => Ok tt end;
  _ ← iteri_res validate_header_match (match_Headers m);
  iteri_res validate_query_match (match_QueryParams m).

Definition validate_backend (idx : nat) (b : BackendRef) : res ConfigError unit :=
  if bool_decide (be_URL b = "") then Err (ErrAt "backend" idx errURLRequired)
  else if (be_Weight b <? 0)%Z then Err (ErrAt "backend" idx errWeightNonNegative)
  else if negb (isKnownBackendProtocol (be_Protocol b)) then
    Err (ErrAt "backend" idx (errUnknownProtocol (be_Protocol b)))
  else iteri_res (fun fidx f =>
         map_err (fun e => ErrAt "backend" idx (ErrAt "filter" fidx e)) (RouteFilter_validate f))
         (be_Filters b).

Definition RouteRule_validate (r : RouteRule) : res ConfigError unit :=
  _ ← iteri_res validate_backend (rule_Backends r);
  _ ← iteri_res (fun i m => map_err (ErrAt "match" i) (RouteMatch_validate m)) (rule_Matches r);
  iteri_res (fun i f => map_err (ErrAt "filter" i) (RouteFilter_validate f)) (rule_Filters r).

Definition Validate (c : Config) : res ConfigError unit :=
  if (cfg_Version c <? 0)%Z then Err errVersionNegative
  else iteri_res (fun i r => map_err (ErrAt "rule" i) (RouteRule_validate r)) (cfg_Rules c).

(** ** What a validated configuration satisfies

    [valid_*] state declaratively what the checks above enforce; the validator
    accepts exactly these values. *)

Definition valid_filter (f : RouteFilter) : Prop :=
  (filter_Type f = FilterRequestHeaderModifier /\ is_Some (filter_RequestHeaderModifier f)) \/
  (filter_Type f = FilterResponseHeaderModifier /\ is_Some (filter_ResponseHeaderModifier f)) \/
  (filter_Type f = FilterRequestRedirect /\ is_Some (filter_RequestRedirect f)) \/
  (filter_Type f = FilterURLRewrite /\ is_Some (filter_URLRewrite f)) \/
  (filter_Type f = FilterRequestMirror /\ exists m, filter_RequestMirror f = Some m /\
     forall p, mirror_Percent m = Some p -> (0 <= p <= 100)%Z) \/
  (filter_Type f = FilterCORS /\ exists c, filter_CORS f = Some c /\ (0 <= cors_MaxAge c)%Z).

Definition valid_match (m : RouteMatch) : Prop :=
  (forall p, match_Path m = Some p ->
     pm_Type p ∈ [PathMatchExact; PathMatchPathPrefix; PathMatchRegularExpression] /\
     pm_Value p <> "") /\
  (forall h, h ∈ match_Headers m ->
     hm_Type h ∈ [HeaderMatchExact; HeaderMatchRegularExpression] /\ hm_Name h <> "") /\
  (forall q, q ∈ match_QueryParams m ->
     qm_Type q ∈ [QueryParamMatchExact; QueryParamMatchRegularExpression] /\ qm_Name q <> "").

Definition valid_backend (b : BackendRef) : Prop :=
  be_URL b <> "" /\ (0 <= be_Weight b)%Z /\
  be_Protocol b ∈ [BackendProtocolHTTP; BackendProtocolH2C] /\
  forall f, f ∈ be_Filters b -> valid_filter f.

Definition valid_rule (r : RouteRule) : Prop :=
  (forall b, b ∈ rule_Backends r -> valid_backend b) /\
  (forall m, m ∈ rule_Matches r -> valid_match m) /\
  (forall f, f ∈ rule_Filters r -> valid_filter f).

Definition valid_config (c : Config) : Prop :=
  (0 <= cfg_Version c)%Z /\ forall r, r ∈ cfg_Rules c -> valid_rule r.

Lemma iteri_res_forall {E A} (f : nat -> A -> res E unit) (P : A -> Prop) l :
  (forall i x, f i x = Ok tt <-> P x) ->
  (iteri_res f l = Ok tt <-> forall x, x ∈ l -> P x).
Proof.
  intros Hf. unfold iteri_res. rewrite iteri_res_from_Ok. split.
  - intros H x [k Hk]%list_elem_of_lookup. by eapply Hf, H.
  - intros H k x Hk. apply Hf, H. by eapply list_elem_of_lookup_2.
Qed.

Lemma required_spec {A} field (o : option A) : required field o = Ok tt <-> is_Some o.
Proof. by destruct o. Qed.

Lemma mirror_validate_spec m :
  validateMirrorFilter m = Ok tt <->
  exists m', m = Some m' /\ forall p, mirror_Percent m' = Some p -> (0 <= p <= 100)%Z.
Proof.
  destruct m as [m|]; simpl; [|split; [done|by intros (? & ? & ?)]].
  destruct (mirror_Percent m) as [p|] eqn:Hp.
  - destruct ((p <? 0)%Z || (100 <? p)%Z) eqn:Hr; breflect; split.
    + done.
    + intros (m' & [= <-] & H). destruct (H p Hp). lia.
    + intros _. exists m. split; [done|]. intros p' Hp'. rewrite Hp in Hp'. injection Hp' as <-. lia.
    + done.
  - split; [|done]. intros _. exists m. split; [done|]. congruence.
Qed.

Lemma cors_validate_spec c :
  validateCORSFilter c = Ok tt <-> exists c', c = Some c' /\ (0 <= cors_MaxAge c')%Z.
Proof.
  destruct c as [c|]; simpl; [|split; [done|by intros (? & ? & ?)]].
  destruct (cors_MaxAge c <? 0)%Z eqn:Hr; breflect; split; try done.
  - intros (c' & [= <-] & ?). lia.
  - eauto.
Qed.

Lemma filter_validate_spec f : RouteFilter_validate f = Ok tt <-> valid_filter f.
Proof.
  unfold RouteFilter_validate, valid_filter, FilterRequestHeaderModifier,
    FilterResponseHeaderModifier, FilterRequestRedirect, FilterURLRewrite, FilterRequestMirror,
    FilterCORS.
  repeat case_bool_decide;
    rewrite ?required_spec, ?mirror_validate_spec, ?cors_validate_spec;
    intuition congruence.
Qed.

Lemma header_validate_spec i h :
  validate_header_match i h = Ok tt <->
  hm_Type h ∈ [HeaderMatchExact; HeaderMatchRegularExpression] /\ hm_Name h <> "".
Proof. unfold validate_header_match. repeat case_bool_decide; simpl; set_solver. Qed.
Lemma query_validate_spec i q :
  validate_query_match i q = Ok tt <->
  qm_Type q ∈ [QueryParamMatchExact; QueryParamMatchRegularExpression] /\ qm_Name q <> "".
Proof. unfold validate_query_match. repeat case_bool_decide; simpl; set_solver. Qed.
Lemma path_validate_spec p :
  validate_path_match p = Ok tt <->
  pm_Type p ∈ [PathMatchExact; PathMatchPathPrefix; PathMatchRegularExpression] /\ pm_Value p <> "".
Proof. unfold validate_path_match. repeat case_bool_decide; simpl; set_solver. Qed.

Lemma match_validate_spec m : RouteMatch_validate m = Ok tt <-> valid_match m.
Proof.
  unfold RouteMatch_validate, valid_match. rewrite !seq_Ok.
  rewrite (iteri_res_forall _ _ _ header_validate_spec), (iteri_res_forall _ _ _ query_validate_spec).
  destruct (match_Path m) as [p|].
  - rewrite path_validate_spec. naive_solver.
  - naive_solver.
Qed.

Lemma backend_validate_spec i b : validate_backend i b = Ok tt <-> valid_backend b.
Proof.
  unfold validate_backend, valid_backend, isKnownBackendProtocol.
  rewrite <-(iteri_res_forall (fun fidx f =>
    map_err (fun e => ErrAt "backend" i (ErrAt "filter" fidx e)) (RouteFilter_validate f))).
  2:{ intros j f. by rewrite map_err_Ok, filter_validate_spec. }
  destruct (be_Weight b <? 0)%Z eqn:Hw; breflect; repeat case_bool_decide; simpl; set_solver by lia.
Qed.

Lemma rule_validate_spec r : RouteRule_validate r = Ok tt <-> valid_rule r.
Proof.
  unfold RouteRule_validate, valid_rule. rewrite !seq_Ok.
  rewrite (iteri_res_forall _ _ _ backend_validate_spec).
  rewrite (iteri_res_forall _ valid_match), (iteri_res_forall _ valid_filter); [done|..].
  - intros i f. by rewrite map_err_Ok, filter_validate_spec.
  - intros i m. by rewrite map_err_Ok, match_validate_spec.
Qed.

Lemma Validate_spec c : Validate c = Ok tt <-> valid_config c.
Proof.
  unfold Validate, valid_config. destruct (cfg_Version c <? 0)%Z eqn:Hv; breflect.
  - split; [done|]. lia.
  - rewrite (iteri_res_forall _ valid_rule).
    + split; [|by intros [_ ?]]. intros ?. split; [lia|done].
    + intros i r. by rewrite map_err_Ok, rule_validate_spec.
Qed.
