(* ===== verification/Matcher.v ===== *)
(** * Request matchers ([internal/proxy/matcher.go])

    One constructor per matcher type of the source and one [Match] function,
    the compilation of a [RouteMatch] into a conjunction of matchers, and what
    each matcher accepts.  The regular-expression engine is a parameter
    ([Regexp]): no property depends on which patterns it accepts. *)
From Stdlib Require Import Ascii.
From stdpp Require Import base sets strings list.
From S2P Require Import Prelude GoStrings GoHttp ProxyConfig.

(** [regexp.Compile]: [None] is a compile error, [Some re] a matcher whose
    [MatchString] is [re]. *)
Class Regexp := regexp_Compile : string -> option (string -> bool).

Section matcher.
Context {engine : Regexp}.

Inductive RequestMatcher :=
| exactPathMatcher (path : string)
| prefixPathMatcher (prefix : string)
| regexPathMatcher (re : string -> bool)
| exactHeaderMatcher (name value : string)
| regexHeaderMatcher (name : string) (re : string -> bool)
| exactQueryMatcher (param value : string)
| regexQueryMatcher (param : string) (re : string -> bool)
| methodMatcher (method : string).

Definition exactPath_Match (path : string) (r : Request) : bool :=
  bool_decide (url_Path (req_URL r) = path).

Definition prefixPath_Match (prefix : string) (r : Request) : bool :=
  let path := url_Path (req_URL r) in
  if negb (HasPrefix path prefix) then false
  else if String.length path =? String.length prefix then true
  else if HasSuffix prefix "/" then true
  else match String.get (String.length prefix) path with
       | Some c => bool_decide (c = "/"%char)
       | None => false
       end.

Definition Match (m : RequestMatcher) (r : Request) : bool :=
  match m with
  | exactPathMatcher path => exactPath_Match path r
  | prefixPathMatcher prefix => prefixPath_Match prefix r
  | regexPathMatcher re => re (url_Path (req_URL r))
  | exactHeaderMatcher name value => bool_decide (value ∈ header_Values (req_Header r) name)
  | regexHeaderMatcher name re => existsb re (header_Values (req_Header r) name)
  | exactQueryMatcher param value =>
      bool_decide (value ∈ query_Values (url_RawQuery (req_URL r)) param)
  | regexQueryMatcher param re => existsb re (query_Values (url_RawQuery (req_URL r)) param)
  | methodMatcher method => bool_decide (req_Method r = method)
  end.

(** ** Compilation *)

Inductive CompileError :=
| errRegex (pattern : string)
| errPathType (t : string)
| errHeaderType (t : string)
| errQueryType (t : string)
| errFilterType (t : string)
| CompileAt (field : string) (idx : nat) (e : CompileError).

Definition NewRegexPathMatcher (pattern : string) : res CompileError RequestMatcher :=
  match regexp_Compile pattern with
  | Some re => Ok (regexPathMatcher re)
  | None => Err (errRegex pattern)
  end.
Definition NewRegexHeaderMatcher (name pattern : string) : res CompileError RequestMatcher :=
  match regexp_Compile pattern with
  | Some re => Ok (regexHeaderMatcher name re)
  | None => Err (errRegex pattern)
  end.
Definition NewRegexQueryMatcher (param pattern : string) : res CompileError RequestMatcher :=
  match regexp_Compile pattern with
  | Some re => Ok (regexQueryMatcher param re)
  | None => Err (errRegex pattern)
  end.

Definition compilePathMatcher (p : PathMatch) : res CompileError RequestMatcher :=
  if bool_decide (pm_Type p = PathMatchExact) then Ok (exactPathMatcher (pm_Value p))
  else if bool_decide (pm_Type p = PathMatchPathPrefix) then Ok (prefixPathMatcher (pm_Value p))
  else if bool_decide (pm_Type p = PathMatchRegularExpression) then NewRegexPathMatcher (pm_Value p)
  else Err (errPathType (pm_Type p)).
Definition compileHeaderMatcher (h : HeaderMatch) : res CompileError RequestMatcher :=
  if bool_decide (hm_Type h = HeaderMatchExact) then
    Ok (exactHeaderMatcher (hm_Name h) (hm_Value h))
  else if bool_decide (hm_Type h = HeaderMatchRegularExpression) then
    NewRegexHeaderMatcher (hm_Name h) (hm_Value h)
  else Err (errHeaderType (hm_Type h)).
Definition compileQueryMatcher (q : QueryParamMatch) : res CompileError RequestMatcher :=
  if bool_decide (qm_Type q = QueryParamMatchExact) then
    Ok (exactQueryMatcher (qm_Name q) (qm_Value q))
  else if bool_decide (qm_Type q = QueryParamMatchRegularExpression) then
    NewRegexQueryMatcher (qm_Name q) (qm_Value q)
  else Err (errQueryType (qm_Type q)).

(** A [CompiledMatch] is the list of its matchers. *)
Definition CompiledMatch : Type := list RequestMatcher.
Fixpoint CompiledMatch_Match (cm : CompiledMatch) (r : Request) : bool :=
  match cm with
  | [] => true
  | m :: cm' => if negb (Match m r) then false else CompiledMatch_Match cm' r
  end.

Definition CompileMatch (m : RouteMatch) : res CompileError CompiledMatch :=
  path ← match match_Path m with
         | Some p => pm ← compilePathMatcher p; Ok [pm]
         | None => Ok []
         end;
  let method := if bool_decide (match_Method m = "") then [] else [methodMatcher (match_Method m)] in
  headers ← mapi_res (fun _ => compileHeaderMatcher) (match_Headers m);
  queries ← mapi_res (fun _ => compileQueryMatcher) (match_QueryParams m);
  Ok (path ++ method ++ headers ++ queries).

(** ** What a compiled match accepts

    [match_sem] reads a [RouteMatch] declaratively: every condition it lists
    holds of the request.  Exact and prefix paths, exact header and query
    values and the method are spelled out; a regular expression is whatever
    the engine compiled. *)

(** Segment-aware prefixes: the path is the prefix, or continues it at a
    segment boundary. *)
Definition path_prefix_sem (prefix path : string) : Prop :=
  exists rest, path = prefix +:+ rest /\
    (rest = "" \/ HasSuffix prefix "/" = true \/ HasPrefix rest "/" = true).

Definition path_sem (p : PathMatch) (r : Request) : Prop :=
  let path := url_Path (req_URL r) in
  (pm_Type p = PathMatchExact /\ path = pm_Value p) \/
  (pm_Type p = PathMatchPathPrefix /\ path_prefix_sem (pm_Value p) path) \/
  (pm_Type p = PathMatchRegularExpression /\
     exists re, regexp_Compile (pm_Value p) = Some re /\ re path = true).
Definition header_sem (h : HeaderMatch) (r : Request) : Prop :=
  exists v, v ∈ header_Values (req_Header r) (hm_Name h) /\
  ((hm_Type h = HeaderMatchExact /\ v = hm_Value h) \/
   (hm_Type h = HeaderMatchRegularExpression /\
      exists re, regexp_Compile (hm_Value h) = Some re /\ re v = true)).
Definition query_sem (q : QueryParamMatch) (r : Request) : Prop :=
  exists v, v ∈ query_Values (url_RawQuery (req_URL r)) (qm_Name q) /\
  ((qm_Type q = QueryParamMatchExact /\ v = qm_Value q) \/
   (qm_Type q = QueryParamMatchRegularExpression /\
      exists re, regexp_Compile (qm_Value q) = Some re /\ re v = true)).
Definition match_sem (m : RouteMatch) (r : Request) : Prop :=
  (forall p, match_Path m = Some p -> path_sem p r) /\
  (match_Method m <> "" -> req_Method r = match_Method m) /\
  (forall h, h ∈ match_Headers m -> header_sem h r) /\
  (forall q, q ∈ match_QueryParams m -> query_sem q r).

(** ** Lemmas *)

Lemma prefixPath_Match_spec prefix r :
  prefixPath_Match prefix r = true <-> path_prefix_sem prefix (url_Path (req_URL r)).
Proof.
  unfold prefixPath_Match, path_prefix_sem. set (path := url_Path (req_URL r)). clearbody path.
  destruct (HasPrefix path prefix) eqn:Hp; simpl.
  2:{ split; [done|]. intros (t & -> & _). by rewrite HasPrefix_app in Hp. }
  apply HasPrefix_spec in Hp as [rest ->]. rewrite length_sapp.
  destruct (Nat.eqb_spec (String.length prefix + String.length rest) (String.length prefix)) as [Hl|Hl].
  { split; [|done]. intros _. exists rest. split; [done|]. left. apply slength_zero. lia. }
  assert (String.get (String.length prefix) (prefix +:+ rest) = String.get 0 rest) as ->.
  { clear. induction prefix as [|c s IH]; [done|]. rewrite sapp_cons. simpl. apply IH. }
  destruct rest as [|c rest]; [simpl in Hl; lia|]. simpl.
  destruct (HasSuffix prefix "/") eqn:Hs.
  { split; [|done]. intros _. exists (String c rest). auto. }
  rewrite bool_decide_eq_true. split.
  - intros ->. exists (String "/" rest). split; [done|]. right. right.
    apply HasPrefix_spec. by exists rest.
  - intros (t & Ht & Hor). apply sapp_inv_head in Ht as <-.
    destruct Hor as [?|[?|(u & Hu)%HasPrefix_spec]]; [done..|]. by injection Hu.
Qed.

Lemma compilePathMatcher_sem p m r :
  compilePathMatcher p = Ok m -> (Match m r = true <-> path_sem p r).
Proof.
  unfold compilePathMatcher, NewRegexPathMatcher, path_sem,
    PathMatchExact, PathMatchPathPrefix, PathMatchRegularExpression.
  intros Hc. repeat case_bool_decide; go_cases; simpl; unfold exactPath_Match.
  - rewrite bool_decide_eq_true. split; [auto|]. intros [[_ ?]|[[? _]|[? _]]]; congruence.
  - rewrite prefixPath_Match_spec. split; [auto|]. intros [[? ?]|[[_ ?]|[? _]]]; congruence.
  - split; [eauto 10|]. intros [[? ?]|[[? ?]|(_ & re & Hre & ?)]]; congruence.
Qed.

Lemma existsb_sem (re : string -> bool) l :
  existsb re l = true <-> exists v, v ∈ l /\ re v = true.
Proof. apply existsb_elem_of. Qed.

Lemma compileHeaderMatcher_sem h m r :
  compileHeaderMatcher h = Ok m -> (Match m r = true <-> header_sem h r).
Proof.
  unfold compileHeaderMatcher, NewRegexHeaderMatcher, header_sem,
    HeaderMatchExact, HeaderMatchRegularExpression.
  intros Hc. repeat case_bool_decide; go_cases; simpl.
  - rewrite bool_decide_eq_true. split; [eauto|].
    intros (v & ? & [[_ ->]|[? _]]); [done|congruence].
  - rewrite existsb_sem. split.
    + intros (v & ? & ?). exists v. eauto 10.
    + intros (v & ? & [[? ?]|(_ & re & Hre & ?)]); [congruence|].
      exists v. split; [done|congruence].
Qed.

Lemma compileQueryMatcher_sem q m r :
  compileQueryMatcher q = Ok m -> (Match m r = true <-> query_sem q r).
Proof.
  unfold compileQueryMatcher, NewRegexQueryMatcher, query_sem,
    QueryParamMatchExact, QueryParamMatchRegularExpression.
  intros Hc. repeat case_bool_decide; go_cases; simpl.
  - rewrite bool_decide_eq_true. split; [eauto|].
    intros (v & ? & [[_ ->]|[? _]]); [done|congruence].
  - rewrite existsb_sem. split.
    + intros (v & ? & ?). exists v. eauto 10.
    + intros (v & ? & [[? ?]|(_ & re & Hre & ?)]); [congruence|].
      exists v. split; [done|congruence].
Qed.

Lemma CompiledMatch_Match_spec cm r :
  CompiledMatch_Match cm r = true <-> forall m, m ∈ cm -> Match m r = true.
Proof.
  induction cm as [|m cm IH]; simpl; [by split; [intros _ m ?%elem_of_nil|]|].
  setoid_rewrite elem_of_cons. destruct (Match m r) eqn:Hm; simpl; naive_solver congruence.
Qed.

Lemma mapi_matchers_sem {A} (f : A -> res CompileError RequestMatcher) (P : A -> Prop) l ms r :
  (forall x m, f x = Ok m -> (Match m r = true <-> P x)) ->
  mapi_res (fun _ => f) l = Ok ms ->
  ((forall m, m ∈ ms -> Match m r = true) <-> (forall x, x ∈ l -> P x)).
Proof.
  intros Hf [Hlen Hl]%mapi_res_from_Ok. split.
  - intros H x [k Hk]%list_elem_of_lookup. destruct (Hl k x Hk) as (m & Hm & Hfx).
    apply (Hf x m Hfx), H. by eapply list_elem_of_lookup_2.
  - intros H m [k Hk]%list_elem_of_lookup.
    destruct (lookup_lt_is_Some_2 l k) as [x Hx].
    { apply lookup_lt_Some in Hk. lia. }
    destruct (Hl k x Hx) as (m' & Hm' & Hfx).
    assert (m' = m) as -> by congruence. apply (Hf x m Hfx), H. by eapply list_elem_of_lookup_2.
Qed.

(** The compiled matchers decide the declarative reading of the match. *)
Lemma CompileMatch_sem m cm r :
  CompileMatch m = Ok cm -> (CompiledMatch_Match cm r = true <-> match_sem m r).
Proof.
  unfold CompileMatch, match_sem. rewrite CompiledMatch_Match_spec.
  rewrite bind_Ok. intros (path & Hpath & Hc).
  apply bind_Ok in Hc as (hs & Hhs & Hc). apply bind_Ok in Hc as (qs & Hqs & [= <-]).
  rewrite <-(mapi_matchers_sem _ _ _ _ r (fun x m => compileHeaderMatcher_sem x m r) Hhs).
  rewrite <-(mapi_matchers_sem _ _ _ _ r (fun x m => compileQueryMatcher_sem x m r) Hqs).
  assert ((forall m, m ∈ path -> Match m r = true) <->
          forall p, match_Path m = Some p -> path_sem p r) as Hp.
  { destruct (match_Path m) as [p|].
    - apply bind_Ok in Hpath as (pm & Hpm & [= <-]).
      setoid_rewrite list_elem_of_singleton. split.
      + intros H ? [= <-]. apply (compilePathMatcher_sem p pm r Hpm). by apply H.
      + intros H ? ->. apply (compilePathMatcher_sem p pm r Hpm). by apply H.
    - injection Hpath as <-. split; [done|]. intros _ x ?%elem_of_nil. done. }
  rewrite <-Hp. setoid_rewrite elem_of_app. setoid_rewrite elem_of_app.
  case_bool_decide as Hm; simpl; [set_solver|].
  setoid_rewrite elem_of_app. setoid_rewrite list_elem_of_singleton.
  split; [intros H|intros (?&?&?&?) ? [|[->|[|]]]]; eauto.
  - split_and!; try by eauto. intros _. specialize (H (methodMatcher (match_Method m))).
    simpl in H. rewrite bool_decide_eq_true in H. auto.
  - simpl. apply bool_decide_eq_true. auto.
Qed.

(** Compilation of a validated match can only fail on a regular expression. *)
Fixpoint root_error (e : CompileError) : CompileError :=
  match e with CompileAt _ _ e' => root_error e' | _ => e end.
Definition is_regex_error (e : CompileError) : Prop :=
  exists p, root_error e = errRegex p /\ regexp_Compile p = None.

Lemma mapi_res_from_Err {E A B} (f : nat -> A -> res E B) l i e :
  mapi_res_from i f l = Err e -> exists k x, l !! k = Some x /\ f (i + k) x = Err e.
Proof.
  revert i. induction l as [|x l IH]; intros i; cbn [mapi_res_from]; [done|].
  rewrite bind_Err. intros [Hx|(y & _ & [Hl|(ys & _ & ?)]%bind_Err)]; [|..|done].
  - exists 0, x. by rewrite Nat.add_0_r.
  - destruct (IH _ Hl) as (k & z & ? & ?). exists (S k), z. split; [done|].
    by replace (i + S k) with (S i + k) by lia.
Qed.

Lemma CompileMatch_valid m e :
  valid_match m -> CompileMatch m = Err e -> is_regex_error e.
Proof.
  intros (Hp & Hh & Hq) He. unfold CompileMatch in He. unfold is_regex_error.
  apply bind_Err in He as [He|(path & _ & He)].
  { destruct (match_Path m) as [p|]; [|done]. destruct (Hp p eq_refl) as [Ht _].
    apply bind_Err in He as [He|(? & ? & ?)]; [|done].
    unfold compilePathMatcher, NewRegexPathMatcher in He. repeat case_bool_decide; go_cases; eauto.
    set_solver. }
  apply bind_Err in He as [He|(hs & _ & He)].
  { apply mapi_res_from_Err in He as (k & h & Hk & He).
    destruct (Hh h) as [Ht _]; [by eapply list_elem_of_lookup_2|].
    unfold compileHeaderMatcher, NewRegexHeaderMatcher in He. repeat case_bool_decide; go_cases; eauto.
    set_solver. }
  apply bind_Err in He as [He|(qs & _ & He)]; [|done].
  apply mapi_res_from_Err in He as (k & q & Hk & He).
  destruct (Hq q) as [Ht _]; [by eapply list_elem_of_lookup_2|].
  unfold compileQueryMatcher, NewRegexQueryMatcher in He. repeat case_bool_decide; go_cases; eauto.
  set_solver.
Qed.
End matcher.
