(* ===== verification/Cors.v ===== *)
(** * The CORS filter ([internal/proxy/cors.go])

    Preflight answers and the headers attached to simple cross-origin
    responses.  The theorems bound what the filter may emit: no CORS header for
    an origin outside the allow-list, and no wildcard next to credentials
    unless the client itself asked for it. *)
From Stdlib Require Import Ascii.
From stdpp Require Import base gmap strings list.
From S2P Require Import Prelude GoStrings GoHttp ProxyConfig.

(** ** Definitions *)

Definition corsWildcard : string := "*".
Definition defaultCORSMaxAgeSeconds : Z := 5.
Definition headerOrigin : string := "Origin".
Definition headerAccessControlRequestMethod : string := "Access-Control-Request-Method".
Definition headerAccessControlRequestHeaders : string := "Access-Control-Request-Headers".
Definition headerAccessControlAllowOrigin : string := "Access-Control-Allow-Origin".
Definition headerAccessControlAllowCredentials : string := "Access-Control-Allow-Credentials".
Definition headerAccessControlAllowMethods : string := "Access-Control-Allow-Methods".
Definition headerAccessControlAllowHeaders : string := "Access-Control-Allow-Headers".
Definition headerAccessControlExposeHeaders : string := "Access-Control-Expose-Headers".
Definition headerAccessControlMaxAge : string := "Access-Control-Max-Age".

Definition isCORSPreflight (req : Request) : bool :=
  if negb (bool_decide (req_Method req = "OPTIONS")) then false
  else negb (bool_decide (header_Get (req_Header req) headerAccessControlRequestMethod = "")).

Definition allowedMethodsValue (requestedMethod : string) (cfg : CORSConfig) : string :=
  if length (cors_AllowMethods cfg) =? 0 then ""
  else if bool_decide (cors_AllowMethods cfg = [corsWildcard]) then
    if negb (bool_decide (requestedMethod = "")) then requestedMethod
    else if cors_AllowCredentials cfg then "" else corsWildcard
  else Join (cors_AllowMethods cfg) ", ".

Definition allowedHeadersValue (requestedHeaders : string) (cfg : CORSConfig) : string :=
  if length (cors_AllowHeaders cfg) =? 0 then ""
  else if bool_decide (cors_AllowHeaders cfg = [corsWildcard]) then
    if negb (bool_decide (requestedHeaders = "")) then requestedHeaders
    else if cors_AllowCredentials cfg then "" else corsWildcard
  else Join (cors_AllowHeaders cfg) ", ".

Definition exposeHeadersValue (cfg : CORSConfig) : string :=
  if length (cors_ExposeHeaders cfg) =? 0 then ""
  else if bool_decide (cors_ExposeHeaders cfg = [corsWildcard]) then
    if cors_AllowCredentials cfg then "" else corsWildcard
  else Join (cors_ExposeHeaders cfg) ", ".

Definition maxAgeSeconds (cfg : CORSConfig) : Z :=
  if (cors_MaxAge cfg <=? 0)%Z then defaultCORSMaxAgeSeconds else cors_MaxAge cfg.

Definition splitOrigin (origin : string) : option (string * string) :=
  match Cut origin "://" with
  | Some (scheme, rest) =>
      if bool_decide (scheme = "") || bool_decide (rest = "") then None else Some (scheme, rest)
  | None => None
  end.

Definition hostMatchesPattern (host pattern : string) : bool :=
  if bool_decide (pattern = host) then true
  else if negb (HasPrefix pattern "*.") then false
  else
    let suffix := str_drop 1 pattern in
    HasSuffix host suffix && (String.length suffix <? String.length host).

Definition originMatchesPattern (origin pattern : string) : bool :=
  if bool_decide (pattern = origin) then true
  else match splitOrigin origin with
       | None => false
       | Some (originScheme, originHost) =>
           match splitOrigin pattern with
           | None => false
           | Some (patternScheme, patternHost) =>
               if negb (bool_decide (originScheme = patternScheme)) then false
               else hostMatchesPattern originHost patternHost
           end
       end.

Fixpoint anyOriginMatches (origin : string) (allowOrigins : list string) : bool :=
  match allowOrigins with
  | [] => false
  | allowed :: l =>
      if bool_decide (allowed = corsWildcard) then true
      else if originMatchesPattern origin allowed then true
      else anyOriginMatches origin l
  end.
Definition originAllowed (origin : string) (allowOrigins : list string) : bool :=
  if bool_decide (origin = "") || bool_decide (origin = corsWildcard) || (length allowOrigins =? 0)
  then false
  else anyOriginMatches origin allowOrigins.

(** [if v != "" { header.Set(k, v) }] *)
Definition set_nonempty (k v : string) (h : Header) : Header :=
  if bool_decide (v = "") then h else header_Set h k v.
Definition set_credentials (cfg : CORSConfig) (h : Header) : Header :=
  if cors_AllowCredentials cfg then header_Set h headerAccessControlAllowCredentials "true" else h.

Definition writePreflightHeaders (cfg : CORSConfig) (header : Header) (origin : string)
    (req : Request) : Header :=
  let h := header_Set header headerAccessControlAllowOrigin origin in
  let h := set_credentials cfg h in
  let h := set_nonempty headerAccessControlAllowMethods
             (allowedMethodsValue (header_Get (req_Header req) headerAccessControlRequestMethod) cfg) h in
  let h := set_nonempty headerAccessControlAllowHeaders
             (allowedHeadersValue (header_Get (req_Header req) headerAccessControlRequestHeaders) cfg) h in
  let h := set_nonempty headerAccessControlExposeHeaders (exposeHeadersValue cfg) h in
  let h := header_Set h headerAccessControlMaxAge (Itoa (maxAgeSeconds cfg)) in
  let h := header_Add h "Vary" "Origin" in
  let h := header_Add h "Vary" headerAccessControlRequestMethod in
  header_Add h "Vary" headerAccessControlRequestHeaders.

Definition writeSimpleHeaders (cfg : CORSConfig) (header : Header) (origin : string) : Header :=
  let h := header_Set header headerAccessControlAllowOrigin origin in
  let h := set_credentials cfg h in
  let h := set_nonempty headerAccessControlExposeHeaders (exposeHeadersValue cfg) h in
  header_Add h "Vary" "Origin".

(** [CORSFilter.ProcessRequest]: [None] lets the request through. *)
Definition cors_ProcessRequest (cfg : option CORSConfig) (req : Request) : option Response :=
  match cfg with
  | None => None
  | Some cfg =>
      if negb (isCORSPreflight req) then None
      else
        let origin := header_Get (req_Header req) headerOrigin in
        let header := if originAllowed origin (cors_AllowOrigins cfg)
                      then writePreflightHeaders cfg ∅ origin req else ∅ in
        Some (mkResponse 204 header (Some req))
  end.

(** [CORSFilter.ProcessResponse]: the response with its headers updated. *)
Definition cors_ProcessResponse (cfg : option CORSConfig) (resp : Response) : Response :=
  match cfg, resp_Request resp with
  | Some cfg, Some req =>
      if isCORSPreflight req then resp
      else
        let origin := header_Get (req_Header req) headerOrigin in
        if bool_decide (origin = "") then resp
        else if negb (originAllowed origin (cors_AllowOrigins cfg)) then resp
        else mkResponse (resp_StatusCode resp)
               (writeSimpleHeaders cfg (resp_Header resp) origin) (resp_Request resp)
  | _, _ => resp
  end.

(** ** The origins an allow-list entry denotes

    ["*"] is every origin a browser sends, a literal entry is itself, and
    [scheme://*.suffix] is [scheme://label.suffix] for any non-empty label
    text, at any depth. *)
Definition origin_in (entry origin : string) : Prop :=
  entry = corsWildcard \/ entry = origin \/
  exists scheme suffix label,
    entry = scheme +:+ "://*." +:+ suffix /\ label <> "" /\
    origin = scheme +:+ "://" +:+ label +:+ "." +:+ suffix.

Lemma hostMatchesPattern_spec host pattern :
  hostMatchesPattern host pattern = true ->
  host = pattern \/ exists suffix label, pattern = "*." +:+ suffix /\ label <> "" /\
    host = label +:+ "." +:+ suffix.
Proof.
  unfold hostMatchesPattern. case_bool_decide; [auto|].
  destruct (HasPrefix pattern "*.") eqn:Hp; simpl; [|done].
  apply HasPrefix_spec in Hp as [suffix ->]. intros Hm. breflect. right.
  change (str_drop 1 ("*." +:+ suffix)) with ("." +:+ suffix) in *.
  match goal with H : HasSuffix _ _ = true |- _ => apply HasSuffix_spec in H as [label ->] end.
  exists suffix, label. split_and!; try done. intros ->.
  rewrite length_sapp in *. simpl in *. lia.
Qed.

Lemma originMatchesPattern_sound origin pattern :
  originMatchesPattern origin pattern = true -> origin_in pattern origin.
Proof.
  unfold originMatchesPattern, splitOrigin, origin_in. case_bool_decide; [auto|].
  destruct (Cut origin "://") as [[os oh]|] eqn:Ho; [|done].
  destruct (bool_decide (os = "") || bool_decide (oh = "")); [done|].
  destruct (Cut pattern "://") as [[ps ph]|] eqn:Hp; [|done].
  destruct (bool_decide (ps = "") || bool_decide (ph = "")); [done|].
  apply Cut_Some in Ho as ->. apply Cut_Some in Hp as ->.
  case_bool_decide as Hs; simpl; [subst os|done].
  intros [->|(suffix & label & -> & Hl & ->)]%hostMatchesPattern_spec; [auto|].
  right. right. exists ps, suffix, label. split_and!; try done.
Qed.

Lemma anyOriginMatches_spec origin l :
  anyOriginMatches origin l = true <->
  exists e, e ∈ l /\ (e = corsWildcard \/ originMatchesPattern origin e = true).
Proof.
  induction l as [|e l IH]; simpl; [by split; [|intros (?&?%elem_of_nil&_)]|].
  setoid_rewrite elem_of_cons. case_bool_decide as Hw; [by split; eauto 10|].
  destruct (originMatchesPattern origin e) eqn:He; [by split; eauto 10|]. rewrite IH. split.
  - intros (e' & ? & ?). eauto 10.
  - intros (e' & [->|?] & [?|?]); [congruence..| |]; eauto.
Qed.

(** An origin is allowed only when the allow-list denotes it. *)
Lemma originAllowed_sound origin l :
  originAllowed origin l = true ->
  origin <> "" /\ origin <> corsWildcard /\ exists e, e ∈ l /\ origin_in e origin.
Proof.
  unfold originAllowed. destruct (_ || _) eqn:Hg; [done|]. breflect.
  intros (e & He & Hm)%anyOriginMatches_spec. split_and!; [done..|].
  exists e. split; [done|]. destruct Hm as [->|Hm]; [by left|].
  by apply originMatchesPattern_sound.
Qed.

(** ** Emitted headers *)

Definition cors_header_keys : list string :=
  [headerAccessControlAllowOrigin; headerAccessControlAllowCredentials;
   headerAccessControlAllowMethods; headerAccessControlAllowHeaders;
   headerAccessControlExposeHeaders; headerAccessControlMaxAge].

Definition nonempty (v : string) : bool := negb (bool_decide (v = "")).

Lemma header_Values_set_nonempty k v h k' :
  header_Values (set_nonempty k v h) k' =
  if same_key k k' && nonempty v then [v] else header_Values h k'.
Proof.
  unfold set_nonempty, nonempty. case_bool_decide; [by rewrite andb_false_r|].
  by rewrite header_Values_Set, andb_true_r.
Qed.
Lemma header_Values_set_credentials cfg h k' :
  header_Values (set_credentials cfg h) k' =
  if same_key headerAccessControlAllowCredentials k' && cors_AllowCredentials cfg
  then ["true"] else header_Values h k'.
Proof.
  unfold set_credentials. destruct (cors_AllowCredentials cfg).
  - by rewrite header_Values_Set, andb_true_r.
  - by rewrite andb_false_r.
Qed.
Lemma header_Values_empty k : header_Values ∅ k = [].
Proof. done. Qed.

Ltac header_simpl :=
  repeat first
    [ rewrite header_Values_Add | rewrite header_Values_Set | rewrite header_Values_set_nonempty
    | rewrite header_Values_set_credentials | rewrite header_Values_empty ];
  eval_keys.

(** The value of each header a preflight answer carries. *)
Section preflight_values.
Context (cfg : CORSConfig) (origin : string) (req : Request).
Let h := writePreflightHeaders cfg ∅ origin req.

Lemma preflight_allow_origin : header_Values h headerAccessControlAllowOrigin = [origin].
Proof. unfold h, writePreflightHeaders. by header_simpl. Qed.
Lemma preflight_allow_methods :
  header_Values h headerAccessControlAllowMethods =
  let v := allowedMethodsValue (header_Get (req_Header req) headerAccessControlRequestMethod) cfg in
  if nonempty v then [v] else [].
Proof. unfold h, writePreflightHeaders. by header_simpl. Qed.
Lemma preflight_allow_headers :
  header_Values h headerAccessControlAllowHeaders =
  let v := allowedHeadersValue (header_Get (req_Header req) headerAccessControlRequestHeaders) cfg in
  if nonempty v then [v] else [].
Proof. unfold h, writePreflightHeaders. by header_simpl. Qed.
Lemma preflight_expose_headers :
  header_Values h headerAccessControlExposeHeaders =
  if nonempty (exposeHeadersValue cfg) then [exposeHeadersValue cfg] else [].
Proof. unfold h, writePreflightHeaders. by header_simpl. Qed.
Lemma preflight_credentials :
  header_Values h headerAccessControlAllowCredentials =
  if cors_AllowCredentials cfg then ["true"] else [].
Proof. unfold h, writePreflightHeaders. by header_simpl. Qed.
Lemma preflight_vary :
  header_Values h "Vary" =
  ["Origin"; headerAccessControlRequestMethod; headerAccessControlRequestHeaders].
Proof. unfold h, writePreflightHeaders. by header_simpl. Qed.
End preflight_values.

(** A joined list is a lone ["*"] only when the list is. *)
Lemma Join_wildcard l : Join l ", " = corsWildcard -> l = [corsWildcard].
Proof.
  destruct l as [|x [|y l]]; cbn [Join]; [done|by intros ->|].
  intros H%(f_equal String.length). rewrite !length_sapp in H. simpl in H. lia.
Qed.
Lemma allowedMethodsValue_wildcard m cfg :
  cors_AllowCredentials cfg = true -> allowedMethodsValue m cfg = corsWildcard -> m = corsWildcard.
Proof.
  intros Hc. unfold allowedMethodsValue. destruct (_ =? 0); [done|]. rewrite Hc.
  case_bool_decide as Hw; [case_bool_decide; simpl; [done|auto]|].
  by intros ?%Join_wildcard.
Qed.
Lemma allowedHeadersValue_wildcard m cfg :
  cors_AllowCredentials cfg = true -> allowedHeadersValue m cfg = corsWildcard -> m = corsWildcard.
Proof.
  intros Hc. unfold allowedHeadersValue. destruct (_ =? 0); [done|]. rewrite Hc.
  case_bool_decide as Hw; [case_bool_decide; simpl; [done|auto]|].
  by intros ?%Join_wildcard.
Qed.
Lemma exposeHeadersValue_wildcard cfg :
  cors_AllowCredentials cfg = true -> exposeHeadersValue cfg <> corsWildcard.
Proof.
  intros Hc. unfold exposeHeadersValue. destruct (_ =? 0); [done|]. rewrite Hc.
  case_bool_decide as Hw; [done|]. by intros ?%Join_wildcard.
Qed.

Lemma if_singleton_elem (b : bool) (v x : string) : x ∈ (if b then [v] else []) -> x = v.
Proof. destruct b; [by intros ?%list_elem_of_singleton|by intros ?%elem_of_nil]. Qed.

(** ** Theorems *)

(** A preflight is always answered with 204 and never reaches the backend.
    The answer carries CORS headers only for an origin the allow-list denotes,
    and then reflects exactly that origin (never ["*"]) with the [Vary] keys a
    shared cache needs; for any other origin it carries no header at all. *)
Theorem cors_preflight_answer cfg req :
  isCORSPreflight req = true ->
  let origin := header_Get (req_Header req) headerOrigin in
  exists h, cors_ProcessRequest (Some cfg) req = Some (mkResponse 204 h (Some req)) /\
  (h = ∅ \/
   (origin <> corsWildcard /\
    (exists e, e ∈ cors_AllowOrigins cfg /\ origin_in e origin) /\
    header_Values h headerAccessControlAllowOrigin = [origin] /\
    header_Values h "Vary" =
      ["Origin"; headerAccessControlRequestMethod; headerAccessControlRequestHeaders])).
Proof.
  intros Hpre origin. unfold cors_ProcessRequest. rewrite Hpre. simpl.
  eexists. split; [done|]. fold origin.
  destruct (originAllowed origin (cors_AllowOrigins cfg)) eqn:Ho; [right|by left].
  apply originAllowed_sound in Ho as (_ & ? & ?).
  auto using preflight_allow_origin, preflight_vary.
Qed.

Definition preflight_example : Request :=
  plain_request "OPTIONS" "api.bar.com" "/v1" ""
    {[ "Origin" := ["https://a.b.bar.com"]; "Access-Control-Request-Method" := ["PUT"] ]}.
Definition cors_example : CORSConfig :=
  mkCORSConfig ["https://*.bar.com"] true ["*"] ["X-Token"] ["*"] 0.
Example cors_preflight_methods :
  header_Values (default ∅ (resp_Header <$> cors_ProcessRequest (Some cors_example) preflight_example))
    headerAccessControlAllowMethods = ["PUT"].
Proof. vm_compute. reflexivity. Qed.
Lemma cors_preflight_answer_witness :
  isCORSPreflight preflight_example = true /\
  exists h, cors_ProcessRequest (Some cors_example) preflight_example =
    Some (mkResponse 204 h (Some preflight_example)).
Proof.
  assert (isCORSPreflight preflight_example = true) as Hp by (vm_compute; reflexivity).
  split; [exact Hp|].
  destruct (cors_preflight_answer cors_example preflight_example Hp) as (h & Hh & _).
  exists h. exact Hh.
Defined.

(** With [AllowCredentials] the preflight answer never carries a bare ["*"]
    in an Access-Control header, except by echoing a request that itself asked
    for ["*"] as a method or header name. *)
Theorem cors_credentials_no_wildcard cfg req resp k :
  cors_AllowCredentials cfg = true ->
  cors_ProcessRequest (Some cfg) req = Some resp ->
  k ∈ [headerAccessControlAllowOrigin; headerAccessControlAllowMethods;
       headerAccessControlAllowHeaders; headerAccessControlExposeHeaders] ->
  corsWildcard ∈ header_Values (resp_Header resp) k ->
  (k = headerAccessControlAllowMethods /\
   header_Get (req_Header req) headerAccessControlRequestMethod = corsWildcard) \/
  (k = headerAccessControlAllowHeaders /\
   header_Get (req_Header req) headerAccessControlRequestHeaders = corsWildcard).
Proof.
  intros Hc Hr Hk Hw. unfold cors_ProcessRequest in Hr.
  destruct (isCORSPreflight req); [|done]. simplify_eq/=.
  destruct (originAllowed _ _) eqn:Ho; [|by apply elem_of_nil in Hw].
  apply originAllowed_sound in Ho as (_ & Hne & _).
  rewrite !elem_of_cons, elem_of_nil in Hk. destruct Hk as [->|[->|[->|[->|[]]]]].
  - rewrite preflight_allow_origin in Hw. apply list_elem_of_singleton in Hw. congruence.
  - rewrite preflight_allow_methods in Hw. apply if_singleton_elem in Hw.
    left. split; [done|]. by eapply allowedMethodsValue_wildcard.
  - rewrite preflight_allow_headers in Hw. apply if_singleton_elem in Hw.
    right. split; [done|]. by eapply allowedHeadersValue_wildcard.
  - rewrite preflight_expose_headers in Hw. apply if_singleton_elem in Hw.
    by destruct (exposeHeadersValue_wildcard cfg Hc).
Qed.

Definition star_preflight : Request :=
  plain_request "OPTIONS" "api.bar.com" "/v1" ""
    {[ "Origin" := ["https://a.bar.com"]; "Access-Control-Request-Method" := ["*"] ]}.
Definition star_answer : Response :=
  mkResponse 204 (writePreflightHeaders cors_example ∅ "https://a.bar.com" star_preflight)
    (Some star_preflight).
(** The exception is real: a client that sends a literal ["*"] gets it echoed. *)
Lemma cors_credentials_no_wildcard_witness :
  headerAccessControlAllowMethods = headerAccessControlAllowMethods /\
  header_Get (req_Header star_preflight) headerAccessControlRequestMethod = corsWildcard.
Proof.
  destruct (cors_credentials_no_wildcard cors_example star_preflight star_answer
    headerAccessControlAllowMethods) as [H|[H _]].
  - reflexivity.
  - vm_compute. reflexivity.
  - refine (bool_decide_unpack _ _). vm_compute. exact I.
  - refine (bool_decide_unpack _ _). vm_compute. exact I.
  - exact H.
  - discriminate H.
Defined.

(** On a simple (non-preflight) response the filter leaves the response
    untouched unless the request's origin is allowed; when it is, the backend's
    status and every non-CORS header except [Vary] survive unchanged, [Vary] is
    only appended to, and the origin is reflected. *)
Theorem cors_simple_response cfg resp req :
  resp_Request resp = Some req -> isCORSPreflight req = false ->
  let origin := header_Get (req_Header req) headerOrigin in
  let resp' := cors_ProcessResponse (Some cfg) resp in
  if originAllowed origin (cors_AllowOrigins cfg) then
    resp_StatusCode resp' = resp_StatusCode resp /\
    header_Values (resp_Header resp') headerAccessControlAllowOrigin = [origin] /\
    header_Values (resp_Header resp') "Vary" = header_Values (resp_Header resp) "Vary" ++ ["Origin"] /\
    (forall k, forallb (fun c => negb (same_key c k)) ("Vary" :: cors_header_keys) = true ->
       header_Values (resp_Header resp') k = header_Values (resp_Header resp) k)
  else resp' = resp.
Proof.
  intros Hreq Hpre origin resp'. subst resp'. unfold cors_ProcessResponse. rewrite Hreq, Hpre.
  fold origin. destruct (originAllowed origin (cors_AllowOrigins cfg)) eqn:Ho; simpl.
  2:{ by case_bool_decide. }
  apply originAllowed_sound in Ho as (Hne & _ & _). rewrite bool_decide_false by done. simpl.
  unfold writeSimpleHeaders. split_and!; [done| | |]; [by header_simpl..|].
  intros k Hk. cbn [forallb cors_header_keys] in Hk. breflect.
  rewrite header_Values_Add, header_Values_set_nonempty, header_Values_set_credentials,
    header_Values_Set.
  repeat match goal with H : same_key _ k = false |- _ => rewrite H; clear H end. done.
Qed.

Definition simple_example : Request :=
  plain_request "GET" "api.bar.com" "/v1" "" {[ "Origin" := ["https://a.bar.com"] ]}.
Lemma cors_simple_response_witness :
  header_Values (resp_Header (cors_ProcessResponse (Some cors_example)
    (mkResponse 200 {[ "Vary" := ["Accept-Encoding"] ]} (Some simple_example)))) "Vary" =
  ["Accept-Encoding"; "Origin"].
Proof.
  destruct (cors_simple_response cors_example
    (mkResponse 200 {[ "Vary" := ["Accept-Encoding"] ]} (Some simple_example)) simple_example
    eq_refl ltac:(vm_compute; reflexivity)) as (_ & _ & H & _).
  rewrite H. vm_compute. reflexivity.
Defined.
