(* ===== verification/Filters.v ===== *)
(** * Request and response filters ([internal/proxy/filter.go])

    One constructor per filter type, its request and response processing, the
    compilation from configuration and the order filters run in.  A nil
    configuration pointer is [None] and dereferencing it is a panic, the value
    [None] of [ProcessRequest]; validated configurations never reach it.
    Sampling randomness ([rand.Int32N]) is an argument, the mirror leg's
    goroutine a value ([MirrorDispatch]) handed back with the request. *)
From Stdlib Require Import Ascii.
From stdpp Require Import base sets gmap strings list.
From S2P Require Import Prelude GoStrings GoHttp ProxyConfig Matcher Cors.

(** ** Constants *)

Definition mirrorMaxAttempts : nat := 3.
Definition maxMirrorBodySize : Z := 1048576.
Definition hostRewrittenHeader : string := "X-Proxy-Host-Rewritten".
Definition schemeHTTP : string := "http".
Definition schemeHTTPS : string := "https".

Section filters.
Context {parser : UrlParser}.

(** ** Request context and header helpers *)

Definition SetMatchedPrefix (req : Request) (prefix : string) : Request := set_Prefix prefix req.
Definition getMatchedPrefix (req : Request) : string := default "" (req_matchedPrefix req).
Definition isHostRewritten (req : Request) : bool :=
  negb (bool_decide (header_Get (req_Header req) hostRewrittenHeader = "")).

Definition applyHeaderModifier (headers : Header) (m : HeaderModifier) : Header :=
  let h := foldl (fun h v => header_Set h (hv_Name v) (hv_Value v)) headers (mod_Set m) in
  let h := foldl (fun h v => header_Add h (hv_Name v) (hv_Value v)) h (mod_Add m) in
  foldl header_Del h (mod_Remove m).

(** ** Redirects and rewrites *)

Definition stripPort (host : string) : string :=
  match LastIndexByte host ":" with
  | Some idx => if negb (ContainsByte (str_drop idx host) "]") then str_take idx host else host
  | None => host
  end.

Definition joinPathSegments (prefix suffix : string) : string :=
  if bool_decide (suffix = "") then prefix else Clean (prefix +:+ "/" +:+ suffix).

Definition buildRedirectBase (req : Request) (config : RedirectConfig) : URL :=
  let scheme := url_Scheme (req_URL req) in
  let scheme := if bool_decide (scheme = "") then schemeHTTPS else scheme in
  let scheme := default scheme (redirect_Scheme config) in
  let hostname := default (req_Host req) (redirect_Hostname config) in
  let hostname := stripPort hostname in
  let host := match redirect_Port config with
              | Some port => hostname +:+ ":" +:+ Itoa port
              | None => hostname
              end in
  mkURL scheme host "" "" "".

Definition buildRedirectPath (req : Request) (config : RedirectConfig) : string :=
  match redirect_Path config with
  | None => url_Path (req_URL req)
  | Some p =>
      if bool_decide (rp_Type p = RedirectPathFullReplace) then rp_Value p
      else if bool_decide (rp_Type p = RedirectPathPrefixReplace) then
        let matchedPrefix := getMatchedPrefix req in
        if negb (bool_decide (matchedPrefix = "")) then
          joinPathSegments (rp_Value p) (TrimPrefix (url_Path (req_URL req)) matchedPrefix)
        else rp_Value p
      else url_Path (req_URL req)
  end.

Definition buildRedirectURL (req : Request) (config : RedirectConfig) : string :=
  let base := buildRedirectBase req config in
  URL_String (mkURL (url_Scheme base) (url_Host base) (buildRedirectPath req config) ""
                (url_RawQuery (req_URL req))).

Definition redirect_ProcessRequest (config : RedirectConfig) (req : Request) : Response :=
  mkResponse (default 302%Z (redirect_StatusCode config))
    {[ "Location" := [buildRedirectURL req config] ]} None.

Definition rewritePath (p : URLRewritePath) (req : Request) : Request :=
  if bool_decide (urp_Type p = URLRewriteFullPath) then
    match urp_ReplaceFullPath p with
    | Some full => set_Path full req
    | None => req
    end
  else if bool_decide (urp_Type p = URLRewritePrefixMatch) then
    match urp_ReplacePrefixMatch p with
    | Some replacement =>
        let matchedPrefix := getMatchedPrefix req in
        if negb (bool_decide (matchedPrefix = "")) then
          let suffix := TrimPrefix (url_Path (req_URL req)) matchedPrefix in
          set_Path (joinPathSegments replacement suffix) req
        else req
    | None => req
    end
  else req.

Definition rewrite_ProcessRequest (config : URLRewriteConfig) (req : Request) : Request :=
  let req := match rewrite_Hostname config with
             | Some h => let req := set_Host h req in
                         set_Header (header_Set (req_Header req) hostRewrittenHeader "true") req
             | None => req
             end in
  match rewrite_Path config with
  | Some p => rewritePath p req
  | None => req
  end.

(** ** The mirror leg *)

(** The client a mirror filter dials with: the shared cleartext client, or one
    borrowed from the transport factory for (host, protocol, TLS). *)
Inductive MirrorClient :=
| mirrorClient
| pooledMirrorClient (host protocol : string) (tls : option BackendTLSConfig).

Definition newMirrorClient (backendURL : string) (tls : option BackendTLSConfig)
    (protocol : string) : MirrorClient :=
  match url_Parse backendURL with
  | Some parsed =>
      if bool_decide (url_Host parsed = "") then mirrorClient
      else pooledMirrorClient (url_Host parsed) protocol tls
  | None => mirrorClient
  end.

(** [rand.Int32N(100)] is the argument [draw]. *)
Definition shouldMirror (percent : option Z) (draw : Z) : bool :=
  match percent with
  | None => true
  | Some pct => if (pct <=? 0)%Z then false else if (100 <=? pct)%Z then true else (draw <? pct)%Z
  end.

(** [io.ReadAll(io.LimitReader(body, limit))]: the bytes read, whether a read
    error ended it, and what is left in the underlying reader. *)
Definition read_limited (limit : Z) (data : string) (err : bool) : string * bool * Body :=
  if (limit <=? Z.of_nat (String.length data))%Z then
    (str_take (Z.to_nat limit) data, false, Reader (str_drop (Z.to_nat limit) data) err)
  else (data, err, Reader "" err).

(** The request with its body restored, and the buffered copy: [None] skips
    the mirror, [Some None] mirrors without a body. *)
Definition bufferMirrorBody (req : Request) : Request * option (option string) :=
  match req_Body req with
  | nilBody | NoBody => (req, Some None)
  | Reader data err =>
      let '(bodyBuf, readErr, rest) := read_limited (maxMirrorBodySize + 1) data err in
      let len := Z.of_nat (String.length bodyBuf) in
      if readErr then
        (if (0 <? len)%Z then set_Body (Reader bodyBuf false) len req
         else set_Body rest (req_ContentLength req) req, None)
      else if (maxMirrorBodySize <? len)%Z then
        let '(restData, restErr) := match rest with Reader d e => (d, e) | _ => ("", false) end in
        (set_Body (Reader (bodyBuf +:+ restData) restErr) (-1) req, None)
      else (set_Body (Reader bodyBuf false) len req, Some (Some bodyBuf))
  end.

(** What the dispatch goroutine is handed. *)
Record MirrorDispatch := mkMirrorDispatch {
  md_URL : URL;
  md_Client : MirrorClient;
  md_Header : Header;
  md_Body : option string;
}.

Definition mirror_ProcessRequest (backendURL : string) (percent : option Z) (client : MirrorClient)
    (draw : Z) (req : Request) : Request * option MirrorDispatch :=
  if negb (shouldMirror percent draw) then (req, None)
  else
    match url_Parse (backendURL +:+ RequestURI (req_URL req)) with
    | None => (req, None)
    | Some mirrorURL =>
        let '(req, buffered) := bufferMirrorBody req in
        match buffered with
        | None => (req, None)
        | Some bodyBuf =>
            let d := mkMirrorDispatch mirrorURL client (req_Header req) bodyBuf in
            let req := match bodyBuf with
                       | Some b => set_Body (Reader b false) (Z.of_nat (String.length b)) req
                       | None => req
                       end in
            (req, Some d)
        end
    end.

(** [dispatchWithRetry]: [attempt i] tells whether the [i]-th dispatch
    succeeds; the result is the number of attempts made and whether one
    delivered the copy. *)
Fixpoint dispatch_from (attempt : nat -> bool) (i remaining : nat) : nat * bool :=
  match remaining with
  | O => (i - 1, false)
  | S remaining' => if attempt i then (i, true) else dispatch_from attempt (S i) remaining'
  end.
Definition dispatchWithRetry (attempt : nat -> bool) : nat * bool :=
  dispatch_from attempt 1 mirrorMaxAttempts.

(** ** Filters *)

Inductive Filter :=
| requestHeaderModifier (modifier : option HeaderModifier)
| responseHeaderModifier (modifier : option HeaderModifier)
| requestRedirect (config : option RedirectConfig)
| urlRewriter (config : option URLRewriteConfig)
| requestMirror (backendURL : string) (percent : option Z) (client : MirrorClient)
| CORSFilter (cfg : option CORSConfig).

(** What [Filter.ProcessRequest] leaves behind: the request, a short-circuit
    response, and a mirror goroutine if one was started. *)
Record ReqOutcome := mkReqOutcome {
  out_Request : Request;
  out_Response : option Response;
  out_Mirrors : list MirrorDispatch;
}.
Definition continue (req : Request) : option ReqOutcome := Some (mkReqOutcome req None []).

Definition ProcessRequest (f : Filter) (draw : Z) (req : Request) : option ReqOutcome :=
  match f with
  | requestHeaderModifier m =>
      m ← m; continue (set_Header (applyHeaderModifier (req_Header req) m) req)
  | responseHeaderModifier _ => continue req
  | requestRedirect c => c ← c; Some (mkReqOutcome req (Some (redirect_ProcessRequest c req)) [])
  | urlRewriter c => c ← c; continue (rewrite_ProcessRequest c req)
  | requestMirror url percent client =>
      let '(req, d) := mirror_ProcessRequest url percent client draw req in
      Some (mkReqOutcome req None (option_list d))
  | CORSFilter cfg => Some (mkReqOutcome req (cors_ProcessRequest cfg req) [])
  end.

Definition ProcessResponse (f : Filter) (resp : Response) : option Response :=
  match f with
  | responseHeaderModifier m =>
      m ← m; Some (mkResponse (resp_StatusCode resp) (applyHeaderModifier (resp_Header resp) m)
                     (resp_Request resp))
  | CORSFilter cfg => Some (cors_ProcessResponse cfg resp)
  | _ => Some resp
  end.

(** [ApplyRequestFilters]; [draws] supplies one random draw per filter. *)
Fixpoint ApplyRequestFilters (filters : list Filter) (draws : list Z) (req : Request)
    : option ReqOutcome :=
  match filters with
  | [] => continue req
  | f :: filters' =>
      o ← ProcessRequest f (default 0%Z (head draws)) req;
      match out_Response o with
      | Some _ => Some o
      | None =>
          o' ← ApplyRequestFilters filters' (tail draws) (out_Request o);
          Some (mkReqOutcome (out_Request o') (out_Response o') (out_Mirrors o ++ out_Mirrors o'))
      end
  end.
Fixpoint ApplyResponseFilters (filters : list Filter) (resp : Response) : option Response :=
  match filters with
  | [] => Some resp
  | f :: filters' => resp ← ProcessResponse f resp; ApplyResponseFilters filters' resp
  end.

(** ** Compilation *)

(** [compileFilter]; [factory] tells whether a [TransportFactory] is wired.
    The outer [None] is the nil dereference of [filter.RequestMirror]. *)
Definition compileFilter (factory : bool) (f : RouteFilter) : option (res CompileError Filter) :=
  if bool_decide (filter_Type f = FilterRequestHeaderModifier) then
    Some (Ok (requestHeaderModifier (filter_RequestHeaderModifier f)))
  else if bool_decide (filter_Type f = FilterResponseHeaderModifier) then
    Some (Ok (responseHeaderModifier (filter_ResponseHeaderModifier f)))
  else if bool_decide (filter_Type f = FilterRequestRedirect) then
    Some (Ok (requestRedirect (filter_RequestRedirect f)))
  else if bool_decide (filter_Type f = FilterURLRewrite) then
    Some (Ok (urlRewriter (filter_URLRewrite f)))
  else if bool_decide (filter_Type f = FilterRequestMirror) then
    m ← filter_RequestMirror f;
    let client := if factory then newMirrorClient (mirror_BackendURL m) (mirror_TLS m) (mirror_Protocol m)
                  else mirrorClient in
    Some (Ok (requestMirror (mirror_BackendURL m) (mirror_Percent m) client))
  else if bool_decide (filter_Type f = FilterCORS) then
    Some (Ok (CORSFilter (filter_CORS f)))
  else Some (Err (errFilterType (filter_Type f))).

Fixpoint compileFilters_from (i : nat) (factory : bool) (fs : list RouteFilter)
    : option (res CompileError (list Filter)) :=
  match fs with
  | [] => Some (Ok [])
  | f :: fs' =>
      r ← compileFilter factory f;
      match r with
      | Err e => Some (Err (CompileAt "filter" i e))
      | Ok c =>
          rs ← compileFilters_from (S i) factory fs';
          Some (match rs with Ok cs => Ok (c :: cs) | Err e => Err e end)
      end
  end.
Definition CompileFilters (factory : bool) (fs : list RouteFilter)
    : option (res CompileError (list Filter)) := compileFilters_from 0 factory fs.

(** ** Panic freedom of validated filters *)

Definition safe_filter (f : Filter) : Prop :=
  match f with
  | requestHeaderModifier m | responseHeaderModifier m => is_Some m
  | requestRedirect c => is_Some c
  | urlRewriter c => is_Some c
  | requestMirror _ p _ => forall pct, p = Some pct -> (0 <= pct <= 100)%Z
  | CORSFilter _ => True
  end.

Lemma compileFilter_safe factory f :
  valid_filter f -> exists c, compileFilter factory f = Some (Ok c) /\ safe_filter c.
Proof.
  unfold valid_filter, compileFilter.
  intros [[-> H]|[[-> H]|[[-> H]|[[-> H]|[(-> & m & Hm & H)|(-> & c & Hc & H)]]]]]; simpl.
  5: rewrite Hm; simpl.
  all: eexists; split; [reflexivity|]; done.
Qed.

Lemma CompileFilters_safe factory i fs :
  (forall f, f ∈ fs -> valid_filter f) ->
  exists cs, compileFilters_from i factory fs = Some (Ok cs) /\ forall c, c ∈ cs -> safe_filter c.
Proof.
  revert i. induction fs as [|f fs IH]; intros i Hv; simpl.
  { eexists. split; [done|]. by intros ? ?%elem_of_nil. }
  destruct (compileFilter_safe factory f) as (c & -> & Hc); [apply Hv; by left|]. simpl.
  destruct (IH (S i)) as (cs & -> & Hcs); [intros g Hg; apply Hv; by right|]. simpl.
  eexists. split; [done|]. intros d [->|Hd]%elem_of_cons; auto.
Qed.

Lemma ProcessRequest_safe f draw req : safe_filter f -> is_Some (ProcessRequest f draw req).
Proof.
  destruct f; simpl; try (intros [? ->]; simpl; eauto); eauto.
  destruct (mirror_ProcessRequest _ _ _ _ _). eauto.
Qed.
Lemma ApplyRequestFilters_safe fs draws req :
  (forall f, f ∈ fs -> safe_filter f) -> is_Some (ApplyRequestFilters fs draws req).
Proof.
  revert draws req. induction fs as [|f fs IH]; intros draws req Hs; simpl; [eauto|].
  destruct (ProcessRequest_safe f (default 0%Z (head draws)) req) as [o ->]; [apply Hs; by left|].
  simpl. destruct (out_Response o); [eauto|].
  destruct (IH (tail draws) (out_Request o)) as [o' ->]; [intros g ?; apply Hs; by right|].
  simpl. eauto.
Qed.
Lemma ApplyResponseFilters_safe fs resp :
  (forall f, f ∈ fs -> safe_filter f) -> is_Some (ApplyResponseFilters fs resp).
Proof.
  revert resp. induction fs as [|f fs IH]; intros resp Hs; simpl; [eauto|].
  assert (is_Some (ProcessResponse f resp)) as [r ->].
  { assert (safe_filter f) as Hf by (apply Hs; by left).
    destruct f; simpl in *; eauto. destruct Hf as [? ->]. simpl. eauto. }
  simpl. apply IH. intros g ?. apply Hs. by right.
Qed.
End filters.

(** ** Header modification *)

(** What a modifier promises for one header name: removal wins, then the last
    [Set] replaces the old values, then every [Add] is appended in order. *)
Definition modified_values (m : HeaderModifier) (k : string) (orig : list string) : list string :=
  if existsb (fun n => same_key n k) (mod_Remove m) then []
  else default orig ((fun v => [hv_Value v]) <$> last (filter (fun v => same_key (hv_Name v) k = true) (mod_Set m)))
       ++ (hv_Value <$> filter (fun v => same_key (hv_Name v) k = true) (mod_Add m)).

Lemma header_Set_all h l k :
  header_Values (foldl (fun h v => header_Set h (hv_Name v) (hv_Value v)) h l) k =
  default (header_Values h k)
    ((fun v => [hv_Value v]) <$> last (filter (fun v => same_key (hv_Name v) k = true) l)).
Proof.
  induction l as [|v l IH] using rev_ind; [done|].
  rewrite foldl_app, filter_app. simpl. rewrite header_Values_Set, IH.
  destruct (same_key (hv_Name v) k) eqn:Hk.
  - rewrite filter_cons_True, filter_nil by done. by rewrite last_snoc.
  - rewrite filter_cons_False, filter_nil by congruence. by rewrite app_nil_r.
Qed.
Lemma header_Add_all h l k :
  header_Values (foldl (fun h v => header_Add h (hv_Name v) (hv_Value v)) h l) k =
  header_Values h k ++ (hv_Value <$> filter (fun v => same_key (hv_Name v) k = true) l).
Proof.
  induction l as [|v l IH] using rev_ind; [by rewrite app_nil_r|].
  rewrite foldl_app, filter_app, fmap_app. simpl. rewrite header_Values_Add, IH.
  destruct (same_key (hv_Name v) k) eqn:Hk.
  - rewrite filter_cons_True, filter_nil by done. simpl. by rewrite app_assoc.
  - rewrite filter_cons_False, filter_nil by congruence. by rewrite app_nil_r.
Qed.
Lemma header_Del_all h l k :
  header_Values (foldl header_Del h l) k =
  if existsb (fun n => same_key n k) l then [] else header_Values h k.
Proof.
  induction l as [|n l IH] using rev_ind; [done|].
  rewrite foldl_app, existsb_app. simpl. rewrite header_Values_Del, IH.
  by destruct (same_key n k), (existsb _ l).
Qed.

(** A header modifier leaves each header with exactly the values it
    promises, whatever case the names are written in: removed, or the last set
    value (the original values when none is set) followed by the added ones. *)
Theorem header_modifier_spec h m k :
  header_Values (applyHeaderModifier h m) k = modified_values m k (header_Values h k).
Proof.
  unfold applyHeaderModifier, modified_values.
  by rewrite header_Del_all, header_Add_all, header_Set_all.
Qed.

(** ** Path rewriting *)

Definition has_dotdot (s : string) : bool := bool_decide (".." ∈ SplitByte s "/").
(** The real segments of a path: what lies between slashes, without [""] and ["."]. *)
Definition path_segments (s : string) : list string :=
  filter (fun seg => seg <> "" /\ seg <> ".") (SplitByte s "/").

Lemma SplitByte_nonnil s c : SplitByte s c <> [].
Proof. destruct s; simpl; [done|]. case_bool_decide; [done|]. by destruct (SplitByte s c). Qed.
Lemma SplitByte_app s c t :
  SplitByte (s +:+ String c t) c = SplitByte s c ++ SplitByte t c.
Proof.
  induction s as [|d s IH]; [by simpl; rewrite bool_decide_true|].
  rewrite sapp_cons. cbn [SplitByte]. case_bool_decide; [by rewrite IH|].
  rewrite IH. destruct (SplitByte s c) as [|x l] eqn:Hs; [by destruct (SplitByte_nonnil s c)|done].
Qed.

Lemma clean_segments_no_dotdot rooted stack segs :
  ".." ∉ segs ->
  clean_segments rooted stack segs =
  rev stack ++ filter (fun seg => seg <> "" /\ seg <> ".") segs.
Proof.
  revert stack. induction segs as [|seg segs IH]; intros stack Hd; simpl; [by rewrite app_nil_r|].
  apply not_elem_of_cons in Hd as [Hne Hd].
  destruct (decide (seg = "" \/ seg = ".")) as [Hs|Hs].
  - rewrite filter_cons_False by naive_solver.
    replace (_ || _) with true by (destruct Hs as [-> | ->]; done). by apply IH.
  - rewrite filter_cons_True by naive_solver.
    rewrite !bool_decide_false by naive_solver. simpl. rewrite IH by done. simpl.
    by rewrite <-app_assoc.
Qed.

(** Replacing a matched prefix by a rooted path maps [prefix ++ suffix] to
    the replacement's segments followed by the suffix's segments, with no empty
    or ["."] segment in between, as long as neither side has a [".."] segment;
    the rewritten request is otherwise unchanged. *)
Theorem rewrite_prefix_confined req prefix replacement suffix :
  req_matchedPrefix req = Some prefix -> prefix <> "" ->
  url_Path (req_URL req) = prefix +:+ suffix -> suffix <> "" ->
  HasPrefix replacement "/" = true ->
  has_dotdot replacement = false -> has_dotdot suffix = false ->
  let p := mkURLRewritePath URLRewritePrefixMatch None (Some replacement) in
  rewritePath p req =
  set_Path ("/" +:+ Join (path_segments replacement ++ path_segments suffix) "/") req.
Proof.
  intros Hm Hp Hpath Hs Hr Hdr Hds p. subst p. unfold rewritePath, getMatchedPrefix.
  rewrite Hm, Hpath, TrimPrefix_app. simpl. rewrite bool_decide_false by done. simpl. f_equal.
  unfold joinPathSegments, Clean. rewrite bool_decide_false by done.
  apply HasPrefix_spec in Hr as [r ->]. rewrite bool_decide_false by done.
  rewrite sapp_assoc, HasPrefix_app. f_equal. f_equal.
  rewrite <-sapp_assoc.
  change ("/" +:+ suffix) with (String "/" suffix). rewrite SplitByte_app.
  unfold has_dotdot in *. breflect. rewrite clean_segments_no_dotdot.
  - unfold path_segments. by rewrite filter_app.
  - rewrite elem_of_app. naive_solver.
Qed.
Lemma rewrite_prefix_confined_witness :
  url_Path (req_URL (rewritePath (mkURLRewritePath URLRewritePrefixMatch None (Some "/v2/"))
    (SetMatchedPrefix (plain_request "GET" "h" "/v1/users//7" "" ∅) "/v1"))) = "/v2/users/7".
Proof.
  rewrite (rewrite_prefix_confined
    (SetMatchedPrefix (plain_request "GET" "h" "/v1/users//7" "" ∅) "/v1") "/v1" "/v2/" "/users//7");
    vm_compute; congruence.
Defined.

(** ** Mirroring *)

Definition body_bytes (b : Body) : string := match b with Reader d _ => d | _ => "" end.

Lemma length_str_take n s : n <= String.length s -> String.length (str_take n s) = n.
Proof.
  revert s. induction n as [|n IH]; intros [|c s] H; simpl in *; [done..|lia|].
  f_equal. apply IH. lia.
Qed.

(** Reading stops at the limit or consumes everything. *)
Lemma read_limited_spec limit data err buf rerr rest :
  (0 <= limit)%Z -> read_limited limit data err = (buf, rerr, rest) ->
  exists tail, rest = Reader tail err /\ data = buf +:+ tail /\
    (rerr = true \/ (Z.of_nat (String.length buf) < limit)%Z -> tail = "").
Proof.
  intros Hl. unfold read_limited. destruct (limit <=? _)%Z eqn:Hle; intros [= <- <- <-].
  - eexists. split_and!; [done|by rewrite str_take_drop|].
    breflect. rewrite length_str_take by lia. intros [?|?]; [done|lia].
  - exists "". by rewrite sapp_nil_r.
Qed.

Lemma bufferMirrorBody_bytes req req' buffered :
  bufferMirrorBody req = (req', buffered) ->
  body_bytes (req_Body req') = body_bytes (req_Body req) /\
  (forall b, buffered = Some (Some b) -> b = body_bytes (req_Body req)).
Proof.
  unfold bufferMirrorBody. destruct (req_Body req) as [| |data err] eqn:Hb.
  1,2: intros [= <- <-]; by rewrite Hb.
  destruct (read_limited _ data err) as [[buf rerr] rest] eqn:Hr.
  apply read_limited_spec in Hr as (tail & -> & -> & Htail); [|done].
  destruct rerr.
  - assert (tail = "") as -> by auto. rewrite sapp_nil_r.
    destruct (0 <? _)%Z eqn:Hlen; intros [= <- <-]; simpl; [done|].
    split; [|done]. breflect. symmetry. apply slength_zero. lia.
  - destruct (maxMirrorBodySize <? _)%Z eqn:Hlen; intros [= <- <-]; simpl; [done|].
    breflect. rewrite Htail, sapp_nil_r by (right; lia). naive_solver.
Qed.

Lemma bufferMirrorBody_shape req :
  (bufferMirrorBody req).1 = req \/ exists b len, (bufferMirrorBody req).1 = set_Body b len req.
Proof.
  unfold bufferMirrorBody. destruct (req_Body req) as [| |data err]; [by left..|].
  destruct (read_limited _ data err) as [[buf rerr] rest].
  destruct rerr; [destruct (0 <? _)%Z; eauto|].
  destruct (maxMirrorBodySize <? _)%Z; [|eauto]. destruct rest; eauto.
Qed.

(** Mirroring never changes what the primary backend receives: the request
    that continues has the same method, host, URL, headers and body bytes, and
    a dispatched copy carries those same body bytes. *)
Theorem mirror_preserves_primary `{!UrlParser} url percent client draw req :
  let '(req', d) := mirror_ProcessRequest url percent client draw req in
  req_Method req' = req_Method req /\ req_Host req' = req_Host req /\
  req_URL req' = req_URL req /\ req_Header req' = req_Header req /\
  body_bytes (req_Body req') = body_bytes (req_Body req) /\
  (forall d' b, d = Some d' -> md_Body d' = Some b -> b = body_bytes (req_Body req)).
Proof.
  unfold mirror_ProcessRequest. destruct (negb (shouldMirror percent draw)); [done|].
  destruct (url_Parse _) as [u|]; [|done].
  destruct (bufferMirrorBody req) as [req' buffered] eqn:Hb.
  assert (req_Method req' = req_Method req /\ req_Host req' = req_Host req /\
    req_URL req' = req_URL req /\ req_Header req' = req_Header req) as (H1 & H2 & H3 & H4).
  { pose proof (bufferMirrorBody_shape req) as Hs. rewrite Hb in Hs. simpl in Hs.
    by destruct Hs as [-> |(? & ? & ->)]. }
  apply bufferMirrorBody_bytes in Hb as [Hbytes Hbuf].
  destruct buffered as [[b|]|]; cbn; split_and!; try done; auto.
  - intros d' b' [= <-] [= <-]. auto.
  - by intros d' b' [= <-].
Qed.

(** Sampling is exact: of the 100 equally likely draws, a [percent] in
    [0, 100] mirrors exactly [percent]. *)
Theorem mirror_sampling_exact pct :
  (0 <= pct <= 100)%Z ->
  Z.of_nat (length (filter (fun d => shouldMirror (Some pct) d = true) (seqZ 0 100))) = pct.
Proof.
  intros Hp. assert (exists n, pct = Z.of_nat n /\ n <= 100) as (n & -> & Hn).
  { exists (Z.to_nat pct). lia. }
  do 101 (destruct n as [|n]; [vm_compute; reflexivity|]). lia.
Qed.
Lemma mirror_sampling_exact_witness :
  length (filter (fun d => shouldMirror (Some 25%Z) d = true) (seqZ 0 100)) = 25.
Proof.
  pose proof (mirror_sampling_exact 25 ltac:(lia)) as H. lia.
Defined.

(** A mirrored copy is sent at most [mirrorMaxAttempts] times, stops at the
    first delivery, and is lost only when every attempt failed. *)
Theorem dispatch_bounded attempt :
  let '(n, delivered) := dispatchWithRetry attempt in
  1 <= n <= mirrorMaxAttempts /\
  (forall i, 1 <= i < n -> attempt i = false) /\
  (if delivered then attempt n = true
   else n = mirrorMaxAttempts /\ attempt mirrorMaxAttempts = false).
Proof.
  unfold dispatchWithRetry, mirrorMaxAttempts. simpl.
  destruct (attempt 1) eqn:H1; [|destruct (attempt 2) eqn:H2; [|destruct (attempt 3) eqn:H3]];
    split_and!; try done; try lia; intros [|[|[|i]]] Hi; try done; lia.
Qed.
