(* ===== verification/Router.v ===== *)
(** * The proxy router ([internal/proxy/router.go])

    Rule priorities, the compiled routing table, request routing with weighted
    backend selection, and the configuration update that swaps the table.

    Go leaves two choices to the runtime: the iteration order of the wildcard
    map followed by the unstable [sort.Slice], and the random number a backend
    is picked with.  Both are parameters: [WildcardOrder] is any function that
    permutes the entries into longest-suffix-first order, [rand] is the draw of
    [rand.Int64N]. *)
From Stdlib Require Import Ascii.
From stdpp Require Import sorting.
From stdpp Require Import base gmap strings list.
From S2P Require Import Prelude GoStrings GoHttp ProxyConfig Matcher Cors Filters.

(** ** Priorities *)

Definition priorityExactPath : Z := 1000000000.
Definition priorityRegexPath : Z := 500000000.
Definition priorityPrefixPath : Z := 100000000.
Definition priorityPathLength : Z := 10000.
Definition priorityMethod : Z := 100.
Definition priorityPerHeader : Z := 10.
Definition priorityPerQueryParam : Z := 1.

Definition len (s : string) : Z := Z.of_nat (String.length s).

(** The running maxima of [computePriority]'s loop. *)
Record PriorityAcc := mkPriorityAcc {
  acc_pathType : Z;
  acc_pathLen : Z;
  acc_hasMethod : bool;
  acc_headers : Z;
  acc_queries : Z;
}.

Definition pathTypeScore (t : string) : Z :=
  if bool_decide (t = PathMatchExact) then priorityExactPath
  else if bool_decide (t = PathMatchPathPrefix) then priorityPrefixPath
  else if bool_decide (t = PathMatchRegularExpression) then priorityRegexPath
  else 0.

Definition priority_step (acc : PriorityAcc) (m : RouteMatch) : PriorityAcc :=
  let '(pt, pl) :=
    match match_Path m with
    | Some p =>
        let score := pathTypeScore (pm_Type p) in
        if (acc_pathType acc <? score)%Z then (score, len (pm_Value p))
        else if (score =? acc_pathType acc)%Z && (acc_pathLen acc <? len (pm_Value p))%Z then
          (acc_pathType acc, len (pm_Value p))
        else (acc_pathType acc, acc_pathLen acc)
    | None => (acc_pathType acc, acc_pathLen acc)
    end in
  mkPriorityAcc pt pl
    (if bool_decide (match_Method m = "") then acc_hasMethod acc else true)
    (Z.max (acc_headers acc) (Z.of_nat (length (match_Headers m))))
    (Z.max (acc_queries acc) (Z.of_nat (length (match_QueryParams m)))).

Definition priority_acc (r : RouteRule) : PriorityAcc :=
  foldl priority_step (mkPriorityAcc 0 0 false 0 0) (rule_Matches r).
Definition priority_value (a : PriorityAcc) : Z :=
  int64 (acc_pathType a + acc_pathLen a * priorityPathLength
         + (if acc_hasMethod a then priorityMethod else 0)
         + acc_headers a * priorityPerHeader + acc_queries a * priorityPerQueryParam).
Definition computePriority (r : RouteRule) : Z := priority_value (priority_acc r).

(** ** Hosts *)

Definition extractHost (req : Request) : string :=
  let host := header_Get (req_Header req) "X-Original-Host" in
  let host := if bool_decide (host = "") then req_Host req else host in
  let host :=
    match LastIndexByte host ":" with
    | Some idx => if negb (ContainsByte (str_drop idx host) "]") then str_take idx host else host
    | None => host
    end in
  ToLower host.

Definition matchesWildcard (host suffix : string) : bool :=
  HasSuffix host suffix && (String.length suffix <? String.length host).

(** ** Backend selection *)

Definition total_weight (backends : list BackendRef) : Z :=
  foldl (fun t b => int64 (t + be_Weight b)) 0%Z backends.

(** The cumulative walk; [n] is [len(backends)]. *)
Fixpoint pick_backend (n idx : Z) (cumulative pick : Z) (backends : list BackendRef) : Z :=
  match backends with
  | [] => n - 1
  | b :: bs =>
      let cumulative := int64 (cumulative + be_Weight b) in
      if (pick <? cumulative)%Z then idx else pick_backend n (idx + 1) cumulative pick bs
  end.

Definition selectBackend (rand : Z -> Z) (backends : list BackendRef) : Z :=
  if length backends =? 0 then -1
  else
    let totalWeight := total_weight backends in
    if (totalWeight <=? 0)%Z then -1
    else pick_backend (Z.of_nat (length backends)) 0 0 (rand totalWeight) backends.

Section router.
Context {engine : Regexp} {parser : UrlParser}.

(** ** Compiled rules *)

Record compiledRule := mkCompiledRule {
  cr_matches : list CompiledMatch;
  cr_rule : RouteRule;
  cr_filters : list Filter;
  cr_backendFilters : list (list Filter);
  cr_priority : Z;
  cr_ruleIndex : nat;
}.
Record wildcardEntry := mkWildcardEntry { we_suffix : string; we_rules : list compiledRule }.
Record routingTable := mkRoutingTable {
  rt_exactHosts : gmap string (list compiledRule);
  rt_wildcardHosts : list wildcardEntry;
  rt_defaultRules : list compiledRule;
  rt_version : Z;
}.

(** Compilation either panics (nil filter payload), fails or succeeds. *)
Definition Compiled (A : Type) : Type := option (res CompileError A).
Definition cbind {A B} (m : Compiled A) (f : A -> Compiled B) : Compiled B :=
  match m with
  | None => None
  | Some (Err e) => Some (Err e)
  | Some (Ok a) => f a
  end.
Definition cwrap {A} (field : string) (i : nat) (m : Compiled A) : Compiled A :=
  map_err (CompileAt field i) <$> m.

Fixpoint compileBackendFilters (factory : bool) (i : nat) (bs : list BackendRef)
    : Compiled (list (list Filter)) :=
  match bs with
  | [] => Some (Ok [])
  | b :: bs' =>
      cbind (if length (be_Filters b) =? 0 then Some (Ok [])
             else cwrap "backend" i (CompileFilters factory (be_Filters b)))
        (fun bf => cbind (compileBackendFilters factory (S i) bs') (fun rest => Some (Ok (bf :: rest))))
  end.

Definition compileRule (factory : bool) (rule : RouteRule) (ruleIndex : nat) : Compiled compiledRule :=
  cbind (Some (mapi_res (fun i m => map_err (CompileAt "match" i) (CompileMatch m)) (rule_Matches rule)))
    (fun matches =>
  cbind (CompileFilters factory (rule_Filters rule)) (fun filters =>
  cbind (compileBackendFilters factory 0 (rule_Backends rule)) (fun backendFilters =>
  Some (Ok (mkCompiledRule matches rule filters backendFilters (computePriority rule) ruleIndex))))).

(** ** The routing table *)

Definition rule_less (a b : compiledRule) : bool :=
  if negb (cr_priority a =? cr_priority b)%Z then (cr_priority b <? cr_priority a)%Z
  else cr_ruleIndex a <? cr_ruleIndex b.
Definition sortRulesByPrecedence (rules : list compiledRule) : list compiledRule :=
  stable_sort rule_less rules.

Notation HostMap := (gmap string (list compiledRule)).
Definition append_rule (k : string) (c : compiledRule) (m : HostMap) : HostMap :=
  <[k := default [] (m !! k) ++ [c]]> m.

Record Buckets := mkBuckets { b_exact : HostMap; b_wild : HostMap; b_default : list compiledRule }.

Definition add_hostname (c : compiledRule) (b : Buckets) (hostname : string) : Buckets :=
  let normalized := ToLower hostname in
  if HasPrefix normalized "*." then
    mkBuckets (b_exact b) (append_rule (str_drop 1 normalized) c (b_wild b)) (b_default b)
  else mkBuckets (append_rule normalized c (b_exact b)) (b_wild b) (b_default b).

Definition add_rule (b : Buckets) (rule : RouteRule) (c : compiledRule) : Buckets :=
  if length (rule_Hostnames rule) =? 0 then mkBuckets (b_exact b) (b_wild b) (b_default b ++ [c])
  else foldl (add_hostname c) b (rule_Hostnames rule).

Fixpoint build_buckets (factory : bool) (i : nat) (rules : list RouteRule) (b : Buckets)
    : Compiled Buckets :=
  match rules with
  | [] => Some (Ok b)
  | rule :: rules' =>
      cbind (cwrap "rule" i (compileRule factory rule i)) (fun c =>
      build_buckets factory (S i) rules' (add_rule b rule c))
  end.

(** Longest suffix first, ties in any order. *)
Definition longer_suffix (a b : wildcardEntry) : Prop :=
  String.length (we_suffix b) <= String.length (we_suffix a).
Class WildcardOrder := {
  wildcard_order : list wildcardEntry -> list wildcardEntry;
  wildcard_order_perm l : wildcard_order l ≡ₚ l;
  wildcard_order_sorted l : StronglySorted longer_suffix (wildcard_order l);
}.

Context `{!WildcardOrder}.

Definition compileRoutingTable (cfg : Config) (factory : bool) : Compiled routingTable :=
  cbind (build_buckets factory 0 (cfg_Rules cfg) (mkBuckets ∅ ∅ [])) (fun b =>
  let entries := (fun kv => mkWildcardEntry kv.1 (sortRulesByPrecedence kv.2)) <$> map_to_list (b_wild b) in
  Some (Ok (mkRoutingTable (sortRulesByPrecedence <$> b_exact b) (wildcard_order entries)
    (sortRulesByPrecedence (b_default b)) (cfg_Version cfg)))).

(** ** Routing *)

Record RouteResult := mkRouteResult {
  rr_Rule : RouteRule;
  rr_Filters : list Filter;
  rr_BackendFilters : list Filter;
  rr_BackendIdx : Z;
  rr_MatchedPrefix : string;
  rr_MatchedHostname : string;
}.

Fixpoint first_match (idx : Z) (ms : list CompiledMatch) (req : Request) : Z :=
  match ms with
  | [] => -1
  | m :: ms' => if CompiledMatch_Match m req then idx else first_match (idx + 1) ms' req
  end.
Definition findMatchingIndex (c : compiledRule) (req : Request) : Z :=
  if length (cr_matches c) =? 0 then 0 else first_match 0 (cr_matches c) req.

Definition getMatchedPathPrefix (rule : RouteRule) (matchIdx : Z) : string :=
  if (0 <=? matchIdx)%Z && (matchIdx <? Z.of_nat (length (rule_Matches rule)))%Z then
    match rule_Matches rule !! Z.to_nat matchIdx with
    | Some m =>
        match match_Path m with
        | Some p => if bool_decide (pm_Type p = PathMatchPathPrefix) then pm_Value p else ""
        | None => ""
        end
    | None => ""
    end
  else "".

Definition rule_result (rand : Z -> Z) (c : compiledRule) (matchIdx : Z) : RouteResult :=
  let backendIdx := selectBackend rand (rule_Backends (cr_rule c)) in
  let backendFilters :=
    if (0 <=? backendIdx)%Z && (backendIdx <? Z.of_nat (length (cr_backendFilters c)))%Z
    then default [] (cr_backendFilters c !! Z.to_nat backendIdx) else [] in
  mkRouteResult (cr_rule c) (cr_filters c) backendFilters backendIdx
    (getMatchedPathPrefix (cr_rule c) matchIdx) "".

Fixpoint matchRules (rand : Z -> Z) (rules : list compiledRule) (req : Request) : option RouteResult :=
  match rules with
  | [] => None
  | c :: rules' =>
      let matchIdx := findMatchingIndex c req in
      if (matchIdx <? 0)%Z then matchRules rand rules' req else Some (rule_result rand c matchIdx)
  end.

Definition set_hostname (h : string) (r : RouteResult) : RouteResult :=
  mkRouteResult (rr_Rule r) (rr_Filters r) (rr_BackendFilters r) (rr_BackendIdx r)
    (rr_MatchedPrefix r) h.

Fixpoint match_wildcards (rand : Z -> Z) (host : string) (ws : list wildcardEntry) (req : Request)
    : option RouteResult :=
  match ws with
  | [] => None
  | w :: ws' =>
      if matchesWildcard host (we_suffix w) then
        match matchRules rand (we_rules w) req with
        | Some result => Some (set_hostname ("*" +:+ we_suffix w) result)
        | None => match_wildcards rand host ws' req
        end
      else match_wildcards rand host ws' req
  end.

Definition Route (rand : Z -> Z) (table : routingTable) (req : Request) : option RouteResult :=
  let host := extractHost req in
  let exact :=
    match rt_exactHosts table !! host with
    | Some rules => set_hostname host <$> matchRules rand rules req
    | None => None
    end in
  match exact with
  | Some result => Some result
  | None =>
      match match_wildcards rand host (rt_wildcardHosts table) req with
      | Some result => Some result
      | None => matchRules rand (rt_defaultRules table) req
      end
  end.
End router.
