(* ===== verification/RouterSpec.v ===== *)
(** * What the router promises (theorems about [Router])

    The Gateway API precedence as a specification over the configuration, the
    refinement of the compiled table to it, the priority tiers, and the exact
    distribution of weighted backend selection. *)
From Stdlib Require Import Ascii.
From stdpp Require Import sorting.
From stdpp Require Import base sets gmap strings list_numbers list.
From S2P Require Import Prelude GoStrings GoHttp ProxyConfig Matcher Cors Filters Router.

(** ** The specification: hostname buckets and rule precedence *)

Inductive Bucket :=
| ExactHost (host : string)
| WildcardHost (suffix : string)
| DefaultHost.

(** Hostname patterns a rule lists put it into buckets; no hostname is the default bucket. *)
Definition rule_in_bucket (r : RouteRule) (b : Bucket) : Prop :=
  match b with
  | ExactHost h => exists p, p ∈ rule_Hostnames r /\ HasPrefix (ToLower p) "*." = false /\ ToLower p = h
  | WildcardHost s => exists p, p ∈ rule_Hostnames r /\ HasPrefix (ToLower p) "*." = true /\
                        str_drop 1 (ToLower p) = s
  | DefaultHost => rule_Hostnames r = []
  end.
(** The buckets a request host belongs to. *)
Definition bucket_applies (host : string) (b : Bucket) : Prop :=
  match b with
  | ExactHost h => h = host
  | WildcardHost s => exists label, label <> "" /\ host = label +:+ s
  | DefaultHost => True
  end.
(** Exact host first, then the longest wildcard suffix, then the default. *)
Definition bucket_before (b1 b2 : Bucket) : Prop :=
  match b1, b2 with
  | ExactHost _, ExactHost _ => False
  | ExactHost _, _ => True
  | WildcardHost _, ExactHost _ => False
  | WildcardHost s1, WildcardHost s2 => String.length s2 < String.length s1
  | WildcardHost _, DefaultHost => True
  | DefaultHost, _ => False
  end.
Definition bucket_label (b : Bucket) : string :=
  match b with ExactHost h => h | WildcardHost s => "*" +:+ s | DefaultHost => "" end.

Section spec.
Context {engine : Regexp} {parser : UrlParser}.

(** ORed matches; a rule without matches accepts every request. *)
Definition rule_matches (r : RouteRule) (req : Request) : Prop :=
  rule_Matches r = [] \/ exists m, m ∈ rule_Matches r /\ match_sem m req.

(** Rule [i] of the configuration, through bucket [b], is a candidate for the request. *)
Definition candidate (cfg : Config) (req : Request) (b : Bucket) (i : nat) (r : RouteRule) : Prop :=
  cfg_Rules cfg !! i = Some r /\ bucket_applies (extractHost req) b /\ rule_in_bucket r b /\
  rule_matches r req.
(** A candidate no other candidate precedes: more specific bucket, then
    higher priority, then earlier position. *)
Definition best_candidate (cfg : Config) (req : Request) (b : Bucket) (i : nat) (r : RouteRule) : Prop :=
  candidate cfg req b i r /\
  forall b' i' r', candidate cfg req b' i' r' ->
    bucket_before b b' \/
    (b' = b /\ ((computePriority r' < computePriority r)%Z \/
                (computePriority r' = computePriority r /\ i <= i'))).

(** ** Compilation facts *)

Lemma cbind_Ok {A B} (m : Compiled A) (f : A -> Compiled B) b :
  cbind m f = Some (Ok b) <-> exists a, m = Some (Ok a) /\ f a = Some (Ok b).
Proof. destruct m as [[a|e]|]; simpl; split; try done; [eauto|..]; by intros (? & [= ->] & ?). Qed.
Lemma cwrap_Ok {A} field i (m : Compiled A) a : cwrap field i m = Some (Ok a) <-> m = Some (Ok a).
Proof. destruct m as [[?|?]|]; simpl; split; by intros [= ->]. Qed.

(** What a successfully compiled rule carries. *)
Record compiled_from (factory : bool) (r : RouteRule) (i : nat) (c : compiledRule) : Prop := {
  cf_rule : cr_rule c = r;
  cf_priority : cr_priority c = computePriority r;
  cf_index : cr_ruleIndex c = i;
  cf_matches : mapi_res (fun i m => map_err (CompileAt "match" i) (CompileMatch m)) (rule_Matches r)
               = Ok (cr_matches c);
  cf_filters : CompileFilters factory (rule_Filters r) = Some (Ok (cr_filters c));
  cf_backend : compileBackendFilters factory 0 (rule_Backends r) = Some (Ok (cr_backendFilters c));
}.
Lemma compileRule_spec factory r i c :
  compileRule factory r i = Some (Ok c) <-> compiled_from factory r i c.
Proof.
  unfold compileRule. rewrite cbind_Ok. split.
  - intros (ms & [= Hms] & H). apply cbind_Ok in H as (fs & Hfs & H).
    apply cbind_Ok in H as (bfs & Hbfs & [= <-]). by constructor.
  - destruct c as [ms r' fs bfs p j]. intros [Hr Hp Hi Hm Hf Hb]; simpl in *; subst.
    exists ms. split; [by rewrite Hm|]. apply cbind_Ok. exists fs. split; [done|].
    apply cbind_Ok. by exists bfs.
Qed.

Lemma first_match_nonneg idx ms req :
  (0 <= idx)%Z -> (0 <= first_match idx ms req)%Z <->
  exists m, m ∈ ms /\ CompiledMatch_Match m req = true.
Proof.
  revert idx. induction ms as [|m ms IH]; intros idx Hi; simpl.
  { split; [lia|by intros (? & ?%elem_of_nil & _)]. }
  setoid_rewrite elem_of_cons. destruct (CompiledMatch_Match m req) eqn:Hm.
  - split; [eauto|lia].
  - rewrite IH by lia. split; [naive_solver|]. intros (m' & [->|?] & ?); [congruence|eauto].
Qed.

Lemma findMatchingIndex_spec factory r i c req :
  compiled_from factory r i c -> ((0 <= findMatchingIndex c req)%Z <-> rule_matches r req).
Proof.
  intros [_ _ _ Hm _ _]. unfold findMatchingIndex, rule_matches.
  apply mapi_res_from_Ok in Hm as [Hlen Hm].
  destruct (Nat.eqb_spec (length (cr_matches c)) 0) as [H0|H0].
  { split; [|lia]. intros _. left. apply nil_length_inv. lia. }
  rewrite first_match_nonneg by lia. split.
  - intros (cm & [k Hk]%list_elem_of_lookup & Hcm). right.
    destruct (lookup_lt_is_Some_2 (rule_Matches r) k) as [m Hk'].
    { apply lookup_lt_Some in Hk. lia. }
    destruct (Hm k m Hk') as (cm' & Hcm' & Hc%map_err_Ok). simplify_eq.
    exists m. split; [by eapply list_elem_of_lookup_2|]. by apply (CompileMatch_sem m cm req Hc).
  - intros [Hnil|(m & [k Hk]%list_elem_of_lookup & Hsem)].
    { rewrite Hnil in Hlen. simpl in Hlen. lia. }
    destruct (Hm k m Hk) as (cm & Hcm & Hc%map_err_Ok).
    exists cm. split; [by eapply list_elem_of_lookup_2|]. by apply (CompileMatch_sem m cm req Hc).
Qed.

(** ** Buckets built by the compilation loop *)

Definition bucket_list (B : Buckets) (b : Bucket) : list compiledRule :=
  match b with
  | ExactHost h => default [] (b_exact B !! h)
  | WildcardHost s => default [] (b_wild B !! s)
  | DefaultHost => b_default B
  end.

Lemma append_rule_elem k c (m : gmap string (list compiledRule)) k' x :
  x ∈ default [] (append_rule k c m !! k') <-> x ∈ default [] (m !! k') \/ (k = k' /\ x = c).
Proof.
  unfold append_rule. rewrite lookup_insert. case_decide as Hk; simpl.
  - subst k'. rewrite elem_of_app, list_elem_of_singleton. naive_solver.
  - naive_solver.
Qed.

Definition hostname_bucket (p : string) : Bucket :=
  if HasPrefix (ToLower p) "*." then WildcardHost (str_drop 1 (ToLower p)) else ExactHost (ToLower p).

Lemma add_hostname_elem c B p b x :
  x ∈ bucket_list (add_hostname c B p) b <-> x ∈ bucket_list B b \/ (hostname_bucket p = b /\ x = c).
Proof.
  unfold add_hostname, hostname_bucket. destruct (HasPrefix (ToLower p) "*."), b; simpl;
    rewrite ?append_rule_elem; intuition congruence.
Qed.
Lemma add_hostnames_elem c ps B b x :
  x ∈ bucket_list (foldl (add_hostname c) B ps) b <->
  x ∈ bucket_list B b \/ (x = c /\ exists p, p ∈ ps /\ hostname_bucket p = b).
Proof.
  revert B. induction ps as [|p ps IH]; intros B; simpl.
  { split; [auto|]. intros [?|(_ & ? & ?%elem_of_nil & _)]; done. }
  rewrite IH, add_hostname_elem. setoid_rewrite elem_of_cons. naive_solver.
Qed.
Lemma rule_in_bucket_hostname r b :
  rule_in_bucket r b <->
  (rule_Hostnames r = [] /\ b = DefaultHost) \/
  (exists p, p ∈ rule_Hostnames r /\ hostname_bucket p = b).
Proof.
  unfold rule_in_bucket, hostname_bucket. destruct b; split.
  - intros (p & ? & Hp & ?). right. exists p. rewrite Hp. naive_solver.
  - intros [[? ?]|(p & ? & Hb)]; [done|]. exists p. destruct (HasPrefix _ _); naive_solver.
  - intros (p & ? & Hp & ?). right. exists p. rewrite Hp. naive_solver.
  - intros [[? ?]|(p & ? & Hb)]; [done|]. exists p. destruct (HasPrefix _ _); naive_solver.
  - auto.
  - intros [[? ?]|(p & ? & Hb)]; [done|]. by destruct (HasPrefix _ _).
Qed.
Lemma add_rule_elem B r c b x :
  x ∈ bucket_list (add_rule B r c) b <-> x ∈ bucket_list B b \/ (x = c /\ rule_in_bucket r b).
Proof.
  rewrite rule_in_bucket_hostname. unfold add_rule.
  destruct (rule_Hostnames r) as [|p ps] eqn:Hh; simpl.
  - assert (Hb : (@nil string = [] /\ b = DefaultHost \/
                   (exists p, p ∈ @nil string /\ hostname_bucket p = b)) <-> b = DefaultHost).
    { split; [|auto]. by intros [[_ ?]|(? & ?%elem_of_nil & _)]. }
    rewrite Hb. destruct b; simpl; rewrite ?elem_of_app, ?list_elem_of_singleton; naive_solver.
  - pose proof (add_hostnames_elem c (p :: ps) B b x) as H. simpl in H. rewrite H. naive_solver.
Qed.

Lemma build_buckets_elem factory i rules B B' :
  build_buckets factory i rules B = Some (Ok B') ->
  (forall k r, rules !! k = Some r -> exists c, compiled_from factory r (i + k) c) /\
  forall b x, x ∈ bucket_list B' b <-> x ∈ bucket_list B b \/
    exists k r, rules !! k = Some r /\ compiled_from factory r (i + k) x /\ rule_in_bucket r b.
Proof.
  revert i B. induction rules as [|r rules IH]; intros i B; simpl.
  { intros [= <-]. split; [done|]. intros b x. split; [auto|]. by intros [?|(? & ? & ? & _)]. }
  intros (c & Hc%cwrap_Ok%compileRule_spec & H)%cbind_Ok.
  apply IH in H as [Hall Hel]. split.
  - intros [|k] r' Hk; simplify_eq/=.
    + exists c. by rewrite Nat.add_0_r.
    + replace (i + S k) with (S i + k) by lia. by apply Hall.
  - intros b x. rewrite Hel, add_rule_elem. split.
    + intros [[?|[-> ?]]|(k & r' & ? & ? & ?)]; [by left|right..].
      * exists 0, r. by rewrite Nat.add_0_r.
      * exists (S k), r'. by replace (i + S k) with (S i + k) by lia.
    + intros [?|([|k] & r' & Hk & Hcf & Hb)]; [by do 2 left|..]; simplify_eq/=.
      * left. right. split; [|done]. rewrite Nat.add_0_r in Hcf.
        apply compileRule_spec in Hcf, Hc. congruence.
      * right. exists k, r'. by rewrite Nat.add_succ_r in Hcf.
Qed.

(** ** From a sorted bucket to its best rule *)

Global Instance rule_less_strict : StrictWeak rule_less.
Proof.
  split; unfold not_after, rule_less; intros *;
    repeat match goal with |- context [Z.eqb ?a ?b] => destruct (Z.eqb_spec a b) end;
    simpl; intros; breflect; try (apply Z.ltb_ge; lia); try (apply Nat.ltb_ge; lia); lia.
Qed.

Definition accepts (req : Request) (c : compiledRule) : bool := (0 <=? findMatchingIndex c req)%Z.
Definition answer (rand : Z -> Z) (req : Request) (c : compiledRule) : RouteResult :=
  rule_result rand c (findMatchingIndex c req).

Lemma matchRules_find rand rules req :
  matchRules rand rules req = answer rand req <$> List.find (accepts req) rules.
Proof.
  induction rules as [|c rules IH]; simpl; [done|]. unfold accepts at 1.
  destruct (Z.ltb_spec (findMatchingIndex c req) 0), (Z.leb_spec 0 (findMatchingIndex c req));
    try lia; done.
Qed.

Definition precedes (r : RouteRule) (i : nat) (r' : RouteRule) (i' : nat) : Prop :=
  (computePriority r' < computePriority r)%Z \/ (computePriority r' = computePriority r /\ i <= i').

Section table.
Context (factory : bool) (cfg : Config) (B : Buckets).
Hypothesis Hbuild : build_buckets factory 0 (cfg_Rules cfg) (mkBuckets ∅ ∅ []) = Some (Ok B).

Lemma bucket_rules b x :
  x ∈ sortRulesByPrecedence (bucket_list B b) <->
  exists i r, cfg_Rules cfg !! i = Some r /\ compiled_from factory r i x /\ rule_in_bucket r b.
Proof.
  unfold sortRulesByPrecedence. rewrite elem_of_stable_sort.
  destruct (build_buckets_elem _ _ _ _ _ Hbuild) as [_ ->].
  split; [|auto]. intros [Hx|?]; [|done].
  exfalso. destruct b; simpl in Hx; rewrite ?lookup_empty in Hx; by apply elem_of_nil in Hx.
Qed.
Lemma rule_compiled i r : cfg_Rules cfg !! i = Some r -> exists c, compiled_from factory r i c.
Proof. intros Hi. by apply (proj1 (build_buckets_elem _ _ _ _ _ Hbuild) i r Hi). Qed.
Lemma accepts_spec r i c req : compiled_from factory r i c -> accepts req c = true <-> rule_matches r req.
Proof. intros Hc. unfold accepts. rewrite Z.leb_le. by eapply findMatchingIndex_spec. Qed.

Lemma bucket_find_Some b req c :
  List.find (accepts req) (sortRulesByPrecedence (bucket_list B b)) = Some c ->
  exists i r, cfg_Rules cfg !! i = Some r /\ compiled_from factory r i c /\ rule_in_bucket r b /\
    rule_matches r req /\
    forall i' r', cfg_Rules cfg !! i' = Some r' -> rule_in_bucket r' b -> rule_matches r' req ->
      precedes r i r' i'.
Proof.
  intros Hf. apply (find_first_sorted (not_after rule_less)) in Hf as (Hin & Hacc & Hbest);
    [|apply stable_sort_sorted, _].
  apply bucket_rules in Hin as (i & r & Hi & Hcf & Hb). exists i, r.
  split_and!; try done; [by eapply accepts_spec|].
  intros i' r' Hi' Hb' Hm'. destruct (rule_compiled i' r' Hi') as [c' Hcf'].
  assert (Hle : c' = c \/ not_after rule_less c c').
  { apply Hbest; [apply bucket_rules; eauto|by eapply accepts_spec]. }
  unfold precedes. destruct Hcf as [? Hp Hx _ _ _], Hcf' as [? Hp' Hx' _ _ _].
  destruct Hle as [->|Hle]; [right; split; [congruence|lia]|].
  unfold not_after, rule_less in Hle. rewrite Hp, Hp', Hx, Hx' in Hle.
  destruct (Z.eqb_spec (computePriority r') (computePriority r)); simpl in Hle; breflect; lia.
Qed.
Lemma bucket_find_None b req :
  List.find (accepts req) (sortRulesByPrecedence (bucket_list B b)) = None ->
  forall i r, cfg_Rules cfg !! i = Some r -> rule_in_bucket r b -> ~ rule_matches r req.
Proof.
  rewrite find_none_forall. intros Hnone i r Hi Hb Hm.
  destruct (rule_compiled i r Hi) as [c Hc].
  assert (accepts req c = false) as Hf by (apply Hnone, bucket_rules; eauto).
  apply (accepts_spec _ _ _ req Hc) in Hm. congruence.
Qed.
End table.

(** ** Wildcard suffixes *)

Lemma matchesWildcard_spec host suffix :
  matchesWildcard host suffix = true <-> bucket_applies host (WildcardHost suffix).
Proof.
  unfold matchesWildcard. rewrite andb_true_iff, HasSuffix_spec, Nat.ltb_lt. simpl. split.
  - intros [[t ->] Hlen]. exists t. split; [|done]. intros ->. rewrite sapp_nil_l in Hlen. lia.
  - intros (label & Hl & ->). split; [by exists label|]. rewrite length_sapp.
    destruct label; [done|simpl; lia].
Qed.

(** The first wildcard entry, longest suffix first, that matches and has an accepting rule. *)
Definition wildcard_hit (host : string) (req : Request) (w : wildcardEntry) : bool :=
  matchesWildcard host (we_suffix w) && existsb (accepts req) (we_rules w).
Lemma match_wildcards_find rand host ws req :
  match_wildcards rand host ws req =
  w ← List.find (wildcard_hit host req) ws;
  c ← List.find (accepts req) (we_rules w);
  Some (set_hostname ("*" +:+ we_suffix w) (answer rand req c)).
Proof.
  induction ws as [|w ws IH]; simpl; [done|]. unfold wildcard_hit at 1.
  destruct (matchesWildcard host (we_suffix w)); simpl; [|done].
  rewrite matchRules_find. destruct (List.find (accepts req) (we_rules w)) as [c|] eqn:Hf; simpl.
  - apply List.find_some in Hf as Hf'. rewrite (proj2 (existsb_exists _ _)) by eauto.
    simpl. by rewrite Hf.
  - rewrite (proj2 (existsb_elem_of_false _ _)); [done|]. by apply find_none_forall.
Qed.

(** ** Best candidates are unique *)

Lemma bucket_before_irrefl b : ~ bucket_before b b.
Proof. destruct b; simpl; lia || tauto. Qed.
Lemma bucket_before_asym b1 b2 : bucket_before b1 b2 -> bucket_before b2 b1 -> False.
Proof. destruct b1, b2; simpl; lia || tauto. Qed.
Lemma best_candidate_unique cfg req b1 i1 r1 b2 i2 r2 :
  best_candidate cfg req b1 i1 r1 -> best_candidate cfg req b2 i2 r2 ->
  b1 = b2 /\ i1 = i2 /\ r1 = r2.
Proof.
  intros [Hc1 H1] [Hc2 H2]. specialize (H1 _ _ _ Hc2). specialize (H2 _ _ _ Hc1).
  assert (b1 = b2 /\ i1 = i2) as [-> ->].
  { destruct H1 as [H1|[-> H1]], H2 as [H2|[? H2]]; subst;
      try (by edestruct bucket_before_asym); try (by edestruct bucket_before_irrefl).
    split; [done|lia]. }
  destruct Hc1 as [? _], Hc2 as [? _]. split_and!; congruence.
Qed.

Section refinement.
Context `{!WildcardOrder}.
Context (factory : bool) (cfg : Config) (t : routingTable).
Hypothesis Hcompile : compileRoutingTable cfg factory = Some (Ok t).

(** What [compileRoutingTable] returns, bucket by bucket. *)
Lemma compiled_table : exists B,
  build_buckets factory 0 (cfg_Rules cfg) (mkBuckets ∅ ∅ []) = Some (Ok B) /\
  (forall h, default [] (rt_exactHosts t !! h) = sortRulesByPrecedence (bucket_list B (ExactHost h))) /\
  rt_defaultRules t = sortRulesByPrecedence (bucket_list B DefaultHost) /\
  StronglySorted longer_suffix (rt_wildcardHosts t) /\
  (forall w, w ∈ rt_wildcardHosts t ->
     we_rules w = sortRulesByPrecedence (bucket_list B (WildcardHost (we_suffix w)))) /\
  (forall s c, c ∈ bucket_list B (WildcardHost s) -> exists w, w ∈ rt_wildcardHosts t /\ we_suffix w = s).
Proof.
  apply cbind_Ok in Hcompile as (B & HB & [= <-]). exists B.
  split_and!; simpl; [done| |done|apply wildcard_order_sorted| |].
  - intros h. rewrite lookup_fmap. by destruct (b_exact B !! h).
  - intros w. rewrite wildcard_order_perm, list_elem_of_fmap.
    intros ([s rs] & -> & Hin%elem_of_map_to_list). simpl. by rewrite Hin.
  - intros s c Hc. destruct (b_wild B !! s) as [rs|] eqn:Hs; [|by apply elem_of_nil in Hc].
    exists (mkWildcardEntry s (sortRulesByPrecedence rs)). split; [|done].
    rewrite wildcard_order_perm, list_elem_of_fmap. exists (s, rs).
    by rewrite elem_of_map_to_list.
Qed.

(** The request's bucket [b] holds the winning rule. *)
Definition routed (rand : Z -> Z) (req : Request) (o : option RouteResult) : Prop :=
  match o with
  | Some res => exists b i r c, best_candidate cfg req b i r /\ compiled_from factory r i c /\
                  res = set_hostname (bucket_label b) (answer rand req c)
  | None => forall b i r, ~ candidate cfg req b i r
  end.

Lemma best_in_bucket B req b c :
  build_buckets factory 0 (cfg_Rules cfg) (mkBuckets ∅ ∅ []) = Some (Ok B) ->
  List.find (accepts req) (sortRulesByPrecedence (bucket_list B b)) = Some c ->
  bucket_applies (extractHost req) b ->
  (forall b' i r, candidate cfg req b' i r -> b' = b \/ bucket_before b b') ->
  exists i r, best_candidate cfg req b i r /\ compiled_from factory r i c.
Proof.
  intros HB Hf Ha Hothers.
  destruct (bucket_find_Some _ _ _ HB _ _ _ Hf) as (i & r & Hi & Hcf & Hb & Hm & Hbest).
  exists i, r. split; [|done]. split; [done|].
  intros b' i' r' Hc. destruct (Hothers _ _ _ Hc) as [->|?]; [right|by left].
  split; [done|]. destruct Hc as (Hi' & _ & Hb' & Hm'). by apply Hbest.
Qed.

Lemma exact_lookup rand req :
  match rt_exactHosts t !! extractHost req with
  | Some rules => set_hostname (extractHost req) <$> matchRules rand rules req
  | None => None
  end = set_hostname (extractHost req) <$>
        (answer rand req <$> List.find (accepts req) (default [] (rt_exactHosts t !! extractHost req))).
Proof. destruct (rt_exactHosts t !! extractHost req); simpl; [by rewrite matchRules_find|done]. Qed.

(** A hit wildcard entry beats every other wildcard bucket with a candidate. *)
Lemma wildcard_hit_candidate req b s i r :
  b = WildcardHost s -> candidate cfg req b i r ->
  exists w, w ∈ rt_wildcardHosts t /\ we_suffix w = s /\ wildcard_hit (extractHost req) req w = true.
Proof.
  intros -> (Hi & Ha & Hb & Hm).
  destruct compiled_table as (B & HB & _ & _ & _ & Hwild & Hwin).
  destruct (rule_compiled _ _ _ HB _ _ Hi) as [c Hc].
  assert (Hin : c ∈ sortRulesByPrecedence (bucket_list B (WildcardHost s))).
  { apply (bucket_rules factory cfg B HB). eauto. }
  destruct (Hwin s c) as (w & Hw & Hs); [by eapply elem_of_stable_sort|].
  exists w. split_and!; [done|done|]. unfold wildcard_hit. rewrite andb_true_iff, Hs.
  rewrite matchesWildcard_spec, existsb_elem_of. split; [done|]. exists c.
  rewrite (Hwild w Hw), Hs. split; [done|]. by eapply accepts_spec.
Qed.
Lemma wildcard_hit_first req w s i r :
  List.find (wildcard_hit (extractHost req) req) (rt_wildcardHosts t) = Some w ->
  candidate cfg req (WildcardHost s) i r ->
  WildcardHost s = WildcardHost (we_suffix w) \/
  bucket_before (WildcardHost (we_suffix w)) (WildcardHost s).
Proof.
  intros Hf Hc. destruct compiled_table as (_ & _ & _ & _ & Hsort & _).
  destruct (find_first_sorted _ _ _ _ Hsort Hf) as (_ & Hhit & Hbest).
  destruct (wildcard_hit_candidate _ _ _ _ _ eq_refl Hc) as (w' & Hw' & <- & Hhit').
  destruct (Hbest w' Hw' Hhit') as [->|Hlen]; [by left|]. unfold longer_suffix in Hlen. simpl.
  destruct (decide (String.length (we_suffix w') = String.length (we_suffix w))) as [He|]; [|right; lia].
  left. f_equal. unfold wildcard_hit, matchesWildcard in *. breflect.
  by eapply HasSuffix_same_length.
Qed.

Lemma Route_routed rand req : routed rand req (Route rand t req).
Proof.
  destruct compiled_table as (B & HB & Hex & Hdef & Hsort & Hwild & Hwin).
  pose proof (fun b => bucket_find_None factory cfg B HB b req) as HN.
  unfold Route. rewrite exact_lookup, Hex, match_wildcards_find, matchRules_find, Hdef.
  destruct (List.find (accepts req) (sortRulesByPrecedence (bucket_list B (ExactHost _)))) as [c|] eqn:He;
    simpl.
  { destruct (best_in_bucket _ _ _ _ HB He) as (i & r & ? & ?); [done| |by exists (ExactHost (extractHost req)), i, r, c].
    intros [h|s|] i r (_ & Ha & _); simpl in *; [left; congruence|by right..]. }
  destruct (List.find (wildcard_hit _ req) (rt_wildcardHosts t)) as [w|] eqn:Hw; simpl.
  { destruct (find_first_sorted _ _ _ _ Hsort Hw) as (Hin & Hhit & _).
    apply andb_true_iff in Hhit as [Hmw Hhit]. rewrite (Hwild w Hin) in Hhit |- *.
    destruct (List.find (accepts req) (sortRulesByPrecedence (bucket_list B (WildcardHost (we_suffix w)))))
      as [c|] eqn:Hc; simpl.
    2:{ exfalso. rewrite find_none_forall in Hc. apply existsb_elem_of in Hhit as (x & Hx & Hax).
        rewrite Hc in Hax by done. done. }
    destruct (best_in_bucket _ _ _ _ HB Hc) as (i & r & ? & ?);
      [by apply matchesWildcard_spec| |by exists (WildcardHost (we_suffix w)), i, r, c].
    intros [h|s|] i r Hcand; simpl.
    - exfalso. destruct Hcand as (Hi & Ha & Hb & Hm). simpl in Ha. subst h. by eapply HN.
    - by eapply wildcard_hit_first.
    - by right. }
  assert (Honly : forall b i r, candidate cfg req b i r -> b = DefaultHost).
  { intros [h|s|] i r Hcand; [exfalso..|done].
    - destruct Hcand as (Hi & Ha & Hb & Hm). simpl in Ha. subst h. by eapply HN.
    - destruct (wildcard_hit_candidate _ _ _ _ _ eq_refl Hcand) as (w & Hin & _ & Hhit).
      rewrite find_none_forall in Hw. rewrite Hw in Hhit; done. }
  change (b_default B) with (bucket_list B DefaultHost).
  destruct (List.find (accepts req) (sortRulesByPrecedence (bucket_list B DefaultHost)))
    as [c|] eqn:Hc; simpl.
  - destruct (best_in_bucket _ _ _ _ HB Hc) as (i & r & ? & ?); [done| |by exists DefaultHost, i, r, c].
    intros b i r ?%Honly. by left.
  - intros b i r Hcand. pose proof (Honly _ _ _ Hcand) as ->.
    destruct Hcand as (Hi & _ & Hb & Hm). by eapply HN.
Qed.
End refinement.
End spec.

(** ** Weighted backend selection *)

Section weights.
Implicit Types bs : list BackendRef.

Definition weight_sum bs : Z := foldr (fun b t => be_Weight b + t)%Z 0%Z bs.
Definition int32_weights bs : Prop := forall b, b ∈ bs -> (0 <= be_Weight b <= MaxInt32)%Z.

Lemma weight_sum_bounds bs :
  int32_weights bs -> (0 <= weight_sum bs <= Z.of_nat (length bs) * MaxInt32)%Z.
Proof.
  unfold int32_weights. induction bs as [|b bs IH]; simpl; [lia|]. intros Hw.
  pose proof (Hw b (list_elem_of_here _ _)). assert (0 <= weight_sum bs <= Z.of_nat (length bs) * MaxInt32)%Z; [|lia].
  apply IH. intros b' ?. apply Hw. by right.
Qed.
Lemma weight_sum_app bs1 bs2 : weight_sum (bs1 ++ bs2) = (weight_sum bs1 + weight_sum bs2)%Z.
Proof. induction bs1; simpl; lia. Qed.

(** No 64-bit sum of non-negative 32-bit weights overflows below 2^32 backends. *)
Lemma total_weight_sum bs :
  int32_weights bs -> (Z.of_nat (length bs) < 2 ^ 32)%Z -> total_weight bs = weight_sum bs.
Proof.
  intros Hw Hlen. unfold total_weight.
  enough (forall acc, (0 <= acc)%Z -> (acc + weight_sum bs <= MaxInt64)%Z ->
    foldl (fun t b => int64 (t + be_Weight b)) acc bs = (acc + weight_sum bs)%Z) as ->.
  { lia. } { lia. }
  { pose proof (weight_sum_bounds bs Hw). unfold MaxInt32, MaxInt64 in *. lia. }
  clear Hlen. induction bs as [|b bs IH]; intros acc Hacc Hsum; simpl in *; [lia|].
  assert (Hw' : int32_weights bs) by (intros b' ?; apply Hw; by right).
  pose proof (Hw b (list_elem_of_here _ _)). pose proof (weight_sum_bounds bs Hw').
  rewrite int64_id by (unfold is_int64, MaxInt64 in *; lia).
  rewrite (IH Hw') by lia. lia.
Qed.

(** The cumulative walk returns the backend whose interval holds the draw. *)
Lemma pick_backend_interval n idx cum pick bs k b :
  int32_weights bs -> (0 <= cum <= pick)%Z -> (cum + weight_sum bs <= MaxInt64)%Z ->
  bs !! k = Some b ->
  (cum + weight_sum (take k bs) <= pick < cum + weight_sum (take k bs) + be_Weight b)%Z ->
  pick_backend n idx cum pick bs = (idx + Z.of_nat k)%Z.
Proof.
  revert idx cum k. induction bs as [|b' bs IH]; intros idx cum k Hw Hcum Hmax Hk Hpick; [done|].
  assert (Hw' : int32_weights bs) by (intros x ?; apply Hw; by right).
  pose proof (Hw b' (list_elem_of_here _ _)). pose proof (weight_sum_bounds bs Hw').
  simpl in *. rewrite int64_id by (unfold is_int64, MaxInt64 in *; lia).
  destruct k as [|k]; simplify_eq/=.
  - destruct (Z.ltb_spec pick (cum + be_Weight b)%Z); lia.
  - assert (0 <= weight_sum (take k bs))%Z.
    { apply weight_sum_bounds. intros x Hx. apply Hw'.
      rewrite <-(take_drop k bs). apply elem_of_app. by left. }
    destruct (Z.ltb_spec pick (cum + be_Weight b')%Z); [lia|].
    rewrite (IH _ _ k); [lia|done|lia|lia|done|lia].
Qed.
Lemma interval_exists bs pick :
  int32_weights bs -> (0 <= pick < weight_sum bs)%Z ->
  exists k b, bs !! k = Some b /\
    (weight_sum (take k bs) <= pick < weight_sum (take k bs) + be_Weight b)%Z.
Proof.
  revert pick. induction bs as [|b bs IH]; intros pick Hw Hp; simpl in *; [lia|].
  pose proof (Hw b (list_elem_of_here _ _)).
  destruct (decide (pick < be_Weight b)%Z).
  - exists 0, b. simpl. split; [done|lia].
  - destruct (IH (pick - be_Weight b)%Z) as (k & b' & Hk & ?);
      [intros x ?; apply Hw; by right|lia|].
    exists (S k), b'. simpl. split; [done|lia].
Qed.

Lemma count_interval a w m :
  (0 <= a)%Z -> (0 <= w)%Z -> (a + w <= m)%Z ->
  length (filter (fun p => a <= p < a + w)%Z (seqZ 0 m)) = Z.to_nat w.
Proof.
  intros Ha Hw Hm. replace m with (a + (w + (m - a - w)))%Z by lia.
  rewrite (seqZ_app 0 a), (seqZ_app (0 + a) w) by lia. rewrite !filter_app.
  rewrite (filter_none _ (seqZ 0 a)), (filter_all _ (seqZ (0 + a) w)),
    (filter_none _ (seqZ (0 + a + w) _)); [by rewrite app_nil_r, app_nil_l, length_seqZ|..];
    intros x Hx%elem_of_seqZ; lia.
Qed.

Lemma selectBackend_eq rand bs :
  int32_weights bs -> (Z.of_nat (length bs) < 2 ^ 32)%Z ->
  selectBackend rand bs =
  if (weight_sum bs <=? 0)%Z then (-1)%Z
  else pick_backend (Z.of_nat (length bs)) 0 0 (rand (weight_sum bs)) bs.
Proof.
  intros Hw Hlen. unfold selectBackend. rewrite total_weight_sum by done. by destruct bs.
Qed.
Lemma weight_sum_max bs :
  int32_weights bs -> (Z.of_nat (length bs) < 2 ^ 32)%Z -> (0 <= weight_sum bs <= MaxInt64)%Z.
Proof. intros Hw ?. pose proof (weight_sum_bounds bs Hw). unfold MaxInt32, MaxInt64 in *. lia. Qed.

(** A draw selects exactly the backend whose weight interval it falls in. *)
Lemma selectBackend_interval bs pick k b :
  int32_weights bs -> (Z.of_nat (length bs) < 2 ^ 32)%Z -> (0 <= pick < weight_sum bs)%Z ->
  bs !! k = Some b ->
  selectBackend (fun _ => pick) bs = Z.of_nat k <->
  (weight_sum (take k bs) <= pick < weight_sum (take k bs) + be_Weight b)%Z.
Proof.
  intros Hw Hlen Hp Hk. pose proof (weight_sum_max bs Hw Hlen).
  rewrite selectBackend_eq by done. destruct (Z.leb_spec (weight_sum bs) 0); [lia|].
  split; [|intros; by rewrite (pick_backend_interval _ _ _ _ _ k b) by (done || lia)].
  intros Hpk. destruct (interval_exists bs pick Hw Hp) as (k' & b' & Hk' & Hin').
  rewrite (pick_backend_interval _ _ _ _ _ k' b') in Hpk by (done || lia).
  assert (k' = k) as -> by lia. by simplify_eq.
Qed.
Lemma take_interval_bound bs k b :
  int32_weights bs -> bs !! k = Some b ->
  (0 <= weight_sum (take k bs) /\ weight_sum (take k bs) + be_Weight b <= weight_sum bs)%Z.
Proof.
  intros Hw Hk. rewrite <-(take_drop_middle bs k b Hk) at 3. rewrite weight_sum_app. simpl.
  assert (0 <= weight_sum (take k bs) /\ 0 <= weight_sum (drop (S k) bs))%Z; [|lia].
  split; apply weight_sum_bounds; intros x Hx; apply Hw.
  - rewrite <-(take_drop k bs). apply elem_of_app. by left.
  - rewrite <-(take_drop (S k) bs). apply elem_of_app. by right.
Qed.
End weights.

(** [selectBackend] is exactly weighted.  With non-negative [int32] weights
    and fewer than 2^32 backends, of the [total] values [rand.Int64N] can draw
    precisely [weight] select a given backend, so its share is weight/total and
    a backend of weight 0 is never selected; every draw selects some backend
    when the total is positive, and -1 is returned when all weights are 0. *)
Theorem select_backend_distribution (bs : list BackendRef) :
  int32_weights bs -> (Z.of_nat (length bs) < 2 ^ 32)%Z ->
  (forall k b, bs !! k = Some b ->
     length (filter (fun pick => selectBackend (fun _ => pick) bs = Z.of_nat k) (seqZ 0 (weight_sum bs)))
     = Z.to_nat (be_Weight b)) /\
  (forall rand, (0 < weight_sum bs)%Z -> (0 <= rand (weight_sum bs) < weight_sum bs)%Z ->
     exists k b, bs !! k = Some b /\ (0 < be_Weight b)%Z /\ selectBackend rand bs = Z.of_nat k) /\
  (forall rand, (weight_sum bs = 0)%Z -> selectBackend rand bs = (-1)%Z).
Proof.
  intros Hw Hlen. split_and!.
  - intros k b Hk. destruct (take_interval_bound bs k b Hw Hk).
    rewrite (filter_ext_in _ (fun p => weight_sum (take k bs) <= p < weight_sum (take k bs) + be_Weight b)%Z).
    + apply count_interval; try lia. apply Hw. by eapply list_elem_of_lookup_2.
    + intros p Hp%elem_of_seqZ. apply selectBackend_interval; done || lia.
  - intros rand Hpos Hr. destruct (interval_exists bs _ Hw Hr) as (k & b & Hk & Hin).
    exists k, b. split_and!; [done|lia|]. rewrite selectBackend_eq by done.
    destruct (Z.leb_spec (weight_sum bs) 0); [lia|]. pose proof (weight_sum_max bs Hw Hlen).
    by rewrite (pick_backend_interval _ _ _ _ _ k b) by (done || lia).
  - intros rand Hz. rewrite selectBackend_eq, Hz by done. done.
Qed.

Definition weighted (url : string) (w : Z) : BackendRef := mkBackendRef url w "" None [] false 0.
Definition canary_backends : list BackendRef :=
  [weighted "http://stable:80" 90; weighted "http://off:80" 0; weighted "http://canary:80" 10].
(** A 90/0/10 split: 90, 0 and 10 of the 100 draws. *)
Lemma select_backend_distribution_witness :
  length (filter (fun pick => selectBackend (fun _ => pick) canary_backends = Z.of_nat 2) (seqZ 0 100)) = 10.
Proof.
  refine (proj1 (select_backend_distribution canary_backends _ _) 2 (weighted "http://canary:80" 10) _).
  - intros b. unfold canary_backends. rewrite !elem_of_cons, elem_of_nil.
    intros [->|[->|[->|[]]]]; unfold MaxInt32; simpl; lia.
  - simpl; lia.
  - reflexivity.
Defined.

(** ** Priority tiers *)

(** Size limits of a match: path value, headers, query parameters.  The Gateway
    API CRDs cap them at 1024 bytes, 16 and 16. *)
Definition match_within (path headers queries : Z) (m : RouteMatch) : Prop :=
  (forall p, match_Path m = Some p -> (len (pm_Value p) <= path)%Z) /\
  (Z.of_nat (length (match_Headers m)) <= headers)%Z /\
  (Z.of_nat (length (match_QueryParams m)) <= queries)%Z.
Definition rule_within (path headers queries : Z) (r : RouteRule) : Prop :=
  forall m, m ∈ rule_Matches r -> match_within path headers queries m.

Definition acc_within (path headers queries : Z) (a : PriorityAcc) : Prop :=
  (acc_pathType a ∈ [0; priorityExactPath; priorityRegexPath; priorityPrefixPath])%Z /\
  (0 <= acc_pathLen a <= path)%Z /\ (0 <= acc_headers a <= headers)%Z /\
  (0 <= acc_queries a <= queries)%Z.

Lemma pathTypeScore_cases t :
  (pathTypeScore t ∈ [0; priorityExactPath; priorityRegexPath; priorityPrefixPath])%Z.
Proof. unfold pathTypeScore. repeat case_bool_decide; set_solver. Qed.
Lemma priority_step_within p h q a m :
  acc_within p h q a -> match_within p h q m -> acc_within p h q (priority_step a m).
Proof.
  intros (Ht & Hl & Hh & Hq) (Mp & Mh & Mq). unfold priority_step.
  destruct (match_Path m) as [pm|].
  - specialize (Mp pm eq_refl). pose proof (pathTypeScore_cases (pm_Type pm)).
    assert (0 <= len (pm_Value pm))%Z by (unfold len; lia).
    repeat case_match; simplify_eq/=; unfold acc_within; simpl; split_and!; done || lia.
  - unfold acc_within; simpl; split_and!; done || lia.
Qed.
Lemma priority_acc_within p h q r :
  (0 <= p)%Z -> (0 <= h)%Z -> (0 <= q)%Z -> rule_within p h q r -> acc_within p h q (priority_acc r).
Proof.
  intros Hp Hh Hq Hr. unfold priority_acc, rule_within in *.
  assert (H0 : acc_within p h q (mkPriorityAcc 0 0 false 0 0)).
  { unfold acc_within; simpl. split_and!; set_solver by lia. }
  revert H0. generalize (mkPriorityAcc 0 0 false 0 0) as a.
  induction (rule_Matches r) as [|m ms IH]; intros a Ha; simpl; [done|].
  apply IH; [set_solver|]. apply priority_step_within; [done|]. apply Hr. by left.
Qed.

Lemma priority_value_exact p h q a :
  (p <= 1024)%Z -> (h <= 16)%Z -> (q <= 16)%Z -> acc_within p h q a ->
  priority_value a = (acc_pathType a + acc_pathLen a * 10000 + (if acc_hasMethod a then 100 else 0)
                      + acc_headers a * 10 + acc_queries a)%Z.
Proof.
  intros Hp Hh Hq (Ht & Hl & Hhd & Hqr). unfold priority_value.
  unfold priorityPathLength, priorityMethod, priorityPerHeader, priorityPerQueryParam.
  rewrite !elem_of_cons, elem_of_nil in Ht.
  unfold priorityExactPath, priorityRegexPath, priorityPrefixPath in Ht.
  rewrite int64_id; [lia|]. unfold is_int64, MaxInt64. destruct (acc_hasMethod a); lia.
Qed.

(** Lexicographic comparison of the tiers, lowest first. *)
Definition bool_lt (b1 b2 : bool) : Prop := b1 = false /\ b2 = true.
Definition tier_lt (a1 a2 : PriorityAcc) : Prop :=
  (acc_pathType a1 < acc_pathType a2)%Z \/
  acc_pathType a1 = acc_pathType a2 /\
    ((acc_pathLen a1 < acc_pathLen a2)%Z \/
     acc_pathLen a1 = acc_pathLen a2 /\
       (bool_lt (acc_hasMethod a1) (acc_hasMethod a2) \/
        acc_hasMethod a1 = acc_hasMethod a2 /\
          ((acc_headers a1 < acc_headers a2)%Z \/
           acc_headers a1 = acc_headers a2 /\ (acc_queries a1 < acc_queries a2)%Z))).

(** Path type and length dominate everything else within the CRD limits. *)
Definition path_tier_lt (a1 a2 : PriorityAcc) : Prop :=
  (acc_pathType a1 < acc_pathType a2)%Z \/
  acc_pathType a1 = acc_pathType a2 /\ (acc_pathLen a1 < acc_pathLen a2)%Z.

(** Rule priorities follow the Gateway API tiers.  Within the CRD limits
    (1024-byte paths, 16 headers, 16 query parameters) a better path type, or
    an equal one with a longer path, always gives the higher priority; with at
    most 9 headers and 9 query parameters the integer priority is ordered
    exactly as the lexicographic order (path type, path length, method,
    headers, query parameters).  No sum overflows. *)
Theorem priority_tiers (r1 r2 : RouteRule) :
  rule_within 1024 16 16 r1 -> rule_within 1024 16 16 r2 ->
  (path_tier_lt (priority_acc r1) (priority_acc r2) -> (computePriority r1 < computePriority r2)%Z) /\
  (rule_within 1024 9 9 r1 -> rule_within 1024 9 9 r2 ->
   ((computePriority r1 < computePriority r2)%Z <-> tier_lt (priority_acc r1) (priority_acc r2))).
Proof.
  intros H1 H2. unfold computePriority.
  apply priority_acc_within in H1, H2; try lia.
  rewrite (priority_value_exact 1024 16 16 (priority_acc r1)),
    (priority_value_exact 1024 16 16 (priority_acc r2)) by (done || lia).
  split.
  - destruct H1 as (T1 & ? & ? & ?), H2 as (T2 & ? & ? & ?).
    rewrite !elem_of_cons, elem_of_nil in T1, T2.
    unfold priorityExactPath, priorityRegexPath, priorityPrefixPath in *.
    unfold path_tier_lt. destruct (acc_hasMethod (priority_acc r1)), (acc_hasMethod (priority_acc r2)); lia.
  - intros H1' H2'. apply priority_acc_within in H1', H2'; try lia.
    destruct H1' as (T1 & ? & ? & ?), H2' as (T2 & ? & ? & ?).
    rewrite !elem_of_cons, elem_of_nil in T1, T2.
    unfold priorityExactPath, priorityRegexPath, priorityPrefixPath in *.
    unfold tier_lt, bool_lt.
    destruct (acc_hasMethod (priority_acc r1)), (acc_hasMethod (priority_acc r2)); lia.
Qed.

Definition one_match (m : RouteMatch) : RouteRule := mkRouteRule [] [m] [] [] None 0.
Definition prefix_match (path : string) (headers : list HeaderMatch) (method : string) : RouteMatch :=
  mkRouteMatch (Some (mkPathMatch PathMatchPathPrefix path)) headers [] method.
(** ["/api"] with a header is outranked by ["/api/v1"]. *)
Lemma priority_tiers_witness :
  (computePriority (one_match (prefix_match "/api" [mkHeaderMatch "Exact" "x" "1"] "GET")) <
   computePriority (one_match (prefix_match "/api/v1" [] "")))%Z.
Proof.
  apply (proj1 (priority_tiers (one_match (prefix_match "/api" [mkHeaderMatch "Exact" "x" "1"] "GET"))
    (one_match (prefix_match "/api/v1" [] "")) ltac:(
      intros m Hm%list_elem_of_singleton; subst; split_and!; [intros p [= <-]|..]; vm_compute; discriminate)
    ltac:(intros m Hm%list_elem_of_singleton; subst; split_and!; [intros p [= <-]|..]; vm_compute; discriminate))).
  right. vm_compute. split; reflexivity.
Defined.

Definition eleven_headers : list HeaderMatch := replicate 11 (mkHeaderMatch "Exact" "x" "1").
(** The tiers do not dominate strictly: within the CRD limits, a rule with
    eleven header matches and no method match outranks a rule with the same
    path and a method match, although the method tier is the higher one. *)
Theorem method_tier_not_strict :
  exists r1 r2, rule_within 1024 16 16 r1 /\ rule_within 1024 16 16 r2 /\
    tier_lt (priority_acc r1) (priority_acc r2) /\ (computePriority r2 < computePriority r1)%Z.
Proof.
  exists (one_match (prefix_match "/api" eleven_headers "")), (one_match (prefix_match "/api" [] "GET")).
  split_and!.
  1,2: intros m Hm%list_elem_of_singleton; subst; split_and!; [intros p [= <-]|..]; vm_compute; discriminate.
  - right. split; [done|]. right. split; [done|]. left. done.
  - vm_compute. reflexivity.
Qed.

(** ** Routing theorems *)

Section compiled_backends.
Context {engine : Regexp} {parser : UrlParser}.

Lemma compileBackendFilters_lookup factory i bs fss k b :
  compileBackendFilters factory i bs = Some (Ok fss) -> bs !! k = Some b ->
  exists fs, fss !! k = Some fs /\ CompileFilters factory (be_Filters b) = Some (Ok fs).
Proof.
  revert i fss k. induction bs as [|b' bs IH]; intros i fss k; simpl; [done|].
  intros (bf & Hbf & H)%cbind_Ok. apply cbind_Ok in H as (rest & Hrest & [= <-]).
  destruct k as [|k]; simpl; [|by eapply IH]. intros [= ->]. exists bf. split; [done|].
  destruct (Nat.eqb_spec (length (be_Filters b)) 0) as [Hz|_]; [|by apply cwrap_Ok in Hbf].
  apply nil_length_inv in Hz as ->. done.
Qed.
Lemma compileBackendFilters_length factory i bs fss :
  compileBackendFilters factory i bs = Some (Ok fss) -> length fss = length bs.
Proof.
  revert i fss. induction bs as [|b' bs IH]; intros i fss; simpl; [by intros [= <-]|].
  intros (bf & Hbf & H)%cbind_Ok. apply cbind_Ok in H as (rest & Hrest & [= <-]).
  simpl. by erewrite IH.
Qed.
End compiled_backends.

(** C1: Routing implements the Gateway API precedence.  For every table
    compiled from a configuration, [Route] returns the rule of the best
    candidate: the exact host before wildcards, longer wildcard suffixes first,
    the host-less rules last; within a bucket the highest priority, then the
    earliest rule.  The result carries that rule's filters, the filters of the
    backend that was drawn, and the hostname pattern of the bucket; it is [None]
    exactly when no rule is a candidate. *)
Theorem route_precedence {engine : Regexp} {parser : UrlParser} {order : WildcardOrder}
    (factory : bool) (cfg : Config) (t : routingTable) (rand : Z -> Z) (req : Request) :
  compileRoutingTable cfg factory = Some (Ok t) ->
  match Route rand t req with
  | Some out => exists b i r, best_candidate cfg req b i r /\
      rr_Rule out = r /\ rr_MatchedHostname out = bucket_label b /\
      CompileFilters factory (rule_Filters r) = Some (Ok (rr_Filters out)) /\
      rr_BackendIdx out = selectBackend rand (rule_Backends r) /\
      (forall k be, rr_BackendIdx out = Z.of_nat k -> rule_Backends r !! k = Some be ->
         CompileFilters factory (be_Filters be) = Some (Ok (rr_BackendFilters out)))
  | None => forall b i r, ~ candidate cfg req b i r
  end.
Proof.
  intros Ht. pose proof (Route_routed factory cfg t Ht rand req) as H.
  destruct (Route rand t req) as [out|]; [|done]. destruct H as (b & i & r & c & Hbest & Hc & ->).
  destruct Hc as [Hr _ _ _ Hf Hb]. exists b, i, r. unfold answer, rule_result. simpl. rewrite Hr.
  split_and!; try done. intros k be Hk Hbe.
  destruct (compileBackendFilters_lookup _ _ _ _ _ _ Hb Hbe) as (fs & Hfs & ->).
  rewrite Hk. apply lookup_lt_Some in Hfs as Hlt.
  destruct (Z.leb_spec 0 (Z.of_nat k)); [|lia].
  destruct (Z.ltb_spec (Z.of_nat k) (Z.of_nat (length (cr_backendFilters c)))); [|lia].
  simpl. by rewrite Nat2Z.id, Hfs.
Qed.

(** Longest suffix first, as one concrete order. *)
Definition suffix_longer (a b : wildcardEntry) : bool :=
  String.length (we_suffix b) <? String.length (we_suffix a).
Global Instance suffix_longer_strict : StrictWeak suffix_longer.
Proof. split; unfold not_after, suffix_longer; intros *; rewrite ?Nat.ltb_lt, ?Nat.ltb_ge; lia. Qed.
Definition stable_order : WildcardOrder.
Proof.
  refine {| wildcard_order := stable_sort suffix_longer |}.
  - intros l. apply stable_sort_perm.
  - intros l. eapply StronglySorted_weaken; [|apply stable_sort_sorted, _].
    intros a b. unfold not_after, suffix_longer, longer_suffix. rewrite Nat.ltb_ge. done.
Defined.

(** Instances for examples: a pattern matches itself, every URL parses to its host. *)
Definition literal_regexp : Regexp := fun p => Some (fun s => bool_decide (s = p)).
Definition host_url : UrlParser := fun s =>
  match CutPrefix s "http://" with
  | Some h => Some (mkURL "http" h "" "" "")
  | None => None
  end.

Definition routed_to (hosts : list string) (ms : list RouteMatch) (url : string) : RouteRule :=
  mkRouteRule hosts ms [] [weighted url 1] None 0.
Definition example_config : Config :=
  mkConfig 7 [ routed_to [] [] "http://default:80";
               routed_to ["*.example.com"] [prefix_match "/" [] ""] "http://wild:80";
               routed_to ["*.a.Example.com"] [prefix_match "/api" [] ""] "http://api:80";
               routed_to ["x.a.example.com"] [prefix_match "/admin" [] ""] "http://admin:80" ]
             false [] [].
Definition example_table : routingTable :=
  match @compileRoutingTable literal_regexp host_url stable_order example_config true with
  | Some (Ok t) => t
  | _ => mkRoutingTable ∅ [] [] 0
  end.
Definition example_request : Request := plain_request "GET" "X.A.example.com:443" "/api/v1" "" ∅.

(** The admin rule does not match, so the longest wildcard answers. *)
Lemma route_precedence_witness :
  exists out, Route (fun _ => 0%Z) example_table example_request = Some out /\
    rr_MatchedHostname out = "*.a.example.com" /\
    exists b i r, @best_candidate literal_regexp example_config example_request b i r /\ rr_Rule out = r.
Proof.
  pose proof (@route_precedence literal_regexp host_url stable_order true example_config example_table
    (fun _ => 0%Z) example_request ltac:(vm_compute; reflexivity)) as H.
  destruct (Route _ _ _) as [out|] eqn:Hr.
  - exists out. split; [reflexivity|]. split.
    2:{ destruct H as (b & i & r & H & Hrule & _). exact (ex_intro _ b (ex_intro _ i (ex_intro _ r (conj H Hrule)))). }
    transitivity (default "" (rr_MatchedHostname <$> Route (fun _ => 0%Z) example_table example_request));
      [by rewrite Hr|vm_compute; reflexivity].
  - exfalso.
    assert (is_Some (Route (fun _ => 0%Z) example_table example_request)) as [x Hx]
      by (vm_compute; eexists; reflexivity).
    rewrite Hr in Hx. discriminate Hx.
Defined.

(** The runtime's freedom is invisible.  Whatever order the wildcard map
    is iterated and ties are sorted in, the compiled tables route every request
    to the same result. *)
Theorem wildcard_order_irrelevant {engine : Regexp} {parser : UrlParser} (order1 order2 : WildcardOrder)
    (factory : bool) (cfg : Config) (t1 t2 : routingTable) (rand : Z -> Z) (req : Request) :
  @compileRoutingTable _ _ order1 cfg factory = Some (Ok t1) ->
  @compileRoutingTable _ _ order2 cfg factory = Some (Ok t2) ->
  Route rand t1 req = Route rand t2 req.
Proof.
  intros H1 H2.
  pose proof (@Route_routed _ _ order1 factory cfg t1 H1 rand req) as R1.
  pose proof (@Route_routed _ _ order2 factory cfg t2 H2 rand req) as R2.
  destruct (Route rand t1 req) as [o1|], (Route rand t2 req) as [o2|]; simpl in *; [..|done].
  - destruct R1 as (b1 & i1 & r1 & c1 & B1 & C1 & ->), R2 as (b2 & i2 & r2 & c2 & B2 & C2 & ->).
    destruct (best_candidate_unique _ _ _ _ _ _ _ _ B1 B2) as (-> & -> & ->).
    apply compileRule_spec in C1, C2. congruence.
  - destruct R1 as (b & i & r & c & [Hc _] & _). by destruct (R2 b i r).
  - destruct R2 as (b & i & r & c & [Hc _] & _). by destruct (R1 b i r).
Qed.

(** The other extreme: ties in reverse arrival order. *)
Definition reverse_order : WildcardOrder.
Proof.
  refine {| wildcard_order l := stable_sort suffix_longer (reverse l) |}.
  - intros l. rewrite stable_sort_perm. apply reverse_Permutation.
  - intros l. eapply StronglySorted_weaken; [|apply stable_sort_sorted, _].
    intros a b. unfold not_after, suffix_longer, longer_suffix. rewrite Nat.ltb_ge. done.
Defined.
Definition example_table' : routingTable :=
  match @compileRoutingTable literal_regexp host_url reverse_order example_config true with
  | Some (Ok t) => t
  | _ => mkRoutingTable ∅ [] [] 0
  end.
Lemma wildcard_order_irrelevant_witness :
  Route (fun _ => 0%Z) example_table example_request = Route (fun _ => 0%Z) example_table' example_request.
Proof.
  apply (@wildcard_order_irrelevant literal_regexp host_url stable_order reverse_order true example_config);
    vm_compute; reflexivity.
Defined.

(** ** Compilation of validated configurations *)

Section validated.
Context {engine : Regexp} {parser : UrlParser}.

(** No panic, and an error only blames a pattern the engine rejects. *)
Definition compiles {A} (P : A -> Prop) (m : Compiled A) : Prop :=
  match m with
  | None => False
  | Some (Ok a) => P a
  | Some (Err e) => is_regex_error e
  end.
Lemma compiles_cbind {A B} (P : A -> Prop) (Q : B -> Prop) (m : Compiled A) (f : A -> Compiled B) :
  compiles P m -> (forall a, P a -> compiles Q (f a)) -> compiles Q (cbind m f).
Proof. destruct m as [[a|e]|]; simpl; auto. Qed.
Lemma compiles_cwrap {A} (P : A -> Prop) field i (m : Compiled A) :
  compiles P m -> compiles P (cwrap field i m).
Proof. destruct m as [[a|e]|]; simpl; auto. Qed.
Lemma compiles_weaken {A} (P Q : A -> Prop) (m : Compiled A) :
  (forall a, P a -> Q a) -> compiles P m -> compiles Q m.
Proof. destruct m as [[a|e]|]; simpl; auto. Qed.

Definition safe_filters (fs : list Filter) : Prop := forall f, f ∈ fs -> safe_filter f.
Definition safe_rule (c : compiledRule) : Prop :=
  safe_filters (cr_filters c) /\ forall fs, fs ∈ cr_backendFilters c -> safe_filters fs.

Lemma CompileFilters_compiles factory fs :
  (forall f, f ∈ fs -> valid_filter f) -> compiles safe_filters (CompileFilters factory fs).
Proof. intros Hv. by destruct (CompileFilters_safe factory 0 fs Hv) as (cs & H & ?); unfold CompileFilters; rewrite H. Qed.
Lemma compileBackendFilters_compiles factory i bs :
  (forall b, b ∈ bs -> valid_backend b) ->
  compiles (fun fss => forall fs, fs ∈ fss -> safe_filters fs) (compileBackendFilters factory i bs).
Proof.
  revert i. induction bs as [|b bs IH]; intros i Hv; simpl; [by intros fs ?%elem_of_nil|].
  assert (Hb : valid_backend b) by (apply Hv; by left).
  apply compiles_cbind with safe_filters.
  - destruct (_ =? 0); [by intros f ?%elem_of_nil|].
    apply compiles_cwrap, CompileFilters_compiles. by apply Hb.
  - intros bf Hbf. eapply compiles_cbind; [apply IH; intros; apply Hv; by right|].
    intros rest Hrest fs [->|Hfs]%elem_of_cons; auto.
Qed.
Lemma compileRule_compiles factory r i : valid_rule r -> compiles safe_rule (compileRule factory r i).
Proof.
  intros (Hb & Hm & Hf). unfold compileRule.
  apply compiles_cbind with (fun _ => True).
  { unfold mapi_res. destruct (mapi_res_from _ _ _) as [?|e] eqn:He; simpl; [done|].
    apply mapi_res_from_Err in He as (k & m & Hk%list_elem_of_lookup_2 & He).
    destruct (CompileMatch m) as [?|e'] eqn:Hc; simplify_eq/=.
    by apply (CompileMatch_valid m e' (Hm m Hk) Hc). }
  intros ms _. eapply compiles_cbind; [by apply CompileFilters_compiles|].
  intros fs Hfs. eapply compiles_cbind; [by apply compileBackendFilters_compiles|].
  intros bfs Hbfs. by split.
Qed.
Lemma build_buckets_compiles factory i rules B :
  (forall r, r ∈ rules -> valid_rule r) -> compiles (fun _ => True) (build_buckets factory i rules B).
Proof.
  revert i B. induction rules as [|r rules IH]; intros i B Hv; simpl; [done|].
  eapply compiles_cbind; [apply compiles_cwrap, compileRule_compiles, Hv; by left|].
  intros c _. apply IH. intros r' ?. apply Hv. by right.
Qed.

Lemma compileRoutingTable_compiles {order : WildcardOrder} factory cfg :
  Validate cfg = Ok tt -> compiles (fun _ => True) (compileRoutingTable cfg factory).
Proof.
  intros [_ Hv]%Validate_spec. unfold compileRoutingTable.
  eapply compiles_cbind; [by apply build_buckets_compiles|done].
Qed.

(** The compiled rules behind a routing result have safe filters. *)
Lemma compiled_from_safe factory r i c : valid_rule r -> compiled_from factory r i c -> safe_rule c.
Proof.
  intros Hv Hc%compileRule_spec. pose proof (compileRule_compiles factory r i Hv) as H. by rewrite Hc in H.
Qed.
End validated.

(** A configuration that passes [Validate] always compiles, or the
    compilation returns an error that blames a regular expression the engine
    rejects: it never dereferences a missing filter payload.  And every filter
    a request is then routed through has its payload, so applying it does not
    panic either. *)
Theorem validated_config_compiles {engine : Regexp} {parser : UrlParser} {order : WildcardOrder}
    (factory : bool) (cfg : Config) :
  Validate cfg = Ok tt ->
  (exists e, compileRoutingTable cfg factory = Some (Err e) /\ is_regex_error e) \/
  (exists t, compileRoutingTable cfg factory = Some (Ok t) /\
     forall rand req out, Route rand t req = Some out ->
       forall f, f ∈ rr_Filters out ++ rr_BackendFilters out -> safe_filter f).
Proof.
  intros Hval. pose proof (compileRoutingTable_compiles factory cfg Hval) as Hc.
  apply Validate_spec in Hval as [_ Hv].
  destruct (compileRoutingTable cfg factory) as [[t|e]|] eqn:Ht; simpl in Hc; [right|by left; exists e|done].
  exists t. split; [done|]. intros rand req out Hout.
  pose proof (Route_routed factory cfg t Ht rand req) as R. rewrite Hout in R.
  destruct R as (b & i & r & c & [Hcand _] & Hcf & ->). destruct Hcand as (Hi & _).
  destruct (compiled_from_safe _ _ _ _ (Hv r (list_elem_of_lookup_2 _ _ _ Hi)) Hcf) as [Hf Hbf].
  intros f [?|Hin]%elem_of_app; [by apply Hf|]. unfold answer, rule_result in Hin; simpl in Hin.
  destruct (_ && _); [|by apply elem_of_nil in Hin].
  destruct (cr_backendFilters c !! _) as [fs|] eqn:Hfs; [|by apply elem_of_nil in Hin].
  eapply Hbf; [by eapply list_elem_of_lookup_2|done].
Qed.
Lemma validated_config_compiles_witness :
  exists t, @compileRoutingTable literal_regexp host_url stable_order example_config true = Some (Ok t).
Proof.
  destruct (@validated_config_compiles literal_regexp host_url stable_order true example_config
    ltac:(vm_compute; reflexivity)) as [(e & _ & p & _ & Hp)|(t & Ht & _)].
  - discriminate Hp.
  - exact (ex_intro _ t Ht).
Defined.
