(* ===== verification/Shadow.v ===== *)
(** * Shadowed rules ([internal/proxy/shadow.go])

    Two routes may claim the same (hostname, match) pair; the router serves one
    of them and the other never sees a request for the pair.  The controller
    detects such pairs and reports the losing route.  The match half of the
    pair is identified by its canonical JSON text ([GoJson]).

    [slices.SortFunc] is not stable, so any sorted permutation is allowed as its
    result ([SortFunc]). *)
From Stdlib Require Import Ascii.
From stdpp Require Import sorting.
From stdpp Require Import base sets gmap strings list.
From S2P Require Import Prelude GoStrings GoHttp GoJson ProxyConfig Matcher Cors Filters Router RouterSpec.

(** ** Provenance *)

Definition ReasonHostnameMatchShadowed : string := "HostnameMatchShadowed".
Definition kindHTTPRoute : string := "HTTPRoute".
Definition kindGRPCRoute : string := "GRPCRoute".

Definition provenance_String (p : RuleProvenance) : string :=
  prov_Kind p +:+ " " +:+ prov_Namespace p +:+ "/" +:+ prov_Name p +:+ " rule " +:+ Itoa (prov_RuleIndex p).
Definition sameRoute (p other : RuleProvenance) : bool :=
  bool_decide (prov_Kind p = prov_Kind other) && bool_decide (prov_Namespace p = prov_Namespace other) &&
  bool_decide (prov_Name p = prov_Name other).

(** ** Claims *)

Record shadowKey := mkShadowKey { sk_hostname : string; sk_matchKey : string }.
Global Instance shadowKey_eq_dec : EqDecision shadowKey.
Proof. solve_decision. Defined.
Global Instance shadowKey_countable : Countable shadowKey :=
  inj_countable' (fun k => (sk_hostname k, sk_matchKey k)) (fun p => mkShadowKey p.1 p.2)
    (fun k => match k with mkShadowKey _ _ => eq_refl end).

Record shadowClaimant := mkShadowClaimant {
  sc_provenance : RuleProvenance;
  sc_priority : Z;
  sc_flatIdx : nat;
}.
Record shadowClaim := mkShadowClaim { cl_key : shadowKey; cl_claimant : shadowClaimant }.

Definition beats (c other : shadowClaimant) : bool :=
  if negb (sc_priority c =? sc_priority other)%Z then (sc_priority other <? sc_priority c)%Z
  else sc_flatIdx c <? sc_flatIdx other.

(** ** Canonical matches *)

(** [slices.SortFunc(l, cmp)]: some permutation of [l] that [cmp] orders. *)
Class SortFunc := {
  sort_func {A} : (A -> A -> bool) -> list A -> list A;
  sort_func_perm {A} (less : A -> A -> bool) l : sort_func less l ≡ₚ l;
  sort_func_sorted {A} (less : A -> A -> bool) `{!StrictWeak less} l :
    StronglySorted (not_after less) (sort_func less l);
}.

Definition nul : string := String "000" EmptyString.
Definition header_sort_key (h : HeaderMatch) : string :=
  hm_Name h +:+ nul +:+ hm_Type h +:+ nul +:+ hm_Value h.
Definition query_sort_key (q : QueryParamMatch) : string :=
  qm_Name q +:+ nul +:+ qm_Type q +:+ nul +:+ qm_Value q.
Definition lower_header (h : HeaderMatch) : HeaderMatch :=
  mkHeaderMatch (hm_Type h) (ToLower (hm_Name h)) (hm_Value h).

(** [json.Marshal] of a [RouteMatch]; empty members are omitted. *)
Definition encode_path (p : PathMatch) : string :=
  json_object [json_member "type" (json_string (pm_Type p)); json_member "value" (json_string (pm_Value p))].
Definition encode_header (h : HeaderMatch) : string :=
  json_object [json_member "type" (json_string (hm_Type h)); json_member "name" (json_string (hm_Name h));
               json_member "value" (json_string (hm_Value h))].
Definition encode_query (q : QueryParamMatch) : string :=
  json_object [json_member "type" (json_string (qm_Type q)); json_member "name" (json_string (qm_Name q));
               json_member "value" (json_string (qm_Value q))].
Definition encode_match (m : RouteMatch) : string :=
  json_object
    (match match_Path m with Some p => [json_member "path" (encode_path p)] | None => [] end ++
     (if length (match_Headers m) =? 0 then []
      else [json_member "headers" (json_array encode_header (match_Headers m))]) ++
     (if length (match_QueryParams m) =? 0 then []
      else [json_member "queryParams" (json_array encode_query (match_QueryParams m))]) ++
     (if bool_decide (match_Method m = "") then []
      else [json_member "method" (json_string (match_Method m))])).

Section shadow.
Context {sorter : SortFunc}.

Definition normalizeHeaderMatches (headers : list HeaderMatch) : list HeaderMatch :=
  if length headers =? 0 then []
  else sort_func (by_key header_sort_key str_ltb) (lower_header <$> headers).
Definition normalizeQueryMatches (params : list QueryParamMatch) : list QueryParamMatch :=
  if length params =? 0 then [] else sort_func (by_key query_sort_key str_ltb) params.

(** [json.Marshal] cannot fail on a [RouteMatch], which holds only strings: the
    fallback [unmarshalableMatchKey] is never reached. *)
Definition normalize_match (m : RouteMatch) : RouteMatch :=
  mkRouteMatch (match_Path m) (normalizeHeaderMatches (match_Headers m))
    (normalizeQueryMatches (match_QueryParams m)) (match_Method m).
Definition canonicalMatchKey (m : RouteMatch) : string := encode_match (normalize_match m).

Definition ruleShadowKeys (rule : RouteRule) : list shadowKey :=
  let hostnames := if length (rule_Hostnames rule) =? 0 then [""] else rule_Hostnames rule in
  let matchKeys := (if length (rule_Matches rule) =? 0 then ["catch-all"] else []) ++
                   (canonicalMatchKey <$> rule_Matches rule) in
  hostnames ≫= fun hostname => (fun matchKey => mkShadowKey (ToLower hostname) matchKey) <$> matchKeys.

(** ** Messages *)

Definition shadowBasis (winner loser : shadowClaimant) : string :=
  let w := sc_provenance winner in
  let l := sc_provenance loser in
  let fallback := "earlier position in the generated configuration order" in
  if negb (sc_priority winner =? sc_priority loser)%Z then
    "higher match specificity — the winning rule's most specific match ranks the whole rule above this one"
  else if bool_decide (prov_Kind w = kindHTTPRoute) && bool_decide (prov_Kind l = kindGRPCRoute) then
    "HTTPRoute rules precede GRPCRoute rules in the generated configuration"
  else if (prov_CreationTimestamp w <? prov_CreationTimestamp l)%Z then "older creationTimestamp"
  else if (prov_CreationTimestamp w =? prov_CreationTimestamp l)%Z then
    if str_ltb (prov_Namespace w) (prov_Namespace l) ||
       (bool_decide (prov_Namespace w = prov_Namespace l) && str_ltb (prov_Name w) (prov_Name l))
    then "alphabetical {namespace}/{name} precedence" else fallback
  else fallback.

(** [%q] of a hostname, whose characters need no escape. *)
Definition quoted (s : string) : string := String quote (s +:+ String quote EmptyString).
Definition shadowedMessage (loser : shadowClaimant) (key : shadowKey) (winner : shadowClaimant) : string :=
  let hostname := if bool_decide (sk_hostname key = "") then "<any>" else sk_hostname key in
  "rule " +:+ Itoa (prov_RuleIndex (sc_provenance loser)) +:+ " match (host " +:+ quoted hostname +:+
  ", match " +:+ sk_matchKey key +:+ ") is shadowed by " +:+ provenance_String (sc_provenance winner) +:+
  " (" +:+ shadowBasis winner loser +:+ "); matching requests are served by that route. " +:+
  "This route remains Accepted. Resolve by removing the duplicate match or scoping hostnames per tenant.".

Definition shadow_diagnostic (c : shadowClaim) (winner : shadowClaimant) : RouteDiagnostic :=
  let p := sc_provenance (cl_claimant c) in
  mkRouteDiagnostic (prov_Namespace p) (prov_Name p) (prov_RuleIndex p) DiagnosticShadowed
    ReasonHostnameMatchShadowed (shadowedMessage (cl_claimant c) (cl_key c) winner) false "".

(** ** Detection *)

Notation Winners := (gmap shadowKey shadowClaimant).

(** The inner loop of pass 1 for one rule. *)
Definition claim_key (claimant : shadowClaimant) (st : Winners * list shadowClaim) (key : shadowKey)
    : Winners * list shadowClaim :=
  let '(winners, claims) := st in
  (match winners !! key with
   | Some incumbent => if beats claimant incumbent then <[key := claimant]> winners else winners
   | None => <[key := claimant]> winners
   end, claims ++ [mkShadowClaim key claimant]).

Fixpoint collect_claims (ruleIdx : nat) (rules : list RouteRule) (provenance : list RuleProvenance)
    (st : Winners * list shadowClaim) : Winners * list shadowClaim :=
  match rules, provenance with
  | rule :: rules', p :: provenance' =>
      let claimant := mkShadowClaimant p (computePriority rule) ruleIdx in
      collect_claims (S ruleIdx) rules' provenance'
        (foldl (claim_key claimant) st (ruleShadowKeys rule))
  | _, _ => st
  end.

Definition zeroClaimant : shadowClaimant := mkShadowClaimant (mkRuleProvenance "" "" "" 0 0) 0 0.

Fixpoint shadowDiagnostics (claims : list shadowClaim) (winners : Winners)
    (emitted : gset (nat * shadowKey)) : list RouteDiagnostic :=
  match claims with
  | [] => []
  | claim :: claims' =>
      let winner := default zeroClaimant (winners !! cl_key claim) in
      let dedupe := (sc_flatIdx (cl_claimant claim), cl_key claim) in
      if sc_flatIdx winner =? sc_flatIdx (cl_claimant claim) then shadowDiagnostics claims' winners emitted
      else if sameRoute (sc_provenance winner) (sc_provenance (cl_claimant claim)) then
        shadowDiagnostics claims' winners emitted
      else if bool_decide (dedupe ∈ emitted) then shadowDiagnostics claims' winners emitted
      else shadow_diagnostic claim winner :: shadowDiagnostics claims' winners (emitted ∪ {[dedupe]})
  end.

Definition DetectShadowedRules (cfg : Config) : list RouteDiagnostic :=
  if negb (length (cfg_Provenance cfg) =? length (cfg_Rules cfg)) then []
  else let '(winners, claims) := collect_claims 0 (cfg_Rules cfg) (cfg_Provenance cfg) (∅, []) in
       shadowDiagnostics claims winners ∅.
End shadow.

(** ** The key of a match is an identity *)

(** Splits the text of a fixed object member by member. *)
Ltac strip_members He :=
  unfold json_object, json_member, Join in He; rewrite ?sapp_assoc in He;
  repeat first [apply sapp_inv_head in He
               |apply json_string_inj in He as [? He]; [|done..]].

Definition utf8_path (p : PathMatch) : Prop := ValidString (pm_Type p) = true /\ ValidString (pm_Value p) = true.
Definition utf8_header (h : HeaderMatch) : Prop :=
  ValidString (hm_Type h) = true /\ ValidString (hm_Name h) = true /\ ValidString (hm_Value h) = true.
Definition utf8_query (q : QueryParamMatch) : Prop :=
  ValidString (qm_Type q) = true /\ ValidString (qm_Name q) = true /\ ValidString (qm_Value q) = true.

Lemma encode_path_inj : prefix_injective utf8_path encode_path.
Proof.
  intros [t v] [t' v'] r r' [??] [??] He; unfold encode_path in He; simpl in *. strip_members He.
  by subst.
Qed.
Lemma encode_header_inj : prefix_injective utf8_header encode_header.
Proof.
  intros [t n v] [t' n' v'] r r' (?&?&?) (?&?&?) He; unfold encode_header in He; simpl in *. strip_members He.
  by subst.
Qed.
Lemma encode_query_inj : prefix_injective utf8_query encode_query.
Proof.
  intros [t n v] [t' n' v'] r r' (?&?&?) (?&?&?) He; unfold encode_query in He; simpl in *. strip_members He.
  by subst.
Qed.

(** Every string of the match is valid UTF-8. *)
Record utf8_match (m : RouteMatch) : Prop := {
  vm_path : forall p, match_Path m = Some p -> utf8_path p;
  vm_headers : forall h, h ∈ match_Headers m -> utf8_header h;
  vm_queries : forall q, q ∈ match_QueryParams m -> utf8_query q;
  vm_method : ValidString (match_Method m) = true;
}.

(** [omitempty] of a slice. *)
Definition nonempty {A} (l : list A) : option (list A) := if length l =? 0 then None else Some l.
Lemma nonempty_inj {A} (l l' : list A) : nonempty l = nonempty l' -> l = l'.
Proof. destruct l, l'; by intros [=]; subst. Qed.
Lemma nonempty_Some {A} (l l' : list A) : nonempty l = Some l' -> l = l'.
Proof. destruct l; [done|by intros [= <-]]. Qed.
Definition nonempty_string (s : string) : option string := if bool_decide (s = "") then None else Some s.

Lemma encode_match_members m :
  encode_match m = "{" +:+ object_rest ""
    (optional "path" encode_path (match_Path m) ++
     optional "headers" (json_array encode_header) (nonempty (match_Headers m)) ++
     optional "queryParams" (json_array encode_query) (nonempty (match_QueryParams m)) ++
     optional "method" json_string (nonempty_string (match_Method m)) ++ []).
Proof.
  unfold encode_match. rewrite json_object_rest, app_nil_r. unfold nonempty, nonempty_string.
  destruct m as [[p|] [|h hs] [|q qs] me]; simpl; by case_bool_decide.
Qed.

Ltac solve_avoids :=
  repeat apply avoids_app; repeat (apply avoids_optional; intros ? ? ?; discriminate);
  by intros ? ?%elem_of_nil.

Lemma encode_match_inj m m' : utf8_match m -> utf8_match m' -> encode_match m = encode_match m' -> m = m'.
Proof.
  intros [Hp Hh Hq Hm] [Hp' Hh' Hq' Hm']. rewrite !encode_match_members. intros He.
  apply sapp_inv_head in He. apply (f_equal (fun s => s +:+ EmptyString)) in He.
  apply (optional_inj utf8_path) in He as (E1 & s1 & Hs1 & He);
    [|by apply encode_path_inj|done|done|by left|solve_avoids|solve_avoids].
  apply (optional_inj (fun l => forall a, a ∈ l -> utf8_header a)) in He as (E2 & s2 & Hs2 & He);
    [|apply json_array_inj; [apply encode_header_inj|by eexists]
     |intros ? <-%nonempty_Some; done|intros ? <-%nonempty_Some; done|done|solve_avoids|solve_avoids].
  apply (optional_inj (fun l => forall a, a ∈ l -> utf8_query a)) in He as (E3 & s3 & Hs3 & He);
    [|apply json_array_inj; [apply encode_query_inj|by eexists]
     |intros ? <-%nonempty_Some; done|intros ? <-%nonempty_Some; done|done|solve_avoids|solve_avoids].
  apply (optional_inj (fun s => ValidString s = true)) in He as (E4 & _ & _ & _);
    [|apply json_string_inj| | |done|solve_avoids|solve_avoids].
  2,3: unfold nonempty_string; intros s; case_bool_decide; by intros [= <-].
  destruct m, m'; simpl in *. apply nonempty_inj in E2, E3. subst. f_equal.
  unfold nonempty_string in E4. repeat case_bool_decide; congruence.
Qed.

Definition no_nul (s : string) : Prop := str_existsb (fun d => bool_decide (d = "000"%char)) s = false.

(** The matches the API server admits: UTF-8 text, header names that are
    tokens, no NUL bytes in names and types. *)
Record admitted_match (m : RouteMatch) : Prop := {
  am_valid : utf8_match m;
  am_headers : forall h, h ∈ match_Headers m -> is_token (hm_Name h) = true /\ no_nul (hm_Type h);
  am_queries : forall q, q ∈ match_QueryParams m -> no_nul (qm_Name q) /\ no_nul (qm_Type q);
}.

(** Equal up to the order of conditions and the case of header names. *)
Record same_match (m m' : RouteMatch) : Prop := {
  sm_path : match_Path m = match_Path m';
  sm_headers : lower_header <$> match_Headers m ≡ₚ lower_header <$> match_Headers m';
  sm_queries : match_QueryParams m ≡ₚ match_QueryParams m';
  sm_method : match_Method m = match_Method m';
}.

Lemma nul_split a b a' b' :
  no_nul a -> no_nul a' -> a +:+ nul +:+ b = a' +:+ nul +:+ b' -> a = a' /\ b = b'.
Proof.
  unfold no_nul, nul. intros Ha Ha' He. rewrite !sapp_cons, !sapp_nil_l in He.
  apply (f_equal (fun s => Cut s nul)) in He. unfold nul in He. rewrite !Cut_byte_app in He by done. by simplify_eq.
Qed.

Lemma token_byte_range c : token_byte c = true -> (byte_val c <? 128)%N = true /\ c <> "000"%char.
Proof. destruct c as [[] [] [] [] [] [] [] []]; vm_compute; by intros H. Qed.
Lemma token_plain s : is_token s = true -> no_nul s /\ ValidString s = true.
Proof.
  unfold is_token, no_nul, ValidString. induction s as [|c s IH]; cbn [str_forallb str_existsb runes]; [done|].
  rewrite andb_true_iff. intros [[H1 H2]%token_byte_range Hs]. rewrite H1.
  destruct (IH Hs) as [-> Hv]. rewrite bool_decide_false by done. done.
Qed.
Lemma lower_token s : is_token s = true -> is_token (ToLower s) = true.
Proof. unfold is_token. by rewrite token_lower. Qed.

Section canonical.
Context {sorter : SortFunc}.

Lemma sort_func_unique {A} (less : A -> A -> bool) `{!StrictWeak less} (l1 l2 : list A) :
  (forall x y, x ∈ l1 -> y ∈ l1 -> less x y = false -> less y x = false -> x = y) ->
  l1 ≡ₚ l2 -> sort_func less l1 = sort_func less l2.
Proof.
  intros Htie Hp. apply (StronglySorted_unique_strong (not_after less)).
  - intros x y Hx Hy Hxy Hyx. rewrite sort_func_perm in Hx. rewrite sort_func_perm, <-Hp in Hy. by apply Htie.
  - by apply sort_func_sorted.
  - by apply sort_func_sorted.
  - by rewrite !sort_func_perm.
Qed.

Lemma normalizeHeaderMatches_perm hs : normalizeHeaderMatches hs ≡ₚ lower_header <$> hs.
Proof. unfold normalizeHeaderMatches. destruct hs; [done|]. apply sort_func_perm. Qed.
Lemma normalizeQueryMatches_perm qs : normalizeQueryMatches qs ≡ₚ qs.
Proof. unfold normalizeQueryMatches. destruct qs; [done|]. apply sort_func_perm. Qed.

Lemma normalizeHeaderMatches_ext hs hs' :
  (forall h, h ∈ hs -> is_token (hm_Name h) = true /\ no_nul (hm_Type h)) ->
  lower_header <$> hs ≡ₚ lower_header <$> hs' -> normalizeHeaderMatches hs = normalizeHeaderMatches hs'.
Proof.
  intros Hh Hp. unfold normalizeHeaderMatches.
  assert (length hs = length hs') as ->.
  { rewrite <-(length_fmap lower_header hs), <-(length_fmap lower_header hs'). by apply Permutation_length. }
  case_match; [done|]. apply (sort_func_unique _ _ _); [|done].
  intros x y (hx & -> & Hx)%list_elem_of_fmap (hy & -> & Hy)%list_elem_of_fmap H1 H2.
  assert (He := str_ltb_total _ _ H1 H2). unfold header_sort_key, lower_header in *; simpl in He.
  destruct (Hh hx Hx) as [Htx Hnx], (Hh hy Hy) as [Hty Hny].
  apply nul_split in He as [-> He]; [|by apply token_plain, lower_token..].
  by apply nul_split in He as [-> ->].
Qed.
Lemma normalizeQueryMatches_ext qs qs' :
  (forall q, q ∈ qs -> no_nul (qm_Name q) /\ no_nul (qm_Type q)) ->
  qs ≡ₚ qs' -> normalizeQueryMatches qs = normalizeQueryMatches qs'.
Proof.
  intros Hq Hp. unfold normalizeQueryMatches. rewrite (Permutation_length Hp). case_match; [done|].
  apply (sort_func_unique _ _ _); [|done]. intros x y Hx Hy H1 H2.
  assert (He := str_ltb_total _ _ H1 H2). unfold query_sort_key in He.
  destruct (Hq x Hx) as [? ?], (Hq y Hy) as [? ?].
  apply nul_split in He as [? He]; [|done..]. apply nul_split in He as [? ?]; [|done..].
  destruct x, y; simpl in *; congruence.
Qed.

Lemma normalize_match_utf8 m : admitted_match m -> utf8_match (normalize_match m).
Proof.
  intros [[Hp Hh Hq Hm] Ht _]. split; simpl; [done| | |done].
  - intros h Hin. rewrite normalizeHeaderMatches_perm in Hin.
    apply list_elem_of_fmap in Hin as (h' & -> & Hin). destruct (Hh h' Hin) as (? & _ & ?).
    split_and!; simpl; [done| |done]. by apply token_plain, lower_token, Ht.
  - intros q Hin. rewrite normalizeQueryMatches_perm in Hin. by apply Hq.
Qed.

Lemma canonical_key_same m m' :
  admitted_match m -> admitted_match m' -> canonicalMatchKey m = canonicalMatchKey m' <-> same_match m m'.
Proof.
  intros Hm Hm'. unfold canonicalMatchKey. split.
  - intros He. apply encode_match_inj in He; [|by apply normalize_match_utf8..].
    injection He as Hp Hh Hq Hme. split; [done| | |done].
    + by rewrite <-!normalizeHeaderMatches_perm, Hh.
    + by rewrite <-(normalizeQueryMatches_perm (match_QueryParams m)), Hq, normalizeQueryMatches_perm.
  - intros [Hp Hh Hq Hme]. f_equal. unfold normalize_match. rewrite Hp, Hme. f_equal.
    + apply normalizeHeaderMatches_ext; [apply Hm|done].
    + apply normalizeQueryMatches_ext; [apply Hm|done].
Qed.
End canonical.

(** Same matches accept the same requests. *)
Lemma header_sem_lower {engine : Regexp} h h' req :
  is_token (hm_Name h) = true -> lower_header h = lower_header h' -> header_sem h req -> header_sem h' req.
Proof.
  intros Ht He. destruct h as [t n v], h' as [t' n' v']. unfold lower_header, header_sem in *; simpl in *.
  injection He as -> Hn ->. unfold header_Values. by rewrite (CanonicalHeaderKey_fold n n' Ht Hn).
Qed.
Lemma match_sem_same {engine : Regexp} m m' req :
  admitted_match m -> same_match m m' -> match_sem m req -> match_sem m' req.
Proof.
  intros [_ Ht _] [Hp Hh Hq Hme] (H1 & H2 & H3 & H4). split_and!.
  - by rewrite <-Hp.
  - by rewrite <-Hme.
  - intros h' Hin. assert (Hl : lower_header h' ∈ lower_header <$> match_Headers m).
    { rewrite Hh. by apply list_elem_of_fmap_2. }
    apply list_elem_of_fmap in Hl as (h & He & Hin'). eapply header_sem_lower; [by apply Ht|done|].
    by apply H3.
  - intros q. rewrite <-Hq. apply H4.
Qed.

(** ** What detection reports *)

Section detect.
Context {sorter : SortFunc}.

(** Rule [i] claims a pair, with its provenance and priority. *)
Definition claims (cfg : Config) (c : shadowClaim) : Prop :=
  exists i r p, cfg_Rules cfg !! i = Some r /\ cfg_Provenance cfg !! i = Some p /\
    cl_key c ∈ ruleShadowKeys r /\ cl_claimant c = mkShadowClaimant p (computePriority r) i.
(** The claimant no other claimant of the pair beats. *)
Definition serves (cfg : Config) (k : shadowKey) (w : shadowClaimant) : Prop :=
  claims cfg (mkShadowClaim k w) /\
  forall c, claims cfg c -> cl_key c = k -> beats (cl_claimant c) w = false.
(** A claim that loses to a rule of another route. *)
Definition shadowed (cfg : Config) (c : shadowClaim) (w : shadowClaimant) : Prop :=
  claims cfg c /\ serves cfg (cl_key c) w /\ sc_flatIdx w <> sc_flatIdx (cl_claimant c) /\
  sameRoute (sc_provenance w) (sc_provenance (cl_claimant c)) = false.

Global Instance beats_strict : StrictWeak beats.
Proof.
  split; unfold not_after, beats; intros *;
    repeat match goal with |- context [(?a =? ?b)%Z] => destruct (Z.eqb_spec a b); simpl end;
    rewrite ?Z.ltb_lt, ?Z.ltb_ge, ?Nat.ltb_lt, ?Nat.ltb_ge; lia.
Qed.
Lemma beats_tie c c' : beats c c' = false -> beats c' c = false -> sc_flatIdx c = sc_flatIdx c'.
Proof.
  unfold beats. destruct (Z.eqb_spec (sc_priority c) (sc_priority c')) as [->|Hne]; simpl.
  - rewrite Z.eqb_refl. simpl. rewrite !Nat.ltb_ge. lia.
  - rewrite (proj2 (Z.eqb_neq _ _)) by congruence. simpl. rewrite !Z.ltb_ge. lia.
Qed.

(** The incumbents of pass 1: per pair, an unbeaten claimant of the claims so far. *)
Definition incumbents (st : gmap shadowKey shadowClaimant * list shadowClaim) : Prop :=
  forall k, match st.1 !! k with
            | None => forall c, c ∈ st.2 -> cl_key c <> k
            | Some w => mkShadowClaim k w ∈ st.2 /\
                forall c, c ∈ st.2 -> cl_key c = k -> beats (cl_claimant c) w = false
            end.

Lemma claim_key_incumbents cl st key : incumbents st -> incumbents (claim_key cl st key).
Proof.
  destruct st as [W cs]. intros Hinv k. specialize (Hinv k) as Hk. cbn in *.
  assert (Hirr : beats cl cl = false) by (unfold beats; by rewrite Z.eqb_refl, Nat.ltb_irrefl).
  destruct (decide (key = k)) as [->|Hne].
  - destruct (W !! k) as [w|] eqn:Hw; [destruct (beats cl w) eqn:Hb|];
      rewrite ?lookup_insert_eq, ?Hw, elem_of_app, ?list_elem_of_singleton.
    + split; [by right|]. intros c [Hc| ->%list_elem_of_singleton]%elem_of_app He; [|done].
      apply (sw_trans (less := beats) _ w); [by apply sw_asym|by apply Hk].
    + split; [by left; apply Hk|]. intros c [Hc| ->%list_elem_of_singleton]%elem_of_app; [by apply Hk|done].
    + split; [by right|]. intros c [Hc| ->%list_elem_of_singleton]%elem_of_app He; [|done]. by destruct (Hk c Hc).
  - assert (match W !! key with
            | Some inc => if beats cl inc then <[key:=cl]> W else W
            | None => <[key:=cl]> W
            end !! k = W !! k) as ->.
    { repeat case_match; rewrite ?lookup_insert_ne by done; done. }
    destruct (W !! k) as [w|].
    + rewrite elem_of_app. split; [by left; apply Hk|].
      intros c [Hc| ->%list_elem_of_singleton]%elem_of_app; [by apply Hk|done].
    + intros c [Hc| ->%list_elem_of_singleton]%elem_of_app; [by apply Hk|done].
Qed.
Lemma claim_keys cl st keys :
  incumbents st -> incumbents (foldl (claim_key cl) st keys) /\
  (foldl (claim_key cl) st keys).2 = st.2 ++ ((fun k => mkShadowClaim k cl) <$> keys).
Proof.
  revert st. induction keys as [|k keys IH]; intros st Hst; simpl; [by rewrite app_nil_r|].
  destruct (IH (claim_key cl st k)) as [H1 H2]; [by apply claim_key_incumbents|].
  split; [done|]. rewrite H2. destruct st as [W cs]. simpl. by rewrite <-app_assoc.
Qed.

Lemma collect_claims_spec i rules provs st :
  incumbents st -> incumbents (collect_claims i rules provs st) /\
  forall c, c ∈ (collect_claims i rules provs st).2 <-> c ∈ st.2 \/
    exists k r p, rules !! k = Some r /\ provs !! k = Some p /\
      cl_key c ∈ ruleShadowKeys r /\ cl_claimant c = mkShadowClaimant p (computePriority r) (i + k).
Proof.
  revert i provs st. induction rules as [|r rules IH]; intros i provs st Hst; cbn [collect_claims].
  { split; [done|]. intros c. split; [auto|]. by intros [?|(k & ? & ? & ? & _)]. }
  destruct provs as [|p provs].
  { split; [done|]. intros c. split; [auto|]. by intros [?|(k & ? & ? & ? & ? & _)]. }
  destruct (claim_keys (mkShadowClaimant p (computePriority r) i) st (ruleShadowKeys r) Hst) as [H1 H2].
  destruct (IH (S i) provs _ H1) as [H3 H4]. split; [done|]. intros c. rewrite H4, H2, elem_of_app.
  rewrite list_elem_of_fmap. split.
  - intros [[?|(k & -> & Hk)]|(k & r' & p' & Hr & Hp & Hc & He)]; [by left|right..].
    + exists 0, r, p. by rewrite Nat.add_0_r.
    + exists (S k), r', p'. split_and!; [done..|]. rewrite He. f_equal. lia.
  - intros [?|([|k] & r' & p' & Hr & Hp & Hc & He)]; simplify_eq/=; [by left; left|left; right|right].
    + exists (cl_key c). rewrite Nat.add_0_r in He. destruct c; simpl in *. by subst.
    + exists k, r', p'. split_and!; [done..|]. rewrite He. f_equal. lia.
Qed.

Lemma shadowDiagnostics_spec cs W emitted :
  (forall c c', c ∈ cs -> c' ∈ cs -> cl_key c = cl_key c' ->
     sc_flatIdx (cl_claimant c) = sc_flatIdx (cl_claimant c') -> c = c') ->
  exists losers, NoDup losers /\
    shadowDiagnostics cs W emitted =
      ((fun c => shadow_diagnostic c (default zeroClaimant (W !! cl_key c))) <$> losers) /\
    forall c, c ∈ losers <-> c ∈ cs /\
      sc_flatIdx (default zeroClaimant (W !! cl_key c)) <> sc_flatIdx (cl_claimant c) /\
      sameRoute (sc_provenance (default zeroClaimant (W !! cl_key c))) (sc_provenance (cl_claimant c)) = false /\
      (sc_flatIdx (cl_claimant c), cl_key c) ∉ emitted.
Proof.
  revert emitted. induction cs as [|d cs IH]; intros emitted Hdet; cbn [shadowDiagnostics].
  { exists []. split_and!; [constructor|done|]. intros c. rewrite !elem_of_nil. tauto. }
  assert (Hdet' : forall c c', c ∈ cs -> c' ∈ cs -> cl_key c = cl_key c' ->
     sc_flatIdx (cl_claimant c) = sc_flatIdx (cl_claimant c') -> c = c').
  { intros c c' Hc Hc'. apply Hdet; by right. }
  set (w := default zeroClaimant (W !! cl_key d)).
  destruct (Nat.eqb_spec (sc_flatIdx w) (sc_flatIdx (cl_claimant d))) as [Hw|Hw];
    [|destruct (sameRoute (sc_provenance w) (sc_provenance (cl_claimant d))) eqn:Hsame;
    [|case_bool_decide as Hem]].
  1-3: destruct (IH emitted Hdet') as (losers & Hnd & Heq & Hl); exists losers;
    (split_and!; [done..|]); intros c; rewrite Hl, elem_of_cons; split; [tauto|];
    intros ([->|?] & H1 & H2 & H3); [|tauto]; fold w in H1, H2; congruence.
  destruct (IH (emitted ∪ {[(sc_flatIdx (cl_claimant d), cl_key d)]}) Hdet') as (losers & Hnd & Heq & Hl).
  exists (d :: losers). split_and!.
  - constructor; [|done]. rewrite Hl. set_solver.
  - simpl. by rewrite Heq.
  - intros c. rewrite !elem_of_cons, Hl. split.
    + intros [->|(? & ? & ? & Hn)]; [tauto|]. split_and!; [tauto|done|done|set_solver].
    + intros ([->|Hc] & H1 & H2 & H3); [by left|].
      destruct (decide ((sc_flatIdx (cl_claimant c), cl_key c) = (sc_flatIdx (cl_claimant d), cl_key d)))
        as [He|Hcd].
      * left. injection He as He1 He2. apply Hdet; [by right|by left|done|done].
      * right. split_and!; [done..|]. set_solver.
Qed.

(** A rule claims a pair once: index and key determine the claim. *)
Lemma claims_det cfg c c' :
  claims cfg c -> claims cfg c' -> cl_key c = cl_key c' ->
  sc_flatIdx (cl_claimant c) = sc_flatIdx (cl_claimant c') -> c = c'.
Proof.
  destruct c as [k cl], c' as [k' cl']. intros (i & r & p & Hr & Hp & _ & He) (i' & r' & p' & Hr' & Hp' & _ & He').
  simpl in *. subst. simpl. intros -> ->. by simplify_eq.
Qed.

(** The two passes together. *)
Lemma detect_spec cfg :
  length (cfg_Provenance cfg) = length (cfg_Rules cfg) ->
  exists losers winner, NoDup losers /\
    DetectShadowedRules cfg = ((fun c => shadow_diagnostic c (winner (cl_key c))) <$> losers) /\
    (forall c, claims cfg c -> serves cfg (cl_key c) (winner (cl_key c))) /\
    forall c, c ∈ losers <-> shadowed cfg c (winner (cl_key c)).
Proof.
  intros Hlen. unfold DetectShadowedRules. rewrite Hlen, Nat.eqb_refl. cbn [negb].
  destruct (collect_claims_spec 0 (cfg_Rules cfg) (cfg_Provenance cfg) (∅, [])) as [Hinv Hcs].
  { intros k. cbn [fst snd]. rewrite lookup_empty. by intros c ?%elem_of_nil. }
  destruct (collect_claims 0 (cfg_Rules cfg) (cfg_Provenance cfg) (∅, [])) as [W cs]. cbn [fst snd] in *.
  assert (Hclaims : forall c, c ∈ cs <-> claims cfg c).
  { intros c. rewrite Hcs, elem_of_nil. unfold claims. cbn [Nat.add]. tauto. }
  destruct (shadowDiagnostics_spec cs W ∅) as (losers & Hnd & Heq & Hl).
  { intros c c' Hc%Hclaims Hc'%Hclaims. by apply (claims_det cfg). }
  assert (Hserves : forall c, claims cfg c -> serves cfg (cl_key c) (default zeroClaimant (W !! cl_key c))).
  { intros c Hc. specialize (Hinv (cl_key c)). cbn [fst snd] in Hinv.
    destruct (W !! cl_key c) as [w|]; simpl; [|by destruct (Hinv c (proj2 (Hclaims c) Hc))].
    destruct Hinv as [H1 H2]. split; [by apply Hclaims|]. intros c' Hc'%Hclaims. by apply H2. }
  exists losers, (fun k => default zeroClaimant (W !! k)). split_and!; [done|done|done|].
  intros c. rewrite Hl, Hclaims. unfold shadowed. split.
  - intros (Hc & ? & ? & _). split_and!; auto.
  - intros (Hc & _ & ? & ?). split_and!; [done..|]. apply not_elem_of_empty.
Qed.

(** The served claimant of a pair is unique. *)
Lemma serves_unique cfg k w w' : serves cfg k w -> serves cfg k w' -> w = w'.
Proof.
  intros [Hw Hb] [Hw' Hb']. assert (mkShadowClaim k w = mkShadowClaim k w') as He.
  { apply (claims_det cfg); [done|done|done|]. apply beats_tie; [by apply (Hb' _ Hw)|by apply (Hb _ Hw')]. }
  by injection He.
Qed.
End detect.

(** [DetectShadowedRules] reports, once each and with the true winner, exactly
    the (hostname, match) pairs whose claim loses to a rule of another route,
    where the winner is the claimant the router ranks first (higher priority,
    then lower index); a configuration whose provenance does not parallel its
    rules yields nothing. *)
Theorem shadow_reports_exact {sorter : SortFunc} (cfg : Config) :
  (length (cfg_Provenance cfg) <> length (cfg_Rules cfg) /\ DetectShadowedRules cfg = []) \/
  exists losers winner, NoDup losers /\
    DetectShadowedRules cfg = zip_with shadow_diagnostic losers winner /\
    Forall2 (shadowed cfg) losers winner /\
    (forall c w, shadowed cfg c w -> c ∈ losers) /\
    (forall c, claims cfg c -> exists w, serves cfg (cl_key c) w) /\
    (forall k w w', serves cfg k w -> serves cfg k w' -> w = w').
Proof.
  destruct (Nat.eqb_spec (length (cfg_Provenance cfg)) (length (cfg_Rules cfg))) as [He|He].
  2:{ left. split; [done|]. unfold DetectShadowedRules. by rewrite (proj2 (Nat.eqb_neq _ _) He). }
  right. destruct (detect_spec cfg He) as (losers & winner & Hnd & Heq & Hserves & Hl).
  exists losers, ((fun c => winner (cl_key c)) <$> losers). split_and!; [done|..].
  - rewrite Heq. clear. induction losers as [|c l IH]; [done|]. cbn. f_equal. apply IH.
  - apply Forall2_fmap_r, Forall_Forall2_diag, Forall_forall. intros c Hc. by apply Hl.
  - intros c w Hs. apply Hl. assert (winner (cl_key c) = w) as ->; [|done].
    destruct Hs as (Hc & Hw & _). by eapply serves_unique; [apply Hserves|].
  - intros c Hc. eauto.
  - apply serves_unique.
Qed.

(** ** A shadowed pair gets no traffic *)

Definition key_bucket (k : shadowKey) : Bucket :=
  if bool_decide (sk_hostname k = "") then DefaultHost
  else if HasPrefix (sk_hostname k) "*." then WildcardHost (str_drop 1 (sk_hostname k))
  else ExactHost (sk_hostname k).

(** Hostnames are not empty and matches are what the API server admits. *)
Definition admitted_config (cfg : Config) : Prop :=
  forall r, r ∈ cfg_Rules cfg ->
    (forall h, h ∈ rule_Hostnames r -> h <> "") /\ (forall m, m ∈ rule_Matches r -> admitted_match m).

Section served.
Context {engine : Regexp} {sorter : SortFunc}.

(** The request is one for the pair [k] of rule [r]. *)
Definition pair_accepts (r : RouteRule) (k : shadowKey) (req : Request) : Prop :=
  bucket_applies (extractHost req) (key_bucket k) /\
  ((rule_Matches r = [] /\ sk_matchKey k = "catch-all") \/
   exists m, m ∈ rule_Matches r /\ canonicalMatchKey m = sk_matchKey k /\ match_sem m req).

Lemma elem_of_ruleShadowKeys r k :
  k ∈ ruleShadowKeys r <->
  (exists h, (rule_Hostnames r = [] /\ h = "" \/ h ∈ rule_Hostnames r) /\ sk_hostname k = ToLower h) /\
  (rule_Matches r = [] /\ sk_matchKey k = "catch-all" \/
   exists m, m ∈ rule_Matches r /\ canonicalMatchKey m = sk_matchKey k).
Proof.
  unfold ruleShadowKeys. rewrite list_elem_of_bind. setoid_rewrite list_elem_of_fmap.
  destruct k as [kh km]; simpl. split.
  - intros (h & (mk & [= -> ->] & Hmk) & Hh). split.
    + exists h. split; [|done]. destruct (rule_Hostnames r); simpl in *; [|by right].
      left. by apply list_elem_of_singleton in Hh.
    + apply elem_of_app in Hmk as [Hmk|(m & -> & Hm)%list_elem_of_fmap]; [left|eauto].
      destruct (rule_Matches r); simpl in *; [by apply list_elem_of_singleton in Hmk|by apply elem_of_nil in Hmk].
  - intros [(h & Hh & ->) Hm]. exists h. split.
    + exists km. split; [done|]. rewrite elem_of_app, list_elem_of_fmap.
      destruct Hm as [[-> ->]|(m & ? & <-)]; [left; by left|eauto].
    + destruct Hh as [[-> ->]|Hh]; [by left|]. destruct (rule_Hostnames r); [by apply elem_of_nil in Hh|done].
Qed.

Lemma claims_bucket r k :
  (forall h, h ∈ rule_Hostnames r -> h <> "") -> k ∈ ruleShadowKeys r -> rule_in_bucket r (key_bucket k).
Proof.
  intros Hne [(h & Hh & Hk) _]%elem_of_ruleShadowKeys. unfold key_bucket. rewrite Hk.
  destruct Hh as [[Hnil ->]|Hh]; [done|].
  rewrite bool_decide_false by (rewrite ToLower_empty; by apply Hne).
  destruct (HasPrefix (ToLower h) "*.") eqn:Hp; simpl; eauto.
Qed.

Lemma canonical_not_catch_all m : canonicalMatchKey m <> "catch-all".
Proof. unfold canonicalMatchKey. rewrite encode_match_members. discriminate. Qed.

(** Another claimant of the pair accepts its requests too. *)
Lemma pair_transfer r r' k req :
  (forall m, m ∈ rule_Matches r -> admitted_match m) -> (forall m, m ∈ rule_Matches r' -> admitted_match m) ->
  k ∈ ruleShadowKeys r' -> pair_accepts r k req -> rule_matches r' req.
Proof.
  intros Hr Hr' [_ Hk]%elem_of_ruleShadowKeys [_ [[_ Hc]|(m & Hm & Hkey & Hsem)]].
  - destruct Hk as [[? _]|(m' & _ & He)]; [by left|].
    rewrite Hc in He. by apply canonical_not_catch_all in He.
  - destruct Hk as [[? _]|(m' & Hm' & He)]; [by left|]. right. exists m'. split; [done|].
    eapply match_sem_same; [by apply Hr| |done]. apply canonical_key_same; [by apply Hr|by apply Hr'|congruence].
Qed.
End served.

(** The canonical key of a match is its identity: two matches get the same key
    exactly when they are equal up to the order of their header and query
    conditions and the case of header names, and then they accept the same
    requests. *)
Theorem canonical_key_exact {engine : Regexp} {sorter : SortFunc} (m m' : RouteMatch) :
  admitted_match m -> admitted_match m' ->
  (canonicalMatchKey m = canonicalMatchKey m' <-> same_match m m') /\
  (canonicalMatchKey m = canonicalMatchKey m' -> forall req, match_sem m req <-> match_sem m' req).
Proof.
  intros Hm Hm'. assert (Hiff := canonical_key_same m m' Hm Hm'). split; [done|].
  intros He req. split; intros Hs.
  - eapply match_sem_same; [exact Hm|by apply Hiff|done].
  - eapply match_sem_same; [exact Hm'|by apply (proj1 (canonical_key_same m' m Hm' Hm))|done].
Qed.

(** The report tells the truth.  A request for a pair that is reported as
    shadowed is always answered, and never by the losing rule through that
    hostname: the reported winner is a candidate for it there, so a rule at
    least as strong as the winner, or one with a more specific hostname, serves
    it. *)
Theorem shadowed_pair_never_served {engine : Regexp} {parser : UrlParser} {order : WildcardOrder}
    {sorter : SortFunc} (factory : bool) (cfg : Config) (t : routingTable) (rand : Z -> Z) (req : Request)
    (c : shadowClaim) (w : shadowClaimant) (r : RouteRule) :
  compileRoutingTable cfg factory = Some (Ok t) -> admitted_config cfg ->
  shadowed cfg c w -> cfg_Rules cfg !! sc_flatIdx (cl_claimant c) = Some r ->
  pair_accepts r (cl_key c) req ->
  exists res b i r', Route rand t req = Some res /\ rr_Rule res = r' /\ rr_MatchedHostname res = bucket_label b /\
    best_candidate cfg req b i r' /\
    ((b = key_bucket (cl_key c) /\ i <> sc_flatIdx (cl_claimant c) /\
      (sc_priority w < computePriority r' \/ sc_priority w = computePriority r' /\
       (Z.of_nat i <= Z.of_nat (sc_flatIdx w)))%Z) \/
     bucket_before b (key_bucket (cl_key c))).
Proof.
  intros Ht Hadm (Hc & (Hw & Hbest) & Hne & _) Hr Hacc.
  destruct Hw as (iw & rw & pw & Hrw & _ & Hkw & Hew). simpl in Hkw, Hew. subst w. simpl in *.
  assert (Hin : forall i x, cfg_Rules cfg !! i = Some x -> x ∈ cfg_Rules cfg)
    by (intros; by eapply list_elem_of_lookup_2).
  destruct (Hadm r (Hin _ _ Hr)) as [_ Hmr], (Hadm rw (Hin _ _ Hrw)) as [Hhw Hmw].
  assert (Hcand : candidate cfg req (key_bucket (cl_key c)) iw rw).
  { split_and!; [done|apply Hacc|by apply claims_bucket|]. by apply (pair_transfer r rw (cl_key c)). }
  assert (Hbeat := Hbest c Hc eq_refl). destruct Hc as (i & r0 & p & Hr0 & _ & _ & Hcl).
  rewrite Hcl in *. simpl in *. assert (r0 = r) as -> by congruence.
  pose proof (Route_routed factory cfg t Ht rand req) as Hrouted.
  destruct (Route rand t req) as [res|]; [|by destruct (Hrouted _ _ _ Hcand)].
  destruct Hrouted as (b & i' & r' & c' & Hb & Hcf & ->). exists (set_hostname (bucket_label b) (answer rand req c')), b, i', r'.
  split_and!; [done|apply Hcf|done|done|].
  destruct (proj2 Hb _ _ _ Hcand) as [?|[<- Hp]]; [by right|left]. split; [done|].
  unfold beats in Hbeat. simpl in Hbeat. split; [|lia]. intros ->.
  destruct Hb as [(Hi & _) _]. assert (r' = r) as -> by congruence.
  destruct (Z.eqb_spec (computePriority r) (computePriority rw)) as [He|He]; simpl in Hbeat; breflect; lia.
Qed.

(** ** Examples *)

Definition stable_func : SortFunc.
Proof.
  refine {| sort_func A less := stable_sort less |}.
  - intros A less l. apply stable_sort_perm.
  - intros A less Hless l. by apply stable_sort_sorted.
Defined.

Definition tenant_match (headers : list HeaderMatch) : RouteMatch := prefix_match "/" headers "GET".
Definition tenant_headers : list HeaderMatch :=
  [mkHeaderMatch "Exact" "X-Env" "prod"; mkHeaderMatch "Exact" "X-Tier" "1"].
Definition tenant_headers' : list HeaderMatch :=
  [mkHeaderMatch "Exact" "x-tier" "1"; mkHeaderMatch "Exact" "x-env" "prod"].
Definition tenant_route (ns : string) (created : Z) : RuleProvenance :=
  mkRuleProvenance kindHTTPRoute ns "web" created 0.
Definition tenants : Config :=
  mkConfig 1 [ routed_to ["shop.example.com"] [tenant_match tenant_headers] "http://a:80";
               routed_to ["Shop.example.com"] [tenant_match tenant_headers'] "http://b:80" ]
    false [] [tenant_route "team-a" 10; tenant_route "team-b" 20].
Definition tenant_table : routingTable :=
  match @compileRoutingTable literal_regexp host_url stable_order tenants true with
  | Some (Ok t) => t
  | _ => mkRoutingTable ∅ [] [] 0
  end.
Definition tenant_claimant (i : nat) (p : RuleProvenance) : shadowClaimant :=
  mkShadowClaimant p (computePriority (routed_to [] [tenant_match tenant_headers] "")) i.
Definition tenant_key : shadowKey :=
  mkShadowKey "shop.example.com" (@canonicalMatchKey stable_func (tenant_match tenant_headers)).
Definition tenant_loser : shadowClaim := mkShadowClaim tenant_key (tenant_claimant 1 (tenant_route "team-b" 20)).
Definition tenant_winner : shadowClaimant := tenant_claimant 0 (tenant_route "team-a" 10).
Definition tenant_request : Request :=
  plain_request "GET" "shop.example.com" "/cart" "" (header_Set (header_Set ∅ "X-Env" "prod") "X-Tier" "1").

Example tenants_report :
  (diag_Name <$> @DetectShadowedRules stable_func tenants, diag_Namespace <$> @DetectShadowedRules stable_func tenants)
  = (["web"], ["team-b"]).
Proof. vm_compute. reflexivity. Qed.

Lemma tenant_match_admitted hs :
  hs = tenant_headers \/ hs = tenant_headers' -> admitted_match (tenant_match hs).
Proof.
  intros Hhs. split; [split|..]; simpl.
  - by intros p [= <-].
  - intros h Hh. destruct Hhs as [-> | ->]; repeat (apply elem_of_cons in Hh as [->|Hh]; [by vm_compute|]);
      by apply elem_of_nil in Hh.
  - by intros q ?%elem_of_nil.
  - done.
  - intros h Hh. destruct Hhs as [-> | ->]; repeat (apply elem_of_cons in Hh as [->|Hh]; [by vm_compute|]);
      by apply elem_of_nil in Hh.
  - by intros q ?%elem_of_nil.
Qed.
Lemma tenants_admitted : admitted_config tenants.
Proof.
  intros r Hr. repeat (apply elem_of_cons in Hr as [->|Hr]); [..|by apply elem_of_nil in Hr];
    (split; [by intros h ->%list_elem_of_singleton|]); intros m ->%list_elem_of_singleton;
    apply tenant_match_admitted; auto.
Qed.
Lemma tenants_shadowed : @shadowed stable_func tenants tenant_loser tenant_winner.
Proof.
  assert (Hk : forall c, @claims stable_func tenants c ->
    cl_claimant c = tenant_winner \/ cl_claimant c = cl_claimant tenant_loser).
  { intros c ([|[|i]] & r & p & Hr & Hp & _ & ->); [left|right|done]; injection Hr as <-; injection Hp as <-;
      vm_compute; reflexivity. }
  split_and!; [|split|done|done].
  - eexists 1, _, _. split_and!; [reflexivity..| |by vm_compute]. by apply (bool_decide_unpack _); vm_compute.
  - eexists 0, _, _. split_and!; [reflexivity..| |by vm_compute]. by apply (bool_decide_unpack _); vm_compute.
  - intros c [-> | ->]%Hk _; vm_compute; reflexivity.
Qed.

Lemma canonical_key_exact_witness :
  same_match (tenant_match tenant_headers) (tenant_match tenant_headers') /\
  @canonicalMatchKey stable_func (tenant_match tenant_headers) =
    @canonicalMatchKey stable_func (tenant_match tenant_headers').
Proof.
  assert (H : @canonicalMatchKey stable_func (tenant_match tenant_headers) =
    @canonicalMatchKey stable_func (tenant_match tenant_headers')) by (vm_compute; reflexivity).
  split; [|exact H].
  apply (proj1 (@canonical_key_exact literal_regexp stable_func _ _
    (tenant_match_admitted _ (or_introl eq_refl)) (tenant_match_admitted _ (or_intror eq_refl)))). exact H.
Defined.

Lemma shadowed_pair_never_served_witness :
  exists res b i r', Route (fun _ => 0%Z) tenant_table tenant_request = Some res /\
    rr_Rule res = r' /\ @best_candidate literal_regexp tenants tenant_request b i r' /\
    (b = ExactHost "shop.example.com" -> i <> 1).
Proof.
  destruct (@shadowed_pair_never_served literal_regexp host_url stable_order stable_func true tenants tenant_table
    (fun _ => 0%Z) tenant_request tenant_loser tenant_winner
    (routed_to ["Shop.example.com"] [tenant_match tenant_headers'] "http://b:80"))
    as (res & b & i & r' & H1 & H2 & _ & H3 & H4).
  - vm_compute. reflexivity.
  - exact tenants_admitted.
  - exact tenants_shadowed.
  - reflexivity.
  - split; [vm_compute; reflexivity|]. right. exists (tenant_match tenant_headers'). split; [by left|].
    split; [vm_compute; reflexivity|].
    assert (Hc : CompileMatch (engine := literal_regexp) (tenant_match tenant_headers') =
      Ok [prefixPathMatcher "/"; methodMatcher "GET"; exactHeaderMatcher "x-tier" "1"; exactHeaderMatcher "x-env" "prod"])
      by (vm_compute; reflexivity).
    apply (CompileMatch_sem _ _ tenant_request Hc). vm_compute. reflexivity.
  - exists res, b, i, r'. split_and!; [exact H1|exact H2|exact H3|].
    intros Hb. destruct H4 as [(_ & Hi & _)|H4]; [exact Hi|].
    rewrite Hb in H4. destruct H4.
Defined.
