(* ===== verification/RouterState.v ===== *)
(** * The router's state machine ([internal/proxy/router.go], [startup_protocol.go])

    [UpdateConfig] and the other operations on [Router], the transport keys of
    [handler.go] that pruning compares, and the startup protocol decision.
    [UpdateConfig] runs under [updateMu], so it is one atomic step here; the
    remaining fields are atomics with single-store operations. *)
From Stdlib Require Import Ascii.
From stdpp Require Import sorting.
From stdpp Require Import base sets gmap strings list.
From S2P Require Import Prelude GoStrings GoHttp ProxyConfig Matcher Cors Filters Router RouterSpec.

(** ** Durations and transport keys *)

(** [time.Duration.String]. *)
Fixpoint strip_zeros (digits : list ascii) : list ascii :=
  match digits with
  | d :: ds => if bool_decide (d = "0"%char) then strip_zeros ds else digits
  | [] => []
  end.
Fixpoint frac_digits (prec : nat) (v : Z) : list ascii :=
  match prec with
  | 0 => []
  | S prec' => ascii_of_N (48 + Z.to_N (v mod 10)) :: frac_digits prec' (v / 10)
  end.
(** [fmtFrac]: the [prec] low digits without trailing zeros, with the point. *)
Definition fmtFrac (v : Z) (prec : nat) : string :=
  match strip_zeros (frac_digits prec v) with
  | [] => ""
  | ds => "." +:+ Stdlib.Strings.String.string_of_list_ascii (rev ds)
  end.
Definition format_small (u : Z) (prec : nat) (suffix : string) : string :=
  Itoa (u / 10 ^ Z.of_nat prec) +:+ fmtFrac u prec +:+ suffix.
Definition micro : string := String "194" (String "181" "s").
Definition duration_String (d : Z) : string :=
  let u := Z.abs d in
  let body :=
    if (u =? 0)%Z then "0s"
    else if (u <? 1000)%Z then format_small u 0 "ns"
    else if (u <? 1000000)%Z then format_small u 3 micro
    else if (u <? 1000000000)%Z then format_small u 6 "ms"
    else
      let s := (u / 1000000000)%Z in
      let m := (s / 60)%Z in
      let h := (m / 60)%Z in
      (if (0 <? h)%Z then Itoa h +:+ "h" else "") +:+
      (if (0 <? m)%Z then Itoa (m mod 60) +:+ "m" else "") +:+
      Itoa (s mod 60) +:+ fmtFrac u 9 +:+ "s" in
  if (d <? 0)%Z then "-" +:+ body else body.

(** [crypto/sha256]: the 32-byte digest of a byte string. *)
Class Sha256 := sha256_Sum : string -> string.

Definition hex_lower (n : N) : ascii :=
  if (n <? 10)%N then ascii_of_N (byte_val "0" + n) else ascii_of_N (byte_val "a" + n - 10).
Fixpoint hex_EncodeToString (s : string) : string :=
  match s with
  | EmptyString => EmptyString
  | String c s' =>
      String (hex_lower (byte_val c / 16)) (String (hex_lower (byte_val c mod 16)) (hex_EncodeToString s'))
  end.

Definition ruleHeaderTimeout (timeouts : option RouteTimeouts) : Z :=
  match timeouts with
  | None => 0
  | Some t =>
      if (0 <? to_Request t)%Z && (0 <? to_Backend t)%Z then Z.min (to_Request t) (to_Backend t)
      else if (0 <? to_Request t)%Z then to_Request t
      else if (0 <? to_Backend t)%Z then to_Backend t
      else 0
  end.

Definition nul : string := String "000" "".
Fixpoint with_separators (sans : list string) : string :=
  match sans with
  | [] => ""
  | san :: sans' => san +:+ nul +:+ with_separators sans'
  end.

Section keys.
Context {hash : Sha256} {parser : UrlParser} {engine : Regexp}.

Definition tlsFingerprint (tls : option BackendTLSConfig) : string :=
  match tls with
  | None => ""
  | Some t =>
      hex_EncodeToString (str_take 8 (sha256_Sum (
        tls_CABundlePEM t +:+ nul +:+ tls_ServerName t +:+ nul +:+
        with_separators (tls_SubjectAltNames t) +:+ "|uri|" +:+
        with_separators (tls_SubjectAltNameURIs t) +:+ "|client|" +:+
        tls_ClientCertPEM t +:+ nul +:+ tls_ClientKeyPEM t)))
  end.
Definition transportKey (host protocol : string) (tls : option BackendTLSConfig) (headerTimeout : Z)
    : string :=
  host +:+ "|" +:+ protocol +:+ "|" +:+ tlsFingerprint tls +:+ "|" +:+ duration_String headerTimeout.

Definition mirror_key (f : RouteFilter) : list string :=
  if negb (bool_decide (filter_Type f = FilterRequestMirror)) then []
  else match filter_RequestMirror f with
       | None => []
       | Some m =>
           match url_Parse (mirror_BackendURL m) with
           | None => []
           | Some parsed => [transportKey (url_Host parsed) (mirror_Protocol m) (mirror_TLS m) 0]
           end
       end.
Definition collectMirrorTransportKeys (keys : gset string) (filters : list RouteFilter) : gset string :=
  foldl (fun ks f => ks ∪ list_to_set (mirror_key f)) keys filters.

Definition collect_backend (headerTimeout : Z) (keys : gset string) (backend : BackendRef) : gset string :=
  match url_Parse (be_URL backend) with
  | None => keys
  | Some parsed =>
      collectMirrorTransportKeys
        (keys ∪ {[transportKey (url_Host parsed) (be_Protocol backend) (be_TLS backend) headerTimeout]})
        (be_Filters backend)
  end.
Definition collect_rule (keys : gset string) (rule : RouteRule) : gset string :=
  collectMirrorTransportKeys
    (foldl (collect_backend (ruleHeaderTimeout (rule_Timeouts rule))) keys (rule_Backends rule))
    (rule_Filters rule).
Definition extractActiveTransportKeys (cfg : Config) : gset string :=
  foldl collect_rule ∅ (cfg_Rules cfg).

(** The transport a compiled filter borrows from the pool ([getTransport]
    through [NewRequestMirror]). *)
Definition dialed_key (f : Filter) : list string :=
  match f with
  | requestMirror _ _ (pooledMirrorClient host protocol tls) => [transportKey host protocol tls 0]
  | _ => []
  end.
(** Keys borrowed while filters compile, up to the first failure. *)
Fixpoint filters_dials (fs : list RouteFilter) : list string * bool :=
  match fs with
  | [] => ([], true)
  | f :: fs' =>
      match compileFilter true f with
      | Some (Ok c) => let '(ks, ok) := filters_dials fs' in (dialed_key c ++ ks, ok)
      | _ => ([], false)
      end
  end.
Fixpoint walk_dials {A} (f : A -> list string * bool) (l : list A) : list string * bool :=
  match l with
  | [] => ([], true)
  | x :: l' =>
      let '(ks, ok) := f x in
      if ok then let '(ks', ok') := walk_dials f l' in (ks ++ ks', ok') else (ks, false)
  end.
Definition rule_dials (r : RouteRule) : list string * bool :=
  if is_ok (mapi_res (fun i m => map_err (CompileAt "match" i) (CompileMatch m)) (rule_Matches r)) then
    let '(ks, ok) := filters_dials (rule_Filters r) in
    if ok then
      let '(ks', ok') := walk_dials (fun b => filters_dials (be_Filters b)) (rule_Backends r) in
      (ks ++ ks', ok')
    else (ks, false)
  else ([], false).
Definition compile_dials (cfg : Config) : gset string :=
  list_to_set (walk_dials rule_dials (cfg_Rules cfg)).1.
End keys.

(** ** The startup protocol *)

Definition protocolHTTP2 : string := "http2".
Definition protocolQUIC : string := "quic".
Definition protocolAuto : string := "auto".

(** What the [select] of [ResolveStartupProtocol] saw first. *)
Inductive StartupEvent :=
| firstConfig (cfg : option Config)
| waitExpired
| ctxDone
| drained.

Definition ResolveStartupProtocol (configured : string) (event : StartupEvent) : string :=
  let c := ToLower (TrimSpace configured) in
  if bool_decide (c = protocolHTTP2) then protocolHTTP2
  else if bool_decide (c = protocolQUIC) then protocolQUIC
  else match event with
       | firstConfig (Some cfg) => if cfg_HasGRPCRoute cfg then protocolHTTP2 else protocolAuto
       | firstConfig None | waitExpired | ctxDone | drained => protocolAuto
       end.

Definition GRPCRestartNeeded (dialedProtocol : string) (hasGRPCRoute : bool) : bool :=
  if negb hasGRPCRoute then false
  else
    let dialed := ToLower (TrimSpace dialedProtocol) in
    negb (bool_decide (dialed = "")) && negb (bool_decide (dialed = protocolHTTP2)).

(** ** TLS mirrors *)

Definition rulesHaveTLSMirror (filters : list RouteFilter) : bool :=
  existsb (fun f =>
    bool_decide (filter_Type f = FilterRequestMirror) &&
    match filter_RequestMirror f with
    | Some m => match mirror_TLS m with Some _ => true | None => false end
    | None => false
    end) filters.
Definition configHasTLSMirror (cfg : Config) : bool :=
  existsb (fun r => rulesHaveTLSMirror (rule_Filters r) ||
                    existsb (fun b => rulesHaveTLSMirror (be_Filters b)) (rule_Backends r)) (cfg_Rules cfg).

(** ** The router *)

(** [rs_handler] is the registered handler's transport pool, [None] before
    [SetHandler]; the pruner and the transport factory are set together.
    [rs_firstConfigCh] is the buffered channel, [rs_firstConfigOnce] whether
    the [sync.Once] has fired, [rs_warnings] the restart errors logged. *)
Record RouterState := mkRouterState {
  rs_table : routingTable;
  rs_handler : option (gset string);
  rs_firstConfigCh : list Config;
  rs_firstConfigOnce : bool;
  rs_dialedProtocol : option string;
  rs_grpcRestartWarned : bool;
  rs_warnings : nat;
  rs_tunnelConnected : bool;
}.

Definition NewRouter : RouterState :=
  mkRouterState (mkRoutingTable ∅ [] [] 0) None [] false None false 0 false.
Definition ConfigVersion (st : RouterState) : Z := rt_version (rs_table st).
Definition IsReady (st : RouterState) : bool := (0 <? ConfigVersion st)%Z && rs_tunnelConnected st.

Definition SetHandler (pool : gset string) (st : RouterState) : RouterState :=
  mkRouterState (rs_table st) (Some pool) (rs_firstConfigCh st) (rs_firstConfigOnce st)
    (rs_dialedProtocol st) (rs_grpcRestartWarned st) (rs_warnings st) (rs_tunnelConnected st).
Definition SetDialedProtocol (p : string) (st : RouterState) : RouterState :=
  mkRouterState (rs_table st) (rs_handler st) (rs_firstConfigCh st) (rs_firstConfigOnce st)
    (Some p) (rs_grpcRestartWarned st) (rs_warnings st) (rs_tunnelConnected st).
Definition SetTunnelConnected (st : RouterState) : RouterState :=
  mkRouterState (rs_table st) (rs_handler st) (rs_firstConfigCh st) (rs_firstConfigOnce st)
    (rs_dialedProtocol st) (rs_grpcRestartWarned st) (rs_warnings st) true.
(** A receive on [FirstConfigLoaded()], [None] while it would block. *)
Definition receiveFirstConfig (st : RouterState) : option (Config * RouterState) :=
  match rs_firstConfigCh st with
  | [] => None
  | c :: ch =>
      Some (c, mkRouterState (rs_table st) (rs_handler st) ch (rs_firstConfigOnce st)
        (rs_dialedProtocol st) (rs_grpcRestartWarned st) (rs_warnings st) (rs_tunnelConnected st))
  end.
(** [getTransport] by the request path: the key is in the pool afterwards. *)
Definition getTransport (key : string) (st : RouterState) : RouterState :=
  mkRouterState (rs_table st) ((fun pool => pool ∪ {[key]}) <$> rs_handler st) (rs_firstConfigCh st)
    (rs_firstConfigOnce st) (rs_dialedProtocol st) (rs_grpcRestartWarned st) (rs_warnings st)
    (rs_tunnelConnected st).

Definition PruneTransports (activeKeys pool : gset string) : gset string := pool ∩ activeKeys.

Definition signalFirstConfig (cfg : Config) (st : RouterState) : RouterState :=
  if rs_firstConfigOnce st then st
  else mkRouterState (rs_table st) (rs_handler st) (rs_firstConfigCh st ++ [cfg]) true
         (rs_dialedProtocol st) (rs_grpcRestartWarned st) (rs_warnings st) (rs_tunnelConnected st).
Definition warnGRPCRestartIfNeeded (cfg : Config) (st : RouterState) : RouterState :=
  match rs_dialedProtocol st with
  | None => st
  | Some dialed =>
      if negb (GRPCRestartNeeded dialed (cfg_HasGRPCRoute cfg)) then st
      else if rs_grpcRestartWarned st then st
      else mkRouterState (rs_table st) (rs_handler st) (rs_firstConfigCh st) (rs_firstConfigOnce st)
             (rs_dialedProtocol st) true (S (rs_warnings st)) (rs_tunnelConnected st)
  end.

Inductive UpdateOutcome :=
| Applied
| errStaleVersion
| errTLSMirrorWithoutTransportFactory
| errCompile (e : CompileError)
| panicked.

Section update.
Context {hash : Sha256} {parser : UrlParser} {engine : Regexp} {order : WildcardOrder}.

Definition with_pool (f : gset string -> gset string) (st : RouterState) : RouterState :=
  mkRouterState (rs_table st) (f <$> rs_handler st) (rs_firstConfigCh st) (rs_firstConfigOnce st)
    (rs_dialedProtocol st) (rs_grpcRestartWarned st) (rs_warnings st) (rs_tunnelConnected st).
Definition store_table (t : routingTable) (st : RouterState) : RouterState :=
  mkRouterState t (rs_handler st) (rs_firstConfigCh st) (rs_firstConfigOnce st)
    (rs_dialedProtocol st) (rs_grpcRestartWarned st) (rs_warnings st) (rs_tunnelConnected st).

Definition UpdateConfig (cfg : Config) (st : RouterState) : RouterState * UpdateOutcome :=
  if (0 <? cfg_Version cfg)%Z && (cfg_Version cfg <? ConfigVersion st)%Z then (st, errStaleVersion)
  else
    let factory := match rs_handler st with Some _ => true | None => false end in
    if negb factory && configHasTLSMirror cfg then (st, errTLSMirrorWithoutTransportFactory)
    else
      let st1 := with_pool (fun pool => pool ∪ compile_dials cfg) st in
      match compileRoutingTable cfg factory with
      | None => (st1, panicked)
      | Some (Err e) => (st1, errCompile e)
      | Some (Ok table) =>
          let st2 := with_pool (PruneTransports (extractActiveTransportKeys cfg)) (store_table table st1) in
          (warnGRPCRestartIfNeeded cfg (signalFirstConfig cfg st2), Applied)
      end.
End update.

Example durations :
  duration_String 0 = "0s" /\ duration_String 1500000000 = "1.5s" /\
  duration_String 3600000000000 = "1h0m0s" /\ duration_String 2500000 = "2.5ms" /\
  duration_String (-90000000000) = "-1m30s" /\ duration_String 7 = "7ns".
Proof. vm_compute. split_and!; reflexivity. Qed.

(** ** What an update does *)

Section update_facts.
Context {hash : Sha256} {parser : UrlParser} {engine : Regexp} {order : WildcardOrder}.

Lemma signal_fields cfg st :
  rs_table (signalFirstConfig cfg st) = rs_table st /\
  rs_handler (signalFirstConfig cfg st) = rs_handler st /\
  rs_firstConfigOnce (signalFirstConfig cfg st) = true /\
  rs_dialedProtocol (signalFirstConfig cfg st) = rs_dialedProtocol st /\
  rs_tunnelConnected (signalFirstConfig cfg st) = rs_tunnelConnected st.
Proof. unfold signalFirstConfig. by destruct (rs_firstConfigOnce st) eqn:?. Qed.
Lemma warn_fields cfg st :
  rs_table (warnGRPCRestartIfNeeded cfg st) = rs_table st /\
  rs_handler (warnGRPCRestartIfNeeded cfg st) = rs_handler st /\
  rs_firstConfigCh (warnGRPCRestartIfNeeded cfg st) = rs_firstConfigCh st /\
  rs_firstConfigOnce (warnGRPCRestartIfNeeded cfg st) = rs_firstConfigOnce st /\
  rs_dialedProtocol (warnGRPCRestartIfNeeded cfg st) = rs_dialedProtocol st /\
  rs_tunnelConnected (warnGRPCRestartIfNeeded cfg st) = rs_tunnelConnected st.
Proof. unfold warnGRPCRestartIfNeeded. by repeat case_match. Qed.

Lemma compiled_version cfg factory t :
  compileRoutingTable cfg factory = Some (Ok t) -> rt_version t = cfg_Version cfg.
Proof. unfold compileRoutingTable. by intros (B & _ & [= <-])%cbind_Ok. Qed.

Definition has_handler (st : RouterState) : bool :=
  match rs_handler st with Some _ => true | None => false end.

(** The configuration an applied update installs. *)
Lemma UpdateConfig_applied cfg st st' :
  UpdateConfig cfg st = (st', Applied) ->
  compileRoutingTable cfg (has_handler st) = Some (Ok (rs_table st')) /\
  ConfigVersion st' = cfg_Version cfg /\
  (cfg_Version cfg = 0 \/ ConfigVersion st <= cfg_Version cfg \/ cfg_Version cfg < 0)%Z /\
  (has_handler st = false -> configHasTLSMirror cfg = false) /\
  rs_handler st' = (fun pool => (pool ∪ compile_dials cfg) ∩ extractActiveTransportKeys cfg) <$> rs_handler st /\
  rs_firstConfigCh st' = rs_firstConfigCh st ++ (if rs_firstConfigOnce st then [] else [cfg]) /\
  rs_firstConfigOnce st' = true /\ rs_tunnelConnected st' = rs_tunnelConnected st /\
  rs_dialedProtocol st' = rs_dialedProtocol st.
Proof.
  unfold UpdateConfig. fold (has_handler st).
  destruct (_ && _) eqn:Hst; [done|]. destruct (negb (has_handler st) && _) eqn:Hg; [done|].
  destruct (compileRoutingTable cfg (has_handler st)) as [[t|e]|] eqn:Hc; [|done..].
  intros [= <-]. unfold ConfigVersion.
  destruct (warn_fields cfg (signalFirstConfig cfg (with_pool (PruneTransports
    (extractActiveTransportKeys cfg)) (store_table t (with_pool (fun p => p ∪ compile_dials cfg) st)))))
    as (-> & -> & -> & -> & -> & ->).
  destruct (signal_fields cfg (with_pool (PruneTransports
    (extractActiveTransportKeys cfg)) (store_table t (with_pool (fun p => p ∪ compile_dials cfg) st))))
    as (-> & -> & -> & -> & ->).
  simpl. rewrite (compiled_version _ _ _ Hc). split_and!; try done.
  - apply andb_false_iff in Hst as [?|?]; breflect; unfold ConfigVersion in *; lia.
  - intros Hh. rewrite Hh in Hg. done.
  - by destruct (rs_handler st).
  - unfold signalFirstConfig. simpl. destruct (rs_firstConfigOnce st); simpl; by rewrite ?app_nil_r.
Qed.

(** Any other outcome leaves everything but the transport pool alone. *)
Lemma UpdateConfig_rejected cfg st st' out :
  UpdateConfig cfg st = (st', out) -> out <> Applied ->
  st' = st \/ st' = with_pool (fun pool => pool ∪ compile_dials cfg) st.
Proof.
  unfold UpdateConfig. destruct (_ && _); [naive_solver|]. destruct (_ && _); [naive_solver|].
  destruct (compileRoutingTable _ _) as [[t|e]|]; naive_solver.
Qed.
End update_facts.

(** C3: A configuration update is all or nothing.  It is rejected as stale
    exactly when its version is positive and older than the current one, and by
    the wiring guard exactly when a TLS mirror has no transport factory; when it
    is applied the new table is the compiled one and carries its version; in
    every other case the table, the version and the first-config signal are
    untouched. *)
Theorem update_config_atomic {hash : Sha256} {parser : UrlParser} {engine : Regexp} {order : WildcardOrder}
    (cfg : Config) (st : RouterState) :
  let '(st', out) := UpdateConfig cfg st in
  (out = errStaleVersion <-> (0 < cfg_Version cfg < ConfigVersion st)%Z) /\
  (out = errTLSMirrorWithoutTransportFactory <->
     ~ (0 < cfg_Version cfg < ConfigVersion st)%Z /\ has_handler st = false /\ configHasTLSMirror cfg = true) /\
  match out with
  | Applied => compileRoutingTable cfg (has_handler st) = Some (Ok (rs_table st')) /\
               ConfigVersion st' = cfg_Version cfg
  | errCompile e => compileRoutingTable cfg (has_handler st) = Some (Err e)
  | panicked => compileRoutingTable cfg (has_handler st) = None
  | errStaleVersion | errTLSMirrorWithoutTransportFactory => st' = st
  end /\
  (out <> Applied -> rs_table st' = rs_table st /\ rs_firstConfigCh st' = rs_firstConfigCh st /\
     rs_firstConfigOnce st' = rs_firstConfigOnce st /\ IsReady st' = IsReady st).
Proof.
  destruct (UpdateConfig cfg st) as [st' out] eqn:Hu.
  assert (Hrej := UpdateConfig_rejected cfg st st' out Hu).
  assert (Happ : out = Applied -> compileRoutingTable cfg (has_handler st) = Some (Ok (rs_table st')) /\
                   ConfigVersion st' = cfg_Version cfg).
  { intros ->. by destruct (UpdateConfig_applied cfg st st' Hu) as (? & ? & _). }
  unfold UpdateConfig in Hu. fold (has_handler st) in Hu.
  destruct (_ && _) eqn:Hst in Hu.
  { breflect. simplify_eq. split_and!; try done; intuition (lia || congruence). }
  assert (~ (0 < cfg_Version cfg < ConfigVersion st)%Z).
  { apply andb_false_iff in Hst as [?|?]; breflect; lia. }
  destruct (negb _ && _) eqn:Hg in Hu.
  { breflect. simplify_eq. split_and!; try done; intuition (lia || congruence). }
  assert (~ (has_handler st = false /\ configHasTLSMirror cfg = true)).
  { intros [Hh Hm]. by rewrite Hh, Hm in Hg. }
  assert (Hsame : out <> Applied -> rs_table st' = rs_table st /\ rs_firstConfigCh st' = rs_firstConfigCh st /\
     rs_firstConfigOnce st' = rs_firstConfigOnce st /\ IsReady st' = IsReady st).
  { intros Ho. by destruct (Hrej Ho) as [->| ->]. }
  split_and!; [..|done].
  - destruct (compileRoutingTable _ _) as [[?|?]|]; simplify_eq; intuition (lia || congruence).
  - destruct (compileRoutingTable _ _) as [[?|?]|]; simplify_eq; intuition (lia || congruence).
  - destruct (compileRoutingTable _ _) as [[?|?]|] eqn:Hc; simplify_eq; try done.
    by apply Happ.
Qed.

(** ** Runs of the router *)

(** A run records the configurations applied and those received from the
    first-config channel, oldest first. *)
Record Run := mkRun { run_state : RouterState; run_applied : list Config; run_received : list Config }.

Section runs.
Context {hash : Sha256} {parser : UrlParser} {engine : Regexp} {order : WildcardOrder}.

Inductive step : Run -> Run -> Prop :=
| step_applied st st' cfg ap rc :
    UpdateConfig cfg st = (st', Applied) -> step (mkRun st ap rc) (mkRun st' (ap ++ [cfg]) rc)
| step_rejected st st' cfg out ap rc :
    UpdateConfig cfg st = (st', out) -> out <> Applied -> step (mkRun st ap rc) (mkRun st' ap rc)
| step_receive st st' cfg ap rc :
    receiveFirstConfig st = Some (cfg, st') -> step (mkRun st ap rc) (mkRun st' ap (rc ++ [cfg]))
| step_dialed st p ap rc : step (mkRun st ap rc) (mkRun (SetDialedProtocol p st) ap rc)
| step_connected st ap rc : step (mkRun st ap rc) (mkRun (SetTunnelConnected st) ap rc)
| step_handler st pool ap rc : step (mkRun st ap rc) (mkRun (SetHandler pool st) ap rc)
| step_request st key ap rc : step (mkRun st ap rc) (mkRun (getTransport key st) ap rc).

Definition reachable (r : Run) : Prop := rtc step (mkRun NewRouter [] []) r.

(** The invariant: what was received and what waits in the channel is the
    first applied configuration; the version is the last applied one's; the
    restart error was logged at most once. *)
Definition run_inv (r : Run) : Prop :=
  let st := run_state r in
  run_received r ++ rs_firstConfigCh st = take 1 (run_applied r) /\
  (rs_firstConfigOnce st = true <-> run_applied r <> []) /\
  ConfigVersion st = from_option cfg_Version 0%Z (last (run_applied r)) /\
  rs_warnings st = (if rs_grpcRestartWarned st then 1 else 0).

Lemma warn_once cfg st :
  rs_warnings st = (if rs_grpcRestartWarned st then 1 else 0) ->
  rs_warnings (warnGRPCRestartIfNeeded cfg st) =
    (if rs_grpcRestartWarned (warnGRPCRestartIfNeeded cfg st) then 1 else 0).
Proof.
  unfold warnGRPCRestartIfNeeded. intros H. destruct (rs_dialedProtocol st); [|done].
  destruct (negb _); [done|]. by destruct (rs_grpcRestartWarned st) eqn:Hw; simpl; rewrite ?Hw, ?H.
Qed.
Lemma UpdateConfig_warnings cfg st st' :
  UpdateConfig cfg st = (st', Applied) -> rs_warnings st = (if rs_grpcRestartWarned st then 1 else 0) ->
  rs_warnings st' = (if rs_grpcRestartWarned st' then 1 else 0).
Proof.
  unfold UpdateConfig. destruct (_ && _); [done|]. destruct (_ && _); [done|].
  destruct (compileRoutingTable _ _) as [[t|e]|]; [|done..]. intros [= <-] H.
  apply warn_once. unfold signalFirstConfig. by destruct (rs_firstConfigOnce _).
Qed.

Lemma step_inv r r' : step r r' -> run_inv r -> run_inv r'.
Proof.
  unfold run_inv. destruct 1 as [st st' cfg ap rc Hu|st st' cfg out ap rc Hu Ho|st st' cfg ap rc Hr| | | |];
    simpl; intros (Hch & Honce & Hv & Hw); try done.
  - destruct (UpdateConfig_applied _ _ _ Hu) as (_ & -> & _ & _ & _ & -> & -> & _).
    rewrite last_snoc. split_and!; [| |done|by eapply UpdateConfig_warnings].
    + rewrite app_assoc, Hch. destruct ap as [|c ap], (rs_firstConfigOnce st); simpl; try done.
      * by destruct (proj1 Honce eq_refl).
      * by discriminate (proj2 Honce).
    + split; [|done]. by destruct ap.
  - by destruct (UpdateConfig_rejected _ _ _ _ Hu Ho) as [->| ->].
  - unfold receiveFirstConfig in Hr. destruct (rs_firstConfigCh st) as [|c ch]; simplify_eq/=.
    rewrite <-app_assoc. done.
Qed.
Lemma reachable_inv r : reachable r -> run_inv r.
Proof.
  unfold reachable. intros H.
  assert (H0 : run_inv (mkRun NewRouter [] [])) by (unfold run_inv; simpl; done).
  revert H0. induction H; eauto using step_inv.
Qed.
End runs.

(** C12: In every interleaving of updates, receives, requests and wiring calls
    on a new router, the first-config channel delivers exactly the first
    configuration that was applied, at most once and never again; the version is
    the one of the configuration applied last; and the gRPC restart error is
    logged at most once. *)
Theorem first_config_delivered_once {hash : Sha256} {parser : UrlParser} {engine : Regexp}
    {order : WildcardOrder} (r : Run) :
  reachable r ->
  run_received r ++ rs_firstConfigCh (run_state r) = take 1 (run_applied r) /\
  ConfigVersion (run_state r) = from_option cfg_Version 0%Z (last (run_applied r)) /\
  rs_warnings (run_state r) <= 1.
Proof.
  intros (H1 & _ & H2 & H3)%reachable_inv. split_and!; try done. rewrite H3. by destruct (rs_grpcRestartWarned _); lia.
Qed.

(** A run for the examples: wire a handler, apply a configuration, receive it. *)
Definition no_hash : Sha256 := fun _ => "".
Definition example_update (cfg : Config) (st : RouterState) : RouterState * UpdateOutcome :=
  @UpdateConfig no_hash host_url literal_regexp stable_order cfg st.
Definition wired_router : RouterState := SetTunnelConnected (SetHandler ∅ NewRouter).
Definition configured_router : RouterState := (example_update example_config wired_router).1.
Definition drained_router : RouterState :=
  default configured_router (snd <$> receiveFirstConfig configured_router).
Lemma first_config_delivered_once_witness :
  run_received (mkRun drained_router [example_config] [example_config]) ++ rs_firstConfigCh drained_router
    = [example_config] /\ ConfigVersion drained_router = 7%Z.
Proof.
  destruct (@first_config_delivered_once no_hash host_url literal_regexp stable_order
    (mkRun drained_router [example_config] [example_config])) as (H1 & H2 & _).
  - apply (rtc_l _ _ (mkRun (SetHandler ∅ NewRouter) [] [])); [apply step_handler|].
    apply (rtc_l _ _ (mkRun wired_router [] [])); [apply step_connected|].
    apply (rtc_l _ _ (mkRun configured_router [example_config] [])).
    { apply (step_applied _ _ example_config [] []). vm_compute. reflexivity. }
    apply rtc_once. apply (step_receive _ _ example_config [example_config] []). vm_compute. reflexivity.
  - split; [exact H1|exact H2].
Defined.

(** ** Transport keys *)

Section key_facts.
Context {hash : Sha256} {parser : UrlParser} {engine : Regexp}.

Lemma collectMirror_elem keys fs k :
  k ∈ collectMirrorTransportKeys keys fs <-> k ∈ keys \/ exists f, f ∈ fs /\ k ∈ mirror_key f.
Proof.
  unfold collectMirrorTransportKeys. revert keys. induction fs as [|f fs IH]; intros keys; simpl.
  { split; [auto|]. by intros [?|(? & ?%elem_of_nil & _)]. }
  rewrite IH, elem_of_union, elem_of_list_to_set. setoid_rewrite elem_of_cons. naive_solver.
Qed.

(** The keys of a backend of a rule with header timeout [t]. *)
Definition backend_key (t : Z) (b : BackendRef) (k : string) : Prop :=
  exists parsed, url_Parse (be_URL b) = Some parsed /\
    (k = transportKey (url_Host parsed) (be_Protocol b) (be_TLS b) t \/
     exists f, f ∈ be_Filters b /\ k ∈ mirror_key f).
Lemma collect_backends_elem t keys bs k :
  k ∈ foldl (collect_backend t) keys bs <-> k ∈ keys \/ exists b, b ∈ bs /\ backend_key t b k.
Proof.
  revert keys. induction bs as [|b bs IH]; intros keys; simpl.
  { split; [auto|]. by intros [?|(? & ?%elem_of_nil & _)]. }
  assert (Hb : k ∈ collect_backend t keys b <-> k ∈ keys \/ backend_key t b k).
  { unfold collect_backend, backend_key. destruct (url_Parse (be_URL b)) as [u|].
    - rewrite collectMirror_elem, elem_of_union, elem_of_singleton. naive_solver.
    - naive_solver. }
  rewrite IH, Hb. setoid_rewrite elem_of_cons. naive_solver.
Qed.
Definition rule_key (r : RouteRule) (k : string) : Prop :=
  (exists b, b ∈ rule_Backends r /\ backend_key (ruleHeaderTimeout (rule_Timeouts r)) b k) \/
  (exists f, f ∈ rule_Filters r /\ k ∈ mirror_key f).
Lemma extractActive_elem cfg k :
  k ∈ extractActiveTransportKeys cfg <-> exists r, r ∈ cfg_Rules cfg /\ rule_key r k.
Proof.
  unfold extractActiveTransportKeys.
  enough (forall keys, k ∈ foldl collect_rule keys (cfg_Rules cfg) <->
    k ∈ keys \/ exists r, r ∈ cfg_Rules cfg /\ rule_key r k) as ->.
  { split; [by intros [?%elem_of_empty|?]|by right]. }
  induction (cfg_Rules cfg) as [|r rs IH]; intros keys; simpl.
  { split; [auto|]. by intros [?|(? & ?%elem_of_nil & _)]. }
  assert (Hr : k ∈ collect_rule keys r <-> k ∈ keys \/ rule_key r k).
  { unfold collect_rule, rule_key. rewrite collectMirror_elem, collect_backends_elem. tauto. }
  rewrite IH, Hr. setoid_rewrite elem_of_cons. clear. naive_solver.
Qed.

(** A transport borrowed at compile time belongs to a mirror filter. *)
Lemma dialed_mirror f c k : compileFilter true f = Some (Ok c) -> k ∈ dialed_key c -> k ∈ mirror_key f.
Proof.
  unfold compileFilter, mirror_key. repeat case_bool_decide; simpl; try (intros; simplify_eq/=; set_solver).
  - destruct (filter_RequestMirror f) as [m|]; simpl; [|done]. intros [= <-]. simpl.
    unfold newMirrorClient. destruct (url_Parse (mirror_BackendURL m)) as [u|]; [|set_solver].
    case_bool_decide; set_solver.
Qed.
Lemma filters_dials_mirror fs k :
  k ∈ (filters_dials fs).1 -> exists f, f ∈ fs /\ k ∈ mirror_key f.
Proof.
  induction fs as [|f fs IH]; simpl; [set_solver|].
  destruct (compileFilter true f) as [[c|e]|] eqn:Hc; [|set_solver..].
  destruct (filters_dials fs) as [ks ok]. simpl. rewrite elem_of_app.
  intros [Hk|Hk]; [exists f; split; [by left|by eapply dialed_mirror]|].
  destruct (IH Hk) as (g & ? & ?). exists g. split; [by right|done].
Qed.
Lemma walk_dials_elem {A} (f : A -> list string * bool) l k :
  k ∈ (walk_dials f l).1 -> exists x, x ∈ l /\ k ∈ (f x).1.
Proof.
  induction l as [|x l IH]; simpl; [set_solver|].
  destruct (f x) as [ks ok] eqn:Hx. destruct ok; simpl.
  - destruct (walk_dials f l) as [ks' ok']. simpl in *. rewrite elem_of_app. intros [Hk|Hk].
    + exists x. rewrite Hx. split; [by left|done].
    + destruct (IH Hk) as (y & ? & ?). exists y. split; [by right|done].
  - intros Hk. exists x. rewrite Hx. split; [by left|done].
Qed.
Lemma compile_dials_active cfg :
  (forall r b, r ∈ cfg_Rules cfg -> b ∈ rule_Backends r -> is_Some (url_Parse (be_URL b))) ->
  compile_dials cfg ⊆ extractActiveTransportKeys cfg.
Proof.
  intros Hurl k. unfold compile_dials. rewrite elem_of_list_to_set, extractActive_elem.
  intros (r & Hr & Hk)%walk_dials_elem. exists r. split; [done|]. unfold rule_dials in Hk.
  destruct (is_ok _); [|set_solver].
  destruct (filters_dials (rule_Filters r)) as [ks ok] eqn:Hf.
  pose proof (filters_dials_mirror (rule_Filters r) k) as Hfs. rewrite Hf in Hfs. simpl in Hfs.
  destruct ok; [|right; by apply Hfs].
  pose proof (walk_dials_elem (fun b => filters_dials (be_Filters b)) (rule_Backends r) k) as Hbs.
  destruct (walk_dials _ _) as [ks' ok']. simpl in *. apply elem_of_app in Hk as [Hk|Hk].
  - right. by apply Hfs.
  - left. destruct (Hbs Hk) as (b & Hb & (f & ? & ?)%filters_dials_mirror). exists b. split; [done|].
    destruct (Hurl r b Hr Hb) as [u Hu]. exists u. split; [done|]. right. by exists f.
Qed.
End key_facts.

(** Pruning after an update keeps exactly the transports the new
    configuration uses.  The pool afterwards holds the pooled or freshly
    borrowed keys that some rule, backend or mirror of the configuration dials,
    with that rule's header timeout; and when the backend URLs parse, no
    transport a mirror filter borrowed during this very update is evicted. *)
Theorem prune_keeps_active_transports {hash : Sha256} {parser : UrlParser} {engine : Regexp}
    {order : WildcardOrder} (cfg : Config) (st st' : RouterState) (pool : gset string) :
  UpdateConfig cfg st = (st', Applied) -> rs_handler st = Some pool ->
  exists pool', rs_handler st' = Some pool' /\
    (forall k, k ∈ pool' <-> (k ∈ pool \/ k ∈ compile_dials cfg) /\
       exists r, r ∈ cfg_Rules cfg /\ rule_key r k) /\
    ((forall r b, r ∈ cfg_Rules cfg -> b ∈ rule_Backends r -> is_Some (url_Parse (be_URL b))) ->
     compile_dials cfg ⊆ pool').
Proof.
  intros Hu Hp. destruct (UpdateConfig_applied _ _ _ Hu) as (_ & _ & _ & _ & Hh & _). rewrite Hp in Hh.
  eexists. split; [exact Hh|]. split.
  - intros k. rewrite elem_of_intersection, elem_of_union, extractActive_elem. done.
  - intros Hurl k Hk. apply elem_of_intersection. split; [set_solver|]. by apply (compile_dials_active cfg Hurl).
Qed.

Definition mirror_to (url : string) : RouteFilter :=
  mkRouteFilter FilterRequestMirror None None None None
    (Some (mkMirrorConfig url None (Some (mkBackendTLSConfig "ca" "shadow" [] [] "" "")) "")) None.
Definition mirror_config : Config :=
  mkConfig 8 [mkRouteRule [] [] [mirror_to "http://shadow:8443"] [weighted "http://app:80" 1]
                (Some (mkRouteTimeouts 5000000000 0)) 0] false [] [].
Definition pooled_router : RouterState := SetHandler {["app:80|||5s"; "gone:80|||0s"]} NewRouter.
(** The mirror's transport joins, the stale one leaves, the backend's stays. *)
Lemma prune_keeps_active_transports_witness :
  rs_handler (example_update mirror_config pooled_router).1 = Some {["app:80|||5s"; "shadow:8443|||0s"]} /\
  (@compile_dials no_hash host_url literal_regexp mirror_config) ⊆ {["app:80|||5s"; "shadow:8443|||0s"]}.
Proof.
  destruct (@prune_keeps_active_transports no_hash host_url literal_regexp stable_order mirror_config
    pooled_router (example_update mirror_config pooled_router).1 {["app:80|||5s"; "gone:80|||0s"]}
    ltac:(vm_compute; reflexivity) eq_refl) as (pool' & Hp & _ & Hsub).
  assert (Hv : rs_handler (example_update mirror_config pooled_router).1
               = Some {["app:80|||5s"; "shadow:8443|||0s"]}) by (vm_compute; reflexivity).
  split; [exact Hv|]. rewrite Hv in Hp. injection Hp as <-. apply Hsub.
  intros r b Hr%list_elem_of_singleton. subst. intros Hb%list_elem_of_singleton. subst.
  vm_compute. eexists. reflexivity.
Defined.

(** ** Versions and readiness *)

Section versions.
Context {hash : Sha256} {parser : UrlParser} {engine : Regexp} {order : WildcardOrder}.

Lemma step_applied_grows r r' : step r r' -> run_applied r `prefix_of` run_applied r'.
Proof. destruct 1; simpl; [by eexists|..]; done. Qed.
Lemma steps_applied_grow r r' : rtc step r r' -> run_applied r `prefix_of` run_applied r'.
Proof. induction 1 as [|r1 r2 r3 H12 _ IH]; [done|]. etrans; [by apply step_applied_grows|done]. Qed.

Definition versioned (r : Run) : Prop := forall cfg, cfg ∈ run_applied r -> (0 < cfg_Version cfg)%Z.
Lemma step_version r r' :
  step r r' -> versioned r' ->
  (ConfigVersion (run_state r) <= ConfigVersion (run_state r'))%Z /\
  (rs_tunnelConnected (run_state r) = true -> rs_tunnelConnected (run_state r') = true).
Proof.
  destruct 1 as [st st' cfg ap rc Hu|st st' cfg out ap rc Hu Ho|st st' cfg ap rc Hr| | | |];
    intros Hv; simpl; try done.
  - destruct (UpdateConfig_applied _ _ _ Hu) as (_ & -> & Hmono & _ & _ & _ & _ & -> & _).
    split; [|done]. specialize (Hv cfg). simpl in Hv. set_solver by lia.
  - by destruct (UpdateConfig_rejected _ _ _ _ Hu Ho) as [->| ->].
  - unfold receiveFirstConfig in Hr. destruct (rs_firstConfigCh st); simplify_eq. done.
Qed.
End versions.

(** As long as every applied configuration is versioned (the controller
    never issues version 0), the router's version never decreases, so a late
    push cannot roll it back, and a router that is ready stays ready. *)
Theorem readiness_is_stable {hash : Sha256} {parser : UrlParser} {engine : Regexp}
    {order : WildcardOrder} (r r' : Run) :
  rtc step r r' -> versioned r' ->
  (ConfigVersion (run_state r) <= ConfigVersion (run_state r'))%Z /\
  (IsReady (run_state r) = true -> IsReady (run_state r') = true).
Proof.
  intros Hs Hv. assert (H : (ConfigVersion (run_state r) <= ConfigVersion (run_state r'))%Z /\
    (rs_tunnelConnected (run_state r) = true -> rs_tunnelConnected (run_state r') = true)).
  { induction Hs as [|r1 r2 r3 H12 H23 IH]; [done|]. destruct (IH Hv) as [? ?].
    destruct (step_version r1 r2 H12); [|split; [lia|auto]].
    intros cfg Hc. apply Hv. by eapply elem_of_prefix, steps_applied_grow. }
  destruct H as [Hle Hc]. split; [done|]. unfold IsReady. intros Hr. breflect.
  rewrite Hc by done. destruct (Z.ltb_spec 0 (ConfigVersion (run_state r'))); [done|lia].
Qed.
Lemma readiness_is_stable_witness :
  IsReady configured_router = true /\
  IsReady (example_update mirror_config configured_router).1 = true.
Proof.
  split; [vm_compute; reflexivity|].
  refine (proj2 (@readiness_is_stable no_hash host_url literal_regexp stable_order
    (mkRun configured_router [] [])
    (mkRun (example_update mirror_config configured_router).1 [mirror_config] []) _ _) _).
  - apply rtc_once. apply (step_applied _ _ mirror_config [] []). vm_compute. reflexivity.
  - intros cfg Hc%list_elem_of_singleton. subst. reflexivity.
  - vm_compute. reflexivity.
Defined.

(** The startup decision and the later restart warning agree.  An operator
    pin wins without waiting; otherwise http2 is dialed exactly when the first
    configuration that arrives in time serves a GRPCRoute; and if the transport
    resolved from a configuration is recorded, the same configuration never
    asks for a restart unless the operator pinned quic. *)
Theorem startup_protocol_sound (configured : string) (event : StartupEvent) :
  let p := ResolveStartupProtocol configured event in
  p ∈ [protocolHTTP2; protocolQUIC; protocolAuto] /\
  (p = protocolHTTP2 <->
     ToLower (TrimSpace configured) = protocolHTTP2 \/
     (ToLower (TrimSpace configured) <> protocolQUIC /\
      exists cfg, event = firstConfig (Some cfg) /\ cfg_HasGRPCRoute cfg = true)) /\
  (p = protocolQUIC <-> ToLower (TrimSpace configured) = protocolQUIC) /\
  (forall cfg, event = firstConfig (Some cfg) -> GRPCRestartNeeded p (cfg_HasGRPCRoute cfg) = true ->
     ToLower (TrimSpace configured) = protocolQUIC).
Proof.
  unfold ResolveStartupProtocol. set (c := ToLower (TrimSpace configured)).
  unfold protocolHTTP2, protocolQUIC, protocolAuto.
  case_bool_decide as H1; [|case_bool_decide as H2]; rewrite ?H1, ?H2.
  - split_and!; [set_solver|intuition congruence|done|]. intros cfg _.
    unfold GRPCRestartNeeded. by destruct (cfg_HasGRPCRoute cfg).
  - split_and!; [set_solver|split; [done|intros [?|[? _]]; done]|done|done].
  - destruct event as [[cfg|]| | |]; [destruct (cfg_HasGRPCRoute cfg) eqn:Hg|..];
      (split_and!; [set_solver|..]).
    all: try (split; [done|intros [?|(_ & cfg' & He & Hg')]; [done|]; congruence]).
    all: try (split; done).
    all: try (intros cfg' [= <-]; rewrite Hg; vm_compute; done).
    all: try done.
    split; [|done]. intros _. right. split; [done|]. by exists cfg.
Qed.
