(* ===== verification/ConfigPush.v ===== *)
(** * Delivering configurations ([internal/proxy/api.go], [internal/proxy/pusher.go])

    The proxy's config API on top of [RouterState], and the controller's pusher
    talking to it, with its stale-version recovery.  The JSON codec is a
    parameter.  What other goroutines do between two interactions of a push is
    an arbitrary function on the world, and the network may lose a request or
    its answer. *)
From Stdlib Require Import Ascii.
From stdpp Require Import sorting.
From stdpp Require Import base sets gmap strings list.
From S2P Require Import Prelude GoStrings GoHttp ProxyConfig Matcher Cors Filters Router RouterSpec RouterState.

(** ** The config API *)

Definition maxConfigBodySize : Z := 1048576.

(** Decoding a request body read through [http.MaxBytesReader]. *)
Inductive DecodeResult :=
| Decoded (cfg : Config)
| MaxBytesError
| InvalidJSON.
Class JsonConfig := {
  config_Marshal : Config -> option string;
  config_Unmarshal : string -> option Config;
  config_Decode : Z -> string -> DecodeResult;
}.

Definition StatusOK : Z := 200.
Definition StatusBadRequest : Z := 400.
Definition StatusUnauthorized : Z := 401.
Definition StatusConflict : Z := 409.
Definition StatusRequestEntityTooLarge : Z := 413.
Definition StatusUnsupportedMediaType : Z := 415.
Definition StatusInternalServerError : Z := 500.
Definition StatusServiceUnavailable : Z := 503.

Definition bearerPrefix : string := "Bearer ".
Definition checkAuth (authToken : string) (req : Request) : bool :=
  let header := header_Get (req_Header req) "Authorization" in
  if String.length header <=? String.length bearerPrefix then false
  else if negb (EqualFold (str_take (String.length bearerPrefix) header) bearerPrefix) then false
  else bool_decide (str_drop (String.length bearerPrefix) header = authToken).

Definition body_data (b : Body) : string :=
  match b with nilBody | NoBody => "" | Reader data _ => data end.

Record ConfigStatus := mkConfigStatus { cs_Version : Z; cs_Ready : bool }.

Section api.
Context {hash : Sha256} {parser : UrlParser} {engine : Regexp} {order : WildcardOrder} {codec : JsonConfig}.
Context (authToken : string).

(** The status written, [None] when the handler panics before writing one. *)
Definition handlePutConfig (req : Request) (st : RouterState) : RouterState * option Z :=
  if negb (bool_decide (authToken = "")) && negb (checkAuth authToken req) then (st, Some StatusUnauthorized)
  else if negb (HasPrefix (header_Get (req_Header req) "Content-Type") "application/json") then
    (st, Some StatusUnsupportedMediaType)
  else
    match config_Decode maxConfigBodySize (body_data (req_Body req)) with
    | MaxBytesError => (st, Some StatusRequestEntityTooLarge)
    | InvalidJSON => (st, Some StatusBadRequest)
    | Decoded cfg =>
        match Validate cfg with
        | Err _ => (st, Some StatusBadRequest)
        | Ok _ =>
            let '(st', out) := UpdateConfig cfg st in
            (st', match out with
                  | Applied => Some StatusOK
                  | errStaleVersion => Some StatusConflict
                  | errTLSMirrorWithoutTransportFactory | errCompile _ => Some StatusInternalServerError
                  | panicked => None
                  end)
        end
    end.

Definition handleGetConfig (req : Request) (st : RouterState) : Z * option ConfigStatus :=
  if negb (bool_decide (authToken = "")) && negb (checkAuth authToken req) then (StatusUnauthorized, None)
  else (StatusOK, Some (mkConfigStatus (ConfigVersion st) (IsReady st))).

Definition handleHealthz (st : RouterState) : Z := StatusOK.
Definition handleReadyz (st : RouterState) : Z :=
  if (ConfigVersion st =? 0)%Z then StatusServiceUnavailable
  else if negb (rs_tunnelConnected st) then StatusServiceUnavailable
  else StatusOK.

(** The requests [NewConfigAPI] registers handlers for. *)
Inductive ApiRequest :=
| PutConfig (req : Request)
| GetConfig (req : Request)
| GetHealthz
| GetReadyz.
Definition serve (r : ApiRequest) (st : RouterState) : RouterState * option Z :=
  match r with
  | PutConfig req => handlePutConfig req st
  | GetConfig req => (st, Some (handleGetConfig req st).1)
  | GetHealthz => (st, Some (handleHealthz st))
  | GetReadyz => (st, Some (handleReadyz st))
  end.
End api.

(** ** The pusher *)

(** [bumpVersionCounter]: the CAS loop against goroutines that act on the
    counter between the load and the swap, one list element per attempt. *)
Fixpoint bumpVersionCounter (others : list (Z -> Z)) (proxyVersion counter : Z) : Z :=
  if (proxyVersion <? counter)%Z then counter
  else
    match others with
    | [] => int64 (proxyVersion + 1)
    | f :: others' =>
        let seen := f counter in
        if (seen =? counter)%Z then int64 (proxyVersion + 1)
        else bumpVersionCounter others' proxyVersion seen
    end.

Inductive PushError :=
| errMarshal
| errCreateRequest
| errSendRequest
| errPushStale
| errUnexpectedStatusCode (code : Z)
| errRecovery (e : PushError)
| ErrLostConfigPushRace
| errRecoveryUnmarshal
| errRecoveryMarshal.

(** What the network does with a request. *)
Inductive Delivery := delivered | requestLost | answerLost.

(** The pusher's process counter and the replica it pushes to. *)
Record World := mkWorld { w_counter : Z; w_replica : RouterState }.

(** The interference before each interaction, and the fate of each request. *)
Record Environment := mkEnvironment {
  env_before : nat -> World -> World;
  env_net : nat -> Delivery;
  env_cas : list (Z -> Z);
}.
Definition quiet : Environment := mkEnvironment (fun _ w => w) (fun _ => delivered) [].

Section pusher.
Context {hash : Sha256} {parser : UrlParser} {engine : Regexp} {order : WildcardOrder} {codec : JsonConfig}.
(** The replica's token and whether the endpoint URL makes a request. *)
Context (replicaToken : string) (endpoint_ok : bool).

Definition auth_header (authToken : string) (h : Header) : Header :=
  if bool_decide (authToken = "") then h else header_Set h "Authorization" ("Bearer " +:+ authToken).
Definition put_request (body authToken : string) : Request :=
  mkRequest "PUT" "" (mkURL "http" "" "/config" "" "")
    (auth_header authToken (header_Set ∅ "Content-Type" "application/json")) None
    (Reader body false) (Z.of_nat (String.length body)).
Definition get_request (authToken : string) : Request :=
  mkRequest "GET" "" (mkURL "http" "" "/config" "" "") (auth_header authToken ∅) None NoBody 0.

Definition doPush (net : Delivery) (body authToken : string) (w : World) : World * res PushError unit :=
  if negb endpoint_ok then (w, Err errCreateRequest)
  else
    match net with
    | requestLost => (w, Err errSendRequest)
    | answerLost =>
        (mkWorld (w_counter w) (handlePutConfig replicaToken (put_request body authToken) (w_replica w)).1,
         Err errSendRequest)
    | delivered =>
        let '(st, status) := handlePutConfig replicaToken (put_request body authToken) (w_replica w) in
        (mkWorld (w_counter w) st,
         match status with
         | None => Err errSendRequest
         | Some code =>
             if (code =? StatusConflict)%Z then Err errPushStale
             else if (code =? StatusOK)%Z then Ok tt
             else Err (errUnexpectedStatusCode code)
         end)
    end.

Definition fetchProxyVersion (net : Delivery) (authToken : string) (w : World) : res PushError Z :=
  if negb endpoint_ok then Err errCreateRequest
  else
    match net with
    | requestLost | answerLost => Err errSendRequest
    | delivered =>
        let '(code, status) := handleGetConfig replicaToken (get_request authToken) (w_replica w) in
        if negb (code =? StatusOK)%Z then Err (errUnexpectedStatusCode code)
        else match status with
             | Some s => Ok (cs_Version s)
             | None => Err (errUnexpectedStatusCode code)
             end
    end.

Definition set_version (v : Z) (c : Config) : Config :=
  mkConfig v (cfg_Rules c) (cfg_HasGRPCRoute c) (cfg_Diagnostics c) (cfg_Provenance c).
Definition with_counter (c : Z) (w : World) : World := mkWorld c (w_replica w).

Definition pushToEndpoint (env : Environment) (body authToken : string) (w : World)
    : World * res PushError unit :=
  let '(w, result) := doPush (env_net env 0) body authToken (env_before env 0 w) in
  match result with
  | Ok _ => (w, result)
  | Err errPushStale =>
      let w := env_before env 1 w in
      match fetchProxyVersion (env_net env 1) authToken w with
      | Err e => (w, Err (errRecovery e))
      | Ok proxyVersion =>
          let w := env_before env 2 w in
          if (proxyVersion <=? w_counter w)%Z then (w, Err ErrLostConfigPushRace)
          else
            let w := env_before env 3 w in
            let w := with_counter (bumpVersionCounter (env_cas env) proxyVersion (w_counter w)) w in
            match config_Unmarshal body with
            | None => (w, Err errRecoveryUnmarshal)
            | Some retryCfg =>
                let w := env_before env 4 w in
                let v := int64 (w_counter w + 1) in
                let w := with_counter v w in
                match config_Marshal (set_version v retryCfg) with
                | None => (w, Err errRecoveryMarshal)
                | Some retryBody => doPush (env_net env 2) retryBody authToken (env_before env 5 w)
                end
            end
      end
  | Err e => (w, Err e)
  end.
End pusher.

(** ** Theorems about the API *)

Lemma checkAuth_spec token req :
  checkAuth token req = true <->
  token <> "" /\ exists scheme, ToLower scheme = "bearer " /\
    header_Get (req_Header req) "Authorization" = scheme +:+ token.
Proof.
  unfold checkAuth. set (h := header_Get (req_Header req) "Authorization").
  change (String.length bearerPrefix) with 7.
  assert (Hb : ToLower bearerPrefix = "bearer ") by reflexivity.
  unfold EqualFold. rewrite Hb. destruct (Nat.leb_spec (String.length h) 7) as [Hle|Hgt].
  - split; [done|]. intros (Ht & scheme & Hs & Hh). rewrite Hh, length_sapp in Hle.
    rewrite <-(length_ToLower scheme), Hs in Hle. simpl in Hle. destruct token; [done|simpl in Hle; lia].
  - case_bool_decide as Hs; cbn [negb].
    + rewrite bool_decide_eq_true. split.
      * intros <-. split; [|exists (str_take 7 h); split; [done|by rewrite str_take_drop]].
        intros He. rewrite <-(str_take_drop 7 h), He, sapp_nil_r in Hgt.
        rewrite <-length_ToLower, Hs in Hgt. simpl in Hgt. lia.
      * intros (_ & scheme & Hl & Hh). rewrite Hh.
        replace 7 with (String.length scheme) by (by rewrite <-length_ToLower, Hl).
        apply str_drop_app.
    + split; [done|]. intros (_ & scheme & Hl & Hh). exfalso. apply Hs. rewrite Hh.
      replace 7 with (String.length scheme) by (by rewrite <-length_ToLower, Hl). by rewrite str_take_app.
Qed.

Section api_facts.
Context {hash : Sha256} {parser : UrlParser} {engine : Regexp} {order : WildcardOrder} {codec : JsonConfig}.

(** The configuration a PUT applies, if any. *)
Lemma handlePutConfig_effect token req st :
  let '(st', status) := handlePutConfig token req st in
  status <> None /\
  (status = Some StatusOK -> exists cfg,
     config_Decode maxConfigBodySize (body_data (req_Body req)) = Decoded cfg /\ Validate cfg = Ok tt /\
     UpdateConfig cfg st = (st', Applied) /\ (token = "" \/ checkAuth token req = true)) /\
  (status <> Some StatusOK -> rs_table st' = rs_table st /\ rs_tunnelConnected st' = rs_tunnelConnected st) /\
  (status = Some StatusConflict <-> exists cfg, (token = "" \/ checkAuth token req = true) /\
     HasPrefix (header_Get (req_Header req) "Content-Type") "application/json" = true /\
     config_Decode maxConfigBodySize (body_data (req_Body req)) = Decoded cfg /\ Validate cfg = Ok tt /\
     (0 < cfg_Version cfg < ConfigVersion st)%Z) /\
  (status = Some StatusUnauthorized <-> token <> "" /\ checkAuth token req = false).
Proof.
  unfold handlePutConfig.
  destruct (negb (bool_decide (token = "")) && negb (checkAuth token req)) eqn:Ha.
  { breflect. split_and!; try done.
    split; [done|]. intros (cfg & [?|?] & _); congruence. }
  assert (Hauth : token = "" \/ checkAuth token req = true).
  { apply andb_false_iff in Ha as [?|?]; breflect; auto. }
  assert (Hno : ~ (token <> "" /\ checkAuth token req = false)) by (intros [? ?]; destruct Hauth; congruence).
  destruct (HasPrefix _ _) eqn:Hct; simpl; [|split_and!; try done; (split; [done|first [intros (? & _ & ? & ? & ? & _); congruence|tauto]])].
  destruct (config_Decode _ _) as [cfg| |] eqn:Hd; [|split_and!; try done; (split; [done|first [intros (? & _ & ? & ? & ? & _); congruence|tauto]])..].
  destruct (Validate cfg) as [[]|e] eqn:Hv; [|split_and!; try done; (split; [done|first [intros (? & _ & ? & ? & ? & _); congruence|tauto]])].
  pose proof (compileRoutingTable_compiles (has_handler st) cfg Hv) as Hcomp.
  destruct (UpdateConfig cfg st) as [st' out] eqn:Hu.
  assert (Hrej := UpdateConfig_rejected cfg st st' out Hu).
  assert (Hstale : out = errStaleVersion <-> (0 < cfg_Version cfg < ConfigVersion st)%Z).
  { clear Hrej. unfold UpdateConfig in Hu. destruct (_ && _) eqn:Hst in Hu.
    - simplify_eq. breflect. split; [lia|done].
    - apply andb_false_iff in Hst. destruct (_ && _) in Hu; [|destruct (compileRoutingTable _ _) as [[]|] in Hu];
        simplify_eq; (split; [done|]); destruct Hst; breflect; lia. }
  assert (Hpanic : out <> panicked).
  { intros ->. unfold UpdateConfig in Hu. fold (has_handler st) in Hu.
    repeat case_match; simplify_eq. done. }
  assert (Hsame : out <> Applied -> rs_table st' = rs_table st /\ rs_tunnelConnected st' = rs_tunnelConnected st).
  { intros Ho. by destruct (Hrej Ho) as [->| ->]. }
  destruct out; split_and!; try done; try (by intros _; apply Hsame); try (by intros _; exists cfg);
    try (split; [done|tauto]).
  all: split; [|intros (cfg' & _ & _ & Hd' & _ & Hlt); simplify_eq; first [by apply Hstale in Hlt|done]].
  all: try done. intros _. exists cfg. by rewrite <-Hstale.
Qed.
End api_facts.

(** What a PUT /config does.  The handler always answers (a validated
    configuration never panics the compiler).  It answers 200 only to a request
    that carries the token, whose body decodes to a valid configuration the
    router then applies; 401 exactly when a token is set and the request does
    not carry it behind a case-insensitive [Bearer]; 409 exactly when such a
    valid configuration is older than the current one; and on every answer
    other than 200 the routing table and the readiness stay as they were. *)
Theorem put_config_decision {hash : Sha256} {parser : UrlParser} {engine : Regexp} {order : WildcardOrder}
    {codec : JsonConfig} (token : string) (req : Request) (st : RouterState) :
  let authorized := token = "" \/ exists scheme, ToLower scheme = "bearer " /\
    header_Get (req_Header req) "Authorization" = scheme +:+ token in
  let '(st', status) := handlePutConfig token req st in
  status <> None /\
  (status = Some StatusOK -> authorized /\ exists cfg,
     config_Decode maxConfigBodySize (body_data (req_Body req)) = Decoded cfg /\ Validate cfg = Ok tt /\
     UpdateConfig cfg st = (st', Applied)) /\
  (status = Some StatusUnauthorized <-> ~ authorized) /\
  (status = Some StatusConflict <-> authorized /\
     HasPrefix (header_Get (req_Header req) "Content-Type") "application/json" = true /\
     exists cfg, config_Decode maxConfigBodySize (body_data (req_Body req)) = Decoded cfg /\
       Validate cfg = Ok tt /\ (0 < cfg_Version cfg < ConfigVersion st)%Z) /\
  (status <> Some StatusOK -> rs_table st' = rs_table st /\ handleReadyz st' = handleReadyz st).
Proof.
  intros authorized. pose proof (handlePutConfig_effect token req st) as H.
  destruct (handlePutConfig token req st) as [st' status]. destruct H as (H1 & H2 & H3 & H4 & H5).
  assert (Hauth : authorized <-> token = "" \/ checkAuth token req = true).
  { unfold authorized. rewrite checkAuth_spec. destruct (decide (token = "")); tauto. }
  clearbody authorized. rewrite !Hauth. split_and!; [done| | | |].
  - intros (cfg & ? & ? & ? & ?)%H2. split; [done|]. by exists cfg.
  - rewrite H5. rewrite <-(not_true_iff_false (checkAuth token req)). tauto.
  - rewrite H4. split; [intros (cfg & ? & ? & ? & ? & ?)|intros (? & ? & cfg & ? & ? & ?)].
    + split_and!; [done|done|]. by exists cfg.
    + by exists cfg.
  - intros [Ht Hc]%H3. split; [done|]. unfold handleReadyz, ConfigVersion. by rewrite Ht, Hc.
Qed.

(** ** Readiness endpoints *)

Inductive ProxyEvent :=
| ApiCall (r : ApiRequest)
| TunnelConnected.
Definition proxy_step {hash : Sha256} {parser : UrlParser} {engine : Regexp} {order : WildcardOrder}
    {codec : JsonConfig} (token : string) (st : RouterState) (e : ProxyEvent) : RouterState :=
  match e with
  | ApiCall r => (serve token r st).1
  | TunnelConnected => SetTunnelConnected st
  end.

(** [GET /readyz] and [GET /config] never disagree.  Whatever requests the
    config API has served since start-up, /readyz answers 200 exactly when the
    router is ready, which is what an authorised /config reports; otherwise it
    answers 503. *)
Theorem readiness_endpoints_agree {hash : Sha256} {parser : UrlParser} {engine : Regexp}
    {order : WildcardOrder} {codec : JsonConfig} (token : string) (events : list ProxyEvent) (req : Request) :
  let st := foldl (proxy_step token) NewRouter events in
  (handleReadyz st = StatusOK <-> IsReady st = true) /\
  (handleReadyz st = StatusServiceUnavailable <-> IsReady st = false) /\
  (forall s, handleGetConfig token req st = (StatusOK, Some s) -> cs_Ready s = true <-> handleReadyz st = StatusOK).
Proof.
  intros st. assert (Hv : (0 <= ConfigVersion st)%Z).
  { assert (H0 : (0 <= ConfigVersion NewRouter)%Z) by (vm_compute; done). revert st H0.
    generalize NewRouter as st0.
    induction events as [|e es IH]; intros st0 st H0; [done|]. apply IH. clear IH st.
    destruct e as [[req'|req'| |]|]; simpl; try done.
    pose proof (handlePutConfig_effect token req' st0) as H.
    destruct (handlePutConfig token req' st0) as [st' status]. destruct H as (_ & H2 & H3 & _). simpl.
    destruct (decide (status = Some StatusOK)) as [Hs|Hs].
    - destruct (H2 Hs) as (cfg & _ & [Hv _]%Validate_spec & Hu & _).
      destruct (UpdateConfig_applied _ _ _ Hu) as (_ & -> & _). done.
    - destruct (H3 Hs) as [Ht _]. unfold ConfigVersion in *. by rewrite Ht. }
  assert (Hr : handleReadyz st = if IsReady st then StatusOK else StatusServiceUnavailable).
  { unfold handleReadyz, IsReady. destruct (Z.eqb_spec (ConfigVersion st) 0) as [->|]; [done|].
    destruct (Z.ltb_spec 0 (ConfigVersion st)); [|lia]. by destruct (rs_tunnelConnected st). }
  clearbody st. rewrite Hr. split_and!; [by destruct (IsReady st)..|].
  intros s. unfold handleGetConfig. destruct (_ && _); [done|]. intros [= <-]. simpl. by destruct (IsReady st).
Qed.

(** ** Theorems about the pusher *)

(** The compare-and-swap loop of [bumpVersionCounter] ends above the
    replica's version and never lowers the counter, whatever other goroutines
    do to it meanwhile as long as they only raise it. *)
Theorem bump_version_counter (others : list (Z -> Z)) (proxyVersion counter : Z) :
  (forall f c, f ∈ others -> (c <= f c)%Z) -> (- MaxInt64 <= proxyVersion < MaxInt64)%Z ->
  (proxyVersion < bumpVersionCounter others proxyVersion counter)%Z /\
  (counter <= bumpVersionCounter others proxyVersion counter)%Z.
Proof.
  intros Hmono Hpv. assert (Hn : int64 (proxyVersion + 1) = (proxyVersion + 1)%Z).
  { apply int64_id. unfold is_int64 in *. lia. }
  revert counter. induction others as [|f fs IH]; intros counter; simpl.
  - destruct (Z.ltb_spec proxyVersion counter); [lia|]. rewrite Hn. lia.
  - destruct (Z.ltb_spec proxyVersion counter); [lia|].
    destruct (Z.eqb_spec (f counter) counter); [rewrite Hn; lia|].
    pose proof (Hmono f counter (list_elem_of_here _ _)).
    destruct (IH ltac:(intros; apply Hmono; by right) (f counter)). lia.
Qed.
Lemma bump_version_counter_witness :
  (100 < bumpVersionCounter [Z.succ; fun c => c + 60]%Z 100 50)%Z.
Proof.
  apply (bump_version_counter [Z.succ; fun c => (c + 60)%Z] 100 50).
  - intros f c. rewrite !elem_of_cons, elem_of_nil. intros [->|[->|[]]]; lia.
  - unfold MaxInt64. lia.
Defined.

Section push_facts.
Context {hash : Sha256} {parser : UrlParser} {engine : Regexp} {order : WildcardOrder} {codec : JsonConfig}.

Lemma put_request_auth token body : token = "" \/ checkAuth token (put_request body token) = true.
Proof.
  destruct (decide (token = "")) as [->|Hn]; [by left|right]. apply checkAuth_spec. split; [done|].
  exists "Bearer ". split; [done|]. unfold put_request, auth_header. simpl.
  rewrite bool_decide_eq_false_2 by done. unfold header_Get.
  rewrite header_Values_Set. eval_keys. done.
Qed.
Lemma get_request_auth token : token = "" \/ checkAuth token (get_request token) = true.
Proof.
  destruct (decide (token = "")) as [->|Hn]; [by left|right]. apply checkAuth_spec. split; [done|].
  exists "Bearer ". split; [done|]. unfold get_request, auth_header. simpl.
  rewrite bool_decide_eq_false_2 by done. unfold header_Get.
  rewrite header_Values_Set. eval_keys. done.
Qed.
Lemma put_request_json token body :
  HasPrefix (header_Get (req_Header (put_request body token)) "Content-Type") "application/json" = true.
Proof.
  unfold put_request, auth_header. simpl. unfold header_Get.
  case_bool_decide; rewrite ?header_Values_Set; eval_keys; rewrite ?header_Values_Set; eval_keys; done.
Qed.

(** An authorised PUT of a decodable, valid configuration is the router's update. *)
Lemma put_valid token body cfg st :
  config_Decode maxConfigBodySize body = Decoded cfg -> Validate cfg = Ok tt ->
  handlePutConfig token (put_request body token) st =
  (let '(st', out) := UpdateConfig cfg st in
   (st', match out with
         | Applied => Some StatusOK
         | errStaleVersion => Some StatusConflict
         | errTLSMirrorWithoutTransportFactory | errCompile _ => Some StatusInternalServerError
         | panicked => None
         end)).
Proof.
  intros Hd Hv. unfold handlePutConfig. rewrite put_request_json. simpl. rewrite Hd, Hv.
  destruct (put_request_auth token body) as [->|Ha]; [done|]. rewrite Ha. by rewrite andb_false_r.
Qed.
Lemma fetch_version token w : fetchProxyVersion token true delivered token w = Ok (ConfigVersion (w_replica w)).
Proof.
  unfold fetchProxyVersion, handleGetConfig. simpl.
  destruct (get_request_auth token) as [->|Ha]; [done|]. rewrite Ha. by rewrite andb_false_r.
Qed.

(** The version is the only thing [set_version] changes in a compiled table. *)
Lemma compile_set_version cfg v factory t :
  compileRoutingTable cfg factory = Some (Ok t) ->
  compileRoutingTable (set_version v cfg) factory =
    Some (Ok (mkRoutingTable (rt_exactHosts t) (rt_wildcardHosts t) (rt_defaultRules t) v)).
Proof.
  unfold compileRoutingTable. intros (B & HB & [= <-])%cbind_Ok. simpl. by rewrite HB.
Qed.
Lemma Validate_set_version cfg v : Validate cfg = Ok tt -> (0 <= v)%Z -> Validate (set_version v cfg) = Ok tt.
Proof. intros [_ H]%Validate_spec Hv. by apply Validate_spec. Qed.
(** A version above the replica's is applied whatever it held. *)
Lemma repush_applied cfg v st t :
  has_handler st = true -> (ConfigVersion st < v)%Z -> compileRoutingTable cfg true = Some (Ok t) ->
  exists st', UpdateConfig (set_version v cfg) st = (st', Applied) /\
    rs_table st' = mkRoutingTable (rt_exactHosts t) (rt_wildcardHosts t) (rt_defaultRules t) v.
Proof.
  intros Hh Hv Ht. destruct (UpdateConfig (set_version v cfg) st) as [st' out] eqn:Hu.
  assert (out = Applied) as ->.
  { unfold UpdateConfig in Hu. fold (has_handler st) in Hu.
    rewrite Hh, (compile_set_version _ _ _ _ Ht) in Hu. simpl in Hu.
    rewrite (proj2 (Z.ltb_ge v (ConfigVersion st))), andb_false_r in Hu by lia. by simplify_eq. }
  exists st'. split; [done|]. destruct (UpdateConfig_applied _ _ _ Hu) as (Hcomp & _).
  rewrite Hh, (compile_set_version _ _ _ _ Ht) in Hcomp. by simplify_eq.
Qed.
End push_facts.

(** Other goroutines of the process only raise the counter, and to [B] at most. *)
Definition raises (B : Z) (f : Z -> Z) : Prop := forall c, (c <= f c <= Z.max c B)%Z.
(** They may raise the counter between any two interactions and inside the
    compare-and-swap loop; they do not write the replica, and the network
    delivers. *)
Record counter_only (B : Z) (env : Environment) : Prop := {
  co_replica : forall i w, w_replica (env_before env i w) = w_replica w;
  co_counter : forall i w, (w_counter w <= w_counter (env_before env i w) <= Z.max (w_counter w) B)%Z;
  co_cas : forall f, f ∈ env_cas env -> raises B f;
  co_net : forall i, env_net env i = delivered;
}.
Lemma bump_bounds B others V c :
  (forall f, f ∈ others -> raises B f) -> (- MaxInt64 <= V < MaxInt64)%Z -> (c <= Z.max (V + 1) B)%Z ->
  (V < bumpVersionCounter others V c <= Z.max (V + 1) B)%Z /\ (c <= bumpVersionCounter others V c)%Z.
Proof.
  intros Hmono HV. assert (Hn : int64 (V + 1) = (V + 1)%Z) by (apply int64_id; unfold is_int64 in *; lia).
  revert c. induction others as [|f fs IH]; intros c Hc; simpl.
  - destruct (Z.ltb_spec V c); [|rewrite Hn]; lia.
  - destruct (Z.ltb_spec V c); [lia|]. destruct (Z.eqb_spec (f c) c); [rewrite Hn; lia|].
    destruct (Hmono f (list_elem_of_here _ _) c). destruct (IH ltac:(intros; apply Hmono; by right) (f c)); lia.
Qed.

(** C17: Stale-version recovery.  A replica refuses a push because it holds a
    newer version V.  While the push runs, other goroutines of the process may
    raise the version counter whenever they like (also inside the
    compare-and-swap loop), the network delivers, and no one else writes this
    replica.  If the counter has reached V when it is compared, this process
    issued V, a concurrent push won: the older payload is abandoned with
    [ErrLostConfigPushRace] and the replica is not written.  If V lies above
    the counter it comes from a previous controller: the push is repeated with a
    version above both V and the counter, which the counter never falls below
    again; with the replica's own token, a codec that carries the configuration
    over and rules that compile, it is accepted, and the replica then routes by
    the pushed rules under that version. *)
Theorem stale_push_recovers {hash : Sha256} {parser : UrlParser} {engine : Regexp} {order : WildcardOrder}
    {codec : JsonConfig} (token body : string) (cfg : Config) (w : World) (t : routingTable) (B : Z)
    (env : Environment) :
  let V := ConfigVersion (w_replica w) in
  counter_only B env ->
  (0 < cfg_Version cfg < V)%Z -> (V < MaxInt64 - 2)%Z -> (B < MaxInt64 - 2)%Z -> (- MaxInt64 <= w_counter w)%Z ->
  Validate cfg = Ok tt -> config_Decode maxConfigBodySize body = Decoded cfg ->
  config_Unmarshal body = Some cfg ->
  (forall v, (V + 1 < v <= Z.max (V + 1) B + 1)%Z ->
     exists body', config_Marshal (set_version v cfg) = Some body' /\
       config_Decode maxConfigBodySize body' = Decoded (set_version v cfg)) ->
  has_handler (w_replica w) = true -> compileRoutingTable cfg true = Some (Ok t) ->
  let compared := w_counter (env_before env 2 (env_before env 1 (env_before env 0 w))) in
  let '(w', result) := pushToEndpoint token true env body token w in
  if (V <=? compared)%Z then result = Err ErrLostConfigPushRace /\ w_replica w' = w_replica w
  else result = Ok tt /\
       exists v, (V < v)%Z /\ (compared < v <= w_counter w')%Z /\
         rs_table (w_replica w') = mkRoutingTable (rt_exactHosts t) (rt_wildcardHosts t) (rt_defaultRules t) v.
Proof.
  intros V [Hrep Hcnt Hcas Hnet] Hv HV HB Hc Hval Hdec Hun Hcodec Hh Ht compared.
  assert (Hup1 : UpdateConfig cfg (w_replica w) = (w_replica w, errStaleVersion)).
  { unfold UpdateConfig. fold V. by rewrite (proj2 (Z.ltb_lt _ _)), (proj2 (Z.ltb_lt _ _)) by lia. }
  set (w0 := env_before env 0 w). set (w2 := env_before env 2 (env_before env 1 w0)).
  assert (Hw : mkWorld (w_counter w0) (w_replica w) = w0) by (unfold w0; destruct (env_before env 0 w) eqn:E;
    pose proof (Hrep 0 w) as H; rewrite E in H; simpl in *; congruence).
  unfold pushToEndpoint, doPush. simpl. rewrite !Hnet. fold w0. rewrite (Hrep 0 w : w_replica w0 = _).
  rewrite (put_valid _ _ _ _ Hdec Hval), Hup1. simpl. rewrite Hw, fetch_version. fold w2.
  rewrite (Hrep 1 w0), (Hrep 0 w : w_replica w0 = _). fold V. change (w_counter w2) with compared.
  assert (Hr2 : w_replica w2 = w_replica w) by (unfold w2, w0; by rewrite !Hrep).
  destruct (Z.leb_spec V compared) as [Hle|Hlt]; [done|]. rewrite Hun.
  assert (Hcmp : (- MaxInt64 <= compared)%Z).
  { pose proof (Hcnt 0 w). pose proof (Hcnt 1 w0). pose proof (Hcnt 2 (env_before env 1 w0)).
    unfold compared, w0 in *. lia. }
  set (w3 := env_before env 3 w2). pose proof (Hcnt 3 w2 : (compared <= w_counter w3 <= Z.max compared B)%Z) as H3.
  destruct (bump_bounds B (env_cas env) V (w_counter w3)) as [Hb1 Hb2]; [done|lia|lia|].
  set (w4 := env_before env 4 _).
  assert (H4 : (V < w_counter w4 <= Z.max (V + 1) B)%Z /\ (w_counter w3 <= w_counter w4)%Z).
  { unfold w4. pose proof (Hcnt 4 (with_counter (bumpVersionCounter (env_cas env) V (w_counter w3)) w3)) as H.
    simpl in H. lia. }
  assert (Hi : int64 (w_counter w4 + 1) = (w_counter w4 + 1)%Z) by (apply int64_id; unfold is_int64; lia).
  rewrite Hi. set (v := (w_counter w4 + 1)%Z). destruct (Hcodec v ltac:(lia)) as (body' & Hm & Hdec').
  rewrite Hm. set (w5 := env_before env 5 _).
  assert (Hr5 : w_replica w5 = w_replica w) by (unfold w5; rewrite Hrep; simpl; unfold w4; rewrite Hrep; simpl; unfold w3; by rewrite Hrep).
  assert (H5 : (v <= w_counter w5)%Z) by apply (Hcnt 5 (with_counter v w4)).
  rewrite Hr5, (put_valid _ _ _ _ Hdec' (Validate_set_version _ v Hval ltac:(lia))).
  destruct (repush_applied cfg v (w_replica w) t) as (st' & Hup2 & Htab); [done|unfold V in *; lia|done|].
  rewrite Hup2. simpl. split; [done|]. exists v. split_and!; [lia|lia|done|done].
Qed.

(** A codec for the example: the version is the body, the rest is fixed. *)
Definition version_codec (base : Config) : JsonConfig := {|
  config_Marshal := fun c => Some (Itoa (cfg_Version c));
  config_Unmarshal := fun s => if bool_decide (s = "5") then Some (set_version 5 base)
                               else if bool_decide (s = "9") then Some (set_version 9 base) else None;
  config_Decode := fun _ s => if bool_decide (s = "5") then Decoded (set_version 5 base)
                              else if bool_decide (s = "9") then Decoded (set_version 9 base) else InvalidJSON;
|}.
Definition example_rule_table : routingTable :=
  match @compileRoutingTable literal_regexp host_url stable_order (set_version 5 example_config) true with
  | Some (Ok t) => t
  | _ => mkRoutingTable ∅ [] [] 0
  end.
(** Another goroutine draws a version before each interaction, up to version 6. *)
Definition busy : Environment :=
  mkEnvironment (fun _ w => mkWorld (Z.max (w_counter w) (Z.min (w_counter w + 1) 6)) (w_replica w)) (fun _ => delivered)
    [fun c => Z.max c (Z.min (c + 1) 6)].
(** The replica runs version 7 of a previous controller, the counter is at 5. *)
Lemma stale_push_recovers_witness :
  let '(w', result) := @pushToEndpoint no_hash host_url literal_regexp stable_order
    (version_codec example_config) "s3cret" true busy "5" "s3cret" (mkWorld 5 configured_router) in
  result = Ok tt /\ exists v, (7 < v <= w_counter w')%Z /\ rt_version (rs_table (w_replica w')) = v.
Proof.
  pose proof (@stale_push_recovers no_hash host_url literal_regexp stable_order
    (version_codec example_config) "s3cret" "5" (set_version 5 example_config)
    (mkWorld 5 configured_router) example_rule_table 6 busy) as H.
  assert (HV : ConfigVersion (w_replica (mkWorld 5 configured_router)) = 7%Z) by (vm_compute; reflexivity).
  cbv zeta in H. rewrite HV in H.
  specialize (H ltac:(split; [done|intros i w; simpl; lia|intros f ->%list_elem_of_singleton c; simpl; lia|done])
    ltac:(vm_compute; split; reflexivity) ltac:(vm_compute; reflexivity) ltac:(vm_compute; reflexivity)
    ltac:(vm_compute; discriminate) ltac:(vm_compute; reflexivity) ltac:(vm_compute; reflexivity)
    ltac:(vm_compute; reflexivity)
    ltac:(intros v Hv; assert (v = 9%Z) as -> by lia; exists "9"; split; vm_compute; reflexivity)
    ltac:(vm_compute; reflexivity) ltac:(vm_compute; reflexivity)).
  destruct (pushToEndpoint _ _ _ _ _ _) as [w' result].
  destruct (_ <=? _)%Z eqn:Hle in H.
  - exfalso. vm_compute in Hle. discriminate Hle.
  - destruct H as (Hr & v & HV' & Hv & Ht). split; [exact Hr|]. exists v. rewrite Ht. simpl.
    split; [|reflexivity]. lia.
Defined.
