(* ===== verification/RouteBinding.v ===== *)
(** * Route to listener binding ([internal/routebinding])

    Hostname intersection, route kinds, namespace policies, and the validators
    that bind a route to the listeners of a Gateway or of a ListenerSet.
    Kubernetes is the parameter [Cluster]: conversion of label selectors and the
    labels of a namespace. *)
From Stdlib Require Import Ascii.
From stdpp Require Import base sets gmap strings list.
From S2P Require Import Prelude GoStrings.

(** ** Gateway API data *)

Record LabelSelector := mkLabelSelector {
  sel_MatchLabels : list (string * string);
  sel_MatchExpressions : list (string * string * list string);
}.
Definition Labels : Type := gmap string string.

Definition NamespacesFromAll : string := "All".
Definition NamespacesFromSame : string := "Same".
Definition NamespacesFromSelector : string := "Selector".
Definition NamespacesFromNone : string := "None".

Record RouteNamespaces := mkRouteNamespaces {
  rn_From : option string;
  rn_Selector : option LabelSelector;
}.
Record RouteGroupKind := mkRouteGroupKind { gk_Group : option string; gk_Kind : string }.
Record AllowedRoutes := mkAllowedRoutes {
  ar_Namespaces : option RouteNamespaces;
  ar_Kinds : list RouteGroupKind;
}.
(** A reference to a certificate Secret. *)
Record SecretObjectReference := mkSecretObjectReference {
  sor_Group : option string;
  sor_Kind : option string;
  sor_Name : string;
  sor_Namespace : option string;
}.
(** The fields [Listener] and [ListenerEntry] share; [l_CertificateRefs] are those
    of [TLS], none without it. *)
Record Listener := mkListener {
  l_Name : string;
  l_Hostname : option string;
  l_Port : Z;
  l_Protocol : string;
  l_AllowedRoutes : option AllowedRoutes;
  l_CertificateRefs : list SecretObjectReference;
}.
Record AllowedListeners := mkAllowedListeners { al_Namespaces : option RouteNamespaces }.
Record Gateway := mkGateway {
  gw_Name : string;
  gw_Namespace : string;
  gw_Listeners : list Listener;
  gw_AllowedListeners : option AllowedListeners;
}.
Record ListenerSet := mkListenerSet {
  ls_Name : string;
  ls_Namespace : string;
  ls_CreationTimestamp : Z;
  ls_Listeners : list Listener;
}.
Record RouteInfo := mkRouteInfo {
  ri_Name : string;
  ri_Namespace : string;
  ri_Hostnames : list string;
  ri_Kind : string;
  ri_SectionName : option string;
  ri_Port : option Z;
}.

(** ** Hostnames ([hostname.go]) *)

Definition matchesWildcard (wildcardHost specificHost : string) : bool :=
  let suffix := str_drop 1 wildcardHost in
  if negb (HasSuffix specificHost suffix) then false
  else if bool_decide (specificHost = str_drop 1 suffix) then false
  else true.

Definition hostnameMatches (listenerHost routeHost : string) : bool :=
  let listenerHost := ToLower listenerHost in
  let routeHost := ToLower routeHost in
  if bool_decide (listenerHost = routeHost) then true
  else
    let listenerIsWildcard := HasPrefix listenerHost "*." in
    let routeIsWildcard := HasPrefix routeHost "*." in
    if listenerIsWildcard && routeIsWildcard then
      let listenerSuffix := str_drop 1 listenerHost in
      let routeSuffix := str_drop 1 routeHost in
      HasSuffix listenerSuffix routeSuffix || HasSuffix routeSuffix listenerSuffix
    else if listenerIsWildcard then matchesWildcard listenerHost routeHost
    else if routeIsWildcard then matchesWildcard routeHost listenerHost
    else false.

Definition HostnamesIntersect (listenerHostname : option string) (routeHostnames : list string) : bool :=
  match listenerHostname with
  | None => true
  | Some l =>
      if bool_decide (l = "") then true
      else if length routeHostnames =? 0 then true
      else existsb (hostnameMatches l) routeHostnames
  end.

Definition narrower (l r : string) : string :=
  if HasPrefix r "*." then
    if HasPrefix l "*." && (String.length l <? String.length r) then r else l
  else r.
Definition HostnameIntersection (listenerHostname : option string) (routeHostname : string) : option string :=
  match listenerHostname with
  | None => Some routeHostname
  | Some l =>
      if bool_decide (l = "") then Some routeHostname
      else if negb (hostnameMatches l routeHostname) then None
      else Some (narrower l routeHostname)
  end.

Definition EffectiveListenerHostnames (listenerHostname : option string) (routeHostnames : list string)
    : list string :=
  if length routeHostnames =? 0 then
    match listenerHostname with
    | Some l => if bool_decide (l = "") then [] else [l]
    | None => []
    end
  else omap (HostnameIntersection listenerHostname) routeHostnames.

(** ** Route kinds ([kind.go]) *)

Definition GroupName : string := "gateway.networking.k8s.io".
Definition KindHTTPRoute : string := "HTTPRoute".
Definition KindGRPCRoute : string := "GRPCRoute".
Definition KindTLSRoute : string := "TLSRoute".
Definition KindTCPRoute : string := "TCPRoute".
Definition KindUDPRoute : string := "UDPRoute".

Definition getDefaultKindsForProtocol (protocol : string) : list RouteGroupKind :=
  let group := Some GroupName in
  if bool_decide (protocol = "HTTP") || bool_decide (protocol = "HTTPS") then
    [mkRouteGroupKind group KindHTTPRoute; mkRouteGroupKind group KindGRPCRoute]
  else if bool_decide (protocol = "TLS") then [mkRouteGroupKind group KindTLSRoute]
  else if bool_decide (protocol = "TCP") then [mkRouteGroupKind group KindTCPRoute]
  else if bool_decide (protocol = "UDP") then [mkRouteGroupKind group KindUDPRoute]
  else [mkRouteGroupKind group KindHTTPRoute; mkRouteGroupKind group KindGRPCRoute].
Definition explicit_kinds (allowed : option AllowedRoutes) : list RouteGroupKind :=
  match allowed with Some a => ar_Kinds a | None => [] end.
Definition getAllowedKinds (allowed : option AllowedRoutes) (protocol : string) : list RouteGroupKind :=
  if 0 <? length (explicit_kinds allowed) then explicit_kinds allowed else getDefaultKindsForProtocol protocol.

Definition effective_group (k : RouteGroupKind) : string :=
  match gk_Group k with
  | Some g => if bool_decide (g = "") then GroupName else g
  | None => GroupName
  end.
Definition kindMatches (allowed : RouteGroupKind) (routeKind : string) : bool :=
  if negb (bool_decide (gk_Kind allowed = routeKind)) then false
  else bool_decide (effective_group allowed = GroupName).
Definition IsRouteKindAllowed (allowed : option AllowedRoutes) (protocol routeKind : string) : bool :=
  existsb (fun k => kindMatches k routeKind) (getAllowedKinds allowed protocol).

Definition supported_kind (k : RouteGroupKind) : bool :=
  bool_decide (effective_group k = GroupName) &&
  (bool_decide (gk_Kind k = KindHTTPRoute) || bool_decide (gk_Kind k = KindGRPCRoute)).
Definition FilterSupportedKinds (allowed : option AllowedRoutes) (protocol : string)
    : list RouteGroupKind * bool * bool :=
  let explicitlySpecified := 0 <? length (explicit_kinds allowed) in
  let '(supported, hasInvalid) :=
    foldl (fun '(supported, hasInvalid) kind =>
             if supported_kind kind then (supported ++ [kind], hasInvalid)
             else if explicitlySpecified then (supported, true)
             else (supported, hasInvalid))
      ([], false) (getAllowedKinds allowed protocol) in
  (supported, 0 <? length supported, hasInvalid).

(** ** Namespaces ([namespace.go]) *)

Class Cluster := {
  LabelSelectorAsSelector : LabelSelector -> option (Labels -> bool);
  namespace_labels : string -> option Labels;
}.
Inductive BindingError := errInvalidLabelSelector.

Definition getNamespaceFrom (allowed : option AllowedRoutes) : string :=
  match allowed with
  | None => NamespacesFromSame
  | Some a =>
      match ar_Namespaces a with
      | None => NamespacesFromSame
      | Some ns => match rn_From ns with None => NamespacesFromSame | Some f => f end
      end
  end.

(** [allowedRoutes.namespaces.selector] *)
Definition route_selector (allowed : option AllowedRoutes) : option LabelSelector :=
  a ← allowed; ns ← ar_Namespaces a; rn_Selector ns.

Definition RouteReasonAccepted : string := "Accepted".
Definition RouteReasonNoMatchingListenerHostname : string := "NoMatchingListenerHostname".
Definition RouteReasonNotAllowedByListeners : string := "NotAllowedByListeners".
Definition RouteReasonNoMatchingParent : string := "NoMatchingParent".

Definition getReasonMessage (reason : string) : string :=
  if bool_decide (reason = RouteReasonNoMatchingListenerHostname) then
    "No listener hostname matches route hostnames"
  else if bool_decide (reason = RouteReasonNotAllowedByListeners) then
    "Route not allowed by listener allowedRoutes policy"
  else if bool_decide (reason = RouteReasonNoMatchingParent) then "No matching listener found"
  else "Route not accepted".

Record BindingResult := mkBindingResult {
  br_Accepted : bool;
  br_Reason : string;
  br_Message : string;
  br_MatchedListeners : list string;
}.
Definition makeBindingResult (matched : list string) (rejectionReason : string) : BindingResult :=
  if length matched =? 0 then mkBindingResult false rejectionReason (getReasonMessage rejectionReason) []
  else mkBindingResult true RouteReasonAccepted "Route accepted" matched.

(** ** The matching loop ([binding.go]) *)

Section entries.
Context {A : Type} (name : A -> string) (port : A -> Z) (accept : A -> res BindingError string).
Context (routeSectionName : option string) (routePort : option Z).

Definition selected (x : A) : bool :=
  match routeSectionName with Some s => bool_decide (s = name x) | None => true end &&
  match routePort with Some p => bool_decide (p = port x) | None => true end.

Fixpoint match_loop (entries : list A) (matched : list string) (lastRejectionReason : string)
    : res BindingError (list string * string) :=
  match entries with
  | [] => Ok (matched, lastRejectionReason)
  | x :: entries' =>
      if negb (selected x) then match_loop entries' matched lastRejectionReason
      else
        reason ← accept x;
        if bool_decide (reason = RouteReasonAccepted) then
          match_loop entries' (matched ++ [name x]) lastRejectionReason
        else match_loop entries' matched reason
  end.

Definition findMatchingEntries (entries : list A) : res BindingError (list string * string) :=
  if length entries =? 0 then Ok ([], RouteReasonNoMatchingParent)
  else
    out ← match_loop entries [] "";
    let '(matched, lastRejectionReason) := out in
    if length matched =? 0 then
      match routeSectionName, routePort with
      | None, None =>
          if bool_decide (lastRejectionReason = "") then Ok ([], RouteReasonNoMatchingParent)
          else Ok ([], lastRejectionReason)
      | _, _ => Ok ([], RouteReasonNoMatchingParent)
      end
    else Ok (matched, "").
End entries.

Section validator.
Context {cluster : Cluster}.

Definition namespaceMatchesSelector (selector : option LabelSelector) (routeNamespace : string)
    : res BindingError bool :=
  match selector with
  | None => Ok false
  | Some sel =>
      match LabelSelectorAsSelector sel with
      | None => Err errInvalidLabelSelector
      | Some matches =>
          match namespace_labels routeNamespace with
          | None => Ok false
          | Some labels => Ok (matches labels)
          end
      end
  end.

Definition IsNamespaceAllowed (allowed : option AllowedRoutes) (gatewayNamespace routeNamespace : string)
    : res BindingError bool :=
  let from := getNamespaceFrom allowed in
  if bool_decide (from = NamespacesFromSame) then Ok (bool_decide (gatewayNamespace = routeNamespace))
  else if bool_decide (from = NamespacesFromAll) then Ok true
  else if bool_decide (from = NamespacesFromSelector) then
    namespaceMatchesSelector (route_selector allowed) routeNamespace
  else if bool_decide (from = NamespacesFromNone) then Ok false
  else Ok (bool_decide (gatewayNamespace = routeNamespace)).

Definition evaluateListenerBinding (listener : Listener) (parentNamespace : string) (route : RouteInfo)
    : res BindingError string :=
  if negb (HostnamesIntersect (l_Hostname listener) (ri_Hostnames route)) then
    Ok RouteReasonNoMatchingListenerHostname
  else
    allowed ← IsNamespaceAllowed (l_AllowedRoutes listener) parentNamespace (ri_Namespace route);
    if negb allowed then Ok RouteReasonNotAllowedByListeners
    else if negb (IsRouteKindAllowed (l_AllowedRoutes listener) (l_Protocol listener) (ri_Kind route)) then
      Ok RouteReasonNotAllowedByListeners
    else Ok RouteReasonAccepted.

Definition validate_listeners (listeners : list Listener) (parentNamespace : string) (route : RouteInfo)
    : res BindingError BindingResult :=
  out ← findMatchingEntries l_Name l_Port (fun l => evaluateListenerBinding l parentNamespace route)
          (ri_SectionName route) (ri_Port route) listeners;
  Ok (makeBindingResult out.1 out.2).
Definition ValidateBinding (gateway : Gateway) (route : RouteInfo) : res BindingError BindingResult :=
  validate_listeners (gw_Listeners gateway) (gw_Namespace gateway) route.
Definition ValidateBindingForListenerSet (listenerSet : ListenerSet) (route : RouteInfo)
    : res BindingError BindingResult :=
  validate_listeners (ls_Listeners listenerSet) (ls_Namespace listenerSet) route.

(** ** ListenerSets ([listenerset.go]) *)

Definition getListenerNamespaceFrom (allowed : option AllowedListeners) : string :=
  default NamespacesFromNone (a ← allowed; ns ← al_Namespaces a; rn_From ns).
Definition listenerSetNamespaceMatchesSelector (allowed : option AllowedListeners) (namespace : string)
    : res BindingError bool :=
  match (a ← allowed; ns ← al_Namespaces a; rn_Selector ns) with
  | None => Ok false
  | Some sel => namespaceMatchesSelector (Some sel) namespace
  end.
(** The acceptance flag; its reason is Accepted or NotAllowed accordingly. *)
Definition EvaluateListenerSetAcceptance (gateway : Gateway) (listenerSet : ListenerSet)
    : res BindingError bool :=
  let from := getListenerNamespaceFrom (gw_AllowedListeners gateway) in
  if bool_decide (from = NamespacesFromAll) then Ok true
  else if bool_decide (from = NamespacesFromSame) then
    Ok (bool_decide (gw_Namespace gateway = ls_Namespace listenerSet))
  else if bool_decide (from = NamespacesFromSelector) then
    listenerSetNamespaceMatchesSelector (gw_AllowedListeners gateway) (ls_Namespace listenerSet)
  else Ok false.
End validator.

(** ** What hostname patterns denote *)

(** The (lower-case) hosts a pattern stands for: itself, or every strict
    subdomain of the part after the wildcard label. *)
Definition denotes (p h : string) : Prop :=
  if HasPrefix (ToLower p) "*." then exists label, label <> "" /\ h = label +:+ str_drop 1 (ToLower p)
  else h = ToLower p.
(** Hostnames the CRD admits are not empty and have no empty first label. *)
Definition valid_hostname (p : string) : Prop := p <> "" /\ HasPrefix p "." = false.

Lemma ToLower_HasPrefix_dot p : HasPrefix (ToLower p) "." = HasPrefix p ".".
Proof. destruct p as [|[[] [] [] [] [] [] [] []] p]; first [reflexivity|by destruct p]. Qed.

Lemma wildcard_suffix p : HasPrefix p "*." = true -> exists t, p = "*." +:+ t /\ str_drop 1 p = "." +:+ t.
Proof. intros [t ->]%HasPrefix_spec. by exists t. Qed.

Lemma matchesWildcard_denotes w s :
  HasPrefix w "*." = true -> HasPrefix s "." = false ->
  matchesWildcard w s = true <-> exists label, label <> "" /\ s = label +:+ str_drop 1 w.
Proof.
  intros (t & -> & Hd)%wildcard_suffix Hs. unfold matchesWildcard. rewrite Hd.
  destruct (HasSuffix s ("." +:+ t)) eqn:Hsuf; simpl.
  - apply HasSuffix_spec in Hsuf as [label ->].
    assert (Hl : label <> "") by (intros ->; by rewrite sapp_nil_l, HasPrefix_app in Hs).
    rewrite bool_decide_eq_false_2.
    + split; [|done]. intros _. by exists label.
    + intros He. apply (f_equal String.length) in He. rewrite length_sapp in He. simpl in He. lia.
  - split; [done|]. intros (label & _ & ->). by rewrite HasSuffix_app in Hsuf.
Qed.

(** A host of each kind, for the existence half. *)
Lemma wildcards_overlap s1 s2 :
  (HasSuffix s1 s2 = true \/ HasSuffix s2 s1 = true) <->
  exists h l1 l2, l1 <> "" /\ l2 <> "" /\ h = l1 +:+ s1 /\ h = l2 +:+ s2.
Proof.
  split.
  - assert (Hx : forall t, "x" +:+ t <> "") by done.
    intros [[t ->]%HasSuffix_spec|[t ->]%HasSuffix_spec].
    + exists ("x" +:+ t +:+ s2), "x", ("x" +:+ t). split_and!; try done.
    + exists ("x" +:+ t +:+ s1), ("x" +:+ t), "x". split_and!; try done.
  - intros (h & l1 & l2 & _ & _ & -> & He).
    destruct (le_ge_dec (String.length s2) (String.length s1)) as [Hl|Hl].
    + left. destruct (suffix_nested _ _ _ _ He Hl) as (u & -> & _). apply HasSuffix_app.
    + right. destruct (suffix_nested _ _ _ _ (eq_sym He) Hl) as (u & -> & _). apply HasSuffix_app.
Qed.

Lemma hostnameMatches_overlap l r :
  valid_hostname l -> valid_hostname r ->
  hostnameMatches l r = true <-> exists h, denotes l h /\ denotes r h.
Proof.
  intros [_ Hl] [_ Hr]. rewrite <-ToLower_HasPrefix_dot in Hl, Hr.
  unfold hostnameMatches, denotes. revert Hl Hr. generalize (ToLower l) (ToLower r). clear l r.
  intros l r Hl Hr. case_bool_decide as Heq.
  { subst r. split; [|done]. intros _. destruct (HasPrefix l "*."); [|by exists l].
    exists ("x" +:+ str_drop 1 l). split; by exists "x". }
  destruct (HasPrefix l "*.") eqn:Hlw, (HasPrefix r "*.") eqn:Hrw; simpl.
  - rewrite orb_true_iff, wildcards_overlap. split.
    + intros (h & l1 & l2 & ? & ? & ? & ?). exists h. split; [by exists l1|by exists l2].
    + intros (h & (l1 & ? & ?) & (l2 & ? & ?)). by exists h, l1, l2.
  - rewrite matchesWildcard_denotes by done. split.
    + intros H. exists r. by split.
    + by intros (h & H & ->).
  - rewrite matchesWildcard_denotes by done. split.
    + intros H. exists l. by split.
    + by intros (h & -> & H).
  - split; [done|]. intros (h & -> & He). done.
Qed.

Lemma lower_byte_star c : lower_byte c = "*"%char <-> c = "*"%char.
Proof. destruct c as [[] [] [] [] [] [] [] []]; split; intros H; first [discriminate H|reflexivity]. Qed.
Lemma lower_byte_dot c : lower_byte c = "."%char <-> c = "."%char.
Proof. destruct c as [[] [] [] [] [] [] [] []]; split; intros H; first [discriminate H|reflexivity]. Qed.
Lemma ToLower_HasPrefix_wild p : HasPrefix (ToLower p) "*." = HasPrefix p "*.".
Proof.
  apply eq_true_iff_eq. rewrite !HasPrefix_spec. split; intros [t Ht].
  - destruct p as [|a [|b p]]; [done..|]. unfold ToLower in Ht. simpl in Ht.
    injection Ht as Ha Hb Ht. apply lower_byte_star in Ha as ->. apply lower_byte_dot in Hb as ->.
    by exists p.
  - subst p. rewrite ToLower_app. by eexists.
Qed.

Lemma wild_subset s1 s2 label :
  HasSuffix s1 s2 = true -> label <> "" -> exists label', label' <> "" /\ label +:+ s1 = label' +:+ s2.
Proof.
  intros [u ->]%HasSuffix_spec Hl. exists (label +:+ u). rewrite sapp_assoc. split; [|done].
  by destruct label.
Qed.
Lemma length_suffix p : HasPrefix p "*." = true -> S (String.length (str_drop 1 p)) = String.length p.
Proof. by intros (t & -> & ->)%wildcard_suffix. Qed.

(** The narrower pattern denotes exactly the intersection of two overlapping ones. *)
Lemma narrower_exact l r :
  valid_hostname l -> valid_hostname r -> hostnameMatches l r = true ->
  forall h, denotes (narrower l r) h <-> denotes l h /\ denotes r h.
Proof.
  intros [_ Hl] [_ Hr]. rewrite <-ToLower_HasPrefix_dot in Hl, Hr.
  unfold hostnameMatches, narrower. rewrite <-(ToLower_HasPrefix_wild l), <-(ToLower_HasPrefix_wild r).
  assert (Hlen : (String.length l <? String.length r) = (String.length (ToLower l) <? String.length (ToLower r)))
    by (by rewrite !length_ToLower).
  rewrite Hlen. unfold denotes. intros Hm h.
  destruct (HasPrefix (ToLower r) "*.") eqn:Hrw.
  2:{ rewrite Hrw. case_bool_decide as He; [rewrite He, Hrw; naive_solver|].
      destruct (HasPrefix (ToLower l) "*.") eqn:Hlw; simpl in Hm; [|done].
      apply matchesWildcard_denotes in Hm; [|done..]. split; [intros ->; by split|by intros [_ ?]]. }
  destruct (HasPrefix (ToLower l) "*.") eqn:Hlw; cbn [andb].
  2:{ rewrite Hlw. case_bool_decide as He; [congruence|]. simpl in Hm.
      apply matchesWildcard_denotes in Hm; [|done..]. split; [intros ->; by split|by intros [? _]]. }
  pose proof (length_suffix _ Hlw) as Ll. pose proof (length_suffix _ Hrw) as Lr.
  assert (Hnest : HasSuffix (str_drop 1 (ToLower l)) (str_drop 1 (ToLower r)) = true \/
                  HasSuffix (str_drop 1 (ToLower r)) (str_drop 1 (ToLower l)) = true).
  { case_bool_decide as He; [left; rewrite He; apply HasSuffix_refl|]. simpl in Hm. by apply orb_true_iff. }
  destruct (Nat.ltb_spec (String.length (ToLower l)) (String.length (ToLower r))) as [Hlt|Hge].
  - rewrite Hrw. destruct Hnest as [Hn|Hn]; [apply HasSuffix_length in Hn; lia|]. split; [|by intros [_ ?]].
    intros (label & Hne & ->). split; [by apply wild_subset|by exists label].
  - rewrite Hlw. split; [|by intros [? _]]. intros (label & Hne & ->). split; [by exists label|].
    apply wild_subset; [|done]. destruct Hnest as [Hn|Hn]; [done|].
    assert (String.length (ToLower l) = String.length (ToLower r)) as He by (apply HasSuffix_length in Hn; lia).
    assert (str_drop 1 (ToLower l) = str_drop 1 (ToLower r)) as ->; [|apply HasSuffix_refl].
    symmetry. eapply (HasSuffix_same_length (str_drop 1 (ToLower r))); [apply HasSuffix_refl|done|lia].
Qed.

(** The hosts a listener accepts, and those a route asks for. *)
Definition listener_accepts (l : option string) (h : string) : Prop :=
  match l with None => True | Some p => p = "" \/ denotes p h end.
Definition route_asks (hostnames : list string) (h : string) : Prop :=
  hostnames = [] \/ exists p, p ∈ hostnames /\ denotes p h.

(** Hostname intersection is exact.  For admissible hostnames, a listener
    and a route hostname match exactly when some host is denoted by both, and
    the hostname returned then denotes precisely the common hosts: wildcards
    cover every strict subdomain and never the apex, in any letter case. *)
Theorem hostname_intersection_exact (l r : string) :
  valid_hostname l -> valid_hostname r ->
  match HostnameIntersection (Some l) r with
  | Some e => (exists h, denotes e h) /\ forall h, denotes e h <-> denotes l h /\ denotes r h
  | None => forall h, ~ (denotes l h /\ denotes r h)
  end.
Proof.
  intros Hl Hr. pose proof (hostnameMatches_overlap l r Hl Hr) as Ho.
  pose proof (narrower_exact l r Hl Hr) as Hn. unfold HostnameIntersection.
  rewrite bool_decide_eq_false_2 by apply Hl. destruct (hostnameMatches l r); cbn [negb].
  - specialize (Hn eq_refl). split; [|done]. destruct (proj1 Ho eq_refl) as [h Hh]. exists h. by apply Hn.
  - intros h Hh. discriminate (proj2 Ho (ex_intro _ h Hh)).
Qed.
Lemma hostname_intersection_exact_witness :
  HostnameIntersection (Some "*.Example.com") "*.api.example.com" = Some "*.api.example.com" /\
  (forall h, denotes "*.api.example.com" h <->
     denotes "*.Example.com" h /\ denotes "*.api.example.com" h).
Proof.
  pose proof (hostname_intersection_exact "*.Example.com" "*.api.example.com"
    ltac:(split; [discriminate|reflexivity]) ltac:(split; [discriminate|reflexivity])) as H.
  change (HostnameIntersection (Some "*.Example.com") "*.api.example.com")
    with (Some "*.api.example.com") in H.
  split; [reflexivity|]. exact (proj2 H).
Defined.

Lemma valid_denotes_some p : valid_hostname p -> exists h, denotes p h.
Proof.
  intros _. unfold denotes. destruct (HasPrefix (ToLower p) "*."); [|eauto].
  exists ("x" +:+ str_drop 1 (ToLower p)). by exists "x".
Qed.
Definition valid_listener_hostname (l : option string) : Prop :=
  forall p, l = Some p -> p = "" \/ valid_hostname p.
Lemma HostnamesIntersect_spec l rs :
  valid_listener_hostname l -> (forall r, r ∈ rs -> valid_hostname r) ->
  HostnamesIntersect l rs = true <-> exists h, listener_accepts l h /\ route_asks rs h.
Proof.
  intros Hl Hrs. unfold HostnamesIntersect, listener_accepts, route_asks.
  assert (Hany : exists h, rs = [] \/ exists p, p ∈ rs /\ denotes p h).
  { destruct rs as [|r rs]; [by exists ""; left|].
    destruct (valid_denotes_some r) as [h Hh]; [apply Hrs; by left|].
    exists h. right. exists r. split; [by left|done]. }
  destruct l as [p|]; [|split; [|done]; intros _; destruct Hany as [h Hh]; by exists h].
  case_bool_decide as Hp.
  { split; [|done]. intros _. destruct Hany as [h Hh]. exists h. auto. }
  destruct (Hl p eq_refl) as [|Hv]; [done|].
  destruct (Nat.eqb_spec (length rs) 0) as [Hz|Hz].
  { apply nil_length_inv in Hz as ->. split; [|done]. intros _.
    destruct (valid_denotes_some p Hv) as [h Hh]. exists h. auto. }
  rewrite existsb_elem_of. split.
  - intros (r & Hr & (h & ? & ?)%(hostnameMatches_overlap p r Hv (Hrs r Hr))). exists h.
    split; [by right|right]. by exists r.
  - intros (h & [?|Hh] & [->|(r & Hr & Hhr)]); try done.
    exists r. split; [done|]. apply hostnameMatches_overlap; auto. by exists h.
Qed.

(** What the hostnames of one listener and one route denote together. *)
Lemma EffectiveListenerHostnames_denotes (l : option string) (rs : list string) :
  valid_listener_hostname l -> (forall r, r ∈ rs -> valid_hostname r) ->
  (forall h, listener_accepts l h /\ route_asks rs h <->
     ((l = None \/ l = Some "") /\ rs = []) \/
     exists e, e ∈ EffectiveListenerHostnames l rs /\ denotes e h) /\
  (HostnamesIntersect l rs = true <-> exists h, listener_accepts l h /\ route_asks rs h).
Proof.
  intros Hl Hrs. split; [|by apply HostnamesIntersect_spec]. intros h.
  unfold EffectiveListenerHostnames. destruct (Nat.eqb_spec (length rs) 0) as [Hz|Hz].
  - apply nil_length_inv in Hz as ->. unfold route_asks, listener_accepts.
    destruct l as [p|]; [|set_solver]. case_bool_decide as Hp; [subst; set_solver|].
    setoid_rewrite list_elem_of_singleton. naive_solver.
  - assert (Hne : rs <> []) by (by intros ->).
    assert (Hpair : forall r, r ∈ rs -> forall e, HostnameIntersection l r = Some e ->
      denotes e h <-> listener_accepts l h /\ denotes r h).
    { intros r Hr e. unfold HostnameIntersection, listener_accepts. destruct l as [p|]; [|naive_solver].
      case_bool_decide as Hp; [naive_solver|]. destruct (Hl p eq_refl) as [|Hv]; [done|].
      destruct (hostnameMatches p r) eqn:Hm; [|done]. intros [= <-].
      rewrite (narrower_exact p r Hv (Hrs r Hr) Hm). naive_solver. }
    assert (Hnone : forall r, r ∈ rs -> HostnameIntersection l r = None ->
      ~ (listener_accepts l h /\ denotes r h)).
    { intros r Hr. unfold HostnameIntersection, listener_accepts. destruct l as [p|]; [|done].
      case_bool_decide as Hp; [done|]. destruct (Hl p eq_refl) as [|Hv]; [done|].
      destruct (hostnameMatches p r) eqn:Hm; [done|]. intros _ [[?|Hd] Hdr]; [done|].
      assert (hostnameMatches p r = true); [|congruence]. apply hostnameMatches_overlap; auto. by exists h. }
    setoid_rewrite list_elem_of_omap. split.
    + intros (Ha & [?|(r & Hr & Hd)]); [done|]. right.
      destruct (HostnameIntersection l r) as [e|] eqn:He.
      * exists e. split; [by exists r|]. by apply (Hpair r Hr e He).
      * by destruct (Hnone r Hr He).
    + intros [[_ ?]|(e & (r & Hr & He) & Hd)]; [done|].
      apply (Hpair r Hr e He) in Hd as [? ?]. split; [done|]. right. by exists r.
Qed.

(** The effective hostnames of a route on a listener are exactly what the
    pair serves: a host is accepted by the listener and asked for by the route
    precisely when an effective hostname denotes it, or when neither side names
    hostnames; and the pair intersects at all precisely when such a host exists. *)
Theorem effective_hostnames_exact (l : option string) (rs : list string) :
  valid_listener_hostname l -> (forall r, r ∈ rs -> valid_hostname r) ->
  (forall h, listener_accepts l h /\ route_asks rs h <->
     ((l = None \/ l = Some "") /\ rs = []) \/
     exists e, e ∈ EffectiveListenerHostnames l rs /\ denotes e h) /\
  (HostnamesIntersect l rs = true <-> exists h, listener_accepts l h /\ route_asks rs h).
Proof. apply EffectiveListenerHostnames_denotes. Qed.
Lemma effective_hostnames_exact_witness :
  EffectiveListenerHostnames (Some "*.example.com") ["a.example.com"; "b.org"; "*.com"]
    = ["a.example.com"; "*.example.com"] /\
  (forall h, listener_accepts (Some "*.example.com") h /\ route_asks ["a.example.com"; "b.org"; "*.com"] h ->
     exists e, e ∈ ["a.example.com"; "*.example.com"] /\ denotes e h).
Proof.
  split; [reflexivity|]. intros h Hh.
  refine (match proj1 (proj1 (effective_hostnames_exact (Some "*.example.com")
    ["a.example.com"; "b.org"; "*.com"] _ _) h) Hh with or_introl H => _ | or_intror H => H end).
  - intros p [= <-]. right. split; [discriminate|reflexivity].
  - intros r. rewrite !elem_of_cons, elem_of_nil.
    intros [->|[->|[->|[]]]]; (split; [discriminate|reflexivity]).
  - destruct H as [_ H]. discriminate H.
Defined.

(** ** The matching loop *)

Section entries_facts.
Context {A : Type} (name : A -> string) (port : A -> Z) (accept : A -> res BindingError string).
Context (section : option string) (prt : option Z).
Notation sel := (selected name port section prt).

Definition accepted (x : A) : bool :=
  sel x && match accept x with Ok r => bool_decide (r = RouteReasonAccepted) | Err _ => false end.
Definition rejection (x : A) : option string :=
  if sel x then
    match accept x with
    | Ok r => if bool_decide (r = RouteReasonAccepted) then None else Some r
    | Err _ => None
    end
  else None.

Lemma match_loop_Ok entries m why out :
  match_loop name port accept section prt entries m why = Ok out <->
  (forall x, x ∈ entries -> sel x = true -> exists r, accept x = Ok r) /\
  out = (m ++ (name <$> List.filter accepted entries),
         default why (last (omap rejection entries))).
Proof.
  revert m why. induction entries as [|x xs IH]; intros m why; cbn [match_loop].
  { simpl. rewrite app_nil_r. split; [intros [= <-]; split; [by intros ? ?%elem_of_nil|done]|].
    by intros [_ ->]. }
  simpl omap. simpl List.filter. unfold accepted at 1, rejection at 1.
  setoid_rewrite elem_of_cons. destruct (sel x) eqn:Hs; cbn [negb andb].
  - rewrite bind_Ok. destruct (accept x) as [r|e] eqn:Ha.
    + assert (Hrew : (exists a, @Ok BindingError string r = Ok a /\
        (if bool_decide (a = RouteReasonAccepted) then match_loop name port accept section prt xs (m ++ [name x]) why
         else match_loop name port accept section prt xs m a) = Ok out) <->
        (if bool_decide (r = RouteReasonAccepted) then match_loop name port accept section prt xs (m ++ [name x]) why
         else match_loop name port accept section prt xs m r) = Ok out).
      { split; [by intros (? & [= <-] & ?)|eauto]. }
      assert (Hall : (forall y, y = x \/ y ∈ xs -> sel y = true -> exists r, accept y = Ok r) <->
                     (forall y, y ∈ xs -> sel y = true -> exists r, accept y = Ok r)).
      { split; [auto|]. intros H y [->|Hy]; [by exists r|auto]. }
      rewrite Hrew, Hall. case_bool_decide as Hr; rewrite IH.
      * by rewrite fmap_cons, <-app_assoc.
      * change (list_omap A string rejection xs) with (omap rejection xs). rewrite last_cons. by destruct (last (omap rejection xs)).
    + split; [by intros (? & ? & _)|]. intros [H _]. destruct (H x) as [? ?]; [by left|done|congruence].
  - rewrite IH. apply and_iff_compat_r. split; [|auto]. intros H y [->|Hy]; [congruence|auto].
Qed.

(** The only way the loop fails is a selected entry whose check fails. *)
Lemma match_loop_Err entries m why e :
  match_loop name port accept section prt entries m why = Err e ->
  exists x, x ∈ entries /\ sel x = true /\ accept x = Err e.
Proof.
  revert m why. induction entries as [|x xs IH]; intros m why; cbn [match_loop]; [done|].
  destruct (sel x) eqn:Hs; cbn [negb].
  - rewrite bind_Err. intros [He|(r & _ & He)]; [by exists x; split; [left|]|].
    case_bool_decide; apply IH in He as (y & ? & ? & ?); exists y; (split; [by right|done]).
  - intros (y & ? & ? & ?)%IH. exists y. split; [by right|done].
Qed.
End entries_facts.

Section binding_facts.
Context {cluster : Cluster}.

(** A listener binds a route when hostnames, namespace policy and kind agree. *)
Definition binds (parentNamespace : string) (route : RouteInfo) (l : Listener) : bool :=
  HostnamesIntersect (l_Hostname l) (ri_Hostnames route) &&
  match IsNamespaceAllowed (l_AllowedRoutes l) parentNamespace (ri_Namespace route) with
  | Ok b => b
  | Err _ => false
  end &&
  IsRouteKindAllowed (l_AllowedRoutes l) (l_Protocol l) (ri_Kind route).
(** The parentRef's sectionName and port point at the listener. *)
Definition targets (route : RouteInfo) (l : Listener) : bool :=
  selected l_Name l_Port (ri_SectionName route) (ri_Port route) l.

Lemma evaluate_binds l ns route :
  match evaluateListenerBinding l ns route with
  | Ok r => r = RouteReasonAccepted <-> binds ns route l = true
  | Err _ => HostnamesIntersect (l_Hostname l) (ri_Hostnames route) = true /\
      exists sel, route_selector (l_AllowedRoutes l) = Some sel /\ LabelSelectorAsSelector sel = None
  end.
Proof.
  unfold evaluateListenerBinding, binds. destruct (HostnamesIntersect _ _); cbn [negb andb]; [|done].
  destruct (IsNamespaceAllowed _ _ _) as [b|e] eqn:Hn; cbn.
  - destruct b; cbn; [|done]. by destruct (IsRouteKindAllowed _ _ _).
  - split; [done|]. unfold IsNamespaceAllowed, namespaceMatchesSelector in Hn.
    repeat (case_bool_decide; [try done|]); try done.
    destruct (route_selector _) as [sel|]; [|done]. exists sel. split; [done|].
    destruct (LabelSelectorAsSelector sel); [|done]. by destruct (namespace_labels _).
Qed.

Lemma accepted_binds ns route listeners :
  (forall l, l ∈ listeners -> targets route l = true -> exists r, evaluateListenerBinding l ns route = Ok r) ->
  List.filter (accepted l_Name l_Port (fun l => evaluateListenerBinding l ns route)
    (ri_SectionName route) (ri_Port route)) listeners =
  List.filter (fun l => targets route l && binds ns route l) listeners.
Proof.
  intros Hok. apply List.filter_ext_in. intros l Hl%list_elem_of_In. unfold accepted. fold (targets route l).
  destruct (targets route l) eqn:Ht; [|done]. simpl. destruct (Hok l Hl Ht) as [r Hr].
  pose proof (evaluate_binds l ns route) as He. rewrite Hr in He |- *.
  case_bool_decide; destruct (binds ns route l); intuition congruence.
Qed.
Lemma evaluate_nonempty l ns route : evaluateListenerBinding l ns route <> Ok "".
Proof.
  unfold evaluateListenerBinding. destruct (negb _); [done|].
  destruct (IsNamespaceAllowed _ _ _) as [[]|]; cbn; try done. by destruct (negb _).
Qed.

(** With an unrestricted parentRef and no match, the last listener's reason is kept. *)
Lemma last_rejection ns route listeners l :
  ri_SectionName route = None -> ri_Port route = None ->
  (forall l, l ∈ listeners -> targets route l = true -> exists r, evaluateListenerBinding l ns route = Ok r) ->
  List.filter (fun l => targets route l && binds ns route l) listeners = [] ->
  last listeners = Some l ->
  exists why, evaluateListenerBinding l ns route = Ok why /\
    last (omap (rejection l_Name l_Port (fun l => evaluateListenerBinding l ns route)
      (ri_SectionName route) (ri_Port route)) listeners) = Some why.
Proof.
  intros Hs Hp Hok Hnone Hlast.
  assert (Ht : forall x, targets route x = true) by (intros; unfold targets, selected; by rewrite Hs, Hp).
  apply last_Some in Hlast as [init ->].
  destruct (Hok l) as [why Hw]; [apply elem_of_app; right; by left|done|].
  exists why. split; [done|]. rewrite omap_app. simpl. unfold rejection at 2. fold (targets route l).
  rewrite Ht, Hw. pose proof (evaluate_binds l ns route) as He. rewrite Hw in He.
  rewrite bool_decide_eq_false_2; [by rewrite last_snoc|]. intros Hb%He.
  rewrite List.filter_app in Hnone. apply app_eq_nil in Hnone as [_ Hnone]. simpl in Hnone.
  by rewrite Ht, Hb in Hnone.
Qed.
End binding_facts.

(** The outcome of the validators. *)
Lemma validate_listeners_exact {cluster : Cluster} (listeners : list Listener) (ns : string) (route : RouteInfo) :
  let bound := List.filter (fun l => targets route l && binds ns route l) listeners in
  match validate_listeners listeners ns route with
  | Ok r =>
      br_MatchedListeners r = l_Name <$> bound /\ br_Accepted r = negb (bool_decide (bound = [])) /\
      br_Reason r =
        (if bool_decide (bound = []) then
           match ri_SectionName route, ri_Port route, last listeners with
           | None, None, Some l =>
               match evaluateListenerBinding l ns route with Ok why => why | Err _ => "" end
           | _, _, _ => RouteReasonNoMatchingParent
           end
         else RouteReasonAccepted)
  | Err _ => exists l sel, l ∈ listeners /\ targets route l = true /\
      route_selector (l_AllowedRoutes l) = Some sel /\ LabelSelectorAsSelector sel = None
  end.
Proof.
  intros bound. unfold validate_listeners, findMatchingEntries.
  destruct (Nat.eqb_spec (length listeners) 0) as [Hz|Hz].
  { apply nil_length_inv in Hz. subst bound. rewrite Hz. simpl.
    destruct (ri_SectionName route), (ri_Port route); done. }
  set (acc := fun l => evaluateListenerBinding l ns route).
  destruct (match_loop l_Name l_Port acc (ri_SectionName route) (ri_Port route) listeners [] "")
    as [[m why]|e] eqn:Hloop; cbn.
  2:{ apply match_loop_Err in Hloop as (l & Hl & Ht & He). pose proof (evaluate_binds l ns route) as Hb.
      subst acc. simpl in He. rewrite He in Hb. destruct Hb as (_ & sel & ? & ?). by exists l, sel. }
  apply match_loop_Ok in Hloop as [Hok [= -> ->]]. subst acc. rewrite (accepted_binds ns route listeners Hok). fold bound.
  simpl app. rewrite length_fmap. destruct bound as [|b bs] eqn:Hbound; [|by simpl].
  simpl. destruct (ri_SectionName route) eqn:Hs, (ri_Port route) eqn:Hp; try done.
  destruct (last listeners) as [l|] eqn:Hlast; [|by apply last_None in Hlast; subst].
  destruct (last_rejection ns route listeners l Hs Hp) as (why & Hw & Hlr); [unfold targets; by rewrite Hs, Hp|exact Hbound|done|].
  rewrite Hs, Hp in Hlr. rewrite Hlr. simpl. rewrite Hw.
  case_bool_decide as He; [|done]. subst why. by destruct (evaluate_nonempty l ns route).
Qed.

(** Binding a route to listeners is sound and complete.  The matched
    listeners are exactly those the parentRef targets (by section and port)
    whose hostnames intersect and whose namespace and kind policies admit the
    route, in listener order; the route is accepted when there is one.  A
    rejection carries NoMatchingParent for a narrowed parentRef or an empty
    list, and otherwise the reason of the last listener; an error means a
    targeted listener has an invalid label selector. *)
Theorem binding_exact {cluster : Cluster} (listeners : list Listener) (ns : string) (route : RouteInfo) :
  let bound := List.filter (fun l => targets route l && binds ns route l) listeners in
  match validate_listeners listeners ns route with
  | Ok r =>
      br_MatchedListeners r = l_Name <$> bound /\ br_Accepted r = negb (bool_decide (bound = [])) /\
      br_Reason r =
        (if bool_decide (bound = []) then
           match ri_SectionName route, ri_Port route, last listeners with
           | None, None, Some l =>
               match evaluateListenerBinding l ns route with Ok why => why | Err _ => "" end
           | _, _, _ => RouteReasonNoMatchingParent
           end
         else RouteReasonAccepted)
  | Err _ => exists l sel, l ∈ listeners /\ targets route l = true /\
      route_selector (l_AllowedRoutes l) = Some sel /\ LabelSelectorAsSelector sel = None
  end.
Proof. apply validate_listeners_exact. Qed.

(** Namespace policies fail closed.  A route is admitted by All, by
    Selector only when the selector converts and the route's namespace exists
    with matching labels, and otherwise (unset policies included) only from the
    parent's own namespace, never under None; a ListenerSet is admitted the same
    way except that an unset or unknown policy admits none. *)
Theorem namespace_policies_fail_closed {cluster : Cluster} (allowed : option AllowedRoutes) (gwns rtns : string)
    (gateway : Gateway) (set : ListenerSet) :
  let selects sel ns := exists s matches labels, sel = Some s /\ LabelSelectorAsSelector s = Some matches /\
    namespace_labels ns = Some labels /\ matches labels = true in
  (IsNamespaceAllowed allowed gwns rtns = Ok true <->
     getNamespaceFrom allowed = NamespacesFromAll \/
     (getNamespaceFrom allowed = NamespacesFromSelector /\ selects (route_selector allowed) rtns) \/
     (getNamespaceFrom allowed ∉ [NamespacesFromAll; NamespacesFromSelector; NamespacesFromNone] /\ gwns = rtns)) /\
  (EvaluateListenerSetAcceptance gateway set = Ok true <->
     let from := getListenerNamespaceFrom (gw_AllowedListeners gateway) in
     from = NamespacesFromAll \/
     (from = NamespacesFromSelector /\
      selects (a ← gw_AllowedListeners gateway; ns ← al_Namespaces a; rn_Selector ns) (ls_Namespace set)) \/
     (from = NamespacesFromSame /\ gw_Namespace gateway = ls_Namespace set)).
Proof.
  intros selects.
  assert (Hsel : forall sel ns, namespaceMatchesSelector sel ns = Ok true <-> selects sel ns).
  { intros sel ns. unfold namespaceMatchesSelector, selects. destruct sel as [s|].
    - destruct (LabelSelectorAsSelector s) as [m|] eqn:Hm; [|split; [done|]; intros (?&?&?&[= <-]&?&?); congruence].
      destruct (namespace_labels ns) as [lb|] eqn:Hl;
        [|split; [done|]; intros (?&?&?&[= <-]&?&?&?); congruence].
      split; [intros [=]; by exists s, m, lb|]. intros (? & ? & ? & [= <-] & ? & ? & ?). congruence.
    - split; [done|]. by intros (? & ? & ? & ? & _). }
  split.
  - unfold IsNamespaceAllowed. rewrite !not_elem_of_cons.
    generalize (getNamespaceFrom allowed). intros from.
    unfold NamespacesFromSame, NamespacesFromAll, NamespacesFromSelector, NamespacesFromNone.
    repeat case_bool_decide; subst; rewrite ?Hsel; split; intros Hx; try congruence;
      repeat match goal with H : _ \/ _ |- _ => destruct H | H : _ /\ _ |- _ => destruct H end;
      try congruence; auto; right; right; split_and!; try congruence; apply not_elem_of_nil.
  - unfold EvaluateListenerSetAcceptance, listenerSetNamespaceMatchesSelector. cbv zeta.
    generalize (getListenerNamespaceFrom (gw_AllowedListeners gateway)). intros from.
    assert (Hs : match (a ← gw_AllowedListeners gateway; ns ← al_Namespaces a; rn_Selector ns) with
      | Some sel => namespaceMatchesSelector (Some sel) (ls_Namespace set) | None => Ok false end = Ok true <->
      selects (a ← gw_AllowedListeners gateway; ns ← al_Namespaces a; rn_Selector ns) (ls_Namespace set)).
    { rewrite <-Hsel. by destruct (a ← gw_AllowedListeners gateway; ns ← al_Namespaces a; rn_Selector ns). }
    unfold NamespacesFromSame, NamespacesFromAll, NamespacesFromSelector, NamespacesFromNone in *.
    repeat case_bool_decide; subst; rewrite ?Hs; split; intros Hx; try congruence;
      repeat match goal with H : _ \/ _ |- _ => destruct H | H : _ /\ _ |- _ => destruct H end;
      try congruence; auto.
Qed.
