(* ===== verification/ListenerMerge.v ===== *)
(** * Merging listeners ([internal/listenermerge/merge.go])

    The precedence-ordered view of a Gateway's listeners and those of the
    ListenerSets attached to it, with conflicts annotated.  Creation timestamps
    are instants in nanoseconds. *)
From Stdlib Require Import Ascii.
From stdpp Require Import sorting.
From stdpp Require Import base sets gmap strings list.
From S2P Require Import Prelude GoStrings RouteBinding.

(** ** The merged view *)

Inductive ParentKind := ParentKindGateway | ParentKindListenerSet.

Record MergedListener := mkMergedListener {
  ml_ParentKind : ParentKind;
  ml_ListenerSet : option ListenerSet;
  ml_Index : nat;
  ml_Name : string;
  ml_Port : Z;
  ml_Protocol : string;
  ml_Hostname : option string;
  ml_AllowedRoutes : option AllowedRoutes;
  ml_ConflictReason : string;
  ml_ConflictMessage : string;
}.

Definition ListenerReasonProtocolConflict : string := "ProtocolConflict".
Definition ListenerReasonHostnameConflict : string := "HostnameConflict".

Definition hostnameValue (h : option string) : string := match h with None => "" | Some h => h end.

(** Timestamp, then namespace, then name ([SortStableFunc]'s comparator). *)
Definition listenerSet_less : ListenerSet -> ListenerSet -> bool :=
  lex_less ls_CreationTimestamp Z.ltb (lex_less ls_Namespace str_ltb (by_key ls_Name str_ltb)).
Definition sortListenerSets (sets : list ListenerSet) : list ListenerSet := stable_sort listenerSet_less sets.

Definition entry_of (kind : ParentKind) (set : option ListenerSet) (i : nat) (l : Listener) : MergedListener :=
  mkMergedListener kind set i (l_Name l) (l_Port l) (l_Protocol l) (l_Hostname l) (l_AllowedRoutes l) "" "".
Definition appendGatewayListeners (out : list MergedListener) (gateway : option Gateway) : list MergedListener :=
  match gateway with
  | None => out
  | Some g => out ++ imap (entry_of ParentKindGateway None) (gw_Listeners g)
  end.
Definition appendListenerSetEntries (out : list MergedListener) (ls : ListenerSet) : list MergedListener :=
  out ++ imap (entry_of ParentKindListenerSet (Some ls)) (ls_Listeners ls).

(** ** Conflicts *)

Definition with_conflict (reason message : string) (e : MergedListener) : MergedListener :=
  mkMergedListener (ml_ParentKind e) (ml_ListenerSet e) (ml_Index e) (ml_Name e) (ml_Port e) (ml_Protocol e)
    (ml_Hostname e) (ml_AllowedRoutes e) reason message.
Definition hostnameKey (e : MergedListener) : Z * string := (ml_Port e, hostnameValue (ml_Hostname e)).

Fixpoint annotate (protoSeen : gmap Z string) (hostnameSeen : gset (Z * string)) (merged : list MergedListener)
    : list MergedListener :=
  match merged with
  | [] => []
  | e :: merged' =>
      let protocolTaken :=
        match protoSeen !! ml_Port e with
        | Some existing => negb (bool_decide (existing = ml_Protocol e))
        | None => false
        end in
      if protocolTaken then
        with_conflict ListenerReasonProtocolConflict
          "Listener conflicts on protocol with a higher-precedence listener on the same port" e
        :: annotate protoSeen hostnameSeen merged'
      else if bool_decide (hostnameKey e ∈ hostnameSeen) then
        with_conflict ListenerReasonHostnameConflict
          "Listener conflicts on hostname with a higher-precedence listener on the same port" e
        :: annotate protoSeen hostnameSeen merged'
      else
        let protoSeen :=
          match protoSeen !! ml_Port e with
          | Some _ => protoSeen
          | None => <[ml_Port e := ml_Protocol e]> protoSeen
          end in
        e :: annotate protoSeen (hostnameSeen ∪ {[hostnameKey e]}) merged'
  end.
Definition annotateConflicts (merged : list MergedListener) : list MergedListener := annotate ∅ ∅ merged.

Definition merge_entries (gateway : option Gateway) (listenerSets : list ListenerSet) : list MergedListener :=
  foldl appendListenerSetEntries (appendGatewayListeners [] gateway) (sortListenerSets listenerSets).
Definition Merge (gateway : option Gateway) (listenerSets : list ListenerSet) : list MergedListener :=
  annotateConflicts (merge_entries gateway listenerSets).

(** ** What the annotation means *)

Definition clean (e : MergedListener) : Prop := ml_ConflictReason e = "".
(** Two listeners that can be programmed side by side. *)
Definition compatible (e1 e2 : MergedListener) : Prop :=
  ml_Port e1 = ml_Port e2 ->
  ml_Protocol e1 = ml_Protocol e2 /\ hostnameValue (ml_Hostname e1) <> hostnameValue (ml_Hostname e2).
(** [e] lost to the earlier, accepted listener [w]. *)
Definition lost_to (e w : MergedListener) : Prop :=
  ml_Port w = ml_Port e /\
  ((ml_ConflictReason e = ListenerReasonProtocolConflict /\ ml_Protocol w <> ml_Protocol e) \/
   (ml_ConflictReason e = ListenerReasonHostnameConflict /\ ml_Protocol w = ml_Protocol e /\
    hostnameValue (ml_Hostname w) = hostnameValue (ml_Hostname e))).

(** The maps record exactly the accepted listeners [acc] so far. *)
Definition seen_inv (acc : list MergedListener) (protoSeen : gmap Z string) (hostnameSeen : gset (Z * string))
    : Prop :=
  (forall port proto, protoSeen !! port = Some proto <->
     exists e, e ∈ acc /\ ml_Port e = port /\ ml_Protocol e = proto) /\
  (forall key, key ∈ hostnameSeen <-> exists e, e ∈ acc /\ hostnameKey e = key).

Lemma with_conflict_clean r m e : with_conflict r m e = with_conflict r m (with_conflict "" "" e).
Proof. by destruct e. Qed.

Lemma annotate_fields ps hs merged :
  with_conflict "" "" <$> annotate ps hs merged = with_conflict "" "" <$> merged.
Proof.
  revert ps hs. induction merged as [|e m IH]; intros ps hs; simpl; [done|].
  repeat case_match; simpl; by rewrite IH.
Qed.

Lemma seen_inv_accept acc ps hs e :
  seen_inv acc ps hs ->
  (forall proto, ps !! ml_Port e = Some proto -> proto = ml_Protocol e) ->
  seen_inv (acc ++ [e])
    (match ps !! ml_Port e with Some _ => ps | None => <[ml_Port e := ml_Protocol e]> ps end)
    (hs ∪ {[hostnameKey e]}).
Proof.
  intros [Hp Hh] Hsame. split.
  - intros port proto. setoid_rewrite elem_of_app. setoid_rewrite list_elem_of_singleton.
    destruct (ps !! ml_Port e) as [pr|] eqn:He.
    + rewrite Hp. split; [intros (w & ? & ? & ?); exists w; auto|].
      intros (w & [?| ->] & <- & <-); [by exists w|]. rewrite (Hsame pr eq_refl) in He. by apply Hp.
    + rewrite lookup_insert_Some, Hp. split.
      * intros [[<- <-]|(_ & w & ? & ? & ?)]; [exists e; auto|exists w; auto].
      * intros (w & [Hw| ->] & <- & <-); [right|by left]. split; [|by exists w].
        intros Heq. assert (ps !! ml_Port e = Some (ml_Protocol w)) by (apply Hp; by exists w). congruence.
  - intros key. rewrite elem_of_union, elem_of_singleton, Hh.
    setoid_rewrite elem_of_app. setoid_rewrite list_elem_of_singleton. clear. naive_solver.
Qed.

Lemma annotate_spec acc ps hs merged :
  seen_inv acc ps hs -> Forall clean merged ->
  forall i e, annotate ps hs merged !! i = Some e ->
    (clean e -> forall w, w ∈ acc \/ (exists j, j < i /\ annotate ps hs merged !! j = Some w /\ clean w) ->
       compatible w e) /\
    (~ clean e -> exists w, (w ∈ acc \/ (exists j, j < i /\ annotate ps hs merged !! j = Some w /\ clean w)) /\
       lost_to e w).
Proof.
  revert acc ps hs. induction merged as [|x m IH]; intros acc ps hs Hinv Hcl i e; [done|].
  apply Forall_cons in Hcl as [Hx Hcl]. cbn [annotate].
  (* an entry that lost: the maps do not change *)
  assert (Hskip : forall y w0, ~ clean y -> w0 ∈ acc -> lost_to y w0 ->
    forall e', (y :: annotate ps hs m) !! i = Some e' ->
    (clean e' -> forall w, w ∈ acc \/ (exists j, j < i /\ (y :: annotate ps hs m) !! j = Some w /\ clean w) ->
       compatible w e') /\
    (~ clean e' -> exists w, (w ∈ acc \/ (exists j, j < i /\ (y :: annotate ps hs m) !! j = Some w /\ clean w)) /\
       lost_to e' w)).
  { intros y w0 Hy Hw0 Hlost e' He'. destruct i as [|i]; simpl in He'.
    - simplify_eq. split; [done|]. intros _. exists w0. auto.
    - destruct (IH acc ps hs Hinv Hcl i e' He') as [H1 H2]. split.
      + intros Hc w [Hw|([|j] & Hj & Hl & Hcw)]; [by apply H1; [|left]|by simplify_eq/=|].
        apply H1; [done|]. right. exists j. split; [lia|done].
      + intros Hc. destruct (H2 Hc) as (w & [Hw|(j & Hj & Hl & Hcw)] & Hlw); exists w; (split; [|done]); [by left|].
        right. exists (S j). split; [lia|done]. }
  pose proof Hinv as [Hp Hh].
  destruct (match ps !! ml_Port x with Some ex => negb (bool_decide (ex = ml_Protocol x)) | None => false end) eqn:Hpt.
  { destruct (ps !! ml_Port x) as [ex|] eqn:Hex; [|done]. breflect.
    apply Hp in Hex as (w0 & Hw0 & Hport & <-). apply (Hskip _ w0); [done|done|].
    split; [done|]. left. done. }
  assert (Hsame : forall proto, ps !! ml_Port x = Some proto -> proto = ml_Protocol x).
  { intros proto Hl. rewrite Hl in Hpt. by breflect. }
  case_bool_decide as Hht.
  { apply Hh in Hht as (w0 & Hw0 & Hkey). unfold hostnameKey in Hkey. injection Hkey as Hk1 Hk2.
    apply (Hskip _ w0); [done|done|]. split; [done|]. right. split; [done|]. split; [|done].
    simpl. apply Hsame, Hp. by exists w0. }
  pose proof (seen_inv_accept acc ps hs x Hinv Hsame) as Hinv'.
  destruct i as [|i]; simpl.
  - intros [= <-]. split; [|done]. intros _ w [Hw|(j & ? & _)]; [|lia]. intros Hport. split.
    + apply Hsame, Hp. by exists w.
    + intros Heq. apply Hht, Hh. exists w. split; [done|]. unfold hostnameKey. by rewrite Hport, Heq.
  - intros He. destruct (IH _ _ _ Hinv' Hcl i e He) as [H1 H2]. split.
    + intros Hc w [Hw|([|j] & Hj & Hl & Hcw)]; simplify_eq/=; apply H1; try done.
      * left. apply elem_of_app. by left.
      * left. apply elem_of_app. right. by left.
      * right. exists j. split; [lia|done].
    + intros Hc. destruct (H2 Hc) as (w & [Hw|(j & Hj & Hl & Hcw)] & Hlw); exists w; (split; [|done]).
      * apply elem_of_app in Hw as [Hw| ->%list_elem_of_singleton]; [by left|]. right. exists 0. split; [lia|done].
      * right. exists (S j). split; [lia|done].
Qed.

(** The merged entries before annotation: own listeners, then the sets in order. *)
Lemma merge_entries_eq gateway sets :
  merge_entries gateway sets =
  (match gateway with Some g => imap (entry_of ParentKindGateway None) (gw_Listeners g) | None => [] end) ++
  (sortListenerSets sets ≫= fun ls => imap (entry_of ParentKindListenerSet (Some ls)) (ls_Listeners ls)).
Proof.
  unfold merge_entries.
  assert (Hfold : forall l out, foldl appendListenerSetEntries out l =
    out ++ (l ≫= fun ls => imap (entry_of ParentKindListenerSet (Some ls)) (ls_Listeners ls))).
  { induction l as [|ls l IH]; intros out; simpl; [by rewrite app_nil_r|].
    rewrite IH. unfold appendListenerSetEntries. by rewrite <-app_assoc. }
  rewrite Hfold. by destruct gateway.
Qed.
Lemma entries_clean kind set ls : Forall clean (imap (entry_of kind set) ls).
Proof.
  apply Forall_forall. intros e [i Hi]%list_elem_of_lookup. rewrite list_lookup_imap in Hi.
  destruct (ls !! i); simplify_eq/=. done.
Qed.
Lemma merge_entries_clean gateway sets : Forall clean (merge_entries gateway sets).
Proof.
  rewrite merge_entries_eq. apply Forall_app. split; [destruct gateway; [apply entries_clean|constructor]|].
  apply Forall_bind, Forall_true. intros ls. apply entries_clean.
Qed.

Lemma Merge_fields gateway sets :
  with_conflict "" "" <$> Merge gateway sets = merge_entries gateway sets.
Proof.
  unfold Merge, annotateConflicts. rewrite annotate_fields.
  assert (Hid : forall e, e ∈ merge_entries gateway sets -> with_conflict "" "" e = e).
  { rewrite merge_entries_eq. intros e [He|He]%elem_of_app.
    - destruct gateway as [g|]; [|by apply elem_of_nil in He].
      apply list_elem_of_lookup in He as [i Hi]. rewrite list_lookup_imap in Hi.
      destruct (gw_Listeners g !! i); simplify_eq/=; done.
    - apply list_elem_of_bind in He as (ls & [i Hi]%list_elem_of_lookup & _). rewrite list_lookup_imap in Hi.
      destruct (ls_Listeners ls !! i); simplify_eq/=; done. }
  induction (merge_entries gateway sets) as [|e m IH]; simpl; [done|].
  rewrite Hid by (by left). f_equal. apply IH. intros e' He'. apply Hid. by right.
Qed.

(** The merged view resolves every conflict by precedence.  It lists the
    Gateway's own listeners and then the sets' entries in precedence order,
    changing nothing but the conflict annotation; any two listeners left
    without a conflict can be programmed together (no shared port with another
    protocol, no shared port and hostname); and every annotated listener lost to
    an earlier listener without a conflict, for the annotated reason. *)
Theorem merge_conflicts_exact (gateway : option Gateway) (sets : list ListenerSet) :
  let merged := Merge gateway sets in
  with_conflict "" "" <$> merged =
    (match gateway with Some g => imap (entry_of ParentKindGateway None) (gw_Listeners g) | None => [] end) ++
    (sortListenerSets sets ≫= fun ls => imap (entry_of ParentKindListenerSet (Some ls)) (ls_Listeners ls)) /\
  (forall i j w e, j < i -> merged !! j = Some w -> merged !! i = Some e -> clean w -> clean e -> compatible w e) /\
  (forall i e, merged !! i = Some e -> ~ clean e ->
     exists j w, j < i /\ merged !! j = Some w /\ clean w /\ lost_to e w).
Proof.
  intros merged. split; [by unfold merged; rewrite Merge_fields, merge_entries_eq|].
  assert (H0 : seen_inv [] ∅ ∅).
  { split; [intros port proto; rewrite lookup_empty|intros key; rewrite elem_of_empty];
      (split; [done|]); by intros (? & ?%elem_of_nil & _). }
  pose proof (annotate_spec [] ∅ ∅ _ H0 (merge_entries_clean gateway sets)) as H. split.
  - intros i j w e Hj Hw He Hcw Hce. apply (H i e He); [done|]. right. by exists j.
  - intros i e He Hce. destruct (proj2 (H i e He) Hce) as (w & [?%elem_of_nil|(j & ? & ? & ?)] & Hl); [done|].
    by exists j, w.
Qed.

(** ** The order the sets arrive in does not matter *)

Lemma listenerSet_less_tie x y :
  listenerSet_less x y = false -> listenerSet_less y x = false ->
  ls_Namespace x = ls_Namespace y /\ ls_Name x = ls_Name y.
Proof.
  intros H1 H2. destruct (lex_less_tie _ _ _ _ _ H1 H2) as (_ & H3 & H4).
  destruct (lex_less_tie _ _ _ _ _ H3 H4) as (? & H5 & H6). split; [done|].
  by apply (st_total (lt := str_ltb)).
Qed.

Lemma Merge_perm (gateway : option Gateway) (sets1 sets2 : list ListenerSet) :
  (forall x y, x ∈ sets1 -> y ∈ sets1 -> ls_Namespace x = ls_Namespace y -> ls_Name x = ls_Name y -> x = y) ->
  sets1 ≡ₚ sets2 -> Merge gateway sets1 = Merge gateway sets2.
Proof.
  intros Hid Hp. unfold Merge, merge_entries, sortListenerSets. do 2 f_equal.
  apply (stable_sort_order_independent listenerSet_less); [|done].
  intros x y Hx Hy H1 H2. destruct (listenerSet_less_tie x y H1 H2). by apply Hid.
Qed.

(** The merged view does not depend on the order the ListenerSets were
    listed in, as long as namespace and name identify a set (which the API
    server guarantees). *)
Theorem merge_order_independent (gateway : option Gateway) (sets1 sets2 : list ListenerSet) :
  (forall x y, x ∈ sets1 -> y ∈ sets1 -> ls_Namespace x = ls_Namespace y -> ls_Name x = ls_Name y -> x = y) ->
  sets1 ≡ₚ sets2 -> Merge gateway sets1 = Merge gateway sets2.
Proof. apply Merge_perm. Qed.
Definition set_named (ns name : string) (ts : Z) (host : string) : ListenerSet :=
  mkListenerSet name ns ts [mkListener "web" (Some host) 80 "HTTP" None []].
Lemma merge_order_independent_witness :
  Merge None [set_named "a" "x" 5 "h"; set_named "b" "y" 3 "h"] =
  Merge None [set_named "b" "y" 3 "h"; set_named "a" "x" 5 "h"].
Proof.
  apply merge_order_independent.
  - intros x y. rewrite !elem_of_cons, !elem_of_nil.
    intros [->|[->|[]]] [->|[->|[]]]; intros Hns Hname; first [reflexivity|exfalso; vm_compute in Hns; congruence].
  - apply Permutation_swap.
Defined.

(** Ties are not broken by the joined string "namespace/name".  Two sets
    of the same age are ordered by namespace and then by name; where one
    namespace is a prefix of the other this is not the alphabetical order of
    the joined strings. *)
Theorem tie_break_is_per_component :
  exists s1 s2, ls_CreationTimestamp s1 = ls_CreationTimestamp s2 /\
    str_ltb (ls_Namespace s2 +:+ "/" +:+ ls_Name s2) (ls_Namespace s1 +:+ "/" +:+ ls_Name s1) = true /\
    sortListenerSets [s2; s1] = [s1; s2].
Proof. exists (set_named "team" "x" 0 "h"), (set_named "team-a" "x" 0 "h"). split_and!; vm_compute; reflexivity. Qed.
