(* ===== verification/ReferenceGrant.v ===== *)
(** * Cross-namespace references ([internal/referencegrant/validator.go])

    The API server's list of ReferenceGrants is a parameter; [None] is a failed
    list call. *)
From stdpp Require Import base sets strings list.
From S2P Require Import Prelude GoStrings.

Record Reference := mkReference {
  ref_Group : string;
  ref_Kind : string;
  ref_Namespace : string;
  ref_Name : string;
}.
Record ReferenceGrantFrom := mkGrantFrom { gf_Group : string; gf_Kind : string; gf_Namespace : string }.
Record ReferenceGrantTo := mkGrantTo { gt_Group : string; gt_Kind : string; gt_Name : option string }.
Record ReferenceGrant := mkReferenceGrant {
  grant_Namespace : string;
  grant_From : list ReferenceGrantFrom;
  grant_To : list ReferenceGrantTo;
}.

(** [client.List(..., client.InNamespace(ns))]. *)
Class GrantClient := list_grants : string -> option (list ReferenceGrant).

Definition matchesFrom (grantFrom : ReferenceGrantFrom) (fromRef : Reference) : bool :=
  if negb (bool_decide (gf_Group grantFrom = ref_Group fromRef)) then false
  else if negb (bool_decide (gf_Kind grantFrom = ref_Kind fromRef)) then false
  else if negb (bool_decide (gf_Namespace grantFrom = ref_Namespace fromRef)) then false
  else true.

Definition matchesTo (grantTo : ReferenceGrantTo) (toRef : Reference) : bool :=
  let grantGroup := if bool_decide (gt_Group grantTo = "core") then "" else gt_Group grantTo in
  if negb (bool_decide (grantGroup = ref_Group toRef)) then false
  else if negb (bool_decide (gt_Kind grantTo = ref_Kind toRef)) then false
  else match gt_Name grantTo with
       | Some n => bool_decide (n = ref_Name toRef)
       | None => true
       end.

Definition grantAllowsReference (grant : ReferenceGrant) (fromRef toRef : Reference) : bool :=
  let fromAllowed := existsb (fun f => matchesFrom f fromRef) (grant_From grant) in
  if negb fromAllowed then false
  else existsb (fun t => matchesTo t toRef) (grant_To grant).

Inductive GrantError := errListGrants.

Definition IsReferenceAllowed {grants_api : GrantClient} (fromRef toRef : Reference) : res GrantError bool :=
  if bool_decide (ref_Namespace fromRef = ref_Namespace toRef) then Ok true
  else
    match list_grants (ref_Namespace toRef) with
    | None => Err errListGrants
    | Some grants => Ok (existsb (fun g => grantAllowsReference g fromRef toRef) grants)
    end.

(** ** Specification *)

(** The grant entry admits the source: group, kind and namespace agree. *)
Definition admits_from (f : ReferenceGrantFrom) (r : Reference) : Prop :=
  gf_Group f = ref_Group r /\ gf_Kind f = ref_Kind r /\ gf_Namespace f = ref_Namespace r.
(** The grant entry covers the target: group (["core"] is the core group), kind, and name if given. *)
Definition covers_to (t : ReferenceGrantTo) (r : Reference) : Prop :=
  (gt_Group t = ref_Group r /\ gt_Group t <> "core" \/ gt_Group t = "core" /\ ref_Group r = "") /\
  gt_Kind t = ref_Kind r /\ forall n, gt_Name t = Some n -> n = ref_Name r.

Lemma matchesFrom_spec f r : matchesFrom f r = true <-> admits_from f r.
Proof. unfold matchesFrom, admits_from. repeat case_bool_decide; simpl; intuition congruence. Qed.
Lemma matchesTo_spec t r : matchesTo t r = true <-> covers_to t r.
Proof.
  unfold matchesTo, covers_to. destruct (gt_Name t) as [n|].
  - case_bool_decide as Hc; repeat case_bool_decide; simpl; rewrite ?Hc; split; intros Hx; try done;
      try (split_and!; [first [left; split; congruence|right; split; congruence]|done|intros ? [= <-]; done]).
    all: destruct Hx as ([[? ?]|[? ?]] & ? & Hn); try congruence; specialize (Hn n eq_refl); congruence.
  - case_bool_decide as Hc; repeat case_bool_decide; simpl; rewrite ?Hc; split; intros Hx; try done;
      try (split_and!; [first [left; split; congruence|right; split; congruence]|done|done]).
    all: destruct Hx as ([[? ?]|[? ?]] & ? & Hn); congruence.
Qed.
Lemma grantAllowsReference_spec g fromRef toRef :
  grantAllowsReference g fromRef toRef = true <->
  (exists f, f ∈ grant_From g /\ admits_from f fromRef) /\ (exists t, t ∈ grant_To g /\ covers_to t toRef).
Proof.
  unfold grantAllowsReference. setoid_rewrite <-matchesFrom_spec. setoid_rewrite <-matchesTo_spec.
  rewrite <-!existsb_elem_of. by destruct (existsb _ (grant_From g)), (existsb _ (grant_To g)); simpl; intuition.
Qed.

(** A reference is allowed exactly when it stays in its namespace or some
    ReferenceGrant of the target namespace has both an entry admitting the
    source (group, kind, namespace) and an entry covering the target (group,
    kind, and name when the grant names one); only a failed list is an error. *)
Theorem reference_allowed_exact {grants_api : GrantClient} (fromRef toRef : Reference) :
  match IsReferenceAllowed fromRef toRef with
  | Ok b => b = true <-> ref_Namespace fromRef = ref_Namespace toRef \/
      exists grants g, list_grants (ref_Namespace toRef) = Some grants /\ g ∈ grants /\
        (exists f, f ∈ grant_From g /\ admits_from f fromRef) /\
        (exists t, t ∈ grant_To g /\ covers_to t toRef)
  | Err _ => ref_Namespace fromRef <> ref_Namespace toRef /\ list_grants (ref_Namespace toRef) = None
  end.
Proof.
  unfold IsReferenceAllowed. case_bool_decide as Hns; [by split; [left|]|].
  destruct (list_grants (ref_Namespace toRef)) as [grants|] eqn:Hl; [|done].
  rewrite existsb_elem_of. setoid_rewrite grantAllowsReference_spec. split.
  - intros (g & Hg & H). right. by exists grants, g.
  - intros [?|(? & g & [= <-] & Hg & H)]; [done|]. by exists g.
Qed.
