(* ===== verification/Ingress.v ===== *)
(** * The tunnel ingress document ([internal/ingress], [internal/controller/route_syncer.go])

    From routes to Cloudflare Tunnel ingress rules: projection of HTTPRoutes and
    GRPCRoutes, backend resolution, sorting, and the diff against the deployed
    document that a sync writes.  The Kubernetes API is the parameter
    [BackendClient]; [sort.Slice] is any function that sorts by the comparator. *)
From Stdlib Require Import Ascii.
From stdpp Require Import sorting.
From stdpp Require Import base sets gmap strings list.
From S2P Require Import Prelude GoStrings GoHttp ReferenceGrant.

Definition CatchAllService : string := "http_status:404".

(** ** Ingress rules ([diff.go]) *)

(** An update rule: [param.Field]s, absent or present. *)
Record UpdateRule := mkUpdateRule { u_Hostname : option string; u_Path : option string; u_Service : option string }.
(** A rule as the API returns it. *)
Record GetRule := mkGetRule { g_Hostname : string; g_Path : string; g_Service : string }.
Record Rule := mkRule { r_Hostname : string; r_Path : string; r_Service : string }.

Global Instance Rule_eq_dec : EqDecision Rule.
Proof. solve_decision. Defined.

Definition RuleFromUpdate (r : UpdateRule) : Rule :=
  mkRule (default "" (u_Hostname r)) (default "" (u_Path r)) (default "" (u_Service r)).
Definition RuleFromGet (r : GetRule) : Rule := mkRule (g_Hostname r) (g_Path r) (g_Service r).
Definition RulesEqual (a b : Rule) : bool :=
  bool_decide (r_Hostname a = r_Hostname b) && bool_decide (r_Path a = r_Path b) &&
  bool_decide (r_Service a = r_Service b).
Definition IsCatchAll (r : Rule) : bool :=
  bool_decide (r_Hostname r = "") && bool_decide (r_Service r = CatchAllService).

Definition DiffRules (current : list GetRule) (desired : list UpdateRule) : list UpdateRule * list Rule :=
  let currentRules := List.filter (fun r => negb (IsCatchAll r)) (RuleFromGet <$> current) in
  let desiredKept := List.filter (fun d => negb (IsCatchAll (RuleFromUpdate d))) desired in
  let desiredRules := RuleFromUpdate <$> desiredKept in
  let toAdd := List.filter (fun d => negb (existsb (RulesEqual (RuleFromUpdate d)) currentRules)) desiredKept in
  let toRemove := List.filter (fun c => negb (existsb (RulesEqual c) desiredRules)) currentRules in
  (toAdd, toRemove).

Definition convertGetToUpdate (r : GetRule) : UpdateRule :=
  mkUpdateRule (if bool_decide (g_Hostname r = "") then None else Some (g_Hostname r))
    (if bool_decide (g_Path r = "") then None else Some (g_Path r)) (Some (g_Service r)).

Definition ApplyDiff (current : list GetRule) (toAdd : list UpdateRule) (toRemove : list Rule) : list UpdateRule :=
  (convertGetToUpdate <$>
     List.filter (fun c => negb (IsCatchAll (RuleFromGet c)) &&
                           negb (existsb (RulesEqual (RuleFromGet c)) toRemove)) current) ++ toAdd.

Definition catch_all_rule : UpdateRule := mkUpdateRule None None (Some CatchAllService).
Definition EnsureCatchAll (rules : list UpdateRule) : list UpdateRule :=
  List.filter (fun r => negb (IsCatchAll (RuleFromUpdate r))) rules ++ [catch_all_rule].

Fixpoint RulesUnchanged (current : list GetRule) (desired : list UpdateRule) : bool :=
  match current, desired with
  | [], [] => true
  | c :: current', d :: desired' => RulesEqual (RuleFromGet c) (RuleFromUpdate d) && RulesUnchanged current' desired'
  | _, _ => false
  end.

(** ** Sorting and syncing ([route_syncer.go]) *)

Definition is_present {A} (o : option A) : bool := match o with Some _ => true | None => false end.
Definition path_len (r : UpdateRule) : nat := String.length (default "" (u_Path r)).
(** Rules with a hostname first, then by hostname, then longer paths. *)
Definition ingress_less : UpdateRule -> UpdateRule -> bool :=
  lex_less (fun r => is_present (u_Hostname r)) bool_less
    (lex_less (fun r => default "" (u_Hostname r)) str_ltb (fun l r => path_len r <? path_len l)).
Definition sortIngressRules (rules : list UpdateRule) : list UpdateRule := stable_sort ingress_less rules.

Definition filterOutCatchAll (rules : list UpdateRule) : list UpdateRule :=
  List.filter (fun r => negb (IsCatchAll (RuleFromUpdate r))) rules.
Definition mergeAndSortRules (httpRules grpcRules : list UpdateRule) : list UpdateRule :=
  sortIngressRules (filterOutCatchAll httpRules ++ filterOutCatchAll grpcRules).

Definition maxIngressRules : nat := 1000.
Inductive SyncOutcome :=
| limitExceeded (count : nat)
| unchanged
| write (rules : list UpdateRule).
(** [syncTunnelGroup] between the GET and the PUT of the document. *)
Definition final_rules (current : list GetRule) (desired : list UpdateRule) : list UpdateRule :=
  let '(toAdd, toRemove) := DiffRules current desired in
  EnsureCatchAll (sortIngressRules (ApplyDiff current toAdd toRemove)).
Definition sync_document (current : list GetRule) (desired : list UpdateRule) : SyncOutcome :=
  let finalRules := final_rules current desired in
  if maxIngressRules <? length finalRules then limitExceeded (length finalRules)
  else if RulesUnchanged current finalRules then unchanged
  else write finalRules.

(** ** Facts about diffs *)

Lemma RulesEqual_spec a b : RulesEqual a b = true <-> a = b.
Proof.
  unfold RulesEqual. rewrite !andb_true_iff, !bool_decide_eq_true. destruct a, b; simpl.
  split; [intros [[-> ->] ->]; done|]. by intros [= -> -> ->].
Qed.
Lemma existsb_RulesEqual r rs : existsb (RulesEqual r) rs = true <-> r ∈ rs.
Proof.
  rewrite existsb_elem_of. setoid_rewrite RulesEqual_spec. split; [by intros (? & ? & <-)|]. by exists r.
Qed.
Lemma existsb_RulesEqual_false r rs : existsb (RulesEqual r) rs = false <-> r ∉ rs.
Proof. rewrite <-not_true_iff_false. by rewrite existsb_RulesEqual. Qed.
Lemma convert_rule c : RuleFromUpdate (convertGetToUpdate c) = RuleFromGet c.
Proof.
  unfold RuleFromUpdate, convertGetToUpdate, RuleFromGet. simpl. f_equal; by case_bool_decide.
Qed.

Definition non_catch_all (d : UpdateRule) : Prop := IsCatchAll (RuleFromUpdate d) = false.

(** The diffed document holds exactly the desired rules. *)
Lemma ApplyDiff_exact current desired d :
  let '(toAdd, toRemove) := DiffRules current desired in
  IsCatchAll d = false ->
  d ∈ RuleFromUpdate <$> ApplyDiff current toAdd toRemove <-> d ∈ RuleFromUpdate <$> desired.
Proof.
  unfold DiffRules, ApplyDiff. intros Hd. rewrite fmap_app, elem_of_app, !list_elem_of_fmap. split.
  - intros [(u & -> & (c & -> & [Hc Hkeep]%elem_of_list_filter)%list_elem_of_fmap)|(u & -> & [Hu _]%elem_of_list_filter)].
    + rewrite convert_rule in *. breflect. match goal with H : existsb _ _ = false |- _ =>
        apply existsb_RulesEqual_false in H; rename H into Hnr end.
      destruct (decide (RuleFromGet c ∈ RuleFromUpdate <$>
        List.filter (fun d => negb (IsCatchAll (RuleFromUpdate d))) desired)) as [Hin|Hout].
      * apply list_elem_of_fmap in Hin as (u & -> & [Hu _]%elem_of_list_filter). by exists u.
      * destruct Hnr. apply elem_of_list_filter. split.
        -- apply elem_of_list_filter. split; [|by apply negb_true_iff].
           apply list_elem_of_fmap. by exists c.
        -- by apply negb_true_iff, existsb_RulesEqual_false.
    + apply elem_of_list_filter in Hu as [Hu _]. by exists u.
  - intros (u & -> & Hu).
    assert (Hk : u ∈ List.filter (fun d => negb (IsCatchAll (RuleFromUpdate d))) desired).
    { apply elem_of_list_filter. split; [done|]. by apply negb_true_iff. }
    destruct (decide (RuleFromUpdate u ∈ List.filter (fun r => negb (IsCatchAll r)) (RuleFromGet <$> current)))
      as [Hin|Hout].
    + left. apply elem_of_list_filter in Hin as [(c & Hc & Hcin)%list_elem_of_fmap _].
      exists (convertGetToUpdate c). rewrite convert_rule. split; [done|]. apply list_elem_of_fmap. exists c.
      split; [done|]. apply elem_of_list_filter. split; [done|]. rewrite <-Hc, Hd. simpl.
      apply negb_true_iff, existsb_RulesEqual_false. intros [_ Hx]%elem_of_list_filter.
      apply negb_true_iff, existsb_RulesEqual_false in Hx. apply Hx, list_elem_of_fmap. by exists u.
    + right. exists u. split; [done|]. apply elem_of_list_filter. split; [done|].
      by apply negb_true_iff, existsb_RulesEqual_false.
Qed.

Lemma path_len_strict : StrictWeak (fun l r : UpdateRule => path_len r <? path_len l).
Proof. split; unfold not_after; intros *; rewrite ?Nat.ltb_lt, ?Nat.ltb_ge; lia. Qed.
#[export] Existing Instance path_len_strict.
Global Instance ingress_less_strict : StrictWeak ingress_less.
Proof. unfold ingress_less. apply _. Qed.

(** The final document: sorted desired rules, then the catch-all. *)
Lemma final_rules_shape current desired : exists init,
  final_rules current desired = init ++ [catch_all_rule] /\
  (forall d, d ∈ init -> non_catch_all d) /\ StronglySorted (not_after ingress_less) init /\
  (forall d, d ∈ init -> (exists c, c ∈ current /\ d = convertGetToUpdate c) \/ d ∈ desired) /\
  (forall r, IsCatchAll r = false -> r ∈ RuleFromUpdate <$> init <-> r ∈ RuleFromUpdate <$> desired).
Proof.
  pose proof (fun r => ApplyDiff_exact current desired r) as Hex.
  unfold final_rules. destruct (DiffRules current desired) as [toAdd toRemove] eqn:Hdiff.
  unfold EnsureCatchAll. eexists. split; [reflexivity|]. split_and!.
  - intros d [_ Hd]%elem_of_list_filter. by apply negb_true_iff.
  - apply StronglySorted_filter, stable_sort_sorted, _.
  - intros d [Hd _]%elem_of_list_filter. unfold sortIngressRules in Hd. apply elem_of_stable_sort in Hd.
    unfold ApplyDiff in Hd. apply elem_of_app in Hd as [(c & -> & [Hc _]%elem_of_list_filter)%list_elem_of_fmap|Hd];
      [left; by exists c|right]. unfold DiffRules in Hdiff. injection Hdiff as <- _.
    by apply elem_of_list_filter in Hd as [[Hd _]%elem_of_list_filter _].
  - intros r Hr. rewrite <-(Hex r Hr), !list_elem_of_fmap. split.
    + intros (u & -> & [Hu _]%elem_of_list_filter). exists u. split; [done|]. by apply elem_of_stable_sort in Hu.
    + intros (u & -> & Hu). exists u. split; [done|]. apply elem_of_list_filter.
      split; [by apply elem_of_stable_sort|by apply negb_true_iff].
Qed.

(** A sync deploys exactly the desired rules.  Whatever document is
    deployed, the new one contains a rule precisely when it is desired (the
    catch-all apart), ends with the single catch-all, and lists every rule with
    a hostname before any rule without one, which the Cloudflare API requires. *)
Theorem sync_document_exact (current : list GetRule) (desired : list UpdateRule) :
  let final := final_rules current desired in
  (forall r, IsCatchAll r = false -> r ∈ RuleFromUpdate <$> final <-> r ∈ RuleFromUpdate <$> desired) /\
  (exists init, final = init ++ [catch_all_rule] /\ forall d, d ∈ init -> non_catch_all d) /\
  (forall i j a b, final !! i = Some a -> final !! j = Some b -> u_Hostname a = None ->
     is_present (u_Hostname b) = true -> j < i).
Proof.
  destruct (final_rules_shape current desired) as (init & -> & Hnc & Hsort & _ & Hex). split_and!.
  - intros r Hr. rewrite <-(Hex r Hr), fmap_app, elem_of_app. split; [|auto]. intros [?|Hx]; [done|].
    apply list_elem_of_singleton in Hx as ->. discriminate Hr.
  - by exists init.
  - intros i j a b Ha Hb Hna Hpb. destruct (decide (j < i)) as [|Hge]; [done|exfalso].
    destruct (decide (i = j)) as [->|Hne]; [rewrite Ha in Hb; injection Hb as ->; by rewrite Hna in Hpb|].
    assert (Hj : j < length init).
    { apply lookup_lt_Some in Hb as Hlt. rewrite length_app in Hlt. simpl in Hlt.
      destruct (decide (j = length init)) as [->|]; [|lia].
      rewrite lookup_app_r, Nat.sub_diag in Hb by lia. injection Hb as <-. discriminate Hpb. }
    rewrite lookup_app_l in Ha, Hb by lia.
    assert (Hord : not_after ingress_less a b).
    { eapply StronglySorted_lookup; [exact Hsort|exact Ha|exact Hb|lia]. }
    unfold not_after, ingress_less, lex_less, bool_less in Hord. rewrite Hna, Hpb in Hord. done.
Qed.

(** What the API returns for a document that was written. *)
Definition echo (r : UpdateRule) : GetRule :=
  mkGetRule (default "" (u_Hostname r)) (default "" (u_Path r)) (default "" (u_Service r)).

Lemma RulesUnchanged_spec current desired :
  RulesUnchanged current desired = true <-> RuleFromGet <$> current = RuleFromUpdate <$> desired.
Proof.
  revert desired. induction current as [|c cs IH]; intros [|d ds]; try done.
  cbn [RulesUnchanged]. rewrite andb_true_iff, RulesEqual_spec, IH, !fmap_cons.
  split; [by intros [-> ->]|]. by intros [? ?]%(inj2 cons).
Qed.
Lemma RuleFromGet_echo d : RuleFromGet (echo d) = RuleFromUpdate d.
Proof. done. Qed.

Lemma ingress_less_ext a b a' b' :
  u_Hostname a = u_Hostname a' -> u_Hostname b = u_Hostname b' -> path_len a = path_len a' ->
  path_len b = path_len b' -> ingress_less a b = ingress_less a' b'.
Proof. unfold ingress_less, lex_less. by intros -> -> -> ->. Qed.
Lemma reread_fields d :
  u_Hostname d <> Some "" ->
  u_Hostname (convertGetToUpdate (echo d)) = u_Hostname d /\ path_len (convertGetToUpdate (echo d)) = path_len d.
Proof.
  intros Hh. unfold convertGetToUpdate, echo, path_len. simpl. split.
  - destruct (u_Hostname d) as [h|]; simpl; [|done]. by rewrite bool_decide_eq_false_2 by congruence.
  - destruct (u_Path d) as [p|]; simpl; [|done]. by case_bool_decide; subst.
Qed.

(** Diffing a document against rules it already holds adds and removes nothing. *)
Lemma diff_of_deployed init desired :
  (forall d, d ∈ init -> non_catch_all d) ->
  (forall r, IsCatchAll r = false -> r ∈ RuleFromUpdate <$> init <-> r ∈ RuleFromUpdate <$> desired) ->
  DiffRules (echo <$> (init ++ [catch_all_rule])) desired = ([], []).
Proof.
  intros Hnc Hex. unfold DiffRules.
  assert (Hcur : List.filter (fun r => negb (IsCatchAll r)) (RuleFromGet <$> (echo <$> (init ++ [catch_all_rule])))
                 = RuleFromUpdate <$> init).
  { rewrite <-list_fmap_compose, fmap_app, List.filter_app. simpl. rewrite app_nil_r.
    change (RuleFromGet ∘ echo) with RuleFromUpdate. apply List_filter_all.
    intros r (d & -> & Hd)%list_elem_of_fmap. apply negb_true_iff. by apply Hnc. }
  rewrite Hcur. f_equal; apply List_filter_none.
  - intros d [Hd Hc]%elem_of_list_filter. apply negb_false_iff, existsb_RulesEqual, Hex.
    + by apply negb_true_iff.
    + apply list_elem_of_fmap. by exists d.
  - intros r Hr. assert (Hcr : IsCatchAll r = false).
    { apply list_elem_of_fmap in Hr as (d & -> & Hd). by apply Hnc. }
    apply negb_false_iff, existsb_RulesEqual. apply (Hex r Hcr), list_elem_of_fmap in Hr as (d & -> & Hd).
    apply list_elem_of_fmap. exists d. split; [done|]. apply elem_of_list_filter. by rewrite Hcr.
Qed.

(** Re-reading a sorted run of rules keeps it sorted. *)
Lemma reread_sorted init :
  (forall d, d ∈ init -> u_Hostname d <> Some "") -> StronglySorted (not_after ingress_less) init ->
  StronglySorted (not_after ingress_less) ((convertGetToUpdate ∘ echo) <$> init).
Proof.
  intros Hh. induction 1 as [|d ds Hds IH Hd]; simpl; [constructor|]. constructor.
  - apply IH. intros x Hx. apply Hh. by right.
  - apply Forall_forall. intros x (y & -> & Hy)%list_elem_of_fmap. rewrite Forall_forall in Hd.
    specialize (Hd y Hy). unfold not_after in *. simpl.
    destruct (reread_fields d) as [? ?]; [apply Hh; by left|].
    destruct (reread_fields y) as [? ?]; [apply Hh; by right|].
    by rewrite (ingress_less_ext _ _ y d).
Qed.

(** Syncing converges after one write.  When the deployed document is the
    one the previous sync wrote and the desired rules have not changed, the next
    sync finds the document unchanged and writes nothing; no order of kept and
    added rules makes it oscillate. *)
Theorem sync_converges (current : list GetRule) (desired : list UpdateRule) :
  (forall d, d ∈ desired -> u_Hostname d <> Some "") ->
  length (final_rules current desired) <= maxIngressRules ->
  sync_document (echo <$> final_rules current desired) desired = unchanged.
Proof.
  intros Hh Hlen. destruct (final_rules_shape current desired) as (init & Hfinal & Hnc & Hsort & Horig & Hex).
  rewrite Hfinal in *.
  assert (Hhost : forall d, d ∈ init -> u_Hostname d <> Some "").
  { intros d [(c & _ & ->)|Hd]%Horig; [|by apply Hh]. unfold convertGetToUpdate. simpl.
    case_bool_decide; congruence. }
  assert (Hfin : final_rules (echo <$> (init ++ [catch_all_rule])) desired =
    ((convertGetToUpdate ∘ echo) <$> init) ++ [catch_all_rule]).
  { unfold final_rules. rewrite (diff_of_deployed init desired Hnc Hex). unfold ApplyDiff, EnsureCatchAll.
    rewrite app_nil_r, fmap_app, List.filter_app. simpl. rewrite app_nil_r.
    rewrite (List_filter_all _ (echo <$> init)).
    2:{ intros c (d & -> & Hd)%list_elem_of_fmap. rewrite RuleFromGet_echo. by rewrite (Hnc d Hd). }
    rewrite <-list_fmap_compose. unfold sortIngressRules.
    rewrite (stable_sort_id _ _ (reread_sorted init Hhost Hsort)). rewrite List_filter_all; [done|].
    intros u (d & -> & Hd)%list_elem_of_fmap. simpl. rewrite convert_rule, RuleFromGet_echo. by rewrite (Hnc d Hd). }
  unfold sync_document. rewrite Hfin.
  assert (Hl : (maxIngressRules <? length (((convertGetToUpdate ∘ echo) <$> init) ++ [catch_all_rule])) = false).
  { apply Nat.ltb_ge. rewrite length_app, length_fmap. by rewrite length_app in Hlen. }
  rewrite Hl. rewrite (proj2 (RulesUnchanged_spec _ _)); [done|].
  rewrite !fmap_app. f_equal. rewrite <-!list_fmap_compose. apply list_fmap_ext. intros i d _. simpl.
  by rewrite convert_rule.
Qed.
Definition api_rule (path service : string) : UpdateRule := mkUpdateRule (Some "a.example.com") (Some path) (Some service).
Lemma sync_converges_witness :
  sync_document (echo <$> final_rules [mkGetRule "old.example.com" "" "http://old:80"; mkGetRule "" "" "http_status:404"]
    [api_rule "/v1*" "http://one:80"; api_rule "/v1/admin*" "http://two:80"])
    [api_rule "/v1*" "http://one:80"; api_rule "/v1/admin*" "http://two:80"] = unchanged.
Proof.
  apply sync_converges.
  - intros d. rewrite !elem_of_cons, elem_of_nil. intros [->|[->|[]]]; discriminate.
  - vm_compute. repeat constructor.
Defined.

(** The sync's ordering puts a prefix rule before the exact rule of the
    same path.  The builders order exact matches first, but the merged document
    is re-sorted by path length only, and the prefix form of a path is one byte
    longer, so the first-match document never reaches the exact rule. *)
Theorem exact_rule_after_prefix :
  exists exact prefix, u_Path exact = Some "/api" /\ u_Path prefix = Some ("/api" +:+ "*") /\
    mergeAndSortRules [exact; prefix] [] = [prefix; exact].
Proof.
  exists (api_rule "/api" "http://exact:80"), (api_rule "/api*" "http://prefix:80").
  split_and!; vm_compute; reflexivity.
Qed.
