(* ===== verification/IngressBuild.v ===== *)
(** * Building ingress rules ([internal/ingress], [api/v1alpha1/externalbackend_types.go])

    Projection of HTTPRoutes and GRPCRoutes, highest-weight selection, backend
    resolution with cross-namespace checks, and [GenericBuilder.Build].  The
    Kubernetes client and the ReferenceGrant validator may be absent ([nil] in
    the code); a lookup finds the object, reports it missing, or fails. *)
From Stdlib Require Import Ascii.
From stdpp Require Import sorting.
From stdpp Require Import base sets gmap strings list.
From S2P Require Import Prelude GoStrings GoHttp ReferenceGrant Ingress.

(** ** Routes *)

Record GwBackendRef := mkGwBackendRef {
  gb_Group : option string;
  gb_Kind : option string;
  gb_Name : string;
  gb_Namespace : option string;
  gb_Port : option Z;
  gb_Weight : option Z;
}.
Record HTTPPathMatch := mkHTTPPathMatch { hp_Type : option string; hp_Value : option string }.
Record GRPCMethodMatch := mkGRPCMethodMatch { gm_Service : option string; gm_Method : option string }.
(** Rules: the parts the tunnel document is built from. *)
Record HTTPRule := mkHTTPRule {
  hr_Filters : nat;
  hr_BackendRefs : list GwBackendRef;
  hr_Matches : list (option HTTPPathMatch);
}.
Record GRPCRule := mkGRPCRule {
  gr_Filters : nat;
  gr_BackendRefs : list GwBackendRef;
  gr_Matches : list (option GRPCMethodMatch);
}.
Record HTTPRoute := mkHTTPRoute {
  http_Namespace : string; http_Name : string; http_Hostnames : list string; http_Rules : list HTTPRule }.
Record GRPCRoute := mkGRPCRoute {
  grpc_Namespace : string; grpc_Name : string; grpc_Hostnames : list string; grpc_Rules : list GRPCRule }.

(** ** Projection ([route_projection.go], the adapters) *)

Record projectedMatch := mkProjectedMatch { prm_path : string; prm_priority : Z }.
Record projectedRule := mkProjectedRule {
  pr_ignoredFilters : nat;
  pr_backendRefs : list GwBackendRef;
  pr_matches : list projectedMatch;
}.

Class RouteAdapter (R : Type) := {
  GatewayKind : string;
  GetMeta : R -> string * string;
  GetHostnames : R -> list string;
  ProjectRules : R -> list projectedRule;
  AddCatchAll : bool;
}.

Definition extractPath (pathMatch : option HTTPPathMatch) : projectedMatch :=
  match pathMatch with
  | None => mkProjectedMatch "" 0
  | Some p =>
      let pathType := default "PathPrefix" (hp_Type p) in
      let path := default "/" (hp_Value p) in
      if bool_decide (pathType = "Exact") then mkProjectedMatch path 1
      else mkProjectedMatch path 0
  end.
Definition extractGRPCPath (methodMatch : option GRPCMethodMatch) : projectedMatch :=
  match methodMatch with
  | None => mkProjectedMatch "" 0
  | Some m =>
      let service := default "" (gm_Service m) in
      let method := default "" (gm_Method m) in
      if bool_decide (service = "") && bool_decide (method = "") then mkProjectedMatch "" 0
      else if negb (bool_decide (service = "")) && bool_decide (method = "") then
        mkProjectedMatch ("/" +:+ service +:+ "/") 0
      else if bool_decide (service = "") && negb (bool_decide (method = "")) then mkProjectedMatch "" 0
      else mkProjectedMatch ("/" +:+ service +:+ "/" +:+ method) 1
  end.
Definition or_star (hostnames : list string) : list string :=
  if length hostnames =? 0 then ["*"] else hostnames.
#[export] Instance HTTPRouteAdapter : RouteAdapter HTTPRoute := {|
  GatewayKind := "HTTPRoute";
  GetMeta := fun r => (http_Namespace r, http_Name r);
  GetHostnames := fun r => or_star (http_Hostnames r);
  ProjectRules := fun r =>
    (fun rule => mkProjectedRule (hr_Filters rule) (hr_BackendRefs rule) (extractPath <$> hr_Matches rule))
      <$> http_Rules r;
  AddCatchAll := true;
|}.
#[export] Instance GRPCRouteAdapter : RouteAdapter GRPCRoute := {|
  GatewayKind := "GRPCRoute";
  GetMeta := fun r => (grpc_Namespace r, grpc_Name r);
  GetHostnames := fun r => or_star (grpc_Hostnames r);
  ProjectRules := fun r =>
    (fun rule => mkProjectedRule (gr_Filters rule) (gr_BackendRefs rule) (extractGRPCPath <$> gr_Matches rule))
      <$> grpc_Rules r;
  AddCatchAll := false;
|}.

(** ** Highest weight ([weight.go]) *)

Definition DefaultBackendWeight : Z := 1.
Definition effectiveBackendWeight (ref : GwBackendRef) : Z := default DefaultBackendWeight (gb_Weight ref).

Fixpoint select_loop (i : nat) (selectedIdx : option nat) (highestWeight : Z) (refs : list GwBackendRef)
    : option nat :=
  match refs with
  | [] => selectedIdx
  | ref :: refs' =>
      let weight := effectiveBackendWeight ref in
      if (weight =? 0)%Z then select_loop (S i) selectedIdx highestWeight refs'
      else
        match selectedIdx with
        | None => select_loop (S i) (Some i) weight refs'
        | Some _ =>
            if (highestWeight <? weight)%Z then select_loop (S i) (Some i) weight refs'
            else select_loop (S i) selectedIdx highestWeight refs'
        end
  end.
(** [None] stands for the index -1. *)
Definition SelectHighestWeightIndex (refs : list GwBackendRef) : option nat := select_loop 0 None 0 refs.

(** ** Backend resolution ([service_resolver.go]) *)

Record BackendRefError := mkBackendRefError {
  bre_RouteNamespace : string; bre_RouteName : string; bre_BackendName : string; bre_BackendNS : string;
  bre_Port : Z; bre_Reason : string; bre_Message : string; bre_Domain : string }.

Inductive Lookup (A : Type) := Found (a : A) | NotFound | Unavailable.
Arguments Found {A} a.
Arguments NotFound {A}.
Arguments Unavailable {A}.

(** A Service: [Some name] for an ExternalName one. *)
Record ExternalBackendSpec := mkExternalBackendSpec {
  eb_Scheme : string; eb_Host : string; eb_Port : Z; eb_Path : string }.
Record Client := mkClient {
  get_service : string -> string -> Lookup (option string);
  get_serviceImport : string -> string -> Lookup (list Z);
  get_externalBackend : string -> string -> Lookup ExternalBackendSpec;
}.

Definition ExternalBackend_URL (b : ExternalBackendSpec) : string :=
  eb_Scheme b +:+ "://" +:+ eb_Host b +:+ ":" +:+ Itoa (eb_Port b) +:+
  (if bool_decide (eb_Path b = "") then "" else eb_Path b).
Definition ExternalBackend_Validate `{!UrlParser} (b : ExternalBackendSpec) : bool :=
  if negb (bool_decide (eb_Scheme b = "http") || bool_decide (eb_Scheme b = "https")) then false
  else if bool_decide (eb_Host b = "") then false
  else if (eb_Port b <? 1)%Z || (65535 <? eb_Port b)%Z then false
  else if negb (bool_decide (eb_Path b = "")) && negb (HasPrefix (eb_Path b) "/") then false
  else match url_Parse (ExternalBackend_URL b) with Some _ => true | None => false end.

Inductive backendTargetKind := backendTargetService | backendTargetServiceImport | backendTargetExternal.
Definition validateBackendGroupKind (ref : GwBackendRef) : option backendTargetKind :=
  let group := default "" (gb_Group ref) in
  let kind := default "Service" (gb_Kind ref) in
  if (bool_decide (group = "") || bool_decide (group = "core")) && bool_decide (kind = "Service") then
    Some backendTargetService
  else if bool_decide (group = "multicluster.x-k8s.io") && bool_decide (kind = "ServiceImport") then
    Some backendTargetServiceImport
  else if bool_decide (group = "cf.k8s.lex.la") && bool_decide (kind = "ExternalBackend") then
    Some backendTargetExternal
  else None.

Definition DefaultHTTPPort : Z := 80.
Definition DefaultHTTPSPort : Z := 443.
Definition clustersetDomain : string := "clusterset.local".
Definition resolveBackendNamespacePort (ref : GwBackendRef) (routeNamespace : string) : string * Z :=
  (default routeNamespace (gb_Namespace ref), default DefaultHTTPPort (gb_Port ref)).

(** The target group and kind a grant must permit. *)
Definition target_group_kind (k : backendTargetKind) : string * string :=
  match k with
  | backendTargetService => ("", "Service")
  | backendTargetServiceImport => ("multicluster.x-k8s.io", "ServiceImport")
  | backendTargetExternal => ("cf.k8s.lex.la", "ExternalBackend")
  end.

Section build.
Context {parser : UrlParser}.
(** The resolver: an optional client, an optional validator, the cluster domain. *)
Context (client : option Client) (validator : option GrantClient) (clusterDomain : string).

Record serviceResolveParams := mkParams {
  p_routeKind : string; p_routeNS : string; p_routeName : string;
  p_svcName : string; p_svcNS : string; p_port : Z }.

Definition validateCrossNamespaceRef (p : serviceResolveParams) (toGroup toKind : string) : bool :=
  match validator with
  | None => true
  | Some grants =>
      match @IsReferenceAllowed grants
              (mkReference "gateway.networking.k8s.io" (p_routeKind p) (p_routeNS p) (p_routeName p))
              (mkReference toGroup toKind (p_svcNS p) (p_svcName p)) with
      | Ok allowed => allowed
      | Err _ => false
      end
  end.

Definition backend_error (p : serviceResolveParams) (reason message : string) : BackendRefError :=
  mkBackendRefError (p_routeNS p) (p_routeName p) (p_svcName p) (p_svcNS p) 0 reason message "".
Definition svc_key (p : serviceResolveParams) : string := p_svcNS p +:+ "/" +:+ p_svcName p.
Definition crossNamespaceDeniedError (p : serviceResolveParams) : BackendRefError :=
  backend_error p "RefNotPermitted"
    ("cross-namespace backend reference to " +:+ svc_key p +:+ " not permitted by ReferenceGrant").
Definition scheme_for (port : Z) : string := if (port =? DefaultHTTPSPort)%Z then "https" else "http".
Definition cluster_url (p : serviceResolveParams) (domain : string) : string :=
  scheme_for (p_port p) +:+ "://" +:+ p_svcName p +:+ "." +:+ p_svcNS p +:+ ".svc." +:+ domain +:+ ":" +:+
  Itoa (p_port p).

(** Every resolver first refuses a cross-namespace reference no grant permits. *)
Definition guarded (p : serviceResolveParams) (k : backendTargetKind)
    (body : string * option BackendRefError) : string * option BackendRefError :=
  let '(group, kind) := target_group_kind k in
  if negb (bool_decide (p_routeNS p = p_svcNS p)) && negb (validateCrossNamespaceRef p group kind) then
    ("", Some (crossNamespaceDeniedError p))
  else body.

Definition resolveServiceURL (p : serviceResolveParams) : string * option BackendRefError :=
  guarded p backendTargetService
    (match client with
     | None => (cluster_url p clusterDomain, None)
     | Some c =>
         match get_service c (p_svcNS p) (p_svcName p) with
         | NotFound =>
             ("", Some (backend_error p "BackendNotFound" ("Service " +:+ svc_key p +:+ " not found")))
         | Unavailable => (cluster_url p clusterDomain, None)
         | Found (Some externalName) =>
             (scheme_for (p_port p) +:+ "://" +:+ externalName +:+ ":" +:+ Itoa (p_port p), None)
         | Found None => (cluster_url p clusterDomain, None)
         end
     end).

Definition serviceImportExportsPort (ports : list Z) (port : Z) : bool :=
  existsb (fun q => (q =? port)%Z) ports.
Definition resolveServiceImportURL (p : serviceResolveParams) : string * option BackendRefError :=
  guarded p backendTargetServiceImport
    (match client with
     | None => (cluster_url p clustersetDomain, None)
     | Some c =>
         match get_serviceImport c (p_svcNS p) (p_svcName p) with
         | NotFound =>
             ("", Some (backend_error p "BackendNotFound" ("ServiceImport " +:+ svc_key p +:+ " not found")))
         | Unavailable => (cluster_url p clustersetDomain, None)
         | Found ports =>
             if negb (serviceImportExportsPort ports (p_port p)) then
               ("", Some (backend_error p "BackendNotFound" ("ServiceImport " +:+ svc_key p +:+
                  " does not export port " +:+ Itoa (p_port p))))
             else (cluster_url p clustersetDomain, None)
         end
     end).

Definition resolveExternalBackendURL (p : serviceResolveParams) : string * option BackendRefError :=
  guarded p backendTargetExternal
    (match client with
     | None => ("", None)
     | Some c =>
         match get_externalBackend c (p_svcNS p) (p_svcName p) with
         | NotFound =>
             ("", Some (backend_error p "BackendNotFound" ("ExternalBackend " +:+ svc_key p +:+ " not found")))
         | Unavailable => ("", None)
         | Found spec =>
             if negb (ExternalBackend_Validate spec) then
               ("", Some (backend_error p "UnsupportedValue" ("ExternalBackend " +:+ svc_key p +:+ " is malformed")))
             else (ExternalBackend_URL spec, None)
         end
     end).

Definition with_port_domain (port : Z) (domain : string) (e : BackendRefError) : BackendRefError :=
  mkBackendRefError (bre_RouteNamespace e) (bre_RouteName e) (bre_BackendName e) (bre_BackendNS e) port
    (bre_Reason e) (bre_Message e) domain.

Definition resolveValidatedBackend (ref : GwBackendRef) (namespace routeName routeKind : string)
    : string * option BackendRefError :=
  let '(svcNamespace, port) := resolveBackendNamespacePort ref namespace in
  match validateBackendGroupKind ref with
  | None =>
      ("", Some (mkBackendRefError namespace routeName (gb_Name ref) "" port "InvalidKind"
         ("unsupported backend " +:+ default "" (gb_Group ref) +:+ "/" +:+ default "Service" (gb_Kind ref) +:+
          ", only Service, ServiceImport and ExternalBackend are supported") ""))
  | Some targetKind =>
      let p := mkParams routeKind namespace routeName (gb_Name ref) svcNamespace port in
      let '(url, backendErr) :=
        match targetKind with
        | backendTargetServiceImport => resolveServiceImportURL p
        | backendTargetExternal => resolveExternalBackendURL p
        | backendTargetService => resolveServiceURL p
        end in
      let domain := match targetKind with backendTargetServiceImport => clustersetDomain | _ => "" end in
      (url, with_port_domain port domain <$> backendErr)
  end.

(** The loop of [resolveRuleBackendRefs]: the selected backend's URL and every failure. *)
Fixpoint resolve_loop (namespace routeName routeKind : string) (selectedIdx i : nat) (refs : list GwBackendRef)
    (serviceURL : string) (failedRefs : list BackendRefError) : string * list BackendRefError :=
  match refs with
  | [] => (serviceURL, failedRefs)
  | ref :: refs' =>
      if (effectiveBackendWeight ref =? 0)%Z then
        resolve_loop namespace routeName routeKind selectedIdx (S i) refs' serviceURL failedRefs
      else
        let '(url, failedRef) := resolveValidatedBackend ref namespace routeName routeKind in
        resolve_loop namespace routeName routeKind selectedIdx (S i) refs'
          (if i =? selectedIdx then url else serviceURL)
          (failedRefs ++ match failedRef with Some e => [e] | None => [] end)
  end.
Definition resolveRuleBackendRefs (namespace routeName routeKind : string) (refs : list GwBackendRef)
    : string * list BackendRefError :=
  if length refs =? 0 then ("", [])
  else
    match SelectHighestWeightIndex refs with
    | None => ("", [])
    | Some selectedIdx => resolve_loop namespace routeName routeKind selectedIdx 0 refs "" []
    end.

(** ** The builder ([builder.go], [generic_builder.go]) *)

Record routeEntry := mkRouteEntry { e_hostname : string; e_path : string; e_service : string; e_priority : Z }.

Definition rule_entries (hostnames : list string) (service : string) (rule : projectedRule) : list routeEntry :=
  hostnames ≫= fun hostname =>
    if length (pr_matches rule) =? 0 then [mkRouteEntry hostname "" service 0]
    else (fun m => mkRouteEntry hostname (prm_path m) service (prm_priority m)) <$> pr_matches rule.

Section adapted.
Context {R : Type} {adapter : RouteAdapter R}.

Definition rule_result (route : R) (rule : projectedRule) : list routeEntry * list BackendRefError :=
  let '(namespace, name) := GetMeta route in
  let '(service, failed) := resolveRuleBackendRefs namespace name GatewayKind (pr_backendRefs rule) in
  (if bool_decide (service = "") then [] else rule_entries (GetHostnames route) service rule, failed).
Definition extractProjectedEntries (route : R) : list routeEntry * list BackendRefError :=
  (ProjectRules route ≫= fun rule => (rule_result route rule).1,
   ProjectRules route ≫= fun rule => (rule_result route rule).2).
End adapted.

Definition entry_less (a b : routeEntry) : bool :=
  if bool_decide (e_hostname a = "*") && negb (bool_decide (e_hostname b = "*")) then false
  else if negb (bool_decide (e_hostname a = "*")) && bool_decide (e_hostname b = "*") then true
  else if negb (bool_decide (e_hostname a = e_hostname b)) then str_ltb (e_hostname a) (e_hostname b)
  else if negb (e_priority a =? e_priority b)%Z then (e_priority b <? e_priority a)%Z
  else if negb (String.length (e_path a) =? String.length (e_path b)) then
    String.length (e_path b) <? String.length (e_path a)
  else str_ltb (e_path a) (e_path b).

(** [sort.Slice] is not stable: any sorted permutation may come out. *)
Class EntrySort := {
  sortRouteEntries : list routeEntry -> list routeEntry;
  sort_entries_perm l : sortRouteEntries l ≡ₚ l;
  sort_entries_sorted l : StronglySorted (not_after entry_less) (sortRouteEntries l);
}.

Definition entry_rule (e : routeEntry) : UpdateRule :=
  mkUpdateRule (Some (e_hostname e))
    (if bool_decide (e_path e = "") || bool_decide (e_path e = "/") then None
     else Some (if (e_priority e =? 0)%Z then e_path e +:+ "*" else e_path e))
    (Some (e_service e)).
Definition entriesToIngressRules (entries : list routeEntry) : list UpdateRule :=
  entry_rule <$> List.filter (fun e => negb (bool_decide (e_hostname e = "*"))) entries.

Definition Build {R} {adapter : RouteAdapter R} {sorter : EntrySort} (routes : list R)
    : list UpdateRule * list BackendRefError :=
  let entries := routes ≫= fun r => (extractProjectedEntries r).1 in
  let failedRefs := routes ≫= fun r => (extractProjectedEntries r).2 in
  let rules := entriesToIngressRules (sortRouteEntries entries) in
  (if AddCatchAll then rules ++ [catch_all_rule] else rules, failedRefs).
End build.

(** ** Theorems *)

(** What the selection loop has established about the references before [i]. *)
Definition best_so_far (refs : list GwBackendRef) (i : nat) (sel : option nat) (w : Z) : Prop :=
  match sel with
  | None => forall j r, refs !! j = Some r -> j < i -> effectiveBackendWeight r = 0%Z
  | Some k => exists r, refs !! k = Some r /\ effectiveBackendWeight r = w /\ w <> 0%Z /\
      forall j r', refs !! j = Some r' -> j < i -> effectiveBackendWeight r' <> 0%Z ->
        (effectiveBackendWeight r' < w \/ (effectiveBackendWeight r' = w /\ (k <= j)%nat))%Z
  end.
Lemma select_loop_best refs i sel w rest :
  best_so_far refs i sel w -> drop i refs = rest -> (forall k, sel = Some k -> k < i) ->
  exists w', best_so_far refs (length refs) (select_loop i sel w rest) w'.
Proof.
  revert i sel w. induction rest as [|r rest IH]; intros i sel w Hb Hd Hk; simpl.
  - exists w. assert (Hlen : length refs <= i) by (apply (f_equal length) in Hd; rewrite length_drop in Hd; simpl in Hd; lia).
    destruct sel as [k|]; simpl in *.
    + destruct Hb as (r & ? & ? & ? & Hall). exists r. split_and!; try done.
      intros j r' Hj Hlt. apply Hall; [done|lia].
    + intros j r Hj Hlt. apply (Hb j r Hj). lia.
  - assert (Hi : refs !! i = Some r).
    { rewrite <-(take_drop i refs), Hd. rewrite lookup_app_r, length_take by (rewrite length_take; lia).
      assert (i < length refs) by (apply (f_equal length) in Hd; rewrite length_drop in Hd; simpl in Hd; lia).
      rewrite Nat.min_l by lia. by rewrite Nat.sub_diag. }
    assert (Hd' : drop (S i) refs = rest).
    { replace (S i) with (i + 1) by lia. rewrite <-drop_drop, Hd. done. }
    assert (Hstep : forall sel' w', best_so_far refs (S i) sel' w' -> (forall k, sel' = Some k -> k < S i) ->
      exists w'', best_so_far refs (length refs) (select_loop (S i) sel' w' rest) w'') by (intros; by eapply IH).
    assert (Hnew : forall k, Some i = Some k -> k < S i) by (intros k [= <-]; lia).
    assert (Hold : forall k, sel = Some k -> k < S i) by (intros k Hs; apply Hk in Hs; lia).
    assert (Hcase : forall j, j < S i -> j < i \/ j = i) by (intros; lia).
    destruct (Z.eqb_spec (effectiveBackendWeight r) 0) as [Hz|Hz].
    + apply Hstep; [|done]. destruct sel as [k|]; simpl in *.
      * destruct Hb as (rk & ? & ? & ? & Hall). exists rk. split_and!; try done.
        intros j r' Hj Hlt Hnz. destruct (Hcase j Hlt) as [?| ->]; [by apply Hall|congruence].
      * intros j r' Hj Hlt. destruct (Hcase j Hlt) as [?| ->]; [by apply (Hb j)|congruence].
    + destruct sel as [k|]; simpl in Hb.
      * destruct Hb as (rk & Hrk & Hwk & Hwz & Hall). pose proof (Hk k eq_refl).
        destruct (Z.ltb_spec w (effectiveBackendWeight r)); apply Hstep; try done; simpl.
        -- exists r. split_and!; try done. intros j r' Hj Hlt Hnz.
           destruct (Hcase j Hlt) as [Hji| ->]; [|simplify_eq; right; lia].
           left. destruct (Hall j r' Hj Hji Hnz) as [?|[? _]]; lia.
        -- exists rk. split_and!; try done. intros j r' Hj Hlt Hnz.
           destruct (Hcase j Hlt) as [Hji| ->]; [by apply Hall|]. simplify_eq. lia.
      * apply Hstep; [|done]. exists r. split_and!; try done. intros j r' Hj Hlt Hnz.
        destruct (Hcase j Hlt) as [Hji| ->]; [by rewrite (Hb j r' Hj Hji) in Hnz|simplify_eq; right; lia].
Qed.

Lemma highest_weight_first refs :
  match SelectHighestWeightIndex refs with
  | Some k => exists r, refs !! k = Some r /\ effectiveBackendWeight r <> 0%Z
  | None => forall r, r ∈ refs -> effectiveBackendWeight r = 0%Z
  end.
Proof.
  unfold SelectHighestWeightIndex.
  destruct (select_loop_best refs 0 None 0 refs) as [w Hw]; [intros ? ? _ ?; lia|done|done|].
  destruct (select_loop 0 None 0 refs) as [k|]; simpl in Hw.
  - destruct Hw as (r & Hk & <- & Hnz & _). by exists r.
  - intros r [j Hj]%list_elem_of_lookup. apply (Hw j r Hj). by eapply lookup_lt_Some.
Qed.

(** [SelectHighestWeightIndex] returns the first backend of maximal weight
    among those whose weight is not zero, and none exactly when every backend
    has weight zero (an unset weight counts as 1). *)
Theorem highest_weight_selected (refs : list GwBackendRef) :
  match SelectHighestWeightIndex refs with
  | Some k => exists r, refs !! k = Some r /\ effectiveBackendWeight r <> 0%Z /\
      forall j r', refs !! j = Some r' -> effectiveBackendWeight r' <> 0%Z ->
        (effectiveBackendWeight r' < effectiveBackendWeight r)%Z \/
        (effectiveBackendWeight r' = effectiveBackendWeight r /\ k <= j)
  | None => forall r, r ∈ refs -> effectiveBackendWeight r = 0%Z
  end.
Proof.
  unfold SelectHighestWeightIndex.
  destruct (select_loop_best refs 0 None 0 refs) as [w Hw]; [intros ? ? _ ?; lia|done|done|].
  destruct (select_loop 0 None 0 refs) as [k|]; simpl in Hw.
  - destruct Hw as (r & Hk & <- & Hnz & Hall). exists r. split_and!; try done.
    intros j r' Hj Hnz'. apply (Hall j r' Hj); [by eapply lookup_lt_Some|done].
  - intros r [j Hj]%list_elem_of_lookup. apply (Hw j r Hj). by eapply lookup_lt_Some.
Qed.

Section resolution.
Context {parser : UrlParser}.
Context (client : option Client) (validator : option GrantClient) (clusterDomain : string).
Notation resolve := (resolveValidatedBackend client validator clusterDomain).

(** A resolver's body never returns a URL together with an error. *)
Definition either_url_or_error (reasons : list string) (o : string * option BackendRefError) : Prop :=
  match o.2 with Some e => o.1 = "" /\ bre_Reason e ∈ reasons | None => True end.
Definition guard_passes (p : serviceResolveParams) (k : backendTargetKind) : Prop :=
  p_routeNS p = p_svcNS p \/
  validateCrossNamespaceRef validator p (target_group_kind k).1 (target_group_kind k).2 = true.
Lemma guarded_spec p k body reasons :
  either_url_or_error reasons body -> "RefNotPermitted" ∈ reasons ->
  either_url_or_error reasons (guarded validator p k body) /\
  ((guarded validator p k body).1 <> "" -> guard_passes p k).
Proof.
  intros Hb Hr. unfold guarded, guard_passes. destruct (target_group_kind k) as [g kd]. simpl.
  case_bool_decide; simpl; [auto|]. destruct (validateCrossNamespaceRef _ _ _ _); simpl; [auto|].
  unfold either_url_or_error. simpl. split; [done|done].
Qed.

Definition failure_reasons : list string :=
  ["InvalidKind"; "RefNotPermitted"; "BackendNotFound"; "UnsupportedValue"].
Definition resolver_for (k : backendTargetKind) (p : serviceResolveParams) : string * option BackendRefError :=
  match k with
  | backendTargetServiceImport => resolveServiceImportURL client validator p
  | backendTargetExternal => resolveExternalBackendURL client validator p
  | backendTargetService => resolveServiceURL client validator clusterDomain p
  end.
Lemma resolver_spec k p :
  either_url_or_error failure_reasons (resolver_for k p) /\ ((resolver_for k p).1 <> "" -> guard_passes p k).
Proof.
  unfold resolver_for, resolveServiceImportURL, resolveExternalBackendURL, resolveServiceURL.
  destruct k; apply guarded_spec; try (unfold failure_reasons; set_solver);
    unfold either_url_or_error; (destruct client as [c|]; [|done]).
  - destruct (get_service c _ _) as [[?|]| |]; simpl; try done. split; [done|unfold failure_reasons; set_solver].
  - destruct (get_serviceImport c _ _) as [ports| |]; simpl; try done.
    + destruct (serviceImportExportsPort _ _); simpl; [done|]. split; [done|unfold failure_reasons; set_solver].
    + split; [done|unfold failure_reasons; set_solver].
  - destruct (get_externalBackend c _ _) as [spec| |]; simpl; try done.
    + destruct (ExternalBackend_Validate spec); simpl; [done|]. split; [done|unfold failure_reasons; set_solver].
    + split; [done|unfold failure_reasons; set_solver].
Qed.
Lemma resolve_unfold ref ns name kind k :
  validateBackendGroupKind ref = Some k ->
  resolve ref ns name kind =
  (let o := resolver_for k (mkParams kind ns name (gb_Name ref) (default ns (gb_Namespace ref))
              (default DefaultHTTPPort (gb_Port ref))) in
   (o.1, with_port_domain (default DefaultHTTPPort (gb_Port ref))
           (match k with backendTargetServiceImport => clustersetDomain | _ => "" end) <$> o.2)).
Proof.
  intros Hk. unfold resolveValidatedBackend, resolveBackendNamespacePort. rewrite Hk.
  destruct k; cbn [resolver_for]; [destruct (resolveServiceURL _ _ _ _)|
    destruct (resolveServiceImportURL _ _ _)|destruct (resolveExternalBackendURL _ _ _)]; done.
Qed.

Notation loop ns name kind := (resolve_loop client validator clusterDomain ns name kind).
Lemma resolve_loop_failed ns name kind sel i refs url failed :
  (loop ns name kind sel i refs url failed).2 =
  failed ++ omap (fun r => (resolve r ns name kind).2)
              (List.filter (fun r => negb (effectiveBackendWeight r =? 0)%Z) refs).
Proof.
  revert i url failed. induction refs as [|r refs IH]; intros i url failed; cbn [resolve_loop].
  { simpl. by rewrite app_nil_r. }
  simpl List.filter. destruct (effectiveBackendWeight r =? 0)%Z; cbn [negb]; [apply IH|].
  destruct (resolve r ns name kind) as [u e] eqn:Hr. rewrite IH. simpl. rewrite Hr. simpl.
  destruct e; by rewrite <-app_assoc.
Qed.
Lemma resolve_loop_past ns name kind sel i refs url failed :
  sel < i -> (loop ns name kind sel i refs url failed).1 = url.
Proof.
  revert i url failed. induction refs as [|r refs IH]; intros i url failed Hi; cbn [resolve_loop]; [done|].
  destruct (effectiveBackendWeight r =? 0)%Z; [apply IH; lia|].
  destruct (resolve r ns name kind) as [u e]. destruct (Nat.eqb_spec i sel); [lia|]. apply IH. lia.
Qed.
Lemma resolve_loop_selected ns name kind i k refs url failed r :
  refs !! k = Some r -> effectiveBackendWeight r <> 0%Z ->
  (loop ns name kind (i + k) i refs url failed).1 = (resolve r ns name kind).1.
Proof.
  revert i k url failed. induction refs as [|r' refs IH]; intros i k url failed Hk Hw; [done|].
  cbn [resolve_loop]. destruct k as [|k]; simplify_eq/=.
  - rewrite Nat.add_0_r. destruct (Z.eqb_spec (effectiveBackendWeight r) 0); [done|].
    destruct (resolve r ns name kind) as [u e]. rewrite Nat.eqb_refl. apply resolve_loop_past. lia.
  - replace (i + S k) with (S i + k) by lia. destruct (effectiveBackendWeight r' =? 0)%Z; [by apply IH|].
    destruct (resolve r' ns name kind) as [u e]. by apply IH.
Qed.
End resolution.

(** Backends are resolved safely.  A reference to another namespace yields
    a URL only when validation is disabled or a ReferenceGrant for the backend's
    actual group and kind permits it; an error never comes with a URL and carries
    one of the four Gateway API reasons, InvalidKind exactly for unsupported
    kinds; a rule reports one failure per invalid backend that would receive
    traffic, in order, and dials the highest-weight backend. *)
Theorem backends_resolved_safely {parser : UrlParser} (client : option Client) (validator : option GrantClient)
    (clusterDomain ns name kind : string) :
  (forall ref, let '(url, err) := resolveValidatedBackend client validator clusterDomain ref ns name kind in
     (url <> "" -> exists k, validateBackendGroupKind ref = Some k /\
        (default ns (gb_Namespace ref) = ns \/ validator = None \/
         exists grants, validator = Some grants /\
           @IsReferenceAllowed grants (mkReference "gateway.networking.k8s.io" kind ns name)
             (mkReference (target_group_kind k).1 (target_group_kind k).2 (default ns (gb_Namespace ref))
                (gb_Name ref)) = Ok true)) /\
     (forall e, err = Some e -> url = "" /\ bre_Reason e ∈ failure_reasons) /\
     (validateBackendGroupKind ref = None -> exists e, err = Some e /\ bre_Reason e = "InvalidKind")) /\
  (forall refs, let '(url, failed) := resolveRuleBackendRefs client validator clusterDomain ns name kind refs in
     failed = omap (fun r => (resolveValidatedBackend client validator clusterDomain r ns name kind).2)
                (List.filter (fun r => negb (effectiveBackendWeight r =? 0)%Z) refs) /\
     match SelectHighestWeightIndex refs with
     | Some k => exists r, refs !! k = Some r /\
         url = (resolveValidatedBackend client validator clusterDomain r ns name kind).1
     | None => url = ""
     end).
Proof.
  split.
  - intros ref. destruct (validateBackendGroupKind ref) as [k|] eqn:Hk.
    + rewrite (resolve_unfold _ _ _ _ _ _ _ k Hk). cbv zeta.
      set (p := mkParams kind ns name (gb_Name ref) (default ns (gb_Namespace ref)) _).
      destruct (resolver_spec client validator clusterDomain k p) as [He Hg].
      destruct (resolver_for client validator clusterDomain k p) as [url err]. simpl in *. split_and!; [| |done].
      * intros [Hns|Hv]%Hg; exists k; (split; [done|]); simpl in *; [by left|right].
        unfold validateCrossNamespaceRef in Hv. destruct validator as [grants|]; [right|by left].
        exists grants. split; [done|]. simpl in Hv. destruct (IsReferenceAllowed _ _); congruence.
      * intros e Hx. unfold either_url_or_error in He. simpl in He. destruct err as [e'|]; simplify_eq/=. done.
    + unfold resolveValidatedBackend. rewrite Hk. simpl. split_and!; [done| |eauto].
      intros e [= <-]. split; [done|]. unfold failure_reasons. set_solver.
  - intros refs. pose proof (highest_weight_first refs) as Hsel. unfold resolveRuleBackendRefs.
    destruct (Nat.eqb_spec (length refs) 0) as [Hz|Hz]; [by apply nil_length_inv in Hz as ->|].
    destruct (SelectHighestWeightIndex refs) as [k|]; simpl in *.
    + destruct Hsel as (r & Hk & Hw).
      pose proof (resolve_loop_failed client validator clusterDomain ns name kind k 0 refs "" []) as Hf.
      pose proof (resolve_loop_selected client validator clusterDomain ns name kind 0 k refs "" [] r Hk Hw) as Hs.
      simpl in Hs. destruct (resolve_loop _ _ _ _ _ _ _ _ _ _ _) as [url failed]. simpl in *. split; [done|].
      by exists r.
    + rewrite List_filter_none; [done|]. intros r Hr. by rewrite (Hsel r Hr).
Qed.

(** Insertion sort is one of the orders [sort.Slice] may produce. *)
Definition entry_cmp : routeEntry -> routeEntry -> bool :=
  lex_less (fun e => negb (bool_decide (e_hostname e = "*"))) bool_less
    (lex_less e_hostname str_ltb
       (lex_less (fun e => - e_priority e)%Z Z.ltb
          (lex_less (fun e => - Z.of_nat (String.length (e_path e)))%Z Z.ltb (by_key e_path str_ltb)))).
Lemma entry_less_cmp a b : entry_less a b = entry_cmp a b.
Proof.
  unfold entry_less, entry_cmp, lex_less, by_key, bool_less.
  destruct (bool_decide (e_hostname a = "*")) eqn:Ha, (bool_decide (e_hostname b = "*")) eqn:Hb; cbn [negb andb]; try done;
    rewrite (bool_decide_eq_true_2 (_ = _ :> bool)) by done; cbn [negb];
    (destruct (negb (bool_decide (e_hostname a = e_hostname b))); [done|]);
    (destruct (Z.eqb_spec (e_priority a) (e_priority b)) as [->|Hp]; cbn [negb];
     [rewrite (bool_decide_eq_true_2 (_ = _ :> Z)) by done|rewrite (bool_decide_eq_false_2 (_ = _ :> Z)) by lia]; cbn [negb];
     [|destruct (Z.ltb_spec (e_priority b) (e_priority a)), (Z.ltb_spec (- e_priority a) (- e_priority b)); lia]);
    (destruct (Nat.eqb_spec (String.length (e_path a)) (String.length (e_path b))) as [->|Hl]; cbn [negb];
     [rewrite (bool_decide_eq_true_2 (_ = _ :> Z)) by done|rewrite (bool_decide_eq_false_2 (_ = _ :> Z)) by lia]; cbn [negb]; [done|]);
    destruct (Nat.ltb_spec (String.length (e_path b)) (String.length (e_path a))),
      (Z.ltb_spec (- Z.of_nat (String.length (e_path a))) (- Z.of_nat (String.length (e_path b)))); lia.
Qed.
Lemma entry_less_strict : StrictWeak entry_less.
Proof.
  assert (H : StrictWeak entry_cmp) by (unfold entry_cmp; apply _).
  split; unfold not_after; intros *; rewrite !entry_less_cmp; [apply sw_asym|apply sw_trans].
Qed.
Definition insertion_entries : EntrySort := {|
  sortRouteEntries := stable_sort entry_less;
  sort_entries_perm := stable_sort_perm entry_less;
  sort_entries_sorted := @stable_sort_sorted _ entry_less entry_less_strict |}.

(** What [Build] emits.  One rule per route rule with a resolved backend,
    hostname and match, except for the wildcard host the tunnel cannot express;
    sorted by hostname, exact before prefix, longer paths first; followed by the
    catch-all for HTTPRoutes only.  The failures of all routes are reported in
    order.  This holds for whatever sorted order [sort.Slice] produces. *)
Theorem build_emits_entries {parser : UrlParser} (client : option Client) (validator : option GrantClient)
    (clusterDomain : string) {R : Type} {adapter : RouteAdapter R} {sorter : EntrySort} (routes : list R) :
  let entries := routes ≫= fun r => (extractProjectedEntries client validator clusterDomain r).1 in
  let '(rules, failed) := Build client validator clusterDomain routes in
  (exists es, rules = (entry_rule <$> es) ++ (if AddCatchAll then [catch_all_rule] else []) /\
     es ≡ₚ List.filter (fun e => negb (bool_decide (e_hostname e = "*"))) entries /\
     StronglySorted (not_after entry_less) es) /\
  (forall e, e ∈ entries <-> exists r rule h,
     r ∈ routes /\ rule ∈ ProjectRules r /\ h ∈ GetHostnames r /\ e_hostname e = h /\
     let '(service, _) := resolveRuleBackendRefs client validator clusterDomain (GetMeta r).1 (GetMeta r).2
                            GatewayKind (pr_backendRefs rule) in
     e_service e = service /\ service <> "" /\
     ((pr_matches rule = [] /\ e_path e = "" /\ e_priority e = 0%Z) \/
      mkProjectedMatch (e_path e) (e_priority e) ∈ pr_matches rule)) /\
  failed = routes ≫= fun r => (extractProjectedEntries client validator clusterDomain r).2.
Proof.
  intros entries. unfold Build. split_and!; [| |done].
  - eexists. split; [|split].
    + unfold entriesToIngressRules. by destruct AddCatchAll; rewrite ?app_nil_r.
    + apply Permutation_List_filter, sort_entries_perm.
    + apply StronglySorted_filter, sort_entries_sorted.
  - intros e. unfold entries. rewrite list_elem_of_bind. unfold extractProjectedEntries. simpl.
    setoid_rewrite list_elem_of_bind. unfold rule_result.
    split.
    + intros (r & (rule & He & Hrule) & Hr). exists r, rule. destruct (GetMeta r) as [ns nm].
      simpl. destruct (resolveRuleBackendRefs _ _ _ _ _ _ _) as [service failed]. simpl in He.
      case_bool_decide as Hs; [by apply elem_of_nil in He|]. unfold rule_entries in He.
      apply list_elem_of_bind in He as (h & He & Hh). exists h. split_and!; try done.
      * destruct (Nat.eqb_spec (length (pr_matches rule)) 0); [by apply list_elem_of_singleton in He as ->|].
        by apply list_elem_of_fmap in He as (m & -> & _).
      * destruct (Nat.eqb_spec (length (pr_matches rule)) 0) as [Hz|]; [by apply list_elem_of_singleton in He as ->|].
        by apply list_elem_of_fmap in He as (m & -> & _).
      * destruct (Nat.eqb_spec (length (pr_matches rule)) 0) as [Hz|].
        -- apply list_elem_of_singleton in He as ->. left. by apply nil_length_inv in Hz.
        -- apply list_elem_of_fmap in He as ([p pri] & -> & Hm). by right.
    + intros (r & rule & h & Hr & Hrule & Hh & Hhost & Hx). exists r. split; [|done]. exists rule. split; [|done].
      destruct (GetMeta r) as [ns nm]. simpl in Hx.
      destruct (resolveRuleBackendRefs _ _ _ _ _ _ _) as [service failed]. destruct Hx as (Hsv & Hne & Hm). simpl.
      rewrite bool_decide_eq_false_2 by done. unfold rule_entries. apply list_elem_of_bind. exists h. split; [|done].
      destruct e as [eh ep es epr]. simpl in *. subst.
      destruct Hm as [(Hnil & -> & ->)|Hm].
      * rewrite Hnil. simpl. by apply list_elem_of_singleton.
      * destruct (Nat.eqb_spec (length (pr_matches rule)) 0) as [Hz|];
          [apply nil_length_inv in Hz; rewrite Hz in Hm; by apply elem_of_nil in Hm|].
        apply list_elem_of_fmap. by exists (mkProjectedMatch ep epr).
Qed.
