(* ===== verification/BackendPasses.v ===== *)
(** * Backends after conversion

    [proxy/mark_unavailable.go], [proxy/expand_headless.go],
    [proxy/external_backend.go] and the controller's passes over a converted
    configuration ([mark_unavailable_backends.go], [headless_backends.go],
    [zero_endpoint_backends.go], [resolve_external_backends.go],
    [service_backend_visit.go], the tail of [buildProxyConfig]).

    The passes mutate the configuration in place; every rule owns its backend
    slice, so they are functions from configurations to configurations here.
    Reads of the cluster are the fields of [ServiceReader], where [None] is any
    error of the client. *)
From Stdlib Require Import Ascii.
From stdpp Require Import sorting.
From stdpp Require Import base sets gmap strings list.
From S2P Require Import Prelude GoStrings GoHttp GoJson ProxyConfig Matcher Cors Filters Router RouterSpec Shadow.
From S2P Require Import ReferenceGrant Ingress IngressBuild.

(** ** Service addresses *)

Definition httpsPort : Z := 443.
Definition buildServiceURL (name namespace : string) (port : Z) (clusterDomain : string) : string :=
  let clusterDomain := TrimSuffix clusterDomain "." in
  let scheme := if (port =? httpsPort)%Z then "https" else "http" in
  scheme +:+ "://" +:+ name +:+ "." +:+ namespace +:+ ".svc." +:+ clusterDomain +:+ ":" +:+ Itoa port.

(** [net.JoinHostPort]. *)
Definition JoinHostPort (host port : string) : string :=
  if ContainsByte host ":" then "[" +:+ host +:+ "]:" +:+ port else host +:+ ":" +:+ port.

(** ** Updates of a backend *)

Definition set_URL (url : string) (b : BackendRef) : BackendRef :=
  mkBackendRef url (be_Weight b) (be_Protocol b) (be_TLS b) (be_Filters b) (be_WebSocket b) (be_UnavailableStatus b).
Definition set_Weight (w : Z) (b : BackendRef) : BackendRef :=
  mkBackendRef (be_URL b) w (be_Protocol b) (be_TLS b) (be_Filters b) (be_WebSocket b) (be_UnavailableStatus b).
Definition set_Protocol (p : string) (b : BackendRef) : BackendRef :=
  mkBackendRef (be_URL b) (be_Weight b) p (be_TLS b) (be_Filters b) (be_WebSocket b) (be_UnavailableStatus b).
Definition set_Status (status : Z) (b : BackendRef) : BackendRef :=
  mkBackendRef (be_URL b) (be_Weight b) (be_Protocol b) (be_TLS b) (be_Filters b) (be_WebSocket b) status.
Definition set_Backends (bs : list BackendRef) (r : RouteRule) : RouteRule :=
  mkRouteRule (rule_Hostnames r) (rule_Matches r) (rule_Filters r) bs (rule_Timeouts r) (rule_UnavailableStatus r).
Definition set_Rules (rules : list RouteRule) (cfg : Config) : Config :=
  mkConfig (cfg_Version cfg) rules (cfg_HasGRPCRoute cfg) (cfg_Diagnostics cfg) (cfg_Provenance cfg).
(** The two nested loops over rules and backends. *)
Definition map_backends (f : BackendRef -> BackendRef) (cfg : Config) : Config :=
  set_Rules ((fun r => set_Backends (f <$> rule_Backends r) r) <$> cfg_Rules cfg) cfg.
Definition all_backends (cfg : Config) : list BackendRef := cfg_Rules cfg ≫= rule_Backends.

(** ** Weights ([expand_headless.go]) *)

(** The Euclidean loop on [int32]; 64 rounds suffice for 31-bit values
    ([gcd_loop_gcd]). *)
Fixpoint gcd_loop (fuel : nat) (m n : Z) : Z :=
  match fuel with
  | O => m
  | S fuel' => if (n =? 0)%Z then m else gcd_loop fuel' n (Z.rem m n)
  end.
Definition gcdInt32 (m n : Z) : Z :=
  let m := if (m <? 0)%Z then int32 (- m) else m in
  let n := if (n <? 0)%Z then int32 (- n) else n in
  gcd_loop 64 m n.

Definition reduceWeightsByGCD (backends : list BackendRef) : list BackendRef :=
  let divisor := foldl (fun d b => gcdInt32 d (be_Weight b)) 0%Z backends in
  if (divisor <=? 1)%Z then backends
  else (fun b => set_Weight (Z.quot (be_Weight b) divisor) b) <$> backends.

Definition scaleWeight (weight scale : Z) : Z :=
  let scaled := int64 (weight * scale) in
  if (MaxInt32 <? scaled)%Z then MaxInt32 else int32 scaled.

Record ResolvedEndpoint := mkResolvedEndpoint { re_Host : string; re_Port : Z }.

Section proxy.
Context {parser : UrlParser}.

(** [""] when the URL does not parse. *)
Definition ServiceBackendHost (clusterDomain namespace name : string) (port : Z) : string :=
  match url_Parse (buildServiceURL name namespace port clusterDomain) with
  | Some u => url_Host u
  | None => ""
  end.
(** Does the backend dial this host? *)
Definition on_host (target : string) (b : BackendRef) : bool :=
  match url_Parse (be_URL b) with
  | Some u => bool_decide (url_Host u = target)
  | None => false
  end.

Definition mark_backend (target : string) (status : Z) (b : BackendRef) : BackendRef :=
  if negb (be_UnavailableStatus b =? 0)%Z then b
  else if on_host target b then set_Status status b else b.
Definition MarkUnavailableBackends (cfg : Config) (clusterDomain namespace name : string) (port status : Z)
    : Config :=
  let target := ServiceBackendHost clusterDomain namespace name port in
  if bool_decide (target = "") then cfg else map_backends (mark_backend target status) cfg.

Definition unmarked_host (b : BackendRef) : option string :=
  if negb (be_UnavailableStatus b =? 0)%Z then None else url_Host <$> url_Parse (be_URL b).
Definition UnmarkedBackendHosts (cfg : Config) : gset string :=
  list_to_set (omap unmarked_host (all_backends cfg)).

(** ** Headless expansion *)

Definition backendMatchesHeadless (target : string) (b : BackendRef) : bool :=
  if negb (be_UnavailableStatus b =? 0)%Z || (be_Weight b <=? 0)%Z then false else on_host target b.
Definition ruleHasExpandableBackend (rule : RouteRule) (target : string) : bool :=
  existsb (backendMatchesHeadless target) (rule_Backends rule).

Definition backendScheme (rawURL : string) : string :=
  match url_Parse rawURL with
  | Some u => if negb (bool_decide (url_Scheme u = "")) then url_Scheme u else "http"
  | None => "http"
  end.
Definition endpoint_URL (scheme : string) (ep : ResolvedEndpoint) : string :=
  scheme +:+ "://" +:+ JoinHostPort (re_Host ep) (Itoa (re_Port ep)).
Definition endpointBackends (matched : BackendRef) (endpoints : list ResolvedEndpoint) : list BackendRef :=
  let scheme := backendScheme (be_URL matched) in
  (fun ep => set_URL (endpoint_URL scheme ep) matched) <$> endpoints.

(** What one backend of an expanded rule becomes, before the reduction. *)
Definition expand_backend (target : string) (scale : Z) (endpoints : list ResolvedEndpoint) (b : BackendRef)
    : list BackendRef :=
  if backendMatchesHeadless target b then endpointBackends b endpoints
  else [set_Weight (scaleWeight (be_Weight b) scale) b].
Definition expandRuleBackends (rule : RouteRule) (target : string) (scale : Z)
    (endpoints : list ResolvedEndpoint) : RouteRule :=
  if negb (ruleHasExpandableBackend rule target) then rule
  else set_Backends (reduceWeightsByGCD (rule_Backends rule ≫= expand_backend target scale endpoints)) rule.

Definition ExpandHeadlessBackend (cfg : Config) (clusterDomain namespace name : string) (servicePort : Z)
    (endpoints : list ResolvedEndpoint) : Config :=
  if length endpoints =? 0 then cfg
  else
    let target := ServiceBackendHost clusterDomain namespace name servicePort in
    if bool_decide (target = "") then cfg
    else
      let scale := int32 (Z.of_nat (length endpoints)) in
      set_Rules ((fun r => expandRuleBackends r target scale endpoints) <$> cfg_Rules cfg) cfg.

(** ** External backends ([external_backend.go]) *)

Definition externalBackendScheme : string := "externalbackend".
Definition ExternalBackendSentinelURL (namespace name : string) : string :=
  externalBackendScheme +:+ "://" +:+ name +:+ "?ns=" +:+ QueryEscape namespace.
Definition ParseExternalBackendSentinel (rawURL : string) : option (string * string) :=
  match url_Parse rawURL with
  | Some u =>
      if bool_decide (url_Scheme u = externalBackendScheme)
      then Some (query_Get (url_RawQuery u) "ns", url_Host u) else None
  | None => None
  end.
End proxy.

(** ** The controller's view of the cluster *)

(** A Service port's target: a number, or [None] for a named port. *)
Record ServicePort := mkServicePort { sp_Name : string; sp_Port : Z; sp_TargetPort : option Z }.
Record Service := mkService { svc_ExternalName : bool; svc_ClusterIP : string; svc_Ports : list ServicePort }.
Record Endpoint := mkEndpoint { ep_Addresses : list string; ep_Ready : option bool }.
Record EndpointPort := mkEndpointPort { epp_Name : option string; epp_Port : option Z }.
Record EndpointSlice := mkEndpointSlice { es_Endpoints : list Endpoint; es_Ports : list EndpointPort }.

Record ServiceReader := mkServiceReader {
  read_service : string -> string -> option Service;
  list_slices : string -> string -> option (list EndpointSlice);
  read_external : string -> string -> option ExternalBackendSpec;
}.

Definition is_ready (e : Endpoint) : bool := match ep_Ready e with Some r => r | None => false end.

(** ** Resolving the endpoints of a headless Service ([headless_backends.go]) *)

Fixpoint serviceTargetPort (ports : list ServicePort) (port : Z) : string * Z :=
  match ports with
  | [] => ("", 0%Z)
  | p :: ports' =>
      if negb (sp_Port p =? port)%Z then serviceTargetPort ports' port
      else match sp_TargetPort p with
           | Some n => if (0 <? n)%Z then (sp_Name p, n) else (sp_Name p, 0%Z)
           | None => (sp_Name p, 0%Z)
           end
  end.

Fixpoint named_port (ports : list EndpointPort) (portName : string) : option Z :=
  match ports with
  | [] => None
  | p :: ports' =>
      match epp_Port p with
      | None => named_port ports' portName
      | Some n =>
          let named := match epp_Name p with Some s => bool_decide (s = portName) | None => false end in
          let unnamed := match epp_Name p with Some _ => false | None => bool_decide (portName = "") end in
          if named || unnamed then Some n else named_port ports' portName
      end
  end.
Definition endpointSlicePort (slice : EndpointSlice) (portName : string) : option Z :=
  match named_port (es_Ports slice) portName with
  | Some n => Some n
  | None => match es_Ports slice with [p] => epp_Port p | _ => None end
  end.

Definition sliceEndpoints (slice : EndpointSlice) (portName : string) (fallback : Z)
    : list ResolvedEndpoint * bool :=
  let endpointPort :=
    match endpointSlicePort slice portName with
    | Some n => Some n
    | None => if (0 <? fallback)%Z then Some fallback else None
    end in
  let ready := List.filter is_ready (es_Endpoints slice) in
  (match endpointPort with
   | Some n => ready ≫= fun e => (fun addr => mkResolvedEndpoint addr n) <$> ep_Addresses e
   | None => []
   end, 0 <? length ready).

Definition endpoint_less (a b : ResolvedEndpoint) : bool :=
  if negb (bool_decide (re_Host a = re_Host b)) then str_ltb (re_Host a) (re_Host b)
  else (re_Port a <? re_Port b)%Z.

Section controller.
Context {parser : UrlParser} {sorter : SortFunc} (cli : ServiceReader) (clusterDomain : string).

(** [sort.Slice] only ties equal endpoints, so any sort returns the same list. *)
Definition resolveHeadlessEndpoints (svc : Service) (namespace name : string) (port : Z)
    : list ResolvedEndpoint * bool :=
  let '(portName, fallbackPort) := serviceTargetPort (svc_Ports svc) port in
  match list_slices cli namespace name with
  | None => ([], false)
  | Some slices =>
      let found := (fun s => sliceEndpoints s portName fallbackPort) <$> slices in
      (sort_func endpoint_less (found ≫= fst), existsb snd found)
  end.

Definition ClusterIPNone : string := "None".
Definition StatusInternalServerError : Z := 500.
Definition StatusServiceUnavailable : Z := 503.

Definition expandBackendIfHeadless (cfg : Config) (svcNamespace name : string) (port : Z) : Config :=
  match read_service cli svcNamespace name with
  | None => cfg
  | Some svc =>
      if svc_ExternalName svc || negb (bool_decide (svc_ClusterIP svc = ClusterIPNone)) then cfg
      else
        let '(endpoints, hadReady) := resolveHeadlessEndpoints svc svcNamespace name port in
        if 0 <? length endpoints then ExpandHeadlessBackend cfg clusterDomain svcNamespace name port endpoints
        else if hadReady then
          MarkUnavailableBackends cfg clusterDomain svcNamespace name port StatusServiceUnavailable
        else cfg
  end.

(** ** Services without ready endpoints ([zero_endpoint_backends.go]) *)

Definition serviceHasReadyEndpoint (namespace serviceName : string) : bool :=
  match list_slices cli namespace serviceName with
  | None => true
  | Some slices => existsb (fun s => existsb is_ready (es_Endpoints s)) slices
  end.
Definition markBackendIfZeroEndpoints (cfg : Config) (svcNamespace name : string) (port : Z) : Config :=
  match read_service cli svcNamespace name with
  | None => cfg
  | Some svc =>
      if svc_ExternalName svc then cfg
      else if serviceHasReadyEndpoint svcNamespace name then cfg
      else MarkUnavailableBackends cfg clusterDomain svcNamespace name port StatusServiceUnavailable
  end.

(** ** Visiting each Service once ([service_backend_visit.go]) *)

Definition defaultBackendPort : Z := 80.
Definition IsServiceBackendRef (ref : GwBackendRef) : bool :=
  let group_ok := match gb_Group ref with
                  | Some g => bool_decide (g = "") || bool_decide (g = "core")
                  | None => true
                  end in
  let kind_ok := match gb_Kind ref with Some k => bool_decide (k = "Service") | None => true end in
  group_ok && kind_ok.

(** A reference of a route: the route's namespace and the backendRef. *)
Definition RouteRef : Type := string * GwBackendRef.
Definition ref_service (r : RouteRef) : string * string * Z :=
  (default r.1 (gb_Namespace r.2), gb_Name r.2, default defaultBackendPort (gb_Port r.2)).
Definition ref_host (r : RouteRef) : string :=
  let '(svcNamespace, name, port) := ref_service r in ServiceBackendHost clusterDomain svcNamespace name port.

Definition Action : Type := Config -> string -> string -> Z -> Config.
Definition visit (authorized : gset string) (action : Action) (st : gset string * Config) (r : RouteRef)
    : gset string * Config :=
  let '(seen, cfg) := st in
  if negb (IsServiceBackendRef r.2) then st
  else
    let '(svcNamespace, name, port) := ref_service r in
    let host := ref_host r in
    if negb (bool_decide (host ∈ authorized)) then st
    else if bool_decide (host ∈ seen) then st
    else (seen ∪ {[host]}, action cfg svcNamespace name port).
Definition visitAuthorizedServiceBackends (action : Action) (cfg : Config) (refs : list RouteRef) : Config :=
  let authorized := UnmarkedBackendHosts cfg in
  if bool_decide (authorized = ∅) then cfg else (foldl (visit authorized action) (∅, cfg) refs).2.

(** The references of the routes in the order the visitor sees them. *)
Definition route_refs (routes : list HTTPRoute) (grpcRoutes : list GRPCRoute) : list RouteRef :=
  (routes ≫= fun r => http_Rules r ≫= fun rule => (fun ref => (http_Namespace r, ref)) <$> hr_BackendRefs rule) ++
  (grpcRoutes ≫= fun r => grpc_Rules r ≫= fun rule => (fun ref => (grpc_Namespace r, ref)) <$> gr_BackendRefs rule).

Definition expandHeadlessBackends (cfg : Config) (refs : list RouteRef) : Config :=
  visitAuthorizedServiceBackends expandBackendIfHeadless cfg refs.
Definition markZeroEndpointBackends (cfg : Config) (refs : list RouteRef) : Config :=
  visitAuthorizedServiceBackends markBackendIfZeroEndpoints cfg refs.

(** ** Invalid references and external backends *)

Definition markUnavailableBackends (cfg : Config) (failedRefs : list BackendRefError) : Config :=
  foldl (fun cfg ref =>
    let domain := if negb (bool_decide (bre_Domain ref = "")) then bre_Domain ref else clusterDomain in
    MarkUnavailableBackends cfg domain (bre_BackendNS ref) (bre_BackendName ref) (bre_Port ref)
      StatusInternalServerError) cfg failedRefs.

Definition fail_backend (b : BackendRef) : BackendRef :=
  if (be_UnavailableStatus b =? 0)%Z then set_Status StatusInternalServerError b else b.
Definition resolve_external (b : BackendRef) : BackendRef :=
  match ParseExternalBackendSentinel (be_URL b) with
  | None => b
  | Some (namespace, name) =>
      match read_external cli namespace name with
      | None => fail_backend b
      | Some spec =>
          if negb (ExternalBackend_Validate spec) then fail_backend b
          else
            let b := set_URL (ExternalBackend_URL spec) b in
            if bool_decide (be_Protocol b = BackendProtocolH2C) && bool_decide (eb_Scheme spec = "https")
            then set_Protocol BackendProtocolHTTP b else b
      end
  end.
Definition resolveExternalBackends (cfg : Config) : Config := map_backends resolve_external cfg.

(** ** The tail of [buildProxyConfig]

    From the converted HTTP configuration on; [grpc] is what the conversion of
    the GRPCRoutes returned. *)
Definition finishProxyConfig (cfg grpcCfg : Config) (routes : list HTTPRoute) (grpcRoutes : list GRPCRoute)
    (failedRefs grpcFailedRefs : list BackendRefError) : Config :=
  let cfg := markUnavailableBackends cfg failedRefs in
  let cfg :=
    if 0 <? length grpcRoutes then
      markUnavailableBackends
        (mkConfig (cfg_Version cfg) (cfg_Rules cfg ++ cfg_Rules grpcCfg) (cfg_HasGRPCRoute cfg)
           (cfg_Diagnostics cfg ++ cfg_Diagnostics grpcCfg) (cfg_Provenance cfg ++ cfg_Provenance grpcCfg))
        grpcFailedRefs
    else cfg in
  let refs := route_refs routes grpcRoutes in
  let cfg := expandHeadlessBackends cfg refs in
  let cfg := markZeroEndpointBackends cfg refs in
  let cfg := resolveExternalBackends cfg in
  let cfg := mkConfig (cfg_Version cfg) (cfg_Rules cfg) (0 <? length grpcRoutes) (cfg_Diagnostics cfg)
               (cfg_Provenance cfg) in
  mkConfig (cfg_Version cfg) (cfg_Rules cfg) (cfg_HasGRPCRoute cfg)
    (cfg_Diagnostics cfg ++ DetectShadowedRules cfg) (cfg_Provenance cfg).
End controller.

(** ** Weights: the loop computes the gcd, and the reduction keeps ratios *)

Lemma gcd_step m n : (n <> 0)%Z -> Z.gcd n (m mod n) = Z.gcd m n.
Proof. intros Hn. rewrite Z.gcd_comm, Z.gcd_mod by done. apply Z.gcd_comm. Qed.
Lemma gcd_loop_gcd (k : nat) fuel m n :
  (0 <= m)%Z -> (0 <= n < 2 ^ Z.of_nat k)%Z -> 2 * k + 1 <= fuel -> gcd_loop fuel m n = Z.gcd m n.
Proof.
  revert fuel m n. induction k as [|k IH]; intros fuel m n Hm Hn Hf.
  { assert (n = 0)%Z as -> by (simpl in Hn; lia). destruct fuel; simpl; rewrite Z.gcd_0_r_nonneg; done. }
  destruct fuel as [|[|fuel]]; [lia..|]. cbn [gcd_loop].
  destruct (Z.eqb_spec n 0) as [->|Hn0]; [by rewrite Z.gcd_0_r_nonneg|].
  rewrite Z.rem_mod_nonneg by lia. set (r := (m mod n)%Z).
  assert (Hr : (0 <= r < n)%Z) by (apply Z.mod_pos_bound; lia).
  assert (Hg : Z.gcd m n = Z.gcd n r) by (symmetry; by apply gcd_step).
  destruct (Z.eqb_spec r 0) as [Hr0|Hr0].
  { rewrite Hg, Hr0, Z.gcd_0_r_nonneg; lia. }
  rewrite Z.rem_mod_nonneg by lia. rewrite IH.
  - rewrite Hg. by apply gcd_step.
  - lia.
  - assert (Hb := Z.mod_pos_bound n r ltac:(lia)). split; [lia|].
    assert (Hdm := Z_div_mod_eq_full n r). assert (0 < n / r)%Z by (apply Z.div_str_pos; lia).
    rewrite Nat2Z.inj_succ, Z.pow_succ_r in Hn by lia. nia.
  - lia.
Qed.
Lemma gcdInt32_gcd m n : (0 <= m <= MaxInt32)%Z -> (0 <= n <= MaxInt32)%Z -> gcdInt32 m n = Z.gcd m n.
Proof.
  unfold gcdInt32, MaxInt32. intros Hm Hn.
  rewrite (proj2 (Z.ltb_ge m 0)), (proj2 (Z.ltb_ge n 0)) by lia.
  apply (gcd_loop_gcd 31); [lia| |lia]. change (2 ^ Z.of_nat 31)%Z with 2147483648%Z. lia.
Qed.

Lemma Z_gcd_bound m n : (0 <= m <= MaxInt32)%Z -> (0 <= n <= MaxInt32)%Z -> (0 <= Z.gcd m n <= MaxInt32)%Z.
Proof.
  intros Hm Hn. split; [apply Z.gcd_nonneg|].
  destruct (Z.eq_dec n 0%Z) as [->|]; [rewrite Z.gcd_0_r_nonneg; lia|].
  transitivity n; [|lia]. apply Z.divide_pos_le; [lia|apply Z.gcd_divide_r].
Qed.
Lemma gcd_fold d bs :
  (0 <= d <= MaxInt32)%Z -> int32_weights bs ->
  let g := foldl (fun d b => gcdInt32 d (be_Weight b)) d bs in
  (0 <= g)%Z /\ (g | d)%Z /\ forall b, b ∈ bs -> (g | be_Weight b)%Z.
Proof.
  revert d. induction bs as [|b bs IH]; intros d Hd Hbs; simpl.
  { split_and!; [lia|apply Z.divide_refl|]. by intros b ?%elem_of_nil. }
  assert (Hb : (0 <= be_Weight b <= MaxInt32)%Z) by (apply Hbs; by left).
  rewrite gcdInt32_gcd by done.
  destruct (IH (Z.gcd d (be_Weight b)) (Z_gcd_bound _ _ Hd Hb)) as (H0 & H1 & H2).
  { intros x Hx. apply Hbs. by right. }
  split_and!; [done|by etransitivity; [|apply Z.gcd_divide_l]|].
  intros x [->|Hx]%elem_of_cons; [|by apply H2]. by etransitivity; [|apply Z.gcd_divide_r].
Qed.

(** The reduction divides every weight by one positive number and changes nothing else. *)
Lemma reduceWeightsByGCD_spec bs :
  int32_weights bs ->
  exists d, (0 < d)%Z /\ (forall b, b ∈ bs -> (d * (be_Weight b / d) = be_Weight b)%Z) /\
    reduceWeightsByGCD bs = ((fun b => set_Weight (be_Weight b / d) b) <$> bs).
Proof.
  intros Hbs. unfold reduceWeightsByGCD. set (g := foldl _ 0%Z bs).
  destruct (gcd_fold 0 bs ltac:(unfold MaxInt32; lia) Hbs) as (H0 & _ & Hdiv). fold g in H0, Hdiv.
  assert (Hid : bs = ((fun b => set_Weight (be_Weight b / 1) b) <$> bs)).
  { clear. induction bs as [|[] bs IH]; [done|]. cbn. by rewrite Z.div_1_r, <-IH. }
  destruct (Z.leb_spec g 1) as [Hg|Hg].
  - exists 1%Z. split_and!; [lia| |done]. intros b _. by rewrite Z.div_1_r, Z.mul_1_l.
  - exists g. split_and!; [lia| |].
    + intros b Hb. symmetry. apply Z_div_exact_full_2; [lia|]. apply Z.mod_divide; [lia|by apply Hdiv].
    + apply list_fmap_ext. intros i b Hb%list_elem_of_lookup_2. rewrite Z.quot_div_nonneg; [done| |lia].
      by apply Hbs.
Qed.

Lemma scaleWeight_exact w n :
  (0 <= w)%Z -> (0 <= n)%Z -> (w * n <= MaxInt32)%Z -> scaleWeight w n = (w * n)%Z.
Proof.
  intros Hw Hn Hb. unfold scaleWeight. rewrite int64_id by (unfold is_int64, MaxInt64, MaxInt32 in *; nia).
  rewrite (proj2 (Z.ltb_ge MaxInt32 (w * n))) by lia. apply int32_id. unfold is_int32, MaxInt32 in *. nia.
Qed.

Lemma weight_sum_map (f : BackendRef -> BackendRef) d n bs :
  (forall b, b ∈ bs -> (d * be_Weight (f b) = n * be_Weight b)%Z) ->
  (d * weight_sum (f <$> bs) = n * weight_sum bs)%Z.
Proof.
  induction bs as [|b bs IH]; intros H; [simpl; lia|]. cbn [fmap list_fmap weight_sum foldr].
  assert (Hb := H b ltac:(by left)). assert (Ht := IH ltac:(intros x Hx; apply H; by right)).
  unfold weight_sum in *. simpl. lia.
Qed.
Lemma weight_sum_copies b n (us : list ResolvedEndpoint) (f : ResolvedEndpoint -> BackendRef) :
  (forall ep, ep ∈ us -> be_Weight (f ep) = be_Weight b) -> n = Z.of_nat (length us) ->
  weight_sum (f <$> us) = (n * be_Weight b)%Z.
Proof.
  revert n. induction us as [|u us IH]; intros n H ->; [simpl; lia|]. cbn [fmap list_fmap].
  assert (Hu := H u ltac:(by left)). unfold weight_sum in *. cbn [foldr length].
  rewrite (IH _ ltac:(intros x Hx; apply H; by right) eq_refl), Hu. lia.
Qed.

(** ** Headless expansion keeps traffic fractions *)

Section expansion.
Context {parser : UrlParser} (target : string) (endpoints : list ResolvedEndpoint).
Notation n := (Z.of_nat (length endpoints)).

(** Weights the [int32] arithmetic scales without clamping. *)
Definition scalable (bs : list BackendRef) : Prop :=
  forall b, b ∈ bs -> (0 <= be_Weight b)%Z /\ (be_Weight b * n <= MaxInt32)%Z.

Hypothesis Hn : (0 < n <= MaxInt32)%Z.

Lemma expand_backend_sum b :
  (0 <= be_Weight b)%Z -> (be_Weight b * n <= MaxInt32)%Z ->
  weight_sum (expand_backend target n endpoints b) = (n * be_Weight b)%Z.
Proof.
  intros H0 Hb. unfold expand_backend. destruct (backendMatchesHeadless target b).
  - by apply (weight_sum_copies b).
  - unfold weight_sum; simpl. rewrite scaleWeight_exact by lia. lia.
Qed.
Lemma expand_backend_weights b x :
  (0 <= be_Weight b)%Z -> (be_Weight b * n <= MaxInt32)%Z ->
  x ∈ expand_backend target n endpoints b -> (0 <= be_Weight x <= MaxInt32)%Z.
Proof.
  intros H0 Hb. unfold expand_backend. destruct (backendMatchesHeadless target b).
  - intros (ep & -> & _)%list_elem_of_fmap. simpl. nia.
  - intros ->%list_elem_of_singleton. simpl. rewrite scaleWeight_exact by lia. lia.
Qed.

(** The backends one backend turns into. *)
Definition image_of (b : BackendRef) (img : list BackendRef) : Prop :=
  exists w, img = if backendMatchesHeadless target b
                  then (fun ep => set_Weight w (set_URL (endpoint_URL (backendScheme (be_URL b)) ep) b)) <$> endpoints
                  else [set_Weight w b].

Lemma expand_rule_spec rule :
  scalable (rule_Backends rule) ->
  exists image d, (0 < d)%Z /\
    rule_Backends (expandRuleBackends rule target n endpoints) = rule_Backends rule ≫= image /\
    forall b, b ∈ rule_Backends rule -> image_of b (image b) /\ (d * weight_sum (image b) = n * be_Weight b)%Z.
Proof.
  intros Hs. unfold expandRuleBackends. destruct (ruleHasExpandableBackend rule target) eqn:He; cbn [negb].
  - assert (Hw : int32_weights (rule_Backends rule ≫= expand_backend target n endpoints)).
    { intros x (b & Hx & Hb)%list_elem_of_bind. destruct (Hs b Hb). by eapply expand_backend_weights. }
    destruct (reduceWeightsByGCD_spec _ Hw) as (d & Hd & Hdiv & Hred).
    exists (fun b => (fun x => set_Weight (be_Weight x / d) x) <$> expand_backend target n endpoints b), d.
    split_and!; [done| |].
    + simpl. rewrite Hred. clear. induction (rule_Backends rule) as [|b bs IH]; [done|].
      rewrite !bind_cons, fmap_app, IH. done.
    + intros b Hb. destruct (Hs b Hb) as [H0 H1]. split.
      * unfold image_of, expand_backend. destruct (backendMatchesHeadless target b).
        -- exists (be_Weight b / d)%Z. unfold endpointBackends. rewrite <-list_fmap_compose.
           apply list_fmap_ext. by intros i ep _.
        -- exists (scaleWeight (be_Weight b) n / d)%Z. done.
      * rewrite <-(expand_backend_sum b H0 H1).
        rewrite <-(Z.mul_1_l (weight_sum (expand_backend target n endpoints b))). apply weight_sum_map.
        intros x Hx. simpl. rewrite Hdiv; [lia|]. apply list_elem_of_bind. eauto.
  - exists (fun b => [set_Weight (be_Weight b) b]), n. split_and!; [lia| |].
    + clear. induction (rule_Backends rule) as [|[] bs IH]; [done|]. rewrite bind_cons, <-IH. done.
    + intros b Hb. unfold image_of, weight_sum. simpl. split; [|lia].
      unfold ruleHasExpandableBackend in He. rewrite existsb_elem_of_false in He. rewrite (He b Hb). eauto.
Qed.

Lemma weight_sum_bind image d bs :
  (forall b, b ∈ bs -> (d * weight_sum (image b) = n * be_Weight b)%Z) ->
  (d * weight_sum (bs ≫= image) = n * weight_sum bs)%Z.
Proof.
  induction bs as [|b bs IH]; intros H; [simpl; lia|]. rewrite bind_cons, weight_sum_app.
  assert (Hb := H b ltac:(by left)). assert (Ht := IH ltac:(intros x Hx; apply H; by right)).
  unfold weight_sum in *. cbn [foldr]. lia.
Qed.
End expansion.

(** Expanding a headless Service replaces each of its backends by one backend
    per ready endpoint, all of the same weight, leaves every other backend's
    address and settings alone, and keeps every original backend's share of the
    traffic exactly: (weight of its image) / (new total) = weight / total. *)
Theorem expand_preserves_fractions {parser : UrlParser} (cfg : Config) (clusterDomain namespace name : string)
    (port : Z) (endpoints : list ResolvedEndpoint) (i : nat) (rule : RouteRule) :
  let target := ServiceBackendHost clusterDomain namespace name port in
  target <> "" -> (0 < Z.of_nat (length endpoints) <= MaxInt32)%Z ->
  cfg_Rules cfg !! i = Some rule -> scalable endpoints (rule_Backends rule) ->
  exists rule' image,
    cfg_Rules (ExpandHeadlessBackend cfg clusterDomain namespace name port endpoints) !! i = Some rule' /\
    rule' = set_Backends (rule_Backends rule ≫= image) rule /\
    forall b, b ∈ rule_Backends rule ->
      image_of target endpoints b (image b) /\
      (weight_sum (image b) * weight_sum (rule_Backends rule) = be_Weight b * weight_sum (rule_Backends rule'))%Z.
Proof.
  intros target Ht Hn Hi Hs. unfold ExpandHeadlessBackend.
  rewrite (proj2 (Nat.eqb_neq (length endpoints) 0)) by lia. fold target.
  rewrite bool_decide_false by done. cbn [set_Rules cfg_Rules]. rewrite list_lookup_fmap, Hi.
  rewrite int32_id by (unfold is_int32; unfold MaxInt32 in *; lia).
  destruct (expand_rule_spec target endpoints Hn rule Hs) as (image & d & Hd & Heq & Himg).
  eexists (expandRuleBackends rule target (Z.of_nat (length endpoints)) endpoints), image. split_and!; [done| |].
  - rewrite <-Heq. unfold expandRuleBackends. destruct (negb _); [|done]. by destruct rule.
  - intros b Hb. destruct (Himg b Hb) as [H1 H2]. split; [done|]. rewrite Heq.
    assert (Hsum := weight_sum_bind endpoints image d (rule_Backends rule) (fun b Hb => proj2 (Himg b Hb))).
    apply (Z.mul_reg_l _ _ d); [lia|]. rewrite Z.mul_assoc, H2, Z.mul_shuffle3, Hsum. ring.
Qed.

(** ** Marking passes, as functions of one backend *)

Lemma map_backends_ext f g cfg :
  (forall b, b ∈ all_backends cfg -> f b = g b) -> map_backends f cfg = map_backends g cfg.
Proof.
  intros H. unfold map_backends. f_equal. apply list_fmap_ext. intros i r Hr. f_equal.
  apply list_fmap_ext. intros j b Hb. apply H. unfold all_backends. apply list_elem_of_bind. exists r.
  split; by eapply list_elem_of_lookup_2.
Qed.
Lemma map_backends_id f cfg : (forall b, b ∈ all_backends cfg -> f b = b) -> map_backends f cfg = cfg.
Proof.
  intros H. rewrite (map_backends_ext f (fun b => b)) by done. unfold map_backends, set_Rules. destruct cfg as [v rs g d p].
  simpl. f_equal. clear. induction rs as [|[] rs IH]; [done|]. cbn. f_equal; [|done].
  unfold set_Backends. cbn. by rewrite list_fmap_id.
Qed.
Lemma map_backends_compose f g cfg : map_backends f (map_backends g cfg) = map_backends (fun b => f (g b)) cfg.
Proof.
  unfold map_backends, set_Rules. simpl. f_equal. rewrite <-list_fmap_compose. apply list_fmap_ext.
  intros i r _. unfold set_Backends. simpl. by rewrite <-list_fmap_compose.
Qed.
Lemma all_backends_map f cfg : all_backends (map_backends f cfg) = f <$> all_backends cfg.
Proof.
  unfold all_backends, map_backends. simpl. induction (cfg_Rules cfg) as [|r rs IH]; [done|].
  rewrite fmap_cons, !bind_cons, fmap_app, IH. done.
Qed.

Section marking.
Context {parser : UrlParser} (cli : ServiceReader) (clusterDomain : string).

(** A marked backend keeps its first status; an unmarked one is marked when [hit] says so. *)
Definition mark_when (hit : string -> bool) (status : Z) (b : BackendRef) : BackendRef :=
  match unmarked_host b with
  | Some h => if hit h then set_Status status b else b
  | None => b
  end.
Lemma mark_backend_when target status b :
  mark_backend target status b = mark_when (fun h => bool_decide (h = target)) status b.
Proof.
  unfold mark_backend, mark_when, unmarked_host, on_host. destruct (be_UnavailableStatus b =? 0)%Z; [|done].
  by destruct (url_Parse (be_URL b)).
Qed.
Lemma mark_when_ext hit hit' status b :
  (forall h, unmarked_host b = Some h -> hit h = hit' h) -> mark_when hit status b = mark_when hit' status b.
Proof. unfold mark_when. destruct (unmarked_host b); [|done]. intros H. by rewrite H. Qed.
Lemma mark_when_marked hit status b :
  status <> 0%Z -> unmarked_host (mark_when hit status b) =
    match unmarked_host b with Some h => if hit h then None else Some h | None => None end.
Proof.
  intros Hs. unfold mark_when. destruct (unmarked_host b) as [h|] eqn:Hb; [|done].
  destruct (hit h); [|done]. unfold unmarked_host. simpl. by rewrite (proj2 (Z.eqb_neq _ _) Hs).
Qed.
Lemma mark_when_twice hit hit' status status' b :
  status <> 0%Z ->
  mark_when hit' status' (mark_when hit status b) =
    match unmarked_host b with
    | Some h => if hit h then set_Status status b else if hit' h then set_Status status' b else b
    | None => b
    end.
Proof.
  intros Hs. unfold mark_when at 1. rewrite mark_when_marked by done. unfold mark_when.
  destruct (unmarked_host b) as [h|]; [|done]. by destruct (hit h), (hit' h).
Qed.

Lemma MarkUnavailableBackends_eq cfg domain ns name port status :
  let target := ServiceBackendHost domain ns name port in
  MarkUnavailableBackends cfg domain ns name port status =
  map_backends (mark_when (fun h => negb (bool_decide (target = "")) && bool_decide (h = target)) status) cfg.
Proof.
  intros target. unfold MarkUnavailableBackends. fold target. case_bool_decide as Ht; cbn [negb andb].
  - symmetry. apply map_backends_id. intros b _. unfold mark_when. by destruct (unmarked_host b).
  - apply map_backends_ext. intros b _. apply mark_backend_when.
Qed.

(** The host a failed reference stands for. *)
Definition failed_host (ref : BackendRefError) : string :=
  ServiceBackendHost (if negb (bool_decide (bre_Domain ref = "")) then bre_Domain ref else clusterDomain)
    (bre_BackendNS ref) (bre_BackendName ref) (bre_Port ref).
Definition is_failed (failedRefs : list BackendRefError) (h : string) : bool :=
  existsb (fun ref => negb (bool_decide (failed_host ref = "")) && bool_decide (h = failed_host ref)) failedRefs.

Lemma markUnavailableBackends_eq cfg failedRefs :
  markUnavailableBackends clusterDomain cfg failedRefs =
  map_backends (mark_when (is_failed failedRefs) StatusInternalServerError) cfg.
Proof.
  revert cfg. induction failedRefs as [|ref refs IH]; intros cfg.
  { symmetry. apply map_backends_id. intros b _. unfold mark_when. by destruct (unmarked_host b). }
  unfold markUnavailableBackends in *. cbn [foldl]. rewrite IH, MarkUnavailableBackends_eq, map_backends_compose.
  apply map_backends_ext. intros b _. rewrite mark_when_twice by done. unfold mark_when.
  destruct (unmarked_host b) as [h|]; [|done]. fold (failed_host ref).
  change (is_failed (ref :: refs) h) with
    ((negb (bool_decide (failed_host ref = "")) && bool_decide (h = failed_host ref)) || is_failed refs h).
  by destruct (negb _ && _), (is_failed refs h).
Qed.

(** The Service exists, is not an ExternalName one, and has no ready endpoint. *)
Definition no_ready_endpoints (ns name : string) : bool :=
  match read_service cli ns name with
  | Some svc => negb (svc_ExternalName svc) && negb (serviceHasReadyEndpoint cli ns name)
  | None => false
  end.
(** The first Service reference of a host decides. *)
Definition service_ref_of (refs : list RouteRef) (h : string) : option RouteRef :=
  List.find (fun r => IsServiceBackendRef r.2 && bool_decide (ref_host clusterDomain r = h)) refs.
Definition zero_endpoints (refs : list RouteRef) (h : string) : bool :=
  match service_ref_of refs h with
  | Some r => let '(ns, name, _) := ref_service r in no_ready_endpoints ns name && negb (bool_decide (h = ""))
  | None => false
  end.

Lemma markBackendIfZeroEndpoints_eq cfg ns name port :
  let target := ServiceBackendHost clusterDomain ns name port in
  markBackendIfZeroEndpoints cli clusterDomain cfg ns name port =
  map_backends (mark_when (fun h => no_ready_endpoints ns name && negb (bool_decide (target = "")) &&
                                    bool_decide (h = target)) StatusServiceUnavailable) cfg.
Proof.
  intros target. unfold markBackendIfZeroEndpoints, no_ready_endpoints.
  assert (Hid : map_backends (mark_when (fun _ => false) StatusServiceUnavailable) cfg = cfg).
  { apply map_backends_id. intros b _. unfold mark_when. by destruct (unmarked_host b). }
  destruct (read_service cli ns name) as [svc|]; [|exact (eq_sym Hid)].
  destruct (svc_ExternalName svc); [exact (eq_sym Hid)|]. destruct (serviceHasReadyEndpoint cli ns name); [exact (eq_sym Hid)|].
  rewrite MarkUnavailableBackends_eq. done.
Qed.

Lemma find_app {A} (p : A -> bool) l x :
  List.find p (l ++ [x]) = match List.find p l with Some y => Some y | None => if p x then Some x else None end.
Proof. induction l as [|y l IH]; [done|]. cbn. by destruct (p y). Qed.
Lemma service_ref_of_app refs r h :
  service_ref_of (refs ++ [r]) h =
  match service_ref_of refs h with
  | Some y => Some y
  | None => if IsServiceBackendRef r.2 && bool_decide (ref_host clusterDomain r = h) then Some r else None
  end.
Proof. unfold service_ref_of. by rewrite find_app. Qed.

(** The visitor's loop: what has been seen and what has been marked. *)
Lemma visit_zero_spec authorized cfg refs :
  authorized = UnmarkedBackendHosts cfg ->
  let st := foldl (visit clusterDomain authorized (markBackendIfZeroEndpoints cli clusterDomain)) (∅, cfg) refs in
  (forall h, h ∈ st.1 <-> h ∈ authorized /\ is_Some (service_ref_of refs h)) /\
  st.2 = map_backends (mark_when (zero_endpoints refs) StatusServiceUnavailable) cfg.
Proof.
  intros Hauth. assert (Hin : forall b h, b ∈ all_backends cfg -> unmarked_host b = Some h -> h ∈ authorized).
  { intros b h Hb Hh. rewrite Hauth. unfold UnmarkedBackendHosts. apply elem_of_list_to_set, list_elem_of_omap. eauto. }
  induction refs as [|r refs IH] using rev_ind; cbn [foldl].
  { split.
    - intros h. cbn [fst]. rewrite elem_of_empty. unfold service_ref_of. simpl. split; [done|]. by intros [_ [? ?]].
    - symmetry. apply map_backends_id. intros b _. unfold mark_when, zero_endpoints. simpl. by destruct (unmarked_host b). }
  rewrite foldl_app. cbn [foldl].
  destruct (foldl (visit _ _ _) (∅, cfg) refs) as [seen cfg']. cbn [fst snd] in IH. destruct IH as [Hseen ->].
  assert (Hsame : (forall h, h ∈ authorized -> service_ref_of (refs ++ [r]) h = service_ref_of refs h) ->
    (forall h, h ∈ seen <-> h ∈ authorized /\ is_Some (service_ref_of (refs ++ [r]) h)) /\
    map_backends (mark_when (zero_endpoints refs) StatusServiceUnavailable) cfg =
    map_backends (mark_when (zero_endpoints (refs ++ [r])) StatusServiceUnavailable) cfg).
  { intros Heq. split.
    - intros h. rewrite Hseen. split; intros [H1 H2]; split; try done; [by rewrite Heq|by rewrite <-Heq].
    - apply map_backends_ext. intros b Hb. apply mark_when_ext. intros h Hh. unfold zero_endpoints.
      by rewrite Heq by eauto. }
  pose proof (service_ref_of_app refs r) as Happ.
  unfold visit. destruct (IsServiceBackendRef r.2) eqn:Hsvc; cbn [negb andb] in *.
  2:{ apply Hsame. intros h _. rewrite Happ. by destruct (service_ref_of refs h). }
  destruct (ref_service r) as [[ns name] port] eqn:Hrs. set (host := ref_host clusterDomain r) in *.
  case_bool_decide as Ha; cbn [negb].
  2:{ apply Hsame. intros h Hh. rewrite Happ, bool_decide_false by congruence. by destruct (service_ref_of refs h). }
  case_bool_decide as Hs.
  { apply Hsame. intros h Hh. rewrite Happ. destruct (service_ref_of refs h) eqn:Hf; [done|].
    rewrite bool_decide_false; [done|]. intros <-. apply Hseen in Hs as [_ [x Hx]]. congruence. }
  assert (Hnone : service_ref_of refs host = None).
  { destruct (service_ref_of refs host) eqn:Hf; [|done]. destruct Hs. apply Hseen. eauto. }
  split; cbn [fst snd].
  - intros h. rewrite elem_of_union, elem_of_singleton, Hseen, Happ. destruct (decide (host = h)) as [<-|Hne].
    + rewrite Hnone, bool_decide_true by done. split; [|by auto]. intros _. split; [done|by eexists].
    + rewrite (bool_decide_false (host = h)) by done. destruct (service_ref_of refs h); [naive_solver|].
      split; [intros [?|?]; [done|congruence]|by left].
  - rewrite markBackendIfZeroEndpoints_eq, map_backends_compose. apply map_backends_ext. intros b Hb.
    rewrite mark_when_twice by done. unfold mark_when. destruct (unmarked_host b) as [h|] eqn:Hh; [|done].
    assert (Hhost : ServiceBackendHost clusterDomain ns name port = host) by (unfold host, ref_host; by rewrite Hrs).
    unfold zero_endpoints at 2. rewrite Happ, Hhost. destruct (decide (h = host)) as [->|Hne].
    + rewrite Hnone, (bool_decide_true (host = host)) by done. unfold zero_endpoints. rewrite Hnone, Hrs, andb_true_r.  done.
    + rewrite (bool_decide_false (host = h)) by congruence. rewrite (bool_decide_false (h = host)) by done.
      rewrite andb_false_r. unfold zero_endpoints. by destruct (service_ref_of refs h).
Qed.

Lemma markZeroEndpointBackends_eq cfg refs :
  markZeroEndpointBackends cli clusterDomain cfg refs =
  map_backends (mark_when (zero_endpoints refs) StatusServiceUnavailable) cfg.
Proof.
  unfold markZeroEndpointBackends, visitAuthorizedServiceBackends. case_bool_decide as He.
  - symmetry. apply map_backends_id. intros b Hb. unfold mark_when.
    destruct (unmarked_host b) as [h|] eqn:Hh; [|done]. exfalso.
    apply (not_elem_of_empty (C := gset string) h). rewrite <-He. unfold UnmarkedBackendHosts.
    apply elem_of_list_to_set, list_elem_of_omap. eauto.
  - apply (visit_zero_spec _ cfg refs eq_refl).
Qed.
End marking.

(** The marking passes are exact and the first marking wins.  Invalid
    references mark 500 on exactly the unmarked backends that dial their host;
    the zero-endpoint pass marks 503 on exactly the unmarked backends whose
    Service (the first reference to the host) exists, is not an ExternalName
    Service and has no ready endpoint.  Nothing else about any backend changes,
    so traffic fractions stay, and a backend that qualifies for both reports 500. *)
Theorem backend_marking_exact {parser : UrlParser} (cli : ServiceReader) (clusterDomain : string) (cfg : Config)
    (failedRefs : list BackendRefError) (refs : list RouteRef) :
  markZeroEndpointBackends cli clusterDomain (markUnavailableBackends clusterDomain cfg failedRefs) refs =
  map_backends (fun b =>
    match unmarked_host b with
    | None => b
    | Some h => if is_failed clusterDomain failedRefs h then set_Status StatusInternalServerError b
                else if zero_endpoints cli clusterDomain refs h then set_Status StatusServiceUnavailable b
                else b
    end) cfg.
Proof.
  rewrite markUnavailableBackends_eq, markZeroEndpointBackends_eq, map_backends_compose.
  apply map_backends_ext. intros b _. by apply mark_when_twice.
Qed.

(** ** Headless endpoints do not depend on the listing order *)

Global Instance endpoint_less_strict : StrictWeak endpoint_less.
Proof. apply (lex_less_strict re_Host str_ltb (by_key re_Port Z.ltb)). Qed.
Lemma endpoint_less_tie a b : endpoint_less a b = false -> endpoint_less b a = false -> a = b.
Proof.
  intros H1 H2. destruct (lex_less_tie re_Host str_ltb (by_key re_Port Z.ltb) a b H1 H2) as (Hh & H3 & H4).
  apply (st_total (lt := Z.ltb)) in H3; [|done]. destruct a, b; simpl in *; congruence.
Qed.

(** The endpoints a headless Service expands to depend neither on the order the
    EndpointSlices are listed in nor on how the unstable sort breaks ties, so an
    unchanged cluster gives an unchanged configuration; and each is an address
    of a ready endpoint. *)
Theorem headless_endpoints_deterministic (sorter sorter' : SortFunc) (cli cli' : ServiceReader) (svc : Service)
    (ns name : string) (port : Z) (slices slices' : list EndpointSlice) :
  list_slices cli ns name = Some slices -> list_slices cli' ns name = Some slices' -> slices ≡ₚ slices' ->
  @resolveHeadlessEndpoints sorter cli svc ns name port = @resolveHeadlessEndpoints sorter' cli' svc ns name port /\
  forall ep, ep ∈ (@resolveHeadlessEndpoints sorter cli svc ns name port).1 ->
    exists slice e, slice ∈ slices /\ e ∈ es_Endpoints slice /\ is_ready e = true /\ re_Host ep ∈ ep_Addresses e.
Proof.
  intros Hl Hl' Hp. unfold resolveHeadlessEndpoints. rewrite Hl, Hl'.
  destruct (serviceTargetPort (svc_Ports svc) port) as [portName fallback].
  set (found := fun s => sliceEndpoints s portName fallback).
  assert (Hf : found <$> slices ≡ₚ found <$> slices') by by apply fmap_Permutation.
  split.
  - f_equal.
    + apply (StronglySorted_unique_strong (not_after endpoint_less)).
      * intros x y _ _ H1 H2. by apply endpoint_less_tie.
      * apply (@sort_func_sorted sorter), _.
      * apply (@sort_func_sorted sorter'), _.
      * rewrite (@sort_func_perm sorter), (@sort_func_perm sorter'). by rewrite Hf.
    + apply eq_true_iff_eq. rewrite !existsb_elem_of. by setoid_rewrite Hf.
  - simpl. intros ep. rewrite (@sort_func_perm sorter). intros (o & Hep & Ho)%list_elem_of_bind.
    apply list_elem_of_fmap in Ho as (slice & -> & Hslice). unfold found, sliceEndpoints in Hep. simpl in Hep.
    destruct (match endpointSlicePort slice portName with Some n => Some n | None => _ end) as [n|];
      [|by apply elem_of_nil in Hep].
    apply list_elem_of_bind in Hep as (e & Hep & He). apply elem_of_list_filter in He as [He Hr].
    apply list_elem_of_fmap in Hep as (addr & -> & Haddr). by exists slice, e.
Qed.

(** ** External backends *)

(** What [url.Parse] is documented to do with [scheme://host] and
    [scheme://host?query]. *)
Definition host_byte (c : ascii) : bool := is_upper c || is_lower c || is_digit c || bool_decide (c ∈ ["-"; "."]%char).
Class UrlParserLaws (parser : UrlParser) : Prop := {
  url_Parse_query scheme host q :
    scheme ∈ ["http"; "https"; externalBackendScheme] ->
    str_forallb host_byte host = true -> host <> "" -> q <> "" -> ContainsByte q "#" = false ->
    url_Parse (scheme +:+ "://" +:+ host +:+ "?" +:+ q) = Some (mkURL scheme host "" "" q);
  url_Parse_scheme scheme rest u :
    scheme ∈ ["http"; "https"; externalBackendScheme] ->
    url_Parse (scheme +:+ "://" +:+ rest) = Some u -> url_Scheme u = scheme;
}.

Section external.
Context {parser : UrlParser} {laws : UrlParserLaws parser} (cli : ServiceReader).

Lemma sentinel_round_trip ns name :
  str_forallb host_byte name = true -> name <> "" ->
  ParseExternalBackendSentinel (ExternalBackendSentinelURL ns name) = Some (ns, name).
Proof.
  intros Hname Hne. unfold ParseExternalBackendSentinel, ExternalBackendSentinelURL.
  change ("?ns=" +:+ QueryEscape ns) with ("?" +:+ ("ns" +:+ "=" +:+ QueryEscape ns)).
  rewrite url_Parse_query; [|set_solver|done|done|done|].
  - rewrite bool_decide_true by done. cbn [url_RawQuery url_Host]. by rewrite query_Get_single.
  - unfold ContainsByte. rewrite str_existsb_forallb. apply negb_false_iff. rewrite !str_forallb_app. cbn [andb].
    eapply str_forallb_impl; [|apply QueryEscape_plain]. intros c. unfold query_plain.
    rewrite !negb_true_iff, !bool_decide_eq_false. set_solver.
Qed.

(** The URL of a valid spec is an ordinary one. *)
Lemma external_URL_not_sentinel spec :
  ExternalBackend_Validate spec = true -> ParseExternalBackendSentinel (ExternalBackend_URL spec) = None.
Proof.
  intros Hv. unfold ParseExternalBackendSentinel, ExternalBackend_URL.
  assert (Hs : eb_Scheme spec = "http" \/ eb_Scheme spec = "https").
  { unfold ExternalBackend_Validate in Hv. destruct (negb _) eqn:Hs in Hv; [done|].
    apply negb_false_iff, orb_true_iff in Hs. by rewrite !bool_decide_eq_true in Hs. }
  destruct (url_Parse _) as [u|] eqn:Hu; [|done]. apply url_Parse_scheme in Hu.
  - rewrite Hu. by destruct Hs as [-> | ->].
  - destruct Hs as [-> | ->]; set_solver.
Qed.

Lemma resolve_external_dialable b :
  be_UnavailableStatus (resolve_external cli b) = 0%Z ->
  ParseExternalBackendSentinel (be_URL (resolve_external cli b)) = None.
Proof.
  unfold resolve_external. destruct (ParseExternalBackendSentinel (be_URL b)) as [[ns name]|] eqn:Hp; [|done].
  assert (Hfail : be_UnavailableStatus (fail_backend b) <> 0%Z).
  { unfold fail_backend. destruct (Z.eqb_spec (be_UnavailableStatus b) 0); done. }
  destruct (read_external cli ns name) as [spec|]; [|done].
  destruct (ExternalBackend_Validate spec) eqn:Hv; cbn [negb]; [|done]. intros _.
  apply external_URL_not_sentinel in Hv. by destruct (_ && _).
Qed.
Lemma resolve_external_weight b : be_Weight (resolve_external cli b) = be_Weight b.
Proof.
  unfold resolve_external, fail_backend. destruct (ParseExternalBackendSentinel _) as [[ns name]|]; [|done].
  destruct (read_external cli ns name) as [spec|]; [destruct (negb _)|]; repeat case_match; done.
Qed.
End external.

(** ExternalBackend sentinels.  A sentinel URL gives back the namespace and
    name it encodes; after [resolveExternalBackends] no backend that may be
    dialed (status 0) still carries a sentinel; a sentinel whose ExternalBackend
    exists and is well formed dials that object's URL, and no weight changes. *)
Theorem external_sentinels_resolved {parser : UrlParser} (cli : ServiceReader) (cfg : Config) :
  UrlParserLaws parser ->
  (forall ns name, str_forallb host_byte name = true -> name <> "" ->
     ParseExternalBackendSentinel (ExternalBackendSentinelURL ns name) = Some (ns, name)) /\
  (forall b, b ∈ all_backends (resolveExternalBackends cli cfg) -> be_UnavailableStatus b = 0%Z ->
     ParseExternalBackendSentinel (be_URL b) = None) /\
  (forall b ns name spec, b ∈ all_backends cfg -> ParseExternalBackendSentinel (be_URL b) = Some (ns, name) ->
     read_external cli ns name = Some spec -> ExternalBackend_Validate spec = true ->
     be_URL (resolve_external cli b) = ExternalBackend_URL spec /\
     be_UnavailableStatus (resolve_external cli b) = be_UnavailableStatus b) /\
  be_Weight <$> all_backends (resolveExternalBackends cli cfg) = be_Weight <$> all_backends cfg.
Proof.
  intros Hlaws. unfold resolveExternalBackends. rewrite all_backends_map. split_and!.
  - intros ns name. apply sentinel_round_trip.
  - intros b' (b & -> & Hb)%list_elem_of_fmap. apply resolve_external_dialable.
  - intros b ns name spec Hb Hp Hr Hv. unfold resolve_external. rewrite Hp, Hr, Hv. cbn [negb].
    by destruct (_ && _).
  - rewrite <-list_fmap_compose. apply list_fmap_ext. intros i b _. apply resolve_external_weight.
Qed.

(** ** Examples *)

(** A parser for [scheme://host[?query]]. *)
Definition authority_url : UrlParser := fun s =>
  match Cut s "://" with
  | Some (scheme, rest) =>
      let '(host, q) := default (rest, "") (Cut rest "?") in Some (mkURL scheme host "" "" q)
  | None => None
  end.
#[export] Instance authority_url_laws : UrlParserLaws authority_url.
Proof.
  assert (Hcut : forall scheme rest, scheme ∈ ["http"; "https"; externalBackendScheme] ->
    Cut (scheme +:+ "://" +:+ rest) "://" = Some (scheme, rest)).
  { intros scheme rest Hs. change "://" with (String ":" "//"). apply Cut_sep_app.
    repeat (apply elem_of_cons in Hs as [->|Hs]; [reflexivity|]). by apply elem_of_nil in Hs. }
  split.
  - intros scheme host q Hs Hh _ _ _. unfold url_Parse, authority_url. rewrite Hcut by done.
    change ("?" +:+ q) with (String "?" q). rewrite Cut_byte_app; [done|].
    rewrite str_existsb_forallb. apply negb_false_iff. eapply str_forallb_impl; [|exact Hh].
    intros c Hc. apply negb_true_iff, bool_decide_eq_false. intros ->. discriminate Hc.
  - intros scheme rest u Hs. unfold url_Parse, authority_url. rewrite Hcut by done.
    destruct (default _ _). by intros [= <-].
Qed.

Definition split_rule : RouteRule :=
  mkRouteRule ["a.example.com"] [] []
    [weighted "http://db.prod.svc.cluster.local:80" 3; weighted "http://web.prod.svc.cluster.local:80" 6] None 0.
Definition split_config : Config := mkConfig 1 [split_rule] false [] [].
Definition pod (host : string) : ResolvedEndpoint := mkResolvedEndpoint host 5432.

Example split_expanded :
  (fun b => (be_URL b, be_Weight b)) <$>
    all_backends (@ExpandHeadlessBackend authority_url split_config "cluster.local." "prod" "db" 80 [pod "10.0.0.1"; pod "fd00::1"])
  = [("http://10.0.0.1:5432", 1%Z); ("http://[fd00::1]:5432", 1%Z); ("http://web.prod.svc.cluster.local:80", 4%Z)].
Proof. vm_compute. reflexivity. Qed.

Lemma expand_preserves_fractions_witness :
  exists rule' image,
    cfg_Rules (@ExpandHeadlessBackend authority_url split_config "cluster.local" "prod" "db" 80
                 [pod "10.0.0.1"; pod "10.0.0.2"]) !! 0 = Some rule' /\
    rule' = set_Backends (rule_Backends split_rule ≫= image) split_rule.
Proof.
  destruct (@expand_preserves_fractions authority_url split_config "cluster.local" "prod" "db" 80
    [pod "10.0.0.1"; pod "10.0.0.2"] 0 split_rule) as (rule' & image & H1 & H2 & _).
  - vm_compute. discriminate.
  - unfold MaxInt32. simpl. lia.
  - reflexivity.
  - intros b Hb. repeat (apply elem_of_cons in Hb as [->|Hb]; [unfold MaxInt32; simpl; lia|]). by apply elem_of_nil in Hb.
  - exists rule', image. split; [exact H1|exact H2].
Defined.

Definition legacy_api : ExternalBackendSpec := mkExternalBackendSpec "https" "api.example.net" 443 "".
Definition legacy_reader : ServiceReader :=
  mkServiceReader (fun _ _ => None) (fun _ _ => None)
    (fun ns name => if bool_decide ((ns, name) = ("prod", "legacy")) then Some legacy_api else None).
Definition legacy_config : Config :=
  mkConfig 1 [mkRouteRule [] [] [] [weighted (ExternalBackendSentinelURL "prod" "legacy") 1;
                                    weighted (ExternalBackendSentinelURL "prod" "gone") 1] None 0] false [] [].

Lemma external_sentinels_resolved_witness :
  (fun b => (be_URL b, be_UnavailableStatus b)) <$>
    all_backends (@resolveExternalBackends authority_url legacy_reader legacy_config) =
    [("https://api.example.net:443", 0%Z); ("externalbackend://gone?ns=prod", 500%Z)] /\
  (forall b, b ∈ all_backends (@resolveExternalBackends authority_url legacy_reader legacy_config) ->
     be_UnavailableStatus b = 0%Z -> @ParseExternalBackendSentinel authority_url (be_URL b) = None).
Proof.
  split; [vm_compute; reflexivity|].
  apply (@external_sentinels_resolved authority_url legacy_reader legacy_config authority_url_laws).
Defined.

Definition dual_stack : list EndpointSlice :=
  [mkEndpointSlice [mkEndpoint ["fd00::2"] (Some true)] [mkEndpointPort (Some "pg") (Some 5432%Z)];
   mkEndpointSlice [mkEndpoint ["10.0.0.2"] (Some true); mkEndpoint ["10.0.0.3"] None] [mkEndpointPort (Some "pg") (Some 5432%Z)]].
Definition reader_of (slices : list EndpointSlice) : ServiceReader :=
  mkServiceReader (fun _ _ => None) (fun _ _ => Some slices) (fun _ _ => None).
Definition headless_db : Service := mkService false "None" [mkServicePort "pg" 80 None].

Lemma headless_endpoints_deterministic_witness :
  @resolveHeadlessEndpoints stable_func (reader_of dual_stack) headless_db "prod" "db" 80 =
    @resolveHeadlessEndpoints stable_func (reader_of (rev dual_stack)) headless_db "prod" "db" 80 /\
  (@resolveHeadlessEndpoints stable_func (reader_of dual_stack) headless_db "prod" "db" 80).1 =
    [pod "10.0.0.2"; pod "fd00::2"].
Proof.
  split; [|vm_compute; reflexivity].
  apply (headless_endpoints_deterministic stable_func stable_func (reader_of dual_stack)
    (reader_of (rev dual_stack)) headless_db "prod" "db" 80 dual_stack (rev dual_stack));
    [reflexivity|reflexivity|apply perm_swap].
Defined.
