(* ===== verification/Converter.v ===== *)
(** * Route conversion ([proxy/converter.go], [grpc_converter.go],
    [backendref_common.go], [diagnostics.go])

    HTTPRoutes and GRPCRoutes become rules of the proxy configuration; what
    cannot be served as written is recorded in the diagnostics sink, which the
    converters thread through as state ([Sink]).

    The resolvers the controller passes in may be nil; they are optional
    functions here.  [time.ParseDuration] computes with floating-point numbers
    and is a parameter ([DurationParser]): a duration in nanoseconds or the
    text of the error.  Logging is left out. *)
From Stdlib Require Import Ascii.
From stdpp Require Import sorting.
From stdpp Require Import base sets gmap strings list.
From S2P Require Import Prelude GoStrings GoHttp GoJson ProxyConfig Matcher Cors Filters Router RouterSpec Shadow.
From S2P Require Import ReferenceGrant Ingress IngressBuild BackendPasses.

(** ** The diagnostics sink *)

Definition EventTypeNormal : string := "Normal".
Definition EventTypeWarning : string := "Warning".

Record diagSink := mkDiagSink {
  sink_namespace : string;
  sink_name : string;
  sink_rule : nat;
  sink_items : list RouteDiagnostic;
}.

(** Code that may add diagnostics. *)
Definition Sink (A : Type) : Type := diagSink -> A * diagSink.
Definition sink_ret {A} (a : A) : Sink A := fun s => (a, s).
Definition sink_bind {A B} (m : Sink A) (f : A -> Sink B) : Sink B := fun s => let '(a, s') := m s in f a s'.
Notation "x <~ m ; k" := (sink_bind m (fun x => k))
  (at level 100, m at level 99, k at level 200, right associativity) : go_scope.
Open Scope go_scope.

Definition sink_route (namespace name : string) : Sink unit := fun s =>
  (tt, mkDiagSink namespace name (sink_rule s) (sink_items s)).
Definition sink_at (rule : nat) : Sink unit := fun s =>
  (tt, mkDiagSink (sink_namespace s) (sink_name s) rule (sink_items s)).
Definition sink_push (d : RouteDiagnostic) : Sink unit := fun s =>
  (tt, mkDiagSink (sink_namespace s) (sink_name s) (sink_rule s) (sink_items s ++ [d])).
Definition sink_add (target : DiagnosticTarget) (reason message : string) (wholeRule : bool) : Sink unit := fun s =>
  sink_push (mkRouteDiagnostic (sink_namespace s) (sink_name s) (Z.of_nat (sink_rule s)) target reason message
               wholeRule "") s.
Definition sink_event (eventType message : string) : Sink unit := fun s =>
  sink_push (mkRouteDiagnostic (sink_namespace s) (sink_name s) (Z.of_nat (sink_rule s)) DiagnosticEvent "" message
               false eventType) s.

(** [for _, x := range l { out = append(out, f(x)) }] and loops without results. *)
Fixpoint sink_map {A B} (f : A -> Sink B) (l : list A) : Sink (list B) :=
  match l with
  | [] => sink_ret []
  | x :: l' => y <~ f x; ys <~ sink_map f l'; sink_ret (y :: ys)
  end.
Fixpoint sink_iter {A} (f : A -> Sink unit) (l : list A) : Sink unit :=
  match l with
  | [] => sink_ret tt
  | x :: l' => _ <~ f x; sink_iter f l'
  end.

(** ** Gateway API routes *)

Record HTTPHeader := mkHTTPHeader { hh_Name : string; hh_Value : string }.
Record HTTPHeaderFilter := mkHTTPHeaderFilter {
  hhf_Set : list HTTPHeader; hhf_Add : list HTTPHeader; hhf_Remove : list string }.
Record HTTPPathModifier := mkHTTPPathModifier {
  pmod_Type : string; pmod_ReplaceFullPath : option string; pmod_ReplacePrefixMatch : option string }.
Record HTTPRequestRedirectFilter := mkHTTPRequestRedirectFilter {
  hrr_Scheme : option string; hrr_Hostname : option string; hrr_Port : option Z;
  hrr_Path : option HTTPPathModifier; hrr_StatusCode : option Z }.
Record HTTPURLRewriteFilter := mkHTTPURLRewriteFilter {
  hur_Hostname : option string; hur_Path : option HTTPPathModifier }.
Record Fraction := mkFraction { fr_Numerator : Z; fr_Denominator : option Z }.
Record HTTPRequestMirrorFilter := mkHTTPRequestMirrorFilter {
  hrm_BackendRef : GwBackendRef; hrm_Percent : option Z; hrm_Fraction : option Fraction }.
Record HTTPCORSFilter := mkHTTPCORSFilter {
  hc_AllowOrigins : list string; hc_AllowCredentials : option bool; hc_AllowMethods : list string;
  hc_AllowHeaders : list string; hc_ExposeHeaders : list string; hc_MaxAge : Z }.
Record HTTPRouteFilter := mkHTTPRouteFilter {
  hf_Type : string;
  hf_RequestHeaderModifier : option HTTPHeaderFilter;
  hf_ResponseHeaderModifier : option HTTPHeaderFilter;
  hf_RequestRedirect : option HTTPRequestRedirectFilter;
  hf_URLRewrite : option HTTPURLRewriteFilter;
  hf_RequestMirror : option HTTPRequestMirrorFilter;
  hf_CORS : option HTTPCORSFilter;
}.
(** A header or query condition: type, name, value. *)
Record GwValueMatch := mkGwValueMatch { vmatch_Type : option string; vmatch_Name : string; vmatch_Value : string }.
Record HTTPRouteMatch := mkHTTPRouteMatch {
  hmatch_Path : option HTTPPathMatch; hmatch_Headers : list GwValueMatch;
  hmatch_QueryParams : list GwValueMatch; hmatch_Method : option string }.
Record HTTPBackendRef := mkHTTPBackendRef { hb_Ref : GwBackendRef; hb_Filters : list HTTPRouteFilter }.
Record HTTPRouteTimeouts := mkHTTPRouteTimeouts { ht_Request : option string; ht_BackendRequest : option string }.
Record HTTPRouteRule := mkHTTPRouteRule {
  hrule_Matches : list HTTPRouteMatch; hrule_Filters : list HTTPRouteFilter;
  hrule_BackendRefs : list HTTPBackendRef; hrule_Timeouts : option HTTPRouteTimeouts }.

Record GRPCMethod := mkGRPCMethod {
  gmeth_Type : option string; gmeth_Service : option string; gmeth_Method : option string }.
Record GRPCRouteMatch := mkGRPCRouteMatch { gmatch_Method : option GRPCMethod; gmatch_Headers : list GwValueMatch }.
Record GRPCRouteFilter := mkGRPCRouteFilter {
  gf_Type : string;
  gf_RequestHeaderModifier : option HTTPHeaderFilter;
  gf_ResponseHeaderModifier : option HTTPHeaderFilter;
}.
Record GRPCBackendRef := mkGRPCBackendRef { gbr_Ref : GwBackendRef; gbr_Filters : list GRPCRouteFilter }.
Record GRPCRouteRule := mkGRPCRouteRule {
  grule_Matches : list GRPCRouteMatch; grule_Filters : list GRPCRouteFilter;
  grule_BackendRefs : list GRPCBackendRef }.

Record ParentReference := mkParentReference {
  pref_Group : option string; pref_Kind : option string; pref_Namespace : option string; pref_Name : string;
  pref_SectionName : option string; pref_Port : option Z }.
(** A route object with its metadata; [R] is the rule type of its kind. *)
Record RouteObject (R : Type) := mkRouteObject {
  ro_Namespace : string; ro_Name : string; ro_CreationTimestamp : Z;
  ro_Hostnames : list string; ro_ParentRefs : list ParentReference; ro_Rules : list R }.
Arguments mkRouteObject {R}.
Arguments ro_Namespace {R}.
Arguments ro_Name {R}.
Arguments ro_CreationTimestamp {R}.
Arguments ro_Hostnames {R}.
Arguments ro_ParentRefs {R}.
Arguments ro_Rules {R}.

(** ** Matches *)

Definition convertPathMatch (p : HTTPPathMatch) : PathMatch :=
  mkPathMatch
    (match hp_Type p with
     | Some t => if bool_decide (t = "Exact") then PathMatchExact
                 else if bool_decide (t = "PathPrefix") then PathMatchPathPrefix
                 else if bool_decide (t = "RegularExpression") then PathMatchRegularExpression
                 else PathMatchPathPrefix
     | None => PathMatchPathPrefix
     end)
    (default "" (hp_Value p)).
Definition is_regex (t : option string) : bool :=
  match t with Some t => bool_decide (t = "RegularExpression") | None => false end.
Definition convertHeaderMatch (h : GwValueMatch) : HeaderMatch :=
  mkHeaderMatch (if is_regex (vmatch_Type h) then HeaderMatchRegularExpression else HeaderMatchExact)
    (vmatch_Name h) (vmatch_Value h).
Definition convertQueryMatch (q : GwValueMatch) : QueryParamMatch :=
  mkQueryParamMatch (if is_regex (vmatch_Type q) then QueryParamMatchRegularExpression else QueryParamMatchExact)
    (vmatch_Name q) (vmatch_Value q).
Definition convertMatch (m : HTTPRouteMatch) : RouteMatch :=
  mkRouteMatch (convertPathMatch <$> hmatch_Path m) (convertHeaderMatch <$> hmatch_Headers m)
    (convertQueryMatch <$> hmatch_QueryParams m) (default "" (hmatch_Method m)).

Definition grpcSegmentPattern : string := "[^/]+".
(** [regexp.QuoteMeta]. *)
Fixpoint QuoteMeta (s : string) : string :=
  match s with
  | EmptyString => EmptyString
  | String c s' =>
      if bool_decide (c ∈ ["."; "+"; "*"; "?"; "("; ")"; "|"; "["; "]"; "{"; "}"; "^"; "$"; "092"]%char)
      then String "092" (String c (QuoteMeta s')) else String c (QuoteMeta s')
  end.
Definition grpcMethodToPath (method : option GRPCMethod) : option PathMatch :=
  match method with
  | None => None
  | Some m =>
      let service := default "" (gmeth_Service m) in
      let meth := default "" (gmeth_Method m) in
      if bool_decide (service = "") && bool_decide (meth = "") then None
      else if is_regex (gmeth_Type m) then
        let svcPattern := if bool_decide (service = "") then grpcSegmentPattern else service in
        let methPattern := if bool_decide (meth = "") then grpcSegmentPattern else meth in
        Some (mkPathMatch PathMatchRegularExpression ("^/(?:" +:+ svcPattern +:+ ")/(?:" +:+ methPattern +:+ ")$"))
      else if negb (bool_decide (service = "")) && negb (bool_decide (meth = "")) then
        Some (mkPathMatch PathMatchExact ("/" +:+ service +:+ "/" +:+ meth))
      else if negb (bool_decide (service = "")) && bool_decide (meth = "") then
        Some (mkPathMatch PathMatchPathPrefix ("/" +:+ service +:+ "/"))
      else
        Some (mkPathMatch PathMatchRegularExpression ("^/" +:+ grpcSegmentPattern +:+ "/" +:+ QuoteMeta meth +:+ "$"))
  end.
Definition convertGRPCMatch (m : GRPCRouteMatch) : option RouteMatch :=
  let path := grpcMethodToPath (gmatch_Method m) in
  let headers := convertHeaderMatch <$> gmatch_Headers m in
  if bool_decide (is_Some path) || (0 <? length headers) then Some (mkRouteMatch path headers [] "") else None.

(** ** Filters without references *)

Definition convertHeaderModifier (m : HTTPHeaderFilter) : HeaderModifier :=
  let value := fun h => mkHeaderValue (hh_Name h) (hh_Value h) in
  mkHeaderModifier (value <$> hhf_Set m) (value <$> hhf_Add m) (hhf_Remove m).
Definition convertRequestHeaderFilter (m : option HTTPHeaderFilter) : option RouteFilter :=
  (fun m => mkRouteFilter FilterRequestHeaderModifier (Some (convertHeaderModifier m)) None None None None None) <$> m.
Definition convertResponseHeaderFilter (m : option HTTPHeaderFilter) : option RouteFilter :=
  (fun m => mkRouteFilter FilterResponseHeaderModifier None (Some (convertHeaderModifier m)) None None None None) <$> m.

Definition convertRedirectPath (p : HTTPPathModifier) : option RedirectPath :=
  if bool_decide (pmod_Type p = "ReplaceFullPath") then
    mkRedirectPath RedirectPathFullReplace <$> pmod_ReplaceFullPath p
  else if bool_decide (pmod_Type p = "ReplacePrefixMatch") then
    mkRedirectPath RedirectPathPrefixReplace <$> pmod_ReplacePrefixMatch p
  else None.
Definition convertRedirectConfig (r : HTTPRequestRedirectFilter) : RedirectConfig :=
  mkRedirectConfig (hrr_Scheme r) (hrr_Hostname r) (hrr_Port r) (hrr_Path r ≫= convertRedirectPath)
    (hrr_StatusCode r).
Definition convertRedirectFilter (r : option HTTPRequestRedirectFilter) : option RouteFilter :=
  (fun r => mkRouteFilter FilterRequestRedirect None None (Some (convertRedirectConfig r)) None None None) <$> r.

Definition convertURLRewritePath (p : HTTPPathModifier) : option URLRewritePath :=
  if bool_decide (pmod_Type p = "ReplaceFullPath") then
    Some (mkURLRewritePath URLRewriteFullPath (pmod_ReplaceFullPath p) None)
  else if bool_decide (pmod_Type p = "ReplacePrefixMatch") then
    Some (mkURLRewritePath URLRewritePrefixMatch None (pmod_ReplacePrefixMatch p))
  else None.
Definition convertURLRewrite (r : HTTPURLRewriteFilter) : URLRewriteConfig :=
  mkURLRewriteConfig (hur_Hostname r) (hur_Path r ≫= convertURLRewritePath).
Definition convertURLRewriteFilter (r : option HTTPURLRewriteFilter) : option RouteFilter :=
  (fun r => mkRouteFilter FilterURLRewrite None None None (Some (convertURLRewrite r)) None None) <$> r.

Definition convertCORSFilter (c : option HTTPCORSFilter) : option RouteFilter :=
  (fun c => mkRouteFilter FilterCORS None None None None None
     (Some (mkCORSConfig (hc_AllowOrigins c) (default false (hc_AllowCredentials c)) (hc_AllowMethods c)
              (hc_AllowHeaders c) (hc_ExposeHeaders c) (hc_MaxAge c)))) <$> c.

Definition clampPercent (value : Z) : Z :=
  if (value <? 0)%Z then 0 else if (100 <? value)%Z then 100 else int32 value.
Definition mirrorPercent (m : HTTPRequestMirrorFilter) : option Z :=
  match hrm_Percent m with
  | Some p => Some (clampPercent p)
  | None =>
      match hrm_Fraction m with
      | None => None
      | Some f =>
          let denominator := default 100%Z (fr_Denominator f) in
          if (denominator <=? 0)%Z then None
          else Some (clampPercent (Z.quot (int64 (fr_Numerator f * 100)) denominator))
      end
  end.

(** ** References *)

Definition minPort : Z := 1.
Definition maxPort : Z := 65535.
Definition validatePort (port : Z) : bool := (minPort <=? port)%Z && (port <=? maxPort)%Z.
Definition defaultServicePort : Z := 80.

Definition IsServiceImportBackendRef (ref : GwBackendRef) : bool :=
  bool_decide (gb_Group ref = Some "multicluster.x-k8s.io") && bool_decide (gb_Kind ref = Some "ServiceImport").
Definition IsExternalBackendRef (ref : GwBackendRef) : bool :=
  bool_decide (gb_Group ref = Some "cf.k8s.lex.la") && bool_decide (gb_Kind ref = Some "ExternalBackend").
Definition IsSupportedBackendRef (ref : GwBackendRef) : bool :=
  IsServiceBackendRef ref || IsServiceImportBackendRef ref || IsExternalBackendRef ref.
Definition isMirrorableBackendRef (ref : GwBackendRef) : bool :=
  IsServiceBackendRef ref || IsServiceImportBackendRef ref.
Definition backendDomain (ref : GwBackendRef) (clusterDomain : string) : string :=
  if IsServiceImportBackendRef ref then clustersetDomain else clusterDomain.

Definition forceHTTPSScheme (rawURL : string) : string :=
  match CutPrefix rawURL "http://" with Some rest => "https://" +:+ rest | None => rawURL end.

Record ClientCertConfig := mkClientCertConfig { cc_CertPEM : string; cc_KeyPEM : string }.
Definition attachGatewayClientCert (tls : option BackendTLSConfig) (cert : option ClientCertConfig)
    : option BackendTLSConfig :=
  match tls, cert with
  | Some t, Some c => Some (mkBackendTLSConfig (tls_CABundlePEM t) (tls_ServerName t) (tls_SubjectAltNames t)
                              (tls_SubjectAltNameURIs t) (cc_CertPEM c) (cc_KeyPEM c))
  | _, _ => tls
  end.

(** A backend reference that cannot be dialed keeps its share of the traffic and
    answers 500; without traffic it is dropped. *)
Definition markInvalidBackend (weight : Z) (name svcNamespace : string) (port : Z) (clusterDomain : string)
    : option BackendRef :=
  if (weight <=? 0)%Z then None
  else
    let urlPort := if validatePort port then port else defaultServicePort in
    Some (mkBackendRef (buildServiceURL name svcNamespace urlPort clusterDomain) weight BackendProtocolHTTP None []
            false StatusInternalServerError).

Inductive backendRefOutcome := backendRefResolved | backendRefFinal | backendRefDropped | backendRefExternal.
Record resolvedBackendRef := mkResolvedBackendRef {
  rb_outcome : backendRefOutcome;
  rb_backend : option BackendRef;
  rb_serviceName : string;
  rb_svcNamespace : string;
  rb_port : Z;
}.

Class DurationParser := ParseDuration : string -> res string Z.

(** The resolvers of one conversion. *)
Record Resolvers := mkResolvers {
  rv_clusterDomain : string;
  rv_validator : option (string -> GwBackendRef -> bool);
  rv_protocol : option (string -> string -> Z -> string);
  rv_tls : option (string -> string -> Z -> option BackendTLSConfig);
  rv_clientCert : option (string -> string -> option ClientCertConfig);
}.

Definition kindGateway : string := "Gateway".
Definition GroupName : string := "gateway.networking.k8s.io".
Definition filterScopeRule : string := "rule".
Definition filterScopeBackend : string := "backend".
Definition StatusBadGateway : Z := 502.

(** ** Messages *)

Definition unsupportedFilterMessage (scope filterType : string) : string :=
  scope +:+ " filter type " +:+ quoted filterType +:+
  " is not supported; matching requests receive HTTP 500. Remove the filter or replace it with a supported type " +:+
  "(RequestHeaderModifier, ResponseHeaderModifier, RequestRedirect, URLRewrite, RequestMirror, CORS).".
Definition unsupportedGRPCFilterMessage (scope filterType : string) : string :=
  "GRPCRoute filter type " +:+ quoted filterType +:+ " on this " +:+ scope +:+
  " is not supported; matching requests receive HTTP 500. Remove the filter or replace it with a supported type " +:+
  "(RequestHeaderModifier, ResponseHeaderModifier).".
Definition invalidTimeoutsMessage (err : string) : string :=
  "The rule's timeout could not be parsed (" +:+ err +:+ "); the rule is served without it. Use a GEP-2257 duration (e.g. "
  +:+ quoted "10s" +:+ ", " +:+ quoted "500ms" +:+ ") or remove the timeout.".
Definition unpolicedTLSMessage (serviceName appProto : string) : string :=
  "Service " +:+ quoted serviceName +:+ " declares appProtocol " +:+ quoted appProto +:+
  " but no BackendTLSPolicy targets it; the proxy has no CA to verify the backend, so requests to it receive HTTP 502. " +:+
  "Attach a BackendTLSPolicy to the Service to enable TLS to this backend.".
Definition unknownAppProtocolMessage (serviceName appProto : string) : string :=
  "Service " +:+ quoted serviceName +:+ " declares an unsupported appProtocol " +:+ quoted appProto +:+
  "; the proxy serves it over HTTP/1.1. Use a supported value (kubernetes.io/h2c, kubernetes.io/ws, kubernetes.io/wss, https) "
  +:+ "or remove the appProtocol if HTTP/1.1 is correct.".
(** [%v] of a string slice. *)
Definition show_slice (l : list string) : string := "[" +:+ Join l " " +:+ "]".
Definition wsHandshakeStripMessage (scope : string) (headers : list string) : string :=
  "A " +:+ scope +:+ "-scope ResponseHeaderModifier removes WebSocket handshake header(s) " +:+ show_slice headers +:+
  " on a WebSocket backend; clients will fail to complete the upgrade. Remove " +:+ show_slice headers +:+
  " from the filter's removeHeaders to keep WebSocket working.".
Definition h2cSuppressed : string :=
  "appProtocol kubernetes.io/h2c suppressed by BackendTLSPolicy on the same Service — HTTP/2 will be negotiated over TLS via ALPN".
Definition wsSuppressed : string :=
  "appProtocol kubernetes.io/ws suppressed by BackendTLSPolicy on the same Service — WebSocket will run over TLS (consider appProtocol kubernetes.io/wss instead)".

Section convert.
Context {durations : DurationParser} (rv : Resolvers).

Definition convertTimeouts (t : HTTPRouteTimeouts) : res string RouteTimeouts :=
  request ← match ht_Request t with
            | Some s => map_err (fun e => "invalid request timeout " +:+ quoted s +:+ ": " +:+ e) (ParseDuration s)
            | None => Ok 0%Z
            end;
  backend ← match ht_BackendRequest t with
            | Some s => map_err (fun e => "invalid backend timeout " +:+ quoted s +:+ ": " +:+ e) (ParseDuration s)
            | None => Ok 0%Z
            end;
  Ok (mkRouteTimeouts request backend).

Definition validateCrossNamespace (targetNS sourceNS : string) (ref : GwBackendRef) : bool :=
  bool_decide (targetNS = sourceNS) ||
  match rv_validator rv with None => true | Some validator => validator sourceNS ref end.

(** ** Mirrors *)

Definition mirrorDropDiagnostic (reason mirrorName detail : string) : Sink unit :=
  sink_add DiagnosticResolvedRefs reason
    ("The RequestMirror to Service " +:+ quoted mirrorName +:+ " was dropped because " +:+ detail +:+
     "; the main request is unaffected.") false.

Definition validateMirrorBackendRef (mirror : HTTPRequestMirrorFilter) (namespace : string)
    : Sink (option (string * Z)) :=
  let ref := hrm_BackendRef mirror in
  let mirrorPort := default defaultServicePort (gb_Port ref) in
  let mirrorNS := default namespace (gb_Namespace ref) in
  if negb (isMirrorableBackendRef ref) then
    _ <~ mirrorDropDiagnostic "InvalidKind" (gb_Name ref)
          "its backendRef must be a Service or ServiceImport (ExternalBackend is not supported as a mirror destination)";
    sink_ret None
  else if negb (validatePort mirrorPort) then
    _ <~ mirrorDropDiagnostic "UnsupportedValue" (gb_Name ref)
          ("its backendRef port " +:+ Itoa mirrorPort +:+ " is out of range");
    sink_ret None
  else if negb (validateCrossNamespace mirrorNS namespace ref) then
    _ <~ mirrorDropDiagnostic "RefNotPermitted" (gb_Name ref)
          ("its cross-namespace backendRef to " +:+ quoted mirrorNS +:+ " is not permitted by a ReferenceGrant");
    sink_ret None
  else sink_ret (Some (mirrorNS, mirrorPort)).

Definition convertMirrorFilter (mirror : option HTTPRequestMirrorFilter) (namespace : string)
    (clientCert : option ClientCertConfig) : Sink (option RouteFilter) :=
  match mirror with
  | None => sink_ret None
  | Some m =>
      dest <~ validateMirrorBackendRef m namespace;
      match dest with
      | None => sink_ret None
      | Some (mirrorNS, mirrorPort) =>
          let name := gb_Name (hrm_BackendRef m) in
          let mirrorURL := buildServiceURL name mirrorNS mirrorPort
                             (backendDomain (hrm_BackendRef m) (rv_clusterDomain rv)) in
          let tls := rv_tls rv ≫= fun resolver => resolver mirrorNS name mirrorPort in
          let config :=
            match tls with
            | Some t => mkMirrorConfig (forceHTTPSScheme mirrorURL) (mirrorPercent m)
                          (attachGatewayClientCert (Some t) clientCert) ""
            | None => mkMirrorConfig mirrorURL (mirrorPercent m) None ""
            end in
          sink_ret (Some (mkRouteFilter FilterRequestMirror None None None None (Some config) None))
      end
  end.

(** The filter, if it is served, and whether its rule or backend must fail closed. *)
Definition convertFilter (filter : HTTPRouteFilter) (namespace : string) (clientCert : option ClientCertConfig)
    (scope : string) : Sink (option RouteFilter * bool) :=
  if bool_decide (hf_Type filter = "RequestHeaderModifier") then
    sink_ret (convertRequestHeaderFilter (hf_RequestHeaderModifier filter), false)
  else if bool_decide (hf_Type filter = "ResponseHeaderModifier") then
    sink_ret (convertResponseHeaderFilter (hf_ResponseHeaderModifier filter), false)
  else if bool_decide (hf_Type filter = "RequestRedirect") then
    sink_ret (convertRedirectFilter (hf_RequestRedirect filter), false)
  else if bool_decide (hf_Type filter = "URLRewrite") then
    sink_ret (convertURLRewriteFilter (hf_URLRewrite filter), false)
  else if bool_decide (hf_Type filter = "RequestMirror") then
    converted <~ convertMirrorFilter (hf_RequestMirror filter) namespace clientCert;
    sink_ret (converted, false)
  else if bool_decide (hf_Type filter = "CORS") then sink_ret (convertCORSFilter (hf_CORS filter), false)
  else
    _ <~ sink_add DiagnosticAccepted "UnsupportedValue" (unsupportedFilterMessage scope (hf_Type filter))
          (bool_decide (scope = filterScopeRule));
    sink_ret (None, true).

(** The loops over a filter list: the served filters, and whether any failed closed. *)
Definition convertFilters (filters : list HTTPRouteFilter) (namespace : string)
    (clientCert : option ClientCertConfig) (scope : string) : Sink (list RouteFilter * bool) :=
  converted <~ sink_map (fun f => convertFilter f namespace clientCert scope) filters;
  sink_ret (omap fst converted, existsb snd converted).
Definition convertBackendFilters (filters : list HTTPRouteFilter) (namespace : string)
    (clientCert : option ClientCertConfig) : Sink (list RouteFilter * bool) :=
  convertFilters filters namespace clientCert filterScopeBackend.

(** ** Backend transport *)

Definition resolveBackendTLS (namespace serviceName : string) (port : Z) (rawURL : string)
    : option BackendTLSConfig * string :=
  match rv_tls rv with
  | None => (None, rawURL)
  | Some resolver =>
      match resolver namespace serviceName port with
      | None => (None, rawURL)
      | Some tls => (Some tls, forceHTTPSScheme rawURL)
      end
  end.

Definition unpolicedTLSAppProtocol (tlsAttached : bool) (serviceName appProto : string) : Sink bool :=
  if tlsAttached then sink_ret false
  else _ <~ sink_add DiagnosticResolvedRefs "UnsupportedProtocol" (unpolicedTLSMessage serviceName appProto) false;
       sink_ret true.

Definition resolveH2C (rawURL : string) (tlsAttached : bool) : Sink (string * string) :=
  if tlsAttached then
    _ <~ sink_event EventTypeNormal h2cSuppressed; sink_ret (BackendProtocolHTTP, rawURL)
  else sink_ret (BackendProtocolH2C, Replace1 rawURL "https://" "http://").

Record Transport := mkTransport {
  tr_Protocol : string; tr_URL : string; tr_WebSocket : bool; tr_failClosed : bool }.
Definition resolveBackendProtocol (namespace serviceName : string) (port : Z) (rawURL : string)
    (tlsAttached : bool) : Sink Transport :=
  match rv_protocol rv with
  | None => sink_ret (mkTransport BackendProtocolHTTP rawURL false false)
  | Some resolver =>
      let appProto := resolver namespace serviceName port in
      if bool_decide (appProto = "kubernetes.io/h2c") then
        r <~ resolveH2C rawURL tlsAttached; sink_ret (mkTransport r.1 r.2 false false)
      else if bool_decide (appProto = "kubernetes.io/ws") then
        _ <~ (if tlsAttached then sink_event EventTypeNormal wsSuppressed else sink_ret tt);
        sink_ret (mkTransport BackendProtocolHTTP rawURL true false)
      else if bool_decide (appProto = "kubernetes.io/wss") then
        fc <~ unpolicedTLSAppProtocol tlsAttached serviceName appProto;
        sink_ret (mkTransport BackendProtocolHTTP rawURL true fc)
      else if bool_decide (appProto ∈ ["https"; "HTTPS"]) then
        fc <~ unpolicedTLSAppProtocol tlsAttached serviceName appProto;
        sink_ret (mkTransport BackendProtocolHTTP rawURL false fc)
      else if bool_decide (appProto ∈ [""; "http"; "HTTP"]) then
        sink_ret (mkTransport BackendProtocolHTTP rawURL false false)
      else
        _ <~ sink_add DiagnosticResolvedRefs "UnsupportedProtocol" (unknownAppProtocolMessage serviceName appProto)
              false;
        sink_ret (mkTransport BackendProtocolHTTP rawURL false false)
  end.
Definition isTLSAppProtocol (appProto : string) : bool :=
  bool_decide (appProto ∈ ["https"; "HTTPS"; "kubernetes.io/wss"]).
Definition lookupAppProtocol (namespace serviceName : string) (port : Z) : string :=
  match rv_protocol rv with None => "" | Some resolver => resolver namespace serviceName port end.

(** ** The kind-agnostic half ([backendref_common.go]) *)

Definition plain_backend (url : string) (weight : Z) (protocol : string) : BackendRef :=
  mkBackendRef url weight protocol None [] false 0.
Definition validateCommonBackendRef (r : resolvedBackendRef) (weight : Z) (ref : GwBackendRef)
    (routeNamespace : string) : resolvedBackendRef :=
  let markInvalid :=
    mkResolvedBackendRef backendRefFinal
      (markInvalidBackend weight (rb_serviceName r) (rb_svcNamespace r) (rb_port r) (rv_clusterDomain rv))
      (rb_serviceName r) (rb_svcNamespace r) (rb_port r) in
  if negb (IsSupportedBackendRef ref) then markInvalid
  else if IsExternalBackendRef ref then
    mkResolvedBackendRef backendRefExternal (rb_backend r) (rb_serviceName r) (rb_svcNamespace r) (rb_port r)
  else if negb (validatePort (rb_port r)) then markInvalid
  else if negb (validateCrossNamespace (rb_svcNamespace r) routeNamespace ref) then markInvalid
  else
    mkResolvedBackendRef backendRefResolved
      (Some (plain_backend (buildServiceURL (rb_serviceName r) (rb_svcNamespace r) (rb_port r)
                              (backendDomain ref (rv_clusterDomain rv))) weight BackendProtocolHTTP))
      (rb_serviceName r) (rb_svcNamespace r) (rb_port r).
Definition resolveCommonBackendRef (ref : GwBackendRef) (routeNamespace : string) : resolvedBackendRef :=
  let weight := default 1%Z (gb_Weight ref) in
  if (weight <? 0)%Z then mkResolvedBackendRef backendRefDropped None "" "" 0
  else
    validateCommonBackendRef
      (mkResolvedBackendRef backendRefResolved (Some (plain_backend "" weight BackendProtocolHTTP)) (gb_Name ref)
         (default routeNamespace (gb_Namespace ref)) (default defaultServicePort (gb_Port ref)))
      weight ref routeNamespace.

(** ** HTTP backends *)

Definition applyBackendFilters (result : BackendRef) (filters : list HTTPRouteFilter) (namespace : string)
    (clientCert : option ClientCertConfig) : Sink BackendRef :=
  fs <~ convertBackendFilters filters namespace clientCert;
  let result := mkBackendRef (be_URL result) (be_Weight result) (be_Protocol result) (be_TLS result) fs.1
                  (be_WebSocket result) (be_UnavailableStatus result) in
  sink_ret (if fs.2 then set_Status StatusInternalServerError result else result).

Definition convertExternalBackendRef (weight : Z) (backend : HTTPBackendRef) (namespace svcNamespace serviceName : string)
    (clientCert : option ClientCertConfig) : Sink (option BackendRef) :=
  if negb (validateCrossNamespace svcNamespace namespace (hb_Ref backend)) then
    sink_ret (markInvalidBackend weight serviceName svcNamespace defaultServicePort (rv_clusterDomain rv))
  else
    b <~ applyBackendFilters (plain_backend (ExternalBackendSentinelURL svcNamespace serviceName) weight
                               BackendProtocolHTTP) (hb_Filters backend) namespace clientCert;
    sink_ret (Some b).

Definition convertBackendRef (backend : HTTPBackendRef) (namespace : string)
    (clientCert : option ClientCertConfig) : Sink (option BackendRef) :=
  let common := resolveCommonBackendRef (hb_Ref backend) namespace in
  match rb_outcome common, rb_backend common with
  | backendRefDropped, _ => sink_ret None
  | backendRefFinal, b => sink_ret b
  | backendRefExternal, Some b =>
      convertExternalBackendRef (be_Weight b) backend namespace (rb_svcNamespace common) (rb_serviceName common)
        clientCert
  | backendRefResolved, Some b =>
      let '(tls, url) := resolveBackendTLS (rb_svcNamespace common) (rb_serviceName common) (rb_port common)
                           (be_URL b) in
      let tls := attachGatewayClientCert tls clientCert in
      tr <~ resolveBackendProtocol (rb_svcNamespace common) (rb_serviceName common) (rb_port common) url
             (bool_decide (is_Some tls));
      let result := mkBackendRef (tr_URL tr) (be_Weight b) (tr_Protocol tr) tls [] (tr_WebSocket tr)
                      (if tr_failClosed tr then StatusBadGateway else 0%Z) in
      b <~ applyBackendFilters result (hb_Filters backend) namespace clientCert;
      sink_ret (Some b)
  | _, None => sink_ret None
  end.

(** ** WebSocket handshake headers *)

Definition wsHandshakeRequiredHeaders : list string := ["Sec-Websocket-Accept"; "Upgrade"; "Connection"].
Definition warnIfHandshakeStrip (scope : string) (f : RouteFilter) : Sink unit :=
  match filter_ResponseHeaderModifier f with
  | Some m =>
      if negb (bool_decide (filter_Type f = FilterResponseHeaderModifier)) then sink_ret tt
      else
        let offending :=
          List.filter (fun name => bool_decide (CanonicalHeaderKey name ∈ wsHandshakeRequiredHeaders)) (mod_Remove m) in
        if length offending =? 0 then sink_ret tt
        else sink_event EventTypeWarning (wsHandshakeStripMessage scope offending)
  | None => sink_ret tt
  end.
Definition warnIfWSResponseFilterStripsHandshake (rule : RouteRule) : Sink unit :=
  if negb (existsb be_WebSocket (rule_Backends rule)) then sink_ret tt
  else
    _ <~ sink_iter (warnIfHandshakeStrip filterScopeRule) (rule_Filters rule);
    sink_iter (fun b => if be_WebSocket b then sink_iter (warnIfHandshakeStrip filterScopeBackend) (be_Filters b)
                        else sink_ret tt) (rule_Backends rule).

(** ** Rules *)

Definition convertHTTPRouteRule (rule : HTTPRouteRule) (hostnames : list string) (namespace : string)
    (clientCert : option ClientCertConfig) : Sink RouteRule :=
  fs <~ convertFilters (hrule_Filters rule) namespace clientCert filterScopeRule;
  backends <~ sink_map (fun b => convertBackendRef b namespace clientCert) (hrule_BackendRefs rule);
  timeouts <~ match hrule_Timeouts rule with
             | None => sink_ret None
             | Some t =>
                 match convertTimeouts t with
                 | Ok timeouts => sink_ret (Some timeouts)
                 | Err err =>
                     _ <~ sink_add DiagnosticAccepted "UnsupportedValue" (invalidTimeoutsMessage err) false;
                     sink_ret None
                 end
             end;
  let proxyRule := mkRouteRule hostnames (convertMatch <$> hrule_Matches rule) fs.1 (omap id backends) timeouts
                     (if fs.2 then StatusInternalServerError else 0%Z) in
  _ <~ warnIfWSResponseFilterStripsHandshake proxyRule;
  sink_ret proxyRule.

Definition convertGRPCFilter (filter : GRPCRouteFilter) (scope : string) : Sink (option RouteFilter * bool) :=
  if bool_decide (gf_Type filter = "RequestHeaderModifier") then
    sink_ret (convertRequestHeaderFilter (gf_RequestHeaderModifier filter), false)
  else if bool_decide (gf_Type filter = "ResponseHeaderModifier") then
    sink_ret (convertResponseHeaderFilter (gf_ResponseHeaderModifier filter), false)
  else
    _ <~ sink_add DiagnosticAccepted "UnsupportedValue" (unsupportedGRPCFilterMessage scope (gf_Type filter))
          (bool_decide (scope = filterScopeRule));
    sink_ret (None, true).
Definition convertGRPCFilters (filters : list GRPCRouteFilter) (scope : string) : Sink (list RouteFilter * bool) :=
  converted <~ sink_map (fun f => convertGRPCFilter f scope) filters;
  sink_ret (omap fst converted, existsb snd converted).
Definition applyGRPCBackendFilters (result : BackendRef) (filters : list GRPCRouteFilter) : Sink BackendRef :=
  fs <~ convertGRPCFilters filters filterScopeBackend;
  let result := mkBackendRef (be_URL result) (be_Weight result) (be_Protocol result) (be_TLS result)
                  (be_Filters result ++ fs.1) (be_WebSocket result) (be_UnavailableStatus result) in
  sink_ret (if fs.2 then set_Status StatusInternalServerError result else result).

Definition set_TLS (tls : option BackendTLSConfig) (url : string) (b : BackendRef) : BackendRef :=
  mkBackendRef url (be_Weight b) (be_Protocol b) tls (be_Filters b) (be_WebSocket b) (be_UnavailableStatus b).
Definition applyGRPCBackendTransport (result : BackendRef) (clientCert : option ClientCertConfig)
    (svcNamespace serviceName : string) (port : Z) : Sink BackendRef :=
  let '(tls, url) := resolveBackendTLS svcNamespace serviceName port (be_URL result) in
  let result := set_TLS (attachGatewayClientCert tls clientCert) url result in
  match be_TLS result with
  | Some _ => sink_ret result
  | None =>
      let appProto := lookupAppProtocol svcNamespace serviceName port in
      if isTLSAppProtocol appProto then
        _ <~ unpolicedTLSAppProtocol false serviceName appProto;
        sink_ret (set_Status StatusBadGateway result)
      else sink_ret (set_Protocol BackendProtocolH2C (set_URL (Replace1 (be_URL result) "https://" "http://") result))
  end.

Definition convertGRPCExternalBackendRef (weight : Z) (backend : GRPCBackendRef)
    (namespace svcNamespace serviceName : string) : Sink (option BackendRef) :=
  if negb (validateCrossNamespace svcNamespace namespace (gbr_Ref backend)) then
    sink_ret (markInvalidBackend weight serviceName svcNamespace defaultServicePort (rv_clusterDomain rv))
  else
    b <~ applyGRPCBackendFilters (plain_backend (ExternalBackendSentinelURL svcNamespace serviceName) weight
                                   BackendProtocolH2C) (gbr_Filters backend);
    sink_ret (Some b).
Definition convertGRPCBackendRef (backend : GRPCBackendRef) (namespace : string)
    (clientCert : option ClientCertConfig) : Sink (option BackendRef) :=
  let common := resolveCommonBackendRef (gbr_Ref backend) namespace in
  match rb_outcome common, rb_backend common with
  | backendRefDropped, _ => sink_ret None
  | backendRefFinal, b => sink_ret b
  | backendRefExternal, Some b =>
      convertGRPCExternalBackendRef (be_Weight b) backend namespace (rb_svcNamespace common) (rb_serviceName common)
  | backendRefResolved, Some b =>
      b <~ applyGRPCBackendFilters b (gbr_Filters backend);
      b <~ applyGRPCBackendTransport b clientCert (rb_svcNamespace common) (rb_serviceName common) (rb_port common);
      sink_ret (Some b)
  | _, None => sink_ret None
  end.
Definition convertGRPCRouteRule (rule : GRPCRouteRule) (hostnames : list string) (namespace : string)
    (clientCert : option ClientCertConfig) : Sink RouteRule :=
  fs <~ convertGRPCFilters (grule_Filters rule) filterScopeRule;
  backends <~ sink_map (fun b => convertGRPCBackendRef b namespace clientCert) (grule_BackendRefs rule);
  sink_ret (mkRouteRule hostnames (omap convertGRPCMatch (grule_Matches rule)) fs.1 (omap id backends) None
          (if fs.2 then StatusInternalServerError else 0%Z)).

(** ** Routes *)

Fixpoint resolveFirstParentClientCertFromRefs (refs : list ParentReference) (routeNamespace : string)
    (resolver : string -> string -> option ClientCertConfig) : option ClientCertConfig :=
  match refs with
  | [] => None
  | ref :: refs' =>
      let foreign_group := match pref_Group ref with
                           | Some g => negb (bool_decide (g = "")) && negb (bool_decide (g = GroupName))
                           | None => false
                           end in
      let foreign_kind := match pref_Kind ref with
                          | Some k => negb (bool_decide (k = "")) && negb (bool_decide (k = kindGateway))
                          | None => false
                          end in
      if foreign_group then resolveFirstParentClientCertFromRefs refs' routeNamespace resolver
      else if foreign_kind then resolveFirstParentClientCertFromRefs refs' routeNamespace resolver
      else match resolver (default routeNamespace (pref_Namespace ref)) (pref_Name ref) with
           | Some cert => Some cert
           | None => resolveFirstParentClientCertFromRefs refs' routeNamespace resolver
           end
  end.

Definition route_less {R} : RouteObject R -> RouteObject R -> bool :=
  lex_less ro_CreationTimestamp Z.ltb (lex_less ro_Namespace str_ltb (by_key ro_Name str_ltb)).
Definition sortRoutesByPrecedence {R} (routes : list (RouteObject R)) : list (RouteObject R) :=
  stable_sort route_less routes.

(** What differs between the route kinds: the name and the conversion of a rule. *)
Record routeKindView (R : Type) := mkRouteKindView {
  rk_kind : string;
  rk_convertRule : R -> list string -> string -> option ClientCertConfig -> Sink RouteRule;
}.

Fixpoint convert_rules {R} (view : routeKindView R) (route : RouteObject R) (clientCert : option ClientCertConfig)
    (ruleIdx : nat) (rules : list R) : Sink (list (RouteRule * RuleProvenance)) :=
  match rules with
  | [] => sink_ret []
  | rule :: rules' =>
      _ <~ sink_at ruleIdx;
      r <~ rk_convertRule R view rule (ro_Hostnames route) (ro_Namespace route) clientCert;
      rest <~ convert_rules view route clientCert (S ruleIdx) rules';
      sink_ret ((r, mkRuleProvenance (rk_kind R view) (ro_Namespace route) (ro_Name route) (ro_CreationTimestamp route)
                  (Z.of_nat ruleIdx)) :: rest)
  end.
Definition convert_route {R} (view : routeKindView R) (route : RouteObject R)
    : Sink (list (RouteRule * RuleProvenance)) :=
  _ <~ sink_route (ro_Namespace route) (ro_Name route);
  let clientCert := rv_clientCert rv ≫= fun resolver =>
    resolveFirstParentClientCertFromRefs (ro_ParentRefs route) (ro_Namespace route) resolver in
  convert_rules view route clientCert 0 (ro_Rules route).

(** [counter] is [configVersionCounter]; the new version is its incremented value. *)
Definition convertRoutesGeneric {R} (view : routeKindView R) (routes : list (RouteObject R)) (counter : Z)
    : Config * Z :=
  let version := int64 (counter + 1) in
  let '(rules, sink) := sink_map (convert_route view) (sortRoutesByPrecedence routes) (mkDiagSink "" "" 0 []) in
  (mkConfig version (mjoin rules).*1 false (sink_items sink) (mjoin rules).*2, version).

Definition ConvertHTTPRoutes (routes : list (RouteObject HTTPRouteRule)) (counter : Z) : Config * Z :=
  convertRoutesGeneric (mkRouteKindView _ kindHTTPRoute convertHTTPRouteRule) routes counter.
Definition ConvertGRPCRoutes (routes : list (RouteObject GRPCRouteRule)) (counter : Z) : Config * Z :=
  convertRoutesGeneric (mkRouteKindView _ kindGRPCRoute convertGRPCRouteRule) routes counter.
End convert.
