(* ===== verification/ConverterSpec.v ===== *)
(** * What the converter promises (theorems about [Converter])

    Converted configurations pass the proxy's validation, also after every pass
    of [BackendPasses]; references keep their traffic fraction, fail closed and
    never lose TLS; conversion does not depend on the order routes are listed
    in.  [returns] states what sink code returns whatever the sink holds. *)
From Stdlib Require Import Ascii.
From stdpp Require Import sorting.
From stdpp Require Import base sets gmap strings list.
From S2P Require Import Prelude GoStrings GoHttp GoJson ProxyConfig Matcher Cors Filters Router RouterSpec Shadow.
From S2P Require Import ReferenceGrant Ingress IngressBuild BackendPasses Converter.

(** ** Reasoning about sink code *)

(** Every result, whatever the sink holds, satisfies [P]. *)
Definition returns {A} (m : Sink A) (P : A -> Prop) : Prop := forall s, P (m s).1.

Lemma returns_ret {A} (a : A) (P : A -> Prop) : P a -> returns (sink_ret a) P.
Proof. by intros H s. Qed.
Lemma returns_bind {A B} (m : Sink A) (f : A -> Sink B) (P : A -> Prop) (Q : B -> Prop) :
  returns m P -> (forall a, P a -> returns (f a) Q) -> returns (sink_bind m f) Q.
Proof.
  intros Hm Hf s. unfold sink_bind. specialize (Hm s). destruct (m s) as [a s']. by apply Hf.
Qed.
Lemma returns_true {A} (m : Sink A) : returns m (fun _ => True).
Proof. done. Qed.
Lemma returns_weaken {A} (m : Sink A) (P Q : A -> Prop) : returns m P -> (forall a, P a -> Q a) -> returns m Q.
Proof. intros H HPQ s. apply HPQ, H. Qed.
Lemma returns_seq {A B} (m : Sink A) (k : Sink B) (Q : B -> Prop) : returns k Q -> returns (_ <~ m; k) Q.
Proof. intros Hk. eapply returns_bind; [apply returns_true|done]. Qed.
Lemma returns_map {A B} (f : A -> Sink B) (R : A -> B -> Prop) l :
  (forall x, x ∈ l -> returns (f x) (R x)) -> returns (sink_map f l) (Forall2 R l).
Proof.
  induction l as [|x l IH]; intros H; cbn [sink_map]; [apply returns_ret; constructor|].
  eapply returns_bind; [apply H; by left|]. intros y Hy.
  eapply returns_bind; [apply IH; intros z Hz; apply H; by right|]. intros ys Hys.
  apply returns_ret. by constructor.
Qed.

(** Case analysis on the branches of a converter. *)
Ltac returns_cases :=
  repeat first
    [ apply returns_ret
    | apply returns_seq
    | match goal with |- returns (match ?x with _ => _ end) _ => destruct x eqn:? end ].

(** ** Converted configurations are valid *)

Definition admitted_filter (f : HTTPRouteFilter) : Prop := forall c, hf_CORS f = Some c -> (0 <= hc_MaxAge c)%Z.
Definition admitted_value (v : GwValueMatch) : Prop := vmatch_Name v <> "".
(** The path of a match is defaulted, and starts with a slash unless it is a regular expression. *)
Definition admitted_http_match (m : HTTPRouteMatch) : Prop :=
  (forall p, hmatch_Path m = Some p ->
     exists v, hp_Value p = Some v /\ (hp_Type p = Some "RegularExpression" \/ HasPrefix v "/" = true)) /\
  (forall h, h ∈ hmatch_Headers m -> admitted_value h) /\ (forall q, q ∈ hmatch_QueryParams m -> admitted_value q).
(** A weight is an [int32]. *)
Definition admitted_ref (r : GwBackendRef) : Prop := forall w, gb_Weight r = Some w -> is_int32 w.
(** What the API server's validation and defaulting guarantee of a rule. *)
Record admitted_http_rule (r : HTTPRouteRule) : Prop := {
  ahr_matches : forall m, m ∈ hrule_Matches r -> admitted_http_match m;
  ahr_filters : forall f, f ∈ hrule_Filters r -> admitted_filter f;
  ahr_backends : forall b, b ∈ hrule_BackendRefs r ->
    admitted_ref (hb_Ref b) /\ forall f, f ∈ hb_Filters b -> admitted_filter f;
}.
Record admitted_grpc_rule (r : GRPCRouteRule) : Prop := {
  agr_matches : forall m h, m ∈ grule_Matches r -> h ∈ gmatch_Headers m -> admitted_value h;
  agr_backends : forall b, b ∈ grule_BackendRefs r -> admitted_ref (gbr_Ref b);
}.

(** No path of the rule is the empty regular expression. *)
Definition paths_nonempty (r : HTTPRouteRule) : Prop :=
  forall m p, m ∈ hrule_Matches r -> hmatch_Path m = Some p -> hp_Value p <> Some "".

(** A backend the proxy accepts, with its weight an [int32]. *)
Definition sound_backend (b : BackendRef) : Prop := valid_backend b /\ (be_Weight b <= MaxInt32)%Z.
Definition sound_rule (r : RouteRule) : Prop :=
  (forall b, b ∈ rule_Backends r -> sound_backend b) /\
  (forall m, m ∈ rule_Matches r -> ProxyConfig.valid_match m) /\
  (forall f, f ∈ rule_Filters r -> valid_filter f).

Lemma convertMatch_valid m :
  admitted_http_match m -> (forall p, hmatch_Path m = Some p -> hp_Value p <> Some "") ->
  ProxyConfig.valid_match (convertMatch m).
Proof.
  intros (Hp & Hh & Hq) Hne. unfold ProxyConfig.valid_match, convertMatch; simpl. split_and!.
  - intros p Hpath. destruct (hmatch_Path m) as [p'|] eqn:He; [|done]. injection Hpath as <-.
    destruct (Hp p' eq_refl) as (v & Hv & _). specialize (Hne p' eq_refl). unfold convertPathMatch; simpl.
    rewrite Hv in Hne |- *. split; [|by intros E; apply Hne; rewrite <-E].
    destruct (hp_Type p') as [t|]; [repeat case_bool_decide|]; set_solver.
  - intros h (h' & -> & Hin)%list_elem_of_fmap. split; [|by apply Hh]. unfold convertHeaderMatch; simpl.
    destruct (is_regex _); set_solver.
  - intros q (q' & -> & Hin)%list_elem_of_fmap. split; [|by apply Hq]. unfold convertQueryMatch; simpl.
    destruct (is_regex _); set_solver.
Qed.
(** A path the proxy accepts was not empty. *)
Lemma convertMatch_path m p :
  ProxyConfig.valid_match (convertMatch m) -> hmatch_Path m = Some p -> hp_Value p <> Some "".
Proof.
  intros (Hp & _) He Hv. unfold convertMatch in Hp. simpl in Hp. rewrite He in Hp.
  destruct (Hp _ eq_refl) as [_ Hne]. apply Hne. unfold convertPathMatch. simpl. by rewrite Hv.
Qed.
Lemma convertGRPCMatch_valid m pm :
  (forall h, h ∈ gmatch_Headers m -> admitted_value h) -> convertGRPCMatch m = Some pm -> ProxyConfig.valid_match pm.
Proof.
  intros Hh. unfold convertGRPCMatch. destruct (_ || _); [|done]. intros [= <-].
  unfold ProxyConfig.valid_match; simpl. split_and!.
  - intros p. unfold grpcMethodToPath. destruct (gmatch_Method m) as [gm|]; [|done].
    repeat case_match; intros [= <-]; simpl; (split; [set_solver|done]).
  - intros h (h' & -> & Hin)%list_elem_of_fmap. split; [|by apply Hh]. unfold convertHeaderMatch; simpl.
    destruct (is_regex _); set_solver.
  - by intros q ?%elem_of_nil.
Qed.

Lemma clampPercent_range v : (0 <= clampPercent v <= 100)%Z.
Proof.
  unfold clampPercent. destruct (v <? 0)%Z eqn:H1; [lia|]. destruct (100 <? v)%Z eqn:H2; [lia|]. breflect.
  rewrite int32_id; [lia|]. unfold is_int32, MaxInt32. lia.
Qed.
Lemma mirrorPercent_range m p : mirrorPercent m = Some p -> (0 <= p <= 100)%Z.
Proof. unfold mirrorPercent. repeat case_match; intros [= <-]; apply clampPercent_range. Qed.

Section valid.
Context {durations : DurationParser} (rv : Resolvers).

Lemma convertFilter_valid f ns cert scope :
  admitted_filter f -> returns (convertFilter rv f ns cert scope) (fun o => forall f', o.1 = Some f' -> valid_filter f').
Proof.
  intros Ha. unfold convertFilter, valid_filter. repeat case_bool_decide; try apply returns_seq; try apply returns_ret; simpl.
  - destruct (hf_RequestHeaderModifier f); intros ? [= <-]. by left; split; [|eexists].
  - destruct (hf_ResponseHeaderModifier f); intros ? [= <-]. by right; left; split; [|eexists].
  - destruct (hf_RequestRedirect f); intros ? [= <-]. by do 2 right; left; split; [|eexists].
  - destruct (hf_URLRewrite f); intros ? [= <-]. by do 3 right; left; split; [|eexists].
  - apply (returns_bind _ _ (fun o => forall f', o = Some f' -> valid_filter f')); [|by intros o Ho; apply returns_ret].
    unfold convertMirrorFilter. destruct (hf_RequestMirror f) as [m|]; [|by apply returns_ret].
    apply (returns_bind _ _ (fun _ => True)); [done|]. intros [[mns mp]|] _; [|by apply returns_ret].
    apply returns_ret. intros f' [= <-]. unfold valid_filter; simpl. do 4 right. left. split; [done|].
    eexists. split; [done|]. intros p. destruct (rv_tls rv ≫= _); simpl; apply mirrorPercent_range.
  - destruct (hf_CORS f) as [c|] eqn:Hc; intros ? [= <-]; simpl. do 5 right. split; [done|].
    eexists. split; [done|]. by apply Ha.
  - done.
  - done.
Qed.
Lemma convertFilters_valid fs ns cert scope :
  (forall f, f ∈ fs -> admitted_filter f) ->
  returns (convertFilters rv fs ns cert scope) (fun o => forall f, f ∈ o.1 -> valid_filter f).
Proof.
  intros Ha. unfold convertFilters.
  eapply returns_bind; [apply (returns_map _ (fun _ o => forall f', o.1 = Some f' -> valid_filter f'))|].
  - intros f Hf. apply convertFilter_valid. by apply Ha.
  - intros converted Hc. apply returns_ret. simpl. intros f (o & Ho & Hf)%list_elem_of_omap.
    apply list_elem_of_lookup in Ho as [k Hk]. destruct (Forall2_lookup_r _ _ _ _ _ Hc Hk) as (x & _ & Hx).
    by apply Hx.
Qed.

Lemma convertGRPCFilter_valid f scope :
  returns (convertGRPCFilter f scope) (fun o => forall f', o.1 = Some f' -> valid_filter f').
Proof.
  unfold convertGRPCFilter, valid_filter. repeat case_bool_decide; try apply returns_seq; apply returns_ret; simpl.
  - destruct (gf_RequestHeaderModifier f); intros ? [= <-]. by left; split; [|eexists].
  - destruct (gf_ResponseHeaderModifier f); intros ? [= <-]. by right; left; split; [|eexists].
  - done.
  - done.
Qed.
Lemma convertGRPCFilters_valid fs scope :
  returns (convertGRPCFilters fs scope) (fun o => forall f, f ∈ o.1 -> valid_filter f).
Proof.
  unfold convertGRPCFilters.
  eapply returns_bind; [apply (returns_map _ (fun _ o => forall f', o.1 = Some f' -> valid_filter f'))|].
  - intros f Hf. apply convertGRPCFilter_valid.
  - intros converted Hc. apply returns_ret. simpl. intros f (o & Ho & Hf)%list_elem_of_omap.
    apply list_elem_of_lookup in Ho as [k Hk]. destruct (Forall2_lookup_r _ _ _ _ _ Hc Hk) as (x & _ & Hx).
    by apply Hx.
Qed.

(** Addresses the converters write are never empty. *)
Lemma buildServiceURL_nonempty name ns port domain : buildServiceURL name ns port domain <> "".
Proof. unfold buildServiceURL. by destruct (port =? httpsPort)%Z. Qed.
Lemma forceHTTPSScheme_nonempty url : url <> "" -> forceHTTPSScheme url <> "".
Proof. unfold forceHTTPSScheme. by destruct (CutPrefix url "http://"). Qed.
Lemma Replace1_nonempty url old new : url <> "" -> new <> "" -> Replace1 url old new <> "".
Proof.
  intros Hu Hn. unfold Replace1. destruct (Cut url old) as [[a b]|]; [|done].
  destruct a; [|done]. by destruct new.
Qed.
Lemma resolveBackendTLS_nonempty ns name port url :
  url <> "" -> (resolveBackendTLS rv ns name port url).2 <> "".
Proof.
  intros Hu. unfold resolveBackendTLS. destruct (rv_tls rv) as [resolver|]; [|done].
  destruct (resolver ns name port); [|done]. by apply forceHTTPSScheme_nonempty.
Qed.

(** ** What becomes of one backend reference *)

(** The reference's weight, the namespace it names, and the protocol its Service declares. *)
Definition ref_weight (ref : GwBackendRef) : Z := default 1%Z (gb_Weight ref).
Definition ref_namespace (ref : GwBackendRef) (ns : string) : string := default ns (gb_Namespace ref).
Definition ref_appProtocol (ref : GwBackendRef) (ns : string) : string :=
  lookupAppProtocol rv (ref_namespace ref ns) (gb_Name ref) (default defaultServicePort (gb_Port ref)).

(** The TLS policy the resolver finds for the Service and port of a reference. *)
Definition ref_policy (ref : GwBackendRef) (ns : string) : option BackendTLSConfig :=
  rv_tls rv ≫= fun resolver =>
    resolver (ref_namespace ref ns) (gb_Name ref) (default defaultServicePort (gb_Port ref)).
(** The reference stays in the namespace, or the ReferenceGrant check admits it. *)
Definition ref_authorized (ref : GwBackendRef) (ns : string) : Prop :=
  ref_namespace ref ns = ns \/ match rv_validator rv with Some validator => validator ns ref = true | None => True end.
(** It names a Service (or ServiceImport) on a port that can be dialed. *)
Definition ref_in_cluster (ref : GwBackendRef) (ns : string) : Prop :=
  IsSupportedBackendRef ref = true /\ IsExternalBackendRef ref = false /\
  (1 <= default 80 (gb_Port ref) <= 65535)%Z /\ ref_authorized ref ns.
(** What may be dialed: an authorized ExternalBackend, or an authorized Service
    that has a policy when it declares a TLS protocol. *)
Definition ref_dialable (ref : GwBackendRef) (ns : string) : Prop :=
  (IsExternalBackendRef ref = true /\ ref_authorized ref ns) \/
  (ref_in_cluster ref ns /\ (isTLSAppProtocol (ref_appProtocol ref ns) = true -> ref_policy ref ns <> None)).

Record backend_converted (cert : option ClientCertConfig) (ref : GwBackendRef) (unfiltered : Prop) (ns : string)
    (b : BackendRef) : Prop := {
  bc_weight : be_Weight b = ref_weight ref /\ (0 <= ref_weight ref)%Z;
  bc_url : be_URL b <> "";
  bc_protocol : be_Protocol b ∈ [BackendProtocolHTTP; BackendProtocolH2C];
  (** status 0, which lets the proxy dial *)
  bc_dialed : (be_UnavailableStatus b = 0%Z -> ref_dialable ref ns) /\
    (unfiltered -> ref_dialable ref ns -> be_UnavailableStatus b = 0%Z);
  (** the policy and nothing else *)
  bc_policy : ref_in_cluster ref ns -> be_TLS b = attachGatewayClientCert (ref_policy ref ns) cert;
  bc_no_policy : ~ ref_in_cluster ref ns -> be_TLS b = None;
  (** TLS means an https address and no cleartext HTTP/2 *)
  bc_tls : be_TLS b <> None -> HasPrefix (be_URL b) "https://" = true /\ be_Protocol b = BackendProtocolHTTP;
}.
Definition ref_converted (cert : option ClientCertConfig) (ref : GwBackendRef) (unfiltered : Prop) (ns : string)
    (o : option BackendRef) : Prop :=
  match o with Some b => backend_converted cert ref unfiltered ns b | None => (ref_weight ref <= 0)%Z end.

Lemma validateCrossNamespace_spec ref ns :
  validateCrossNamespace rv (ref_namespace ref ns) ns ref = true <-> ref_authorized ref ns.
Proof.
  unfold validateCrossNamespace, ref_authorized. rewrite orb_true_iff, bool_decide_eq_true.
  destruct (rv_validator rv); tauto.
Qed.
Lemma validatePort_false port : validatePort port = false <-> ~ (1 <= port <= 65535)%Z.
Proof. unfold validatePort, minPort, maxPort. rewrite andb_false_iff, !Z.leb_gt. lia. Qed.
Lemma external_not_in_cluster ref ns : IsExternalBackendRef ref = true -> ~ ref_in_cluster ref ns.
Proof. by intros He (_ & He' & _); rewrite He in He'. Qed.

(** What the kind-agnostic half decides, by outcome. *)
Lemma resolveCommonBackendRef_spec ref ns :
  let w := default 1%Z (gb_Weight ref) in
  let common := resolveCommonBackendRef rv ref ns in
  match rb_outcome common, rb_backend common with
  | backendRefDropped, _ => (w < 0)%Z
  | backendRefFinal, Some b =>
      (0 < w)%Z /\ be_Weight b = w /\ be_URL b <> "" /\ be_Protocol b = BackendProtocolHTTP /\ be_Filters b = [] /\
      be_TLS b = None /\ be_UnavailableStatus b = StatusInternalServerError /\
      IsExternalBackendRef ref = false /\ ~ ref_in_cluster ref ns
  | backendRefFinal, None => w = 0%Z
  | backendRefExternal, Some b => (0 <= w)%Z /\ be_Weight b = w /\ IsExternalBackendRef ref = true
  | backendRefResolved, Some b =>
      (0 <= w)%Z /\ b = plain_backend (buildServiceURL (rb_serviceName common) (rb_svcNamespace common)
        (rb_port common) (backendDomain ref (rv_clusterDomain rv))) w BackendProtocolHTTP /\ ref_in_cluster ref ns
  | _, None => False
  end /\
  (rb_outcome common <> backendRefDropped ->
   rb_serviceName common = gb_Name ref /\ rb_svcNamespace common = default ns (gb_Namespace ref) /\
   rb_port common = default defaultServicePort (gb_Port ref)).
Proof.
  unfold resolveCommonBackendRef. set (w := default 1%Z (gb_Weight ref)).
  destruct (Z.ltb_spec w 0) as [Hw|Hw]; [by simpl|]. unfold validateCommonBackendRef; simpl.
  assert (Hfinal : IsExternalBackendRef ref = false -> ~ ref_in_cluster ref ns -> forall name svcNs port,
    match markInvalidBackend w name svcNs port (rv_clusterDomain rv) with
    | Some b => (0 < w)%Z /\ be_Weight b = w /\ be_URL b <> "" /\ be_Protocol b = BackendProtocolHTTP /\
        be_Filters b = [] /\ be_TLS b = None /\ be_UnavailableStatus b = StatusInternalServerError /\
        IsExternalBackendRef ref = false /\ ~ ref_in_cluster ref ns
    | None => w = 0%Z end).
  { intros He Hn name svcNs port. unfold markInvalidBackend. destruct (Z.leb_spec w 0); [lia|]. simpl.
    split_and!; try done; try lia. apply buildServiceURL_nonempty. }
  destruct (IsSupportedBackendRef ref) eqn:Hsup; simpl.
  2:{ split; [|done]. apply Hfinal; [|intros (H & _); congruence].
      unfold IsSupportedBackendRef in Hsup. by apply orb_false_iff in Hsup as [_ ?]. }
  destruct (IsExternalBackendRef ref) eqn:He; simpl; [done|].
  destruct (validatePort _) eqn:Hp; simpl.
  2:{ split; [|done]. apply Hfinal; [done|]. intros (_ & _ & Hr & _). by rewrite validatePort_false in Hp. }
  destruct (validateCrossNamespace rv _ ns ref) eqn:Hc; simpl.
  2:{ split; [|done]. apply Hfinal; [done|]. intros (_ & _ & _ & Ha). apply validateCrossNamespace_spec in Ha.
      unfold ref_namespace in Ha. congruence. }
  split; [|done]. split_and!; [lia|done|]. refine (conj _ (conj _ (conj _ _))); [done|done| |by apply validateCrossNamespace_spec].
  destruct (decide (1 <= default 80 (gb_Port ref) <= 65535)%Z) as [|Hn]; [done|].
  apply validatePort_false in Hn. unfold defaultServicePort in Hp. congruence.
Qed.

Lemma resolveBackendProtocol_spec ns name port url tlsAttached :
  url <> "" ->
  returns (resolveBackendProtocol rv ns name port url tlsAttached) (fun tr =>
    tr_Protocol tr ∈ [BackendProtocolHTTP; BackendProtocolH2C] /\ tr_URL tr <> "" /\
    (tlsAttached = true -> tr_Protocol tr = BackendProtocolHTTP /\ tr_URL tr = url) /\
    tr_failClosed tr = negb tlsAttached && isTLSAppProtocol (lookupAppProtocol rv ns name port)).
Proof.
  intros Hurl. unfold resolveBackendProtocol, lookupAppProtocol, isTLSAppProtocol.
  destruct (rv_protocol rv) as [resolver|]; [|apply returns_ret; split_and!; [set_solver|done|done|by rewrite andb_false_r]].
  generalize (resolver ns name port). intros p s. unfold resolveH2C, unpolicedTLSAppProtocol, sink_bind.
  destruct tlsAttached; repeat case_bool_decide; simpl; (split_and!; [set_solver|try done|try done|]);
    solve [by apply Replace1_nonempty|done|set_solver].
Qed.

Lemma applyBackendFilters_spec b fs ns cert :
  returns (applyBackendFilters rv b fs ns cert) (fun b' =>
    be_URL b' = be_URL b /\ be_Weight b' = be_Weight b /\ be_Protocol b' = be_Protocol b /\ be_TLS b' = be_TLS b /\
    (be_UnavailableStatus b' = 0%Z -> be_UnavailableStatus b = 0%Z) /\
    (fs = [] -> be_UnavailableStatus b' = be_UnavailableStatus b) /\
    ((forall f, f ∈ fs -> admitted_filter f) -> forall f, f ∈ be_Filters b' -> valid_filter f)).
Proof.
  unfold applyBackendFilters, convertBackendFilters.
  apply (returns_bind _ _ (fun o => (fs = [] -> o.2 = false) /\
    ((forall f, f ∈ fs -> admitted_filter f) -> forall f, f ∈ o.1 -> valid_filter f))).
  - intros s. split; [by intros ->|]. intros Ha. by apply (convertFilters_valid fs ns cert filterScopeBackend Ha s).
  - intros [fs' fc] [He Hfs]. simpl in He. destruct fc; apply returns_ret; simpl; split_and!; try done.
    intros E. by specialize (He E).
Qed.
Lemma applyGRPCBackendFilters_spec b fs :
  (forall f, f ∈ be_Filters b -> valid_filter f) ->
  returns (applyGRPCBackendFilters b fs) (fun b' =>
    be_URL b' = be_URL b /\ be_Weight b' = be_Weight b /\ be_Protocol b' = be_Protocol b /\ be_TLS b' = be_TLS b /\
    (be_UnavailableStatus b' = 0%Z -> be_UnavailableStatus b = 0%Z) /\
    (fs = [] -> be_UnavailableStatus b' = be_UnavailableStatus b) /\
    forall f, f ∈ be_Filters b' -> valid_filter f).
Proof.
  intros Hb. unfold applyGRPCBackendFilters.
  apply (returns_bind _ _ (fun o => (fs = [] -> o.2 = false) /\ forall f, f ∈ o.1 -> valid_filter f)).
  - intros s. split; [by intros ->|]. apply (convertGRPCFilters_valid fs filterScopeBackend s).
  - intros [fs' fc] [He Hfs]. simpl in He. destruct fc; apply returns_ret; simpl in *; (split_and!; [done..| |]).
    1,3: by intros E; specialize (He E).
    all: intros f [?|?]%elem_of_app; auto.
Qed.

Lemma buildServiceURL_https name ns port domain :
  HasPrefix (forceHTTPSScheme (buildServiceURL name ns port domain)) "https://" = true.
Proof.
  unfold buildServiceURL, forceHTTPSScheme. destruct (port =? httpsPort)%Z.
  - change ("https" +:+ "://" +:+ ?s) with ("https://" +:+ s). destruct (CutPrefix _ _); auto with go.
  - unfold CutPrefix. change ("http" +:+ "://" +:+ ?s) with ("http://" +:+ s). rewrite HasPrefix_app. auto with go.
Qed.

Lemma resolveBackendTLS_https name ns port domain tls url :
  resolveBackendTLS rv ns name port (buildServiceURL name ns port domain) = (tls, url) ->
  url <> "" /\ (tls <> None -> HasPrefix url "https://" = true).
Proof.
  intros He. assert (Hne : url <> "").
  { change url with (tls, url).2. rewrite <-He. apply resolveBackendTLS_nonempty, buildServiceURL_nonempty. }
  split; [done|]. intros Htls. unfold resolveBackendTLS in He. destruct (rv_tls rv) as [resolver|]; [|congruence].
  destruct (resolver ns name port); [|congruence]. injection He as <- <-. apply buildServiceURL_https.
Qed.
Lemma attach_None tls cert : attachGatewayClientCert tls cert = None <-> tls = None.
Proof. by destruct tls, cert. Qed.

(** A reference that may not be dialed, with its 500. *)
Lemma markInvalid_converted cert ref unfiltered ns b :
  ~ ref_dialable ref ns -> ~ ref_in_cluster ref ns -> (0 < ref_weight ref)%Z -> be_Weight b = ref_weight ref ->
  be_URL b <> "" -> be_Protocol b = BackendProtocolHTTP -> be_TLS b = None ->
  be_UnavailableStatus b = StatusInternalServerError -> backend_converted cert ref unfiltered ns b.
Proof. intros Hd Hc Hw Hb Hu Hp Ht Hs. split; rewrite ?Hp, ?Ht, ?Hs; try done; [lia|set_solver]. Qed.
Lemma in_cluster_dialable ref ns :
  IsExternalBackendRef ref = false -> ~ ref_in_cluster ref ns -> ~ ref_dialable ref ns.
Proof. intros He Hc [[H _]|[H _]]; [congruence|done]. Qed.
Lemma external_invalid cert ref unfiltered ns name svcNs :
  (0 <= ref_weight ref)%Z -> IsExternalBackendRef ref = true -> ~ ref_authorized ref ns ->
  ref_converted cert ref unfiltered ns
    (markInvalidBackend (ref_weight ref) name svcNs defaultServicePort (rv_clusterDomain rv)).
Proof.
  intros Hw He Ha. unfold markInvalidBackend, ref_converted. destruct (Z.leb_spec (ref_weight ref) 0); [done|].
  pose proof (external_not_in_cluster ref ns He) as Hc.
  apply markInvalid_converted; try done. by intros [[_ H']|[H' _]].
Qed.
(** An ExternalBackend is dialed without TLS of its own. *)
Lemma external_converted cert ref (unfiltered : Prop) ns b :
  IsExternalBackendRef ref = true -> ref_authorized ref ns -> (0 <= ref_weight ref)%Z -> be_Weight b = ref_weight ref ->
  be_URL b <> "" -> be_Protocol b ∈ [BackendProtocolHTTP; BackendProtocolH2C] -> be_TLS b = None ->
  (unfiltered -> be_UnavailableStatus b = 0%Z) -> backend_converted cert ref unfiltered ns b.
Proof.
  intros He Ha Hw Hb Hu Hin Ht Hs. split; try done.
  - split; [intros _; by left|auto].
  - by intros ?%external_not_in_cluster.
Qed.
Lemma resolveBackendTLS_policy ref ns url tls url' :
  resolveBackendTLS rv (ref_namespace ref ns) (gb_Name ref) (default defaultServicePort (gb_Port ref)) url =
    (tls, url') -> tls = ref_policy ref ns.
Proof.
  unfold resolveBackendTLS, ref_policy.
  destruct (rv_tls rv) as [f|]; simpl; [destruct (f _ _ _)|]; congruence.
Qed.
(** A Service is dialed unless it declares TLS and no policy supplies it. *)
Lemma in_cluster_status ref ns (failClosed : bool) :
  ref_in_cluster ref ns ->
  failClosed = negb (bool_decide (is_Some (ref_policy ref ns))) && isTLSAppProtocol (ref_appProtocol ref ns) ->
  failClosed = false <-> ref_dialable ref ns.
Proof.
  intros Hc ->. rewrite andb_false_iff, negb_false_iff, bool_decide_eq_true. unfold ref_dialable.
  destruct (ref_policy ref ns) as [p|], (isTLSAppProtocol _); split; try naive_solver.
  intros [[H _]|[_ H]]; [by destruct (external_not_in_cluster ref ns)|by destruct (H eq_refl)].
Qed.
Lemma attach_Some tls cert : is_Some (attachGatewayClientCert tls cert) <-> is_Some tls.
Proof. rewrite !is_Some_alt. destruct tls, cert; done. Qed.

Lemma convertBackendRef_spec backend ns cert :
  returns (convertBackendRef rv backend ns cert) (fun o =>
    ref_converted cert (hb_Ref backend) (hb_Filters backend = []) ns o /\
    ((forall f, f ∈ hb_Filters backend -> admitted_filter f) -> forall b f, o = Some b -> f ∈ be_Filters b -> valid_filter f)).
Proof.
  unfold convertBackendRef. destruct (resolveCommonBackendRef_spec (hb_Ref backend) ns) as [Hspec Hid].
  fold (ref_weight (hb_Ref backend)) in Hspec.
  set (common := resolveCommonBackendRef rv (hb_Ref backend) ns) in *.
  destruct (rb_outcome common), (rb_backend common) as [b|]; try done.
  - destruct Hid as (Hname & Hns & Hport); [done|]. rewrite Hname, Hns, Hport in *. destruct Hspec as (Hw & -> & Hin).
    cbn [be_URL plain_backend]. fold (ref_namespace (hb_Ref backend) ns). set (ref := hb_Ref backend) in *.
    destruct (resolveBackendTLS _ _ _ _ _) as [tls url] eqn:Htls.
    pose proof (resolveBackendTLS_policy ref ns _ _ _ Htls) as ->.
    apply resolveBackendTLS_https in Htls as [Hurl Hhttps].
    eapply returns_bind; [by apply resolveBackendProtocol_spec|]. intros tr (Hproto & Hne & Hon & Hfail).
    eapply returns_bind; [apply applyBackendFilters_spec|]. simpl. intros b' (Eu & Ew & Ep & Et & Es & Enf & Hf).
    apply returns_ret. split; [|intros Ha b f [= <-]; by apply Hf]. simpl.
    rewrite (bool_decide_ext _ (is_Some (ref_policy ref ns))) in Hon, Hfail by apply attach_Some.
    destruct (in_cluster_status ref ns (tr_failClosed tr) Hin Hfail) as [Hd1 Hd2].
    split; rewrite ?Eu, ?Ew, ?Ep, ?Et; try done.
    + split; [intros Hst; apply Hd1; apply Es in Hst; by destruct (tr_failClosed tr)|].
      intros Hnf Hd. rewrite (Enf Hnf). by rewrite (Hd2 Hd).
    + intros Ht. rewrite attach_None in Ht. destruct Hon as [-> ->]; [|auto]. by apply bool_decide_eq_true, not_eq_None_Some.
  - destruct Hspec as (Hw & Hb & Hu & Hp & Hfs & Ht & Hs & He & Hc). apply returns_ret. split.
    + by apply markInvalid_converted; [apply in_cluster_dialable|..].
    + intros _ b' f [= <-]. rewrite Hfs. by intros ?%elem_of_nil.
  - apply returns_ret. split; [simpl; lia|done].
  - apply returns_ret. split; [simpl; lia|done].
  - apply returns_ret. split; [simpl; lia|done].
  - destruct Hid as (-> & -> & _); [done|]. destruct Hspec as (Hw & Hb & Hext). rewrite Hb.
    fold (ref_namespace (hb_Ref backend) ns).
    unfold convertExternalBackendRef. pose proof (validateCrossNamespace_spec (hb_Ref backend) ns) as Ha.
    destruct (validateCrossNamespace rv _ ns _); cbn [negb].
    + eapply returns_bind; [apply applyBackendFilters_spec|]. simpl. intros b' (Eu & Ew & Ep & Et & Es & Enf & Hf).
      apply returns_ret. split; [|intros Hadm b'' f [= <-]; by apply Hf]. simpl.
      apply external_converted; rewrite ?Eu, ?Ew, ?Ep, ?Et; try done; [by apply Ha|by left].
    + apply returns_ret. split; [apply external_invalid; try done; by rewrite <-Ha|].
      intros _ b' f. unfold markInvalidBackend. destruct (_ <=? 0)%Z; [done|]. intros [= <-]. by intros ?%elem_of_nil.
Qed.

Lemma applyGRPCBackendTransport_spec b cert ref (unfiltered : Prop) ns domain :
  be_URL b = buildServiceURL (gb_Name ref) (ref_namespace ref ns) (default defaultServicePort (gb_Port ref)) domain ->
  be_Protocol b = BackendProtocolHTTP -> be_Weight b = ref_weight ref -> (0 <= ref_weight ref)%Z ->
  ref_in_cluster ref ns -> (unfiltered -> be_UnavailableStatus b = 0%Z) ->
  returns (applyGRPCBackendTransport rv b cert (ref_namespace ref ns) (gb_Name ref)
             (default defaultServicePort (gb_Port ref))) (fun b' =>
    backend_converted cert ref unfiltered ns b' /\ be_Filters b' = be_Filters b).
Proof.
  intros Hurl Hproto Hw H0 Hin Hnf. unfold applyGRPCBackendTransport. rewrite Hurl.
  destruct (resolveBackendTLS _ _ _ _ _) as [tls url] eqn:Htls.
  pose proof (resolveBackendTLS_policy ref ns _ _ _ Htls) as ->.
  apply resolveBackendTLS_https in Htls as [Hne Hhttps]. cbn [be_TLS set_TLS].
  pose proof (in_cluster_status ref ns _ Hin eq_refl) as Hd. rewrite andb_false_iff, negb_false_iff in Hd.
  fold (ref_appProtocol ref ns). pose proof (attach_Some (ref_policy ref ns) cert) as Hat.
  destruct (attachGatewayClientCert (ref_policy ref ns) cert) as [t|] eqn:Ht.
  - apply returns_ret. split; [|done]. assert (Hp : is_Some (ref_policy ref ns)) by by apply Hat.
    split; simpl; try done; [by rewrite Hproto; set_solver| |].
    + split; [intros _; apply Hd; left; by apply bool_decide_eq_true|auto].
    + intros _. split; [|done]. apply Hhttps. by apply not_eq_None_Some.
  - assert (Hp : ref_policy ref ns = None) by by eapply attach_None.
    rewrite Hp, bool_decide_false in Hd by by intros [? ?].
    destruct (isTLSAppProtocol (ref_appProtocol ref ns)) eqn:Happ.
    + apply returns_seq, returns_ret. split; [|done]. split; simpl; try done; [by rewrite Hproto; set_solver|].
      split; [done|]. intros _ Hdial. by apply Hd in Hdial as [?|?].
    + apply returns_ret. split; [|done]. split; simpl; try done; [by apply Replace1_nonempty|set_solver|].
      split; [intros _; apply Hd; by right|auto].
Qed.

Lemma convertGRPCBackendRef_spec backend ns cert :
  returns (convertGRPCBackendRef rv backend ns cert) (fun o =>
    ref_converted cert (gbr_Ref backend) (gbr_Filters backend = []) ns o /\
    forall b f, o = Some b -> f ∈ be_Filters b -> valid_filter f).
Proof.
  unfold convertGRPCBackendRef. destruct (resolveCommonBackendRef_spec (gbr_Ref backend) ns) as [Hspec Hid].
  fold (ref_weight (gbr_Ref backend)) in Hspec.
  set (common := resolveCommonBackendRef rv (gbr_Ref backend) ns) in *.
  assert (Hnil : forall f : RouteFilter, f ∈ [] -> valid_filter f) by by intros f ?%elem_of_nil.
  destruct (rb_outcome common), (rb_backend common) as [b|]; try done.
  - destruct Hid as (Hname & Hns & Hport); [done|]. rewrite Hname, Hns, Hport in *. destruct Hspec as (Hw & -> & Hin).
    fold (ref_namespace (gbr_Ref backend) ns).
    eapply returns_bind; [by apply applyGRPCBackendFilters_spec|]. simpl. intros b' (Eu & Ew & Ep & Et & Es & Enf & Hf).
    eapply returns_bind; [by eapply applyGRPCBackendTransport_spec|]. intros b'' [Hb'' Hfs]. apply returns_ret.
    split; [done|]. intros b f [= <-]. rewrite Hfs. by apply Hf.
  - destruct Hspec as (Hw & Hb & Hu & Hp & Hfs & Ht & Hs & He & Hc). apply returns_ret. split.
    + by apply markInvalid_converted; [apply in_cluster_dialable|..].
    + intros b' f [= <-]. rewrite Hfs. by intros ?%elem_of_nil.
  - apply returns_ret. split; [simpl; lia|done].
  - apply returns_ret. split; [simpl; lia|done].
  - apply returns_ret. split; [simpl; lia|done].
  - destruct Hid as (-> & -> & _); [done|]. destruct Hspec as (Hw & Hb & Hext). rewrite Hb.
    fold (ref_namespace (gbr_Ref backend) ns).
    unfold convertGRPCExternalBackendRef. pose proof (validateCrossNamespace_spec (gbr_Ref backend) ns) as Ha.
    destruct (validateCrossNamespace rv _ ns _); cbn [negb].
    + eapply returns_bind; [by apply applyGRPCBackendFilters_spec|]. simpl. intros b' (Eu & Ew & Ep & Et & Es & Enf & Hf).
      apply returns_ret. split; [|intros b'' f [= <-]; by apply Hf]. simpl.
      apply external_converted; rewrite ?Eu, ?Ew, ?Ep, ?Et; try done; [by apply Ha|by right; left].
    + apply returns_ret. split; [apply external_invalid; try done; by rewrite <-Ha|].
      intros b' f. unfold markInvalidBackend. destruct (_ <=? 0)%Z; [done|]. intros [= <-]. by intros ?%elem_of_nil.
Qed.

(** ** What becomes of a rule *)

(** Backends of the result come from references, in order, and none with traffic is lost. *)
Definition backends_converted {B} (cert : option ClientCertConfig) (backends : list B) (ref : B -> GwBackendRef)
    (unfiltered : B -> Prop) (ns : string) (r : RouteRule) : Prop :=
  exists os, Forall2 (fun b o => ref_converted cert (ref b) (unfiltered b) ns o) backends os /\
    rule_Backends r = omap id os.

Lemma sound_of_converted cert ref unfiltered ns b :
  admitted_ref ref -> backend_converted cert ref unfiltered ns b -> (forall f, f ∈ be_Filters b -> valid_filter f) ->
  sound_backend b.
Proof.
  intros Ha [[Hw H0] Hu Hp _ _ _ _] Hf. split; [split_and!; [done|lia|done|done]|].
  rewrite Hw. unfold ref_weight. destruct (gb_Weight ref) as [w|] eqn:He; simpl; [apply (Ha w He)|].
  unfold MaxInt32. lia.
Qed.

Lemma convertHTTPRouteRule_spec rule hostnames ns cert :
  returns (convertHTTPRouteRule rv rule hostnames ns cert) (fun r =>
    backends_converted cert (hrule_BackendRefs rule) hb_Ref (fun b => hb_Filters b = []) ns r /\
    (admitted_http_rule rule -> paths_nonempty rule -> sound_rule r) /\
    rule_Matches r = convertMatch <$> hrule_Matches rule).
Proof.
  unfold convertHTTPRouteRule.
  apply (returns_bind _ _ (fun o => (forall f, f ∈ hrule_Filters rule -> admitted_filter f) ->
    forall f, f ∈ o.1 -> valid_filter f)).
  { intros s Ha. by apply (convertFilters_valid (hrule_Filters rule) ns cert filterScopeRule Ha s). }
  intros [fs fc] Hfs. eapply returns_bind; [apply returns_map; intros b Hb; apply convertBackendRef_spec|].
  intros os Hos. apply (returns_bind _ _ (fun _ => True)); [done|]. intros timeouts _.
  apply returns_seq, returns_ret. split; [|split; [|done]].
  - exists os. split; [|done]. eapply Forall2_impl; [exact Hos|]. by intros ? ? [? _].
  - intros [Hm Hf Hb] Hpaths. split_and!; simpl.
    + intros b (o & Ho & Heq)%list_elem_of_omap. simpl in Heq. subst o.
      apply list_elem_of_lookup in Ho as [k Hk]. destruct (Forall2_lookup_r _ _ _ _ _ Hos Hk) as (x & Hx & Hc & Hv).
      apply list_elem_of_lookup_2 in Hx. destruct (Hb x Hx) as [Hr Hbf].
      eapply sound_of_converted; [done|exact Hc|]. intros f Hin. by eapply Hv.
    + intros m (m' & -> & Hin)%list_elem_of_fmap. apply convertMatch_valid; [by apply Hm|].
      intros p. by apply Hpaths.
    + by apply Hfs.
Qed.
Lemma convertGRPCRouteRule_spec rule hostnames ns cert :
  returns (convertGRPCRouteRule rv rule hostnames ns cert) (fun r =>
    backends_converted cert (grule_BackendRefs rule) gbr_Ref (fun b => gbr_Filters b = []) ns r /\
    (admitted_grpc_rule rule -> sound_rule r)).
Proof.
  unfold convertGRPCRouteRule. eapply returns_bind; [apply convertGRPCFilters_valid|].
  intros [fs fc] Hfs. eapply returns_bind; [apply returns_map; intros b Hb; apply convertGRPCBackendRef_spec|].
  intros os Hos. apply returns_ret. split.
  - exists os. split; [|done]. eapply Forall2_impl; [exact Hos|]. by intros ? ? [? _].
  - intros [Hm Hb]. split_and!; simpl.
    + intros b (o & Ho & Heq)%list_elem_of_omap. simpl in Heq. subst o.
      apply list_elem_of_lookup in Ho as [k Hk]. destruct (Forall2_lookup_r _ _ _ _ _ Hos Hk) as (x & Hx & Hc & Hv).
      apply list_elem_of_lookup_2 in Hx.
      eapply sound_of_converted; [by apply Hb|exact Hc|]. intros f Hin. by eapply Hv.
    + intros m (m' & Hin & Hc)%list_elem_of_omap. eapply convertGRPCMatch_valid; [|done]. intros h Hh. by eapply Hm.
    + done.
Qed.
End valid.

(** ** Routes *)

Section routes.
Context {durations : DurationParser} (rv : Resolvers) {R : Type} (view : routeKindView R).

(** The rules of a route, each with its provenance. *)
Definition rules_converted (P : RouteObject R -> R -> RouteRule -> Prop) (i : nat) (route : RouteObject R)
    (rules : list R) (out : list (RouteRule * RuleProvenance)) : Prop :=
  length out = length rules /\
  forall k r, rules !! k = Some r -> exists r', out !! k =
    Some (r', mkRuleProvenance (rk_kind R view) (ro_Namespace route) (ro_Name route) (ro_CreationTimestamp route)
                (Z.of_nat (i + k))) /\ P route r r'.

Lemma convert_rules_spec P route cert i rules :
  (forall r, r ∈ rules ->
     returns (rk_convertRule R view r (ro_Hostnames route) (ro_Namespace route) cert) (P route r)) ->
  returns (convert_rules view route cert i rules) (rules_converted P i route rules).
Proof.
  revert i. induction rules as [|r rules IH]; intros i H; cbn [convert_rules]; [by apply returns_ret|].
  apply returns_seq. eapply returns_bind; [apply H; by left|]. intros r' Hr'.
  eapply returns_bind; [apply (IH (S i)); intros x Hx; apply H; by right|]. intros rest [Hlen Hrest].
  apply returns_ret. split; [simpl; lia|]. intros [|k] x Hx; simplify_eq/=.
  - exists r'. by rewrite Nat.add_0_r.
  - destruct (Hrest k x Hx) as (x' & Hout & HP). exists x'. by rewrite <-Nat.add_succ_comm.
Qed.

Lemma convertRoutesGeneric_spec (P : RouteObject R -> R -> RouteRule -> Prop) routes counter :
  (forall route r cert, route ∈ routes -> r ∈ ro_Rules route ->
     returns (rk_convertRule R view r (ro_Hostnames route) (ro_Namespace route) cert) (P route r)) ->
  let '(cfg, version) := convertRoutesGeneric rv view routes counter in
  version = int64 (counter + 1) /\ cfg_Version cfg = version /\ cfg_HasGRPCRoute cfg = false /\
  exists outs, Forall2 (fun route out => rules_converted P 0 route (ro_Rules route) out)
                 (sortRoutesByPrecedence routes) outs /\
    cfg_Rules cfg = (mjoin outs).*1 /\ cfg_Provenance cfg = (mjoin outs).*2.
Proof.
  intros H. unfold convertRoutesGeneric.
  assert (Hret : returns (sink_map (convert_route rv view) (sortRoutesByPrecedence routes))
    (Forall2 (fun route out => rules_converted P 0 route (ro_Rules route) out) (sortRoutesByPrecedence routes))).
  { apply returns_map. intros route Hroute. unfold convert_route. apply returns_seq, convert_rules_spec.
    intros r Hr. apply H; [|done]. by apply elem_of_stable_sort in Hroute. }
  specialize (Hret (mkDiagSink "" "" 0 [])). destruct (sink_map _ _ _) as [rules sink]. simpl in *. eauto 10.
Qed.

Lemma converted_rules_all (P : RouteObject R -> R -> RouteRule -> Prop) (Q : RouteRule -> Prop) routes outs :
  Forall2 (fun route out => rules_converted P 0 route (ro_Rules route) out) (sortRoutesByPrecedence routes) outs ->
  (forall route r r', route ∈ routes -> r ∈ ro_Rules route -> P route r r' -> Q r') ->
  forall r', r' ∈ (mjoin outs).*1 -> Q r'.
Proof.
  intros Houts HQ r' ([r'' p] & -> & Hin)%list_elem_of_fmap. simpl.
  apply list_elem_of_join in Hin as (out & Hin & Hout).
  apply list_elem_of_lookup in Hout as [i Hi]. destruct (Forall2_lookup_r _ _ _ _ _ Houts Hi) as (route & Hr & Hlen & Hall).
  apply list_elem_of_lookup_2 in Hr. apply elem_of_stable_sort in Hr.
  apply list_elem_of_lookup in Hin as [k Hk].
  destruct (lookup_lt_is_Some_2 (ro_Rules route) k) as [r Hrk]; [rewrite <-Hlen; by eapply lookup_lt_Some|].
  destruct (Hall k r Hrk) as (x & Hx & HP). simplify_eq. apply (HQ route r); [done| |done].
  by eapply list_elem_of_lookup_2.
Qed.

Lemma converted_rules_some (P : RouteObject R -> R -> RouteRule -> Prop) routes outs route r :
  Forall2 (fun route out => rules_converted P 0 route (ro_Rules route) out) (sortRoutesByPrecedence routes) outs ->
  route ∈ routes -> r ∈ ro_Rules route -> exists r', r' ∈ (mjoin outs).*1 /\ P route r r'.
Proof.
  intros Houts Hroute Hr. rewrite <-(elem_of_stable_sort route_less) in Hroute.
  apply list_elem_of_lookup in Hroute as [i Hi]. destruct (Forall2_lookup_l _ _ _ _ _ Houts Hi) as (out & Hout & _ & Hall).
  apply list_elem_of_lookup in Hr as [k Hk]. destruct (Hall k r Hk) as (r' & Hr' & HP). exists r'. split; [|done].
  apply list_elem_of_fmap. eexists. split; [|apply list_elem_of_join; exists out; split; by eapply list_elem_of_lookup_2].
  done.
Qed.

(** Routes with distinct names are flattened in one order, whatever order they are listed in. *)
Lemma sortRoutes_deterministic (routes routes' : list (RouteObject R)) :
  NoDup ((fun r => (ro_Namespace r, ro_Name r)) <$> routes) -> routes ≡ₚ routes' ->
  sortRoutesByPrecedence routes = sortRoutesByPrecedence routes'.
Proof.
  intros Hnd Hp. apply stable_sort_order_independent; [apply _| |done].
  intros x y Hx Hy H1 H2. apply lex_less_tie in H1 as (_ & H1 & H2'); [|apply _|done].
  apply lex_less_tie in H1 as (Hns & H1 & H2''); [|apply _|done].
  assert (Hname : ro_Name x = ro_Name y) by by apply str_ltb_total.
  apply list_elem_of_lookup in Hx as [i Hi], Hy as [j Hj].
  assert (i = j) as ->; [|congruence]. eapply NoDup_lookup; [exact Hnd|by rewrite list_lookup_fmap, Hi|].
  rewrite list_lookup_fmap, Hj. simpl. by rewrite Hns, Hname.
Qed.
End routes.

(** ** The passes keep a configuration sound *)

Definition sound_config (cfg : Config) : Prop := (0 <= cfg_Version cfg)%Z /\ forall r, r ∈ cfg_Rules cfg -> sound_rule r.

Lemma sound_config_valid cfg : sound_config cfg -> Validate cfg = Ok tt.
Proof.
  intros [Hv Hr]. apply Validate_spec. split; [done|]. intros r Hin. destruct (Hr r Hin) as (Hb & Hm & Hf).
  split_and!; [|done|done]. intros b Hbin. by apply Hb.
Qed.

Lemma map_backends_sound f cfg :
  (forall b, sound_backend b -> sound_backend (f b)) -> sound_config cfg -> sound_config (map_backends f cfg).
Proof.
  intros Hf [Hv Hr]. split; [done|]. simpl. intros r (r' & -> & Hin)%list_elem_of_fmap.
  destruct (Hr r' Hin) as (Hb & Hm & Hfl). split_and!; simpl; [|done|done].
  intros b (b' & -> & Hb')%list_elem_of_fmap. auto.
Qed.
Lemma set_Status_sound status b : sound_backend b -> sound_backend (set_Status status b).
Proof. done. Qed.
Lemma set_Weight_sound w b : (0 <= w <= MaxInt32)%Z -> sound_backend b -> sound_backend (set_Weight w b).
Proof. intros [? ?] [(? & ? & ? & ?) ?]. by split. Qed.

Section passes.
Context {parser : UrlParser} {sorter : SortFunc} (cli : ServiceReader) (clusterDomain : string).

Lemma mark_sound cfg domain ns name port status :
  sound_config cfg -> sound_config (MarkUnavailableBackends cfg domain ns name port status).
Proof.
  intros Hc. unfold MarkUnavailableBackends. case_bool_decide; [done|]. apply map_backends_sound; [|done].
  intros b Hb. unfold mark_backend. by repeat case_match.
Qed.

Lemma scaleWeight_range w n :
  (0 <= w <= MaxInt32)%Z -> (0 <= n <= MaxInt32)%Z -> (0 <= scaleWeight w n <= MaxInt32)%Z.
Proof.
  unfold MaxInt32. intros Hw Hn. unfold scaleWeight. rewrite int64_id by (unfold is_int64, MaxInt64; nia).
  destruct (Z.ltb_spec MaxInt32 (w * n)); [unfold MaxInt32; lia|]. unfold MaxInt32 in *.
  rewrite int32_id by (unfold is_int32, MaxInt32; nia). nia.
Qed.
Lemma expand_rule_sound target endpoints rule :
  (Z.of_nat (length endpoints) <= MaxInt32)%Z -> sound_rule rule ->
  sound_rule (expandRuleBackends rule target (int32 (Z.of_nat (length endpoints))) endpoints).
Proof.
  intros Hlen (Hb & Hm & Hf). unfold expandRuleBackends. destruct (negb _); [done|]. split_and!; simpl; [|done|done].
  rewrite int32_id by (unfold is_int32, MaxInt32 in *; lia).
  assert (Hex : forall x, x ∈ rule_Backends rule ≫= expand_backend target (Z.of_nat (length endpoints)) endpoints ->
    sound_backend x).
  { intros x (b & Hx & Hin)%list_elem_of_bind. specialize (Hb b Hin). unfold expand_backend in Hx.
    destruct (backendMatchesHeadless target b).
    - apply list_elem_of_fmap in Hx as (ep & -> & _). destruct Hb as [(? & ? & ? & ?) ?]. split; [|done].
      split_and!; simpl; try done. unfold endpoint_URL. by destruct (backendScheme (be_URL b)).
    - apply list_elem_of_singleton in Hx as ->. apply set_Weight_sound; [|done].
      destruct Hb as [(? & ? & ? & ?) ?]. apply scaleWeight_range; lia. }
  assert (Hw : int32_weights (rule_Backends rule ≫= expand_backend target (Z.of_nat (length endpoints)) endpoints)).
  { intros x Hx. destruct (Hex x Hx) as [(? & ? & ? & ?) ?]. done. }
  destruct (reduceWeightsByGCD_spec _ Hw) as (d & Hd & Hdiv & ->).
  intros b (x & -> & Hx)%list_elem_of_fmap. apply set_Weight_sound; [|by apply Hex].
  specialize (Hdiv x Hx). destruct (Hw x Hx). split; [apply Z.div_pos; lia|].
  transitivity (be_Weight x); [|done]. apply Z.div_le_upper_bound; [lia|]. nia.
Qed.

Lemma visit_preserves (S : Config -> Prop) action cfg refs :
  (forall cfg ns name port, S cfg -> S (action cfg ns name port)) ->
  S cfg -> S (visitAuthorizedServiceBackends clusterDomain action cfg refs).
Proof.
  intros Ha Hc. unfold visitAuthorizedServiceBackends. case_bool_decide; [done|].
  generalize (UnmarkedBackendHosts cfg) as auth. intros auth.
  enough (forall st : gset string * Config, S st.2 ->
    S (foldl (visit clusterDomain auth action) st refs).2) as Hall by by apply Hall.
  induction refs as [|r refs IH]; intros [seen c] Hst; [done|]. cbn [foldl]. apply IH. unfold visit.
  destruct (ref_service r) as [[ns name] port]. repeat case_match; simpl in *; auto.
Qed.

(** Endpoints are counted with an [int32]. *)
Hypothesis bounded : forall svc ns name port,
  (Z.of_nat (length (resolveHeadlessEndpoints cli svc ns name port).1) <= MaxInt32)%Z.

Lemma expandBackendIfHeadless_sound cfg ns name port :
  sound_config cfg -> sound_config (expandBackendIfHeadless cli clusterDomain cfg ns name port).
Proof.
  intros Hc. unfold expandBackendIfHeadless. destruct (read_service cli ns name) as [svc|]; [|done].
  destruct (_ || _); [done|]. specialize (bounded svc ns name port).
  destruct (resolveHeadlessEndpoints cli svc ns name port) as [endpoints hadReady]. simpl in bounded.
  destruct (0 <? length endpoints); [|destruct hadReady; [by apply mark_sound|done]].
  unfold ExpandHeadlessBackend. repeat case_match; try done. destruct Hc as [Hv Hr]. split; [done|]. simpl.
  intros r (r' & -> & Hin)%list_elem_of_fmap. apply expand_rule_sound; [done|by apply Hr].
Qed.
Lemma markZero_sound cfg ns name port :
  sound_config cfg -> sound_config (markBackendIfZeroEndpoints cli clusterDomain cfg ns name port).
Proof. intros Hc. unfold markBackendIfZeroEndpoints. repeat case_match; try done. by apply mark_sound. Qed.
Lemma markUnavailable_sound cfg failedRefs :
  sound_config cfg -> sound_config (markUnavailableBackends clusterDomain cfg failedRefs).
Proof.
  unfold markUnavailableBackends. revert cfg. induction failedRefs as [|ref refs IH]; intros cfg Hc; [done|].
  cbn [foldl]. by apply IH, mark_sound.
Qed.
Lemma resolve_external_sound b : sound_backend b -> sound_backend (resolve_external cli b).
Proof.
  intros Hb. unfold resolve_external, fail_backend.
  destruct (ParseExternalBackendSentinel (be_URL b)) as [[ns name]|]; [|done].
  destruct (read_external cli ns name) as [spec|]; [|by destruct (_ =? 0)%Z].
  destruct (negb _); [by destruct (_ =? 0)%Z|]. destruct Hb as [(? & ? & ? & ?) ?].
  assert (ExternalBackend_URL spec <> "") by (unfold ExternalBackend_URL; by destruct (eb_Scheme spec)).
  destruct (_ && _); (split; [|done]); split_and!; simpl; try done. set_solver.
Qed.

Lemma finish_sound cfg grpcCfg routes grpcRoutes failed grpcFailed :
  sound_config cfg -> sound_config grpcCfg ->
  sound_config (finishProxyConfig cli clusterDomain cfg grpcCfg routes grpcRoutes failed grpcFailed).
Proof.
  intros Hc Hg. unfold finishProxyConfig.
  set (c1 := if 0 <? length grpcRoutes then _ else _).
  assert (H1 : sound_config c1).
  { unfold c1. apply markUnavailable_sound with (failedRefs := failed) in Hc.
    destruct (0 <? length grpcRoutes); [|done]. apply markUnavailable_sound. destruct Hc as [Hv Hr], Hg as [_ Hg].
    split; [done|]. simpl. intros r [?|?]%elem_of_app; auto. }
  clearbody c1. set (refs := route_refs routes grpcRoutes).
  assert (H2 : sound_config (expandHeadlessBackends cli clusterDomain c1 refs)).
  { apply (visit_preserves sound_config); [|done]. intros. by apply expandBackendIfHeadless_sound. }
  assert (H3 : sound_config (markZeroEndpointBackends cli clusterDomain (expandHeadlessBackends cli clusterDomain c1 refs) refs)).
  { apply (visit_preserves sound_config); [|done]. intros. by apply markZero_sound. }
  apply (map_backends_sound (resolve_external cli)) in H3; [|apply resolve_external_sound].
  destruct H3 as [Hv Hr]. by split.
Qed.

(** The passes change backends, never the matches of a rule. *)
Definition cfg_matches (cfg : Config) : list (list RouteMatch) := rule_Matches <$> cfg_Rules cfg.
Lemma map_rules_matches (g : RouteRule -> RouteRule) cfg :
  (forall r, rule_Matches (g r) = rule_Matches r) -> cfg_matches (set_Rules (g <$> cfg_Rules cfg) cfg) = cfg_matches cfg.
Proof. intros Hg. unfold cfg_matches. simpl. rewrite <-list_fmap_compose. apply list_fmap_ext. intros i r _. apply Hg. Qed.
Lemma mark_matches cfg domain ns name port status :
  cfg_matches (MarkUnavailableBackends cfg domain ns name port status) = cfg_matches cfg.
Proof. unfold MarkUnavailableBackends. case_bool_decide; [done|]. by apply map_rules_matches. Qed.
Lemma markUnavailable_matches cfg failedRefs :
  cfg_matches (markUnavailableBackends clusterDomain cfg failedRefs) = cfg_matches cfg.
Proof.
  unfold markUnavailableBackends. revert cfg. induction failedRefs as [|ref refs IH]; intros cfg; [done|].
  cbn [foldl]. by rewrite IH, mark_matches.
Qed.
Lemma expandBackendIfHeadless_matches cfg ns name port :
  cfg_matches (expandBackendIfHeadless cli clusterDomain cfg ns name port) = cfg_matches cfg.
Proof.
  unfold expandBackendIfHeadless. destruct (read_service cli ns name) as [svc|]; [|done].
  destruct (_ || _); [done|]. destruct (resolveHeadlessEndpoints cli svc ns name port) as [endpoints hadReady].
  destruct (0 <? length endpoints); [|destruct hadReady; [by apply mark_matches|done]].
  unfold ExpandHeadlessBackend. repeat case_match; try done. apply map_rules_matches.
  intros r. unfold expandRuleBackends. by destruct (negb _).
Qed.
Lemma markZero_matches cfg ns name port :
  cfg_matches (markBackendIfZeroEndpoints cli clusterDomain cfg ns name port) = cfg_matches cfg.
Proof. unfold markBackendIfZeroEndpoints. repeat case_match; try done. by apply mark_matches. Qed.
Lemma finish_matches cfg grpcCfg routes grpcRoutes failed grpcFailed :
  exists more, cfg_matches (finishProxyConfig cli clusterDomain cfg grpcCfg routes grpcRoutes failed grpcFailed) =
    cfg_matches cfg ++ more.
Proof.
  unfold finishProxyConfig. set (c1 := if 0 <? length grpcRoutes then _ else _). set (refs := route_refs routes grpcRoutes).
  exists (if 0 <? length grpcRoutes then cfg_matches grpcCfg else []).
  transitivity (cfg_matches c1).
  - transitivity (cfg_matches (markZeroEndpointBackends cli clusterDomain (expandHeadlessBackends cli clusterDomain c1 refs) refs)).
    { by apply map_rules_matches. }
    apply (visit_preserves (fun c => cfg_matches c = cfg_matches c1)); [intros; by rewrite markZero_matches|].
    apply (visit_preserves (fun c => cfg_matches c = cfg_matches c1)); [|done].
    intros. by rewrite expandBackendIfHeadless_matches.
  - unfold c1. destruct (0 <? length grpcRoutes); [|by rewrite markUnavailable_matches, app_nil_r].
    rewrite markUnavailable_matches. unfold cfg_matches at 1. simpl. rewrite fmap_app. f_equal.
    apply markUnavailable_matches.
Qed.
End passes.

(** ** Theorems *)

(** The proxy refuses an empty path wherever the converter put it. *)
Lemma valid_rules_matches {parser : UrlParser} {sorter : SortFunc} cli domain cfg grpcCfg routes grpcRoutes failed
    grpcFailed ms m p :
  (forall r, r ∈ cfg_Rules (finishProxyConfig cli domain cfg grpcCfg routes grpcRoutes failed grpcFailed) ->
     valid_rule r) ->
  ms ∈ cfg_matches cfg -> convertMatch m ∈ ms -> hmatch_Path m = Some p -> hp_Value p <> Some "".
Proof.
  intros Hvalid Hms Hm. apply convertMatch_path.
  destruct (finish_matches cli domain cfg grpcCfg routes grpcRoutes failed grpcFailed) as [more Hmore].
  assert (Hin : ms ∈ cfg_matches (finishProxyConfig cli domain cfg grpcCfg routes grpcRoutes failed grpcFailed))
    by (rewrite Hmore; apply elem_of_app; by left).
  apply list_elem_of_fmap in Hin as (r & -> & Hr). by apply (Hvalid r Hr).
Qed.

(** The configuration built from converted routes of both kinds. *)
Definition build_config {durations : DurationParser} {parser : UrlParser} {sorter : SortFunc} (rv : Resolvers)
    (cli : ServiceReader) (routes : list (RouteObject HTTPRouteRule)) (grpcRoutes : list (RouteObject GRPCRouteRule))
    (counter : Z) (httpRefs : list HTTPRoute) (grpcRefs : list GRPCRoute) (failed grpcFailed : list BackendRefError)
    : Config :=
  let '(httpCfg, counter) := ConvertHTTPRoutes rv routes counter in
  let '(grpcCfg, _) := ConvertGRPCRoutes rv grpcRoutes counter in
  finishProxyConfig cli (rv_clusterDomain rv) httpCfg grpcCfg httpRefs grpcRefs failed grpcFailed.

(** C8: The two halves agree on what a configuration is.  The routes are what the
    CRDs admit (int32 weights, named headers and parameters, a path that starts
    with a slash unless its type is RegularExpression).  Whatever such routes of
    both kinds the controller converts, and whatever the marking, expansion and
    resolution passes find in the cluster, the configuration it pushes passes the
    proxy's validation exactly when no HTTPRoute matches an empty path: one
    empty regular expression, which the CRD admits, and the proxy refuses the
    whole plane's configuration. *)
Theorem pushed_config_valid {durations : DurationParser} {parser : UrlParser} {sorter : SortFunc} (rv : Resolvers)
    (cli : ServiceReader) (routes : list (RouteObject HTTPRouteRule)) (grpcRoutes : list (RouteObject GRPCRouteRule))
    (counter : Z) (httpRefs : list HTTPRoute) (grpcRefs : list GRPCRoute) (failed grpcFailed : list BackendRefError) :
  (0 <= counter < MaxInt64 - 1)%Z ->
  (forall route r, route ∈ routes -> r ∈ ro_Rules route -> admitted_http_rule r) ->
  (forall route r, route ∈ grpcRoutes -> r ∈ ro_Rules route -> admitted_grpc_rule r) ->
  (forall svc ns name port,
     (Z.of_nat (length (resolveHeadlessEndpoints cli svc ns name port).1) <= MaxInt32)%Z) ->
  Validate (build_config rv cli routes grpcRoutes counter httpRefs grpcRefs failed grpcFailed) = Ok tt <->
  (forall route r m p, route ∈ routes -> r ∈ ro_Rules route -> m ∈ hrule_Matches r ->
     hmatch_Path m = Some p -> hp_Value p <> Some "").
Proof.
  intros Hc Hh Hg Hb. unfold build_config, ConvertHTTPRoutes, ConvertGRPCRoutes.
  pose proof (convertRoutesGeneric_spec rv (mkRouteKindView _ kindHTTPRoute (convertHTTPRouteRule rv))
    (fun _ r r' => (admitted_http_rule r -> paths_nonempty r -> sound_rule r') /\
                   rule_Matches r' = convertMatch <$> hrule_Matches r) routes counter) as H1.
  destruct (convertRoutesGeneric rv _ routes counter) as [httpCfg version].
  destruct H1 as (Hv & Hv1 & _ & outs1 & Houts1 & Hr1 & _).
  { intros route r cert Hroute Hr s. by apply (convertHTTPRouteRule_spec rv r). }
  pose proof (convertRoutesGeneric_spec rv (mkRouteKindView _ kindGRPCRoute (convertGRPCRouteRule rv))
    (fun _ r r' => admitted_grpc_rule r -> sound_rule r') grpcRoutes version) as H2.
  destruct (convertRoutesGeneric rv _ grpcRoutes version) as [grpcCfg version'].
  destruct H2 as (Hv' & Hv2 & _ & outs2 & Houts2 & Hr2 & _).
  { intros route r cert Hroute Hr s. by apply (convertGRPCRouteRule_spec rv r). }
  rewrite int64_id in Hv by (unfold is_int64, MaxInt64 in *; lia).
  rewrite int64_id in Hv' by (unfold is_int64, MaxInt64 in *; lia).
  split.
  - intros [_ Hvalid]%Validate_spec route r m p Hroute Hr Hm.
    destruct (converted_rules_some _ _ _ _ _ _ Houts1 Hroute Hr) as (r' & Hr' & _ & Hmr).
    assert (Hin : rule_Matches r' ∈ cfg_matches httpCfg) by (apply list_elem_of_fmap_2; by rewrite Hr1).
    eapply valid_rules_matches; [exact Hvalid|exact Hin|]. rewrite Hmr. by apply list_elem_of_fmap_2.
  - intros Hpaths. apply sound_config_valid, finish_sound; [done|..]; (split; [lia|]).
    + rewrite Hr1. eapply converted_rules_all; [exact Houts1|]. intros route r r' Hroute Hr [HP _].
      apply HP; [by eapply Hh|]. intros m p. by eapply Hpaths.
    + rewrite Hr2. eapply converted_rules_all; [exact Houts2|]. intros route r r' Hroute Hr HP. by eapply HP, Hg.
Qed.

(** A positive weight in the spec is a positive weight in the configuration. *)
Lemma converted_weights {B} rv cert (ref : B -> GwBackendRef) unfiltered ns backends os :
  Forall2 (fun b o => ref_converted rv cert (ref b) (unfiltered b) ns o) backends os ->
  List.filter (fun w => (0 <? w)%Z) (be_Weight <$> omap id os) =
  List.filter (fun w => (0 <? w)%Z) ((fun b => ref_weight (ref b)) <$> backends).
Proof.
  induction 1 as [|x o backends os Ho Hos IH]; [done|]. rewrite (fmap_cons (fun b => ref_weight (ref b))).
  cbn [List.filter].
  destruct o as [b|].
  - change (omap id (Some b :: os)) with (b :: omap id os). rewrite fmap_cons. cbn [List.filter].
    destruct Ho as [[-> _] _ _ _ _ _ _]. by rewrite IH.
  - change (omap id (None :: os)) with (omap id os). cbn in Ho.
    rewrite (proj2 (Z.ltb_ge 0 (ref_weight (ref x)))) by done. exact IH.
Qed.

Lemma converted_nonneg {B} rv cert (ref : B -> GwBackendRef) unfiltered ns backends os b :
  Forall2 (fun b o => ref_converted rv cert (ref b) (unfiltered b) ns o) backends os ->
  b ∈ omap id os -> (0 <= be_Weight b)%Z.
Proof.
  intros H (o & Ho & Heq)%list_elem_of_omap. simpl in Heq. subst o.
  apply list_elem_of_lookup in Ho as [k Hk]. destruct (Forall2_lookup_r _ _ _ _ _ H Hk) as (x & _ & Hx).
  by destruct Hx as [[-> ?] _ _ _ _ _ _].
Qed.

(** Traffic fractions survive conversion.  For both route kinds the positive
    weights of the emitted backends are, in order, exactly the positive weights
    of the rule's references (an invalid reference keeps its share and answers
    500 instead of handing it to its siblings), and no emitted weight is
    negative. *)
Theorem conversion_keeps_fractions {durations : DurationParser} (rv : Resolvers) (rule : HTTPRouteRule)
    (grule : GRPCRouteRule) (hostnames : list string) (ns : string) (cert : option ClientCertConfig) (s : diagSink) :
  let r := (convertHTTPRouteRule rv rule hostnames ns cert s).1 in
  let g := (convertGRPCRouteRule rv grule hostnames ns cert s).1 in
  let positive := List.filter (fun w => (0 <? w)%Z) in
  positive (be_Weight <$> rule_Backends r) = positive ((fun b => ref_weight (hb_Ref b)) <$> hrule_BackendRefs rule) /\
  positive (be_Weight <$> rule_Backends g) = positive ((fun b => ref_weight (gbr_Ref b)) <$> grule_BackendRefs grule) /\
  forall b, b ∈ rule_Backends r ++ rule_Backends g -> (0 <= be_Weight b)%Z.
Proof.
  destruct (convertHTTPRouteRule_spec rv rule hostnames ns cert s) as [(os & Hos & Hr) _].
  destruct (convertGRPCRouteRule_spec rv grule hostnames ns cert s) as [(gos & Hgos & Hg) _].
  cbv zeta. rewrite Hr, Hg. split_and!.
  - by apply (converted_weights _ _ _ _ _ _ _ Hos).
  - by apply (converted_weights _ _ _ _ _ _ _ Hgos).
  - intros b [Hb|Hb]%elem_of_app; [exact (converted_nonneg _ _ _ _ _ _ _ _ Hos Hb)|exact (converted_nonneg _ _ _ _ _ _ _ _ Hgos Hb)].
Qed.

(** What conversion makes of one reference of a rule. *)
Definition reference_fails_closed (rv : Resolvers) (cert : option ClientCertConfig) (ns : string) (ref : GwBackendRef)
    (unfiltered : Prop) (o : option BackendRef) : Prop :=
  match o with
  | None => (ref_weight ref <= 0)%Z
  | Some b =>
      be_Weight b = ref_weight ref /\
      (be_UnavailableStatus b = 0%Z -> ref_dialable rv ref ns) /\
      (unfiltered -> ref_dialable rv ref ns -> be_UnavailableStatus b = 0%Z) /\
      (ref_in_cluster rv ref ns -> be_TLS b = attachGatewayClientCert (ref_policy rv ref ns) cert) /\
      (~ ref_in_cluster rv ref ns -> be_TLS b = None) /\
      (be_TLS b <> None -> HasPrefix (be_URL b) "https://" = true /\ be_Protocol b <> BackendProtocolH2C)
  end.
Lemma converted_fails_closed rv cert ns ref unfiltered o :
  ref_converted rv cert ref unfiltered ns o -> reference_fails_closed rv cert ns ref unfiltered o.
Proof.
  destruct o as [b|]; [|done]. intros [[Hw _] _ _ [Hd1 Hd2] Hp Hn Ht]. split_and!; try done.
  intros H. by destruct (Ht H) as [? ->].
Qed.

(** C38: Conversion is fail-closed, reference by reference.  For both route kinds
    the emitted backends are, in order, those of the rule's references; only one
    without traffic is left out.  A backend may be dialed (status 0) only when its
    own reference is an authorized ExternalBackend, or an authorized Service or
    ServiceImport on a valid port that has a TLS policy if it declares a TLS
    protocol; without filters on the reference this is exactly when it may.  Its
    TLS configuration is exactly the policy the resolver holds for the
    reference's namespace, name and port (with the Gateway's client
    certificate), and then its address is https and not cleartext HTTP/2. *)
Theorem conversion_fails_closed {durations : DurationParser} (rv : Resolvers) (rule : HTTPRouteRule)
    (grule : GRPCRouteRule) (hostnames : list string) (ns : string) (cert : option ClientCertConfig) (s : diagSink) :
  (exists os, rule_Backends (convertHTTPRouteRule rv rule hostnames ns cert s).1 = omap id os /\
     Forall2 (fun b o => reference_fails_closed rv cert ns (hb_Ref b) (hb_Filters b = []) o)
       (hrule_BackendRefs rule) os) /\
  (exists os, rule_Backends (convertGRPCRouteRule rv grule hostnames ns cert s).1 = omap id os /\
     Forall2 (fun b o => reference_fails_closed rv cert ns (gbr_Ref b) (gbr_Filters b = []) o)
       (grule_BackendRefs grule) os).
Proof.
  destruct (convertHTTPRouteRule_spec rv rule hostnames ns cert s) as [(os & Hos & Hr) _].
  destruct (convertGRPCRouteRule_spec rv grule hostnames ns cert s) as [(gos & Hgos & Hg) _].
  split; [exists os|exists gos]; (split; [done|]); (eapply Forall2_impl; [eassumption|]); intros b o;
    apply converted_fails_closed.
Qed.

(** Conversion is deterministic.  Routes listed in another order convert to the
    same configuration (routes are identified by namespace and name), and the
    provenance runs parallel to the rules, which shadow detection relies on. *)
Theorem conversion_deterministic {durations : DurationParser} (rv : Resolvers)
    (routes routes' : list (RouteObject HTTPRouteRule)) (grpcRoutes grpcRoutes' : list (RouteObject GRPCRouteRule))
    (counter : Z) :
  NoDup ((fun r => (ro_Namespace r, ro_Name r)) <$> routes) -> routes ≡ₚ routes' ->
  NoDup ((fun r => (ro_Namespace r, ro_Name r)) <$> grpcRoutes) -> grpcRoutes ≡ₚ grpcRoutes' ->
  ConvertHTTPRoutes rv routes counter = ConvertHTTPRoutes rv routes' counter /\
  ConvertGRPCRoutes rv grpcRoutes counter = ConvertGRPCRoutes rv grpcRoutes' counter /\
  length (cfg_Provenance (ConvertHTTPRoutes rv routes counter).1) =
    length (cfg_Rules (ConvertHTTPRoutes rv routes counter).1) /\
  length (cfg_Provenance (ConvertGRPCRoutes rv grpcRoutes counter).1) =
    length (cfg_Rules (ConvertGRPCRoutes rv grpcRoutes counter).1).
Proof.
  intros Hnd Hp Hnd' Hp'. unfold ConvertHTTPRoutes, ConvertGRPCRoutes, convertRoutesGeneric.
  rewrite (sortRoutes_deterministic routes routes') by done.
  rewrite (sortRoutes_deterministic grpcRoutes grpcRoutes') by done. split_and!; [done|done|..];
    destruct (sink_map _ _ _) as [rules sink]; simpl; by rewrite !length_fmap.
Qed.

(** ** Examples *)

Definition no_durations : DurationParser := fun _ => Err "time: invalid duration".
(** A TLS policy on one Service, a TLS protocol on another, no cross-namespace grants. *)
Definition example_resolvers : Resolvers :=
  mkResolvers "cluster.local" (Some (fun _ _ => false))
    (Some (fun _ name _ => if bool_decide (name = "secure") then "https" else ""))
    (Some (fun _ name _ => if bool_decide (name = "policed")
             then Some (mkBackendTLSConfig "CA" "policed" [] [] "" "") else None)) None.
Definition service_ref (name : string) (ns : option string) (weight : Z) : GwBackendRef :=
  mkGwBackendRef None None name ns (Some 8443%Z) (Some weight).
Definition example_rule : HTTPRouteRule :=
  mkHTTPRouteRule [mkHTTPRouteMatch (Some (mkHTTPPathMatch (Some "Exact") (Some "/a"))) [] [] None]
    [mkHTTPRouteFilter "ExtensionRef" None None None None None None]
    [mkHTTPBackendRef (service_ref "policed" None 2) []; mkHTTPBackendRef (service_ref "secure" None 3) [];
     mkHTTPBackendRef (service_ref "other" (Some "foreign") 5) []] None.
Definition example_grule : GRPCRouteRule :=
  mkGRPCRouteRule [mkGRPCRouteMatch (Some (mkGRPCMethod None (Some "echo.v1.Echo") None)) []] []
    [mkGRPCBackendRef (service_ref "grpc" None 1) []].
Definition example_route (name : string) (created : Z) : RouteObject HTTPRouteRule :=
  mkRouteObject "prod" name created ["a.example.com"] [] [example_rule].
Definition example_groute : RouteObject GRPCRouteRule :=
  mkRouteObject "prod" "rpc" 5 [] [] [example_grule].
Definition empty_sink : diagSink := mkDiagSink "" "" 0 [].

Example example_conversion :
  let cfg := (@ConvertHTTPRoutes no_durations example_resolvers [example_route "web" 1] 41).1 in
  ((fun r => (rule_UnavailableStatus r, (fun b => (be_URL b, be_Weight b, be_UnavailableStatus b)) <$> rule_Backends r))
     <$> cfg_Rules cfg, (diag_Reason <$> cfg_Diagnostics cfg), cfg_Version cfg) =
  ([(500%Z, [("https://policed.prod.svc.cluster.local:8443", 2%Z, 0%Z);
             ("http://secure.prod.svc.cluster.local:8443", 3%Z, 502%Z);
             ("http://other.foreign.svc.cluster.local:8443", 5%Z, 500%Z)])],
   ["UnsupportedValue"; "UnsupportedProtocol"], 42%Z).
Proof. vm_compute. reflexivity. Qed.

Definition empty_cluster : ServiceReader := mkServiceReader (fun _ _ => None) (fun _ _ => None) (fun _ _ => None).

Lemma pushed_config_valid_witness :
  Validate (@build_config no_durations authority_url stable_func example_resolvers empty_cluster
    [example_route "web" 1] [example_groute] 41 [] [] [] []) = Ok tt.
Proof.
  apply (@pushed_config_valid no_durations authority_url stable_func example_resolvers empty_cluster
    [example_route "web" 1] [example_groute] 41 [] [] [] []).
  - unfold MaxInt64. lia.
  - intros route r ->%list_elem_of_singleton ->%list_elem_of_singleton. split.
    + intros m ->%list_elem_of_singleton. split; [|split; by intros ? ?%elem_of_nil].
      intros p [= <-]. exists "/a". split; [done|by right].
    + intros f ->%list_elem_of_singleton. by intros c.
    + intros b Hb. repeat (apply elem_of_cons in Hb as [->|Hb]; [split; [intros w [= <-]; unfold is_int32, MaxInt32; lia
        |by intros f ?%elem_of_nil]|]). by apply elem_of_nil in Hb.
  - intros route r ->%list_elem_of_singleton ->%list_elem_of_singleton. split.
    + intros m h ->%list_elem_of_singleton. by intros ?%elem_of_nil.
    + intros b ->%list_elem_of_singleton w [= <-]. unfold is_int32, MaxInt32. lia.
  - intros svc ns name port. unfold resolveHeadlessEndpoints. simpl.
    destruct (serviceTargetPort _ _). unfold MaxInt32. simpl. lia.
  - by intros route r m p ->%list_elem_of_singleton ->%list_elem_of_singleton ->%list_elem_of_singleton [= <-].
Defined.

(** A route the CRDs admit whose only match is the empty regular expression. *)
Definition regex_route : RouteObject HTTPRouteRule :=
  mkRouteObject "prod" "web" 1 [] []
    [mkHTTPRouteRule [mkHTTPRouteMatch (Some (mkHTTPPathMatch (Some "RegularExpression") (Some ""))) [] [] None] [] []
       None].
Lemma empty_regex_path_refused :
  (forall r, r ∈ ro_Rules regex_route -> admitted_http_rule r) /\
  Validate (@build_config no_durations authority_url stable_func example_resolvers empty_cluster
    [regex_route] [] 41 [] [] [] []) <> Ok tt /\
  Validate (@build_config no_durations authority_url stable_func example_resolvers empty_cluster
    [example_route "api" 1; regex_route] [] 41 [] [] [] []) <> Ok tt.
Proof.
  split; [|split; vm_compute; discriminate]. intros r ->%list_elem_of_singleton. split.
  - intros m ->%list_elem_of_singleton. split; [|split; by intros ? ?%elem_of_nil].
    intros p [= <-]. exists "". split; [done|by left].
  - by intros f ?%elem_of_nil.
  - by intros f ?%elem_of_nil.
Qed.

Lemma conversion_deterministic_witness :
  @ConvertHTTPRoutes no_durations example_resolvers [example_route "web" 1; example_route "api" 1] 41 =
  @ConvertHTTPRoutes no_durations example_resolvers [example_route "api" 1; example_route "web" 1] 41.
Proof.
  destruct (@conversion_deterministic no_durations example_resolvers
    [example_route "web" 1; example_route "api" 1] [example_route "api" 1; example_route "web" 1] [] [] 41)
    as (H & _).
  - refine (bool_decide_unpack _ _). vm_compute. exact I.
  - apply perm_swap.
  - constructor.
  - constructor.
  - exact H.
Defined.

(** An unsupported filter on a gRPC backend is reported as HTTP 500, but a TLS
    protocol without a policy on the same backend answers 502; on an HTTPRoute
    the same two problems answer 500. *)
Lemma grpc_filter_status_overwritten :
  let http := @convertBackendRef example_resolvers
    (mkHTTPBackendRef (service_ref "secure" None 1) [mkHTTPRouteFilter "ExtensionRef" None None None None None None])
    "prod" None empty_sink in
  let grpc := @convertGRPCBackendRef example_resolvers
    (mkGRPCBackendRef (service_ref "secure" None 1) [mkGRPCRouteFilter "ExtensionRef" None None]) "prod" None empty_sink in
  be_UnavailableStatus <$> http.1 = Some 500%Z /\ be_UnavailableStatus <$> grpc.1 = Some 502%Z.
Proof. split; vm_compute; reflexivity. Qed.
