(* ===== verification/HeaderTimeout.v ===== *)
(** * The header deadline of h2c backends ([proxy/headertimeout.go])

    One call of [headerTimeoutRoundTripper.RoundTrip] as three threads that
    interleave: the caller's goroutine, the [time.AfterFunc] callback, and the
    surroundings (the clock, the inner transport, the client, the reader of the
    body).  A thread's program counter names the statement it executes next;
    every statement on shared state is one step. *)
From stdpp Require Import base relations strings list.
From S2P Require Import Prelude.

(** ** Round trippers *)

Inductive RoundTripper :=
| innerTransport (name : string) (closesIdle : bool)
| headerTimeoutRoundTripper (inner : RoundTripper) (timeout : Z).

Definition newHeaderTimeoutRoundTripper (inner : RoundTripper) (timeout : Z) : RoundTripper :=
  if (timeout <=? 0)%Z then inner else headerTimeoutRoundTripper inner timeout.

(** The transports that are told to drop their idle connections. *)
Fixpoint CloseIdleConnections (rt : RoundTripper) : list string :=
  match rt with
  | innerTransport name closesIdle => if closesIdle then [name] else []
  | headerTimeoutRoundTripper inner _ => CloseIdleConnections inner
  end.

(** ** The state of one call *)

Inductive InnerResult := innerResponse | innerError (err : string) | innerPanic.

(** What the caller gets: the response with the wrapped body, the error that
    wraps [context.DeadlineExceeded], the inner error, or the inner panic. *)
Inductive Outcome := Response | DeadlineExceeded (timeout : Z) | TransportError (err : string) | Panicked.

Inductive Main :=
| awaitInner                                        (* resp, err := h.inner.RoundTrip(...) *)
| atStop (r : InnerResult)                          (* if timer.Stop() *)
| atSettle (r : InnerResult)                        (* settleOnce.Do(settle) *)
| atWait (r : InnerResult)                          (* <-timerDone *)
| atDecide (r : InnerResult)                        (* the reads of err and timerFired *)
| deferCancel (o : Outcome) (transferred : bool)    (* defer: if !transferred { cancel() } *)
| deferStop (o : Outcome)                           (* defer: if timer.Stop() *)
| deferSettle (o : Outcome)                         (* defer: settleOnce.Do(settle) *)
| returned (o : Outcome).

Inductive Timer := armed | storing | cancelling | settling | finished | stopped.

Record Call := mkCall {
  ht_now : Z;                       (* time since AfterFunc *)
  ht_main : Main;
  ht_timer : Timer;
  ht_inner : option InnerResult;    (* what the inner transport returned *)
  ht_timerFired : bool;
  ht_cancelled : bool;              (* cancel() was called *)
  ht_parentDone : bool;             (* the request's own context ended *)
  ht_settleOnce : bool;
  ht_timerDone : nat;               (* how often the channel was closed *)
  ht_discarded : bool;              (* resp.Body.Close() of a late response *)
  ht_bodyClosed : bool;             (* headerTimeoutBody.Close() *)
}.
Definition start : Call := mkCall 0 awaitInner armed None false false false false 0 false false.

(** The context of the outgoing request has ended. *)
Definition ctx_done (c : Call) : bool := ht_cancelled c || ht_parentDone c.

Definition set_main (m : Main) (c : Call) : Call :=
  mkCall (ht_now c) m (ht_timer c) (ht_inner c) (ht_timerFired c) (ht_cancelled c) (ht_parentDone c)
    (ht_settleOnce c) (ht_timerDone c) (ht_discarded c) (ht_bodyClosed c).
Definition set_timer (t : Timer) (c : Call) : Call :=
  mkCall (ht_now c) (ht_main c) t (ht_inner c) (ht_timerFired c) (ht_cancelled c) (ht_parentDone c)
    (ht_settleOnce c) (ht_timerDone c) (ht_discarded c) (ht_bodyClosed c).
Definition set_fired (c : Call) : Call :=
  mkCall (ht_now c) (ht_main c) (ht_timer c) (ht_inner c) true (ht_cancelled c) (ht_parentDone c)
    (ht_settleOnce c) (ht_timerDone c) (ht_discarded c) (ht_bodyClosed c).
Definition cancel (c : Call) : Call :=
  mkCall (ht_now c) (ht_main c) (ht_timer c) (ht_inner c) (ht_timerFired c) true (ht_parentDone c)
    (ht_settleOnce c) (ht_timerDone c) (ht_discarded c) (ht_bodyClosed c).
(** [settleOnce.Do(settle)] *)
Definition settle (c : Call) : Call :=
  if ht_settleOnce c then c
  else mkCall (ht_now c) (ht_main c) (ht_timer c) (ht_inner c) (ht_timerFired c) (ht_cancelled c)
         (ht_parentDone c) true (S (ht_timerDone c)) (ht_discarded c) (ht_bodyClosed c).
Definition discard (c : Call) : Call :=
  mkCall (ht_now c) (ht_main c) (ht_timer c) (ht_inner c) (ht_timerFired c) (ht_cancelled c)
    (ht_parentDone c) (ht_settleOnce c) (ht_timerDone c) true (ht_bodyClosed c).
(** [timer.Stop()]: true when the callback had not started. *)
Definition Stop (c : Call) : bool * Call :=
  match ht_timer c with armed => (true, set_timer stopped c) | _ => (false, c) end.

Section call.
Context (timeout : Z).

(** ** The caller's goroutine *)

(** From the return of the inner transport to the end of the deferred function;
    [None] when the goroutine is blocked or has returned. *)
Definition main_step (c : Call) : option Call :=
  match ht_main c with
  | awaitInner => None
  | atStop r =>
      let '(stop, c) := Stop c in
      Some (set_main (if stop then atSettle r else atWait r) c)
  | atSettle r => Some (set_main (atWait r) (settle c))
  | atWait r => if ht_timerDone c =? 0 then None else Some (set_main (atDecide r) c)
  | atDecide innerResponse =>
      if ht_timerFired c then Some (set_main (deferCancel (DeadlineExceeded timeout) false) (discard c))
      else Some (set_main (deferCancel Response true) c)
  | atDecide (innerError err) =>
      if ht_timerFired c then Some (set_main (deferCancel (DeadlineExceeded timeout) false) c)
      else Some (set_main (deferCancel (TransportError err) false) c)
  | atDecide innerPanic => None
  | deferCancel o transferred => Some (set_main (deferStop o) (if transferred then c else cancel c))
  | deferStop o =>
      let '(stop, c) := Stop c in
      Some (set_main (if stop then deferSettle o else returned o) c)
  | deferSettle o => Some (set_main (returned o) (settle c))
  | returned _ => None
  end.

(** ** The timer *)

(** The callback's statements, once it has started. *)
Definition callback_step (c : Call) : option Call :=
  match ht_timer c with
  | storing => Some (set_timer cancelling (set_fired c))
  | cancelling => Some (set_timer settling (cancel c))
  | settling => Some (set_timer finished (settle c))
  | armed | finished | stopped => None
  end.

(** ** Everything else *)

Definition inner_returns (r : InnerResult) (c : Call) : Call :=
  mkCall (ht_now c)
    (match r with innerPanic => deferCancel Panicked false | _ => atStop r end)
    (ht_timer c) (Some r) (ht_timerFired c) (ht_cancelled c) (ht_parentDone c)
    (ht_settleOnce c) (ht_timerDone c) (ht_discarded c) (ht_bodyClosed c).
Definition tick (c : Call) : Call :=
  mkCall (ht_now c + 1) (ht_main c) (ht_timer c) (ht_inner c) (ht_timerFired c) (ht_cancelled c)
    (ht_parentDone c) (ht_settleOnce c) (ht_timerDone c) (ht_discarded c) (ht_bodyClosed c).
Definition parent_ends (c : Call) : Call :=
  mkCall (ht_now c) (ht_main c) (ht_timer c) (ht_inner c) (ht_timerFired c) (ht_cancelled c)
    true (ht_settleOnce c) (ht_timerDone c) (ht_discarded c) (ht_bodyClosed c).
(** [headerTimeoutBody.Close] *)
Definition body_Close (c : Call) : Call :=
  cancel (mkCall (ht_now c) (ht_main c) (ht_timer c) (ht_inner c) (ht_timerFired c) (ht_cancelled c)
            (ht_parentDone c) (ht_settleOnce c) (ht_timerDone c) (ht_discarded c) true).

(** Steps of the two goroutines. *)
Inductive internal : Call -> Call -> Prop :=
| internal_main c c' : main_step c = Some c' -> internal c c'
| internal_callback c c' : callback_step c = Some c' -> internal c c'.

Inductive step : Call -> Call -> Prop :=
| step_internal c c' : internal c c' -> step c c'
| step_fire c : ht_timer c = armed -> (timeout <= ht_now c)%Z -> step c (set_timer storing c)
| step_tick c : step c (tick c)
| step_inner c r : ht_main c = awaitInner -> step c (inner_returns r c)
| step_parent c : step c (parent_ends c)
| step_close c : ht_main c = returned Response -> step c (body_Close c).

Definition reachable (c : Call) : Prop := rtc step start c.

(** ** The invariant *)

Definition callback_started (t : Timer) : bool := match t with armed | stopped => false | _ => true end.
Definition has_fired (t : Timer) : bool :=
  match t with cancelling | settling | finished => true | _ => false end.
(** What the main goroutine's position says about the timer and the outcome. *)
Definition outcome_inv (o : Outcome) (c : Call) : Prop :=
  match o with
  | Response => ht_inner c = Some innerResponse /\ ht_timer c = stopped /\ ht_timerDone c = 1
  | DeadlineExceeded t =>
      t = timeout /\ ht_timer c = finished /\
      exists r, ht_inner c = Some r /\ r <> innerPanic /\ (ht_discarded c = true <-> r = innerResponse)
  | TransportError err => ht_inner c = Some (innerError err) /\ ht_timer c = stopped /\ ht_timerDone c = 1
  | Panicked => ht_inner c = Some innerPanic
  end.
Definition main_inv (c : Call) : Prop :=
  match ht_main c with
  | awaitInner => ht_inner c = None /\ ht_timer c <> stopped /\ ht_discarded c = false
  | atStop r => ht_inner c = Some r /\ r <> innerPanic /\ ht_timer c <> stopped /\ ht_discarded c = false
  | atSettle r => ht_inner c = Some r /\ r <> innerPanic /\ ht_timer c = stopped /\ ht_discarded c = false
  | atWait r =>
      ht_inner c = Some r /\ r <> innerPanic /\ ht_timer c <> armed /\
      (ht_timer c = stopped -> ht_timerDone c = 1) /\ ht_discarded c = false
  | atDecide r => ht_inner c = Some r /\ r <> innerPanic /\ ht_timerDone c = 1 /\ ht_discarded c = false
  | deferCancel o transferred =>
      outcome_inv o c /\ (transferred = true <-> o = Response) /\ (o = Panicked -> ht_timer c <> stopped)
  | deferStop o => outcome_inv o c /\ (o = Panicked -> ht_timer c <> stopped) /\ (o <> Response -> ht_cancelled c = true)
  | deferSettle o => outcome_inv o c /\ o = Panicked /\ ht_timer c = stopped /\ ht_cancelled c = true
  | returned o =>
      outcome_inv o c /\ ht_timer c <> armed /\ (ht_timer c = stopped -> ht_timerDone c = 1) /\
      (o <> Response -> ht_cancelled c = true) /\ (ht_bodyClosed c = true -> ht_cancelled c = true)
  end.
(** Who may have cancelled the context. *)
Definition past_cancel (m : Main) : Prop :=
  match m with deferStop o | deferSettle o | returned o => o <> Response | _ => False end.
Definition call_inv (c : Call) : Prop :=
  main_inv c /\
  (ht_timerFired c = has_fired (ht_timer c)) /\
  (callback_started (ht_timer c) = true -> (timeout <= ht_now c)%Z) /\
  (ht_timerDone c = if ht_settleOnce c then 1 else 0) /\
  (ht_timerDone c = 1 -> ht_timer c = finished \/ ht_timer c = stopped) /\
  (ht_timer c = finished -> ht_timerDone c = 1) /\
  (ht_cancelled c = true ->
     ht_timer c = settling \/ ht_timer c = finished \/ past_cancel (ht_main c) \/ ht_bodyClosed c = true) /\
  (ht_bodyClosed c = true -> ht_main c = returned Response).

(** Case analysis on a state whose threads' positions are known. *)
Ltac call_cases :=
  repeat match goal with
  | H : _ /\ _ |- _ => destruct H
  | H : exists _, _ |- _ => destruct H
  end;
  simplify_eq/=; split_and!; try done; try (intros; simplify_eq/=; first [done|intuition congruence]).

Lemma start_inv : call_inv start.
Proof. unfold call_inv, main_inv; simpl. call_cases. Qed.

Lemma main_step_inv c c' : main_step c = Some c' -> call_inv c -> call_inv c'.
Proof.
  destruct c as [now m t inner f ca p so td d b]. unfold main_step, Stop, settle, call_inv, main_inv.
  destruct m as [|r|r|r|r|o tr|o|o|o]; cbn; intros Hs Hi; try done.
  - destruct t; simplify_eq/=; call_cases.
  - destruct so; simplify_eq/=; call_cases.
  - destruct so; destruct td; simplify_eq/=; call_cases.
  - destruct r; [destruct f|destruct f|]; simplify_eq/=; unfold outcome_inv; simpl; destruct t; call_cases.
    all: eexists; split_and!; done.
  - destruct tr; simplify_eq/=; unfold outcome_inv in *; destruct o; simpl in *; call_cases.
    all: eexists; split_and!; done.
  - destruct t; simplify_eq/=; unfold outcome_inv in *; destruct o; simpl in *; call_cases.
    all: eexists; split_and!; done.
  - destruct so; simplify_eq/=; unfold outcome_inv in *; destruct o; simpl in *; call_cases.
    all: eexists; split_and!; done.
Qed.

Lemma callback_step_inv c c' : callback_step c = Some c' -> call_inv c -> call_inv c'.
Proof.
  destruct c as [now m t inner f ca p so td d b]. unfold callback_step, settle, call_inv, main_inv.
  destruct t; cbn; intros Hs Hi; try done; destruct so; simplify_eq/=;
    destruct m as [|r|r|r|r|[] tr|[]|[]|[]]; unfold outcome_inv in *; simpl in *; call_cases.
Qed.

Lemma call_step_inv c c' : step c c' -> call_inv c -> call_inv c'.
Proof.
  destruct 1 as [c c' []|c Ht Hnow|c|c r Hm|c|c Hm]; [by eapply main_step_inv|by eapply callback_step_inv|..];
    destruct c as [now m t inner f ca p so td d b]; unfold call_inv, main_inv; cbn in *; intros Hi; subst.
  - destruct m as [|r|r|r|r|[] tr|[]|[]|[]]; unfold outcome_inv in *; simpl in *; destruct so; call_cases.
  - destruct m; call_cases; intros; eapply Z.le_trans; eauto; lia.
  - destruct r; destruct t; call_cases.
  - done.
  - call_cases.
Qed.
Lemma call_reachable_inv c : reachable c -> call_inv c.
Proof.
  unfold reachable. generalize start_inv. intros H0 H. revert H0. induction H; eauto using call_step_inv.
Qed.

(** ** The two goroutines come to an end *)

Definition main_rank (m : Main) : nat :=
  match m with
  | awaitInner => 8 | atStop _ => 7 | atSettle _ => 6 | atWait _ => 5 | atDecide _ => 4
  | deferCancel _ _ => 3 | deferStop _ => 2 | deferSettle _ => 1 | returned _ => 0
  end.
Definition timer_rank (t : Timer) : nat :=
  match t with storing => 3 | cancelling => 2 | settling => 1 | armed | finished | stopped => 0 end.
Definition rank (c : Call) : nat := main_rank (ht_main c) + timer_rank (ht_timer c).

Lemma internal_rank c c' : internal c c' -> rank c' < rank c.
Proof.
  destruct 1 as [c c' H|c c' H]; revert H; destruct c as [now m t inner f ca p so td d b];
    unfold main_step, callback_step, Stop, settle, rank.
  - destruct m as [|r|r|r|[| |]|o tr| | |], t, so; simpl; try done;
      try destruct td; try destruct f; try destruct tr; intros; simplify_eq/=; lia.
  - destruct t, so; simpl; try done; intros; simplify_eq/=; lia.
Qed.
Lemma internal_run n c c' : nsteps internal n c c' -> n + rank c' <= rank c.
Proof. induction 1 as [|n c c1 c2 Hs _ IH]; [lia|]. apply internal_rank in Hs. lia. Qed.

Lemma internal_progress c :
  call_inv c -> ht_inner c <> None -> (exists o, ht_main c = returned o) \/ exists c', internal c c'.
Proof.
  destruct c as [now m t inner f ca p so td d b].
  unfold call_inv, main_inv; cbn. intros Hi Hin.
  destruct m as [|r|r|r|r|o tr|o|o|o]; [naive_solver|right..|by left; exists o].
  - destruct t; eexists; apply internal_main; reflexivity.
  - eexists; apply internal_main; reflexivity.
  - destruct td as [|td]; [|eexists; apply internal_main; reflexivity].
    destruct t; try (eexists; apply internal_callback; reflexivity); naive_solver.
  - destruct r; [destruct f|destruct f|naive_solver]; eexists; apply internal_main; reflexivity.
  - eexists; apply internal_main; reflexivity.
  - destruct t; eexists; apply internal_main; reflexivity.
  - eexists; apply internal_main; reflexivity.
Qed.

Lemma internal_steps_inv n c c' :
  nsteps internal n c c' -> call_inv c -> ht_inner c <> None -> call_inv c' /\ ht_inner c' <> None.
Proof.
  induction 1 as [|n c c1 c2 Hs _ IH]; [done|]. intros Hi Hin. apply IH.
  - by apply (call_step_inv c); [by apply step_internal|].
  - clear Hi IH. destruct Hs as [c c1 H|c c1 H]; revert H Hin; destruct c as [now m t inner f ca p so td d b];
      unfold main_step, callback_step, Stop, settle.
    + destruct m as [|r|r|r|[| |]|o tr| | |], t, so; simpl; try done;
        try destruct td; try destruct f; try destruct tr; intros; by simplify_eq/=.
    + destruct t, so; simpl; try done; intros; by simplify_eq/=.
Qed.

End call.

(** C11: The header deadline settles its race.  Whatever the order in which the
    timer, the inner transport, the client and the reader act, a call that
    returned a response has a live context, which ends only with the client's
    own context or when the body is closed, never by the timer, however late; it
    returns the deadline error only after the timeout elapsed, with the context
    released and a late response's body closed; every other error is the inner
    transport's, with the timer stopped before it fired.  The done channel is
    closed at most once and the context is released on every path. *)
Theorem header_timeout_settled (timeout : Z) (c : Call) (o : Outcome) :
  reachable timeout c -> ht_main c = returned o ->
  ht_timerDone c <= 1 /\
  match o with
  | Response =>
      ht_inner c = Some innerResponse /\ ht_timerFired c = false /\
      (ctx_done c = true <-> ht_parentDone c = true \/ ht_bodyClosed c = true)
  | DeadlineExceeded t =>
      t = timeout /\ (timeout <= ht_now c)%Z /\ ctx_done c = true /\
      (ht_discarded c = true <-> ht_inner c = Some innerResponse)
  | TransportError err =>
      ht_inner c = Some (innerError err) /\ ht_timerFired c = false /\ ctx_done c = true
  | Panicked => ht_inner c = Some innerPanic /\ ctx_done c = true
  end.
Proof.
  intros Hr Hm. apply call_reachable_inv in Hr.
  destruct c as [now m t inner f ca p so td d b]. unfold call_inv, main_inv, ctx_done in *. simpl in *. subst m.
  destruct Hr as ((Ho & Hna & Hst & Hca & Hbc) & -> & Hnow & -> & Hfin & Hfin' & Hwho & Hcl).
  split; [destruct so; lia|]. destruct o; simpl in *.
  - destruct Ho as (-> & -> & _). split_and!; try done. destruct ca, p; simpl; intuition congruence.
  - destruct Ho as (-> & -> & r & -> & Hr & Hd). split_and!; [done|by apply Hnow|by rewrite Hca|].
    rewrite Hd. split; congruence.
  - destruct Ho as (-> & -> & _). by rewrite Hca.
  - by rewrite Hca.
Qed.

(** A response that arrives while the timer fires. *)
Definition late_response : Call :=
  mkCall 1 (returned (DeadlineExceeded 1)) finished (Some innerResponse) true true false true 1 true false.
Ltac call_step tac := eapply rtc_l; [tac; done|cbn].
Lemma late_response_reachable : reachable 1 late_response.
Proof.
  unfold reachable, start.
  call_step ltac:(apply step_tick). call_step ltac:(apply step_fire).
  call_step ltac:(apply (step_inner _ _ innerResponse)).
  call_step ltac:(apply step_internal, internal_main; reflexivity).
  do 3 call_step ltac:(apply step_internal, internal_callback; reflexivity).
  do 4 call_step ltac:(apply step_internal, internal_main; reflexivity).
  apply rtc_refl.
Defined.
Lemma header_timeout_settled_witness :
  ht_main late_response = returned (DeadlineExceeded 1) /\
  (ht_discarded late_response = true <-> ht_inner late_response = Some innerResponse).
Proof.
  split; [reflexivity|].
  exact (proj2 (proj2 (proj2 (proj2
    (header_timeout_settled 1 late_response (DeadlineExceeded 1) late_response_reachable eq_refl))))).
Defined.

(** C39: Once the inner transport has returned (or panicked), the call returns:
    the caller's goroutine and the timer callback take at most ten more steps in
    any order, and until the call has returned one of them can take a step, so
    no schedule of the two blocks on the done channel for ever. *)
Theorem header_timeout_returns (timeout : Z) (c : Call) :
  reachable timeout c -> ht_inner c <> None ->
  forall n c', nsteps (internal timeout) n c c' ->
    n <= 10 /\ ((exists o, ht_main c' = returned o) \/ exists c'', internal timeout c' c'').
Proof.
  intros Hr Hin n c' Hn. apply call_reachable_inv in Hr.
  destruct (internal_steps_inv timeout n c c' Hn Hr Hin) as [Hi' Hin']. split.
  - apply internal_run in Hn. unfold rank in Hn.
    assert (main_rank (ht_main c) <= 7).
    { destruct Hr as [Hr _]. unfold main_inv in Hr. destruct (ht_main c); simpl; try lia. by destruct Hr. }
    assert (timer_rank (ht_timer c) <= 3) by (destruct (ht_timer c); simpl; lia). lia.
  - by apply internal_progress.
Qed.
Definition inner_failed : Call := inner_returns (innerError "refused") start.
Lemma inner_failed_reachable : reachable 30 inner_failed.
Proof. apply rtc_once. by apply step_inner. Defined.
Lemma header_timeout_returns_witness :
  (exists o, ht_main inner_failed = returned o) \/ exists c'', internal 30 inner_failed c''.
Proof.
  refine (proj2 (header_timeout_returns 30 inner_failed inner_failed_reachable _ 0 inner_failed (nsteps_O _ _))).
  discriminate.
Defined.
