(* ===== verification/Handler.v ===== *)
(** * The request handler

    [proxy/handler.go] and [proxy/handler_websocket.go]: what [ServeHTTP] does
    with a request, in the order it does it (route, rule availability, filters,
    backend availability, upgrade or reverse proxy), the request the backend
    receives, the error mapping and the verification of a backend's
    certificate.  [None] is a nil dereference.  X.509 and the token parser of
    golang.org/x/net are parameters. *)
From Stdlib Require Import Ascii.
From stdpp Require Import sorting.
From stdpp Require Import base sets gmap strings list.
From S2P Require Import Prelude GoStrings GoHttp ProxyConfig Matcher Cors Filters Router RouterSpec RouterState BackendPasses.

(** ** The backend's base path and query *)

Definition joinBackendBasePath (base reqPath : string) : string :=
  let baseSlash := HasSuffix base "/" in
  let reqSlash := HasPrefix reqPath "/" in
  if baseSlash && reqSlash then base +:+ str_drop 1 reqPath
  else if negb baseSlash && negb reqSlash then base +:+ "/" +:+ reqPath
  else base +:+ reqPath.

(** The keys of a query's values, sorted; [url.Values.Encode]. *)
Definition query_keys (pairs : list (string * string)) : list string := stable_sort str_ltb (remove_dups pairs.*1).
Definition pair_values (pairs : list (string * string)) (key : string) : list string :=
  omap (fun kv => if bool_decide (kv.1 = key) then Some kv.2 else None) pairs.
Definition encode_pair (key value : string) : string := QueryEscape key +:+ "=" +:+ QueryEscape value.
Definition Encode (pairs : list (string * string)) : string :=
  Join (query_keys pairs ≫= fun key => encode_pair key <$> pair_values pairs key) "&".
Definition mergeBackendBaseQuery (baseRawQuery reqRawQuery : string) : string :=
  let baseValues := ParseQuery baseRawQuery in
  if length baseValues =? 0 then reqRawQuery
  else
    let reqValues := ParseQuery reqRawQuery in
    let extra := List.filter (fun kv => negb (bool_decide (kv.1 ∈ reqValues.*1))) baseValues in
    if length extra =? 0 then reqRawQuery
    else if bool_decide (reqRawQuery = "") then Encode extra
    else reqRawQuery +:+ "&" +:+ Encode extra.

Definition applyBackendBasePath (target : URL) (base baseRawQuery : string) : URL :=
  let target :=
    if negb (bool_decide (base = "")) && negb (bool_decide (base = "/")) then
      mkURL (url_Scheme target) (url_Host target) (joinBackendBasePath base (url_Path target))
        (if negb (bool_decide (url_RawPath target = "")) then joinBackendBasePath base (url_RawPath target)
         else url_RawPath target)
        (url_RawQuery target)
    else target in
  if negb (bool_decide (baseRawQuery = "")) then
    mkURL (url_Scheme target) (url_Host target) (url_Path target) (url_RawPath target)
      (mergeBackendBaseQuery baseRawQuery (url_RawQuery target))
  else target.

(** ** The request a backend receives *)

Definition set_URL (u : URL) (r : Request) : Request :=
  mkRequest (req_Method r) (req_Host r) u (req_Header r) (req_matchedPrefix r) (req_Body r) (req_ContentLength r).
Definition originalHostHeader : string := "X-Original-Host".
(** The [Director] of [createReverseProxy]. *)
Definition Director (backendURL : URL) (req : Request) : Request :=
  let u := req_URL req in
  let req := set_URL (applyBackendBasePath
                        (mkURL (url_Scheme backendURL) (url_Host backendURL) (url_Path u) (url_RawPath u) (url_RawQuery u))
                        (url_Path backendURL) (url_RawQuery backendURL)) req in
  let hostRewritten := isHostRewritten req in
  let req := if hostRewritten then set_Header (header_Del (req_Header req) hostRewrittenHeader) req else req in
  let req :=
    if negb hostRewritten then
      let origHost := header_Get (req_Header req) originalHostHeader in
      if negb (bool_decide (origHost = "")) then set_Host origHost req else req
    else req in
  let req := set_Header (header_Del (req_Header req) originalHostHeader) req in
  match req_Header req !! "User-Agent" with
  | Some _ => req
  | None => set_Header (header_Set (req_Header req) "User-Agent" "") req
  end.
Definition buildBackendUpgradeRequest (req : Request) (backendURL : URL) : Request :=
  let u := mkURL (url_Scheme backendURL) (url_Host backendURL) (url_Path (req_URL req)) "" (url_RawQuery (req_URL req)) in
  set_Host (url_Host backendURL) (set_URL (applyBackendBasePath u (url_Path backendURL) (url_RawQuery backendURL)) req).

(** ** Upgrades *)

(** [httpguts.HeaderValuesContainsToken] *)
Class HttpGuts := HeaderValuesContainsToken : list string -> string -> bool.
Definition isHTTPUpgradeRequest {guts : HttpGuts} (req : Request) : bool :=
  if bool_decide (header_Get (req_Header req) "Upgrade" = "") then false
  else HeaderValuesContainsToken (header_Values (req_Header req) "Connection") "upgrade".
Definition shouldUseWebSocketUpgradePath {guts : HttpGuts} (req : Request) (operatorAllowsUpgrade : bool) : bool :=
  operatorAllowsUpgrade && isHTTPUpgradeRequest req.
(** [copyHeaderValues]: every value of every key is added. *)
Definition copyHeaderValues (dst src : Header) : Header :=
  foldl (fun h kv => foldl (fun h v => header_Add h kv.1 v) h kv.2) dst (map_to_list src).

(** ** Replies *)

Inductive Reply :=
| httpError (message : string) (status : Z)                     (* [http.Error] *)
| grpcTrailers (status message : string)                        (* [writeGRPCStatus] *)
| shortCircuit (status : Z) (header : Header)                   (* [writeRedirectResponse] *)
| proxied (transport : string) (out : Request) (filters : list Filter)   (* through the reverse proxy *)
| upgraded (out : Request) (backendURL : URL) (tls : option BackendTLSConfig) (filters : list Filter).

(** [http.StatusText] *)
Definition statusTexts : list (Z * string) :=
  [(100, "Continue"); (101, "Switching Protocols"); (102, "Processing"); (103, "Early Hints"); (200, "OK");
   (201, "Created"); (202, "Accepted"); (203, "Non-Authoritative Information"); (204, "No Content");
   (205, "Reset Content"); (206, "Partial Content"); (207, "Multi-Status"); (208, "Already Reported");
   (226, "IM Used"); (300, "Multiple Choices"); (301, "Moved Permanently"); (302, "Found"); (303, "See Other");
   (304, "Not Modified"); (305, "Use Proxy"); (307, "Temporary Redirect"); (308, "Permanent Redirect");
   (400, "Bad Request"); (401, "Unauthorized"); (402, "Payment Required"); (403, "Forbidden"); (404, "Not Found");
   (405, "Method Not Allowed"); (406, "Not Acceptable"); (407, "Proxy Authentication Required");
   (408, "Request Timeout"); (409, "Conflict"); (410, "Gone"); (411, "Length Required");
   (412, "Precondition Failed"); (413, "Request Entity Too Large"); (414, "Request URI Too Long");
   (415, "Unsupported Media Type"); (416, "Requested Range Not Satisfiable"); (417, "Expectation Failed");
   (418, "I'm a teapot"); (421, "Misdirected Request"); (422, "Unprocessable Entity"); (423, "Locked");
   (424, "Failed Dependency"); (425, "Too Early"); (426, "Upgrade Required"); (428, "Precondition Required");
   (429, "Too Many Requests"); (431, "Request Header Fields Too Large"); (451, "Unavailable For Legal Reasons");
   (500, "Internal Server Error"); (501, "Not Implemented"); (502, "Bad Gateway"); (503, "Service Unavailable");
   (504, "Gateway Timeout"); (505, "HTTP Version Not Supported"); (506, "Variant Also Negotiates");
   (507, "Insufficient Storage"); (508, "Loop Detected"); (510, "Not Extended");
   (511, "Network Authentication Required")]%Z.
Definition StatusText (code : Z) : string :=
  match List.find (fun e => bool_decide (e.1 = code)) statusTexts with Some (_, text) => text | None => "" end.

Definition writeRuleUnavailable (rule : RouteRule) : option Reply :=
  if (rule_UnavailableStatus rule =? 0)%Z then None
  else Some (httpError (StatusText (rule_UnavailableStatus rule)) (rule_UnavailableStatus rule)).
Definition grpcStatusUnimplemented : string := "12".
Definition isGRPCRequest (req : Request) : bool := HasPrefix (header_Get (req_Header req) "Content-Type") "application/grpc".

(** ** Serving *)

Section serve.
Context {hash : Sha256} {parser : UrlParser} {guts : HttpGuts}.

Definition proxyToBackend (req : Request) (result : RouteResult) : Reply :=
  let backends := rule_Backends (rr_Rule result) in
  match (if (rr_BackendIdx result <? 0)%Z then None else backends !! Z.to_nat (rr_BackendIdx result)) with
  | None => httpError "no backend available for this route" 500
  | Some backend =>
      if negb (be_UnavailableStatus backend =? 0)%Z then httpError "backend unavailable" (be_UnavailableStatus backend)
      else
        match url_Parse (be_URL backend) with
        | None => httpError "invalid backend URL" 500
        | Some backendURL =>
            if bool_decide (url_Scheme backendURL = externalBackendScheme) then httpError "backend unavailable" 500
            else
              let allFilters := rr_Filters result ++ rr_BackendFilters result in
              if shouldUseWebSocketUpgradePath req (be_WebSocket backend)
              then upgraded (buildBackendUpgradeRequest req backendURL) backendURL (be_TLS backend) allFilters
              else
                let headerTimeout := ruleHeaderTimeout (rule_Timeouts (rr_Rule result)) in
                proxied (transportKey (url_Host backendURL) (be_Protocol backend) (be_TLS backend) headerTimeout)
                  (Director backendURL req) allFilters
        end
  end.

(** [draws] and [backendDraws] are the random draws of the two filter passes;
    the mirrors started on the way are part of the outcome. *)
Definition apply_filters (filters : list Filter) (draws : list Z) (req : Request) : option (Request * option Reply * list MirrorDispatch) :=
  o ← ApplyRequestFilters filters draws req;
  Some (out_Request o, (fun resp => shortCircuit (resp_StatusCode resp) (copyHeaderValues ∅ (resp_Header resp))) <$> out_Response o,
        out_Mirrors o).
Definition serve_result (draws backendDraws : list Z) (req : Request) (result : RouteResult)
    : option (Reply * list MirrorDispatch) :=
  match writeRuleUnavailable (rr_Rule result) with
  | Some reply => Some (reply, [])
  | None =>
      let req := if negb (bool_decide (rr_MatchedPrefix result = "")) then set_Prefix (rr_MatchedPrefix result) req else req in
      match apply_filters (rr_Filters result) draws req with
      | None => None
      | Some (req, Some reply, mirrors) => Some (reply, mirrors)
      | Some (req, None, mirrors) =>
          if 0 <? length (rr_BackendFilters result) then
            match apply_filters (rr_BackendFilters result) backendDraws req with
            | None => None
            | Some (req, Some reply, more) => Some (reply, mirrors ++ more)
            | Some (req, None, more) => Some (proxyToBackend req result, mirrors ++ more)
            end
          else Some (proxyToBackend req result, mirrors)
      end
  end.
Definition ServeHTTP (rand : Z -> Z) (table : routingTable) (draws backendDraws : list Z) (req : Request)
    : option (Reply * list MirrorDispatch) :=
  match Route rand table req with
  | None =>
      Some (if isGRPCRequest req then grpcTrailers grpcStatusUnimplemented "no matching route"
            else httpError "no matching route" 404, [])
  | Some result => serve_result draws backendDraws req result
  end.
End serve.

(** What the reverse proxy's transport may report. *)
Record ProxyError := mkProxyError { pe_canceled : bool; pe_deadline : bool; pe_timeout : bool }.
Definition errorHandler (err : option ProxyError) : option Reply :=
  match err with
  | None => None
  | Some e =>
      if pe_canceled e then None
      else if pe_deadline e then Some (httpError "gateway timeout" 504)
      else if pe_timeout e then Some (httpError "gateway timeout" 504)
      else Some (httpError "bad gateway" 502)
  end.

(** [proxyWebSocketUpgrade], against what the backend connection does. *)
Inductive UpgradeAttempt := dialFailed | writeFailed | readFailed | responded (resp : Response).
Inductive UpgradeReply :=
| upgradeError                                   (* 502 *)
| forwarded (status : Z) (header : Header)       (* the backend refused: its response, filtered *)
| piped (header : Header).                       (* 101, then the byte pipe *)
Definition proxyWebSocketUpgrade (backend : Request -> UpgradeAttempt) (out : Request) (filters : list Filter) : option UpgradeReply :=
  match backend out with
  | dialFailed | writeFailed | readFailed => Some upgradeError
  | responded resp =>
      resp ← ApplyResponseFilters filters resp;
      let header := copyHeaderValues ∅ (resp_Header resp) in
      if negb (resp_StatusCode resp =? 101)%Z then Some (forwarded (resp_StatusCode resp) header) else Some (piped header)
  end.

(** ** Transports and the verification of backends *)

(** [crypto/x509]: the certificates of a PEM bundle, a leaf that chains to the
    roots, a leaf valid for a DNS name, the URI names of a leaf, and a key pair. *)
Class X509 := {
  Certificate : Type;
  KeyPair : Type;
  certs_of_PEM : string -> list Certificate;
  Verify : list Certificate -> list Certificate -> Certificate -> bool;      (* roots, intermediates, leaf *)
  VerifyHostname : Certificate -> string -> bool;
  cert_URIs : Certificate -> list string;
  X509KeyPair : string -> string -> option KeyPair;
  system_roots : list Certificate;
}.

Section tls.
Context {x509 : X509}.

(** [tls.Config]; [tc_VerifyConnection] holds the names the callback was built with. *)
Record TLSConfig := mkTLSConfig {
  tc_RootCAs : option (list Certificate);        (* [None]: the system's *)
  tc_ServerName : string;
  tc_InsecureSkipVerify : bool;
  tc_VerifyConnection : option (list Certificate * list string * list string);
  tc_Certificates : list KeyPair;
}.
Definition matchAnyDNSSan (leaf : Certificate) (expected : list string) : bool := existsb (VerifyHostname leaf) expected.
Definition matchAnyURISan (leaf : Certificate) (expected : list string) : bool :=
  if length expected =? 0 then false else existsb (fun uri => bool_decide (uri ∈ expected)) (cert_URIs leaf).
Inductive VerifyError := errBackendTLSNoPeerCert | errBackendTLSChainVerify | errBackendTLSSANMissing.
Definition verifyBackendChainAndSANs (rootCAs : list Certificate) (expectedHostnames expectedURIs : list string)
    (peers : list Certificate) : res VerifyError unit :=
  match peers with
  | [] => Err errBackendTLSNoPeerCert
  | leaf :: intermediates =>
      if negb (Verify rootCAs intermediates leaf) then Err errBackendTLSChainVerify
      else if matchAnyDNSSan leaf expectedHostnames then Ok ()
      else if matchAnyURISan leaf expectedURIs then Ok ()
      else Err errBackendTLSSANMissing
  end.
Definition attachClientCert (cfg : TLSConfig) (backendTLS : BackendTLSConfig) : TLSConfig :=
  if negb (HasClientCert (Some backendTLS)) then cfg
  else
    match X509KeyPair (tls_ClientCertPEM backendTLS) (tls_ClientKeyPEM backendTLS) with
    | None => cfg
    | Some cert => mkTLSConfig (tc_RootCAs cfg) (tc_ServerName cfg) (tc_InsecureSkipVerify cfg) (tc_VerifyConnection cfg) [cert]
    end.
Definition buildBackendTLSConfig (backendTLS : BackendTLSConfig) (rootCAs : list Certificate) : TLSConfig :=
  attachClientCert
    (if negb (HasSANConstraints (Some backendTLS))
     then mkTLSConfig (Some rootCAs) (tls_ServerName backendTLS) false None []
     else mkTLSConfig (Some rootCAs) (tls_ServerName backendTLS) true
            (Some (rootCAs, tls_SubjectAltNames backendTLS, tls_SubjectAltNameURIs backendTLS)) [])
    backendTLS.

Inductive Transport :=
| tlsTransport (cfg : TLSConfig) (responseHeaderTimeout : Z)
| h2cTransport (headerTimeout : Z)               (* wrapped in the header-timeout round tripper *)
| plainTransport (responseHeaderTimeout : Z).
Definition newTLSTransport (backendTLS : BackendTLSConfig) (headerTimeout : Z) : Transport :=
  tlsTransport (buildBackendTLSConfig backendTLS (certs_of_PEM (tls_CABundlePEM backendTLS))) headerTimeout.
Definition newTransport (protocol : string) (backendTLS : option BackendTLSConfig) (headerTimeout : Z) : Transport :=
  match backendTLS with
  | Some tls => newTLSTransport tls headerTimeout
  | None => if bool_decide (protocol = BackendProtocolH2C) then h2cTransport headerTimeout else plainTransport headerTimeout
  end.
(** [backendUpgradeTLSConfig]; [None] is an unparsable CA bundle. *)
Definition backendUpgradeTLSConfig (backendHostname : string) (backendTLS : option BackendTLSConfig) : option TLSConfig :=
  match backendTLS with
  | None => Some (mkTLSConfig None backendHostname false None [])
  | Some tls =>
      let certs := certs_of_PEM (tls_CABundlePEM tls) in
      if negb (bool_decide (tls_CABundlePEM tls = "")) then
        if length certs =? 0 then None else Some (buildBackendTLSConfig tls certs)
      else Some (buildBackendTLSConfig tls [])
  end.

(** [crypto/tls] on the client side: unless verification is skipped the chain
    must verify for the server name (the dialled host when none is set), and the
    callback, if any, must accept. *)
Definition handshake_accepts (dialled : string) (cfg : TLSConfig) (peers : list Certificate) : bool :=
  match peers with
  | [] => false
  | leaf :: intermediates =>
      (tc_InsecureSkipVerify cfg ||
       (Verify (default system_roots (tc_RootCAs cfg)) intermediates leaf &&
        VerifyHostname leaf (if bool_decide (tc_ServerName cfg = "") then dialled else tc_ServerName cfg))) &&
      match tc_VerifyConnection cfg with
      | None => true
      | Some (roots, hostnames, uris) =>
          match verifyBackendChainAndSANs roots hostnames uris peers with Ok _ => true | Err _ => false end
      end
  end.
End tls.

(** ** Theorems *)

(** The backend the router picked for a result, and when it may be dialled. *)
Definition picked (result : RouteResult) (b : BackendRef) : Prop :=
  (0 <= rr_BackendIdx result)%Z /\ rule_Backends (rr_Rule result) !! Z.to_nat (rr_BackendIdx result) = Some b.
Definition dialable {parser : UrlParser} (result : RouteResult) (backendURL : URL) (b : BackendRef) : Prop :=
  picked result b /\ be_UnavailableStatus b = 0%Z /\
  url_Parse (be_URL b) = Some backendURL /\ url_Scheme backendURL <> externalBackendScheme.
Definition dials (reply : Reply) : bool := match reply with proxied _ _ _ | upgraded _ _ _ _ => true | _ => false end.

Section safety.
Context {hash : Sha256} {parser : UrlParser} {guts : HttpGuts}.

Lemma writeRuleUnavailable_None rule : writeRuleUnavailable rule = None <-> rule_UnavailableStatus rule = 0%Z.
Proof. unfold writeRuleUnavailable. destruct (Z.eqb_spec (rule_UnavailableStatus rule) 0); split; done || congruence. Qed.
Lemma apply_filters_reply filters draws req req' reply mirrors :
  apply_filters filters draws req = Some (req', Some reply, mirrors) -> exists status header, reply = shortCircuit status header.
Proof.
  unfold apply_filters. destruct (ApplyRequestFilters filters draws req) as [o|]; [|done]. cbn.
  destruct (out_Response o); [|done]. intros [= _ <- _]. eauto.
Qed.
(** A pass that answered. *)
Definition short_circuits (filters : list Filter) (draws : list Z) (req : Request) (reply : Reply) : Prop :=
  exists out resp, ApplyRequestFilters filters draws req = Some out /\ out_Response out = Some resp /\
    reply = shortCircuit (resp_StatusCode resp) (copyHeaderValues ∅ (resp_Header resp)).
Lemma apply_filters_short filters draws req req' reply mirrors :
  apply_filters filters draws req = Some (req', Some reply, mirrors) -> short_circuits filters draws req reply.
Proof.
  unfold apply_filters, short_circuits. destruct (ApplyRequestFilters filters draws req) as [o|]; [|done]. cbn.
  destruct (out_Response o) as [resp|] eqn:Hr; [|done]. intros [= _ <- _]. by exists o, resp.
Qed.
End safety.

(** *** Query defaults *)

Lemma ParseQuery_app a b : ParseQuery (a +:+ "&" +:+ b) = ParseQuery a ++ ParseQuery b.
Proof. unfold ParseQuery. change ("&" +:+ b) with (String "&" b). rewrite SplitByte_app. apply omap_app. Qed.
Lemma encode_pair_plain k v c : c ∈ ["&"; ";"]%char -> str_forallb (fun d => negb (bool_decide (d = c))) (encode_pair k v) = true.
Proof.
  intros Hc. assert (Hp : forall s, str_forallb (fun d => negb (bool_decide (d = c))) (QueryEscape s) = true).
  { intros s. eapply str_forallb_impl; [|apply QueryEscape_plain]. intros d. unfold query_plain.
    rewrite !negb_true_iff, !bool_decide_eq_false. set_solver. }
  unfold encode_pair. rewrite !str_forallb_app, !Hp. cbn. rewrite bool_decide_eq_false_2; [done|]. set_solver.
Qed.
Lemma encode_pair_parse k v : parse_query_pair (encode_pair k v) = Some (k, v).
Proof.
  unfold parse_query_pair. rewrite bool_decide_eq_false_2 by (unfold encode_pair; by destruct (QueryEscape k)).
  assert (ContainsByte (encode_pair k v) ";" = false) as ->.
  { unfold ContainsByte. rewrite str_existsb_forallb. apply negb_false_iff, encode_pair_plain. set_solver. }
  cbn [orb]. unfold encode_pair. change ("=" +:+ QueryEscape v) with (String "=" (QueryEscape v)).
  rewrite Cut_byte_app.
  - cbn [default]. simpl. by rewrite !unescape_QueryEscape.
  - rewrite str_existsb_forallb. apply negb_false_iff. eapply str_forallb_impl; [|apply QueryEscape_plain].
    intros d. unfold query_plain. rewrite !negb_true_iff, !bool_decide_eq_false. set_solver.
Qed.
Lemma ParseQuery_Join (pairs : list (string * string)) :
  ParseQuery (Join ((fun kv => encode_pair kv.1 kv.2) <$> pairs) "&") = pairs.
Proof.
  assert (Hone : forall k v, ParseQuery (encode_pair k v) = [(k, v)]).
  { intros k v. unfold ParseQuery. rewrite SplitByte_plain by (apply encode_pair_plain; set_solver).
    cbn [omap list_omap]. by rewrite encode_pair_parse. }
  induction pairs as [|[k v] pairs IH]; [done|]. destruct pairs as [|kv pairs]; [apply Hone|].
  cbn [fmap list_fmap] in *.
  change (Join (encode_pair (k, v).1 (k, v).2 :: ?a :: ?l) "&") with (encode_pair k v +:+ "&" +:+ Join (a :: l) "&").
  by rewrite ParseQuery_app, Hone, IH.
Qed.

Lemma pair_values_app l1 l2 key : pair_values (l1 ++ l2) key = pair_values l1 key ++ pair_values l2 key.
Proof. apply omap_app. Qed.
Lemma pair_values_nil pairs key : pair_values pairs key = [] <-> key ∉ pairs.*1.
Proof.
  induction pairs as [|[k v] pairs IH]; [split; [by intros _ ?%elem_of_nil|done]|]. unfold pair_values in *. cbn [omap list_omap fmap list_fmap].
  rewrite not_elem_of_cons. cbn [fst snd]. case_bool_decide; [split; [done|]; naive_solver|]. rewrite IH. naive_solver.
Qed.
Lemma pair_values_grouped (f : string -> list string) keys key : NoDup keys ->
  pair_values (keys ≫= fun k => (k,.) <$> f k) key = if bool_decide (key ∈ keys) then f key else [].
Proof.
  assert (Hsame : forall l k, pair_values ((k,.) <$> l) k = l).
  { intros l k. induction l as [|v l IH]; [done|]. unfold pair_values in *. cbn. rewrite bool_decide_eq_true_2 by done. by f_equal. }
  assert (Hother : forall l k, k <> key -> pair_values ((k,.) <$> l) key = []).
  { intros l k Hk. induction l as [|v l IH]; [done|]. unfold pair_values in *. cbn. by rewrite bool_decide_eq_false_2. }
  induction keys as [|k keys IH]; intros Hnd; [by rewrite bool_decide_eq_false_2 by (by intros ?%elem_of_nil)|].
  apply NoDup_cons in Hnd as [Hni Hnd]. cbn [mbind list_bind]. rewrite pair_values_app, (IH Hnd).
  destruct (decide (k = key)) as [->|Hk].
  - rewrite Hsame, (bool_decide_eq_false_2 (key ∈ keys)), (bool_decide_eq_true_2 (key ∈ key :: keys)) by set_solver. apply app_nil_r.
  - rewrite (Hother _ _ Hk). by rewrite (bool_decide_ext (key ∈ k :: keys) (key ∈ keys)) by set_solver.
Qed.
Lemma Encode_values pairs key : query_Values (Encode pairs) key = pair_values pairs key.
Proof.
  assert (He : Encode pairs = Join ((fun kv => encode_pair kv.1 kv.2) <$> (query_keys pairs ≫= fun k => (k,.) <$> pair_values pairs k)) "&").
  { unfold Encode. f_equal. generalize (query_keys pairs). intros keys. induction keys as [|k keys IH]; [done|].
    cbn [mbind list_bind]. rewrite fmap_app, <-list_fmap_compose, IH. done. }
  unfold query_Values. rewrite He, ParseQuery_Join. fold (pair_values (query_keys pairs ≫= fun k => (k,.) <$> pair_values pairs k) key).
  assert (Hk : forall k, k ∈ query_keys pairs <-> k ∈ pairs.*1).
  { intros k. unfold query_keys. by rewrite elem_of_stable_sort, elem_of_remove_dups. }
  rewrite pair_values_grouped by (unfold query_keys; rewrite stable_sort_perm; apply NoDup_remove_dups).
  case_bool_decide as Hin; [done|]. symmetry. apply pair_values_nil. by rewrite <-Hk.
Qed.
Lemma extra_values (reqKeys : list string) base key :
  pair_values (List.filter (fun kv => negb (bool_decide (kv.1 ∈ reqKeys))) base) key =
  if bool_decide (key ∈ reqKeys) then [] else pair_values base key.
Proof.
  induction base as [|[k v] base IH]; cbn [List.filter]; [by destruct (bool_decide _)|]. cbn [fst].
  destruct (bool_decide (k ∈ reqKeys)) eqn:Hk; cbn [negb]; unfold pair_values in *; cbn [omap list_omap fst snd].
  - rewrite IH. destruct (bool_decide (key ∈ reqKeys)) eqn:Hq; [done|]. rewrite bool_decide_eq_false_2; [done|]. intros ->. by rewrite Hk in Hq.
  - rewrite IH. destruct (bool_decide (key ∈ reqKeys)) eqn:Hq; [|done]. rewrite bool_decide_eq_false_2; [done|]. intros ->. by rewrite Hk in Hq.
Qed.

Lemma merge_values baseRawQuery reqRawQuery key :
  query_Values (mergeBackendBaseQuery baseRawQuery reqRawQuery) key =
  if bool_decide (key ∈ (ParseQuery reqRawQuery).*1) then query_Values reqRawQuery key else query_Values baseRawQuery key.
Proof.
  assert (Hq : forall q, query_Values q key = pair_values (ParseQuery q) key) by done.
  assert (Hreq : bool_decide (key ∈ (ParseQuery reqRawQuery).*1) = false -> query_Values reqRawQuery key = []).
  { intros H%bool_decide_eq_false. by apply pair_values_nil. }
  assert (Happ : forall extra, query_Values (if bool_decide (reqRawQuery = "") then Encode extra else reqRawQuery +:+ "&" +:+ Encode extra) key
    = query_Values reqRawQuery key ++ pair_values extra key).
  { intros extra. pose proof (Encode_values extra key) as He. destruct (bool_decide_reflect (reqRawQuery = "")) as [Hr|_].
    - rewrite He, Hr. done.
    - rewrite (Hq (_ +:+ _)), ParseQuery_app, pair_values_app. f_equal. exact He. }
  unfold mergeBackendBaseQuery. destruct (Nat.eqb_spec (length (ParseQuery baseRawQuery)) 0) as [Hb|_].
  { apply nil_length_inv in Hb. rewrite (Hq baseRawQuery), Hb. destruct (bool_decide _) eqn:E; [done|by apply Hreq]. }
  cbn zeta. set (extra := List.filter _ (ParseQuery baseRawQuery)).
  assert (Hx : pair_values extra key = if bool_decide (key ∈ (ParseQuery reqRawQuery).*1) then [] else query_Values baseRawQuery key)
    by apply extra_values.
  destruct (Nat.eqb_spec (length extra) 0) as [Hl|_].
  - apply nil_length_inv in Hl. rewrite Hl in Hx. cbn in Hx. destruct (bool_decide _) eqn:E; [done|]. rewrite <-Hx. by apply Hreq.
  - rewrite Happ, Hx. destruct (bool_decide _) eqn:E; [by rewrite app_nil_r|]. by rewrite Hreq.
Qed.

(** The query of a backend's base path only fills gaps: in the merged query a
    parameter of the request keeps exactly the values the client sent, and a
    parameter the request does not have takes the values of the base path, for
    every pair of query strings (malformed ones included). *)
Theorem base_query_defaults (baseRawQuery reqRawQuery key : string) :
  query_Values (mergeBackendBaseQuery baseRawQuery reqRawQuery) key =
  if bool_decide (key ∈ (ParseQuery reqRawQuery).*1) then query_Values reqRawQuery key else query_Values baseRawQuery key.
Proof. apply merge_values. Qed.

(** *** Paths, hosts and headers *)

Lemma joinBackendBasePath_one_slash base path :
  joinBackendBasePath base path = TrimSuffix base "/" +:+ "/" +:+ TrimPrefix path "/".
Proof.
  assert (Hbase : HasSuffix base "/" = true -> base = TrimSuffix base "/" +:+ "/").
  { intros H. unfold TrimSuffix. rewrite H. unfold HasSuffix in H. apply andb_true_iff in H as [_ H%bool_decide_eq_true].
    rewrite <-(str_take_drop (String.length base - String.length "/") base) at 1. by rewrite H. }
  assert (Hpath : HasPrefix path "/" = true -> path = "/" +:+ str_drop 1 path) by apply (HasPrefix_drop path "/").
  unfold joinBackendBasePath. destruct (HasSuffix base "/") eqn:Hb, (HasPrefix path "/") eqn:Hp; cbn [andb negb].
  - rewrite (Hbase eq_refl) at 1. rewrite sapp_assoc. unfold TrimPrefix. by rewrite Hp.
  - rewrite (Hbase eq_refl) at 1. rewrite sapp_assoc. by rewrite TrimPrefix_none.
  - unfold TrimSuffix, TrimPrefix. rewrite Hb, Hp. cbn [String.length]. by rewrite <-(Hpath eq_refl).
  - unfold TrimSuffix. by rewrite Hb, TrimPrefix_none.
Qed.

Lemma applyBackendBasePath_spec target base query :
  let out := applyBackendBasePath target base query in
  url_Scheme out = url_Scheme target /\ url_Host out = url_Host target /\
  url_Path out = (if bool_decide (base = "" \/ base = "/") then url_Path target
                  else TrimSuffix base "/" +:+ "/" +:+ TrimPrefix (url_Path target) "/").
Proof.
  cbn zeta. unfold applyBackendBasePath.
  assert (Hb : negb (bool_decide (base = "")) && negb (bool_decide (base = "/")) = negb (bool_decide (base = "" \/ base = "/"))).
  { repeat case_bool_decide; cbn; tauto || done. }
  rewrite Hb. destruct (bool_decide (base = "" \/ base = "/")), (bool_decide (query = "")); cbn [negb url_Scheme url_Host url_Path];
    rewrite ?joinBackendBasePath_one_slash; done.
Qed.
(** The headers the Director leaves. *)
Definition director_headers (req : Request) : Header :=
  let h := if isHostRewritten req then header_Del (req_Header req) hostRewrittenHeader else req_Header req in
  let h := header_Del h originalHostHeader in
  match h !! "User-Agent" with Some _ => h | None => header_Set h "User-Agent" "" end.
Lemma Director_parts backendURL req :
  let u := req_URL req in
  let out := Director backendURL req in
  req_URL out = applyBackendBasePath
    (mkURL (url_Scheme backendURL) (url_Host backendURL) (url_Path u) (url_RawPath u) (url_RawQuery u))
    (url_Path backendURL) (url_RawQuery backendURL) /\
  req_Host out = (let original := header_Get (req_Header req) originalHostHeader in
                  if isHostRewritten req || bool_decide (original = "") then req_Host req else original) /\
  req_Header out = director_headers req /\ req_Method out = req_Method req /\ req_Body out = req_Body req.
Proof.
  cbn zeta. unfold Director, director_headers.
  change (isHostRewritten (set_URL ?u req)) with (isHostRewritten req).
  destruct (isHostRewritten req); cbn [negb orb].
  - cbn [set_Header set_URL req_Header]. destruct (header_Del _ originalHostHeader !! "User-Agent"); done.
  - change (req_Header (set_URL ?u req)) with (req_Header req).
    destruct (bool_decide (header_Get (req_Header req) originalHostHeader = "")); cbn [negb].
    + cbn [set_Header set_URL req_Header]. destruct (header_Del (req_Header req) originalHostHeader !! "User-Agent"); done.
    + cbn [set_Header set_Host set_URL req_Header]. destruct (header_Del (req_Header req) originalHostHeader !! "User-Agent"); done.
Qed.
Lemma director_headers_values req key :
  header_Values (director_headers req) key =
  if bool_decide (CanonicalHeaderKey key = "X-Original-Host") then []
  else if bool_decide (CanonicalHeaderKey key = "X-Proxy-Host-Rewritten") && isHostRewritten req then []
  else if bool_decide (CanonicalHeaderKey key = "User-Agent") && bool_decide (req_Header req !! "User-Agent" = None) then [""]
  else header_Values (req_Header req) key.
Proof.
  unfold director_headers, header_Values.
  set (h := header_Del (if isHostRewritten req then header_Del (req_Header req) hostRewrittenHeader else req_Header req) originalHostHeader).
  assert (Hh : forall k, h !! k = if bool_decide (k = "X-Original-Host") then None
    else if bool_decide (k = "X-Proxy-Host-Rewritten") && isHostRewritten req then None else req_Header req !! k).
  { intros k. subst h. unfold header_Del.
    assert (CanonicalHeaderKey originalHostHeader = "X-Original-Host") as -> by (vm_compute; reflexivity).
    assert (CanonicalHeaderKey hostRewrittenHeader = "X-Proxy-Host-Rewritten") as -> by (vm_compute; reflexivity).
    destruct (decide (k = "X-Original-Host")) as [->|Hne]; [by rewrite lookup_delete_eq|].
    rewrite lookup_delete_ne, (bool_decide_eq_false_2 (k = "X-Original-Host")) by done.
    destruct (isHostRewritten req); [|by rewrite andb_false_r]. rewrite andb_true_r.
    destruct (decide (k = "X-Proxy-Host-Rewritten")) as [->|Hne2]; [by rewrite lookup_delete_eq|].
    by rewrite lookup_delete_ne, bool_decide_eq_false_2 by done. }
  assert (Hua : h !! "User-Agent" = req_Header req !! "User-Agent") by (rewrite Hh; done).
  rewrite Hua. set (k := CanonicalHeaderKey key).
  destruct (req_Header req !! "User-Agent") as [ua|] eqn:Eua.
  - rewrite (bool_decide_eq_false_2 (Some ua = None)), andb_false_r by done. rewrite Hh.
    by destruct (bool_decide (k = "X-Original-Host")), (bool_decide (k = "X-Proxy-Host-Rewritten")), (isHostRewritten req).
  - unfold header_Set. assert (CanonicalHeaderKey "User-Agent" = "User-Agent") as -> by (vm_compute; reflexivity).
    rewrite (bool_decide_eq_true_2 (None = None)), andb_true_r by done.
    destruct (decide (k = "User-Agent")) as [->|Hne]; [by rewrite lookup_insert_eq|].
    rewrite lookup_insert_ne, Hh, (bool_decide_eq_false_2 (k = "User-Agent")) by done.
    by destruct (bool_decide (k = "X-Original-Host")), (bool_decide (k = "X-Proxy-Host-Rewritten")), (isHostRewritten req).
Qed.

(** The request a backend receives through the reverse proxy is addressed to
    the backend (its scheme and host, its base path joined with exactly one
    slash), keeps the Host the client asked for (the one restored from
    X-Original-Host when the tunnel carries it) unless a rewrite filter chose
    another, carries neither of the two internal headers, and differs in no other
    header except that an absent User-Agent stays empty. *)
Theorem backend_request_exact (backendURL : URL) (req : Request) :
  let out := Director backendURL req in
  let base := url_Path backendURL in
  url_Scheme (req_URL out) = url_Scheme backendURL /\ url_Host (req_URL out) = url_Host backendURL /\
  url_Path (req_URL out) =
    (if bool_decide (base = "" \/ base = "/") then url_Path (req_URL req)
     else TrimSuffix base "/" +:+ "/" +:+ TrimPrefix (url_Path (req_URL req)) "/") /\
  req_Host out =
    (let original := header_Get (req_Header req) originalHostHeader in
     if isHostRewritten req || bool_decide (original = "") then req_Host req else original) /\
  header_Get (req_Header out) hostRewrittenHeader = "" /\ header_Values (req_Header out) originalHostHeader = [] /\
  (forall key, CanonicalHeaderKey key ∉ ["X-Proxy-Host-Rewritten"; "X-Original-Host"; "User-Agent"] ->
     header_Values (req_Header out) key = header_Values (req_Header req) key) /\
  req_Method out = req_Method req /\ req_Body out = req_Body req.
Proof.
  cbn zeta. destruct (Director_parts backendURL req) as (-> & -> & -> & -> & ->).
  destruct (applyBackendBasePath_spec
    (mkURL (url_Scheme backendURL) (url_Host backendURL) (url_Path (req_URL req)) (url_RawPath (req_URL req)) (url_RawQuery (req_URL req)))
    (url_Path backendURL) (url_RawQuery backendURL)) as (-> & -> & ->).
  split_and!; try done.
  - unfold header_Get. rewrite director_headers_values.
    assert (CanonicalHeaderKey hostRewrittenHeader = "X-Proxy-Host-Rewritten") as -> by (vm_compute; reflexivity).
    destruct (isHostRewritten req) eqn:Hr; [done|]. unfold isHostRewritten in Hr. apply negb_false_iff, bool_decide_eq_true in Hr. exact Hr.
  - by rewrite director_headers_values.
  - intros key Hk. rewrite director_headers_values. rewrite !bool_decide_eq_false_2 by set_solver. done.
Qed.

(** *** The request a backend is dialled with *)

(** Addressed to the backend: its scheme and host, its base path joined with one
    slash, its query values as defaults. *)
Definition addressed (backendURL : URL) (req out : Request) : Prop :=
  let base := url_Path backendURL in
  url_Scheme (req_URL out) = url_Scheme backendURL /\ url_Host (req_URL out) = url_Host backendURL /\
  url_Path (req_URL out) =
    (if bool_decide (base = "" \/ base = "/") then url_Path (req_URL req)
     else TrimSuffix base "/" +:+ "/" +:+ TrimPrefix (url_Path (req_URL req)) "/") /\
  (forall key, query_Values (url_RawQuery (req_URL out)) key =
     if bool_decide (key ∈ (ParseQuery (url_RawQuery (req_URL req))).*1)
     then query_Values (url_RawQuery (req_URL req)) key else query_Values (url_RawQuery backendURL) key) /\
  (url_RawQuery backendURL = "" -> url_RawQuery (req_URL out) = url_RawQuery (req_URL req)) /\
  req_Method out = req_Method req /\ req_Body out = req_Body req.
(** Through the reverse proxy: the Host the client asked for unless a filter
    rewrote it, the two internal headers gone, an absent User-Agent left empty. *)
Definition proxied_request (backendURL : URL) (req out : Request) : Prop :=
  addressed backendURL req out /\
  req_Host out =
    (let original := header_Get (req_Header req) originalHostHeader in
     if isHostRewritten req || bool_decide (original = "") then req_Host req else original) /\
  header_Get (req_Header out) hostRewrittenHeader = "" /\ header_Values (req_Header out) originalHostHeader = [] /\
  header_Values (req_Header out) "User-Agent" =
    (if bool_decide (req_Header req !! "User-Agent" = None) then [""] else header_Values (req_Header req) "User-Agent") /\
  forall key, CanonicalHeaderKey key ∉ ["X-Proxy-Host-Rewritten"; "X-Original-Host"; "User-Agent"] ->
    header_Values (req_Header out) key = header_Values (req_Header req) key.
(** For an upgrade: the backend's host, and the client's headers as they are. *)
Definition upgrade_request (backendURL : URL) (req out : Request) : Prop :=
  addressed backendURL req out /\ req_Host out = url_Host backendURL /\ req_Header out = req_Header req.

Lemma applyBackendBasePath_query target base baseQuery key :
  query_Values (url_RawQuery (applyBackendBasePath target base baseQuery)) key =
  if bool_decide (key ∈ (ParseQuery (url_RawQuery target)).*1) then query_Values (url_RawQuery target) key
  else query_Values baseQuery key.
Proof.
  unfold applyBackendBasePath.
  set (target' := if negb (bool_decide (base = "")) && negb (bool_decide (base = "/")) then _ else target).
  assert (Hq : url_RawQuery target' = url_RawQuery target) by (unfold target'; by destruct (_ && _)).
  case_bool_decide as Hb; cbn [negb]; [|cbn [url_RawQuery]; rewrite Hq; apply merge_values].
  rewrite Hq, Hb. case_bool_decide as Hk; [done|]. by apply pair_values_nil.
Qed.
Lemma applyBackendBasePath_no_query target base :
  url_RawQuery (applyBackendBasePath target base "") = url_RawQuery target.
Proof. unfold applyBackendBasePath. cbn. by destruct (_ && _). Qed.
Lemma base_path_addressed (backendURL : URL) (req out : Request) raw :
  req_URL out = applyBackendBasePath
    (mkURL (url_Scheme backendURL) (url_Host backendURL) (url_Path (req_URL req)) raw (url_RawQuery (req_URL req)))
    (url_Path backendURL) (url_RawQuery backendURL) ->
  req_Method out = req_Method req -> req_Body out = req_Body req -> addressed backendURL req out.
Proof.
  intros Hu Hm Hb. unfold addressed. rewrite Hu.
  destruct (applyBackendBasePath_spec
    (mkURL (url_Scheme backendURL) (url_Host backendURL) (url_Path (req_URL req)) raw (url_RawQuery (req_URL req)))
    (url_Path backendURL) (url_RawQuery backendURL)) as (-> & -> & ->).
  split_and!; try done; [intros key; by rewrite applyBackendBasePath_query|intros ->; by rewrite applyBackendBasePath_no_query].
Qed.
Lemma Director_request backendURL req : proxied_request backendURL req (Director backendURL req).
Proof.
  destruct (Director_parts backendURL req) as (Hu & Hh & Hhd & Hm & Hb).
  split; [by eapply base_path_addressed|]. rewrite Hh, Hhd. split_and!; [done| | | |].
  - unfold header_Get. rewrite director_headers_values.
    assert (CanonicalHeaderKey hostRewrittenHeader = "X-Proxy-Host-Rewritten") as -> by (vm_compute; reflexivity).
    destruct (isHostRewritten req) eqn:Hr; [done|]. unfold isHostRewritten in Hr. apply negb_false_iff, bool_decide_eq_true in Hr. exact Hr.
  - by rewrite director_headers_values.
  - rewrite director_headers_values. by destruct (bool_decide (req_Header req !! "User-Agent" = None)).
  - intros key Hk. rewrite director_headers_values. rewrite !bool_decide_eq_false_2 by set_solver. done.
Qed.
Lemma buildBackendUpgradeRequest_request backendURL req :
  upgrade_request backendURL req (buildBackendUpgradeRequest req backendURL).
Proof. split; [|done]. by eapply base_path_addressed. Qed.

(** *** The answer *)

Section answer.
Context {hash : Sha256} {parser : UrlParser} {guts : HttpGuts}.
(** The request after both filter passes, none of which answered it. *)
Definition filtered (draws backendDraws : list Z) (req : Request) (result : RouteResult) (req' : Request) : Prop :=
  let start := if negb (bool_decide (rr_MatchedPrefix result = "")) then set_Prefix (rr_MatchedPrefix result) req else req in
  exists mid m1, apply_filters (rr_Filters result) draws start = Some (mid, None, m1) /\
    if length (rr_BackendFilters result) =? 0 then req' = mid
    else exists m2, apply_filters (rr_BackendFilters result) backendDraws mid = Some (req', None, m2).
(** The first pass that answers it: the rule's, or the backend's on what the rule's left. *)
Definition filter_answer (draws backendDraws : list Z) (req : Request) (result : RouteResult) (reply : Reply) : Prop :=
  let start := if negb (bool_decide (rr_MatchedPrefix result = "")) then set_Prefix (rr_MatchedPrefix result) req else req in
  short_circuits (rr_Filters result) draws start reply \/
  exists mid m1, apply_filters (rr_Filters result) draws start = Some (mid, None, m1) /\ rr_BackendFilters result <> [] /\
    short_circuits (rr_BackendFilters result) backendDraws mid reply.

(** What a request that passed the filters is answered. *)
Definition backend_answer (result : RouteResult) (req : Request) (reply : Reply) : Prop :=
  (forall b backendURL, dialable result backendURL b ->
     let filters := rr_Filters result ++ rr_BackendFilters result in
     if be_WebSocket b && isHTTPUpgradeRequest req
     then exists out, upgrade_request backendURL req out /\ reply = upgraded out backendURL (be_TLS b) filters
     else exists out, proxied_request backendURL req out /\
       reply = proxied (transportKey (url_Host backendURL) (be_Protocol b) (be_TLS b) (ruleHeaderTimeout (rule_Timeouts (rr_Rule result))))
                 out filters) /\
  (forall b, picked result b -> be_UnavailableStatus b <> 0%Z -> reply = httpError "backend unavailable" (be_UnavailableStatus b)) /\
  (forall b, picked result b -> be_UnavailableStatus b = 0%Z -> url_Parse (be_URL b) = None ->
     reply = httpError "invalid backend URL" 500) /\
  (forall b u, picked result b -> be_UnavailableStatus b = 0%Z -> url_Parse (be_URL b) = Some u ->
     url_Scheme u = externalBackendScheme -> reply = httpError "backend unavailable" 500) /\
  ((forall b, ~ picked result b) -> reply = httpError "no backend available for this route" 500).
Lemma proxyToBackend_answer req result :
  backend_answer result req (proxyToBackend req result) /\
  (dials (proxyToBackend req result) = true <-> exists b u, dialable result u b).
Proof.
  assert (Hnone : (forall b, ~ picked result b) -> proxyToBackend req result = httpError "no backend available for this route" 500).
  { unfold picked, proxyToBackend. intros H. destruct (Z.ltb_spec (rr_BackendIdx result) 0); [done|].
    destruct (rule_Backends (rr_Rule result) !! Z.to_nat (rr_BackendIdx result)) as [b|] eqn:Hb; [|done]. by destruct (H b). }
  assert (Hsome : forall b, picked result b -> proxyToBackend req result =
    if negb (be_UnavailableStatus b =? 0)%Z then httpError "backend unavailable" (be_UnavailableStatus b)
    else match url_Parse (be_URL b) with
         | None => httpError "invalid backend URL" 500
         | Some u =>
             if bool_decide (url_Scheme u = externalBackendScheme) then httpError "backend unavailable" 500
             else if be_WebSocket b && isHTTPUpgradeRequest req
             then upgraded (buildBackendUpgradeRequest req u) u (be_TLS b) (rr_Filters result ++ rr_BackendFilters result)
             else proxied (transportKey (url_Host u) (be_Protocol b) (be_TLS b) (ruleHeaderTimeout (rule_Timeouts (rr_Rule result))))
                    (Director u req) (rr_Filters result ++ rr_BackendFilters result)
         end).
  { intros b [Hi Hb]. unfold proxyToBackend. rewrite (proj2 (Z.ltb_ge _ _) Hi), Hb. done. }
  split; [refine (conj _ (conj _ (conj _ (conj _ Hnone))))|].
  - intros b u (Hp & Hu & Hparse & Hs). rewrite (Hsome b Hp), Hu, Hparse, bool_decide_eq_false_2 by done. cbn.
    destruct (be_WebSocket b && _); (eexists; split; [|reflexivity]); [apply buildBackendUpgradeRequest_request|apply Director_request].
  - intros b Hp Hu. rewrite (Hsome b Hp). by rewrite (proj2 (Z.eqb_neq _ _) Hu).
  - intros b Hp Hu Hparse. by rewrite (Hsome b Hp), Hu, Hparse.
  - intros b u Hp Hu Hparse Hs. rewrite (Hsome b Hp), Hu, Hparse. by rewrite bool_decide_eq_true_2.
  - split.
    + intros Hd. unfold picked, proxyToBackend in *. destruct (Z.ltb_spec (rr_BackendIdx result) 0); [done|].
      destruct (rule_Backends (rr_Rule result) !! Z.to_nat (rr_BackendIdx result)) as [b|] eqn:Hb; [|done].
      destruct (Z.eqb_spec (be_UnavailableStatus b) 0) as [Hu|]; [|done]. cbn [negb] in Hd.
      destruct (url_Parse (be_URL b)) as [u|] eqn:Hparse; [|done]. case_bool_decide as Hs; [done|]. by exists b, u.
    + intros (b & u & Hp & Hu & Hparse & Hs). rewrite (Hsome b Hp), Hu, Hparse, bool_decide_eq_false_2 by done. cbn.
      by destruct (be_WebSocket b && _).
Qed.
Lemma filtered_unique draws backendDraws req result r1 r2 :
  filtered draws backendDraws req result r1 -> filtered draws backendDraws req result r2 -> r1 = r2.
Proof.
  intros (mid & m1 & H1 & Hb1) (mid' & m1' & H2 & Hb2). cbn zeta in *. rewrite H1 in H2. injection H2 as <- <-.
  destruct (length (rr_BackendFilters result) =? 0); [congruence|]. destruct Hb1 as [? Hb1], Hb2 as [? Hb2]. congruence.
Qed.
(** A served request either passed both filter passes or was answered by one of them. *)
Lemma serve_result_cases draws backendDraws req result reply mirrors :
  rule_UnavailableStatus (rr_Rule result) = 0%Z -> serve_result draws backendDraws req result = Some (reply, mirrors) ->
  (exists req', filtered draws backendDraws req result req' /\ reply = proxyToBackend req' result) \/
  ((forall req', ~ filtered draws backendDraws req result req') /\ filter_answer draws backendDraws req result reply).
Proof.
  intros Hw%writeRuleUnavailable_None. unfold serve_result, filtered, filter_answer. rewrite Hw. cbn zeta.
  set (start := if negb (bool_decide (rr_MatchedPrefix result = "")) then _ else req).
  destruct (apply_filters (rr_Filters result) draws start) as [[[mid [short|]] m1]|] eqn:H1; [| |done].
  { intros [= <- <-]. right. split; [by intros req' (? & ? & [=] & _)|]. left. by eapply apply_filters_short. }
  destruct (rr_BackendFilters result) as [|bf bfs] eqn:Hbf.
  - cbn [length Nat.ltb Nat.leb Nat.eqb]. intros [= <- <-]. left. exists mid. split; [by exists mid, m1|done].
  - cbn [length Nat.ltb Nat.leb Nat.eqb]. rewrite <-Hbf.
    destruct (apply_filters (rr_BackendFilters result) backendDraws mid) as [[[last [short|]] m2]|] eqn:H2; [| |done].
    + intros [= <- <-]. right. split; [by intros req' (? & ? & [= <- <-] & ? & Hq); rewrite H2 in Hq|].
      right. exists mid, m1. split; [done|]. split; [by rewrite Hbf|]. by eapply apply_filters_short.
    + intros [= <- <-]. left. exists last. split; [|done]. exists mid, m1. split; [done|]. by exists m2.
Qed.
End answer.

(** C9: What the handler does with a request.  Without a matching rule it answers
    404, or the gRPC status Unimplemented in a trailer for a gRPC request; a rule
    marked unavailable is answered with its status before any filter or mirror
    runs.  A backend is dialled exactly when the filters of the rule and of the
    backend let the request pass, and the backend the router picked is available
    and has a URL that parses and is not an unresolved external sentinel.  Then
    the request sent is addressed to that backend (its scheme and host, its base
    path joined with one slash, its query values as defaults), with the method and
    body of the filtered request, by an upgrade exactly when the request asks for
    one and the backend is declared capable of it (its host, the client's headers,
    the backend's TLS policy), and otherwise through the transport of that host,
    protocol, TLS policy and timeout, with the Host of the client or of a rewrite
    and without the internal headers.  A request a filter answers gets that answer;
    any other is answered with the status of the backend, or 500. *)
Theorem serve_dials_safely {hash : Sha256} {parser : UrlParser} {guts : HttpGuts}
    (rand : Z -> Z) (table : routingTable) (draws backendDraws : list Z) (req : Request)
    (reply : Reply) (mirrors : list MirrorDispatch) :
  ServeHTTP rand table draws backendDraws req = Some (reply, mirrors) ->
  match Route rand table req with
  | None =>
      mirrors = [] /\
      reply = if isGRPCRequest req then grpcTrailers "12" "no matching route" else httpError "no matching route" 404
  | Some result =>
      let status := rule_UnavailableStatus (rr_Rule result) in
      if negb (status =? 0)%Z then mirrors = [] /\ reply = httpError (StatusText status) status
      else
        (dials reply = true <-> exists req' b u, filtered draws backendDraws req result req' /\ dialable result u b) /\
        (forall req', filtered draws backendDraws req result req' -> backend_answer result req' reply) /\
        ((forall req', ~ filtered draws backendDraws req result req') -> filter_answer draws backendDraws req result reply)
  end.
Proof.
  unfold ServeHTTP. destruct (Route rand table req) as [result|]; [|by intros [= <- <-]]. intros Hserve. cbn zeta.
  destruct (Z.eqb_spec (rule_UnavailableStatus (rr_Rule result)) 0) as [Hrule|Hrule]; cbn [negb].
  2:{ unfold serve_result, writeRuleUnavailable in Hserve. rewrite (proj2 (Z.eqb_neq _ _) Hrule) in Hserve. by simplify_eq. }
  destruct (serve_result_cases _ _ _ _ _ _ Hrule Hserve) as [(req' & Hf & ->)|[Hno Hans]].
  - destruct (proxyToBackend_answer req' result) as [Hba Hd]. split_and!.
    + rewrite Hd. split; [intros (b & u & H); by exists req', b, u|intros (? & b & u & _ & H); by exists b, u].
    + intros r Hr. by rewrite (filtered_unique _ _ _ _ _ _ Hr Hf).
    + intros Hno. by destruct (Hno req').
  - split_and!; [|by intros req' Hf; destruct (Hno req')|done]. split; [|by intros (r & ? & ? & Hf & _); destruct (Hno r)].
    intros Hd. by destruct Hans as [(? & ? & _ & _ & ->)|(? & ? & _ & _ & ? & ? & _ & _ & ->)].
Qed.

(** The verification of one presented chain, in either mode. *)
Lemma matchAnyURISan_spec {x509 : X509} leaf expected :
  matchAnyURISan leaf expected = true <-> exists uri, uri ∈ expected /\ uri ∈ cert_URIs leaf.
Proof.
  unfold matchAnyURISan. destruct expected as [|e expected]; [split; [done|by intros (? & ?%elem_of_nil & _)]|].
  cbn [length Nat.eqb]. rewrite existsb_elem_of. setoid_rewrite bool_decide_eq_true. naive_solver.
Qed.
Lemma handshake_cases {x509 : X509} dialled tls roots leaf intermediates : tls_ServerName tls <> "" ->
  handshake_accepts dialled (buildBackendTLSConfig tls roots) (leaf :: intermediates) = true <->
  Verify roots intermediates leaf = true /\
  (if HasSANConstraints (Some tls)
   then (exists name, name ∈ tls_SubjectAltNames tls /\ VerifyHostname leaf name = true) \/
        (exists uri, uri ∈ tls_SubjectAltNameURIs tls /\ uri ∈ cert_URIs leaf)
   else VerifyHostname leaf (tls_ServerName tls) = true).
Proof.
  intros Hname. set (mode := if negb (HasSANConstraints (Some tls))
     then mkTLSConfig (Some roots) (tls_ServerName tls) false None []
     else mkTLSConfig (Some roots) (tls_ServerName tls) true
            (Some (roots, tls_SubjectAltNames tls, tls_SubjectAltNameURIs tls)) []).
  assert (Hattach : handshake_accepts dialled (buildBackendTLSConfig tls roots) (leaf :: intermediates) =
    handshake_accepts dialled mode (leaf :: intermediates)).
  { unfold buildBackendTLSConfig, attachClientCert. fold mode. destruct (negb (HasClientCert _)); [done|]. by destruct (X509KeyPair _ _). }
  rewrite Hattach. subst mode. destruct (HasSANConstraints (Some tls)); cbn [negb].
  - unfold handshake_accepts. cbn [tc_InsecureSkipVerify tc_VerifyConnection orb andb]. unfold verifyBackendChainAndSANs.
    rewrite <-matchAnyURISan_spec. destruct (Verify roots intermediates leaf); cbn [negb]; [|split; [done|by intros [? _]]].
    assert (Hdns : matchAnyDNSSan leaf (tls_SubjectAltNames tls) = true <->
      exists name, name ∈ tls_SubjectAltNames tls /\ VerifyHostname leaf name = true) by apply existsb_elem_of.
    rewrite <-Hdns. destruct (matchAnyDNSSan leaf _), (matchAnyURISan leaf _); naive_solver.
  - unfold handshake_accepts. cbn [tc_InsecureSkipVerify tc_VerifyConnection tc_RootCAs tc_ServerName orb default].
    rewrite bool_decide_eq_false_2, andb_true_r, andb_true_iff by done. done.
Qed.

(** An empty root pool verifies nothing, and an empty bundle gives one. *)
Class X509Laws (x509 : X509) : Prop := {
  Verify_no_roots intermediates leaf : Verify [] intermediates leaf = false;
  certs_of_empty : certs_of_PEM "" = [] }.

(** What a backend certificate is checked against: with a policy that names
    no SANs a connection is accepted exactly for a chain to the policy's bundle
    whose leaf is valid for the policy's server name; with SANs, exactly for such
    a chain whose leaf is valid for one of the DNS names or carries one of the
    URIs, the server name then being no identity.  A bundle without certificates
    accepts nothing, and the client certificate is presented exactly when its
    pair parses. *)
Theorem backend_tls_exact {x509 : X509} {laws : X509Laws x509} (dialled : string) (tls : BackendTLSConfig)
    (timeout : Z) (peers : list Certificate) :
  tls_ServerName tls <> "" ->
  let roots := certs_of_PEM (tls_CABundlePEM tls) in
  exists cfg, newTransport BackendProtocolHTTP (Some tls) timeout = tlsTransport cfg timeout /\
    (handshake_accepts dialled cfg peers = true <->
       exists leaf intermediates, peers = leaf :: intermediates /\ Verify roots intermediates leaf = true /\
         (if HasSANConstraints (Some tls)
          then (exists name, name ∈ tls_SubjectAltNames tls /\ VerifyHostname leaf name = true) \/
               (exists uri, uri ∈ tls_SubjectAltNameURIs tls /\ uri ∈ cert_URIs leaf)
          else VerifyHostname leaf (tls_ServerName tls) = true)) /\
    (roots = [] -> handshake_accepts dialled cfg peers = false) /\
    tc_Certificates cfg = (if HasClientCert (Some tls)
                           then option_list (X509KeyPair (tls_ClientCertPEM tls) (tls_ClientKeyPEM tls)) else []).
Proof.
  intros Hname roots. eexists. split; [reflexivity|]. fold roots.
  assert (Hacc : handshake_accepts dialled (buildBackendTLSConfig tls roots) peers = true <->
    exists leaf intermediates, peers = leaf :: intermediates /\ Verify roots intermediates leaf = true /\
      (if HasSANConstraints (Some tls)
       then (exists name, name ∈ tls_SubjectAltNames tls /\ VerifyHostname leaf name = true) \/
            (exists uri, uri ∈ tls_SubjectAltNameURIs tls /\ uri ∈ cert_URIs leaf)
       else VerifyHostname leaf (tls_ServerName tls) = true)).
  { destruct peers as [|leaf intermediates]; [split; [done|by intros (? & ? & ? & _)]|].
    transitivity (Verify roots intermediates leaf = true /\
      (if HasSANConstraints (Some tls)
       then (exists name, name ∈ tls_SubjectAltNames tls /\ VerifyHostname leaf name = true) \/
            (exists uri, uri ∈ tls_SubjectAltNameURIs tls /\ uri ∈ cert_URIs leaf)
       else VerifyHostname leaf (tls_ServerName tls) = true)).
    2:{ split; [intros; by exists leaf, intermediates|by intros (? & ? & [= <- <-] & ?)]. }
    apply handshake_cases; done. }
  split_and!; [exact Hacc| |].
  - intros Hr. apply not_true_is_false. intros (leaf & ints & _ & Hv & _)%Hacc. by rewrite Hr, Verify_no_roots in Hv.
  - unfold buildBackendTLSConfig, attachClientCert. destruct (HasClientCert (Some tls)); cbn [negb].
    + by destruct (X509KeyPair _ _), (negb (HasSANConstraints (Some tls))).
    + by destruct (negb (HasSANConstraints (Some tls))).
Qed.

(** ** Examples *)

Definition no_tokens : HttpGuts := fun _ _ => false.
Lemma serve_dials_safely_witness : exists reply mirrors req' result b u out,
  @ServeHTTP no_hash host_url no_tokens (fun _ => 0%Z) example_table [] [] example_request = Some (reply, mirrors) /\
  Route (fun _ => 0%Z) example_table example_request = Some result /\ @dialable host_url result u b /\
  proxied_request u req' out /\
  reply = proxied (@transportKey no_hash (url_Host u) (be_Protocol b) (be_TLS b) (ruleHeaderTimeout (rule_Timeouts (rr_Rule result))))
            out (rr_Filters result ++ rr_BackendFilters result).
Proof.
  assert (Hd : match @ServeHTTP no_hash host_url no_tokens (fun _ => 0%Z) example_table [] [] example_request with
               | Some (reply, _) => dials reply | None => false end = true) by (vm_compute; reflexivity).
  assert (Hs : (rule_UnavailableStatus ∘ rr_Rule) <$> Route (fun _ => 0%Z) example_table example_request = Some 0%Z)
    by (vm_compute; reflexivity).
  assert (Hw : match Route (fun _ => 0%Z) example_table example_request with
               | Some result => forallb (fun b => negb (be_WebSocket b)) (rule_Backends (rr_Rule result)) | None => false end = true)
    by (vm_compute; reflexivity).
  destruct (@ServeHTTP no_hash host_url no_tokens (fun _ => 0%Z) example_table [] [] example_request)
    as [[reply mirrors]|] eqn:E; [|discriminate Hd].
  pose proof (@serve_dials_safely no_hash host_url no_tokens _ _ _ _ _ _ _ E) as H.
  destruct (Route (fun _ => 0%Z) example_table example_request) as [result|]; [|discriminate Hs].
  injection Hs as Hs. cbn zeta in H. unfold compose in Hs. rewrite Hs in H. destruct H as (Hdial & Hans & _).
  destruct (proj1 Hdial Hd) as (req' & b & u & Hf & Hb). destruct (Hans req' Hf) as [Hreq _]. specialize (Hreq b u Hb).
  rewrite forallb_forall in Hw. rewrite (proj1 (negb_true_iff _) (Hw b ltac:(apply list_elem_of_In, list_elem_of_lookup_2 with (Z.to_nat (rr_BackendIdx result)), Hb))) in Hreq.
  destruct Hreq as (out & Hout & Hr). exists reply, mirrors, req', result, b, u, out. by split_and!.
Defined.

(** Certificates as numbers: the bundle ["ca"] holds the root [0], which signed the leaf [1]. *)
Definition toy_x509 : X509 := {|
  Certificate := nat; KeyPair := string;
  certs_of_PEM pem := if bool_decide (pem = "ca") then [0] else [];
  Verify roots _ leaf := bool_decide (0 ∈ roots) && (leaf =? 1);
  VerifyHostname leaf name := (leaf =? 1) && bool_decide (name = "svc.example.com");
  cert_URIs _ := ["spiffe://svc"];
  X509KeyPair _ _ := None;
  system_roots := [] |}.
#[export] Instance toy_x509_laws : X509Laws toy_x509.
Proof. split; reflexivity. Qed.
Lemma backend_tls_exact_witness :
  let tls := mkBackendTLSConfig "ca" "svc.example.com" [] ["spiffe://svc"] "" "" in
  exists cfg, @newTransport toy_x509 BackendProtocolHTTP (Some tls) 0 = tlsTransport cfg 0 /\
    @handshake_accepts toy_x509 "10.0.0.1" cfg [1] = true.
Proof.
  intros tls. destruct (@backend_tls_exact toy_x509 _ "10.0.0.1" tls 0 [1] ltac:(discriminate)) as (cfg & Hcfg & Hacc & _).
  exists cfg. split; [exact Hcfg|]. apply Hacc. exists 1, []. split; [reflexivity|]. split; [vm_compute; reflexivity|].
  right. exists "spiffe://svc". split; left.
Defined.

(** The upgrade request keeps the client's headers, the two internal ones
    included, and is addressed to the backend's host whatever Host the client
    asked for or a filter rewrote it to. *)
Lemma upgrade_keeps_internal_headers req backendURL :
  let out := buildBackendUpgradeRequest req backendURL in
  req_Header out = req_Header req /\ req_Host out = url_Host backendURL /\
  (url_Path backendURL = "" -> url_RawPath (req_URL out) = "").
Proof.
  cbn zeta. split_and!; [done..|]. intros Hp. unfold buildBackendUpgradeRequest, applyBackendBasePath. rewrite Hp. cbn.
  by destruct (bool_decide (url_RawQuery backendURL = "")).
Qed.
(** The marker of a rewritten host is a header, so a client that sends it keeps
    the proxy from restoring the Host it carried in X-Original-Host. *)
Lemma client_marker_blocks_restore :
  let h : Header := {["X-Original-Host" := ["shop.example.com"]; "X-Proxy-Host-Rewritten" := ["1"]]} in
  let backend := mkURL "http" "svc:80" "" "" "" in
  req_Host (Director backend (plain_request "GET" "tunnel.cfargotunnel.com" "/" "" h)) = "tunnel.cfargotunnel.com" /\
  req_Host (Director backend (plain_request "GET" "tunnel.cfargotunnel.com" "/" ""
    {["X-Original-Host" := ["shop.example.com"]]})) = "shop.example.com".
Proof. vm_compute. done. Qed.
(** An encoded slash of the backend's base path is not kept. *)
Lemma base_path_escape_lost :
  let backend := mkURL "http" "ext:80" "/a/b" "/a%2Fb" "" in
  EscapedPath (req_URL (Director backend (plain_request "GET" "h" "/x" "" ∅))) = "/a/b/x".
Proof. vm_compute. reflexivity. Qed.
