(* ===== verification/HostnameOwnership.v ===== *)
(** * Hostname ownership ([internal/hostnameownership])

    The controller-side policy that binds a namespace to one hostname suffix,
    and the table of vectors both enforcement layers share.  [labels.Parse] is
    the parameter [SelectorParser]: it compiles a label-selector expression to a
    predicate on labels, or fails. *)
From Stdlib Require Import Ascii.
From stdpp Require Import base sets gmap strings list.
From S2P Require Import Prelude GoStrings RouteBinding Shadow.

Class SelectorParser := labels_Parse : string -> option (Labels -> bool).

Definition RouteReasonHostnameNotPermitted : string := "HostnameNotPermitted".
Inductive OwnershipError := errEmptyLabelKey | errParseSelector.

Record Policy := mkPolicy { pol_labelKey : string; pol_selector : option (Labels -> bool) }.
Record Verdict := mkVerdict { v_Allowed : bool; v_Message : string }.

Definition New {parser : SelectorParser} (labelKey namespaceSelector : string) : res OwnershipError Policy :=
  if bool_decide (TrimSpace labelKey = "") then Err errEmptyLabelKey
  else if negb (bool_decide (TrimSpace namespaceSelector = "")) then
    match labels_Parse namespaceSelector with
    | None => Err errParseSelector
    | Some selector => Ok (mkPolicy labelKey (Some selector))
    end
  else Ok (mkPolicy labelKey None).

Definition hostnameWithinSuffix (hostname suffix : string) : bool :=
  let candidate := ToLower hostname in
  let candidate := TrimPrefix candidate "*." in
  bool_decide (candidate = suffix) || HasSuffix candidate ("." +:+ suffix).

Definition msgNoLabel (labelKey : string) : string :=
  "namespace is policed by the hostname-ownership policy but carries no " +:+ quoted labelKey +:+ " label; " +:+
  "label the namespace with its allowed hostname suffix or exclude it from the policy scope".
Definition msgNoHostnames (suffix : string) : string :=
  "routes in hostname-ownership-policed namespaces must declare spec.hostnames explicitly " +:+
  "(an empty list would capture the listener hostname); allowed suffix: " +:+ quoted suffix.
Definition msgOutside (hostname suffix : string) : string :=
  "hostname " +:+ quoted hostname +:+ " is outside the namespace's allowed suffix " +:+ quoted suffix +:+ "; " +:+
  "all route hostnames must equal the suffix or be subdomains of it".

Definition Evaluate (p : Policy) (nsLabels : Labels) (hostnames : list string) : Verdict :=
  if match pol_selector p with Some matches => negb (matches nsLabels) | None => false end
  then mkVerdict true ""
  else
    let suffix := ToLower (default "" (nsLabels !! pol_labelKey p)) in
    if bool_decide (suffix = "") then mkVerdict false (msgNoLabel (pol_labelKey p))
    else if length hostnames =? 0 then mkVerdict false (msgNoHostnames suffix)
    else
      match List.find (fun hostname => negb (hostnameWithinSuffix hostname suffix)) hostnames with
      | Some hostname => mkVerdict false (msgOutside hostname suffix)
      | None => mkVerdict true ""
      end.

(** ** The shared vectors ([vectors.go]) *)

Definition vectorSuffix : string := "team-a.example.com".
Definition vectorInsideHost : string := "app.team-a.example.com".
Definition vectorForeignHost : string := "app.team-b.example.com".

Record Vector := mkVector {
  vec_Name : string;
  vec_Suffix : string;
  vec_Hostnames : list string;
  vec_WantAllowed : bool;
}.
Definition allowedVectors : list Vector :=
  [ mkVector "exact suffix match allowed" vectorSuffix [vectorSuffix] true;
    mkVector "subdomain allowed" vectorSuffix [vectorInsideHost] true;
    mkVector "deep subdomain allowed" vectorSuffix ["x.y.team-a.example.com"] true;
    mkVector "wildcard within suffix allowed" vectorSuffix ["*.team-a.example.com"] true;
    mkVector "multiple in-suffix hostnames allowed" vectorSuffix
      ["a.team-a.example.com"; "b.team-a.example.com"] true;
    mkVector "uppercase suffix label normalized" "Team-A.Example.COM" [vectorInsideHost] true ].
Definition deniedVectors : list Vector :=
  [ mkVector "foreign hostname denied" vectorSuffix [vectorForeignHost] false;
    mkVector "suffix-string trick denied" vectorSuffix ["evilteam-a.example.com"] false;
    mkVector "suffix as prefix of foreign zone denied" vectorSuffix ["team-a.example.com.evil.net"] false;
    mkVector "wildcard escaping the suffix denied" vectorSuffix ["*.example.com"] false;
    mkVector "parent zone denied" vectorSuffix ["example.com"] false;
    mkVector "mixed in and out denied" vectorSuffix ["ok.team-a.example.com"; vectorForeignHost] false;
    mkVector "no hostnames denied" vectorSuffix [] false;
    mkVector "present-but-empty hostnames denied" vectorSuffix [] false;
    mkVector "missing ownership label denied" "" [vectorInsideHost] false ].
Definition Vectors : list Vector := allowedVectors ++ deniedVectors.

(** The namespace a vector describes: an empty suffix leaves the label out. *)
Definition vector_labels (key : string) (v : Vector) : Labels :=
  if bool_decide (vec_Suffix v = "") then ∅ else {[key := vec_Suffix v]}.

(** ** What the policy guarantees *)

(** A host the namespace owns: its suffix or a subdomain of it. *)
Definition owned (suffix h : string) : Prop := h = suffix \/ HasSuffix h ("." +:+ suffix) = true.
(** The namespace is in the policy's scope. *)
Definition policed (p : Policy) (nsLabels : Labels) : Prop :=
  match pol_selector p with Some matches => matches nsLabels = true | None => True end.

Lemma HasSuffix_under a b s : HasSuffix b s = true -> HasSuffix (a +:+ b) s = true.
Proof. intros [t ->]%HasSuffix_spec. rewrite <-sapp_assoc. apply HasSuffix_app. Qed.

(** Only the part after the wildcard matters, because the label is arbitrary. *)
Lemma wildcard_owned t suffix :
  (forall label, label <> "" -> owned suffix (label +:+ "." +:+ t)) <-> owned suffix t.
Proof.
  unfold owned. split.
  - intros Hall.
    assert (Hone : forall c, c <> "."%char -> String c EmptyString +:+ "." +:+ t = suffix \/ owned suffix t).
    { intros c Hc. destruct (Hall (String c EmptyString)) as [H|[u Hu]%HasSuffix_spec]; [done|by left|].
      right. destruct u as [|c1 u]; [by simplify_eq/=|].
      destruct u as [|c2 u]; rewrite ?sapp_cons, ?sapp_nil_l in Hu; simplify_eq; [by left|].
      right. apply HasSuffix_app. }
    destruct (Hone "a"%char) as [Ha|?]; [done| |done].
    destruct (Hone "b"%char) as [Hb|?]; [done| |done]. by rewrite <-Hb in Ha.
  - intros [->|H] label _; right; [apply HasSuffix_app|]. by do 2 apply HasSuffix_under.
Qed.

Lemma hostnameWithinSuffix_spec hostname suffix :
  hostnameWithinSuffix hostname suffix = true <-> forall h, denotes hostname h -> owned suffix h.
Proof.
  unfold hostnameWithinSuffix, denotes. rewrite orb_true_iff, bool_decide_eq_true.
  destruct (HasPrefix (ToLower hostname) "*.") eqn:Hw.
  - apply wildcard_suffix in Hw as (t & -> & ->). rewrite TrimPrefix_app.
    fold (owned suffix t). rewrite <-wildcard_owned.
    split; [intros H h (label & ? & ->); auto|intros H label ?; apply H; eauto].
  - rewrite TrimPrefix_none by done. split; [by intros H h ->|]. intros H. by apply H.
Qed.

(** The policy admits exactly the routes that stay inside their namespace's
    zone.  A route passes when its namespace is out of scope, or when the
    namespace carries a non-empty suffix label, the route names hostnames, and
    every host any of its hostnames can match, wildcards included, is the suffix
    or a subdomain of it; a missing label or an empty list denies.  A denial
    always carries a message. *)
Theorem ownership_exact (p : Policy) (nsLabels : Labels) (hostnames : list string) :
  let suffix := ToLower (default "" (nsLabels !! pol_labelKey p)) in
  (v_Allowed (Evaluate p nsLabels hostnames) = true <->
     ~ policed p nsLabels \/
     (suffix <> "" /\ hostnames <> [] /\
      forall hostname h, hostname ∈ hostnames -> denotes hostname h -> owned suffix h)) /\
  (v_Allowed (Evaluate p nsLabels hostnames) = false <-> v_Message (Evaluate p nsLabels hostnames) <> "").
Proof.
  intros suffix. unfold Evaluate, policed. fold suffix.
  destruct (match pol_selector p with Some _ => _ | None => false end) eqn:Hsel.
  { destruct (pol_selector p) as [matches|]; [|done]. simpl. destruct (matches nsLabels); [done|].
    split; [|done]. split; [by left|done]. }
  assert (Hpol : ~ ~ match pol_selector p with Some matches => matches nsLabels = true | None => True end).
  { revert Hsel. destruct (pol_selector p) as [matches|]; [|tauto]. destruct (matches nsLabels); [tauto|done]. }
  case_bool_decide as Hs; [split; [split; [done|tauto]|split; [intros _; discriminate|done]]|].
  destruct hostnames as [|h0 hs]; [split; [split; [done|tauto]|split; [intros _; discriminate|done]]|].
  cbn [length Nat.eqb]. destruct (List.find _ (h0 :: hs)) as [bad|] eqn:Hf.
  - split; [|split; [intros _; discriminate|done]]. split; [done|]. intros [?|(_ & _ & Hall)]; [done|].
    apply List.find_some in Hf as [Hin%list_elem_of_In Hout].
    assert (hostnameWithinSuffix bad suffix = true) by (apply hostnameWithinSuffix_spec; eauto).
    by rewrite H in Hout.
  - split; [|done]. split; [|done]. intros _. right. split_and!; [done..|].
    intros hostname h Hin. rewrite find_none_forall in Hf. specialize (Hf _ Hin).
    apply negb_false_iff in Hf. by apply hostnameWithinSuffix_spec.
Qed.

(** Every vector of the table comes out as it says, whatever the label key. *)
Lemma vectors_hold :
  forallb (fun v => eqb (v_Allowed (Evaluate (mkPolicy "zone" None) (vector_labels "zone" v) (vec_Hostnames v)))
                        (vec_WantAllowed v)) Vectors = true.
Proof. vm_compute. reflexivity. Qed.
