(* ===== verification/RenderNames.v ===== *)
(** * Names of rendered resources ([internal/render/render.go])

    The resources of a dedicated data plane are named after their Gateway.  A
    Gateway's name is a DNS subdomain of up to 253 bytes, a Service's a DNS
    label of 63: long or dotted names are cut and tagged with a hash.  Names are
    ASCII. *)
From Stdlib Require Import Ascii.
From stdpp Require Import base strings list.
From S2P Require Import Prelude GoStrings GoHttp Filters RouterState.

Definition namePrefix : string := "cf-proxy-".
Definition configNameSuffix : string := "-config".
Definition netpolNameSuffix : string := "-netpol".
Definition MaxDNSLabelLength : nat := 63.
Definition nameHashLength : nat := 8.
Definition configAPIPort : Z := 8081.

Definition label_byte (c : ascii) : bool := is_lower c || is_digit c || bool_decide (c = "-"%char).
Definition is_alnum (c : ascii) : bool := is_lower c || is_digit c.
Definition is_hex (c : ascii) : bool := is_digit c || in_range "a" "f" c.

Definition sanitizeDNSLabel (name : string) : string :=
  string_map (fun c => if label_byte c then c else "-"%char) (ToLower name).

Fixpoint str_last (s : string) : option ascii :=
  match s with
  | EmptyString => None
  | String c EmptyString => Some c
  | String _ s' => str_last s'
  end.
Definition isAlphanumericEdged (name : string) : bool :=
  match name with
  | EmptyString => false
  | String c _ => is_alnum c && from_option is_alnum false (str_last name)
  end.

Definition hasHashSuffixShape (name : string) : bool :=
  let tail := str_drop (String.length name - nameHashLength - 1) name in
  (nameHashLength + 1 <=? String.length name) && HasPrefix tail "-" && str_forallb is_hex (str_drop 1 tail).

(** [strings.Trim(s, "-")] *)
Fixpoint trim_left (s : string) : string :=
  match s with
  | String c s' => if bool_decide (c = "-"%char) then trim_left s' else s
  | EmptyString => EmptyString
  end.
Fixpoint trim_right (s : string) : string :=
  match s with
  | EmptyString => EmptyString
  | String c s' =>
      let t := trim_right s' in
      if bool_decide (t = "") && bool_decide (c = "-"%char) then EmptyString else String c t
  end.
Definition trim_dashes (s : string) : string := trim_right (trim_left s).

Section names.
Context {hash : Sha256}.

Definition name_hash (name : string) : string := str_take nameHashLength (hex_EncodeToString (sha256_Sum name)).

Definition truncateName (name : string) : string :=
  let sanitized := sanitizeDNSLabel name in
  if bool_decide (sanitized = name) && (String.length name <=? MaxDNSLabelLength) &&
     isAlphanumericEdged name && negb (hasHashSuffixShape name)
  then name
  else
    let suffix := name_hash name in
    let keep := Nat.min (String.length sanitized) (MaxDNSLabelLength - nameHashLength - 1) in
    let body := trim_dashes (str_take keep sanitized) in
    if bool_decide (body = "") then suffix else body +:+ "-" +:+ suffix.

Definition DeploymentName (gateway : string) : string := truncateName (namePrefix +:+ gateway).
Definition ConfigServiceName (gateway : string) : string := truncateName (namePrefix +:+ gateway +:+ configNameSuffix).
Definition NetworkPolicyName (gateway : string) : string := truncateName (namePrefix +:+ gateway +:+ netpolNameSuffix).
Definition GeneratedAuthSecretName (gateway : string) : string := truncateName (namePrefix +:+ gateway +:+ "-auth").
Definition GatewayLabelValue (gatewayName : string) : string := truncateName gatewayName.
Definition ConfigEndpointURL (gateway namespace clusterDomain : string) : string :=
  "http://" +:+ ConfigServiceName gateway +:+ "." +:+ namespace +:+ ".svc." +:+ clusterDomain +:+ ":" +:+
  Itoa configAPIPort +:+ "/config".
End names.

(** ** Rendered names are labels, and distinct *)

(** A digest has 32 bytes. *)
Class Sha256Laws (hash : Sha256) : Prop := sha256_length s : String.length (sha256_Sum s) = 32.

(** A DNS-1123 label. *)
Definition dns_label (s : string) : Prop :=
  String.length s <= MaxDNSLabelLength /\ str_forallb label_byte s = true /\ isAlphanumericEdged s = true.

Lemma str_forallb_map p f s : (forall c, p (f c) = true) -> str_forallb p (string_map f s) = true.
Proof. intros H. induction s as [|c s IH]; simpl; [done|]. by rewrite H. Qed.
Lemma str_forallb_take p n s : str_forallb p s = true -> str_forallb p (str_take n s) = true.
Proof.
  revert n. induction s as [|c s IH]; intros [|n] H; simpl in *; try done.
  apply andb_true_iff in H as [-> H]. simpl. auto.
Qed.
Lemma trim_left_spec s :
  str_forallb label_byte s = true ->
  str_forallb label_byte (trim_left s) = true /\ String.length (trim_left s) <= String.length s /\
  match trim_left s with String c _ => is_alnum c = true | EmptyString => True end.
Proof.
  induction s as [|c s IH]; cbn [trim_left]; [done|]. intros Hs. pose proof Hs as Hs'.
  cbn [str_forallb] in Hs. apply andb_true_iff in Hs as [Hc Hs].
  case_bool_decide as Hd.
  - destruct (IH Hs) as (? & ? & ?). split_and!; [done|simpl; lia|done].
  - split_and!; [done|done|]. unfold label_byte in Hc. unfold is_alnum.
    destruct (is_lower c), (is_digit c); try done. simpl in Hc. by rewrite bool_decide_eq_true in Hc.
Qed.
Lemma str_last_app s t c : str_last (s +:+ String c t) = str_last (String c t).
Proof.
  induction s as [|d s IH]; [done|]. rewrite sapp_cons. cbn [str_last]. rewrite IH. by destruct s.
Qed.
Lemma trim_right_spec s :
  str_forallb label_byte s = true ->
  str_forallb label_byte (trim_right s) = true /\ String.length (trim_right s) <= String.length s /\
  (trim_right s <> "" -> from_option is_alnum false (str_last (trim_right s)) = true) /\
  match s, trim_right s with String c _, String d _ => c = d | _, _ => True end.
Proof.
  induction s as [|c s IH]; cbn [trim_right]; [done|]. cbn [str_forallb]. rewrite andb_true_iff. intros [Hc Hs].
  destruct (IH Hs) as (Hb & Hl & Hlast & _). destruct (trim_right s) as [|d t] eqn:Ht; simpl in Hl.
  - simpl. case_bool_decide as Hd; simpl; [split_and!; try done; lia|].
    rewrite Hc. split_and!; try done; [lia|]. intros _. unfold label_byte in Hc. unfold is_alnum.
    destruct (is_lower c), (is_digit c); try done. simpl in Hc. by rewrite bool_decide_eq_true in Hc.
  - cbn [bool_decide decide_rel andb]. rewrite bool_decide_eq_false_2 by done. cbn [andb].
    split_and!; [by cbn [str_forallb]; rewrite Hc|cbn [String.length]; lia|intros _; by apply Hlast|done].
Qed.

Lemma hex_lower_byte c : is_hex (hex_lower (byte_val c / 16)) = true /\ is_hex (hex_lower (byte_val c mod 16)) = true.
Proof. destruct c as [[] [] [] [] [] [] [] []]; vm_compute; done. Qed.
Lemma is_hex_label c : is_hex c = true -> is_alnum c = true.
Proof. destruct c as [[] [] [] [] [] [] [] []]; intros Hc; solve [discriminate Hc|done]. Qed.
Lemma is_alnum_label c : is_alnum c = true -> label_byte c = true.
Proof. unfold is_alnum, label_byte. by intros ->. Qed.
Lemma hex_Encode_hex s : str_forallb is_hex (hex_EncodeToString s) = true.
Proof.
  induction s as [|c s IH]; [done|]. cbn [hex_EncodeToString str_forallb].
  destruct (hex_lower_byte c) as [-> ->]. done.
Qed.
Lemma hex_Encode_length s : String.length (hex_EncodeToString s) = 2 * String.length s.
Proof. induction s as [|c s IH]; [done|]. cbn [hex_EncodeToString String.length]. lia. Qed.
Lemma str_forallb_last p s : s <> "" -> str_forallb p s = true -> from_option p false (str_last s) = true.
Proof.
  induction s as [|c s IH]; [done|]. intros _. cbn [str_forallb]. rewrite andb_true_iff. intros [Hc Hs].
  destruct s as [|d s]; [done|]. cbn [str_last]. by apply IH.
Qed.

(** What is kept of a name on the hash path. *)
Definition truncated_body (name : string) : string :=
  trim_dashes (str_take (Nat.min (String.length (sanitizeDNSLabel name)) 54) (sanitizeDNSLabel name)).
Lemma sanitize_bytes n : str_forallb label_byte (sanitizeDNSLabel n) = true.
Proof. apply str_forallb_map. intros c. by destruct (label_byte c) eqn:Hc. Qed.
Lemma trim_dashes_kept c s : c <> "-"%char -> trim_dashes (String c s) <> "".
Proof.
  intros Hc. unfold trim_dashes. cbn [trim_left]. rewrite bool_decide_eq_false_2 by done. cbn [trim_right].
  rewrite (bool_decide_eq_false_2 (c = _)) by done. by rewrite andb_false_r.
Qed.
(** A prefixed name keeps a body. *)
Lemma prefixed_body n : truncated_body (namePrefix +:+ n) <> "".
Proof.
  unfold truncated_body, sanitizeDNSLabel. rewrite ToLower_app, string_map_app, length_sapp.
  set (m := string_map _ (ToLower n)).
  change (string_map _ (ToLower namePrefix)) with namePrefix. by apply (trim_dashes_kept "c").
Qed.

Section name_facts.
Context {hash : Sha256} {laws : Sha256Laws hash}.

Lemma name_hash_spec n : String.length (name_hash n) = nameHashLength /\ str_forallb is_hex (name_hash n) = true.
Proof.
  unfold name_hash. split; [|apply str_forallb_take, hex_Encode_hex].
  apply length_str_take. rewrite hex_Encode_length, sha256_length. unfold nameHashLength. lia.
Qed.
Lemma name_hash_label n : str_forallb label_byte (name_hash n) = true.
Proof.
  destruct (name_hash_spec n) as [_ H]. revert H. apply str_forallb_impl.
  intros c Hc. by apply is_alnum_label, is_hex_label.
Qed.

Lemma truncateName_cases n :
  (truncateName n = n /\ dns_label n /\ hasHashSuffixShape n = false) \/
  truncateName n = (if bool_decide (truncated_body n = "") then name_hash n
                    else truncated_body n +:+ "-" +:+ name_hash n).
Proof.
  unfold truncateName. change (MaxDNSLabelLength - nameHashLength - 1) with 54. fold (truncated_body n).
  destruct (bool_decide (sanitizeDNSLabel n = n)) eqn:Hs; [|by right].
  destruct (String.length n <=? MaxDNSLabelLength) eqn:Hl; [|by right].
  destruct (isAlphanumericEdged n) eqn:He; [|by right].
  destruct (hasHashSuffixShape n) eqn:Hh; [by right|left]. apply bool_decide_eq_true in Hs. apply Nat.leb_le in Hl.
  split_and!; try done. split_and!; try done. rewrite <-Hs. apply sanitize_bytes.
Qed.

Lemma truncated_body_spec n :
  String.length (truncated_body n) <= 54 /\ str_forallb label_byte (truncated_body n) = true /\
  (truncated_body n <> "" -> isAlphanumericEdged (truncated_body n) = true).
Proof.
  unfold truncated_body, trim_dashes. set (t := str_take _ _).
  assert (Ht : str_forallb label_byte t = true).
  { apply str_forallb_take, sanitize_bytes. }
  assert (Hlen : String.length t <= 54) by (subst t; rewrite length_str_take; lia).
  destruct (trim_left_spec t Ht) as (Hl & Hll & Hfirst). destruct (trim_right_spec _ Hl) as (Hr & Hrl & Hlast & Hsame).
  split_and!; [lia|done|]. intros Hne. specialize (Hlast Hne).
  destruct (trim_left t) as [|c u]; [done|]. destruct (trim_right (String c u)) as [|d v] eqn:Hv; [done|].
  subst d. unfold isAlphanumericEdged. by rewrite Hfirst, Hlast.
Qed.

(** The hash path's output ends in the shape the pass-through excludes. *)
Lemma hash_shape n body : hasHashSuffixShape (body +:+ "-" +:+ name_hash n) = true.
Proof.
  destruct (name_hash_spec n) as [Hl Hx]. unfold hasHashSuffixShape.
  rewrite !length_sapp, Hl. cbn [String.length].
  replace (String.length body + (1 + nameHashLength) - nameHashLength - 1) with (String.length body) by lia.
  rewrite str_drop_app, HasPrefix_app.
  change (str_drop 1 ("-" +:+ name_hash n)) with (name_hash n). rewrite Hx.
  rewrite (proj2 (Nat.leb_le _ _)); [done|]. lia.
Qed.
End name_facts.

(** Rendered names are valid and do not collide.  For every Gateway name, each
    name builder yields a DNS label of at most 63 bytes with alphanumeric ends,
    and two Gateways share a rendered name of one kind only when their full names
    agree or the truncated SHA-256 of their full names does: no name that passes
    through can equal one that was cut and hashed. *)
Theorem rendered_names_distinct {hash : Sha256} {laws : Sha256Laws hash} (suffix : string) (gw1 gw2 : string) :
  let full gw := namePrefix +:+ gw +:+ suffix in
  dns_label (truncateName (full gw1)) /\
  (truncateName (full gw1) = truncateName (full gw2) ->
   gw1 = gw2 \/ name_hash (full gw1) = name_hash (full gw2)).
Proof.
  intros full.
  assert (Hform : forall gw,
    (truncateName (full gw) = full gw /\ dns_label (full gw) /\ hasHashSuffixShape (full gw) = false) \/
    truncateName (full gw) = truncated_body (full gw) +:+ "-" +:+ name_hash (full gw)).
  { intros gw. destruct (truncateName_cases (full gw)) as [?|H]; [by left|right].
    rewrite H, bool_decide_eq_false_2; [done|]. apply prefixed_body. }
  split.
  - destruct (Hform gw1) as [(-> & ? & _)| ->]; [done|].
    destruct (truncated_body_spec (full gw1)) as (Hl & Hb & He). destruct (name_hash_spec (full gw1)) as [Hhl Hhx].
    specialize (He (prefixed_body _)). unfold dns_label. split; [|split].
    + rewrite !length_sapp, Hhl. unfold MaxDNSLabelLength, nameHashLength. cbn [String.length]. lia.
    + rewrite !str_forallb_app, Hb, name_hash_label. done.
    + destruct (name_hash (full gw1)) as [|x h] eqn:Hh; [done|].
      assert (Hne : truncated_body (full gw1) <> "") by apply prefixed_body.
      destruct (truncated_body (full gw1)) as [|c b]; [done|].
      unfold isAlphanumericEdged in He |- *. rewrite sapp_cons. apply andb_true_iff in He as [-> _]. cbn [andb].
      rewrite <-sapp_cons, <-sapp_assoc, str_last_app. apply (str_forallb_last is_alnum); [done|].
      revert Hhx. apply str_forallb_impl, is_hex_label.
  - destruct (Hform gw1) as [(H1 & _ & Hs1)|H1], (Hform gw2) as [(H2 & _ & Hs2)|H2]; rewrite H1, H2; intros He.
    + left. unfold full in He. by apply sapp_inv_head, sapp_inv_tail in He.
    + rewrite He, hash_shape in Hs1. done.
    + rewrite <-He, hash_shape in Hs2. done.
    + right. destruct (name_hash_spec (full gw1)) as [Hl1 _], (name_hash_spec (full gw2)) as [Hl2 _].
      rewrite <-!sapp_assoc in He. apply sapp_eq_length_r in He as [_ ?]; [done|]. by rewrite Hl1, Hl2.
Qed.
(** A digest function for the examples. *)
Definition constant_digest : Sha256 := fun _ => "0123456789abcdef0123456789abcdef".
Lemma constant_digest_laws : Sha256Laws constant_digest.
Proof. intros s. reflexivity. Defined.
Lemma rendered_names_distinct_witness :
  dns_label (@DeploymentName constant_digest "my.edge") /\
  @DeploymentName constant_digest "my.edge" = "cf-proxy-my-edge-30313233" /\
  @DeploymentName constant_digest "my-edge" = "cf-proxy-my-edge".
Proof.
  split; [|split; reflexivity]. 
  exact (proj1 (@rendered_names_distinct constant_digest constant_digest_laws "" "my.edge" "my-edge")).
Defined.
