(* ===== verification/ConfigResolver.v ===== *)
(** * Configuration of data planes ([internal/config])

    The resolution of the shared plane's credentials from a GatewayClass, of a
    dedicated plane's from a Gateway's parametersRef, and the account lookup with
    its cache.  Reads of the cluster are the parameter [ConfigReader]; decoding a
    connector token is [TokenDecoder]. *)
From Stdlib Require Import Ascii.
From stdpp Require Import base gmap strings list.
From S2P Require Import Prelude GoStrings RouteBinding RouterState RenderNames.

(** ** Objects *)

Record LocalSecretReference := mkLocalSecretReference { lsr_Name : string; lsr_Key : string }.
Definition KeyOr (r : LocalSecretReference) (fallback : string) : string :=
  if bool_decide (lsr_Key r = "") then fallback else lsr_Key r.
Record SecretReference := mkSecretReference { sref_Name : string; sref_Namespace : string; sref_Key : string }.
Definition GetAPITokenKey (r : SecretReference) : string :=
  if bool_decide (sref_Key r = "") then "api-token" else sref_Key r.

Record ProxyAutoscaling := mkProxyAutoscaling {
  pa_MinReplicas : option Z;
  pa_MaxReplicas : Z;
  pa_TargetInflightPerPod : Z;
  pa_MetricName : string;
}.
(** [corev1.ResourceRequirements]: quantities by resource name. *)
Record ResourceRequirements := mkResourceRequirements {
  rq_Limits : gmap string string;
  rq_Requests : gmap string string;
}.
Record GatewayConfig := mkGatewayConfig {
  gcfg_Namespace : string;
  gcfg_Name : string;
  gcfg_TunnelTokenSecretRef : LocalSecretReference;
  gcfg_CloudflareCredentialsSecretRef : option LocalSecretReference;
  gcfg_AuthTokenSecretRef : option LocalSecretReference;
  gcfg_Replicas : option Z;
  gcfg_Autoscaling : option ProxyAutoscaling;
  gcfg_Resources : option ResourceRequirements;
  gcfg_Image : string;
}.
Record GatewayClassConfig := mkGatewayClassConfig {
  gcc_Name : string;
  gcc_CloudflareCredentialsSecretRef : SecretReference;
  gcc_AccountID : string;
  gcc_TunnelID : string;
}.
Record ParametersReference := mkParametersReference {
  pr_Group : string; pr_Kind : string; pr_Name : string; pr_Namespace : option string }.
Record GatewayClass := mkGatewayClass {
  gc_Name : string; gc_ControllerName : string; gc_ParametersRef : option ParametersReference }.
(** A Gateway with the fields the binding does not read;
    [go_ParametersRef] is [spec.infrastructure.parametersRef], [go_ClientCertRef]
    [spec.tls.backend.clientCertificateRef]. *)
Record GatewayObject := mkGatewayObject {
  go_Gateway : Gateway;
  go_Generation : Z;
  go_ClassName : string;
  go_ParametersRef : option ParametersReference;
  go_ClientCertRef : option SecretObjectReference;
}.

(** [Secret.Data] *)
Definition SecretData : Type := gmap string string.

(** ** What the API server and the token say *)

Inductive ApiError := apiNotFound | apiRetryable | apiOther.
Class ConfigReader := {
  get_GatewayConfig : string -> string -> res ApiError GatewayConfig;      (* namespace, name *)
  get_GatewayClass : string -> res ApiError GatewayClass;
  get_GatewayClassConfig : string -> res ApiError GatewayClassConfig;
  get_Secret : string -> string -> res ApiError SecretData;                (* namespace, name *)
}.

Record Token := mkToken { tok_AccountTag : string; tok_TunnelSecret : string; tok_TunnelID : string }.
(** [base64.StdEncoding.DecodeString] and [json.Unmarshal] into a [Token];
    the tunnel ID is [uuid.UUID.String()]. *)
Class TokenDecoder := {
  base64_Decode : string -> option string;
  token_Unmarshal : string -> option Token;
}.
Definition uuid_Nil : string := "00000000-0000-0000-0000-000000000000".

Inductive TokenError :=
| errEmptyToken | errInvalidBase64 | errInvalidTokenJSON | errMissingAccountID | errMissingTunnelID | errMissingSecret.
Definition ParseTunnelToken {decoder : TokenDecoder} (tokenStr : string) : res TokenError Token :=
  if bool_decide (tokenStr = "") then Err errEmptyToken
  else
    match base64_Decode tokenStr with
    | None => Err errInvalidBase64
    | Some decoded =>
        match token_Unmarshal decoded with
        | None => Err errInvalidTokenJSON
        | Some token =>
            if bool_decide (tok_AccountTag token = "") then Err errMissingAccountID
            else if bool_decide (tok_TunnelID token = uuid_Nil) then Err errMissingTunnelID
            else if bool_decide (tok_TunnelSecret token = "") then Err errMissingSecret
            else Ok token
        end
    end.

(** ** Errors: a user error, an API failure that kept its identity, or a
    configuration error of the class chain *)
Inductive ConfigError :=
| ErrInvalidParameters
| ErrApi (e : ApiError)
| errNoParametersRef | errUnsupportedGroup | errUnsupportedKind | errTunnelIDRequired | errMissingKey | errEmptyKey
| errListAccounts | errNoAccounts | errMultipleAccounts (n : nat).
Definition isRetryableAPIError (e : ConfigError) : bool :=
  match e with ErrApi apiRetryable => true | _ => false end.

Definition ParametersRefGroup : string := "cf.k8s.lex.la".
Definition ParametersRefKind : string := "GatewayClassConfig".
Definition GatewayParametersRefKind : string := "GatewayConfig".
Definition tunnelTokenSecretKey : string := "tunnel-token".
Definition authTokenSecretKey : string := "auth-token".
Definition apiTokenSecretKey : string := "api-token".

Record ResolvedConfig := mkResolvedConfig {
  rc_APIToken : string; rc_AccountID : string; rc_TunnelID : string; rc_ConfigName : string }.
Record PerGatewayConfig := mkPerGatewayConfig {
  pg_Resolved : ResolvedConfig;
  pg_TunnelToken : string;
  pg_TunnelTokenSecret : string * string;   (* namespace, name *)
  pg_AuthToken : string;
  pg_GatewayConfig : GatewayConfig;
}.

Section resolver.
Context {reader : ConfigReader} {decoder : TokenDecoder} {hash : Sha256} (defaultNamespace : string).

(** ** The class chain ([resolver.go]) *)

Definition getSecret (name namespace : string) : res ApiError SecretData :=
  let namespace := if bool_decide (namespace = "") then defaultNamespace else namespace in
  get_Secret namespace name.

Definition resolveConfig (config : GatewayClassConfig) : res ConfigError ResolvedConfig :=
  if bool_decide (gcc_TunnelID config = "") then Err errTunnelIDRequired
  else
    let credentialsRef := gcc_CloudflareCredentialsSecretRef config in
    secret ← map_err ErrApi (getSecret (sref_Name credentialsRef) (sref_Namespace credentialsRef));
    match secret !! GetAPITokenKey credentialsRef with
    | None => Err errMissingKey
    | Some apiToken =>
        if bool_decide (apiToken = "") then Err errEmptyKey
        else
          let accountID :=
            if negb (bool_decide (gcc_AccountID config = "")) then gcc_AccountID config
            else default "" (secret !! "account-id") in
          Ok (mkResolvedConfig apiToken accountID (gcc_TunnelID config) (gcc_Name config))
    end.
Definition ResolveFromGatewayClass (class : GatewayClass) : res ConfigError ResolvedConfig :=
  match gc_ParametersRef class with
  | None => Err errNoParametersRef
  | Some ref =>
      if negb (bool_decide (pr_Group ref = ParametersRefGroup)) then Err errUnsupportedGroup
      else if negb (bool_decide (pr_Kind ref = ParametersRefKind)) then Err errUnsupportedKind
      else
        config ← map_err ErrApi (get_GatewayClassConfig (pr_Name ref));
        resolveConfig config
  end.
Definition ResolveFromGatewayClassName (className : string) : res ConfigError ResolvedConfig :=
  class ← map_err ErrApi (get_GatewayClass className);
  ResolveFromGatewayClass class.

(** The lookup of the account: the state is the cache, [accounts] what the
    Cloudflare API would list for the token. *)
Definition ResolveAccountID (accounts : string -> option (list string)) (resolved : ResolvedConfig)
    (accountIDCache : gmap string string) : res ConfigError string * gmap string string :=
  if negb (bool_decide (rc_AccountID resolved = "")) then (Ok (rc_AccountID resolved), accountIDCache)
  else
    match accountIDCache !! rc_ConfigName resolved with
    | Some accountID => (Ok accountID, accountIDCache)
    | None =>
        match accounts (rc_APIToken resolved) with
        | None => (Err errListAccounts, accountIDCache)
        | Some [] => (Err errNoAccounts, accountIDCache)
        | Some [accountID] => (Ok accountID, <[rc_ConfigName resolved := accountID]> accountIDCache)
        | Some l => (Err (errMultipleAccounts (length l)), accountIDCache)
        end
    end.

(** ** A dedicated plane ([resolver_gateway.go]) *)

Definition HasInfrastructureParametersRef (gateway : GatewayObject) : bool :=
  bool_decide (is_Some (go_ParametersRef gateway)).

(** A missing referent is the user's error; any other failure keeps its identity. *)
Definition classify (e : ApiError) : ConfigError :=
  match e with apiNotFound => ErrInvalidParameters | e => ErrApi e end.

Definition getGatewayConfig (gateway : GatewayObject) (ref : ParametersReference) : res ConfigError GatewayConfig :=
  if negb (bool_decide (pr_Group ref = ParametersRefGroup)) ||
     negb (bool_decide (pr_Kind ref = GatewayParametersRefKind)) then Err ErrInvalidParameters
  else map_err classify (get_GatewayConfig (gw_Namespace (go_Gateway gateway)) (pr_Name ref)).

Definition secret_value (secret : SecretData) (key : string) : res ConfigError string :=
  let token := default "" (secret !! key) in
  if bool_decide (token = "") then Err ErrInvalidParameters else Ok token.

Definition readTunnelToken (namespace : string) (gwConfig : GatewayConfig) : res ConfigError (string * (string * string)) :=
  let ref := gcfg_TunnelTokenSecretRef gwConfig in
  secret ← map_err classify (getSecret (lsr_Name ref) namespace);
  token ← secret_value secret (KeyOr ref tunnelTokenSecretKey);
  Ok (token, (namespace, lsr_Name ref)).

Definition readCredentialOverride (gwConfig : GatewayConfig) (override : LocalSecretReference) : res ConfigError string :=
  secret ← map_err classify (getSecret (lsr_Name override) (gcfg_Namespace gwConfig));
  secret_value secret (KeyOr override apiTokenSecretKey).

Definition resolveGatewayAPIToken (gateway : GatewayObject) (gwConfig : GatewayConfig) : res ConfigError string :=
  match gcfg_CloudflareCredentialsSecretRef gwConfig with
  | Some override => readCredentialOverride gwConfig override
  | None =>
      match ResolveFromGatewayClassName (go_ClassName gateway) with
      | Ok classResolved => Ok (rc_APIToken classResolved)
      | Err e => if isRetryableAPIError e then Err e else Err ErrInvalidParameters
      end
  end.

Definition resolveStatusConfig (gateway : GatewayObject) : res ConfigError (option PerGatewayConfig) :=
  match go_ParametersRef gateway with
  | None => Ok None
  | Some ref =>
      gwConfig ← getGatewayConfig gateway ref;
      out ← readTunnelToken (gw_Namespace (go_Gateway gateway)) gwConfig;
      let '(token, tokenSecretName) := out in
      parsed ← map_err (fun _ => ErrInvalidParameters) (ParseTunnelToken token);
      apiToken ← resolveGatewayAPIToken gateway gwConfig;
      Ok (Some (mkPerGatewayConfig
        (mkResolvedConfig apiToken (tok_AccountTag parsed) (tok_TunnelID parsed)
           ("gatewayconfig:" +:+ gcfg_Namespace gwConfig +:+ "/" +:+ gcfg_Name gwConfig))
        token tokenSecretName "" gwConfig))
  end.

Definition readAuthToken (gateway : GatewayObject) (gwConfig : GatewayConfig) : res ConfigError string :=
  let namespace := gw_Namespace (go_Gateway gateway) in
  let '(name, key, generated) :=
    match gcfg_AuthTokenSecretRef gwConfig with
    | Some ref => (lsr_Name ref, KeyOr ref authTokenSecretKey, false)
    | None => (GeneratedAuthSecretName (gw_Name (go_Gateway gateway)), authTokenSecretKey, true)
    end in
  secret ← map_err (if generated then ErrApi else classify) (getSecret name namespace);
  secret_value secret key.

Definition ResolveForGateway (gateway : GatewayObject) : res ConfigError (option PerGatewayConfig) :=
  out ← resolveStatusConfig gateway;
  match out with
  | None => Ok None
  | Some base =>
      authToken ← readAuthToken gateway (pg_GatewayConfig base);
      Ok (Some (mkPerGatewayConfig (pg_Resolved base) (pg_TunnelToken base) (pg_TunnelTokenSecret base)
                  authToken (pg_GatewayConfig base)))
  end.
End resolver.

(** ** Outcomes *)

(** The API server answers with the object that was asked for. *)
Class ConfigReaderLaws (reader : ConfigReader) : Prop :=
  get_GatewayConfig_namespace ns name config : get_GatewayConfig ns name = Ok config -> gcfg_Namespace config = ns.

(** Some read of the cluster fails with [a]. *)
Definition read_fails {reader : ConfigReader} (a : ApiError) : Prop :=
  (exists ns name, get_Secret ns name = Err a) \/ (exists ns name, get_GatewayConfig ns name = Err a) \/
  (exists name, get_GatewayClass name = Err a) \/ (exists name, get_GatewayClassConfig name = Err a).

Section resolver_facts.
Context {reader : ConfigReader} {decoder : TokenDecoder} {hash : Sha256} (dns : string).

Lemma map_err_Err {E F A} (f : E -> F) (m : res E A) e : map_err f m = Err e <-> exists x, m = Err x /\ e = f x.
Proof. destruct m; simpl; [naive_solver|]. split; [intros [= <-]; eauto|by intros (? & [= ->] & ->)]. Qed.

Lemma secret_value_Ok secret key v : secret_value secret key = Ok v -> v <> "".
Proof. unfold secret_value. by case_bool_decide as H; intros [= <-]. Qed.
Lemma secret_value_Err secret key e : secret_value secret key = Err e -> e = ErrInvalidParameters.
Proof. unfold secret_value. case_bool_decide; by intros [= <-]. Qed.

(** An error is the user's, or an API failure other than NotFound. *)
Definition blamed (e : ConfigError) : Prop :=
  e = ErrInvalidParameters \/ exists a, e = ErrApi a /\ a <> apiNotFound /\ read_fails a.
Lemma classify_blamed {A} (m : res ApiError A) e :
  (forall a, m = Err a -> read_fails a) -> map_err classify m = Err e -> blamed e.
Proof.
  intros Hm (x & Hx & ->)%map_err_Err. apply Hm in Hx. destruct x; simpl; [by left|right; eexists; split_and!; done..].
Qed.
Lemma getSecret_fails name ns a : getSecret dns name ns = Err a -> read_fails a.
Proof. unfold getSecret. intros H. left. eauto. Qed.
Lemma secret_blamed name ns key e :
  (secret ← map_err classify (getSecret dns name ns); secret_value secret key) = Err e -> blamed e.
Proof.
  intros [H|(s & _ & ->%secret_value_Err)]%bind_Err; [|by left].
  eapply classify_blamed; [|exact H]. intros a. apply getSecret_fails.
Qed.

Lemma readTunnelToken_blamed ns c e : readTunnelToken dns ns c = Err e -> blamed e.
Proof.
  unfold readTunnelToken. intros [H|(s & Hs & [->%secret_value_Err|(? & _ & ?)]%bind_Err)]%bind_Err; [|by left|done].
  eapply classify_blamed; [|exact H]. intros a. apply getSecret_fails.
Qed.
Lemma resolveGatewayAPIToken_blamed g c e : resolveGatewayAPIToken dns g c = Err e -> blamed e.
Proof.
  unfold resolveGatewayAPIToken. destruct (gcfg_CloudflareCredentialsSecretRef c) as [o|]; [apply secret_blamed|].
  destruct (ResolveFromGatewayClassName dns (go_ClassName g)) as [r|e'] eqn:Hr; [done|].
  destruct (isRetryableAPIError e') eqn:He; intros [= <-]; [|by left].
  right. exists apiRetryable. destruct e' as [|[]| | | | | | | | |]; try done. split_and!; [done..|].
  unfold ResolveFromGatewayClassName in Hr. apply bind_Err in Hr as [Hr|(cl & _ & Hr)].
  { apply map_err_Err in Hr as (x & Hx & [= <-]). right. right. left. eauto. }
  unfold ResolveFromGatewayClass in Hr. destruct (gc_ParametersRef cl) as [ref|]; [|done].
  destruct (negb _); [done|]. destruct (negb _); [done|].
  apply bind_Err in Hr as [(x & Hx & [= <-])%map_err_Err|(cf & _ & Hr)]; [do 3 right; eauto|].
  unfold resolveConfig in Hr. case_bool_decide; [done|].
  apply bind_Err in Hr as [(x & Hx & [= <-])%map_err_Err|(s & _ & Hr)]; [by eapply getSecret_fails|].
  destruct (s !! _); [|done]. by case_bool_decide.
Qed.
Lemma resolveStatusConfig_blamed g e : resolveStatusConfig dns g = Err e -> blamed e.
Proof.
  unfold resolveStatusConfig. destruct (go_ParametersRef g) as [ref|]; [|done].
  intros [H|(c & _ & [H|([token sn] & _ & [H|(p & _ & [H|(t & _ & H)]%bind_Err)]%bind_Err)]%bind_Err)]%bind_Err.
  - unfold getGatewayConfig in H. destruct (_ || _); [left; congruence|].
    eapply classify_blamed; [|exact H]. intros a Ha. right. left. eauto.
  - by apply readTunnelToken_blamed in H.
  - apply map_err_Err in H as (? & _ & ->). by left.
  - by apply resolveGatewayAPIToken_blamed in H.
  - done.
Qed.

Lemma class_token_nonempty name r : ResolveFromGatewayClassName dns name = Ok r -> rc_APIToken r <> "".
Proof.
  unfold ResolveFromGatewayClassName, ResolveFromGatewayClass. intros (cl & _ & H)%bind_Ok.
  destruct (gc_ParametersRef cl); [|done]. destruct (negb _); [done|]. destruct (negb _); [done|].
  apply bind_Ok in H as (cf & _ & H). unfold resolveConfig in H. case_bool_decide; [done|].
  apply bind_Ok in H as (s & _ & H). destruct (s !! _) as [t|]; [|done]. case_bool_decide; [done|]. by simplify_eq.
Qed.
Lemma api_token_nonempty g c t : resolveGatewayAPIToken dns g c = Ok t -> t <> "".
Proof.
  unfold resolveGatewayAPIToken, readCredentialOverride. destruct (gcfg_CloudflareCredentialsSecretRef c).
  - intros (? & _ & ?%secret_value_Ok)%bind_Ok. done.
  - destruct (ResolveFromGatewayClassName dns _) eqn:Hr; [|by destruct (isRetryableAPIError _)].
    intros [= <-]. by eapply class_token_nonempty.
Qed.
Lemma ParseTunnelToken_Ok s t : ParseTunnelToken s = Ok t ->
  tok_AccountTag t <> "" /\ tok_TunnelID t <> uuid_Nil /\ tok_TunnelSecret t <> "".
Proof.
  unfold ParseTunnelToken. repeat (case_bool_decide || case_match); try done. by intros [= <-].
Qed.
End resolver_facts.

(** The configuration of a dedicated data plane is resolved or its failure is
    blamed correctly.  A Gateway without parametersRef stays on the shared plane.
    A resolved plane's tunnel and account are those of its own connector token,
    its API token and its push token are not empty.  A failure is
    InvalidParameters, or it is an API failure that some read really had, which
    is a missing object only for the push Secret the controller generates. *)
Theorem dedicated_plane_resolution {reader : ConfigReader} {decoder : TokenDecoder} {hash : Sha256}
    (dns : string) (g : GatewayObject) :
  match ResolveForGateway dns g with
  | Ok None => go_ParametersRef g = None
  | Ok (Some pg) =>
      go_ParametersRef g <> None /\ pg_AuthToken pg <> "" /\ rc_APIToken (pg_Resolved pg) <> "" /\
      exists token, ParseTunnelToken (pg_TunnelToken pg) = Ok token /\
        rc_TunnelID (pg_Resolved pg) = tok_TunnelID token /\ tok_TunnelID token <> uuid_Nil /\
        rc_AccountID (pg_Resolved pg) = tok_AccountTag token /\ tok_AccountTag token <> ""
  | Err e =>
      e = ErrInvalidParameters \/
      (exists a, e = ErrApi a /\ a <> apiNotFound /\ read_fails a) \/
      (e = ErrApi apiNotFound /\
       getSecret dns (GeneratedAuthSecretName (gw_Name (go_Gateway g))) (gw_Namespace (go_Gateway g)) = Err apiNotFound)
  end.
Proof.
  unfold ResolveForGateway. destruct (resolveStatusConfig dns g) as [[base|]|e] eqn:Hs; simpl.
  - unfold readAuthToken. destruct (gcfg_AuthTokenSecretRef (pg_GatewayConfig base)) as [ref|].
    all: match goal with |- match ?m ≫= _ with _ => _ end => destruct m as [auth|e] eqn:Ha end; simpl.
    2:{ destruct (secret_blamed _ _ _ _ _ Ha) as [?|?]; auto. }
    3:{ apply bind_Err in Ha as [(x & Hx & ->)%map_err_Err|(s & _ & ->%secret_value_Err)]; [|by left].
        destruct x; [by right; right|right; left; eexists; split_and!; [done..|by eapply getSecret_fails]..]. }
    all: apply bind_Ok in Ha as (s & _ & Ha%secret_value_Ok);
      unfold resolveStatusConfig in Hs; destruct (go_ParametersRef g) as [r|]; [|done];
      apply bind_Ok in Hs as (c & _ & Hs); apply bind_Ok in Hs as ([tk sn] & _ & Hs);
      apply bind_Ok in Hs as (p & Hp%map_err_Ok & Hs); apply bind_Ok in Hs as (t & Ht%api_token_nonempty & Hs);
      simplify_eq/=; destruct (ParseTunnelToken_Ok _ _ Hp) as (? & ? & ?);
      split_and!; try done; by exists p.
  - unfold resolveStatusConfig in Hs. destruct (go_ParametersRef g); [|done].
    repeat (apply bind_Ok in Hs as (? & _ & Hs); repeat case_match). done.
  - destruct (resolveStatusConfig_blamed _ _ _ Hs) as [?|?]; auto.
Qed.

(** A tenant's data plane depends on its own namespace only.  Two clusters
    that agree on the GatewayConfigs and Secrets of a Gateway's namespace, and on
    the class credentials when the GatewayConfig brings none of its own, resolve
    that Gateway alike, whatever any other namespace contains. *)
Theorem tenant_resolution_isolated (reader1 reader2 : ConfigReader) {decoder : TokenDecoder} {hash : Sha256}
    (dns : string) (g : GatewayObject) :
  let ns := gw_Namespace (go_Gateway g) in
  ConfigReaderLaws reader1 -> ns <> "" ->
  (forall name, @get_GatewayConfig reader1 ns name = @get_GatewayConfig reader2 ns name) ->
  (forall name, @get_Secret reader1 ns name = @get_Secret reader2 ns name) ->
  (forall name config, @get_GatewayConfig reader1 ns name = Ok config ->
     gcfg_CloudflareCredentialsSecretRef config = None ->
     @ResolveFromGatewayClassName reader1 dns (go_ClassName g) = @ResolveFromGatewayClassName reader2 dns (go_ClassName g)) ->
  @ResolveForGateway reader1 decoder hash dns g = @ResolveForGateway reader2 decoder hash dns g.
Proof.
  intros ns Hlaws Hns Hcfg Hsec Hclass.
  assert (Hget : forall name, @getSecret reader1 dns name ns = @getSecret reader2 dns name ns).
  { intros name. unfold getSecret. by rewrite bool_decide_eq_false_2. }
  assert (Hstatus : @resolveStatusConfig reader1 decoder dns g = @resolveStatusConfig reader2 decoder dns g).
  { unfold resolveStatusConfig, getGatewayConfig. destruct (go_ParametersRef g) as [ref|]; [|done]. fold ns.
    destruct (_ || _); [done|]. rewrite <-Hcfg.
    destruct (@get_GatewayConfig reader1 ns (pr_Name ref)) as [c|[]] eqn:Hc; cbn; try done.
    unfold readTunnelToken. rewrite <-Hget.
    match goal with |- (?m ≫= _) = _ => destruct m as [[tk sn]|] end; [|done]. cbn.
    destruct (ParseTunnelToken tk); [|done]. cbn.
    assert (Ht : @resolveGatewayAPIToken reader1 dns g c = @resolveGatewayAPIToken reader2 dns g c); [|by rewrite Ht].
    unfold resolveGatewayAPIToken, readCredentialOverride.
    destruct (gcfg_CloudflareCredentialsSecretRef c) as [o|] eqn:Ho; [|by rewrite (Hclass _ _ Hc Ho)].
    rewrite (Hlaws _ _ _ Hc). by rewrite <-Hget. }
  unfold ResolveForGateway. rewrite <-Hstatus. destruct (@resolveStatusConfig reader1 decoder dns g) as [[base|]|]; [|done..].
  cbn. unfold readAuthToken. fold ns. by destruct (gcfg_AuthTokenSecretRef _); rewrite <-Hget.
Qed.

(** Two clusters that differ in another tenant's Secret. *)
Definition tenant_secrets (other : string) (ns name : string) : res ApiError SecretData :=
  if bool_decide (ns = "tenant") then
    Ok {["tunnel-token" := "token"; "auth-token" := "push"; "api-token" := "key"]}
  else Ok {["api-token" := other]}.
Definition tenant_reader (other : string) : ConfigReader := {|
  get_GatewayConfig ns name :=
    Ok (mkGatewayConfig ns name (mkLocalSecretReference "t" "") (Some (mkLocalSecretReference "c" "")) None None None None "");
  get_GatewayClass _ := Err apiNotFound;
  get_GatewayClassConfig _ := Err apiNotFound;
  get_Secret := tenant_secrets other |}.
Definition tenant_decoder : TokenDecoder := {|
  base64_Decode := Some;
  token_Unmarshal s := if bool_decide (s = "token") then Some (mkToken "account" "secret" "tunnel") else None |}.
Definition tenant_gateway : GatewayObject :=
  mkGatewayObject (mkGateway "edge" "tenant" [] None) 1 "class"
    (Some (mkParametersReference ParametersRefGroup GatewayParametersRefKind "cfg" None)) None.
Lemma tenant_resolution_isolated_witness :
  @ResolveForGateway (tenant_reader "a") tenant_decoder constant_digest "system" tenant_gateway =
  @ResolveForGateway (tenant_reader "b") tenant_decoder constant_digest "system" tenant_gateway.
Proof.
  apply (tenant_resolution_isolated (tenant_reader "a") (tenant_reader "b")).
  - intros ns name config [= <-]. reflexivity.
  - discriminate.
  - reflexivity.
  - intros name. reflexivity.
  - intros name config [= <-] H. discriminate H.
Defined.
