(* ===== verification/ListenerView.v ===== *)
(** * The merged listener view and its caches ([controller/listenerset_view.go], [listenerset_collect.go])

    A Gateway's listeners together with those of the ListenerSets allowed to
    attach to it.  A pass caches views per Gateway; a store shared by all
    reconcilers keeps them across passes, keyed by a fingerprint of generations.
    Reads of the cluster are the parameter [KubeClient]; a failed read is
    [None]. *)
From Stdlib Require Import Ascii.
From stdpp Require Import sorting.
From stdpp Require Import base sets gmap strings list.
From S2P Require Import Prelude GoStrings RouteBinding ListenerMerge ConfigResolver.

(** A ListenerSet with the fields merging does not read. *)
Record ListenerSetObject := mkListenerSetObject {
  lso_Set : ListenerSet;
  lso_Generation : Z;
  lso_ParentNamespace : option string;
  lso_ParentName : string;
}.

Class KubeClient := {
  kube_Gateway : string -> string -> option GatewayObject;          (* namespace, name *)
  kube_ListenerSet : string -> string -> option ListenerSetObject;
  kube_Gateways : option (list GatewayObject);
  kube_ListenerSets : option (list ListenerSetObject);
  kube_GatewayClasses : option (list GatewayClass);
}.

Definition go_key (g : GatewayObject) : string * string :=
  (gw_Namespace (go_Gateway g), gw_Name (go_Gateway g)).

(** ** Which ListenerSets belong to a Gateway *)

Definition listenerSetParentNamespace (ls : ListenerSetObject) : string :=
  match lso_ParentNamespace ls with
  | Some ns => if bool_decide (ns = "") then ls_Namespace (lso_Set ls) else ns
  | None => ls_Namespace (lso_Set ls)
  end.
Definition listenerSetTargetsGateway (ls : ListenerSetObject) (gateway : Gateway) : bool :=
  if negb (bool_decide (lso_ParentName ls = gw_Name gateway)) then false
  else bool_decide (listenerSetParentNamespace ls = gw_Namespace gateway).

Inductive ViewError := errListListenerSets | errListenerSetAcceptance (e : BindingError).

Section views.
Context {cluster : Cluster}.

Fixpoint acceptedFromCandidates (gateway : Gateway) (candidates : list ListenerSetObject)
    : res ViewError (list ListenerSetObject) :=
  match candidates with
  | [] => Ok []
  | ls :: candidates' =>
      match EvaluateListenerSetAcceptance gateway (lso_Set ls) with
      | Err e => Err (errListenerSetAcceptance e)
      | Ok acceptance =>
          rest ← acceptedFromCandidates gateway candidates';
          Ok (if (acceptance : bool) then ls :: rest else rest)
      end
  end.

Record gatewayListenerView := mkGatewayListenerView {
  view_acceptedSets : list ListenerSetObject;
  view_merged : list MergedListener;
}.
Definition viewFromCandidates (gateway : Gateway) (candidates : list ListenerSetObject)
    : res ViewError gatewayListenerView :=
  accepted ← acceptedFromCandidates gateway candidates;
  Ok (mkGatewayListenerView accepted (Merge (Some gateway) (lso_Set <$> accepted))).

Section reads.
Context {kube : KubeClient}.
Definition listTargetingListenerSets (gateway : Gateway) : res ViewError (list ListenerSetObject) :=
  match kube_ListenerSets with
  | None => Err errListListenerSets
  | Some all => Ok (List.filter (fun ls => listenerSetTargetsGateway ls gateway) all)
  end.
Definition buildGatewayListenerView (gateway : Gateway) : res ViewError gatewayListenerView :=
  candidates ← listTargetingListenerSets gateway;
  viewFromCandidates gateway candidates.
Definition collectAcceptedListenerSetsForGateway (gateway : Gateway) : res ViewError (list ListenerSetObject) :=
  candidates ← listTargetingListenerSets gateway;
  acceptedFromCandidates gateway candidates.
End reads.

(** ** Looking an entry up *)

Definition is_gateway_entry (e : MergedListener) : bool :=
  match ml_ParentKind e with ParentKindGateway => true | ParentKindListenerSet => false end.
Definition findMergedEntry (merged : list MergedListener) (ls : ListenerSet) (name : string) : option MergedListener :=
  List.find (fun e =>
    negb (is_gateway_entry e) &&
    match ml_ListenerSet e with
    | Some s => bool_decide (ls_Namespace s = ls_Namespace ls) && bool_decide (ls_Name s = ls_Name ls) &&
                bool_decide (ml_Name e = name)
    | None => false
    end) merged.
Definition findMergedGatewayEntry (merged : list MergedListener) (name : string) : option MergedListener :=
  List.find (fun e => is_gateway_entry e && bool_decide (ml_Name e = name)) merged.
Definition conflictReason (v : gatewayListenerView) (ls : ListenerSet) (name : string) : string :=
  from_option ml_ConflictReason "" (findMergedEntry (view_merged v) ls name).
Definition gatewayListenerConflictReason (v : gatewayListenerView) (name : string) : string :=
  from_option ml_ConflictReason "" (findMergedGatewayEntry (view_merged v) name).

(** The message and flag of the Gateway's [ListenersNotValid] condition. *)
Definition gatewayConflictedListenersMessage (view : option gatewayListenerView) : string * bool :=
  match view with
  | None => ("", false)
  | Some v =>
      let names := ml_Name <$> List.filter (fun e => is_gateway_entry e && negb (bool_decide (ml_ConflictReason e = "")))
                                 (view_merged v) in
      if length names =? 0 then ("", false)
      else ("Gateway has conflicted listeners: " +:+ Join names ", ", true)
  end.

(** ** The store *)

Definition gatewayUsesNamespaceSelector (gateway : Gateway) : bool :=
  match gw_AllowedListeners gateway with
  | Some allowed =>
      match al_Namespaces allowed with
      | Some namespaces => bool_decide (rn_From namespaces = Some NamespacesFromSelector)
      | None => false
      end
  | None => false
  end.

Definition fingerprint_key (ls : ListenerSetObject) : string :=
  ls_Namespace (lso_Set ls) +:+ "/" +:+ ls_Name (lso_Set ls) +:+ "@" +:+ Itoa (lso_Generation ls) +:+
  "#" +:+ Itoa (ls_CreationTimestamp (lso_Set ls)).
Definition mergeViewFingerprint (gateway : GatewayObject) (candidates : list ListenerSetObject) : string :=
  let keys := stable_sort str_ltb (fingerprint_key <$> candidates) in
  "g@" +:+ Itoa (go_Generation gateway) +:+ ";" +:+ Join keys ";".

Record storeEntry := mkStoreEntry { se_fingerprint : string; se_view : gatewayListenerView }.
Definition mergeViewStore : Type := gmap (string * string) storeEntry.
Definition forget (key : string * string) (store : mergeViewStore) : mergeViewStore := delete key store.

Section store.
Context {kube : KubeClient}.
Definition store_resolve (gateway : GatewayObject) (store : mergeViewStore)
    : res ViewError gatewayListenerView * mergeViewStore :=
  match listTargetingListenerSets (go_Gateway gateway) with
  | Err e => (Err e, store)
  | Ok candidates =>
      if gatewayUsesNamespaceSelector (go_Gateway gateway) then
        (viewFromCandidates (go_Gateway gateway) candidates, store)
      else
        let key := go_key gateway in
        let fingerprint := mergeViewFingerprint gateway candidates in
        let build :=
          match viewFromCandidates (go_Gateway gateway) candidates with
          | Err e => (Err e, store)
          | Ok view => (Ok view, <[key := mkStoreEntry fingerprint view]> store)
          end in
        match store !! key with
        | Some entry => if bool_decide (se_fingerprint entry = fingerprint) then (Ok (se_view entry), store) else build
        | None => build
        end
  end.

(** ** The cache of one pass *)

(** [store] is [None] when the pass has no shared store. *)
Record listenerViewCache := mkListenerViewCache {
  vc_store : option mergeViewStore;
  vc_views : gmap (string * string) gatewayListenerView;
}.
Definition newListenerViewCache (store : option mergeViewStore) : listenerViewCache := mkListenerViewCache store ∅.
Definition cache_resolve (gateway : GatewayObject) (c : listenerViewCache)
    : res ViewError gatewayListenerView * listenerViewCache :=
  match vc_store c with
  | None => (buildGatewayListenerView (go_Gateway gateway), c)
  | Some store =>
      let '(r, store) := store_resolve gateway store in (r, mkListenerViewCache (Some store) (vc_views c))
  end.
Definition forGateway (gateway : GatewayObject) (c : listenerViewCache)
    : res ViewError gatewayListenerView * listenerViewCache :=
  match vc_views c !! go_key gateway with
  | Some view => (Ok view, c)
  | None =>
      match cache_resolve gateway c with
      | (Err e, c) => (Err e, c)
      | (Ok view, c) => (Ok view, mkListenerViewCache (vc_store c) (<[go_key gateway := view]> (vc_views c)))
      end
  end.
End store.
End views.

(** ** The fingerprint identifies the inputs *)

(** Names the API server admits contain none of the separators. *)
Definition plain_name (s : string) : Prop := lacks "/" s /\ lacks "@" s /\ lacks "#" s /\ lacks ";" s.
Definition set_identity (l : ListenerSetObject) : string * string := (ls_Namespace (lso_Set l), ls_Name (lso_Set l)).

(** What the API server guarantees of the objects a controller ever sees: a spec
    is identified by the object's name and generation, for a ListenerSet together
    with its creation time. *)
Class Generations (seenG : GatewayObject -> Prop) (seenL : ListenerSetObject -> Prop) : Prop := {
  gen_gateway g1 g2 : seenG g1 -> seenG g2 -> go_key g1 = go_key g2 -> go_Generation g1 = go_Generation g2 ->
    go_Gateway g1 = go_Gateway g2;
  gen_set l1 l2 : seenL l1 -> seenL l2 -> set_identity l1 = set_identity l2 ->
    lso_Generation l1 = lso_Generation l2 ->
    ls_CreationTimestamp (lso_Set l1) = ls_CreationTimestamp (lso_Set l2) -> l1 = l2;
  gen_plain l : seenL l -> plain_name (ls_Namespace (lso_Set l)) /\ plain_name (ls_Name (lso_Set l));
}.

Lemma fingerprint_key_parts l1 l2 :
  plain_name (ls_Namespace (lso_Set l1)) -> plain_name (ls_Namespace (lso_Set l2)) ->
  plain_name (ls_Name (lso_Set l1)) -> plain_name (ls_Name (lso_Set l2)) ->
  fingerprint_key l1 = fingerprint_key l2 ->
  set_identity l1 = set_identity l2 /\ lso_Generation l1 = lso_Generation l2 /\
  ls_CreationTimestamp (lso_Set l1) = ls_CreationTimestamp (lso_Set l2).
Proof.
  intros (Hn1 & _) (Hn2 & _) (_ & Hm1 & _) (_ & Hm2 & _) He. unfold fingerprint_key in He.
  apply (cut_inj "/") in He as [Hns He]; [|done..].
  apply (cut_inj "@") in He as [Hname He]; [|done..].
  apply (cut_inj "#") in He as [He1 He2]; [|by apply lacks_Itoa..].
  apply Itoa_inj in He1, He2. split; [|done]. unfold set_identity. congruence.
Qed.
Lemma fingerprint_key_plain l :
  plain_name (ls_Namespace (lso_Set l)) -> plain_name (ls_Name (lso_Set l)) ->
  fingerprint_key l <> "" /\ lacks ";" (fingerprint_key l).
Proof.
  intros (_ & _ & _ & H1) (_ & _ & _ & H2). unfold fingerprint_key. split.
  - intros He. apply (f_equal String.length) in He. rewrite !length_sapp in He. simpl in He. lia.
  - rewrite !lacks_app. split_and!; try done; by apply lacks_Itoa.
Qed.

Section fingerprint.
Context {seenG : GatewayObject -> Prop} {seenL : ListenerSetObject -> Prop} {gens : Generations seenG seenL}.

Lemma fingerprint_key_inj l1 l2 : seenL l1 -> seenL l2 -> fingerprint_key l1 = fingerprint_key l2 -> l1 = l2.
Proof.
  intros H1 H2 He. destruct (gen_plain l1 H1), (gen_plain l2 H2).
  destruct (fingerprint_key_parts l1 l2) as (? & ? & ?); [done..|]. by apply gen_set.
Qed.
Lemma keys_perm c1 c2 :
  (forall l, l ∈ c1 -> seenL l) -> (forall l, l ∈ c2 -> seenL l) ->
  fingerprint_key <$> c1 ≡ₚ fingerprint_key <$> c2 -> c1 ≡ₚ c2.
Proof.
  intros H1 H2 Hp. destruct (Permutation_map_inv _ _ Hp) as (c3 & He & Hp3).
  rewrite Hp3. apply reflexive_eq. assert (H3 : forall l, l ∈ c3 -> seenL l) by (intros l; rewrite <-Hp3; apply H2).
  clear Hp Hp3 H2 c2. revert c3 He H3. induction c1 as [|l c1 IH]; intros [|l' c3] He H3; simplify_eq/=; [done|].
  f_equal.
  - apply fingerprint_key_inj; [apply H1; by left|apply H3; by left|done].
  - apply IH; [intros; apply H1; by right|done|intros; apply H3; by right].
Qed.
Lemma fingerprint_inj g1 c1 g2 c2 :
  (forall l, l ∈ c1 -> seenL l) -> (forall l, l ∈ c2 -> seenL l) ->
  mergeViewFingerprint g1 c1 = mergeViewFingerprint g2 c2 ->
  go_Generation g1 = go_Generation g2 /\ c1 ≡ₚ c2.
Proof.
  intros H1 H2 He. unfold mergeViewFingerprint in He. apply sapp_inv_head in He.
  apply (cut_inj ";") in He as [Hg He]; [|by apply lacks_Itoa..]. split; [by apply Itoa_inj|].
  apply Join_byte_inj in He.
  - apply keys_perm; [done..|]. rewrite <-(stable_sort_perm str_ltb (fingerprint_key <$> c1)), He. apply stable_sort_perm.
  - intros s (l & -> & Hl)%elem_of_stable_sort%list_elem_of_fmap. destruct (gen_plain l (H1 l Hl)).
    by apply fingerprint_key_plain.
  - intros s (l & -> & Hl)%elem_of_stable_sort%list_elem_of_fmap. destruct (gen_plain l (H2 l Hl)).
    by apply fingerprint_key_plain.
Qed.
End fingerprint.

(** ** Served views are fresh *)

(** Outside the selector mode acceptance reads nothing but the two objects. *)
Definition admits (g : Gateway) (ls : ListenerSetObject) : bool :=
  let from := getListenerNamespaceFrom (gw_AllowedListeners g) in
  bool_decide (from = NamespacesFromAll) ||
  (bool_decide (from = NamespacesFromSame) && bool_decide (gw_Namespace g = ls_Namespace (lso_Set ls))).
Definition fresh_view (g : Gateway) (candidates : list ListenerSetObject) : gatewayListenerView :=
  let accepted := List.filter (admits g) candidates in
  mkGatewayListenerView accepted (Merge (Some g) (lso_Set <$> accepted)).

Lemma acceptance_admits {cluster : Cluster} g ls :
  gatewayUsesNamespaceSelector g = false -> EvaluateListenerSetAcceptance g (lso_Set ls) = Ok (admits g ls).
Proof.
  unfold gatewayUsesNamespaceSelector, EvaluateListenerSetAcceptance, admits, getListenerNamespaceFrom. intros Hs.
  assert (Hf : default NamespacesFromNone (a ← gw_AllowedListeners g; ns ← al_Namespaces a; rn_From ns)
    <> NamespacesFromSelector).
  { destruct (gw_AllowedListeners g) as [a|]; [|done]. simpl. destruct (al_Namespaces a) as [ns|]; [|done]. simpl.
    apply bool_decide_eq_false_1 in Hs. destruct (rn_From ns); [|done]. simpl. congruence. }
  revert Hf. generalize (default NamespacesFromNone (a ← gw_AllowedListeners g; ns ← al_Namespaces a; rn_From ns)).
  intros from Hf. rewrite (bool_decide_eq_false_2 (from = NamespacesFromSelector)) by done.
  case_bool_decide; [done|]. by case_bool_decide.
Qed.
Lemma accepted_filter {cluster : Cluster} g c :
  gatewayUsesNamespaceSelector g = false -> acceptedFromCandidates g c = Ok (List.filter (admits g) c).
Proof.
  intros Hs. induction c as [|l c IH]; [done|]. cbn [acceptedFromCandidates List.filter].
  rewrite acceptance_admits, IH by done. by destruct (admits g l).
Qed.
Lemma view_fresh {cluster : Cluster} g c :
  gatewayUsesNamespaceSelector g = false -> viewFromCandidates g c = Ok (fresh_view g c).
Proof. intros Hs. unfold viewFromCandidates. by rewrite accepted_filter. Qed.

(** Two views with the same merge and the same accepted sets. *)
Definition same_view (v1 v2 : gatewayListenerView) : Prop :=
  view_merged v1 = view_merged v2 /\ view_acceptedSets v1 ≡ₚ view_acceptedSets v2.
Definition identified (c : list ListenerSetObject) : Prop :=
  forall l1 l2, l1 ∈ c -> l2 ∈ c -> set_identity l1 = set_identity l2 -> l1 = l2.
Lemma fresh_view_perm g c1 c2 : identified c1 -> c1 ≡ₚ c2 -> same_view (fresh_view g c1) (fresh_view g c2).
Proof.
  intros Hid Hp. split; simpl; [|by apply Permutation_List_filter]. apply Merge_perm.
  - intros x y (lx & -> & [Hx _]%elem_of_list_filter)%list_elem_of_fmap
      (ly & -> & [Hy _]%elem_of_list_filter)%list_elem_of_fmap Hns Hn.
    rewrite (Hid lx ly); [done..|]. unfold set_identity. congruence.
  - apply fmap_Permutation, Permutation_List_filter, Hp.
Qed.

Section freshness.
Context (seenG : GatewayObject -> Prop) (seenL : ListenerSetObject -> Prop).

(** A state of the cluster: ListenerSets the controller sees, one per name. *)
Definition snapshot (kube : KubeClient) : Prop :=
  forall all, kube_ListenerSets = Some all -> (forall l, l ∈ all -> seenL l) /\ identified all.

(** The store over time: reconcilers resolve Gateways in changing clusters, and
    entries of deleted Gateways are dropped. *)
Inductive store_step : mergeViewStore -> mergeViewStore -> Prop :=
| store_resolves (cluster : Cluster) (kube : KubeClient) g store :
    snapshot kube -> seenG g -> store_step store (store_resolve g store).2
| store_forgets key store : store_step store (forget key store).

Definition store_inv (store : mergeViewStore) : Prop :=
  forall key entry, store !! key = Some entry ->
    exists g c, seenG g /\ go_key g = key /\ gatewayUsesNamespaceSelector (go_Gateway g) = false /\
      (forall l, l ∈ c -> seenL l) /\ identified c /\
      se_fingerprint entry = mergeViewFingerprint g c /\ se_view entry = fresh_view (go_Gateway g) c.

Lemma candidates_snapshot {kube : KubeClient} g c :
  snapshot kube -> listTargetingListenerSets g = Ok c -> (forall l, l ∈ c -> seenL l) /\ identified c.
Proof.
  unfold snapshot, listTargetingListenerSets. destruct kube_ListenerSets as [all|]; [|done].
  intros Hs [= <-]. destruct (Hs all eq_refl) as [H1 H2]. split.
  - intros l [Hl _]%elem_of_list_filter. by apply H1.
  - intros l1 l2 [? _]%elem_of_list_filter [? _]%elem_of_list_filter. by apply H2.
Qed.
Lemma store_step_inv store store' : store_step store store' -> store_inv store -> store_inv store'.
Proof.
  intros [cluster kube g s Hk Hg|key s] Hi.
  - unfold store_resolve. destruct (listTargetingListenerSets (go_Gateway g)) as [c|] eqn:Hc; [|done].
    destruct (candidates_snapshot _ _ Hk Hc) as [Hseen Hid].
    destruct (gatewayUsesNamespaceSelector (go_Gateway g)) eqn:Hsel; [done|].
    rewrite (view_fresh _ c Hsel).
    assert (Hnew : store_inv (<[go_key g := mkStoreEntry (mergeViewFingerprint g c) (fresh_view (go_Gateway g) c)]> s)).
    { intros key e He. apply lookup_insert_Some in He as [[<- <-]|[_ He]]; [by exists g, c|by apply Hi]. }
    destruct (s !! go_key g); [|done]. by case_bool_decide.
  - intros k e He. unfold forget in He. apply lookup_delete_Some in He as [_ He]. by apply Hi.
Qed.
Lemma store_reachable_inv store : rtc store_step ∅ store -> store_inv store.
Proof.
  intros H. assert (H0 : store_inv ∅) by (intros k e He; by apply lookup_empty_Some in He).
  revert H0. induction H; eauto using store_step_inv.
Qed.
End freshness.

(** The shared view store never serves a stale view, as far as generations
    identify specs.  After any sequence of resolutions in changing clusters and
    of evictions, resolving a Gateway answers what merging its ListenerSets from
    scratch would: the same errors, the same merged listeners, the same accepted
    sets. *)
Theorem view_store_fresh (seenG : GatewayObject -> Prop) (seenL : ListenerSetObject -> Prop)
    (gens : Generations seenG seenL) (store : mergeViewStore) (cluster : Cluster) (kube : KubeClient) (g : GatewayObject) :
  rtc (store_step seenG seenL) ∅ store -> snapshot seenL kube -> seenG g ->
  match (store_resolve g store).1, buildGatewayListenerView (go_Gateway g) with
  | Ok v1, Ok v2 => same_view v1 v2
  | Err e1, Err e2 => e1 = e2
  | _, _ => False
  end.
Proof.
  intros Hr Hk Hg. apply store_reachable_inv in Hr. unfold store_resolve, buildGatewayListenerView.
  destruct (listTargetingListenerSets (go_Gateway g)) as [c|e] eqn:Hc; [|done]. simpl.
  destruct (candidates_snapshot _ _ _ Hk Hc) as [Hseen Hid].
  destruct (gatewayUsesNamespaceSelector (go_Gateway g)) eqn:Hsel; [by destruct (viewFromCandidates _ c)|].
  rewrite (view_fresh _ c Hsel).
  destruct (store !! go_key g) as [entry|] eqn:He; [|done].
  case_bool_decide as Hf; [|done]. simpl.
  destruct (Hr _ _ He) as (g0 & c0 & Hg0 & Hkey & _ & Hs0 & Hid0 & Hfp & ->). rewrite Hfp in Hf.
  destruct (fingerprint_inj _ _ _ _ Hs0 Hseen Hf) as [Hgen Hp].
  rewrite (gen_gateway g0 g) by done. by apply fresh_view_perm.
Qed.

(** A cluster without selectors and with no ListenerSets, and a Gateway. *)
Definition bare_cluster : Cluster := {| LabelSelectorAsSelector _ := None; namespace_labels _ := None |}.
Definition bare_client : KubeClient := {|
  kube_Gateway _ _ := None; kube_ListenerSet _ _ := None; kube_Gateways := Some [];
  kube_ListenerSets := Some []; kube_GatewayClasses := Some [] |}.
Definition edge_gateway (host : string) : GatewayObject :=
  mkGatewayObject (mkGateway "edge" "prod" [mkListener "web" (Some host) 80 "HTTP" None []] None) 1 "class" None None.
Definition warm_store : mergeViewStore :=
  (@store_resolve bare_cluster bare_client (edge_gateway "a.example.com") ∅).2.
Lemma warm_store_reachable :
  rtc (store_step (fun g => g = edge_gateway "a.example.com") (fun _ => False)) ∅ warm_store.
Proof.
  apply rtc_once. apply (store_resolves _ _ bare_cluster bare_client); [|reflexivity].
  intros all [= <-]. split; [intros l Hl|intros l1 l2 Hl]; by apply elem_of_nil in Hl.
Defined.
Lemma one_gateway_generations : Generations (fun g => g = edge_gateway "a.example.com") (fun _ => False).
Proof. split; [by intros g1 g2 -> -> | done | done]. Defined.
Lemma view_store_fresh_witness :
  (@store_resolve bare_cluster bare_client (edge_gateway "a.example.com") warm_store).2 = warm_store /\
  match (@store_resolve bare_cluster bare_client (edge_gateway "a.example.com") warm_store).1,
        @buildGatewayListenerView bare_cluster bare_client (go_Gateway (edge_gateway "a.example.com")) with
  | Ok v1, Ok v2 => same_view v1 v2
  | Err e1, Err e2 => e1 = e2
  | _, _ => False
  end.
Proof.
  split; [reflexivity|].
  apply (view_store_fresh _ _ one_gateway_generations warm_store bare_cluster bare_client
    (edge_gateway "a.example.com") warm_store_reachable); [|reflexivity].
  intros all [= <-]. split; [intros l Hl|intros l1 l2 Hl]; by apply elem_of_nil in Hl.
Defined.

(** A Gateway that is deleted and created again under the same name starts at
    generation 1 once more.  Unless the reconciler saw it missing in between and
    dropped its entry, the store answers with the old Gateway's listeners: the
    fingerprint covers the creation time of ListenerSets but not the Gateway's. *)
Lemma recreated_gateway_stale :
  exists v, (@store_resolve bare_cluster bare_client (edge_gateway "b.example.com") warm_store).1 = Ok v /\
    ml_Hostname <$> view_merged v = [Some "a.example.com"] /\
    gw_Listeners (go_Gateway (edge_gateway "b.example.com")) = [mkListener "web" (Some "b.example.com") 80 "HTTP" None []].
Proof. eexists. split; [vm_compute; reflexivity|]. split; reflexivity. Qed.
