(* ===== verification/ParentBinding.v ===== *)
(** * Binding routes to their parents ([controller/route_parent_binding.go])

    One parentRef of a route: the Gateway or ListenerSet it names, whether this
    controller manages it, and the listeners that accept the route and are not
    conflicted in the merged view.  [gateway_view] is the merged view a pass
    serves ([ListenerView]); [None] means it could not be built. *)
From Stdlib Require Import Ascii.
From stdpp Require Import base sets gmap strings list.
From S2P Require Import Prelude GoStrings RouteBinding ListenerMerge IngressBuild Converter ConfigResolver ListenerView.

(** What the binding asks of the view caches. *)
Class ListenerViews := gateway_view : GatewayObject -> option gatewayListenerView.
(** The views a pass without a shared store builds. *)
Definition built_views {cluster : Cluster} {kube : KubeClient} : ListenerViews := fun g =>
  match buildGatewayListenerView (go_Gateway g) with Ok v => Some v | Err _ => None end.

Definition kindGateway : string := "Gateway".
Definition kindListenerSet : string := "ListenerSet".
Definition msgConflictedListeners : string :=
  "Matched listener entries are conflicted with higher-precedence listeners".
Definition msgListenerSetNotAllowed : string := "Parent ListenerSet is not allowed by the Gateway".

Inductive ParentError := errListClasses | errGatewayBinding (e : BindingError) | errListenerSetBinding (e : BindingError).

Record parentRefBinding := mkParentRefBinding {
  pb_ManagedByThisController : bool;
  pb_Result : BindingResult;
  pb_GatewayKey : string;
}.
Definition no_binding : parentRefBinding := mkParentRefBinding false (mkBindingResult false "" "" []) "".
Definition gateway_key (g : GatewayObject) : string :=
  gw_Namespace (go_Gateway g) +:+ "/" +:+ gw_Name (go_Gateway g).

Section binding.
Context {cluster : Cluster} {kube : KubeClient} {views : ListenerViews} (controllerName : string).

Definition listGatewayClassesForController : option (list GatewayClass) :=
  List.filter (fun c => bool_decide (gc_ControllerName c = controllerName)) <$> kube_GatewayClasses.
Definition managedClassNames : option (gset string) :=
  (fun classes => list_to_set (gc_Name <$> classes)) <$> listGatewayClassesForController.
Definition gatewayIsManaged (g : GatewayObject) : res ParentError bool :=
  match managedClassNames with
  | None => Err errListClasses
  | Some names => Ok (bool_decide (go_ClassName g ∈ names))
  end.

(** Drop the matched sections that are conflicted; nothing left is a rejection. *)
Definition drop_conflicted (conflict : string -> string) (result : BindingResult) : BindingResult :=
  let kept := List.filter (fun section => bool_decide (conflict section = "")) (br_MatchedListeners result) in
  if length kept =? 0 then mkBindingResult false RouteReasonNoMatchingParent msgConflictedListeners []
  else mkBindingResult (br_Accepted result) (br_Reason result) (br_Message result) kept.
Definition filterMatchedGatewayListenersByConflict (g : GatewayObject) (result : BindingResult) : BindingResult :=
  match gateway_view g with
  | None => result
  | Some view => drop_conflicted (gatewayListenerConflictReason view) result
  end.
Definition filterMatchedListenersByConflict (ls : ListenerSetObject) (parent : GatewayObject) (result : BindingResult)
    : BindingResult :=
  match gateway_view parent with
  | None => result
  | Some view => drop_conflicted (conflictReason view (lso_Set ls)) result
  end.

Definition ref_namespace (ref : ParentReference) (routeNamespace : string) : string :=
  default routeNamespace (pref_Namespace ref).

Definition resolveGatewayParentBinding (ref : ParentReference) (routeNamespace : string) (routeInfo : RouteInfo)
    : res ParentError parentRefBinding :=
  match kube_Gateway (ref_namespace ref routeNamespace) (pref_Name ref) with
  | None => Ok no_binding
  | Some g =>
      match gatewayIsManaged g with
      | Err e => Err e
      | Ok false => Ok no_binding
      | Ok true =>
          match ValidateBinding (go_Gateway g) routeInfo with
          | Err e => Err (errGatewayBinding e)
          | Ok bindResult =>
              let bindResult :=
                if br_Accepted bindResult then filterMatchedGatewayListenersByConflict g bindResult else bindResult in
              Ok (mkParentRefBinding true bindResult (gateway_key g))
          end
      end
  end.

Definition listenerSetParentGateway (ls : ListenerSetObject) : option GatewayObject :=
  kube_Gateway (listenerSetParentNamespace ls) (lso_ParentName ls).

Definition resolveListenerSetParentBinding (ref : ParentReference) (routeNamespace : string) (routeInfo : RouteInfo)
    : res ParentError parentRefBinding :=
  match kube_ListenerSet (ref_namespace ref routeNamespace) (pref_Name ref) with
  | None => Ok no_binding
  | Some ls =>
      match listenerSetParentGateway ls with
      | None => Ok no_binding
      | Some parent =>
          match gatewayIsManaged parent with
          | Err e => Err e
          | Ok false => Ok no_binding
          | Ok true =>
              match EvaluateListenerSetAcceptance (go_Gateway parent) (lso_Set ls) with
              | Err e => Err (errListenerSetBinding e)
              | Ok false =>
                  Ok (mkParentRefBinding true
                        (mkBindingResult false RouteReasonNoMatchingParent msgListenerSetNotAllowed [])
                        (gateway_key parent))
              | Ok true =>
                  match ValidateBindingForListenerSet (lso_Set ls) routeInfo with
                  | Err e => Err (errListenerSetBinding e)
                  | Ok bindResult =>
                      let bindResult :=
                        if br_Accepted bindResult then filterMatchedListenersByConflict ls parent bindResult
                        else bindResult in
                      Ok (mkParentRefBinding true bindResult (gateway_key parent))
                  end
              end
          end
      end
  end.

Definition resolveRouteParentBinding (ref : ParentReference) (routeNamespace : string) (routeInfo : RouteInfo)
    : res ParentError parentRefBinding :=
  let kind := default kindGateway (pref_Kind ref) in
  if bool_decide (kind = kindGateway) then resolveGatewayParentBinding ref routeNamespace routeInfo
  else if bool_decide (kind = kindListenerSet) then resolveListenerSetParentBinding ref routeNamespace routeInfo
  else Ok no_binding.
End binding.

(** ** What an accepted parent means *)

(** A section that accepts the route and can be programmed. *)
Definition accepting {cluster : Cluster} (listeners : list Listener) (ns : string) (route : RouteInfo)
    (conflict : string -> string) (section : string) : Prop :=
  (exists l, l ∈ listeners /\ l_Name l = section /\ targets route l = true /\ binds ns route l = true) /\
  conflict section = "".

(** The validators' result with conflicted sections dropped. *)
Definition programmed (conflict : string -> string) (r : BindingResult) : BindingResult :=
  if br_Accepted r then drop_conflicted conflict r else r.

Lemma programmed_exact {cluster : Cluster} listeners ns route conflict r :
  validate_listeners listeners ns route = Ok r ->
  (forall section, section ∈ br_MatchedListeners (programmed conflict r) <->
     accepting listeners ns route conflict section) /\
  (br_Accepted (programmed conflict r) = true <-> exists section, accepting listeners ns route conflict section).
Proof.
  intros Hv. pose proof (validate_listeners_exact listeners ns route) as H. rewrite Hv in H.
  destruct H as (Hm & Ha & _). set (bound := List.filter _ listeners) in *.
  assert (Hin : forall section, section ∈ br_MatchedListeners r <->
    exists l, l ∈ listeners /\ l_Name l = section /\ targets route l = true /\ binds ns route l = true).
  { intros section. rewrite Hm, list_elem_of_fmap. unfold bound. setoid_rewrite elem_of_list_filter.
    split.
    - intros (l & -> & Hl & [Ht Hb]%andb_true_iff). exists l. auto.
    - intros (l & Hl & <- & Ht & Hb). exists l. by rewrite Ht, Hb. }
  assert (Hkept : forall section,
    section ∈ List.filter (fun s => bool_decide (conflict s = "")) (br_MatchedListeners r) <->
    accepting listeners ns route conflict section).
  { intros section. rewrite elem_of_list_filter, Hin, bool_decide_eq_true. done. }
  unfold programmed, drop_conflicted. rewrite Ha. case_bool_decide as Hb; simpl.
  - assert (Hnil : br_MatchedListeners r = []) by (by rewrite Hm, Hb).
    assert (Hno : forall section, ~ accepting listeners ns route conflict section).
    { intros section [Hs%Hin _]. rewrite Hnil in Hs. by apply elem_of_nil in Hs. }
    split.
    + intros section. rewrite Hnil, elem_of_nil. split; [done|]. apply Hno.
    + rewrite Ha. split; [done|]. intros [s Hs]. by destruct (Hno s).
  - destruct (List.filter _ (br_MatchedListeners r)) as [|k ks] eqn:Hk; simpl.
    + split.
      * intros section. rewrite <-Hkept. done.
      * split; [done|]. intros [s Hs%Hkept]. by apply elem_of_nil in Hs.
    + split; [done|]. split; [|done].
      intros _. exists k. apply Hkept. by left.
Qed.

Section spec.
Context {cluster : Cluster} {kube : KubeClient} {views : ListenerViews}.

(** A section's conflict in the view of a Gateway; a view that cannot be built
    has none. *)
Definition gateway_conflict (g : GatewayObject) (section : string) : string :=
  match gateway_view g with Some v => gatewayListenerConflictReason v section | None => "" end.
Definition set_conflict (g : GatewayObject) (ls : ListenerSetObject) (section : string) : string :=
  match gateway_view g with Some v => conflictReason v (lso_Set ls) section | None => "" end.

(** What a parentRef stands for: the Gateway behind it, the listeners it offers,
    their namespace, and their conflicts. *)
Record ParentTarget := mkParentTarget {
  pt_Gateway : GatewayObject;
  pt_Listeners : list Listener;
  pt_Namespace : string;
  pt_Conflict : string -> string;
}.
Definition parent_target (ref : ParentReference) (routeNamespace : string) : option ParentTarget :=
  let kind := default kindGateway (pref_Kind ref) in
  if bool_decide (kind = kindGateway) then
    g ← kube_Gateway (ref_namespace ref routeNamespace) (pref_Name ref);
    Some (mkParentTarget g (gw_Listeners (go_Gateway g)) (gw_Namespace (go_Gateway g)) (gateway_conflict g))
  else if bool_decide (kind = kindListenerSet) then
    ls ← kube_ListenerSet (ref_namespace ref routeNamespace) (pref_Name ref);
    g ← listenerSetParentGateway ls;
    match EvaluateListenerSetAcceptance (go_Gateway g) (lso_Set ls) with
    | Ok true => Some (mkParentTarget g (ls_Listeners (lso_Set ls)) (ls_Namespace (lso_Set ls)) (set_conflict g ls))
    | _ => None
    end
  else None.

Lemma no_conflict_programmed r :
  (br_Accepted r = true -> br_MatchedListeners r <> []) -> programmed (fun _ => "") r = r.
Proof.
  intros Hr. unfold programmed, drop_conflicted. destruct (br_Accepted r) eqn:Ha; [|done].
  rewrite List_filter_all by (intros; by rewrite bool_decide_eq_true_2). specialize (Hr eq_refl).
  destruct r as [acc why msg m]; simplify_eq/=. by destruct m.
Qed.
Lemma gateway_filter_programmed g r :
  (br_Accepted r = true -> br_MatchedListeners r <> []) ->
  (if br_Accepted r then filterMatchedGatewayListenersByConflict g r else r) = programmed (gateway_conflict g) r.
Proof.
  intros Hr. unfold filterMatchedGatewayListenersByConflict, gateway_conflict.
  destruct (gateway_view g); [done|]. rewrite no_conflict_programmed by done. by destruct (br_Accepted r).
Qed.
Lemma set_filter_programmed g ls r :
  (br_Accepted r = true -> br_MatchedListeners r <> []) ->
  (if br_Accepted r then filterMatchedListenersByConflict ls g r else r) = programmed (set_conflict g ls) r.
Proof.
  intros Hr. unfold filterMatchedListenersByConflict, set_conflict.
  destruct (gateway_view g); [done|]. rewrite no_conflict_programmed by done. by destruct (br_Accepted r).
Qed.
Lemma accepted_matched listeners ns route r :
  validate_listeners listeners ns route = Ok r -> br_Accepted r = true -> br_MatchedListeners r <> [].
Proof.
  intros Hv. pose proof (validate_listeners_exact listeners ns route) as H. rewrite Hv in H.
  destruct H as (-> & -> & _). case_bool_decide as Hb; [done|]. intros _ Hf. by apply fmap_nil_inv in Hf.
Qed.
End spec.

(** The binding [b] accepts the route through its parentRef if and only if it should. *)
Definition accepted_exactly {cluster : Cluster} {kube : KubeClient} {views : ListenerViews} (controllerName : string)
    (ref : ParentReference) (ns : string) (route : RouteInfo) (b : parentRefBinding) : Prop :=
  let ours t := parent_target ref ns = Some t /\ gatewayIsManaged controllerName (pt_Gateway t) = Ok true in
  let accepts t := accepting (pt_Listeners t) (pt_Namespace t) route (pt_Conflict t) in
  (br_Accepted (pb_Result b) = true <-> exists t section, ours t /\ accepts t section) /\
  (br_Accepted (pb_Result b) = true -> forall t, ours t ->
     pb_ManagedByThisController b = true /\ pb_GatewayKey b = gateway_key (pt_Gateway t) /\
     forall section, section ∈ br_MatchedListeners (pb_Result b) <-> accepts t section).

(** A parentRef is accepted exactly when it should be.  When the lookup
    succeeds, the route is accepted through a parentRef if and only if the ref
    stands for a Gateway of this controller (directly, or through a ListenerSet
    the Gateway admits) with a targeted listener that binds the route and has no
    conflict in the merged view; the matched sections are exactly those, and the
    Gateway is the one recorded. *)
Theorem parent_binding_exact {cluster : Cluster} {kube : KubeClient} {views : ListenerViews} (controllerName : string)
    (ref : ParentReference) (ns : string) (route : RouteInfo) (b : parentRefBinding) :
  resolveRouteParentBinding controllerName ref ns route = Ok b -> accepted_exactly controllerName ref ns route b.
Proof.
  (* everything follows from one target and the validators run on its listeners *)
  assert (Hcore : forall t r, parent_target ref ns = Some t -> gatewayIsManaged controllerName (pt_Gateway t) = Ok true ->
    validate_listeners (pt_Listeners t) (pt_Namespace t) route = Ok r ->
    b = mkParentRefBinding true (programmed (pt_Conflict t) r) (gateway_key (pt_Gateway t)) ->
    accepted_exactly controllerName ref ns route b).
  { intros t r Ht Hg Hv ->. destruct (programmed_exact _ _ _ (pt_Conflict t) r Hv) as [Hm Ha]. unfold accepted_exactly. simpl. split.
    - rewrite Ha. split.
      + intros [section Hs]. exists t, section. by split.
      + intros (t' & section & [Ht' _] & Hs). rewrite Ht in Ht'. simplify_eq. by exists section.
    - intros _ t' [Ht' _]. rewrite Ht in Ht'. simplify_eq. done. }
  assert (Hnone : b = no_binding \/ (exists k, b = mkParentRefBinding true
      (mkBindingResult false RouteReasonNoMatchingParent msgListenerSetNotAllowed []) k) ->
    (forall t, parent_target ref ns = Some t -> gatewayIsManaged controllerName (pt_Gateway t) <> Ok true) ->
    accepted_exactly controllerName ref ns route b).
  { intros Hb Hno. assert (Hacc : br_Accepted (pb_Result b) = false) by (by destruct Hb as [->|[k ->]]).
    unfold accepted_exactly. rewrite Hacc. split; [|done]. split; [done|]. intros (t & section & [Ht Hg] & _). by destruct (Hno t Ht). }
  unfold resolveRouteParentBinding. intros H. revert H Hcore Hnone. generalize (accepted_exactly controllerName ref ns route b). intros goal. unfold parent_target.
  case_bool_decide as Hkg; [|case_bool_decide as Hkl].
  - unfold resolveGatewayParentBinding. destruct (kube_Gateway _ _) as [g|]; simpl.
    2:{ intros [= <-] _ Hnone. apply Hnone; [by left|done]. }
    destruct (gatewayIsManaged controllerName g) as [[]|] eqn:Hg; [| |done].
    + destruct (ValidateBinding (go_Gateway g) route) as [r|] eqn:Hv; [|done]. intros [= <-] Hcore _.
      apply (Hcore _ r eq_refl Hg Hv). simpl. f_equal. apply gateway_filter_programmed. by eapply accepted_matched.
    + intros [= <-] _ Hnone. apply Hnone; [by left|]. intros t [= <-]. simpl. congruence.
  - unfold resolveListenerSetParentBinding. destruct (kube_ListenerSet _ _) as [ls|]; simpl.
    2:{ intros [= <-] _ Hnone. apply Hnone; [by left|done]. }
    destruct (listenerSetParentGateway ls) as [g|]; simpl.
    2:{ intros [= <-] _ Hnone. apply Hnone; [by left|done]. }
    destruct (gatewayIsManaged controllerName g) as [[]|] eqn:Hg; [| |done].
    + destruct (EvaluateListenerSetAcceptance (go_Gateway g) (lso_Set ls)) as [[]|] eqn:He; [| |done].
      * destruct (ValidateBindingForListenerSet (lso_Set ls) route) as [r|] eqn:Hv; [|done]. intros [= <-] Hcore _.
        apply (Hcore _ r eq_refl Hg Hv). simpl. f_equal. apply set_filter_programmed. by eapply accepted_matched.
      * intros [= <-] _ Hnone. apply Hnone; [right; eauto|done].
    + intros [= <-] _ Hnone. apply Hnone; [by left|]. intros t Ht.
      destruct (EvaluateListenerSetAcceptance _ _) as [[]|]; simplify_eq/=. congruence.
  - intros [= <-] _ Hnone. apply Hnone; [by left|done].
Qed.

(** One Gateway of this controller, and one of another. *)
Definition two_gateways : KubeClient := {|
  kube_Gateway ns name :=
    if bool_decide (ns = "prod") && bool_decide (name = "edge") then Some (edge_gateway "a.example.com")
    else if bool_decide (ns = "prod") && bool_decide (name = "foreign") then
      Some (mkGatewayObject
              (mkGateway "foreign" "prod" [mkListener "web" (Some "b.example.com") 80 "HTTP" None []] None) 1 "other" None None)
    else None;
  kube_ListenerSet _ _ := None;
  kube_Gateways := Some [edge_gateway "a.example.com"];
  kube_ListenerSets := Some [];
  kube_GatewayClasses := Some [mkGatewayClass "class" "us" None; mkGatewayClass "other" "them" None] |}.
Definition two_views : ListenerViews := @built_views bare_cluster two_gateways.
Definition web_route (hostnames : list string) : RouteInfo :=
  mkRouteInfo "web" "prod" hostnames KindHTTPRoute None None.
Definition ref_to (name : string) : ParentReference := mkParentReference None None None name None None.

Definition edge_binding : parentRefBinding :=
  mkParentRefBinding true (mkBindingResult true RouteReasonAccepted "Route accepted" ["web"]) "prod/edge".
Lemma parent_binding_exact_witness :
  @resolveRouteParentBinding bare_cluster two_gateways two_views "us" (ref_to "edge") "prod"
    (web_route ["a.example.com"]) = Ok edge_binding /\
  @accepted_exactly bare_cluster two_gateways two_views "us" (ref_to "edge") "prod"
    (web_route ["a.example.com"]) edge_binding.
Proof.
  assert (H : @resolveRouteParentBinding bare_cluster two_gateways two_views "us" (ref_to "edge") "prod"
    (web_route ["a.example.com"]) = Ok edge_binding) by (vm_compute; reflexivity).
  split; [exact H|].
  exact (@parent_binding_exact bare_cluster two_gateways two_views "us" (ref_to "edge") "prod"
    (web_route ["a.example.com"]) edge_binding H).
Defined.

(** The group of a parentRef is not looked at: a ref to a Gateway kind of another
    API group binds to the Gateway of the same name. *)
Lemma foreign_group_binds :
  @resolveRouteParentBinding bare_cluster two_gateways two_views "us"
    (mkParentReference (Some "networking.example.io") (Some "Gateway") None "edge" None None) "prod"
    (web_route ["a.example.com"]) = Ok edge_binding.
Proof. vm_compute. reflexivity. Qed.
