(* ===== verification/EffectiveHostnames.v ===== *)
(** * The scope of a route ([controller/route_effective_hostnames.go], [route_redirect_scheme.go])

    Before conversion each route's hostnames are narrowed to what the listeners
    it binds to cover, and scheme-less redirects get the scheme of those
    listeners. *)
From Stdlib Require Import Ascii.
From stdpp Require Import base sets gmap strings list.
From S2P Require Import Prelude GoStrings RouteBinding ListenerMerge IngressBuild Converter ConfigResolver ListenerView ParentBinding.

Definition catchAllHostnameSentinel : string := "".

Section scope.
Context {cluster : Cluster} {kube : KubeClient} {views : ListenerViews}.

Definition route_info {R} (kind : string) (route : RouteObject R) (ref : ParentReference) : RouteInfo :=
  mkRouteInfo (ro_Name route) (ro_Namespace route) (ro_Hostnames route) kind (pref_SectionName ref) (pref_Port ref).

(** The preamble both passes share; the branches take namespace, name and info. *)
Definition resolveParentRefListeners {R T} (kind : string) (route : RouteObject R) (ref : ParentReference)
    (gatewayBranch listenerSetBranch : string -> string -> RouteInfo -> list T) : list T :=
  if match pref_Group ref with
     | Some g => negb (bool_decide (g = "")) && negb (bool_decide (g = GroupName))
     | None => false
     end then []
  else
    let refKind := default kindGateway (pref_Kind ref) in
    let namespace := default (ro_Namespace route) (pref_Namespace ref) in
    let routeInfo := route_info kind route ref in
    if bool_decide (refKind = kindGateway) then gatewayBranch namespace (pref_Name ref) routeInfo
    else if bool_decide (refKind = kindListenerSet) then listenerSetBranch namespace (pref_Name ref) routeInfo
    else [].

(** ** Conflicted sections *)

Definition dropConflictedSections (merged : list MergedListener) (ls : ListenerSetObject) (sections : list string)
    : list string :=
  List.filter (fun section =>
    negb match findMergedEntry merged (lso_Set ls) section with
         | Some entry => negb (bool_decide (ml_ConflictReason entry = ""))
         | None => false
         end) sections.
Definition nonConflictedSections (ls : ListenerSetObject) (sections : list string) : list string :=
  match listenerSetParentGateway ls with
  | None => sections
  | Some parent =>
      match gateway_view parent with
      | None => sections
      | Some view => dropConflictedSections (view_merged view) ls sections
      end
  end.

(** ** Hostnames *)

(** [hostByName]: a later listener of the same name overwrites an earlier one. *)
Definition hostByName (listeners : list Listener) : gmap string (option string) :=
  foldl (fun m l => <[l_Name l := l_Hostname l]> m) ∅ listeners.
Definition section_hostnames (byName : gmap string (option string)) (routeHostnames : list string) (section : string)
    : list string :=
  match byName !! section with
  | None => []
  | Some listenerHostname =>
      if (length routeHostnames =? 0) && bool_decide (default "" listenerHostname = "") then [catchAllHostnameSentinel]
      else EffectiveListenerHostnames listenerHostname routeHostnames
  end.
Definition effectiveHostnamesForSections (sections : list string) (byName : gmap string (option string))
    (routeHostnames : list string) : list string :=
  sections ≫= section_hostnames byName routeHostnames.

Definition gatewayEffectiveHostnames (namespace name : string) (routeInfo : RouteInfo) : list string :=
  match kube_Gateway namespace name with
  | None => []
  | Some g =>
      match ValidateBinding (go_Gateway g) routeInfo with
      | Ok result =>
          if negb (br_Accepted result) then []
          else effectiveHostnamesForSections (br_MatchedListeners result) (hostByName (gw_Listeners (go_Gateway g)))
                 (ri_Hostnames routeInfo)
      | Err _ => []
      end
  end.
Definition listenerSetEffectiveHostnames (namespace name : string) (routeInfo : RouteInfo) : list string :=
  match kube_ListenerSet namespace name with
  | None => []
  | Some ls =>
      match ValidateBindingForListenerSet (lso_Set ls) routeInfo with
      | Ok result =>
          if negb (br_Accepted result) then []
          else effectiveHostnamesForSections (nonConflictedSections ls (br_MatchedListeners result))
                 (hostByName (ls_Listeners (lso_Set ls))) (ri_Hostnames routeInfo)
      | Err _ => []
      end
  end.
Definition effectiveHostnamesForParentRef {R} (kind : string) (route : RouteObject R) (ref : ParentReference) : list string :=
  resolveParentRefListeners kind route ref gatewayEffectiveHostnames listenerSetEffectiveHostnames.

(** The closure [add]: the hostnames in order of appearance, and the catch-all flag. *)
Definition add_hostname (acc : list string * bool) (hostname : string) : list string * bool :=
  let '(out, catchAll) := acc in
  if bool_decide (hostname = catchAllHostnameSentinel) then (out, true)
  else if bool_decide (hostname ∈ out) then (out, catchAll)
  else (out ++ [hostname], catchAll).
Definition collectEffectiveListenerHostnames {R} (kind : string) (route : RouteObject R) : list string * bool :=
  foldl add_hostname ([], false) (ro_ParentRefs route ≫= effectiveHostnamesForParentRef kind route).

Definition with_hostnames {R} (hostnames : list string) (route : RouteObject R) : RouteObject R :=
  mkRouteObject (ro_Namespace route) (ro_Name route) (ro_CreationTimestamp route) hostnames
    (ro_ParentRefs route) (ro_Rules route).
Definition narrow_route {R} (kind : string) (route : RouteObject R) : RouteObject R :=
  let '(effective, catchAll) := collectEffectiveListenerHostnames kind route in
  if catchAll && (length (ro_Hostnames route) =? 0) then route
  else if length effective =? 0 then route
  else with_hostnames effective route.
Definition withEffectiveHostnames (routes : list (RouteObject HTTPRouteRule)) : list (RouteObject HTTPRouteRule) :=
  narrow_route KindHTTPRoute <$> routes.
Definition withEffectiveHostnamesGRPC (routes : list (RouteObject GRPCRouteRule)) : list (RouteObject GRPCRouteRule) :=
  narrow_route KindGRPCRoute <$> routes.

(** ** The scheme of redirects *)

Definition redirectSchemeHTTP : string := "http".
Definition redirectSchemeHTTPS : string := "https".

Definition protoByName (listeners : list Listener) : gmap string string :=
  foldl (fun m l => <[l_Name l := l_Protocol l]> m) ∅ listeners.
Definition protocolsForSections (sections : list string) (byName : gmap string string) : list string :=
  omap (fun section => protocol ← byName !! section; if bool_decide (protocol = "") then None else Some protocol) sections.
Definition gatewayAcceptedProtocols (namespace name : string) (routeInfo : RouteInfo) : list string :=
  match kube_Gateway namespace name with
  | None => []
  | Some g =>
      match ValidateBinding (go_Gateway g) routeInfo with
      | Ok result =>
          if negb (br_Accepted result) then []
          else protocolsForSections (br_MatchedListeners result) (protoByName (gw_Listeners (go_Gateway g)))
      | Err _ => []
      end
  end.
Definition listenerSetAcceptedProtocols (namespace name : string) (routeInfo : RouteInfo) : list string :=
  match kube_ListenerSet namespace name with
  | None => []
  | Some ls =>
      match ValidateBindingForListenerSet (lso_Set ls) routeInfo with
      | Ok result =>
          if negb (br_Accepted result) then []
          else protocolsForSections (nonConflictedSections ls (br_MatchedListeners result))
                 (protoByName (ls_Listeners (lso_Set ls)))
      | Err _ => []
      end
  end.
Definition acceptedProtocolsForParentRef {R} (kind : string) (route : RouteObject R) (ref : ParentReference) : list string :=
  resolveParentRefListeners kind route ref gatewayAcceptedProtocols listenerSetAcceptedProtocols.

(** The nested loops over parentRefs and protocols, with the early return. *)
Fixpoint scheme_loop (protocols : list string) (sawHTTP : bool) : string :=
  match protocols with
  | [] => if sawHTTP then redirectSchemeHTTP else ""
  | protocol :: protocols' =>
      if bool_decide (protocol = "HTTPS") then redirectSchemeHTTPS
      else scheme_loop protocols' (sawHTTP || bool_decide (protocol = "HTTP"))
  end.
Definition acceptedListenerScheme {R} (kind : string) (route : RouteObject R) : string :=
  scheme_loop (ro_ParentRefs route ≫= acceptedProtocolsForParentRef kind route) false.

Definition isEmptySchemeRedirect (f : HTTPRouteFilter) : bool :=
  bool_decide (hf_Type f = "RequestRedirect") &&
  match hf_RequestRedirect f with
  | Some r => bool_decide (hrr_Scheme r = None)
  | None => false
  end.
(** Every filter of the route, at the rule and at the backendRef level. *)
Definition redirectFilters (route : RouteObject HTTPRouteRule) : list HTTPRouteFilter :=
  ro_Rules route ≫= fun rule => hrule_Filters rule ++ (hrule_BackendRefs rule ≫= hb_Filters).
Definition routeHasEmptyRedirectScheme (route : RouteObject HTTPRouteRule) : bool :=
  existsb isEmptySchemeRedirect (redirectFilters route).

Definition set_scheme (scheme : string) (f : HTTPRouteFilter) : HTTPRouteFilter :=
  if isEmptySchemeRedirect f then
    mkHTTPRouteFilter (hf_Type f) (hf_RequestHeaderModifier f) (hf_ResponseHeaderModifier f)
      ((fun r => mkHTTPRequestRedirectFilter (Some scheme) (hrr_Hostname r) (hrr_Port r) (hrr_Path r) (hrr_StatusCode r))
         <$> hf_RequestRedirect f)
      (hf_URLRewrite f) (hf_RequestMirror f) (hf_CORS f)
  else f.
Definition applyDefaultRedirectScheme (scheme : string) (route : RouteObject HTTPRouteRule) : RouteObject HTTPRouteRule :=
  mkRouteObject (ro_Namespace route) (ro_Name route) (ro_CreationTimestamp route) (ro_Hostnames route)
    (ro_ParentRefs route)
    ((fun rule => mkHTTPRouteRule (hrule_Matches rule) (set_scheme scheme <$> hrule_Filters rule)
        ((fun b => mkHTTPBackendRef (hb_Ref b) (set_scheme scheme <$> hb_Filters b)) <$> hrule_BackendRefs rule)
        (hrule_Timeouts rule)) <$> ro_Rules route).
Definition defaultRedirectSchemeForRoute (route : RouteObject HTTPRouteRule) : RouteObject HTTPRouteRule :=
  if negb (routeHasEmptyRedirectScheme route) then route
  else
    let scheme := acceptedListenerScheme KindHTTPRoute route in
    if bool_decide (scheme = "") then route else applyDefaultRedirectScheme scheme route.
Definition withDefaultRedirectScheme (routes : list (RouteObject HTTPRouteRule)) : list (RouteObject HTTPRouteRule) :=
  defaultRedirectSchemeForRoute <$> routes.
End scope.

(** ** What the narrowing means *)

(** No two listeners of a parent share a name (the CRD's list-map key). *)
Definition names_unique (listeners : list Listener) : Prop := NoDup (l_Name <$> listeners).

Lemma by_name_lookup {V} (f : Listener -> V) listeners l :
  names_unique listeners -> l ∈ listeners ->
  foldl (fun m l => <[l_Name l := f l]> m) (∅ : gmap string V) listeners !! l_Name l = Some (f l).
Proof.
  assert (Hgen : forall ls (m : gmap string V), NoDup (l_Name <$> ls) ->
    forall k, foldl (fun m l => <[l_Name l := f l]> m) m ls !! k =
      match List.find (fun l => bool_decide (l_Name l = k)) ls with Some l => Some (f l) | None => m !! k end).
  { induction ls as [|x ls IH]; intros m Hnd k; [done|]. cbn [foldl List.find].
    rewrite fmap_cons in Hnd. apply NoDup_cons in Hnd as [Hx Hnd]. rewrite IH by done.
    destruct (List.find _ ls) as [y|] eqn:Hf.
    - apply List.find_some in Hf as [Hy%list_elem_of_In Hk]. apply bool_decide_eq_true in Hk.
      rewrite bool_decide_eq_false_2; [done|]. intros He. apply Hx. rewrite He, <-Hk. by apply list_elem_of_fmap_2.
    - case_bool_decide as He; [by rewrite He, lookup_insert_eq|by rewrite lookup_insert_ne]. }
  intros Hnd Hl. rewrite Hgen by done.
  destruct (List.find _ listeners) as [y|] eqn:Hf.
  - apply List.find_some in Hf as [Hy%list_elem_of_In Hk]. apply bool_decide_eq_true in Hk.
    do 2 f_equal. apply list_elem_of_lookup in Hl as [i Hi], Hy as [j Hj].
    assert (i = j) as ->; [|congruence].
    apply (NoDup_lookup _ _ _ (l_Name l) Hnd); rewrite list_lookup_fmap; [by rewrite Hi|by rewrite Hj; simpl; rewrite Hk].
  - rewrite find_none_forall in Hf. specialize (Hf l Hl). by rewrite bool_decide_eq_true_2 in Hf.
Qed.

Lemma add_hostnames_spec hs out catchAll :
  let r := foldl add_hostname (out, catchAll) hs in
  (forall e, e ∈ r.1 <-> e ∈ out \/ (e ∈ hs /\ e <> "")) /\
  (r.2 = true <-> catchAll = true \/ "" ∈ hs).
Proof.
  revert out catchAll. induction hs as [|h hs IH]; intros out catchAll; cbn [foldl].
  { simpl. split; [intros e|]; rewrite elem_of_nil; tauto. }
  assert (Hadd : add_hostname (out, catchAll) h =
    if bool_decide (h = "") then (out, true) else if bool_decide (h ∈ out) then (out, catchAll)
    else (out ++ [h], catchAll)) by done.
  rewrite Hadd. clear Hadd.
  case_bool_decide as Hh; [|case_bool_decide as Hin].
  - subst h. destruct (IH out true) as [H1 H2]. split.
    + intros e. rewrite H1, elem_of_cons. naive_solver.
    + rewrite H2, elem_of_cons. naive_solver.
  - destruct (IH out catchAll) as [H1 H2]. split.
    + intros e. rewrite H1, elem_of_cons. naive_solver.
    + rewrite H2, elem_of_cons. naive_solver.
  - destruct (IH (out ++ [h]) catchAll) as [H1 H2]. split.
    + intros e. rewrite H1, elem_of_app, list_elem_of_singleton, elem_of_cons. naive_solver.
    + rewrite H2, elem_of_cons. naive_solver.
Qed.

Section narrowing.
Context {cluster : Cluster} {kube : KubeClient} {views : ListenerViews}.

(** The listeners a parentRef offers to the two passes. *)
Record Scope := mkScope { sc_Listeners : list Listener; sc_Namespace : string; sc_Conflict : string -> string }.
Definition scope_of (routeNamespace : string) (ref : ParentReference) : option Scope :=
  if match pref_Group ref with
     | Some g => negb (bool_decide (g = "")) && negb (bool_decide (g = GroupName))
     | None => false
     end then None
  else
    let refKind := default kindGateway (pref_Kind ref) in
    let namespace := default routeNamespace (pref_Namespace ref) in
    if bool_decide (refKind = kindGateway) then
      g ← kube_Gateway namespace (pref_Name ref);
      Some (mkScope (gw_Listeners (go_Gateway g)) (gw_Namespace (go_Gateway g)) (fun _ => ""))
    else if bool_decide (refKind = kindListenerSet) then
      ls ← kube_ListenerSet namespace (pref_Name ref);
      Some (mkScope (ls_Listeners (lso_Set ls)) (ls_Namespace (lso_Set ls))
        (fun section => match listenerSetParentGateway ls with Some g => set_conflict g ls section | None => "" end))
    else None.

(** A listener behind a parentRef that binds the route, without a conflict. *)
Definition contributes {R} (kind : string) (route : RouteObject R) (ref : ParentReference) (l : Listener) : Prop :=
  exists sc r, scope_of (ro_Namespace route) ref = Some sc /\
    validate_listeners (sc_Listeners sc) (sc_Namespace sc) (route_info kind route ref) = Ok r /\
    l ∈ sc_Listeners sc /\ targets (route_info kind route ref) l = true /\
    binds (sc_Namespace sc) (route_info kind route ref) l = true /\ sc_Conflict sc (l_Name l) = "".

(** What one listener adds to the stream. *)
Definition listener_part (lh : option string) (rs : list string) : list string :=
  if (length rs =? 0) && bool_decide (default "" lh = "") then [catchAllHostnameSentinel]
  else EffectiveListenerHostnames lh rs.

Lemma sections_part listeners ns info r keep e :
  validate_listeners listeners ns info = Ok r -> names_unique listeners ->
  e ∈ (if negb (br_Accepted r) then []
       else effectiveHostnamesForSections (List.filter keep (br_MatchedListeners r)) (hostByName listeners) (ri_Hostnames info)) <->
  exists l, l ∈ listeners /\ targets info l = true /\ binds ns info l = true /\ keep (l_Name l) = true /\
    e ∈ listener_part (l_Hostname l) (ri_Hostnames info).
Proof.
  intros Hv Hnd. pose proof (validate_listeners_exact listeners ns info) as H. rewrite Hv in H.
  destruct H as (Hm & Ha & _). rewrite Ha, negb_involutive. case_bool_decide as Hb.
  - split; [by intros ?%elem_of_nil|]. intros (l & Hl & Ht & Hbd & _).
    assert (Hin : l ∈ List.filter (fun l => targets info l && binds ns info l) listeners)
      by (apply elem_of_list_filter; by rewrite Ht, Hbd).
    rewrite Hb in Hin. by apply elem_of_nil in Hin.
  - unfold effectiveHostnamesForSections. rewrite list_elem_of_bind, Hm. split.
    + intros (section & He & [Hs Hk]%elem_of_list_filter).
      apply list_elem_of_fmap in Hs as (l & -> & [Hl [Ht Hbd]%andb_true_iff]%elem_of_list_filter).
      exists l. unfold section_hostnames, hostByName in He. rewrite by_name_lookup in He by done. auto.
    + intros (l & Hl & Ht & Hbd & Hk & He). exists (l_Name l). split.
      * unfold section_hostnames, hostByName. by rewrite by_name_lookup.
      * apply elem_of_list_filter. split; [|done]. apply list_elem_of_fmap_2, elem_of_list_filter. by rewrite Ht, Hbd.
Qed.

Lemma nonConflicted_filter ls sections :
  nonConflictedSections ls sections =
  List.filter (fun section => bool_decide
    (match listenerSetParentGateway ls with Some g => set_conflict g ls section | None => "" end = "")) sections.
Proof.
  unfold nonConflictedSections, set_conflict, dropConflictedSections, conflictReason.
  destruct (listenerSetParentGateway ls) as [g|]; [|by rewrite List_filter_all].
  destruct (gateway_view g); [|by rewrite List_filter_all].
  apply List.filter_ext. intros section. destruct (findMergedEntry _ _ _) as [e|]; simpl; [|done].
  by rewrite negb_involutive.
Qed.

Lemma parent_part {R} kind (route : RouteObject R) ref e :
  (forall sc, scope_of (ro_Namespace route) ref = Some sc -> names_unique (sc_Listeners sc)) ->
  e ∈ effectiveHostnamesForParentRef kind route ref <->
  exists l, contributes kind route ref l /\ e ∈ listener_part (l_Hostname l) (ro_Hostnames route).
Proof.
  assert (Hshape : forall sc, scope_of (ro_Namespace route) ref = Some sc -> names_unique (sc_Listeners sc) ->
    (e ∈ effectiveHostnamesForParentRef kind route ref <->
     exists r, validate_listeners (sc_Listeners sc) (sc_Namespace sc) (route_info kind route ref) = Ok r /\
       e ∈ (if negb (br_Accepted r) then []
            else effectiveHostnamesForSections
              (List.filter (fun s => bool_decide (sc_Conflict sc s = "")) (br_MatchedListeners r))
              (hostByName (sc_Listeners sc)) (ro_Hostnames route))) ->
    e ∈ effectiveHostnamesForParentRef kind route ref <->
    exists l, contributes kind route ref l /\ e ∈ listener_part (l_Hostname l) (ro_Hostnames route)).
  { intros sc Hsc Hnd Hiff. rewrite Hiff. unfold contributes. split.
    - intros (r & Hv & He). apply (sections_part _ _ _ _ _ _ Hv Hnd) in He as (l & ? & ? & ? & Hk & ?).
      apply bool_decide_eq_true in Hk. exists l. split; [|done]. exists sc, r. auto 10.
    - intros (l & (sc' & r & Hsc' & Hv & ? & ? & ? & ?) & He). rewrite Hsc in Hsc'. simplify_eq. exists r. split; [done|].
      apply (sections_part _ _ _ _ _ _ Hv Hnd). exists l. rewrite bool_decide_eq_true. auto. }
  intros Hnd. destruct (scope_of (ro_Namespace route) ref) as [sc|] eqn:Hsc.
  - apply (Hshape sc eq_refl (Hnd sc eq_refl)). revert Hsc.
    unfold scope_of, effectiveHostnamesForParentRef, resolveParentRefListeners.
    destruct (match pref_Group ref with Some _ => _ | None => _ end); [done|].
    case_bool_decide as Hg; [|case_bool_decide as Hl; [|done]].
    + unfold gatewayEffectiveHostnames. destruct (kube_Gateway _ _) as [g|]; [|done]. intros [= <-]. simpl.
      unfold ValidateBinding. destruct (validate_listeners _ _ _) as [r|er].
      * split; [intros He; exists r; split; [done|]|intros (r' & [= <-] & He); revert He]; by rewrite List_filter_all.
      * rewrite elem_of_nil. split; [done|]. by intros (? & ? & _).
    + unfold listenerSetEffectiveHostnames. destruct (kube_ListenerSet _ _) as [ls|]; [|done]. intros [= <-]. simpl.
      unfold ValidateBindingForListenerSet. destruct (validate_listeners _ _ _) as [r|er].
      * rewrite nonConflicted_filter. split; [intros He; by exists r|by intros (r' & [= <-] & He)].
      * rewrite elem_of_nil. split; [done|]. by intros (? & ? & _).
  - split; [|by intros (l & (sc & r & Hsc' & _) & _); congruence]. intros He. exfalso. revert Hsc He.
    unfold scope_of, effectiveHostnamesForParentRef, resolveParentRefListeners.
    destruct (match pref_Group ref with Some _ => _ | None => _ end); [by intros _ ?%elem_of_nil|].
    case_bool_decide; [|case_bool_decide; [|by intros _ ?%elem_of_nil]].
    + unfold gatewayEffectiveHostnames. by destruct (kube_Gateway _ _); [|intros _ ?%elem_of_nil].
    + unfold listenerSetEffectiveHostnames. by destruct (kube_ListenerSet _ _); [|intros _ ?%elem_of_nil].
Qed.
End narrowing.

Lemma effective_nonempty l rs e :
  valid_listener_hostname l -> (forall r, r ∈ rs -> valid_hostname r) -> e ∈ EffectiveListenerHostnames l rs -> e <> "".
Proof.
  intros Hl Hrs. unfold EffectiveListenerHostnames. destruct rs as [|r0 rs]; cbn [length Nat.eqb].
  - destruct l as [p|]; [|by intros ?%elem_of_nil]. case_bool_decide; [by intros ?%elem_of_nil|].
    by intros ->%list_elem_of_singleton.
  - intros (r & Hr & He)%list_elem_of_omap. assert (Hr0 : r <> "") by (by destruct (Hrs r Hr)).
    unfold HostnameIntersection in He. destruct l as [p|]; [|by simplify_eq].
    case_bool_decide; [by simplify_eq|]. destruct (negb _); [done|]. injection He as <-. unfold narrower.
    destruct (HasPrefix r "*."); [|done]. by destruct (_ && _).
Qed.
Lemma listener_part_spec l rs e :
  valid_listener_hostname l -> (forall r, r ∈ rs -> valid_hostname r) ->
  (e = "" /\ e ∈ listener_part l rs <-> e = "" /\ rs = [] /\ (l = None \/ l = Some "")) /\
  (e <> "" /\ e ∈ listener_part l rs <-> e ∈ EffectiveListenerHostnames l rs).
Proof.
  intros Hl Hrs. pose proof (effective_nonempty l rs e Hl Hrs) as Hne. unfold listener_part.
  assert (Hd : default "" l = "" <-> l = None \/ l = Some "") by (destruct l; simpl; naive_solver).
  destruct rs as [|r rs]; cbn [length Nat.eqb andb].
  - case_bool_decide as Hc.
    + apply Hd in Hc. rewrite list_elem_of_singleton. unfold catchAllHostnameSentinel.
      split; [tauto|]. split; [tauto|]. intros He. by destruct Hc as [-> | ->]; apply elem_of_nil in He.
    + split; [|split; [by intros [_ ?]|auto]]. split; [intros [-> He]; by destruct (Hne He)|].
      intros (_ & _ & Hx). by destruct Hc; apply Hd.
  - split; [|split; [by intros [_ ?]|auto]]. split; [intros [-> He]; by destruct (Hne He)|by intros (_ & ? & _)].
Qed.

(** A listener behind one of the route's parentRefs that binds it. *)
Definition bound_by {cluster : Cluster} {kube : KubeClient} {views : ListenerViews} {R} (kind : string)
    (route : RouteObject R) (ref : ParentReference) (l : Listener) : Prop :=
  ref ∈ ro_ParentRefs route /\ contributes kind route ref l.
(** Hostnames as the CRD admits them, and listener names unique per parent. *)
Definition admitted_scope {cluster : Cluster} {kube : KubeClient} {views : ListenerViews} {R} (route : RouteObject R)
    : Prop :=
  (forall r, r ∈ ro_Hostnames route -> valid_hostname r) /\
  (forall ref sc, ref ∈ ro_ParentRefs route -> scope_of (ro_Namespace route) ref = Some sc ->
     names_unique (sc_Listeners sc) /\ forall l, l ∈ sc_Listeners sc -> valid_listener_hostname (l_Hostname l)).

Section collected.
Context {cluster : Cluster} {kube : KubeClient} {views : ListenerViews} {R : Type}.
Context (kind : string) (route : RouteObject R) (Hadm : admitted_scope route).
Notation rs := (ro_Hostnames route).

Lemma bound_valid ref l : bound_by kind route ref l -> valid_listener_hostname (l_Hostname l).
Proof. intros [Href (sc & r & Hs & _ & Hl & _)]. destruct (proj2 Hadm ref sc Href Hs) as [_ Hv]. auto. Qed.

Lemma stream_spec e :
  e ∈ (ro_ParentRefs route ≫= effectiveHostnamesForParentRef kind route) <->
  exists ref l, bound_by kind route ref l /\ e ∈ listener_part (l_Hostname l) rs.
Proof.
  destruct Hadm as [_ Hsc]. rewrite list_elem_of_bind. split.
  - intros (ref & He & Href). apply parent_part in He as (l & Hc & He); [|intros sc Hs; by apply (Hsc ref sc Href Hs)].
    exists ref, l. split; [by split|done].
  - intros (ref & l & [Href Hc] & He). exists ref. split; [|done].
    apply parent_part; [intros sc Hs; by apply (Hsc ref sc Href Hs)|]. by exists l.
Qed.

Lemma collected_hostnames e :
  e ∈ (collectEffectiveListenerHostnames kind route).1 <->
  exists ref l, bound_by kind route ref l /\ e ∈ EffectiveListenerHostnames (l_Hostname l) rs.
Proof.
  unfold collectEffectiveListenerHostnames. rewrite (proj1 (add_hostnames_spec _ [] false)), elem_of_nil, stream_spec.
  split.
  - intros [[]|[(ref & l & Hb & He) Hne]]. exists ref, l. split; [done|].
    by apply (listener_part_spec _ _ e (bound_valid ref l Hb) (proj1 Hadm)).
  - intros (ref & l & Hb & He). right.
    apply (listener_part_spec _ _ e (bound_valid ref l Hb) (proj1 Hadm)) in He as [Hne He]. split; [by exists ref, l|done].
Qed.
Lemma collected_catch_all :
  (collectEffectiveListenerHostnames kind route).2 = true <->
  rs = [] /\ exists ref l, bound_by kind route ref l /\ (l_Hostname l = None \/ l_Hostname l = Some "").
Proof.
  unfold collectEffectiveListenerHostnames. rewrite (proj2 (add_hostnames_spec _ [] false)), stream_spec. split.
  - intros [?|(ref & l & Hb & He)]; [done|].
    destruct (proj1 (proj1 (listener_part_spec _ _ "" (bound_valid ref l Hb) (proj1 Hadm))) (conj eq_refl He))
      as (_ & ? & ?). eauto 6.
  - intros [Hnil (ref & l & Hb & Hl)]. right. exists ref, l. split; [done|].
    by apply (proj2 (proj1 (listener_part_spec _ _ "" (bound_valid ref l Hb) (proj1 Hadm))) (conj eq_refl (conj Hnil Hl))).
Qed.
Lemma bound_hosts ref l h :
  bound_by kind route ref l ->
  listener_accepts (l_Hostname l) h /\ route_asks rs h <->
  ((l_Hostname l = None \/ l_Hostname l = Some "") /\ rs = []) \/
  exists e, e ∈ EffectiveListenerHostnames (l_Hostname l) rs /\ denotes e h.
Proof. intros Hb. apply (EffectiveListenerHostnames_denotes _ rs (bound_valid ref l Hb) (proj1 Hadm)). Qed.

(** A listener that binds the route leaves a hostname or the catch-all flag. *)
Lemma bound_collected ref l :
  bound_by kind route ref l -> (collectEffectiveListenerHostnames kind route).1 = [] ->
  (collectEffectiveListenerHostnames kind route).2 = true /\ rs = [].
Proof.
  intros Hb Hnil. pose proof Hb as [_ (sc & r & _ & _ & _ & _ & Hbd & _)].
  unfold binds in Hbd. apply andb_true_iff in Hbd as [[Hi _]%andb_true_iff _].
  apply (EffectiveListenerHostnames_denotes _ rs (bound_valid ref l Hb) (proj1 Hadm)) in Hi as [h Hh].
  apply (bound_hosts ref l h Hb) in Hh as [[Hl Hr]|(e & He & _)]; [split; [apply collected_catch_all; eauto 6|done]|].
  assert (e ∈ (collectEffectiveListenerHostnames kind route).1) as Hin by (apply collected_hostnames; eauto).
  rewrite Hnil in Hin. by apply elem_of_nil in Hin.
Qed.
End collected.

(** A route answers exactly the hosts its listeners share with it.  When some
    listener behind its parentRefs binds the route (and is not conflicted, for a
    ListenerSet), the narrowed route asks for a host if and only if one of these
    listeners accepts it and the route asked for it; a route no listener binds is
    left as it was.  Listener names are unique per parent, hostnames as the CRD
    admits them. *)
Theorem narrowing_exact {cluster : Cluster} {kube : KubeClient} {views : ListenerViews} {R}
    (kind : string) (route : RouteObject R) :
  admitted_scope route ->
  let route' := narrow_route kind route in
  ((exists ref l, bound_by kind route ref l) -> forall h, route_asks (ro_Hostnames route') h <->
     exists ref l, bound_by kind route ref l /\ listener_accepts (l_Hostname l) h /\ route_asks (ro_Hostnames route) h) /\
  (~ (exists ref l, bound_by kind route ref l) -> route' = route).
Proof.
  intros Hadm route'. pose proof (collected_hostnames kind route Hadm) as Heff.
  pose proof (collected_catch_all kind route Hadm) as Hca. pose proof (bound_collected kind route Hadm) as Hsome.
  pose proof (bound_hosts kind route Hadm) as Hhost. unfold narrow_route in route'.
  destruct (collectEffectiveListenerHostnames kind route) as [eff catchAll]. simpl in *.
  destruct (catchAll && (length (ro_Hostnames route) =? 0)) eqn:Hc; [|destruct (Nat.eqb_spec (length eff) 0) as [Hz|Hz]].
  - apply andb_true_iff in Hc as [-> Hz%Nat.eqb_eq%nil_length_inv]. split; [|done]. intros _ h. subst route'.
    destruct (proj1 Hca eq_refl) as [_ (ref & l & Hb & Hl)].
    split; [|intros _; by left]. intros Ha. exists ref, l. split_and!; [done| |done]. by destruct Hl as [-> | ->]; [|left].
  - apply nil_length_inv in Hz. split; [|done]. intros (ref & l & Hb). exfalso. destruct (Hsome ref l Hb Hz) as [-> Hr].
    by rewrite Hr in Hc.
  - split.
    + intros _ h. subst route'. simpl. split.
      * intros [->|(e & He & Hd)]; [done|]. apply Heff in He as (ref & l & Hb & He). exists ref, l. split; [done|].
        apply (Hhost ref l h Hb). right. by exists e.
      * intros (ref & l & Hb & Hh). apply (Hhost ref l h Hb) in Hh as [[Hl Hr]|(e & He & Hd)].
        -- exfalso. assert (catchAll = true) as -> by (apply Hca; eauto 6). by rewrite Hr in Hc.
        -- right. exists e. split; [apply Heff; eauto|done].
    + intros Hno. exfalso. destruct eff as [|e eff]; [done|]. apply Hno.
      destruct (proj1 (Heff e)) as (ref & l & Hb & _); [by left|]. by exists ref, l.
Qed.

(** A route on the Gateway of this controller. *)
Definition edge_route (refs : list ParentReference) (hostnames : list string) : RouteObject HTTPRouteRule :=
  mkRouteObject "prod" "web" 1 hostnames refs [].
Lemma edge_scope_admitted :
  @admitted_scope bare_cluster two_gateways two_views _ (edge_route [ref_to "edge"] []).
Proof.
  split; [by intros r ?%elem_of_nil|]. intros ref sc ->%list_elem_of_singleton. vm_compute. intros [= <-]. split.
  - apply NoDup_singleton.
  - intros l ->%list_elem_of_singleton p [= <-]. right. split; [discriminate|reflexivity].
Defined.
Lemma narrowing_exact_witness :
  @narrow_route bare_cluster two_gateways two_views _ KindHTTPRoute (edge_route [ref_to "edge"] []) =
    edge_route [ref_to "edge"] ["a.example.com"] /\
  ~ ~ (exists ref l, @bound_by bare_cluster two_gateways two_views _ KindHTTPRoute (edge_route [ref_to "edge"] []) ref l).
Proof.
  split; [vm_compute; reflexivity|]. intros Hno.
  pose proof (proj2 (@narrowing_exact bare_cluster two_gateways two_views _ KindHTTPRoute _ edge_scope_admitted) Hno) as H.
  vm_compute in H. discriminate H.
Defined.

(** The Gateways behind a route's parentRefs are not checked for their class: a
    Gateway of another controller widens the route's scope on this one. *)
Lemma foreign_gateway_widens_scope :
  ro_Hostnames (@narrow_route bare_cluster two_gateways two_views _ KindHTTPRoute
    (edge_route [ref_to "edge"; ref_to "foreign"] [])) = ["a.example.com"; "b.example.com"] /\
  @resolveRouteParentBinding bare_cluster two_gateways two_views "us" (ref_to "foreign") "prod" (web_route []) = Ok no_binding.
Proof. vm_compute. split; reflexivity. Qed.
