(* ===== verification/RouteSync.v ===== *)
(** * Routes of a sync: binding, ownership and cross-type conflicts

    [controller/route_syncer.go] (collection of the routes) and
    [controller/route_crosstype.go].  A route is keyed ["namespace/name"]; the
    maps of a [routeBindingInfo] are finite maps and sets. *)
From Stdlib Require Import Ascii.
From stdpp Require Import sorting.
From stdpp Require Import base sets gmap strings list.
From S2P Require Import Prelude GoStrings RouteBinding ListenerMerge IngressBuild Converter ConfigResolver ListenerView ParentBinding Shadow HostnameOwnership.

(** Why the document of a tunnel could not be synced. *)
Inductive GroupError :=
| errResolveAccount (tunnelID : string) (e : ConfigError)
| errGetConfiguration (e : string)
| errRulesLimit (tunnelID : string) (count : nat)
| errUpdateConfiguration (e : string).
Inductive SyncError := errBrokenDataPlane | errTunnelSync (e : GroupError).

Record routeBindingInfo := mkRouteBindingInfo {
  bi_bindingResults : gmap nat BindingResult;
  bi_acceptedGateways : gset string;
  bi_parentGateways : gmap nat string;
  bi_syncErrByGateway : gmap string SyncError;
}.
Definition empty_binding : routeBindingInfo := mkRouteBindingInfo ∅ ∅ ∅ ∅.
Definition hasAcceptedParent (b : routeBindingInfo) : bool :=
  existsb (fun p => br_Accepted p.2) (map_to_list (bi_bindingResults b)).

(** [httpRouteResult] and [grpcRouteResult] *)
Record routeResult (R : Type) := mkRouteResult {
  res_accepted : list (RouteObject R);
  res_rejected : list (RouteObject R);
  res_bindings : gmap string routeBindingInfo;
}.
Arguments mkRouteResult {R}.
Arguments res_accepted {R}.
Arguments res_rejected {R}.
Arguments res_bindings {R}.
Definition route_key {R} (r : RouteObject R) : string := ro_Namespace r +:+ "/" +:+ ro_Name r.

(** ** Collecting the routes *)

Section collect.
Context {cluster : Cluster} {kube : KubeClient} {views : ListenerViews}.
Context (controllerName : string) (ownership : option Policy).

(** [bindOneParent]: whether the ref is ours, whether it accepted, and the updated info. *)
Definition bindOneParent {R} (kind : string) (route : RouteObject R) (refIdx : nat) (ref : ParentReference)
    (info : routeBindingInfo) : bool * bool * routeBindingInfo :=
  let routeInfo := mkRouteInfo (ro_Name route) (ro_Namespace route) (ro_Hostnames route) kind
                     (pref_SectionName ref) (pref_Port ref) in
  match resolveRouteParentBinding controllerName ref (ro_Namespace route) routeInfo with
  | Err _ => (false, false, info)
  | Ok binding =>
      if negb (pb_ManagedByThisController binding) then (false, false, info)
      else
        let accepted := br_Accepted (pb_Result binding) in
        let named := negb (bool_decide (pb_GatewayKey binding = "")) in
        (true, accepted,
         mkRouteBindingInfo (<[refIdx := pb_Result binding]> (bi_bindingResults info))
           (if accepted && named then {[pb_GatewayKey binding]} ∪ bi_acceptedGateways info else bi_acceptedGateways info)
           (if named then <[refIdx := pb_GatewayKey binding]> (bi_parentGateways info) else bi_parentGateways info)
           (bi_syncErrByGateway info))
  end.
Fixpoint bind_parents {R} (kind : string) (route : RouteObject R) (refIdx : nat) (refs : list ParentReference)
    (st : routeBindingInfo * bool * bool) : routeBindingInfo * bool * bool :=
  match refs with
  | [] => st
  | ref :: refs' =>
      let '(info, hasAccepted, referencesUs) := st in
      let '(referenced, accepted, info) := bindOneParent kind route refIdx ref info in
      bind_parents kind route (S refIdx) refs' (info, hasAccepted || accepted, referencesUs || referenced)
  end.

Definition msgNamespaceUnreadable (ns : string) : string :=
  "hostname-ownership policy could not read namespace " +:+ quoted ns +:+ "; failing closed".
Definition evaluateHostnameOwnership (policy : Policy) (routeNamespace : string) (hostnames : list string) : Verdict :=
  match namespace_labels routeNamespace with
  | None => mkVerdict false (msgNamespaceUnreadable routeNamespace)
  | Some labels => Evaluate policy labels hostnames
  end.
(** The denial, if any, and the info it leaves. *)
Definition rejectIfHostnameNotOwned (policy : Policy) (routeNamespace : string) (hostnames : list string)
    (info : routeBindingInfo) : bool * routeBindingInfo :=
  let verdict := evaluateHostnameOwnership policy routeNamespace hostnames in
  if v_Allowed verdict then (false, info)
  else
    (true,
     mkRouteBindingInfo
       ((fun result => if br_Accepted result
                       then mkBindingResult false RouteReasonHostnameNotPermitted (v_Message verdict) []
                       else result) <$> bi_bindingResults info)
       ∅ (bi_parentGateways info) (bi_syncErrByGateway info)).

Definition bindRouteParents {R} (kind : string) (route : RouteObject R) : routeBindingInfo * bool * bool :=
  let '(info, hasAccepted, referencesUs) :=
    bind_parents kind route 0 (ro_ParentRefs route) (empty_binding, false, false) in
  match ownership with
  | Some policy =>
      if hasAccepted then
        let '(denied, info) := rejectIfHostnameNotOwned policy (ro_Namespace route) (ro_Hostnames route) info in
        (info, if denied then false else hasAccepted, referencesUs)
      else (info, hasAccepted, referencesUs)
  | None => (info, hasAccepted, referencesUs)
  end.

Definition collect_route {R} (kind : string) (result : routeResult R) (route : RouteObject R) : routeResult R :=
  let '(info, accepted, referencesUs) := bindRouteParents kind route in
  let bindings := <[route_key route := info]> (res_bindings result) in
  if accepted then mkRouteResult (res_accepted result ++ [route]) (res_rejected result) bindings
  else if referencesUs then mkRouteResult (res_accepted result) (res_rejected result ++ [route]) bindings
  else mkRouteResult (res_accepted result) (res_rejected result) bindings.
(** [getRelevantHTTPRoutes] and [getRelevantGRPCRoutes] on the listed routes. *)
Definition getRelevantRoutes {R} (kind : string) (routes : list (RouteObject R)) : routeResult R :=
  foldl (collect_route kind) (mkRouteResult [] [] ∅) routes.
Definition getRelevantHTTPRoutes : list (RouteObject HTTPRouteRule) -> routeResult HTTPRouteRule :=
  getRelevantRoutes KindHTTPRoute.
Definition getRelevantGRPCRoutes : list (RouteObject GRPCRouteRule) -> routeResult GRPCRouteRule :=
  getRelevantRoutes KindGRPCRoute.
End collect.

(** ** Cross-type conflicts *)

Definition routeReasonConflicted : string := "Conflicted".
Definition crossTypeConflictMessage : string :=
  "Conflicts with a Route of the other type (HTTPRoute/GRPCRoute) on a shared " +:+
  "Gateway with intersecting hostnames; the oldest Route by creationTimestamp is accepted".

Record crossTypeRoute := mkCrossTypeRoute {
  ct_key : string; ct_created : Z; ct_gateways : gset string; ct_hostnames : list string }.

Definition wildcardCovers (wildcard host : string) : bool :=
  let suffix := str_drop 1 wildcard in
  HasSuffix host suffix && (String.length suffix <? String.length host).
Definition crossHostnameMatches (left right : string) : bool :=
  let leftWild := HasPrefix left "*." in
  let rightWild := HasPrefix right "*." in
  if negb leftWild && negb rightWild then bool_decide (left = right)
  else if leftWild && negb rightWild then wildcardCovers left right
  else if negb leftWild && rightWild then wildcardCovers right left
  else HasSuffix (str_drop 1 left) (str_drop 1 right) || HasSuffix (str_drop 1 right) (str_drop 1 left).
Definition hostnamesIntersect (left right : list string) : bool :=
  if (length left =? 0) || (length right =? 0) then true
  else existsb (fun lh => existsb (crossHostnameMatches lh) right) left.
Definition gatewaysIntersect (left right : gset string) : bool :=
  let '(small, large) := if size right <? size left then (right, left) else (left, right) in
  existsb (fun gw => bool_decide (gw ∈ large)) (elements small).

Definition routeWins (left right : crossTypeRoute) : bool :=
  if negb (bool_decide (ct_created left = ct_created right)) then (ct_created left <? ct_created right)%Z
  else str_ltb (ct_key left) (ct_key right).

(** [httpCrossTypeRoutes] and [grpcCrossTypeRoutes] *)
Definition cross_view {R} (result : routeResult R) (route : RouteObject R) : crossTypeRoute :=
  mkCrossTypeRoute (route_key route) (ro_CreationTimestamp route)
    (bi_acceptedGateways (default empty_binding (res_bindings result !! route_key route))) (ro_Hostnames route).
Definition crossTypeRoutes {R} (result : routeResult R) : list crossTypeRoute :=
  cross_view result <$> res_accepted result.

(** The nested loops: the losers of either type. *)
Definition cross_step (h : crossTypeRoute) (losers : gset string * gset string) (g : crossTypeRoute)
    : gset string * gset string :=
  let '(httpLosers, grpcLosers) := losers in
  if negb (gatewaysIntersect (ct_gateways h) (ct_gateways g)) then (httpLosers, grpcLosers)
  else if negb (hostnamesIntersect (ct_hostnames h) (ct_hostnames g)) then (httpLosers, grpcLosers)
  else if routeWins h g then (httpLosers, {[ct_key g]} ∪ grpcLosers)
  else ({[ct_key h]} ∪ httpLosers, grpcLosers).
Definition cross_losers (httpRoutes grpcRoutes : list crossTypeRoute) : gset string * gset string :=
  foldl (fun losers h => foldl (cross_step h) losers grpcRoutes) (∅, ∅) httpRoutes.

Definition conflicted_result (result : BindingResult) : BindingResult :=
  if br_Accepted result
  then mkBindingResult false routeReasonConflicted crossTypeConflictMessage (br_MatchedListeners result)
  else result.
Definition conflicted_info (info : routeBindingInfo) : routeBindingInfo :=
  mkRouteBindingInfo (conflicted_result <$> bi_bindingResults info) (bi_acceptedGateways info)
    (bi_parentGateways info) (bi_syncErrByGateway info).
Definition markBindingConflicted (key : string) (bindings : gmap string routeBindingInfo) : gmap string routeBindingInfo :=
  alter conflicted_info key bindings.
Definition reject_loser {R} (losers : gset string) (result : routeResult R) (route : RouteObject R) : routeResult R :=
  if bool_decide (route_key route ∈ losers) then
    mkRouteResult (res_accepted result) (res_rejected result ++ [route])
      (markBindingConflicted (route_key route) (res_bindings result))
  else mkRouteResult (res_accepted result ++ [route]) (res_rejected result) (res_bindings result).
Definition rejectCrossTypeLosers {R} (losers : gset string) (result : routeResult R) : routeResult R :=
  if size losers =? 0 then result
  else foldl (reject_loser losers) (mkRouteResult [] (res_rejected result) (res_bindings result)) (res_accepted result).

Definition resolveCrossTypeConflicts (httpResult : routeResult HTTPRouteRule) (grpcResult : routeResult GRPCRouteRule)
    : routeResult HTTPRouteRule * routeResult GRPCRouteRule :=
  let '(httpLosers, grpcLosers) := cross_losers (crossTypeRoutes httpResult) (crossTypeRoutes grpcResult) in
  (rejectCrossTypeLosers httpLosers httpResult, rejectCrossTypeLosers grpcLosers grpcResult).

(** ** Laws of the conflict check *)

Lemma gatewaysIntersect_spec (l r : gset string) : gatewaysIntersect l r = true <-> exists gw, gw ∈ l /\ gw ∈ r.
Proof.
  unfold gatewaysIntersect. destruct (size r <? size l); rewrite existsb_elem_of;
    split; intros (gw & H1 & H2); exists gw; revert H1 H2; rewrite ?elem_of_elements, ?bool_decide_eq_true; tauto.
Qed.

(** The hosts a Route hostname stands for, under this file's reading of wildcards. *)
Definition cross_denotes (pattern host : string) : Prop :=
  if HasPrefix pattern "*." then wildcardCovers pattern host = true else host = pattern.
Lemma wildcardCovers_spec pattern host :
  wildcardCovers pattern host = true <-> exists label, label <> "" /\ host = label +:+ str_drop 1 pattern.
Proof.
  unfold wildcardCovers. rewrite andb_true_iff, HasSuffix_spec, Nat.ltb_lt. split.
  - intros [[t ->] Hl]. exists t. split; [|done]. intros ->. rewrite sapp_nil_l in Hl. lia.
  - intros (t & Ht & ->). split; [by exists t|]. rewrite length_sapp. destruct t; [done|cbn [String.length]; lia].
Qed.
Lemma crossHostnameMatches_spec left right :
  crossHostnameMatches left right = true <-> exists host, cross_denotes left host /\ cross_denotes right host.
Proof.
  unfold crossHostnameMatches, cross_denotes.
  destruct (HasPrefix left "*."), (HasPrefix right "*."); cbn [negb andb].
  - rewrite orb_true_iff, wildcards_overlap. setoid_rewrite wildcardCovers_spec. split.
    + intros (h & l1 & l2 & H1 & H2 & E1 & E2). exists h. split; [by exists l1|by exists l2].
    + intros (h & (l1 & ? & ?) & (l2 & ? & ?)). by exists h, l1, l2.
  - split; [intros; by exists right|]. by intros (h & ? & ->).
  - split; [intros; by exists left|]. by intros (h & -> & ?).
  - rewrite bool_decide_eq_true. split; [intros ->; by exists right|]. intros (h & -> & ?). done.
Qed.
(** No hostname stands for every host. *)
Definition hosts_meet (left right : list string) : Prop :=
  left = [] \/ right = [] \/
  exists lh rh host, lh ∈ left /\ rh ∈ right /\ cross_denotes lh host /\ cross_denotes rh host.
Lemma hostnamesIntersect_spec left right : hostnamesIntersect left right = true <-> hosts_meet left right.
Proof.
  unfold hostnamesIntersect, hosts_meet. destruct left as [|l0 left]; [split; [by left|done]|].
  destruct right as [|r0 right]; [split; [by right; left|done]|]. cbn [length Nat.eqb orb].
  rewrite existsb_elem_of. setoid_rewrite existsb_elem_of. setoid_rewrite crossHostnameMatches_spec. split.
  - intros (lh & ? & rh & ? & h & ? & ?). right. right. by exists lh, rh, h.
  - intros [?|[?|(lh & rh & h & ? & ? & ? & ?)]]; [done..|]. exists lh. split; [done|]. exists rh. split; [done|by exists h].
Qed.

(** Two routes conflict: a Gateway accepts both and a host is claimed by both. *)
Definition conflict (h g : crossTypeRoute) : Prop :=
  (exists gw, gw ∈ ct_gateways h /\ gw ∈ ct_gateways g) /\ hosts_meet (ct_hostnames h) (ct_hostnames g).
Definition http_loses (h g : crossTypeRoute) : Prop := conflict h g /\ routeWins h g = false.
Definition grpc_loses (h g : crossTypeRoute) : Prop := conflict h g /\ routeWins h g = true.

Lemma cross_step_spec h losers g key :
  (key ∈ (cross_step h losers g).1 <-> key ∈ losers.1 \/ (key = ct_key h /\ http_loses h g)) /\
  (key ∈ (cross_step h losers g).2 <-> key ∈ losers.2 \/ (key = ct_key g /\ grpc_loses h g)).
Proof.
  destruct losers as [hl gl]. unfold cross_step, http_loses, grpc_loses, conflict.
  rewrite <-gatewaysIntersect_spec, <-hostnamesIntersect_spec.
  destruct (gatewaysIntersect _ _), (hostnamesIntersect _ _), (routeWins h g); simpl;
    rewrite ?elem_of_union, ?elem_of_singleton; intuition congruence.
Qed.
Lemma cross_row_spec h losers gs key :
  (key ∈ (foldl (cross_step h) losers gs).1 <-> key ∈ losers.1 \/ (key = ct_key h /\ exists g, g ∈ gs /\ http_loses h g)) /\
  (key ∈ (foldl (cross_step h) losers gs).2 <-> key ∈ losers.2 \/ exists g, g ∈ gs /\ key = ct_key g /\ grpc_loses h g).
Proof.
  revert losers. induction gs as [|g gs IH]; intros losers; cbn [foldl].
  { setoid_rewrite elem_of_nil. naive_solver. }
  destruct (IH (cross_step h losers g)) as [-> ->], (cross_step_spec h losers g key) as [-> ->].
  setoid_rewrite elem_of_cons. split; naive_solver.
Qed.
Lemma cross_losers_spec hs gs key :
  (key ∈ (cross_losers hs gs).1 <-> exists h g, h ∈ hs /\ g ∈ gs /\ key = ct_key h /\ http_loses h g) /\
  (key ∈ (cross_losers hs gs).2 <-> exists h g, h ∈ hs /\ g ∈ gs /\ key = ct_key g /\ grpc_loses h g).
Proof.
  unfold cross_losers.
  assert (Hgen : forall losers, let out := foldl (fun losers h => foldl (cross_step h) losers gs) losers hs in
    (key ∈ out.1 <-> key ∈ losers.1 \/ exists h g, h ∈ hs /\ g ∈ gs /\ key = ct_key h /\ http_loses h g) /\
    (key ∈ out.2 <-> key ∈ losers.2 \/ exists h g, h ∈ hs /\ g ∈ gs /\ key = ct_key g /\ grpc_loses h g)).
  { induction hs as [|h hs IH]; intros losers; cbn [foldl]; cbn zeta.
    { setoid_rewrite elem_of_nil. naive_solver. }
    destruct (IH (foldl (cross_step h) losers gs)) as [-> ->], (cross_row_spec h losers gs key) as [-> ->].
    setoid_rewrite elem_of_cons. split; naive_solver. }
  destruct (Hgen (∅, ∅)) as [-> ->]. cbn [fst snd]. split; split; [intros [?%elem_of_empty|?]|..|intros [?%elem_of_empty|?]|]; tauto.
Qed.

(** Rejecting the losers splits the accepted routes and touches only the losers' bindings. *)
Lemma conflicted_result_rejected result : br_Accepted (conflicted_result result) = false.
Proof. unfold conflicted_result. by destruct (br_Accepted result) eqn:E. Qed.
Lemma conflicted_info_idemp info : conflicted_info (conflicted_info info) = conflicted_info info.
Proof.
  unfold conflicted_info. simpl. f_equal. rewrite <-map_fmap_compose. apply map_fmap_ext. intros i r _. simpl.
  unfold conflicted_result at 1. by rewrite conflicted_result_rejected.
Qed.
Lemma reject_losers_fold {R} losers (l : list (RouteObject R)) (acc : routeResult R) :
  let out := foldl (reject_loser losers) acc l in
  res_accepted out = res_accepted acc ++ List.filter (fun r => negb (bool_decide (route_key r ∈ losers))) l /\
  res_rejected out = res_rejected acc ++ List.filter (fun r => bool_decide (route_key r ∈ losers)) l /\
  forall key, res_bindings out !! key =
    if bool_decide (key ∈ losers /\ key ∈ (route_key <$> l)) then conflicted_info <$> res_bindings acc !! key
    else res_bindings acc !! key.
Proof.
  revert acc. induction l as [|r l IH]; intros acc; cbn [foldl]; cbn zeta.
  { simpl. rewrite !app_nil_r. split_and!; try done. intros key. by rewrite bool_decide_eq_false_2 by (by intros [_ ?%elem_of_nil]). }
  destruct (IH (reject_loser losers acc r)) as (-> & -> & Hb). cbn [List.filter].
  split_and!; [| |intros key; rewrite Hb]; clear Hb IH; unfold reject_loser;
    destruct (bool_decide (route_key r ∈ losers)) eqn:E; cbn [negb res_accepted res_rejected res_bindings fmap list_fmap];
    rewrite <-?app_assoc; try done.
  - apply bool_decide_eq_true in E. unfold markBindingConflicted. destruct (decide (key = route_key r)) as [->|Hne].
    + rewrite lookup_alter_eq. rewrite (bool_decide_eq_true_2 (_ /\ route_key r ∈ route_key r :: _)) by set_solver.
      case_bool_decide; [|done]. destruct (res_bindings acc !! route_key r); simpl; [|done]. by rewrite conflicted_info_idemp.
    + rewrite lookup_alter_ne by done. by rewrite (bool_decide_ext _ (key ∈ losers /\ key ∈ route_key r :: (route_key <$> l))) by set_solver.
  - apply bool_decide_eq_false in E.
    by rewrite (bool_decide_ext _ (key ∈ losers /\ key ∈ route_key r :: (route_key <$> l))) by set_solver.
Qed.

Lemma rejectCrossTypeLosers_spec {R} losers (before : routeResult R) :
  let after := rejectCrossTypeLosers losers before in
  res_accepted after = List.filter (fun r => negb (bool_decide (route_key r ∈ losers))) (res_accepted before) /\
  res_rejected after = res_rejected before ++ List.filter (fun r => bool_decide (route_key r ∈ losers)) (res_accepted before) /\
  forall key, res_bindings after !! key =
    if bool_decide (key ∈ losers /\ key ∈ (route_key <$> res_accepted before))
    then conflicted_info <$> res_bindings before !! key else res_bindings before !! key.
Proof.
  unfold rejectCrossTypeLosers. destruct (Nat.eqb_spec (size losers) 0) as [He|_].
  - assert (forall k, k ∉ losers) by (apply size_empty_inv in He; set_solver). cbn zeta.
    rewrite (List_filter_all _ (res_accepted before)), (List_filter_none _ (res_accepted before)), app_nil_r;
      [|intros r _; by rewrite bool_decide_eq_false_2..].
    split_and!; [done..|]. intros key. by rewrite bool_decide_eq_false_2 by (intros [? _]; naive_solver).
  - apply (reject_losers_fold losers (res_accepted before) (mkRouteResult [] (res_rejected before) (res_bindings before))).
Qed.
Lemma conflicted_info_rejected info : hasAcceptedParent (conflicted_info info) = false.
Proof.
  apply existsb_elem_of_false. intros [i r] Hr%elem_of_map_to_list. simpl in *.
  rewrite lookup_fmap in Hr. apply fmap_Some in Hr as (r0 & _ & ->). apply conflicted_result_rejected.
Qed.

(** What the resolution does to the routes of one type, given those that lose. *)
Definition resolved_exactly {R} (loses : RouteObject R -> Prop) (before after : routeResult R) : Prop :=
  (forall r, r ∈ res_accepted after <-> r ∈ res_accepted before /\ ~ loses r) /\
  (forall r, r ∈ res_rejected after <-> r ∈ res_rejected before \/ (r ∈ res_accepted before /\ loses r)) /\
  (forall r info, r ∈ res_accepted before -> loses r -> res_bindings after !! route_key r = Some info ->
     hasAcceptedParent info = false) /\
  (forall key, (forall r, r ∈ res_accepted before -> loses r -> route_key r <> key) ->
     res_bindings after !! key = res_bindings before !! key).
Lemma resolved_exactly_of {R} losers (loses : RouteObject R -> Prop) (before : routeResult R) :
  (forall r, r ∈ res_accepted before -> route_key r ∈ losers <-> loses r) ->
  resolved_exactly loses before (rejectCrossTypeLosers losers before).
Proof.
  intros Hl. destruct (rejectCrossTypeLosers_spec losers before) as (Ha & Hr & Hb). unfold resolved_exactly. split_and!.
  - intros r. rewrite Ha, elem_of_list_filter, negb_true_iff, bool_decide_eq_false. split; intros [? H]; (split; [done|]); by rewrite Hl in *.
  - intros r. rewrite Hr, elem_of_app, elem_of_list_filter, bool_decide_eq_true. naive_solver.
  - intros r info Hin Hlose. rewrite Hb, bool_decide_eq_true_2.
    + intros (i & _ & ->)%fmap_Some. apply conflicted_info_rejected.
    + split; [by apply Hl|]. apply list_elem_of_fmap. eauto.
  - intros key Hk. rewrite Hb, bool_decide_eq_false_2; [done|].
    intros [H1 (r & -> & H2)%list_elem_of_fmap]. apply (Hk r H2); [by apply Hl|done].
Qed.

Definition http_beaten (http : routeResult HTTPRouteRule) (grpc : routeResult GRPCRouteRule)
    (r : RouteObject HTTPRouteRule) : Prop :=
  exists g, g ∈ res_accepted grpc /\ http_loses (cross_view http r) (cross_view grpc g).
Definition grpc_beaten (http : routeResult HTTPRouteRule) (grpc : routeResult GRPCRouteRule)
    (r : RouteObject GRPCRouteRule) : Prop :=
  exists h, h ∈ res_accepted http /\ grpc_loses (cross_view http h) (cross_view grpc r).
Definition distinct_keys {R} (result : routeResult R) : Prop := NoDup (route_key <$> res_accepted result).
Lemma distinct_keys_inj {R} (result : routeResult R) r1 r2 :
  distinct_keys result -> r1 ∈ res_accepted result -> r2 ∈ res_accepted result -> route_key r1 = route_key r2 -> r1 = r2.
Proof.
  intros Hd [i Hi]%list_elem_of_lookup [j Hj]%list_elem_of_lookup He.
  assert (i = j) as ->; [|congruence]. eapply NoDup_lookup; [apply Hd|..]; rewrite list_lookup_fmap.
  - by rewrite Hi.
  - rewrite Hj. simpl. by rewrite He.
Qed.

(** C27: Two accepted Routes of different types conflict when one Gateway accepts
    both and some host is claimed by both.  The resolution rejects exactly the
    Routes that lose such a conflict (the oldest wins, ties by key): a loser
    moves to the rejected Routes and keeps no accepted parent, every other Route
    and its bindings are untouched, and no conflicting pair stays accepted. *)
Theorem cross_type_resolution (http http' : routeResult HTTPRouteRule) (grpc grpc' : routeResult GRPCRouteRule) :
  distinct_keys http -> distinct_keys grpc -> resolveCrossTypeConflicts http grpc = (http', grpc') ->
  resolved_exactly (http_beaten http grpc) http http' /\
  resolved_exactly (grpc_beaten http grpc) grpc grpc' /\
  forall h g, h ∈ res_accepted http' -> g ∈ res_accepted grpc' -> ~ conflict (cross_view http h) (cross_view grpc g).
Proof.
  intros Dh Dg. unfold resolveCrossTypeConflicts.
  pose proof (cross_losers_spec (crossTypeRoutes http) (crossTypeRoutes grpc)) as Hspec.
  destruct (cross_losers _ _) as [hl gl]. cbn [fst snd] in Hspec. intros [= <- <-].
  assert (Hh : resolved_exactly (http_beaten http grpc) http (rejectCrossTypeLosers hl http)).
  { apply resolved_exactly_of. intros r Hr. rewrite (proj1 (Hspec _)). unfold crossTypeRoutes, http_beaten. split.
    - intros (? & ? & (r' & -> & Hr')%list_elem_of_fmap & (g & -> & Hg)%list_elem_of_fmap & Hk & Hlose).
      rewrite (distinct_keys_inj http r r' Dh Hr Hr' Hk). by exists g.
    - intros (g & Hg & Hlose). exists (cross_view http r), (cross_view grpc g). split_and!; try done; by apply list_elem_of_fmap_2. }
  assert (Hg : resolved_exactly (grpc_beaten http grpc) grpc (rejectCrossTypeLosers gl grpc)).
  { apply resolved_exactly_of. intros r Hr. rewrite (proj2 (Hspec _)). unfold crossTypeRoutes, grpc_beaten. split.
    - intros (? & ? & (h & -> & Hin)%list_elem_of_fmap & (r' & -> & Hr')%list_elem_of_fmap & Hk & Hlose).
      rewrite (distinct_keys_inj grpc r r' Dg Hr Hr' Hk). by exists h.
    - intros (h & Hin & Hlose). exists (cross_view http h), (cross_view grpc r). split_and!; try done; by apply list_elem_of_fmap_2. }
  split_and!; [done..|]. intros h g [Hh1 Hh2]%Hh [Hg1 Hg2]%Hg Hc.
  destruct (routeWins (cross_view http h) (cross_view grpc g)) eqn:Hw; [apply Hg2; by exists h|apply Hh2; by exists g].
Qed.

(** ** What collection decides *)

Section collection.
Context {cluster : Cluster} {kube : KubeClient} {views : ListenerViews}.
Context (controllerName : string) (ownership : option Policy).

(** The parent of a route this controller manages, bound. *)
Definition managed_parent {R} (kind : string) (route : RouteObject R) (ref : ParentReference) : option parentRefBinding :=
  match resolveRouteParentBinding controllerName ref (ro_Namespace route)
          (mkRouteInfo (ro_Name route) (ro_Namespace route) (ro_Hostnames route) kind (pref_SectionName ref) (pref_Port ref)) with
  | Ok b => if pb_ManagedByThisController b then Some b else None
  | Err _ => None
  end.
(** The route is accepted on a parent, recorded under a Gateway key. *)
Definition accepted_on {R} (kind : string) (route : RouteObject R) (gw : string) : Prop :=
  exists ref b, ref ∈ ro_ParentRefs route /\ managed_parent kind route ref = Some b /\
    br_Accepted (pb_Result b) = true /\ pb_GatewayKey b = gw.
Definition permitted {R} (route : RouteObject R) : Prop :=
  match ownership with
  | None => True
  | Some policy => v_Allowed (evaluateHostnameOwnership policy (ro_Namespace route) (ro_Hostnames route)) = true
  end.

Lemma bindOneParent_eq {R} kind (route : RouteObject R) idx ref info :
  bindOneParent controllerName kind route idx ref info =
  match managed_parent kind route ref with
  | None => (false, false, info)
  | Some b =>
      let named := negb (bool_decide (pb_GatewayKey b = "")) in
      (true, br_Accepted (pb_Result b),
       mkRouteBindingInfo (<[idx := pb_Result b]> (bi_bindingResults info))
         (if br_Accepted (pb_Result b) && named then {[pb_GatewayKey b]} ∪ bi_acceptedGateways info else bi_acceptedGateways info)
         (if named then <[idx := pb_GatewayKey b]> (bi_parentGateways info) else bi_parentGateways info)
         (bi_syncErrByGateway info))
  end.
Proof.
  unfold bindOneParent, managed_parent. destruct (resolveRouteParentBinding _ _ _ _) as [b|]; [|done].
  by destruct (pb_ManagedByThisController b).
Qed.

(** The loop's accumulated facts, from any starting state. *)
Lemma bind_parents_spec {R} kind (route : RouteObject R) refs idx info acc us :
  let '(info', acc', us') := bind_parents controllerName kind route idx refs (info, acc, us) in
  (acc' = true <-> acc = true \/ exists ref b, ref ∈ refs /\ managed_parent kind route ref = Some b /\ br_Accepted (pb_Result b) = true) /\
  (us' = true <-> us = true \/ exists ref, ref ∈ refs /\ is_Some (managed_parent kind route ref)) /\
  (forall gw, gw ∈ bi_acceptedGateways info' <-> gw ∈ bi_acceptedGateways info \/
     (gw <> "" /\ exists ref b, ref ∈ refs /\ managed_parent kind route ref = Some b /\
        br_Accepted (pb_Result b) = true /\ pb_GatewayKey b = gw)) /\
  (forall j r, bi_bindingResults info' !! j = Some r ->
     bi_bindingResults info !! j = Some r \/
     exists ref b, ref ∈ refs /\ managed_parent kind route ref = Some b /\ pb_Result b = r).
Proof.
  revert idx info acc us. induction refs as [|ref refs IH]; intros idx info acc us; cbn [bind_parents].
  { setoid_rewrite elem_of_nil. naive_solver. }
  rewrite bindOneParent_eq. destruct (managed_parent kind route ref) as [b|] eqn:Hb; cbn beta iota zeta.
  - match goal with |- context [bind_parents _ _ _ _ _ (?i, ?a, ?u)] => specialize (IH (S idx) i a u) end.
    destruct (bind_parents _ _ _ _ _ _) as [[info' acc'] us']. destruct IH as (-> & -> & Hg & Hr).
    cbn [bi_acceptedGateways bi_bindingResults] in *.
    setoid_rewrite elem_of_cons. split_and!.
    + rewrite orb_true_iff. naive_solver.
    + rewrite orb_true_iff. naive_solver.
    + intros gw. rewrite Hg. clear Hg Hr.
      assert (gw ∈ (if br_Accepted (pb_Result b) && negb (bool_decide (pb_GatewayKey b = ""))
                    then {[pb_GatewayKey b]} ∪ bi_acceptedGateways info else bi_acceptedGateways info) <->
              gw ∈ bi_acceptedGateways info \/ (gw <> "" /\ br_Accepted (pb_Result b) = true /\ pb_GatewayKey b = gw)) as ->.
      { case_bool_decide; destruct (br_Accepted (pb_Result b)); cbn [andb negb];
          rewrite ?elem_of_union, ?elem_of_singleton; intuition congruence. }
      generalize (gw ∈ bi_acceptedGateways info). intros P. clear - Hb. naive_solver.
    + intros j r [Hj|?]%Hr; [|naive_solver]. clear Hg Hr. apply lookup_insert_Some in Hj. naive_solver.
  - specialize (IH (S idx) info (acc || false) (us || false)). destruct (bind_parents _ _ _ _ _ _) as [[info' acc'] us'].
    rewrite !orb_false_r in IH. destruct IH as (-> & -> & Hg & Hr). setoid_rewrite elem_of_cons. split_and!.
    + naive_solver.
    + unfold is_Some. naive_solver.
    + intros gw. rewrite Hg. naive_solver.
    + intros j r [Hj|?]%Hr; naive_solver.
Qed.

(** One route's binding: its verdict, the Gateways it is served on, and no accepted parent when denied. *)
Lemma bindRouteParents_spec {R} kind (route : RouteObject R) :
  let '(info, accepted, us) := bindRouteParents controllerName ownership kind route in
  (accepted = true <-> (exists gw, accepted_on kind route gw) /\ permitted route) /\
  (us = true <-> exists ref, ref ∈ ro_ParentRefs route /\ is_Some (managed_parent kind route ref)) /\
  (forall gw, gw ∈ bi_acceptedGateways info <-> gw <> "" /\ accepted_on kind route gw /\ permitted route) /\
  (accepted = false -> hasAcceptedParent info = false).
Proof.
  unfold bindRouteParents. pose proof (bind_parents_spec kind route (ro_ParentRefs route) 0 empty_binding false false) as H.
  destruct (bind_parents _ _ _ _ _ _) as [[info acc] us]. destruct H as (Ha & Hu & Hg & Hr).
  assert (Ha' : acc = true <-> exists gw, accepted_on kind route gw) by (rewrite Ha; unfold accepted_on; naive_solver).
  assert (Hg' : forall gw, gw ∈ bi_acceptedGateways info <-> gw <> "" /\ accepted_on kind route gw).
  { intros gw. rewrite Hg. unfold accepted_on. split; [intros [?%elem_of_empty|?]; [done|tauto]|tauto]. }
  assert (Hu' : us = true <-> exists ref, ref ∈ ro_ParentRefs route /\ is_Some (managed_parent kind route ref)) by naive_solver.
  assert (Hn : acc = false -> hasAcceptedParent info = false).
  { intros Hacc. apply existsb_elem_of_false. intros [i r] Hi%elem_of_map_to_list. simpl.
    apply Hr in Hi as [Hi|(ref & b & ? & ? & ?)]; [cbn in Hi; by rewrite lookup_empty in Hi|].
    destruct (br_Accepted r) eqn:E; [|done]. assert (acc = true) by (apply Ha'; exists (pb_GatewayKey b), ref, b; naive_solver). congruence. }
  clear Ha Hu Hg Hr. unfold permitted. destruct ownership as [policy|].
  2:{ split_and!; [naive_solver..|intros gw; rewrite Hg'; naive_solver|done]. }
  destruct acc.
  2:{ split_and!; [naive_solver|done| |done]. intros gw. rewrite Hg'. assert (~ exists gw, accepted_on kind route gw) by naive_solver. naive_solver. }
  unfold rejectIfHostnameNotOwned. destruct (v_Allowed _) eqn:Hv.
  - split_and!; [naive_solver|done| |done]. intros gw. rewrite Hg'. naive_solver.
  - split_and!; [naive_solver|done| |].
    + intros gw. cbn [bi_acceptedGateways]. split; [by intros ?%elem_of_empty|naive_solver].
    + intros _. apply existsb_elem_of_false. intros [i r] Hi%elem_of_map_to_list. cbn [bi_bindingResults] in Hi.
      rewrite lookup_fmap in Hi. apply fmap_Some in Hi as (r0 & _ & ->). simpl. by destruct (br_Accepted r0) eqn:E.
Qed.

Lemma collect_fold {R} kind (routes : list (RouteObject R)) (start : routeResult R) :
  NoDup (route_key <$> routes) ->
  let out := foldl (collect_route controllerName ownership kind) start routes in
  (forall r, r ∈ res_accepted out <-> r ∈ res_accepted start \/
     (r ∈ routes /\ (bindRouteParents controllerName ownership kind r).1.2 = true)) /\
  (forall r, r ∈ res_rejected out <-> r ∈ res_rejected start \/
     (r ∈ routes /\ (bindRouteParents controllerName ownership kind r).1.2 = false /\
      (bindRouteParents controllerName ownership kind r).2 = true)) /\
  (forall r, r ∈ routes -> res_bindings out !! route_key r = Some (bindRouteParents controllerName ownership kind r).1.1) /\
  (forall key, key ∉ (route_key <$> routes) -> res_bindings out !! key = res_bindings start !! key).
Proof.
  revert start. induction routes as [|r routes IH]; intros start Hnd; cbn [foldl]; cbn zeta.
  { setoid_rewrite elem_of_nil. naive_solver. }
  apply NoDup_cons in Hnd as [Hni Hnd]. destruct (IH (collect_route controllerName ownership kind start r) Hnd) as (Ha & Hr & Hb & Ho).
  assert (Hstep : collect_route controllerName ownership kind start r =
    let '(info, accepted, us) := bindRouteParents controllerName ownership kind r in
    mkRouteResult (res_accepted start ++ if accepted then [r] else []) (res_rejected start ++ if negb accepted && us then [r] else [])
      (<[route_key r := info]> (res_bindings start))).
  { unfold collect_route. destruct (bindRouteParents _ _ _ _) as [[info []] []]; cbn; by rewrite ?app_nil_r. }
  rewrite Hstep in Ha, Hr, Hb, Ho |- *. destruct (bindRouteParents controllerName ownership kind r) as [[info accepted] us] eqn:E.
  cbn [res_accepted res_rejected res_bindings] in *. split_and!.
  - intros r'. rewrite Ha, elem_of_app, elem_of_cons. clear Ha Hr Hb Ho IH.
    assert (r' ∈ (if accepted then [r] else []) <->
            r' = r /\ (bindRouteParents controllerName ownership kind r').1.2 = true) as ->; [|tauto].
    destruct accepted; rewrite ?list_elem_of_singleton, ?elem_of_nil; (split; [|intros [-> Hx]]); rewrite ?E in *; try done.
    intros ->. by rewrite E.
  - intros r'. rewrite Hr, elem_of_app, elem_of_cons. clear Ha Hr Hb Ho IH.
    assert (r' ∈ (if negb accepted && us then [r] else []) <->
            r' = r /\ (bindRouteParents controllerName ownership kind r').1.2 = false /\
            (bindRouteParents controllerName ownership kind r').2 = true) as ->; [|tauto].
    destruct accepted, us; cbn [negb andb]; rewrite ?list_elem_of_singleton, ?elem_of_nil;
      (split; [|intros (-> & Hx & Hy)]); rewrite ?E in *; try done.
    intros ->. by rewrite E.
  - intros r' [->|Hin]%elem_of_cons; [|by apply Hb]. rewrite Ho by done. by rewrite lookup_insert_eq, E.
  - intros key Hk. cbn [fmap list_fmap] in Hk. rewrite not_elem_of_cons in Hk. rewrite Ho by tauto. rewrite lookup_insert_ne by naive_solver. done.
Qed.
End collection.

(** Collection decides every listed Route: it is accepted exactly when a
    managed parent accepts it and the hostname-ownership policy (when there is
    one) allows its hostnames for the labels of its namespace, rejected when it
    only references a managed parent, and ignored otherwise.  The Gateways
    recorded as serving it are exactly those that accept it while the policy
    permits it, so a denied Route, or one whose namespace cannot be read, is
    served by no Gateway and keeps no accepted parent. *)
Theorem collection_exact {cluster : Cluster} {kube : KubeClient} {views : ListenerViews} {R} (controllerName : string)
    (ownership : option Policy) (kind : string) (routes : list (RouteObject R)) (route : RouteObject R) :
  NoDup (route_key <$> routes) -> route ∈ routes ->
  let result := getRelevantRoutes controllerName ownership kind routes in
  let accepts := (exists gw, accepted_on controllerName kind route gw) /\ permitted ownership route in
  (route ∈ res_accepted result <-> accepts) /\
  (route ∈ res_rejected result <-> ~ accepts /\
     exists ref, ref ∈ ro_ParentRefs route /\ is_Some (managed_parent controllerName kind route ref)) /\
  exists info, res_bindings result !! route_key route = Some info /\
    (forall gw, gw ∈ bi_acceptedGateways info <->
       gw <> "" /\ accepted_on controllerName kind route gw /\ permitted ownership route) /\
    (~ permitted ownership route -> hasAcceptedParent info = false /\ bi_acceptedGateways info = ∅).
Proof.
  intros Hnd Hin. destruct (collect_fold controllerName ownership kind routes (mkRouteResult [] [] ∅) Hnd) as (Ha & Hr & Hb & _).
  fold (getRelevantRoutes controllerName ownership kind routes) in Ha, Hr, Hb. cbn [res_accepted res_rejected] in *.
  pose proof (bindRouteParents_spec controllerName ownership kind route) as Hs. cbn zeta.
  rewrite Ha, Hr, (Hb _ Hin). clear Ha Hr Hb.
  destruct (bindRouteParents controllerName ownership kind route) as [[info accepted] us]. cbn [fst snd].
  destruct Hs as (Hs & Hu & Hg & Hn). rewrite !elem_of_nil, <-Hs, <-Hu, not_true_iff_false. split_and!; [tauto..|].
  exists info. split_and!; [done..|]. intros Hp. split; [apply Hn; apply not_true_is_false; naive_solver|].
  apply set_eq. intros gw. rewrite Hg. split; [naive_solver|by intros ?%elem_of_empty].
Qed.

Definition edge_route (name : string) (created : Z) (hostnames : list string) {R} : RouteObject R :=
  mkRouteObject "prod" name created hostnames [ref_to "edge"] [].
Definition unowned : Policy := mkPolicy "owner" None.

Lemma collection_exact_witness :
  let routes := [edge_route "web" 1 ["a.example.com"] : RouteObject HTTPRouteRule] in
  let route := edge_route "web" 1 ["a.example.com"] in
  let open := @getRelevantRoutes bare_cluster two_gateways two_views "us" None _ KindHTTPRoute routes in
  let policed := @getRelevantRoutes bare_cluster two_gateways two_views "us" (Some unowned) _ KindHTTPRoute routes in
  route ∈ res_accepted open /\ route ∉ res_accepted policed.
Proof.
  intros routes route open policed.
  assert (Hnd : NoDup (route_key <$> routes)) by (apply (bool_decide_unpack _); vm_compute; exact I).
  assert (Hin : route ∈ routes) by (left; reflexivity).
  assert (Hon : @accepted_on bare_cluster two_gateways two_views "us" _ KindHTTPRoute route "prod/edge").
  { exists (ref_to "edge"), edge_binding. split_and!; [left|vm_compute; reflexivity..]. }
  split.
  - apply (@collection_exact bare_cluster two_gateways two_views _ "us" None KindHTTPRoute routes route Hnd Hin).
    split; [by exists "prod/edge"|exact I].
  - intros Hacc.
    apply (@collection_exact bare_cluster two_gateways two_views _ "us" (Some unowned) KindHTTPRoute routes route Hnd Hin) in Hacc.
    destruct Hacc as [_ Hp]. vm_compute in Hp. discriminate Hp.
Defined.

Definition one_route {R} (route : RouteObject R) : routeResult R :=
  mkRouteResult [route] []
    {[route_key route := mkRouteBindingInfo {[0 := mkBindingResult true RouteReasonAccepted "Route accepted" ["web"]]}
                           {["prod/edge"]} {[0 := "prod/edge"]} ∅]}.
Lemma cross_type_resolution_witness :
  let http := one_route (edge_route "web" 2 ["*.example.com"]) in
  let grpc := one_route (edge_route "api" 1 ["a.example.com"]) in
  exists http' grpc', resolveCrossTypeConflicts http grpc = (http', grpc') /\
    resolved_exactly (http_beaten http grpc) http http' /\ res_accepted http' = [] /\ length (res_accepted grpc') = 1.
Proof.
  intros http grpc. exists (resolveCrossTypeConflicts http grpc).1, (resolveCrossTypeConflicts http grpc).2.
  split; [by destruct (resolveCrossTypeConflicts http grpc)|].
  split; [|vm_compute; by split].
  refine (proj1 (cross_type_resolution http _ grpc _ _ _ (surjective_pairing _)));
    apply (bool_decide_unpack _); vm_compute; exact I.
Defined.
