(* ===== verification/RoutePartition.v ===== *)
(** * Data-plane partitions and tunnel groups

    [controller/route_partition.go] and the grouping half of
    [controller/route_syncer.go].  The accepted routes of a sync are split into
    the shared plane and one partition per Gateway with a dedicated plane; the
    partitions on one Cloudflare tunnel form a group with one ingress document.
    A [map] of the source is a finite map, walked where the source sorts the
    result. *)
From Stdlib Require Import Ascii.
From stdpp Require Import sorting.
From stdpp Require Import base sets gmap strings list.
From S2P Require Import Prelude GoStrings ProxyConfig RouteBinding ListenerMerge IngressBuild RouterState Converter RenderNames ConfigResolver ListenerView ParentBinding RouteSync.

Definition sharedPartitionKey : string := "shared".
Definition sort_keys (keys : list string) : list string := stable_sort str_ltb keys.

Record routePartition := mkRoutePartition {
  rp_Key : string;
  rp_Gateway : option GatewayObject;
  rp_PerGateway : option PerGatewayConfig;
  rp_HTTPRoutes : list (RouteObject HTTPRouteRule);
  rp_GRPCRoutes : list (RouteObject GRPCRouteRule);
}.
Record infraGateway := mkInfraGateway { ig_gateway : GatewayObject; ig_perGateway : PerGatewayConfig }.
Record infraGateways := mkInfraGateways {
  inf_resolved : gmap string infraGateway;
  inf_broken : gset string;
  inf_transient : gset string;
}.

(** ** The per-sync view of opted-in Gateways ([None] is the nil view) *)

Definition isBroken (g : option infraGateways) (key : string) : bool :=
  match g with Some g => bool_decide (key ∈ inf_broken g) | None => false end.
Definition transientKeys (g : option infraGateways) : list string :=
  match g with Some g => sort_keys (elements (inf_transient g)) | None => [] end.
Definition isResolved (g : option infraGateways) (key : string) : bool :=
  match g with Some g => bool_decide (is_Some (inf_resolved g !! key)) | None => false end.

Section resolve_infra.
Context {kube : KubeClient} {reader : ConfigReader} {decoder : TokenDecoder} {hash : Sha256}.
Context (controllerName defaultNamespace : string).

Definition infra_step (classNames : gset string) (out : infraGateways) (gateway : GatewayObject) : infraGateways :=
  if negb (bool_decide (go_ClassName gateway ∈ classNames)) || negb (HasInfrastructureParametersRef gateway) then out
  else
    let key := gateway_key gateway in
    match ResolveForGateway defaultNamespace gateway with
    | Ok (Some perGateway) =>
        mkInfraGateways (<[key := mkInfraGateway gateway perGateway]> (inf_resolved out)) (inf_broken out) (inf_transient out)
    | Ok None => mkInfraGateways (inf_resolved out) ({[key]} ∪ inf_broken out) (inf_transient out)
    | Err resolveErr =>
        mkInfraGateways (inf_resolved out) ({[key]} ∪ inf_broken out)
          (match resolveErr with ErrInvalidParameters => inf_transient out | _ => {[key]} ∪ inf_transient out end)
    end.
Inductive InfraError := errListManagedClasses | errListGateways.
Definition resolveInfraGateways : res InfraError infraGateways :=
  match managedClassNames controllerName with
  | None => Err errListManagedClasses
  | Some classNames =>
      match kube_Gateways with
      | None => Err errListGateways
      | Some gateways => Ok (foldl (infra_step classNames) (mkInfraGateways ∅ ∅ ∅) gateways)
      end
  end.
End resolve_infra.

(** ** Partitions *)

(** The loop of [partitionKeysFor], on the accepted Gateways in some order. *)
Fixpoint partition_keys_loop (infra : option infraGateways) (gateways : list string) (sharedSeen : bool) : list string :=
  match gateways with
  | [] => []
  | gatewayKey :: rest =>
      if isResolved infra gatewayKey then gatewayKey :: partition_keys_loop infra rest sharedSeen
      else if isBroken infra gatewayKey then partition_keys_loop infra rest sharedSeen
      else if negb sharedSeen then sharedPartitionKey :: partition_keys_loop infra rest true
      else partition_keys_loop infra rest sharedSeen
  end.
Definition partitionKeysFor (binding : routeBindingInfo) (infra : option infraGateways) : list string :=
  sort_keys (partition_keys_loop infra (elements (bi_acceptedGateways binding)) false).

Definition binding_of {R} (result : routeResult R) (route : RouteObject R) : routeBindingInfo :=
  default empty_binding (res_bindings result !! route_key route).
Definition add_http (route : RouteObject HTTPRouteRule) (p : routePartition) : routePartition :=
  mkRoutePartition (rp_Key p) (rp_Gateway p) (rp_PerGateway p) (rp_HTTPRoutes p ++ [route]) (rp_GRPCRoutes p).
Definition add_grpc (route : RouteObject GRPCRouteRule) (p : routePartition) : routePartition :=
  mkRoutePartition (rp_Key p) (rp_Gateway p) (rp_PerGateway p) (rp_HTTPRoutes p) (rp_GRPCRoutes p ++ [route]).
(** One of the two loops over the accepted routes. *)
Definition place_routes {R} (add : RouteObject R -> routePartition -> routePartition) (infra : option infraGateways)
    (result : routeResult R) (byKey : gmap string routePartition) : gmap string routePartition :=
  foldl (fun byKey route =>
    foldl (fun byKey key => alter (add route) key byKey) byKey (partitionKeysFor (binding_of result route) infra))
    byKey (res_accepted result).
Definition empty_partitions (infra : option infraGateways) : gmap string routePartition :=
  map_imap (fun key entry => Some (mkRoutePartition key (Some (ig_gateway entry)) (Some (ig_perGateway entry)) [] []))
    (match infra with Some infra => inf_resolved infra | None => ∅ end)
  ∪ {[sharedPartitionKey := mkRoutePartition sharedPartitionKey None None [] []]}.
Definition partitionRoutes (httpResult : routeResult HTTPRouteRule) (grpcResult : routeResult GRPCRouteRule)
    (infra : option infraGateways) : list routePartition :=
  let byKey := place_routes add_grpc infra grpcResult (place_routes add_http infra httpResult (empty_partitions infra)) in
  let keys := sort_keys (List.filter (fun key => negb (bool_decide (key = sharedPartitionKey))) (map_to_list byKey).*1) in
  omap (fun key => byKey !! key) (sharedPartitionKey :: keys).

Definition partitionDisplay (partitions : list routePartition) : string := Join (rp_Key <$> partitions) ",".

(** ** Unions of the partitions on one tunnel *)

(** Routes already seen, by key, and the routes collected so far. *)
Definition seen_routes (R : Type) : Type := gset string * list (RouteObject R).
Definition add_unseen {R} (acc : seen_routes R) (route : RouteObject R) : seen_routes R :=
  if bool_decide (route_key route ∈ acc.1) then acc else ({[route_key route]} ∪ acc.1, acc.2 ++ [route]).
Definition routeUnion : Type := seen_routes HTTPRouteRule * seen_routes GRPCRouteRule.
Definition union_step (u : routeUnion) (p : routePartition) : routeUnion :=
  (foldl add_unseen u.1 (rp_HTTPRoutes p), foldl add_unseen u.2 (rp_GRPCRoutes p)).
Definition empty_union : routeUnion := ((∅, []), (∅, [])).

Definition tunnelOf (sharedTunnelID : string) (p : routePartition) : string :=
  match rp_PerGateway p with Some perGateway => rc_TunnelID (pg_Resolved perGateway) | None => sharedTunnelID end.
Definition union_partition (sharedTunnelID : string) (unions : gmap string routeUnion) (p : routePartition)
    : gmap string routeUnion :=
  let tunnelID := tunnelOf sharedTunnelID p in
  <[tunnelID := union_step (default empty_union (unions !! tunnelID)) p]> unions.
Definition unionPartitionRoutes (partitions : list routePartition) (sharedTunnelID : string) : list routePartition :=
  let unions := foldl (union_partition sharedTunnelID) ∅ partitions in
  (fun p =>
     let union := default empty_union (unions !! tunnelOf sharedTunnelID p) in
     mkRoutePartition (rp_Key p) (rp_Gateway p) (rp_PerGateway p) union.1.2 union.2.2) <$> partitions.

(** ** Tunnel groups *)

Record tunnelGroup := mkTunnelGroup { tg_resolved : ResolvedConfig; tg_partitions : list routePartition }.

(** [uuid.Parse] followed by [String]: the canonical form, if the text is a UUID. *)
Class UuidParser := uuid_canonical : string -> option string.
Definition canonicalTunnelID {uuids : UuidParser} (id : string) : string := default id (uuid_canonical id).

Definition resolved_of (shared : ResolvedConfig) (p : routePartition) : ResolvedConfig :=
  match rp_PerGateway p with Some perGateway => pg_Resolved perGateway | None => shared end.
Definition group_step (shared : ResolvedConfig) (st : gmap string tunnelGroup * list string) (p : routePartition)
    : gmap string tunnelGroup * list string :=
  let '(byTunnel, order) := st in
  let resolved := resolved_of shared p in
  let tunnelID := rc_TunnelID resolved in
  match byTunnel !! tunnelID with
  | Some group => (<[tunnelID := mkTunnelGroup (tg_resolved group) (tg_partitions group ++ [p])]> byTunnel, order)
  | None => (<[tunnelID := mkTunnelGroup resolved [p]]> byTunnel, order ++ [tunnelID])
  end.
Definition buildTunnelGroups (shared : ResolvedConfig) (partitions : list routePartition) : list tunnelGroup :=
  let '(byTunnel, order) := foldl (group_step shared) (∅, []) partitions in
  let order := match order with first :: rest => first :: sort_keys rest | [] => [] end in
  omap (fun tunnelID => byTunnel !! tunnelID) order.

Definition groupRoutes (group : tunnelGroup) : list (RouteObject HTTPRouteRule) * list (RouteObject GRPCRouteRule) :=
  let union := foldl union_step empty_union (tg_partitions group) in (union.1.2, union.2.2).

(** ** Shared tunnels *)

Record tunnelCollision := mkTunnelCollision { tc_tunnelID : string; tc_gateways : list string }.
Definition is_infra (p : routePartition) : bool := match rp_PerGateway p with Some _ => true | None => false end.
Definition sharedInfraTunnelCollisions (groups : list tunnelGroup) : list tunnelCollision :=
  omap (fun group =>
    let infraKeys := rp_Key <$> List.filter is_infra (tg_partitions group) in
    if 2 <=? length infraKeys then Some (mkTunnelCollision (rc_TunnelID (tg_resolved group)) (sort_keys infraKeys)) else None)
    groups.
Record credentialOverrideDrop := mkCredentialOverrideDrop { co_tunnelID : string; co_gateway : string }.
Definition sharedTunnelCredentialDrops (groups : list tunnelGroup) : list credentialOverrideDrop :=
  groups ≫= fun group =>
    if negb (existsb (fun p => negb (is_infra p)) (tg_partitions group)) then []
    else
      omap (fun p =>
        match rp_PerGateway p with
        | None => None
        | Some perGateway =>
            let resolved := pg_Resolved perGateway in
            if negb (bool_decide (rc_APIToken resolved = rc_APIToken (tg_resolved group))) ||
               negb (bool_decide (rc_AccountID resolved = rc_AccountID (tg_resolved group)))
            then Some (mkCredentialOverrideDrop (rc_TunnelID (tg_resolved group)) (rp_Key p)) else None
        end) (tg_partitions group).

(** ** Membership of a partition *)

(** The plane a Gateway's routes belong to; a broken Gateway has none. *)
Definition plane_of (infra : option infraGateways) (gw : string) : option string :=
  if isResolved infra gw then Some gw else if isBroken infra gw then None else Some sharedPartitionKey.
(** The plane [key] serves a route bound as [info]: it is the plane of a Gateway that accepts the route. *)
Definition serves (infra : option infraGateways) (key : string) (info : routeBindingInfo) : bool :=
  existsb (fun gw => bool_decide (plane_of infra gw = Some key)) (elements (bi_acceptedGateways info)).
(** No Gateway is called like the shared plane. *)
Definition keys_disjoint (infra : option infraGateways) : Prop := isResolved infra sharedPartitionKey = false.

Lemma exists_elem_of_cons {A} (P : A -> Prop) x l : (exists y, y ∈ x :: l /\ P y) <-> P x \/ exists y, y ∈ l /\ P y.
Proof. setoid_rewrite elem_of_cons. naive_solver. Qed.
Lemma partition_keys_loop_spec infra gws seen : keys_disjoint infra -> NoDup gws ->
  NoDup (partition_keys_loop infra gws seen) /\
  forall key, key ∈ partition_keys_loop infra gws seen <->
    (key ∈ gws /\ isResolved infra key = true) \/
    (key = sharedPartitionKey /\ seen = false /\ exists gw, gw ∈ gws /\ isResolved infra gw = false /\ isBroken infra gw = false).
Proof.
  intros Hd. revert seen. induction gws as [|gw gws IH]; intros seen Hnd; cbn [partition_keys_loop].
  { split; [constructor|]. intros key. setoid_rewrite elem_of_nil. naive_solver. }
  apply NoDup_cons in Hnd as [Hni Hnd].
  assert (Hk : forall key, (key ∈ gw :: gws /\ isResolved infra key = true) <->
                           (key = gw /\ isResolved infra gw = true) \/ (key ∈ gws /\ isResolved infra key = true)).
  { intros key. rewrite elem_of_cons. split; [intros [[->|?] ?]; auto|intros [[-> ?]|[? ?]]; auto]. }
  destruct (isResolved infra gw) eqn:Hr; [|destruct (isBroken infra gw) eqn:Hb; [|destruct seen; cbn [negb]]];
    match goal with |- context [partition_keys_loop infra gws ?s] => destruct (IH s Hnd) as [Hn He]; clear IH end;
    (split; [|intros key; rewrite Hk, exists_elem_of_cons, ?elem_of_cons, He, ?Hr, ?Hb; clear; intuition congruence]).
  - apply NoDup_cons. split; [|done]. rewrite He. unfold keys_disjoint in Hd. intros [[? _]|[-> _]]; congruence.
  - done.
  - done.
  - apply NoDup_cons. split; [|done]. rewrite He. unfold keys_disjoint in Hd. intros [[_ ?]|(_ & ? & _)]; congruence.
Qed.
Lemma partitionKeysFor_spec info infra : keys_disjoint infra ->
  NoDup (partitionKeysFor info infra) /\
  forall key, key ∈ partitionKeysFor info infra <-> serves infra key info = true.
Proof.
  intros Hd. destruct (partition_keys_loop_spec infra (elements (bi_acceptedGateways info)) false Hd) as [Hn He].
  { apply NoDup_elements. }
  unfold partitionKeysFor, sort_keys. split; [by rewrite stable_sort_perm|]. intros key.
  rewrite elem_of_stable_sort, He. unfold serves. rewrite existsb_elem_of. setoid_rewrite bool_decide_eq_true.
  unfold plane_of. split.
  - intros [[? Hr]|(-> & _ & gw & ? & Hr & Hb)]; [exists key|exists gw]; rewrite Hr; [done|by rewrite Hb].
  - intros (gw & ? & Hp). destruct (isResolved infra gw) eqn:Hr; [left; by simplify_eq|].
    destruct (isBroken infra gw) eqn:Hb; [done|]. simplify_eq. right. split_and!; [done..|]. by exists gw.
Qed.

(** Placing the routes appends to each partition the routes it serves, in order. *)
Lemma alter_keys_lookup (f : routePartition -> routePartition) keys (m : gmap string routePartition) key : NoDup keys ->
  foldl (fun m k => alter f k m) m keys !! key = (if bool_decide (key ∈ keys) then f <$> m !! key else m !! key).
Proof.
  revert m. induction keys as [|k keys IH]; intros m; cbn [foldl].
  { intros _. by rewrite bool_decide_eq_false_2 by (intros ?%elem_of_nil; done). }
  intros [Hni Hnd]%NoDup_cons. rewrite IH by done. destruct (decide (key = k)) as [->|Hne].
  - rewrite bool_decide_eq_false_2, bool_decide_eq_true_2, lookup_alter_eq by set_solver. done.
  - rewrite lookup_alter_ne by done. by rewrite (bool_decide_ext (key ∈ keys) (key ∈ k :: keys)) by set_solver.
Qed.
Lemma place_routes_lookup {R} (add : RouteObject R -> routePartition -> routePartition) infra result m key :
  keys_disjoint infra ->
  place_routes add infra result m !! key =
  (fun p => foldl (fun p r => add r p) p
     (List.filter (fun r => serves infra key (binding_of result r)) (res_accepted result))) <$> m !! key.
Proof.
  intros Hd. unfold place_routes. generalize (res_accepted result). intros routes. revert m.
  induction routes as [|r routes IH]; intros m; cbn [foldl List.filter]; [by destruct (m !! key)|].
  destruct (partitionKeysFor_spec (binding_of result r) infra Hd) as [Hn He].
  rewrite IH, alter_keys_lookup by done.
  rewrite (bool_decide_ext _ (serves infra key (binding_of result r) = true)) by apply He.
  destruct (serves infra key (binding_of result r)); case_bool_decide; try done. by destruct (m !! key).
Qed.
Lemma foldl_add_http p l :
  foldl (fun p r => add_http r p) p l =
  mkRoutePartition (rp_Key p) (rp_Gateway p) (rp_PerGateway p) (rp_HTTPRoutes p ++ l) (rp_GRPCRoutes p).
Proof.
  revert p. induction l as [|r l IH]; intros p; cbn [foldl]; [destruct p; by rewrite app_nil_r|].
  rewrite IH. simpl. by rewrite <-app_assoc.
Qed.
Lemma foldl_add_grpc p l :
  foldl (fun p r => add_grpc r p) p l =
  mkRoutePartition (rp_Key p) (rp_Gateway p) (rp_PerGateway p) (rp_HTTPRoutes p) (rp_GRPCRoutes p ++ l).
Proof.
  revert p. induction l as [|r l IH]; intros p; cbn [foldl]; [destruct p; by rewrite app_nil_r|].
  rewrite IH. simpl. by rewrite <-app_assoc.
Qed.

Lemma empty_partitions_lookup infra key : keys_disjoint infra ->
  empty_partitions infra !! key =
  if bool_decide (key = sharedPartitionKey) then Some (mkRoutePartition sharedPartitionKey None None [] [])
  else (fun e => mkRoutePartition key (Some (ig_gateway e)) (Some (ig_perGateway e)) [] []) <$>
         (infra ≫= fun infra => inf_resolved infra !! key).
Proof.
  intros Hd. unfold empty_partitions.
  set (m := match infra with Some infra => inf_resolved infra | None => ∅ end).
  assert (Hm : forall k, m !! k = infra ≫= fun infra => inf_resolved infra !! k).
  { intros k. subst m. destruct infra; [done|]. by rewrite lookup_empty. }
  case_bool_decide as Hk.
  - subst key. rewrite lookup_union_r; [by rewrite lookup_singleton_eq|].
    rewrite map_lookup_imap, Hm. unfold keys_disjoint, isResolved in Hd. destruct infra as [i|]; [|done]. simpl.
    apply bool_decide_eq_false in Hd. destruct (inf_resolved i !! sharedPartitionKey) eqn:E; [|done]. exfalso. apply Hd. eauto.
  - rewrite lookup_union_l by (by rewrite lookup_singleton_ne). rewrite map_lookup_imap, Hm. by destruct (infra ≫= _).
Qed.
Definition dedicated_keys (infra : option infraGateways) : list string :=
  sort_keys (elements (dom (match infra with Some i => inf_resolved i | None => ∅ end))).
(** What each partition is, by its key. *)
Definition expected_partition (http : routeResult HTTPRouteRule) (grpc : routeResult GRPCRouteRule)
    (infra : option infraGateways) (key : string) : routePartition :=
  let entry := infra ≫= fun infra => inf_resolved infra !! key in
  mkRoutePartition key (ig_gateway <$> entry) (ig_perGateway <$> entry)
    (List.filter (fun r => serves infra key (binding_of http r)) (res_accepted http))
    (List.filter (fun r => serves infra key (binding_of grpc r)) (res_accepted grpc)).
Lemma partitionRoutes_eq http grpc infra : keys_disjoint infra ->
  partitionRoutes http grpc infra = expected_partition http grpc infra <$> sharedPartitionKey :: dedicated_keys infra.
Proof.
  intros Hd. unfold partitionRoutes. set (byKey := place_routes _ _ _ _).
  assert (Hl : forall key, byKey !! key =
    if bool_decide (key = sharedPartitionKey \/ isResolved infra key = true)
    then Some (expected_partition http grpc infra key) else None).
  { intros key. subst byKey. rewrite !place_routes_lookup, empty_partitions_lookup by done. unfold expected_partition, isResolved.
    destruct (bool_decide (key = sharedPartitionKey)) eqn:Hk.
    - apply bool_decide_eq_true in Hk. subst key. rewrite bool_decide_eq_true_2 by auto. simpl.
      rewrite foldl_add_http, foldl_add_grpc. simpl. unfold keys_disjoint, isResolved in Hd. destruct infra as [i|]; [|done]. simpl.
      apply bool_decide_eq_false in Hd. destruct (inf_resolved i !! sharedPartitionKey) eqn:E; [|done]. exfalso. apply Hd. eauto.
    - apply bool_decide_eq_false in Hk. destruct infra as [i|]; simpl.
      + destruct (inf_resolved i !! key) as [e|] eqn:E; simpl.
        * rewrite bool_decide_eq_true_2 by (by right).
          by rewrite foldl_add_http, foldl_add_grpc.
        * rewrite bool_decide_eq_false_2; [done|]. by intros [?|?].
      + rewrite bool_decide_eq_false_2; [done|]. intros [?|?]; done. }
  assert (Hkeys : sort_keys (List.filter (fun key => negb (bool_decide (key = sharedPartitionKey))) (map_to_list byKey).*1)
                  = dedicated_keys infra).
  { apply (stable_sort_order_independent str_ltb); [intros; by apply str_ltb_total|].
    apply NoDup_Permutation.
    - apply NoDup_ListNoDup, List.NoDup_filter, NoDup_ListNoDup, NoDup_fst_map_to_list.
    - apply NoDup_elements.
    - intros key. rewrite elem_of_list_filter, negb_true_iff, bool_decide_eq_false, elem_of_elements, elem_of_dom.
      rewrite list_elem_of_fmap. unfold keys_disjoint, isResolved in *. split.
      + intros [([k p] & -> & Hin%elem_of_map_to_list) Hne]. simpl in *. rewrite Hl in Hin. case_bool_decide as Hc; [|done].
        destruct Hc as [?|Hc]; [done|]. destruct infra; [|done]. by apply bool_decide_eq_true in Hc.
      + intros Hs. assert (Hne : key <> sharedPartitionKey).
        { intros ->. destruct infra; [by apply bool_decide_eq_false in Hd|]. by destruct Hs. }
        split; [|done]. exists (key, expected_partition http grpc infra key). split; [done|]. apply elem_of_map_to_list. rewrite Hl.
        rewrite bool_decide_eq_true_2; [done|]. right. destruct infra; [by apply bool_decide_eq_true_2|by destruct Hs]. }
  rewrite Hkeys. cbn [omap list_omap]. rewrite Hl, bool_decide_eq_true_2 by auto. cbn [fmap list_fmap]. f_equal.
  assert (Hin : forall k, k ∈ dedicated_keys infra -> isResolved infra k = true).
  { intros k. unfold dedicated_keys, sort_keys. rewrite elem_of_stable_sort, elem_of_elements, elem_of_dom. unfold isResolved.
    destruct infra; [by intros; apply bool_decide_eq_true_2|by intros []]. }
  clear Hkeys. induction (dedicated_keys infra) as [|k ks IH]; [done|]. cbn [omap list_omap fmap list_fmap].
  rewrite Hl, bool_decide_eq_true_2 by (right; apply Hin; left). f_equal. apply IH. intros; apply Hin; by right.
Qed.

(** ** The plane of every Gateway *)

Section planes.
Context {kube : KubeClient} {reader : ConfigReader} {decoder : TokenDecoder} {hash : Sha256}.
Context (controllerName defaultNamespace : string).

Definition opted_in (classNames : gset string) (g : GatewayObject) : bool :=
  bool_decide (go_ClassName g ∈ classNames) && HasInfrastructureParametersRef g.
(** The dedicated configuration of a Gateway, when it resolves. *)
Definition dedicated (g : GatewayObject) : option PerGatewayConfig :=
  match ResolveForGateway defaultNamespace g with Ok o => o | Err _ => None end.
Lemma infra_step_eq classNames out g :
  let out' := infra_step defaultNamespace classNames out g in
  inf_resolved out' =
    match opted_in classNames g, dedicated g with
    | true, Some pg => <[gateway_key g := mkInfraGateway g pg]> (inf_resolved out)
    | _, _ => inf_resolved out
    end /\
  inf_broken out' =
    match opted_in classNames g, dedicated g with true, None => {[gateway_key g]} ∪ inf_broken out | _, _ => inf_broken out end.
Proof.
  unfold infra_step, opted_in, dedicated. destruct (bool_decide _), (HasInfrastructureParametersRef g); cbn [negb orb andb]; [|done..].
  by destruct (ResolveForGateway defaultNamespace g) as [[pg|]|[]].
Qed.
Lemma infra_fold classNames gws out : NoDup (gateway_key <$> gws) ->
  let out' := foldl (infra_step defaultNamespace classNames) out gws in
  (forall g, g ∈ gws ->
     inf_resolved out' !! gateway_key g =
       (if opted_in classNames g then mkInfraGateway g <$> dedicated g else None) ∪ inf_resolved out !! gateway_key g /\
     (gateway_key g ∈ inf_broken out' <->
       gateway_key g ∈ inf_broken out \/ (opted_in classNames g = true /\ dedicated g = None))) /\
  (forall key, key ∉ (gateway_key <$> gws) ->
     inf_resolved out' !! key = inf_resolved out !! key /\ (key ∈ inf_broken out' <-> key ∈ inf_broken out)).
Proof.
  revert out. induction gws as [|g gws IH]; intros out; cbn [foldl]; cbn zeta.
  { intros _. split; [by intros g ?%elem_of_nil|]. done. }
  intros [Hni Hnd]%NoDup_cons. destruct (IH (infra_step defaultNamespace classNames out g) Hnd) as [H1 H2].
  destruct (infra_step_eq classNames out g) as [Hr Hb]. rewrite Hr, Hb in *. clear IH Hr Hb. split.
  - intros g' [->|Hin]%elem_of_cons.
    + destruct (H2 _ Hni) as [-> ->]. destruct (opted_in classNames g), (dedicated g); simpl;
        rewrite ?lookup_insert_eq, ?elem_of_union, ?elem_of_singleton, ?(left_id_L None _);
        (split; [by try destruct (inf_resolved out !! gateway_key g)|intuition congruence]).
    + assert (gateway_key g' <> gateway_key g) by (intros He; apply Hni; rewrite <-He; by apply list_elem_of_fmap_2).
      destruct (H1 _ Hin) as [-> ->].
      destruct (opted_in classNames g), (dedicated g); rewrite ?lookup_insert_ne, ?elem_of_union, ?elem_of_singleton by done;
        (split; [done|tauto]).
  - intros key [Hne Hk]%not_elem_of_cons. destruct (H2 _ Hk) as [-> ->].
    destruct (opted_in classNames g), (dedicated g); rewrite ?lookup_insert_ne, ?elem_of_union, ?elem_of_singleton by done;
      (split; [done|tauto]).
Qed.
Lemma infra_keys classNames gws out key : is_Some (inf_resolved (foldl (infra_step defaultNamespace classNames) out gws) !! key) ->
  is_Some (inf_resolved out !! key) \/ exists g, key = gateway_key g.
Proof.
  revert out. induction gws as [|g gws IH]; intros out; cbn [foldl]; [by left|].
  intros [H|?]%IH; [|by right]. revert H. rewrite (proj1 (infra_step_eq classNames out g)).
  destruct (opted_in classNames g), (dedicated g) as [pg|]; try by left.
  destruct (decide (key = gateway_key g)) as [->|]; [eauto|]. rewrite lookup_insert_ne by done. by left.
Qed.
Lemma gateway_key_not_shared g : gateway_key g <> sharedPartitionKey.
Proof.
  unfold gateway_key. intros H. apply (f_equal (str_existsb (fun d => bool_decide (d = "/"%char)))) in H.
  assert (Hn : lacks "/" sharedPartitionKey) by reflexivity. unfold lacks in Hn. rewrite Hn in H. clear Hn.
  assert (Hl : lacks "/" (gw_Namespace (go_Gateway g) +:+ "/" +:+ gw_Name (go_Gateway g))) by exact H.
  rewrite !lacks_app in Hl. destruct Hl as (_ & Hs & _). discriminate Hs.
Qed.
Lemma resolveInfraGateways_disjoint infra :
  resolveInfraGateways controllerName defaultNamespace = Ok infra -> keys_disjoint (Some infra).
Proof.
  unfold resolveInfraGateways. destruct (managedClassNames controllerName) as [names|]; [|done].
  destruct kube_Gateways as [gws|]; [|done]. intros [= <-]. unfold keys_disjoint, isResolved. apply bool_decide_eq_false.
  intros [[? H]|[g H]]%infra_keys; [cbn in H; by rewrite lookup_empty in H|]. by destruct (gateway_key_not_shared g).
Qed.
End planes.

(** The plane of every listed Gateway is decided by its own opt-in: a managed
    Gateway with infrastructure parameters is served by its own plane when its
    configuration resolves and by no plane at all otherwise (whatever the error),
    never by the shared one; every other Gateway is served by the shared plane. *)
Theorem gateway_plane_exact {kube : KubeClient} {reader : ConfigReader} {decoder : TokenDecoder} {hash : Sha256}
    (controllerName defaultNamespace : string) (infra : infraGateways) (names : gset string) (gws : list GatewayObject)
    (g : GatewayObject) :
  managedClassNames controllerName = Some names -> kube_Gateways = Some gws -> NoDup (gateway_key <$> gws) -> g ∈ gws ->
  resolveInfraGateways controllerName defaultNamespace = Ok infra ->
  plane_of (Some infra) (gateway_key g) =
    if bool_decide (go_ClassName g ∈ names) && HasInfrastructureParametersRef g
    then match ResolveForGateway defaultNamespace g with Ok (Some _) => Some (gateway_key g) | _ => None end
    else Some sharedPartitionKey.
Proof.
  intros Hn Hg Hnd Hin. unfold resolveInfraGateways. rewrite Hn, Hg. intros [= <-].
  destruct (infra_fold defaultNamespace names gws (mkInfraGateways ∅ ∅ ∅) Hnd) as [H1 _].
  destruct (H1 _ Hin) as [Hr Hb]. cbn [inf_resolved inf_broken] in *. rewrite lookup_empty, (right_id_L None _) in Hr.
  assert (Hb' : forall b, bool_decide (gateway_key g ∈ inf_broken (foldl (infra_step defaultNamespace names) (mkInfraGateways ∅ ∅ ∅) gws)) = b <->
    bool_decide (opted_in names g = true /\ dedicated defaultNamespace g = None) = b).
  { intros b. rewrite (bool_decide_ext _ (opted_in names g = true /\ dedicated defaultNamespace g = None)); [done|].
    rewrite Hb. split; [intros [?%elem_of_empty|?]; [done|tauto]|by right]. }
  unfold plane_of, isResolved, isBroken. fold (opted_in names g). rewrite Hr. unfold dedicated in *.
  destruct (opted_in names g); simpl.
  - destruct (ResolveForGateway defaultNamespace g) as [[pg|]|]; [done| |];
      (rewrite (proj2 (Hb' true)); [done|by apply bool_decide_eq_true_2]).
  - rewrite (proj2 (Hb' false)); [done|]. apply bool_decide_eq_false_2. by intros [? _].
Qed.

Lemma serves_spec infra key info :
  serves infra key info = true <-> exists gw, gw ∈ bi_acceptedGateways info /\ plane_of infra gw = Some key.
Proof.
  unfold serves. rewrite existsb_elem_of. setoid_rewrite bool_decide_eq_true. by setoid_rewrite elem_of_elements.
Qed.
Lemma elem_of_dedicated_keys infra key : key ∈ dedicated_keys infra <-> isResolved infra key = true.
Proof.
  unfold dedicated_keys, sort_keys. rewrite elem_of_stable_sort, elem_of_elements, elem_of_dom. unfold isResolved.
  destruct infra as [i|]; [by rewrite bool_decide_eq_true|]. rewrite lookup_empty. split; [by intros []|done].
Qed.
Lemma plane_keys_NoDup infra : keys_disjoint infra -> NoDup (sharedPartitionKey :: dedicated_keys infra).
Proof.
  intros Hd. apply NoDup_cons. split.
  - rewrite elem_of_dedicated_keys. unfold keys_disjoint in Hd. congruence.
  - unfold dedicated_keys, sort_keys. rewrite stable_sort_perm. apply NoDup_elements.
Qed.
Lemma expected_PerGateway http grpc infra key : keys_disjoint infra -> key ∈ sharedPartitionKey :: dedicated_keys infra ->
  rp_PerGateway (expected_partition http grpc infra key) = None <-> key = sharedPartitionKey.
Proof.
  unfold keys_disjoint. intros Hd Hk. rewrite elem_of_cons, elem_of_dedicated_keys in Hk. unfold isResolved in *. simpl.
  destruct infra as [i|]; simpl in *; [|naive_solver].
  destruct (inf_resolved i !! key) eqn:E; simpl.
  - split; [done|]. intros ->. apply bool_decide_eq_false in Hd. destruct Hd. eauto.
  - split; [|done]. intros _. destruct Hk as [?|Hk]; [done|]. apply bool_decide_eq_true in Hk. by destruct Hk.
Qed.
Lemma filter_sublist {A} (f : A -> bool) l : List.filter f l `sublist_of` l.
Proof. induction l as [|x l IH]; simpl; [done|]. destruct (f x); by constructor. Qed.

(** The partitions of a sync are the shared plane followed by the dedicated
    planes in key order, each once.  A partition holds exactly the accepted
    Routes that some Gateway of its plane accepts, in the order they were
    accepted: a Route accepted only by dedicated Gateways is in no other tenant's
    partition and not in the shared one, and the Routes of a broken Gateway are
    not served for it anywhere. *)
Theorem partition_isolation (http : routeResult HTTPRouteRule) (grpc : routeResult GRPCRouteRule)
    (infra : option infraGateways) : keys_disjoint infra ->
  rp_Key <$> partitionRoutes http grpc infra = sharedPartitionKey :: dedicated_keys infra /\
  NoDup (rp_Key <$> partitionRoutes http grpc infra) /\
  forall p, p ∈ partitionRoutes http grpc infra ->
    (rp_PerGateway p = None <-> rp_Key p = sharedPartitionKey) /\
    rp_HTTPRoutes p `sublist_of` res_accepted http /\ rp_GRPCRoutes p `sublist_of` res_accepted grpc /\
    (forall r, r ∈ rp_HTTPRoutes p <-> r ∈ res_accepted http /\
       exists gw, gw ∈ bi_acceptedGateways (binding_of http r) /\ plane_of infra gw = Some (rp_Key p)) /\
    (forall r, r ∈ rp_GRPCRoutes p <-> r ∈ res_accepted grpc /\
       exists gw, gw ∈ bi_acceptedGateways (binding_of grpc r) /\ plane_of infra gw = Some (rp_Key p)).
Proof.
  intros Hd. rewrite partitionRoutes_eq by done.
  assert (Hkeys : rp_Key <$> (expected_partition http grpc infra <$> sharedPartitionKey :: dedicated_keys infra)
                  = sharedPartitionKey :: dedicated_keys infra).
  { rewrite <-list_fmap_compose. apply list_fmap_id. }
  rewrite Hkeys. split; [done|]. split; [by apply plane_keys_NoDup|].
  intros p (key & -> & Hk)%list_elem_of_fmap. split_and!.
  - by apply expected_PerGateway.
  - apply filter_sublist.
  - apply filter_sublist.
  - intros r. unfold expected_partition. cbn [rp_HTTPRoutes rp_Key]. by rewrite elem_of_list_filter, serves_spec.
  - intros r. unfold expected_partition. cbn [rp_GRPCRoutes rp_Key]. by rewrite elem_of_list_filter, serves_spec.
Qed.

(** ** Groups and unions *)

Section groups.
Context (shared : ResolvedConfig).
Definition tunnel (p : routePartition) : string := rc_TunnelID (resolved_of shared p).
Lemma tunnelOf_eq p : tunnelOf (rc_TunnelID shared) p = tunnel p.
Proof. unfold tunnelOf, tunnel, resolved_of. by destruct (rp_PerGateway p). Qed.
Definition on_tunnel (T : string) (ps : list routePartition) : list routePartition :=
  List.filter (fun p => bool_decide (tunnel p = T)) ps.
(** The group of a tunnel: its partitions, written with the first one's credential. *)
Definition group_of (T : string) (ps : list routePartition) : option tunnelGroup :=
  match on_tunnel T ps with [] => None | p :: _ => Some (mkTunnelGroup (resolved_of shared p) (on_tunnel T ps)) end.

Lemma on_tunnel_snoc T ps p : on_tunnel T (ps ++ [p]) = on_tunnel T ps ++ (if bool_decide (tunnel p = T) then [p] else []).
Proof. unfold on_tunnel. rewrite List.filter_app. simpl. by destruct (bool_decide _). Qed.
Lemma elem_of_on_tunnel T ps p : p ∈ on_tunnel T ps <-> p ∈ ps /\ tunnel p = T.
Proof. unfold on_tunnel. by rewrite elem_of_list_filter, bool_decide_eq_true. Qed.
Lemma group_of_Some T ps g : group_of T ps = Some g -> tg_partitions g = on_tunnel T ps /\ rc_TunnelID (tg_resolved g) = T.
Proof.
  unfold group_of. destruct (on_tunnel T ps) as [|p l] eqn:E; [done|]. intros [= <-]. split; [done|]. simpl.
  assert (H : p ∈ on_tunnel T ps) by (rewrite E; left). by apply elem_of_on_tunnel in H as [_ H].
Qed.
Lemma group_of_is_Some T ps : is_Some (group_of T ps) <-> T ∈ (tunnel <$> ps).
Proof.
  unfold group_of. rewrite list_elem_of_fmap. destruct (on_tunnel T ps) as [|p l] eqn:E.
  - split; [by intros []|]. intros (p & -> & Hp). assert (H : p ∈ on_tunnel (tunnel p) ps) by (by apply elem_of_on_tunnel).
    rewrite E in H. by apply elem_of_nil in H.
  - split; [|eauto]. intros _. assert (H : p ∈ on_tunnel T ps) by (rewrite E; left). apply elem_of_on_tunnel in H as [? <-]. eauto.
Qed.

Lemma group_fold_spec ps :
  let '(byTunnel, order) := foldl (group_step shared) (∅, []) ps in
  (forall T, byTunnel !! T = group_of T ps) /\ NoDup order /\
  (forall T, T ∈ order <-> T ∈ (tunnel <$> ps)) /\ head order = head (tunnel <$> ps).
Proof.
  induction ps as [|p ps IH] using rev_ind; [split_and!; [done|constructor|done|done]|].
  rewrite foldl_snoc. destruct (foldl _ _ ps) as [byTunnel order]. destruct IH as (Hg & Hn & Ho & Hh).
  unfold group_step. fold (tunnel p). rewrite Hg. rewrite fmap_app. cbn [fmap list_fmap].
  destruct (group_of (tunnel p) ps) as [g|] eqn:E.
  - assert (Hin : tunnel p ∈ (tunnel <$> ps)) by (apply group_of_is_Some; eauto). split_and!; [|done| |].
    + intros T. destruct (decide (T = tunnel p)) as [->|Hne].
      * rewrite lookup_insert_eq. revert E. unfold group_of. rewrite on_tunnel_snoc, bool_decide_eq_true_2 by done.
        destruct (on_tunnel (tunnel p) ps); [done|]. by intros [= <-].
      * rewrite lookup_insert_ne, Hg by done. unfold group_of. by rewrite on_tunnel_snoc, bool_decide_eq_false_2, app_nil_r by done.
    + intros T. rewrite Ho, elem_of_app, list_elem_of_singleton. naive_solver.
    + rewrite Hh. destruct ps; [by apply elem_of_nil in Hin|done].
  - assert (Hin : tunnel p ∉ (tunnel <$> ps)) by (rewrite <-group_of_is_Some, E; by intros []). split_and!.
    + intros T. destruct (decide (T = tunnel p)) as [->|Hne].
      * rewrite lookup_insert_eq. revert E. unfold group_of. rewrite on_tunnel_snoc, bool_decide_eq_true_2 by done.
        by destruct (on_tunnel (tunnel p) ps).
      * rewrite lookup_insert_ne, Hg by done. unfold group_of. by rewrite on_tunnel_snoc, bool_decide_eq_false_2, app_nil_r by done.
    + apply NoDup_app. split_and!; [done| |apply NoDup_singleton]. intros T HT%Ho. rewrite list_elem_of_singleton. by intros ->.
    + intros T. by rewrite !elem_of_app, Ho.
    + destruct order, (tunnel <$> ps); simpl in *; congruence.
Qed.

(** The tunnels of a sync, each once, in the order their documents are written. *)
Lemma buildTunnelGroups_spec ps : exists order,
  buildTunnelGroups shared ps = omap (fun T => group_of T ps) order /\ NoDup order /\
  (forall T, T ∈ order <-> T ∈ (tunnel <$> ps)) /\ head order = head (tunnel <$> ps) /\
  StronglySorted (not_after str_ltb) (tail order).
Proof.
  unfold buildTunnelGroups. pose proof (group_fold_spec ps) as H. destruct (foldl _ _ ps) as [byTunnel order].
  destruct H as (Hg & Hn & Ho & Hh). destruct order as [|T0 rest].
  - exists []. split_and!; try done. constructor.
  - exists (T0 :: sort_keys rest). split_and!.
    + apply list_omap_ext. apply Forall_Forall2_diag, Forall_true. intros T. apply Hg.
    + apply NoDup_cons in Hn as [H1 H2]. apply NoDup_cons. unfold sort_keys. by rewrite elem_of_stable_sort, stable_sort_perm.
    + intros T. rewrite <-Ho, !elem_of_cons. unfold sort_keys. by rewrite elem_of_stable_sort.
    + done.
    + apply stable_sort_sorted, _.
Qed.
End groups.

Lemma union_fold_spec shared ps T :
  foldl (union_partition (rc_TunnelID shared)) ∅ ps !! T =
  match on_tunnel shared T ps with [] => None | l => Some (foldl union_step empty_union l) end.
Proof.
  induction ps as [|p ps IH] using rev_ind; [done|]. rewrite foldl_snoc, on_tunnel_snoc.
  unfold union_partition at 1. rewrite tunnelOf_eq. case_bool_decide as HT.
  - subst T. rewrite lookup_insert_eq, IH. destruct (on_tunnel shared (tunnel shared p) ps) as [|p0 l]; [done|].
    simpl. by rewrite foldl_snoc.
  - rewrite lookup_insert_ne, app_nil_r by done. apply IH.
Qed.

(** Routes gathered once per key. *)
Lemma add_unseen_fold {R} (l : list (RouteObject R)) (acc : seen_routes R) :
  NoDup (route_key <$> acc.2) -> (forall k, k ∈ acc.1 <-> k ∈ (route_key <$> acc.2)) ->
  let out := foldl add_unseen acc l in
  NoDup (route_key <$> out.2) /\ (forall k, k ∈ out.1 <-> k ∈ (route_key <$> out.2)) /\
  (forall r, r ∈ out.2 -> r ∈ acc.2 \/ r ∈ l) /\
  (forall k, k ∈ (route_key <$> out.2) <-> k ∈ (route_key <$> acc.2) \/ k ∈ (route_key <$> l)).
Proof.
  revert acc. induction l as [|r l IH]; intros acc Hn Hs; cbn [foldl]; cbn zeta.
  { split_and!; try done; [by left|]. intros k. cbn. rewrite elem_of_nil. tauto. }
  unfold add_unseen at 2 4 6 8 10. case_bool_decide as Hk.
  - destruct (IH acc Hn Hs) as (H1 & H2 & H3 & H4). split_and!; [done..| |].
    + intros r' [?|?]%H3; [by left|right; by right].
    + intros k. rewrite H4. cbn. rewrite elem_of_cons. rewrite Hs in Hk. naive_solver.
  - destruct (IH ({[route_key r]} ∪ acc.1, acc.2 ++ [r])) as (H1 & H2 & H3 & H4); cbn [fst snd] in *.
    + rewrite fmap_app. apply NoDup_app. split_and!; [done| |apply NoDup_singleton].
      intros k Hk' He%list_elem_of_singleton. cbn in He. subst k. apply Hk. by apply Hs.
    + intros k. rewrite elem_of_union, elem_of_singleton, fmap_app, elem_of_app, Hs. cbn. rewrite list_elem_of_singleton. tauto.
    + split_and!; [done..| |].
      * intros r' [Hr|?]%H3; [|right; by right]. apply elem_of_app in Hr as [?|Hr]; [by left|apply list_elem_of_singleton in Hr as ->; right; left].
      * intros k. rewrite H4, fmap_app, elem_of_app. cbn. rewrite list_elem_of_singleton, elem_of_cons. tauto.
Qed.
Lemma union_step_fold u ps :
  foldl union_step u ps = (foldl add_unseen u.1 (ps ≫= rp_HTTPRoutes), foldl add_unseen u.2 (ps ≫= rp_GRPCRoutes)).
Proof.
  revert u. induction ps as [|p ps IH]; intros u; [by destruct u|]. cbn [foldl]. rewrite IH. cbn [mbind list_bind].
  by rewrite !foldl_app.
Qed.
(** Gathered routes: one per key, and all of them when keys identify routes. *)
Lemma gathered_spec {R} (l : list (RouteObject R)) :
  (forall r1 r2, r1 ∈ l -> r2 ∈ l -> route_key r1 = route_key r2 -> r1 = r2) ->
  NoDup (route_key <$> (foldl add_unseen (∅, []) l).2) /\ forall r, r ∈ (foldl add_unseen (∅, []) l).2 <-> r ∈ l.
Proof.
  intros Hinj. destruct (add_unseen_fold l (∅, [])) as (H1 & _ & H3 & H4).
  { constructor. }
  { intros k. cbn. rewrite elem_of_nil. split; [by intros ?%elem_of_empty|done]. }
  cbn [fst snd] in *. split; [done|]. intros r. split.
  - intros [?%elem_of_nil|?]%H3; done.
  - intros Hr. assert (Hk : route_key r ∈ (route_key <$> (foldl add_unseen (∅, []) l).2)).
    { apply H4. right. by apply list_elem_of_fmap_2. }
    apply list_elem_of_fmap in Hk as (r' & He & Hr'). assert (r = r') as ->; [|done].
    apply Hinj; [done| |done]. by destruct (H3 _ Hr') as [?%elem_of_nil|].
Qed.

(** The groups, by tunnel. *)
Lemma elem_of_groups shared ps g :
  g ∈ buildTunnelGroups shared ps -> group_of shared (rc_TunnelID (tg_resolved g)) ps = Some g.
Proof.
  destruct (buildTunnelGroups_spec shared ps) as (order & -> & _). intros (T & _ & Hg)%list_elem_of_omap.
  by rewrite (proj2 (group_of_Some _ _ _ _ Hg)).
Qed.
Lemma group_tunnels_NoDup shared ps : NoDup ((fun g => rc_TunnelID (tg_resolved g)) <$> buildTunnelGroups shared ps).
Proof.
  destruct (buildTunnelGroups_spec shared ps) as (order & -> & Hn & _).
  assert (Hs : (fun g => rc_TunnelID (tg_resolved g)) <$> omap (fun T => group_of shared T ps) order `sublist_of` order).
  { clear Hn. induction order as [|T order IH]; [done|]. cbn [omap list_omap].
    destruct (group_of shared T ps) as [g|] eqn:E; [|by constructor]. cbn [fmap list_fmap].
    rewrite (proj2 (group_of_Some _ _ _ _ E)). by constructor. }
  eapply sublist_NoDup; [done|exact Hs].
Qed.
Lemma group_for_partition shared ps p : p ∈ ps -> exists g,
  g ∈ buildTunnelGroups shared ps /\ group_of shared (tunnel shared p) ps = Some g.
Proof.
  intros Hp. destruct (buildTunnelGroups_spec shared ps) as (order & -> & _ & Ho & _).
  assert (HT : tunnel shared p ∈ (tunnel shared <$> ps)) by (by apply list_elem_of_fmap_2).
  destruct (proj2 (group_of_is_Some shared _ _) HT) as [g Hg]. exists g. split; [|done].
  apply list_elem_of_omap. exists (tunnel shared p). split; [by apply Ho|done].
Qed.

(** C20: What a tunnel's ingress document and the proxies behind it know is the
    same: the partitions fall into groups, one per tunnel, each holding exactly
    the partitions on it, and the configuration pushed to the plane of a
    partition carries exactly the routes its group's document is built from
    (with the partition's own key and credentials). *)
Theorem document_matches_data_plane (shared : ResolvedConfig) (ps : list routePartition) (i : nat) (pushed : routePartition) :
  unionPartitionRoutes ps (rc_TunnelID shared) !! i = Some pushed ->
  NoDup ((fun g => rc_TunnelID (tg_resolved g)) <$> buildTunnelGroups shared ps) /\
  exists p g, ps !! i = Some p /\ rp_Key pushed = rp_Key p /\ rp_PerGateway pushed = rp_PerGateway p /\
    g ∈ buildTunnelGroups shared ps /\
    (forall q, q ∈ tg_partitions g <-> q ∈ ps /\ tunnel shared q = tunnel shared p) /\
    groupRoutes g = (rp_HTTPRoutes pushed, rp_GRPCRoutes pushed).
Proof.
  unfold unionPartitionRoutes. rewrite list_lookup_fmap. intros (p & Hp & ->)%fmap_Some. split; [apply group_tunnels_NoDup|].
  destruct (group_for_partition shared ps p) as (g & Hg & Hof); [by eapply list_elem_of_lookup_2|].
  destruct (group_of_Some _ _ _ _ Hof) as [Hps _]. exists p, g. split_and!; try done.
  - intros q. rewrite Hps. apply elem_of_on_tunnel.
  - unfold groupRoutes. rewrite Hps. cbn [rp_HTTPRoutes rp_GRPCRoutes]. rewrite union_fold_spec, tunnelOf_eq.
    revert Hof. unfold group_of. by destruct (on_tunnel shared (tunnel shared p) ps).
Qed.

(** The tunnel that carries a Gateway's routes. *)
Definition gateway_tunnel (shared : ResolvedConfig) (infra : option infraGateways) (gw : string) : option string :=
  match infra ≫= fun i => inf_resolved i !! gw with
  | Some entry => Some (rc_TunnelID (pg_Resolved (ig_perGateway entry)))
  | None => if isBroken infra gw then None else Some (rc_TunnelID shared)
  end.
Lemma gateway_tunnel_spec shared http grpc infra gw T : keys_disjoint infra ->
  gateway_tunnel shared infra gw = Some T <->
  exists key, plane_of infra gw = Some key /\ key ∈ sharedPartitionKey :: dedicated_keys infra /\
    tunnel shared (expected_partition http grpc infra key) = T.
Proof.
  intros Hd. assert (Hshared : tunnel shared (expected_partition http grpc infra sharedPartitionKey) = rc_TunnelID shared).
  { unfold tunnel, resolved_of. rewrite (proj2 (expected_PerGateway http grpc infra _ Hd (list_elem_of_here _ _))); done. }
  unfold gateway_tunnel, plane_of. destruct (isResolved infra gw) eqn:Hr.
  - assert (Hin : gw ∈ sharedPartitionKey :: dedicated_keys infra) by (right; by apply elem_of_dedicated_keys).
    unfold isResolved in Hr. destruct infra as [i|]; [|done]. apply bool_decide_eq_true in Hr as [e He]. simpl. rewrite He.
    assert (Ht : tunnel shared (expected_partition http grpc (Some i) gw) = rc_TunnelID (pg_Resolved (ig_perGateway e))).
    { unfold tunnel, resolved_of, expected_partition. simpl. by rewrite He. }
    split; [intros [= <-]; eauto|]. intros (key & [= <-] & _ & <-). by rewrite Ht.
  - assert (He : (infra ≫= fun i => inf_resolved i !! gw) = None).
    { unfold isResolved in Hr. destruct infra as [i|]; [|done]. simpl. apply bool_decide_eq_false in Hr. by apply eq_None_not_Some. }
    rewrite He. destruct (isBroken infra gw); [split; [done|by intros (? & ? & _)]|]. split.
    + intros [= <-]. exists sharedPartitionKey. split_and!; [done|left|done].
    + intros (key & [= <-] & _ & <-). by rewrite Hshared.
Qed.

Section tunnel_routes.
Context (http : routeResult HTTPRouteRule) (grpc : routeResult GRPCRouteRule) (infra : option infraGateways).
Context (shared : ResolvedConfig) (Hdisjoint : keys_disjoint infra).
Let planes := partitionRoutes http grpc infra.

(** The routes of the partitions on a tunnel, for either kind. *)
Lemma tunnel_members {R} (result : routeResult R) (routes_of : routePartition -> list (RouteObject R)) T r :
  (forall key, routes_of (expected_partition http grpc infra key) =
     List.filter (fun r => serves infra key (binding_of result r)) (res_accepted result)) ->
  r ∈ (on_tunnel shared T planes ≫= routes_of) <->
  r ∈ res_accepted result /\
  exists gw, gw ∈ bi_acceptedGateways (binding_of result r) /\ gateway_tunnel shared infra gw = Some T.
Proof.
  intros Hroutes. rewrite list_elem_of_bind. setoid_rewrite elem_of_on_tunnel. unfold planes.
  rewrite partitionRoutes_eq by done. setoid_rewrite list_elem_of_fmap. setoid_rewrite (gateway_tunnel_spec shared http grpc infra _ T Hdisjoint).
  split.
  - intros (p & Hr & (key & -> & Hk) & HT). rewrite Hroutes, elem_of_list_filter, serves_spec in Hr.
    destruct Hr as (? & gw & ? & ?). split; [done|]. exists gw. split; [done|]. by exists key.
  - intros (Hr & gw & Hgw & key & Hp & Hk & HT). exists (expected_partition http grpc infra key). split_and!; [|by exists key|done].
    rewrite Hroutes, elem_of_list_filter, serves_spec. split; [done|]. by exists gw.
Qed.
Lemma gathered_routes {R} (result : routeResult R) (routes_of : routePartition -> list (RouteObject R)) T :
  distinct_keys result ->
  (forall key, routes_of (expected_partition http grpc infra key) =
     List.filter (fun r => serves infra key (binding_of result r)) (res_accepted result)) ->
  let routes := (foldl add_unseen (∅, []) (on_tunnel shared T planes ≫= routes_of)).2 in
  NoDup (route_key <$> routes) /\
  forall r, r ∈ routes <-> r ∈ res_accepted result /\
    exists gw, gw ∈ bi_acceptedGateways (binding_of result r) /\ gateway_tunnel shared infra gw = Some T.
Proof.
  intros Hd Hroutes. destruct (gathered_spec (on_tunnel shared T planes ≫= routes_of)) as [Hn He].
  - intros r1 r2 [H1 _]%(tunnel_members result routes_of T r1 Hroutes) [H2 _]%(tunnel_members result routes_of T r2 Hroutes).
    by apply (distinct_keys_inj result).
  - cbn zeta. split; [done|]. intros r. rewrite He. by apply tunnel_members.
Qed.
End tunnel_routes.

(** C5: Tenant isolation at the tunnel: the Routes of a tunnel's document (and,
    with the theorem above, of every proxy behind it) are exactly the accepted
    Routes with an accepting Gateway carried by that tunnel, each once.  A
    Gateway with its own tunnel therefore never shows another tenant's Routes,
    and a broken Gateway brings its Routes onto no tunnel. *)
Theorem tunnel_isolation (http : routeResult HTTPRouteRule) (grpc : routeResult GRPCRouteRule)
    (infra : option infraGateways) (shared : ResolvedConfig) (g : tunnelGroup) :
  keys_disjoint infra -> distinct_keys http -> distinct_keys grpc ->
  g ∈ buildTunnelGroups shared (partitionRoutes http grpc infra) ->
  let T := rc_TunnelID (tg_resolved g) in
  let '(httpRoutes, grpcRoutes) := groupRoutes g in
  NoDup (route_key <$> httpRoutes) /\ NoDup (route_key <$> grpcRoutes) /\
  (forall r, r ∈ httpRoutes <-> r ∈ res_accepted http /\
     exists gw, gw ∈ bi_acceptedGateways (binding_of http r) /\ gateway_tunnel shared infra gw = Some T) /\
  (forall r, r ∈ grpcRoutes <-> r ∈ res_accepted grpc /\
     exists gw, gw ∈ bi_acceptedGateways (binding_of grpc r) /\ gateway_tunnel shared infra gw = Some T).
Proof.
  intros Hd Hh Hg Hin%elem_of_groups. destruct (group_of_Some _ _ _ _ Hin) as [Hps _]. cbn zeta.
  unfold groupRoutes. rewrite Hps, union_step_fold. cbn [fst snd empty_union].
  destruct (gathered_routes http grpc infra shared Hd http rp_HTTPRoutes (rc_TunnelID (tg_resolved g)) Hh) as [H1 H2]; [done|].
  destruct (gathered_routes http grpc infra shared Hd grpc rp_GRPCRoutes (rc_TunnelID (tg_resolved g)) Hg) as [H3 H4]; [done|].
  done.
Qed.

Lemma infra_keys_on shared http grpc infra T gw : keys_disjoint (Some infra) ->
  gw ∈ (rp_Key <$> List.filter is_infra (on_tunnel shared T (partitionRoutes http grpc (Some infra)))) <->
  exists e, inf_resolved infra !! gw = Some e /\ rc_TunnelID (pg_Resolved (ig_perGateway e)) = T.
Proof.
  intros Hd. rewrite list_elem_of_fmap. setoid_rewrite elem_of_list_filter. setoid_rewrite elem_of_on_tunnel.
  rewrite partitionRoutes_eq by done. setoid_rewrite list_elem_of_fmap. split.
  - intros (p & -> & ((key & -> & Hk) & HT) & Hi). unfold is_infra, tunnel, resolved_of, expected_partition in *. simpl in *.
    destruct (inf_resolved infra !! key) as [e|] eqn:E; [|done]. simpl in *. by exists e.
  - intros (e & He & HT). exists (expected_partition http grpc (Some infra) gw). split_and!; [done| | |].
    + exists gw. split; [done|]. right. apply elem_of_dedicated_keys. unfold isResolved. apply bool_decide_eq_true_2. eauto.
    + unfold tunnel, resolved_of, expected_partition. simpl. by rewrite He.
    + unfold is_infra, expected_partition. simpl. by rewrite He.
Qed.

(** Shared tunnels are reported exactly: two Gateways with dedicated planes
    whose connectors run the same tunnel (the case in which their isolation
    collapses) are named together in the collision of that tunnel, and nothing
    else is named together. *)
Theorem collisions_exact (http : routeResult HTTPRouteRule) (grpc : routeResult GRPCRouteRule) (infra : infraGateways)
    (shared : ResolvedConfig) (T gw1 gw2 : string) :
  keys_disjoint (Some infra) -> gw1 <> gw2 ->
  (exists c, c ∈ sharedInfraTunnelCollisions (buildTunnelGroups shared (partitionRoutes http grpc (Some infra))) /\
     tc_tunnelID c = T /\ gw1 ∈ tc_gateways c /\ gw2 ∈ tc_gateways c) <->
  (exists e1 e2, inf_resolved infra !! gw1 = Some e1 /\ inf_resolved infra !! gw2 = Some e2 /\
     rc_TunnelID (pg_Resolved (ig_perGateway e1)) = T /\ rc_TunnelID (pg_Resolved (ig_perGateway e2)) = T).
Proof.
  intros Hd Hne. set (ps := partitionRoutes http grpc (Some infra)).
  assert (Hkeys : forall gw, gw ∈ (rp_Key <$> List.filter is_infra (on_tunnel shared T ps)) <->
    exists e, inf_resolved infra !! gw = Some e /\ rc_TunnelID (pg_Resolved (ig_perGateway e)) = T) by (intros; by apply infra_keys_on).
  unfold sharedInfraTunnelCollisions. setoid_rewrite list_elem_of_omap. split.
  - intros (c & (g & Hg & Hc) & HT & H1 & H2). destruct (Nat.leb_spec 2 (length (rp_Key <$> List.filter is_infra (tg_partitions g)))); [|done].
    simplify_eq. cbn [tc_tunnelID tc_gateways] in *. apply elem_of_groups in Hg.
    destruct (group_of_Some _ _ _ _ Hg) as [Hps _]. unfold sort_keys in *. rewrite elem_of_stable_sort, Hps, Hkeys in H1, H2.
    destruct H1 as (e1 & ? & ?), H2 as (e2 & ? & ?). by exists e1, e2.
  - intros (e1 & e2 & H1 & H2 & T1 & T2).
    assert (I1 : gw1 ∈ (rp_Key <$> List.filter is_infra (on_tunnel shared T ps))) by (apply Hkeys; eauto).
    assert (I2 : gw2 ∈ (rp_Key <$> List.filter is_infra (on_tunnel shared T ps))) by (apply Hkeys; eauto).
    apply list_elem_of_fmap in I1 as Hp. destruct Hp as (p & _ & [Hp _]%elem_of_list_filter).
    apply elem_of_on_tunnel in Hp as [Hp HT]. destruct (group_for_partition shared ps p Hp) as (g & Hg & Hof).
    rewrite HT in Hof. destruct (group_of_Some _ _ _ _ Hof) as [Hps HTg].
    exists (mkTunnelCollision T (sort_keys (rp_Key <$> List.filter is_infra (tg_partitions g)))). split_and!; [|done|..].
    + exists g. split; [done|]. rewrite Hps, HTg. destruct (Nat.leb_spec 2 (length (rp_Key <$> List.filter is_infra (on_tunnel shared T ps)))) as [|Hl]; [done|].
      exfalso. destruct (rp_Key <$> List.filter is_infra (on_tunnel shared T ps)) as [|k [|k' l]]; simpl in Hl; [by apply elem_of_nil in I1| |lia].
      apply list_elem_of_singleton in I1, I2. congruence.
    + cbn. unfold sort_keys. by rewrite elem_of_stable_sort, Hps.
    + cbn. unfold sort_keys. by rewrite elem_of_stable_sort, Hps.
Qed.

(** ** An example: a tenant with its own tunnel, one that is broken, and a plain Gateway *)

Definition example_resolved (tunnelID : string) : ResolvedConfig := mkResolvedConfig "token" "account" tunnelID "cfg".
Definition example_plane (tunnelID : string) : infraGateway :=
  mkInfraGateway tenant_gateway
    (mkPerGatewayConfig (example_resolved tunnelID) "connector" ("tenant", "t") "push"
       (mkGatewayConfig "tenant" "cfg" (mkLocalSecretReference "t" "") None None None None None "")).
Definition example_infra : infraGateways :=
  mkInfraGateways {["tenant/edge" := example_plane "tenant-tunnel"; "twin/edge" := example_plane "tenant-tunnel"]} {["broken/edge"]} ∅.
Definition example_result {R} : routeResult R :=
  mkRouteResult [edge_route "own" 1 []; edge_route "both" 2 []; edge_route "lost" 3 []] []
    {["prod/own" := mkRouteBindingInfo ∅ {["tenant/edge"]} ∅ ∅;
      "prod/both" := mkRouteBindingInfo ∅ {["tenant/edge"; "prod/edge"]} ∅ ∅;
      "prod/lost" := mkRouteBindingInfo ∅ {["broken/edge"]} ∅ ∅]}.
Definition example_partitions : list routePartition := partitionRoutes example_result example_result (Some example_infra).

Lemma partition_isolation_witness :
  rp_Key <$> example_partitions = ["shared"; "tenant/edge"; "twin/edge"] /\
  (fun p => route_key <$> rp_HTTPRoutes p) <$> example_partitions = [["prod/both"]; ["prod/own"; "prod/both"]; []] /\
  NoDup (rp_Key <$> example_partitions).
Proof.
  split; [vm_compute; reflexivity|]. split; [vm_compute; reflexivity|].
  apply (partition_isolation example_result example_result (Some example_infra)). vm_compute. reflexivity.
Defined.
Lemma tunnel_isolation_witness : exists g,
  g ∈ buildTunnelGroups (example_resolved "class-tunnel") example_partitions /\
  rc_TunnelID (tg_resolved g) = "tenant-tunnel" /\
  route_key <$> (groupRoutes g).1 = ["prod/own"; "prod/both"] /\ NoDup (route_key <$> (groupRoutes g).1).
Proof.
  eexists. split; [apply (list_elem_of_lookup_2 _ 1); vm_compute; reflexivity|].
  split; [vm_compute; reflexivity|]. split; [vm_compute; reflexivity|].
  refine (proj1 (tunnel_isolation example_result example_result (Some example_infra) (example_resolved "class-tunnel") _ _ _ _ _)).
  - vm_compute. reflexivity.
  - apply (bool_decide_unpack _). vm_compute. exact I.
  - apply (bool_decide_unpack _). vm_compute. exact I.
  - apply (list_elem_of_lookup_2 _ 1). vm_compute. reflexivity.
Defined.
Lemma document_matches_data_plane_witness : exists pushed g,
  unionPartitionRoutes example_partitions "class-tunnel" !! 2 = Some pushed /\
  rp_Key pushed = "twin/edge" /\ g ∈ buildTunnelGroups (example_resolved "class-tunnel") example_partitions /\
  groupRoutes g = (rp_HTTPRoutes pushed, rp_GRPCRoutes pushed).
Proof.
  destruct (unionPartitionRoutes example_partitions "class-tunnel" !! 2) as [pushed|] eqn:E; [|vm_compute in E; discriminate E].
  destruct (document_matches_data_plane (example_resolved "class-tunnel") example_partitions 2 pushed E)
    as (_ & p & g & Hp & Hk & _ & Hg & _ & Hr).
  exists pushed, g. split; [reflexivity|]. split; [|by split]. rewrite Hk. vm_compute in Hp. by injection Hp as <-.
Defined.
Lemma collisions_exact_witness : exists c,
  c ∈ sharedInfraTunnelCollisions (buildTunnelGroups (example_resolved "class-tunnel") example_partitions) /\
  tc_tunnelID c = "tenant-tunnel" /\ "tenant/edge" ∈ tc_gateways c /\ "twin/edge" ∈ tc_gateways c.
Proof.
  apply (collisions_exact example_result example_result example_infra (example_resolved "class-tunnel") "tenant-tunnel" "tenant/edge" "twin/edge").
  - vm_compute. reflexivity.
  - discriminate.
  - exists (example_plane "tenant-tunnel"), (example_plane "tenant-tunnel"). split_and!; vm_compute; reflexivity.
Defined.

Definition tenant_client : KubeClient := {|
  kube_Gateway _ _ := None; kube_ListenerSet _ _ := None;
  kube_Gateways := Some [tenant_gateway; edge_gateway "a.example.com"]; kube_ListenerSets := Some [];
  kube_GatewayClasses := Some [mkGatewayClass "class" "us" None] |}.
Lemma gateway_plane_exact_witness : exists infra,
  @resolveInfraGateways tenant_client (tenant_reader "a") tenant_decoder constant_digest "us" "system" = Ok infra /\
  plane_of (Some infra) "tenant/edge" = Some "tenant/edge" /\ plane_of (Some infra) "prod/edge" = Some sharedPartitionKey.
Proof.
  destruct (@resolveInfraGateways tenant_client (tenant_reader "a") tenant_decoder constant_digest "us" "system") as [infra|e] eqn:E;
    [|vm_compute in E; discriminate E].
  exists infra. split; [reflexivity|].
  assert (Hnd : NoDup (gateway_key <$> [tenant_gateway; edge_gateway "a.example.com"]))
    by (apply (bool_decide_unpack _); vm_compute; exact I).
  assert (Hnames : @managedClassNames tenant_client "us" = Some {["class"]}) by (vm_compute; reflexivity).
  pose proof (fun g Hin => @gateway_plane_exact tenant_client (tenant_reader "a") tenant_decoder constant_digest "us" "system" infra
    {["class"]} [tenant_gateway; edge_gateway "a.example.com"] g Hnames eq_refl Hnd Hin E) as H.
  split.
  - refine (eq_trans (H tenant_gateway _) _); [left|vm_compute; reflexivity].
  - refine (eq_trans (H (edge_gateway "a.example.com") _) _); [right; left|vm_compute; reflexivity].
Defined.
