(* ===== verification/SyncAll.v ===== *)
(** * One sync of all routes

    [controller/route_syncer.go]: [SyncAllRoutes] from the resolution of the
    class configuration to the result handed to the status writer, with the
    reconciliation of every tunnel document on the way, and the bookkeeping of
    the pushes that follow.  The Cloudflare API is a parameter; a sync visits
    each tunnel once, so its answers are functions of the request, and the
    documents written are the log of the run. *)
From Stdlib Require Import Ascii.
From stdpp Require Import sorting.
From stdpp Require Import base sets gmap strings list.
From S2P Require Import Prelude GoStrings GoHttp ProxyConfig Shadow RouterState RouteBinding ListenerMerge ReferenceGrant Ingress IngressBuild Converter HostnameOwnership RenderNames ConfigResolver ListenerView ParentBinding RouteSync RoutePartition.

(** ** The shared configuration *)

Definition parametersRefEqual (left right : option ParametersReference) : bool :=
  match left, right with
  | None, None => true
  | Some l, Some r => bool_decide (pr_Group l = pr_Group r) && bool_decide (pr_Kind l = pr_Kind r) && bool_decide (pr_Name l = pr_Name r)
  | _, _ => false
  end.
Definition hasConflictingParametersRef (classes : list GatewayClass) : bool :=
  match classes with
  | [] => false
  | c :: rest => existsb (fun c' => negb (parametersRefEqual (gc_ParametersRef c) (gc_ParametersRef c'))) rest
  end.
Definition class_less (a b : GatewayClass) : bool := str_ltb (gc_Name a) (gc_Name b).

Inductive RunError :=
| errListClassesForConfig | errNoGatewayClass | errConflictingParametersRef (names : list string)
| errResolveClass (name : string) (e : ConfigError)
| errAccount (e : ConfigError)
| errListHTTPRoutes | errListGRPCRoutes
| errInfra (e : InfraError)
| errAllGroups (errs : list GroupError).

Definition resolveConfigForController {kube : KubeClient} {reader : ConfigReader} (controllerName defaultNamespace : string)
    : res RunError ResolvedConfig :=
  match listGatewayClassesForController controllerName with
  | None => Err errListClassesForConfig
  | Some classes =>
      match stable_sort class_less classes with
      | [] => Err errNoGatewayClass
      | first :: rest =>
          if (1 <? length (first :: rest)) && hasConflictingParametersRef (first :: rest)
          then Err (errConflictingParametersRef (gc_Name <$> first :: rest))
          else map_err (errResolveClass (gc_Name first)) (ResolveFromGatewayClass defaultNamespace first)
      end
  end.

(** ** One tunnel document *)

Class CloudflareAPI := {
  accounts_List : string -> option (list string);                              (* by API token *)
  configurations_Get : string -> string -> string -> res string (list GetRule);   (* token, account, tunnel *)
  configurations_Update : string -> string -> string -> list UpdateRule -> option string;   (* the error, if any *)
}.
(** A document written to the API. *)
Record Write := mkWrite { w_token : string; w_account : string; w_tunnel : string; w_rules : list UpdateRule }.

(** The routes as the document builders read them. *)
Definition http_projection (r : RouteObject HTTPRouteRule) : HTTPRoute :=
  mkHTTPRoute (ro_Namespace r) (ro_Name r) (ro_Hostnames r)
    ((fun rule => mkHTTPRule (length (hrule_Filters rule)) (hb_Ref <$> hrule_BackendRefs rule)
                    (hmatch_Path <$> hrule_Matches rule)) <$> ro_Rules r).
Definition grpc_projection (r : RouteObject GRPCRouteRule) : GRPCRoute :=
  mkGRPCRoute (ro_Namespace r) (ro_Name r) (ro_Hostnames r)
    ((fun rule => mkGRPCRule (length (grule_Filters rule)) (gbr_Ref <$> grule_BackendRefs rule)
                    ((fun m => (fun gm => mkGRPCMethodMatch (gmeth_Service gm) (gmeth_Method gm)) <$> gmatch_Method m)
                       <$> grule_Matches rule)) <$> ro_Rules r).

Record tunnelGroupResult := mkTunnelGroupResult {
  tr_httpFailedRefs : list BackendRefError;
  tr_grpcFailedRefs : list BackendRefError;
  tr_ruleCount : nat;
  tr_written : option Write;
  tr_err : option GroupError;
}.

Section sync.
Context {cluster : Cluster} {kube : KubeClient} {views : ListenerViews}.
Context {reader : ConfigReader} {decoder : TokenDecoder} {hash : Sha256} {uuids : UuidParser}.
Context {parser : UrlParser} {sorter : EntrySort} {api : CloudflareAPI}.
Context (controllerName defaultNamespace clusterDomain : string) (ownership : option Policy).
Context (client : option Client) (validator : option GrantClient).

Definition desired_rules (group : tunnelGroup) : list UpdateRule * list BackendRefError * list BackendRefError :=
  let '(httpRoutes, grpcRoutes) := groupRoutes group in
  let '(httpRules, httpFailed) := Build client validator clusterDomain (http_projection <$> httpRoutes) in
  let '(grpcRules, grpcFailed) := Build client validator clusterDomain (grpc_projection <$> grpcRoutes) in
  (mergeAndSortRules httpRules grpcRules, httpFailed, grpcFailed).

(** The account-ID cache of the resolver is threaded through. *)
Definition syncTunnelGroup (group : tunnelGroup) (cache : gmap string string) : tunnelGroupResult * gmap string string :=
  let '(desiredRules, httpFailed, grpcFailed) := desired_rules group in
  let resolved := tg_resolved group in
  match ResolveAccountID accounts_List resolved cache with
  | (Err e, cache) => (mkTunnelGroupResult httpFailed grpcFailed 0 None (Some (errResolveAccount (rc_TunnelID resolved) e)), cache)
  | (Ok accountID, cache) =>
      (match configurations_Get (rc_APIToken resolved) accountID (rc_TunnelID resolved) with
       | Err e => mkTunnelGroupResult httpFailed grpcFailed 0 None (Some (errGetConfiguration e))
       | Ok current =>
           let finalRules := final_rules current desiredRules in
           let ruleCount := length finalRules in
           match sync_document current desiredRules with
           | limitExceeded count =>
               mkTunnelGroupResult httpFailed grpcFailed ruleCount None (Some (errRulesLimit (rc_TunnelID resolved) count))
           | unchanged => mkTunnelGroupResult httpFailed grpcFailed ruleCount None None
           | write rules =>
               match configurations_Update (rc_APIToken resolved) accountID (rc_TunnelID resolved) rules with
               | Some e => mkTunnelGroupResult httpFailed grpcFailed ruleCount None (Some (errUpdateConfiguration e))
               | None =>
                   mkTunnelGroupResult httpFailed grpcFailed ruleCount
                     (Some (mkWrite (rc_APIToken resolved) accountID (rc_TunnelID resolved) rules)) None
               end
           end
       end, cache)
  end.

Record tunnelGroupsOutcome := mkTunnelGroupsOutcome {
  oc_httpFailedRefs : list BackendRefError;
  oc_grpcFailedRefs : list BackendRefError;
  oc_totalRules : nat;
  oc_writes : list Write;
  oc_groupErrs : list GroupError;
  oc_failedPartitions : gmap string GroupError;
}.
Definition mark_failed (e : GroupError) (ps : list routePartition) (m : gmap string GroupError) : gmap string GroupError :=
  foldl (fun m p => <[rp_Key p := e]> m) m ps.
Definition outcome_step (st : tunnelGroupsOutcome * gmap string string) (group : tunnelGroup)
    : tunnelGroupsOutcome * gmap string string :=
  let '(o, cache) := st in
  let '(result, cache) := syncTunnelGroup group cache in
  let o := mkTunnelGroupsOutcome (oc_httpFailedRefs o ++ tr_httpFailedRefs result) (oc_grpcFailedRefs o ++ tr_grpcFailedRefs result)
             (oc_totalRules o + tr_ruleCount result) (oc_writes o ++ option_list (tr_written result))
             (oc_groupErrs o) (oc_failedPartitions o) in
  (match tr_err result with
   | None => o
   | Some e =>
       mkTunnelGroupsOutcome (oc_httpFailedRefs o) (oc_grpcFailedRefs o) (oc_totalRules o) (oc_writes o)
         (oc_groupErrs o ++ [e]) (mark_failed e (tg_partitions group) (oc_failedPartitions o))
   end, cache).
Definition syncTunnelGroups (groups : list tunnelGroup) (cache : gmap string string) : tunnelGroupsOutcome * gmap string string :=
  foldl outcome_step (mkTunnelGroupsOutcome [] [] 0 [] [] ∅, cache) groups.

(** ** Attribution of failures to parents *)

Definition gatewaySyncError (gatewayKey : string) (failedPartitions : gmap string GroupError) (infra : option infraGateways)
    : option SyncError :=
  if isBroken infra gatewayKey then Some errBrokenDataPlane
  else
    let partitionKey := if isResolved infra gatewayKey then gatewayKey else sharedPartitionKey in
    errTunnelSync <$> failedPartitions !! partitionKey.
(** One binding: the errors of the Gateways the route is accepted on. *)
Definition binding_errors (failedPartitions : gmap string GroupError) (infra : option infraGateways) (binding : routeBindingInfo)
    : gmap string SyncError :=
  set_fold (fun gw errs =>
    match gatewaySyncError gw failedPartitions infra with Some e => <[gw := e]> errs | None => errs end)
    ∅ (bi_acceptedGateways binding).
Definition inject_binding (failedPartitions : gmap string GroupError) (infra : option infraGateways) (binding : routeBindingInfo)
    : routeBindingInfo :=
  let errs := binding_errors failedPartitions infra binding in
  if bool_decide (errs = ∅) then binding
  else mkRouteBindingInfo (bi_bindingResults binding) (bi_acceptedGateways binding) (bi_parentGateways binding) errs.
Definition injectPartitionSyncErrors (failedPartitions : gmap string GroupError) (infra : option infraGateways)
    (bindings : gmap string routeBindingInfo) : gmap string routeBindingInfo :=
  inject_binding failedPartitions infra <$> bindings.

(** ** Diagnostics on the routes of a partition *)

Definition routeReasonProxyConfigPushFailed : string := "ProxyConfigPushFailed".
Definition routeReasonTunnelShared : string := "TunnelSharedAcrossNamespaces".
Definition partitionRouteDiagnostics (p : routePartition) (target : DiagnosticTarget) (reason message : string)
    : list RouteDiagnostic :=
  ((fun r => mkRouteDiagnostic (ro_Namespace r) (ro_Name r) 0 target reason message false "") <$> rp_HTTPRoutes p) ++
  ((fun r => mkRouteDiagnostic (ro_Namespace r) (ro_Name r) 0 target reason message false "") <$> rp_GRPCRoutes p).
Definition push_failure_message (key : string) : string :=
  "the controller could not push this route's config to its data plane (partition " +:+ quoted key +:+ ") after " +:+
  "sustained retries; matching requests are served 502 until the push recovers — check the " +:+
  "proxy pods' health and the config-API NetworkPolicy. This route remains Accepted.".
Definition proxyPushFailureDiagnostics (p : routePartition) : list RouteDiagnostic :=
  partitionRouteDiagnostics p DiagnosticProxyConfigPush routeReasonProxyConfigPushFailed (push_failure_message (rp_Key p)).
Definition tunnel_shared_message (tunnelID : string) (others : list string) : string :=
  "this route's Gateway shares Cloudflare Tunnel " +:+ quoted tunnelID +:+ " with " +:+ Join others ", " +:+
  "; the edge load-balances the tunnel's requests across all of them, so per-Gateway isolation is NOT guaranteed — " +:+
  "give each isolated Gateway its own tunnel. This route remains Accepted.".
(** [byKey] keeps the last partition of a key. *)
Definition partition_by_key (ps : list routePartition) (key : string) : option routePartition :=
  List.find (fun p => bool_decide (rp_Key p = key)) (reverse ps).
Definition tunnelSharedDiagnostics (collisions : list tunnelCollision) (ps : list routePartition) : list RouteDiagnostic :=
  collisions ≫= fun collision =>
    tc_gateways collision ≫= fun key =>
      match partition_by_key ps key with
      | None => []
      | Some p =>
          let others := List.filter (fun other => negb (bool_decide (other = key))) (tc_gateways collision) in
          partitionRouteDiagnostics p DiagnosticTunnelShared routeReasonTunnelShared
            (tunnel_shared_message (tc_tunnelID collision) others)
      end.

(** ** The sync *)

(** [ctrl.Result]: the requeue delay in milliseconds (zero is none) and the priority. *)
Record Result := mkResult { RequeueAfter : Z; Priority : option Z }.
Definition no_requeue : Result := mkResult 0 None.
Definition apiErrorRequeueDelay : Z := 15000.
Definition priorityRoute : Z := 50.
Definition retry_later : Result := mkResult apiErrorRequeueDelay (Some priorityRoute).

Record SyncResult := mkSyncResult {
  sr_HTTP : routeResult HTTPRouteRule;   (* HTTPRoutes, RejectedHTTPRoutes, HTTPRouteBindings *)
  sr_GRPC : routeResult GRPCRouteRule;
  sr_HTTPFailedRefs : list BackendRefError;
  sr_GRPCFailedRefs : list BackendRefError;
  sr_Partitions : list routePartition;
  sr_SharedTunnelID : string;
  sr_TransientBrokenKeys : list string;
  sr_CollisionDiagnostics : list RouteDiagnostic;
}.
Definition with_bindings {R} (result : routeResult R) (bindings : gmap string routeBindingInfo) : routeResult R :=
  mkRouteResult (res_accepted result) (res_rejected result) bindings.
Definition no_routes {R} : routeResult R := mkRouteResult [] [] ∅.

(** The lists of routes the API server returns; [None] is a failed list. *)
Context (httpList : option (list (RouteObject HTTPRouteRule))) (grpcList : option (list (RouteObject GRPCRouteRule))).

Definition buildResultForError : SyncResult :=
  mkSyncResult (default no_routes (getRelevantHTTPRoutes controllerName ownership <$> httpList))
    (default no_routes (getRelevantGRPCRoutes controllerName ownership <$> grpcList)) [] [] [] "" [] [].
Definition buildSyncResult (http : routeResult HTTPRouteRule) (grpc : routeResult GRPCRouteRule) (o : tunnelGroupsOutcome)
    (ps : list routePartition) (tunnelID : string) (transient : list string) (diagnostics : list RouteDiagnostic) : SyncResult :=
  mkSyncResult http grpc (oc_httpFailedRefs o) (oc_grpcFailedRefs o) ps tunnelID transient diagnostics.

Record SyncRun := mkSyncRun {
  run_result : Result; run_sync : option SyncResult; run_err : option RunError;
  run_writes : list Write; run_cache : gmap string string }.

(** The sync once the shared configuration and the routes are known. *)
Definition sync_routes (shared : ResolvedConfig) (http : routeResult HTTPRouteRule) (grpc : routeResult GRPCRouteRule)
    (cache : gmap string string) : SyncRun :=
  let '(http, grpc) := resolveCrossTypeConflicts http grpc in
  match resolveInfraGateways controllerName defaultNamespace with
  | Err e => mkSyncRun retry_later (Some buildResultForError) (Some (errInfra e)) [] cache
  | Ok infra =>
      let ps := partitionRoutes http grpc (Some infra) in
      let groups := buildTunnelGroups shared ps in
      let collisionDiagnostics := tunnelSharedDiagnostics (sharedInfraTunnelCollisions groups) ps in
      let '(outcome, cache) := syncTunnelGroups groups cache in
      let failed := oc_failedPartitions outcome in
      let http := with_bindings http (injectPartitionSyncErrors failed (Some infra) (res_bindings http)) in
      let grpc := with_bindings grpc (injectPartitionSyncErrors failed (Some infra) (res_bindings grpc)) in
      let syncResult := buildSyncResult http grpc outcome ps (rc_TunnelID shared) (transientKeys (Some infra)) collisionDiagnostics in
      let failures := length (oc_groupErrs outcome) in
      if (failures =? length groups) && (0 <? length groups)
      then mkSyncRun retry_later (Some syncResult) (Some (errAllGroups (oc_groupErrs outcome))) (oc_writes outcome) cache
      else if 0 <? failures then mkSyncRun retry_later (Some syncResult) None (oc_writes outcome) cache
      else if 0 <? length (sr_TransientBrokenKeys syncResult)
      then mkSyncRun retry_later (Some syncResult) None (oc_writes outcome) cache
      else mkSyncRun no_requeue (Some syncResult) None (oc_writes outcome) cache
  end.
Definition with_tunnel (r : ResolvedConfig) (tunnelID : string) : ResolvedConfig :=
  mkResolvedConfig (rc_APIToken r) (rc_AccountID r) tunnelID (rc_ConfigName r).
Definition with_account (r : ResolvedConfig) (accountID : string) : ResolvedConfig :=
  mkResolvedConfig (rc_APIToken r) accountID (rc_TunnelID r) (rc_ConfigName r).
Definition SyncAllRoutes (cache : gmap string string) : SyncRun :=
  match resolveConfigForController controllerName defaultNamespace with
  | Err e => mkSyncRun retry_later (Some buildResultForError) (Some e) [] cache
  | Ok resolved =>
      let resolved := with_tunnel resolved (canonicalTunnelID (rc_TunnelID resolved)) in
      match ResolveAccountID accounts_List resolved cache with
      | (Err e, cache) => mkSyncRun retry_later (Some buildResultForError) (Some (errAccount e)) [] cache
      | (Ok accountID, cache) =>
          let resolved := with_account resolved accountID in
          match httpList with
          | None => mkSyncRun no_requeue None (Some errListHTTPRoutes) [] cache
          | Some httpRoutes =>
              let http := getRelevantHTTPRoutes controllerName ownership httpRoutes in
              match grpcList with
              | None => mkSyncRun no_requeue None (Some errListGRPCRoutes) [] cache
              | Some grpcRoutes =>
                  sync_routes resolved http (getRelevantGRPCRoutes controllerName ownership grpcRoutes) cache
              end
          end
      end
  end.
End sync.

(** ** Pushing the partitions *)

Definition pushFailureSurfaceThreshold : Z := 3.
Definition lostRacePushRequeueDelay : Z := 2000.
Definition withLostRacePushRequeue (result : Result) (lostRace : bool) : Result :=
  if negb lostRace then result
  else if ((RequeueAfter result =? 0) || (lostRacePushRequeueDelay <? RequeueAfter result))%Z
  then mkResult lostRacePushRequeueDelay (Some priorityRoute)
  else result.

(** What a push returned, with the failure streak of its partition after it;
    the push itself is the proxy syncer's. *)
Inductive PushError := ErrLostConfigPushRace | errPush (what : string).
Record partitionPushResult := mkPushResult { ppr_diags : list RouteDiagnostic; ppr_err : option PushError; ppr_streak : Z }.
Record pushSummary := mkPushSummary {
  ps_diagnostics : list RouteDiagnostic; ps_lostRace : bool; ps_keep : gset string; ps_pushErrs : list (string * PushError) }.
Definition push_step (s : pushSummary) (entry : routePartition * routePartition * partitionPushResult) : pushSummary :=
  let '(partition, original, result) := entry in
  let keep := {[rp_Key partition]} ∪ ps_keep s in
  let diagnostics := ps_diagnostics s ++ ppr_diags result in
  match ppr_err result with
  | None => mkPushSummary diagnostics (ps_lostRace s) keep (ps_pushErrs s)
  | Some e =>
      mkPushSummary
        (diagnostics ++ if (pushFailureSurfaceThreshold <=? ppr_streak result)%Z then proxyPushFailureDiagnostics original else [])
        (match e with ErrLostConfigPushRace => true | _ => ps_lostRace s end) keep (ps_pushErrs s ++ [(rp_Key partition, e)])
  end.
(** [None]: nothing was pushed and nothing is evicted.  [push] delivers one
    partition to its own endpoints. *)
Definition pushPartitionConfigs (push : routePartition -> partitionPushResult) (syncResult : SyncResult) : option pushSummary :=
  let originals := sr_Partitions syncResult in
  if length originals =? 0 then None
  else
    let partitions := unionPartitionRoutes originals (sr_SharedTunnelID syncResult) in
    let results := push <$> partitions in
    Some (foldl push_step (mkPushSummary [] false (list_to_set (sr_TransientBrokenKeys syncResult)) [])
            (zip (zip partitions originals) results)).

(** ** The reconcile around a sync *)

Inductive ReconcileError := errSync (e : RunError) | errStatusUpdate (what : string).
(** [push] is [None] when nothing is to be pushed (no proxy syncer, no endpoints,
    or a reconciler that does not push); [status] writes the statuses of a result
    with the collected diagnostics and the sync error, and may fail. *)
Definition syncAndUpdateStatusCommon (push : option (routePartition -> partitionPushResult))
    (status : SyncResult -> list RouteDiagnostic -> option RunError -> option string) (run : SyncRun)
    : Result * option ReconcileError :=
  let '(diagnostics, result) :=
    match push, run_sync run with
    | Some push, Some syncResult =>
        match pushPartitionConfigs push syncResult with
        | Some summary => (ps_diagnostics summary, withLostRacePushRequeue (run_result run) (ps_lostRace summary))
        | None => ([], withLostRacePushRequeue (run_result run) false)
        end
    | _, _ => ([], run_result run)
    end in
  let statusUpdateErr :=
    match run_sync run with
    | Some syncResult => status syncResult (diagnostics ++ sr_CollisionDiagnostics syncResult) (run_err run)
    | None => None
    end in
  match run_err run with
  | Some syncErr => if (0 <? RequeueAfter result)%Z then (result, None) else (result, Some (errSync syncErr))
  | None =>
      match statusUpdateErr with
      | Some e => (no_requeue, Some (errStatusUpdate e))
      | None => (result, None)
      end
  end.

(** ** The outcome of the groups *)

Section outcome.
Context {parser : UrlParser} {sorter : EntrySort} {api : CloudflareAPI}.
Context (clusterDomain : string) (client : option Client) (validator : option GrantClient).
Notation sync_group := (syncTunnelGroup clusterDomain client validator).

(** The groups in turn, with what each returned. *)
Fixpoint group_runs (groups : list tunnelGroup) (cache : gmap string string) : list (tunnelGroup * tunnelGroupResult) :=
  match groups with
  | [] => []
  | g :: groups' => (g, (sync_group g cache).1) :: group_runs groups' (sync_group g cache).2
  end.
Lemma group_runs_groups groups cache : (group_runs groups cache).*1 = groups.
Proof. revert cache. induction groups as [|g groups IH]; intros cache; [done|]. cbn. f_equal. apply IH. Qed.

Definition mark_runs (runs : list (tunnelGroup * tunnelGroupResult)) (m : gmap string GroupError) : gmap string GroupError :=
  foldl (fun m run => match tr_err run.2 with Some e => mark_failed e (tg_partitions run.1) m | None => m end) m runs.
Lemma syncTunnelGroups_runs groups cache :
  let o := (syncTunnelGroups clusterDomain client validator groups cache).1 in
  let runs := group_runs groups cache in
  oc_writes o = omap (fun run => tr_written run.2) runs /\
  oc_groupErrs o = omap (fun run => tr_err run.2) runs /\
  oc_failedPartitions o = mark_runs runs ∅.
Proof.
  unfold syncTunnelGroups. cbn zeta.
  assert (Hgen : forall o, let o' := (foldl (outcome_step clusterDomain client validator) (o, cache) groups).1 in
    let runs := group_runs groups cache in
    oc_writes o' = oc_writes o ++ omap (fun run => tr_written run.2) runs /\
    oc_groupErrs o' = oc_groupErrs o ++ omap (fun run => tr_err run.2) runs /\
    oc_failedPartitions o' = mark_runs runs (oc_failedPartitions o)); [|apply (Hgen (mkTunnelGroupsOutcome [] [] 0 [] [] ∅))].
  revert cache. induction groups as [|g groups IH]; intros cache o; cbn zeta.
  { cbn. by rewrite !app_nil_r. }
  cbn [foldl group_runs]. unfold outcome_step at 2 4 6. destruct (sync_group g cache) as [result cache'] eqn:E.
  match goal with |- context [foldl _ (?o', cache') groups] => destruct (IH cache' o') as (H1 & H2 & H3) end.
  rewrite H1, H2, H3. cbn [omap list_omap mark_runs foldl fst snd]. destruct (tr_err result), (tr_written result);
    cbn [oc_writes oc_groupErrs oc_failedPartitions option_list]; rewrite ?app_nil_r, <-?app_assoc; done.
Qed.

Lemma mark_failed_lookup e ps m key :
  mark_failed e ps m !! key = (if bool_decide (key ∈ (rp_Key <$> ps)) then Some e else m !! key).
Proof.
  unfold mark_failed. revert m. induction ps as [|p ps IH]; intros m; cbn [foldl].
  { by rewrite bool_decide_eq_false_2 by (intros ?%elem_of_nil; done). }
  rewrite IH. cbn [fmap list_fmap]. destruct (decide (key ∈ (rp_Key <$> ps))) as [Hi|Hi].
  - by rewrite !bool_decide_eq_true_2 by set_solver.
  - rewrite (bool_decide_eq_false_2 (_ ∈ _ <$> _)) by done. destruct (decide (key = rp_Key p)) as [->|Hne].
    + by rewrite lookup_insert_eq, bool_decide_eq_true_2 by set_solver.
    + rewrite lookup_insert_ne, bool_decide_eq_false_2 by set_solver. done.
Qed.
(** A partition's error is its group's, when no two groups share a partition key. *)
Lemma mark_runs_lookup runs m key :
  (forall i j ri rj, runs !! i = Some ri -> runs !! j = Some rj ->
     key ∈ (rp_Key <$> tg_partitions ri.1) -> key ∈ (rp_Key <$> tg_partitions rj.1) -> i = j) ->
  (forall run, run ∈ runs -> key ∈ (rp_Key <$> tg_partitions run.1) -> mark_runs runs m !! key = tr_err run.2 ∪ m !! key) /\
  ((forall run, run ∈ runs -> key ∉ (rp_Key <$> tg_partitions run.1)) -> mark_runs runs m !! key = m !! key).
Proof.
  revert m. induction runs as [|run runs IH]; intros m Huniq; unfold mark_runs; cbn [foldl].
  { split; [by intros run ?%elem_of_nil|done]. }
  set (m' := match tr_err run.2 with Some e => _ | None => m end). fold (mark_runs runs m').
  destruct (IH m') as [IH1 IH2].
  { intros i j ri rj Hi Hj Ki Kj. specialize (Huniq (S i) (S j) ri rj Hi Hj Ki Kj). lia. }
  assert (Hm' : m' !! key = if bool_decide (key ∈ (rp_Key <$> tg_partitions run.1)) then tr_err run.2 ∪ m !! key else m !! key).
  { subst m'. destruct (tr_err run.2); [|rewrite (left_id_L None _); by destruct (bool_decide _)].
    rewrite mark_failed_lookup. destruct (bool_decide _); [|done]. by destruct (m !! key). }
  split.
  - intros r [->|Hin]%elem_of_cons Hk.
    + rewrite IH2; [by rewrite Hm', bool_decide_eq_true_2|]. intros r' [j Hj]%list_elem_of_lookup Hk'.
      by specialize (Huniq 0 (S j) run r' eq_refl Hj Hk Hk').
    + rewrite (IH1 r Hin Hk), Hm'. case_bool_decide as Hr; [|done]. apply list_elem_of_lookup in Hin as [j Hj].
      by specialize (Huniq 0 (S j) run r eq_refl Hj Hr Hk).
  - intros Hno. rewrite IH2; [|intros r Hr; apply Hno; by right]. rewrite Hm', bool_decide_eq_false_2; [done|]. apply Hno. left.
Qed.
End outcome.

Lemma binding_errors_lookup failed infra b gw :
  binding_errors failed infra b !! gw =
  if bool_decide (gw ∈ bi_acceptedGateways b) then gatewaySyncError gw failed infra else None.
Proof.
  assert (Hs : forall e, binding_errors failed infra b !! gw = Some e <->
    gw ∈ bi_acceptedGateways b /\ gatewaySyncError gw failed infra = Some e).
  { unfold binding_errors. intros e. revert gw.
    apply (set_fold_ind_L (fun (errs : gmap string SyncError) (X : gset string) =>
      forall gw, errs !! gw = Some e <-> gw ∈ X /\ gatewaySyncError gw failed infra = Some e)).
    - intros gw. rewrite lookup_empty. split; [done|]. by intros [?%elem_of_empty _].
    - intros x Y errs Hx IH gw. rewrite elem_of_union, elem_of_singleton. destruct (decide (gw = x)) as [->|Hne].
      + destruct (gatewaySyncError x failed infra) eqn:E; [rewrite lookup_insert_eq|rewrite IH, E]; naive_solver.
      + assert (gw = x \/ gw ∈ Y <-> gw ∈ Y) as -> by tauto.
        destruct (gatewaySyncError x failed infra); [|apply IH]. rewrite lookup_insert_ne by done. apply IH. }
  case_bool_decide as Hin; [|apply eq_None_not_Some; intros [e [? _]%Hs]; done].
  apply option_eq. intros e. rewrite Hs. tauto.
Qed.
Lemma inject_binding_errors failed infra b gw : bi_syncErrByGateway b = ∅ ->
  bi_syncErrByGateway (inject_binding failed infra b) !! gw =
  if bool_decide (gw ∈ bi_acceptedGateways b) then gatewaySyncError gw failed infra else None.
Proof.
  intros Hb. unfold inject_binding. rewrite <-binding_errors_lookup. case_bool_decide as He; [|done]. by rewrite Hb, He.
Qed.

Section attribution.
Context {parser : UrlParser} {sorter : EntrySort} {api : CloudflareAPI}.
Context (clusterDomain : string) (client : option Client) (validator : option GrantClient).
Context (http : routeResult HTTPRouteRule) (grpc : routeResult GRPCRouteRule) (infra : infraGateways) (shared : ResolvedConfig).
Context (Hdisjoint : keys_disjoint (Some infra)).
Let ps := partitionRoutes http grpc (Some infra).
Let groups := buildTunnelGroups shared ps.

(** A plane's key names one partition, in one group. *)
Lemma group_has_key g key : g ∈ groups ->
  key ∈ (rp_Key <$> tg_partitions g) <->
  key ∈ sharedPartitionKey :: dedicated_keys (Some infra) /\
  tunnel shared (expected_partition http grpc (Some infra) key) = rc_TunnelID (tg_resolved g).
Proof.
  intros Hg%elem_of_groups. destruct (group_of_Some _ _ _ _ Hg) as [-> _]. rewrite list_elem_of_fmap.
  setoid_rewrite elem_of_on_tunnel. unfold ps. rewrite partitionRoutes_eq by done. setoid_rewrite list_elem_of_fmap. split.
  - intros (p & -> & (k & -> & Hk) & HT). done.
  - intros [Hk HT]. exists (expected_partition http grpc (Some infra) key). split; [done|]. split; [by exists key|done].
Qed.
Lemma runs_unique cache key : forall i j ri rj,
  group_runs clusterDomain client validator groups cache !! i = Some ri ->
  group_runs clusterDomain client validator groups cache !! j = Some rj ->
  key ∈ (rp_Key <$> tg_partitions ri.1) -> key ∈ (rp_Key <$> tg_partitions rj.1) -> i = j.
Proof.
  intros i j ri rj Hi Hj Ki Kj.
  assert (Hg : forall i r, group_runs clusterDomain client validator groups cache !! i = Some r -> groups !! i = Some r.1).
  { intros i' r Hr. rewrite <-(group_runs_groups clusterDomain client validator groups cache), list_lookup_fmap. by rewrite Hr. }
  apply Hg in Hi, Hj. rewrite group_has_key in Ki, Kj by (by eapply list_elem_of_lookup_2).
  eapply NoDup_lookup; [apply (group_tunnels_NoDup shared ps)|..]; rewrite list_lookup_fmap; fold groups; [by rewrite Hi|].
  rewrite Hj. simpl. f_equal. destruct Ki as [_ <-], Kj as [_ <-]. done.
Qed.
Lemma failed_partition_exact cache key : key ∈ sharedPartitionKey :: dedicated_keys (Some infra) ->
  exists run, run ∈ group_runs clusterDomain client validator groups cache /\
    rc_TunnelID (tg_resolved run.1) = tunnel shared (expected_partition http grpc (Some infra) key) /\
    oc_failedPartitions (syncTunnelGroups clusterDomain client validator groups cache).1 !! key = tr_err run.2.
Proof.
  intros Hk. destruct (group_for_partition shared ps (expected_partition http grpc (Some infra) key)) as (g & Hg & Hof).
  { unfold ps. rewrite partitionRoutes_eq by done. by apply list_elem_of_fmap_2. }
  pose proof Hg as Hg'. fold groups in Hg'. rewrite <-(group_runs_groups clusterDomain client validator groups cache) in Hg'.
  apply list_elem_of_fmap in Hg' as ([g' r] & -> & Hrun). exists (g', r). cbn [fst snd] in *.
  destruct (group_of_Some _ _ _ _ Hof) as [_ HT]. split_and!; [done|done|].
  destruct (syncTunnelGroups_runs clusterDomain client validator groups cache) as (_ & _ & ->).
  rewrite (proj1 (mark_runs_lookup _ ∅ key (runs_unique cache key)) (g', r) Hrun).
  - by rewrite lookup_empty, (right_id_L None _).
  - apply group_has_key; done.
Qed.
End attribution.

(** C21: Failures are attributed per parent: after a sync, a Route reports an error
    for a Gateway it is accepted on exactly when that Gateway's dedicated plane
    did not resolve, or the document of the very tunnel that carries the
    Gateway's routes failed to sync, and then it is that document's error; a
    parent on a healthy tunnel reports none, whatever happened to the others. *)
Theorem sync_errors_attributed {parser : UrlParser} {sorter : EntrySort} {api : CloudflareAPI}
    (clusterDomain : string) (client : option Client) (validator : option GrantClient)
    (http : routeResult HTTPRouteRule) (grpc : routeResult GRPCRouteRule) (infra : infraGateways) (shared : ResolvedConfig)
    (cache : gmap string string) (b : routeBindingInfo) (gw : string) :
  keys_disjoint (Some infra) -> bi_syncErrByGateway b = ∅ -> gw ∈ bi_acceptedGateways b ->
  let groups := buildTunnelGroups shared (partitionRoutes http grpc (Some infra)) in
  let failed := oc_failedPartitions (syncTunnelGroups clusterDomain client validator groups cache).1 in
  let reported := bi_syncErrByGateway (inject_binding failed (Some infra) b) !! gw in
  if isBroken (Some infra) gw then reported = Some errBrokenDataPlane
  else exists run, run ∈ group_runs clusterDomain client validator groups cache /\
    gateway_tunnel shared (Some infra) gw = Some (rc_TunnelID (tg_resolved run.1)) /\
    reported = errTunnelSync <$> tr_err run.2.
Proof.
  intros Hd Hb Hgw groups failed reported. subst reported. rewrite inject_binding_errors, bool_decide_eq_true_2 by done.
  unfold gatewaySyncError. destruct (isBroken (Some infra) gw) eqn:Hbr; [done|].
  set (key := if isResolved (Some infra) gw then gw else sharedPartitionKey).
  assert (Hk : key ∈ sharedPartitionKey :: dedicated_keys (Some infra)).
  { subst key. destruct (isResolved (Some infra) gw) eqn:Hr; [|left]. right. by apply elem_of_dedicated_keys. }
  destruct (failed_partition_exact clusterDomain client validator http grpc infra shared Hd cache key Hk) as (run & Hrun & HT & Hf).
  exists run. split_and!; [done| |by rewrite <-Hf].
  rewrite HT. apply (gateway_tunnel_spec shared http grpc (Some infra) gw _ Hd). exists key. split_and!; [|done|done].
  unfold plane_of. subst key. rewrite Hbr. by destruct (isResolved (Some infra) gw).
Qed.

(** ** From the listed routes to the documents *)

(** Conflict resolution only drops routes, and keeps the Gateways of those left. *)
Definition narrows {R} (before after : routeResult R) : Prop :=
  res_accepted after `sublist_of` res_accepted before /\
  forall r, bi_acceptedGateways (binding_of after r) = bi_acceptedGateways (binding_of before r).
Lemma rejectCrossTypeLosers_narrows {R} losers (before : routeResult R) : narrows before (rejectCrossTypeLosers losers before).
Proof.
  destruct (rejectCrossTypeLosers_spec losers before) as (Ha & _ & Hb). split; [rewrite Ha; apply filter_sublist|].
  intros r. unfold binding_of. rewrite Hb. case_bool_decide; [|done]. by destruct (res_bindings before !! route_key r).
Qed.
Lemma resolveCrossTypeConflicts_narrows http grpc http' grpc' :
  resolveCrossTypeConflicts http grpc = (http', grpc') -> narrows http http' /\ narrows grpc grpc'.
Proof.
  unfold resolveCrossTypeConflicts. destruct (cross_losers _ _). intros [= <- <-]. split; apply rejectCrossTypeLosers_narrows.
Qed.
Lemma narrows_distinct {R} (before after : routeResult R) : narrows before after -> distinct_keys before -> distinct_keys after.
Proof. intros [Hs _] Hd. unfold distinct_keys in *. eapply sublist_NoDup; [exact Hd|]. by apply fmap_sublist. Qed.

Section collected.
Context {cluster : Cluster} {kube : KubeClient} {views : ListenerViews} {R : Type}.
Context (controllerName : string) (ownership : option Policy) (kind : string) (routes : list (RouteObject R)).
Context (Hnd : NoDup (route_key <$> routes)).
Lemma collected_accepted :
  res_accepted (getRelevantRoutes controllerName ownership kind routes) =
  List.filter (fun r => (bindRouteParents controllerName ownership kind r).1.2) routes.
Proof.
  clear Hnd. unfold getRelevantRoutes.
  enough (H : forall start, res_accepted (foldl (collect_route controllerName ownership kind) start routes) =
    res_accepted start ++ List.filter (fun r => (bindRouteParents controllerName ownership kind r).1.2) routes) by apply H.
  induction routes as [|r l IH]; intros start; cbn [foldl List.filter]; [by rewrite app_nil_r|]. rewrite IH.
  unfold collect_route. destruct (bindRouteParents controllerName ownership kind r) as [[info []] []]; cbn [res_accepted fst snd];
    by rewrite <-?app_assoc.
Qed.
Lemma collected_distinct : distinct_keys (getRelevantRoutes controllerName ownership kind routes).
Proof.
  unfold distinct_keys. rewrite collected_accepted. eapply sublist_NoDup; [exact Hnd|]. apply fmap_sublist, filter_sublist.
Qed.
Lemma collected_spec r : r ∈ res_accepted (getRelevantRoutes controllerName ownership kind routes) ->
  r ∈ routes /\ permitted ownership r /\
  forall gw, gw ∈ bi_acceptedGateways (binding_of (getRelevantRoutes controllerName ownership kind routes) r) ->
    accepted_on controllerName kind r gw.
Proof.
  intros Hr. destruct (collect_fold controllerName ownership kind routes (mkRouteResult [] [] ∅) Hnd) as (Ha & _ & Hb & _).
  fold (getRelevantRoutes controllerName ownership kind routes) in Ha, Hb. apply Ha in Hr as [?%elem_of_nil|[Hin Hacc]]; [done|].
  unfold binding_of. rewrite (Hb r Hin). cbn [default]. pose proof (bindRouteParents_spec controllerName ownership kind r) as Hs.
  destruct (bindRouteParents controllerName ownership kind r) as [[info accepted] us]. cbn [fst snd] in *.
  destruct Hs as (Hs & _ & Hg & _). apply Hs in Hacc as [_ Hp]. split_and!; [done..|]. intros gw Hgw. by apply Hg in Hgw as (_ & ? & _).
Qed.
End collected.

Section documents.
Context {parser : UrlParser} {sorter : EntrySort} {api : CloudflareAPI}.
Context (clusterDomain : string) (client : option Client) (validator : option GrantClient).

Lemma group_run_spec groups cache run : run ∈ group_runs clusterDomain client validator groups cache ->
  exists cache', run.2 = (syncTunnelGroup clusterDomain client validator run.1 cache').1.
Proof.
  revert cache. induction groups as [|g groups IH]; intros cache; cbn [group_runs]; [by intros ?%elem_of_nil|].
  intros [->|Hin]%elem_of_cons; [by exists cache|by eapply IH].
Qed.
(** A written document merges the current one with the rules of the group's routes. *)
Lemma written_document group cache w :
  tr_written (syncTunnelGroup clusterDomain client validator group cache).1 = Some w ->
  w_tunnel w = rc_TunnelID (tg_resolved group) /\ w_token w = rc_APIToken (tg_resolved group) /\
  exists current, configurations_Get (w_token w) (w_account w) (w_tunnel w) = Ok current /\
    w_rules w = final_rules current (desired_rules clusterDomain client validator group).1.1 /\
    length (w_rules w) <= maxIngressRules.
Proof.
  unfold syncTunnelGroup. destruct (desired_rules _ _ _ group) as [[desired hf] gf]. cbn [fst].
  destruct (ResolveAccountID accounts_List (tg_resolved group) cache) as [[account|e] cache']; [|done]. cbn [fst].
  destruct (configurations_Get _ _ _) as [current|e] eqn:Hget; [|done].
  unfold sync_document. cbn zeta. destruct (Nat.ltb_spec maxIngressRules (length (final_rules current desired))); [done|].
  destruct (RulesUnchanged current (final_rules current desired)); [done|].
  destruct (configurations_Update _ _ _ _); [done|]. intros [= <-]. cbn [w_tunnel w_token w_account w_rules].
  split_and!; [done..|]. by exists current.
Qed.
Lemma writes_of_groups shared ps cache :
  let o := (syncTunnelGroups clusterDomain client validator (buildTunnelGroups shared ps) cache).1 in
  NoDup (w_tunnel <$> oc_writes o) /\
  forall w, w ∈ oc_writes o -> exists g cache', g ∈ buildTunnelGroups shared ps /\
    tr_written (syncTunnelGroup clusterDomain client validator g cache').1 = Some w.
Proof.
  destruct (syncTunnelGroups_runs clusterDomain client validator (buildTunnelGroups shared ps) cache) as (Hw & _). cbn zeta in *.
  rewrite Hw. clear Hw. set (runs := group_runs clusterDomain client validator (buildTunnelGroups shared ps) cache).
  assert (Hruns : forall run w, run ∈ runs -> tr_written run.2 = Some w -> exists g cache', g ∈ buildTunnelGroups shared ps /\
    g = run.1 /\ tr_written (syncTunnelGroup clusterDomain client validator g cache').1 = Some w).
  { intros run w Hin Hw. destruct (group_run_spec _ _ _ Hin) as [cache' He]. rewrite He in Hw. exists run.1, cache'. split_and!; [|done..].
    rewrite <-(group_runs_groups clusterDomain client validator (buildTunnelGroups shared ps) cache). by apply list_elem_of_fmap_2. }
  split.
  - assert (Hs : w_tunnel <$> omap (fun run => tr_written run.2) runs `sublist_of` (fun g => rc_TunnelID (tg_resolved g)) <$> runs.*1).
    { clear -Hruns. induction runs as [|run runs IH]; [done|]. cbn [omap list_omap].
      assert (IH' : w_tunnel <$> omap (fun run => tr_written run.2) runs `sublist_of` (fun g => rc_TunnelID (tg_resolved g)) <$> runs.*1).
      { apply IH. intros; eapply Hruns; [by right|done]. }
      destruct (tr_written run.2) as [w|] eqn:Hw; [|by constructor]. cbn [fmap list_fmap].
      destruct (Hruns run w) as (g & cache' & _ & -> & Hw'); [left|done|].
      destruct (written_document _ _ _ Hw') as [-> _]. by constructor. }
    eapply sublist_NoDup; [|exact Hs]. subst runs. rewrite group_runs_groups. apply group_tunnels_NoDup.
  - intros w (run & Hrun & Hw)%list_elem_of_omap. destruct (Hruns run w Hrun Hw) as (g & cache' & Hg & _ & Hw'). eauto.
Qed.
End documents.

(** The routes of a group, as far as the documents need them. *)
Lemma group_routes_members http grpc infra shared g :
  keys_disjoint infra -> distinct_keys http -> distinct_keys grpc -> g ∈ buildTunnelGroups shared (partitionRoutes http grpc infra) ->
  (forall r, r ∈ (groupRoutes g).1 -> r ∈ res_accepted http /\ exists gw, gw ∈ bi_acceptedGateways (binding_of http r) /\
     gateway_tunnel shared infra gw = Some (rc_TunnelID (tg_resolved g))) /\
  (forall r, r ∈ (groupRoutes g).2 -> r ∈ res_accepted grpc /\ exists gw, gw ∈ bi_acceptedGateways (binding_of grpc r) /\
     gateway_tunnel shared infra gw = Some (rc_TunnelID (tg_resolved g))).
Proof.
  intros Hd Hh Hg Hin%elem_of_groups. destruct (group_of_Some _ _ _ _ Hin) as [Hps _].
  unfold groupRoutes. rewrite Hps, union_step_fold. cbn [fst snd empty_union]. split; intros r Hr.
  - by apply (gathered_routes http grpc infra shared Hd http rp_HTTPRoutes (rc_TunnelID (tg_resolved g)) Hh (fun _ => eq_refl)).
  - by apply (gathered_routes http grpc infra shared Hd grpc rp_GRPCRoutes (rc_TunnelID (tg_resolved g)) Hg (fun _ => eq_refl)).
Qed.

Section end_to_end.
Context {cluster : Cluster} {kube : KubeClient} {views : ListenerViews}.
Context {reader : ConfigReader} {decoder : TokenDecoder} {hash : Sha256} {uuids : UuidParser}.
Context {parser : UrlParser} {sorter : EntrySort} {api : CloudflareAPI}.
Context (controllerName defaultNamespace clusterDomain : string) (ownership : option Policy).
Context (client : option Client) (validator : option GrantClient).
Context (httpRoutes : list (RouteObject HTTPRouteRule)) (grpcRoutes : list (RouteObject GRPCRouteRule)).

(** A route a document may be built from: listed, allowed its hostnames, and
    accepted on a Gateway carried by the tunnel. *)
Definition belongs {R} (kind : string) (routes : list (RouteObject R)) (shared : ResolvedConfig) (infra : infraGateways)
    (T : string) (r : RouteObject R) : Prop :=
  r ∈ routes /\ permitted ownership r /\
  exists gw, accepted_on controllerName kind r gw /\ gateway_tunnel shared (Some infra) gw = Some T.
(** The document [w] is the current one brought to the rules of routes that belong to its tunnel. *)
Definition document_of (shared : ResolvedConfig) (infra : infraGateways) (w : Write) : Prop :=
  exists current h g, configurations_Get (w_token w) (w_account w) (w_tunnel w) = Ok current /\
    w_rules w = final_rules current
      (mergeAndSortRules (Build client validator clusterDomain (http_projection <$> h)).1
                         (Build client validator clusterDomain (grpc_projection <$> g)).1) /\
    length (w_rules w) <= maxIngressRules /\
    Forall (belongs KindHTTPRoute httpRoutes shared infra (w_tunnel w)) h /\
    Forall (belongs KindGRPCRoute grpcRoutes shared infra (w_tunnel w)) g.

Lemma sync_routes_writes shared cache :
  let http := getRelevantHTTPRoutes controllerName ownership httpRoutes in
  let grpc := getRelevantGRPCRoutes controllerName ownership grpcRoutes in
  let run := sync_routes controllerName defaultNamespace clusterDomain ownership client validator
               (Some httpRoutes) (Some grpcRoutes) shared http grpc cache in
  run_writes run =
  match resolveInfraGateways controllerName defaultNamespace with
  | Err _ => []
  | Ok infra =>
      let '(http, grpc) := resolveCrossTypeConflicts http grpc in
      oc_writes (syncTunnelGroups clusterDomain client validator
        (buildTunnelGroups shared (partitionRoutes http grpc (Some infra))) cache).1
  end.
Proof.
  cbn zeta. unfold sync_routes. destruct (resolveCrossTypeConflicts _ _) as [http grpc].
  destruct (resolveInfraGateways controllerName defaultNamespace) as [infra|e]; [|done].
  destruct (syncTunnelGroups _ _ _ _ _) as [outcome cache']. cbn [fst].
  repeat match goal with |- context [if ?b then _ else _] => destruct b end; done.
Qed.
Lemma sync_routes_documents shared cache infra :
  NoDup (route_key <$> httpRoutes) -> NoDup (route_key <$> grpcRoutes) ->
  resolveInfraGateways controllerName defaultNamespace = Ok infra ->
  let writes := run_writes (sync_routes controllerName defaultNamespace clusterDomain ownership client validator
    (Some httpRoutes) (Some grpcRoutes) shared (getRelevantHTTPRoutes controllerName ownership httpRoutes)
    (getRelevantGRPCRoutes controllerName ownership grpcRoutes) cache) in
  NoDup (w_tunnel <$> writes) /\ Forall (document_of shared infra) writes.
Proof.
  intros Hh Hg Hinfra. rewrite sync_routes_writes, Hinfra.
  destruct (resolveCrossTypeConflicts _ _) as [http grpc] eqn:Hc. apply resolveCrossTypeConflicts_narrows in Hc as [Nh Ng].
  pose proof (resolveInfraGateways_disjoint _ _ _ Hinfra) as Hd.
  assert (Dh : distinct_keys http) by (eapply narrows_distinct; [exact Nh|by apply collected_distinct]).
  assert (Dg : distinct_keys grpc) by (eapply narrows_distinct; [exact Ng|by apply collected_distinct]).
  destruct (writes_of_groups clusterDomain client validator shared (partitionRoutes http grpc (Some infra)) cache) as [Hn Hw].
  cbn zeta in *. split; [exact Hn|]. apply Forall_forall. intros w (g & cache' & Hin & Hwr)%Hw.
  destruct (written_document _ _ _ _ _ _ Hwr) as (HT & _ & current & Hget & Hrules & Hlen).
  destruct (group_routes_members http grpc (Some infra) shared g Hd Dh Dg Hin) as [Mh Mg].
  exists current, (groupRoutes g).1, (groupRoutes g).2. split_and!; [done| |done| |].
  - rewrite Hrules. unfold desired_rules. destruct (groupRoutes g) as [h gr]. cbn [fst snd].
    destruct (Build client validator clusterDomain (http_projection <$> h)), (Build client validator clusterDomain (grpc_projection <$> gr)). done.
  - apply Forall_forall. intros r [Hr (gw & Hgw & Ht)]%Mh. rewrite HT. destruct Nh as [Ns Na]. rewrite Na in Hgw.
    destruct (collected_spec controllerName ownership KindHTTPRoute httpRoutes Hh r) as (? & ? & Ho).
    { eapply elem_of_sublist; [exact Hr|exact Ns]. }
    split_and!; [done..|]. exists gw. split; [by apply Ho|done].
  - apply Forall_forall. intros r [Hr (gw & Hgw & Ht)]%Mg. rewrite HT. destruct Ng as [Ns Na]. rewrite Na in Hgw.
    destruct (collected_spec controllerName ownership KindGRPCRoute grpcRoutes Hg r) as (? & ? & Ho).
    { eapply elem_of_sublist; [exact Hr|exact Ns]. }
    split_and!; [done..|]. exists gw. split; [by apply Ho|done].
Qed.
End end_to_end.

(** C2: What a sync writes: at most one document per tunnel, each the current
    document of that tunnel brought (by diff, sort and catch-all, within the
    1000-rule limit) to the rules built from Routes that are listed, allowed
    their hostnames by the ownership policy, and accepted on a Gateway whose
    plane runs on that very tunnel, where the class tunnel is the canonical form
    of the configured one.  No other Route reaches a tenant's tunnel. *)
Theorem sync_writes_isolated {cluster : Cluster} {kube : KubeClient} {views : ListenerViews}
    {reader : ConfigReader} {decoder : TokenDecoder} {hash : Sha256} {uuids : UuidParser}
    {parser : UrlParser} {sorter : EntrySort} {api : CloudflareAPI}
    (controllerName defaultNamespace clusterDomain : string) (ownership : option Policy)
    (client : option Client) (validator : option GrantClient)
    (httpRoutes : list (RouteObject HTTPRouteRule)) (grpcRoutes : list (RouteObject GRPCRouteRule)) (cache : gmap string string) :
  NoDup (route_key <$> httpRoutes) -> NoDup (route_key <$> grpcRoutes) ->
  let writes := run_writes (SyncAllRoutes controllerName defaultNamespace clusterDomain ownership client validator
    (Some httpRoutes) (Some grpcRoutes) cache) in
  NoDup (w_tunnel <$> writes) /\
  (writes = [] \/ exists resolved shared infra,
     resolveConfigForController controllerName defaultNamespace = Ok resolved /\
     resolveInfraGateways controllerName defaultNamespace = Ok infra /\
     rc_TunnelID shared = canonicalTunnelID (rc_TunnelID resolved) /\ rc_APIToken shared = rc_APIToken resolved /\
     Forall (document_of controllerName clusterDomain ownership client validator httpRoutes grpcRoutes shared infra) writes).
Proof.
  intros Hh Hg. unfold SyncAllRoutes.
  destruct (resolveConfigForController controllerName defaultNamespace) as [resolved|]; [|split; [constructor|by left]].
  destruct (ResolveAccountID _ _ _) as [[account|] cache']; [|split; [constructor|by left]].
  set (shared := with_account _ account). cbn zeta.
  destruct (resolveInfraGateways controllerName defaultNamespace) as [infra|] eqn:Hi.
  - destruct (sync_routes_documents controllerName defaultNamespace clusterDomain ownership client validator httpRoutes grpcRoutes
      shared cache' infra Hh Hg Hi) as [Hn Hf]. split; [done|]. right. by exists resolved, shared, infra.
  - rewrite sync_routes_writes, Hi. split; [constructor|by left].
Qed.

(** ** Retries *)

Lemma lost_race_requeue result lost :
  let r := withLostRacePushRequeue result lost in
  (0 <= RequeueAfter result)%Z ->
  (RequeueAfter r = 0 -> lost = false /\ RequeueAfter result = 0)%Z /\ (0 <= RequeueAfter r)%Z.
Proof.
  cbn zeta. unfold withLostRacePushRequeue. destruct lost; cbn [negb]; [|done]. intros Hr.
  destruct ((RequeueAfter result =? 0) || (lostRacePushRequeueDelay <? RequeueAfter result))%Z eqn:E; cbn [RequeueAfter].
  - unfold lostRacePushRequeueDelay. lia.
  - apply orb_false_iff in E as [E%Z.eqb_neq _]. lia.
Qed.
Section retries.
Context {cluster : Cluster} {kube : KubeClient} {views : ListenerViews}.
Context {reader : ConfigReader} {decoder : TokenDecoder} {hash : Sha256} {uuids : UuidParser}.
Context {parser : UrlParser} {sorter : EntrySort} {api : CloudflareAPI}.
Context (controllerName defaultNamespace clusterDomain : string) (ownership : option Policy).
Context (client : option Client) (validator : option GrantClient).
Context (httpList : option (list (RouteObject HTTPRouteRule))) (grpcList : option (list (RouteObject GRPCRouteRule))).

(** What a sync read: the class configuration with its canonical tunnel and its
    account, both lists of routes, the planes of the Gateways. *)
Definition sync_reads (cache : gmap string string) (shared : ResolvedConfig) (cache' : gmap string string)
    (http : routeResult HTTPRouteRule) (grpc : routeResult GRPCRouteRule) (infra : infraGateways) : Prop :=
  exists resolved account httpRoutes grpcRoutes,
    resolveConfigForController controllerName defaultNamespace = Ok resolved /\
    ResolveAccountID accounts_List (with_tunnel resolved (canonicalTunnelID (rc_TunnelID resolved))) cache = (Ok account, cache') /\
    shared = with_account (with_tunnel resolved (canonicalTunnelID (rc_TunnelID resolved))) account /\
    httpList = Some httpRoutes /\ grpcList = Some grpcRoutes /\
    (http, grpc) = resolveCrossTypeConflicts (getRelevantHTTPRoutes controllerName ownership httpRoutes)
                     (getRelevantGRPCRoutes controllerName ownership grpcRoutes) /\
    resolveInfraGateways controllerName defaultNamespace = Ok infra.
(** With the credentials of its group, the document was read, and it is as its
    routes want it or was brought there. *)
Definition document_current (group : tunnelGroup) (cache : gmap string string) : Prop :=
  let resolved := tg_resolved group in
  exists account current,
    (ResolveAccountID accounts_List resolved cache).1 = Ok account /\
    configurations_Get (rc_APIToken resolved) account (rc_TunnelID resolved) = Ok current /\
    match sync_document current (desired_rules clusterDomain client validator group).1.1 with
    | unchanged => True
    | write rules => configurations_Update (rc_APIToken resolved) account (rc_TunnelID resolved) rules = None
    | limitExceeded _ => False
    end.
Fixpoint documents_current (groups : list tunnelGroup) (cache : gmap string string) : Prop :=
  match groups with
  | [] => True
  | group :: groups' =>
      document_current group cache /\ documents_current groups' (ResolveAccountID accounts_List (tg_resolved group) cache).2
  end.
Lemma group_ok group cache : tr_err (syncTunnelGroup clusterDomain client validator group cache).1 = None <-> document_current group cache.
Proof.
  unfold syncTunnelGroup, document_current. destruct (desired_rules _ _ _ group) as [[rules f1] f2]. cbn [fst].
  destruct (ResolveAccountID _ _ _) as [[account|e] cache']; [|split; [done|by intros (?&?&?&_)]]. cbn [fst].
  destruct (configurations_Get _ _ _) as [current|e] eqn:Eg; [|split; [done|intros (?&?&[= <-]&E&_); congruence]].
  split.
  - intros H. exists account, current. split; [done|]. split; [done|]. by destruct (sync_document _ _); [| |destruct (configurations_Update _ _ _ _)].
  - intros (a & c & [= <-] & E & H). rewrite Eg in E. injection E as <-. destruct (sync_document _ _); [done..|]. by rewrite H.
Qed.
Lemma group_cache group cache :
  (syncTunnelGroup clusterDomain client validator group cache).2 = (ResolveAccountID accounts_List (tg_resolved group) cache).2.
Proof. unfold syncTunnelGroup. destruct (desired_rules _ _ _ group) as [[rules f1] f2]. by destruct (ResolveAccountID _ _ _) as [[] ?]. Qed.
Lemma group_runs_ok groups cache :
  omap (fun run => tr_err run.2) (group_runs clusterDomain client validator groups cache) = [] <-> documents_current groups cache.
Proof.
  revert cache. induction groups as [|g gs IH]; intros cache; [done|]. cbn [group_runs documents_current].
  rewrite <-group_ok, <-group_cache, <-IH. cbn [omap list_omap]. destruct (tr_err _) eqn:E; rewrite ?E; split; (done || intuition congruence).
Qed.

(** A sync has no error and asks for no retry exactly when everything it read was
    read and every document is current. *)
Lemma SyncAllRoutes_quiet cache :
  let run := SyncAllRoutes controllerName defaultNamespace clusterDomain ownership client validator httpList grpcList cache in
  (0 <= RequeueAfter (run_result run))%Z /\
  (run_err run = None -> RequeueAfter (run_result run) = 0%Z ->
     exists shared cache' http grpc infra, sync_reads cache shared cache' http grpc infra /\
       transientKeys (Some infra) = [] /\ documents_current (buildTunnelGroups shared (partitionRoutes http grpc (Some infra))) cache') /\
  (forall shared cache' http grpc infra, sync_reads cache shared cache' http grpc infra ->
     transientKeys (Some infra) = [] -> documents_current (buildTunnelGroups shared (partitionRoutes http grpc (Some infra))) cache' ->
     run_err run = None /\ run_result run = no_requeue /\
     exists syncResult, run_sync run = Some syncResult /\
       sr_Partitions syncResult = partitionRoutes http grpc (Some infra) /\ sr_SharedTunnelID syncResult = rc_TunnelID shared).
Proof.
  cbn zeta. unfold SyncAllRoutes. split_and!.
  - destruct (resolveConfigForController _ _) as [resolved|]; [|done].
    destruct (ResolveAccountID _ _ _) as [[account|] cache']; [|done].
    destruct httpList as [hs|]; [|done]. destruct grpcList as [gs|]; [|done]. unfold sync_routes.
    destruct (resolveCrossTypeConflicts _ _) as [http grpc]. destruct (resolveInfraGateways _ _) as [infra|]; [|done].
    destruct (syncTunnelGroups _ _ _ _ _) as [outcome cache'']. by repeat case_match.
  - unfold sync_reads. destruct (resolveConfigForController _ _) as [resolved|]; [|done].
    destruct (ResolveAccountID _ _ _) as [[account|] cache'] eqn:Ea; [|done].
    destruct httpList as [hs|]; [|done]. destruct grpcList as [gs|]; [|done]. unfold sync_routes.
    destruct (resolveCrossTypeConflicts _ _) as [http grpc] eqn:Ec. destruct (resolveInfraGateways _ _) as [infra|]; [|done].
    set (shared := with_account _ account). set (groups := buildTunnelGroups shared _).
    pose proof (syncTunnelGroups_runs clusterDomain client validator groups cache') as (_ & Herrs & _).
    destruct (syncTunnelGroups _ _ _ _ _) as [outcome cache'']. cbn [fst] in Herrs. cbn zeta in *.
    destruct ((_ =? _) && _); [done|]. destruct (Nat.ltb_spec 0 (length (oc_groupErrs outcome))); [done|].
    cbn [sr_TransientBrokenKeys buildSyncResult]. destruct (Nat.ltb_spec 0 (length (transientKeys (Some infra)))); [done|].
    intros _ _. exists shared, cache', http, grpc, infra. split; [by exists resolved, account, hs, gs|].
    split; [by destruct (transientKeys (Some infra)); [|simpl in *; lia]|]. apply (group_runs_ok groups). rewrite <-Herrs.
    by destruct (oc_groupErrs outcome); [|simpl in *; lia].
  - intros shared cache' http grpc infra (resolved & account & hs & gs & -> & -> & -> & -> & -> & Ec & Hi) Ht Hd.
    unfold sync_routes. rewrite <-Ec, Hi. apply group_runs_ok in Hd.
    pose proof (syncTunnelGroups_runs clusterDomain client validator (buildTunnelGroups (with_account
      (with_tunnel resolved (canonicalTunnelID (rc_TunnelID resolved))) account) (partitionRoutes http grpc (Some infra))) cache') as (_ & Herrs & _).
    destruct (syncTunnelGroups _ _ _ _ _) as [outcome cache'']. cbn [fst] in Herrs. cbn zeta in *. rewrite Hd in Herrs.
    rewrite Herrs. cbn [length sr_TransientBrokenKeys buildSyncResult]. rewrite Ht. cbn [length]. rewrite andb_comm.
    destruct (_ <? _) eqn:E; cbn [andb]; [|by split_and!; [..|eexists]].
    destruct (Nat.eqb_spec 0 (length (buildTunnelGroups (with_account (with_tunnel resolved (canonicalTunnelID (rc_TunnelID resolved))) account)
      (partitionRoutes http grpc (Some infra))))) as [E'|]; [rewrite <-E' in E; done|]. by split_and!; [..|eexists].
Qed.
End retries.

(** What a run of pushes amounts to. *)
Definition pushed_results (push : routePartition -> partitionPushResult) (syncResult : SyncResult)
    : list (routePartition * routePartition * partitionPushResult) :=
  let originals := sr_Partitions syncResult in
  let partitions := unionPartitionRoutes originals (sr_SharedTunnelID syncResult) in
  zip (zip partitions originals) (push <$> partitions).
Definition lost_race (entry : routePartition * routePartition * partitionPushResult) : bool :=
  match ppr_err entry.2 with Some ErrLostConfigPushRace => true | _ => false end.
Lemma push_steps entries s :
  ps_lostRace (foldl push_step s entries) = ps_lostRace s || existsb lost_race entries /\
  (forall d, d ∈ ps_diagnostics s -> d ∈ ps_diagnostics (foldl push_step s entries)) /\
  (forall e, e ∈ ps_pushErrs s -> e ∈ ps_pushErrs (foldl push_step s entries)) /\
  (forall partition original r e, (partition, original, r) ∈ entries -> ppr_err r = Some e ->
     (rp_Key partition, e) ∈ ps_pushErrs (foldl push_step s entries) /\
     ((pushFailureSurfaceThreshold <= ppr_streak r)%Z ->
        forall d, d ∈ proxyPushFailureDiagnostics original -> d ∈ ps_diagnostics (foldl push_step s entries))).
Proof.
  revert s. induction entries as [|[[p o] r] entries IH]; intros s; cbn [foldl].
  { split; [by rewrite orb_false_r|]. split; [done|]. split; [done|]. intros ???? H. by apply elem_of_nil in H. }
  destruct (IH (push_step s (p, o, r))) as (H1 & H2 & H3 & H4). split_and!.
  - rewrite H1. unfold push_step, lost_race. cbn [existsb snd]. destruct (ppr_err r) as [[]|]; cbn; by destruct (ps_lostRace s).
  - intros d Hd. apply H2. unfold push_step. destruct (ppr_err r); cbn; set_solver.
  - intros e He. apply H3. unfold push_step. destruct (ppr_err r); cbn; set_solver.
  - intros partition original r' e [[= -> -> ->]|Hin]%elem_of_cons He; [|by apply H4]. split.
    + apply H3. unfold push_step. rewrite He. cbn. set_solver.
    + intros Hs d Hd. apply H2. unfold push_step. rewrite He. cbn. apply Z.leb_le in Hs. rewrite Hs. set_solver.
Qed.

(** The diagnostics a reconcile hands to the status writer. *)
Definition pushed_diagnostics (push : option (routePartition -> partitionPushResult)) (syncResult : SyncResult) : list RouteDiagnostic :=
  from_option ps_diagnostics [] (push ≫= fun pusher => pushPartitionConfigs pusher syncResult) ++ sr_CollisionDiagnostics syncResult.
Lemma pushPartitionConfigs_lost push syncResult :
  from_option ps_lostRace false (pushPartitionConfigs push syncResult) = existsb lost_race (pushed_results push syncResult).
Proof.
  unfold pushPartitionConfigs, pushed_results. destruct (sr_Partitions syncResult) as [|p ps]; [done|]. cbn [length Nat.eqb from_option].
  by rewrite (proj1 (push_steps _ _)).
Qed.
Lemma syncAndUpdateStatusCommon_eq push status run :
  let result := match push, run_sync run with
                | Some push, Some syncResult => withLostRacePushRequeue (run_result run) (existsb lost_race (pushed_results push syncResult))
                | _, _ => run_result run
                end in
  let written := run_sync run ≫= fun syncResult => status syncResult (pushed_diagnostics push syncResult) (run_err run) in
  syncAndUpdateStatusCommon push status run =
  match run_err run with
  | Some e => if (0 <? RequeueAfter result)%Z then (result, None) else (result, Some (errSync e))
  | None => match written with Some e => (no_requeue, Some (errStatusUpdate e)) | None => (result, None) end
  end.
Proof.
  unfold syncAndUpdateStatusCommon, pushed_diagnostics. destruct (run_sync run) as [sr|]; [|by destruct push]. cbn.
  destruct push as [push|]; [|done]. cbn. rewrite <-pushPartitionConfigs_lost. by destruct (pushPartitionConfigs push sr).
Qed.


(** ** A run: one class, one Gateway on the class tunnel and one tenant *)

Definition run_reader : ConfigReader := {|
  get_GatewayConfig := @get_GatewayConfig (tenant_reader "key");
  get_GatewayClass _ := Err apiNotFound;
  get_GatewayClassConfig _ := Ok (mkGatewayClassConfig "cfg" (mkSecretReference "creds" "system" "") "account" "CLASS-TUNNEL");
  get_Secret := @get_Secret (tenant_reader "key") |}.
Definition run_client : KubeClient := {|
  kube_Gateway ns name :=
    if bool_decide (ns = "prod") && bool_decide (name = "edge") then Some (edge_gateway "a.example.com") else None;
  kube_ListenerSet _ _ := None;
  kube_Gateways := Some [tenant_gateway; edge_gateway "a.example.com"]; kube_ListenerSets := Some [];
  kube_GatewayClasses :=
    Some [mkGatewayClass "class" "us" (Some (mkParametersReference ParametersRefGroup ParametersRefKind "cfg" None))] |}.
Definition run_views : ListenerViews := @built_views bare_cluster run_client.
Definition run_api : CloudflareAPI := {|
  accounts_List _ := Some ["account"];
  configurations_Get _ _ tunnel := if bool_decide (tunnel = "tunnel") then Err "unavailable" else Ok [mkGetRule "" "" CatchAllService];
  configurations_Update _ _ _ _ := None |}.
Definition lower_uuid : UuidParser := fun s => Some (ToLower s).
Definition run_services : Client := {|
  get_service _ _ := Found None; get_serviceImport _ _ := NotFound; get_externalBackend _ _ := NotFound |}.
Definition no_urls : UrlParser := fun _ => None.
Definition run_route : RouteObject HTTPRouteRule :=
  mkRouteObject "prod" "web" 1 ["a.example.com"] [ref_to "edge"]
    [mkHTTPRouteRule [] [] [mkHTTPBackendRef (mkGwBackendRef None None "svc" None (Some 80%Z) None) []] None].
Definition example_run (api : CloudflareAPI) : SyncRun :=
  @SyncAllRoutes bare_cluster run_client run_views run_reader tenant_decoder constant_digest lower_uuid no_urls insertion_entries api
    "us" "system" "cluster.local" None (Some run_services) None (Some [run_route]) (Some []) ∅.

Lemma sync_writes_isolated_witness :
  (fun w => (w_tunnel w, length (w_rules w))) <$> run_writes (example_run run_api) = [("class-tunnel", 2)] /\
  RequeueAfter (run_result (example_run run_api)) = apiErrorRequeueDelay /\
  NoDup (w_tunnel <$> run_writes (example_run run_api)).
Proof.
  split; [vm_compute; reflexivity|]. split; [vm_compute; reflexivity|].
  apply (@sync_writes_isolated bare_cluster run_client run_views run_reader tenant_decoder constant_digest lower_uuid no_urls
    insertion_entries run_api "us" "system" "cluster.local" None (Some run_services) None [run_route] [] ∅);
    apply (bool_decide_unpack _); vm_compute; exact I.
Defined.

(** The tenant's tunnel cannot be read: the failure lands on the tenant's parent only. *)
Lemma sync_errors_attributed_witness :
  let b := mkRouteBindingInfo ∅ {["tenant/edge"; "prod/edge"]} ∅ ∅ in
  let groups := buildTunnelGroups (example_resolved "class-tunnel") example_partitions in
  exists run, run ∈ @group_runs no_urls insertion_entries run_api "cluster.local" None None groups ∅ /\
    gateway_tunnel (example_resolved "class-tunnel") (Some example_infra) "prod/edge" = Some (rc_TunnelID (tg_resolved run.1)) /\
    bi_syncErrByGateway (inject_binding
      (oc_failedPartitions (@syncTunnelGroups no_urls insertion_entries run_api "cluster.local" None None groups ∅).1)
      (Some example_infra) b) !! "prod/edge" = errTunnelSync <$> tr_err run.2.
Proof.
  apply (@sync_errors_attributed no_urls insertion_entries run_api "cluster.local" None None example_result example_result
    example_infra (example_resolved "class-tunnel") ∅ (mkRouteBindingInfo ∅ {["tenant/edge"; "prod/edge"]} ∅ ∅) "prod/edge").
  - vm_compute. reflexivity.
  - reflexivity.
  - apply (bool_decide_unpack _). vm_compute. exact I.
Defined.

Definition good_api : CloudflareAPI := {|
  accounts_List _ := Some ["account"]; configurations_Get _ _ _ := Ok []; configurations_Update _ _ _ _ := None |}.
