(* ===== verification/RouteStatus.v ===== *)
(** * Route status

    [controller/route_status.go] and [controller/status_generation.go]: the
    conditions a route gets on each parent after a sync, and the write of them
    beside the entries of other controllers.  Times are opaque; the API server's
    answers are the parameter of the writer. *)
From Stdlib Require Import Ascii.
From stdpp Require Import sorting.
From stdpp Require Import base sets gmap strings list.
From S2P Require Import Prelude GoStrings GoJson ProxyConfig Shadow RouteBinding ListenerMerge IngressBuild Converter ConfigResolver ListenerView ParentBinding RouteSync SyncAll.

(** [metav1.Condition] *)
Inductive ConditionStatus := ConditionTrue | ConditionFalse | ConditionUnknown.
Instance ConditionStatus_eq : EqDecision ConditionStatus.
Proof. solve_decision. Defined.
Definition condition_status (b : bool) : ConditionStatus := if b then ConditionTrue else ConditionFalse.
Record Condition := mkCondition {
  cond_Type : string; cond_Status : ConditionStatus; cond_ObservedGeneration : Z; cond_LastTransitionTime : Z;
  cond_Reason : string; cond_Message : string }.
Record RouteParentStatus := mkRouteParentStatus {
  ps_ParentRef : ParentReference; ps_ControllerName : string; ps_Conditions : list Condition }.

(** ** Messages *)

Definition conditionMessageMaxLength : nat := Z.to_nat 32768.
Definition conditionTruncationMarker : string := "...".
(** [utf8.RuneStart] *)
Definition RuneStart (c : ascii) : bool := negb (N.land (byte_val c) 192 =? 128)%N.
Fixpoint rune_cut (msg : string) (cut : nat) : nat :=
  match cut with
  | O => O
  | S cut' => match String.get cut msg with
              | Some c => if RuneStart c then cut else rune_cut msg cut'
              | None => cut
              end
  end.
Definition truncateUTF8 (msg : string) (maxLen : nat) : string :=
  if String.length msg <=? maxLen then msg
  else if maxLen <=? String.length conditionTruncationMarker then conditionTruncationMarker
  else str_take (rune_cut msg (maxLen - String.length conditionTruncationMarker)) msg +:+ conditionTruncationMarker.
Definition truncateConditionMessage (msg : string) : string := truncateUTF8 msg conditionMessageMaxLength.

(** The first occurrences, in order. *)
Fixpoint first_occurrences {A} `{EqDecision A} (seen : list A) (l : list A) : list A :=
  match l with
  | [] => []
  | x :: l' => if bool_decide (x ∈ seen) then first_occurrences seen l' else x :: first_occurrences (x :: seen) l'
  end.
Definition droppedConfigMessage (diagnostics : list RouteDiagnostic) (partial : bool) : string :=
  let ruleIdx := stable_sort Z.ltb (first_occurrences [] (diag_RuleIndex <$> diagnostics)) in
  let detail := Join (first_occurrences [] (diag_Message <$> diagnostics)) " " in
  if negb partial then truncateConditionMessage detail
  else truncateConditionMessage ("Dropped Rule " +:+ Join (Itoa <$> ruleIdx) ", " +:+ ": " +:+ detail).
Definition buildFailedRefsMessage (failedRefs : list BackendRefError) : string :=
  "Backend references not permitted: " +:+
  Join ((fun r => bre_BackendNS r +:+ "/" +:+ bre_BackendName r) <$> failedRefs) ", ".

(** ** Conditions *)

Definition RouteConditionAccepted : string := "Accepted".
Definition RouteConditionResolvedRefs : string := "ResolvedRefs".
Definition RouteConditionPartiallyInvalid : string := "PartiallyInvalid".
Definition routeConditionShadowed : string := "cf.k8s.lex.la/RouteShadowed".
Definition routeReasonShadowed : string := ReasonHostnameMatchShadowed.
Definition routeConditionProxyConfigPushed : string := "cf.k8s.lex.la/ProxyConfigPushed".
Definition routeConditionTunnelShared : string := "cf.k8s.lex.la/TunnelShared".
Definition RouteReasonUnsupportedValue : string := "UnsupportedValue".
Definition RouteReasonPending : string := "Pending".
Definition routeAcceptedMessage : string := "Route accepted and programmed in Cloudflare Tunnel".
Definition resolvedRefsMessage : string := "All references resolved".

Record acceptedConditionOverride := mkAcceptedOverride { ao_reason : string; ao_message : string }.

Instance DiagnosticTarget_eq : EqDecision DiagnosticTarget.
Proof. solve_decision. Defined.
Definition with_target (target : DiagnosticTarget) (diagnostics : list RouteDiagnostic) : list RouteDiagnostic :=
  List.filter (fun d => bool_decide (diag_Target d = target)) diagnostics.
Definition diagnosticConditions (diagnostics : list RouteDiagnostic) (ruleCount : nat) (generation now : Z)
    : option acceptedConditionOverride * option Condition :=
  let accepted := with_target DiagnosticAccepted diagnostics in
  let wholeRuleIdx := first_occurrences [] (diag_RuleIndex <$> List.filter diag_WholeRule accepted) in
  if length accepted =? 0 then (None, None)
  else if (0 <? ruleCount) && (ruleCount <=? length wholeRuleIdx)
  then (Some (mkAcceptedOverride RouteReasonUnsupportedValue (droppedConfigMessage accepted false)), None)
  else (None, Some (mkCondition RouteConditionPartiallyInvalid ConditionTrue generation now RouteReasonUnsupportedValue
                      (droppedConfigMessage accepted true))).
Definition buildDiagnosticCondition (diagnostics : list RouteDiagnostic) (target : DiagnosticTarget)
    (conditionType : string) (status : ConditionStatus) (reason : string) (generation now : Z) : option Condition :=
  let messages := first_occurrences [] (diag_Message <$> with_target target diagnostics) in
  if length messages =? 0 then None
  else Some (mkCondition conditionType status generation now reason (truncateConditionMessage (Join messages " | "))).
Definition buildShadowedCondition (diagnostics : list RouteDiagnostic) (generation now : Z) : option Condition :=
  buildDiagnosticCondition diagnostics DiagnosticShadowed routeConditionShadowed ConditionTrue routeReasonShadowed generation now.

(** A sync error as the status sees it: its text. *)
Class ErrorText := { sync_error_text : SyncError -> string; run_error_text : RunError -> string }.

Section conditions.
Context {texts : ErrorText}.

Definition perParentSyncErr (info : routeBindingInfo) (refIdx : nat) (globalErr : option RunError) : option string :=
  let global := run_error_text <$> globalErr in
  match bi_parentGateways info !! refIdx with
  | None => global
  | Some gwKey =>
      match bi_syncErrByGateway info !! gwKey with
      | Some perParent => Some (sync_error_text perParent)
      | None => global
      end
  end.
Definition buildAcceptedCondition (generation now : Z) (info : routeBindingInfo) (refIdx : nat) (syncErr : option RunError)
    (override : option acceptedConditionOverride) : Condition :=
  let condition (status : ConditionStatus) (reason message : string) :=
    mkCondition RouteConditionAccepted status generation now reason message in
  let otherwise :=
    match perParentSyncErr info refIdx syncErr with
    | Some e => condition ConditionFalse RouteReasonPending (truncateConditionMessage e)
    | None =>
        match override with
        | Some o => condition ConditionFalse (ao_reason o) (ao_message o)
        | None => condition ConditionTrue RouteReasonAccepted routeAcceptedMessage
        end
    end in
  match bi_bindingResults info !! refIdx with
  | Some result => if negb (br_Accepted result) then condition ConditionFalse (br_Reason result) (br_Message result) else otherwise
  | None => otherwise
  end.
Definition buildResolvedRefsCondition (generation now : Z) (failedRefs : list BackendRefError) (diagnostics : list RouteDiagnostic)
    : Condition :=
  let condition (status : ConditionStatus) (reason message : string) :=
    mkCondition RouteConditionResolvedRefs status generation now reason message in
  match failedRefs with
  | failed :: _ =>
      condition ConditionFalse (if bool_decide (bre_Reason failed = "") then "RefNotPermitted" else bre_Reason failed)
        (buildFailedRefsMessage failedRefs)
  | [] =>
      match head (with_target DiagnosticResolvedRefs diagnostics) with
      | Some d => condition ConditionFalse (if bool_decide (diag_Reason d = "") then "UnsupportedProtocol" else diag_Reason d) (diag_Message d)
      | None => condition ConditionTrue "ResolvedRefs" resolvedRefsMessage
      end
  end.

Definition buildParentStatus (ref : ParentReference) (namespace controllerName : string) (generation now : Z)
    (info : routeBindingInfo) (refIdx : nat) (failedRefs : list BackendRefError) (syncErr : option RunError)
    (acceptedOverride : option acceptedConditionOverride) (diagnostics : list RouteDiagnostic) (ruleCount : nat) : RouteParentStatus :=
  let '(diagOverride, partiallyInvalid) := diagnosticConditions diagnostics ruleCount generation now in
  let acceptedOverride := match acceptedOverride with Some o => Some o | None => diagOverride end in
  let accepted := buildAcceptedCondition generation now info refIdx syncErr acceptedOverride in
  let when_accepted (o : option Condition) := if bool_decide (cond_Status accepted = ConditionTrue) then option_list o else [] in
  mkRouteParentStatus
    (mkParentReference (pref_Group ref) (pref_Kind ref) (Some namespace) (pref_Name ref) (pref_SectionName ref) (pref_Port ref))
    controllerName
    ([accepted; buildResolvedRefsCondition generation now failedRefs diagnostics] ++
     when_accepted partiallyInvalid ++
     when_accepted (buildShadowedCondition diagnostics generation now) ++
     when_accepted (buildDiagnosticCondition diagnostics DiagnosticProxyConfigPush routeConditionProxyConfigPushed ConditionFalse
                      routeReasonProxyConfigPushFailed generation now) ++
     when_accepted (buildDiagnosticCondition diagnostics DiagnosticTunnelShared routeConditionTunnelShared ConditionTrue
                      routeReasonTunnelShared generation now)).
End conditions.

(** ** Generations *)

Definition statusGenerationStale (reconciledGen : Z) (conditionSets : list (list Condition)) : bool :=
  existsb (existsb (fun c => (reconciledGen <? cond_ObservedGeneration c)%Z)) conditionSets.
(** [apimeta.FindStatusCondition] *)
Definition FindStatusCondition (conditions : list Condition) (condType : string) : option Condition :=
  List.find (fun c => bool_decide (cond_Type c = condType)) conditions.
Definition ownedConditionsStale (stored : list Condition) (reconciledGen : Z) (ownedTypes : list string) : bool :=
  existsb (fun condType =>
    match FindStatusCondition stored condType with
    | Some c => (reconciledGen <? cond_ObservedGeneration c)%Z
    | None => false
    end) ownedTypes.

(** ** The Gateway behind a parentRef *)

Section parents.
Context {kube : KubeClient}.

Definition resolveParentGatewayFromRef (ref : ParentReference) (routeNamespace : string) : option GatewayObject :=
  if negb (bool_decide (default "" (pref_Group ref) = "")) && negb (bool_decide (default "" (pref_Group ref) = GroupName))
  then None
  else
    let kind := default kindGateway (pref_Kind ref) in
    let namespace := default routeNamespace (pref_Namespace ref) in
    if bool_decide (kind = kindGateway) then kube_Gateway namespace (pref_Name ref)
    else if bool_decide (kind = kindListenerSet) then
      match kube_ListenerSet namespace (pref_Name ref) with
      | Some listenerSet => listenerSetParentGateway listenerSet
      | None => None
      end
    else None.
Definition parentRefSelectsManagedGateway (ref : ParentReference) (routeNamespace : string) (classNames : gset string) : bool :=
  match resolveParentGatewayFromRef ref routeNamespace with
  | Some gateway => bool_decide (go_ClassName gateway ∈ classNames)
  | None => false
  end.
End parents.

(** ** The write *)

Definition routeParentStatusMaxCount : nat := 32.

Record routeStatusUpdateParams := mkStatusParams {
  up_controllerName : string;
  up_acceptedOverride : option acceptedConditionOverride;
  up_diagnostics : list RouteDiagnostic;
  up_reconciledGeneration : Z }.

(** A route as the API server stores it, under its resource version. *)
Record StoredRoute := mkStoredRoute {
  st_ResourceVersion : Z; st_Generation : Z; st_Namespace : string;
  st_ParentRefs : list ParentReference; st_RuleCount : nat; st_Parents : list RouteParentStatus }.

(** What one attempt meets: the copy the read returns, the time, and what the
    server holds when the update arrives ([Some] error when it refuses it for
    another reason than a conflict). *)
Record Attempt := mkAttempt {
  at_Read : option StoredRoute; at_Now : Z; at_Stored : StoredRoute; at_Refused : option string }.
Inductive WriteError := errGetFresh | errConflict | errUpdateStatus (what : string) | errManagedClasses.
Inductive Written := skipped | stored (before after : StoredRoute).

(** [Status().Update]: refused when another write came in between. *)
Definition status_update (a : Attempt) (route : StoredRoute) : res WriteError Written :=
  match at_Refused a with
  | Some e => Err (errUpdateStatus e)
  | None =>
      if bool_decide (st_ResourceVersion route = st_ResourceVersion (at_Stored a))
      then Ok (stored (at_Stored a)
                 (mkStoredRoute (st_ResourceVersion (at_Stored a) + 1) (st_Generation (at_Stored a)) (st_Namespace (at_Stored a))
                    (st_ParentRefs (at_Stored a)) (st_RuleCount (at_Stored a)) (st_Parents route)))
      else Err errConflict
  end.

(** The entries of other controllers; [None] when one of ours is ahead of this reconcile. *)
Fixpoint foreign_entries (params : routeStatusUpdateParams) (parents : list RouteParentStatus) : option (list RouteParentStatus) :=
  match parents with
  | [] => Some []
  | parent :: parents' =>
      if negb (bool_decide (ps_ControllerName parent = up_controllerName params))
      then cons parent <$> foreign_entries params parents'
      else if statusGenerationStale (up_reconciledGeneration params) [ps_Conditions parent] then None
      else foreign_entries params parents'
  end.

Section writer.
Context {texts : ErrorText} {kube : KubeClient}.

Definition resolveParentRefStatus (params : routeStatusUpdateParams) (route : StoredRoute) (ref : ParentReference) (refIdx : nat)
    (classNames : gset string) (now : Z) (info : routeBindingInfo) (failedRefs : list BackendRefError) (syncErr : option RunError)
    : option RouteParentStatus :=
  if negb (parentRefSelectsManagedGateway ref (st_Namespace route) classNames) then None
  else Some (buildParentStatus ref (default (st_Namespace route) (pref_Namespace ref)) (up_controllerName params)
               (st_Generation route) now info refIdx failedRefs syncErr (up_acceptedOverride params) (up_diagnostics params)
               (st_RuleCount route)).
Definition our_entries (params : routeStatusUpdateParams) (route : StoredRoute) (classNames : gset string) (now : Z)
    (info : routeBindingInfo) (failedRefs : list BackendRefError) (syncErr : option RunError) : list RouteParentStatus :=
  List.concat (imap (fun refIdx ref =>
    option_list (resolveParentRefStatus params route ref refIdx classNames now info failedRefs syncErr)) (st_ParentRefs route)).

Definition updateRouteParentStatuses (params : routeStatusUpdateParams) (a : Attempt) (classNames : gset string)
    (info : routeBindingInfo) (failedRefs : list BackendRefError) (syncErr : option RunError) : res WriteError Written :=
  match at_Read a with
  | None => Err errGetFresh
  | Some route =>
      match foreign_entries params (st_Parents route) with
      | None => Ok skipped
      | Some foreignEntries =>
          let ours := our_entries params route classNames (at_Now a) info failedRefs syncErr in
          let available := routeParentStatusMaxCount - length foreignEntries in
          let combined := take available ours ++ foreignEntries in
          status_update a (mkStoredRoute (st_ResourceVersion route) (st_Generation route) (st_Namespace route)
                             (st_ParentRefs route) (st_RuleCount route) combined)
      end
  end.

(** [retry.RetryOnConflict]: another attempt after a conflict, at most [steps]. *)
Fixpoint RetryOnConflict {A} (steps : nat) (fn : nat -> res WriteError A) (i : nat) : res WriteError A :=
  match steps with
  | O => Err errConflict
  | S steps' =>
      match fn i with
      | Err errConflict => RetryOnConflict steps' fn (S i)
      | r => r
      end
  end.
(** [retry.DefaultRetry] *)
Definition default_retry_steps : nat := 5.

Definition updateRouteStatusGeneric (params : routeStatusUpdateParams) (attempts : nat -> Attempt)
    (info : routeBindingInfo) (failedRefs : list BackendRefError) (syncErr : option RunError) : res WriteError Written :=
  match managedClassNames (up_controllerName params) with
  | None => Err errManagedClasses
  | Some classNames =>
      RetryOnConflict default_retry_steps
        (fun i => updateRouteParentStatuses params (attempts i) classNames info failedRefs syncErr) 0
  end.
End writer.

(** ** Events *)

Record Event := mkEvent { ev_Type : string; ev_Reason : string; ev_Action : string; ev_Note : string }.
Definition EventTypeNormal : string := "Normal".
Definition EventTypeWarning : string := "Warning".
Definition diagnostic_event (d : RouteDiagnostic) : option Event :=
  match diag_Target d with
  | DiagnosticEvent =>
      Some (mkEvent (if bool_decide (diag_EventType d = EventTypeWarning) then EventTypeWarning else EventTypeNormal)
              "ConfigOverridden" "Convert" (diag_Message d))
  | DiagnosticShadowed => Some (mkEvent EventTypeWarning "RouteShadowed" "Sync" (diag_Message d))
  | DiagnosticProxyConfigPush => Some (mkEvent EventTypeWarning "ProxyConfigPushFailed" "Sync" (diag_Message d))
  | DiagnosticTunnelShared => Some (mkEvent EventTypeWarning "TunnelShared" "Sync" (diag_Message d))
  | DiagnosticAccepted | DiagnosticResolvedRefs => None
  end.
Fixpoint diagnostic_events (seen : list (DiagnosticTarget * string)) (diagnostics : list RouteDiagnostic) : list Event :=
  match diagnostics with
  | [] => []
  | d :: diagnostics' =>
      if bool_decide ((diag_Target d, diag_Message d) ∈ seen) then diagnostic_events seen diagnostics'
      else option_list (diagnostic_event d) ++ diagnostic_events ((diag_Target d, diag_Message d) :: seen) diagnostics'
  end.
Definition emitDiagnosticEvents (recorder : bool) (diagnostics : list RouteDiagnostic) : list Event :=
  if recorder then diagnostic_events [] diagnostics else [].

(** ** One entry per route *)

Definition filterFailedRefs (allFailedRefs : list BackendRefError) (routeNamespace routeName : string) : list BackendRefError :=
  List.filter (fun r => bool_decide (bre_RouteNamespace r = routeNamespace) && bool_decide (bre_RouteName r = routeName)) allFailedRefs.
Definition filterDiagnostics (all : list RouteDiagnostic) (routeNamespace routeName : string) : list RouteDiagnostic :=
  List.filter (fun d => bool_decide (diag_Namespace d = routeNamespace) && bool_decide (diag_Name d = routeName)) all.

Record routeStatusEntry (R : Type) := mkStatusEntry {
  se_route : RouteObject R;
  se_bindingInfo : routeBindingInfo;
  se_failedRefs : list BackendRefError;
  se_diagnostics : list RouteDiagnostic }.
Arguments mkStatusEntry {R}.
Arguments se_route {R}.
Arguments se_bindingInfo {R}.
Arguments se_failedRefs {R}.
Arguments se_diagnostics {R}.
Definition buildStatusEntries {R} (routes : list (RouteObject R)) (bindings : gmap string routeBindingInfo)
    (failedRefs : list BackendRefError) (diagnostics : list RouteDiagnostic) : list (routeStatusEntry R) :=
  (fun route =>
     mkStatusEntry route (default empty_binding (bindings !! (ro_Namespace route +:+ "/" +:+ ro_Name route)))
       (filterFailedRefs failedRefs (ro_Namespace route) (ro_Name route))
       (filterDiagnostics diagnostics (ro_Namespace route) (ro_Name route))) <$> routes.
Definition httpStatusEntries (sr : SyncResult) (diagnostics : list RouteDiagnostic) : list (routeStatusEntry HTTPRouteRule) :=
  buildStatusEntries (res_accepted (sr_HTTP sr)) (res_bindings (sr_HTTP sr)) (sr_HTTPFailedRefs sr) diagnostics ++
  buildStatusEntries (res_rejected (sr_HTTP sr)) (res_bindings (sr_HTTP sr)) [] [].
Definition grpcStatusEntries (sr : SyncResult) (diagnostics : list RouteDiagnostic) : list (routeStatusEntry GRPCRouteRule) :=
  buildStatusEntries (res_accepted (sr_GRPC sr)) (res_bindings (sr_GRPC sr)) (sr_GRPCFailedRefs sr) diagnostics ++
  buildStatusEntries (res_rejected (sr_GRPC sr)) (res_bindings (sr_GRPC sr)) [] [].

(** Every entry is written; the first error is returned. *)
Definition updateRoutesStatus {R E} (update : routeStatusEntry R -> option E) (entries : list (routeStatusEntry R)) : option E :=
  foldl (fun firstErr entry =>
    match update entry, firstErr with
    | Some err, None => Some err
    | _, _ => firstErr
    end) None entries.

(** ** gRPC over the tunnel *)

Definition isExplicitQUIC (protocol : string) : bool := EqualFold (TrimSpace protocol) "quic".
Definition grpcQUICUnsupportedStatusMessage : string :=
  "gRPC is not compatible with the " +:+ quoted "quic" +:+ " tunnel transport " +:+
  "(cloudflared drops HTTP trailers over QUIC, so grpc-status is lost). Set proxy.tunnel.protocol " +:+
  "to " +:+ quoted "http2" +:+ " (or " +:+ quoted "auto" +:+
  "/unset, which the controller will upgrade to http2 for gRPC) to enable this route.".
Definition grpcRouteWillBeAccepted (info : routeBindingInfo) (diagnostics : list RouteDiagnostic) (ruleCount : nat)
    (syncErr : option RunError) (override : option acceptedConditionOverride) : bool :=
  if bool_decide (is_Some syncErr) || bool_decide (is_Some override) || negb (hasAcceptedParent info) then false
  else bool_decide ((diagnosticConditions diagnostics ruleCount 0 0).1 = None).

Section update.
Context {texts : ErrorText} {kube : KubeClient} (controllerName : string) (recorder : bool).

(** [updateRouteStatus] of the HTTPRoute and of the GRPCRoute reconciler: the
    Events, then the write.  [generation] is that of the route the sync listed. *)
Definition http_updateRouteStatus (generation : Z) (attempts : nat -> Attempt) (entry : routeStatusEntry HTTPRouteRule)
    (syncErr : option RunError) : list Event * res WriteError Written :=
  (emitDiagnosticEvents recorder (se_diagnostics entry),
   updateRouteStatusGeneric (mkStatusParams controllerName None (se_diagnostics entry) generation) attempts
     (se_bindingInfo entry) (se_failedRefs entry) syncErr).
Definition grpc_override (tunnelProtocol : string) : option acceptedConditionOverride :=
  if isExplicitQUIC tunnelProtocol then Some (mkAcceptedOverride "UnsupportedProtocol" grpcQUICUnsupportedStatusMessage) else None.
Definition grpc_edge_hint : Event :=
  mkEvent EventTypeNormal "GRPCEdgeProxyingRequired" "VerifyEdgeConfig"
    ("gRPC traffic requires Cloudflare zone gRPC proxying enabled (dashboard Network → gRPC). " +:+
     "If it is disabled the Cloudflare edge returns 403 (content-type text/html) for application/grpc requests " +:+
     "zone-wide, so gRPC calls fail before reaching the proxy. This is a Cloudflare edge prerequisite, not a " +:+
     "controller error.").
Definition emitGRPCEdgeHint : list Event := if recorder then [grpc_edge_hint] else [].
Definition grpc_updateRouteStatus (tunnelProtocol : string) (generation : Z) (attempts : nat -> Attempt)
    (entry : routeStatusEntry GRPCRouteRule) (syncErr : option RunError) : list Event * res WriteError Written :=
  let override := grpc_override tunnelProtocol in
  (emitDiagnosticEvents recorder (se_diagnostics entry) ++
   (if grpcRouteWillBeAccepted (se_bindingInfo entry) (se_diagnostics entry) (length (ro_Rules (se_route entry))) syncErr override
    then emitGRPCEdgeHint else []),
   updateRouteStatusGeneric (mkStatusParams controllerName override (se_diagnostics entry) generation) attempts
     (se_bindingInfo entry) (se_failedRefs entry) syncErr).
End update.

(** ** Messages fit *)

Lemma str_take_length n s : String.length (str_take n s) = n `min` String.length s.
Proof. revert n. induction s as [|c s IH]; intros [|n]; simpl; [done..|]. by rewrite IH. Qed.
Lemma rune_cut_le msg n : rune_cut msg n <= n.
Proof. induction n as [|n IH]; simpl; [lia|]. repeat case_match; lia. Qed.
(** The cut never splits a rune: the byte after it starts one. *)
Lemma rune_cut_boundary msg n :
  n < String.length msg -> rune_cut msg n = 0 \/ exists c, String.get (rune_cut msg n) msg = Some c /\ RuneStart c = true.
Proof.
  intros Hn. induction n as [|n IH]; [by left|]. cbn [rune_cut].
  destruct (String.get (S n) msg) as [c|] eqn:Hc.
  - destruct (RuneStart c) eqn:Hr; [right; eauto|apply IH; lia].
  - exfalso. clear IH. revert n Hn Hc. induction msg as [|c msg IH]; intros n Hn Hc; simpl in *; [lia|].
    destruct msg as [|c' msg']; simpl in *; [lia|]. destruct n; [done|]. apply (IH n); [lia|done].
Qed.
Lemma truncateUTF8_length msg n : 3 <= n -> String.length (truncateUTF8 msg n) <= n.
Proof.
  intros Hn. unfold truncateUTF8. case_match eqn:H1; [by apply Nat.leb_le|]. apply Nat.leb_gt in H1.
  case_match eqn:H2; [simpl; lia|]. rewrite length_sapp, str_take_length.
  pose proof (rune_cut_le msg (n - String.length conditionTruncationMarker)). simpl in *. lia.
Qed.
Lemma truncateConditionMessage_length msg : String.length (truncateConditionMessage msg) <= conditionMessageMaxLength.
Proof. apply truncateUTF8_length. apply Nat.leb_le. by vm_compute. Qed.

(** A valid string is a sequence of encodings: a first byte and continuation bytes,
    read as one rune whatever follows. *)
Inductive encoded : string -> Prop :=
| encoded_nil : encoded ""
| encoded_cons (a : ascii) (tail s : string) :
    str_forallb continuation tail = true ->
    (forall t, ValidString (String a (tail +:+ t)) = ValidString t) ->
    encoded s -> encoded (String a (tail +:+ s)).

Lemma continuation_not_start c : continuation c = true -> RuneStart c = false.
Proof. destruct c as [[] [] [] [] [] [] [] []]; by vm_compute. Qed.
Lemma three_byte_tail a b c : three_byte a b c = true -> continuation b = true /\ continuation c = true.
Proof.
  unfold three_byte, continuation, byte_between. rewrite andb_true_iff. intros [H ->]. split; [|done]. revert H.
  repeat case_match; rewrite ?andb_true_iff, ?N.leb_le; lia.
Qed.
Lemma four_byte_tail a b c d :
  four_byte a b c d = true -> continuation b = true /\ continuation c = true /\ continuation d = true.
Proof.
  unfold four_byte. intros [[H Hc]%andb_prop Hd]%andb_prop. split; [|done]. revert H. unfold continuation, byte_between.
  repeat case_match; rewrite ?andb_true_iff, ?N.leb_le; lia.
Qed.
Lemma ValidString_encoded s : ValidString s = true -> encoded s.
Proof.
  remember (String.length s) as n eqn:Hn. revert s Hn.
  induction n as [n IH] using lt_wf_ind. intros [|a s1] Hn Hv; [constructor|].
  assert (Hsub : forall r tail s, s1 = tail +:+ s -> str_forallb continuation tail = true -> is_invalid r = false ->
    (forall t, runes (String a (tail +:+ t)) = r :: runes t) -> encoded (String a s1)).
  { intros r tail s -> Ht Hr Hq.
    assert (Hlaw : forall t, ValidString (String a (tail +:+ t)) = ValidString t).
    { intros t. unfold ValidString. rewrite Hq. cbn [existsb]. by rewrite Hr. }
    apply encoded_cons; [done|done|]. eapply IH; [|done|by rewrite <-Hlaw].
    subst n. simpl. rewrite length_sapp. lia. }
  unfold ValidString in Hv. cbn [runes] in Hv. destruct (byte_val a <? 128)%N eqn:H1.
  { apply (Hsub (RuneAscii a) "" s1); [done..|]. intros t. rewrite sapp_nil_l. cbn [runes]. by rewrite H1. }
  destruct s1 as [|b s2]; [done|]. destruct (two_byte a b) eqn:H2.
  { apply (Hsub (Rune2 a b) (String b "") s2); [done| |done|].
    - unfold two_byte in H2. apply andb_prop in H2 as [_ H2]. cbn [str_forallb]. by rewrite H2.
    - intros t. rewrite sapp_cons, sapp_nil_l. cbn [runes]. by rewrite H1, H2. }
  destruct s2 as [|c s3]; [done|]. destruct (three_byte a b c) eqn:H3.
  { apply (Hsub (Rune3 a b c) (String b (String c "")) s3); [done| |done|].
    - apply three_byte_tail in H3 as [Hb Hc]. cbn [str_forallb]. by rewrite Hb, Hc.
    - intros t. rewrite !sapp_cons, sapp_nil_l. cbn [runes]. by rewrite H1, H2, H3. }
  destruct s3 as [|d s4]; [done|]. destruct (four_byte a b c d) eqn:H4; [|done].
  apply (Hsub (Rune4 a b c d) (String b (String c (String d ""))) s4); [done| |done|].
  - apply four_byte_tail in H4 as (Hb & Hc & Hd). cbn [str_forallb]. by rewrite Hb, Hc, Hd.
  - intros t. rewrite !sapp_cons, sapp_nil_l. cbn [runes]. by rewrite H1, H2, H3, H4.
Qed.
Lemma ValidString_app s t : ValidString s = true -> ValidString (s +:+ t) = ValidString t.
Proof.
  intros Hs%ValidString_encoded. induction Hs as [|a tail s _ Hq _ IH]; [done|].
  rewrite <-IH, <-(Hq (s +:+ t)). by rewrite sapp_cons, sapp_assoc.
Qed.
Lemma get_app_l tail s k : k < String.length tail -> String.get k (tail +:+ s) = String.get k tail.
Proof. revert k. induction tail as [|c tail IH]; intros k Hk; simpl in Hk; [lia|].
  rewrite sapp_cons. destruct k; [done|]. apply IH. lia. Qed.
Lemma get_app_r tail s k : String.get (String.length tail + k) (tail +:+ s) = String.get k s.
Proof. induction tail as [|c tail IH]; [by rewrite sapp_nil_l|]. rewrite sapp_cons. apply IH. Qed.
Lemma str_take_app_r tail s k : str_take (String.length tail + k) (tail +:+ s) = tail +:+ str_take k s.
Proof. induction tail as [|c tail IH]; [by rewrite !sapp_nil_l|]. rewrite !sapp_cons. simpl. by rewrite IH. Qed.
Lemma get_forallb p s k c : str_forallb p s = true -> String.get k s = Some c -> p c = true.
Proof.
  revert k. induction s as [|x s IH]; intros k Hf Hg; simpl in *; [done|]. apply andb_prop in Hf as [Hx Hf].
  destruct k; [by simplify_eq/=|eauto].
Qed.
Lemma encoded_take s k :
  encoded s -> (k = 0 \/ exists c, String.get k s = Some c /\ RuneStart c = true) -> ValidString (str_take k s) = true.
Proof.
  intros Hs. revert k. induction Hs as [|a tail s Htail Hq _ IH]; intros k Hk; [by destruct k|].
  destruct k as [|k]; [done|]. destruct Hk as [?|(c & Hc & Hr)]; [done|].
  change (String.get k (tail +:+ s) = Some c) in Hc.
  destruct (decide (k < String.length tail)) as [Hlt|Hge].
  { rewrite get_app_l in Hc by done. rewrite (continuation_not_start c) in Hr; [done|]. by eapply get_forallb. }
  replace k with (String.length tail + (k - String.length tail)) in Hc |- * by lia.
  rewrite get_app_r in Hc. change (ValidString (String a (str_take (String.length tail + (k - String.length tail)) (tail +:+ s))) = true).
  rewrite str_take_app_r, Hq. apply IH. eauto.
Qed.

(** a condition message is cut to fit and stays text: a message is shortened
    to at most the cap, a valid UTF-8 string stays valid (the cut backs up to the
    start of a rune), and a message within the cap is left as it is. *)
Theorem condition_message_fits msg n :
  3 <= n ->
  String.length (truncateUTF8 msg n) <= n /\
  (ValidString msg = true -> ValidString (truncateUTF8 msg n) = true) /\
  (String.length msg <= n -> truncateUTF8 msg n = msg).
Proof.
  intros Hn. split; [by apply truncateUTF8_length|]. split.
  - intros Hv. unfold truncateUTF8. case_match eqn:H1; [done|]. apply Nat.leb_gt in H1.
    case_match; [done|]. rewrite ValidString_app; [done|]. apply encoded_take; [by apply ValidString_encoded|].
    apply rune_cut_boundary. simpl. lia.
  - intros Hle. unfold truncateUTF8. by rewrite (proj2 (Nat.leb_le _ _) Hle).
Qed.
(** An em-dash at the cut: the whole rune goes. *)
Lemma condition_message_fits_witness :
  String.length (truncateUTF8 "ab—cd" 6) <= 6 /\ truncateUTF8 "ab—cd" 6 = "ab...".
Proof. split; [apply (condition_message_fits "ab—cd" 6); lia|by vm_compute]. Defined.

(** ** What a parent's status says *)

Section status.
Context {texts : ErrorText}.

Definition effective_override (override : option acceptedConditionOverride) (diagnostics : list RouteDiagnostic) (ruleCount : nat)
    : option acceptedConditionOverride :=
  match override with Some o => Some o | None => (diagnosticConditions diagnostics ruleCount 0 0).1 end.
(** Nothing speaks against the route on this parent. *)
Definition parent_serves (info : routeBindingInfo) (refIdx : nat) (syncErr : option RunError)
    (override : option acceptedConditionOverride) (diagnostics : list RouteDiagnostic) (ruleCount : nat) : Prop :=
  (forall b, bi_bindingResults info !! refIdx = Some b -> br_Accepted b = true) /\
  perParentSyncErr info refIdx syncErr = None /\
  effective_override override diagnostics ruleCount = None.

Lemma diagnosticConditions_override diagnostics ruleCount g t :
  (diagnosticConditions diagnostics ruleCount g t).1 = (diagnosticConditions diagnostics ruleCount 0 0).1.
Proof. unfold diagnosticConditions. by repeat case_match. Qed.
Lemma diagnosticConditions_partial diagnostics ruleCount g t c :
  (diagnosticConditions diagnostics ruleCount g t).2 = Some c ->
  cond_Type c = RouteConditionPartiallyInvalid /\ cond_ObservedGeneration c = g /\
  String.length (cond_Message c) <= conditionMessageMaxLength.
Proof.
  unfold diagnosticConditions. repeat case_match; intros H'; simplify_eq/=. split_and!; [done..|].
  apply truncateConditionMessage_length.
Qed.
Lemma buildDiagnosticCondition_shape diagnostics target type status reason g t c :
  buildDiagnosticCondition diagnostics target type status reason g t = Some c ->
  cond_Type c = type /\ cond_ObservedGeneration c = g /\ cond_Status c = status /\ String.length (cond_Message c) <= conditionMessageMaxLength.
Proof.
  unfold buildDiagnosticCondition. case_match; intros; simplify_eq/=. split_and!; [done..|]. apply truncateConditionMessage_length.
Qed.
Lemma buildAcceptedCondition_status g t info refIdx syncErr override :
  cond_Status (buildAcceptedCondition g t info refIdx syncErr override) = ConditionTrue <->
  (forall b, bi_bindingResults info !! refIdx = Some b -> br_Accepted b = true) /\
  perParentSyncErr info refIdx syncErr = None /\ override = None.
Proof.
  unfold buildAcceptedCondition. destruct (bi_bindingResults info !! refIdx) as [b|] eqn:Hb;
    [destruct (br_Accepted b) eqn:Ha|]; destruct (perParentSyncErr info refIdx syncErr), override; cbn;
    (split; [intros H; first [discriminate H|split_and!; [intros; by simplify_eq/=|done..]]
            |intros (H1 & H2 & H3); first [discriminate|done|specialize (H1 _ eq_refl); congruence]]).
Qed.

(** The condition types an accepted parent may add, in this order. *)
Definition extra_types : list string :=
  [RouteConditionPartiallyInvalid; routeConditionShadowed; routeConditionProxyConfigPushed; routeConditionTunnelShared].
Lemma option_list_types (o : option Condition) type :
  (forall c, o = Some c -> cond_Type c = type) -> cond_Type <$> option_list o `sublist_of` [type].
Proof. destruct o as [c|]; intros H; simpl; [rewrite (H c eq_refl); done|repeat constructor]. Qed.
Lemma buildResolvedRefsCondition_status g t failed diagnostics :
  cond_Status (buildResolvedRefsCondition g t failed diagnostics) = ConditionTrue <->
  failed = [] /\ with_target DiagnosticResolvedRefs diagnostics = [].
Proof.
  unfold buildResolvedRefsCondition. destruct failed; [|by split; [|intros []]].
  destruct (with_target DiagnosticResolvedRefs diagnostics); by split; [|intros []].
Qed.

(** C40: the status of one parent is well formed: the Accepted and the ResolvedRefs
    condition come first, no condition type occurs twice, every condition carries
    the generation of the route it was computed from, Accepted is True exactly when
    no binding rejection, sync error or override speaks against this parent,
    ResolvedRefs is True exactly when no reference failed, and the informational
    conditions stand only beside Accepted=True, with messages within the cap. *)
Theorem parent_status_well_formed ref ns cn g t info refIdx failed syncErr override diagnostics ruleCount :
  exists accepted resolved extras,
    ps_Conditions (buildParentStatus ref ns cn g t info refIdx failed syncErr override diagnostics ruleCount) =
      accepted :: resolved :: extras /\
    cond_Type accepted = RouteConditionAccepted /\ cond_Type resolved = RouteConditionResolvedRefs /\
    cond_Type <$> extras `sublist_of` extra_types /\ NoDup (cond_Type <$> accepted :: resolved :: extras) /\
    Forall (fun c => cond_ObservedGeneration c = g) (accepted :: resolved :: extras) /\
    (cond_Status accepted = ConditionTrue <-> parent_serves info refIdx syncErr override diagnostics ruleCount) /\
    (cond_Status resolved = ConditionTrue <-> failed = [] /\ with_target DiagnosticResolvedRefs diagnostics = []) /\
    (extras <> [] -> cond_Status accepted = ConditionTrue) /\
    Forall (fun c => String.length (cond_Message c) <= conditionMessageMaxLength) extras.
Proof.
  unfold buildParentStatus. destruct (diagnosticConditions diagnostics ruleCount g t) as [dov partial] eqn:Hd.
  pose proof (diagnosticConditions_override diagnostics ruleCount g t) as Hov. rewrite Hd in Hov. cbn [fst] in Hov.
  cbn [ps_Conditions app]. set (acc := buildAcceptedCondition g t info refIdx syncErr _).
  do 3 eexists. split; [reflexivity|].
  set (extras := (if bool_decide (cond_Status acc = ConditionTrue) then option_list partial else []) ++ _).
  assert (Hextra : (cond_Type <$> extras `sublist_of` extra_types) /\
    Forall (fun c => cond_ObservedGeneration c = g /\ String.length (cond_Message c) <= conditionMessageMaxLength) extras /\
    (extras <> [] -> cond_Status acc = ConditionTrue)).
  { subst extras. case_bool_decide as Hacc_true; [|split_and!; [apply sublist_nil_l|constructor|done]].
    rewrite !fmap_app, !Forall_app. split_and!; try done.
    - unfold extra_types. change [?a; ?b; ?c; ?d] with ([a] ++ [b] ++ [c] ++ [d]).
      repeat apply sublist_app; apply option_list_types; intros c Hc;
        [apply (diagnosticConditions_partial diagnostics ruleCount g t); by rewrite Hd|by eapply buildDiagnosticCondition_shape..].
    - destruct partial as [c|]; simpl; constructor; [|done].
      apply (diagnosticConditions_partial diagnostics ruleCount g t). by rewrite Hd.
    - destruct (buildShadowedCondition _ _ _) as [c|] eqn:Hc; simpl; constructor; [|done].
      by apply buildDiagnosticCondition_shape in Hc as (_ & ? & _ & ?).
    - destruct (buildDiagnosticCondition _ _ routeConditionProxyConfigPushed _ _ _ _) as [c|] eqn:Hc; simpl; constructor; [|done].
      by apply buildDiagnosticCondition_shape in Hc as (_ & ? & _ & ?).
    - destruct (buildDiagnosticCondition _ _ routeConditionTunnelShared _ _ _ _) as [c|] eqn:Hc; simpl; constructor; [|done].
      by apply buildDiagnosticCondition_shape in Hc as (_ & ? & _ & ?). }
  destruct Hextra as (Htypes & Hshape & Hacc).
  assert (Hacc_type : cond_Type acc = RouteConditionAccepted /\ cond_ObservedGeneration acc = g).
  { subst acc. unfold buildAcceptedCondition. by repeat case_match. }
  assert (Hres : let c := buildResolvedRefsCondition g t failed diagnostics in
    cond_Type c = RouteConditionResolvedRefs /\ cond_ObservedGeneration c = g).
  { unfold buildResolvedRefsCondition. by repeat case_match. }
  destruct Hacc_type as [Ht1 Hg1], Hres as [Ht2 Hg2]. split_and!; try done.
  - cbn [fmap list_fmap]. rewrite Ht1, Ht2. apply (sublist_NoDup _ (RouteConditionAccepted :: RouteConditionResolvedRefs :: extra_types)).
    + by apply (bool_decide_unpack _); vm_compute.
    + by do 2 constructor.
  - repeat constructor; [done..|]. eapply Forall_impl; [done|]. by intros ? [].
  - subst acc. rewrite buildAcceptedCondition_status. unfold parent_serves, effective_override. by rewrite Hov.
  - apply buildResolvedRefsCondition_status.
  - eapply Forall_impl; [done|]. by intros ? [].
Qed.
End status.

(** ** The write keeps what is not ours *)

(** Entries of other controllers, and ours. *)
Definition foreign (params : routeStatusUpdateParams) (parents : list RouteParentStatus) : list RouteParentStatus :=
  List.filter (fun p => negb (bool_decide (ps_ControllerName p = up_controllerName params))) parents.
Definition own (params : routeStatusUpdateParams) (parents : list RouteParentStatus) : list RouteParentStatus :=
  List.filter (fun p => bool_decide (ps_ControllerName p = up_controllerName params)) parents.
(** No entry of ours was computed from a newer generation than this reconcile's. *)
Definition not_ahead (params : routeStatusUpdateParams) (parents : list RouteParentStatus) : Prop :=
  Forall (fun p => Forall (fun c => (cond_ObservedGeneration c <= up_reconciledGeneration params)%Z) (ps_Conditions p)) (own params parents).

Lemma statusGenerationStale_false gen conditions :
  statusGenerationStale gen [conditions] = false <-> Forall (fun c => (cond_ObservedGeneration c <= gen)%Z) conditions.
Proof.
  unfold statusGenerationStale. cbn [existsb]. rewrite orb_false_r.
  induction conditions as [|c cs IH]; cbn [existsb]; [by rewrite Forall_nil|].
  rewrite orb_false_iff, Forall_cons, IH, Z.ltb_ge. done.
Qed.
Lemma foreign_entries_spec params parents :
  match foreign_entries params parents with
  | Some kept => kept = foreign params parents /\ not_ahead params parents
  | None => ~ not_ahead params parents
  end.
Proof.
  unfold not_ahead, own, foreign. induction parents as [|p parents IH]; [by repeat constructor|].
  cbn [foreign_entries List.filter].
  destruct (bool_decide (ps_ControllerName p = up_controllerName params)); cbn [negb].
  - destruct (statusGenerationStale _ _) eqn:Hs.
    + rewrite Forall_cons. intros [H _]. apply statusGenerationStale_false in H. congruence.
    + apply statusGenerationStale_false in Hs. destruct (foreign_entries params parents); rewrite Forall_cons; naive_solver.
  - destruct (foreign_entries params parents); simpl; naive_solver.
Qed.

Lemma RetryOnConflict_spec {A} steps (fn : nat -> res WriteError A) i :
  (exists k, k < steps /\ (forall j, j < k -> fn (i + j) = Err errConflict) /\
     fn (i + k) <> Err errConflict /\ RetryOnConflict steps fn i = fn (i + k)) \/
  ((forall j, j < steps -> fn (i + j) = Err errConflict) /\ RetryOnConflict steps fn i = Err errConflict).
Proof.
  revert i. induction steps as [|steps IH]; intros i; [right; split; [lia|done]|]. cbn [RetryOnConflict].
  assert (fn i = Err errConflict \/ fn i <> Err errConflict) as [Hc|Hc].
  { destruct (fn i) as [|[]]; first [by left|by right]. }
  - rewrite Hc. destruct (IH (S i)) as [(k & Hk & Hj & Hn & Hr)|[Hj Hr]]; [left; exists (S k)|right].
    + rewrite Nat.add_succ_r. split_and!; [lia| |done|done]. intros [|j] Hlt; [by rewrite Nat.add_0_r|].
      rewrite Nat.add_succ_r. apply Hj. lia.
    + split; [|done]. intros [|j] Hlt; [by rewrite Nat.add_0_r|]. rewrite Nat.add_succ_r. apply Hj. lia.
  - left. exists 0. rewrite Nat.add_0_r. split_and!; [lia|lia|done|]. by repeat case_match; simplify_eq.
Qed.

Section writes.
Context {texts : ErrorText} {kube : KubeClient}.

Lemma our_entries_own params route classNames now info failed syncErr :
  Forall (fun p => ps_ControllerName p = up_controllerName params) (our_entries params route classNames now info failed syncErr).
Proof.
  unfold our_entries. apply Forall_concat, Forall_forall. intros l (i & ref & -> & _)%elem_of_lookup_imap.
  unfold resolveParentRefStatus. case_match; simpl; [constructor|]. repeat constructor. unfold buildParentStatus. by case_match.
Qed.
Lemma filter_all_true {A} (f : A -> bool) l : Forall (fun x => f x = true) l -> List.filter f l = l.
Proof. induction 1 as [|x l Hx _ IH]; [done|]. simpl. by rewrite Hx, IH. Qed.
Lemma filter_all_false {A} (f : A -> bool) l : Forall (fun x => f x = false) l -> List.filter f l = [].
Proof. induction 1 as [|x l Hx _ IH]; [done|]. simpl. by rewrite Hx, IH. Qed.
Lemma own_foreign params ours parents :
  Forall (fun p => ps_ControllerName p = up_controllerName params) ours ->
  foreign params (ours ++ foreign params parents) = foreign params parents /\
  own params (ours ++ foreign params parents) = ours.
Proof.
  intros Ho. unfold foreign, own. rewrite !List.filter_app. split.
  - rewrite (filter_all_false _ ours); [|eapply Forall_impl; [done|]; intros p Hp; simpl; by rewrite bool_decide_true].
    rewrite (filter_all_true _ (List.filter _ _)); [done|]. apply Forall_forall. by intros p [_ ?]%list_elem_of_In%List.filter_In.
  - rewrite (filter_all_true _ ours); [|eapply Forall_impl; [done|]; intros p Hp; by apply bool_decide_true].
    rewrite (filter_all_false _ (List.filter _ _)); [by rewrite app_nil_r|]. apply Forall_forall.
    intros p [_ ?]%list_elem_of_In%List.filter_In. by destruct (bool_decide _).
Qed.

(** What the write leaves in place of the route it found. *)
Definition write_of (params : routeStatusUpdateParams) (classNames : gset string) (now : Z) (info : routeBindingInfo)
    (failed : list BackendRefError) (syncErr : option RunError) (before after : StoredRoute) : Prop :=
  not_ahead params (st_Parents before) /\
  foreign params (st_Parents after) = foreign params (st_Parents before) /\
  own params (st_Parents after) =
    take (routeParentStatusMaxCount - length (foreign params (st_Parents before)))
      (our_entries params before classNames now info failed syncErr) /\
  (length (foreign params (st_Parents before)) <= routeParentStatusMaxCount -> length (st_Parents after) <= routeParentStatusMaxCount) /\
  st_Generation after = st_Generation before /\ st_ParentRefs after = st_ParentRefs before.

Lemma updateRouteParentStatuses_stored params a classNames info failed syncErr before after :
  (forall r, at_Read a = Some r -> st_ResourceVersion r = st_ResourceVersion (at_Stored a) -> r = at_Stored a) ->
  updateRouteParentStatuses params a classNames info failed syncErr = Ok (stored before after) ->
  before = at_Stored a /\ write_of params classNames (at_Now a) info failed syncErr before after.
Proof.
  unfold updateRouteParentStatuses, status_update. intros Hver H. destruct (at_Read a) as [r|]; [|done].
  pose proof (foreign_entries_spec params (st_Parents r)) as Hf.
  destruct (foreign_entries params (st_Parents r)) as [kept|]; [|done]. destruct Hf as [-> Hna].
  destruct (at_Refused a); [done|]. case_bool_decide as Hv; [|done]. cbn [st_ResourceVersion] in Hv.
  specialize (Hver r eq_refl Hv). injection H as <- <-. split; [done|]. rewrite <-Hver. unfold write_of. cbn [st_Parents st_Generation st_ParentRefs].
  destruct (own_foreign params (take (routeParentStatusMaxCount - length (foreign params (st_Parents r)))
      (our_entries params r classNames (at_Now a) info failed syncErr)) (st_Parents r)) as [Hf Ho].
  { apply Forall_take, our_entries_own. }
  split_and!; [done..| |done|done].
  intros Hle. rewrite length_app, length_take. lia.
Qed.
Lemma updateRouteParentStatuses_other params a classNames info failed syncErr :
  match updateRouteParentStatuses params a classNames info failed syncErr with
  | Ok (stored _ _) => True
  | Ok skipped => exists r, at_Read a = Some r /\ ~ not_ahead params (st_Parents r)
  | Err errGetFresh => at_Read a = None
  | Err errConflict => exists r, at_Read a = Some r /\ st_ResourceVersion r <> st_ResourceVersion (at_Stored a)
  | Err (errUpdateStatus e) => at_Refused a = Some e
  | Err errManagedClasses => False
  end.
Proof.
  unfold updateRouteParentStatuses, status_update. destruct (at_Read a) as [r|]; [|done].
  pose proof (foreign_entries_spec params (st_Parents r)) as Hf.
  destruct (foreign_entries params (st_Parents r)); [|by eauto].
  destruct (at_Refused a); [done|]. case_bool_decide; [done|]. by eauto.
Qed.

(** C6: the status write touches only this controller's entries and never moves
    back: when a write goes through, it replaced the route the server held at that
    moment, the entries of other controllers stand as they were and in their order,
    ours are exactly those of the managed parents (cut to the slots left of the
    32), and none of ours had been computed from a newer generation; a write is
    skipped only when one had; and a conflict is returned only after five attempts
    that each met another write. *)
Theorem status_write_exact params attempts info failed syncErr classNames :
  managedClassNames (up_controllerName params) = Some classNames ->
  (forall i r, at_Read (attempts i) = Some r -> st_ResourceVersion r = st_ResourceVersion (at_Stored (attempts i)) ->
     r = at_Stored (attempts i)) ->
  match updateRouteStatusGeneric params attempts info failed syncErr with
  | Ok (stored before after) =>
      exists i, i < default_retry_steps /\ before = at_Stored (attempts i) /\
        write_of params classNames (at_Now (attempts i)) info failed syncErr before after
  | Ok skipped =>
      exists i r, i < default_retry_steps /\ at_Read (attempts i) = Some r /\ ~ not_ahead params (st_Parents r)
  | Err errGetFresh => exists i, i < default_retry_steps /\ at_Read (attempts i) = None
  | Err errConflict =>
      forall i, i < default_retry_steps ->
        exists r, at_Read (attempts i) = Some r /\ st_ResourceVersion r <> st_ResourceVersion (at_Stored (attempts i))
  | Err (errUpdateStatus e) => exists i, i < default_retry_steps /\ at_Refused (attempts i) = Some e
  | Err errManagedClasses => False
  end.
Proof.
  intros Hclasses Hver. unfold updateRouteStatusGeneric. rewrite Hclasses.
  destruct (RetryOnConflict_spec default_retry_steps
    (fun i => updateRouteParentStatuses params (attempts i) classNames info failed syncErr) 0) as [(k & Hk & _ & Hn & ->)|[Hj ->]].
  - pose proof (updateRouteParentStatuses_other params (attempts k) classNames info failed syncErr) as Ho. cbn [Nat.add] in *.
    destruct (updateRouteParentStatuses params (attempts k) classNames info failed syncErr) as [[|before after]|[]] eqn:E; try by eauto.
    { destruct Ho as (r & ? & ?). eauto. }
    apply updateRouteParentStatuses_stored in E as [-> Hw]; eauto.
  - intros i Hi. specialize (Hj i Hi).
    pose proof (updateRouteParentStatuses_other params (attempts i) classNames info failed syncErr) as Ho. cbn [Nat.add] in *. by rewrite Hj in Ho.
Qed.
End writes.

(** ** Examples *)

Definition terse_errors : ErrorText := {| sync_error_text _ := "sync failed"; run_error_text _ := "run failed" |}.
Definition foreign_entry : RouteParentStatus := mkRouteParentStatus (ref_to "foreign") "them" [].
Definition our_old_entry : RouteParentStatus :=
  mkRouteParentStatus (ref_to "gone") "us" [mkCondition RouteConditionAccepted ConditionTrue 1 0 "Accepted" ""].
Definition stored_route (version : Z) : StoredRoute :=
  mkStoredRoute version 2 "prod" [ref_to "edge"; ref_to "foreign"] 1 [our_old_entry; foreign_entry].
(** The first attempt meets another write, the second goes through. *)
Definition two_attempts (i : nat) : Attempt :=
  match i with
  | 0 => mkAttempt (Some (stored_route 7)) 10 (stored_route 8) None
  | _ => mkAttempt (Some (stored_route 8)) 11 (stored_route 8) None
  end.
Definition example_params : routeStatusUpdateParams := mkStatusParams "us" None [] 2.
Definition example_write : res WriteError Written :=
  @updateRouteStatusGeneric terse_errors two_gateways example_params two_attempts empty_binding [] None.
(** The second attempt keeps the foreign entry and replaces ours. *)
Lemma status_write_exact_witness :
  exists before after, example_write = Ok (stored before after) /\
    foreign example_params (st_Parents after) = [foreign_entry] /\
    ps_ParentRef <$> own example_params (st_Parents after) = [mkParentReference None None (Some "prod") "edge" None None].
Proof.
  pose proof (@status_write_exact terse_errors two_gateways example_params two_attempts empty_binding [] None {["class"]}) as H.
  assert (E : match example_write with
              | Ok (stored b a) => bool_decide (st_ResourceVersion b = 8%Z /\ ps_ControllerName <$> st_Parents a = ["us"; "them"])
              | _ => false end = true) by (vm_compute; reflexivity).
  change (@updateRouteStatusGeneric terse_errors two_gateways example_params two_attempts empty_binding [] None)
    with example_write in H.
  destruct example_write as [[|before after]|]; [done| |done]. exists before, after. split; [done|].
  destruct H as (i & _ & -> & _ & Hf & Ho & _).
  - apply (bool_decide_unpack _). vm_compute. done.
  - intros [|i] r [= <-]; [done|done].
  - rewrite Hf, Ho. destruct i; split; vm_compute; reflexivity.
Defined.

(** ** The Accepted gate of the gRPC hint *)

Section hint.
Context {texts : ErrorText}.

Lemma hasAcceptedParent_spec info :
  hasAcceptedParent info = true <-> exists refIdx b, bi_bindingResults info !! refIdx = Some b /\ br_Accepted b = true.
Proof.
  unfold hasAcceptedParent. rewrite existsb_exists. split.
  - intros ([i b] & Hin & Ha). apply list_elem_of_In, elem_of_map_to_list in Hin. eauto.
  - intros (i & b & Hi & Ha). exists (i, b). split; [|done]. by apply list_elem_of_In, elem_of_map_to_list.
Qed.
(** Where no parent has a sync error of its own, the hint is emitted exactly when
    some bound parent is reported Accepted=True. *)
Lemma edge_hint_exact info diagnostics ruleCount syncErr override :
  bi_syncErrByGateway info = ∅ ->
  grpcRouteWillBeAccepted info diagnostics ruleCount syncErr override = true <->
  exists refIdx b, bi_bindingResults info !! refIdx = Some b /\
    parent_serves info refIdx syncErr override diagnostics ruleCount.
Proof.
  intros Hnone. unfold grpcRouteWillBeAccepted, parent_serves, perParentSyncErr, effective_override. rewrite Hnone.
  transitivity (syncErr = None /\ override = None /\ hasAcceptedParent info = true /\ (diagnosticConditions diagnostics ruleCount 0 0).1 = None).
  { destruct syncErr, override, (hasAcceptedParent info); simpl; rewrite ?bool_decide_eq_true; naive_solver. }
  rewrite hasAcceptedParent_spec. split.
  - intros (-> & -> & (i & b & Hi & Ha) & Hd). exists i, b. split; [done|]. split_and!; [by intros; simplify_eq| |done].
    by destruct (bi_parentGateways info !! i); rewrite ?lookup_empty.
  - intros (i & b & Hi & Ha & Hs & Ho). split_and!; [|by destruct override|by eauto|by destruct override].
    destruct syncErr; [|done]. by destruct (bi_parentGateways info !! i); rewrite ?lookup_empty in Hs.
Qed.
End hint.

(** A parent whose own tunnel failed is Pending, and the hint is emitted all the same. *)
Definition pending_parent : routeBindingInfo :=
  mkRouteBindingInfo {[0 := mkBindingResult true "Accepted" "" ["web"]]} {["prod/edge"]} {[0 := "prod/edge"]}
    {["prod/edge" := errBrokenDataPlane]}.
Lemma edge_hint_on_pending_route :
  grpcRouteWillBeAccepted pending_parent [] 1 None None = true /\
  cond_Status (@buildAcceptedCondition terse_errors 1 0 pending_parent 0 None None) = ConditionFalse.
Proof. split; vm_compute; reflexivity. Qed.
(** A parent without a binding result, e.g. one whose binding could not be
    evaluated, is reported Accepted=True. *)
Lemma unevaluated_parent_accepted :
  cond_Status (@buildAcceptedCondition terse_errors 1 0 empty_binding 0 None None) = ConditionTrue.
Proof. by vm_compute. Qed.
(** The failed references are not cut to the cap of a condition message: 16 rules
    of 16 references to names of 63 bytes exceed it. *)
Definition many_failed_refs : list BackendRefError :=
  replicate 256 (mkBackendRefError "a" "r" (Join (replicate 63 "b") "") (Join (replicate 63 "n") "") 80 "" "" "").
Lemma failed_refs_message_over_cap :
  conditionMessageMaxLength < String.length (cond_Message (buildResolvedRefsCondition 1 0 many_failed_refs [])).
Proof. apply Nat.ltb_lt. vm_compute. reflexivity. Qed.
(** The diagnostics of an HTTPRoute land on the GRPCRoute of the same name. *)
Lemma diagnostics_cross_kinds : exists (sr : SyncResult) d,
  (se_diagnostics <$> httpStatusEntries sr [d] = [[d]]) /\ (se_diagnostics <$> grpcStatusEntries sr [d] = [[d]]).
Proof.
  exists (mkSyncResult (mkRouteResult [mkRouteObject "a" "r" 0 [] [] []] [] ∅) (mkRouteResult [mkRouteObject "a" "r" 0 [] [] []] [] ∅)
            [] [] [] "" [] []), (mkRouteDiagnostic "a" "r" 0 DiagnosticAccepted "" "HTTPRoute rule 0" true "").
  split; vm_compute; reflexivity.
Qed.
