(* ===== verification/PushSync.v ===== *)
(** * Pushing configurations to the data planes ([controller/proxy_syncer.go])

    The in-memory push state of the proxy syncer, one [pushTarget] per data
    plane, and every operation on it: the two locked phases around the lock-free
    push, eviction, and the replay to endpoints that joined later.  The replicas,
    the network and the DNS are the world a step relation runs the operations in. *)
From Stdlib Require Import Ascii.
From stdpp Require Import sorting.
From stdpp Require Import base sets gmap strings list.
From S2P Require Import Prelude GoStrings GoHttp ProxyConfig Matcher Shadow RouterState ConfigPush RouteBinding IngressBuild BackendPasses Converter ConfigResolver ListenerView ParentBinding EffectiveHostnames RoutePartition SyncAll.

(** ** Endpoints *)

(** [net.Resolver.LookupHost]; [None] is an error. *)
Class HostLookup := LookupHost : string -> option (list string).

(** [url.URL.Hostname] and [url.URL.Port] *)
Definition validOptionalPort (port : string) : bool :=
  match port with
  | EmptyString => true
  | String c digits => bool_decide (c = ":"%char) && str_forallb is_digit digits
  end.
Definition splitHostPort (hostPort : string) : string * string :=
  let '(host, port) :=
    match LastIndexByte hostPort ":" with
    | Some colon => if validOptionalPort (str_drop colon hostPort) then (str_take colon hostPort, str_drop (S colon) hostPort)
                    else (hostPort, "")
    | None => (hostPort, "")
    end in
  (if HasPrefix host "[" && HasSuffix host "]" then str_take (String.length host - 2) (str_drop 1 host) else host, port).
(** [net.JoinHostPort] *)
Definition JoinHostPort (host port : string) : string :=
  if ContainsByte host ":" then "[" +:+ host +:+ "]:" +:+ port else host +:+ ":" +:+ port.

Section endpoints.
Context {parser : UrlParser} {dns : HostLookup}.

Definition resolve_endpoint (endpoint : string) : list string :=
  match url_Parse endpoint with
  | None => [endpoint]
  | Some parsed =>
      let '(hostname, port) := splitHostPort (url_Host parsed) in
      match LookupHost hostname with
      | None | Some [] => [endpoint]
      | Some addrs =>
          (fun addr => URL_String (mkURL (url_Scheme parsed)
             (if negb (bool_decide (port = "")) then JoinHostPort addr port else addr) (url_Path parsed) "" "")) <$> addrs
      end
  end.
Definition resolveEndpoints (endpoints : list string) : list string := endpoints ≫= resolve_endpoint.
End endpoints.

(** ** Building a configuration *)

Section build.
Context {durations : DurationParser} {parser : UrlParser} {sorter : SortFunc}.
Context {cluster : Cluster} {kube : KubeClient} {views : ListenerViews}.
Context (rv grpcRv : Resolvers) (cli : ServiceReader).

(** The version counter is threaded through; [grpcRv] differs from [rv] in the
    kind its reference validator speaks for. *)
Definition buildProxyConfig (routes : list (RouteObject HTTPRouteRule)) (grpcRoutes : list (RouteObject GRPCRouteRule))
    (failedRefs grpcFailedRefs : list BackendRefError) (counter : Z) : Config * Z :=
  let routes := withDefaultRedirectScheme (withEffectiveHostnames routes) in
  let '(cfg, counter) := ConvertHTTPRoutes rv routes counter in
  if 0 <? length grpcRoutes then
    let grpcRoutes := withEffectiveHostnamesGRPC grpcRoutes in
    let '(grpcCfg, counter) := ConvertGRPCRoutes grpcRv grpcRoutes counter in
    (finishProxyConfig cli (rv_clusterDomain rv) cfg grpcCfg (http_projection <$> routes) (grpc_projection <$> grpcRoutes) failedRefs grpcFailedRefs,
     counter)
  else
    (finishProxyConfig cli (rv_clusterDomain rv) cfg (mkConfig 0 [] false [] []) (http_projection <$> routes) [] failedRefs grpcFailedRefs,
     counter).
End build.

(** ** The push state *)

Record pushTarget := mkPushTarget {
  pt_lastCfg : option Config;
  pt_lastPushedHash : string;
  pt_lastPushedToken : string;
  pt_lastPushedEndpoints : gset string;
  pt_endpointURLs : list string;
  pt_authToken : string;
  pt_consecutivePushFail : Z;
}.
Definition new_target : pushTarget := mkPushTarget None "" "" ∅ [] "" 0.
(** [ProxySyncer.targets] *)
Definition Targets : Type := gmap string pushTarget.

Definition endpointSetsEqual (previous : gset string) (resolved : list string) : bool :=
  (size previous =? length resolved) && forallb (fun endpoint => bool_decide (endpoint ∈ previous)) resolved.
Definition shouldSkipPush (cfgHash lastPushedHash authToken lastPushedToken : string) (lastPushedEndpoints : gset string)
    (resolved : list string) : bool :=
  negb (bool_decide (cfgHash = "")) && bool_decide (cfgHash = lastPushedHash) && bool_decide (authToken = lastPushedToken) &&
  endpointSetsEqual lastPushedEndpoints resolved.

Definition targetLocked (key : string) (targets : Targets) : pushTarget := default new_target (targets !! key).

Section operations.
Context {hash : Sha256} {codec : JsonConfig}.

Definition hashProxyConfig (cfg : Config) : string :=
  match config_Marshal (set_version 0 cfg) with
  | None => ""
  | Some payload => hex_EncodeToString (sha256_Sum payload)
  end.

Record preparedPush := mkPreparedPush {
  pp_cfg : Config; pp_cfgHash : string; pp_diagnostics : list RouteDiagnostic; pp_skip : bool }.

(** The locked phase before a push; [cfg] is the configuration built in it. *)
Definition preparePush (key authToken : string) (endpoints resolved : list string) (cfg : Config) (targets : Targets)
    : preparedPush * Targets :=
  let target := targetLocked key targets in
  let cfgHash := hashProxyConfig cfg in
  let skip := shouldSkipPush cfgHash (pt_lastPushedHash target) authToken (pt_lastPushedToken target)
                (pt_lastPushedEndpoints target) resolved in
  (mkPreparedPush cfg cfgHash (cfg_Diagnostics cfg) skip,
   <[key := mkPushTarget (pt_lastCfg target) (pt_lastPushedHash target) (pt_lastPushedToken target)
              (pt_lastPushedEndpoints target) endpoints authToken
              (if skip then 0 else pt_consecutivePushFail target)]> targets).

(** The locked phase after it; [failed] when some endpoint reported an error. *)
Definition recordPush (key authToken cfgHash : string) (cfg : Config) (resolved : list string) (failed : bool) (targets : Targets)
    : Targets :=
  match targets !! key with
  | None => targets
  | Some target =>
      <[key := if failed
               then mkPushTarget (pt_lastCfg target) "" (pt_lastPushedToken target) ∅
                      (pt_endpointURLs target) (pt_authToken target) (pt_consecutivePushFail target + 1)
               else mkPushTarget (Some cfg) cfgHash authToken (list_to_set resolved)
                      (pt_endpointURLs target) (pt_authToken target) 0]> targets
  end.

Definition pushFailureStreak (key : string) (targets : Targets) : Z :=
  match targets !! key with
  | None => 0
  | Some target => pt_consecutivePushFail target
  end.

Definition RetainPartitions (keep : gset string) (targets : Targets) : Targets :=
  filter (fun '(key, _) => key = sharedPartitionKey \/ key ∈ keep) targets.

(** The target a replay may use: one with a fully pushed configuration. *)
Definition replayableTarget (key : string) (targets : Targets) : option (pushTarget * Config) :=
  match targets !! key with
  | None => None
  | Some target =>
      match pt_lastCfg target with
      | None => None
      | Some cfg => Some (target, cfg)
      end
  end.

(** The replay's update of the target, after its push. *)
Definition recordResync (key authToken : string) (resolved : list string) (failed : bool) (targets : Targets) : Targets :=
  match replayableTarget key targets with
  | None => targets
  | Some (target, cfg) =>
      <[key := if failed
               then mkPushTarget (pt_lastCfg target) "" (pt_lastPushedToken target) ∅
                      (pt_endpointURLs target) (pt_authToken target) (pt_consecutivePushFail target)
               else mkPushTarget (pt_lastCfg target) (hashProxyConfig cfg) authToken (list_to_set resolved)
                      (pt_endpointURLs target) (pt_authToken target) (pt_consecutivePushFail target)]> targets
  end.

(** [pushToEndpoints]: the push of one configuration to every endpoint in turn,
    through [push]; whether some endpoint failed. *)
Fixpoint pushToEndpoints {W} (push : string -> string -> Config -> W -> W * bool) (cfg : Config) (resolved : list string)
    (authToken : string) (w : W) : W * bool :=
  match resolved with
  | [] => (w, false)
  | endpoint :: resolved' =>
      let '(w, ok) := push endpoint authToken cfg w in
      let '(w, failed) := pushToEndpoints push cfg resolved' authToken w in
      (w, negb ok || failed)
  end.

(** One sync of a partition without interference: the world [w] holds the replicas. *)
Definition SyncPartition {W} (push : string -> string -> Config -> W -> W * bool) (key authToken : string)
    (endpoints resolved : list string) (cfg : Config) (targets : Targets) (w : W) : list RouteDiagnostic * bool * Targets * W :=
  let '(prep, targets) := preparePush key authToken endpoints resolved cfg targets in
  if pp_skip prep then (pp_diagnostics prep, false, targets, w)
  else
    let '(w, failed) := pushToEndpoints push (pp_cfg prep) resolved authToken w in
    (pp_diagnostics prep, failed, recordPush key authToken (pp_cfgHash prep) (pp_cfg prep) resolved failed targets, w).

(** The replay of one partition, under the lock. *)
Definition resyncTarget {W} (push : string -> string -> Config -> W -> W * bool) (key : string) (resolved : list string)
    (authToken : string) (targets : Targets) (w : W) : bool * Targets * W :=
  match replayableTarget key targets with
  | None => (false, targets, w)
  | Some (_, cfg) =>
      let '(w, failed) := pushToEndpoints push cfg resolved authToken w in
      (failed, recordResync key authToken resolved failed targets, w)
  end.
Definition ResyncPartition {W} (dns : list string -> list string) (push : string -> string -> Config -> W -> W * bool) (key : string)
    (targets : Targets) (w : W) : bool * Targets * W :=
  match targets !! key with
  | None => (false, targets, w)
  | Some target => resyncTarget push key (dns (pt_endpointURLs target)) (pt_authToken target) targets w
  end.
(** [range]: the entries of the map in the order it is iterated.  The keys are
    collected first, then every partition is replayed. *)
Definition ResyncAllPartitions {W} (dns : list string -> list string) (push : string -> string -> Config -> W -> W * bool)
    (range : Targets -> list (string * pushTarget)) (targets : Targets) (w : W) : bool * Targets * W :=
  let keys := (range targets).*1 in
  foldl (fun '(failed, targets, w) key =>
    let '(failed', targets, w) := ResyncPartition dns push key targets w in
    (failed || failed', targets, w)) (false, targets, w) keys.
End operations.

(** ** The syncer among replicas

    Syncs of the route controllers and replays of the endpoint watcher interleave:
    the phases under the lock are single steps, a push reaches one endpoint after
    the other between them. *)

(** What came in: a sync with its configuration, or endpoints to bring up to date. *)
Record Request := mkPushRequest { rq_key : string; rq_token : string; rq_endpoints : list string; rq_cfg : option Config }.
(** What went out. *)
Record Send := mkSend { sd_endpoint : string; sd_token : string; sd_cfg : Config }.
(** A sync between its locked phases. *)
Record Flight := mkFlight {
  fl_key : string; fl_token : string; fl_cfg : Config; fl_resolved : list string; fl_remaining : list string; fl_failed : bool }.
(** A replay between its read of the target and its push. *)
Record Replay := mkReplay { rp_key : string; rp_endpoints : list string; rp_token : string }.
Record PushWorld := mkPushWorld {
  pw_targets : Targets;
  pw_replicas : gmap string Config;
  pw_counter : Z;                       (* the version counter of this process *)
  pw_flights : gmap nat Flight;
  pw_replays : gmap nat Replay;
  pw_requests : list Request;
  pw_sent : list Send;
}.

(** One endpoint is pushed to: a replica refuses versions below its own; the
    request or the answer may be lost; a version this process never issued is
    overtaken, which raises the counter ([ConfigPush.pushToEndpoint]). *)
Inductive deliver (cfg : Config) (e : string) : gmap string Config * Z -> bool -> gmap string Config * Z -> Prop :=
| deliver_refused replicas n : deliver cfg e (replicas, n) false (replicas, n)
| deliver_applied replicas n ok :
    (forall held, replicas !! e = Some held -> (cfg_Version held <= cfg_Version cfg)%Z) ->
    deliver cfg e (replicas, n) ok (<[e := cfg]> replicas, n)
| deliver_overtook replicas n held v ok :
    replicas !! e = Some held -> (n < cfg_Version held < v)%Z ->
    deliver cfg e (replicas, n) ok (<[e := set_version v cfg]> replicas, v).
(** Every endpoint in turn; [failed] when one reported an error. *)
Inductive deliver_all (cfg : Config) : list string -> gmap string Config * Z -> bool -> gmap string Config * Z -> Prop :=
| deliver_none st : deliver_all cfg [] st false st
| deliver_next e es st ok st' failed st'' :
    deliver cfg e st ok st' -> deliver_all cfg es st' failed st'' -> deliver_all cfg (e :: es) st (negb ok || failed) st''.

Section world.
Context {hash : Sha256} {codec : JsonConfig} {parser : UrlParser}.
Context (defaultAuthToken : string).
(** The data plane an endpoint belongs to, and whether a partition is synced by
    one caller at a time and only to its own plane. *)
Context (owner : string -> string) (disciplined : bool).

Definition allowed (key : string) (resolved : list string) : Prop :=
  disciplined = true -> Forall (fun e => owner e = key) resolved.
Definition alone (w : PushWorld) (key : string) : Prop :=
  disciplined = true -> forall id f, pw_flights w !! id = Some f -> fl_key f <> key.

Inductive world_step (w : PushWorld) : PushWorld -> Prop :=
| step_prepare key token endpoints (dns : HostLookup) cfg counter id prep targets :
    alone w key -> allowed key (resolveEndpoints endpoints) ->
    (pw_counter w < cfg_Version cfg <= counter)%Z ->
    preparePush key token endpoints (resolveEndpoints endpoints) cfg (pw_targets w) = (prep, targets) ->
    pw_flights w !! id = None ->
    world_step w
      (mkPushWorld targets (pw_replicas w) counter
         (if pp_skip prep then pw_flights w
          else <[id := mkFlight key token cfg (resolveEndpoints endpoints) (resolveEndpoints endpoints) false]> (pw_flights w))
         (pw_replays w) (pw_requests w ++ [mkPushRequest key token endpoints (Some cfg)]) (pw_sent w))
| step_deliver id f e rest ok replicas counter :
    pw_flights w !! id = Some f -> fl_remaining f = e :: rest ->
    deliver (fl_cfg f) e (pw_replicas w, pw_counter w) ok (replicas, counter) ->
    world_step w
      (mkPushWorld (pw_targets w) replicas counter
         (<[id := mkFlight (fl_key f) (fl_token f) (fl_cfg f) (fl_resolved f) rest (fl_failed f || negb ok)]> (pw_flights w))
         (pw_replays w) (pw_requests w) (pw_sent w ++ [mkSend e (fl_token f) (fl_cfg f)]))
| step_record id f :
    pw_flights w !! id = Some f -> fl_remaining f = [] ->
    world_step w
      (mkPushWorld (recordPush (fl_key f) (fl_token f) (hashProxyConfig (fl_cfg f)) (fl_cfg f) (fl_resolved f) (fl_failed f) (pw_targets w))
         (pw_replicas w) (pw_counter w) (delete id (pw_flights w)) (pw_replays w) (pw_requests w) (pw_sent w))
| step_capture id key target :
    pw_targets w !! key = Some target ->
    world_step w
      (mkPushWorld (pw_targets w) (pw_replicas w) (pw_counter w) (pw_flights w)
         (<[id := mkReplay key (pt_endpointURLs target) (pt_authToken target)]> (pw_replays w)) (pw_requests w) (pw_sent w))
| step_capture_shared id endpoints :
    world_step w
      (mkPushWorld (pw_targets w) (pw_replicas w) (pw_counter w) (pw_flights w)
         (<[id := mkReplay sharedPartitionKey endpoints defaultAuthToken]> (pw_replays w))
         (pw_requests w ++ [mkPushRequest sharedPartitionKey defaultAuthToken endpoints None]) (pw_sent w))
| step_resync id r (dns : HostLookup) target cfg failed replicas counter :
    pw_replays w !! id = Some r ->
    allowed (rp_key r) (resolveEndpoints (rp_endpoints r)) ->
    replayableTarget (rp_key r) (pw_targets w) = Some (target, cfg) ->
    deliver_all cfg (resolveEndpoints (rp_endpoints r)) (pw_replicas w, pw_counter w) failed (replicas, counter) ->
    world_step w
      (mkPushWorld (recordResync (rp_key r) (rp_token r) (resolveEndpoints (rp_endpoints r)) failed (pw_targets w))
         replicas counter (pw_flights w) (delete id (pw_replays w)) (pw_requests w)
         (pw_sent w ++ ((fun e => mkSend e (rp_token r) cfg) <$> resolveEndpoints (rp_endpoints r))))
| step_resync_nothing id r :
    pw_replays w !! id = Some r -> replayableTarget (rp_key r) (pw_targets w) = None ->
    world_step w
      (mkPushWorld (pw_targets w) (pw_replicas w) (pw_counter w) (pw_flights w) (delete id (pw_replays w)) (pw_requests w) (pw_sent w))
| step_retain keep :
    world_step w
      (mkPushWorld (RetainPartitions keep (pw_targets w)) (pw_replicas w) (pw_counter w) (pw_flights w) (pw_replays w)
         (pw_requests w) (pw_sent w)).

(** The process starts with nothing in memory; the replicas may hold what an
    earlier process pushed. *)
Definition fresh_world (replicas : gmap string Config) (counter : Z) : PushWorld :=
  mkPushWorld ∅ replicas counter ∅ ∅ [] [].
Inductive world_reachable : PushWorld -> Prop :=
| reachable_start replicas counter : world_reachable (fresh_world replicas counter)
| reachable_step w w' : world_reachable w -> world_step w w' -> world_reachable w'.
End world.

(** ** A plane's configuration goes to that plane only *)

Section isolation.
Context {hash : Sha256} {codec : JsonConfig} {parser : UrlParser}.
Context (defaultAuthToken : string) (owner : string -> string) (disciplined : bool).

(** A request named this key, token and these endpoints together. *)
Definition backed (requests : list Request) (key token : string) (endpoints : list string) : Prop :=
  exists r, r ∈ requests /\ rq_key r = key /\ rq_token r = token /\ rq_endpoints r = endpoints.
(** A sync of this key built this configuration. *)
Definition built (requests : list Request) (key : string) (cfg : Config) : Prop :=
  exists r, r ∈ requests /\ rq_key r = key /\ rq_cfg r = Some cfg.
(** The send is one plane's configuration, to an endpoint and with the token of
    one request of that plane. *)
Definition addressed (requests : list Request) (s : Send) : Prop :=
  exists key endpoints, backed requests key (sd_token s) endpoints /\ built requests key (sd_cfg s) /\
    exists dns : HostLookup, sd_endpoint s ∈ resolveEndpoints endpoints.

Definition target_backed (requests : list Request) (key : string) (t : pushTarget) : Prop :=
  backed requests key (pt_authToken t) (pt_endpointURLs t) /\ (forall cfg, pt_lastCfg t = Some cfg -> built requests key cfg).
Definition flight_backed (requests : list Request) (f : Flight) : Prop :=
  built requests (fl_key f) (fl_cfg f) /\
  exists endpoints (dns : HostLookup), backed requests (fl_key f) (fl_token f) endpoints /\
    forall e, e ∈ fl_remaining f -> e ∈ resolveEndpoints endpoints.
Definition isolated (w : PushWorld) : Prop :=
  map_Forall (target_backed (pw_requests w)) (pw_targets w) /\
  map_Forall (fun _ => flight_backed (pw_requests w)) (pw_flights w) /\
  map_Forall (fun _ r => backed (pw_requests w) (rp_key r) (rp_token r) (rp_endpoints r)) (pw_replays w) /\
  Forall (addressed (pw_requests w)) (pw_sent w).

Lemma backed_more requests more key token endpoints :
  backed requests key token endpoints -> backed (requests ++ more) key token endpoints.
Proof. intros (r & Hr & H). exists r. rewrite elem_of_app. auto. Qed.
Lemma built_more requests more key cfg : built requests key cfg -> built (requests ++ more) key cfg.
Proof. intros (r & Hr & H). exists r. rewrite elem_of_app. auto. Qed.
Lemma isolated_more w more :
  isolated w -> isolated (mkPushWorld (pw_targets w) (pw_replicas w) (pw_counter w) (pw_flights w) (pw_replays w)
                            (pw_requests w ++ more) (pw_sent w)).
Proof.
  intros (Ht & Hf & Hr & Hs). split_and!; cbn.
  - eapply map_Forall_impl; [exact Ht|]. intros k t [Hb Hc]. split; [by apply backed_more|]. intros. by apply built_more, Hc.
  - eapply map_Forall_impl; [exact Hf|]. intros i f (Hb & es & dns & He & Hm). split; [by apply built_more|].
    exists es, dns. split; [by apply backed_more|done].
  - eapply map_Forall_impl; [exact Hr|]. intros i r. apply backed_more.
  - eapply Forall_impl; [exact Hs|]. intros s (k & es & Hb & Hc & He). exists k, es.
    split_and!; [by apply backed_more|by apply built_more|done].
Qed.
Lemma map_Forall_insert_any {A} (P : string -> A -> Prop) (m : gmap string A) k x :
  map_Forall P m -> P k x -> map_Forall P (<[k := x]> m).
Proof. intros Hm Hx k' y [[<- <-]|[_ Hy]]%lookup_insert_Some; auto. Qed.
Lemma map_Forall_insert_id {A} (P : nat -> A -> Prop) (m : gmap nat A) k x :
  map_Forall P m -> P k x -> map_Forall P (<[k := x]> m).
Proof. intros Hm Hx k' y [[<- <-]|[_ Hy]]%lookup_insert_Some; auto. Qed.

Lemma recordPush_backed requests key token h cfg resolved failed targets :
  map_Forall (target_backed requests) targets -> built requests key cfg ->
  map_Forall (target_backed requests) (recordPush key token h cfg resolved failed targets).
Proof.
  intros Ht Hc. unfold recordPush. destruct (targets !! key) as [t|] eqn:Hk; [|done].
  apply map_Forall_insert_any; [done|]. destruct (Ht _ _ Hk) as [Hb Hl].
  destruct failed; split; cbn; [done|done|done|]. by intros ? [= <-].
Qed.
Lemma recordResync_backed requests key token resolved failed targets :
  map_Forall (target_backed requests) targets -> map_Forall (target_backed requests) (recordResync key token resolved failed targets).
Proof.
  intros Ht. unfold recordResync, replayableTarget. destruct (targets !! key) as [t|] eqn:Hk; [|done].
  destruct (pt_lastCfg t) as [cfg|] eqn:Hl; [|done].
  apply map_Forall_insert_any; [done|]. destruct (Ht _ _ Hk) as [Hb Hc]. destruct failed; split; cbn; auto.
Qed.
Lemma preparePush_backed requests key token endpoints resolved cfg targets prep targets' :
  preparePush key token endpoints resolved cfg targets = (prep, targets') ->
  map_Forall (target_backed requests) targets -> backed requests key token endpoints ->
  map_Forall (target_backed requests) targets'.
Proof.
  intros [= <- <-] Ht Hb. apply map_Forall_insert_any; [done|]. split; [done|]. cbn. unfold targetLocked.
  destruct (targets !! key) as [t|] eqn:Hk; [|done]. intros cfg' Hl. by apply (Ht _ _ Hk).
Qed.

Lemma isolated_step w w' : world_step defaultAuthToken owner disciplined w w' -> isolated w -> isolated w'.
Proof.
  intros Hstep Hw. destruct Hstep as [key token endpoints dns cfg counter id prep targets _ _ _ Hp _
    |id f e rest ok replicas counter Hf Hrem _|id f Hf Hrem|id key t Ht|id endpoints
    |id r dns t cfg failed replicas counter Hr _ Hrep _|id r Hr _|keep].
  - apply (isolated_more _ [mkPushRequest key token endpoints (Some cfg)]) in Hw. cbn in Hw. destruct Hw as (Ht & Hfl & Hre & Hs).
    assert (backed (pw_requests w ++ [mkPushRequest key token endpoints (Some cfg)]) key token endpoints) as Hb.
    { eexists. rewrite elem_of_app, list_elem_of_singleton. split_and!; [by right|done..]. }
    split_and!; cbn in *; [by eapply preparePush_backed| |done|done].
    destruct (pp_skip prep); [done|]. apply map_Forall_insert_id; [done|]. split; cbn.
    + eexists. rewrite elem_of_app, list_elem_of_singleton. split_and!; [by right|done..].
    + by exists endpoints, dns.
  - destruct Hw as (Ht & Hfl & Hre & Hs). destruct (Hfl _ _ Hf) as (Hb & es & dns & He & Hm). rewrite Hrem in Hm.
    split_and!; cbn; [done| |done|].
    + apply map_Forall_insert_id; [done|]. split; cbn; [done|]. exists es, dns. split; [done|]. intros e' ?. apply Hm. by right.
    + apply Forall_app. split; [done|]. constructor; [|done]. exists (fl_key f), es. split_and!; [done..|]. exists dns. apply Hm. by left.
  - destruct Hw as (Ht & Hfl & Hre & Hs). destruct (Hfl _ _ Hf) as (Hb & _).
    split_and!; cbn; [by apply recordPush_backed| |done|done]. by apply map_Forall_delete.
  - destruct Hw as (Ht' & Hfl & Hre & Hs). split_and!; cbn; [done|done| |done].
    apply map_Forall_insert_id; [done|]. by apply (Ht' _ _ Ht).
  - apply (isolated_more _ [mkPushRequest sharedPartitionKey defaultAuthToken endpoints None]) in Hw.
    destruct Hw as (Ht & Hfl & Hre & Hs). split_and!; cbn in *; [done|done| |done].
    apply map_Forall_insert_id; [done|]. eexists. rewrite elem_of_app, list_elem_of_singleton. split_and!; [by right|done..].
  - destruct Hw as (Ht & Hfl & Hre & Hs). split_and!; cbn; [by apply recordResync_backed|done|by apply map_Forall_delete|].
    apply Forall_app. split; [done|]. apply Forall_fmap, Forall_forall. intros e He. cbn.
    exists (rp_key r), (rp_endpoints r). split_and!; [by apply (Hre _ _ Hr)| |by exists dns].
    unfold replayableTarget in Hrep. destruct (pw_targets w !! rp_key r) as [t'|] eqn:Hk; [|done].
    destruct (pt_lastCfg t') as [c|] eqn:Hl; [|done]. injection Hrep as <- <-. by apply (Ht _ _ Hk).
  - destruct Hw as (Ht & Hfl & Hre & Hs). split_and!; cbn; [done|done|by apply map_Forall_delete|done].
  - destruct Hw as (Ht & Hfl & Hre & Hs). split_and!; cbn; [|done..]. intros k t [Hk _]%map_lookup_filter_Some. by apply Ht.
Qed.

(** A plane's configuration and its token reach that plane only. In every
    interleaving of syncs, deliveries, replays and evictions, whatever the
    endpoint names resolve to, each send carries a configuration some sync built
    for a partition, to an endpoint and with the token one request named together
    for that same partition: a replay never mixes two tenants, and no token is
    presented to the endpoints of another. *)
Theorem push_isolation w s :
  world_reachable defaultAuthToken owner disciplined w -> s ∈ pw_sent w -> addressed (pw_requests w) s.
Proof.
  intros Hw. assert (isolated w) as (_ & _ & _ & Hs).
  { induction Hw as [replicas counter|w w' _ IH Hstep]; [|by eapply isolated_step].
    split_and!; [apply map_Forall_empty..|constructor]. }
  intros Hin. by eapply Forall_forall in Hs.
Qed.
End isolation.

(** ** A skipped push was not needed *)

Lemma skip_claims cfgHash lastHash token lastToken last resolved :
  shouldSkipPush cfgHash lastHash token lastToken last resolved = true <->
  cfgHash <> "" /\ cfgHash = lastHash /\ token = lastToken /\ size last = length resolved /\ (forall e, e ∈ resolved -> e ∈ last).
Proof.
  unfold shouldSkipPush, endpointSetsEqual. rewrite !andb_true_iff, negb_true_iff, bool_decide_eq_false, !bool_decide_eq_true, Nat.eqb_eq, forallb_elem_of.
  setoid_rewrite bool_decide_eq_true. tauto.
Qed.

Section skip.
Context {hash : Sha256} {codec : JsonConfig} {parser : UrlParser}.
Context (defaultAuthToken : string) (owner : string -> string).

Lemma hash_set_version v cfg : hashProxyConfig (set_version v cfg) = hashProxyConfig cfg.
Proof. done. Qed.

(** The replica holds this content; its version is the pushed one or a later one of ours. *)
Definition holds (replicas : gmap string Config) (e : string) (h : string) : Prop :=
  exists c, replicas !! e = Some c /\ hashProxyConfig c = h.
Definition holds_push (st : gmap string Config * Z) (e : string) (cfg : Config) : Prop :=
  exists c, st.1 !! e = Some c /\ hashProxyConfig c = hashProxyConfig cfg /\ (cfg_Version cfg <= cfg_Version c <= st.2)%Z.

Lemma deliver_spec cfg e st ok st' :
  deliver cfg e st ok st' -> (cfg_Version cfg <= st.2)%Z ->
  (st.2 <= st'.2)%Z /\ (forall e', e' <> e -> st'.1 !! e' = st.1 !! e') /\
  (ok = true -> holds_push st' e cfg) /\
  (forall c, st.1 !! e = Some c -> (cfg_Version cfg < cfg_Version c <= st.2)%Z -> st'.1 !! e = Some c).
Proof.
  intros [replicas n|replicas n ok' Hfence|replicas n held v ok' Hh Hv] Hle; cbn in *.
  - split_and!; [lia|done|done|done].
  - split_and!; [lia|by intros; apply lookup_insert_ne| |].
    + intros _. exists cfg. cbn. rewrite lookup_insert_eq. split_and!; [done..|lia|lia].
    + intros c Hc Hlt. specialize (Hfence _ Hc). lia.
  - split_and!; [lia|by intros; apply lookup_insert_ne| |].
    + intros _. exists (set_version v cfg). cbn. rewrite lookup_insert_eq. split_and!; [done|done|lia|lia].
    + intros c Hc Hlt. simplify_eq. lia.
Qed.
Lemma deliver_all_spec cfg es st failed st' :
  deliver_all cfg es st failed st' -> (cfg_Version cfg <= st.2)%Z ->
  (st.2 <= st'.2)%Z /\ (forall e', e' ∉ es -> st'.1 !! e' = st.1 !! e') /\
  (failed = false -> forall e, e ∈ es -> holds_push st' e cfg) /\
  (forall e c, st.1 !! e = Some c -> (cfg_Version cfg < cfg_Version c <= st.2)%Z -> st'.1 !! e = Some c).
Proof.
  induction 1 as [st|e es st ok st' failed st'' Hd Hall IH]; intros Hle; [split_and!; [lia|done|by intros _ e ?%elem_of_nil|done]|].
  destruct (deliver_spec _ _ _ _ _ Hd Hle) as (Hn & Hother & Hok & Hprot).
  destruct IH as (Hn' & Hother' & Hok' & Hprot'); [lia|]. split_and!; [lia| | |].
  - intros e' [He Hes]%not_elem_of_cons. by rewrite Hother', Hother.
  - intros [Ho Hf]%orb_false_iff e' He. destruct (decide (e' ∈ es)) as [|Hn1]; [by apply Hok'|].
    apply elem_of_cons in He as [->|?]; [|done]. destruct ok; [|done].
    destruct (Hok eq_refl) as (c & Hc & Hh & Hv). exists c. rewrite Hother' by done. split_and!; [done|done|lia|lia].
  - intros e' c Hc Hv. apply Hprot'; [|lia]. destruct (decide (e' = e)) as [->|]; [by apply Hprot|]. by rewrite Hother.
Qed.

(** What is true of a partition between any two steps. *)
Record push_inv (w : PushWorld) : Prop := mkPushInv {
  inv_one_flight : forall i j f g, pw_flights w !! i = Some f -> pw_flights w !! j = Some g -> fl_key f = fl_key g -> i = j;
  inv_claim : forall k t, pw_targets w !! k = Some t -> (forall i f, pw_flights w !! i = Some f -> fl_key f <> k) ->
    pt_lastPushedHash t <> "" -> forall e, e ∈ pt_lastPushedEndpoints t -> holds (pw_replicas w) e (pt_lastPushedHash t);
  inv_target_owner : forall k t e, pw_targets w !! k = Some t -> e ∈ pt_lastPushedEndpoints t -> owner e = k;
  inv_flight_owner : forall i f e, pw_flights w !! i = Some f -> e ∈ fl_resolved f -> owner e = fl_key f;
  inv_remaining : forall i f e, pw_flights w !! i = Some f -> e ∈ fl_remaining f -> e ∈ fl_resolved f;
  inv_delivered : forall i f, pw_flights w !! i = Some f -> fl_failed f = false ->
    forall e, e ∈ fl_resolved f -> e ∉ fl_remaining f -> holds_push (pw_replicas w, pw_counter w) e (fl_cfg f);
  inv_flight_version : forall i f, pw_flights w !! i = Some f -> (cfg_Version (fl_cfg f) <= pw_counter w)%Z;
  inv_last_version : forall k t cfg, pw_targets w !! k = Some t -> pt_lastCfg t = Some cfg -> (cfg_Version cfg <= pw_counter w)%Z /\
    forall i f, pw_flights w !! i = Some f -> fl_key f = k -> (cfg_Version cfg < cfg_Version (fl_cfg f))%Z;
}.

Lemma fresh_push_inv replicas counter : push_inv (fresh_world replicas counter).
Proof. split; intros * H; exfalso; exact (lookup_empty_Some _ _ H). Qed.

(** A target before and after its endpoints and token are set. *)
Lemma prepare_inv w key token endpoints (dns : HostLookup) cfg counter id prep targets :
  alone true w key -> allowed owner true key (resolveEndpoints endpoints) ->
  (pw_counter w < cfg_Version cfg <= counter)%Z ->
  preparePush key token endpoints (resolveEndpoints endpoints) cfg (pw_targets w) = (prep, targets) ->
  pw_flights w !! id = None -> push_inv w ->
  push_inv (mkPushWorld targets (pw_replicas w) counter
    (if pp_skip prep then pw_flights w
     else <[id := mkFlight key token cfg (resolveEndpoints endpoints) (resolveEndpoints endpoints) false]> (pw_flights w))
    (pw_replays w) (pw_requests w ++ [mkPushRequest key token endpoints (Some cfg)]) (pw_sent w)).
Proof.
  intros Halone Hown Hver Hp Hid I. specialize (Halone eq_refl). specialize (Hown eq_refl). rewrite Forall_forall in Hown.
  assert (Htargets : forall k t, targets !! k = Some t ->
    (exists t0, pw_targets w !! k = Some t0 /\ pt_lastCfg t = pt_lastCfg t0 /\ pt_lastPushedHash t = pt_lastPushedHash t0 /\
       pt_lastPushedEndpoints t = pt_lastPushedEndpoints t0) \/
    (pt_lastCfg t = None /\ pt_lastPushedHash t = "" /\ pt_lastPushedEndpoints t = ∅)).
  { intros k t Hk. injection Hp as _ <-. apply lookup_insert_Some in Hk as [[<- <-]|[_ Hk]]; [|by left; eauto].
    cbn. unfold targetLocked. destruct (pw_targets w !! key) as [t0|] eqn:Ht0; cbn; [left; eauto|by right]. }
  assert (Hflights : forall i f, (if pp_skip prep then pw_flights w
     else <[id := mkFlight key token cfg (resolveEndpoints endpoints) (resolveEndpoints endpoints) false]> (pw_flights w)) !! i = Some f ->
    pw_flights w !! i = Some f \/ i = id /\ f = mkFlight key token cfg (resolveEndpoints endpoints) (resolveEndpoints endpoints) false).
  { intros i f. destruct (pp_skip prep); [by left|]. intros [[-> ->]|[_ ?]]%lookup_insert_Some; auto. }
  split; cbn.
  - intros i j f g [Hi|[-> ->]]%Hflights [Hj|[-> ->]]%Hflights; cbn; intros Hkey.
    + exact (inv_one_flight _ I _ _ _ _ Hi Hj Hkey).
    + by destruct (Halone _ _ Hi).
    + by destruct (Halone _ _ Hj).
    + done.
  - intros k t [(t0 & Ht0 & _ & -> & ->)|(_ & -> & _)]%Htargets Hno; [|done]. apply (inv_claim _ I _ _ Ht0).
    intros i f Hi Hfk. destruct (pp_skip prep) eqn:Hs; [exact (Hno i f Hi Hfk)|]. apply (Hno i f); [|done].
    rewrite lookup_insert_ne; [done|]. intros ->. congruence.
  - intros k t e [(t0 & Ht0 & _ & _ & ->)|(_ & _ & ->)]%Htargets; [by eapply inv_target_owner|by intros ?%elem_of_empty].
  - intros i f e [Hi|[-> ->]]%Hflights; [by eapply inv_flight_owner|cbn; apply Hown].
  - intros i f e [Hi|[-> ->]]%Hflights; [by eapply inv_remaining|done].
  - intros i f [Hi|[-> ->]]%Hflights; [|by intros _ e]. intros Hf e He Hr.
    destruct (inv_delivered _ I _ _ Hi Hf _ He Hr) as (c & Hc & Hh & Hv). exists c. cbn in *. split_and!; [done|done|lia|lia].
  - intros i f [Hi|[-> ->]]%Hflights; cbn; [|lia]. pose proof (inv_flight_version _ I _ _ Hi). lia.
  - intros k t c [(t0 & Ht0 & -> & _)|(-> & _)]%Htargets; [|done]. intros Hc.
    destruct (inv_last_version _ I _ _ _ Ht0 Hc) as [Hle Hlt]. split; [lia|].
    intros i f [Hi|[-> ->]]%Hflights; cbn; [exact (Hlt i f Hi)|lia].
Qed.

(** One endpoint of a flight is served. *)
Lemma deliver_inv w id f e rest ok replicas counter sent :
  pw_flights w !! id = Some f -> fl_remaining f = e :: rest ->
  deliver (fl_cfg f) e (pw_replicas w, pw_counter w) ok (replicas, counter) -> push_inv w ->
  push_inv (mkPushWorld (pw_targets w) replicas counter
    (<[id := mkFlight (fl_key f) (fl_token f) (fl_cfg f) (fl_resolved f) rest (fl_failed f || negb ok)]> (pw_flights w))
    (pw_replays w) (pw_requests w) sent).
Proof.
  intros Hf Hrem Hd I. destruct (deliver_spec _ _ _ _ _ Hd (inv_flight_version _ I _ _ Hf)) as (Hn & Hother & Hok & _). cbn in *.
  assert (He : owner e = fl_key f) by (eapply (inv_flight_owner _ I); [done|eapply (inv_remaining _ I); [done|rewrite Hrem; by left]]).
  assert (Hflights : forall i g, <[id := mkFlight (fl_key f) (fl_token f) (fl_cfg f) (fl_resolved f) rest (fl_failed f || negb ok)]>
    (pw_flights w) !! i = Some g -> exists g0, pw_flights w !! i = Some g0 /\ fl_key g = fl_key g0 /\ fl_cfg g = fl_cfg g0 /\
      fl_resolved g = fl_resolved g0 /\ (g = g0 /\ i <> id \/ i = id /\ fl_remaining g = rest /\ fl_failed g = fl_failed f || negb ok /\ g0 = f)).
  { intros i g [[<- <-]|[? ?]]%lookup_insert_Some; [exists f; split_and!; try done; right; done|exists g; split_and!; try done; by left]. }
  split; cbn.
  - intros i j g h (g0 & Hi & -> & _)%Hflights (h0 & Hj & -> & _)%Hflights. by apply (inv_one_flight _ I).
  - intros k t Ht Hno Hh e' He'. assert (k <> fl_key f) as Hk.
    { intros ->. eapply Hno; [apply lookup_insert_eq|done]. }
    assert (e' <> e) as Hne by (intros ->; pose proof (inv_target_owner _ I _ _ _ Ht He'); congruence).
    unfold holds. rewrite Hother by done. eapply (inv_claim _ I); [done| |done|done]. intros i g Hi Hgk.
    eapply (Hno i g); [|done]. rewrite lookup_insert_ne; [done|]. intros ->. congruence.
  - apply (inv_target_owner _ I).
  - intros i g e' (g0 & Hi & -> & _ & -> & _)%Hflights. by apply (inv_flight_owner _ I _ _ _ Hi).
  - intros i g e' (g0 & Hi & _ & _ & -> & [[-> _]|(-> & -> & _ & ->)])%Hflights; [by apply (inv_remaining _ I _ _ _ Hi)|].
    intros Hin. eapply (inv_remaining _ I); [done|]. rewrite Hrem. by right.
  - intros i g (g0 & Hi & Hkey & -> & -> & [[-> Hne]|(-> & -> & -> & ->)])%Hflights.
    + intros Hfail e' He' Hr. destruct (inv_delivered _ I _ _ Hi Hfail _ He' Hr) as (c & Hc & Hh & Hv). cbn in *.
      assert (e' <> e) as Hne'.
      { intros ->. pose proof (inv_flight_owner _ I _ _ _ Hi He'). apply Hne, (inv_one_flight _ I i id g0 f); congruence. }
      exists c. cbn. rewrite Hother by done. split_and!; [done|done|lia|lia].
    + intros [Hfail Hok']%orb_false_iff e' He' Hr. destruct (decide (e' = e)) as [->|Hne']; [apply Hok; by destruct ok|].
      destruct (inv_delivered _ I _ _ Hi Hfail _ He') as (c & Hc & Hh & Hv); [rewrite Hrem; by intros [|]%elem_of_cons|].
      exists c. cbn in *. rewrite Hother by done. split_and!; [done|done|lia|lia].
  - intros i g (g0 & Hi & _ & -> & _)%Hflights. pose proof (inv_flight_version _ I _ _ Hi). lia.
  - intros k t c Ht Hc. destruct (inv_last_version _ I _ _ _ Ht Hc) as [Hle Hlt]. split; [lia|].
    intros i g (g0 & Hi & -> & -> & _)%Hflights. exact (Hlt i g0 Hi).
Qed.

Lemma record_inv w id f :
  pw_flights w !! id = Some f -> fl_remaining f = [] -> push_inv w ->
  push_inv (mkPushWorld
    (recordPush (fl_key f) (fl_token f) (hashProxyConfig (fl_cfg f)) (fl_cfg f) (fl_resolved f) (fl_failed f) (pw_targets w))
    (pw_replicas w) (pw_counter w) (delete id (pw_flights w)) (pw_replays w) (pw_requests w) (pw_sent w)).
Proof.
  intros Hf Hrem I.
  assert (Hdel : forall i g, delete id (pw_flights w) !! i = Some g -> pw_flights w !! i = Some g /\ fl_key g <> fl_key f).
  { intros i g [Hne Hi]%lookup_delete_Some. split; [done|]. intros Hk. by apply Hne, (inv_one_flight _ I id i f g). }
  assert (Htargets : forall k t,
    recordPush (fl_key f) (fl_token f) (hashProxyConfig (fl_cfg f)) (fl_cfg f) (fl_resolved f) (fl_failed f) (pw_targets w) !! k = Some t ->
    k <> fl_key f /\ pw_targets w !! k = Some t \/
    k = fl_key f /\ (pt_lastPushedHash t = "" /\ pt_lastPushedEndpoints t = ∅ /\
                     (exists t0, pw_targets w !! k = Some t0 /\ pt_lastCfg t = pt_lastCfg t0) \/
      fl_failed f = false /\ pt_lastPushedHash t = hashProxyConfig (fl_cfg f) /\
      pt_lastPushedEndpoints t = list_to_set (fl_resolved f) /\ pt_lastCfg t = Some (fl_cfg f))).
  { intros k t. unfold recordPush. destruct (pw_targets w !! fl_key f) as [t0|] eqn:Ht0.
    - intros [[<- <-]|[Hne Hk]]%lookup_insert_Some; [right; split; [done|]|by left]. destruct (fl_failed f); [left; eauto|by right].
    - intros Hk. left. split; [|done]. intros ->. congruence. }
  split; cbn.
  - intros i j g h [Hi _]%Hdel [Hj _]%Hdel. by apply (inv_one_flight _ I).
  - intros k t [[Hne Ht]|(-> & [(-> & _)|(Hfail & -> & -> & _)])]%Htargets Hno Hh e; [|done|].
    + apply (inv_claim _ I _ _ Ht); [|done]. intros i g Hi Hgk. apply (Hno i g); [|done].
      rewrite lookup_delete_ne; [done|]. intros <-. congruence.
    + intros He%elem_of_list_to_set.
      destruct (inv_delivered _ I _ _ Hf Hfail _ He) as (c & Hc & Hhc & _); [rewrite Hrem; apply not_elem_of_nil|]. by exists c.
  - intros k t e [[Hne Ht]|(-> & [(_ & -> & _)|(_ & _ & -> & _)])]%Htargets; [by apply (inv_target_owner _ I _ _ _ Ht)|by intros ?%elem_of_empty|].
    intros He%elem_of_list_to_set. by apply (inv_flight_owner _ I _ _ _ Hf).
  - intros i g e [Hi _]%Hdel. by apply (inv_flight_owner _ I _ _ _ Hi).
  - intros i g e [Hi _]%Hdel. by apply (inv_remaining _ I _ _ _ Hi).
  - intros i g [Hi _]%Hdel. by apply (inv_delivered _ I _ _ Hi).
  - intros i g [Hi _]%Hdel. by apply (inv_flight_version _ I _ _ Hi).
  - intros k t c [[Hne Ht]|(-> & [(_ & _ & t0 & Ht0 & ->)|(_ & _ & _ & ->)])]%Htargets Hc.
    + destruct (inv_last_version _ I _ _ _ Ht Hc) as [Hle Hlt]. split; [done|]. intros i g [Hi _]%Hdel. by apply Hlt with i.
    + destruct (inv_last_version _ I _ _ _ Ht0 Hc) as [Hle Hlt]. split; [done|]. by intros i g [Hi ?]%Hdel.
    + injection Hc as <-. split; [by apply (inv_flight_version _ I _ _ Hf)|]. by intros i g [Hi ?]%Hdel.
Qed.

Lemma resync_inv w id r (dns : HostLookup) target cfg failed replicas counter sent :
  pw_replays w !! id = Some r -> allowed owner true (rp_key r) (resolveEndpoints (rp_endpoints r)) ->
  replayableTarget (rp_key r) (pw_targets w) = Some (target, cfg) ->
  deliver_all cfg (resolveEndpoints (rp_endpoints r)) (pw_replicas w, pw_counter w) failed (replicas, counter) -> push_inv w ->
  push_inv (mkPushWorld (recordResync (rp_key r) (rp_token r) (resolveEndpoints (rp_endpoints r)) failed (pw_targets w))
    replicas counter (pw_flights w) (delete id (pw_replays w)) (pw_requests w) sent).
Proof.
  intros Hr Hown Hrep Hall I. specialize (Hown eq_refl). rewrite Forall_forall in Hown.
  unfold recordResync. rewrite Hrep. unfold replayableTarget in Hrep.
  destruct (pw_targets w !! rp_key r) as [t0|] eqn:Ht0; [|done]. destruct (pt_lastCfg t0) as [cfg'|] eqn:Hl; [|done]. injection Hrep as -> ->.
  destruct (inv_last_version _ I _ _ _ Ht0 Hl) as [Hle Hlt].
  destruct (deliver_all_spec _ _ _ _ _ Hall Hle) as (Hn & Hother & Hok & Hprot). cbn in *.
  assert (Hkept : forall e, owner e <> rp_key r -> replicas !! e = pw_replicas w !! e).
  { intros e Hne. apply Hother. intros He. by apply Hne, Hown. }
  split; cbn.
  - apply (inv_one_flight _ I).
  - intros k t Ht Hno Hh e He. apply lookup_insert_Some in Ht as [[<- <-]|[Hne Ht]].
    + destruct failed; [done|]. cbn in *. apply elem_of_list_to_set in He. destruct (Hok eq_refl _ He) as (c & Hc & Hhc & _). by exists c.
    + unfold holds. rewrite Hkept by (rewrite (inv_target_owner _ I _ _ _ Ht He); congruence). by apply (inv_claim _ I _ _ Ht).
  - intros k t e Ht He. apply lookup_insert_Some in Ht as [[<- <-]|[Hne Ht]]; [|by apply (inv_target_owner _ I _ _ _ Ht)].
    destruct failed; cbn in He; [by apply elem_of_empty in He|]. apply elem_of_list_to_set in He. by apply Hown.
  - apply (inv_flight_owner _ I).
  - apply (inv_remaining _ I).
  - intros i f Hf Hfail e He Hrm. destruct (inv_delivered _ I _ _ Hf Hfail _ He Hrm) as (c & Hc & Hhc & Hv). cbn in *. exists c. cbn.
    split_and!; [|done|lia|lia]. destruct (decide (fl_key f = rp_key r)) as [Hk|Hk].
    + apply Hprot; [done|]. specialize (Hlt _ _ Hf Hk). lia.
    + rewrite Hkept; [done|]. by rewrite (inv_flight_owner _ I _ _ _ Hf He).
  - intros i f Hf. pose proof (inv_flight_version _ I _ _ Hf). lia.
  - intros k t c Ht Hc. apply lookup_insert_Some in Ht as [[<- <-]|[Hne Ht]].
    + assert (pt_lastCfg target = Some c) as Hc' by (by destruct failed). destruct (inv_last_version _ I _ _ _ Ht0 Hc') as [Hle' Hlt']. split; [lia|done].
    + destruct (inv_last_version _ I _ _ _ Ht Hc) as [Hle' Hlt']. split; [lia|done].
Qed.

Lemma push_step_inv w w' : world_step defaultAuthToken owner true w w' -> push_inv w -> push_inv w'.
Proof.
  intros Hstep I. destruct Hstep.
  - by eapply prepare_inv.
  - by eapply deliver_inv.
  - by apply record_inv.
  - destruct I. by split.
  - destruct I. by split.
  - by eapply resync_inv.
  - destruct I. by split.
  - destruct I as [U C O1 O2 R D V L]. split; cbn; try done.
    + intros k t [Hk _]%map_lookup_filter_Some. by apply C.
    + intros k t e [Hk _]%map_lookup_filter_Some. by apply O1.
    + intros k t c [Hk _]%map_lookup_filter_Some. by apply L.
Qed.
Lemma push_reachable_inv w : world_reachable defaultAuthToken owner true w -> push_inv w.
Proof. induction 1; [apply fresh_push_inv|by eapply push_step_inv]. Qed.

(** A skipped push was not needed. While a partition is synced by one caller at a
    time and to its own plane, whatever deliveries, losses, replays and evictions
    happened before and whatever else is under way, a sync that skips its push finds
    every endpoint it would have pushed to already holding the content it built,
    pushed with the token it carries. *)
Theorem skipped_push_redundant w key token endpoints (dns : HostLookup) cfg :
  world_reachable defaultAuthToken owner true w -> alone true w key ->
  pp_skip (preparePush key token endpoints (resolveEndpoints endpoints) cfg (pw_targets w)).1 = true ->
  forall e, e ∈ resolveEndpoints endpoints ->
    exists held t, pw_replicas w !! e = Some held /\ hashProxyConfig held = hashProxyConfig cfg /\
      pw_targets w !! key = Some t /\ pt_lastPushedToken t = token.
Proof.
  intros Hw%push_reachable_inv Halone Hskip e He. specialize (Halone eq_refl). cbn in Hskip.
  apply skip_claims in Hskip as (Hne & Hhash & Htok & _ & Hin). unfold targetLocked in *.
  destruct (pw_targets w !! key) as [t|] eqn:Ht; cbn in *; [|done].
  destruct (inv_claim _ Hw _ _ Ht Halone) with e as (c & Hc & Hh); [congruence|by apply Hin|].
  exists c, t. split_and!; [done|congruence|done|done].
Qed.
End skip.

(** ** Examples *)

Definition content_codec : JsonConfig := {|
  config_Marshal c := Some (if cfg_HasGRPCRoute c then "grpc" else "http");
  config_Unmarshal _ := None; config_Decode _ _ := InvalidJSON |}.
Definition plain_digest : Sha256 := fun s => s.
Definition opaque_urls : UrlParser := fun _ => None.
Definition no_dns : HostLookup := fun _ => None.
Definition http_config (v : Z) : Config := mkConfig v [] false [] [].
Definition grpc_config (v : Z) : Config := mkConfig v [] true [] [].
Definition one_plane (e : string) : string := "a/gw".

Definition prepare (cfg : Config) (targets : Targets) : preparedPush * Targets :=
  @preparePush plain_digest content_codec "a/gw" "token" ["proxy"] ["proxy"] cfg targets.
Definition flight (cfg : Config) (remaining : list string) : Flight := mkFlight "a/gw" "token" cfg ["proxy"] remaining false.
Definition asked (cfg : Config) : Request := mkPushRequest "a/gw" "token" ["proxy"] (Some cfg).
Definition sent (cfg : Config) : Send := mkSend "proxy" "token" cfg.
Definition record (cfg : Config) (targets : Targets) : Targets :=
  recordPush "a/gw" "token" (@hashProxyConfig plain_digest content_codec cfg) cfg ["proxy"] false targets.
Notation example_reachable := (@world_reachable plain_digest content_codec opaque_urls "shared" one_plane).
Notation example_step := (@world_step plain_digest content_codec opaque_urls "shared" one_plane).

Lemma example_prepare disciplined cfg w id :
  alone disciplined w "a/gw" -> (pw_counter w < cfg_Version cfg)%Z -> pw_flights w !! id = None ->
  pp_skip (prepare cfg (pw_targets w)).1 = false ->
  example_step disciplined w
    (mkPushWorld (prepare cfg (pw_targets w)).2 (pw_replicas w) (cfg_Version cfg) (<[id := flight cfg ["proxy"]]> (pw_flights w))
       (pw_replays w) (pw_requests w ++ [asked cfg]) (pw_sent w)).
Proof.
  intros Ha Hv Hid Hskip.
  pose proof (@step_prepare plain_digest content_codec opaque_urls "shared" one_plane disciplined w "a/gw" "token" ["proxy"] no_dns cfg
    (cfg_Version cfg) id _ _ Ha (fun _ => ltac:(repeat constructor)) ltac:(lia) (surjective_pairing _) Hid) as H.
  change (@preparePush plain_digest content_codec "a/gw" "token" ["proxy"] _ cfg (pw_targets w)) with (prepare cfg (pw_targets w)) in H.
  rewrite Hskip in H. exact H.
Qed.

(** A world after one sync that reached its only endpoint. *)
Definition synced_world : PushWorld :=
  mkPushWorld (record (http_config 1) (prepare (http_config 1) ∅).2) {["proxy" := http_config 1]} 1 ∅ ∅ [asked (http_config 1)] [sent (http_config 1)].
Lemma synced_world_reachable : example_reachable true synced_world.
Proof.
  eapply reachable_step; [|exact (@step_record plain_digest content_codec opaque_urls "shared" one_plane true
    (mkPushWorld (prepare (http_config 1) ∅).2 {["proxy" := http_config 1]} 1 {[0 := flight (http_config 1) []]} ∅ [asked (http_config 1)]
       [sent (http_config 1)]) 0 (flight (http_config 1) []) eq_refl eq_refl)].
  eapply reachable_step; [|exact (@step_deliver plain_digest content_codec opaque_urls "shared" one_plane true
    (mkPushWorld (prepare (http_config 1) ∅).2 ∅ 1 {[0 := flight (http_config 1) ["proxy"]]} ∅ [asked (http_config 1)] []) 0
       (flight (http_config 1) ["proxy"]) "proxy" [] true {["proxy" := http_config 1]} 1 eq_refl eq_refl
       (deliver_applied (http_config 1) "proxy" ∅ 1 true (fun held H => False_ind _ (lookup_empty_Some _ _ H))))].
  eapply reachable_step; [apply (reachable_start _ _ _ ∅ 0)|]. apply (example_prepare true (http_config 1) (fresh_world ∅ 0) 0); [|done|done|by vm_compute].
  intros _ id f H. exfalso. exact (lookup_empty_Some _ _ H).
Qed.
Lemma push_isolation_witness : addressed (parser := opaque_urls) (pw_requests synced_world) (sent (http_config 1)).
Proof.
  apply (@push_isolation plain_digest content_codec opaque_urls "shared" one_plane true synced_world _ synced_world_reachable).
  apply list_elem_of_singleton. reflexivity.
Defined.
(** A later sync of the same content is skipped. *)
Lemma skipped_push_redundant_witness :
  pp_skip (prepare (http_config 2) (pw_targets synced_world)).1 = true /\
  exists held t, pw_replicas synced_world !! "proxy" = Some held /\
    @hashProxyConfig plain_digest content_codec held = @hashProxyConfig plain_digest content_codec (http_config 2) /\
    pw_targets synced_world !! "a/gw" = Some t /\ pt_lastPushedToken t = "token".
Proof.
  assert (Hskip : pp_skip (prepare (http_config 2) (pw_targets synced_world)).1 = true) by (vm_compute; reflexivity).
  split; [exact Hskip|].
  apply (@skipped_push_redundant plain_digest content_codec opaque_urls "shared" one_plane synced_world "a/gw" "token" ["proxy"] no_dns
           (http_config 2) synced_world_reachable).
  - intros _ id f H. exfalso. exact (lookup_empty_Some _ _ H).
  - exact Hskip.
  - apply list_elem_of_singleton. reflexivity.
Defined.

(** Two overlapping syncs of one partition: the older configuration is delivered
    first and recorded last, so the next sync of its content is skipped although
    the endpoint serves the other one. *)
Definition raced_world : PushWorld :=
  mkPushWorld (record (http_config 1) (record (grpc_config 2) (prepare (grpc_config 2) (prepare (http_config 1) ∅).2).2))
    {["proxy" := grpc_config 2]} 2 ∅ ∅ [asked (http_config 1); asked (grpc_config 2)] [sent (http_config 1); sent (grpc_config 2)].
Lemma late_record_skips_rollback :
  example_reachable false raced_world /\
  pp_skip (prepare (http_config 3) (pw_targets raced_world)).1 = true /\
  pw_replicas raced_world !! "proxy" = Some (grpc_config 2) /\
  @hashProxyConfig plain_digest content_codec (grpc_config 2) <> @hashProxyConfig plain_digest content_codec (http_config 3).
Proof.
  split; [|split_and!; by vm_compute].
  set (targets := (prepare (grpc_config 2) (prepare (http_config 1) ∅).2).2).
  set (requests := [asked (http_config 1); asked (grpc_config 2)]).
  set (sends := [sent (http_config 1); sent (grpc_config 2)]).
  eapply reachable_step; [|exact (@step_record plain_digest content_codec opaque_urls "shared" one_plane false
    (mkPushWorld (record (grpc_config 2) targets) {["proxy" := grpc_config 2]} 2 {[0 := flight (http_config 1) []]} ∅ requests sends)
    0 (flight (http_config 1) []) eq_refl eq_refl)].
  eapply reachable_step; [|exact (@step_record plain_digest content_codec opaque_urls "shared" one_plane false
    (mkPushWorld targets {["proxy" := grpc_config 2]} 2 {[0 := flight (http_config 1) []; 1 := flight (grpc_config 2) []]} ∅ requests sends)
    1 (flight (grpc_config 2) []) eq_refl eq_refl)].
  eapply reachable_step; [|refine (@step_deliver plain_digest content_codec opaque_urls "shared" one_plane false
    (mkPushWorld targets {["proxy" := http_config 1]} 2 {[0 := flight (http_config 1) []; 1 := flight (grpc_config 2) ["proxy"]]} ∅ requests
       [sent (http_config 1)]) 1 (flight (grpc_config 2) ["proxy"]) "proxy" [] true {["proxy" := grpc_config 2]} 2 eq_refl eq_refl
       (deliver_applied (grpc_config 2) "proxy" {["proxy" := http_config 1]} 2 true _))].
  2:{ intros held [= <-]. by vm_compute. }
  eapply reachable_step; [|exact (@step_deliver plain_digest content_codec opaque_urls "shared" one_plane false
    (mkPushWorld targets ∅ 2 (<[1 := flight (grpc_config 2) ["proxy"]]> {[0 := flight (http_config 1) ["proxy"]]}) ∅ requests [])
       0 (flight (http_config 1) ["proxy"]) "proxy" [] true {["proxy" := http_config 1]} 2 eq_refl eq_refl
       (deliver_applied (http_config 1) "proxy" ∅ 2 true (fun held H => False_ind _ (lookup_empty_Some _ _ H))))].
  eapply reachable_step; [|exact (example_prepare false (grpc_config 2)
    (mkPushWorld (prepare (http_config 1) ∅).2 ∅ 1 {[0 := flight (http_config 1) ["proxy"]]} ∅ [asked (http_config 1)] []) 1
    (fun H => match Bool.diff_false_true H with end) eq_refl eq_refl ltac:(by vm_compute))].
  eapply reachable_step; [apply (reachable_start _ _ _ ∅ 0)|].
  apply (example_prepare false (http_config 1) (fresh_world ∅ 0) 0); [done|done|done|by vm_compute].
Qed.

(** After a push that failed anywhere the next sync pushes again, whatever it built. *)
Lemma failed_push_retried {hash : Sha256} {codec : JsonConfig} key token endpoints resolved cfg token0 hash0 cfg0 resolved0 targets :
  pp_skip (preparePush key token endpoints resolved cfg (recordPush key token0 hash0 cfg0 resolved0 true targets)).1 = true ->
  targets !! key = None.
Proof.
  destruct (targets !! key) as [t|] eqn:Ht; [|done].
  assert (Hl : recordPush key token0 hash0 cfg0 resolved0 true targets !! key =
    Some (mkPushTarget (pt_lastCfg t) "" (pt_lastPushedToken t) ∅ (pt_endpointURLs t) (pt_authToken t) (pt_consecutivePushFail t + 1))).
  { unfold recordPush. rewrite Ht. apply lookup_insert_eq. }
  unfold preparePush, targetLocked. rewrite Hl. cbn. intros Hs. apply skip_claims in Hs as (Hne & Heq & _). congruence.
Qed.
