(* ===== verification/BackendTLS.v ===== *)
(** * BackendTLSPolicies

    [controller/backendtlspolicy_controller.go] (the status of a policy) and the
    resolvers of [controller/proxy_syncer.go] (what the data plane does with it):
    which policy applies to a Service port, what it turns into, and what its
    status says.  Reads of the cluster and the PEM and certificate parsers are
    parameters. *)
From Stdlib Require Import Ascii.
From stdpp Require Import sorting.
From stdpp Require Import base sets gmap strings list.
From S2P Require Import Prelude GoStrings ProxyConfig Shadow ReferenceGrant RouteBinding IngressBuild BackendPasses Converter Handler ConfigResolver ListenerView ParentBinding RouteStatus.

(** ** Policies *)

Record PolicyTargetRef := mkPolicyTargetRef { tr_Group : string; tr_Kind : string; tr_Name : string; tr_SectionName : option string }.
Record CACertificateRef := mkCACertificateRef { ca_Group : string; ca_Kind : string; ca_Name : string }.
Record SubjectAltName := mkSubjectAltName { san_Type : string; san_Hostname : string; san_URI : string }.
Record PolicyAncestorStatus := mkPolicyAncestorStatus {
  an_AncestorRef : ParentReference; an_ControllerName : string; an_Conditions : list Condition }.
Record BackendTLSPolicy := mkBackendTLSPolicy {
  btp_Namespace : string; btp_Name : string; btp_CreationTimestamp : Z; btp_Generation : Z;
  btp_TargetRefs : list PolicyTargetRef;
  btp_CACertificateRefs : list CACertificateRef;
  btp_WellKnownCACertificates : option string;
  btp_Hostname : string;
  btp_SubjectAltNames : list SubjectAltName;
  btp_Ancestors : list PolicyAncestorStatus }.

Record ServicePort := mkServicePort { svp_Name : string; svp_Port : Z; svp_AppProtocol : option string }.
(** Reads of the cluster; [None] is an error. *)
Class PolicyReader := {
  list_policies : string -> option (list BackendTLSPolicy);                (* namespace *)
  get_policy : string -> string -> Lookup BackendTLSPolicy;
  get_configMap : string -> string -> option (gmap string string);         (* namespace, name *)
  get_servicePorts : string -> string -> option (list ServicePort);
  list_httpRoutes : string -> option (list (RouteObject HTTPRouteRule));
  list_grpcRoutes : string -> option (list (RouteObject GRPCRouteRule)) }.
(** [pem.Decode] until nothing is left: the blocks with their types; and whether
    [x509.ParseCertificate] accepts the bytes of one. *)
Class PemReader := { pem_blocks : string -> list (string * string); ParseCertificate : string -> bool }.

Definition serviceKind : string := "Service".
Definition coreGroup : string := "core".
Definition configMapKind : string := "ConfigMap".
Definition configMapCAKey : string := "ca.crt".
Definition policyAncestorStatusMaxCount : nat := 16.

Inductive PolicyError :=
| errBackendTLSNoCARef | errBackendTLSUnsupportedGroup (group : string) | errBackendTLSUnsupportedKind (kind : string)
| errBackendTLSCAKeyMissing (name : string) | errGetConfigMap (name : string)
| errBackendTLSCABundleMalformed (block : nat) | errBackendTLSCABundleNoCerts.

(** ** Precedence *)

Definition isPolicyOlder (candidate incumbent : BackendTLSPolicy) : bool :=
  if (btp_CreationTimestamp candidate <? btp_CreationTimestamp incumbent)%Z then true
  else if (btp_CreationTimestamp incumbent <? btp_CreationTimestamp candidate)%Z then false
  else str_ltb (btp_Name candidate) (btp_Name incumbent).
(** The loops keep the best policy so far among those that pass [ok]. *)
Definition oldest_step (ok : BackendTLSPolicy -> bool) (best : option BackendTLSPolicy) (policy : BackendTLSPolicy)
    : option BackendTLSPolicy :=
  if negb (ok policy) then best
  else match best with
       | None => Some policy
       | Some b => if isPolicyOlder policy b then Some policy else best
       end.
Definition oldest (ok : BackendTLSPolicy -> bool) (policies : list BackendTLSPolicy) : option BackendTLSPolicy :=
  foldl (oldest_step ok) None policies.

Section resolvers.
Context {cluster : PolicyReader} {pem : PemReader}.

(** ** What the data plane gets *)

Definition parseCABundle (bundle : string) : res PolicyError nat :=
  (fix go (blocks : list (string * string)) (parsed : nat) : res PolicyError nat :=
     match blocks with
     | [] => if parsed =? 0 then Err errBackendTLSCABundleNoCerts else Ok parsed
     | (type, bytes) :: blocks' =>
         if negb (bool_decide (type = "CERTIFICATE")) then go blocks' parsed
         else if ParseCertificate bytes then go blocks' (S parsed)
         else Err (errBackendTLSCABundleMalformed parsed)
     end) (pem_blocks bundle) 0.

Definition lookupServicePortName (namespace serviceName : string) (port : Z) : string :=
  match get_servicePorts namespace serviceName with
  | None => ""
  | Some ports => default "" (svp_Name <$> List.find (fun p => (svp_Port p =? port)%Z) ports)
  end.
Definition target_matches (serviceName portName : string) (target : PolicyTargetRef) : bool :=
  bool_decide (tr_Name target = serviceName) &&
  (bool_decide (tr_Kind target = "") || bool_decide (tr_Kind target = serviceKind)) &&
  match tr_SectionName target with
  | None => true
  | Some section => bool_decide (section = "") || bool_decide (section = portName)
  end.
Definition policyTargetsServicePort (policy : BackendTLSPolicy) (serviceName portName : string) : bool :=
  existsb (target_matches serviceName portName) (btp_TargetRefs policy).
(** The lookup of the port name is lazy in the code; its answer is the same. *)
Definition selectPolicyForServicePort (policies : list BackendTLSPolicy) (namespace serviceName : string) (port : Z)
    : option BackendTLSPolicy :=
  oldest (fun policy => policyTargetsServicePort policy serviceName (lookupServicePortName namespace serviceName port)) policies.

Fixpoint ca_bundle (namespace : string) (refs : list CACertificateRef) : option string :=
  match refs with
  | [] => Some ""
  | ref :: refs' =>
      if negb (bool_decide (ca_Group ref = "")) && negb (bool_decide (ca_Group ref = coreGroup)) then None
      else if negb (bool_decide (ca_Kind ref = configMapKind)) then None
      else
        match get_configMap namespace (ca_Name ref) with
        | None => None
        | Some data =>
            match data !! configMapCAKey with
            | None => None
            | Some caPEM =>
                if bool_decide (caPEM = "") then None
                else match parseCABundle caPEM with
                     | Err _ => None
                     | Ok _ =>
                         rest ← ca_bundle namespace refs';
                         Some ((if HasSuffix caPEM (String "010" "") then caPEM else caPEM +:+ String "010" "") +:+ rest)
                     end
            end
        end
  end.
Definition resolveCABundlePEM (policy : BackendTLSPolicy) : option string :=
  if length (btp_CACertificateRefs policy) =? 0 then None else ca_bundle (btp_Namespace policy) (btp_CACertificateRefs policy).

Definition san_step (acc : list string * list string * bool) (san : SubjectAltName) : list string * list string * bool :=
  let '(dnsSANs, uriSANs, hasUnknown) := acc in
  if bool_decide (san_Type san = "Hostname") then
    (if bool_decide (san_Hostname san = "") then dnsSANs else dnsSANs ++ [san_Hostname san], uriSANs, hasUnknown)
  else if bool_decide (san_Type san = "URI") then
    (dnsSANs, if bool_decide (san_URI san = "") then uriSANs else uriSANs ++ [san_URI san], hasUnknown)
  else (dnsSANs, uriSANs, true).
Definition splitSANsByType (policy : BackendTLSPolicy) : list string * list string * bool :=
  foldl san_step ([], [], false) (btp_SubjectAltNames policy).

Definition poisonedBackendTLS (policy : BackendTLSPolicy) : BackendTLSConfig := mkBackendTLSConfig "" (btp_Hostname policy) [] [] "" "".
Definition newBackendTLSResolver (namespace serviceName : string) (port : Z) : option BackendTLSConfig :=
  match list_policies namespace with
  | None => None
  | Some policies =>
      match selectPolicyForServicePort policies namespace serviceName port with
      | None => None
      | Some policy =>
          match resolveCABundlePEM policy with
          | None => Some (poisonedBackendTLS policy)
          | Some caBundle =>
              let '(dnsSANs, uriSANs, hasUnknown) := splitSANsByType policy in
              if hasUnknown then Some (poisonedBackendTLS policy)
              else Some (mkBackendTLSConfig caBundle (btp_Hostname policy) dnsSANs uriSANs "" "")
          end
      end
  end.

Definition portAppProtocol (ports : list ServicePort) (port : Z) : string :=
  default "" (List.find (fun p => (svp_Port p =? port)%Z && bool_decide (is_Some (svp_AppProtocol p))) ports ≫= svp_AppProtocol).
Definition newBackendProtocolResolver (namespace serviceName : string) (port : Z) : string :=
  match get_servicePorts namespace serviceName with
  | None => ""
  | Some ports => portAppProtocol ports port
  end.
End resolvers.

(** [newBackendRefValidator]: the grants as the converters ask for them. *)
Definition newBackendRefValidator {grants : GrantClient} (fromKind fromNamespace : string) (ref : GwBackendRef) : bool :=
  match IsReferenceAllowed
          (mkReference "gateway.networking.k8s.io" fromKind fromNamespace "")
          (mkReference (default "" (gb_Group ref)) (default serviceKind (gb_Kind ref)) (default fromNamespace (gb_Namespace ref)) (gb_Name ref)) with
  | Ok allowed => allowed
  | Err _ => false
  end.

(** ** Which policies concern a route *)

Definition backendRefMatchesTargetSet (ref : GwBackendRef) (routeNamespace : string) (targets : gset string) (targetNamespace : string) : bool :=
  IsServiceBackendRef ref && bool_decide (default routeNamespace (gb_Namespace ref) = targetNamespace) && bool_decide (gb_Name ref ∈ targets).
Definition http_backendRefs (route : RouteObject HTTPRouteRule) : list GwBackendRef :=
  ro_Rules route ≫= fun rule => hb_Ref <$> hrule_BackendRefs rule.
Definition grpc_backendRefs (route : RouteObject GRPCRouteRule) : list GwBackendRef :=
  ro_Rules route ≫= fun rule => gbr_Ref <$> grule_BackendRefs rule.
Definition references_any {R} (refs : RouteObject R -> list GwBackendRef) (route : RouteObject R) (targets : gset string) (targetNamespace : string) : bool :=
  if bool_decide (targets = ∅) then false
  else existsb (fun ref => backendRefMatchesTargetSet ref (ro_Namespace route) targets targetNamespace) (refs route).
Definition routeReferencesAnyService (route : RouteObject HTTPRouteRule) (targets : gset string) (targetNamespace : string) : bool :=
  references_any http_backendRefs route targets targetNamespace.
Definition grpcRouteReferencesAnyService (route : RouteObject GRPCRouteRule) (targets : gset string) (targetNamespace : string) : bool :=
  references_any grpc_backendRefs route targets targetNamespace.

Definition targets_service (target : PolicyTargetRef) : bool :=
  bool_decide (tr_Kind target = "") || bool_decide (tr_Kind target = serviceKind).
Definition policyTargetServiceNames (policy : BackendTLSPolicy) : gset string :=
  list_to_set (tr_Name <$> List.filter targets_service (btp_TargetRefs policy)).
(** [targetKey]: the Service and the section, [""] when unset. *)
Definition targetKey : Type := string * string.
Definition normalizePolicyTargets (policy : BackendTLSPolicy) : gset targetKey :=
  list_to_set ((fun t => (tr_Name t, default "" (tr_SectionName t))) <$> List.filter targets_service (btp_TargetRefs policy)).
Definition policiesShareTarget (peer : BackendTLSPolicy) (ownTargets : gset targetKey) : bool :=
  bool_decide (normalizePolicyTargets peer ∩ ownTargets <> ∅).

Definition parentReferenceToKey (parentRef : ParentReference) (routeNamespace : string) : string * string :=
  (default routeNamespace (pref_Namespace parentRef), pref_Name parentRef).
Definition parentRefIsGateway (parentRef : ParentReference) : bool :=
  (bool_decide (default "" (pref_Group parentRef) = "") || bool_decide (default "" (pref_Group parentRef) = GroupName)) &&
  (bool_decide (default "" (pref_Kind parentRef) = "") || bool_decide (default "" (pref_Kind parentRef) = kindGateway)).
Definition collectGatewayParentKeys (parentRefs : list ParentReference) (routeNamespace : string) (keys : gset (string * string))
    : gset (string * string) :=
  foldl (fun keys ref => if parentRefIsGateway ref then {[parentReferenceToKey ref routeNamespace]} ∪ keys else keys) keys parentRefs.
Definition key_less (a b : string * string) : bool :=
  if negb (bool_decide (a.1 = b.1)) then str_ltb a.1 b.1 else str_ltb a.2 b.2.
Definition collectGatewayKeys (httpRoutes : list (RouteObject HTTPRouteRule)) (grpcRoutes : list (RouteObject GRPCRouteRule))
    (targetServices : gset string) (targetNamespace : string) : list (string * string) :=
  let collect {R} (references : RouteObject R -> gset string -> string -> bool) (keys : gset (string * string)) (route : RouteObject R) :=
    if references route targetServices targetNamespace then collectGatewayParentKeys (ro_ParentRefs route) (ro_Namespace route) keys else keys in
  let keys := foldl (collect routeReferencesAnyService) ∅ httpRoutes in
  let keys := foldl (collect grpcRouteReferencesAnyService) keys grpcRoutes in
  stable_sort key_less (elements keys).

(** ** The status of a policy *)

Section status.
Context {cluster : PolicyReader} {pem : PemReader} {kube : KubeClient} {reader : ConfigReader}.
Context (policy_error : PolicyError -> string) (controllerName : string).

Fixpoint validate_refs (namespace : string) (refs : list CACertificateRef) : res PolicyError unit :=
  match refs with
  | [] => Ok tt
  | ref :: refs' =>
      if negb (bool_decide (ca_Group ref = "")) && negb (bool_decide (ca_Group ref = coreGroup))
      then Err (errBackendTLSUnsupportedGroup (ca_Group ref))
      else if negb (bool_decide (ca_Kind ref = configMapKind)) then Err (errBackendTLSUnsupportedKind (ca_Kind ref))
      else
        match get_configMap namespace (ca_Name ref) with
        | None => Err (errGetConfigMap (ca_Name ref))
        | Some data =>
            let bundle := default "" (data !! configMapCAKey) in
            if bool_decide (bundle = "") then Err (errBackendTLSCAKeyMissing (ca_Name ref))
            else match parseCABundle bundle with
                 | Err e => Err e
                 | Ok _ => validate_refs namespace refs'
                 end
        end
  end.
Definition validateCARefs (policy : BackendTLSPolicy) : res PolicyError unit :=
  if length (btp_CACertificateRefs policy) =? 0 then Err errBackendTLSNoCARef
  else validate_refs (btp_Namespace policy) (btp_CACertificateRefs policy).

Definition condition_pair (generation : Z) (accepted : bool) (acceptedReason acceptedMessage : string)
    (resolved : bool) (resolvedReason resolvedMessage : string) : list Condition :=
  [mkCondition "Accepted" (condition_status accepted) generation 0 acceptedReason acceptedMessage;
   mkCondition "ResolvedRefs" (condition_status resolved) generation 0 resolvedReason resolvedMessage].
Definition backendTLSResolvedRefsMessage : string := "All CA certificate references resolved".
Definition conflictedConditions (generation : Z) (winner : BackendTLSPolicy) : list Condition :=
  condition_pair generation
    false "Conflicted" ("conflicts with BackendTLSPolicy " +:+ btp_Namespace winner +:+ "/" +:+ btp_Name winner)
    true "ResolvedRefs" backendTLSResolvedRefsMessage.
Definition caInvalidConditions (generation : Z) (err : PolicyError) : list Condition :=
  condition_pair generation false "NoValidCACertificate" (policy_error err) false
    (match err with errBackendTLSUnsupportedKind _ | errBackendTLSUnsupportedGroup _ => "InvalidKind" | _ => "InvalidCACertificateRef" end)
    (policy_error err).
Definition wellKnownUnsupportedConditions (generation : Z) (value : string) : list Condition :=
  let msg := "WellKnownCACertificates " +:+ quoted value +:+ " is not supported; configure explicit caCertificateRefs instead" in
  condition_pair generation false "Invalid" msg false "NoValidCACertificate" msg.
Definition acceptedConditions (generation : Z) : list Condition :=
  condition_pair generation true "Accepted" "BackendTLSPolicy CA references resolved" true "ResolvedRefs" backendTLSResolvedRefsMessage.

Definition conflictWinnerFor (policy : BackendTLSPolicy) : option BackendTLSPolicy :=
  let ownTargets := normalizePolicyTargets policy in
  if bool_decide (ownTargets = ∅) then None
  else
    match list_policies (btp_Namespace policy) with
    | None => None
    | Some policies =>
        oldest (fun peer =>
          negb (bool_decide (btp_Name peer = btp_Name policy) && bool_decide (btp_Namespace peer = btp_Namespace policy)) &&
          policiesShareTarget peer ownTargets && isPolicyOlder peer policy) policies
    end.

Definition computeConditions (policy : BackendTLSPolicy) : list Condition :=
  match btp_CACertificateRefs policy, btp_WellKnownCACertificates policy with
  | [], Some value => wellKnownUnsupportedConditions (btp_Generation policy) value
  | _, _ =>
      match validateCARefs policy with
      | Err err => caInvalidConditions (btp_Generation policy) err
      | Ok _ =>
          match conflictWinnerFor policy with
          | Some winner => conflictedConditions (btp_Generation policy) winner
          | None => acceptedConditions (btp_Generation policy)
          end
      end
  end.

Definition gatewayManagedByUs (gateway : GatewayObject) : res ApiError bool :=
  match get_GatewayClass (go_ClassName gateway) with
  | Err apiNotFound => Ok false
  | Err e => Err e
  | Ok class => Ok (bool_decide (gc_ControllerName class = controllerName))
  end.
Inductive AncestorError := errListHTTP | errListGRPC.
Definition gatewaysForPolicy (policy : BackendTLSPolicy) : res AncestorError (list GatewayObject) :=
  if length (btp_TargetRefs policy) =? 0 then Ok []
  else
    match list_httpRoutes (btp_Namespace policy) with
    | None => Err errListHTTP
    | Some httpRoutes =>
        match list_grpcRoutes (btp_Namespace policy) with
        | None => Err errListGRPC
        | Some grpcRoutes =>
            Ok (omap (fun key =>
                  gateway ← kube_Gateway key.1 key.2;
                  match gatewayManagedByUs gateway with Ok true => Some gateway | _ => None end)
                (collectGatewayKeys httpRoutes grpcRoutes (policyTargetServiceNames policy) (btp_Namespace policy)))
        end
    end.

(** [apimeta.SetStatusCondition]; a zero time stands for the current one. *)
Fixpoint SetStatusCondition (now : Z) (conditions : list Condition) (new : Condition) : list Condition :=
  match conditions with
  | [] => [mkCondition (cond_Type new) (cond_Status new) (cond_ObservedGeneration new) now (cond_Reason new) (cond_Message new)]
  | c :: conditions' =>
      if bool_decide (cond_Type c = cond_Type new)
      then mkCondition (cond_Type c) (cond_Status new) (cond_ObservedGeneration new)
             (if bool_decide (cond_Status c = cond_Status new) then cond_LastTransitionTime c else now)
             (cond_Reason new) (cond_Message new) :: conditions'
      else c :: SetStatusCondition now conditions' new
  end.

Definition gatewayAncestorRef (gateway : GatewayObject) : ParentReference :=
  mkParentReference (Some GroupName) (Some "Gateway") (Some (gw_Namespace (go_Gateway gateway))) (gw_Name (go_Gateway gateway)) None None.
Definition ancestorRefKey (ref : ParentReference) (policyNamespace : string) : string * string :=
  (default policyNamespace (pref_Namespace ref), pref_Name ref).
(** [None] when an entry of ours is ahead of this reconcile. *)
Fixpoint partitionAncestors (namespace : string) (reconciledGen : Z) (ancestors : list PolicyAncestorStatus)
    (existing : gmap (string * string) (list Condition)) : option (gmap (string * string) (list Condition) * list PolicyAncestorStatus) :=
  match ancestors with
  | [] => Some (existing, [])
  | ancestor :: ancestors' =>
      if negb (bool_decide (an_ControllerName ancestor = controllerName))
      then '(existing, others) ← partitionAncestors namespace reconciledGen ancestors' existing; Some (existing, ancestor :: others)
      else if statusGenerationStale reconciledGen [an_Conditions ancestor] then None
      else partitionAncestors namespace reconciledGen ancestors'
             (<[ancestorRefKey (an_AncestorRef ancestor) namespace := an_Conditions ancestor]> existing)
  end.
Definition our_ancestors (gateways : list GatewayObject) (conditions : list Condition) (now : Z)
    (existing : gmap (string * string) (list Condition)) : list PolicyAncestorStatus :=
  (fun gateway =>
     mkPolicyAncestorStatus (gatewayAncestorRef gateway) controllerName
       (foldl (SetStatusCondition now)
          (default [] (existing !! (gw_Namespace (go_Gateway gateway), gw_Name (go_Gateway gateway)))) conditions)) <$> gateways.
(** The ancestors one attempt writes; [None] when it writes nothing. *)
Definition ancestors_written (fresh : BackendTLSPolicy) (gateways : list GatewayObject) (conditions : list Condition)
    (reconciledGen now : Z) : option (list PolicyAncestorStatus) :=
  '(existing, others) ← partitionAncestors (btp_Namespace fresh) reconciledGen (btp_Ancestors fresh) ∅;
  Some (others ++ take (policyAncestorStatusMaxCount - length others) (our_ancestors gateways conditions now existing)).

Record PolicyAttempt := mkPolicyAttempt {
  pa_Read : Lookup (Z * BackendTLSPolicy); pa_Now : Z; pa_Stored : Z * BackendTLSPolicy; pa_Refused : option string }.
Inductive PolicyWrite := policy_skipped | policy_stored (before : BackendTLSPolicy) (after : list PolicyAncestorStatus).
Definition update_attempt (a : PolicyAttempt) (gateways : list GatewayObject) (conditions : list Condition) (reconciledGen : Z)
    : res WriteError PolicyWrite :=
  match pa_Read a with
  | NotFound => Ok policy_skipped
  | Unavailable => Err errGetFresh
  | Found (version, fresh) =>
      match ancestors_written fresh gateways conditions reconciledGen (pa_Now a) with
      | None => Ok policy_skipped
      | Some combined =>
          match pa_Refused a with
          | Some e => Err (errUpdateStatus e)
          | None => if bool_decide (version = (pa_Stored a).1) then Ok (policy_stored (pa_Stored a).2 combined) else Err errConflict
          end
      end
  end.
Definition updateStatus (attempts : nat -> PolicyAttempt) (gateways : list GatewayObject) (conditions : list Condition)
    (reconciledGen : Z) : res WriteError PolicyWrite :=
  RetryOnConflict default_retry_steps (fun i => update_attempt (attempts i) gateways conditions reconciledGen) 0.

Inductive ReconcileError := errGetPolicy | errAncestors (e : AncestorError) | errPolicyStatus (e : WriteError).
Definition Reconcile (namespace name : string) (attempts : nat -> PolicyAttempt) : res ReconcileError PolicyWrite :=
  match get_policy namespace name with
  | NotFound => Ok policy_skipped
  | Unavailable => Err errGetPolicy
  | Found policy =>
      match gatewaysForPolicy policy with
      | Err e => Err (errAncestors e)
      | Ok gateways =>
          if length gateways =? 0 then Ok policy_skipped
          else
            match updateStatus attempts gateways (computeConditions policy) (btp_Generation policy) with
            | Err e => Err (errPolicyStatus e)
            | Ok w => Ok w
            end
      end
  end.
End status.

(** ** Which policies an event concerns *)

Section mappers.
Context {cluster : PolicyReader}.

Definition policy_key (policy : BackendTLSPolicy) : string * string := (btp_Namespace policy, btp_Name policy).
Definition policies_where (namespace : string) (concerned : BackendTLSPolicy -> bool) : list (string * string) :=
  match list_policies namespace with
  | None => []
  | Some policies => policy_key <$> List.filter concerned policies
  end.
Definition policiesForPeerChange (changed : BackendTLSPolicy) : list (string * string) :=
  let ownTargets := normalizePolicyTargets changed in
  if bool_decide (ownTargets = ∅) then []
  else policies_where (btp_Namespace changed) (fun peer =>
         negb (bool_decide (btp_Name peer = btp_Name changed) && bool_decide (btp_Namespace peer = btp_Namespace changed)) &&
         policiesShareTarget peer ownTargets).
Definition policyReferencesConfigMap (policy : BackendTLSPolicy) (configMapName : string) : bool :=
  existsb (fun ref =>
    (bool_decide (ca_Group ref = "") || bool_decide (ca_Group ref = coreGroup)) && bool_decide (ca_Kind ref = configMapKind) &&
    bool_decide (ca_Name ref = configMapName)) (btp_CACertificateRefs policy).
Definition policiesForConfigMapChange (namespace name : string) : list (string * string) :=
  policies_where namespace (fun policy => policyReferencesConfigMap policy name).
Definition isConfigMapReferencedByBackendTLSPolicy (namespace name : string) : bool :=
  match list_policies namespace with
  | None => false
  | Some policies => existsb (fun policy => policyReferencesConfigMap policy name) policies
  end.
Definition policyTargetsAnyRouteBackend (policy : BackendTLSPolicy) (route : RouteObject HTTPRouteRule) : bool :=
  routeReferencesAnyService route (policyTargetServiceNames policy) (btp_Namespace policy).
Definition policiesForRouteChange (route : RouteObject HTTPRouteRule) : list (string * string) :=
  policies_where (ro_Namespace route) (fun policy => policyTargetsAnyRouteBackend policy route).
Definition policiesForGRPCRouteChange (route : RouteObject GRPCRouteRule) : list (string * string) :=
  policies_where (ro_Namespace route) (fun policy =>
    grpcRouteReferencesAnyService route (policyTargetServiceNames policy) (btp_Namespace policy)).
End mappers.

(** ** Precedence picks the oldest *)

Lemma isPolicyOlder_lex a b : isPolicyOlder a b = lex_less btp_CreationTimestamp Z.ltb (by_key btp_Name str_ltb) a b.
Proof.
  unfold isPolicyOlder, lex_less, by_key.
  destruct (Z.ltb_spec (btp_CreationTimestamp a) (btp_CreationTimestamp b)), (Z.ltb_spec (btp_CreationTimestamp b) (btp_CreationTimestamp a));
    case_bool_decide; simpl; done || lia.
Qed.
#[local] Instance isPolicyOlder_strict : StrictWeak isPolicyOlder.
Proof.
  split; unfold not_after; intros *; rewrite !isPolicyOlder_lex.
  - apply (sw_asym (less := lex_less btp_CreationTimestamp Z.ltb (by_key btp_Name str_ltb))).
  - apply (sw_trans (less := lex_less btp_CreationTimestamp Z.ltb (by_key btp_Name str_ltb))).
Qed.
Lemma isPolicyOlder_total a b : isPolicyOlder a b = false -> isPolicyOlder b a = false -> btp_Name a = btp_Name b.
Proof.
  rewrite !isPolicyOlder_lex. intros H1 H2. destruct (lex_less_tie _ _ _ _ _ H1 H2) as (_ & H3 & H4).
  by apply (st_total (lt := str_ltb)).
Qed.

(** The policy that passes [ok] and is younger than no other that does. *)
Definition is_oldest (ok : BackendTLSPolicy -> bool) (policies : list BackendTLSPolicy) (p : BackendTLSPolicy) : Prop :=
  p ∈ policies /\ ok p = true /\ forall q, q ∈ policies -> ok q = true -> isPolicyOlder q p = false.
Lemma oldest_from ok best policies :
  (forall b, best = Some b -> ok b = true) ->
  match foldl (oldest_step ok) best policies with
  | None => best = None /\ forall p, p ∈ policies -> ok p = false
  | Some p => (p ∈ policies \/ best = Some p) /\ ok p = true /\
      (forall q, q ∈ policies \/ best = Some q -> ok q = true -> isPolicyOlder q p = false)
  end.
Proof.
  revert best. induction policies as [|p policies IH]; intros best Hbest; cbn [foldl].
  { destruct best as [b|]; [|by split; [|intros p ?%elem_of_nil]]. split_and!; [by right|by apply Hbest|].
    intros q [?%elem_of_nil|[= ->]] _; [done|]. destruct (isPolicyOlder q q) eqn:E; [|done]. pose proof (sw_asym (less := isPolicyOlder) q q E). congruence. }
  assert (Hnext : forall b, oldest_step ok best p = Some b -> ok b = true).
  { unfold oldest_step. destruct (ok p) eqn:Hok; simpl; [|done]. destruct best as [b|]; [case_match|]; intros ? [= <-]; auto. }
  specialize (IH _ Hnext). destruct (foldl (oldest_step ok) (oldest_step ok best p) policies) as [w|].
  - destruct IH as (Hin & Hok & Hmin). unfold oldest_step in *. destruct (ok p) eqn:Hp; simpl in *.
    + destruct best as [b|]; [destruct (isPolicyOlder p b) eqn:Hpb|].
      * split_and!; [set_solver|done|]. intros q [[->|Hq]%elem_of_cons|[= ->]] Hq'; [apply Hmin; auto|apply Hmin; auto|].
        assert (Hwp : not_after isPolicyOlder w p) by (apply Hmin; auto).
        assert (Hpq : not_after isPolicyOlder p q) by (by apply (sw_asym (less := isPolicyOlder))).
        exact (sw_trans (less := isPolicyOlder) _ _ _ Hwp Hpq).
      * split_and!; [set_solver|done|]. intros q [[->|Hq]%elem_of_cons|[= ->]] Hq'; [|apply Hmin; auto|apply Hmin; auto].
        assert (Hwb : not_after isPolicyOlder w b) by (apply Hmin; [by right|by apply Hbest]).
        exact (sw_trans (less := isPolicyOlder) _ _ _ Hwb Hpb).
      * split_and!; [set_solver|done|]. intros q [[->|Hq]%elem_of_cons|[= ->]] Hq'; apply Hmin; auto.
    + split_and!; [set_solver|done|]. intros q [[->|Hq]%elem_of_cons|Hq] Hq'; [congruence|apply Hmin; auto|apply Hmin; auto].
  - destruct IH as [Hnone Hall]. unfold oldest_step in Hnone. destruct (ok p) eqn:Hp; simpl in Hnone; [destruct best; [by case_match|done]|].
    split; [done|]. intros q [->|Hq]%elem_of_cons; auto.
Qed.
Lemma oldest_spec ok policies :
  match oldest ok policies with
  | None => forall p, p ∈ policies -> ok p = false
  | Some p => is_oldest ok policies p
  end.
Proof.
  unfold oldest, is_oldest. pose proof (oldest_from ok None policies ltac:(done)) as H.
  destruct (foldl _ _ _); [|by destruct H]. destruct H as ([?|?] & ? & Hm); [|done]. split_and!; auto.
Qed.

(** ** The resolver fails closed *)

Section facts.
Context {cluster : PolicyReader} {pem : PemReader}.

(** The Service can be read, and its port has this name. *)
Definition port_named (namespace serviceName : string) (port : Z) (name : string) : Prop :=
  exists ports p, get_servicePorts namespace serviceName = Some ports /\ List.find (fun p => (svp_Port p =? port)%Z) ports = Some p /\ svp_Name p = name.
(** The policy speaks for this port of the Service: a target names the Service, in
    whatever group, and the port by no name or by its own. *)
Definition applies_to (namespace serviceName : string) (port : Z) (policy : BackendTLSPolicy) : Prop :=
  exists target, target ∈ btp_TargetRefs policy /\ tr_Name target = serviceName /\ (tr_Kind target = "" \/ tr_Kind target = serviceKind) /\
    (default "" (tr_SectionName target) = "" \/ port_named namespace serviceName port (default "" (tr_SectionName target))).
Lemma section_named ns svc port section :
  section = "" \/ section = lookupServicePortName ns svc port <-> section = "" \/ port_named ns svc port section.
Proof.
  unfold lookupServicePortName, port_named. destruct (decide (section = "")) as [|Hne]; [tauto|]. split; intros [?|H]; try done; right.
  - destruct (get_servicePorts ns svc) as [ports|]; [|done]. exists ports. destruct (List.find _ ports) as [p|]; [|done]. by exists p.
  - destruct H as (ports & p & -> & -> & <-). done.
Qed.
Lemma policyTargetsServicePort_spec ns svc port policy :
  policyTargetsServicePort policy svc (lookupServicePortName ns svc port) = true <-> applies_to ns svc port policy.
Proof.
  unfold policyTargetsServicePort, applies_to. setoid_rewrite <-section_named. rewrite existsb_elem_of. split.
  - intros (t & Ht & Hm). exists t. unfold target_matches in Hm. rewrite !andb_true_iff, orb_true_iff, !bool_decide_eq_true in Hm.
    destruct Hm as [[? ?] Hs]. split_and!; [done..|]. destruct (tr_SectionName t); [|by left].
    rewrite orb_true_iff, !bool_decide_eq_true in Hs. done.
  - intros (t & Ht & Hn & Hk & Hs). exists t. split; [done|]. unfold target_matches.
    rewrite !andb_true_iff, orb_true_iff, !bool_decide_eq_true. split_and!; [done..|]. destruct (tr_SectionName t); [|done].
    by rewrite orb_true_iff, !bool_decide_eq_true.
Qed.

(** Every alternative name has a type the controller knows. *)
Definition known_sans (policy : BackendTLSPolicy) : Prop :=
  Forall (fun san => san_Type san = "Hostname" \/ san_Type san = "URI") (btp_SubjectAltNames policy).
Definition dns_sans (policy : BackendTLSPolicy) : list string :=
  san_Hostname <$> List.filter (fun san => bool_decide (san_Type san = "Hostname") && negb (bool_decide (san_Hostname san = ""))) (btp_SubjectAltNames policy).
Definition uri_sans (policy : BackendTLSPolicy) : list string :=
  san_URI <$> List.filter (fun san => bool_decide (san_Type san = "URI") && negb (bool_decide (san_URI san = ""))) (btp_SubjectAltNames policy).
Lemma san_fold sans d u h :
  foldl san_step (d, u, h) sans =
  (d ++ (san_Hostname <$> List.filter (fun san => bool_decide (san_Type san = "Hostname") && negb (bool_decide (san_Hostname san = ""))) sans),
   u ++ (san_URI <$> List.filter (fun san => bool_decide (san_Type san = "URI") && negb (bool_decide (san_URI san = ""))) sans),
   h || existsb (fun san => negb (bool_decide (san_Type san = "Hostname")) && negb (bool_decide (san_Type san = "URI"))) sans).
Proof.
  revert d u h. induction sans as [|san sans IH]; intros d u h; cbn [foldl existsb List.filter].
  { by rewrite !app_nil_r, orb_false_r. }
  unfold san_step at 2. destruct (bool_decide_reflect (san_Type san = "Hostname")) as [Ht|Ht].
  - rewrite IH, (bool_decide_false (san_Type san = "URI")) by (by rewrite Ht). cbn [negb andb orb].
    destruct (bool_decide (san_Hostname san = "")); cbn [negb]; [done|]. by rewrite fmap_cons, <-app_assoc.
  - destruct (bool_decide (san_Type san = "URI")); cbn [negb andb orb]; rewrite IH; [|by rewrite orb_true_r].
    destruct (bool_decide (san_URI san = "")); cbn [negb]; [done|]. by rewrite fmap_cons, <-app_assoc.
Qed.
Lemma splitSANsByType_spec policy :
  exists unknown, splitSANsByType policy = (dns_sans policy, uri_sans policy, unknown) /\ (unknown = false <-> known_sans policy).
Proof.
  unfold splitSANsByType. rewrite san_fold. eexists. split; [reflexivity|]. cbn [orb]. unfold known_sans.
  rewrite existsb_elem_of_false, Forall_forall. apply forall_proper. intros san. apply forall_proper. intros _.
  rewrite andb_false_iff, !negb_false_iff, !bool_decide_eq_true. done.
Qed.

(** What a policy means for a connection: its CA bundle, its names. *)
Definition enforced (policy : BackendTLSPolicy) (tls : BackendTLSConfig) : Prop :=
  exists bundle, resolveCABundlePEM policy = Some bundle /\ known_sans policy /\
    tls = mkBackendTLSConfig bundle (btp_Hostname policy) (dns_sans policy) (uri_sans policy) "" "".

(** Which policy a port gets, and what it turns into. *)
Lemma resolver_selects namespace serviceName port policies :
  list_policies namespace = Some policies ->
  match newBackendTLSResolver namespace serviceName port with
  | None => forall p, p ∈ policies -> ~ applies_to namespace serviceName port p
  | Some tls => exists p, p ∈ policies /\ applies_to namespace serviceName port p /\
      (forall q, q ∈ policies -> applies_to namespace serviceName port q -> isPolicyOlder q p = false) /\
      (enforced p tls \/
       (resolveCABundlePEM p = None \/ ~ known_sans p) /\ tls = poisonedBackendTLS p)
  end.
Proof.
  intros Hlist. unfold newBackendTLSResolver. rewrite Hlist. unfold selectPolicyForServicePort.
  pose proof (oldest_spec (fun policy => policyTargetsServicePort policy serviceName (lookupServicePortName namespace serviceName port)) policies) as Ho.
  destruct (oldest _ policies) as [p|].
  - destruct Ho as (Hin & Hp & Hmin). apply policyTargetsServicePort_spec in Hp.
    assert (Hmin' : forall q, q ∈ policies -> applies_to namespace serviceName port q -> isPolicyOlder q p = false)
      by (intros q Hq Hq'; apply Hmin; [done|by apply policyTargetsServicePort_spec]).
    destruct (splitSANsByType_spec p) as (unknown & -> & Hk).
    destruct (resolveCABundlePEM p) as [bundle|] eqn:Hb; [destruct unknown|]; exists p; split_and!; try done.
    + right. split; [right|done]. intros ?%Hk. done.
    + left. exists bundle. split_and!; [done|by apply Hk|done].
    + right. split; [by left|done].
  - intros p Hp Ha%policyTargetsServicePort_spec. rewrite (Ho p Hp) in Ha. done.
Qed.

(** A connection to a backend with this configuration: of a transport, or of an upgrade. *)
Definition connects {x509 : X509} (protocol : string) (timeout : Z) (host : string) (tls : BackendTLSConfig) (cfg : TLSConfig) : Prop :=
  newTransport protocol (Some tls) timeout = tlsTransport cfg timeout \/ backendUpgradeTLSConfig host (Some tls) = Some cfg.
Lemma connects_config {x509 : X509} {laws : X509Laws x509} protocol timeout host tls cfg :
  connects protocol timeout host tls cfg -> cfg = buildBackendTLSConfig tls (certs_of_PEM (tls_CABundlePEM tls)).
Proof.
  intros [H|H]; [by injection H|]. unfold backendUpgradeTLSConfig in H. case_bool_decide as E; cbn [negb] in H.
  - rewrite E, certs_of_empty. by injection H.
  - destruct (length _ =? 0); [done|]. by injection H.
Qed.
Lemma attached_policy tls cert tls' :
  attachGatewayClientCert (Some tls) cert = Some tls' ->
  tls_CABundlePEM tls' = tls_CABundlePEM tls /\ tls_ServerName tls' = tls_ServerName tls /\
  tls_SubjectAltNames tls' = tls_SubjectAltNames tls /\ tls_SubjectAltNameURIs tls' = tls_SubjectAltNameURIs tls.
Proof. destruct cert; cbn; by intros [= <-]. Qed.
(** The server certificates a policy admits: a chain to its whole bundle, whose leaf
    is valid for one of the alternative names, if it lists some, or for the host name. *)
Definition admits {x509 : X509} (policy : BackendTLSPolicy) (peers : list Certificate) : Prop :=
  exists bundle leaf intermediates, resolveCABundlePEM policy = Some bundle /\ known_sans policy /\ peers = leaf :: intermediates /\
    Verify (certs_of_PEM bundle) intermediates leaf = true /\
    if bool_decide (dns_sans policy = [] /\ uri_sans policy = []) then VerifyHostname leaf (btp_Hostname policy) = true
    else (exists name, name ∈ dns_sans policy /\ VerifyHostname leaf name = true) \/ (exists uri, uri ∈ uri_sans policy /\ uri ∈ cert_URIs leaf).
Lemma san_constraints tls : HasSANConstraints (Some tls) = negb (bool_decide (tls_SubjectAltNames tls = [] /\ tls_SubjectAltNameURIs tls = [])).
Proof. unfold HasSANConstraints. by destruct (tls_SubjectAltNames tls), (tls_SubjectAltNameURIs tls). Qed.
Lemma poisoned_refuses {x509 : X509} {laws : X509Laws x509} policy cert tls' dialled peers :
  attachGatewayClientCert (Some (poisonedBackendTLS policy)) cert = Some tls' ->
  handshake_accepts dialled (buildBackendTLSConfig tls' (certs_of_PEM (tls_CABundlePEM tls'))) peers = false.
Proof.
  intros (Eb & En & Ed & Eu)%attached_policy. rewrite Eb. cbn [poisonedBackendTLS tls_CABundlePEM]. rewrite certs_of_empty.
  unfold buildBackendTLSConfig, attachClientCert. rewrite san_constraints, Ed, Eu. cbn [poisonedBackendTLS tls_SubjectAltNames tls_SubjectAltNameURIs].
  rewrite bool_decide_eq_true_2 by done. cbn [negb]. destruct (negb (HasClientCert _)); [|destruct (X509KeyPair _ _)]; destruct peers as [|leaf ints]; try done;
    cbn; by rewrite Verify_no_roots.
Qed.

(** C37: A BackendTLSPolicy is never downgraded once it is read.  A Service port is
    dialled without TLS only if the policies of its namespace cannot be listed, or
    none of them applies to the port (one that names a port section applies while
    the Service can be read and its port has that name).  Otherwise the oldest that
    applies (ties by name) decides, and every connection is over TLS, whatever the
    protocol of the backend, the upgrade or the client certificate of the Gateway:
    it accepts a server exactly when the whole CA bundle of the policy is readable,
    its alternative names are of known types, and the server's chain leads to the
    bundle with a leaf valid for one of these names, or for the host name without
    any.  A policy that cannot be honoured in full thus refuses every server. *)
Theorem tls_policy_enforced {x509 : X509} {laws : X509Laws x509} namespace serviceName port :
  match newBackendTLSResolver namespace serviceName port with
  | None => forall policies, list_policies namespace = Some policies -> forall p, p ∈ policies -> ~ applies_to namespace serviceName port p
  | Some tls => exists policies p, list_policies namespace = Some policies /\ p ∈ policies /\ applies_to namespace serviceName port p /\
      (forall q, q ∈ policies -> applies_to namespace serviceName port q -> isPolicyOlder q p = false) /\
      (enforced p tls \/ (resolveCABundlePEM p = None \/ ~ known_sans p) /\ tls = poisonedBackendTLS p) /\
      forall cert tls', attachGatewayClientCert (Some tls) cert = Some tls' ->
        (forall protocol timeout, exists cfg, newTransport protocol (Some tls') timeout = tlsTransport cfg timeout) /\
        (forall protocol timeout host cfg dialled peers, connects protocol timeout host tls' cfg -> btp_Hostname p <> "" ->
           handshake_accepts dialled cfg peers = true <-> admits p peers)
  end.
Proof.
  pose proof (resolver_selects namespace serviceName port) as Hsel. unfold newBackendTLSResolver at 1.
  destruct (list_policies namespace) as [policies|] eqn:Hlist; [|by intros policies].
  specialize (Hsel policies eq_refl). unfold newBackendTLSResolver in Hsel. rewrite Hlist in Hsel.
  destruct (match selectPolicyForServicePort _ _ _ _ with Some _ => _ | None => _ end) as [tls|]; [|by intros ? [= <-]].
  destruct Hsel as (p & Hin & Happ & Hmin & Hcase). exists policies, p. split_and!; try done.
  intros cert tls' Hatt. split; [intros; by eexists|]. intros protocol timeout host cfg dialled peers ->%connects_config Hname.
  destruct Hcase as [(bundle & Hb & Hk & ->)|[Hno ->]].
  - pose proof (attached_policy _ _ _ Hatt) as (Eb & En & Ed & Eu). cbn in Eb, En, Ed, Eu. rewrite Eb. unfold admits.
    destruct peers as [|leaf ints]; [split; [done|by intros (? & ? & ? & _ & _ & [=] & _)]|].
    rewrite handshake_cases by (by rewrite En). rewrite san_constraints, En, Ed, Eu. rewrite Hb. split.
    + intros [Hv Hi]. exists bundle, leaf, ints. split_and!; try done. by case_bool_decide.
    + intros (? & ? & ? & [= <-] & _ & [= <- <-] & Hv & Hi). split; [done|]. by case_bool_decide.
  - rewrite (poisoned_refuses p cert) by done. split; [done|]. intros (bundle & ? & ? & Hb & Hk & _). destruct Hno; congruence.
Qed.

(** ** The status says what the data plane does *)

Lemma validate_refs_bundle ns refs : validate_refs ns refs = Ok tt <-> is_Some (ca_bundle ns refs).
Proof.
  induction refs as [|ref refs IH]; [cbn; naive_solver|]. cbn [validate_refs ca_bundle].
  destruct (negb (bool_decide (ca_Group ref = "")) && negb (bool_decide (ca_Group ref = coreGroup))); [split; [done|by intros []]|].
  destruct (negb (bool_decide (ca_Kind ref = configMapKind))); [split; [done|by intros []]|].
  destruct (get_configMap ns (ca_Name ref)) as [data|]; [|split; [done|by intros []]].
  destruct (data !! configMapCAKey) as [caPEM|]; [|split; [done|by intros []]]. change (default "" (Some caPEM)) with caPEM.
  destruct (bool_decide (caPEM = "")); [split; [done|by intros []]|].
  destruct (parseCABundle caPEM); [|split; [done|by intros []]]. rewrite IH.
  destruct (ca_bundle ns refs); cbn; split; intros [? ?]; done || eauto.
Qed.
Lemma validateCARefs_bundle policy : validateCARefs policy = Ok tt <-> is_Some (resolveCABundlePEM policy).
Proof.
  unfold validateCARefs, resolveCABundlePEM. destruct (length (btp_CACertificateRefs policy) =? 0); [split; [done|by intros []]|].
  apply validate_refs_bundle.
Qed.

Lemma policiesShareTarget_spec peer targets :
  policiesShareTarget peer targets = true <-> exists key, key ∈ normalizePolicyTargets peer /\ key ∈ targets.
Proof. unfold policiesShareTarget. rewrite bool_decide_eq_true. split; [intros [key ?]%set_choose_L; set_solver|set_solver]. Qed.
(** An older policy of the namespace with a target in common. *)
Definition older_rival (policies : list BackendTLSPolicy) (policy peer : BackendTLSPolicy) : Prop :=
  peer ∈ policies /\ policy_key peer <> policy_key policy /\ isPolicyOlder peer policy = true /\
  exists key, key ∈ normalizePolicyTargets peer /\ key ∈ normalizePolicyTargets policy.
Definition rival_check (policy peer : BackendTLSPolicy) : bool :=
  negb (bool_decide (btp_Name peer = btp_Name policy) && bool_decide (btp_Namespace peer = btp_Namespace policy)) &&
  policiesShareTarget peer (normalizePolicyTargets policy) && isPolicyOlder peer policy.
Lemma rival_check_spec policies policy peer :
  peer ∈ policies -> (rival_check policy peer = true <-> older_rival policies policy peer).
Proof.
  intros Hp. unfold rival_check, older_rival, policy_key.
  rewrite !andb_true_iff, negb_true_iff, andb_false_iff, !bool_decide_eq_false, policiesShareTarget_spec. split.
  - intros [[Hn Hs] Ho]. split_and!; [done| |done|done]. intros [= ? ?]. tauto.
  - intros (_ & Hn & Ho & Hs). split_and!; [|done|done]. destruct (decide (btp_Name peer = btp_Name policy)) as [E|]; [right|by left].
    intros E'. apply Hn. congruence.
Qed.
Lemma conflictWinnerFor_spec policy policies :
  list_policies (btp_Namespace policy) = Some policies ->
  match conflictWinnerFor policy with
  | Some w => older_rival policies policy w /\ forall q, older_rival policies policy q -> isPolicyOlder q w = false
  | None => forall q, ~ older_rival policies policy q
  end.
Proof.
  intros Hl. unfold conflictWinnerFor. case_bool_decide as He.
  { intros q (_ & _ & _ & key & _ & Hk). rewrite He in Hk. by apply elem_of_empty in Hk. }
  rewrite Hl. change (fun peer => _) with (rival_check policy). pose proof (oldest_spec (rival_check policy) policies) as Ho.
  destruct (oldest (rival_check policy) policies) as [w|].
  - destruct Ho as (Hin & Hok & Hmin). split; [by apply rival_check_spec|]. intros q Hq. apply Hmin; [by destruct Hq|].
    apply (rival_check_spec policies); [by destruct Hq|done].
  - intros q Hq. assert (Hin : q ∈ policies) by (by destruct Hq). specialize (Ho q Hin).
    rewrite (proj2 (rival_check_spec policies policy q Hin) Hq) in Ho. done.
Qed.
End facts.

Section conditions.
Context {cluster : PolicyReader} {pem : PemReader} (policy_error : PolicyError -> string).
Notation conditions := (computeConditions policy_error).

Definition is_true_condition (type : string) (conditions : list Condition) : Prop :=
  exists c, c ∈ conditions /\ cond_Type c = type /\ cond_Status c = ConditionTrue.
Lemma condition_pair_true g a ar am r rr rm :
  (is_true_condition "Accepted" (condition_pair g a ar am r rr rm) <-> a = true) /\
  (is_true_condition "ResolvedRefs" (condition_pair g a ar am r rr rm) <-> r = true).
Proof.
  unfold is_true_condition, condition_pair.
  split; (split; [intros (c & [->|[->|[]%elem_of_nil]%elem_of_cons]%elem_of_cons & Ht & Hs); [by destruct a, r|by destruct a, r]|]).
  - intros ->. eexists. split; [left|done].
  - intros ->. eexists. split; [right; left|done].
Qed.
Lemma conditions_status policy policies :
  list_policies (btp_Namespace policy) = Some policies ->
  (is_true_condition "ResolvedRefs" (conditions policy) <-> is_Some (resolveCABundlePEM policy)) /\
  (is_true_condition "Accepted" (conditions policy) <->
     is_Some (resolveCABundlePEM policy) /\ forall q, ~ older_rival policies policy q).
Proof.
  intros Hl. pose proof (conflictWinnerFor_spec policy policies Hl) as Hw. pose proof (validateCARefs_bundle policy) as Hv.
  unfold computeConditions. destruct (btp_CACertificateRefs policy) as [|ref refs] eqn:Hr;
    [destruct (btp_WellKnownCACertificates policy)|].
  - destruct (condition_pair_true (btp_Generation policy) false "Invalid" "" false "NoValidCACertificate" "") as [_ _].
    assert (Hn : ~ is_Some (resolveCABundlePEM policy)) by (unfold resolveCABundlePEM; rewrite Hr; by intros []).
    unfold wellKnownUnsupportedConditions. rewrite !(proj1 (condition_pair_true _ _ _ _ _ _ _)), !(proj2 (condition_pair_true _ _ _ _ _ _ _)).
    split; split; (done || tauto).
  - destruct (validateCARefs policy) as [[]|e]; [destruct (conflictWinnerFor policy) as [w|]|];
      unfold conflictedConditions, acceptedConditions, caInvalidConditions;
      rewrite !(proj1 (condition_pair_true _ _ _ _ _ _ _)), !(proj2 (condition_pair_true _ _ _ _ _ _ _)); naive_solver.
  - destruct (validateCARefs policy) as [[]|e]; [destruct (conflictWinnerFor policy) as [w|]|];
      unfold conflictedConditions, acceptedConditions, caInvalidConditions;
      rewrite !(proj1 (condition_pair_true _ _ _ _ _ _ _)), !(proj2 (condition_pair_true _ _ _ _ _ _ _)); naive_solver.
Qed.
Lemma rivals_ordered policies p q :
  p ∈ policies -> q ∈ policies -> btp_Name p <> btp_Name q ->
  (exists key, key ∈ normalizePolicyTargets p /\ key ∈ normalizePolicyTargets q) ->
  older_rival policies p q \/ older_rival policies q p.
Proof.
  intros Hp Hq Hn (key & Hk1 & Hk2). destruct (isPolicyOlder q p) eqn:E1; [left|destruct (isPolicyOlder p q) eqn:E2; [right|]].
  - split_and!; [done| |done|by exists key]. unfold policy_key. congruence.
  - split_and!; [done| |done|by exists key]. unfold policy_key. congruence.
  - destruct Hn. by apply isPolicyOlder_total.
Qed.

(** The status of a policy agrees with the data plane. ResolvedRefs is True exactly
    when the resolver gets the policy's CA bundle; Accepted exactly when, besides, no
    older policy of the namespace claims one of its targets; and of two policies with
    a target in common at most one is Accepted. *)
Theorem policy_status_agrees policies policy :
  list_policies (btp_Namespace policy) = Some policies ->
  (is_true_condition "ResolvedRefs" (conditions policy) <-> is_Some (resolveCABundlePEM policy)) /\
  (is_true_condition "Accepted" (conditions policy) <->
     is_Some (resolveCABundlePEM policy) /\ forall q, ~ older_rival policies policy q) /\
  (policy ∈ policies -> forall q, q ∈ policies -> btp_Namespace q = btp_Namespace policy -> btp_Name q <> btp_Name policy ->
     (exists key, key ∈ normalizePolicyTargets policy /\ key ∈ normalizePolicyTargets q) ->
     ~ (is_true_condition "Accepted" (conditions policy) /\ is_true_condition "Accepted" (conditions q))).
Proof.
  intros Hl. destruct (conditions_status policy policies Hl) as [Hr Ha]. split_and!; [done..|].
  intros Hp q Hq Hns Hn Hshare [Hap Haq]. apply Ha in Hap as [_ Hap].
  apply (conditions_status q policies) in Haq as [_ Haq]; [|congruence].
  destruct (rivals_ordered policies policy q Hp Hq (not_eq_sym Hn) Hshare); naive_solver.
Qed.
End conditions.

(** ** A change of a policy reaches its rivals *)

Lemma oldest_skip ok l1 p l2 : ok p = false -> oldest ok (l1 ++ p :: l2) = oldest ok (l1 ++ l2).
Proof. intros Hp. unfold oldest. rewrite !foldl_app. cbn [foldl]. unfold oldest_step at 2. by rewrite Hp. Qed.

(** The loser of a conflict is told. When a policy is created or deleted, every other
    listed policy whose conflict verdict differs between the two states is enqueued. *)
Theorem peer_change_complete (before after : PolicyReader) (p q : BackendTLSPolicy) l1 l2 :
  @list_policies before (btp_Namespace p) = Some (l1 ++ l2) -> @list_policies after (btp_Namespace p) = Some (l1 ++ p :: l2) ->
  q ∈ l1 ++ l2 -> btp_Namespace q = btp_Namespace p -> btp_Name q <> btp_Name p ->
  @conflictWinnerFor before q <> @conflictWinnerFor after q ->
  policy_key q ∈ @policiesForPeerChange before p /\ policy_key q ∈ @policiesForPeerChange after p.
Proof.
  intros Hb Ha Hq Hns Hn Hdiff. unfold conflictWinnerFor in Hdiff.
  rewrite (eq_trans (f_equal _ Hns) Hb), (eq_trans (f_equal _ Hns) Ha) in Hdiff.
  case_bool_decide as Hempty; [done|]. change (oldest (rival_check q) (l1 ++ l2) <> oldest (rival_check q) (l1 ++ p :: l2)) in Hdiff.
  destruct (rival_check q p) eqn:Hr; [|by rewrite oldest_skip in Hdiff].
  unfold rival_check in Hr. rewrite !andb_true_iff in Hr. destruct Hr as [[_ Hs] _]. apply policiesShareTarget_spec in Hs as (key & Hk1 & Hk2).
  assert (Hmatch : forall cluster l, @list_policies cluster (btp_Namespace p) = Some l -> q ∈ l -> policy_key q ∈ @policiesForPeerChange cluster p).
  { intros cluster l Hl Hin. unfold policiesForPeerChange. rewrite bool_decide_false by (intros E; rewrite E in Hk1; by apply elem_of_empty in Hk1).
    unfold policies_where. rewrite Hl. apply list_elem_of_fmap. exists q. split; [done|]. apply list_elem_of_In, List.filter_In.
    split; [by apply list_elem_of_In|]. rewrite andb_true_iff, policiesShareTarget_spec. split; [|by exists key].
    by rewrite (bool_decide_false (btp_Name q = btp_Name p)). }
  split; eapply Hmatch; [done|done|done|]. set_solver.
Qed.

(** ** The write of the ancestors *)

Definition foreign_ancestors (controllerName : string) (ancestors : list PolicyAncestorStatus) : list PolicyAncestorStatus :=
  List.filter (fun a => negb (bool_decide (an_ControllerName a = controllerName))) ancestors.
Lemma partitionAncestors_foreign controllerName ns gen ancestors existing existing' others :
  partitionAncestors controllerName ns gen ancestors existing = Some (existing', others) ->
  others = foreign_ancestors controllerName ancestors /\
  Forall (fun a => an_ControllerName a = controllerName -> Forall (fun c => (cond_ObservedGeneration c <= gen)%Z) (an_Conditions a)) ancestors.
Proof.
  revert existing existing' others. unfold foreign_ancestors.
  induction ancestors as [|a ancestors IH]; intros existing existing' others; cbn [partitionAncestors List.filter]; [by intros [= <- <-]|].
  destruct (bool_decide_reflect (an_ControllerName a = controllerName)) as [Hc|Hc]; cbn [negb].
  - destruct (statusGenerationStale gen [an_Conditions a]) eqn:Hs; [done|]. apply statusGenerationStale_false in Hs.
    intros H. destruct (IH _ _ _ H) as [-> HF]. split; [done|]. constructor; [done|done].
  - destruct (partitionAncestors controllerName ns gen ancestors existing) as [[e o]|] eqn:Hp; cbn; [|done]. intros [= <- <-].
    destruct (IH _ _ _ Hp) as [-> HF]. split; [done|]. constructor; [done|done].
Qed.
(** A write keeps the entries of other controllers first and in order, adds at most
    one of ours per Gateway, and stays within the cap unless the others alone exceed it. *)
Lemma ancestors_written_exact controllerName fresh gateways conditions gen now combined :
  ancestors_written controllerName fresh gateways conditions gen now = Some combined ->
  exists ours, combined = foreign_ancestors controllerName (btp_Ancestors fresh) ++ ours /\
    an_AncestorRef <$> ours `prefix_of` gatewayAncestorRef <$> gateways /\ Forall (fun a => an_ControllerName a = controllerName) ours /\
    length combined <= policyAncestorStatusMaxCount `max` length (foreign_ancestors controllerName (btp_Ancestors fresh)).
Proof.
  unfold ancestors_written. destruct (partitionAncestors _ _ _ _ _) as [[existing others]|] eqn:Hp; cbn; [|done]. intros [= <-].
  destruct (partitionAncestors_foreign _ _ _ _ _ _ _ Hp) as [-> _]. eexists. split_and!; [reflexivity| | |].
  - rewrite fmap_take. unfold our_ancestors. rewrite <-list_fmap_compose. cbn. apply prefix_take.
  - apply Forall_take. unfold our_ancestors. apply Forall_fmap, Forall_true. done.
  - rewrite length_app, length_take. generalize (length (foreign_ancestors controllerName (btp_Ancestors fresh))).
    intros n. generalize (length (our_ancestors controllerName gateways conditions now existing)). unfold policyAncestorStatusMaxCount. lia.
Qed.

(** ** Examples *)

Definition ca_policy (name : string) (created : Z) (ca : string) (ancestors : list PolicyAncestorStatus) : BackendTLSPolicy :=
  mkBackendTLSPolicy "prod" name created 1 [mkPolicyTargetRef "" "Service" "api" None]
    [mkCACertificateRef "" "ConfigMap" ca] None "api.internal" [mkSubjectAltName "Hostname" "api.internal" ""] ancestors.
Definition toy_cluster (policies : list BackendTLSPolicy) : PolicyReader := {|
  list_policies _ := Some policies; get_policy _ _ := Found (ca_policy "old" 1 "ca" [mkPolicyAncestorStatus (ref_to "gone") "us" []]);
  get_configMap _ name := if bool_decide (name = "ca") then Some {[configMapCAKey := "PEM"]} else None;
  get_servicePorts _ _ := Some [mkServicePort "https" 443 None];
  list_httpRoutes _ := Some []; list_grpcRoutes _ := Some [] |}.
Definition toy_pem : PemReader := {| pem_blocks s := [("CERTIFICATE", s)]; ParseCertificate _ := true |}.
Definition two_policies : list BackendTLSPolicy := [ca_policy "new" 2 "ca" []; ca_policy "old" 1 "missing" []].

(** The older policy's bundle is missing: the port fails closed, although the younger
    one could be honoured. *)
Lemma tls_policy_enforced_witness :
  @newBackendTLSResolver (toy_cluster two_policies) toy_pem "prod" "api" 443 = Some (poisonedBackendTLS (ca_policy "old" 1 "missing" [])) /\
  @handshake_accepts toy_x509 "api.internal" (@buildBackendTLSConfig toy_x509 (poisonedBackendTLS (ca_policy "old" 1 "missing" [])) []) [1] = false.
Proof.
  pose proof (@tls_policy_enforced (toy_cluster two_policies) toy_pem toy_x509 toy_x509_laws "prod" "api" 443) as H.
  assert (E : @newBackendTLSResolver (toy_cluster two_policies) toy_pem "prod" "api" 443 =
    Some (poisonedBackendTLS (ca_policy "old" 1 "missing" []))) by (vm_compute; reflexivity).
  rewrite E in H. destruct H as (policies & p & Hl & Hp & _ & _ & _ & H). split; [exact E|]. injection Hl as <-.
  destruct (H None _ eq_refl) as [_ Hacc]. apply not_true_is_false. intros Ht.
  apply (Hacc BackendProtocolHTTP 0%Z "api.internal") in Ht; [|left; reflexivity|].
  - destruct Ht as (bundle & leaf & ints & Hb & _ & Hl & Hv & Hn). injection Hl as <- <-.
    repeat (apply elem_of_cons in Hp as [->|Hp]); [|discriminate Hb|by apply elem_of_nil in Hp]. injection Hb as <-. discriminate Hv.
  - repeat (apply elem_of_cons in Hp as [->|Hp]); [discriminate|discriminate|by apply elem_of_nil in Hp].
Defined.
Lemma policy_status_agrees_witness :
  ~ @is_true_condition "Accepted" (@computeConditions (toy_cluster two_policies) toy_pem (fun _ => "") (ca_policy "new" 2 "ca" [])) /\
  @is_true_condition "ResolvedRefs" (@computeConditions (toy_cluster two_policies) toy_pem (fun _ => "") (ca_policy "new" 2 "ca" [])).
Proof.
  destruct (@policy_status_agrees (toy_cluster two_policies) toy_pem (fun _ => "") two_policies (ca_policy "new" 2 "ca" []) eq_refl)
    as (Hr & Ha & _). split.
  - intros H. apply Ha in H as [_ H]. apply (H (ca_policy "old" 1 "missing" [])). split; [right; left|].
    split; [discriminate|]. split; [vm_compute; reflexivity|]. exists ("api", ""). split; vm_compute; reflexivity.
  - apply Hr. vm_compute. eexists. reflexivity.
Defined.
(** The older policy goes: the younger one is enqueued. *)
Lemma peer_change_complete_witness :
  ("prod", "new") ∈ @policiesForPeerChange (toy_cluster [ca_policy "new" 2 "ca" []]) (ca_policy "old" 1 "missing" []).
Proof.
  refine (proj1 (peer_change_complete (toy_cluster [ca_policy "new" 2 "ca" []]) (toy_cluster two_policies)
    (ca_policy "old" 1 "missing" []) (ca_policy "new" 2 "ca" []) [ca_policy "new" 2 "ca" []] [] eq_refl eq_refl _ eq_refl _ _)).
  - left.
  - discriminate.
  - vm_compute. discriminate.
Defined.

(** A policy no route uses any more keeps the ancestors written before. *)
Lemma orphaned_ancestors_kept (attempts : nat -> PolicyAttempt) (kube : KubeClient) (reader : ConfigReader) :
  @Reconcile (toy_cluster []) toy_pem kube reader (fun _ => "") "us" "prod" "old" attempts = Ok policy_skipped.
Proof. reflexivity. Qed.
(** A route of another namespace that reaches the Service does not make its Gateway an
    ancestor: only the routes of the policy's namespace are listed. *)
Lemma foreign_route_no_ancestor (cluster cluster' : PolicyReader) (kube : KubeClient) (reader : ConfigReader) controllerName policy :
  @list_httpRoutes cluster (btp_Namespace policy) = @list_httpRoutes cluster' (btp_Namespace policy) ->
  @list_grpcRoutes cluster (btp_Namespace policy) = @list_grpcRoutes cluster' (btp_Namespace policy) ->
  @gatewaysForPolicy cluster kube reader controllerName policy = @gatewaysForPolicy cluster' kube reader controllerName policy.
Proof. intros H1 H2. unfold gatewaysForPolicy. by rewrite H1, H2. Qed.
(** The group of a target is not looked at: a policy for another kind of Service applies. *)
Lemma foreign_group_target_applies (cluster : PolicyReader) : @applies_to cluster "prod" "api" 443
  (mkBackendTLSPolicy "prod" "p" 1 1 [mkPolicyTargetRef "example.com" "Service" "api" None] [] None "" [] []).
Proof. eexists. split_and!; [left|done|by right|by left]. Qed.
(** An alternative name of an unknown type: Accepted=True, and every connection fails. *)
Definition odd_policy : BackendTLSPolicy :=
  mkBackendTLSPolicy "prod" "odd" 1 1 [mkPolicyTargetRef "" "Service" "api" None] [mkCACertificateRef "" "ConfigMap" "ca"] None
    "api.internal" [mkSubjectAltName "IP" "" ""] [].
Lemma unknown_san_accepted_but_refused :
  @computeConditions (toy_cluster [odd_policy]) toy_pem (fun _ => "") odd_policy = acceptedConditions 1 /\
  @newBackendTLSResolver (toy_cluster [odd_policy]) toy_pem "prod" "api" 443 = Some (poisonedBackendTLS odd_policy).
Proof. split; vm_compute; reflexivity. Qed.
