(* ===== verification/StatusWriter.v ===== *)
(** * Writing conditions under optimistic locking

    What the Gateway and ListenerSet controllers share: the loop that re-reads an
    object, gives way to a status computed from a newer generation and writes
    ([retry.RetryOnConflict] around a read and [Status().Update]), and the lemmas
    on [apimeta.SetStatusCondition]. *)
From stdpp Require Import sorting.
From stdpp Require Import base sets gmap strings list.
From S2P Require Import Prelude GoStrings IngressBuild RouteStatus BackendTLS.

(** One attempt: the copy the read returns with its resource version, the time,
    what the server holds when the update arrives, and why it refuses it if not
    for a conflict. *)
Record StatusAttempt (O : Type) := mkStatusAttempt {
  sa_Read : Lookup (Z * O); sa_Now : Z; sa_Stored : Z * O; sa_Refused : option string }.
Arguments mkStatusAttempt {O}.
Arguments sa_Read {O}.
Arguments sa_Now {O}.
Arguments sa_Stored {O}.
Arguments sa_Refused {O}.
Inductive StatusWrite (O : Type) := write_skipped | write_stored (before after : O).
Arguments write_skipped {O}.
Arguments write_stored {O}.

Section writer.
Context {O : Type} (stale : O -> bool) (update : O -> Z -> O).

Definition status_attempt (a : StatusAttempt O) : res WriteError (StatusWrite O) :=
  match sa_Read a with
  | Found (version, fresh) =>
      if stale fresh then Ok write_skipped
      else match sa_Refused a with
           | Some e => Err (errUpdateStatus e)
           | None => if bool_decide (version = (sa_Stored a).1)
                     then Ok (write_stored (sa_Stored a).2 (update fresh (sa_Now a))) else Err errConflict
           end
  | _ => Err errGetFresh
  end.
Definition write_status (attempts : nat -> StatusAttempt O) : res WriteError (StatusWrite O) :=
  RetryOnConflict default_retry_steps (fun i => status_attempt (attempts i)) 0.

(** The API server's promise: one resource version is one object. *)
Definition versions_identify (attempts : nat -> StatusAttempt O) : Prop :=
  forall i version fresh, sa_Read (attempts i) = Found (version, fresh) -> version = (sa_Stored (attempts i)).1 ->
    fresh = (sa_Stored (attempts i)).2.

Lemma write_status_spec attempts :
  versions_identify attempts ->
  match write_status attempts with
  | Ok (write_stored before after) =>
      exists i, i < default_retry_steps /\ before = (sa_Stored (attempts i)).2 /\ stale before = false /\
        after = update before (sa_Now (attempts i))
  | Ok write_skipped => exists i version fresh, i < default_retry_steps /\
      sa_Read (attempts i) = Found (version, fresh) /\ stale fresh = true
  | Err errGetFresh => exists i, i < default_retry_steps /\ forall o, sa_Read (attempts i) <> Found o
  | Err errConflict => forall i, i < default_retry_steps ->
      exists version fresh, sa_Read (attempts i) = Found (version, fresh) /\ version <> (sa_Stored (attempts i)).1
  | Err (errUpdateStatus e) => exists i, i < default_retry_steps /\ sa_Refused (attempts i) = Some e
  | Err errManagedClasses => False
  end.
Proof.
  intros Hver. unfold write_status.
  destruct (RetryOnConflict_spec default_retry_steps (fun i => status_attempt (attempts i)) 0) as [(k & Hk & _ & Hn & ->)|[Hj ->]].
  - cbn [Nat.add] in *. revert Hn. unfold status_attempt. destruct (sa_Read (attempts k)) as [[version fresh]| |] eqn:Hr.
    + destruct (stale fresh) eqn:Hs; [by eauto 10|]. destruct (sa_Refused (attempts k)) eqn:Hf; [by eauto|].
      case_bool_decide as Hv; [|done]. intros _. pose proof (Hver k version fresh Hr Hv) as ->. by eauto.
    + intros _. exists k. split; [done|]. congruence.
    + intros _. exists k. split; [done|]. congruence.
  - intros i Hi. specialize (Hj i Hi). cbn [Nat.add] in Hj. revert Hj. unfold status_attempt.
    destruct (sa_Read (attempts i)) as [[version fresh]| |]; [|done..]. destruct (stale fresh); [done|].
    destruct (sa_Refused (attempts i)); [done|]. case_bool_decide; [done|]. by eauto.
Qed.

(** *** The outcome of a write, attempt by attempt *)

(** [ahead] says, of a copy that was read, that it carries a newer status. *)
Section outcome.
Context (ahead : O -> Prop) (Hahead : forall o, stale o = true <-> ahead o) (attempts : nat -> StatusAttempt O).
(** The copy read is to be written, but the server has moved on. *)
Definition conflicts (a : StatusAttempt O) : Prop :=
  exists version fresh, sa_Read a = Found (version, fresh) /\ ~ ahead fresh /\ sa_Refused a = None /\ version <> (sa_Stored a).1.
(** The first attempt that does not conflict. *)
Definition decides (i : nat) : Prop := i < default_retry_steps /\ forall j, j < i -> conflicts (attempts j).
Inductive write_outcome : res WriteError (StatusWrite O) -> Prop :=
| outcome_conflict : (forall i, i < default_retry_steps -> conflicts (attempts i)) -> write_outcome (Err errConflict)
| outcome_unread i : decides i -> (forall o, sa_Read (attempts i) <> Found o) -> write_outcome (Err errGetFresh)
| outcome_skipped i version fresh :
    decides i -> sa_Read (attempts i) = Found (version, fresh) -> ahead fresh -> write_outcome (Ok write_skipped)
| outcome_refused i version fresh e :
    decides i -> sa_Read (attempts i) = Found (version, fresh) -> ~ ahead fresh -> sa_Refused (attempts i) = Some e ->
    write_outcome (Err (errUpdateStatus e))
| outcome_stored i version fresh :
    decides i -> sa_Read (attempts i) = Found (version, fresh) -> ~ ahead fresh -> sa_Refused (attempts i) = None ->
    version = (sa_Stored (attempts i)).1 ->
    write_outcome (Ok (write_stored (sa_Stored (attempts i)).2 (update fresh (sa_Now (attempts i))))).

Lemma attempt_conflicts a : status_attempt a = Err errConflict <-> conflicts a.
Proof.
  unfold status_attempt, conflicts. destruct (sa_Read a) as [[version fresh]| |]; [|naive_solver..].
  pose proof (Hahead fresh) as Ha. destruct (stale fresh); [naive_solver|].
  destruct (sa_Refused a); [naive_solver|]. case_bool_decide; naive_solver.
Qed.
(** The write has exactly the outcome of the relation. *)
Lemma write_status_outcome r : write_status attempts = r <-> write_outcome r.
Proof.
  set (fn := fun i => status_attempt (attempts i)).
  destruct (RetryOnConflict_spec default_retry_steps fn 0) as [(k & Hk & Hj & Hn & Hr)|[Hj Hr]];
    unfold write_status; fold fn; rewrite Hr; cbn [Nat.add] in *; unfold fn in *; clear Hr.
  - assert (Hd : decides k) by (split; [done|intros j Hlt; by apply attempt_conflicts, Hj]).
    assert (Huniq : forall i, decides i -> ~ conflicts (attempts i) -> i = k).
    { intros i [Hi Hci] Hnc. destruct (Nat.lt_trichotomy i k) as [H|[H|H]]; [|done|].
      - by destruct Hnc; apply attempt_conflicts, Hj.
      - by destruct Hn; apply attempt_conflicts, Hci. }
    split.
    + intros <-. unfold status_attempt in *. destruct (sa_Read (attempts k)) as [[version fresh]| |] eqn:Hr.
      * pose proof (Hahead fresh) as Ha. destruct (stale fresh); [by eapply outcome_skipped; [..|apply Ha]|].
        assert (Hna : ~ ahead fresh) by by rewrite <- Ha.
        destruct (sa_Refused (attempts k)) eqn:Hf; [by eapply outcome_refused|].
        case_bool_decide; [by eapply outcome_stored|done].
      * eapply outcome_unread; [done|]. congruence.
      * eapply outcome_unread; [done|]. congruence.
    + intros [Hall|i Hi Hread|i version fresh Hi Hread Ha|i version fresh e Hi Hread Ha Href|i version fresh Hi Hread Ha Href Hv].
      * by destruct Hn; apply attempt_conflicts, Hall.
      * pose proof (Huniq i Hi ltac:(intros (v & f & H & _); by eapply Hread)) as ->. unfold status_attempt.
        destruct (sa_Read (attempts k)) as [x| |]; [by destruct (Hread x)|done..].
      * pose proof (Huniq i Hi ltac:(unfold conflicts; rewrite Hread; naive_solver)) as ->. unfold status_attempt.
        rewrite Hread. by rewrite (proj2 (Hahead fresh) Ha).
      * pose proof (Huniq i Hi ltac:(unfold conflicts; rewrite Hread, Href; naive_solver)) as ->. unfold status_attempt.
        rewrite Hread, Href. pose proof (Hahead fresh). by destruct (stale fresh); [tauto|].
      * pose proof (Huniq i Hi ltac:(unfold conflicts; rewrite Hread; naive_solver)) as ->. unfold status_attempt.
        rewrite Hread, Href. pose proof (Hahead fresh). destruct (stale fresh); [tauto|]. by rewrite bool_decide_eq_true_2.
  - assert (Hall : forall i, i < default_retry_steps -> conflicts (attempts i)) by (intros i Hi; by apply attempt_conflicts, Hj).
    split; [intros <-; by constructor|].
    intros [_|i [Hi _] Hread|i version fresh [Hi _] Hread Ha|i version fresh e [Hi _] Hread Ha Href|i version fresh [Hi _] Hread Ha Href Hv];
      [done|..]; destruct (Hall i Hi) as (v & f & Hr & Hna & Hf & Hv'); [by destruct (Hread (v, f))|..]; simplify_eq; congruence.
Qed.
End outcome.
End writer.

(** ** Setting conditions *)

(** The conditions of other controllers. *)
Definition others (owned : list string) (conditions : list Condition) : list Condition :=
  List.filter (fun c => negb (bool_decide (cond_Type c ∈ owned))) conditions.

Lemma set_others owned now conditions new :
  cond_Type new ∈ owned -> others owned (SetStatusCondition now conditions new) = others owned conditions.
Proof.
  intros Ho. unfold others. induction conditions as [|c cs IH]; cbn; [by rewrite bool_decide_eq_true_2|].
  case_bool_decide as Ht; cbn; [|by rewrite IH]. by rewrite !bool_decide_eq_true_2 by (by rewrite ?Ht).
Qed.
Lemma apply_others owned now conditions news :
  (forall c, c ∈ news -> cond_Type c ∈ owned) ->
  others owned (foldl (SetStatusCondition now) conditions news) = others owned conditions.
Proof.
  revert conditions. induction news as [|c news IH]; intros conditions Hn; cbn [foldl]; [done|].
  rewrite IH by (intros; apply Hn; by right). apply set_others, Hn. by left.
Qed.

(** What [FindStatusCondition] sees of a condition apart from its time. *)
Definition same_verdict (c d : Condition) : Prop :=
  cond_Type c = cond_Type d /\ cond_Status c = cond_Status d /\ cond_ObservedGeneration c = cond_ObservedGeneration d /\
  cond_Reason c = cond_Reason d /\ cond_Message c = cond_Message d.
Lemma set_find now conditions new :
  exists c, FindStatusCondition (SetStatusCondition now conditions new) (cond_Type new) = Some c /\ same_verdict c new.
Proof.
  unfold FindStatusCondition. induction conditions as [|c cs IH]; cbn.
  - rewrite bool_decide_eq_true_2 by done. by eexists.
  - case_bool_decide as Ht; cbn; [rewrite Ht, bool_decide_eq_true_2 by done; by eexists|]. rewrite bool_decide_eq_false_2 by done. exact IH.
Qed.
Lemma set_find_other now conditions new type :
  type <> cond_Type new ->
  FindStatusCondition (SetStatusCondition now conditions new) type = FindStatusCondition conditions type.
Proof.
  intros Hne. unfold FindStatusCondition. induction conditions as [|c cs IH]; cbn; [by rewrite bool_decide_eq_false_2|].
  case_bool_decide as Ht; cbn; [rewrite !bool_decide_eq_false_2 by congruence; done|]. by rewrite IH.
Qed.
(** The last condition set for a type is the one found. *)
Lemma apply_find now conditions news new :
  new ∈ news -> NoDup (cond_Type <$> news) ->
  exists c, FindStatusCondition (foldl (SetStatusCondition now) conditions news) (cond_Type new) = Some c /\ same_verdict c new.
Proof.
  revert conditions. induction news as [|n news IH]; intros conditions Hin Hnd; [by apply elem_of_nil in Hin|]. cbn [foldl fmap list_fmap] in *.
  apply NoDup_cons in Hnd as [Hn Hnd]. apply elem_of_cons in Hin as [->|Hin]; [|by apply IH].
  assert (Hkeep : forall cs, FindStatusCondition (foldl (SetStatusCondition now) cs news) (cond_Type n) = FindStatusCondition cs (cond_Type n)).
  { clear IH Hnd. induction news as [|m news IH]; intros cs; cbn [foldl fmap list_fmap] in *; [done|]. rewrite IH by set_solver.
    apply set_find_other. set_solver. }
  rewrite Hkeep. apply set_find.
Qed.
Lemma apply_find_other now conditions news type :
  type ∉ cond_Type <$> news ->
  FindStatusCondition (foldl (SetStatusCondition now) conditions news) type = FindStatusCondition conditions type.
Proof.
  revert conditions. induction news as [|n news IH]; intros conditions Ht; cbn [foldl fmap list_fmap] in *; [done|].
  rewrite IH by set_solver. apply set_find_other. set_solver.
Qed.
(** No type occurs twice, if none did. *)
Lemma set_types now conditions new :
  cond_Type <$> SetStatusCondition now conditions new =
  if bool_decide (cond_Type new ∈ cond_Type <$> conditions) then cond_Type <$> conditions else (cond_Type <$> conditions) ++ [cond_Type new].
Proof.
  induction conditions as [|c cs IH]; [cbn [SetStatusCondition fmap list_fmap]; by rewrite bool_decide_eq_false_2 by (by intros ?%elem_of_nil)|].
  cbn [SetStatusCondition fmap list_fmap]. destruct (decide (cond_Type c = cond_Type new)) as [Ht|Ht].
  - rewrite (bool_decide_eq_true_2 _ Ht), (bool_decide_eq_true_2 (cond_Type new ∈ _)); [done|]. rewrite Ht. by left.
  - rewrite (bool_decide_eq_false_2 _ Ht). cbn [fmap list_fmap]. rewrite IH. case_bool_decide as H1.
    + by rewrite bool_decide_eq_true_2 by (by right).
    + rewrite bool_decide_eq_false_2; [done|]. intros [?|?]%elem_of_cons; [congruence|done].
Qed.
Lemma apply_NoDup now conditions news :
  NoDup (cond_Type <$> conditions) -> NoDup (cond_Type <$> foldl (SetStatusCondition now) conditions news).
Proof.
  revert conditions. induction news as [|n news IH]; intros conditions Hnd; cbn [foldl]; [done|]. apply IH. rewrite set_types.
  case_bool_decide; [done|]. apply NoDup_app. split_and!; [done|set_solver|apply NoDup_singleton].
Qed.
