(* ===== verification/CertRefs.v ===== *)
(** * Certificate references

    [controller/gateway_client_cert.go], [controller/listenerset_tls.go], the
    certificate checks of [controller/gateway_controller.go] and the client
    certificate resolver of [controller/proxy_syncer.go]: which Secrets a Gateway
    or a ListenerSet may use, and the key pair the proxy presents to backends.
    Secrets, grants and the texts of API errors are parameters. *)
From Stdlib Require Import Ascii.
From stdpp Require Import sorting.
From stdpp Require Import base sets gmap strings list.
From S2P Require Import Prelude GoStrings Handler RouteBinding ListenerMerge ReferenceGrant IngressBuild Converter ConfigResolver ListenerView ParentBinding RouteSync SyncAll RouteStatus BackendTLS.

(** [corev1.Secret] *)
Record Secret := mkSecret { sec_Type : string; sec_Data : gmap string string }.
Class SecretReader := read_secret : string -> string -> Lookup Secret.      (* namespace, name *)
Class ApiText := {
  grants_error : string -> string;                 (* a failed list of grants in a namespace *)
  secret_error : string -> string -> string;       (* a failed read of a Secret *)
}.

Definition kindSecret : string := "Secret".
Definition SecretTypeTLS : string := "kubernetes.io/tls".
Definition TLSCertKey : string := "tls.crt".
Definition TLSPrivateKeyKey : string := "tls.key".
Definition msgReferencesResolved : string := "References resolved".
Definition ListenerReasonResolvedRefs : string := "ResolvedRefs".
Definition ListenerReasonInvalidCertificateRef : string := "InvalidCertificateRef".
Definition ListenerReasonRefNotPermitted : string := "RefNotPermitted".

(** ** Grants *)

Definition grant_from (kind : string) (grant : ReferenceGrant) (namespace : string) : bool :=
  existsb (fun from => bool_decide (gf_Group from = GroupName) && bool_decide (gf_Kind from = kind) &&
                       bool_decide (gf_Namespace from = namespace)) (grant_From grant).
Definition grantAllowsGateway (grant : ReferenceGrant) (gatewayNamespace : string) : bool :=
  grant_from kindGateway grant gatewayNamespace.
Definition grantAllowsGatewayFromNamespace (grant : ReferenceGrant) (gatewayNamespace : string) : bool :=
  grant_from kindGateway grant gatewayNamespace.
Definition grantAllowsListenerSet (grant : ReferenceGrant) (listenerSetNamespace : string) : bool :=
  grant_from kindListenerSet grant listenerSetNamespace.
(** No name, or an empty one, covers every Secret of the namespace. *)
Definition grant_to_secret (name : string) (to : ReferenceGrantTo) : bool :=
  bool_decide (gt_Group to = "") && bool_decide (gt_Kind to = kindSecret) &&
  match gt_Name to with
  | None => true
  | Some n => bool_decide (n = "") || bool_decide (n = name)
  end.

Inductive CertError :=
| errGatewayClientCertUnsupportedRef | errGatewayClientCertRefNotPermitted | errGatewayClientCertSecretNotFound
| errGatewayClientCertWrongType | errGatewayClientCertMissingKey | errGatewayClientCertInvalidPEM
| errGatewayClientCertTransientError
| errListReferenceGrants (namespace : string).

Section refs.
Context {grants : GrantClient} {secrets : SecretReader} {texts : ApiText} {pem : PemReader} {x509 : X509}.

Definition checkSecretReferenceGrant (gateway : Gateway) (targetNamespace : string) (ref : SecretObjectReference)
    : res CertError bool :=
  match list_grants targetNamespace with
  | None => Err (errListReferenceGrants targetNamespace)
  | Some items => Ok (existsb (fun grant => grantAllowsGateway grant (gw_Namespace gateway) &&
                                            existsb (grant_to_secret (sor_Name ref)) (grant_To grant)) items)
  end.
Definition checkSecretReferenceGrantForGateway (gateway : Gateway) (targetNamespace : string) (ref : SecretObjectReference)
    : res CertError bool :=
  match list_grants targetNamespace with
  | None => Err errGatewayClientCertTransientError
  | Some items => Ok (existsb (fun grant => grantAllowsGatewayFromNamespace grant (gw_Namespace gateway) &&
                                            existsb (grant_to_secret (sor_Name ref)) (grant_To grant)) items)
  end.
Definition checkListenerSetSecretReferenceGrant (listenerSet : ListenerSet) (targetNamespace : string) (ref : SecretObjectReference)
    : res CertError bool :=
  match list_grants targetNamespace with
  | None => Err (errListReferenceGrants targetNamespace)
  | Some items => Ok (existsb (fun grant => grantAllowsListenerSet grant (ls_Namespace listenerSet) &&
                                            existsb (grant_to_secret (sor_Name ref)) (grant_To grant)) items)
  end.

(** ** Certificates of listeners *)

(** The status, reason and message of a [ResolvedRefs] verdict. *)
Record listenerEntryRefsCheck := mkRefsCheck { rk_Status : ConditionStatus; rk_Reason : string; rk_Message : string }.
Definition refs_resolved : listenerEntryRefsCheck :=
  mkRefsCheck ConditionTrue ListenerReasonResolvedRefs msgReferencesResolved.
Definition refs_refused (reason message : string) : listenerEntryRefsCheck := mkRefsCheck ConditionFalse reason message.
Definition ref_group (ref : SecretObjectReference) : string := default "" (sor_Group ref).
Definition ref_kind (ref : SecretObjectReference) : string := default kindSecret (sor_Kind ref).
Definition isCoreSecretRef (ref : SecretObjectReference) : bool :=
  bool_decide (ref_group ref = "") && bool_decide (ref_kind ref = kindSecret).

(** What both validators ask of a Secret they could read. *)
Definition secret_verdict (namespace name : string) (secret : Secret) : option string :=
  let what := "Secret " +:+ namespace +:+ "/" +:+ name in
  let certData := default "" (sec_Data secret !! TLSCertKey) in
  if negb (bool_decide (sec_Type secret = SecretTypeTLS)) then Some (what +:+ " is not of type kubernetes.io/tls")
  else if bool_decide (certData = "") then Some (what +:+ " missing tls.crt data")
  else if bool_decide (default "" (sec_Data secret !! TLSPrivateKeyKey) = "") then Some (what +:+ " missing tls.key data")
  else if length (pem_blocks certData) =? 0 then Some (what +:+ " contains invalid certificate PEM data")
  else None.

Definition validateSecretExists (namespace : string) (ref : SecretObjectReference) : listenerEntryRefsCheck :=
  match read_secret namespace (sor_Name ref) with
  | NotFound =>
      refs_refused ListenerReasonInvalidCertificateRef ("Secret " +:+ namespace +:+ "/" +:+ sor_Name ref +:+ " not found")
  | Unavailable =>
      refs_refused ListenerReasonInvalidCertificateRef ("Failed to get secret: " +:+ secret_error namespace (sor_Name ref))
  | Found secret =>
      match secret_verdict namespace (sor_Name ref) secret with
      | Some message => refs_refused ListenerReasonInvalidCertificateRef message
      | None => mkRefsCheck ConditionTrue "" ""
      end
  end.
Definition unsupported_ref (ref : SecretObjectReference) : listenerEntryRefsCheck :=
  refs_refused ListenerReasonInvalidCertificateRef ("Unsupported certificate ref kind: " +:+ ref_group ref +:+ "/" +:+ ref_kind ref).
Definition not_permitted (namespace name : string) : listenerEntryRefsCheck :=
  refs_refused ListenerReasonRefNotPermitted ("Cross-namespace reference to " +:+ namespace +:+ "/" +:+ name +:+ " not permitted").
Definition grant_check_failed (namespace : string) : listenerEntryRefsCheck :=
  refs_refused ListenerReasonRefNotPermitted ("Failed to check ReferenceGrant: " +:+ grants_error namespace).

Definition validateSingleCertRef (gateway : Gateway) (ref : SecretObjectReference) : listenerEntryRefsCheck :=
  let refNamespace := default (gw_Namespace gateway) (sor_Namespace ref) in
  if negb (bool_decide (ref_group ref = "")) || negb (bool_decide (ref_kind ref = kindSecret)) then unsupported_ref ref
  else if negb (bool_decide (refNamespace = gw_Namespace gateway)) then
    match checkSecretReferenceGrant gateway refNamespace ref with
    | Err _ => grant_check_failed refNamespace
    | Ok allowed => if negb allowed then not_permitted refNamespace (sor_Name ref) else validateSecretExists refNamespace ref
    end
  else validateSecretExists refNamespace ref.
(** The first refusal, or the verdict of no refusal. *)
Fixpoint first_refused (check : SecretObjectReference -> listenerEntryRefsCheck) (certRefs : list SecretObjectReference)
    : listenerEntryRefsCheck :=
  match certRefs with
  | [] => refs_resolved
  | ref :: rest =>
      let verdict := check ref in
      if bool_decide (rk_Status verdict = ConditionFalse) then verdict else first_refused check rest
  end.
Definition validateTLSCertificateRefs (gateway : Gateway) (listener : Listener) : listenerEntryRefsCheck :=
  first_refused (validateSingleCertRef gateway) (l_CertificateRefs listener).

(** The ListenerSet's validators: a Secret that cannot be read is an error, not a verdict. *)
Inductive RefsError := errGetSecret (namespace name : string).
Definition validateListenerSetSecretExists (namespace : string) (ref : SecretObjectReference) : res RefsError listenerEntryRefsCheck :=
  match read_secret namespace (sor_Name ref) with
  | NotFound =>
      Ok (refs_refused ListenerReasonInvalidCertificateRef ("Secret " +:+ namespace +:+ "/" +:+ sor_Name ref +:+ " not found"))
  | Unavailable => Err (errGetSecret namespace (sor_Name ref))
  | Found secret =>
      match secret_verdict namespace (sor_Name ref) secret with
      | Some message => Ok (refs_refused ListenerReasonInvalidCertificateRef message)
      | None => Ok refs_resolved
      end
  end.
Definition validateListenerSetCertRef (listenerSet : ListenerSet) (ref : SecretObjectReference) : res RefsError listenerEntryRefsCheck :=
  let refNamespace := default (ls_Namespace listenerSet) (sor_Namespace ref) in
  if negb (bool_decide (ref_group ref = "")) || negb (bool_decide (ref_kind ref = kindSecret)) then Ok (unsupported_ref ref)
  else if negb (bool_decide (refNamespace = ls_Namespace listenerSet)) then
    match checkListenerSetSecretReferenceGrant listenerSet refNamespace ref with
    | Err _ => Ok (grant_check_failed refNamespace)
    | Ok allowed => if negb allowed then Ok (not_permitted refNamespace (sor_Name ref))
                    else validateListenerSetSecretExists refNamespace ref
    end
  else validateListenerSetSecretExists refNamespace ref.
Fixpoint resolve_entry_refs (listenerSet : ListenerSet) (certRefs : list SecretObjectReference) : res RefsError listenerEntryRefsCheck :=
  match certRefs with
  | [] => Ok refs_resolved
  | ref :: rest =>
      check ← validateListenerSetCertRef listenerSet ref;
      if bool_decide (rk_Status check = ConditionFalse) then Ok check else resolve_entry_refs listenerSet rest
  end.
Definition resolveListenerEntryRefs (listenerSet : ListenerSet) (entry : Listener) : res RefsError listenerEntryRefsCheck :=
  resolve_entry_refs listenerSet (l_CertificateRefs entry).

(** ** The client certificate of a Gateway *)

Definition gatewayClientCertRef (gateway : GatewayObject) : option SecretObjectReference := go_ClientCertRef gateway.

(** The key pair, or [None] without a reference. *)
Definition loadGatewayClientCertPEM (grantChecker : Gateway -> string -> SecretObjectReference -> res CertError bool)
    (gateway : GatewayObject) : res CertError (option (string * string)) :=
  match gatewayClientCertRef gateway with
  | None => Ok None
  | Some ref =>
      if negb (isCoreSecretRef ref) then Err errGatewayClientCertUnsupportedRef
      else
        let ns := gw_Namespace (go_Gateway gateway) in
        let targetNS := default ns (sor_Namespace ref) in
        permitted ← (if negb (bool_decide (targetNS = ns)) then grantChecker (go_Gateway gateway) targetNS ref else Ok true);
        if negb permitted then Err errGatewayClientCertRefNotPermitted
        else
          match read_secret targetNS (sor_Name ref) with
          | NotFound => Err errGatewayClientCertSecretNotFound
          | Unavailable => Err errGatewayClientCertTransientError
          | Found secret =>
              if negb (bool_decide (sec_Type secret = SecretTypeTLS)) then Err errGatewayClientCertWrongType
              else
                let certPEM := default "" (sec_Data secret !! TLSCertKey) in
                let keyPEM := default "" (sec_Data secret !! TLSPrivateKeyKey) in
                if bool_decide (certPEM = "") || bool_decide (keyPEM = "") then Err errGatewayClientCertMissingKey
                else match X509KeyPair certPEM keyPEM with
                     | None => Err errGatewayClientCertInvalidPEM
                     | Some _ => Ok (Some (certPEM, keyPEM))
                     end
          end
  end.

Definition applyGatewayConditions (now : Z) (conditions owned : list Condition) (clientCertCond : option Condition) : list Condition :=
  foldl (SetStatusCondition now) conditions (owned ++ option_list clientCertCond).

Definition GatewayConditionResolvedRefs : string := "ResolvedRefs".
Definition GatewayReasonInvalidClientCertificateRef : string := "InvalidClientCertificateRef".
Definition GatewayReasonRefNotPermitted : string := "RefNotPermitted".
Definition buildClientCertResolvedRefsCondition (cert_error : CertError -> string) (generation now : Z) (err : option CertError)
    : option Condition :=
  match err with
  | None => Some (mkCondition GatewayConditionResolvedRefs ConditionTrue generation now "ResolvedRefs" "All references resolved")
  | Some errGatewayClientCertTransientError => None
  | Some e =>
      let reason := match e with
                    | errGatewayClientCertRefNotPermitted => GatewayReasonRefNotPermitted
                    | _ => GatewayReasonInvalidClientCertificateRef
                    end in
      Some (mkCondition GatewayConditionResolvedRefs ConditionFalse generation now reason (cert_error e))
  end.
End refs.

(** ** What the proxy presents *)

(** Reads of the resolver: a Gateway and a GatewayClass by name. *)
Class GatewayReader := {
  read_gateway : string -> string -> Lookup GatewayObject;      (* namespace, name *)
  read_class : string -> Lookup GatewayClass;
}.

Section presented.
Context {grants : GrantClient} {secrets : SecretReader} {x509 : X509} {gateways : GatewayReader}.

(** An empty controller name skips the check. *)
Definition gatewayManagedByController (gateway : GatewayObject) (controllerName : string) : bool :=
  if bool_decide (controllerName = "") then true
  else match read_class (go_ClassName gateway) with
       | Found class => bool_decide (gc_ControllerName class = controllerName)
       | _ => false
       end.
Definition newGatewayClientCertResolver (controllerName namespace name : string) : option ClientCertConfig :=
  match read_gateway namespace name with
  | Found gateway =>
      if negb (gatewayManagedByController gateway controllerName) then None
      else match loadGatewayClientCertPEM checkSecretReferenceGrantForGateway gateway with
           | Ok (Some (certPEM, keyPEM)) => Some (mkClientCertConfig certPEM keyPEM)
           | _ => None
           end
  | _ => None
  end.
End presented.

(** ** Which Secrets may be used *)

Section spec.
Context {grants : GrantClient} {secrets : SecretReader} {pem : PemReader} {x509 : X509}.

(** Some grant of the target namespace lets objects of [kind] in [ns] use the Secret. *)
Definition granted (kind ns target name : string) : Prop :=
  exists items grant from to, list_grants target = Some items /\ grant ∈ items /\ from ∈ grant_From grant /\ to ∈ grant_To grant /\
    from = mkGrantFrom GroupName kind ns /\ gt_Group to = "" /\ gt_Kind to = kindSecret /\
    (gt_Name to = None \/ gt_Name to = Some "" \/ gt_Name to = Some name).
(** The reference of an object of [kind] in [ns] names a Secret it may read. *)
Definition reaches (kind ns : string) (ref : SecretObjectReference) (secret : Secret) : Prop :=
  let target := default ns (sor_Namespace ref) in
  ref_group ref = "" /\ ref_kind ref = kindSecret /\
  (target = ns \/ granted kind ns target (sor_Name ref)) /\ read_secret target (sor_Name ref) = Found secret.
(** The Secret holds a certificate and a key. *)
Definition holds_pair (secret : Secret) (cert key : string) : Prop :=
  sec_Type secret = SecretTypeTLS /\ sec_Data secret !! TLSCertKey = Some cert /\ cert <> "" /\
  sec_Data secret !! TLSPrivateKeyKey = Some key /\ key <> "".
Definition usable (kind ns : string) (ref : SecretObjectReference) : Prop :=
  exists secret cert key, reaches kind ns ref secret /\ holds_pair secret cert key /\ pem_blocks cert <> [].

Lemma grant_from_spec kind grant ns : grant_from kind grant ns = true <-> mkGrantFrom GroupName kind ns ∈ grant_From grant.
Proof.
  unfold grant_from. rewrite existsb_exists. setoid_rewrite <-list_elem_of_In. split.
  - intros ([g k n] & Hin & H). breflect. by simplify_eq/=.
  - intros H. eexists. split; [exact H|]. by rewrite !bool_decide_eq_true_2.
Qed.
Lemma grant_to_secret_spec name to :
  grant_to_secret name to = true <->
  gt_Group to = "" /\ gt_Kind to = kindSecret /\ (gt_Name to = None \/ gt_Name to = Some "" \/ gt_Name to = Some name).
Proof.
  unfold grant_to_secret. destruct (gt_Name to) as [n|].
  - rewrite !andb_true_iff, orb_true_iff, !bool_decide_eq_true. split; [intros [[??] [->| ->]]|intros (?&?&[?|[?|?]])]; simplify_eq; auto.
  - rewrite !andb_true_iff, !bool_decide_eq_true. split; [intros [[??] _]|intros (?&?&_)]; auto.
Qed.
Lemma grants_cover kind ns target name items :
  list_grants target = Some items ->
  existsb (fun grant => grant_from kind grant ns && existsb (grant_to_secret name) (grant_To grant)) items = true <->
  granted kind ns target name.
Proof.
  intros Hl. rewrite existsb_exists. setoid_rewrite <-list_elem_of_In. setoid_rewrite andb_true_iff.
  setoid_rewrite grant_from_spec. setoid_rewrite existsb_exists. setoid_rewrite <-list_elem_of_In. setoid_rewrite grant_to_secret_spec.
  unfold granted. split.
  - intros (g & Hg & Hf & t & Ht & H). exists items, g, (mkGrantFrom GroupName kind ns), t. naive_solver.
  - intros (items' & g & f & t & Hl' & Hg & Hf & Ht & -> & H). assert (items' = items) as -> by congruence. eauto 10.
Qed.
Lemma granted_listed kind ns target name : granted kind ns target name -> is_Some (list_grants target).
Proof. intros (items & _ & _ & _ & Hl & _). by exists items. Qed.

(** What every checker answers about a reference into another namespace. *)
Definition checks (kind ns : string) (checker : string -> SecretObjectReference -> res CertError bool) : Prop :=
  forall target ref, (checker target ref = Ok true <-> granted kind ns target (sor_Name ref)) /\
    (list_grants target = None -> exists e, checker target ref = Err e).
Lemma checker_checks kind ns (fail : string -> CertError) :
  checks kind ns (fun target ref =>
    match list_grants target with
    | None => Err (fail target)
    | Some items => Ok (existsb (fun grant => grant_from kind grant ns && existsb (grant_to_secret (sor_Name ref)) (grant_To grant)) items)
    end).
Proof.
  intros target ref. destruct (list_grants target) as [items|] eqn:Hl.
  - rewrite <-(grants_cover kind ns target (sor_Name ref) items Hl). split; [|done]. split; [by intros [=]|by intros ->].
  - split; [|by eexists]. split; [done|]. intros [? ?]%granted_listed. congruence.
Qed.
Lemma gateway_checks gw : checks kindGateway (gw_Namespace gw) (checkSecretReferenceGrant gw).
Proof. exact (checker_checks kindGateway (gw_Namespace gw) errListReferenceGrants). Qed.
Lemma standalone_checks gw : checks kindGateway (gw_Namespace gw) (checkSecretReferenceGrantForGateway gw).
Proof. exact (checker_checks kindGateway (gw_Namespace gw) (fun _ => errGatewayClientCertTransientError)). Qed.
Lemma listenerSet_checks ls : checks kindListenerSet (ls_Namespace ls) (checkListenerSetSecretReferenceGrant ls).
Proof. exact (checker_checks kindListenerSet (ls_Namespace ls) errListReferenceGrants). Qed.

Lemma data_nonempty (data : gmap string string) key :
  default "" (data !! key) <> "" <-> exists v, data !! key = Some v /\ v <> "".
Proof. destruct (data !! key) as [v|]; simpl; split; [intros H; by exists v|by intros (? & [= <-] & ?)|done|by intros (? & ? & _)]. Qed.
Lemma secret_verdict_spec ns name secret :
  secret_verdict ns name secret = None <-> exists cert key, holds_pair secret cert key /\ pem_blocks cert <> [].
Proof.
  unfold secret_verdict, holds_pair. split.
  - intros H. case_bool_decide as Ht; [|done]. cbn [negb] in H. case_bool_decide as Hc; [done|]. case_bool_decide as Hk; [done|].
    apply data_nonempty in Hc as (c & Hc & ?), Hk as (k & Hk & ?). rewrite Hc in H. change (default "" (Some c)) with c in H.
    exists c, k. split_and!; try done. intros Hp. by rewrite Hp in H.
  - intros (c & k & (Ht & Hc & ? & Hk & ?) & Hp). rewrite Hc, Hk. change (default "" (Some ?x)) with x.
    rewrite (bool_decide_eq_true_2 (sec_Type secret = _)) by done. cbn [negb]. rewrite !bool_decide_eq_false_2 by done. by destruct (pem_blocks c).
Qed.
End spec.

Section verdicts.
Context {grants : GrantClient} {secrets : SecretReader} {texts : ApiText} {pem : PemReader} {x509 : X509}.

(** A check decides [P]: it is True or False, and True exactly when [P] holds. *)
Definition decides (check : listenerEntryRefsCheck) (P : Prop) : Prop :=
  (rk_Status check = ConditionTrue /\ P) \/ (rk_Status check = ConditionFalse /\ ~ P).
#[global] Instance decides_proper check : Proper (iff ==> iff) (decides check).
Proof. intros P Q HPQ. unfold decides. by rewrite HPQ. Qed.

Lemma core_ref_spec ref :
  negb (bool_decide (ref_group ref = "")) || negb (bool_decide (ref_kind ref = kindSecret)) = false <->
  ref_group ref = "" /\ ref_kind ref = kindSecret.
Proof. by rewrite orb_false_iff, !negb_false_iff, !bool_decide_eq_true. Qed.
Lemma usable_core kind ns ref : usable kind ns ref -> ref_group ref = "" /\ ref_kind ref = kindSecret.
Proof. by intros (? & ? & ? & (? & ? & _) & _). Qed.
(** Past the checks of group, kind and namespace only the Secret matters. *)
Lemma usable_secret kind ns ref :
  let target := default ns (sor_Namespace ref) in
  ref_group ref = "" -> ref_kind ref = kindSecret -> (target = ns \/ granted kind ns target (sor_Name ref)) ->
  usable kind ns ref <->
  exists secret, read_secret target (sor_Name ref) = Found secret /\ secret_verdict target (sor_Name ref) secret = None.
Proof.
  intros target Hg Hk Ht. unfold usable, reaches. fold target. setoid_rewrite secret_verdict_spec. naive_solver.
Qed.
Lemma usable_target kind ns ref :
  let target := default ns (sor_Namespace ref) in
  usable kind ns ref -> target = ns \/ granted kind ns target (sor_Name ref).
Proof. by intros target (? & ? & ? & (_ & _ & ? & _) & _). Qed.

Lemma validateSecretExists_decides kind ns ref :
  let target := default ns (sor_Namespace ref) in
  ref_group ref = "" -> ref_kind ref = kindSecret -> (target = ns \/ granted kind ns target (sor_Name ref)) ->
  decides (validateSecretExists target ref) (usable kind ns ref).
Proof.
  intros target Hg Hk Ht. unfold decides. rewrite (usable_secret kind ns ref) by done. fold target. unfold validateSecretExists.
  destruct (read_secret target (sor_Name ref)) as [secret| |]; [destruct (secret_verdict _ _ secret) eqn:Hv|..]; simpl.
  - right. split; [done|]. intros (? & [= <-] & ?). congruence.
  - left. split; [done|]. by eexists.
  - right. split; [done|]. by intros (? & ? & _).
  - right. split; [done|]. by intros (? & ? & _).
Qed.
Lemma validateSingleCertRef_decides gateway ref :
  decides (validateSingleCertRef gateway ref) (usable kindGateway (gw_Namespace gateway) ref).
Proof.
  unfold validateSingleCertRef. destruct (_ || _) eqn:Hcore.
  { right. split; [done|]. intros H%usable_core%core_ref_spec. congruence. }
  apply core_ref_spec in Hcore as [Hg Hk]. case_bool_decide as Hns; cbn [negb].
  { apply validateSecretExists_decides; auto. }
  destruct (gateway_checks gateway (default (gw_Namespace gateway) (sor_Namespace ref)) ref) as [Hc _].
  destruct (checkSecretReferenceGrant _ _ _) as [[]|e]; cbn [negb].
  - apply validateSecretExists_decides; [done..|]. right. by apply Hc.
  - right. split; [done|]. intros [?|?%Hc]%usable_target; done.
  - right. split; [done|]. intros [?|?%Hc]%usable_target; done.
Qed.
Lemma first_refused_decides (check : SecretObjectReference -> listenerEntryRefsCheck) (P : SecretObjectReference -> Prop) refs :
  (forall ref, decides (check ref) (P ref)) -> decides (first_refused check refs) (Forall P refs).
Proof.
  intros H. induction refs as [|ref refs IH]; simpl; [by left|]. rewrite Forall_cons.
  destruct (H ref) as [[Hs Hp]|[Hs Hp]]; rewrite Hs; cbn.
  - destruct IH as [[? ?]|[? ?]]; [by left|right]. split; [done|]. by intros [].
  - right. split; [done|]. by intros [].
Qed.

Lemma validateListenerSetCertRef_decides ls ref check :
  validateListenerSetCertRef ls ref = Ok check -> decides check (usable kindListenerSet (ls_Namespace ls) ref).
Proof.
  set (target := default (ls_Namespace ls) (sor_Namespace ref)).
  assert (Hsec : ref_group ref = "" -> ref_kind ref = kindSecret ->
    (target = ls_Namespace ls \/ granted kindListenerSet (ls_Namespace ls) target (sor_Name ref)) ->
    validateListenerSetSecretExists target ref = Ok check -> decides check (usable kindListenerSet (ls_Namespace ls) ref)).
  { intros Hg Hk Ht. pose proof (usable_secret kindListenerSet (ls_Namespace ls) ref Hg Hk Ht) as Hu. fold target in Hu.
    unfold decides. rewrite Hu. unfold validateListenerSetSecretExists. destruct (read_secret target (sor_Name ref)) as [s| |];
      [destruct (secret_verdict _ _ s) eqn:Hv|..]; intros [= <-]; simpl.
    - right. split; [done|]. intros (? & [= <-] & ?). congruence.
    - left. split; [done|]. by eexists.
    - right. split; [done|]. by intros (? & ? & _). }
  unfold validateListenerSetCertRef. fold target. destruct (_ || _) eqn:Hcore.
  { intros [= <-]. right. split; [done|]. intros H%usable_core%core_ref_spec. congruence. }
  apply core_ref_spec in Hcore as [Hg Hk]. case_bool_decide as Hns; cbn [negb]; [auto|].
  destruct (listenerSet_checks ls target ref) as [Hc _].
  destruct (checkListenerSetSecretReferenceGrant _ _ _) as [[]|e]; cbn [negb].
  - apply Hsec; [done..|]. right. by apply Hc.
  - intros [= <-]. right. split; [done|]. intros [?|?%Hc]%usable_target; done.
  - intros [= <-]. right. split; [done|]. intros [?|?%Hc]%usable_target; done.
Qed.
Lemma resolve_entry_refs_decides ls refs check :
  resolve_entry_refs ls refs = Ok check -> decides check (Forall (usable kindListenerSet (ls_Namespace ls)) refs).
Proof.
  revert check. induction refs as [|ref refs IH]; intros check; cbn [resolve_entry_refs]; [intros [= <-]; by left|].
  destruct (validateListenerSetCertRef ls ref) as [c|e] eqn:Hc; [|done]. cbn. rewrite Forall_cons.
  destruct (validateListenerSetCertRef_decides ls ref c Hc) as [[Hs Hp]|[Hs Hp]]; rewrite Hs; cbn.
  - intros H. destruct (IH check H) as [[? ?]|[? ?]]; [by left|right]. split; [done|]. by intros [].
  - intros [= <-]. right. split; [done|]. by intros [].
Qed.
Lemma resolve_entry_refs_error ls refs ns name :
  resolve_entry_refs ls refs = Err (errGetSecret ns name) -> read_secret ns name = Unavailable.
Proof.
  induction refs as [|ref refs IH]; cbn [resolve_entry_refs]; [done|].
  destruct (validateListenerSetCertRef ls ref) as [c|e] eqn:Hc; cbn.
  - case_bool_decide; [done|exact IH].
  - intros [= ->]. unfold validateListenerSetCertRef in Hc. revert Hc. unfold validateListenerSetSecretExists. by repeat case_match; intros; simplify_eq/=.
Qed.

Lemma validateTLSCertificateRefs_decides gateway listener :
  decides (validateTLSCertificateRefs gateway listener)
          (Forall (usable kindGateway (gw_Namespace gateway)) (l_CertificateRefs listener)).
Proof. apply first_refused_decides, validateSingleCertRef_decides. Qed.

(** Certificate references are decided exactly. The check of a Gateway's
    listener, and of a ListenerSet's entry that returns a verdict at all, is True
    exactly when every reference names a core Secret that is readable, in the
    object's own namespace or one whose grants admit this kind of object from this
    namespace, is of the TLS type and holds a key and a PEM certificate; otherwise
    it is False. A ListenerSet's check fails only on a Secret that cannot be read. *)
Theorem certificate_refs_exact (gateway : Gateway) (ls : ListenerSet) (listener : Listener) :
  decides (validateTLSCertificateRefs gateway listener)
          (Forall (usable kindGateway (gw_Namespace gateway)) (l_CertificateRefs listener)) /\
  match resolveListenerEntryRefs ls listener with
  | Ok check => decides check (Forall (usable kindListenerSet (ls_Namespace ls)) (l_CertificateRefs listener))
  | Err (errGetSecret ns name) => read_secret ns name = Unavailable
  end.
Proof.
  split; [apply validateTLSCertificateRefs_decides|]. unfold resolveListenerEntryRefs.
  destruct (resolve_entry_refs _ _) as [check|[ns name]] eqn:H; [by apply resolve_entry_refs_decides|by eapply resolve_entry_refs_error].
Qed.
End verdicts.

(** ** The client certificate *)

Section client_cert.
Context {grants : GrantClient} {secrets : SecretReader} {x509 : X509}.

(** The Secret of a Gateway's client certificate, as a parsed key pair. *)
Definition client_pair (gateway : GatewayObject) (cert key : string) : Prop :=
  exists ref secret, go_ClientCertRef gateway = Some ref /\ reaches kindGateway (gw_Namespace (go_Gateway gateway)) ref secret /\
    holds_pair secret cert key /\ is_Some (X509KeyPair cert key).

Lemma pair_of_data secret cert key :
  default "" (sec_Data secret !! TLSCertKey) = cert -> default "" (sec_Data secret !! TLSPrivateKeyKey) = key ->
  sec_Type secret = SecretTypeTLS -> bool_decide (cert = "") || bool_decide (key = "") = false <-> holds_pair secret cert key.
Proof.
  intros Hc Hk Ht. rewrite orb_false_iff, !bool_decide_eq_false. unfold holds_pair. split.
  - intros [H1 H2]. rewrite <-Hc, data_nonempty in H1. rewrite <-Hk, data_nonempty in H2.
    destruct H1 as (c & H1 & ?), H2 as (k & H2 & ?). rewrite H1 in Hc. rewrite H2 in Hk. cbn in Hc, Hk. by subst.
  - by intros (_ & _ & ? & _ & ?).
Qed.
Lemma pair_data secret cert key :
  holds_pair secret cert key ->
  default "" (sec_Data secret !! TLSCertKey) = cert /\ default "" (sec_Data secret !! TLSPrivateKeyKey) = key.
Proof. by intros (_ & -> & _ & -> & _). Qed.

Lemma loadGatewayClientCertPEM_spec checker gateway cert key :
  checks kindGateway (gw_Namespace (go_Gateway gateway)) (checker (go_Gateway gateway)) ->
  loadGatewayClientCertPEM checker gateway = Ok (Some (cert, key)) <-> client_pair gateway cert key.
Proof.
  intros Hchecks. unfold loadGatewayClientCertPEM, gatewayClientCertRef, client_pair, reaches.
  destruct (go_ClientCertRef gateway) as [ref|]; [|by split; [|intros (? & ? & ? & _)]].
  set (ns := gw_Namespace (go_Gateway gateway)) in *. set (target := default ns (sor_Namespace ref)).
  destruct (Hchecks target ref) as [Hc _]. split.
  - intros H. unfold isCoreSecretRef in H. destruct (bool_decide _ && bool_decide _) eqn:Hcore; [|done]. cbn [negb] in H.
    apply andb_true_iff in Hcore as [Hg%bool_decide_eq_true Hk%bool_decide_eq_true].
    assert (Hperm : target = ns \/ granted kindGateway ns target (sor_Name ref)).
    { revert H. case_bool_decide; cbn; [by left|]. destruct (checker _ target ref) as [[]|]; cbn; try done. intros _. right. by apply Hc. }
    assert (Hread : exists secret, read_secret target (sor_Name ref) = Found secret /\
      holds_pair secret cert key /\ is_Some (X509KeyPair cert key)).
    { revert H. destruct (if negb (bool_decide (target = ns)) then _ else _) as [[]|]; cbn; [|done..].
      destruct (read_secret target (sor_Name ref)) as [secret| |]; [|done..]. case_bool_decide as Ht; [|done]. cbn [negb].
      destruct (bool_decide (default "" (sec_Data secret !! TLSCertKey) = "") || _) eqn:Hd; [done|].
      apply (pair_of_data secret _ _ eq_refl eq_refl Ht) in Hd. destruct (X509KeyPair _ _) as [p|] eqn:Hp; [|done]. intros [= <- <-].
      exists secret. split_and!; [done..|]. by rewrite Hp. }
    destruct Hread as (secret & Hr & Hp & Hx). exists ref, secret. split_and!; auto.
  - intros (ref' & secret & [= <-] & (Hg & Hk & Hperm & Hr) & Hp & [p Hx]). unfold isCoreSecretRef.
    fold target in Hperm, Hr. rewrite Hg, Hk. cbn [negb andb]. rewrite !bool_decide_eq_true_2 by done. cbn [negb andb].
    assert ((if negb (bool_decide (target = ns)) then checker (go_Gateway gateway) target ref else Ok true) = Ok true) as ->.
    { case_bool_decide; cbn; [done|]. apply Hc. by destruct Hperm. }
    cbn. rewrite Hr. destruct (pair_data _ _ _ Hp) as [Hdc Hdk]. rewrite Hdc, Hdk. pose proof Hp as (Ht & _). rewrite (bool_decide_eq_true_2 _ Ht).
    cbn [negb]. apply (pair_of_data secret cert key Hdc Hdk Ht) in Hp as ->. by rewrite Hx.
Qed.
End client_cert.

Section resolver.
Context {grants : GrantClient} {secrets : SecretReader} {x509 : X509} {gateways : GatewayReader}.

(** C32: The proxy presents a client certificate exactly when the Gateway of the
    route exists, its class is this controller's (always, without a controller
    name), and its reference names a core Secret it may read, of the TLS type,
    with a certificate and a key that parse as a pair. So what is presented always
    parses, and the certificate of another controller's Gateway never is. *)
Theorem client_cert_presented_exact (controllerName namespace name : string) (presented : ClientCertConfig) :
  newGatewayClientCertResolver controllerName namespace name = Some presented <->
  exists gateway, read_gateway namespace name = Found gateway /\
    (controllerName = "" \/ exists class, read_class (go_ClassName gateway) = Found class /\ gc_ControllerName class = controllerName) /\
    client_pair gateway (cc_CertPEM presented) (cc_KeyPEM presented).
Proof.
  unfold newGatewayClientCertResolver, gatewayManagedByController. destruct (read_gateway namespace name) as [gateway| |].
  2,3: by split; [|intros (? & ? & _)].
  pose proof (loadGatewayClientCertPEM_spec checkSecretReferenceGrantForGateway gateway (cc_CertPEM presented) (cc_KeyPEM presented)
    (standalone_checks (go_Gateway gateway))) as Hload. destruct presented as [cert key]. cbn in Hload.
  set (managed := if bool_decide (controllerName = "") then true else _).
  assert (Hm : managed = true <-> controllerName = "" \/
    exists class, read_class (go_ClassName gateway) = Found class /\ gc_ControllerName class = controllerName).
  { subst managed. case_bool_decide; [by split; [left|]|]. destruct (read_class _) as [class| |].
    - rewrite bool_decide_eq_true. split; [eauto|]. by intros [?|(? & [= <-] & ?)].
    - by split; [|intros [?|(? & ? & _)]].
    - by split; [|intros [?|(? & ? & _)]]. }
  split.
  - destruct managed; [|done]. cbn [negb]. intros H. exists gateway. split_and!; [done|by apply Hm|].
    apply Hload. by destruct (loadGatewayClientCertPEM _ _) as [[[]|]|]; simplify_eq/=.
  - intros (g & [= <-] & Hman%Hm & Hpair%Hload). rewrite Hman, Hpair. done.
Qed.

(** The two copies of the grant check differ only in the error of a failed list. *)
Lemma checkers_agree gw target ref b :
  checkSecretReferenceGrant gw target ref = Ok b <-> checkSecretReferenceGrantForGateway gw target ref = Ok b.
Proof. unfold checkSecretReferenceGrant, checkSecretReferenceGrantForGateway. by destruct (list_grants target). Qed.
Lemma load_agrees gateway r :
  loadGatewayClientCertPEM checkSecretReferenceGrant gateway = Ok r <->
  loadGatewayClientCertPEM checkSecretReferenceGrantForGateway gateway = Ok r.
Proof.
  unfold loadGatewayClientCertPEM, checkSecretReferenceGrant, checkSecretReferenceGrantForGateway.
  destruct (gatewayClientCertRef gateway); [|done]. case_match; [done|]. case_bool_decide; cbn [negb]; [done|].
  by destruct (list_grants _).
Qed.

Lemma load_none checker gateway : loadGatewayClientCertPEM checker gateway = Ok None -> go_ClientCertRef gateway = None.
Proof.
  unfold loadGatewayClientCertPEM, gatewayClientCertRef. destruct (go_ClientCertRef gateway) as [ref|]; [|done].
  destruct (isCoreSecretRef ref); [|done]. cbn [negb]. destruct (if negb _ then _ else _) as [b|]; [|done].
  destruct b; cbn; [|done]. by repeat case_match.
Qed.

(** The Gateway's status and the data plane agree on the client certificate:
    the condition the controller writes is True exactly when the Gateway of this
    controller needs no certificate or the proxy presents its pair, and it is
    withheld exactly when the Secret could not be read. *)
Theorem client_cert_status_agrees (cert_error : CertError -> string) (controllerName namespace name : string)
    (gateway : GatewayObject) (generation now : Z) :
  read_gateway namespace name = Found gateway -> gatewayManagedByController gateway controllerName = true ->
  let outcome := match loadGatewayClientCertPEM checkSecretReferenceGrant gateway with Err e => Some e | Ok _ => None end in
  let condition := buildClientCertResolvedRefsCondition cert_error generation now outcome in
  ((exists c, condition = Some c /\ cond_Status c = ConditionTrue) <->
     go_ClientCertRef gateway = None \/ is_Some (newGatewayClientCertResolver controllerName namespace name)) /\
  (condition = None -> exists ref, go_ClientCertRef gateway = Some ref /\
     read_secret (default (gw_Namespace (go_Gateway gateway)) (sor_Namespace ref)) (sor_Name ref) = Unavailable).
Proof.
  intros Hg Hm outcome condition. split.
  - unfold newGatewayClientCertResolver. rewrite Hg, Hm. cbn [negb]. subst condition outcome.
    destruct (loadGatewayClientCertPEM checkSecretReferenceGrant gateway) as [r|e] eqn:Hload.
    + split; [intros _|intros _; eexists; split; [reflexivity|done]]. pose proof Hload as Hl%load_agrees. rewrite Hl.
      destruct r as [[cert key]|]; [right; by eexists|left; by eapply load_none].
    + split.
      * destruct e; cbn; intros (c & Hc & Hs); by simplify_eq/=.
      * intros [H|[c H]].
        -- unfold loadGatewayClientCertPEM, gatewayClientCertRef in Hload. by rewrite H in Hload.
        -- destruct (loadGatewayClientCertPEM checkSecretReferenceGrantForGateway gateway) as [r|] eqn:Hl; [|done].
           apply load_agrees in Hl. congruence.
  - subst condition outcome. destruct (loadGatewayClientCertPEM checkSecretReferenceGrant gateway) as [r|e] eqn:Hload; [done|].
    destruct e; try done. intros _. revert Hload. unfold loadGatewayClientCertPEM, gatewayClientCertRef, checkSecretReferenceGrant.
    destruct (go_ClientCertRef gateway) as [ref|]; [|done]. destruct (isCoreSecretRef ref); [|done]. cbn [negb].
    intros H. exists ref. split; [done|]. revert H. case_bool_decide; cbn; [|destruct (list_grants _); cbn; [|done]];
      by repeat case_match.
Qed.
End resolver.

(** ** An example *)

Definition crt_pem : PemReader := {| pem_blocks s := [("CERTIFICATE", s)]; ParseCertificate _ := true |}.
Definition crt_x509 : X509 := {| Certificate := unit; KeyPair := unit; certs_of_PEM _ := []; Verify _ _ _ := false;
  VerifyHostname _ _ := false; cert_URIs _ := []; X509KeyPair _ _ := Some tt; system_roots := [] |}.
Definition one_secret : SecretReader := fun ns name =>
  if bool_decide (ns = "certs") && bool_decide (name = "client")
  then Found (mkSecret SecretTypeTLS {["tls.crt" := "cert"; "tls.key" := "key"]}) else NotFound.
Definition one_grant : GrantClient := fun ns =>
  Some (if bool_decide (ns = "certs") then [mkReferenceGrant "certs" [mkGrantFrom GroupName kindGateway "prod"] [mkGrantTo "" kindSecret None]]
        else []).
Definition mtls_gateway : GatewayObject :=
  mkGatewayObject (mkGateway "edge" "prod" [] None) 1 "class" None (Some (mkSecretObjectReference None None "client" (Some "certs"))).
Definition mtls_reader : GatewayReader := {|
  read_gateway ns name := if bool_decide (ns = "prod") && bool_decide (name = "edge") then Found mtls_gateway else NotFound;
  read_class name := if bool_decide (name = "class") then Found (mkGatewayClass "class" "us" None) else NotFound |}.

Lemma client_cert_status_agrees_witness :
  let outcome := match @loadGatewayClientCertPEM one_secret crt_x509 (@checkSecretReferenceGrant one_grant) mtls_gateway with
                 | Err e => Some e | Ok _ => None end in
  exists c, buildClientCertResolvedRefsCondition (fun _ => "") 1 0 outcome = Some c /\ cond_Status c = ConditionTrue.
Proof.
  apply (proj1 (@client_cert_status_agrees one_grant one_secret crt_x509 mtls_reader (fun _ => "") "us" "prod" "edge" mtls_gateway 1 0
    eq_refl eq_refl)). right. by eexists.
Defined.

(** A failed list of grants, which says nothing about the reference, is reported
    as an invalid reference by the Gateway's own copy of the grant check; the
    other copy would have left the previous condition standing. *)
Lemma grant_list_failure_invalidates :
  let no_list : GrantClient := fun _ => None in
  let condition checker :=
    buildClientCertResolvedRefsCondition (fun _ => "") 1 0
      (match @loadGatewayClientCertPEM one_secret crt_x509 checker mtls_gateway with Err e => Some e | Ok _ => None end) in
  (cond_Reason <$> condition (@checkSecretReferenceGrant no_list)) = Some GatewayReasonInvalidClientCertificateRef /\
  condition (@checkSecretReferenceGrantForGateway no_list) = None.
Proof. by vm_compute. Qed.
