(* ===== verification/GatewayStatus.v ===== *)
(** * The Gateway controller

    [controller/gateway_controller.go] with the class test of
    [controller/mappers.go] and the count of [controller/listenerset_collect.go]:
    the status of a Gateway and of its listeners, and its write.  The merged view
    is what the caches serve ([gateway_view]); lists of routes, Deployments and
    the texts of errors are parameters. *)
From Stdlib Require Import Ascii.
From stdpp Require Import sorting.
From stdpp Require Import base sets gmap strings list.
From S2P Require Import Prelude GoStrings RouterState RenderNames RouteBinding ListenerMerge ReferenceGrant IngressBuild Converter ConfigResolver ListenerView ParentBinding RouteSync SyncAll RouteStatus BackendTLS StatusWriter Handler CertRefs.

Class RouteLists := {
  all_httpRoutes : option (list (RouteObject HTTPRouteRule));
  all_grpcRoutes : option (list (RouteObject GRPCRouteRule));
}.
(** The ready replicas of a Deployment, by namespace and name. *)
Class DeploymentReader := read_deployment : string -> string -> Lookup Z.
Class StatusText := {
  config_error : ConfigError -> string;
  cert_error : CertError -> string;
  deployment_error : string -> string -> string;
}.

(** ** Conditions shared with ListenerSets *)

Definition ListenerConditionAccepted : string := "Accepted".
Definition ListenerConditionProgrammed : string := "Programmed".
Definition ListenerConditionConflicted : string := "Conflicted".
Definition ListenerConditionResolvedRefs : string := "ResolvedRefs".
Definition ListenerReasonAccepted : string := "Accepted".
Definition ListenerReasonProgrammed : string := "Programmed".
Definition ListenerReasonInvalid : string := "Invalid".
Definition ListenerReasonInvalidRouteKinds : string := "InvalidRouteKinds".
Definition ListenerReasonUnsupportedProtocol : string := "UnsupportedProtocol".
Definition listenerMsgAccepted : string := "Listener accepted".
Definition listenerMsgProgrammed : string := "Listener programmed".
Definition listenerMsgInvalidUnresolved : string := "Listener has unresolved references".
Definition listenerMsgNoSupportedRouteKinds : string := "None of the specified route kinds are supported".
Definition listenerMsgInvalidRouteKinds : string := "One or more specified route kinds are not supported".
Definition listenerConditionPermissiveHostname : string := "cf.k8s.lex.la/PermissiveHostname".
Definition listenerReasonUnpinnedHostnameAllowsAll : string := "UnpinnedHostnameAllowsAllNamespaces".
Definition listenerMsgPermissiveHostname : string :=
  "listener allows routes from all namespaces (allowedRoutes.namespaces.from: All) " +:+
  "with no hostname pin, so any namespace can claim any hostname on it — pin the listener hostname or scope " +:+
  "allowedRoutes to a namespace selector to bound the capture surface".

Definition servableListenerProtocol (protocol : string) : bool :=
  bool_decide (protocol = "HTTP") || bool_decide (protocol = "HTTPS").
Definition buildListenerAcceptedCondition (protocol : string) (generation now : Z) : Condition :=
  if servableListenerProtocol protocol
  then mkCondition ListenerConditionAccepted ConditionTrue generation now ListenerReasonAccepted listenerMsgAccepted
  else mkCondition ListenerConditionAccepted ConditionFalse generation now ListenerReasonUnsupportedProtocol
         ("Listener protocol " +:+ protocol +:+ " is not supported; " +:+
          "this controller serves only HTTP and HTTPS listeners (HTTPRoute / GRPCRoute) through Cloudflare Tunnel. " +:+
          "Use an HTTP or HTTPS listener.").
Definition hostnameCaptureRisk (hostname : option string) (allowed : option AllowedRoutes) : bool :=
  if match hostname with Some h => negb (bool_decide (h = "")) | None => false end then false
  else bool_decide ((a ← allowed; ns ← ar_Namespaces a; rn_From ns) = Some NamespacesFromAll).
Definition permissiveHostnameCondition (generation now : Z) : Condition :=
  mkCondition listenerConditionPermissiveHostname ConditionTrue generation now
    listenerReasonUnpinnedHostnameAllowsAll listenerMsgPermissiveHostname.
Definition conflictedEntryConditions (generation now : Z) (merge : MergedListener) (resolvedRefs : Condition) : list Condition :=
  let reason := ml_ConflictReason merge in
  [mkCondition ListenerConditionAccepted ConditionFalse generation now reason (ml_ConflictMessage merge);
   mkCondition ListenerConditionProgrammed ConditionFalse generation now reason (ml_ConflictMessage merge);
   mkCondition ListenerConditionConflicted ConditionTrue generation now reason (ml_ConflictMessage merge);
   resolvedRefs].

(** ** Listener statuses *)

Definition conflictedGatewayListenerConditions (view : option gatewayListenerView) (name : string) (generation now : Z)
    (resolvedRefs : Condition) : option (list Condition) :=
  match view with
  | None => None
  | Some v =>
      match findMergedGatewayEntry (view_merged v) name with
      | None => None
      | Some entry =>
          if bool_decide (ml_ConflictReason entry = "") then None
          else Some (conflictedEntryConditions generation now entry resolvedRefs)
      end
  end.
Definition Gateway_buildResolvedRefsCondition (generation now : Z) (hasValidKind hasInvalidKind : bool) (tls : listenerEntryRefsCheck)
    : Condition :=
  if negb hasValidKind then
    mkCondition ListenerConditionResolvedRefs ConditionFalse generation now ListenerReasonInvalidRouteKinds listenerMsgNoSupportedRouteKinds
  else if hasInvalidKind then
    mkCondition ListenerConditionResolvedRefs ConditionFalse generation now ListenerReasonInvalidRouteKinds listenerMsgInvalidRouteKinds
  else if bool_decide (rk_Status tls = ConditionFalse) then
    mkCondition ListenerConditionResolvedRefs (rk_Status tls) generation now (rk_Reason tls) (rk_Message tls)
  else mkCondition ListenerConditionResolvedRefs ConditionTrue generation now ListenerReasonResolvedRefs msgReferencesResolved.

Record ListenerStatus := mkListenerStatus {
  lst_Name : string; lst_SupportedKinds : list RouteGroupKind; lst_AttachedRoutes : Z; lst_Conditions : list Condition }.
(** [status.addresses] holds host names only. *)
Record GatewayStatus := mkGatewayStatus {
  gs_Addresses : list string; gs_Conditions : list Condition; gs_Listeners : list ListenerStatus;
  gs_AttachedListenerSets : option Z }.
(** A Gateway as the API server stores it. *)
Record StoredGateway := mkStoredGateway {
  sg_Object : GatewayObject; sg_Deleting : bool; sg_Finalizers : list string; sg_Status : GatewayStatus }.

Section listeners.
Context {grants : GrantClient} {secrets : SecretReader} {texts : ApiText} {pem : PemReader}.

(** One round of the listener loop of [updateStatus]. *)
Definition listener_status (gateway : Gateway) (view : option gatewayListenerView) (attachedRoutes : gmap string Z)
    (generation now : Z) (listener : Listener) : ListenerStatus :=
  let '(supportedKinds, hasValidKind, hasInvalidKind) :=
    FilterSupportedKinds (l_AllowedRoutes listener) (l_Protocol listener) in
  let tls := validateTLSCertificateRefs gateway listener in
  let resolvedRefs := Gateway_buildResolvedRefsCondition generation now hasValidKind hasInvalidKind tls in
  let supportedKinds := if negb hasValidKind || negb (servableListenerProtocol (l_Protocol listener)) then [] else supportedKinds in
  let accepted := buildListenerAcceptedCondition (l_Protocol listener) generation now in
  let programmed :=
    if bool_decide (cond_Status accepted = ConditionFalse) then
      mkCondition ListenerConditionProgrammed ConditionFalse generation now ListenerReasonInvalid (cond_Message accepted)
    else if bool_decide (cond_Status resolvedRefs = ConditionFalse) then
      mkCondition ListenerConditionProgrammed ConditionFalse generation now ListenerReasonInvalid listenerMsgInvalidUnresolved
    else mkCondition ListenerConditionProgrammed ConditionTrue generation now ListenerReasonProgrammed listenerMsgProgrammed in
  let conflicted := conflictedGatewayListenerConditions view (l_Name listener) generation now resolvedRefs in
  let conditions := match conflicted with Some c => c | None => [accepted; programmed; resolvedRefs] end in
  let advisory :=
    if bool_decide (conflicted = None) && bool_decide (cond_Status accepted = ConditionTrue) &&
       hostnameCaptureRisk (l_Hostname listener) (l_AllowedRoutes listener)
    then [permissiveHostnameCondition generation now] else [] in
  mkListenerStatus (l_Name listener) supportedKinds (default 0%Z (attachedRoutes !! l_Name listener)) (conditions ++ advisory).
End listeners.

(** ** Attached routes *)

Definition refMatchesGateway (ref : ParentReference) (gateway : Gateway) (routeNamespace : string) : bool :=
  if negb (bool_decide (pref_Name ref = gw_Name gateway)) then false
  else bool_decide (default routeNamespace (pref_Namespace ref) = gw_Namespace gateway).

Definition increment (counts : gmap string Z) (name : string) : gmap string Z :=
  <[name := int32 (default 0%Z (counts !! name) + 1)]> counts.

Section counting.
Context {cluster : Cluster} {routes : RouteLists}.

Definition route_info {R} (kind : string) (route : RouteObject R) (ref : ParentReference) : RouteInfo :=
  mkRouteInfo (ro_Name route) (ro_Namespace route) (ro_Hostnames route) kind (pref_SectionName ref) (pref_Port ref).
(** The listeners one parentRef counts on. *)
Definition counted_listeners {R} (gateway : Gateway) (kind : string) (route : RouteObject R) (ref : ParentReference) : list string :=
  if negb (refMatchesGateway ref gateway (ro_Namespace route)) then []
  else match ValidateBinding gateway (route_info kind route ref) with
       | Err _ => []
       | Ok result => if negb (br_Accepted result) then [] else br_MatchedListeners result
       end.
Definition count_route {R} (gateway : Gateway) (kind : string) (counts : gmap string Z) (route : RouteObject R) : gmap string Z :=
  foldl (fun counts ref => foldl increment counts (counted_listeners gateway kind route ref)) counts (ro_ParentRefs route).
Definition count_routes {R} (gateway : Gateway) (kind : string) (list : option (list (RouteObject R))) (counts : gmap string Z)
    : gmap string Z :=
  match list with
  | None => counts
  | Some items => foldl (count_route gateway kind) counts items
  end.
Definition countAttachedRoutes (gateway : Gateway) : gmap string Z :=
  let result := foldl (fun m l => <[l_Name l := 0%Z]> m) ∅ (gw_Listeners gateway) in
  count_routes gateway KindGRPCRoute all_grpcRoutes (count_routes gateway KindHTTPRoute all_httpRoutes result).
End counting.

(** ** Attached ListenerSets *)

Definition clampedInt32Pointer (count : Z) : option Z := Some (int32 (Z.min count MaxInt32)).

Section attached.
Context {grants : GrantClient} {secrets : SecretReader} {texts : ApiText} {pem : PemReader} {views : ListenerViews}.

Definition listenerSetEntriesAccepted (listenerSet : ListenerSet) (merged : list MergedListener) : bool :=
  existsb (fun entry =>
    if match findMergedEntry merged listenerSet (l_Name entry) with
       | Some m => negb (bool_decide (ml_ConflictReason m = ""))
       | None => false
       end then false
    else match resolveListenerEntryRefs listenerSet entry with
         | Err _ => false
         | Ok check => negb (bool_decide (rk_Status check = ConditionFalse))
         end) (ls_Listeners listenerSet).
(** [None] when the view could not be built. *)
Definition summariseAttachedListenerSets (gateway : GatewayObject) : option Z :=
  match gateway_view gateway with
  | None => None
  | Some view =>
      Some (Z.of_nat (length (List.filter (fun ls => listenerSetEntriesAccepted (lso_Set ls) (view_merged view))
                                (view_acceptedSets view))))
  end.
End attached.

(** ** Conditions of the Gateway *)

Definition GatewayConditionAccepted : string := "Accepted".
Definition GatewayConditionProgrammed : string := "Programmed".
Definition GatewayReasonListenersNotValid : string := "ListenersNotValid".
Definition GatewayReasonInvalidParameters : string := "InvalidParameters".
Definition msgGatewayAccepted : string := "Gateway accepted by cloudflare-tunnel controller".
Definition maxConditionMessageLength : nat := 256.
Definition truncateMessage (msg : string) : string := truncateUTF8 msg maxConditionMessageLength.

Definition gatewayUnsupportedProtocolListeners (listeners : list Listener) : bool * bool :=
  if length listeners =? 0 then (false, false)
  else
    let unsupported := length (List.filter (fun l => negb (servableListenerProtocol (l_Protocol l))) listeners) in
    (0 <? unsupported, unsupported =? length listeners).
Definition gatewayAcceptedCondition (view : option gatewayListenerView) (gateway : GatewayObject) (now : Z) : Condition :=
  let generation := go_Generation gateway in
  let '(conflictMsg, conflicted) := gatewayConflictedListenersMessage view in
  if (conflicted : bool) then
    mkCondition GatewayConditionAccepted ConditionFalse generation now GatewayReasonListenersNotValid conflictMsg
  else
    let '(anyUnsupported, allUnsupported) := gatewayUnsupportedProtocolListeners (gw_Listeners (go_Gateway gateway)) in
    if (anyUnsupported : bool) then
      mkCondition GatewayConditionAccepted (if (allUnsupported : bool) then ConditionFalse else ConditionTrue) generation now
        GatewayReasonListenersNotValid
        ("one or more listeners use a protocol this controller does not serve " +:+ "(only HTTP and HTTPS are supported)")
    else mkCondition GatewayConditionAccepted ConditionTrue generation now "Accepted" msgGatewayAccepted.

Section programmed.
Context {hash : Sha256} {deployments : DeploymentReader} {texts : StatusText}.
Definition perGatewayProgrammedCondition (gateway : GatewayObject) (now : Z) : Condition :=
  let ns := gw_Namespace (go_Gateway gateway) in
  let name := DeploymentName (gw_Name (go_Gateway gateway)) in
  let pending := mkCondition GatewayConditionProgrammed ConditionFalse (go_Generation gateway) now "Pending" in
  match read_deployment ns name with
  | NotFound => pending "Per-Gateway proxy deployment not yet created"
  | Unavailable => pending (truncateMessage ("Failed to read per-Gateway proxy deployment: " +:+ deployment_error ns name))
  | Found readyReplicas =>
      if (1 <=? readyReplicas)%Z then
        mkCondition GatewayConditionProgrammed ConditionTrue (go_Generation gateway) now "Programmed"
          "Per-Gateway proxy deployment has ready replicas"
      else pending "Per-Gateway proxy deployment has no ready replicas yet"
  end.
End programmed.

Definition gatewayStatusStale (reconciledGen : Z) (gateway : StoredGateway) : bool :=
  if ownedConditionsStale (gs_Conditions (sg_Status gateway)) reconciledGen
       [GatewayConditionAccepted; GatewayConditionProgrammed; GatewayConditionResolvedRefs] then true
  else statusGenerationStale reconciledGen (lst_Conditions <$> gs_Listeners (sg_Status gateway)).

(** ** The write *)

Definition cfArgotunnelSuffix : string := ".cfargotunnel.com".
Definition configErrorRequeueDelay : Z := 30000.
Definition legacyCloudflaredFinalizer : string := "cloudflare-tunnel.gateway.networking.k8s.io/cloudflared".

Definition GatewayWrite : Type := StatusWrite StoredGateway.
Definition GatewayAttempt : Type := StatusAttempt StoredGateway.
Definition with_status (g : StoredGateway) (status : GatewayStatus) : StoredGateway :=
  mkStoredGateway (sg_Object g) (sg_Deleting g) (sg_Finalizers g) status.

Section status.
Context {cluster : Cluster} {routes : RouteLists} {views : ListenerViews} {grants : GrantClient} {secrets : SecretReader}.
Context {texts : ApiText} {pem : PemReader} {x509 : X509} {hash : Sha256} {deployments : DeploymentReader} {stexts : StatusText}.

Definition client_cert_error (gateway : GatewayObject) : option CertError :=
  match loadGatewayClientCertPEM checkSecretReferenceGrant gateway with Err e => Some e | Ok _ => None end.

Definition resolved_status (cfg : ResolvedConfig) (perGatewayMode : bool) (fresh : StoredGateway) (now : Z) : GatewayStatus :=
  let gateway := sg_Object fresh in
  let generation := go_Generation gateway in
  let view := gateway_view gateway in
  let attachedRoutes := countAttachedRoutes (go_Gateway gateway) in
  let attachedCount := default 0%Z (summariseAttachedListenerSets gateway) in
  let accepted := gatewayAcceptedCondition view gateway now in
  let programmed :=
    if perGatewayMode then perGatewayProgrammedCondition gateway now
    else mkCondition GatewayConditionProgrammed ConditionTrue generation now "Programmed" "Gateway programmed in Cloudflare Tunnel" in
  mkGatewayStatus
    [rc_TunnelID cfg +:+ cfArgotunnelSuffix]
    (applyGatewayConditions now (gs_Conditions (sg_Status fresh)) [accepted; programmed]
       (buildClientCertResolvedRefsCondition cert_error generation now (client_cert_error gateway)))
    (listener_status (go_Gateway gateway) view attachedRoutes generation now <$> gw_Listeners (go_Gateway gateway))
    (clampedInt32Pointer attachedCount).
Definition Gateway_updateStatus (gateway : StoredGateway) (cfg : ResolvedConfig) (perGatewayMode : bool)
    (attempts : nat -> GatewayAttempt) : res WriteError GatewayWrite :=
  write_status (gatewayStatusStale (go_Generation (sg_Object gateway)))
    (fun fresh now => with_status fresh (resolved_status cfg perGatewayMode fresh now)) attempts.

Definition config_error_status (configErr : string) (fresh : StoredGateway) (now : Z) : GatewayStatus :=
  let gateway := sg_Object fresh in
  let generation := go_Generation gateway in
  let errMsg := truncateMessage ("Failed to resolve Gateway configuration: " +:+ configErr) in
  mkGatewayStatus []
    (applyGatewayConditions now (gs_Conditions (sg_Status fresh))
       [mkCondition GatewayConditionAccepted ConditionFalse generation now GatewayReasonInvalidParameters errMsg;
        mkCondition GatewayConditionProgrammed ConditionFalse generation now "Invalid" errMsg]
       (buildClientCertResolvedRefsCondition cert_error generation now (client_cert_error gateway)))
    [] (gs_AttachedListenerSets (sg_Status fresh)).
Definition setConfigErrorStatus (gateway : StoredGateway) (configErr : string) (attempts : nat -> GatewayAttempt)
    : res WriteError GatewayWrite :=
  write_status (gatewayStatusStale (go_Generation (sg_Object gateway)))
    (fun fresh now => with_status fresh (config_error_status configErr fresh now)) attempts.
End status.

(** ** The class of a Gateway ([mappers.go]) *)

Inductive gatewayClassState := gatewayClassManaged | gatewayClassForeign | gatewayClassUnknown.
(** The state and whether the read failed. *)
Definition classifyGatewayClass {gateways : GatewayReader} (gateway : GatewayObject) (controllerName : string)
    : gatewayClassState * bool :=
  match read_class (go_ClassName gateway) with
  | NotFound => (gatewayClassUnknown, false)
  | Unavailable => (gatewayClassUnknown, true)
  | Found class =>
      if bool_decide (gc_ControllerName class = controllerName) then (gatewayClassManaged, false) else (gatewayClassForeign, false)
  end.
Definition isGatewayManagedByController {gateways : GatewayReader} (gateway : GatewayObject) (controllerName : string) : bool :=
  match classifyGatewayClass gateway controllerName with
  | (gatewayClassManaged, false) => true
  | _ => false
  end.

(** ** One reconcile *)

Inductive GatewayError := errGetGateway | errRemoveFinalizer | errGatewayConfig (e : ConfigError) | errGatewayStatus (e : WriteError).
(** What a reconcile did: the view store forgot the Gateway, the finalizer was
    stripped, a status was written, with the delay of a requeue in milliseconds. *)
Inductive GatewayAction :=
| gateway_untouched
| gateway_forgotten
| gateway_finalizer_removed (after : StoredGateway)
| gateway_status (write : GatewayWrite)
| gateway_config_failed (write : res WriteError GatewayWrite) (requeue : Z).

Section reconcile.
Context {cluster : Cluster} {routes : RouteLists} {views : ListenerViews} {grants : GrantClient} {secrets : SecretReader}.
Context {texts : ApiText} {pem : PemReader} {x509 : X509} {hash : Sha256} {deployments : DeploymentReader} {stexts : StatusText}.
Context {reader : ConfigReader} {decoder : TokenDecoder} {gateways : GatewayReader}.
Context (controllerName proxyImage defaultNamespace : string).

Definition no_proxy_image : ConfigError := ErrInvalidParameters.
(** The configuration and whether the Gateway has its own data plane. *)
Definition resolveGatewayConfig (gateway : GatewayObject) : res ConfigError (ResolvedConfig * bool) :=
  perGateway ← resolveStatusConfig defaultNamespace gateway;
  match perGateway with
  | Some p =>
      if bool_decide (gcfg_Image (pg_GatewayConfig p) = "") && bool_decide (proxyImage = "") then Err no_proxy_image
      else Ok (pg_Resolved p, true)
  | None =>
      classConfig ← ResolveFromGatewayClassName defaultNamespace (go_ClassName gateway);
      Ok (classConfig, false)
  end.

(** [update_ok]: whether the API server takes the update that strips the finalizer. *)
Definition Gateway_Reconcile (read : Lookup StoredGateway) (update_ok : bool) (attempts : nat -> GatewayAttempt)
    : res GatewayError GatewayAction :=
  match read with
  | NotFound => Ok gateway_forgotten
  | Unavailable => Err errGetGateway
  | Found gateway =>
      if sg_Deleting gateway && bool_decide (legacyCloudflaredFinalizer ∈ sg_Finalizers gateway) then
        if update_ok then
          Ok (gateway_finalizer_removed
                (mkStoredGateway (sg_Object gateway) true
                   (List.filter (fun f => negb (bool_decide (f = legacyCloudflaredFinalizer))) (sg_Finalizers gateway))
                   (sg_Status gateway)))
        else Err errRemoveFinalizer
      else if negb (isGatewayManagedByController (sg_Object gateway) controllerName) then Ok gateway_untouched
      else if sg_Deleting gateway then Ok gateway_untouched
      else
        match resolveGatewayConfig (sg_Object gateway) with
        | Err err =>
            let invalid := match err with ErrInvalidParameters => true | _ => false end in
            if HasInfrastructureParametersRef (sg_Object gateway) && negb invalid then Err (errGatewayConfig err)
            else Ok (gateway_config_failed (setConfigErrorStatus gateway (config_error err) attempts) configErrorRequeueDelay)
        | Ok (resolvedConfig, perGatewayMode) =>
            match Gateway_updateStatus gateway resolvedConfig perGatewayMode attempts with
            | Err e => Err (errGatewayStatus e)
            | Ok w => Ok (gateway_status w)
            end
        end
  end.
End reconcile.

(** ** Route kinds *)

Lemma FilterSupportedKinds_spec allowed protocol :
  let kinds := getAllowedKinds allowed protocol in
  FilterSupportedKinds allowed protocol =
  (List.filter supported_kind kinds, existsb supported_kind kinds,
   (0 <? length (explicit_kinds allowed)) && existsb (fun k => negb (supported_kind k)) kinds).
Proof.
  intros kinds. unfold FilterSupportedKinds. set (explicit := 0 <? length (explicit_kinds allowed)). fold kinds.
  set (step := fun '(supported, hasInvalid) kind => _).
  assert (Hfold : forall ks acc bad, foldl step (acc, bad) ks =
    (acc ++ List.filter supported_kind ks, bad || explicit && existsb (fun k => negb (supported_kind k)) ks)).
  { induction ks as [|k ks IH]; intros acc bad; cbn [foldl List.filter existsb]; [by rewrite app_nil_r, andb_false_r, orb_false_r|].
    unfold step at 2. destruct (supported_kind k); [by rewrite IH, <-(assoc_L (++))|]. cbn [negb orb].
    destruct explicit; rewrite IH; [by rewrite orb_true_r|done]. }
  rewrite Hfold. cbn. do 2 f_equal. clear. induction kinds as [|k ks IH]; cbn; [done|]. by destruct (supported_kind k).
Qed.
(** Every listed kind is one this controller serves, and there is one. *)
Definition kinds_served (listener : Listener) : Prop :=
  (exists k, k ∈ getAllowedKinds (l_AllowedRoutes listener) (l_Protocol listener) /\ supported_kind k = true) /\
  (forall k, k ∈ explicit_kinds (l_AllowedRoutes listener) -> supported_kind k = true).
Lemma kinds_served_spec listener :
  let '(_, valid, invalid) := FilterSupportedKinds (l_AllowedRoutes listener) (l_Protocol listener) in
  valid = true /\ invalid = false <-> kinds_served listener.
Proof.
  rewrite FilterSupportedKinds_spec. unfold kinds_served. set (kinds := getAllowedKinds _ _).
  rewrite existsb_exists. setoid_rewrite <-list_elem_of_In. apply and_iff_compat_l.
  rewrite andb_false_iff, Nat.ltb_ge, <-not_true_iff_false, existsb_exists. setoid_rewrite <-list_elem_of_In.
  unfold kinds, getAllowedKinds. destruct (explicit_kinds (l_AllowedRoutes listener)) as [|k ks] eqn:He; cbn [length].
  - split; [intros _ k Hk; by apply elem_of_nil in Hk|intros _; left; lia].
  - change (0 <? S (length ks)) with true. cbn iota. split.
    + intros [?|H] k' Hk'; [lia|]. destruct (supported_kind k') eqn:Hs; [done|]. destruct H. exists k'. by rewrite Hs.
    + intros H. right. intros (k' & Hk' & Hs%negb_true_iff). by rewrite (H k' Hk') in Hs.
Qed.

(** ** Listener statuses are exact *)

(** With one condition per type, a condition is True exactly when the one found is. *)
Lemma is_true_find conditions type :
  NoDup (cond_Type <$> conditions) ->
  is_true_condition type conditions <-> cond_Status <$> FindStatusCondition conditions type = Some ConditionTrue.
Proof.
  unfold is_true_condition, FindStatusCondition. induction conditions as [|c cs IH]; intros Hnd; cbn.
  - split; [by intros (? & ?%elem_of_nil & _)|done].
  - apply NoDup_cons in Hnd as [Hn Hnd]. setoid_rewrite elem_of_cons. case_bool_decide as Ht; cbn.
    + split; [|intros [= Hs]; eauto]. intros (d & [->|Hd] & Hdt & Hs); [by f_equal|]. destruct Hn. rewrite Ht, <-Hdt.
      by apply list_elem_of_fmap_2.
    + rewrite <-IH by done. split; [intros (d & [->|Hd] & ? & ?); [done|]|intros (d & ? & ? & ?)]; eauto.
Qed.

Definition servable (listener : Listener) : Prop := l_Protocol listener = "HTTP" \/ l_Protocol listener = "HTTPS".
Lemma servable_spec listener : servableListenerProtocol (l_Protocol listener) = true <-> servable listener.
Proof. unfold servableListenerProtocol, servable. by rewrite orb_true_iff, !bool_decide_eq_true. Qed.
(** The merged view found the Gateway's listener in conflict. *)
Definition in_conflict (view : option gatewayListenerView) (listener : Listener) : Prop :=
  exists v, view = Some v /\ gatewayListenerConflictReason v (l_Name listener) <> "".

Lemma conflicted_conditions view name g t refs :
  match conflictedGatewayListenerConditions view name g t refs with
  | Some cs => (exists v, view = Some v /\ gatewayListenerConflictReason v name <> "") /\
               exists entry, cs = conflictedEntryConditions g t entry refs
  | None => ~ exists v, view = Some v /\ gatewayListenerConflictReason v name <> ""
  end.
Proof.
  unfold conflictedGatewayListenerConditions, gatewayListenerConflictReason. destruct view as [v|]; [|by intros (? & ? & _)].
  destruct (findMergedGatewayEntry (view_merged v) name) as [e|] eqn:He; cbn.
  - case_bool_decide as Hc.
    + intros (v' & [= <-] & Hv). rewrite He in Hv. done.
    + split; [exists v|by eexists]. rewrite He. done.
  - intros (v' & [= <-] & Hv). rewrite He in Hv. done.
Qed.

Section listener_spec.
Context {grants : GrantClient} {secrets : SecretReader} {texts : ApiText} {pem : PemReader}.

(** The references of a listener resolve. *)
Definition refs_served (namespace : string) (listener : Listener) : Prop :=
  kinds_served listener /\ Forall (usable kindGateway namespace) (l_CertificateRefs listener).

Lemma resolved_refs_condition gateway listener g t :
  let '(_, valid, invalid) := FilterSupportedKinds (l_AllowedRoutes listener) (l_Protocol listener) in
  let c := Gateway_buildResolvedRefsCondition g t valid invalid (validateTLSCertificateRefs gateway listener) in
  cond_Type c = ListenerConditionResolvedRefs /\ cond_ObservedGeneration c = g /\
  exists b, cond_Status c = condition_status b /\ (b = true <-> refs_served (gw_Namespace gateway) listener).
Proof.
  pose proof (kinds_served_spec listener) as Hk. pose proof (validateTLSCertificateRefs_decides gateway listener) as Hd.
  destruct (FilterSupportedKinds _ _) as [[kinds valid] invalid]. unfold refs_served. cbn iota in Hk. cbn iota. setoid_rewrite <-Hk. cbn zeta.
  unfold Gateway_buildResolvedRefsCondition. destruct valid; cbn [negb].
  2: { split_and!; [done..|]. exists false. split; [done|]. by split; [|intros [[??]?]]. }
  destruct invalid. { split_and!; [done..|]. exists false. split; [done|]. by split; [|intros [[??]?]]. }
  destruct Hd as [[Hs Hp]|[Hs Hp]]; rewrite Hs; cbn.
  - split_and!; [done..|]. by exists true.
  - split_and!; [done..|]. exists false. split; [done|]. by split; [|intros [[??]?]].
Qed.

(** The three conditions of a listener without conflict, and the advisory one. *)
Definition plain_conditions (g t : Z) (listener : Listener) (refs : Condition) (advise : bool) : list Condition :=
  let accepted := buildListenerAcceptedCondition (l_Protocol listener) g t in
  [accepted;
   (if bool_decide (cond_Status accepted = ConditionFalse) then
      mkCondition ListenerConditionProgrammed ConditionFalse g t ListenerReasonInvalid (cond_Message accepted)
    else if bool_decide (cond_Status refs = ConditionFalse) then
      mkCondition ListenerConditionProgrammed ConditionFalse g t ListenerReasonInvalid listenerMsgInvalidUnresolved
    else mkCondition ListenerConditionProgrammed ConditionTrue g t ListenerReasonProgrammed listenerMsgProgrammed);
   refs] ++ (if advise then [permissiveHostnameCondition g t] else []).
Definition listener_conditions_exact (g : Z) (conditions : list Condition) (serves conflict refs advise : Prop) : Prop :=
  NoDup (cond_Type <$> conditions) /\ Forall (fun c => cond_ObservedGeneration c = g) conditions /\
  (is_true_condition ListenerConditionAccepted conditions <-> serves /\ ~ conflict) /\
  (is_true_condition ListenerConditionProgrammed conditions <-> serves /\ ~ conflict /\ refs) /\
  (is_true_condition ListenerConditionResolvedRefs conditions <-> refs) /\
  (is_true_condition ListenerConditionConflicted conditions <-> conflict) /\
  (is_true_condition listenerConditionPermissiveHostname conditions <-> serves /\ ~ conflict /\ advise).

Lemma plain_exact g t listener refs advise b :
  cond_Type refs = ListenerConditionResolvedRefs -> cond_ObservedGeneration refs = g -> cond_Status refs = condition_status b ->
  let serves := servableListenerProtocol (l_Protocol listener) in
  listener_conditions_exact g (plain_conditions g t listener refs (serves && advise)) (serves = true) False (b = true) (advise = true).
Proof.
  intros Ht Hg Hs serves. destruct refs as [type status gen time reason msg]. cbn in Ht, Hg, Hs. subst type status gen.
  unfold listener_conditions_exact, plain_conditions, buildListenerAcceptedCondition. fold serves.
  set (conditions := _ ++ _). assert (Hnd : NoDup (cond_Type <$> conditions)).
  { subst conditions. by destruct serves, b, advise; apply (bool_decide_unpack _); vm_compute. }
  rewrite !is_true_find by done. clear Hnd. subst conditions.
  destruct serves, b, advise; split_and!; try (by repeat constructor); try (by apply (bool_decide_unpack _); vm_compute);
    vm_compute; (split; [|]); try tauto; try (intros [=]); intuition discriminate.
Qed.
Lemma conflict_exact g t entry refs b advise (serves : Prop) :
  cond_Type refs = ListenerConditionResolvedRefs -> cond_ObservedGeneration refs = g -> cond_Status refs = condition_status b ->
  listener_conditions_exact g (conflictedEntryConditions g t entry refs) serves True (b = true) advise.
Proof.
  intros Ht Hg Hs. destruct refs as [type status gen time reason msg]. cbn in Ht, Hg, Hs. subst type status gen.
  unfold listener_conditions_exact, conflictedEntryConditions. set (conditions := [_; _; _; _]).
  assert (Hnd : NoDup (cond_Type <$> conditions)) by (by apply (bool_decide_unpack _); vm_compute).
  rewrite !is_true_find by done. split; [done|]. clear Hnd. subst conditions.
  destruct b; split_and!; try (by repeat constructor); vm_compute; split; try tauto; try (intros [=]); intuition discriminate.
Qed.

(** C29: The status of a Gateway's listener says exactly what holds. No condition
    type occurs twice and all carry the generation they were computed from;
    Accepted is True exactly for an HTTP or HTTPS listener without conflict;
    Programmed, if moreover its route kinds are all served, with at least one, and
    its certificates can be used; ResolvedRefs is True exactly when the latter two
    hold; Conflicted exactly when the merged view found a conflict; the hostname
    advisory stands exactly on accepted listeners open to every namespace without
    a hostname; and the supported kinds are the allowed ones this controller serves,
    none for a protocol it does not. *)
Theorem listener_status_exact (gateway : Gateway) (view : option gatewayListenerView) (counts : gmap string Z) (g t : Z)
    (listener : Listener) :
  let status := listener_status gateway view counts g t listener in
  listener_conditions_exact g (lst_Conditions status) (servable listener) (in_conflict view listener)
    (refs_served (gw_Namespace gateway) listener)
    (hostnameCaptureRisk (l_Hostname listener) (l_AllowedRoutes listener) = true) /\
  (forall k, k ∈ lst_SupportedKinds status <->
     servable listener /\ k ∈ getAllowedKinds (l_AllowedRoutes listener) (l_Protocol listener) /\ supported_kind k = true).
Proof.
  intros status. subst status. unfold listener_status. pose proof (resolved_refs_condition gateway listener g t) as Hrefs.
  pose proof (FilterSupportedKinds_spec (l_AllowedRoutes listener) (l_Protocol listener)) as Hkinds. cbn zeta in Hkinds.
  destruct (FilterSupportedKinds _ _) as [[kinds valid] invalid]. cbn zeta in Hrefs.
  destruct Hrefs as (Ht & Hg & b & Hs & Hb). set (refs := Gateway_buildResolvedRefsCondition _ _ _ _ _) in *.
  injection Hkinds as Hk Hv _. pose proof (servable_spec listener) as Hserv. split.
  - cbn [lst_Conditions]. pose proof (conflicted_conditions view (l_Name listener) g t refs) as Hc.
    destruct (conflictedGatewayListenerConditions _ _ _ _ _) as [cs|].
    + destruct Hc as (Hconf & entry & ->). rewrite bool_decide_eq_false_2 by done. cbn [andb]. rewrite app_nil_r.
      pose proof (conflict_exact g t entry refs b (hostnameCaptureRisk (l_Hostname listener) (l_AllowedRoutes listener) = true)
        (servable listener) Ht Hg Hs) as H. unfold listener_conditions_exact in *. rewrite <-Hb. unfold in_conflict. tauto.
    + rewrite (bool_decide_eq_true_2 (None = None)) by done. cbn [andb].
      pose proof (plain_exact g t listener refs (hostnameCaptureRisk (l_Hostname listener) (l_AllowedRoutes listener)) b Ht Hg Hs) as H.
      cbn zeta in H. unfold listener_conditions_exact, in_conflict in *. rewrite <-Hb, <-Hserv.
      assert (He : bool_decide (cond_Status (buildListenerAcceptedCondition (l_Protocol listener) g t) = ConditionTrue) =
        servableListenerProtocol (l_Protocol listener)).
      { unfold buildListenerAcceptedCondition. by destruct (servableListenerProtocol _). }
      rewrite He. unfold plain_conditions in H. tauto.
  - intros k. cbn [lst_SupportedKinds]. rewrite <-Hserv. destruct (servableListenerProtocol (l_Protocol listener)).
    + destruct valid; cbn.
      * rewrite Hk, elem_of_list_filter. split; [tauto|]. tauto.
      * split; [by intros ?%elem_of_nil|]. intros (_ & Hin & Hsk). symmetry in Hv. apply not_true_iff_false in Hv as [].
        apply existsb_exists. exists k. by rewrite <-list_elem_of_In.
    + rewrite orb_true_r. split; [by intros ?%elem_of_nil|by intros [? _]].
Qed.
End listener_spec.

(** ** Counts *)

Definition occurrences (name : string) (names : list string) : nat := length (List.filter (fun n => bool_decide (n = name)) names).
Lemma occurrences_app name l1 l2 : occurrences name (l1 ++ l2) = occurrences name l1 + occurrences name l2.
Proof. unfold occurrences. by rewrite List.filter_app, length_app. Qed.

Lemma int32_step z : int32 (int32 z + 1) = int32 (z + 1).
Proof.
  unfold int32, wrap. f_equal. change (2 ^ (32 - 1))%Z with 2147483648%Z. change (2 ^ 32)%Z with 4294967296%Z.
  replace (((z + 2147483648) mod 4294967296 - 2147483648 + 1 + 2147483648))%Z with ((z + 2147483648) mod 4294967296 + 1)%Z by lia.
  rewrite Zplus_mod_idemp_l. f_equal. lia.
Qed.
Lemma increments counts names name z :
  counts !! name = Some (int32 z) ->
  foldl increment counts names !! name = Some (int32 (z + Z.of_nat (occurrences name names))).
Proof.
  revert counts z. induction names as [|n names IH]; intros counts z Hc; cbn [foldl]; [by rewrite Hc, Z.add_0_r|].
  unfold occurrences. cbn [List.filter]. fold (occurrences name names). case_bool_decide as Hn.
  - subst n. rewrite (IH _ (z + 1)%Z).
    + cbn [length]. f_equal. f_equal. unfold occurrences. lia.
    + unfold increment. rewrite Hc. cbn. rewrite lookup_insert_eq. f_equal. apply int32_step.
  - rewrite (IH _ z); [done|]. unfold increment. by rewrite lookup_insert_ne.
Qed.
Lemma foldl_bind {A B C} (f : C -> B -> C) (g : A -> list B) (l : list A) c :
  foldl (fun c a => foldl f c (g a)) c l = foldl f c (l ≫= g).
Proof. revert c. induction l as [|a l IH]; intros c; cbn; [done|]. by rewrite foldl_app, IH. Qed.

Lemma zeroed (entries : list Listener) entry (m : gmap string Z) :
  m !! l_Name entry = Some 0%Z \/ entry ∈ entries ->
  foldl (fun m l => <[l_Name l := 0%Z]> m) m entries !! l_Name entry = Some 0%Z.
Proof.
  revert m. induction entries as [|l ls IH]; intros m [Hm|Hin]; cbn.
  - done.
  - by apply elem_of_nil in Hin.
  - apply IH. left. destruct (decide (l_Name l = l_Name entry)) as [->|]; [by rewrite lookup_insert_eq|by rewrite lookup_insert_ne].
  - apply elem_of_cons in Hin as [<-|Hin]; apply IH; [left; by rewrite lookup_insert_eq|by right].
Qed.

Section counts.
Context {cluster : Cluster} {routes : RouteLists}.

(** How often the routes of a kind attach to the listener named [name]: once per
    parentRef that names the Gateway and binds to it. *)
Definition attachments {R} (gateway : Gateway) (kind : string) (items : option (list (RouteObject R))) (name : string) : nat :=
  occurrences name (default [] items ≫= fun route => ro_ParentRefs route ≫= counted_listeners gateway kind route).
Lemma count_routes_flat {R} gateway kind (items : option (list (RouteObject R))) counts :
  count_routes gateway kind items counts =
  foldl increment counts (default [] items ≫= fun route => ro_ParentRefs route ≫= counted_listeners gateway kind route).
Proof.
  destruct items as [items|]; cbn; [|done]. rewrite <-(foldl_bind increment).
  revert counts. induction items as [|r items IH]; intros counts; cbn; [done|]. rewrite IH. f_equal. unfold count_route. apply foldl_bind.
Qed.

(** The count of a listener is the number of parentRefs that bind a route to it,
    as a 32-bit integer. *)
Lemma attached_routes_counted gateway listener :
  listener ∈ gw_Listeners gateway ->
  countAttachedRoutes gateway !! l_Name listener =
  Some (int32 (Z.of_nat (attachments gateway KindHTTPRoute all_httpRoutes (l_Name listener) +
                         attachments gateway KindGRPCRoute all_grpcRoutes (l_Name listener)))).
Proof.
  intros Hl. unfold countAttachedRoutes. rewrite !count_routes_flat.
  assert (Hz : foldl (fun m l => <[l_Name l := 0%Z]> m) (∅ : gmap string Z) (gw_Listeners gateway) !! l_Name listener = Some (int32 0))
    by exact (zeroed _ _ _ (or_intror Hl)).
  erewrite increments by (by apply increments). unfold attachments. f_equal. f_equal. lia.
Qed.
End counts.

(** A route with two parentRefs on one listener counts twice, and a parentRef of
    kind ListenerSet counts on the Gateway of the same name. *)
Definition counting_cluster : Cluster := {| LabelSelectorAsSelector _ := None; namespace_labels _ := None |}.
Definition counted_gateway : Gateway := mkGateway "edge" "prod" [mkListener "web" None 80 "HTTP" None []] None.
Definition route_to (refs : list ParentReference) : RouteLists := {|
  all_httpRoutes := Some [mkRouteObject "prod" "app" 0 [] refs []]; all_grpcRoutes := Some [] |}.
Lemma route_counted_twice :
  let ref section := mkParentReference None None None "edge" section None in
  @countAttachedRoutes counting_cluster (route_to [ref None; ref (Some "web")]) counted_gateway !! "web" = Some 2%Z.
Proof. by vm_compute. Qed.
Lemma listenerset_ref_counted :
  @countAttachedRoutes counting_cluster (route_to [mkParentReference None (Some kindListenerSet) None "edge" None None]) counted_gateway
    !! "web" = Some 1%Z.
Proof. by vm_compute. Qed.

(** ** The Gateway's own conditions *)

Lemma unsupported_spec listeners :
  gatewayUnsupportedProtocolListeners listeners =
  (existsb (fun l => negb (servableListenerProtocol (l_Protocol l))) listeners,
   (0 <? length listeners) && forallb (fun l => negb (servableListenerProtocol (l_Protocol l))) listeners).
Proof.
  unfold gatewayUnsupportedProtocolListeners. set (bad := fun l => negb (servableListenerProtocol (l_Protocol l))).
  assert (Hle : forall ls, length (List.filter bad ls) <= length ls) by (induction ls as [|l ls IH]; cbn; [|destruct (bad l); cbn]; lia).
  destruct listeners as [|l ls]; [done|]. change (length (l :: ls) =? 0) with false. change (0 <? length (l :: ls)) with true. cbn iota.
  generalize (l :: ls). intros all. cbn [andb]. f_equal.
  - induction all as [|x all IH]; cbn; [done|]. by destruct (bad x).
  - induction all as [|x all IH]; cbn; [done|]. destruct (bad x); cbn; [exact IH|]. apply Nat.eqb_neq. specialize (Hle all). lia.
Qed.
(** One of the Gateway's own listeners is in conflict. *)
Definition own_conflict (view : option gatewayListenerView) : Prop :=
  exists v e, view = Some v /\ e ∈ view_merged v /\ is_gateway_entry e = true /\ ml_ConflictReason e <> "".
Lemma conflict_message_spec view : (gatewayConflictedListenersMessage view).2 = true <-> own_conflict view.
Proof.
  unfold gatewayConflictedListenersMessage, own_conflict. destruct view as [v|]; [|by split; [|intros (? & ? & ? & _)]].
  set (bad := fun e => _ && _). assert (Hbad : forall e, bad e = true <-> is_gateway_entry e = true /\ ml_ConflictReason e <> "").
  { intros e. unfold bad. by rewrite andb_true_iff, negb_true_iff, bool_decide_eq_false. }
  rewrite length_fmap. destruct (List.filter bad (view_merged v)) as [|e es] eqn:Hf; cbn.
  - split; [done|]. intros (v' & e & [= <-] & He & Hg & Hr).
    assert (e ∈ List.filter bad (view_merged v)) as Hin by (apply elem_of_list_filter; by rewrite Hbad).
    rewrite Hf in Hin. by apply elem_of_nil in Hin.
  - split; [|done]. intros _. assert (e ∈ List.filter bad (view_merged v)) as Hin by (rewrite Hf; by left).
    apply elem_of_list_filter in Hin as [He [? ?]%Hbad]. eauto 10.
Qed.
(** Accepted is False exactly on a conflict among the Gateway's own listeners, or
    when it has listeners and none of them can be served. *)
Lemma gateway_accepted_status view gateway now :
  cond_Status (gatewayAcceptedCondition view gateway now) = ConditionTrue <->
  ~ own_conflict view /\ (gw_Listeners (go_Gateway gateway) = [] \/ exists l, l ∈ gw_Listeners (go_Gateway gateway) /\ servable l).
Proof.
  rewrite <-conflict_message_spec. unfold gatewayAcceptedCondition. destruct (gatewayConflictedListenersMessage view) as [msg conflicted].
  cbn [snd]. destruct conflicted; [by split; [|intros [[] _]]|]. rewrite unsupported_spec. set (ls := gw_Listeners _).
  set (bad := fun l => negb (servableListenerProtocol (l_Protocol l))).
  assert (Hall : forallb bad ls = false <-> exists l, l ∈ ls /\ servable l).
  { rewrite <-not_true_iff_false, forallb_forall. setoid_rewrite <-list_elem_of_In. setoid_rewrite <-servable_spec. split.
    - intros H. destruct (existsb (fun l => negb (bad l)) ls) eqn:He.
      + apply existsb_exists in He as (l & Hl%list_elem_of_In & Hb). exists l. split; [done|]. unfold bad in Hb. by rewrite negb_involutive in Hb.
      + destruct H. intros l Hl. apply not_false_iff_true. intros Hb. apply not_true_iff_false in He as []. apply existsb_exists.
        exists l. rewrite <-list_elem_of_In, Hb. done.
    - intros (l & Hl & Hs) H. specialize (H l Hl). unfold bad in H. by rewrite Hs in H. }
  destruct ls as [|l ls'] eqn:El; [cbn; split; [auto|done]|]. change (0 <? length (l :: ls')) with true. cbn [andb].
  destruct (existsb bad (l :: ls')) eqn:He.
  - destruct (forallb bad (l :: ls')) eqn:Hf; cbn; [|split; [intros _; split; [done|right; by apply Hall]|done]]. split; [done|]. intros [_ [?|Hx%Hall]]; [done|congruence].
  - cbn. split; [|done]. intros _. split; [done|]. right. apply Hall. apply not_true_iff_false. intros Hf.
    cbn in He, Hf. by destruct (bad l).
Qed.

(** ** What a reconcile writes *)

Definition gateway_owned : list string := [GatewayConditionAccepted; GatewayConditionProgrammed; GatewayConditionResolvedRefs].
(** Nothing this controller wrote is from a generation after [gen]. *)
Definition gateway_not_ahead (gen : Z) (g : StoredGateway) : Prop :=
  (forall type c, type ∈ gateway_owned -> FindStatusCondition (gs_Conditions (sg_Status g)) type = Some c -> (cond_ObservedGeneration c <= gen)%Z) /\
  (forall l c, l ∈ gs_Listeners (sg_Status g) -> c ∈ lst_Conditions l -> (cond_ObservedGeneration c <= gen)%Z).
Lemma generations_stale gen sets :
  statusGenerationStale gen sets = false <-> forall s c, s ∈ sets -> c ∈ s -> (cond_ObservedGeneration c <= gen)%Z.
Proof.
  unfold statusGenerationStale. rewrite <-not_true_iff_false, existsb_exists. setoid_rewrite <-list_elem_of_In. split.
  - intros H s c Hs Hc. apply Znot_gt_le. intros Hg. destruct H. exists s. split; [done|]. apply existsb_exists. exists c.
    rewrite <-list_elem_of_In. split; [done|]. apply Z.ltb_lt. lia.
  - intros H (s & Hs & (c & Hc%list_elem_of_In & Hg%Z.ltb_lt)%existsb_exists). specialize (H s c Hs Hc). lia.
Qed.
Lemma owned_stale stored gen types :
  ownedConditionsStale stored gen types = false <->
  forall type c, type ∈ types -> FindStatusCondition stored type = Some c -> (cond_ObservedGeneration c <= gen)%Z.
Proof.
  unfold ownedConditionsStale. rewrite <-not_true_iff_false, existsb_exists. setoid_rewrite <-list_elem_of_In. split.
  - intros H type c Ht Hf. apply Znot_gt_le. intros Hg. destruct H. exists type. split; [done|]. rewrite Hf. apply Z.ltb_lt. lia.
  - intros H (type & Ht & Hf). destruct (FindStatusCondition stored type) as [c|] eqn:E; [|done]. specialize (H type c Ht E).
    apply Z.ltb_lt in Hf. lia.
Qed.
Lemma gateway_stale_spec gen g : gatewayStatusStale gen g = false <-> gateway_not_ahead gen g.
Proof.
  unfold gatewayStatusStale, gateway_not_ahead. fold gateway_owned. rewrite <-owned_stale.
  destruct (ownedConditionsStale _ _ _); [by split; [|intros []]|]. rewrite generations_stale. setoid_rewrite list_elem_of_fmap.
  split; [intros H; split; [done|]; intros l c Hl Hc; eapply H; eauto|]. intros [_ H] s c (l & -> & Hl) Hc. eauto.
Qed.

(** One of the controller's own conditions, on the Gateway or on a listener, is from a later generation. *)
Definition gateway_ahead (gen : Z) (g : StoredGateway) : Prop :=
  (exists type c, type ∈ gateway_owned /\ FindStatusCondition (gs_Conditions (sg_Status g)) type = Some c /\
     (gen < cond_ObservedGeneration c)%Z) \/
  (exists l c, l ∈ gs_Listeners (sg_Status g) /\ c ∈ lst_Conditions l /\ (gen < cond_ObservedGeneration c)%Z).
Lemma gateway_stale_ahead gen g : gatewayStatusStale gen g = true <-> gateway_ahead gen g.
Proof.
  unfold gatewayStatusStale, gateway_ahead. fold gateway_owned. unfold ownedConditionsStale, statusGenerationStale.
  set (P := existsb _ gateway_owned).
  assert (HP : P = true <-> exists type c, type ∈ gateway_owned /\
    FindStatusCondition (gs_Conditions (sg_Status g)) type = Some c /\ (gen < cond_ObservedGeneration c)%Z).
  { unfold P. rewrite existsb_exists. setoid_rewrite <-list_elem_of_In. split.
    - intros (type & Ht & Hc). destruct (FindStatusCondition _ type) as [c|] eqn:Hf; [|done]. apply Z.ltb_lt in Hc. by exists type, c.
    - intros (type & c & Ht & Hf & Hlt). exists type. rewrite Hf. split; [done|]. by apply Z.ltb_lt. }
  destruct P; [split; [intros _; left; by apply HP|done]|]. rewrite existsb_exists. setoid_rewrite <-list_elem_of_In.
  setoid_rewrite list_elem_of_fmap. split.
  - intros (s & (l & -> & Hl) & (c & Hc%list_elem_of_In & Hg%Z.ltb_lt)%existsb_exists). right. by exists l, c.
  - intros [H|(l & c & Hl & Hc & Hg)]; [by apply HP in H|]. eexists. split; [by exists l|]. apply existsb_exists. exists c.
    split; [by apply list_elem_of_In|by apply Z.ltb_lt].
Qed.

(** A write keeps the object, other controllers' conditions and their order, and
    does not overwrite what was computed from a newer generation. *)
Definition write_bounded (gen : Z) (before after : StoredGateway) : Prop :=
  gateway_not_ahead gen before /\ sg_Object after = sg_Object before /\ sg_Deleting after = sg_Deleting before /\
  sg_Finalizers after = sg_Finalizers before /\
  others gateway_owned (gs_Conditions (sg_Status after)) = others gateway_owned (gs_Conditions (sg_Status before)) /\
  (NoDup (cond_Type <$> gs_Conditions (sg_Status before)) -> NoDup (cond_Type <$> gs_Conditions (sg_Status after))).
(** The stored Gateway carries a condition that reads like [c]. *)
Definition carries (g : StoredGateway) (c : Condition) : Prop :=
  exists d, FindStatusCondition (gs_Conditions (sg_Status g)) (cond_Type c) = Some d /\ same_verdict d c.

Lemma cert_condition_type text g t e c :
  buildClientCertResolvedRefsCondition text g t e = Some c -> cond_Type c = GatewayConditionResolvedRefs.
Proof. unfold buildClientCertResolvedRefsCondition. repeat case_match; by intros [= <-]. Qed.
Section applied.
Context (accepted programmed : Condition) (cert : option Condition) (now : Z) (conditions : list Condition).
Context (Ha : cond_Type accepted = GatewayConditionAccepted) (Hp : cond_Type programmed = GatewayConditionProgrammed).
Context (Hc : forall c, cert = Some c -> cond_Type c = GatewayConditionResolvedRefs).
Notation applied := (applyGatewayConditions now conditions [accepted; programmed] cert).

Lemma applied_types : NoDup (cond_Type <$> [accepted; programmed] ++ option_list cert).
Proof.
  destruct cert as [c|]; cbn; rewrite Ha, Hp; [rewrite (Hc c eq_refl)|]; by apply (bool_decide_unpack _); vm_compute.
Qed.
Lemma applied_others : others gateway_owned applied = others gateway_owned conditions.
Proof.
  apply apply_others. intros c Hin. cbn in Hin. unfold gateway_owned. destruct cert as [d|]; cbn in Hin.
  - repeat (apply elem_of_cons in Hin as [->|Hin]); [rewrite Ha|rewrite Hp|rewrite (Hc d eq_refl)|by apply elem_of_nil in Hin];
      by apply (bool_decide_unpack _); vm_compute.
  - repeat (apply elem_of_cons in Hin as [->|Hin]); [rewrite Ha|rewrite Hp|by apply elem_of_nil in Hin];
      by apply (bool_decide_unpack _); vm_compute.
Qed.
Lemma applied_find c : c ∈ [accepted; programmed] ++ option_list cert ->
  exists d, FindStatusCondition applied (cond_Type c) = Some d /\ same_verdict d c.
Proof. intros Hin. apply apply_find; [done|apply applied_types]. Qed.
End applied.

Section reconcile_spec.
Context {cluster : Cluster} {routes : RouteLists} {views : ListenerViews} {grants : GrantClient} {secrets : SecretReader}.
Context {texts : ApiText} {pem : PemReader} {x509 : X509} {hash : Sha256} {deployments : DeploymentReader} {stexts : StatusText}.

Lemma programmed_type gateway now : cond_Type (perGatewayProgrammedCondition gateway now) = GatewayConditionProgrammed.
Proof. unfold perGatewayProgrammedCondition. by repeat case_match. Qed.
Lemma accepted_type view gateway now : cond_Type (gatewayAcceptedCondition view gateway now) = GatewayConditionAccepted.
Proof. unfold gatewayAcceptedCondition. by repeat case_match. Qed.
Lemma same_verdict_time view gateway now : same_verdict (gatewayAcceptedCondition view gateway now) (gatewayAcceptedCondition view gateway 0).
Proof. unfold gatewayAcceptedCondition. repeat case_match; by split_and!. Qed.
Lemma same_verdict_trans c d e : same_verdict c d -> same_verdict d e -> same_verdict c e.
Proof. unfold same_verdict. intros (->&->&->&->&->). tauto. Qed.

(** Programmed=True means the shared tunnel, or a ready replica of the Gateway's own proxy; else the condition is pending. *)
Definition programmed_reads (perGatewayMode : bool) (before after : StoredGateway) : Prop :=
  exists c, FindStatusCondition (gs_Conditions (sg_Status after)) GatewayConditionProgrammed = Some c /\
    cond_ObservedGeneration c = go_Generation (sg_Object before) /\
    let ready := perGatewayMode = false \/ exists replicas,
      read_deployment (gw_Namespace (go_Gateway (sg_Object before))) (DeploymentName (gw_Name (go_Gateway (sg_Object before))))
        = Found replicas /\ (1 <= replicas)%Z in
    (ready -> cond_Status c = ConditionTrue /\ cond_Reason c = "Programmed") /\
    (~ ready -> cond_Status c = ConditionFalse /\ cond_Reason c = "Pending").
(** [ResolvedRefs] is the verdict on the client certificate, unless it could not be read. *)
Definition resolved_refs_reads (before after : StoredGateway) : Prop :=
  forall c, buildClientCertResolvedRefsCondition cert_error (go_Generation (sg_Object before)) 0 (client_cert_error (sg_Object before))
    = Some c -> carries after c.
Lemma cert_condition_time gateway now c :
  buildClientCertResolvedRefsCondition cert_error (go_Generation gateway) 0 (client_cert_error gateway) = Some c ->
  exists d, buildClientCertResolvedRefsCondition cert_error (go_Generation gateway) now (client_cert_error gateway) = Some d /\
    cond_Type d = cond_Type c /\ same_verdict d c.
Proof.
  unfold buildClientCertResolvedRefsCondition. destruct (client_cert_error gateway) as [[]|]; intros [= <-];
    by eexists; (split; [reflexivity|]).
Qed.

(** The conditions of a write, by what set them. *)
Lemma written_conditions before after accepted programmed now :
  cond_Type accepted = GatewayConditionAccepted -> cond_Type programmed = GatewayConditionProgrammed ->
  gs_Conditions (sg_Status after) = applyGatewayConditions now (gs_Conditions (sg_Status before)) [accepted; programmed]
    (buildClientCertResolvedRefsCondition cert_error (go_Generation (sg_Object before)) now (client_cert_error (sg_Object before))) ->
  others gateway_owned (gs_Conditions (sg_Status after)) = others gateway_owned (gs_Conditions (sg_Status before)) /\
  (NoDup (cond_Type <$> gs_Conditions (sg_Status before)) -> NoDup (cond_Type <$> gs_Conditions (sg_Status after))) /\
  carries after accepted /\ carries after programmed /\ resolved_refs_reads before after.
Proof.
  intros Ha Hp Hcs. pose proof (fun c => cert_condition_type cert_error (go_Generation (sg_Object before)) now
    (client_cert_error (sg_Object before)) c) as Hc. unfold carries, resolved_refs_reads. rewrite Hcs.
  split; [by apply applied_others|]. split; [apply apply_NoDup|].
  split; [apply applied_find; [done..|by left]|]. split; [apply applied_find; [done..|by right; left]|].
  intros c (d & Hd & Htype & Hverdict)%(cert_condition_time _ now). unfold carries. rewrite Hcs, Hd, <-Htype.
  destruct (applied_find accepted programmed (Some d) now (gs_Conditions (sg_Status before)) Ha Hp) with (c := d) as (e & He & Hv).
  - intros x [= <-]. by apply Hc.
  - right; right; by left.
  - exists e. split; [exact He|by eapply same_verdict_trans].
Qed.

Lemma resolved_write gen before cfg mode now :
  gatewayStatusStale gen before = false ->
  let after := with_status before (resolved_status cfg mode before now) in
  write_bounded gen before after /\ gs_Addresses (sg_Status after) = [rc_TunnelID cfg +:+ cfArgotunnelSuffix] /\
  lst_Name <$> gs_Listeners (sg_Status after) = l_Name <$> gw_Listeners (go_Gateway (sg_Object before)) /\
  carries after (gatewayAcceptedCondition (gateway_view (sg_Object before)) (sg_Object before) 0) /\
  programmed_reads mode before after /\ resolved_refs_reads before after.
Proof.
  intros Hs%gateway_stale_spec after. set (g := sg_Object before).
  set (programmed := if mode then perGatewayProgrammedCondition g now
    else mkCondition GatewayConditionProgrammed ConditionTrue (go_Generation g) now "Programmed" "Gateway programmed in Cloudflare Tunnel").
  assert (Hp : cond_Type programmed = GatewayConditionProgrammed) by (subst programmed; destruct mode; [apply programmed_type|done]).
  destruct (written_conditions before after _ programmed now (accepted_type (gateway_view g) g now) Hp eq_refl)
    as (Ho & Hnd & Hacc & Hprog & Hrefs).
  split; [by split_and!|]. split; [done|]. split.
  { cbn. rewrite <-list_fmap_compose. apply list_fmap_ext. intros i l _. cbn. unfold listener_status. by destruct (FilterSupportedKinds _ _) as [[??]?]. }
  split; [|split; [|done]].
  - destruct Hacc as (d & Hd & Hv). rewrite accepted_type in Hd. unfold carries. rewrite accepted_type. exists d.
    split; [exact Hd|]. eapply same_verdict_trans; [exact Hv|apply same_verdict_time].
  - destruct Hprog as (d & Hd & _ & Hst & Hgen & Hrs & _). rewrite Hp in Hd. exists d. rewrite Hst, Hgen, Hrs. split; [exact Hd|].
    subst programmed. destruct mode; [|split; [done|split; [done|intros []; by left]]].
    unfold perGatewayProgrammedCondition. fold g. cbv zeta. destruct (read_deployment _ _) as [n| |].
    + destruct (Z.leb_spec 1 n) as [Hle|Hgt].
      * split; [done|]. split; [done|]. intros []. right. by exists n.
      * split; [done|]. split; [|done]. intros [?|(m & [= <-] & Hm)]; [done|lia].
    + split; [done|]. split; [|done]. by intros [?|(m & ? & Hm)].
    + split; [done|]. split; [|done]. by intros [?|(m & ? & Hm)].
Qed.
Lemma error_write gen before err now :
  gatewayStatusStale gen before = false ->
  let after := with_status before (config_error_status err before now) in
  let failed type reason := mkCondition type ConditionFalse (go_Generation (sg_Object before)) 0 reason
    (truncateMessage ("Failed to resolve Gateway configuration: " +:+ err)) in
  write_bounded gen before after /\ gs_Addresses (sg_Status after) = [] /\ gs_Listeners (sg_Status after) = [] /\
  carries after (failed GatewayConditionAccepted GatewayReasonInvalidParameters) /\
  carries after (failed GatewayConditionProgrammed "Invalid") /\ resolved_refs_reads before after.
Proof.
  intros Hs%gateway_stale_spec after failed.
  set (at_now := fun type reason => mkCondition type ConditionFalse (go_Generation (sg_Object before)) now reason
    (truncateMessage ("Failed to resolve Gateway configuration: " +:+ err))).
  destruct (written_conditions before after (at_now GatewayConditionAccepted GatewayReasonInvalidParameters)
    (at_now GatewayConditionProgrammed "Invalid") now eq_refl eq_refl eq_refl) as (Ho & Hnd & Hacc & Hprog & Hrefs).
  split; [by split_and!|]. split; [done|]. split; [done|]. split; [exact Hacc|]. by split.
Qed.

Context {reader : ConfigReader} {decoder : TokenDecoder} {gateways : GatewayReader}.
Context (controllerName proxyImage defaultNamespace : string).

(** The Gateway's class is there and names this controller. *)
Definition class_managed (gateway : GatewayObject) : Prop :=
  exists class, read_class (go_ClassName gateway) = Found class /\ gc_ControllerName class = controllerName.
Lemma managed_spec gateway : isGatewayManagedByController gateway controllerName = true <-> class_managed gateway.
Proof.
  unfold isGatewayManagedByController, classifyGatewayClass, class_managed.
  destruct (read_class (go_ClassName gateway)) as [class| |]; [|naive_solver..]. case_bool_decide; naive_solver.
Qed.
(** The write of a resolved configuration, and of one that does not resolve. *)
Definition resolved_write_outcome (gen : Z) (cfg : ResolvedConfig) (mode : bool) (attempts : nat -> GatewayAttempt)
    (r : res WriteError GatewayWrite) : Prop :=
  write_outcome (fun fresh now => with_status fresh (resolved_status cfg mode fresh now)) (gateway_ahead gen) attempts r /\
  forall before after, r = Ok (write_stored before after) ->
    write_bounded gen before after /\ gs_Addresses (sg_Status after) = [rc_TunnelID cfg +:+ cfArgotunnelSuffix] /\
    lst_Name <$> gs_Listeners (sg_Status after) = l_Name <$> gw_Listeners (go_Gateway (sg_Object before)) /\
    carries after (gatewayAcceptedCondition (gateway_view (sg_Object before)) (sg_Object before) 0) /\
    programmed_reads mode before after /\ resolved_refs_reads before after.
Definition error_write_outcome (gen : Z) (err : string) (attempts : nat -> GatewayAttempt)
    (r : res WriteError GatewayWrite) : Prop :=
  write_outcome (fun fresh now => with_status fresh (config_error_status err fresh now)) (gateway_ahead gen) attempts r /\
  forall before after, r = Ok (write_stored before after) ->
    let failed type reason := mkCondition type ConditionFalse (go_Generation (sg_Object before)) 0 reason
      (truncateMessage ("Failed to resolve Gateway configuration: " +:+ err)) in
    write_bounded gen before after /\ gs_Addresses (sg_Status after) = [] /\ gs_Listeners (sg_Status after) = [] /\
    carries after (failed GatewayConditionAccepted GatewayReasonInvalidParameters) /\
    carries after (failed GatewayConditionProgrammed "Invalid") /\ resolved_refs_reads before after.
Lemma resolved_outcome gateway cfg mode attempts : versions_identify attempts ->
  resolved_write_outcome (go_Generation (sg_Object gateway)) cfg mode attempts (Gateway_updateStatus gateway cfg mode attempts).
Proof.
  intros Hver. split; [by apply (write_status_outcome _ _ _ (gateway_stale_ahead _))|]. intros before after Hw.
  pose proof (write_status_spec (gatewayStatusStale (go_Generation (sg_Object gateway)))
    (fun fresh now => with_status fresh (resolved_status cfg mode fresh now)) attempts Hver) as Hs.
  unfold Gateway_updateStatus in Hw. rewrite Hw in Hs. destruct Hs as (i & _ & _ & Hs & ->). by apply resolved_write.
Qed.
Lemma error_outcome gateway err attempts : versions_identify attempts ->
  error_write_outcome (go_Generation (sg_Object gateway)) err attempts (setConfigErrorStatus gateway err attempts).
Proof.
  intros Hver. split; [by apply (write_status_outcome _ _ _ (gateway_stale_ahead _))|]. intros before after Hw.
  pose proof (write_status_spec (gatewayStatusStale (go_Generation (sg_Object gateway)))
    (fun fresh now => with_status fresh (config_error_status err fresh now)) attempts Hver) as Hs.
  unfold setConfigErrorStatus in Hw. rewrite Hw in Hs. destruct Hs as (i & _ & _ & Hs & ->). by apply error_write.
Qed.

(** C10: What one reconcile of a Gateway does, whatever other writers do meanwhile, case by
    case.  A Gateway that is gone is forgotten and one that cannot be read is an error.
    A Gateway being deleted that carries the old finalizer loses it, and nothing else,
    whatever its class, and nothing more happens.  Any other Gateway that is being
    deleted, or whose class is not this controller's, is left alone.  A Gateway that is
    managed gets a status.  When its configuration resolves: the configuration's tunnel
    as the address, one entry per listener, the Accepted condition of the merged view,
    Programmed exactly when it shares the tunnel or its own proxy has a ready replica,
    and ResolvedRefs for its client certificate.  When it does not resolve: no address,
    no listeners, Accepted and Programmed False, and another reconcile after the delay;
    but an error that is not about the parameters, on a Gateway with parameters of its
    own, is returned and nothing is written.  Of the attempts to write, the first
    without a conflict decides; it is skipped exactly when the copy read carries an own
    condition, of the Gateway or of a listener, of a newer generation.  A write keeps
    the object and other controllers' conditions. *)
Theorem gateway_reconcile_exact (read : Lookup StoredGateway) (update_ok : bool) (attempts : nat -> GatewayAttempt) :
  versions_identify attempts ->
  let result := Gateway_Reconcile controllerName proxyImage defaultNamespace read update_ok attempts in
  match read with
  | NotFound => result = Ok gateway_forgotten
  | Unavailable => result = Err errGetGateway
  | Found gateway =>
      let gen := go_Generation (sg_Object gateway) in
      let legacy := sg_Deleting gateway = true /\ legacyCloudflaredFinalizer ∈ sg_Finalizers gateway in
      let managed := class_managed (sg_Object gateway) /\ sg_Deleting gateway = false in
      (legacy -> update_ok = false -> result = Err errRemoveFinalizer) /\
      (legacy -> update_ok = true -> exists after, result = Ok (gateway_finalizer_removed after) /\
         sg_Object after = sg_Object gateway /\ sg_Deleting after = true /\ sg_Status after = sg_Status gateway /\
         forall f, f ∈ sg_Finalizers after <-> f ∈ sg_Finalizers gateway /\ f <> legacyCloudflaredFinalizer) /\
      (~ legacy -> ~ managed -> result = Ok gateway_untouched) /\
      (managed ->
       match resolveGatewayConfig proxyImage defaultNamespace (sg_Object gateway) with
       | Ok (cfg, mode) => exists r, resolved_write_outcome gen cfg mode attempts r /\
           result = match r with Ok w => Ok (gateway_status w) | Err e => Err (errGatewayStatus e) end
       | Err e =>
           (go_ParametersRef (sg_Object gateway) <> None -> e <> ErrInvalidParameters -> result = Err (errGatewayConfig e)) /\
           (go_ParametersRef (sg_Object gateway) = None \/ e = ErrInvalidParameters ->
              exists r, error_write_outcome gen (config_error e) attempts r /\
                result = Ok (gateway_config_failed r configErrorRequeueDelay))
       end)
  end.
Proof.
  intros Hver result. destruct read as [gateway| |]; [|done..]. intros gen legacy managed. unfold result, Gateway_Reconcile.
  pose proof (managed_spec (sg_Object gateway)) as Hman.
  destruct (sg_Deleting gateway) eqn:Hdel; cbn [andb].
  - subst legacy managed. case_bool_decide as Hfin.
    + refine (conj _ (conj _ (conj _ _))); [by intros _ ->| |naive_solver|naive_solver]. intros _ ->. eexists. split; [reflexivity|].
      split_and!; try done. intros f. cbn. rewrite elem_of_list_filter, negb_true_iff, bool_decide_eq_false. done.
    + refine (conj _ (conj _ (conj _ _))); [naive_solver..| |naive_solver]. intros _ _. by destruct (isGatewayManagedByController _ _).
  - refine (conj _ (conj _ (conj _ _))); [by intros []..| |].
    + intros _ Hm. destruct (isGatewayManagedByController _ _); cbn [negb]; [|done]. destruct Hm. split; [by apply Hman|done].
    + intros [Hm%Hman _]. rewrite Hm. cbn [negb].
      destruct (resolveGatewayConfig _ _ _) as [[cfg mode]|e].
      * pose proof (resolved_outcome gateway cfg mode attempts Hver) as Ho. eexists. split; [exact Ho|].
        by destruct (Gateway_updateStatus _ _ _ _).
      * unfold HasInfrastructureParametersRef. set (invalid := match e with ErrInvalidParameters => true | _ => false end).
        assert (Hinv : invalid = true <-> e = ErrInvalidParameters) by (subst invalid; by destruct e).
        pose proof (error_outcome gateway (config_error e) attempts Hver) as Ho. split.
        -- intros Hp He. rewrite bool_decide_eq_true_2 by by apply not_eq_None_Some.
           destruct invalid; [by destruct He; apply Hinv|done].
        -- intros Hpe. eexists. split; [exact Ho|]. destruct Hpe as [->|He]; [done|].
           apply Hinv in He as ->. by rewrite andb_false_r.
Qed.
End reconcile_spec.

(** ** An example: the class cannot be read, and a foreign condition stays *)

Definition plain_texts : StatusText := {| config_error _ := "broken"; cert_error _ := "cert"; deployment_error _ _ := "gone" |}.
Definition plain_api : ApiText := {| grants_error _ := "grants"; secret_error _ _ := "secret" |}.
Definition no_deployments : DeploymentReader := fun _ _ => NotFound.
Definition foreign_condition : Condition := mkCondition "special.io/Check" ConditionTrue 9 5 "Done" "".
Definition stored_gateway : StoredGateway :=
  mkStoredGateway (edge_gateway "a.example.com") false []
    (mkGatewayStatus ["old.cfargotunnel.com"]
       [mkCondition GatewayConditionAccepted ConditionTrue 1 4 "Accepted" ""; foreign_condition] [] None).
(** The first attempt meets another write. *)
Definition gateway_attempts (i : nat) : GatewayAttempt :=
  match i with
  | 0 => mkStatusAttempt (Found (7%Z, stored_gateway)) 10 (8%Z, stored_gateway) None
  | _ => mkStatusAttempt (Found (8%Z, stored_gateway)) 11 (8%Z, stored_gateway) None
  end.
Definition example_gateway_reconcile : res GatewayError GatewayAction :=
  @Gateway_Reconcile counting_cluster (route_to []) two_views one_grant one_secret plain_api crt_pem crt_x509 constant_digest no_deployments
    plain_texts (tenant_reader "a") tenant_decoder mtls_reader "us" "image" "system" (Found stored_gateway) true gateway_attempts.
Lemma gateway_reconcile_exact_witness :
  exists before after, example_gateway_reconcile = Ok (gateway_config_failed (Ok (write_stored before after)) 30000) /\
    others gateway_owned (gs_Conditions (sg_Status after)) = [foreign_condition] /\ gs_Addresses (sg_Status after) = [].
Proof.
  pose proof (@gateway_reconcile_exact counting_cluster (route_to []) two_views one_grant one_secret plain_api crt_pem crt_x509
    constant_digest no_deployments plain_texts (tenant_reader "a") tenant_decoder mtls_reader "us" "image" "system" (Found stored_gateway) true
    gateway_attempts) as H.
  assert (E : exists after, example_gateway_reconcile = Ok (gateway_config_failed (Ok (write_stored stored_gateway after)) 30000))
    by (eexists; vm_compute; reflexivity).
  destruct E as (after & E). exists stored_gateway, after. split; [done|]. change (@Gateway_Reconcile _ _ _ _ _ _ _ _ _ _ _ _ _ _ _ _ _ _ _ _) with example_gateway_reconcile in H.
  specialize (H ltac:(intros [|i] version fresh [= <- <-] Hv; [done|done])). cbv zeta in H. rewrite E in H.
  destruct H as (_ & _ & _ & H). specialize (H ltac:(split; [by eexists; split; [vm_compute; reflexivity|reflexivity]|reflexivity])).
  destruct (resolveGatewayConfig _ _ _) as [[cfg mode]|e].
  - destruct H as ([w|e] & _ & Hr); discriminate Hr.
  - destruct H as [_ H]. destruct H as (r & [_ Hw] & Hr); [by left|]. injection Hr as <-.
    destruct (Hw stored_gateway after eq_refl) as ((_ & _ & _ & _ & Ho & _) & Ha & _). split; [|exact Ha]. rewrite Ho. by vm_compute.
Defined.

(** A ListenerSet's entry in conflict does not reach the Gateway's condition. *)
Lemma conflicted_set_entry_ignored :
  let lost := mkMergedListener ParentKindListenerSet None 0 "web" 80 "HTTP" None None ListenerReasonHostnameConflict "lost" in
  gatewayConflictedListenersMessage (Some (mkGatewayListenerView [] [lost])) = ("", false).
Proof. by vm_compute. Qed.
