(* ===== verification/ListenerSetStatus.v ===== *)
(** * The ListenerSet controller

    [controller/listenerset_controller.go]: whether a ListenerSet is accepted by
    its Gateway, the status of its entries, the routes attached to them, and the
    write.  Reads are the parameters of [GatewayStatus]; a Gateway is read by the
    parameter of the client certificate resolver. *)
From Stdlib Require Import Ascii.
From stdpp Require Import sorting.
From stdpp Require Import base sets gmap strings list.
From S2P Require Import Prelude GoStrings RouteBinding ListenerMerge ReferenceGrant IngressBuild Converter ConfigResolver ListenerView ParentBinding RouteStatus BackendTLS StatusWriter CertRefs GatewayStatus.

Class SetText := {
  binding_error : BindingError -> string;
  view_error : string;
  refs_error : RefsError -> string;
  routes_error : string;
}.

Definition ListenerSetConditionAccepted : string := "Accepted".
Definition ListenerSetConditionProgrammed : string := "Programmed".
Definition ListenerSetReasonAccepted : string := "Accepted".
Definition ListenerSetReasonProgrammed : string := "Programmed".
Definition ListenerSetReasonNotAllowed : string := "NotAllowed".
Definition ListenerSetReasonPending : string := "Pending".
Definition ListenerSetReasonInvalid : string := "Invalid".
Definition ListenerSetReasonParentNotAccepted : string := "ParentNotAccepted".
Definition ListenerSetReasonListenersNotValid : string := "ListenersNotValid".
Definition ListenerReasonNoConflicts : string := "NoConflicts".
Definition ListenerReasonPending : string := "Pending".
Definition listenerSetMsgAccepted : string := "ListenerSet accepted by cloudflare-tunnel controller".
Definition listenerSetMsgProgrammed : string := "ListenerSet programmed against parent Gateway".
Definition listenerSetMsgNotAllowed : string := "Parent Gateway does not allow ListenerSet attachment".
Definition listenerSetMsgListenersBad : string := "No listener in this ListenerSet is conflict-free".

Record ListenerSetStatus := mkListenerSetStatus { lss_Conditions : list Condition; lss_Listeners : list ListenerStatus }.
Record StoredListenerSet := mkStoredListenerSet { sls_Object : ListenerSetObject; sls_Status : ListenerSetStatus }.

(** ** Attached routes *)

Definition parentRefSelectsListenerSet (ref : ParentReference) (routeNamespace : string) (listenerSet : ListenerSet) : bool :=
  if match pref_Group ref with Some g => negb (bool_decide (g = "")) && negb (bool_decide (g = GroupName)) | None => false end then false
  else if negb (bool_decide (pref_Kind ref = Some kindListenerSet)) then false
  else if negb (bool_decide (pref_Name ref = ls_Name listenerSet)) then false
  else bool_decide (default routeNamespace (pref_Namespace ref) = ls_Namespace listenerSet).

(** The counts, and the sections this route has counted on. *)
Definition count_section (state : gmap string Z * gset string) (section : string) : gmap string Z * gset string :=
  let '(counts, countedThisRoute) := state in
  if bool_decide (section ∈ countedThisRoute) then state
  else (increment counts section, {[section]} ∪ countedThisRoute).

Section counting.
Context {cluster : Cluster} {routes : RouteLists}.

(** The sections one parentRef of a route binds to. *)
Definition bound_sections {R} (listenerSet : ListenerSet) (kind : string) (route : RouteObject R) (ref : ParentReference) : list string :=
  if negb (parentRefSelectsListenerSet ref (ro_Namespace route) listenerSet) then []
  else match ValidateBindingForListenerSet listenerSet (route_info kind route ref) with
       | Err _ => []
       | Ok result => if negb (br_Accepted result) then [] else br_MatchedListeners result
       end.
Definition incrementListenerSetAttachedRoutes {R} (listenerSet : ListenerSet) (kind : string) (counts : gmap string Z) (route : RouteObject R)
    : gmap string Z :=
  (foldl (fun state ref => foldl count_section state (bound_sections listenerSet kind route ref)) (counts, ∅) (ro_ParentRefs route)).1.
Definition countAttachedHTTPRoutes (listenerSet : ListenerSet) (counts : gmap string Z) : option (gmap string Z) :=
  items ← all_httpRoutes; Some (foldl (incrementListenerSetAttachedRoutes listenerSet KindHTTPRoute) counts items).
Definition countAttachedGRPCRoutes (listenerSet : ListenerSet) (counts : gmap string Z) : option (gmap string Z) :=
  items ← all_grpcRoutes; Some (foldl (incrementListenerSetAttachedRoutes listenerSet KindGRPCRoute) counts items).
(** [None] when the routes could not be listed. *)
Definition countAttachedRoutesPerEntry (listenerSet : ListenerSet) : option (gmap string Z) :=
  let out := foldl (fun m l => <[l_Name l := 0%Z]> m) ∅ (ls_Listeners listenerSet) in
  http ← countAttachedHTTPRoutes listenerSet out; countAttachedGRPCRoutes listenerSet http.
End counting.

(** ** Acceptance *)

Record listenerSetAcceptanceResult := mkAcceptance {
  acc_Accepted : bool; acc_Reason : string; acc_Message : string;
  acc_MergeResult : option (list MergedListener);
  acc_RefChecks : gmap string listenerEntryRefsCheck;
  acc_AttachedRoutes : gmap string Z }.
Definition rejected_set (reason message : string) : listenerSetAcceptanceResult := mkAcceptance false reason message None ∅ ∅.

Definition entry_conflicted (merge : option MergedListener) : bool :=
  match merge with Some m => negb (bool_decide (ml_ConflictReason m = "")) | None => false end.
(** Some entry is neither in conflict nor refused its certificates. *)
Definition summariseListenerSet (merged : list MergedListener) (listenerSet : ListenerSet) (refChecks : gmap string listenerEntryRefsCheck)
    : bool * string * string :=
  if existsb (fun entry =>
       if entry_conflicted (findMergedEntry merged listenerSet (l_Name entry)) then false
       else match refChecks !! l_Name entry with
            | Some check => negb (bool_decide (rk_Status check = ConditionFalse))
            | None => true
            end) (ls_Listeners listenerSet)
  then (true, ListenerSetReasonAccepted, "ListenerSet attached to parent Gateway")
  else (false, ListenerSetReasonListenersNotValid, listenerSetMsgListenersBad).

Section acceptance.
Context {cluster : Cluster} {routes : RouteLists} {views : ListenerViews} {grants : GrantClient} {secrets : SecretReader}.
Context {texts : ApiText} {pem : PemReader} {stexts : SetText}.

Fixpoint collect_checks (listenerSet : ListenerSet) (entries : list Listener) (out : gmap string listenerEntryRefsCheck)
    : res RefsError (gmap string listenerEntryRefsCheck) :=
  match entries with
  | [] => Ok out
  | entry :: rest =>
      check ← resolveListenerEntryRefs listenerSet entry;
      collect_checks listenerSet rest (<[l_Name entry := check]> out)
  end.
Definition collectListenerEntryRefChecks (listenerSet : ListenerSet) : res RefsError (gmap string listenerEntryRefsCheck) :=
  collect_checks listenerSet (ls_Listeners listenerSet) ∅.

Definition computeAcceptance (gateway : GatewayObject) (listenerSet : ListenerSet) : listenerSetAcceptanceResult :=
  match EvaluateListenerSetAcceptance (go_Gateway gateway) listenerSet with
  | Err e => rejected_set ListenerSetReasonNotAllowed ("Failed to evaluate parent Gateway allowedListeners: " +:+ binding_error e)
  | Ok false => rejected_set ListenerSetReasonNotAllowed listenerSetMsgNotAllowed
  | Ok true =>
      match gateway_view gateway with
      | None => rejected_set ListenerSetReasonPending ("Failed to enumerate sibling ListenerSets: " +:+ view_error)
      | Some view =>
          match collectListenerEntryRefChecks listenerSet with
          | Err e => rejected_set ListenerSetReasonPending ("Failed to evaluate ListenerSet TLS references: " +:+ refs_error e)
          | Ok refChecks =>
              let '(accepted, reason, message) := summariseListenerSet (view_merged view) listenerSet refChecks in
              match countAttachedRoutesPerEntry listenerSet with
              | None => rejected_set ListenerSetReasonPending ("Failed to count attached routes: " +:+ routes_error)
              | Some attached => mkAcceptance accepted reason message (Some (view_merged view)) refChecks attached
              end
          end
      end
  end.
End acceptance.

(** ** Conditions *)

Definition listenerSetMessageForAccepted (result : listenerSetAcceptanceResult) : string :=
  if acc_Accepted result then listenerSetMsgAccepted
  else if negb (bool_decide (acc_Message result = "")) then acc_Message result
  else acc_Reason result.
Definition listenerSetMessageForProgrammed (result : listenerSetAcceptanceResult) : string :=
  if acc_Accepted result then listenerSetMsgProgrammed
  else if bool_decide (acc_Reason result = ListenerSetReasonListenersNotValid) then listenerSetMsgListenersBad
  else if negb (bool_decide (acc_Message result = "")) then acc_Message result
  else acc_Reason result.
Definition buildListenerSetAggregateConditions (generation now : Z) (result : listenerSetAcceptanceResult) : list Condition :=
  let status := condition_status (acc_Accepted result) in
  let programmedReason := if acc_Accepted result then ListenerSetReasonProgrammed else acc_Reason result in
  [mkCondition ListenerSetConditionAccepted status generation now (acc_Reason result) (listenerSetMessageForAccepted result);
   mkCondition ListenerSetConditionProgrammed status generation now programmedReason (listenerSetMessageForProgrammed result)].

Definition listenerEntryResolvedRefsCondition (generation now : Z) (hasValidKind hasInvalidKind : bool) : Condition :=
  if negb hasValidKind then
    mkCondition ListenerConditionResolvedRefs ConditionFalse generation now ListenerReasonInvalidRouteKinds listenerMsgNoSupportedRouteKinds
  else if hasInvalidKind then
    mkCondition ListenerConditionResolvedRefs ConditionFalse generation now ListenerReasonInvalidRouteKinds listenerMsgInvalidRouteKinds
  else mkCondition ListenerConditionResolvedRefs ConditionTrue generation now ListenerReasonResolvedRefs msgReferencesResolved.
Definition acceptedEntryConditions (generation now : Z) (protocol : string) (resolvedRefs : Condition) : list Condition :=
  let accepted := buildListenerAcceptedCondition protocol generation now in
  let '(status, reason, message) :=
    if bool_decide (cond_Status accepted = ConditionFalse) then (ConditionFalse, ListenerReasonInvalid, cond_Message accepted)
    else if bool_decide (cond_Status resolvedRefs = ConditionFalse) then (ConditionFalse, ListenerReasonInvalid, listenerMsgInvalidUnresolved)
    else (ConditionTrue, ListenerReasonProgrammed, listenerMsgProgrammed) in
  [accepted;
   mkCondition ListenerConditionProgrammed status generation now reason message;
   mkCondition ListenerConditionConflicted ConditionFalse generation now ListenerReasonNoConflicts
     "Listener does not conflict with any other listener";
   resolvedRefs].
Definition listenerEntryConditions (generation now : Z) (merge : option MergedListener) (protocol : string)
    (hasValidKind hasInvalidKind : bool) (refCheck : option listenerEntryRefsCheck) : list Condition :=
  let byKind := listenerEntryResolvedRefsCondition generation now hasValidKind hasInvalidKind in
  let resolvedRefs :=
    match refCheck with
    | Some check =>
        if bool_decide (rk_Status check = ConditionFalse)
        then mkCondition ListenerConditionResolvedRefs ConditionFalse generation now (rk_Reason check) (rk_Message check)
        else byKind
    | None => byKind
    end in
  match merge with
  | Some m => if negb (bool_decide (ml_ConflictReason m = "")) then conflictedEntryConditions generation now m resolvedRefs
              else acceptedEntryConditions generation now protocol resolvedRefs
  | None => acceptedEntryConditions generation now protocol resolvedRefs
  end.

(** One entry of [buildListenerSetEntryStatuses]. *)
Definition entry_status (listenerSet : ListenerSet) (acceptance : listenerSetAcceptanceResult) (generation now : Z) (entry : Listener)
    : ListenerStatus :=
  let merge := findMergedEntry (default [] (acc_MergeResult acceptance)) listenerSet (l_Name entry) in
  let '(supportedKinds, hasValidKind, hasInvalidKind) := FilterSupportedKinds (l_AllowedRoutes entry) (l_Protocol entry) in
  let conditions :=
    listenerEntryConditions generation now merge (l_Protocol entry) hasValidKind hasInvalidKind (acc_RefChecks acceptance !! l_Name entry) in
  let accepted := FindStatusCondition conditions ListenerConditionAccepted in
  let advisory :=
    if bool_decide (cond_Status <$> accepted = Some ConditionTrue) && hostnameCaptureRisk (l_Hostname entry) (l_AllowedRoutes entry)
    then [permissiveHostnameCondition generation now] else [] in
  mkListenerStatus (l_Name entry) (if negb hasValidKind then [] else supportedKinds)
    (default 0%Z (acc_AttachedRoutes acceptance !! l_Name entry)) (conditions ++ advisory).
Definition buildListenerSetEntryStatuses (listenerSet : ListenerSet) (acceptance : listenerSetAcceptanceResult) (generation now : Z)
    : list ListenerStatus :=
  entry_status listenerSet acceptance generation now <$> ls_Listeners listenerSet.

Definition listenerEntryReasonForListenerSetRejection (reason : string) : string :=
  if bool_decide (reason ∈ [ListenerSetReasonNotAllowed; ListenerSetReasonListenersNotValid; ListenerSetReasonInvalid;
                             ListenerSetReasonParentNotAccepted; ListenerSetReasonPending]) then reason
  else ListenerReasonPending.
Definition rejectedEntryResolvedRefsCondition (generation now : Z) (result : listenerSetAcceptanceResult) : Condition :=
  if bool_decide (acc_Reason result = ListenerSetReasonPending) then
    mkCondition ListenerConditionResolvedRefs ConditionUnknown generation now ListenerSetReasonPending (acc_Message result)
  else mkCondition ListenerConditionResolvedRefs ConditionTrue generation now ListenerReasonResolvedRefs msgReferencesResolved.
Definition rejected_entry_status (result : listenerSetAcceptanceResult) (generation now : Z) (entry : Listener) : ListenerStatus :=
  let reason := listenerEntryReasonForListenerSetRejection (acc_Reason result) in
  let '(supportedKinds, hasValidKind, _) := FilterSupportedKinds (l_AllowedRoutes entry) (l_Protocol entry) in
  mkListenerStatus (l_Name entry) (if negb hasValidKind then [] else supportedKinds) 0
    [mkCondition ListenerConditionAccepted ConditionFalse generation now reason (acc_Message result);
     mkCondition ListenerConditionProgrammed ConditionFalse generation now reason (acc_Message result);
     rejectedEntryResolvedRefsCondition generation now result].
Definition buildListenerSetRejectedEntryStatuses (listenerSet : ListenerSet) (result : listenerSetAcceptanceResult) (generation now : Z)
    : list ListenerStatus :=
  if bool_decide (acc_Reason result = ListenerSetReasonListenersNotValid) && bool_decide (is_Some (acc_MergeResult result))
  then buildListenerSetEntryStatuses listenerSet result generation now
  else rejected_entry_status result generation now <$> ls_Listeners listenerSet.

(** ** The write *)

Definition listenerSetStatusStale (reconciledGen : Z) (listenerSet : StoredListenerSet) : bool :=
  if ownedConditionsStale (lss_Conditions (sls_Status listenerSet)) reconciledGen
       [ListenerSetConditionAccepted; ListenerSetConditionProgrammed] then true
  else statusGenerationStale reconciledGen (lst_Conditions <$> lss_Listeners (sls_Status listenerSet)).

Inductive SetError := errGetListenerSet | errGetParentGateway | errListManagedClasses | errSetStatus (e : WriteError).
Inductive SetAction := set_untouched | set_written (w : StatusWrite StoredListenerSet).

Section reconcile.
Context {cluster : Cluster} {routes : RouteLists} {views : ListenerViews} {grants : GrantClient} {secrets : SecretReader}.
Context {texts : ApiText} {pem : PemReader} {stexts : SetText}.

Definition set_status (gateway : GatewayObject) (fresh : StoredListenerSet) (now : Z) : ListenerSetStatus :=
  let listenerSet := lso_Set (sls_Object fresh) in
  let generation := lso_Generation (sls_Object fresh) in
  let acceptance := computeAcceptance gateway listenerSet in
  mkListenerSetStatus
    (foldl (SetStatusCondition now) (lss_Conditions (sls_Status fresh)) (buildListenerSetAggregateConditions generation now acceptance))
    (if acc_Accepted acceptance || bool_decide (acc_Reason acceptance = ListenerSetReasonListenersNotValid)
     then buildListenerSetEntryStatuses listenerSet acceptance generation now
     else buildListenerSetRejectedEntryStatuses listenerSet acceptance generation now).
Definition reconcileStatus (listenerSet : StoredListenerSet) (gateway : GatewayObject) (attempts : nat -> StatusAttempt StoredListenerSet)
    : res WriteError (StatusWrite StoredListenerSet) :=
  write_status (listenerSetStatusStale (lso_Generation (sls_Object listenerSet)))
    (fun fresh now => mkStoredListenerSet (sls_Object fresh) (set_status gateway fresh now)) attempts.

Context {kube : KubeClient} {gateways : GatewayReader} (controllerName : string).
Definition fetchParentGateway (listenerSet : ListenerSetObject) : Lookup GatewayObject :=
  read_gateway (listenerSetParentNamespace listenerSet) (lso_ParentName listenerSet).
Definition isManagedGateway (gateway : GatewayObject) : option bool :=
  (fun classes => bool_decide (go_ClassName gateway ∈ classes)) <$> managedClassNames controllerName.
Definition ListenerSet_Reconcile (read : Lookup StoredListenerSet) (attempts : nat -> StatusAttempt StoredListenerSet)
    : res SetError SetAction :=
  match read with
  | NotFound => Ok set_untouched
  | Unavailable => Err errGetListenerSet
  | Found listenerSet =>
      match fetchParentGateway (sls_Object listenerSet) with
      | Unavailable => Err errGetParentGateway
      | NotFound => Ok set_untouched
      | Found parent =>
          match isManagedGateway parent with
          | None => Err errListManagedClasses
          | Some false => Ok set_untouched
          | Some true =>
              match reconcileStatus listenerSet parent attempts with
              | Err e => Err (errSetStatus e)
              | Ok w => Ok (set_written w)
              end
          end
      end
  end.
End reconcile.

(** ** Routes are counted once per entry *)

Lemma count_sections state sections name z :
  state.1 !! name = Some (int32 z) ->
  let state' := foldl count_section state sections in
  state'.1 !! name = Some (int32 (if bool_decide (name ∈ state.2) then z else if bool_decide (name ∈ sections) then z + 1 else z)) /\
  (name ∈ state'.2 <-> name ∈ state.2 \/ name ∈ sections).
Proof.
  revert state z. induction sections as [|s sections IH]; intros [counts seen] z Hz; cbn [foldl fst snd] in *.
  - rewrite (bool_decide_eq_false_2 (name ∈ [])) by apply not_elem_of_nil. rewrite Hz. split; [by case_bool_decide|].
    split; [auto|by intros [?|?%elem_of_nil]].
  - assert (Hstep : count_section (counts, seen) s = if bool_decide (s ∈ seen) then (counts, seen) else (increment counts s, {[s]} ∪ seen)) by done.
    rewrite Hstep. case_bool_decide as Hs.
    + destruct (IH (counts, seen) z Hz) as [Hc Hin]. cbn [fst snd] in *. split; [|rewrite Hin, elem_of_cons; naive_solver].
      rewrite Hc. f_equal. case_bool_decide as Hn; [done|]. assert (name <> s) by congruence.
      f_equal. by rewrite (bool_decide_ext (name ∈ sections) (name ∈ s :: sections)) by (rewrite elem_of_cons; naive_solver).
    + destruct (decide (name = s)) as [->|Hne].
      * destruct (IH (increment counts s, {[s]} ∪ seen) (z + 1)%Z) as [Hc Hin].
        { cbn. unfold increment. rewrite Hz. cbn. rewrite lookup_insert_eq. f_equal. apply int32_step. }
        cbn [fst snd] in *. rewrite Hc, Hin. rewrite bool_decide_eq_true_2 by set_solver. rewrite (bool_decide_eq_false_2 (s ∈ seen)) by done.
        rewrite bool_decide_eq_true_2 by (by left). split; [done|]. set_solver.
      * destruct (IH (increment counts s, {[s]} ∪ seen) z) as [Hc Hin].
        { cbn. unfold increment. by rewrite lookup_insert_ne. }
        cbn [fst snd] in *. rewrite Hc, Hin. split; [|set_solver].
        rewrite (bool_decide_ext (name ∈ {[s]} ∪ seen) (name ∈ seen)) by set_solver.
        by rewrite (bool_decide_ext (name ∈ sections) (name ∈ s :: sections)) by (rewrite elem_of_cons; naive_solver).
Qed.

Section counts.
Context {cluster : Cluster} {routes : RouteLists}.

(** The route binds to the section through one of its parentRefs. *)
Definition binds {R} (listenerSet : ListenerSet) (kind : string) (section : string) (route : RouteObject R) : bool :=
  bool_decide (section ∈ ro_ParentRefs route ≫= bound_sections listenerSet kind route).
Lemma increment_route {R} listenerSet kind counts (route : RouteObject R) name z :
  counts !! name = Some (int32 z) ->
  incrementListenerSetAttachedRoutes listenerSet kind counts route !! name =
  Some (int32 (if binds listenerSet kind name route then z + 1 else z)).
Proof.
  intros Hz. unfold incrementListenerSetAttachedRoutes, binds. rewrite foldl_bind.
  destruct (count_sections (counts, ∅) (ro_ParentRefs route ≫= bound_sections listenerSet kind route) name z Hz) as [Hc _].
  cbn [snd fst] in Hc. rewrite (bool_decide_eq_false_2 (name ∈ ∅)) in Hc by set_solver. exact Hc.
Qed.
Lemma increment_routes {R} listenerSet kind counts (items : list (RouteObject R)) name z :
  counts !! name = Some (int32 z) ->
  foldl (incrementListenerSetAttachedRoutes listenerSet kind) counts items !! name =
  Some (int32 (z + Z.of_nat (length (List.filter (binds listenerSet kind name) items)))).
Proof.
  revert counts z. induction items as [|r items IH]; intros counts z Hz; cbn [foldl List.filter]; [by rewrite Hz, Z.add_0_r|].
  erewrite IH by (by apply increment_route). destruct (binds listenerSet kind name r); cbn [length]; [|done]. f_equal. f_equal. lia.
Qed.
(** The count of an entry is the number of routes of both kinds that bind to it
    through some parentRef, each once however many of its parentRefs do, as a
    32-bit integer; whether the entry itself is in conflict or lacks a certificate
    plays no part. *)
Theorem entry_attached_exact (listenerSet : ListenerSet) (entry : Listener) http grpc :
  all_httpRoutes = Some http -> all_grpcRoutes = Some grpc -> entry ∈ ls_Listeners listenerSet ->
  (fun counts => counts !! l_Name entry) <$> countAttachedRoutesPerEntry listenerSet =
  Some (Some (int32 (Z.of_nat (length (List.filter (binds listenerSet KindHTTPRoute (l_Name entry)) http) +
                               length (List.filter (binds listenerSet KindGRPCRoute (l_Name entry)) grpc))))).
Proof.
  intros Hh Hg Hin. unfold countAttachedRoutesPerEntry, countAttachedHTTPRoutes, countAttachedGRPCRoutes. rewrite Hh, Hg. cbn.
  assert (Hz : foldl (fun m l => <[l_Name l := 0%Z]> m) (∅ : gmap string Z) (ls_Listeners listenerSet) !! l_Name entry = Some (int32 0))
    by exact (zeroed _ _ _ (or_intror Hin)).
  erewrite increment_routes by (by apply increment_routes). f_equal. f_equal. f_equal. lia.
Qed.
End counts.

(** ** Acceptance and entry statuses are exact *)

Section exact.
Context {cluster : Cluster} {routes : RouteLists} {views : ListenerViews} {grants : GrantClient} {secrets : SecretReader}.
Context {texts : ApiText} {pem : PemReader} {stexts : SetText}.

Definition certs_usable (listenerSet : ListenerSet) (entry : Listener) : Prop :=
  Forall (usable kindListenerSet (ls_Namespace listenerSet)) (l_CertificateRefs entry).
Definition conflict_in (merged : list MergedListener) (listenerSet : ListenerSet) (entry : Listener) : Prop :=
  exists m, findMergedEntry merged listenerSet (l_Name entry) = Some m /\ ml_ConflictReason m <> "".
Lemma entry_conflicted_spec merged ls entry :
  entry_conflicted (findMergedEntry merged ls (l_Name entry)) = true <-> conflict_in merged ls entry.
Proof.
  unfold entry_conflicted, conflict_in. destruct (findMergedEntry _ _ _) as [m|].
  - rewrite negb_true_iff, bool_decide_eq_false. naive_solver.
  - naive_solver.
Qed.

Lemma collect_checks_spec ls entries out checks :
  collect_checks ls entries out = Ok checks -> NoDup (l_Name <$> entries) ->
  (forall entry, entry ∈ entries -> exists check, checks !! l_Name entry = Some check /\ resolveListenerEntryRefs ls entry = Ok check) /\
  (forall name, name ∉ l_Name <$> entries -> checks !! name = out !! name).
Proof.
  revert out. induction entries as [|e entries IH]; intros out; cbn [collect_checks].
  { intros [= <-] _. split; [by intros ? ?%elem_of_nil|done]. }
  destruct (resolveListenerEntryRefs ls e) as [check|] eqn:Hr; [|done]. cbn. intros Hc [Hn Hnd]%NoDup_cons.
  destruct (IH _ Hc Hnd) as [Hin Hout]. split.
  - intros entry [->|He]%elem_of_cons; [|by apply Hin]. exists check. split; [|done]. rewrite Hout by done. by rewrite lookup_insert_eq.
  - intros name Hname. rewrite Hout by set_solver. rewrite lookup_insert_ne; [done|]. set_solver.
Qed.
Lemma entry_check_decides ls checks entry :
  collectListenerEntryRefChecks ls = Ok checks -> NoDup (l_Name <$> ls_Listeners ls) -> entry ∈ ls_Listeners ls ->
  exists check, checks !! l_Name entry = Some check /\ resolveListenerEntryRefs ls entry = Ok check /\ decides check (certs_usable ls entry).
Proof.
  intros Hc Hnd Hin. destruct (proj1 (collect_checks_spec _ _ _ _ Hc Hnd) entry Hin) as (check & Hl & Hr).
  exists check. split_and!; [done..|]. by apply resolve_entry_refs_decides.
Qed.

(** Some entry of the set is free of conflicts and may use its certificates. *)
Definition some_entry_serves (merged : list MergedListener) (ls : ListenerSet) : Prop :=
  exists entry, entry ∈ ls_Listeners ls /\ ~ conflict_in merged ls entry /\ certs_usable ls entry.
Lemma summarise_spec merged ls checks :
  collectListenerEntryRefChecks ls = Ok checks -> NoDup (l_Name <$> ls_Listeners ls) ->
  (summariseListenerSet merged ls checks).1.1 = true <-> some_entry_serves merged ls.
Proof.
  intros Hc Hnd. unfold summariseListenerSet, some_entry_serves. match goal with |- context [existsb ?g _] => set (f := g) end.
  assert (Hf : forall entry, entry ∈ ls_Listeners ls -> f entry = true <-> ~ conflict_in merged ls entry /\ certs_usable ls entry).
  { intros entry Hin. destruct (entry_check_decides ls checks entry Hc Hnd Hin) as (check & Hl & _ & Hd). unfold f. rewrite Hl.
    pose proof (entry_conflicted_spec merged ls entry) as Hconf. destruct (entry_conflicted _); [naive_solver|].
    destruct Hd as [[Hs Hu]|[Hs Hu]]; rewrite Hs; cbn; naive_solver. }
  transitivity (existsb f (ls_Listeners ls) = true); [by destruct (existsb f (ls_Listeners ls))|].
  rewrite existsb_exists. setoid_rewrite <-list_elem_of_In. naive_solver.
Qed.
Lemma entriesAccepted_spec merged ls checks :
  collectListenerEntryRefChecks ls = Ok checks -> NoDup (l_Name <$> ls_Listeners ls) ->
  listenerSetEntriesAccepted ls merged = true <-> some_entry_serves merged ls.
Proof.
  intros Hc Hnd. unfold listenerSetEntriesAccepted, some_entry_serves. rewrite existsb_exists. setoid_rewrite <-list_elem_of_In.
  assert (Hf : forall entry, entry ∈ ls_Listeners ls ->
    (if entry_conflicted (findMergedEntry merged ls (l_Name entry)) then false
     else match resolveListenerEntryRefs ls entry with Ok check => negb (bool_decide (rk_Status check = ConditionFalse)) | Err _ => false end) = true <->
    ~ conflict_in merged ls entry /\ certs_usable ls entry).
  { intros entry Hin. destruct (entry_check_decides ls checks entry Hc Hnd Hin) as (check & _ & Hr & Hd). rewrite Hr.
    pose proof (entry_conflicted_spec merged ls entry) as Hconf. destruct (entry_conflicted _); [naive_solver|].
    destruct Hd as [[Hs Hu]|[Hs Hu]]; rewrite Hs; cbn; naive_solver. }
  split; intros (entry & Hin & H); exists entry; (split; [done|]); by apply (Hf entry Hin).
Qed.

(** An acceptance that got as far as the merged view. *)
Lemma computeAcceptance_evaluated gateway ls merged :
  acc_MergeResult (computeAcceptance gateway ls) = Some merged ->
  exists view checks attached, EvaluateListenerSetAcceptance (go_Gateway gateway) ls = Ok true /\ gateway_view gateway = Some view /\
    view_merged view = merged /\ collectListenerEntryRefChecks ls = Ok checks /\ countAttachedRoutesPerEntry ls = Some attached /\
    computeAcceptance gateway ls =
      (let '(accepted, reason, message) := summariseListenerSet merged ls checks in
       mkAcceptance accepted reason message (Some merged) checks attached).
Proof.
  unfold computeAcceptance. destruct (EvaluateListenerSetAcceptance _ ls) as [[]|]; [|done..].
  destruct (gateway_view gateway) as [view|]; [|done]. destruct (collectListenerEntryRefChecks ls) as [checks|]; [|done].
  destruct (summariseListenerSet _ ls checks) as [[accepted reason] message] eqn:Hs.
  destruct (countAttachedRoutesPerEntry ls) as [attached|]; [|done]. cbn. intros [= <-]. exists view, checks, attached.
  split_and!; try done. by rewrite Hs.
Qed.
Lemma computeAcceptance_accepted gateway ls :
  acc_Accepted (computeAcceptance gateway ls) = true -> exists merged, acc_MergeResult (computeAcceptance gateway ls) = Some merged.
Proof.
  unfold computeAcceptance. repeat case_match; try done. intros _. by eexists.
Qed.

(** The conditions of an entry without conflict. *)
Lemma accepted_entry_exact g t entry refs advise b :
  cond_Type refs = ListenerConditionResolvedRefs -> cond_ObservedGeneration refs = g -> cond_Status refs = condition_status b ->
  let serves := servableListenerProtocol (l_Protocol entry) in
  listener_conditions_exact g
    (acceptedEntryConditions g t (l_Protocol entry) refs ++ (if serves && advise then [permissiveHostnameCondition g t] else []))
    (serves = true) False (b = true) (advise = true).
Proof.
  intros Ht Hg Hs serves. destruct refs as [type status gen time reason msg]. cbn in Ht, Hg, Hs. subst type status gen.
  unfold listener_conditions_exact, acceptedEntryConditions, buildListenerAcceptedCondition. fold serves.
  set (conditions := _ ++ _). assert (Hnd : NoDup (cond_Type <$> conditions)).
  { subst conditions. by destruct serves, b, advise; apply (bool_decide_unpack _); vm_compute. }
  rewrite !is_true_find by done. clear Hnd. subst conditions.
  destruct serves, b, advise; split_and!; try (by repeat constructor); try (by apply (bool_decide_unpack _); vm_compute);
    vm_compute; (split; [|]); try tauto; try (intros [=]); intuition discriminate.
Qed.
Lemma entry_refs_condition ls entry check g t :
  decides check (certs_usable ls entry) ->
  let '(_, valid, invalid) := FilterSupportedKinds (l_AllowedRoutes entry) (l_Protocol entry) in
  let c := if bool_decide (rk_Status check = ConditionFalse)
           then mkCondition ListenerConditionResolvedRefs ConditionFalse g t (rk_Reason check) (rk_Message check)
           else listenerEntryResolvedRefsCondition g t valid invalid in
  cond_Type c = ListenerConditionResolvedRefs /\ cond_ObservedGeneration c = g /\
  exists b, cond_Status c = condition_status b /\ (b = true <-> kinds_served entry /\ certs_usable ls entry).
Proof.
  intros Hd. pose proof (kinds_served_spec entry) as Hk. destruct (FilterSupportedKinds _ _) as [[kinds valid] invalid].
  cbn iota zeta in *. setoid_rewrite <-Hk. unfold listenerEntryResolvedRefsCondition.
  destruct Hd as [[Hs Hp]|[Hs Hp]]; rewrite Hs; cbn.
  - destruct valid; cbn; [destruct invalid; cbn|].
    + split_and!; [done..|]. exists false. split; [done|]. by split; [|intros [[??]?]].
    + split_and!; [done..|]. by exists true.
    + split_and!; [done..|]. exists false. split; [done|]. by split; [|intros [[??]?]].
  - split_and!; [done..|]. exists false. split; [done|]. by split; [|intros [??]].
Qed.

(** The entries of a set that was evaluated. *)
Lemma evaluated_entries_exact (gateway : GatewayObject) (ls : ListenerSet) (merged : list MergedListener) (g t : Z) :
  let acceptance := computeAcceptance gateway ls in
  acc_MergeResult acceptance = Some merged -> NoDup (l_Name <$> ls_Listeners ls) ->
  EvaluateListenerSetAcceptance (go_Gateway gateway) ls = Ok true /\
  (acc_Accepted acceptance = true <-> some_entry_serves merged ls) /\
  Forall (fun entry =>
    listener_conditions_exact g (lst_Conditions (entry_status ls acceptance g t entry)) (servable entry) (conflict_in merged ls entry)
      (kinds_served entry /\ certs_usable ls entry) (hostnameCaptureRisk (l_Hostname entry) (l_AllowedRoutes entry) = true))
    (ls_Listeners ls).
Proof.
  intros acceptance Hm Hnd. destruct (computeAcceptance_evaluated gateway ls merged Hm) as (view & checks & attached & Ha & _ & _ & Hc & _ & He).
  fold acceptance in He. split; [done|]. pose proof (summarise_spec merged ls checks Hc Hnd) as Hs.
  destruct (summariseListenerSet merged ls checks) as [[accepted reason] message]. rewrite He. split; [exact Hs|].
  apply Forall_forall. intros entry Hin. destruct (entry_check_decides ls checks entry Hc Hnd Hin) as (check & Hl & _ & Hd).
  unfold entry_status. cbn [acc_MergeResult acc_RefChecks]. change (default [] (Some merged)) with merged.
  pose proof (entry_refs_condition ls entry check g t Hd) as Hrefs.
  destruct (FilterSupportedKinds _ _) as [[kinds valid] invalid]. cbn zeta in Hrefs. destruct Hrefs as (Ht & Hg & b & Hst & Hb).
  cbn [lst_Conditions]. unfold listenerEntryConditions. rewrite Hl.
  set (refs := if bool_decide (rk_Status check = ConditionFalse) then _ else _) in *.
  pose proof (entry_conflicted_spec merged ls entry) as Hconf. pose proof (servable_spec entry) as Hserv.
  assert (Hcase : (exists m, findMergedEntry merged ls (l_Name entry) = Some m /\ ml_ConflictReason m <> "") \/
    (~ conflict_in merged ls entry /\ forall T (f : MergedListener -> T) (d : T),
      match findMergedEntry merged ls (l_Name entry) with
      | Some m => if negb (bool_decide (ml_ConflictReason m = "")) then f m else d | None => d end = d)).
  { unfold conflict_in. destruct (findMergedEntry merged ls (l_Name entry)) as [m|]; [|right; split; [by intros (? & ? & _)|done]].
    destruct (decide (ml_ConflictReason m = "")) as [Hr|Hr]; [right|left; eauto]. split; [by intros (? & [= <-] & ?)|].
    intros. by rewrite bool_decide_eq_true_2. }
  destruct Hcase as [(m & Hf & Hr)|[Hno Heq]].
  - rewrite Hf, (bool_decide_eq_false_2 _ Hr). cbn [negb]. cbn [FindStatusCondition conflictedEntryConditions].
    rewrite bool_decide_eq_false_2 by (by vm_compute). cbn [andb]. rewrite app_nil_r.
    pose proof (conflict_exact g t m refs b (hostnameCaptureRisk (l_Hostname entry) (l_AllowedRoutes entry) = true) (servable entry) Ht Hg Hst) as H.
    unfold listener_conditions_exact in *. rewrite <-Hb. assert (conflict_in merged ls entry) by (by exists m). tauto.
  - rewrite !Heq. pose proof (accepted_entry_exact g t entry refs (hostnameCaptureRisk (l_Hostname entry) (l_AllowedRoutes entry)) b Ht Hg Hst) as H.
    cbn zeta in H. assert (Hacc : bool_decide (cond_Status <$> FindStatusCondition (acceptedEntryConditions g t (l_Protocol entry) refs)
      ListenerConditionAccepted = Some ConditionTrue) = servableListenerProtocol (l_Protocol entry)).
    { unfold acceptedEntryConditions, buildListenerAcceptedCondition. destruct (servableListenerProtocol _); [|by vm_compute]. by destruct (bool_decide (cond_Status refs = ConditionFalse)); vm_compute. }
    rewrite Hacc. unfold listener_conditions_exact in *. rewrite <-Hb, <-Hserv. tauto.
Qed.

Lemma accepted_candidates g candidates accepted :
  acceptedFromCandidates g candidates = Ok accepted ->
  accepted = List.filter (fun c => match EvaluateListenerSetAcceptance g (lso_Set c) with Ok b => b | Err _ => false end) candidates.
Proof.
  revert accepted. induction candidates as [|c cs IH]; intros accepted; cbn [acceptedFromCandidates List.filter]; [by intros [= <-]|].
  destruct (EvaluateListenerSetAcceptance g (lso_Set c)) as [b|]; [|done]. destruct (acceptedFromCandidates g cs) as [rest|]; [|done].
  cbn. intros [= <-]. rewrite <-(IH rest eq_refl). by destruct b.
Qed.
Lemma collect_readable ls :
  (forall ns name, read_secret ns name <> Unavailable) -> exists checks, collectListenerEntryRefChecks ls = Ok checks.
Proof.
  intros Hr. unfold collectListenerEntryRefChecks. generalize (∅ : gmap string listenerEntryRefsCheck).
  induction (ls_Listeners ls) as [|e es IH]; intros out; cbn [collect_checks]; [by eexists|].
  unfold resolveListenerEntryRefs. destruct (resolve_entry_refs ls (l_CertificateRefs e)) as [check|[ns name]] eqn:He; cbn; [apply IH|].
  by apply resolve_entry_refs_error, Hr in He.
Qed.

Lemma filter_three {A} (p e t q : A -> bool) (l : list A) :
  (forall x, x ∈ l -> e x = true -> p x = q x) -> (forall x, e x = false -> q x = false) ->
  List.filter p (List.filter e (List.filter t l)) = List.filter (fun x => t x && q x) l.
Proof.
  induction l as [|x l IH]; intros Hp Hq; [done|]. cbn [List.filter].
  assert (IH' := IH ltac:(intros; apply Hp; [by right|done]) Hq). clear IH. destruct (t x); cbn [andb List.filter]; [|done].
  destruct (e x) eqn:He; cbn [List.filter].
  - rewrite (Hp x ltac:(by left) He). destruct (q x); by rewrite IH'.
  - by rewrite (Hq x He).
Qed.

(** C31: A Gateway's count of attached ListenerSets is the number of ListenerSets
    that name it and whose own status is Accepted: the two controllers, which
    decide separately, agree, as long as no read of a Secret or list of routes
    fails and entries have distinct names. *)
Theorem attached_listenersets_agree {kube : KubeClient} (gateway : GatewayObject) (view : gatewayListenerView)
    (all : list ListenerSetObject) :
  kube_ListenerSets = Some all ->
  buildGatewayListenerView (go_Gateway gateway) = Ok view -> gateway_view gateway = Some view ->
  (forall ns name, read_secret ns name <> Unavailable) -> is_Some all_httpRoutes -> is_Some all_grpcRoutes ->
  (forall s, s ∈ all -> NoDup (l_Name <$> ls_Listeners (lso_Set s))) ->
  summariseAttachedListenerSets gateway =
  Some (Z.of_nat (length (List.filter (fun s => listenerSetTargetsGateway s (go_Gateway gateway) &&
                                                acc_Accepted (computeAcceptance gateway (lso_Set s))) all))).
Proof.
  intros Hall Hbuild Hview Hread [http Hh] [grpc Hg] Hnames. unfold summariseAttachedListenerSets. rewrite Hview.
  unfold buildGatewayListenerView, listTargetingListenerSets, viewFromCandidates in Hbuild. rewrite Hall in Hbuild. cbn in Hbuild.
  destruct (acceptedFromCandidates _ _) as [accepted|] eqn:Hacc; [|done]. apply accepted_candidates in Hacc. injection Hbuild as <-.
  cbn [view_acceptedSets view_merged]. set (merged := Merge _ _) in *. subst accepted. f_equal. f_equal.
  assert (Hagree : forall s, s ∈ all -> EvaluateListenerSetAcceptance (go_Gateway gateway) (lso_Set s) = Ok true ->
    listenerSetEntriesAccepted (lso_Set s) merged = acc_Accepted (computeAcceptance gateway (lso_Set s))).
  { intros s Hin He. destruct (collect_readable (lso_Set s) Hread) as [checks Hc]. apply eq_true_iff_eq.
    rewrite (entriesAccepted_spec merged _ checks Hc (Hnames s Hin)), <-(summarise_spec merged _ checks Hc (Hnames s Hin)).
    unfold computeAcceptance. rewrite He, Hview, Hc. cbn [view_merged].
    destruct (summariseListenerSet merged (lso_Set s) checks) as [[a r] m]. cbn [fst].
    unfold countAttachedRoutesPerEntry, countAttachedHTTPRoutes, countAttachedGRPCRoutes. by rewrite Hh, Hg. }
  assert (Hrej : forall s, EvaluateListenerSetAcceptance (go_Gateway gateway) (lso_Set s) <> Ok true ->
    acc_Accepted (computeAcceptance gateway (lso_Set s)) = false).
  { intros s He. unfold computeAcceptance. by destruct (EvaluateListenerSetAcceptance _ _) as [[]|]. }
  f_equal. apply filter_three.
  - intros s Hin He. apply Hagree; [done|]. by destruct (EvaluateListenerSetAcceptance _ _) as [[]|].
  - intros s He. apply Hrej. by destruct (EvaluateListenerSetAcceptance _ _) as [[]|].
Qed.
End exact.

(** ** What a reconcile writes *)

Definition set_owned : list string := [ListenerSetConditionAccepted; ListenerSetConditionProgrammed].
Definition set_not_ahead (gen : Z) (s : StoredListenerSet) : Prop :=
  (forall type c, type ∈ set_owned -> FindStatusCondition (lss_Conditions (sls_Status s)) type = Some c -> (cond_ObservedGeneration c <= gen)%Z) /\
  (forall l c, l ∈ lss_Listeners (sls_Status s) -> c ∈ lst_Conditions l -> (cond_ObservedGeneration c <= gen)%Z).
Lemma set_stale_spec gen s : listenerSetStatusStale gen s = false <-> set_not_ahead gen s.
Proof.
  unfold listenerSetStatusStale, set_not_ahead. fold set_owned. rewrite <-owned_stale.
  destruct (ownedConditionsStale _ _ _); [by split; [|intros []]|]. rewrite generations_stale. setoid_rewrite list_elem_of_fmap.
  split; [intros H; split; [done|]; intros l c Hl Hc; eapply H; eauto|]. intros [_ H] s' c (l & -> & Hl) Hc. eauto.
Qed.

Section set_status.
Context {cluster : Cluster} {routes : RouteLists} {views : ListenerViews} {grants : GrantClient} {secrets : SecretReader}.
Context {texts : ApiText} {pem : PemReader} {stexts : SetText}.

(** The reads an evaluation needs: the merged view, the certificates, the routes. *)
Definition set_reads (gateway : GatewayObject) (ls : ListenerSet) (merged : list MergedListener) : Prop :=
  (exists view, gateway_view gateway = Some view /\ view_merged view = merged) /\
  (exists checks, collectListenerEntryRefChecks ls = Ok checks) /\ is_Some all_httpRoutes /\ is_Some all_grpcRoutes.
(** Why a set is accepted, or is not. *)
Definition set_reason (gateway : GatewayObject) (ls : ListenerSet) (reason : string) : Prop :=
  let allowed := EvaluateListenerSetAcceptance (go_Gateway gateway) ls = Ok true in
  (reason = ListenerSetReasonNotAllowed /\ ~ allowed) \/
  (reason = ListenerSetReasonPending /\ allowed /\ ~ exists merged, set_reads gateway ls merged) \/
  (exists merged, allowed /\ set_reads gateway ls merged /\
     ((reason = ListenerSetReasonAccepted /\ some_entry_serves merged ls) \/
      (reason = ListenerSetReasonListenersNotValid /\ ~ some_entry_serves merged ls))).
Lemma counted_routes ls : is_Some (countAttachedRoutesPerEntry ls) <-> is_Some all_httpRoutes /\ is_Some all_grpcRoutes.
Proof.
  unfold countAttachedRoutesPerEntry, countAttachedHTTPRoutes, countAttachedGRPCRoutes.
  destruct all_httpRoutes as [http|]; cbn; [|by split; [intros [? ?]|intros [[? ?] _]]].
  destruct all_grpcRoutes as [grpc|]; cbn; [by split; eauto|by split; [intros [? ?]|intros [_ [? ?]]]].
Qed.
Lemma computeAcceptance_reason gateway ls :
  NoDup (l_Name <$> ls_Listeners ls) ->
  let acceptance := computeAcceptance gateway ls in
  set_reason gateway ls (acc_Reason acceptance) /\
  acc_Accepted acceptance = bool_decide (acc_Reason acceptance = ListenerSetReasonAccepted) /\
  (forall merged, EvaluateListenerSetAcceptance (go_Gateway gateway) ls = Ok true -> set_reads gateway ls merged ->
     acc_MergeResult acceptance = Some merged /\ countAttachedRoutesPerEntry ls = Some (acc_AttachedRoutes acceptance)).
Proof.
  intros Hnd. cbn zeta. unfold computeAcceptance, set_reason, set_reads.
  destruct (EvaluateListenerSetAcceptance (go_Gateway gateway) ls) as [[]|e]; cbn [acc_Reason acc_Accepted rejected_set]; [|by split_and!; [by left|..]..].
  destruct (gateway_view gateway) as [view|]; cbn [acc_Reason acc_Accepted rejected_set].
  2:{ split_and!; [right; left; split_and!; [done..|]|done|]; [intros (? & (? & ? & _) & _)|intros ? _ ((? & ? & _) & _)]; done. }
  destruct (collectListenerEntryRefChecks ls) as [checks|e] eqn:Hc; cbn [acc_Reason acc_Accepted rejected_set].
  2:{ split_and!; [right; left; split_and!; [done..|]|done|]; [intros (? & _ & (? & ?) & _)|intros ? _ (_ & (? & ?) & _)]; done. }
  pose proof (summarise_spec (view_merged view) ls checks Hc Hnd) as Hs.
  assert ((summariseListenerSet (view_merged view) ls checks).1 =
    if (summariseListenerSet (view_merged view) ls checks).1.1 then (true, ListenerSetReasonAccepted) else (false, ListenerSetReasonListenersNotValid)) as Hr
    by (unfold summariseListenerSet; by destruct (existsb _ _)).
  destruct (summariseListenerSet (view_merged view) ls checks) as [[accepted reason] message]. cbn [fst] in Hs, Hr.
  pose proof (counted_routes ls) as Hn. destruct (countAttachedRoutesPerEntry ls) as [attached|]; cbn [acc_Reason acc_Accepted acc_MergeResult acc_AttachedRoutes rejected_set].
  - destruct (proj1 Hn ltac:(by eexists)) as [Hh Hg]. split_and!.
    + right. right. exists (view_merged view). split; [done|]. split; [by split_and!; [eauto|eauto|..]|]. rewrite <-Hs.
      destruct accepted; injection Hr as ->; [by left|by right].
    + destruct accepted; by injection Hr as ->.
    + by intros merged _ ((view' & [= <-] & <-) & _).
  - split_and!; [|done|].
    + right. left. split_and!; [done..|]. intros (? & _ & _ & H). apply Hn in H as [? ?]. done.
    + intros ? _ (_ & _ & H). apply Hn in H as [? ?]. done.
Qed.

(** What the status says of an entry of a set that was evaluated, and of one that was not. *)
Definition evaluated_entry (gateway : GatewayObject) (ls : ListenerSet) (gen : Z) (entry : Listener) (status : ListenerStatus) : Prop :=
  (forall merged, set_reads gateway ls merged ->
     listener_conditions_exact gen (lst_Conditions status) (servable entry) (conflict_in merged ls entry)
       (kinds_served entry /\ certs_usable ls entry) (hostnameCaptureRisk (l_Hostname entry) (l_AllowedRoutes entry) = true)) /\
  forall http grpc, all_httpRoutes = Some http -> all_grpcRoutes = Some grpc ->
    lst_AttachedRoutes status = int32 (Z.of_nat (length (List.filter (binds ls KindHTTPRoute (l_Name entry)) http) +
                                                 length (List.filter (binds ls KindGRPCRoute (l_Name entry)) grpc))).
Definition refused_entry (reason : string) (gen : Z) (status : ListenerStatus) : Prop :=
  lst_AttachedRoutes status = 0%Z /\
  (fun c => (cond_Type c, cond_Status c, cond_Reason c, cond_ObservedGeneration c)) <$> lst_Conditions status =
  [(ListenerConditionAccepted, ConditionFalse, reason, gen); (ListenerConditionProgrammed, ConditionFalse, reason, gen);
   if bool_decide (reason = ListenerSetReasonPending) then (ListenerConditionResolvedRefs, ConditionUnknown, ListenerSetReasonPending, gen)
   else (ListenerConditionResolvedRefs, ConditionTrue, ListenerReasonResolvedRefs, gen)].
Definition entry_reported (entry : Listener) (status : ListenerStatus) : Prop :=
  lst_Name status = l_Name entry /\
  forall k, k ∈ lst_SupportedKinds status <-> k ∈ getAllowedKinds (l_AllowedRoutes entry) (l_Protocol entry) /\ supported_kind k = true.
Lemma reported_kinds entry k :
  let '(kinds, valid, _) := FilterSupportedKinds (l_AllowedRoutes entry) (l_Protocol entry) in
  k ∈ (if negb valid then [] else kinds) <-> k ∈ getAllowedKinds (l_AllowedRoutes entry) (l_Protocol entry) /\ supported_kind k = true.
Proof.
  rewrite FilterSupportedKinds_spec. destruct (existsb supported_kind _) eqn:E; cbn.
  - rewrite elem_of_list_filter. tauto.
  - split; [by intros ?%elem_of_nil|]. intros [Hk Hs]. apply not_true_iff_false in E as []. apply existsb_exists. exists k. by rewrite <-list_elem_of_In.
Qed.
Lemma entry_status_reported ls acceptance g t entry : entry_reported entry (entry_status ls acceptance g t entry).
Proof.
  pose proof (reported_kinds entry) as Hk. unfold entry_reported, entry_status. destruct (FilterSupportedKinds _ _) as [[kinds valid] invalid].
  split; [done|]. exact Hk.
Qed.
Lemma rejected_entry_reported acceptance g t entry :
  acc_Reason acceptance = ListenerSetReasonNotAllowed \/ acc_Reason acceptance = ListenerSetReasonPending ->
  entry_reported entry (rejected_entry_status acceptance g t entry) /\ refused_entry (acc_Reason acceptance) g (rejected_entry_status acceptance g t entry).
Proof.
  intros Hr. pose proof (reported_kinds entry) as Hk. unfold entry_reported, refused_entry, rejected_entry_status.
  destruct (FilterSupportedKinds _ _) as [[kinds valid] invalid]. split; [split; [done|exact Hk]|]. split; [done|].
  unfold rejectedEntryResolvedRefsCondition, listenerEntryReasonForListenerSetRejection. by destruct Hr as [-> | ->].
Qed.
Lemma rejected_entries gateway ls gen now acceptance :
  acc_Reason acceptance = ListenerSetReasonNotAllowed \/ acc_Reason acceptance = ListenerSetReasonPending ->
  acc_Accepted acceptance = bool_decide (acc_Reason acceptance = ListenerSetReasonAccepted) ->
  Forall2 (fun entry status =>
      entry_reported entry status /\
      if bool_decide (acc_Reason acceptance = ListenerSetReasonNotAllowed \/ acc_Reason acceptance = ListenerSetReasonPending)
      then refused_entry (acc_Reason acceptance) gen status
      else evaluated_entry gateway ls gen entry status) (ls_Listeners ls)
    (if acc_Accepted acceptance || bool_decide (acc_Reason acceptance = ListenerSetReasonListenersNotValid)
     then buildListenerSetEntryStatuses ls acceptance gen now else buildListenerSetRejectedEntryStatuses ls acceptance gen now).
Proof.
  intros Hr ->. rewrite (bool_decide_eq_true_2 (_ \/ _)) by done. unfold buildListenerSetRejectedEntryStatuses.
  replace (bool_decide (acc_Reason acceptance = ListenerSetReasonAccepted)) with false by (by destruct Hr as [-> | ->]).
  replace (bool_decide (acc_Reason acceptance = ListenerSetReasonListenersNotValid)) with false by (by destruct Hr as [-> | ->]).
  cbn [orb andb]. apply Forall2_fmap_r, Forall_Forall2_diag, Forall_forall. intros entry _. by apply rejected_entry_reported.
Qed.
Lemma aggregate_set now conditions gen acceptance :
  let news := buildListenerSetAggregateConditions gen now acceptance in
  let after := foldl (SetStatusCondition now) conditions news in
  others set_owned after = others set_owned conditions /\
  forall new, new ∈ news -> exists c, FindStatusCondition after (cond_Type new) = Some c /\ same_verdict c new.
Proof.
  cbn zeta. split.
  - apply apply_others. intros c Hin. repeat (apply elem_of_cons in Hin as [->|Hin]); [..|by apply elem_of_nil in Hin]; cbn; unfold set_owned; set_solver.
  - intros new Hin. apply apply_find; [done|]. by apply (bool_decide_unpack _); vm_compute.
Qed.

(** C30: The status of a ListenerSet is exact, whatever could be read.  Its
    Accepted condition gives the reason: NotAllowed when its Gateway does not allow
    the set, Pending when the merged view, a Secret or the routes could not be read,
    and otherwise Accepted when some entry is free of conflicts in the merged view
    and may use its certificates, ListenersNotValid when none is; Programmed agrees
    with it.  These two conditions, of the set's generation, are all it changes.
    Each entry is reported under its name with the kinds it may serve.  In a set
    that was evaluated its conditions say exactly whether it is served: Accepted
    for an HTTP or HTTPS entry without conflict, Programmed if moreover its route
    kinds are served and its certificates usable, with the conflict, the references
    and the hostname advisory as they are; in a set that was not, it is neither
    accepted nor programmed, for the reason of the set, and has no routes.  The
    acceptance of the set looks at certificates only: an entry whose route kinds
    are not served still counts for it. *)
Theorem listenerset_status_exact (gateway : GatewayObject) (fresh : StoredListenerSet) (now : Z) :
  let ls := lso_Set (sls_Object fresh) in
  let gen := lso_Generation (sls_Object fresh) in
  let status := set_status gateway fresh now in
  NoDup (l_Name <$> ls_Listeners ls) ->
  exists reason accepted programmed,
    set_reason gateway ls reason /\
    others set_owned (lss_Conditions status) = others set_owned (lss_Conditions (sls_Status fresh)) /\
    FindStatusCondition (lss_Conditions status) ListenerSetConditionAccepted = Some accepted /\
    FindStatusCondition (lss_Conditions status) ListenerSetConditionProgrammed = Some programmed /\
    cond_Reason accepted = reason /\ cond_ObservedGeneration accepted = gen /\ cond_ObservedGeneration programmed = gen /\
    cond_Status accepted = condition_status (bool_decide (reason = ListenerSetReasonAccepted)) /\ cond_Status programmed = cond_Status accepted /\
    cond_Reason programmed = (if bool_decide (reason = ListenerSetReasonAccepted) then ListenerSetReasonProgrammed else reason) /\
    Forall2 (fun entry status =>
      entry_reported entry status /\
      if bool_decide (reason = ListenerSetReasonNotAllowed \/ reason = ListenerSetReasonPending) then refused_entry reason gen status
      else evaluated_entry gateway ls gen entry status) (ls_Listeners ls) (lss_Listeners status).
Proof.
  intros ls gen status Hnd. destruct (computeAcceptance_reason gateway ls Hnd) as (Hreason & Hacc & Hreads).
  destruct (aggregate_set now (lss_Conditions (sls_Status fresh)) gen (computeAcceptance gateway ls)) as [Ho Hf]. cbn zeta in *.
  unfold status, set_status. fold ls gen. cbn [lss_Conditions lss_Listeners]. set (acceptance := computeAcceptance gateway ls) in *.
  destruct (Hf _ (list_elem_of_here _ _)) as (ca & Hca & Hva). destruct (Hf _ (list_elem_of_further _ _ _ (list_elem_of_here _ _))) as (cp & Hcp & Hvp).
  exists (acc_Reason acceptance), ca, cp. split; [done|]. split; [done|]. split; [done|]. split; [done|].
  destruct Hva as (_ & Hs & Hg & Hr & _), Hvp as (_ & Hs' & Hg' & Hr' & _). cbn in Hs, Hg, Hr, Hs', Hg', Hr'.
  rewrite Hacc in Hs, Hs', Hr'. split_and!; try congruence.
  assert (acc_Reason acceptance = ListenerSetReasonNotAllowed \/ acc_Reason acceptance = ListenerSetReasonPending \/
    (acc_Accepted acceptance || bool_decide (acc_Reason acceptance = ListenerSetReasonListenersNotValid) = true /\
     ~ (acc_Reason acceptance = ListenerSetReasonNotAllowed \/ acc_Reason acceptance = ListenerSetReasonPending) /\
     EvaluateListenerSetAcceptance (go_Gateway gateway) ls = Ok true /\ exists merged, set_reads gateway ls merged)) as Hcases.
  { destruct Hreason as [[Hn _]|[(Hn & _ & _)|(merged & Ha & Hrd & [[Hn _]|[Hn _]])]]; [by left|by right; left|right; right..];
      rewrite Hacc, Hn; (split; [done|]); (split; [by intros []|]); eauto. }
  destruct Hcases as [Hn|[Hn|(Hb & Hnot & Ha & merged & Hrd)]].
  - by apply rejected_entries; [left|].
  - by apply rejected_entries; [right|].
  - rewrite Hb, bool_decide_eq_false_2 by done. apply Forall2_fmap_r, Forall_Forall2_diag, Forall_forall. intros entry Hin.
    split; [apply entry_status_reported|]. destruct (Hreads merged Ha Hrd) as [Hm Hcount]. split.
    + intros merged' Hrd'. destruct (Hreads merged' Ha Hrd') as [Hm' _].
      destruct (evaluated_entries_exact gateway ls merged' gen now Hm' Hnd) as (_ & _ & He). by apply (proj1 (Forall_forall _ _) He).
    + intros http grpc Hhttp Hgrpc. pose proof (entry_attached_exact ls entry http grpc Hhttp Hgrpc Hin) as He. rewrite Hcount in He. injection He as He.
      unfold entry_status. destruct (FilterSupportedKinds _ _) as [[kinds valid] invalid]. cbn [lst_AttachedRoutes]. by rewrite He.
Qed.
End set_status.

Section writes.
Context {cluster : Cluster} {routes : RouteLists} {views : ListenerViews} {grants : GrantClient} {secrets : SecretReader}.
Context {texts : ApiText} {pem : PemReader} {stexts : SetText} {kube : KubeClient} {gateways : GatewayReader} (controllerName : string).

(** A reconcile writes only for a set whose Gateway exists and is this
    controller's, keeps the object and other controllers' conditions, overwrites
    nothing newer, and sets both aggregate conditions to the computed acceptance. *)
Lemma listenerset_write_bounded (ls : StoredListenerSet) (attempts : nat -> StatusAttempt StoredListenerSet) before after :
  versions_identify attempts ->
  ListenerSet_Reconcile controllerName (Found ls) attempts = Ok (set_written (write_stored before after)) ->
  exists parent, fetchParentGateway (sls_Object ls) = Found parent /\ isManagedGateway controllerName parent = Some true /\
    set_not_ahead (lso_Generation (sls_Object ls)) before /\ sls_Object after = sls_Object before /\
    others set_owned (lss_Conditions (sls_Status after)) = others set_owned (lss_Conditions (sls_Status before)) /\
    forall type, type ∈ set_owned -> exists c, FindStatusCondition (lss_Conditions (sls_Status after)) type = Some c /\
      cond_Status c = condition_status (acc_Accepted (computeAcceptance parent (lso_Set (sls_Object before)))).
Proof.
  intros Hver. unfold ListenerSet_Reconcile. destruct (fetchParentGateway _) as [parent| |]; [|done..].
  destruct (isManagedGateway controllerName parent) as [[]|] eqn:Hm; [|done..]. unfold reconcileStatus.
  pose proof (write_status_spec (listenerSetStatusStale (lso_Generation (sls_Object ls)))
    (fun fresh now => mkStoredListenerSet (sls_Object fresh) (set_status parent fresh now)) attempts Hver) as Hw.
  destruct (write_status _ _ attempts) as [w|]; [|done]. intros [= ->]. destruct Hw as (i & _ & _ & Hs & ->).
  exists parent. apply set_stale_spec in Hs. split_and!; try done.
  - cbn [sls_Status set_status lss_Conditions]. apply apply_others. intros c Hin. repeat (apply elem_of_cons in Hin as [->|Hin]); [..|by apply elem_of_nil in Hin];
      cbn; unfold set_owned; set_solver.
  - intros type Hin. cbn [sls_Status set_status lss_Conditions].
    set (acc := computeAcceptance parent (lso_Set (sls_Object before))).
    set (news := buildListenerSetAggregateConditions _ _ acc).
    assert (Hnd : NoDup (cond_Type <$> news)) by (by apply (bool_decide_unpack _); vm_compute).
    assert (Hc : exists c, c ∈ news /\ cond_Type c = type /\ cond_Status c = condition_status (acc_Accepted acc)).
    { unfold set_owned in Hin. repeat (apply elem_of_cons in Hin as [->|Hin]); [..|by apply elem_of_nil in Hin].
      - eexists. split; [by left|done].
      - eexists. split; [right; by left|done]. }
    destruct Hc as (c & Hc & <- & Hst). destruct (apply_find (sa_Now (attempts i)) (lss_Conditions (sls_Status before)) news c Hc Hnd)
      as (d & Hd & (_ & Hds & _)). exists d. split; [exact Hd|congruence].
Qed.
End writes.

(** ** Examples *)

Definition open_gateway : GatewayObject :=
  mkGatewayObject (mkGateway "edge" "prod" [] (Some (mkAllowedListeners (Some (mkRouteNamespaces (Some NamespacesFromAll) None)))))
    1 "class" None None.
Definition one_set (entries : list Listener) : ListenerSetObject := mkListenerSetObject (mkListenerSet "extra" "prod" 0 entries) 1 None "edge".
Definition set_cluster (entries : list Listener) : KubeClient := {|
  kube_Gateway _ _ := Some open_gateway; kube_ListenerSet _ _ := Some (one_set entries); kube_Gateways := Some [open_gateway];
  kube_ListenerSets := Some [one_set entries]; kube_GatewayClasses := Some [mkGatewayClass "class" "us" None] |}.
Definition set_views (entries : list Listener) : ListenerViews := @built_views counting_cluster (set_cluster entries).
Definition set_texts : SetText := {| binding_error _ := ""; view_error := ""; refs_error _ := ""; routes_error := "" |}.
Definition web_entry (kinds : list RouteGroupKind) (protocol : string) (certs : list SecretObjectReference) : Listener :=
  mkListener "web" (Some "a.example.com") 443 protocol (Some (mkAllowedRoutes None kinds)) certs.
Definition set_acceptance (secrets : SecretReader) (entries : list Listener) : listenerSetAcceptanceResult :=
  @computeAcceptance counting_cluster (route_to []) (set_views entries) one_grant secrets plain_api crt_pem set_texts open_gateway
    (lso_Set (one_set entries)).
Definition set_ref : ParentReference := mkParentReference None (Some kindListenerSet) None "extra" None None.

(** Two parentRefs of one route count once. *)
Lemma entry_attached_exact_witness :
  (fun counts => counts !! "web") <$> @countAttachedRoutesPerEntry counting_cluster (route_to [set_ref; set_ref])
    (lso_Set (one_set [web_entry [] "HTTP" []])) = Some (Some 1%Z).
Proof.
  refine (eq_trans (@entry_attached_exact counting_cluster (route_to [set_ref; set_ref]) (lso_Set (one_set [web_entry [] "HTTP" []]))
    (web_entry [] "HTTP" []) _ _ eq_refl eq_refl (list_elem_of_here _ _)) _). by vm_compute.
Defined.
(** A set whose Secret cannot be read now: it is Pending, and so are its entries. *)
Definition tls_entry : Listener := web_entry [] "HTTPS" [mkSecretObjectReference None None "crt" None].
Definition secrets_down : SecretReader := fun _ _ => Unavailable.
Lemma listenerset_status_exact_witness :
  let status := @set_status counting_cluster (route_to []) (set_views [tls_entry]) one_grant secrets_down plain_api crt_pem set_texts
    open_gateway (mkStoredListenerSet (one_set [tls_entry]) (mkListenerSetStatus [] [])) 0 in
  exists accepted, FindStatusCondition (lss_Conditions status) ListenerSetConditionAccepted = Some accepted /\
    cond_Reason accepted = ListenerSetReasonPending /\ cond_Status accepted = ConditionFalse /\ Forall (refused_entry ListenerSetReasonPending 1) (lss_Listeners status).
Proof.
  intros status.
  destruct (@listenerset_status_exact counting_cluster (route_to []) (set_views [tls_entry]) one_grant secrets_down plain_api crt_pem set_texts
    open_gateway (mkStoredListenerSet (one_set [tls_entry]) (mkListenerSetStatus [] [])) 0)
    as (reason & accepted & programmed & Hr & _ & Hf & _ & Hcr & _ & _ & Hs & _ & _ & He).
  - apply (bool_decide_unpack _). by vm_compute.
  - destruct Hr as [[_ Hn]|[[-> _]|(merged & _ & (_ & (checks & Hc) & _) & _)]].
    + destruct Hn. by vm_compute.
    + exists accepted. split; [exact Hf|]. split; [exact Hcr|]. split; [exact Hs|]. apply Forall_forall. intros st [i Hi]%list_elem_of_lookup.
      destruct (Forall2_lookup_r _ _ _ _ _ He Hi) as (entry & _ & _ & Hst). exact Hst.
    + by vm_compute in Hc.
Defined.
Lemma attached_listenersets_agree_witness :
  @summariseAttachedListenerSets one_grant one_secret plain_api crt_pem (set_views [web_entry [] "HTTP" []]) open_gateway = Some 1%Z.
Proof.
  set (entries := [web_entry [] "HTTP" []]).
  rewrite (@attached_listenersets_agree counting_cluster (route_to []) (set_views entries) one_grant one_secret plain_api crt_pem set_texts
    (set_cluster entries) open_gateway
    (mkGatewayListenerView [one_set entries] (Merge (Some (go_Gateway open_gateway)) [lso_Set (one_set entries)])) [one_set entries]).
  - by vm_compute.
  - done.
  - by vm_compute.
  - by vm_compute.
  - intros ns name. unfold read_secret, one_secret. by destruct (_ && _).
  - by eexists.
  - by eexists.
  - intros s ->%list_elem_of_singleton. apply (bool_decide_unpack _). by vm_compute.
Defined.

(** A set none of whose entries is served, for its route kinds or for its
    protocol, is accepted and programmed. *)
Lemma unserved_set_accepted :
  let tcp_kind := web_entry [mkRouteGroupKind None "TCPRoute"] "HTTP" [] in
  let tcp := web_entry [] "TCP" [] in
  (acc_Accepted (set_acceptance one_secret [tcp_kind]), acc_Accepted (set_acceptance one_secret [tcp])) = (true, true).
Proof. by vm_compute. Qed.
(** A Secret that cannot be read makes the set Pending, yet the Gateway counts it. *)
Lemma unreadable_secret_disagrees :
  let entries := [web_entry [] "HTTP" []; mkListener "tls" (Some "b.example.com") 443 "HTTP" None [mkSecretObjectReference None None "x" None]] in
  let down : SecretReader := fun _ _ => Unavailable in
  acc_Reason (set_acceptance down entries) = ListenerSetReasonPending /\
  @summariseAttachedListenerSets one_grant down plain_api crt_pem (set_views entries) open_gateway = Some 1%Z.
Proof. by vm_compute. Qed.
