(* ===== verification/Render.v ===== *)
(** * Rendered data planes ([internal/render])

    The objects of a Gateway with its own data plane: the proxy Deployment, the
    config Service, the autoscaler and the NetworkPolicy.  Names are those of
    [RenderNames]; quantities stay strings.  A field the API server would fill is
    kept as it is sent: a pointer is an option, and an empty string or a zero is a
    field that was not set. *)
From Stdlib Require Import Ascii.
From stdpp Require Import sorting.
From stdpp Require Import base sets gmap strings list.
From S2P Require Import Prelude GoStrings RouterState RouteBinding RenderNames ConfigResolver.

(** A Gateway as the renderer sees it: its infrastructure labels and annotations. *)
Record PlaneGateway := mkPlaneGateway {
  pl_Object : GatewayObject; pl_UID : string; pl_Deleting : bool;
  pl_Labels : gmap string string; pl_Annotations : gmap string string }.
Definition pl_Name (g : PlaneGateway) : string := gw_Name (go_Gateway (pl_Object g)).
Definition pl_Namespace (g : PlaneGateway) : string := gw_Namespace (go_Gateway (pl_Object g)).

Definition GatewayLabel : string := "cf.k8s.lex.la/gateway".
Definition tokenHashAnnotation : string := "cf.k8s.lex.la/tunnel-token-hash".
Definition authTokenHashAnnotation : string := "cf.k8s.lex.la/auth-token-hash".
Definition defaultServiceAccountName : string := "default".
Definition defaultSchedulerName : string := "default-scheduler".
Definition nobodyUID : Z := 65534.
Definition proxyPort : Z := 8080.
Definition terminationGracePeriodSeconds : Z := 45.
Definition revisionHistoryLimit : Z := 10.
Definition progressDeadlineSeconds : Z := 600.
Definition containerName : string := "proxy".
Definition configPortName : string := "config-api".
Definition proxyPortName : string := "proxy".
Definition namespaceNameLabel : string := "kubernetes.io/metadata.name".
Definition tunnelTokenKey : string := "tunnel-token".
Definition authTokenKey : string := "auth-token".
Definition DefaultProxyReplicas : Z := 2.
Definition DefaultInFlightMetricName : string := "cftunnel_proxy_requests_in_flight".

Record Defaults := mkDefaults { def_ProxyImage : string; def_TunnelProtocol : string }.
Record Input := mkInput {
  in_Gateway : PlaneGateway; in_Config : GatewayConfig; in_TunnelToken : string; in_AuthToken : string; in_Defaults : Defaults }.

(** ** Objects *)

Record ObjectMeta := mkObjectMeta {
  om_Name : string; om_Namespace : string; om_Labels : gmap string string; om_Annotations : gmap string string }.
Inductive EnvVar := EnvValue (name value : string) | EnvSecret (name secret key : string).
(** [intstr.IntOrString] *)
Inductive IntOrString := FromInt (number : Z) | FromString (name : string).
Record Probe := mkProbe {
  pb_Path : string; pb_Port : IntOrString; pb_Scheme : string; pb_InitialDelaySeconds : Z; pb_PeriodSeconds : Z; pb_TimeoutSeconds : Z;
  pb_FailureThreshold : Z; pb_SuccessThreshold : Z }.
(** The security contexts: [RunAsNonRoot], [RunAsUser], the seccomp profile;
    [AllowPrivilegeEscalation], [ReadOnlyRootFilesystem], the dropped capabilities. *)
Record PodSecurityContext := mkPodSecurityContext {
  psc_RunAsNonRoot : option bool; psc_RunAsUser : option Z; psc_Seccomp : option string }.
Record SecurityContext := mkSecurityContext {
  sc_AllowPrivilegeEscalation : bool; sc_ReadOnlyRootFilesystem : bool; sc_Drop : list string }.
Record ContainerPort := mkContainerPort { cp_Name : string; cp_ContainerPort : Z; cp_Protocol : string }.
Record Container := mkContainer {
  ct_Name : string; ct_Image : string; ct_ImagePullPolicy : string; ct_TerminationMessagePath : string;
  ct_TerminationMessagePolicy : string; ct_SecurityContext : SecurityContext; ct_Env : list EnvVar;
  ct_Ports : list ContainerPort; ct_StartupProbe : Probe; ct_LivenessProbe : Probe; ct_ReadinessProbe : Probe;
  ct_Resources : ResourceRequirements }.
Record PodTemplate := mkPodTemplate {
  pt_Labels : gmap string string; pt_Annotations : gmap string string; pt_TerminationGracePeriodSeconds : option Z;
  pt_AutomountServiceAccountToken : option bool; pt_SecurityContext : option PodSecurityContext; pt_Containers : list Container;
  pt_RestartPolicy : string; pt_DNSPolicy : string; pt_SchedulerName : string;
  pt_ServiceAccountName : string; pt_DeprecatedServiceAccount : string }.
(** A strategy with its rolling update, when it has one. *)
Record RollingUpdate := mkRollingUpdate { ru_MaxUnavailable : option IntOrString; ru_MaxSurge : option IntOrString }.
Record DeploymentStrategy := mkDeploymentStrategy { dst_Type : string; dst_RollingUpdate : option RollingUpdate }.
Record DeploymentSpec := mkDeploymentSpec {
  ds_Replicas : option Z; ds_Selector : gmap string string; ds_Strategy : DeploymentStrategy;
  ds_RevisionHistoryLimit : option Z; ds_ProgressDeadlineSeconds : option Z; ds_Template : PodTemplate }.
Record ServicePort := mkServicePort { svp_Name : string; svp_Port : Z; svp_TargetPort : IntOrString; svp_Protocol : string }.
Record ServiceSpec := mkServiceSpec {
  ss_Type : string; ss_ClusterIP : string; ss_PublishNotReadyAddresses : bool; ss_Selector : gmap string string;
  ss_Ports : list ServicePort; ss_SessionAffinity : string; ss_InternalTrafficPolicy : string }.
Inductive MetricSpec := PodsMetric (name : string) (averageValue : Z) | ResourceMetric (name : string) (utilization : Z).
Record AutoscalerSpec := mkAutoscalerSpec {
  as_Target : string; as_MinReplicas : option Z; as_MaxReplicas : Z; as_Metrics : list MetricSpec }.
(** A peer is the selector of its namespaces. *)
Record NetworkPolicySpec := mkNetworkPolicySpec {
  np_PodSelector : gmap string string; np_PolicyTypes : list string; np_From : list LabelSelector;
  np_Protocol : option string; np_Port : IntOrString }.

(** ** Rendering *)

Section render.
Context {hash : Sha256}.

Definition selectorLabels (gateway : PlaneGateway) : gmap string string :=
  <["app.kubernetes.io/name" := "cloudflare-tunnel-gateway-proxy"]> {[GatewayLabel := GatewayLabelValue (pl_Name gateway)]}.
Definition resourceLabels (gateway : PlaneGateway) : gmap string string :=
  <["gateway.networking.k8s.io/gateway-class-name" := GatewayLabelValue (go_ClassName (pl_Object gateway))]>
    (<["gateway.networking.k8s.io/gateway-name" := GatewayLabelValue (pl_Name gateway)]>
      (<["app.kubernetes.io/managed-by" := "cloudflare-tunnel-gateway-controller"]>
        (<["app.kubernetes.io/component" := "proxy"]> (selectorLabels gateway ∪ pl_Labels gateway)))).
Definition resourceAnnotations (gateway : PlaneGateway) : gmap string string := pl_Annotations gateway.

Definition replicaCount (config : GatewayConfig) : option Z :=
  match gcfg_Autoscaling config with
  | Some _ => None
  | None => Some (default DefaultProxyReplicas (gcfg_Replicas config))
  end.
Definition hashToken (token : string) : string := hex_EncodeToString (sha256_Sum token).
Definition proxyImage (input : Input) : string :=
  if negb (bool_decide (gcfg_Image (in_Config input) = "")) then gcfg_Image (in_Config input) else def_ProxyImage (in_Defaults input).
Definition proxyEnv (input : Input) : list EnvVar :=
  let tokenRef := gcfg_TunnelTokenSecretRef (in_Config input) in
  let '(authName, authKey) :=
    match gcfg_AuthTokenSecretRef (in_Config input) with
    | Some ref => (lsr_Name ref, KeyOr ref authTokenKey)
    | None => (GeneratedAuthSecretName (pl_Name (in_Gateway input)), authTokenKey)
    end in
  let protocol := def_TunnelProtocol (in_Defaults input) in
  [EnvSecret "TUNNEL_TOKEN" (lsr_Name tokenRef) (KeyOr tokenRef tunnelTokenKey); EnvSecret "PROXY_AUTH_TOKEN" authName authKey] ++
  (if negb (bool_decide (protocol = "")) && negb (bool_decide (protocol = "auto")) then [EnvValue "PROXY_TUNNEL_PROTOCOL" protocol] else []).
Definition proxyResources (config : GatewayConfig) : ResourceRequirements :=
  match gcfg_Resources config with
  | Some r => r
  | None => mkResourceRequirements {["cpu" := "500m"; "memory" := "512Mi"]} {["cpu" := "100m"; "memory" := "128Mi"]}
  end.
Definition podSecurityContext : PodSecurityContext := mkPodSecurityContext (Some true) (Some nobodyUID) (Some "RuntimeDefault").
Definition containerSecurityContext : SecurityContext := mkSecurityContext false true ["ALL"].

Record probeSpec := mkProbeSpec { prs_initialDelay : Z; prs_period : Z; prs_timeout : Z; prs_failureThreshold : Z }.
Definition startupProbeSpec : probeSpec := mkProbeSpec 0 5 3 30.
Definition livenessProbeSpec : probeSpec := mkProbeSpec 15 20 5 3.
Definition readinessProbeSpec : probeSpec := mkProbeSpec 5 10 3 3.
Definition httpProbe (path : string) (spec : probeSpec) : Probe :=
  mkProbe path (FromString configPortName) "HTTP" (prs_initialDelay spec) (prs_period spec) (prs_timeout spec) (prs_failureThreshold spec) 1.

Definition proxyContainer (input : Input) : Container :=
  mkContainer containerName (proxyImage input) "IfNotPresent" "/dev/termination-log" "File" containerSecurityContext (proxyEnv input)
    [mkContainerPort configPortName configAPIPort "TCP"; mkContainerPort proxyPortName proxyPort "TCP"]
    (httpProbe "/healthz" startupProbeSpec) (httpProbe "/healthz" livenessProbeSpec) (httpProbe "/readyz" readinessProbeSpec)
    (proxyResources (in_Config input)).
Definition ProxyDeployment (input : Input) : ObjectMeta * DeploymentSpec :=
  let gateway := in_Gateway input in
  let podAnnotations := <[authTokenHashAnnotation := hashToken (in_AuthToken input)]>
                          (<[tokenHashAnnotation := hashToken (in_TunnelToken input)]> (resourceAnnotations gateway)) in
  (mkObjectMeta (DeploymentName (pl_Name gateway)) (pl_Namespace gateway) (resourceLabels gateway) (resourceAnnotations gateway),
   mkDeploymentSpec (replicaCount (in_Config input)) (selectorLabels gateway)
     (mkDeploymentStrategy "RollingUpdate" (Some (mkRollingUpdate (Some (FromString "25%")) (Some (FromString "25%")))))
     (Some revisionHistoryLimit) (Some progressDeadlineSeconds)
     (mkPodTemplate (resourceLabels gateway) podAnnotations (Some terminationGracePeriodSeconds) (Some false) (Some podSecurityContext)
        [proxyContainer input] "Always" "ClusterFirst" defaultSchedulerName defaultServiceAccountName defaultServiceAccountName)).
Definition ConfigService (input : Input) : ObjectMeta * ServiceSpec :=
  let gateway := in_Gateway input in
  (mkObjectMeta (ConfigServiceName (pl_Name gateway)) (pl_Namespace gateway) (resourceLabels gateway) (resourceAnnotations gateway),
   mkServiceSpec "ClusterIP" "None" true (selectorLabels gateway)
     [mkServicePort configPortName configAPIPort (FromString configPortName) "TCP"] "" "").
Definition ProxyNetworkPolicy (gateway : PlaneGateway) (controllerNamespace : string) (monitoring : option LabelSelector)
    : ObjectMeta * NetworkPolicySpec :=
  (mkObjectMeta (NetworkPolicyName (pl_Name gateway)) (pl_Namespace gateway) (resourceLabels gateway) (resourceAnnotations gateway),
   mkNetworkPolicySpec (selectorLabels gateway) ["Ingress"]
     (mkLabelSelector [(namespaceNameLabel, controllerNamespace)] [] :: option_list monitoring) (Some "TCP") (FromInt configAPIPort)).

Definition EffectiveMinReplicas (a : ProxyAutoscaling) : Z := default DefaultProxyReplicas (pa_MinReplicas a).
Definition EffectiveMetricName (a : ProxyAutoscaling) : string :=
  if bool_decide (pa_MetricName a = "") then DefaultInFlightMetricName else pa_MetricName a.
Definition Autoscaler (input : Input) : option (ObjectMeta * AutoscalerSpec) :=
  match gcfg_Autoscaling (in_Config input) with
  | None => None
  | Some auto =>
      let gateway := in_Gateway input in
      Some (mkObjectMeta (DeploymentName (pl_Name gateway)) (pl_Namespace gateway) (resourceLabels gateway) (resourceAnnotations gateway),
            mkAutoscalerSpec (DeploymentName (pl_Name gateway)) (Some (Z.min (EffectiveMinReplicas auto) (pa_MaxReplicas auto)))
              (pa_MaxReplicas auto) [PodsMetric (EffectiveMetricName auto) (pa_TargetInflightPerPod auto)])
  end.
End render.
