(* ===== verification/Infra.v ===== *)
(** * The data planes of Gateways ([controller/gateway_infra_reconciler.go])

    The reconciler that renders and applies the objects of a Gateway with its own
    data plane.  The cluster is a state: the objects and Secrets it touches, the
    events and route syncs it caused, and the outcomes of the API calls still to
    come, so that every call may fail, or take effect and fail, or race.  The API
    server stores what it is sent with the unset fields defaulted, as its reference
    documents. *)
From Stdlib Require Import Ascii.
From stdpp Require Import sorting.
From stdpp Require Import base sets gmap strings list.
From S2P Require Import Prelude GoStrings GoHttp RouterState Filters RouteBinding RenderNames ConfigResolver IngressBuild CertRefs GatewayStatus Render.

(** ** The cluster *)

Record OwnerReference := mkOwnerReference { own_APIVersion : string; own_Kind : string; own_Name : string; own_UID : string }.
Inductive PlaneKind := KindDeployment | KindService | KindAutoscaler | KindNetworkPolicy.
Inductive PlaneSpec :=
| DeploymentObject (spec : DeploymentSpec) | ServiceObject (spec : ServiceSpec)
| AutoscalerObject (spec : AutoscalerSpec) | NetworkPolicyObject (spec : NetworkPolicySpec).
(** An object with its controller, if it has one. *)
Record PlaneObject := mkPlaneObject {
  po_Owner : option OwnerReference; po_Labels : gmap string string; po_Annotations : gmap string string; po_Spec : PlaneSpec }.
Record PlaneSecret := mkPlaneSecret { psec_Owner : option OwnerReference; psec_Data : gmap string string }.

Instance PlaneKind_eq : EqDecision PlaneKind.
Proof. solve_decision. Defined.
#[export] Instance PlaneKind_countable : Countable PlaneKind.
Proof.
  refine (inj_countable' (fun k => match k with KindDeployment => 0 | KindService => 1 | KindAutoscaler => 2 | KindNetworkPolicy => 3 end)
    (fun n => match n with 0 => KindDeployment | 1 => KindService | 2 => KindAutoscaler | _ => KindNetworkPolicy end) _).
  by intros [].
Defined.
Instance OwnerReference_eq : EqDecision OwnerReference.
Proof. solve_decision. Defined.
Instance EnvVar_eq : EqDecision EnvVar.
Proof. solve_decision. Defined.
Instance IntOrString_eq : EqDecision IntOrString.
Proof. solve_decision. Defined.
Instance Probe_eq : EqDecision Probe.
Proof. solve_decision. Defined.
Instance PodSecurityContext_eq : EqDecision PodSecurityContext.
Proof. solve_decision. Defined.
Instance SecurityContext_eq : EqDecision SecurityContext.
Proof. solve_decision. Defined.
Instance ResourceRequirements_eq : EqDecision ResourceRequirements.
Proof. solve_decision. Defined.
Instance ContainerPort_eq : EqDecision ContainerPort.
Proof. solve_decision. Defined.
Instance Container_eq : EqDecision Container.
Proof. solve_decision. Defined.
Instance PodTemplate_eq : EqDecision PodTemplate.
Proof. solve_decision. Defined.
Instance RollingUpdate_eq : EqDecision RollingUpdate.
Proof. solve_decision. Defined.
Instance DeploymentStrategy_eq : EqDecision DeploymentStrategy.
Proof. solve_decision. Defined.
Instance DeploymentSpec_eq : EqDecision DeploymentSpec.
Proof. solve_decision. Defined.
Instance ServicePort_eq : EqDecision ServicePort.
Proof. solve_decision. Defined.
Instance ServiceSpec_eq : EqDecision ServiceSpec.
Proof. solve_decision. Defined.
Instance MetricSpec_eq : EqDecision MetricSpec.
Proof. solve_decision. Defined.
Instance AutoscalerSpec_eq : EqDecision AutoscalerSpec.
Proof. solve_decision. Defined.
Instance LabelSelector_eq : EqDecision LabelSelector.
Proof. solve_decision. Defined.
Instance NetworkPolicySpec_eq : EqDecision NetworkPolicySpec.
Proof. solve_decision. Defined.
Instance PlaneSpec_eq : EqDecision PlaneSpec.
Proof. solve_decision. Defined.
Instance PlaneObject_eq : EqDecision PlaneObject.
Proof. solve_decision. Defined.

(** Kind, namespace and name. *)
Notation ObjectKey := (PlaneKind * (string * string))%type.
(** The outcome of one API call: it works, it is refused, it takes effect but its
    answer is lost, or another writer gets there first: a Secret to create is this
    one already, an object to delete is gone. *)
Inductive Fault := call_ok | call_refused | call_lost | call_raced (secret : PlaneSecret).
Inductive InfraErr := errApiCall | errRefusedAdoption | errRandom | errResolve (e : ConfigError) | errClassRead.
Record PlaneState := mkPlaneState {
  pst_Objects : gmap ObjectKey PlaneObject; pst_Secrets : gmap (string * string) PlaneSecret;
  pst_Events : list (string * string); pst_Syncs : nat; pst_Faults : list Fault }.

(** ** A state and error monad over it *)

Definition Infra (A : Type) : Type := PlaneState -> res InfraErr A * PlaneState.
Instance Infra_ret : MRet Infra := fun A a s => (Ok a, s).
Instance Infra_bind : MBind Infra := fun A B k m s =>
  match m s with
  | (Err e, s') => (Err e, s')
  | (Ok a, s') => k a s'
  end.
Definition infra_fail {A} (e : InfraErr) : Infra A := fun s => (Err e, s).
Definition infra_lift {A} (r : res InfraErr A) : Infra A := fun s => (r, s).
Definition infra_gets {A} (f : PlaneState -> A) : Infra A := fun s => (Ok (f s), s).
Definition infra_modify (effect : PlaneState -> PlaneState) : Infra unit := fun s => (Ok tt, effect s).
(** Run [m], do [handler] on its error, and fail all the same. *)
Definition on_error {A} (m : Infra A) (handler : InfraErr -> Infra unit) : Infra A := fun s =>
  match m s with
  | (Err e, s') => (Err e, (handler e s').2)
  | r => r
  end.

Definition next_call : Infra Fault := fun s =>
  match pst_Faults s with
  | [] => (Ok call_ok, s)
  | f :: rest => (Ok f, mkPlaneState (pst_Objects s) (pst_Secrets s) (pst_Events s) (pst_Syncs s) rest)
  end.
Definition set_objects (objects : gmap ObjectKey PlaneObject) (s : PlaneState) : PlaneState :=
  mkPlaneState objects (pst_Secrets s) (pst_Events s) (pst_Syncs s) (pst_Faults s).
Definition event (reason message : string) : Infra unit := fun s =>
  (Ok tt, mkPlaneState (pst_Objects s) (pst_Secrets s) ((reason, message) :: pst_Events s) (pst_Syncs s) (pst_Faults s)).
Definition triggerRouteSync : Infra unit := fun s =>
  (Ok tt, mkPlaneState (pst_Objects s) (pst_Secrets s) (pst_Events s) (S (pst_Syncs s)) (pst_Faults s)).

Definition get_object (key : ObjectKey) : Infra (option PlaneObject) :=
  f ← next_call;
  match f with
  | call_ok => infra_gets (fun s => pst_Objects s !! key)
  | _ => infra_fail errApiCall
  end.
(** A write that may be refused, or take effect and be reported as failed. *)
Definition write_call (effect : PlaneState -> PlaneState) : Infra unit :=
  f ← next_call;
  match f with
  | call_ok => infra_modify effect
  | call_lost => _ ← infra_modify effect; infra_fail errApiCall
  | _ => infra_fail errApiCall
  end.
(** *** What the API server stores

    The defaulting of each kind, field by field.  The server chooses the pull policy
    of an image and the address of a Service that names none. *)
Class ApiServer := mkApiServer { default_pull_policy : string -> string; allocated_address : string }.
Definition set_string (fallback value : string) : string := if bool_decide (value = "") then fallback else value.
Definition set_number (fallback value : Z) : Z := if Z.eqb value 0 then fallback else value.
Definition defaulted_probe (p : Probe) : Probe :=
  mkProbe (set_string "/" (pb_Path p)) (pb_Port p) (set_string "HTTP" (pb_Scheme p)) (pb_InitialDelaySeconds p)
    (set_number 10 (pb_PeriodSeconds p)) (set_number 1 (pb_TimeoutSeconds p)) (set_number 3 (pb_FailureThreshold p))
    (set_number 1 (pb_SuccessThreshold p)).
Definition defaulted_port (p : ContainerPort) : ContainerPort :=
  mkContainerPort (cp_Name p) (cp_ContainerPort p) (set_string "TCP" (cp_Protocol p)).
Definition defaulted_container {server : ApiServer} (c : Container) : Container :=
  mkContainer (ct_Name c) (ct_Image c) (set_string (default_pull_policy (ct_Image c)) (ct_ImagePullPolicy c))
    (set_string "/dev/termination-log" (ct_TerminationMessagePath c)) (set_string "File" (ct_TerminationMessagePolicy c))
    (ct_SecurityContext c) (ct_Env c) (defaulted_port <$> ct_Ports c) (defaulted_probe (ct_StartupProbe c))
    (defaulted_probe (ct_LivenessProbe c)) (defaulted_probe (ct_ReadinessProbe c)) (ct_Resources c).
(** The two names of the service account are one field of the stored pod. *)
Definition defaulted_template {server : ApiServer} (t : PodTemplate) : PodTemplate :=
  let serviceAccount := set_string (pt_DeprecatedServiceAccount t) (pt_ServiceAccountName t) in
  mkPodTemplate (pt_Labels t) (pt_Annotations t) (Some (default 30%Z (pt_TerminationGracePeriodSeconds t)))
    (pt_AutomountServiceAccountToken t) (Some (default (mkPodSecurityContext None None None) (pt_SecurityContext t)))
    (defaulted_container <$> pt_Containers t) (set_string "Always" (pt_RestartPolicy t)) (set_string "ClusterFirst" (pt_DNSPolicy t))
    (set_string "default-scheduler" (pt_SchedulerName t)) serviceAccount serviceAccount.
Definition defaulted_strategy (strategy : DeploymentStrategy) : DeploymentStrategy :=
  let type := set_string "RollingUpdate" (dst_Type strategy) in
  if bool_decide (type = "RollingUpdate") then
    let rolling := default (mkRollingUpdate None None) (dst_RollingUpdate strategy) in
    mkDeploymentStrategy type (Some (mkRollingUpdate (Some (default (FromString "25%") (ru_MaxUnavailable rolling)))
      (Some (default (FromString "25%") (ru_MaxSurge rolling)))))
  else mkDeploymentStrategy type (dst_RollingUpdate strategy).
Definition defaulted_service_port (p : ServicePort) : ServicePort :=
  mkServicePort (svp_Name p) (svp_Port p)
    (match svp_TargetPort p with
     | FromInt 0 | FromString "" => FromInt (svp_Port p)
     | target => target
     end) (set_string "TCP" (svp_Protocol p)).
Definition defaulted_spec {server : ApiServer} (spec : PlaneSpec) : PlaneSpec :=
  match spec with
  | DeploymentObject d =>
      DeploymentObject (mkDeploymentSpec (Some (default 1%Z (ds_Replicas d))) (ds_Selector d) (defaulted_strategy (ds_Strategy d))
        (Some (default 10%Z (ds_RevisionHistoryLimit d))) (Some (default 600%Z (ds_ProgressDeadlineSeconds d)))
        (defaulted_template (ds_Template d)))
  | ServiceObject s =>
      ServiceObject (mkServiceSpec (set_string "ClusterIP" (ss_Type s)) (set_string allocated_address (ss_ClusterIP s))
        (ss_PublishNotReadyAddresses s) (ss_Selector s) (defaulted_service_port <$> ss_Ports s)
        (set_string "None" (ss_SessionAffinity s)) (set_string "Cluster" (ss_InternalTrafficPolicy s)))
  | AutoscalerObject a =>
      AutoscalerObject (mkAutoscalerSpec (as_Target a) (Some (default 1%Z (as_MinReplicas a))) (as_MaxReplicas a)
        (match as_Metrics a with [] => [ResourceMetric "cpu" 80] | metrics => metrics end))
  | NetworkPolicyObject n =>
      NetworkPolicyObject (mkNetworkPolicySpec (np_PodSelector n)
        (match np_PolicyTypes n with [] => ["Ingress"] | types => types end) (np_From n)
        (Some (default "TCP" (np_Protocol n))) (np_Port n))
  end.
Definition defaulted {server : ApiServer} (obj : PlaneObject) : PlaneObject :=
  mkPlaneObject (po_Owner obj) (po_Labels obj) (po_Annotations obj) (defaulted_spec (po_Spec obj)).
Definition put_object {server : ApiServer} (key : ObjectKey) (obj : PlaneObject) : Infra unit :=
  write_call (fun s => set_objects (<[key := defaulted obj]> (pst_Objects s)) s).
Definition delete_object (key : ObjectKey) : Infra unit :=
  f ← next_call;
  match f with
  | call_ok | call_raced _ => infra_modify (fun s => set_objects (delete key (pst_Objects s)) s)
  | call_lost => _ ← infra_modify (fun s => set_objects (delete key (pst_Objects s)) s); infra_fail errApiCall
  | call_refused => infra_fail errApiCall
  end.

(** [controllerutil.CreateOrUpdate] *)
Inductive OperationResult := OperationResultNone | OperationResultCreated | OperationResultUpdated.
Definition CreateOrUpdate {server : ApiServer} (key : ObjectKey) (mutate : option PlaneObject -> res InfraErr PlaneObject) : Infra OperationResult :=
  existing ← get_object key;
  obj ← infra_lift (mutate existing);
  match existing with
  | None => _ ← put_object key obj; mret OperationResultCreated
  | Some old => if bool_decide (obj = old) then mret OperationResultNone
                else _ ← put_object key obj; mret OperationResultUpdated
  end.

(** ** Applying the rendered objects *)

Definition eventReasonProxyProvisioned : string := "ProxyProvisioned".
Definition eventReasonRenderFailed : string := "RenderFailed".
Definition generatedAuthTokenKey : string := "auth-token".
Definition managedAnnotationsKey : string := "cf.k8s.lex.la/managed-annotations".

Definition mergeManagedAnnotations (existing desired : gmap string string) : gmap string string :=
  let previously := SplitByte (default "" (existing !! managedAnnotationsKey)) "," in
  let result := foldl (fun result key =>
    if bool_decide (key = "") then result
    else if bool_decide (is_Some (desired !! key)) then result else delete key result) existing previously in
  let managed := stable_sort str_ltb (fst <$> map_to_list desired) in
  let result := desired ∪ result in
  if length managed =? 0 then delete managedAnnotationsKey result
  else <[managedAnnotationsKey := Join managed ","]> result.

(** [metav1.GetControllerOf] is [po_Owner]; [None] is an object being created. *)
Definition owned_by (owner : option OwnerReference) (gateway : PlaneGateway) : bool :=
  match owner with Some o => bool_decide (own_UID o = pl_UID gateway) | None => false end.
Definition assertAdoptable (existing : option (option OwnerReference)) (gateway : PlaneGateway) : res InfraErr unit :=
  match existing with
  | None => Ok tt
  | Some owner => if owned_by owner gateway then Ok tt else Err errRefusedAdoption
  end.
(** [controllerutil.SetControllerReference] *)
Definition controller_reference (gateway : PlaneGateway) : OwnerReference :=
  mkOwnerReference "gateway.networking.k8s.io/v1" "Gateway" (pl_Name gateway) (pl_UID gateway).

(** The mutate functions share everything but the spec. *)
Definition mutate_object (gateway : PlaneGateway) (meta : ObjectMeta) (spec : option PlaneSpec -> PlaneSpec) (existing : option PlaneObject)
    : res InfraErr PlaneObject :=
  _ ← assertAdoptable (po_Owner <$> existing) gateway;
  Ok (mkPlaneObject (Some (controller_reference gateway)) (om_Labels meta)
        (mergeManagedAnnotations (from_option po_Annotations ∅ existing) (om_Annotations meta)) (spec (po_Spec <$> existing))).
Definition object_key (kind : PlaneKind) (meta : ObjectMeta) : ObjectKey := (kind, (om_Namespace meta, om_Name meta)).

Definition deployment_spec (desired : DeploymentSpec) (existing : option PlaneSpec) : PlaneSpec :=
  let hpaOwnedReplicas := match existing with Some (DeploymentObject d) => ds_Replicas d | _ => None end in
  DeploymentObject (mkDeploymentSpec (match ds_Replicas desired with Some r => Some r | None => hpaOwnedReplicas end)
    (ds_Selector desired) (ds_Strategy desired) (ds_RevisionHistoryLimit desired) (ds_ProgressDeadlineSeconds desired) (ds_Template desired)).
Definition service_spec (desired : ServiceSpec) (existing : option PlaneSpec) : PlaneSpec :=
  let kept := match existing with Some (ServiceObject s) => s | _ => mkServiceSpec "" "" false ∅ [] "" "" end in
  ServiceObject (mkServiceSpec (ss_Type desired) (if bool_decide (ss_ClusterIP kept = "") then ss_ClusterIP desired else ss_ClusterIP kept)
    (ss_PublishNotReadyAddresses desired) (ss_Selector desired) (ss_Ports desired) (ss_SessionAffinity kept) (ss_InternalTrafficPolicy kept)).

Definition deleteIfOwned (gateway : PlaneGateway) (key : ObjectKey) : Infra unit :=
  existing ← get_object key;
  match existing with
  | None => mret tt
  | Some obj => if owned_by (po_Owner obj) gateway then delete_object key else mret tt
  end.

Section infra.
Context {hash : Sha256} {server : ApiServer}.
Context {base : ConfigReader} (secret_fault : string -> string -> option ApiError) {decoder : TokenDecoder} {gateways : GatewayReader}.
Context (controllerName defaultNamespace : string) (renderDefaults : Defaults) (controllerNamespace : string).
Context (monitoring : option LabelSelector) (renderNetworkPolicy hasRouteSync : bool) (infra_text : InfraErr -> string).
(** What [rand.Read] returned. *)
Context (random_bytes : option string).

(** The resolver reads the Secrets of the cluster, where a read does not fail. *)
Definition plane_reader (s : PlaneState) : ConfigReader := {|
  get_GatewayConfig := get_GatewayConfig;
  get_GatewayClass := get_GatewayClass;
  get_GatewayClassConfig := get_GatewayClassConfig;
  get_Secret := fun namespace name =>
    match secret_fault namespace name with
    | Some e => Err e
    | None => match pst_Secrets s !! (namespace, name) with Some secret => Ok (psec_Data secret) | None => Err apiNotFound end
    end;
|}.

Definition applyDeployment (gateway : PlaneGateway) (input : Input) : Infra OperationResult :=
  let '(meta, spec) := ProxyDeployment input in
  CreateOrUpdate (object_key KindDeployment meta) (mutate_object gateway meta (deployment_spec spec)).
Definition applyService (gateway : PlaneGateway) (input : Input) : Infra OperationResult :=
  let '(meta, spec) := ConfigService input in
  CreateOrUpdate (object_key KindService meta) (mutate_object gateway meta (service_spec spec)).
Definition applyNetworkPolicy (gateway : PlaneGateway) : Infra OperationResult :=
  if negb renderNetworkPolicy then
    _ ← deleteIfOwned gateway (KindNetworkPolicy, (pl_Namespace gateway, NetworkPolicyName (pl_Name gateway)));
    mret OperationResultNone
  else
    let '(meta, spec) := ProxyNetworkPolicy gateway controllerNamespace monitoring in
    CreateOrUpdate (object_key KindNetworkPolicy meta) (mutate_object gateway meta (fun _ => NetworkPolicyObject spec)).
Definition applyAutoscaler (gateway : PlaneGateway) (input : Input) : Infra OperationResult :=
  match Autoscaler input with
  | None =>
      _ ← deleteIfOwned gateway (KindAutoscaler, (pl_Namespace gateway, DeploymentName (pl_Name gateway)));
      mret OperationResultNone
  | Some (meta, spec) =>
      CreateOrUpdate (object_key KindAutoscaler meta) (mutate_object gateway meta (fun _ => AutoscalerObject spec))
  end.

Definition reported {A} (m : Infra A) : Infra A := on_error m (fun e => event eventReasonRenderFailed (infra_text e)).
Definition no_image_message : string :=
  "per-gateway data plane not rendered: no proxy image configured — " +:+
  "set the controller's --proxy-image flag or GatewayConfig.spec.image".
Definition applyRendered (gateway : PlaneGateway) (perGateway : PerGatewayConfig) : Infra unit :=
  let input := mkInput gateway (pg_GatewayConfig perGateway) (pg_TunnelToken perGateway) (pg_AuthToken perGateway) renderDefaults in
  if bool_decide (gcfg_Image (pg_GatewayConfig perGateway) = "") && bool_decide (def_ProxyImage renderDefaults = "") then
    event eventReasonRenderFailed no_image_message
  else
    deploymentOp ← reported (applyDeployment gateway input);
    _ ← reported (applyService gateway input);
    _ ← reported (applyAutoscaler gateway input);
    _ ← reported (applyNetworkPolicy gateway);
    _ ← (match deploymentOp with
         | OperationResultCreated => event eventReasonProxyProvisioned "dedicated proxy data plane provisioned for this Gateway"
         | _ => mret tt
         end);
    match deploymentOp with
    | OperationResultNone => mret tt
    | _ => if hasRouteSync then triggerRouteSync else mret tt
    end.

Definition cleanupRendered (gateway : PlaneGateway) : Infra unit :=
  let ns := pl_Namespace gateway in
  let name := pl_Name gateway in
  _ ← deleteIfOwned gateway (KindDeployment, (ns, DeploymentName name));
  _ ← deleteIfOwned gateway (KindService, (ns, ConfigServiceName name));
  _ ← deleteIfOwned gateway (KindAutoscaler, (ns, DeploymentName name));
  deleteIfOwned gateway (KindNetworkPolicy, (ns, NetworkPolicyName name)).

(** ** The generated token *)

Definition read_owner (key : string * string) : Infra (option (option OwnerReference)) :=
  f ← next_call;
  match f with
  | call_ok => infra_gets (fun s => psec_Owner <$> pst_Secrets s !! key)
  | _ => infra_fail errApiCall
  end.
Definition set_secret (key : string * string) (secret : PlaneSecret) (s : PlaneState) : PlaneState :=
  mkPlaneState (pst_Objects s) (<[key := secret]> (pst_Secrets s)) (pst_Events s) (pst_Syncs s) (pst_Faults s).
(** Whether the Secret was created, or another one was there first. *)
Definition create_secret (key : string * string) (secret : PlaneSecret) : Infra bool :=
  f ← next_call;
  match f with
  | call_ok =>
      taken ← infra_gets (fun s => bool_decide (is_Some (pst_Secrets s !! key)));
      if (taken : bool) then mret false else _ ← infra_modify (set_secret key secret); mret true
  | call_raced other =>
      taken ← infra_gets (fun s => bool_decide (is_Some (pst_Secrets s !! key)));
      _ ← (if (taken : bool) then mret tt else infra_modify (set_secret key other)); mret false
  | call_lost =>
      taken ← infra_gets (fun s => bool_decide (is_Some (pst_Secrets s !! key)));
      _ ← (if (taken : bool) then mret tt else infra_modify (set_secret key secret)); infra_fail errApiCall
  | call_refused => infra_fail errApiCall
  end.
Definition generateAuthToken : res InfraErr string :=
  match random_bytes with Some buf => Ok (hex_EncodeToString buf) | None => Err errRandom end.
Definition ensureGeneratedAuthSecret (gateway : PlaneGateway) (gwConfig : GatewayConfig) : Infra unit :=
  match gcfg_AuthTokenSecretRef gwConfig with
  | Some _ => mret tt
  | None =>
      let key := (pl_Namespace gateway, GeneratedAuthSecretName (pl_Name gateway)) in
      existing ← read_owner key;
      match existing with
      | Some owner => infra_lift (assertAdoptable (Some owner) gateway)
      | None =>
          token ← infra_lift generateAuthToken;
          created ← create_secret key (mkPlaneSecret (Some (controller_reference gateway)) {[generatedAuthTokenKey := token]});
          if (created : bool) then mret tt
          else
            again ← read_owner key;
            match again with
            | None => infra_fail errApiCall
            | Some owner => infra_lift (assertAdoptable (Some owner) gateway)
            end
      end
  end.

(** ** One reconcile *)

Definition handleResolveError (err : ConfigError) : Infra unit :=
  match err with
  | ErrInvalidParameters => event eventReasonRenderFailed (infra_text (errResolve err))
  | _ => infra_fail (errResolve err)
  end.
Definition Infra_Reconcile (read : Lookup PlaneGateway) : Infra unit :=
  match read with
  | NotFound => mret tt
  | Unavailable => infra_fail errApiCall
  | Found gateway =>
      match classifyGatewayClass (pl_Object gateway) controllerName with
      | (_, true) => infra_fail errClassRead
      | (gatewayClassForeign, false) => cleanupRendered gateway
      | (gatewayClassUnknown, false) => mret tt
      | (gatewayClassManaged, false) =>
          if pl_Deleting gateway then mret tt
          else
            match go_ParametersRef (pl_Object gateway) with
            | None => cleanupRendered gateway
            | Some ref =>
                gwConfig ← infra_gets (fun s => @getGatewayConfig (plane_reader s) (pl_Object gateway) ref);
                match gwConfig with
                | Err err => handleResolveError err
                | Ok gwConfig =>
                    _ ← reported (ensureGeneratedAuthSecret gateway gwConfig);
                    perGateway ← infra_gets (fun s => @ResolveForGateway (plane_reader s) decoder hash defaultNamespace (pl_Object gateway));
                    match perGateway with
                    | Err err => handleResolveError err
                    | Ok None => mret tt
                    | Ok (Some perGateway) => applyRendered gateway perGateway
                    end
                end
            end
      end
  end.
End infra.

(** ** Calls *)

Definition after_call (s : PlaneState) : PlaneState :=
  mkPlaneState (pst_Objects s) (pst_Secrets s) (pst_Events s) (pst_Syncs s) (tail (pst_Faults s)).
Lemma next_call_spec s : next_call s = (Ok (default call_ok (head (pst_Faults s))), after_call s).
Proof. by destruct s as [o c e n [|f fs]]. Qed.

(** What a computation may do to the cluster, whatever its calls answer. *)
Definition moves (R : PlaneState -> PlaneState -> Prop) {A} (m : Infra A) : Prop := forall s, R s (m s).2.
Section moves.
Context (R : PlaneState -> PlaneState -> Prop) `{HR : !PreOrder R}.
Lemma moves_ret {A} (a : A) : moves R (mret a).
Proof. intros s. by cbn. Qed.
Lemma moves_fail {A} e : moves R (infra_fail (A := A) e).
Proof. intros s. by cbn. Qed.
Lemma moves_lift {A} (r : res InfraErr A) : moves R (infra_lift r).
Proof. intros s. by cbn. Qed.
Lemma moves_bind {A B} (m : Infra A) (k : A -> Infra B) : moves R m -> (forall a, moves R (k a)) -> moves R (m ≫= k).
Proof.
  intros Hm Hk s. specialize (Hm s). unfold mbind, Infra_bind.
  destruct (m s) as [[a|e] s'] eqn:E; cbn in *; [by etrans; [|apply Hk]|done].
Qed.
Lemma moves_gets {A B} (f : PlaneState -> A) (k : A -> Infra B) :
  (forall s, R s (k (f s) s).2) -> moves R (infra_gets f ≫= k).
Proof. intros Hk s. apply Hk. Qed.
Lemma moves_on_error {A} (m : Infra A) handler : moves R m -> (forall e, moves R (handler e)) -> moves R (on_error m handler).
Proof.
  intros Hm Hk s. specialize (Hm s). unfold on_error.
  destruct (m s) as [[a|e] s'] eqn:E; cbn in *; [done|by etrans; [|apply Hk]].
Qed.
End moves.
Create HintDb infra.
#[export] Hint Resolve moves_ret moves_fail moves_lift moves_bind moves_on_error : infra.

(** ** Ownership *)

(** The names a Gateway renders to. *)
Definition plane_keys {hash : Sha256} (gateway : PlaneGateway) : list ObjectKey :=
  let ns := pl_Namespace gateway in
  let name := pl_Name gateway in
  [(KindDeployment, (ns, DeploymentName name)); (KindService, (ns, ConfigServiceName name));
   (KindAutoscaler, (ns, DeploymentName name)); (KindNetworkPolicy, (ns, NetworkPolicyName name))].
(** Absent, or controlled by this incarnation of the Gateway. *)
Definition free_or_owned (gateway : PlaneGateway) (obj : option PlaneObject) : Prop :=
  match obj with None => True | Some obj => owned_by (po_Owner obj) gateway = true end.

(** The Gateway may write the objects at keys of [W], remove those of [D], and
    create its generated Secret. *)
Section plane_moves.
Context {hash : Sha256} {server : ApiServer} (gateway : PlaneGateway) (W D : ObjectKey -> Prop).
Definition object_moves (before after : option PlaneObject) (key : ObjectKey) : Prop :=
  after = before \/
  (W key /\ free_or_owned gateway before /\ free_or_owned gateway after /\ (after = None -> D key)).
Definition secret_moves (before after : option PlaneSecret) (key : string * string) : Prop :=
  after = before \/ (before = None /\ key = (pl_Namespace gateway, GeneratedAuthSecretName (pl_Name gateway))).
Definition plane_moves (s s' : PlaneState) : Prop :=
  (forall key, object_moves (pst_Objects s !! key) (pst_Objects s' !! key) key) /\
  (forall key, secret_moves (pst_Secrets s !! key) (pst_Secrets s' !! key) key).

#[export] Instance plane_moves_preorder : PreOrder plane_moves.
Proof.
  split; [by split; left|]. intros s1 s2 s3 [HO HS] [HO' HS']. split; intros key.
  - destruct (HO key) as [E|(?&?&?&?)], (HO' key) as [E'|(?&?&?&?)]; unfold object_moves in *; rewrite ?E', ?E in *; tauto.
  - destruct (HS key) as [E|(?&?)], (HS' key) as [E'|(?&?)]; unfold secret_moves in *; rewrite ?E', ?E in *; tauto.
Qed.
(** Steps that leave objects and Secrets alone. *)
Lemma plane_moves_same s s' : pst_Objects s' = pst_Objects s -> pst_Secrets s' = pst_Secrets s -> plane_moves s s'.
Proof. intros E E'. split; intros key; left; by rewrite ?E, ?E'. Qed.
Lemma plane_moves_object s s' key v :
  W key -> free_or_owned gateway (pst_Objects s !! key) -> free_or_owned gateway v -> (v = None -> D key) ->
  pst_Objects s' = partial_alter (fun _ => v) key (pst_Objects s) -> pst_Secrets s' = pst_Secrets s -> plane_moves s s'.
Proof.
  intros HW Hb Ha HD E E'. split; intros k; [|left; by rewrite E']. rewrite E.
  destruct (decide (k = key)) as [->|Hk]; [right; by rewrite lookup_partial_alter_eq|left; by rewrite lookup_partial_alter_ne].
Qed.
Lemma event_moves reason message : moves plane_moves (event reason message).
Proof. intros s. by apply plane_moves_same. Qed.
Lemma sync_moves : moves plane_moves triggerRouteSync.
Proof. intros s. by apply plane_moves_same. Qed.
End plane_moves.
#[export] Hint Resolve event_moves sync_moves plane_moves_preorder plane_moves_same : infra.

Lemma controlled gateway labels annotations spec : owned_by (po_Owner (mkPlaneObject (Some (controller_reference gateway)) labels annotations spec)) gateway = true.
Proof. unfold owned_by. cbn. by rewrite bool_decide_eq_true. Qed.
Lemma mutate_object_spec {server : ApiServer} gateway meta spec existing obj :
  mutate_object gateway meta spec existing = Ok obj ->
  free_or_owned gateway existing /\ free_or_owned gateway (Some (defaulted obj)).
Proof.
  unfold mutate_object, assertAdoptable. intros H.
  assert (obj = mkPlaneObject (Some (controller_reference gateway)) (om_Labels meta)
        (mergeManagedAnnotations (from_option po_Annotations ∅ existing) (om_Annotations meta)) (spec (po_Spec <$> existing)) /\ free_or_owned gateway existing) as [-> ?].
  { destruct existing as [o|]; cbn in *; [destruct (owned_by (po_Owner o) gateway) eqn:E|]; cbn in *; by simplify_eq. }
  split; [done|]. apply controlled.
Qed.

Section moves_of_calls.
Context {hash : Sha256} {server : ApiServer} (gateway : PlaneGateway) (W D : ObjectKey -> Prop).
Local Notation R := (plane_moves gateway W D).
(** A write of an object that is free or owned moves as [R] allows. *)
Lemma CreateOrUpdate_moves key meta spec : W key -> moves R (CreateOrUpdate key (mutate_object gateway meta spec)).
Proof.
  intros HW s. unfold CreateOrUpdate, get_object, mbind, Infra_bind. rewrite next_call_spec.
  destruct (default call_ok (head (pst_Faults s))); cbn [infra_gets infra_fail]; [|by apply plane_moves_same..].
  cbn [snd fst]. unfold infra_lift.
  destruct (mutate_object gateway meta spec (pst_Objects (after_call s) !! key)) as [obj|e] eqn:E; [|by apply plane_moves_same].
  apply mutate_object_spec in E as [Hb Ha]. cbn [pst_Objects after_call] in Hb |- *.
  assert (R s (put_object key obj (after_call s)).2) as Hput.
  { unfold put_object, write_call, mbind, Infra_bind. rewrite next_call_spec.
    destruct (default call_ok _); cbn [infra_modify infra_fail snd];
      try (by apply plane_moves_same); by eapply (plane_moves_object _ _ _ _ _ key (Some (defaulted obj))). }
  destruct (pst_Objects s !! key) as [old|]; [destruct (bool_decide (obj = old))|]; try (by apply plane_moves_same);
    by destruct (put_object key obj (after_call s)) as [[[]|e] s'].
Qed.
Lemma deleteIfOwned_moves key : W key -> D key -> moves R (deleteIfOwned gateway key).
Proof.
  intros HW HD s. unfold deleteIfOwned, get_object, mbind, Infra_bind. rewrite next_call_spec.
  destruct (default call_ok (head (pst_Faults s))); cbn [infra_gets infra_fail]; [|by apply plane_moves_same..].
  cbn [pst_Objects after_call]. destruct (pst_Objects s !! key) as [obj|] eqn:E; [|by apply plane_moves_same].
  destruct (owned_by (po_Owner obj) gateway) eqn:EO; [|by apply plane_moves_same].
  assert (free_or_owned gateway (pst_Objects s !! key)) by by rewrite E.
  unfold delete_object, mbind, Infra_bind. rewrite next_call_spec.
  destruct (default call_ok _); cbn [infra_modify infra_fail snd];
    try (by apply plane_moves_same); by eapply (plane_moves_object _ _ _ _ _ key None).
Qed.
End moves_of_calls.

(** ** What a reconcile may do *)

Section reconcile.
Context {hash : Sha256} {server : ApiServer} {base : ConfigReader} (secret_fault : string -> string -> option ApiError).
Context {decoder : TokenDecoder} {gateways : GatewayReader}.
Context (controllerName defaultNamespace : string) (renderDefaults : Defaults) (controllerNamespace : string).
Context (monitoring : option LabelSelector) (renderNetworkPolicy hasRouteSync : bool) (infra_text : InfraErr -> string).
Context (random_bytes : option string).
Local Notation reconcile := (Infra_Reconcile (base := base) secret_fault controllerName defaultNamespace renderDefaults controllerNamespace
  monitoring renderNetworkPolicy hasRouteSync infra_text random_bytes).
Local Notation apply := (applyRendered renderDefaults controllerNamespace monitoring renderNetworkPolicy hasRouteSync infra_text).
Local Notation ensure := (ensureGeneratedAuthSecret random_bytes).
Implicit Types (gateway : PlaneGateway) (s : PlaneState) (perGateway : PerGatewayConfig) (gwConfig : GatewayConfig).

(** The Gateway is another controller's, or opted out. *)
Definition tears_down gateway : bool :=
  match classifyGatewayClass (pl_Object gateway) controllerName with
  | (gatewayClassForeign, false) => true
  | (gatewayClassManaged, false) => negb (pl_Deleting gateway) && bool_decide (go_ParametersRef (pl_Object gateway) = None)
  | _ => false
  end.
(** The configuration of a live Gateway of this controller with its own plane. *)
Definition rendered_config gateway : option (res ConfigError GatewayConfig) :=
  match classifyGatewayClass (pl_Object gateway) controllerName with
  | (gatewayClassManaged, false) =>
      if pl_Deleting gateway then None
      else getGatewayConfig (reader := base) (pl_Object gateway) <$> go_ParametersRef (pl_Object gateway)
  | _ => None
  end.
Definition may_write gateway (key : ObjectKey) : Prop :=
  key ∈ plane_keys gateway /\ (tears_down gateway = true \/ exists gwConfig, rendered_config gateway = Some (Ok gwConfig)).
Definition may_remove gateway (key : ObjectKey) : Prop :=
  tears_down gateway = true \/
  exists gwConfig, rendered_config gateway = Some (Ok gwConfig) /\
    ((key.1 = KindAutoscaler /\ gcfg_Autoscaling gwConfig = None) \/ (key.1 = KindNetworkPolicy /\ renderNetworkPolicy = false)).

Lemma reported_moves {A} (m : Infra A) gateway W D : moves (plane_moves gateway W D) m -> moves (plane_moves gateway W D) (reported infra_text m).
Proof. intros H. apply moves_on_error; eauto with infra. Qed.
Lemma applyRendered_moves gateway perGateway :
  rendered_config gateway = Some (Ok (pg_GatewayConfig perGateway)) ->
  moves (plane_moves gateway (may_write gateway) (may_remove gateway)) (apply gateway perGateway).
Proof.
  intros HC. assert (forall key, key ∈ plane_keys gateway -> may_write gateway key) as HW by (intros key Hk; split; eauto).
  unfold applyRendered. destruct (_ && _); [apply event_moves|].
  apply moves_bind; [apply _|apply reported_moves, CreateOrUpdate_moves, HW; set_solver|intros op].
  apply moves_bind; [apply _|apply reported_moves, CreateOrUpdate_moves, HW; set_solver|intros _].
  apply moves_bind; [apply _| |intros _].
  { apply reported_moves. unfold applyAutoscaler, Autoscaler. cbn [in_Config]. destruct (gcfg_Autoscaling _) eqn:E.
    - apply CreateOrUpdate_moves, HW. set_solver.
    - apply moves_bind; [apply _| |intros; apply moves_ret, _]. apply deleteIfOwned_moves; [apply HW; set_solver|right; eauto 6]. }
  apply moves_bind; [apply _| |intros _].
  { apply reported_moves. unfold applyNetworkPolicy. destruct renderNetworkPolicy eqn:E; cbn [negb].
    - apply CreateOrUpdate_moves, HW. set_solver.
    - apply moves_bind; [apply _| |intros; apply moves_ret, _]. apply deleteIfOwned_moves; [apply HW; set_solver|].
      right. eexists. split; [done|by right]. }
  apply moves_bind; [apply _| |intros _]; destruct op; try destruct hasRouteSync; apply moves_ret || apply event_moves || apply sync_moves; apply _.
Qed.
Lemma cleanupRendered_moves gateway :
  tears_down gateway = true -> moves (plane_moves gateway (may_write gateway) (may_remove gateway)) (cleanupRendered gateway).
Proof.
  intros HT. assert (forall key, key ∈ plane_keys gateway -> moves (plane_moves gateway (may_write gateway) (may_remove gateway)) (deleteIfOwned gateway key)) as H.
  { intros key Hk. apply deleteIfOwned_moves; [by split; [|left]|by left]. }
  unfold cleanupRendered. repeat (apply moves_bind; [apply _|apply H; set_solver|intros _]). apply H; set_solver.
Qed.

Lemma read_owner_moves key R : (forall s, R s (after_call s)) -> moves R (read_owner key).
Proof.
  intros H s. unfold read_owner, mbind, Infra_bind. rewrite next_call_spec. destruct (default call_ok _); apply H.
Qed.
Lemma create_secret_moves gateway W D secret :
  moves (plane_moves gateway W D) (create_secret (pl_Namespace gateway, GeneratedAuthSecretName (pl_Name gateway)) secret).
Proof.
  intros s. set (key := (_, _)).
  assert (forall other, pst_Secrets s !! key = None -> plane_moves gateway W D s (set_secret key other (after_call s))) as Hput.
  { intros other Hn. split; intros k; [by left|]. cbn. destruct (decide (k = key)) as [->|Hk]; [by right|left; by rewrite lookup_insert_ne]. }
  unfold create_secret, mbind, Infra_bind. rewrite next_call_spec. cbn [infra_gets fst snd].
  destruct (default call_ok _); cbn [infra_gets infra_fail]; change (pst_Secrets (after_call s)) with (pst_Secrets s);
    try (by apply plane_moves_same);
    destruct (bool_decide (is_Some (pst_Secrets s !! key))) eqn:E; cbn;
    first [by apply plane_moves_same | apply Hput; apply bool_decide_eq_false, eq_None_not_Some in E; done].
Qed.
Lemma ensureGeneratedAuthSecret_moves gateway gwConfig W D : moves (plane_moves gateway W D) (ensure gateway gwConfig).
Proof.
  assert (forall key, moves (plane_moves gateway W D) (read_owner key)) as Hread.
  { intros key. apply read_owner_moves. intros s. by apply plane_moves_same. }
  unfold ensureGeneratedAuthSecret. destruct (gcfg_AuthTokenSecretRef gwConfig); [apply moves_ret, _|].
  apply moves_bind; [apply _|done|intros [owner|]]; [apply moves_lift, _|].
  apply moves_bind; [apply _|apply moves_lift, _|intros token].
  apply moves_bind; [apply _|apply create_secret_moves|intros []]; [apply moves_ret, _|].
  apply moves_bind; [apply _|done|intros [owner|]]; [apply moves_lift, _|apply moves_fail, _].
Qed.

Lemma resolved_config_of s gateway ref perGateway :
  go_ParametersRef (pl_Object gateway) = Some ref ->
  ResolveForGateway (reader := plane_reader (base := base) secret_fault s) defaultNamespace (pl_Object gateway) = Ok (Some perGateway) ->
  getGatewayConfig (reader := base) (pl_Object gateway) ref = Ok (pg_GatewayConfig perGateway).
Proof.
  intros Href. unfold ResolveForGateway, resolveStatusConfig. rewrite Href.
  change (getGatewayConfig (reader := plane_reader secret_fault s) (pl_Object gateway) ref) with (getGatewayConfig (reader := base) (pl_Object gateway) ref).
  destruct (getGatewayConfig _ ref) as [cfg|e]; [|done]. cbn.
  destruct (readTunnelToken _ _ _) as [[tok nm]|]; [|done]. cbn.
  destruct (ParseTunnelToken tok) as [parsed|]; [|done]. cbn.
  destruct (resolveGatewayAPIToken _ _ _) as [api|]; [|done]. cbn.
  destruct (readAuthToken _ _ _) as [auth|]; [|done]. cbn. intros [= <-]. done.
Qed.
Lemma handleResolveError_moves gateway W D err : moves (plane_moves gateway W D) (handleResolveError infra_text err).
Proof. destruct err; first [apply event_moves|apply moves_fail, _]. Qed.
Lemma reconcile_moves gateway : moves (plane_moves gateway (may_write gateway) (may_remove gateway)) (reconcile (Found gateway)).
Proof.
  assert (tears_down gateway = true -> moves (plane_moves gateway (may_write gateway) (may_remove gateway)) (cleanupRendered gateway)) as Hclean
    by apply cleanupRendered_moves.
  pose proof (applyRendered_moves gateway) as Happly. unfold tears_down, rendered_config in Hclean, Happly. unfold Infra_Reconcile.
  destruct (classifyGatewayClass _ _) as [[] []]; try (by apply moves_fail, _); try (by apply moves_ret, _); [|by apply Hclean].
  destruct (pl_Deleting gateway); [apply moves_ret, _|]. destruct (go_ParametersRef (pl_Object gateway)) as [ref|] eqn:Href; [|by apply Hclean].
  apply moves_gets. intros s.
  change (getGatewayConfig (reader := plane_reader secret_fault s) (pl_Object gateway) ref) with (getGatewayConfig (reader := base) (pl_Object gateway) ref).
  destruct (getGatewayConfig (pl_Object gateway) ref) as [gwConfig|err] eqn:Hcfg; [|apply handleResolveError_moves].
  revert s. apply moves_bind; [apply _|apply reported_moves, ensureGeneratedAuthSecret_moves|intros _].
  apply moves_gets. intros s.
  destruct (ResolveForGateway _ _) as [[perGateway|]|err] eqn:E; [|done|apply handleResolveError_moves].
  apply Happly. cbn. by rewrite (resolved_config_of s gateway ref perGateway).
Qed.
End reconcile.

(** ** Annotations *)

Definition plain_keys (m : gmap string string) : Prop :=
  forall key, is_Some (m !! key) -> str_forallb (fun d => negb (bool_decide (d = ","%char))) key = true.
Lemma SplitByte_Join l c :
  l <> [] -> Forall (fun x => str_forallb (fun d => negb (bool_decide (d = c))) x = true) l -> SplitByte (Join l (String c "")) c = l.
Proof.
  induction l as [|x [|y l] IH]; [done|intros _ [Hx _]%Forall_cons; by apply SplitByte_plain|].
  intros _ [Hx Hl]%Forall_cons. change (Join (x :: y :: l) (String c "")) with (x +:+ String c (Join (y :: l) (String c ""))).
  rewrite SplitByte_app, SplitByte_plain by done. cbn [app]. by rewrite IH.
Qed.
Definition managed_keys (desired : gmap string string) : list string := stable_sort str_ltb (fst <$> map_to_list desired).
Lemma managed_keys_spec desired key : key ∈ managed_keys desired <-> is_Some (desired !! key).
Proof.
  unfold managed_keys. rewrite stable_sort_perm, list_elem_of_fmap. split.
  - intros ([k v] & -> & Hv%elem_of_map_to_list). by exists v.
  - intros [v Hv]. exists (key, v). split; [done|by apply elem_of_map_to_list].
Qed.
(** What the annotation records is desired. *)
Lemma recorded_keys existing desired key :
  plain_keys desired ->
  key ∈ SplitByte (default "" (mergeManagedAnnotations existing desired !! managedAnnotationsKey)) "," -> key = "" \/ is_Some (desired !! key).
Proof.
  intros Hplain. unfold mergeManagedAnnotations. fold (managed_keys desired).
  destruct (managed_keys desired) as [|k l] eqn:E; cbn [length Nat.eqb].
  - rewrite lookup_delete_eq. cbn. set_solver.
  - rewrite lookup_insert_eq. change (default "" (Some ?x)) with x. rewrite <-E, SplitByte_Join; [|by rewrite E|].
    + intros Hk. right. by apply managed_keys_spec.
    + apply Forall_forall. intros x Hx%managed_keys_spec. by apply Hplain.
Qed.
Lemma prune_recorded (desired existing : gmap string string) keys :
  (forall key, key ∈ keys -> key = "" \/ is_Some (desired !! key)) ->
  foldl (fun result key => if bool_decide (key = "") then result
    else if bool_decide (is_Some (desired !! key)) then result else delete key result) existing keys = existing.
Proof.
  intros H. induction keys as [|k keys IH]; [done|]. cbn.
  destruct (H k) as [->|Hk]; [set_solver|rewrite bool_decide_eq_true_2 by done; apply IH; set_solver|].
  rewrite (bool_decide_eq_true_2 (is_Some _)) by done. destruct (bool_decide (k = "")); apply IH; set_solver.
Qed.
Lemma mergeManagedAnnotations_idem existing desired :
  plain_keys desired ->
  mergeManagedAnnotations (mergeManagedAnnotations existing desired) desired = mergeManagedAnnotations existing desired.
Proof.
  intros Hplain. unfold mergeManagedAnnotations at 1.
  rewrite prune_recorded by (intros key; by apply recorded_keys).
  unfold mergeManagedAnnotations. fold (managed_keys desired). set (kept := foldl _ _ _).
  destruct (managed_keys desired) as [|k l] eqn:E; cbn [length Nat.eqb].
  - assert (desired = ∅) as ->.
    { apply map_empty. intros i. apply eq_None_not_Some. intros Hi%managed_keys_spec. rewrite E in Hi. set_solver. }
    by rewrite !(left_id ∅ _), delete_delete_eq.
  - apply map_eq. intros i. destruct (decide (i = managedAnnotationsKey)) as [->|Hi]; [by rewrite !lookup_insert_eq|].
    rewrite !lookup_insert_ne, !lookup_union, lookup_insert_ne, lookup_union by done. by destruct (desired !! i), (kept !! i).
Qed.
(** Annotations of other writers survive, whatever their value. *)
Lemma mergeManagedAnnotations_foreign existing desired key :
  key <> managedAnnotationsKey -> desired !! key = None ->
  key ∉ SplitByte (default "" (existing !! managedAnnotationsKey)) "," ->
  mergeManagedAnnotations existing desired !! key = existing !! key.
Proof.
  intros Hk Hd. unfold mergeManagedAnnotations. generalize (SplitByte (default "" (existing !! managedAnnotationsKey)) ","). intros keys Hp.
  assert (foldl (fun result key => if bool_decide (key = "") then result
    else if bool_decide (is_Some (desired !! key)) then result else delete key result) existing keys !! key = existing !! key) as E.
  { revert existing. induction keys as [|k keys IH]; intros existing; [done|]. cbn. rewrite IH by set_solver.
    repeat case_match; try done. rewrite lookup_delete_ne by set_solver. done. }
  destruct (_ =? 0); rewrite ?lookup_delete_ne, ?lookup_insert_ne, lookup_union, Hd by done; rewrite E; by destruct (existing !! key).
Qed.

(** ** Runs without faults *)

Definition calm (s : PlaneState) : Prop := pst_Faults s = [].
Definition put (key : ObjectKey) (v : option PlaneObject) (s : PlaneState) : PlaneState :=
  set_objects (partial_alter (fun _ => v) key (pst_Objects s)) s.
Lemma put_same key s : put key (pst_Objects s !! key) s = s.
Proof. unfold put, set_objects. rewrite partial_alter_self. by destruct s. Qed.
Lemma calm_call s : calm s -> after_call s = s /\ head (pst_Faults s) = None.
Proof. destruct s. unfold calm. cbn. by intros ->. Qed.
Lemma get_object_calm key s : calm s -> get_object key s = (Ok (pst_Objects s !! key), s).
Proof. intros H. apply calm_call in H as [E E']. unfold get_object, mbind, Infra_bind. rewrite next_call_spec, E, E'. done. Qed.
Lemma put_object_calm {server : ApiServer} key obj s : calm s -> put_object key obj s = (Ok tt, put key (Some (defaulted obj)) s).
Proof. intros H. apply calm_call in H as [E E']. unfold put_object, write_call, mbind, Infra_bind. rewrite next_call_spec, E, E'. done. Qed.
Lemma delete_object_calm key s : calm s -> delete_object key s = (Ok tt, put key None s).
Proof. intros H. apply calm_call in H as [E E']. unfold delete_object, mbind, Infra_bind. rewrite next_call_spec, E, E'. done. Qed.
Lemma read_owner_calm key s : calm s -> read_owner key s = (Ok (psec_Owner <$> pst_Secrets s !! key), s).
Proof. intros H. apply calm_call in H as [E E']. unfold read_owner, mbind, Infra_bind. rewrite next_call_spec, E, E'. done. Qed.
Lemma create_secret_calm key secret s : calm s -> pst_Secrets s !! key = None -> create_secret key secret s = (Ok true, set_secret key secret s).
Proof.
  intros H Hn. apply calm_call in H as [E E']. unfold create_secret, mbind, Infra_bind. rewrite next_call_spec, E, E'. cbn.
  by rewrite bool_decide_eq_false_2 by (by rewrite Hn; intros [? [=]]).
Qed.

(** A step on one object that brings it to [P], and does nothing once it is there. *)
Record Converges {A} (key : ObjectKey) (idle : A) (P : option PlaneObject -> Prop) (m : Infra A) : Prop := {
  conv_first : forall s a s', m s = (Ok a, s') -> calm s -> exists v, s' = put key v s /\ P v;
  conv_again : forall s, calm s -> P (pst_Objects s !! key) -> m s = (Ok idle, s) }.
Lemma conv_reported {A} infra_text key (idle : A) P m : Converges key idle P m -> Converges key idle P (reported infra_text m).
Proof.
  intros [H1 H2]. unfold reported, on_error. split; intros s.
  - intros a s' H Hs. destruct (m s) as [[]] eqn:E; [|done]. simplify_eq. eauto.
  - intros Hs HP. by rewrite H2.
Qed.
(** The object is a fixed point of the mutate function. *)
Definition settled (mutate : option PlaneObject -> res InfraErr PlaneObject) (obj : option PlaneObject) : Prop :=
  exists o, obj = Some o /\ mutate (Some o) = Ok o.
Lemma CreateOrUpdate_converges {server : ApiServer} key mutate :
  (forall existing obj, mutate existing = Ok obj -> mutate (Some (defaulted obj)) = Ok (defaulted obj)) ->
  Converges key OperationResultNone (settled mutate) (CreateOrUpdate key mutate).
Proof.
  intros Hidem. split; intros s.
  - intros op s' H Hs. revert H. unfold CreateOrUpdate, mbind, Infra_bind. rewrite get_object_calm by done. unfold infra_lift.
    destruct (mutate (pst_Objects s !! key)) as [obj|] eqn:E; [|done].
    destruct (pst_Objects s !! key) as [old|] eqn:Eo; [destruct (bool_decide (obj = old)) eqn:Eq|].
    + apply bool_decide_eq_true in Eq as ->. intros [= <- <-]. exists (Some old). split; [by rewrite <-Eo, put_same|by exists old].
    + rewrite put_object_calm by done. intros [= <- <-]. exists (Some (defaulted obj)). split; [done|]. exists (defaulted obj). eauto.
    + rewrite put_object_calm by done. intros [= <- <-]. exists (Some (defaulted obj)). split; [done|]. exists (defaulted obj). eauto.
  - intros Hs (o & Ho & Hm). unfold CreateOrUpdate, mbind, Infra_bind. rewrite get_object_calm by done. unfold infra_lift.
    rewrite Ho, Hm, bool_decide_eq_true_2 by done. done.
Qed.
Definition not_owned (gateway : PlaneGateway) (obj : option PlaneObject) : Prop :=
  match obj with None => True | Some obj => owned_by (po_Owner obj) gateway = false end.
Lemma deleteIfOwned_converges gateway key : Converges key tt (not_owned gateway) (deleteIfOwned gateway key).
Proof.
  split; intros s.
  - intros [] s' H Hs. revert H. unfold deleteIfOwned, mbind, Infra_bind. rewrite get_object_calm by done.
    destruct (pst_Objects s !! key) as [obj|] eqn:Eo; [destruct (owned_by (po_Owner obj) gateway) eqn:E|].
    + rewrite delete_object_calm by done. intros [= <-]. by exists None.
    + intros [= <-]. exists (Some obj). split; [by rewrite <-Eo, put_same|done].
    + intros [= <-]. exists None. split; [by rewrite <-Eo, put_same|done].
  - intros Hs Hn. unfold deleteIfOwned, mbind, Infra_bind. rewrite get_object_calm by done.
    destruct (pst_Objects s !! key) as [obj|]; [|done]. cbn in Hn. by rewrite Hn.
Qed.
Lemma conv_optout gateway key P :
  Converges key tt P (deleteIfOwned gateway key) ->
  Converges key OperationResultNone P (_ ← deleteIfOwned gateway key; mret OperationResultNone).
Proof.
  intros [H1 H2]. unfold mbind, Infra_bind. split; intros s.
  - intros op s' H Hs. revert H. destruct (deleteIfOwned gateway key s) as [[[]|] s1] eqn:E; [|done]. intros [= <- <-]. eauto.
  - intros Hs HP. by rewrite H2.
Qed.

(** A spec function that keeps what it chose. *)
Definition stable_spec {server : ApiServer} (spec : option PlaneSpec -> PlaneSpec) : Prop :=
  forall existing, spec (Some (defaulted_spec (spec existing))) = defaulted_spec (spec existing).
(** The rendered objects set every field the server would default, or the mutate
    function leaves it alone. *)
Lemma deployment_spec_stable {hash : Sha256} {server : ApiServer} input : stable_spec (deployment_spec (ProxyDeployment input).2).
Proof. intros existing. unfold deployment_spec. cbn -[default]. by destruct (replicaCount (in_Config input)). Qed.
Lemma service_spec_stable {hash : Sha256} {server : ApiServer} input : stable_spec (service_spec (ConfigService input).2).
Proof.
  intros existing. unfold service_spec. cbn.
  set (kept := match existing with Some (ServiceObject s) => s | _ => mkServiceSpec "" "" false ∅ [] "" "" end).
  unfold set_string. by repeat (case_bool_decide; cbn).
Qed.
Lemma mutate_object_idem {server : ApiServer} gateway meta spec existing obj :
  stable_spec spec -> plain_keys (om_Annotations meta) ->
  mutate_object gateway meta spec existing = Ok obj ->
  mutate_object gateway meta spec (Some (defaulted obj)) = Ok (defaulted obj).
Proof.
  intros Hspec Hkeys. unfold mutate_object, assertAdoptable. cbn.
  match goal with |- (?m ≫= _) = _ -> _ => destruct m; [|done] end. cbn. intros [= <-]. cbn.
  rewrite bool_decide_eq_true_2 by done. cbn. unfold defaulted. cbn. by rewrite Hspec, mergeManagedAnnotations_idem.
Qed.
Lemma settled_spec gateway meta spec o :
  mutate_object gateway meta spec (Some o) = Ok o ->
  po_Owner o = Some (controller_reference gateway) /\ po_Labels o = om_Labels meta /\ po_Spec o = spec (Some (po_Spec o)).
Proof.
  unfold mutate_object. match goal with |- (?m ≫= _) = _ -> _ => destruct m; [|done] end. intros [= E].
  destruct o as [ow lb an sp]. cbn in *. by simplify_eq.
Qed.

Section settle.
Context {hash : Sha256} {server : ApiServer} {base : ConfigReader} (secret_fault : string -> string -> option ApiError).
Context {decoder : TokenDecoder} {gateways : GatewayReader}.
Context (controllerName defaultNamespace : string) (renderDefaults : Defaults) (controllerNamespace : string).
Context (monitoring : option LabelSelector) (renderNetworkPolicy hasRouteSync : bool) (infra_text : InfraErr -> string).
Context (random_bytes : option string).
Local Notation reconcile := (Infra_Reconcile (base := base) secret_fault controllerName defaultNamespace renderDefaults controllerNamespace
  monitoring renderNetworkPolicy hasRouteSync infra_text random_bytes).
Local Notation apply := (applyRendered renderDefaults controllerNamespace monitoring renderNetworkPolicy hasRouteSync infra_text).
Local Notation ensure := (ensureGeneratedAuthSecret random_bytes).
Implicit Types (gateway : PlaneGateway) (s : PlaneState) (perGateway : PerGatewayConfig) (gwConfig : GatewayConfig).

Definition plane_input gateway perGateway : Input :=
  mkInput gateway (pg_GatewayConfig perGateway) (pg_TunnelToken perGateway) (pg_AuthToken perGateway) renderDefaults.
(** What each object of a converged plane is. *)
Definition deployment_settled gateway perGateway : option PlaneObject -> Prop :=
  let '(meta, spec) := ProxyDeployment (plane_input gateway perGateway) in settled (mutate_object gateway meta (deployment_spec spec)).
Definition service_settled gateway perGateway : option PlaneObject -> Prop :=
  let '(meta, spec) := ConfigService (plane_input gateway perGateway) in settled (mutate_object gateway meta (service_spec spec)).
Definition autoscaler_settled gateway perGateway : option PlaneObject -> Prop :=
  match Autoscaler (plane_input gateway perGateway) with
  | None => not_owned gateway
  | Some (meta, spec) => settled (mutate_object gateway meta (fun _ => AutoscalerObject spec))
  end.
Definition policy_settled gateway : option PlaneObject -> Prop :=
  if renderNetworkPolicy then
    let '(meta, spec) := ProxyNetworkPolicy gateway controllerNamespace monitoring in
    settled (mutate_object gateway meta (fun _ => NetworkPolicyObject spec))
  else not_owned gateway.
Definition plane_settled gateway perGateway s : Prop :=
  let object kind name := pst_Objects s !! ((kind, (pl_Namespace gateway, name)) : ObjectKey) in
  deployment_settled gateway perGateway (object KindDeployment (DeploymentName (pl_Name gateway))) /\
  service_settled gateway perGateway (object KindService (ConfigServiceName (pl_Name gateway))) /\
  autoscaler_settled gateway perGateway (object KindAutoscaler (DeploymentName (pl_Name gateway))) /\
  policy_settled gateway (object KindNetworkPolicy (NetworkPolicyName (pl_Name gateway))).

Section steps.
Context (gateway : PlaneGateway) (perGateway : PerGatewayConfig) (Hkeys : plain_keys (pl_Annotations gateway)).
Lemma applyDeployment_converges :
  Converges (KindDeployment, (pl_Namespace gateway, DeploymentName (pl_Name gateway))) OperationResultNone
    (deployment_settled gateway perGateway) (reported infra_text (applyDeployment gateway (plane_input gateway perGateway))).
Proof. apply conv_reported, CreateOrUpdate_converges. intros existing obj. by apply mutate_object_idem; [apply deployment_spec_stable|]. Qed.
Lemma applyService_converges :
  Converges (KindService, (pl_Namespace gateway, ConfigServiceName (pl_Name gateway))) OperationResultNone
    (service_settled gateway perGateway) (reported infra_text (applyService gateway (plane_input gateway perGateway))).
Proof. apply conv_reported, CreateOrUpdate_converges. intros existing obj. by apply mutate_object_idem; [apply service_spec_stable|]. Qed.
Lemma applyAutoscaler_converges :
  Converges (KindAutoscaler, (pl_Namespace gateway, DeploymentName (pl_Name gateway))) OperationResultNone
    (autoscaler_settled gateway perGateway) (reported infra_text (applyAutoscaler gateway (plane_input gateway perGateway))).
Proof.
  apply conv_reported. unfold autoscaler_settled, applyAutoscaler, Autoscaler. destruct (gcfg_Autoscaling _).
  - apply CreateOrUpdate_converges. intros existing obj. by apply mutate_object_idem; [intros ?|].
  - apply conv_optout, deleteIfOwned_converges.
Qed.
Lemma applyNetworkPolicy_converges :
  Converges (KindNetworkPolicy, (pl_Namespace gateway, NetworkPolicyName (pl_Name gateway))) OperationResultNone
    (policy_settled gateway) (reported infra_text (applyNetworkPolicy controllerNamespace monitoring renderNetworkPolicy gateway)).
Proof.
  apply conv_reported. unfold policy_settled, applyNetworkPolicy. destruct renderNetworkPolicy; cbn [negb].
  - apply CreateOrUpdate_converges. intros existing obj. by apply mutate_object_idem; [intros ?|].
  - apply conv_optout, deleteIfOwned_converges.
Qed.
End steps.

Definition image_configured perGateway : bool :=
  negb (bool_decide (gcfg_Image (pg_GatewayConfig perGateway) = "") && bool_decide (def_ProxyImage renderDefaults = "")).
Lemma infra_bind_Ok {A B} (m : Infra A) (k : A -> Infra B) s b s' :
  (m ≫= k) s = (Ok b, s') -> exists a s1, m s = (Ok a, s1) /\ k a s1 = (Ok b, s').
Proof. unfold mbind, Infra_bind. destruct (m s) as [[a|] s1]; [|done]. eauto. Qed.
Lemma infra_bind_run {A B} (m : Infra A) (k : A -> Infra B) s a s1 : m s = (Ok a, s1) -> (m ≫= k) s = k a s1.
Proof. intros E. unfold mbind, Infra_bind. by rewrite E. Qed.
Lemma lookup_put_ne k key v s : k <> key -> pst_Objects (put key v s) !! k = pst_Objects s !! k.
Proof. intros H. cbn. by rewrite lookup_partial_alter_ne. Qed.
Lemma lookup_put_eq key v s : pst_Objects (put key v s) !! key = v.
Proof. cbn. by rewrite lookup_partial_alter_eq. Qed.

Lemma apply_first gateway perGateway s s' :
  plain_keys (pl_Annotations gateway) -> calm s -> image_configured perGateway = true -> apply gateway perGateway s = (Ok tt, s') ->
  plane_settled gateway perGateway s' /\ calm s' /\ pst_Secrets s' = pst_Secrets s.
Proof.
  intros Hk Hs Hi%negb_true_iff. unfold applyRendered. rewrite Hi. fold (plane_input gateway perGateway).
  intros (op & s1 & H1 & H)%infra_bind_Ok. destruct (conv_first _ _ _ _ (applyDeployment_converges gateway perGateway Hk) _ _ _ H1 Hs) as (v1 & -> & HP1).
  apply infra_bind_Ok in H as (? & s2 & H2 & H). destruct (conv_first _ _ _ _ (applyService_converges gateway perGateway Hk) _ _ _ H2 Hs) as (v2 & -> & HP2).
  apply infra_bind_Ok in H as (? & s3 & H3 & H). destruct (conv_first _ _ _ _ (applyAutoscaler_converges gateway perGateway Hk) _ _ _ H3 Hs) as (v3 & -> & HP3).
  apply infra_bind_Ok in H as (? & s4 & H4 & H). destruct (conv_first _ _ _ _ (applyNetworkPolicy_converges gateway Hk) _ _ _ H4 Hs) as (v4 & -> & HP4).
  set (s4 := put _ v4 _) in H.
  assert (plane_settled gateway perGateway s4) as Hp.
  { unfold plane_settled, s4. repeat first [rewrite lookup_put_eq|rewrite lookup_put_ne by done]. done. }
  assert (pst_Objects s' = pst_Objects s4 /\ pst_Faults s' = pst_Faults s4 /\ pst_Secrets s' = pst_Secrets s4) as (EO & EF & ES).
  { clearbody s4. apply infra_bind_Ok in H as ([] & s5 & H5 & H). unfold mret, Infra_ret, event, triggerRouteSync in *.
    destruct op, hasRouteSync; by simplify_eq. }
  split; [unfold plane_settled in *; by rewrite EO|]. split; [unfold calm; by rewrite EF|by rewrite ES].
Qed.
Lemma apply_again gateway perGateway s :
  plain_keys (pl_Annotations gateway) -> calm s -> image_configured perGateway = true -> plane_settled gateway perGateway s ->
  apply gateway perGateway s = (Ok tt, s).
Proof.
  intros Hk Hs Hi%negb_true_iff (H1 & H2 & H3 & H4). unfold applyRendered. rewrite Hi. fold (plane_input gateway perGateway).
  erewrite infra_bind_run by (eapply conv_again; [by apply applyDeployment_converges|done|done]).
  erewrite infra_bind_run by (eapply conv_again; [by apply applyService_converges|done|done]).
  erewrite infra_bind_run by (eapply conv_again; [by apply applyAutoscaler_converges|done|done]).
  by erewrite infra_bind_run by (eapply conv_again; [by apply applyNetworkPolicy_converges|done|done]).
Qed.

(** The auth Secret is the tenant's, or this Gateway's. *)
Definition ensured gateway gwConfig s : Prop :=
  is_Some (gcfg_AuthTokenSecretRef gwConfig) \/
  exists secret, pst_Secrets s !! (pl_Namespace gateway, GeneratedAuthSecretName (pl_Name gateway)) = Some secret /\
    owned_by (psec_Owner secret) gateway = true.
Lemma ensure_first gateway gwConfig s s' :
  calm s -> reported infra_text (ensure gateway gwConfig) s = (Ok tt, s') ->
  calm s' /\ pst_Objects s' = pst_Objects s /\ ensured gateway gwConfig s'.
Proof.
  intros Hs. unfold reported, on_error, ensured. destruct (ensure gateway gwConfig s) as [[[]|] s1] eqn:E; [|done]. intros [= <-].
  revert E. unfold ensureGeneratedAuthSecret. destruct (gcfg_AuthTokenSecretRef gwConfig); [intros [= <-]; eauto|]. set (key := (_, _)).
  erewrite infra_bind_run by by apply read_owner_calm. destruct (pst_Secrets s !! key) as [secret|] eqn:Es; cbn [fmap option_fmap option_map].
  - unfold infra_lift, assertAdoptable. destruct (owned_by (psec_Owner secret) gateway) eqn:Eo; [|done]. intros [= <-]. split; [done|]. split; [done|]. right. eauto.
  - unfold generateAuthToken. destruct random_bytes as [buf|]; [|done]. cbn [infra_lift].
    erewrite infra_bind_run by done. erewrite infra_bind_run by by apply create_secret_calm.
    intros [= <-]. split; [done|]. split; [done|]. right. eexists. split; [apply lookup_insert_eq|]. cbn. by apply bool_decide_eq_true.
Qed.
Lemma ensure_again gateway gwConfig s :
  calm s -> ensured gateway gwConfig s -> reported infra_text (ensure gateway gwConfig) s = (Ok tt, s).
Proof.
  intros Hs He. unfold reported, on_error, ensureGeneratedAuthSecret.
  destruct He as [[r ->]|(secret & Hsec & Ho)]; [done|]. destruct (gcfg_AuthTokenSecretRef gwConfig); [done|].
  erewrite infra_bind_run by by apply read_owner_calm. rewrite Hsec. cbn. by rewrite Ho.
Qed.

Lemma cleanup_first gateway s s' :
  calm s -> cleanupRendered gateway s = (Ok tt, s') ->
  calm s' /\ pst_Secrets s' = pst_Secrets s /\ forall key, key ∈ plane_keys gateway -> not_owned gateway (pst_Objects s' !! key).
Proof.
  intros Hs. unfold cleanupRendered.
  intros ([] & s1 & H1 & H)%infra_bind_Ok. destruct (conv_first _ _ _ _ (deleteIfOwned_converges gateway _) _ _ _ H1 Hs) as (v1 & -> & P1).
  apply infra_bind_Ok in H as ([] & s2 & H2 & H). destruct (conv_first _ _ _ _ (deleteIfOwned_converges gateway _) _ _ _ H2 Hs) as (v2 & -> & P2).
  apply infra_bind_Ok in H as ([] & s3 & H3 & H4). destruct (conv_first _ _ _ _ (deleteIfOwned_converges gateway _) _ _ _ H3 Hs) as (v3 & -> & P3).
  destruct (conv_first _ _ _ _ (deleteIfOwned_converges gateway _) _ _ _ H4 Hs) as (v4 & -> & P4).
  split; [done|]. split; [done|]. unfold plane_keys.
  intros key [->|[->|[->|[->|[]%not_elem_of_nil]%elem_of_cons]%elem_of_cons]%elem_of_cons]%elem_of_cons;
    repeat first [rewrite lookup_put_eq|rewrite lookup_put_ne by done]; done.
Qed.
Lemma cleanup_again gateway s :
  calm s -> (forall key, key ∈ plane_keys gateway -> not_owned gateway (pst_Objects s !! key)) -> cleanupRendered gateway s = (Ok tt, s).
Proof.
  intros Hs H.
  assert (forall key, key ∈ plane_keys gateway -> deleteIfOwned gateway key s = (Ok tt, s)) as Hd.
  { intros key Hk. apply (conv_again _ _ _ _ (deleteIfOwned_converges gateway key)); auto. }
  unfold cleanupRendered. erewrite infra_bind_run by (apply Hd; set_solver). erewrite infra_bind_run by (apply Hd; set_solver).
  erewrite infra_bind_run by (apply Hd; set_solver). apply Hd; set_solver.
Qed.

(** At most a failure reported again. *)
Definition quiet s s' : Prop :=
  pst_Objects s' = pst_Objects s /\ pst_Secrets s' = pst_Secrets s /\ pst_Syncs s' = pst_Syncs s /\
  (pst_Events s' = pst_Events s \/ exists message, pst_Events s' = (eventReasonRenderFailed, message) :: pst_Events s).
Lemma quiet_refl s : quiet s s.
Proof. unfold quiet. auto. Qed.
Lemma quiet_event message s s' : event eventReasonRenderFailed message s = (Ok tt, s') -> quiet s s' /\ pst_Faults s' = pst_Faults s.
Proof. intros [= <-]. unfold quiet. cbn. eauto 8. Qed.
Lemma handleResolveError_quiet err s s' :
  handleResolveError infra_text err s = (Ok tt, s') ->
  (quiet s s' /\ pst_Faults s' = pst_Faults s) /\ forall s1, exists s2, handleResolveError infra_text err s1 = (Ok tt, s2) /\ quiet s1 s2.
Proof.
  destruct err; try done. intros H. split; [by apply quiet_event in H|]. intros s1. eexists. split; [done|].
  apply (quiet_event (infra_text (errResolve ErrInvalidParameters))). done.
Qed.
Lemma plane_reader_secrets s s' : pst_Secrets s' = pst_Secrets s -> plane_reader (base := base) secret_fault s' = plane_reader secret_fault s.
Proof. intros E. unfold plane_reader. by rewrite E. Qed.

(** The rendering branch of a reconcile. *)
Definition render_branch gateway ref : Infra unit :=
  gwConfig ← infra_gets (fun s => @getGatewayConfig (plane_reader (base := base) secret_fault s) (pl_Object gateway) ref);
  match gwConfig with
  | Err err => handleResolveError infra_text err
  | Ok gwConfig =>
      _ ← reported infra_text (ensure gateway gwConfig);
      perGateway ← infra_gets (fun s => @ResolveForGateway (plane_reader (base := base) secret_fault s) decoder hash defaultNamespace (pl_Object gateway));
      match perGateway with
      | Err err => handleResolveError infra_text err
      | Ok None => mret tt
      | Ok (Some perGateway) => apply gateway perGateway
      end
  end.
(** A fault-free run that succeeds leaves the plane settled, or could not resolve it. *)
Lemma render_first gateway ref s s' :
  plain_keys (pl_Annotations gateway) -> calm s -> render_branch gateway ref s = (Ok tt, s') ->
  calm s' /\
  match @getGatewayConfig base (pl_Object gateway) ref with
  | Err err => handleResolveError infra_text err s = (Ok tt, s')
  | Ok gwConfig =>
      ensured gateway gwConfig s' /\
      match @ResolveForGateway (plane_reader (base := base) secret_fault s') decoder hash defaultNamespace (pl_Object gateway) with
      | Ok (Some perGateway) => image_configured perGateway = true -> plane_settled gateway perGateway s'
      | Ok None => True
      | Err err => exists s1, handleResolveError infra_text err s1 = (Ok tt, s')
      end
  end.
Proof.
  intros Hk Hs. unfold render_branch. erewrite infra_bind_run by done.
  change (getGatewayConfig (reader := plane_reader secret_fault s) (pl_Object gateway) ref) with (getGatewayConfig (reader := base) (pl_Object gateway) ref).
  destruct (getGatewayConfig (pl_Object gateway) ref) as [gwConfig|err].
  2:{ intros H. split; [|done]. apply handleResolveError_quiet in H as [[_ EF] _]. unfold calm. by rewrite EF. }
  intros ([] & s1 & H1 & H)%infra_bind_Ok. apply ensure_first in H1 as (Hs1 & EO & He); [|done]. erewrite infra_bind_run in H by done.
  assert (forall s2, pst_Secrets s2 = pst_Secrets s1 -> ensured gateway gwConfig s2) as He'.
  { intros s2 E. unfold ensured in *. by rewrite E. }
  destruct (@ResolveForGateway (plane_reader secret_fault s1) decoder hash defaultNamespace (pl_Object gateway)) as [[perGateway|]|err] eqn:ER.
  - destruct (image_configured perGateway) eqn:Hi.
    + apply apply_first in H as (Hp & Hc & ES); [|done..]. split; [done|]. split; [auto|]. by rewrite (plane_reader_secrets s1 s'), ER.
    + unfold applyRendered in H. apply negb_false_iff in Hi. rewrite Hi in H. apply quiet_event in H as [(_ & ES & _) EF].
      split; [unfold calm; by rewrite EF|]. split; [auto|]. rewrite (plane_reader_secrets s1 s'), ER by done. unfold image_configured. by rewrite Hi.
  - injection H as <-. split; [done|]. split; [done|]. by rewrite ER.
  - pose proof H as [[(_ & ES & _) EF] _]%handleResolveError_quiet. split; [unfold calm; by rewrite EF|]. split; [auto|].
    rewrite (plane_reader_secrets s1 s'), ER by done. eauto.
Qed.
Lemma render_again gateway ref s s' :
  plain_keys (pl_Annotations gateway) -> calm s -> render_branch gateway ref s = (Ok tt, s') ->
  exists s2, render_branch gateway ref s' = (Ok tt, s2) /\ quiet s' s2.
Proof.
  intros Hk Hs H. apply render_first in H as [Hs' H]; [|done..]. unfold render_branch. erewrite infra_bind_run by done.
  change (getGatewayConfig (reader := plane_reader secret_fault s') (pl_Object gateway) ref) with (getGatewayConfig (reader := base) (pl_Object gateway) ref).
  destruct (getGatewayConfig (pl_Object gateway) ref) as [gwConfig|err]; [|by apply handleResolveError_quiet in H as [_ H]].
  destruct H as [He H]. erewrite infra_bind_run by by apply ensure_again. erewrite infra_bind_run by done.
  destruct (@ResolveForGateway (plane_reader secret_fault s') decoder hash defaultNamespace (pl_Object gateway)) as [[perGateway|]|err].
  - destruct (image_configured perGateway) eqn:Hi.
    + rewrite apply_again by auto. eexists. split; [done|apply quiet_refl].
    + unfold applyRendered. apply negb_false_iff in Hi. rewrite Hi. eexists. split; [done|]. by eapply quiet_event.
  - eexists. split; [done|apply quiet_refl].
  - destruct H as [s1 [_ H]%handleResolveError_quiet]. apply H.
Qed.
Lemma reconcile_again gateway s s' :
  plain_keys (pl_Annotations gateway) -> calm s -> reconcile (Found gateway) s = (Ok tt, s') ->
  exists s2, reconcile (Found gateway) s' = (Ok tt, s2) /\ quiet s' s2.
Proof.
  intros Hk Hs. unfold Infra_Reconcile.
  assert (forall s1, mret (M := Infra) tt s1 = (Ok tt, s') -> exists s2, mret (M := Infra) tt s' = (Ok tt, s2) /\ quiet s' s2) as Hret.
  { intros s1 _. eexists. split; [done|apply quiet_refl]. }
  assert (cleanupRendered gateway s = (Ok tt, s') -> exists s2, cleanupRendered gateway s' = (Ok tt, s2) /\ quiet s' s2) as Hclean.
  { intros (? & ? & H)%cleanup_first; [|done]. rewrite cleanup_again by done. eexists. split; [done|apply quiet_refl]. }
  destruct (classifyGatewayClass _ _) as [[] []]; try done; [|by apply (Hret s)].
  destruct (pl_Deleting gateway); [by apply (Hret s)|].
  destruct (go_ParametersRef (pl_Object gateway)) as [ref|]; [|by apply Hclean].
  fold (render_branch gateway ref). by apply render_again.
Qed.
End settle.

(** ** What a settled plane runs *)

(** The Secret [name] of the namespace holds the token under [key]. *)
Definition secret_holds (s : PlaneState) (namespace name key token : string) : Prop :=
  exists secret, pst_Secrets s !! (namespace, name) = Some secret /\ psec_Data secret !! key = Some token /\ token <> "".
Lemma plane_secret_value_Ok secret key token : secret_value secret key = Ok token -> secret !! key = Some token /\ token <> "".
Proof.
  unfold secret_value. destruct (secret !! key) as [v|] eqn:E; [|done]. change (default "" (Some v)) with v.
  destruct (decide (v = "")) as [->|Hv]; [done|]. rewrite bool_decide_eq_false_2 by done. intros [= <-]. done.
Qed.
Section tokens.
Context {hash : Sha256} {server : ApiServer} {base : ConfigReader} (secret_fault : string -> string -> option ApiError) {decoder : TokenDecoder}.
Context (defaultNamespace : string).
Lemma getSecret_plane s namespace name secret :
  namespace <> "" -> getSecret (reader := plane_reader (base := base) secret_fault s) defaultNamespace name namespace = Ok secret ->
  exists stored, pst_Secrets s !! (namespace, name) = Some stored /\ psec_Data stored = secret.
Proof.
  intros Hn. unfold getSecret. rewrite bool_decide_eq_false_2 by done. cbn.
  destruct (secret_fault namespace name); [done|]. destruct (pst_Secrets s !! (namespace, name)); [|done]. intros [= <-]. eauto.
Qed.
(** The tokens the resolver returns are those of the Secrets the pods mount. *)
Lemma resolved_tokens s gateway perGateway renderDefaults :
  pl_Namespace gateway <> "" ->
  ResolveForGateway (reader := plane_reader (base := base) secret_fault s) defaultNamespace (pl_Object gateway) = Ok (Some perGateway) ->
  forall name secret key, EnvSecret name secret key ∈ proxyEnv (plane_input renderDefaults gateway perGateway) ->
  exists token, secret_holds s (pl_Namespace gateway) secret key token /\
    ((name = "TUNNEL_TOKEN" /\ token = pg_TunnelToken perGateway) \/ (name = "PROXY_AUTH_TOKEN" /\ token = pg_AuthToken perGateway)).
Proof.
  intros Hns. unfold ResolveForGateway. intros H. apply bind_Ok in H as ([pg|] & Hb & H); [|done].
  apply bind_Ok in H as (auth & Ha & H). injection H as <-. unfold resolveStatusConfig in Hb.
  destruct (go_ParametersRef (pl_Object gateway)); [|done]. apply bind_Ok in Hb as (cfg & _ & Hb). apply bind_Ok in Hb as ([tok nm] & Ht & Hb).
  apply bind_Ok in Hb as (parsed & _ & Hb). apply bind_Ok in Hb as (api & _ & Hb). injection Hb as <-. cbn in Ha |- *.
  assert (secret_holds s (pl_Namespace gateway) (lsr_Name (gcfg_TunnelTokenSecretRef cfg)) (KeyOr (gcfg_TunnelTokenSecretRef cfg) tunnelTokenKey) tok) as Htok.
  { unfold readTunnelToken in Ht. apply bind_Ok in Ht as (secret & Hg & Ht). apply bind_Ok in Ht as (t & Hv & Ht). injection Ht as <- <-.
    apply plane_secret_value_Ok in Hv. destruct (getSecret _ _ _) as [sec|] eqn:E in Hg; [|done]. injection Hg as <-.
    apply getSecret_plane in E as (st & Hst & <-); [|done]. by exists st. }
  assert (forall name key e, (secret ← map_err e (getSecret (reader := plane_reader secret_fault s) defaultNamespace name (pl_Namespace gateway)); secret_value secret key) = Ok auth ->
    secret_holds s (pl_Namespace gateway) name key auth) as Hauth.
  { intros name key e Hm. apply bind_Ok in Hm as (secret & Hg & Hv). apply plane_secret_value_Ok in Hv.
    destruct (getSecret _ _ _) as [sec|] eqn:E in Hg; [|done]. injection Hg as <-. apply getSecret_plane in E as (st & Hst & <-); [|done]. by exists st. }
  intros name secret key. unfold proxyEnv. cbn [in_Config plane_input pg_GatewayConfig in_Gateway in_Defaults]. unfold readAuthToken in Ha.
  fold (pl_Namespace gateway) (pl_Name gateway) in Ha.
  destruct (gcfg_AuthTokenSecretRef cfg) as [r|]; apply Hauth in Ha; cbn iota zeta; intros Hin; repeat (apply elem_of_cons in Hin as [Hin|Hin]).
  all: try (injection Hin as -> -> ->). all: try (eexists; split; [done|by (left + right)]).
  all: exfalso; case_match; set_solver.
Qed.
(** No label of the tenant shadows one the selectors need. *)
Lemma selector_labels_kept gateway : selectorLabels gateway ⊆ resourceLabels gateway.
Proof.
  apply map_subseteq_spec. intros k v Hk.
  assert (k = "app.kubernetes.io/name" \/ k = GatewayLabel) as Hcases.
  { unfold selectorLabels in Hk. apply lookup_insert_Some in Hk as [[<- _]|[_ [<- _]%lookup_singleton_Some]]; auto. }
  unfold resourceLabels. rewrite !lookup_insert_ne by (destruct Hcases as [-> | ->]; done). by apply lookup_union_Some_l.
Qed.
End tokens.

Section claims.
Context {hash : Sha256} {server : ApiServer} {base : ConfigReader} (secret_fault : string -> string -> option ApiError).
Context {decoder : TokenDecoder} {gateways : GatewayReader}.
Context (controllerName defaultNamespace : string) (renderDefaults : Defaults) (controllerNamespace : string).
Context (monitoring : option LabelSelector) (renderNetworkPolicy hasRouteSync : bool) (infra_text : InfraErr -> string).
Context (random_bytes : option string).
Local Notation reconcile := (Infra_Reconcile (base := base) secret_fault controllerName defaultNamespace renderDefaults controllerNamespace
  monitoring renderNetworkPolicy hasRouteSync infra_text random_bytes).
Implicit Types (gateway : PlaneGateway) (s : PlaneState).

(** C4: The infrastructure reconciler stays on its own objects, whatever its API
    calls answer.  An object changes only if its name is one the Gateway renders
    to, it was absent or controlled by this incarnation of the Gateway, and the
    Gateway opted out, lost its class to another controller or has a readable
    configuration.  An object disappears only on such a teardown, or as the
    autoscaler or network policy that the configuration no longer asks for.  A
    Secret that exists is never changed, and the only one created has the
    generated name. *)
Theorem plane_ownership gateway s :
  let after := (reconcile (Found gateway) s).2 in
  (forall key, pst_Objects after !! key = pst_Objects s !! key \/
     (key ∈ plane_keys gateway /\ free_or_owned gateway (pst_Objects s !! key) /\ free_or_owned gateway (pst_Objects after !! key) /\
      (tears_down controllerName gateway = true \/ exists gwConfig, rendered_config (base := base) controllerName gateway = Some (Ok gwConfig)))) /\
  (forall key, is_Some (pst_Objects s !! key) -> pst_Objects after !! key = None ->
     tears_down controllerName gateway = true \/
     exists gwConfig, rendered_config (base := base) controllerName gateway = Some (Ok gwConfig) /\
       ((key.1 = KindAutoscaler /\ gcfg_Autoscaling gwConfig = None) \/ (key.1 = KindNetworkPolicy /\ renderNetworkPolicy = false))) /\
  (forall key secret, pst_Secrets s !! key = Some secret -> pst_Secrets after !! key = Some secret) /\
  (forall key, pst_Secrets s !! key = None -> is_Some (pst_Secrets after !! key) ->
     key = (pl_Namespace gateway, GeneratedAuthSecretName (pl_Name gateway))).
Proof.
  intros after.
  destruct (reconcile_moves secret_fault controllerName defaultNamespace renderDefaults controllerNamespace monitoring renderNetworkPolicy
    hasRouteSync infra_text random_bytes gateway s) as [HO HS]. fold after in HO, HS. repeat split.
  - intros key. destruct (HO key) as [?|([Hin Hw]&?&?&_)]; [by left|by right].
  - intros key [o Ho] Hn. destruct (HO key) as [E|(_&_&_&HD)]; [congruence|by apply HD].
  - intros key secret Hk. destruct (HS key) as [E|[E _]]; congruence.
  - intros key Hn [o Ho]. destruct (HS key) as [E|[_ ?]]; [congruence|done].
Qed.

(** C23: Reconciling a data plane converges in one run, although the API server
    defaults what it stores.  After a reconcile whose API calls succeed, another one
    changes no object and no Secret, generates no token, triggers no route sync and
    emits no event but a repeated render failure: a rendered spec sets each field
    that the server would fill, or the apply leaves that field alone; the Deployment
    keeps the replicas its autoscaler chose, the Service its address, and
    annotations of other writers stay. *)
Theorem plane_converges gateway s s' :
  plain_keys (pl_Annotations gateway) -> pst_Faults s = [] -> reconcile (Found gateway) s = (Ok tt, s') ->
  exists s2, reconcile (Found gateway) s' = (Ok tt, s2) /\
    pst_Objects s2 = pst_Objects s' /\ pst_Secrets s2 = pst_Secrets s' /\ pst_Syncs s2 = pst_Syncs s' /\
    (pst_Events s2 = pst_Events s' \/ exists message, pst_Events s2 = (eventReasonRenderFailed, message) :: pst_Events s').
Proof. apply reconcile_again. Qed.

(** C7: A data plane runs with the tokens the controller uses for it.  After a
    reconcile whose API calls succeed, a Gateway whose configuration resolves has a
    Deployment of its own with the rendered pods, in the configured number unless
    an autoscaler owns it; the Secrets its environment names hold, not empty, the
    tunnel token and the push token that the resolver returns, and the pods carry
    the hashes of those tokens; and the selectors of the Deployment and of the
    Service choose these pods, whatever labels the tenant adds. *)
Theorem plane_tokens_match gateway ref perGateway s s' :
  plain_keys (pl_Annotations gateway) -> pl_Namespace gateway <> "" -> pst_Faults s = [] ->
  rendered_config (base := base) controllerName gateway <> None -> go_ParametersRef (pl_Object gateway) = Some ref ->
  reconcile (Found gateway) s = (Ok tt, s') ->
  @ResolveForGateway (plane_reader (base := base) secret_fault s') decoder hash defaultNamespace (pl_Object gateway) = Ok (Some perGateway) ->
  image_configured renderDefaults perGateway = true ->
  let input := plane_input renderDefaults gateway perGateway in
  exists o d svc spec,
    pst_Objects s' !! ((KindDeployment, (pl_Namespace gateway, DeploymentName (pl_Name gateway))) : ObjectKey) = Some o /\
    pst_Objects s' !! ((KindService, (pl_Namespace gateway, ConfigServiceName (pl_Name gateway))) : ObjectKey) = Some svc /\
    po_Owner o = Some (controller_reference gateway) /\ po_Spec o = DeploymentObject d /\ po_Spec svc = ServiceObject spec /\
    ds_Template d = ds_Template (ProxyDeployment input).2 /\
    (gcfg_Autoscaling (pg_GatewayConfig perGateway) = None ->
       ds_Replicas d = Some (default DefaultProxyReplicas (gcfg_Replicas (pg_GatewayConfig perGateway)))) /\
    (forall name secret key, EnvSecret name secret key ∈ proxyEnv input ->
       exists token, secret_holds s' (pl_Namespace gateway) secret key token /\
         ((name = "TUNNEL_TOKEN" /\ token = pg_TunnelToken perGateway) \/ (name = "PROXY_AUTH_TOKEN" /\ token = pg_AuthToken perGateway))) /\
    pt_Annotations (ds_Template d) !! tokenHashAnnotation = Some (hashToken (pg_TunnelToken perGateway)) /\
    pt_Annotations (ds_Template d) !! authTokenHashAnnotation = Some (hashToken (pg_AuthToken perGateway)) /\
    ds_Selector d ⊆ pt_Labels (ds_Template d) /\ ss_Selector spec = ds_Selector d.
Proof.
  intros Hk Hns Hs Hr Href Hrun HR Hi input.
  assert (plane_settled renderDefaults controllerNamespace monitoring renderNetworkPolicy gateway perGateway s') as (Hd & Hsvc & _).
  { unfold rendered_config in Hr. unfold Infra_Reconcile in Hrun. destruct (classifyGatewayClass _ _) as [[] []]; try done.
    destruct (pl_Deleting gateway); [done|]. rewrite Href in Hrun. apply render_first in Hrun as [_ H]; [|done..].
    destruct (getGatewayConfig _ ref) as [cfg|err] eqn:Hc.
    - destruct H as [_ H]. rewrite HR in H. auto.
    - apply resolved_config_of with (ref := ref) in HR; [congruence|done]. }
  destruct Hd as (o & Ho & Hm). destruct Hsvc as (svc & Hsv & Hsm).
  apply settled_spec in Hm as (Hown & _ & Hspec). apply settled_spec in Hsm as (_ & _ & Hsspec).
  unfold deployment_spec in Hspec. unfold service_spec in Hsspec. cbn [ProxyDeployment ConfigService fst snd] in Hspec, Hsspec.
  exists o. eexists _, svc, _. split; [exact Ho|]. split; [exact Hsv|]. split; [exact Hown|]. split; [exact Hspec|]. split; [exact Hsspec|].
  split_and!; [done| | | | | |done].
  - cbn. intros Ha. unfold replicaCount. cbn. by rewrite Ha.
  - by apply (resolved_tokens secret_fault defaultNamespace s' gateway perGateway renderDefaults).
  - cbn. by rewrite lookup_insert_ne, lookup_insert_eq.
  - cbn. by rewrite lookup_insert_eq.
  - apply selector_labels_kept.
Qed.
End claims.

(** ** A Gateway with its own plane *)

Definition plane_gateway : PlaneGateway :=
  mkPlaneGateway
    (mkGatewayObject (mkGateway "edge" "prod" [] None) 1 "class"
       (Some (mkParametersReference ParametersRefGroup GatewayParametersRefKind "cfg" None)) None)
    "uid-1" false {["team" := "a"; GatewayLabel := "spoofed"]} {["note" := "x"]}.
Definition plane_base : ConfigReader := {|
  get_GatewayConfig ns name :=
    Ok (mkGatewayConfig ns name (mkLocalSecretReference "tunnel" "") (Some (mkLocalSecretReference "creds" "")) None None None None "proxy:1");
  get_GatewayClass _ := Err apiNotFound;
  get_GatewayClassConfig _ := Err apiNotFound;
  get_Secret _ _ := Err apiNotFound |}.
Definition plane_classes : GatewayReader := {|
  read_gateway _ _ := NotFound;
  read_class name := if bool_decide (name = "class") then Found (mkGatewayClass "class" "us" None) else NotFound |}.
Definition plane_server : ApiServer := mkApiServer (fun _ => "IfNotPresent") "10.0.0.7".
Definition plane_start : PlaneState :=
  mkPlaneState ∅ {[("prod", "tunnel") := mkPlaneSecret None {["tunnel-token" := "token"]}; ("prod", "creds") := mkPlaneSecret None {["api-token" := "k"]}]}
    [] 0 [].
Definition plane_run (s : PlaneState) : res InfraErr unit * PlaneState :=
  @Infra_Reconcile constant_digest plane_server plane_base (fun _ _ => None) tenant_decoder plane_classes "us" "system" (mkDefaults "" "auto") "system" None
    true true (fun _ => "") (Some "random") (Found plane_gateway) s.
Lemma plane_keys_plain : plain_keys (pl_Annotations plane_gateway).
Proof. intros key [v Hv]. cbn in Hv. apply lookup_singleton_Some in Hv as [<- _]. reflexivity. Qed.

Lemma run_outcome {A B} (run : A * B) a : run.1 = a -> run = (a, run.2).
Proof. destruct run. cbn. by intros ->. Qed.

(** A Deployment of another controller at the rendered name. *)
Definition foreign_object : PlaneObject :=
  mkPlaneObject (Some (mkOwnerReference "apps/v1" "Job" "other" "uid-2")) ∅ ∅ (AutoscalerObject (mkAutoscalerSpec "" (Some 1%Z) 1 [])).
Definition plane_collision : PlaneState :=
  let key : ObjectKey := (KindDeployment, ("prod", @DeploymentName constant_digest "edge")) in
  mkPlaneState {[key := foreign_object]} (pst_Secrets plane_start) [] 0 [].
Lemma plane_ownership_witness :
  let key : ObjectKey := (KindDeployment, ("prod", @DeploymentName constant_digest "edge")) in
  pst_Objects (plane_run plane_collision).2 !! key = Some foreign_object /\ (plane_run plane_collision).1 = Err errRefusedAdoption.
Proof.
  intros key. split; [|vm_compute; reflexivity].
  destruct (@plane_ownership constant_digest plane_server plane_base (fun _ _ => None) tenant_decoder plane_classes "us" "system" (mkDefaults "" "auto")
    "system" None true true (fun _ => "") (Some "random") plane_gateway plane_collision) as [H _].
  destruct (H key) as [E|(_ & Hf & _)]; [exact E|]. vm_compute in Hf. discriminate Hf.
Defined.
Lemma plane_converges_witness :
  (plane_run plane_start).1 = Ok tt /\ pst_Syncs (plane_run plane_start).2 = 1 /\
  exists s2, plane_run (plane_run plane_start).2 = (Ok tt, s2) /\
    pst_Objects s2 = pst_Objects (plane_run plane_start).2 /\ pst_Secrets s2 = pst_Secrets (plane_run plane_start).2 /\
    pst_Syncs s2 = pst_Syncs (plane_run plane_start).2 /\
    (pst_Events s2 = pst_Events (plane_run plane_start).2 \/
     exists message, pst_Events s2 = (eventReasonRenderFailed, message) :: pst_Events (plane_run plane_start).2).
Proof.
  split; [vm_compute; reflexivity|]. split; [vm_compute; reflexivity|].
  apply (@plane_converges constant_digest plane_server plane_base (fun _ _ => None) tenant_decoder plane_classes "us" "system" (mkDefaults "" "auto")
    "system" None true true (fun _ => "") (Some "random") plane_gateway plane_start).
  - apply plane_keys_plain.
  - reflexivity.
  - apply run_outcome. vm_compute. reflexivity.
Defined.
Definition plane_resolved : PerGatewayConfig :=
  mkPerGatewayConfig (mkResolvedConfig "k" "account" "tunnel" "gatewayconfig:prod/cfg") "token" ("prod", "tunnel") (hex_EncodeToString "random")
    (mkGatewayConfig "prod" "cfg" (mkLocalSecretReference "tunnel" "") (Some (mkLocalSecretReference "creds" "")) None None None None "proxy:1").
Lemma plane_tokens_match_witness :
  exists o d, pst_Objects (plane_run plane_start).2 !! ((KindDeployment, ("prod", @DeploymentName constant_digest "edge")) : ObjectKey) = Some o /\
    po_Spec o = DeploymentObject d /\ ds_Replicas d = Some 2%Z /\ ds_Selector d ⊆ pt_Labels (ds_Template d).
Proof.
  edestruct (@plane_tokens_match constant_digest plane_server plane_base (fun _ _ => None) tenant_decoder plane_classes "us" "system" (mkDefaults "" "auto")
    "system" None true true (fun _ => "") (Some "random") plane_gateway (mkParametersReference ParametersRefGroup GatewayParametersRefKind "cfg" None)
    plane_resolved plane_start (plane_run plane_start).2)
    as (o & d & svc & spec & Ho & _ & _ & Hd & _ & _ & Hrep & _ & _ & _ & Hsel & _).
  - apply plane_keys_plain.
  - discriminate.
  - reflexivity.
  - discriminate.
  - reflexivity.
  - apply run_outcome. vm_compute. reflexivity.
  - vm_compute. reflexivity.
  - reflexivity.
  - exists o, d. split; [exact Ho|]. split; [exact Hd|]. split; [apply Hrep; reflexivity|exact Hsel].
Defined.
