(* ===== verification/ConvertFrame.v ===== *)
(** * What a built configuration depends on

    Two sets of resolvers and reads that agree on the references of the routes
    build the same configuration ([Converter], [BackendPasses], [PushSync]): the
    frame behind the watches, which reconcile only the routes an event concerns. *)
From Stdlib Require Import Ascii.
From stdpp Require Import sorting.
From stdpp Require Import base sets gmap strings list.
From S2P Require Import Prelude GoStrings GoHttp ProxyConfig Matcher Shadow RouteBinding IngressBuild BackendPasses Converter ConfigResolver ListenerView ParentBinding EffectiveHostnames SyncAll PushSync.

(** ** Sinks up to extensionality *)

Definition sink_ext {A} : relation (Sink A) := fun m1 m2 => forall s, m1 s = m2 s.
#[export] Instance sink_ext_equiv {A} : Equivalence (@sink_ext A).
Proof. split; [done|by intros ?? H s|intros ??? H H' s; by rewrite H]. Qed.
Lemma sink_bind_ext {A B} (m1 m2 : Sink A) (f1 f2 : A -> Sink B) :
  sink_ext m1 m2 -> (forall a, sink_ext (f1 a) (f2 a)) -> sink_ext (sink_bind m1 f1) (sink_bind m2 f2).
Proof. intros Hm Hf s. unfold sink_bind. rewrite Hm. destruct (m2 s). apply Hf. Qed.
Lemma sink_map_ext {A B} (f1 f2 : A -> Sink B) l :
  (forall x, x ∈ l -> sink_ext (f1 x) (f2 x)) -> sink_ext (sink_map f1 l) (sink_map f2 l).
Proof.
  induction l as [|x l IH]; intros H; [done|]. cbn [sink_map]. apply sink_bind_ext; [apply H; set_solver|intros y].
  apply sink_bind_ext; [apply IH; set_solver|done].
Qed.
Create HintDb frame.
#[export] Hint Resolve sink_bind_ext sink_map_ext : frame.
#[export] Hint Extern 1 (sink_ext ?m ?m) => reflexivity : frame.

(** ** Agreement on a reference *)

Definition lookup_tls (rv : Resolvers) (namespace name : string) (port : Z) : option BackendTLSConfig :=
  rv_tls rv ≫= fun resolver => resolver namespace name port.

(** The mirrors of filters, of a rule and of a route. *)
Definition filter_mirrors (filters : list HTTPRouteFilter) : list GwBackendRef :=
  omap (fun f => hrm_BackendRef <$> hf_RequestMirror f) filters.
Definition rule_mirrors (rule : HTTPRouteRule) : list GwBackendRef :=
  filter_mirrors (hrule_Filters rule) ++ (hrule_BackendRefs rule ≫= fun b => filter_mirrors (hb_Filters b)).
Definition http_mirrors (route : RouteObject HTTPRouteRule) : list GwBackendRef := ro_Rules route ≫= rule_mirrors.
Definition http_refs (route : RouteObject HTTPRouteRule) : list GwBackendRef :=
  ro_Rules route ≫= fun rule => hb_Ref <$> hrule_BackendRefs rule.
Definition grpc_refs (route : RouteObject GRPCRouteRule) : list GwBackendRef :=
  ro_Rules route ≫= fun rule => gbr_Ref <$> grule_BackendRefs rule.

Section frame.
Context {durations : DurationParser} (rv1 rv2 : Resolvers).
(** The policies and protocols of a Service count for references that may resolve to one. *)
Definition ref_agrees (namespace : string) (ref : GwBackendRef) : Prop :=
  let target := default namespace (gb_Namespace ref) in
  let port := default defaultServicePort (gb_Port ref) in
  validateCrossNamespace rv1 target namespace ref = validateCrossNamespace rv2 target namespace ref /\
  (isMirrorableBackendRef ref = true ->
     lookup_tls rv1 target (gb_Name ref) port = lookup_tls rv2 target (gb_Name ref) port /\
     lookupAppProtocol rv1 target (gb_Name ref) port = lookupAppProtocol rv2 target (gb_Name ref) port).

Hypothesis Hdomain : rv_clusterDomain rv1 = rv_clusterDomain rv2.

Lemma resolveCommonBackendRef_agrees namespace ref :
  ref_agrees namespace ref -> resolveCommonBackendRef rv1 ref namespace = resolveCommonBackendRef rv2 ref namespace.
Proof.
  intros (Hv & _). unfold resolveCommonBackendRef, validateCommonBackendRef. cbn. by rewrite Hdomain, Hv.
Qed.
Lemma resolveBackendTLS_lookup rv namespace name port url :
  resolveBackendTLS rv namespace name port url =
  match lookup_tls rv namespace name port with None => (None, url) | Some tls => (Some tls, forceHTTPSScheme url) end.
Proof. unfold resolveBackendTLS, lookup_tls. by destruct (rv_tls rv). Qed.
Lemma resolveBackendProtocol_lookup rv namespace name port url attached :
  resolveBackendProtocol rv namespace name port url attached =
  resolveBackendProtocol (mkResolvers "" None (Some (fun _ _ _ => lookupAppProtocol rv namespace name port)) None None) namespace name port url attached.
Proof. unfold resolveBackendProtocol, lookupAppProtocol. by destruct (rv_protocol rv). Qed.

Lemma convertMirrorFilter_agrees namespace mirror clientCert :
  (forall m, mirror = Some m -> ref_agrees namespace (hrm_BackendRef m)) ->
  sink_ext (convertMirrorFilter rv1 mirror namespace clientCert) (convertMirrorFilter rv2 mirror namespace clientCert).
Proof.
  intros H. unfold convertMirrorFilter. destruct mirror as [m|]; [|done]. destruct (H m eq_refl) as (Hv & Ht).
  unfold validateMirrorBackendRef. rewrite Hv.
  destruct (isMirrorableBackendRef _); [|done]. destruct (Ht eq_refl) as [Htls _]. destruct (validatePort _); [|done]. destruct (validateCrossNamespace rv2 _ _ _); [|done].
  intros s. cbn. unfold lookup_tls in Htls. by rewrite Hdomain, Htls.
Qed.
Lemma convertFilter_agrees namespace filter clientCert scope :
  (forall ref, ref ∈ filter_mirrors [filter] -> ref_agrees namespace ref) ->
  sink_ext (convertFilter rv1 filter namespace clientCert scope) (convertFilter rv2 filter namespace clientCert scope).
Proof.
  intros H. unfold convertFilter. repeat case_bool_decide; try done. apply sink_bind_ext; [|done].
  apply convertMirrorFilter_agrees. intros m Hm. apply H. unfold filter_mirrors. cbn. rewrite Hm. cbn. set_solver.
Qed.
Lemma filter_mirrors_elem filter filters ref : filter ∈ filters -> ref ∈ filter_mirrors [filter] -> ref ∈ filter_mirrors filters.
Proof.
  unfold filter_mirrors. intros Hf Hr. apply list_elem_of_omap in Hr as (f & ->%list_elem_of_singleton & Hr).
  apply list_elem_of_omap. eauto.
Qed.
Lemma convertFilters_agrees namespace filters clientCert scope :
  (forall ref, ref ∈ filter_mirrors filters -> ref_agrees namespace ref) ->
  sink_ext (convertFilters rv1 filters namespace clientCert scope) (convertFilters rv2 filters namespace clientCert scope).
Proof.
  intros H. unfold convertFilters. apply sink_bind_ext; [|done]. apply sink_map_ext. intros f Hf. apply convertFilter_agrees.
  intros ref Hr. apply H. by eapply filter_mirrors_elem.
Qed.
Lemma applyBackendFilters_agrees result filters namespace clientCert :
  (forall ref, ref ∈ filter_mirrors filters -> ref_agrees namespace ref) ->
  sink_ext (applyBackendFilters rv1 result filters namespace clientCert) (applyBackendFilters rv2 result filters namespace clientCert).
Proof. intros H. unfold applyBackendFilters. apply sink_bind_ext; [by apply convertFilters_agrees|done]. Qed.

Lemma resolveCommonBackendRef_target rv ref namespace :
  rb_outcome (resolveCommonBackendRef rv ref namespace) <> backendRefDropped ->
  rb_svcNamespace (resolveCommonBackendRef rv ref namespace) = default namespace (gb_Namespace ref) /\
  rb_serviceName (resolveCommonBackendRef rv ref namespace) = gb_Name ref /\
  rb_port (resolveCommonBackendRef rv ref namespace) = default defaultServicePort (gb_Port ref).
Proof.
  unfold resolveCommonBackendRef, validateCommonBackendRef. destruct (_ <? 0)%Z; [done|]. intros _. cbn.
  by repeat case_match.
Qed.
Lemma resolved_mirrorable rv ref namespace :
  rb_outcome (resolveCommonBackendRef rv ref namespace) = backendRefResolved -> isMirrorableBackendRef ref = true.
Proof.
  unfold resolveCommonBackendRef, validateCommonBackendRef, IsSupportedBackendRef, isMirrorableBackendRef.
  destruct (_ <? 0)%Z; [done|]. destruct (IsServiceBackendRef ref), (IsServiceImportBackendRef ref), (IsExternalBackendRef ref); by cbn.
Qed.
Lemma convertBackendRef_agrees backend namespace clientCert :
  ref_agrees namespace (hb_Ref backend) -> (forall ref, ref ∈ filter_mirrors (hb_Filters backend) -> ref_agrees namespace ref) ->
  sink_ext (convertBackendRef rv1 backend namespace clientCert) (convertBackendRef rv2 backend namespace clientCert).
Proof.
  intros Hr Hm. unfold convertBackendRef. rewrite <-(resolveCommonBackendRef_agrees namespace (hb_Ref backend)) by done.
  pose proof (resolveCommonBackendRef_target rv1 (hb_Ref backend) namespace) as Ht.
  pose proof (resolved_mirrorable rv1 (hb_Ref backend) namespace) as Hres.
  destruct Hr as (Hv & Hl). set (c := resolveCommonBackendRef rv1 _ _) in *.
  destruct (rb_outcome c) eqn:Eo; try done; destruct (rb_backend c) as [b|]; try done;
    destruct (Ht ltac:(congruence)) as (Ens & En & Ep); rewrite ?Ens, ?En, ?Ep.
  - destruct (Hl (Hres eq_refl)) as [Htls Hp]. rewrite !resolveBackendTLS_lookup, <-Htls. destruct (lookup_tls rv1 _ _ _); cbn;
      (apply sink_bind_ext; [rewrite !(resolveBackendProtocol_lookup rv1), !(resolveBackendProtocol_lookup rv2), Hp; done|intros tr]);
      (apply sink_bind_ext; [by apply applyBackendFilters_agrees|done]).
  - unfold convertExternalBackendRef. rewrite Hv, Hdomain. destruct (validateCrossNamespace rv2 _ _ _); [|done].
    apply sink_bind_ext; [by apply applyBackendFilters_agrees|done].
Qed.
Definition http_rule_agrees (namespace : string) (rule : HTTPRouteRule) : Prop :=
  (forall b, b ∈ hrule_BackendRefs rule -> ref_agrees namespace (hb_Ref b)) /\ forall ref, ref ∈ rule_mirrors rule -> ref_agrees namespace ref.
Lemma convertHTTPRouteRule_agrees rule hostnames namespace clientCert :
  http_rule_agrees namespace rule ->
  sink_ext (convertHTTPRouteRule rv1 rule hostnames namespace clientCert) (convertHTTPRouteRule rv2 rule hostnames namespace clientCert).
Proof.
  intros [Hr Hm]. unfold rule_mirrors in Hm. unfold convertHTTPRouteRule.
  apply sink_bind_ext; [apply convertFilters_agrees; set_solver|intros fs].
  apply sink_bind_ext; [|done]. apply sink_map_ext. intros b Hb. apply convertBackendRef_agrees; [by apply Hr|].
  intros ref Href. apply Hm. apply elem_of_app. right. apply list_elem_of_bind. eauto.
Qed.

(** ** The same for gRPC *)

Lemma convertGRPCBackendRef_agrees backend namespace clientCert :
  ref_agrees namespace (gbr_Ref backend) ->
  sink_ext (convertGRPCBackendRef rv1 backend namespace clientCert) (convertGRPCBackendRef rv2 backend namespace clientCert).
Proof.
  intros Hr. unfold convertGRPCBackendRef. rewrite <-(resolveCommonBackendRef_agrees namespace (gbr_Ref backend)) by done.
  pose proof (resolveCommonBackendRef_target rv1 (gbr_Ref backend) namespace) as Ht.
  pose proof (resolved_mirrorable rv1 (gbr_Ref backend) namespace) as Hres.
  destruct Hr as (Hv & Hl). set (c := resolveCommonBackendRef rv1 _ _) in *.
  destruct (rb_outcome c) eqn:Eo; try done; destruct (rb_backend c) as [b|]; try done;
    destruct (Ht ltac:(congruence)) as (Ens & En & Ep); rewrite ?Ens, ?En, ?Ep.
  - destruct (Hl (Hres eq_refl)) as [Htls Hp]. apply sink_bind_ext; [done|intros b']. apply sink_bind_ext; [|done]. unfold applyGRPCBackendTransport.
    by rewrite !resolveBackendTLS_lookup, <-Htls, Hp.
  - unfold convertGRPCExternalBackendRef. by rewrite Hv, Hdomain.
Qed.
Definition grpc_rule_agrees (namespace : string) (rule : GRPCRouteRule) : Prop :=
  forall b, b ∈ grule_BackendRefs rule -> ref_agrees namespace (gbr_Ref b).
Lemma convertGRPCRouteRule_agrees rule hostnames namespace clientCert :
  grpc_rule_agrees namespace rule ->
  sink_ext (convertGRPCRouteRule rv1 rule hostnames namespace clientCert) (convertGRPCRouteRule rv2 rule hostnames namespace clientCert).
Proof.
  intros Hr. unfold convertGRPCRouteRule. apply sink_bind_ext; [done|intros fs]. apply sink_bind_ext; [|done].
  apply sink_map_ext. intros b Hb. apply convertGRPCBackendRef_agrees, Hr, Hb.
Qed.

(** ** Routes *)

Hypothesis Hcert : rv_clientCert rv1 = rv_clientCert rv2.
Section routes.
Context {R : Type} (kind : string) (agrees : string -> R -> Prop).
Context (convert : Resolvers -> R -> list string -> string -> option ClientCertConfig -> Sink RouteRule).
Hypothesis Hconvert : forall rule hostnames namespace clientCert, agrees namespace rule ->
  sink_ext (convert rv1 rule hostnames namespace clientCert) (convert rv2 rule hostnames namespace clientCert).
Lemma convert_rules_agrees route clientCert rules idx :
  (forall rule, rule ∈ rules -> agrees (ro_Namespace route) rule) ->
  sink_ext (convert_rules (mkRouteKindView R kind (convert rv1)) route clientCert idx rules)
    (convert_rules (mkRouteKindView R kind (convert rv2)) route clientCert idx rules).
Proof.
  revert idx. induction rules as [|rule rules IH]; intros idx H; [done|]. cbn [convert_rules].
  apply sink_bind_ext; [done|intros _]. apply sink_bind_ext; [apply Hconvert, H; set_solver|intros r].
  apply sink_bind_ext; [apply IH; set_solver|done].
Qed.
Lemma convertRoutesGeneric_agrees routes counter :
  (forall route, route ∈ routes -> forall rule, rule ∈ ro_Rules route -> agrees (ro_Namespace route) rule) ->
  convertRoutesGeneric rv1 (mkRouteKindView R kind (convert rv1)) routes counter =
  convertRoutesGeneric rv2 (mkRouteKindView R kind (convert rv2)) routes counter.
Proof.
  intros H. unfold convertRoutesGeneric. f_equal.
  assert (sink_ext (sink_map (convert_route rv1 (mkRouteKindView R kind (convert rv1))) (sortRoutesByPrecedence routes))
    (sink_map (convert_route rv2 (mkRouteKindView R kind (convert rv2))) (sortRoutesByPrecedence routes))) as E.
  { apply sink_map_ext. intros route Hr. unfold convert_route. apply sink_bind_ext; [done|intros _]. rewrite Hcert.
    apply convert_rules_agrees. apply H. unfold sortRoutesByPrecedence in Hr. by rewrite stable_sort_perm in Hr. }
  by rewrite E.
Qed.
End routes.
Lemma ConvertHTTPRoutes_agrees routes counter :
  (forall route, route ∈ routes -> forall rule, rule ∈ ro_Rules route -> http_rule_agrees (ro_Namespace route) rule) ->
  ConvertHTTPRoutes rv1 routes counter = ConvertHTTPRoutes rv2 routes counter.
Proof. intros H. apply (convertRoutesGeneric_agrees _ http_rule_agrees (fun rv => convertHTTPRouteRule rv)); [apply convertHTTPRouteRule_agrees|done]. Qed.
Lemma ConvertGRPCRoutes_agrees routes counter :
  (forall route, route ∈ routes -> forall rule, rule ∈ ro_Rules route -> grpc_rule_agrees (ro_Namespace route) rule) ->
  ConvertGRPCRoutes rv1 routes counter = ConvertGRPCRoutes rv2 routes counter.
Proof. intros H. apply (convertRoutesGeneric_agrees _ grpc_rule_agrees (fun rv => convertGRPCRouteRule rv)); [apply convertGRPCRouteRule_agrees|done]. Qed.
End frame.

(** ** The passes over the built configuration *)

Section passes.
Context {parser : UrlParser} {sorter : SortFunc} (cli1 cli2 : ServiceReader) (clusterDomain : string).
Definition service_agrees (namespace name : string) : Prop :=
  read_service cli1 namespace name = read_service cli2 namespace name /\ list_slices cli1 namespace name = list_slices cli2 namespace name.
Definition service_refs_agree (refs : list RouteRef) : Prop :=
  forall r, r ∈ refs -> IsServiceBackendRef r.2 = true -> service_agrees (default r.1 (gb_Namespace r.2)) (gb_Name r.2).
Lemma visit_agrees action1 action2 cfg refs :
  (forall cfg namespace name port, service_agrees namespace name -> action1 cfg namespace name port = action2 cfg namespace name port) ->
  service_refs_agree refs ->
  visitAuthorizedServiceBackends clusterDomain action1 cfg refs = visitAuthorizedServiceBackends clusterDomain action2 cfg refs.
Proof.
  intros Ha Hr. unfold visitAuthorizedServiceBackends. case_bool_decide; [done|]. f_equal.
  generalize (∅ : gset string, cfg). revert Hr. induction refs as [|r refs IH]; intros Hr st; [done|]. cbn [foldl].
  replace (visit clusterDomain (UnmarkedBackendHosts cfg) action2 st r) with (visit clusterDomain (UnmarkedBackendHosts cfg) action1 st r).
  - apply IH. intros x Hx. apply Hr. by right.
  - unfold visit. destruct st as [seen c]. destruct (IsServiceBackendRef r.2) eqn:E; [|done]. cbn. repeat case_bool_decide; try done.
    cbn. f_equal. apply Ha, Hr; [by left|done].
Qed.
Lemma expand_agrees cfg namespace name port :
  service_agrees namespace name ->
  expandBackendIfHeadless cli1 clusterDomain cfg namespace name port = expandBackendIfHeadless cli2 clusterDomain cfg namespace name port.
Proof. intros [E E']. unfold expandBackendIfHeadless, resolveHeadlessEndpoints. by rewrite E, E'. Qed.
Lemma zero_agrees cfg namespace name port :
  service_agrees namespace name ->
  markBackendIfZeroEndpoints cli1 clusterDomain cfg namespace name port = markBackendIfZeroEndpoints cli2 clusterDomain cfg namespace name port.
Proof. intros [E E']. unfold markBackendIfZeroEndpoints, serviceHasReadyEndpoint. by rewrite E, E'. Qed.
Hypothesis Hexternal : forall namespace name, read_external cli1 namespace name = read_external cli2 namespace name.
Lemma resolveExternalBackends_agrees cfg : resolveExternalBackends cli1 cfg = resolveExternalBackends cli2 cfg.
Proof.
  unfold resolveExternalBackends, map_backends. f_equal. apply list_fmap_ext. intros i r _. f_equal. apply list_fmap_ext. intros j b _.
  unfold resolve_external. destruct (ParseExternalBackendSentinel _) as [[ns n]|]; [|done]. by rewrite Hexternal.
Qed.
Lemma finishProxyConfig_agrees cfg grpcCfg routes grpcRoutes failed grpcFailed :
  service_refs_agree (route_refs routes grpcRoutes) ->
  finishProxyConfig cli1 clusterDomain cfg grpcCfg routes grpcRoutes failed grpcFailed =
  finishProxyConfig cli2 clusterDomain cfg grpcCfg routes grpcRoutes failed grpcFailed.
Proof.
  intros H. unfold finishProxyConfig, expandHeadlessBackends, markZeroEndpointBackends.
  rewrite (visit_agrees (expandBackendIfHeadless cli1 clusterDomain) (expandBackendIfHeadless cli2 clusterDomain)) by (done || apply expand_agrees).
  rewrite (visit_agrees (markBackendIfZeroEndpoints cli1 clusterDomain) (markBackendIfZeroEndpoints cli2 clusterDomain)) by (done || apply zero_agrees).
  by rewrite resolveExternalBackends_agrees.
Qed.
End passes.

(** ** The whole build *)

Section build.
Context {durations : DurationParser} {parser : UrlParser} {sorter : SortFunc}.
Context {cluster : Cluster} {kube : KubeClient} {views : ListenerViews}.
Context (rv1 rv2 grpcRv1 grpcRv2 : Resolvers) (cli1 cli2 : ServiceReader).

(** The rewrites of a route keep its namespace and its references. *)
Lemma narrow_route_rules {R} kind (route : RouteObject R) :
  ro_Rules (narrow_route kind route) = ro_Rules route /\ ro_Namespace (narrow_route kind route) = ro_Namespace route.
Proof. unfold narrow_route. destruct (collectEffectiveListenerHostnames kind route). by repeat case_match. Qed.
Lemma set_scheme_mirrors scheme filters : filter_mirrors (set_scheme scheme <$> filters) = filter_mirrors filters.
Proof.
  unfold filter_mirrors. induction filters as [|f filters IH]; [done|]. rewrite fmap_cons. cbn [omap list_omap].
  unfold set_scheme at 1. rewrite IH. by destruct (isEmptySchemeRedirect f).
Qed.
Lemma scheme_route_refs route :
  ro_Namespace (defaultRedirectSchemeForRoute route) = ro_Namespace route /\
  http_refs (defaultRedirectSchemeForRoute route) = http_refs route /\
  http_mirrors (defaultRedirectSchemeForRoute route) = http_mirrors route.
Proof.
  unfold defaultRedirectSchemeForRoute. destruct (negb _); [done|]. case_bool_decide; [done|]. split; [done|].
  unfold http_refs, http_mirrors, applyDefaultRedirectScheme. cbn. split; induction (ro_Rules route) as [|r rs IH]; try done; cbn.
  - f_equal; [|done]. rewrite <-list_fmap_compose. by apply list_fmap_ext.
  - f_equal; [|done]. unfold rule_mirrors. cbn. rewrite set_scheme_mirrors. f_equal.
    clear IH. induction (hrule_BackendRefs r) as [|b bs IHb]; [done|]. cbn. by rewrite set_scheme_mirrors, IHb.
Qed.

(** The routes after their rewrites. *)
Definition pushed_routes (routes : list (RouteObject HTTPRouteRule)) : list (RouteObject HTTPRouteRule) :=
  withDefaultRedirectScheme (withEffectiveHostnames routes).
Lemma pushed_route routes route :
  route ∈ pushed_routes routes -> exists original, original ∈ routes /\ ro_Namespace route = ro_Namespace original /\
    http_refs route = http_refs original /\ http_mirrors route = http_mirrors original.
Proof.
  unfold pushed_routes, withDefaultRedirectScheme, withEffectiveHostnames. rewrite list_elem_of_fmap. intros (narrowed & -> & Hn).
  apply list_elem_of_fmap in Hn as (original & -> & Ho). exists original. split; [done|].
  destruct (scheme_route_refs (narrow_route KindHTTPRoute original)) as (-> & -> & ->).
  destruct (narrow_route_rules KindHTTPRoute original) as [E ->]. unfold http_refs, http_mirrors. by rewrite E.
Qed.

Record build_agrees (routes : list (RouteObject HTTPRouteRule)) (grpcRoutes : list (RouteObject GRPCRouteRule)) : Prop := {
  ba_domain : rv_clusterDomain rv1 = rv_clusterDomain rv2;
  ba_grpc_domain : rv_clusterDomain grpcRv1 = rv_clusterDomain grpcRv2;
  ba_cert : rv_clientCert rv1 = rv_clientCert rv2;
  ba_grpc_cert : rv_clientCert grpcRv1 = rv_clientCert grpcRv2;
  ba_external : forall namespace name, read_external cli1 namespace name = read_external cli2 namespace name;
  ba_refs : forall route ref, route ∈ routes -> ref ∈ http_refs route ++ http_mirrors route -> ref_agrees rv1 rv2 (ro_Namespace route) ref;
  ba_grpc_refs : forall route ref, route ∈ grpcRoutes -> ref ∈ grpc_refs route -> ref_agrees grpcRv1 grpcRv2 (ro_Namespace route) ref;
  ba_services : forall route ref, route ∈ routes -> ref ∈ http_refs route -> IsServiceBackendRef ref = true ->
    service_agrees cli1 cli2 (default (ro_Namespace route) (gb_Namespace ref)) (gb_Name ref);
  ba_grpc_services : forall route ref, route ∈ grpcRoutes -> ref ∈ grpc_refs route -> IsServiceBackendRef ref = true ->
    service_agrees cli1 cli2 (default (ro_Namespace route) (gb_Namespace ref)) (gb_Name ref) }.

Lemma http_rule_of_route route rule : rule ∈ ro_Rules route ->
  (forall b, b ∈ hrule_BackendRefs rule -> hb_Ref b ∈ http_refs route) /\ forall ref, ref ∈ rule_mirrors rule -> ref ∈ http_mirrors route.
Proof.
  intros Hr. unfold http_refs, http_mirrors. split; intros x Hx; apply list_elem_of_bind; exists rule; split; try done.
  apply list_elem_of_fmap. eauto.
Qed.
Lemma projection_refs routes grpcRoutes r :
  r ∈ route_refs (http_projection <$> routes) (grpc_projection <$> grpcRoutes) ->
  (exists route, route ∈ routes /\ r.1 = ro_Namespace route /\ r.2 ∈ http_refs route) \/
  (exists route, route ∈ grpcRoutes /\ r.1 = ro_Namespace route /\ r.2 ∈ grpc_refs route).
Proof.
  unfold route_refs. intros [H|H]%elem_of_app; [left|right]; apply list_elem_of_bind in H as (x & H & (route & -> & Hr)%list_elem_of_fmap);
    apply list_elem_of_bind in H as (rule & H & (rl & -> & Hrl)%list_elem_of_fmap); apply list_elem_of_fmap in H as (ref & -> & Href); cbn in *;
    (exists route; split; [done|split; [done|]]); apply list_elem_of_bind; eauto.
Qed.
Lemma buildProxyConfig_agrees routes grpcRoutes failed grpcFailed counter :
  build_agrees routes grpcRoutes ->
  buildProxyConfig rv1 grpcRv1 cli1 routes grpcRoutes failed grpcFailed counter =
  buildProxyConfig rv2 grpcRv2 cli2 routes grpcRoutes failed grpcFailed counter.
Proof.
  intros H. unfold buildProxyConfig. fold (pushed_routes routes).
  rewrite (ConvertHTTPRoutes_agrees rv1 rv2); [|apply H..|].
  2:{ intros route (original & Ho & En & Er & Em)%pushed_route rule Hrule. rewrite En. apply http_rule_of_route in Hrule as [H1 H2].
      split; [intros b Hb; apply (ba_refs _ _ H original); [done|]; rewrite <-Er; apply elem_of_app; left; by apply H1|].
      intros ref Hr. apply (ba_refs _ _ H original); [done|]. rewrite <-Em. apply elem_of_app. right. by apply H2. }
  rewrite (ba_domain _ _ H). destruct (ConvertHTTPRoutes rv2 _ counter) as [cfg counter'].
  assert (forall route ref, route ∈ pushed_routes routes -> ref ∈ http_refs route -> IsServiceBackendRef ref = true ->
    service_agrees cli1 cli2 (default (ro_Namespace route) (gb_Namespace ref)) (gb_Name ref)) as Hs.
  { intros route ref (original & Ho & En & Er & _)%pushed_route. rewrite En, Er. by apply (ba_services _ _ H). }
  destruct (0 <? length grpcRoutes).
  - assert (forall route, route ∈ withEffectiveHostnamesGRPC grpcRoutes -> exists original, original ∈ grpcRoutes /\
      ro_Namespace route = ro_Namespace original /\ grpc_refs route = grpc_refs original) as Hg.
    { intros route (original & -> & Ho)%list_elem_of_fmap. exists original. destruct (narrow_route_rules KindGRPCRoute original) as [E E'].
      unfold grpc_refs. by rewrite E. }
    rewrite (ConvertGRPCRoutes_agrees grpcRv1 grpcRv2); [|apply H..|].
    2:{ intros route (original & Ho & En & Er)%Hg rule Hrule b Hb. rewrite En. apply (ba_grpc_refs _ _ H original); [done|].
        rewrite <-Er. apply list_elem_of_bind. exists rule. split; [|done]. apply list_elem_of_fmap. eauto. }
    destruct (ConvertGRPCRoutes grpcRv2 _ counter') as [grpcCfg counter'']. f_equal.
    apply finishProxyConfig_agrees; [apply (ba_external _ _ H)|]. intros r Hr Hsvc.
    apply projection_refs in Hr as [(route & Hr & -> & Href)|(route & Hr & -> & Href)]; [by apply Hs|].
    apply Hg in Hr as (original & Ho & En & Er). rewrite En. rewrite Er in Href. by apply (ba_grpc_services _ _ H).
  - f_equal. apply finishProxyConfig_agrees; [apply (ba_external _ _ H)|]. intros r Hr Hsvc.
    apply (projection_refs _ []) in Hr as [(route & Hr & -> & Href)|(route & Hr & _)]; [by apply Hs|set_solver].
Qed.
End build.
