(* ===== verification/Mappers.v ===== *)
(** * Which routes an event concerns ([controller/mappers.go])

    The maps from a changed object to the routes to reconcile, as both route
    controllers share them, with [listenerset_route_mapper.go] and the list
    functions of the two controllers.  [None] is a failed list. *)
From Stdlib Require Import Ascii.
From stdpp Require Import sorting.
From stdpp Require Import base sets gmap strings list.
From S2P Require Import Prelude GoStrings GoHttp ProxyConfig Matcher Shadow Handler RouteBinding ReferenceGrant IngressBuild BackendPasses Converter ConverterSpec ConfigResolver ListenerView ParentBinding EffectiveHostnames RouteStatus SyncAll PushSync BackendTLS CertRefs GatewayStatus ConvertFrame.

(** A reconcile request: namespace and name. *)
Notation Request := (string * string)%type.

(** ** References of routes *)

Definition ref_target (ref : GwBackendRef) (routeNamespace : string) : string * string :=
  (default routeNamespace (gb_Namespace ref), gb_Name ref).
Definition backendRefMatchesService (ref : GwBackendRef) (routeNamespace svcNamespace svcName : string) : bool :=
  if negb (IsServiceBackendRef ref) then false
  else bool_decide (default routeNamespace (gb_Namespace ref) = svcNamespace) && bool_decide (gb_Name ref = svcName).
Definition backendRefMatchesExternalBackend (ref : GwBackendRef) (routeNamespace ebNamespace ebName : string) : bool :=
  if negb (IsExternalBackendRef ref) then false
  else bool_decide (default routeNamespace (gb_Namespace ref) = ebNamespace) && bool_decide (gb_Name ref = ebName).
Definition extractCrossNamespaceBackends (routeNamespace : string) (refs : list GwBackendRef) : list string :=
  (foldl (fun '(namespaces, seen) ref =>
    match gb_Namespace ref with
    | Some backendNs =>
        if negb (bool_decide (backendNs = routeNamespace)) && negb (bool_decide (backendNs ∈ seen))
        then (namespaces ++ [backendNs], {[backendNs]} ∪ seen) else (namespaces, seen)
    | None => (namespaces, seen)
    end) ([], ∅ : gset string) refs).1.

(** The [Route] interface. *)
Record Route := mkRoute {
  rt_Namespace : string; rt_Name : string; rt_Hostnames : list string; rt_ParentRefs : list ParentReference; rt_Kind : string;
  rt_CrossNamespaceBackendNamespaces : list string;
  rt_ReferencesService : string -> string -> bool;
  rt_ReferencesExternalBackend : string -> string -> bool }.
Definition wrapper {R} (kind : string) (refs : RouteObject R -> list GwBackendRef) (route : RouteObject R) : Route :=
  mkRoute (ro_Namespace route) (ro_Name route) (ro_Hostnames route) (ro_ParentRefs route) kind
    (extractCrossNamespaceBackends (ro_Namespace route) (refs route))
    (fun namespace name => existsb (fun ref => backendRefMatchesService ref (ro_Namespace route) namespace name) (refs route))
    (fun namespace name => existsb (fun ref => backendRefMatchesExternalBackend ref (ro_Namespace route) namespace name) (refs route)).
Definition HTTPRouteWrapper : RouteObject HTTPRouteRule -> Route := wrapper "HTTPRoute" http_refs.
Definition GRPCRouteWrapper : RouteObject GRPCRouteRule -> Route := wrapper "GRPCRoute" grpc_refs.
Definition request_of (route : Route) : Request := (rt_Namespace route, rt_Name route).

(** ** Maps that need no reads *)

Definition FindRoutesForService (namespace name : string) (routes : list Route) : list Request :=
  request_of <$> List.filter (fun route => rt_ReferencesService route namespace name) routes.
Definition FindRoutesForExternalBackend (namespace name : string) (routes : list Route) : list Request :=
  request_of <$> List.filter (fun route => rt_ReferencesExternalBackend route namespace name) routes.
(** [serviceName] is the label of the slice, empty without one. *)
Definition FindRoutesForEndpointSlice (namespace serviceName : string) (routes : list Route) : list Request :=
  if bool_decide (serviceName = "") then []
  else request_of <$> List.filter (fun route => rt_ReferencesService route namespace serviceName) routes.
Definition FindRoutesForReferenceGrant (targetNamespace : string) (routes : list Route) : list Request :=
  request_of <$> List.filter (fun route => bool_decide (targetNamespace ∈ rt_CrossNamespaceBackendNamespaces route)) routes.

(** ** Maps that read the cluster *)

Section maps.
Context {cluster : Cluster} {kube : KubeClient} {views : ListenerViews} {gateways : GatewayReader}.
Context {reader : ConfigReader} {grants : GrantClient} (controllerName : string).

Definition FindRoutesForGateway (gateway : GatewayObject) (routes : list Route) : list Request :=
  if negb (isGatewayManagedByController gateway controllerName) then []
  else request_of <$> List.filter (fun route => existsb (fun ref =>
         bool_decide (pref_Name ref = gw_Name (go_Gateway gateway)) &&
         bool_decide (default (rt_Namespace route) (pref_Namespace ref) = gw_Namespace (go_Gateway gateway))) (rt_ParentRefs route)) routes.

Definition routeTargetsListenerSet (route : Route) (listenerSet : ListenerSet) : bool :=
  existsb (fun ref =>
    negb (negb (bool_decide (default "" (pref_Group ref) = "")) && negb (bool_decide (default "" (pref_Group ref) = GroupName))) &&
    bool_decide (pref_Kind ref = Some kindListenerSet) && bool_decide (pref_Name ref = ls_Name listenerSet) &&
    bool_decide (default (rt_Namespace route) (pref_Namespace ref) = ls_Namespace listenerSet)) (rt_ParentRefs route).
Definition findRoutesAttachedToListenerSet (listenerSet : ListenerSetObject) (routes : list Route) : list Request :=
  match listenerSetParentGateway listenerSet with
  | None => []
  | Some parent =>
      if negb (isGatewayManagedByController parent controllerName) then []
      else request_of <$> List.filter (fun route => routeTargetsListenerSet route (lso_Set listenerSet)) routes
  end.

Definition withRefFilters (template : RouteInfo) (ref : ParentReference) : RouteInfo :=
  mkRouteInfo (ri_Name template) (ri_Namespace template) (ri_Hostnames template) (ri_Kind template) (pref_SectionName ref) (pref_Port ref).
Definition IsRouteAcceptedByGateway (route : Route) : bool :=
  let routeInfoTemplate := mkRouteInfo (rt_Name route) (rt_Namespace route) (rt_Hostnames route) (rt_Kind route) None None in
  existsb (fun ref =>
    match resolveRouteParentBinding controllerName ref (rt_Namespace route) (withRefFilters routeInfoTemplate ref) with
    | Err _ => false
    | Ok binding => pb_ManagedByThisController binding && br_Accepted (pb_Result binding)
    end) (rt_ParentRefs route).
Definition FilterAcceptedRoutes (routes : list Route) : list Request :=
  request_of <$> List.filter IsRouteAcceptedByGateway routes.
Definition routeReferencesOurGateways (route : Route) : bool :=
  existsb (fun ref =>
    match resolveParentGatewayFromRef ref (rt_Namespace route) with
    | None => false
    | Some gateway => isGatewayManagedByController gateway controllerName
    end) (rt_ParentRefs route).

(** ** Configuration and Secrets *)

(** [config.Resolver.GetConfigForGatewayClass] *)
Definition GetConfigForGatewayClass (class : GatewayClass) : option GatewayClassConfig :=
  match gc_ParametersRef class with
  | None => None
  | Some ref =>
      if negb (bool_decide (pr_Group ref = ParametersRefGroup)) || negb (bool_decide (pr_Kind ref = ParametersRefKind)) then None
      else match get_GatewayClassConfig (pr_Name ref) with Ok config => Some config | Err _ => None end
  end.
Definition isConfigForOurClass (cfg : GatewayClassConfig) : bool :=
  match listGatewayClassesForController controllerName with
  | None => false
  | Some classes => existsb (fun class => match gc_ParametersRef class with
                                          | Some ref => bool_decide (pr_Name ref = gcc_Name cfg)
                                          | None => false
                                          end) classes
  end.
Definition SecretMatchesConfig (namespace name : string) (cfg : GatewayClassConfig) : bool :=
  let credRef := gcc_CloudflareCredentialsSecretRef cfg in
  bool_decide (name = sref_Name credRef) && (bool_decide (sref_Namespace credRef = "") || bool_decide (sref_Namespace credRef = namespace)).
Definition isSecretReferencedByCredentials (namespace name : string) : bool :=
  match listGatewayClassesForController controllerName with
  | None => false
  | Some classes => existsb (fun class => match GetConfigForGatewayClass class with
                                          | None => false
                                          | Some cfg => SecretMatchesConfig namespace name cfg
                                          end) classes
  end.
(** The Gateways of managed classes, none when a list fails. *)
Definition managed_gateways : list GatewayObject :=
  match managedClassNames controllerName with
  | None => []
  | Some classNames =>
      if bool_decide (classNames = ∅) then []
      else match kube_Gateways with
           | None => []
           | Some items => List.filter (fun gateway => bool_decide (go_ClassName gateway ∈ classNames)) items
           end
  end.
Definition isSecretReferencedByGatewayConfig (namespace name : string) : bool :=
  existsb (fun gateway =>
    match go_ParametersRef gateway with
    | None => false
    | Some ref =>
        match getGatewayConfig gateway ref with
        | Err _ => false
        | Ok gwConfig =>
            match gcfg_CloudflareCredentialsSecretRef gwConfig with
            | None => false
            | Some ref => bool_decide (gcfg_Namespace gwConfig = namespace) && bool_decide (lsr_Name ref = name)
            end
        end
    end) managed_gateways.
(** A grant that cannot be read does not drop the event. *)
Definition gatewayReferencesSecret (gateway : GatewayObject) (namespace name : string) : bool :=
  match gatewayClientCertRef gateway with
  | None => false
  | Some ref =>
      if negb (isCoreSecretRef ref) then false
      else
        let ns := gw_Namespace (go_Gateway gateway) in
        let targetNS := default ns (sor_Namespace ref) in
        if negb (bool_decide (targetNS = namespace)) || negb (bool_decide (sor_Name ref = name)) then false
        else if bool_decide (targetNS = ns) then true
        else match checkSecretReferenceGrantForGateway (go_Gateway gateway) targetNS ref with
             | Err _ => true
             | Ok allowed => allowed
             end
  end.
Definition isSecretReferencedByManagedGateway (namespace name : string) : bool :=
  existsb (fun gateway => gatewayReferencesSecret gateway namespace name) managed_gateways.
Definition isSecretReferencedByConfig (namespace name : string) : bool :=
  if isSecretReferencedByCredentials namespace name then true
  else if isSecretReferencedByGatewayConfig namespace name then true
  else isSecretReferencedByManagedGateway namespace name.
Definition MapConfigToRequests (getRequests : list Request) (cfg : GatewayClassConfig) : list Request :=
  if negb (isConfigForOurClass cfg) then [] else getRequests.
Definition MapSecretToRequests (getRequests : list Request) (namespace name : string) : list Request :=
  if negb (isSecretReferencedByConfig namespace name) then [] else getRequests.

(** ** The list functions of the controllers

    [routes] is what the controller's own list of its kind returned. *)
Section controller.
Context (routes : option (list Route)).
Definition listed (find : list Route -> list Request) : list Request :=
  match routes with None => [] | Some routes => find routes end.
(** Maps over the routes some Gateway of this controller accepts. *)
Definition over_accepted (find : list Route -> list Request) : list Request :=
  listed (fun routes => find (List.filter IsRouteAcceptedByGateway routes)).
Definition findRoutesForGateway (gateway : GatewayObject) : list Request := listed (FindRoutesForGateway gateway).
Definition findRoutesForListenerSet (listenerSet : ListenerSetObject) : list Request := listed (findRoutesAttachedToListenerSet listenerSet).
Definition findRoutesForService (namespace name : string) : list Request := over_accepted (FindRoutesForService namespace name).
Definition findRoutesForExternalBackend (namespace name : string) : list Request := over_accepted (FindRoutesForExternalBackend namespace name).
Definition findRoutesForEndpointSlice (namespace serviceName : string) : list Request :=
  over_accepted (FindRoutesForEndpointSlice namespace serviceName).
Definition findRoutesForReferenceGrant (namespace : string) : list Request := over_accepted (FindRoutesForReferenceGrant namespace).
Definition getAllRelevantRoutes : list Request := listed FilterAcceptedRoutes.
End controller.
Definition namespaceScopedRequests (getAll : list Request) (namespace : string) : list Request :=
  List.filter (fun req => bool_decide (req.1 = namespace)) getAll.
End maps.

(** ** What the maps select *)

Lemma extractCrossNamespaceBackends_spec routeNamespace refs namespace :
  namespace ∈ extractCrossNamespaceBackends routeNamespace refs <->
  namespace <> routeNamespace /\ exists ref, ref ∈ refs /\ gb_Namespace ref = Some namespace.
Proof.
  unfold extractCrossNamespaceBackends.
  set (step := fun '(namespaces, seen) ref => _).
  assert (forall l (acc : list string * gset string), (forall x, x ∈ acc.1 <-> x ∈ acc.2) ->
    namespace ∈ (foldl step acc l).1 <->
    namespace ∈ acc.1 \/ (namespace <> routeNamespace /\ exists ref, ref ∈ l /\ gb_Namespace ref = Some namespace)) as H.
  { induction l as [|ref l IH]; intros [out seen] Hacc; [set_solver|]. cbn [foldl]. cbn in Hacc. unfold step at 2.
    destruct (gb_Namespace ref) as [ns|] eqn:E.
    - destruct (decide (ns = routeNamespace)) as [->|Hne].
      + rewrite bool_decide_eq_true_2 by done. cbn [negb andb]. rewrite IH by done. cbn. set_solver.
      + rewrite (bool_decide_eq_false_2 (ns = routeNamespace)) by done. destruct (decide (ns ∈ seen)) as [Hs|Hs].
        * rewrite (bool_decide_eq_true_2 (ns ∈ seen)) by done. cbn [negb andb]. rewrite IH by done. cbn. apply Hacc in Hs. set_solver.
        * rewrite (bool_decide_eq_false_2 (ns ∈ seen)) by done. cbn [negb andb]. rewrite IH by (cbn; set_solver). cbn. set_solver.
    - rewrite IH by done. cbn. set_solver. }
  rewrite H by (cbn; set_solver). cbn. set_solver.
Qed.
Lemma existsb_false {A} (f : A -> bool) l x : existsb f l = false -> x ∈ l -> f x = false.
Proof. intros H Hx. apply not_true_is_false. intros Hf. apply not_true_iff_false in H. apply H, existsb_exists. exists x. by rewrite <-list_elem_of_In. Qed.
Lemma over_filter_nil {A} (f : Route -> bool) (g : Route -> A) routes route :
  g <$> List.filter f routes = [] -> route ∈ routes -> f route = false.
Proof.
  intros H%fmap_nil_inv Hr. apply not_true_is_false. intros Hf. apply (not_elem_of_nil route). rewrite <-H.
  by apply list_elem_of_In, filter_In; rewrite <-list_elem_of_In.
Qed.

Section watched.
Context {cluster : Cluster} {kube : KubeClient} {views : ListenerViews} {gateways : GatewayReader} (controllerName : string).
(** The routes of a build: listed, and accepted by a Gateway of this controller. *)
Definition served {R} (wrap : RouteObject R -> Route) (all routes : list (RouteObject R)) : Prop :=
  forall route, route ∈ routes -> route ∈ all /\ IsRouteAcceptedByGateway controllerName (wrap route) = true.
Lemma served_unselected {R} (wrap : RouteObject R -> Route) f all routes route :
  served wrap all routes -> over_accepted controllerName (Some (wrap <$> all)) (fun routes => request_of <$> List.filter f routes) = [] ->
  route ∈ routes -> f (wrap route) = false.
Proof.
  intros Hs Ho Hr. apply Hs in Hr as [Ha Hacc]. eapply over_filter_nil; [exact Ho|].
  apply list_elem_of_In, filter_In. split; [|done]. apply list_elem_of_In, list_elem_of_fmap. eauto.
Qed.
End watched.

(** Two sets of resolvers that differ on one Service at most. *)
Definition differ_at_service (namespace name : string) (rv1 rv2 : Resolvers) : Prop :=
  rv_clusterDomain rv1 = rv_clusterDomain rv2 /\ rv_validator rv1 = rv_validator rv2 /\ rv_clientCert rv1 = rv_clientCert rv2 /\
  forall ns n port, (ns, n) <> (namespace, name) ->
    lookup_tls rv1 ns n port = lookup_tls rv2 ns n port /\ lookupAppProtocol rv1 ns n port = lookupAppProtocol rv2 ns n port.
(** Two sets of resolvers that differ on the grants of one namespace at most. *)
Definition differ_at_grants (namespace : string) (rv1 rv2 : Resolvers) : Prop :=
  rv_clusterDomain rv1 = rv_clusterDomain rv2 /\ rv_clientCert rv1 = rv_clientCert rv2 /\ rv_tls rv1 = rv_tls rv2 /\ rv_protocol rv1 = rv_protocol rv2 /\
  forall source ref, gb_Namespace ref <> Some namespace ->
    match rv_validator rv1 with None => true | Some v => v source ref end = match rv_validator rv2 with None => true | Some v => v source ref end.
Lemma differ_at_service_agrees namespace name rv1 rv2 routeNamespace ref :
  differ_at_service namespace name rv1 rv2 ->
  (isMirrorableBackendRef ref = true -> ref_target ref routeNamespace <> (namespace, name)) -> ref_agrees rv1 rv2 routeNamespace ref.
Proof.
  intros (_ & Hv & _ & H) Hne. unfold ref_agrees, validateCrossNamespace. rewrite Hv. split; [done|]. intros Hm. by apply H, Hne.
Qed.
Lemma differ_at_grants_agrees namespace rv1 rv2 routeNamespace ref :
  differ_at_grants namespace rv1 rv2 -> (gb_Namespace ref = Some namespace -> namespace = routeNamespace) -> ref_agrees rv1 rv2 routeNamespace ref.
Proof.
  intros (_ & _ & Ht & Hp & H) Hne. unfold ref_agrees, validateCrossNamespace, lookup_tls, lookupAppProtocol. rewrite Ht, Hp. split; [|done].
  destruct (decide (gb_Namespace ref = Some namespace)) as [E|E]; [|by rewrite H].
  rewrite E, (Hne E). cbn. by rewrite bool_decide_eq_true_2.
Qed.

Section irrelevant.
Context {durations : DurationParser} {parser : UrlParser} {sorter : SortFunc}.
Context {cluster : Cluster} {kube : KubeClient} {views : ListenerViews} {gateways : GatewayReader} (controllerName : string).

(** A Service that no route names by a backendRef, through a ServiceImport or as a
    mirror does not count for what the proxies are sent. *)
Lemma unnamed_service_irrelevant namespace name rv1 rv2 grpcRv1 grpcRv2 cli1 cli2 routes grpcRoutes failed grpcFailed counter :
  differ_at_service namespace name rv1 rv2 -> differ_at_service namespace name grpcRv1 grpcRv2 ->
  (forall ns n, (ns, n) <> (namespace, name) -> service_agrees cli1 cli2 ns n) ->
  (forall ns n, read_external cli1 ns n = read_external cli2 ns n) ->
  (forall route ref, route ∈ routes -> ref ∈ http_refs route ++ http_mirrors route -> isMirrorableBackendRef ref = true ->
     ref_target ref (ro_Namespace route) <> (namespace, name)) ->
  (forall route ref, route ∈ grpcRoutes -> ref ∈ grpc_refs route -> isMirrorableBackendRef ref = true ->
     ref_target ref (ro_Namespace route) <> (namespace, name)) ->
  buildProxyConfig rv1 grpcRv1 cli1 routes grpcRoutes failed grpcFailed counter =
  buildProxyConfig rv2 grpcRv2 cli2 routes grpcRoutes failed grpcFailed counter.
Proof.
  intros Hd Hdg Hsvc Hext Hh Hg. apply buildProxyConfig_agrees. split; try apply Hd; try apply Hdg; try done.
  - intros route ref Ht Href. eapply differ_at_service_agrees; [done|]. by apply Hh.
  - intros route ref Ht Href. eapply differ_at_service_agrees; [done|]. by apply Hg.
  - intros route ref Ht Href Hs. apply Hsvc, Hh; [done|set_solver|]. unfold isMirrorableBackendRef. by rewrite Hs.
  - intros route ref Ht Href Hs. apply Hsvc, Hg; [done..|]. unfold isMirrorableBackendRef. by rewrite Hs.
Qed.

Lemma unselected_grant {R} (kind : string) (refs : RouteObject R -> list GwBackendRef) namespace all routes route ref :
  served controllerName (wrapper kind refs) all routes ->
  findRoutesForReferenceGrant controllerName (Some (wrapper kind refs <$> all)) namespace = [] ->
  route ∈ routes -> ref ∈ refs route -> gb_Namespace ref = Some namespace -> namespace = ro_Namespace route.
Proof.
  intros Hs Hf Hr Href E. eapply served_unselected in Hf; [|done..]. apply bool_decide_eq_false in Hf. cbn in Hf.
  destruct (decide (namespace = ro_Namespace route)) as [|Hne]; [done|]. destruct Hf. apply extractCrossNamespaceBackends_spec. eauto.
Qed.
(** A ReferenceGrant event that enqueues no route changes nothing the proxies
    are sent, as long as no route mirrors into the grant's namespace from another
    one: whatever the event permits or forbids there, the configuration built from
    the accepted routes is the same. *)
Theorem unmapped_grant_irrelevant namespace rv1 rv2 grpcRv1 grpcRv2 cli
    (all : list (RouteObject HTTPRouteRule)) (allGRPC : list (RouteObject GRPCRouteRule)) routes grpcRoutes failed grpcFailed counter :
  served controllerName HTTPRouteWrapper all routes -> served controllerName GRPCRouteWrapper allGRPC grpcRoutes ->
  findRoutesForReferenceGrant controllerName (Some (HTTPRouteWrapper <$> all)) namespace = [] ->
  findRoutesForReferenceGrant controllerName (Some (GRPCRouteWrapper <$> allGRPC)) namespace = [] ->
  differ_at_grants namespace rv1 rv2 -> differ_at_grants namespace grpcRv1 grpcRv2 ->
  (forall route ref, route ∈ routes -> ref ∈ http_mirrors route -> gb_Namespace ref = Some namespace -> namespace = ro_Namespace route) ->
  buildProxyConfig rv1 grpcRv1 cli routes grpcRoutes failed grpcFailed counter =
  buildProxyConfig rv2 grpcRv2 cli routes grpcRoutes failed grpcFailed counter.
Proof.
  intros Hs Hsg Hr Hrg Hd Hdg Hm. apply buildProxyConfig_agrees. split; try apply Hd; try apply Hdg; try done.
  - intros route ref Ht Href. eapply differ_at_grants_agrees; [done|]. apply elem_of_app in Href as [Href|Href]; [by eapply unselected_grant|by apply Hm].
  - intros route ref Ht Href. eapply differ_at_grants_agrees; [done|]. by eapply unselected_grant.
Qed.
End irrelevant.

(** ** Secrets *)

Section secrets.
Context {kube : KubeClient} {grants : GrantClient} {x509 : X509} (controllerName defaultNamespace namespace name : string).
Context (reader1 reader2 : ConfigReader) (secrets1 secrets2 : SecretReader).
(** Two clusters that differ in one Secret at most. *)
Record differ_at_secret : Prop := {
  ds_gatewayConfig : forall ns n, @get_GatewayConfig reader1 ns n = @get_GatewayConfig reader2 ns n;
  ds_class : forall n, @get_GatewayClass reader1 n = @get_GatewayClass reader2 n;
  ds_classConfig : forall n, @get_GatewayClassConfig reader1 n = @get_GatewayClassConfig reader2 n;
  ds_secret : forall ns n, (ns, n) <> (namespace, name) -> @get_Secret reader1 ns n = @get_Secret reader2 ns n;
  ds_read : forall ns n, (ns, n) <> (namespace, name) -> @read_secret secrets1 ns n = @read_secret secrets2 ns n }.
Hypothesis Hdiffer : differ_at_secret.

Lemma getSecret_differs n ns :
  (if bool_decide (ns = "") then defaultNamespace else ns, n) <> (namespace, name) ->
  @getSecret reader1 defaultNamespace n ns = @getSecret reader2 defaultNamespace n ns.
Proof. apply (ds_secret Hdiffer). Qed.
Lemma resolveConfig_differs config :
  SecretMatchesConfig namespace name config = false ->
  @resolveConfig reader1 defaultNamespace config = @resolveConfig reader2 defaultNamespace config.
Proof.
  intros H. unfold resolveConfig. case_bool_decide; [done|]. rewrite getSecret_differs; [done|]. intros [= E1 E2].
  unfold SecretMatchesConfig in H. rewrite E2, bool_decide_eq_true_2 in H by done. cbn in H.
  apply orb_false_iff in H as [H1 H2]. rewrite H1 in E1. by rewrite E1, bool_decide_eq_true_2 in H2.
Qed.
Lemma ResolveFromGatewayClass_differs class classes :
  listGatewayClassesForController controllerName = Some classes -> class ∈ classes ->
  @isSecretReferencedByCredentials kube reader1 controllerName namespace name = false ->
  @ResolveFromGatewayClass reader1 defaultNamespace class = @ResolveFromGatewayClass reader2 defaultNamespace class.
Proof.
  intros Hl Hc H. unfold isSecretReferencedByCredentials in H. rewrite Hl in H. eapply existsb_false in H; [|exact Hc].
  unfold GetConfigForGatewayClass in H. unfold ResolveFromGatewayClass. destruct (gc_ParametersRef class) as [ref|]; [|done].
  destruct (bool_decide (pr_Group ref = ParametersRefGroup)); [|done]. destruct (bool_decide (pr_Kind ref = ParametersRefKind)); [|done]. cbn in *.
  rewrite <-(ds_classConfig Hdiffer). destruct (get_GatewayClassConfig (pr_Name ref)) as [config|]; [|done]. cbn. by apply resolveConfig_differs.
Qed.
Lemma loadGatewayClientCertPEM_differs gateway :
  gatewayReferencesSecret gateway namespace name = false ->
  @loadGatewayClientCertPEM secrets1 x509 checkSecretReferenceGrantForGateway gateway =
  @loadGatewayClientCertPEM secrets2 x509 checkSecretReferenceGrantForGateway gateway.
Proof.
  unfold gatewayReferencesSecret, loadGatewayClientCertPEM. destruct (gatewayClientCertRef gateway) as [ref|]; [|done].
  destruct (isCoreSecretRef ref); [|done]. cbn [negb]. set (target := default _ (sor_Namespace ref)).
  destruct (decide ((target, sor_Name ref) = (namespace, name))) as [[= -> ->]|Hne].
  - rewrite !(bool_decide_eq_true_2 (_ = _)) by done. cbn. destruct (bool_decide _); [done|]. cbn.
    by destruct (checkSecretReferenceGrantForGateway _ _ _) as [[]|].
  - intros _. by rewrite (ds_read Hdiffer) by done.
Qed.
End secrets.

Lemma NoDup_key_inj {A B} (key : A -> B) l x y : NoDup (key <$> l) -> x ∈ l -> y ∈ l -> key x = key y -> x = y.
Proof.
  intros Hnd [i Hi]%list_elem_of_lookup [j Hj]%list_elem_of_lookup E.
  assert (i = j) as ->; [|congruence]. eapply (NoDup_lookup (key <$> l)); [done|by rewrite list_lookup_fmap, Hi|by rewrite list_lookup_fmap, Hj, E].
Qed.
Lemma managed_gateway_spec {kube : KubeClient} controllerName gateway :
  gateway ∈ managed_gateways controllerName ->
  exists classes class, listGatewayClassesForController controllerName = Some classes /\ class ∈ classes /\ gc_Name class = go_ClassName gateway.
Proof.
  unfold managed_gateways, managedClassNames. destruct (listGatewayClassesForController controllerName) as [classes|]; cbn; [|set_solver].
  case_bool_decide; [set_solver|]. destruct kube_Gateways as [items|]; [|set_solver].
  intros [_ Hin%bool_decide_eq_true]%list_elem_of_In%filter_In. apply elem_of_list_to_set, list_elem_of_fmap in Hin as (class & E & Hc).
  exists classes, class. by rewrite E.
Qed.
(** A Secret event that enqueues nothing concerns no credential in use.
    Whatever changed in a Secret that the mapper does not match, every managed
    Gateway resolves the same Cloudflare token, of its class or of its own
    GatewayConfig, and presents the same client certificate to its backends. *)
Theorem unmapped_secret_irrelevant {kube : KubeClient} {grants : GrantClient} {x509 : X509}
    controllerName defaultNamespace namespace name reader1 reader2 secrets1 secrets2 classes gateway :
  differ_at_secret namespace name reader1 reader2 secrets1 secrets2 -> ConfigReaderLaws reader1 ->
  kube_GatewayClasses = Some classes -> NoDup (gc_Name <$> classes) ->
  (forall n class, @get_GatewayClass reader1 n = Ok class -> class ∈ classes /\ gc_Name class = n) ->
  gateway ∈ managed_gateways controllerName -> gw_Namespace (go_Gateway gateway) <> "" ->
  @isSecretReferencedByConfig kube reader1 grants controllerName namespace name = false ->
  @ResolveFromGatewayClassName reader1 defaultNamespace (go_ClassName gateway) =
    @ResolveFromGatewayClassName reader2 defaultNamespace (go_ClassName gateway) /\
  (forall ref gwConfig, go_ParametersRef gateway = Some ref -> @getGatewayConfig reader1 gateway ref = Ok gwConfig ->
     @resolveGatewayAPIToken reader1 defaultNamespace gateway gwConfig = @resolveGatewayAPIToken reader2 defaultNamespace gateway gwConfig) /\
  @loadGatewayClientCertPEM secrets1 x509 checkSecretReferenceGrantForGateway gateway =
    @loadGatewayClientCertPEM secrets2 x509 checkSecretReferenceGrantForGateway gateway.
Proof.
  intros Hd Hlaws Hk Hnd Hget Hg Hns H. unfold isSecretReferencedByConfig in H.
  destruct (isSecretReferencedByCredentials _ _ _) eqn:Hcred; [done|]. destruct (isSecretReferencedByGatewayConfig _ _ _) eqn:Hcfg; [done|].
  assert (@ResolveFromGatewayClassName reader1 defaultNamespace (go_ClassName gateway) =
    @ResolveFromGatewayClassName reader2 defaultNamespace (go_ClassName gateway)) as Hclass.
  { unfold ResolveFromGatewayClassName. rewrite <-(ds_class _ _ _ _ _ _ Hd). destruct (get_GatewayClass _) as [class|] eqn:Ec; [|done]. cbn.
    apply managed_gateway_spec in Hg as (managed & class' & Hl & Hin & En). apply (ResolveFromGatewayClass_differs controllerName defaultNamespace namespace name reader1 reader2 secrets1 secrets2 Hd class managed Hl); [|exact Hcred].
    apply Hget in Ec as [Hc En']. unfold listGatewayClassesForController in Hl. rewrite Hk in Hl. injection Hl as <-.
    pose proof Hin as [Hin' _]%list_elem_of_In%filter_In. rewrite <-list_elem_of_In in Hin'.
    assert (class' = class) as <-; [|done]. apply (NoDup_key_inj gc_Name classes); [done..|congruence]. }
  split; [done|]. split.
  - intros ref gwConfig Href Hgc. unfold resolveGatewayAPIToken, readCredentialOverride.
    destruct (gcfg_CloudflareCredentialsSecretRef gwConfig) as [override|] eqn:Eo; [|by rewrite Hclass].
    rewrite (getSecret_differs defaultNamespace namespace name reader1 reader2 secrets1 secrets2 Hd); [done|].
    eapply existsb_false in Hcfg; [|exact Hg]. cbn beta in Hcfg. rewrite Href, Hgc, Eo in Hcfg.
    assert (gcfg_Namespace gwConfig <> "") as Hne.
    { unfold getGatewayConfig in Hgc. destruct (_ || _); [done|]. destruct (get_GatewayConfig _ _) as [c|] eqn:Eg; [|done].
      injection Hgc as <-. by rewrite (Hlaws _ _ _ Eg). }
    rewrite bool_decide_eq_false_2 by done. intros [= E1 E2]. by rewrite E1, E2, !bool_decide_eq_true_2 in Hcfg.
  - apply (loadGatewayClientCertPEM_differs namespace name reader1 reader2 secrets1 secrets2 Hd). unfold isSecretReferencedByManagedGateway in H. by eapply existsb_false in H.
Qed.

(** ** Examples *)

(** The protocol of one Service changes, and its endpoints appear. *)
Definition db_resolvers (proto : string) : Resolvers :=
  mkResolvers "cluster.local" None (Some (fun ns name _ => if bool_decide (ns = "prod") && bool_decide (name = "db") then proto else "")) None None.
Definition db_cluster (svc : option Service) : ServiceReader :=
  mkServiceReader (fun ns name => if bool_decide (ns = "prod") && bool_decide (name = "db") then svc else None) (fun _ _ => None) (fun _ _ => None).
Definition route_classes : GatewayReader := {|
  read_gateway _ _ := NotFound; read_class _ := Found (mkGatewayClass "class" "us" None) |}.
Lemma run_route_served : @served bare_cluster run_client run_views "us" _ HTTPRouteWrapper [run_route] [run_route].
Proof. intros route ->%list_elem_of_singleton. split; [by left|vm_compute; reflexivity]. Qed.
Lemma no_grpc_served : @served bare_cluster run_client run_views "us" _ GRPCRouteWrapper [] [].
Proof. intros route ?%elem_of_nil. done. Qed.
Lemma db_differ : differ_at_service "prod" "db" (db_resolvers "") (db_resolvers "kubernetes.io/h2c").
Proof.
  split_and!; [done..|]. intros ns n port Hne. split; [done|]. unfold lookupAppProtocol. cbn.
  destruct (bool_decide (ns = "prod")) eqn:E1; [|done]. destruct (bool_decide (n = "db")) eqn:E2; [|done].
  apply bool_decide_eq_true in E1 as ->. apply bool_decide_eq_true in E2 as ->. done.
Qed.
(** A grant of another namespace appears. *)
Definition grant_resolvers (granted : bool) : Resolvers :=
  mkResolvers "cluster.local" (Some (fun _ ref => granted && bool_decide (gb_Namespace ref = Some "other"))) None None None.
Lemma grant_differ : differ_at_grants "other" (grant_resolvers false) (grant_resolvers true).
Proof. split_and!; [done..|]. intros source ref Hne. cbn. by rewrite bool_decide_eq_false_2. Qed.
Lemma unmapped_grant_irrelevant_witness :
  @buildProxyConfig no_durations no_urls stable_func bare_cluster run_client run_views (grant_resolvers false) (grant_resolvers false) empty_cluster
    [run_route] [] [] [] 1 =
  @buildProxyConfig no_durations no_urls stable_func bare_cluster run_client run_views (grant_resolvers true) (grant_resolvers true) empty_cluster
    [run_route] [] [] [] 1.
Proof.
  apply (@unmapped_grant_irrelevant no_durations no_urls stable_func bare_cluster run_client run_views "us" "other"
    (grant_resolvers false) (grant_resolvers true) (grant_resolvers false) (grant_resolvers true) empty_cluster [run_route] []).
  - apply run_route_served.
  - apply no_grpc_served.
  - vm_compute. reflexivity.
  - reflexivity.
  - apply grant_differ.
  - apply grant_differ.
  - intros route ref ->%list_elem_of_singleton Href. vm_compute in Href. by apply elem_of_nil in Href.
Defined.
(** A route whose only reference into the namespace is a mirror is not enqueued by
    the grant that would let the mirror be served. *)
Definition mirror_route : RouteObject HTTPRouteRule :=
  mkRouteObject "prod" "web" 1 ["a.example.com"] [ref_to "edge"]
    [mkHTTPRouteRule [] [mkHTTPRouteFilter "RequestMirror" None None None None
       (Some (mkHTTPRequestMirrorFilter (service_ref "shadow" (Some "other") 1) None None)) None]
       [mkHTTPBackendRef (mkGwBackendRef None None "svc" None (Some 80%Z) None) []] None].
Lemma mirror_grant_unmapped :
  @IsRouteAcceptedByGateway bare_cluster run_client run_views "us" (HTTPRouteWrapper mirror_route) = true /\
  @findRoutesForReferenceGrant bare_cluster run_client run_views "us" (Some [HTTPRouteWrapper mirror_route]) "other" = [] /\
  (rule_Filters <$> cfg_Rules (@ConvertHTTPRoutes no_durations (grant_resolvers false) [mirror_route] 1).1) = [[]] /\
  length <$> (rule_Filters <$> cfg_Rules (@ConvertHTTPRoutes no_durations (grant_resolvers true) [mirror_route] 1).1) = [1].
Proof. vm_compute. split_and!; reflexivity. Qed.

(** Two values of a Secret that no Gateway uses. *)
Definition noise_reader (value : string) : ConfigReader := {|
  get_GatewayConfig _ _ := Err apiNotFound;
  get_GatewayClass n := if bool_decide (n = "class") then Ok (mkGatewayClass "class" "us" (Some (mkParametersReference ParametersRefGroup ParametersRefKind "cfg" None))) else Err apiNotFound;
  get_GatewayClassConfig n := Ok (mkGatewayClassConfig n (mkSecretReference "creds" "system" "") "account" "tunnel");
  get_Secret ns n := if bool_decide ((ns, n) = ("prod", "noise")) then Ok {["api-token" := value]} else Ok {["api-token" := "k"]} |}.
Definition noise_secrets (value : string) : SecretReader := fun ns n =>
  if bool_decide ((ns, n) = ("prod", "noise")) then Found (mkSecret SecretTypeTLS {[TLSCertKey := value]}) else NotFound.
Lemma unmapped_secret_irrelevant_witness :
  @ResolveFromGatewayClassName (noise_reader "a") "system" "class" = @ResolveFromGatewayClassName (noise_reader "b") "system" "class".
Proof.
  apply (@unmapped_secret_irrelevant run_client one_grant crt_x509 "us" "system" "prod" "noise" (noise_reader "a") (noise_reader "b")
    (noise_secrets "a") (noise_secrets "b")
    [mkGatewayClass "class" "us" (Some (mkParametersReference ParametersRefGroup ParametersRefKind "cfg" None))] (edge_gateway "a.example.com")).
  - split; intros; try reflexivity; cbn; unfold noise_secrets; unfold read_secret; rewrite !bool_decide_eq_false_2 by done; reflexivity.
  - intros ns n config H. discriminate H.
  - reflexivity.
  - apply NoDup_singleton.
  - intros n class. cbn. destruct (bool_decide (n = "class")) eqn:E; [|discriminate]. intros [= <-]. apply bool_decide_eq_true in E as ->.
    split; [by left|reflexivity].
  - vm_compute. by right; left.
  - discriminate.
  - vm_compute. reflexivity.
Defined.
