(* ===== verification/RouteController.v ===== *)
(** * The route controllers ([controller/reconcile_route.go], [startup_sync.go])

    The watches of the two route controllers with their event filters, one
    reconcile, and the startup sync with its retries. *)
From Stdlib Require Import Ascii.
From stdpp Require Import sorting.
From stdpp Require Import base sets gmap strings list.
From S2P Require Import Prelude GoStrings GoHttp ProxyConfig Matcher Shadow Handler RouteBinding ReferenceGrant IngressBuild BackendPasses Converter ConverterSpec ConfigResolver ListenerView ParentBinding EffectiveHostnames RoutePartition SyncAll RouteStatus PushSync BackendTLS CertRefs GatewayStatus ConvertFrame Mappers.

(** ** Watches *)

Inductive Watched :=
| WatchedRoute (namespace name : string) | WatchedGateway (gateway : GatewayObject) | WatchedListenerSet (listenerSet : ListenerSetObject)
| WatchedGatewayClassConfig (cfg : GatewayClassConfig) | WatchedSecret (namespace name : string) | WatchedReferenceGrant (namespace : string)
| WatchedNamespace (name : string) | WatchedService (namespace name : string)
| WatchedEndpointSlice (namespace serviceName : string) | WatchedExternalBackend (namespace name : string)
| WatchedBackendTLSPolicy | WatchedConfigMap (namespace name : string).
Record WatchedObject := mkWatchedObject { wo_Object : Watched; wo_Generation : Z; wo_Labels : gmap string string }.
Inductive WatchEvent := CreateEvent (obj : WatchedObject) | UpdateEvent (old new : WatchedObject) | DeleteEvent (obj : WatchedObject).
Definition event_object (ev : WatchEvent) : WatchedObject :=
  match ev with CreateEvent o | UpdateEvent _ o | DeleteEvent o => o end.

(** The predicates of controller-runtime; both pass creations and deletions. *)
Definition GenerationChangedPredicate (ev : WatchEvent) : bool :=
  match ev with UpdateEvent old new => negb (wo_Generation new =? wo_Generation old)%Z | _ => true end.
Definition LabelChangedPredicate (ev : WatchEvent) : bool :=
  match ev with UpdateEvent old new => negb (bool_decide (wo_Labels new = wo_Labels old)) | _ => true end.
(** [handler.EnqueueRequestsFromMapFunc]: an update is mapped from both objects. *)
Definition EnqueueRequestsFromMapFunc (map : Watched -> list Request) (ev : WatchEvent) : list Request :=
  match ev with
  | CreateEvent o | DeleteEvent o => remove_dups (map (wo_Object o))
  | UpdateEvent old new => remove_dups (map (wo_Object old) ++ map (wo_Object new))
  end.

Section watches.
Context {cluster : Cluster} {kube : KubeClient} {views : ListenerViews} {gateways : GatewayReader}.
Context {reader : ConfigReader} {grants : GrantClient} {policies : PolicyReader} (controllerName : string) (watchNamespaceLabels : bool).
(** [routes] is what the controller's own list of its kind returns. *)
Context (routes : option (list Route)).
Definition map_watched (o : Watched) : list Request :=
  let all := getAllRelevantRoutes controllerName routes in
  match o with
  | WatchedRoute namespace name => [(namespace, name)]
  | WatchedGateway gateway => findRoutesForGateway controllerName routes gateway
  | WatchedListenerSet listenerSet => findRoutesForListenerSet controllerName routes listenerSet
  | WatchedGatewayClassConfig cfg => MapConfigToRequests controllerName all cfg
  | WatchedSecret namespace name => MapSecretToRequests controllerName all namespace name
  | WatchedReferenceGrant namespace => findRoutesForReferenceGrant controllerName routes namespace
  | WatchedNamespace name => namespaceScopedRequests all name
  | WatchedService namespace name => findRoutesForService controllerName routes namespace name
  | WatchedEndpointSlice namespace serviceName => findRoutesForEndpointSlice controllerName routes namespace serviceName
  | WatchedExternalBackend namespace name => findRoutesForExternalBackend controllerName routes namespace name
  | WatchedBackendTLSPolicy => all
  | WatchedConfigMap namespace name => if negb (isConfigMapReferencedByBackendTLSPolicy namespace name) then [] else all
  end.
(** [setupRouteController] and [addProxyOnlyWatches]: which updates reach the maps. *)
Definition watch_predicate (o : Watched) : WatchEvent -> bool :=
  match o with
  | WatchedNamespace _ => fun ev => watchNamespaceLabels && LabelChangedPredicate ev
  | _ => GenerationChangedPredicate
  end.
Definition enqueued (ev : WatchEvent) : list Request :=
  if watch_predicate (wo_Object (event_object ev)) ev then EnqueueRequestsFromMapFunc map_watched ev else [].

(** ** One reconcile *)

Definition startupPendingRequeueDelay : Z := 1000.
Inductive RouteOutcome := route_pending (result : Result) | route_read_failed | route_ignored | route_synced (result : Result * option SyncAll.ReconcileError).
(** [sync] is what the full sync of this reconcile returns. *)
Definition reconcileRoute (startupComplete : bool) (read : Lookup Route) (sync : Result * option SyncAll.ReconcileError) : RouteOutcome :=
  if negb startupComplete then route_pending (mkResult startupPendingRequeueDelay (Some priorityRoute))
  else
    match read with
    | NotFound => route_synced sync
    | Unavailable => route_read_failed
    | Found route => if negb (routeReferencesOurGateways controllerName route) then route_ignored else route_synced sync
    end.
End watches.

(** ** The startup sync *)

Definition startupSyncRetryInterval : Z := apiErrorRequeueDelay.
Inductive StartupError :=
| startup_failed (e : SyncAll.ReconcileError) | startup_sync_failed (e : RunError) | errRequeueRequested (after : Z) | startup_push_failed (errs : list (string * PushError)).
Section startup.
(** The [n]-th attempt: its sync, its pushes, its status writes. *)
Context (runs : nat -> SyncRun) (push : nat -> option (routePartition -> partitionPushResult)).
Context (status : nat -> SyncResult -> list RouteDiagnostic -> option RunError -> option string).
(** What [onPushError] observes. *)
Definition push_errors (n : nat) : list (string * PushError) :=
  match push n, run_sync (runs n) with
  | Some push, Some syncResult => match pushPartitionConfigs push syncResult with Some summary => ps_pushErrs summary | None => [] end
  | _, _ => []
  end.
Definition startupAttempt (n : nat) : option StartupError :=
  match syncAndUpdateStatusCommon (push n) (status n) (runs n) with
  | (_, Some e) => Some (startup_failed e)
  | (result, None) =>
      match run_err (runs n) with
      | Some e => Some (startup_sync_failed e)
      | None =>
          if (0 <? RequeueAfter result)%Z then Some (errRequeueRequested (RequeueAfter result))
          else match push_errors n with [] => None | errs => Some (startup_push_failed errs) end
      end
  end.

(** [cancelled n] is [ctx.Err()] after the [n]-th attempt, [stopped n] whether the
    [select] before it takes [ctx.Done()].  The result is the number of attempts
    and whether the last one succeeded; [None] is a loop still running. *)
Context (cancelled stopped : nat -> bool).
Fixpoint retry_sync (fuel n : nat) : option (nat * bool) :=
  match fuel with
  | 0 => None
  | S fuel =>
      if stopped n then Some (n, false)
      else match startupAttempt n with
           | Some _ => if cancelled n then Some (S n, false) else retry_sync fuel (S n)
           | None => Some (S n, true)
           end
  end.
Definition runStartupSync (fuel : nat) : option (nat * bool) :=
  match startupAttempt 0 with
  | None => Some (1, true)
  | Some _ => if cancelled 0 then Some (1, false) else retry_sync fuel 1
  end.
(** [startupComplete] after [n] attempts: the first one opens the gate. *)
Definition startup_complete (attempts : nat) : bool := 0 <? attempts.
End startup.

(** ** Attempts *)

Lemma push_errors_none entries s :
  ps_pushErrs (foldl push_step s entries) = [] -> ps_pushErrs s = [] /\ forall entry, entry ∈ entries -> ppr_err entry.2 = None.
Proof.
  revert s. induction entries as [|[[p o] r] entries IH]; intros s H; [split; [done|set_solver]|]. cbn [foldl] in H.
  apply IH in H as [H1 H2]. unfold push_step in H1. destruct (ppr_err r) as [e|] eqn:E; cbn in H1; [by destruct (ps_pushErrs s)|].
  split; [done|]. intros entry He. apply elem_of_cons in He as [->|He]; [done|by apply H2].
Qed.
Lemma zip_elem {A B} (l : list A) (k : list B) x : length l = length k -> x ∈ l -> exists y, (x, y) ∈ zip l k.
Proof.
  revert k. induction l as [|a l IH]; intros [|b k] Hl Hx; try done; [by apply elem_of_nil in Hx|]. injection Hl as Hl.
  apply elem_of_cons in Hx as [->|Hx]; [exists b; by left|].
  destruct (IH k Hl Hx) as [y Hy]. exists y. by right.
Qed.
Lemma zip_fmap_elem {A B C} (f : A -> C) (l : list A) (k : list B) x y : (x, y) ∈ zip l k -> (x, y, f x) ∈ zip (zip l k) (f <$> l).
Proof.
  revert k. induction l as [|a l IH]; intros [|b k] H; cbn in H |- *; try (by apply elem_of_nil in H).
  apply elem_of_cons in H as [[= -> ->]|H]; [by left|right; by apply IH].
Qed.
Lemma startupAttempt_ok runs push status n :
  startupAttempt runs push status n = None ->
  run_err (runs n) = None /\
  forall syncResult, run_sync (runs n) = Some syncResult ->
    (exists diagnostics, status n syncResult diagnostics None = None) /\
    forall pusher partition, push n = Some pusher ->
      partition ∈ unionPartitionRoutes (sr_Partitions syncResult) (sr_SharedTunnelID syncResult) ->
      ppr_err (pusher partition) = None.
Proof.
  unfold startupAttempt, syncAndUpdateStatusCommon. set (pair := match push n with Some _ => _ | None => _ end).
  destruct pair as [diagnostics r]. destruct (run_err (runs n)) as [e|]; [by destruct (_ <? _)%Z|].
  destruct (match run_sync (runs n) with Some _ => _ | None => None end) as [se|] eqn:Hst; [done|].
  destruct (_ <? _)%Z; [done|]. destruct (push_errors runs push n) as [|] eqn:Hp; [|done]. intros _. split; [done|].
  intros sr Hsr. rewrite Hsr in Hst. split; [eauto|]. intros pusher p Hpush Hin.
  assert (length (unionPartitionRoutes (sr_Partitions sr) (sr_SharedTunnelID sr)) = length (sr_Partitions sr)) as Hlen by apply length_fmap.
  unfold push_errors in Hp. rewrite Hpush, Hsr in Hp. unfold pushPartitionConfigs in Hp.
  destruct (sr_Partitions sr) as [|p0 ps] eqn:Eps; [by apply elem_of_nil in Hin|]. cbn [length Nat.eqb] in Hp. apply push_errors_none in Hp as [_ Hp].
  destruct (zip_elem _ (p0 :: ps) p Hlen Hin) as [o Ho]. apply (Hp (p, o, pusher p)). by apply zip_fmap_elem.
Qed.

Section startup_facts.
Context (runs : nat -> SyncRun) (push : nat -> option (routePartition -> partitionPushResult)).
Context (status : nat -> SyncResult -> list RouteDiagnostic -> option RunError -> option string) (cancelled stopped : nat -> bool).
Local Notation attempt := (startupAttempt runs push status).
Local Notation startup := (runStartupSync runs push status cancelled stopped).
Lemma retry_sync_success fuel n k :
  retry_sync runs push status cancelled stopped fuel n = Some (k, true) ->
  exists m, n <= m /\ k = S m /\ attempt m = None /\ forall i, n <= i < m -> attempt i <> None.
Proof.
  revert n. induction fuel as [|fuel IH]; intros n; [done|]. cbn. destruct (stopped n); [done|].
  destruct (attempt n) as [e|] eqn:E; [destruct (cancelled n); [done|]|].
  - intros (m & Hm & -> & Ha & Hb)%IH. exists m. split_and!; [lia|done|done|]. intros i Hi. destruct (decide (i = n)) as [->|]; [congruence|apply Hb; lia].
  - intros [= <-]. exists n. split_and!; [lia|done|done|]. intros i Hi. lia.
Qed.
Lemma retry_sync_reaches fuel n m :
  n <= m -> m - n < fuel -> attempt m = None -> (forall i, n <= i < m -> attempt i <> None /\ cancelled i = false) ->
  (forall i, n <= i <= m -> stopped i = false) -> retry_sync runs push status cancelled stopped fuel n = Some (S m, true).
Proof.
  revert n. induction fuel as [|fuel IH]; intros n Hn Hf Hm Hb Hs; [lia|]. cbn. rewrite Hs by lia.
  destruct (decide (n = m)) as [->|Hne]; [by rewrite Hm|]. destruct (Hb n) as [Ha Hc]; [lia|]. destruct (attempt n); [|done]. rewrite Hc.
  apply IH; [lia|lia|done| |]; intros i Hi; [apply Hb|apply Hs]; lia.
Qed.
Lemma retry_sync_attempts fuel n k ok : retry_sync runs push status cancelled stopped fuel n = Some (k, ok) -> n <= k.
Proof.
  revert n. induction fuel as [|fuel IH]; intros n; [done|]. cbn. destruct (stopped n); [by intros [= <- _]|].
  destruct (attempt n); [destruct (cancelled n)|]; try (intros [= <- _]; lia). intros H%IH. lia.
Qed.
End startup_facts.

(** C24: The startup sync ends with its first complete success, and reaches it.
    While the manager runs, the loop retries until the first attempt that
    succeeds and returns after it; and when it returns successfully the last
    attempt had no sync error, wrote the route statuses, and delivered the
    configuration of every data plane, while every attempt before it failed.
    Routes are reconciled as soon as one attempt was made, never before. *)
Theorem startup_sync_delivers (runs : nat -> SyncRun) push status cancelled stopped :
  (forall n fuel, n < fuel -> startupAttempt runs push status n = None ->
     (forall i, i < n -> startupAttempt runs push status i <> None /\ cancelled i = false) -> (forall i, i <= n -> stopped i = false) ->
     runStartupSync runs push status cancelled stopped fuel = Some (S n, true)) /\
  (forall fuel attempts, runStartupSync runs push status cancelled stopped fuel = Some (attempts, true) ->
     exists n, attempts = S n /\ (forall i, i < n -> startupAttempt runs push status i <> None) /\ run_err (runs n) = None /\
       forall syncResult, run_sync (runs n) = Some syncResult ->
         (exists diagnostics, status n syncResult diagnostics None = None) /\
         forall pusher partition, push n = Some pusher ->
           partition ∈ unionPartitionRoutes (sr_Partitions syncResult) (sr_SharedTunnelID syncResult) -> ppr_err (pusher partition) = None) /\
  (forall fuel attempts ok, runStartupSync runs push status cancelled stopped fuel = Some (attempts, ok) -> startup_complete attempts = true) /\
  startup_complete 0 = false.
Proof.
  split_and!; [| | |done].
  - intros n fuel Hf Hn Hb Hs. unfold runStartupSync. destruct n as [|n]; [by rewrite Hn|].
    destruct (Hb 0) as [H0 Hc]; [lia|]. destruct (startupAttempt runs push status 0); [|done]. rewrite Hc.
    apply retry_sync_reaches; [lia|lia|done|intros i Hi; apply Hb; lia|intros i Hi; apply Hs; lia].
  - intros fuel attempts H. unfold runStartupSync in H. destruct (startupAttempt runs push status 0) as [e|] eqn:E0.
    + destruct (cancelled 0); [done|]. apply retry_sync_success in H as (m & Hm & -> & Ha & Hb). exists m. split; [done|].
      split; [intros i Hi; destruct i as [|i]; [by rewrite E0|apply Hb; lia]|]. by apply startupAttempt_ok.
    + injection H as <-. exists 0. split; [done|]. split; [lia|]. by apply startupAttempt_ok.
  - intros fuel attempts ok. unfold runStartupSync. destruct (startupAttempt runs push status 0); [|by intros [= <- _]].
    destruct (cancelled 0); [by intros [= <- _]|]. intros H. apply (retry_sync_attempts runs push status cancelled stopped) in H.
    destruct attempts; [lia|done].
Qed.
Definition no_push : partitionPushResult := mkPushResult [] None 0.
Definition second_try (n : nat) : SyncRun :=
  if n =? 0 then mkSyncRun no_requeue None (Some errNoGatewayClass) [] ∅
  else mkSyncRun no_requeue (Some (mkSyncResult no_routes no_routes [] [] [mkRoutePartition "" None None [] []] "" [] [])) None [] ∅.
Lemma startup_sync_delivers_witness :
  runStartupSync second_try (fun _ => Some (fun _ => no_push)) (fun _ _ _ _ => None) (fun _ => false) (fun _ => false) 5 = Some (2, true).
Proof.
  apply (startup_sync_delivers second_try (fun _ => Some (fun _ => no_push)) (fun _ _ _ _ => None) (fun _ => false) (fun _ => false)).
  - lia.
  - vm_compute. reflexivity.
  - intros i Hi. assert (i = 0) as -> by lia. split; [vm_compute; discriminate|reflexivity].
  - reflexivity.
Defined.

(** ** Reconciles *)

Section reconcile_facts.
Context {cluster : Cluster} {kube : KubeClient} {views : ListenerViews} {gateways : GatewayReader} (controllerName : string).
(** Reads by name find what the lists hold. *)
Definition classes_agree : Prop :=
  forall classes class, kube_GatewayClasses = Some classes -> class ∈ classes -> read_class (gc_Name class) = Found class.
(** A parentRef of the Gateway API. *)
Definition gateway_api_ref (ref : ParentReference) : bool :=
  bool_decide (default "" (pref_Group ref) = "") || bool_decide (default "" (pref_Group ref) = GroupName).
Lemma managed_by_class gateway :
  classes_agree -> gatewayIsManaged controllerName gateway = Ok true -> isGatewayManagedByController gateway controllerName = true.
Proof.
  intros Hagree. unfold gatewayIsManaged, managedClassNames, listGatewayClassesForController. destruct kube_GatewayClasses as [classes|] eqn:Ek; [|done].
  cbn. intros [= Hin%bool_decide_eq_true]. apply elem_of_list_to_set, list_elem_of_fmap in Hin as (class & En & Hc).
  apply list_elem_of_In, filter_In in Hc as [Hc%list_elem_of_In Hctl].
  unfold isGatewayManagedByController, classifyGatewayClass. rewrite En, (Hagree classes class) by done. by rewrite Hctl.
Qed.
Lemma accepted_parent ref namespace info binding :
  classes_agree -> gateway_api_ref ref = true -> resolveRouteParentBinding controllerName ref namespace info = Ok binding ->
  pb_ManagedByThisController binding = true ->
  exists gateway, resolveParentGatewayFromRef ref namespace = Some gateway /\ isGatewayManagedByController gateway controllerName = true.
Proof.
  intros Hagree Hg. unfold resolveParentGatewayFromRef. unfold gateway_api_ref in Hg. rewrite <-negb_orb, Hg. cbn [negb].
  unfold resolveRouteParentBinding, Converter.kindGateway, ParentBinding.kindGateway, kindListenerSet.
  destruct (bool_decide (_ = "Gateway")); [|destruct (bool_decide (_ = "ListenerSet")); [|by (intros E; injection E as <-)]].
  - unfold resolveGatewayParentBinding, ref_namespace. destruct (kube_Gateway _ _) as [g|]; [|by (intros E; injection E as <-)].
    destruct (gatewayIsManaged controllerName g) as [[]|] eqn:Em; [|by (intros E; injection E as <-)|done]. intros _ _. exists g. split; [done|].
    by apply managed_by_class.
  - unfold resolveListenerSetParentBinding, ref_namespace. destruct (kube_ListenerSet _ _) as [ls|]; [|by (intros E; injection E as <-)].
    destruct (listenerSetParentGateway ls) as [g|]; [|by (intros E; injection E as <-)].
    destruct (gatewayIsManaged controllerName g) as [[]|] eqn:Em; [|by (intros E; injection E as <-)|done]. intros _ _. exists g. split; [done|].
    by apply managed_by_class.
Qed.
(** No reconcile of a served route is lost.  Before the first startup attempt
    a request comes back after a second; after it, a route that one of this
    controller's Gateways accepts, directly or through a ListenerSet, leads to a
    full sync, and so does a route that is gone. *)
Theorem served_route_reconciled route sync :
  classes_agree -> forallb gateway_api_ref (rt_ParentRefs route) = true -> IsRouteAcceptedByGateway controllerName route = true ->
  reconcileRoute controllerName true (Found route) sync = route_synced sync /\
  reconcileRoute controllerName true NotFound sync = route_synced sync /\
  reconcileRoute controllerName false (Found route) sync = route_pending (mkResult 1000 (Some priorityRoute)).
Proof.
  intros Hagree Hrefs Hacc. split; [|done]. unfold reconcileRoute. cbn [negb].
  assert (routeReferencesOurGateways controllerName route = true) as ->; [|done].
  unfold IsRouteAcceptedByGateway in Hacc. apply existsb_exists in Hacc as (ref & Hin & Hb).
  destruct (resolveRouteParentBinding _ _ _ _) as [binding|] eqn:E; [|done]. apply andb_true_iff in Hb as [Hm _].
  rewrite forallb_forall in Hrefs. destruct (accepted_parent _ _ _ _ Hagree (Hrefs ref Hin) E Hm) as (g & Hg & Hman).
  unfold routeReferencesOurGateways. apply existsb_exists. exists ref. split; [done|]. by rewrite Hg.
Qed.
End reconcile_facts.
Definition class_reader : GatewayReader := {|
  read_gateway _ _ := NotFound;
  read_class _ := Found (mkGatewayClass "class" "us" (Some (mkParametersReference ParametersRefGroup ParametersRefKind "cfg" None))) |}.
Lemma served_route_reconciled_witness :
  @reconcileRoute run_client class_reader "us" true (Found (HTTPRouteWrapper run_route)) (no_requeue, None) = route_synced (no_requeue, None).
Proof.
  apply (@served_route_reconciled bare_cluster run_client run_views class_reader "us").
  - intros classes class [= <-] ->%list_elem_of_singleton. reflexivity.
  - reflexivity.
  - vm_compute. reflexivity.
Defined.

(** ** Updates that keep the generation

    Secrets, ConfigMaps and Services carry no generation, so that it is zero
    before and after every change of their content. *)
Lemma same_generation_ignored {cluster : Cluster} {kube : KubeClient} {views : ListenerViews} {gateways : GatewayReader}
    {reader : ConfigReader} {grants : GrantClient} {policies : PolicyReader} controllerName watchNamespaceLabels routes old new :
  wo_Generation new = wo_Generation old -> (forall name, wo_Object new <> WatchedNamespace name) ->
  enqueued controllerName watchNamespaceLabels routes (UpdateEvent old new) = [].
Proof.
  intros Hg Hn. unfold enqueued, watch_predicate. cbn. destruct (wo_Object new) eqn:E; cbn; try (by rewrite Hg, Z.eqb_refl).
  by destruct (Hn name).
Qed.
(** The Secret with the class credentials: its creation enqueues the route, its
    rotation does not. *)
Definition rotated_secret : WatchedObject := mkWatchedObject (WatchedSecret "system" "creds") 0 ∅.
Definition no_policies : PolicyReader := {|
  list_policies _ := Some []; get_policy _ _ := NotFound; get_configMap _ _ := None; get_servicePorts _ _ := None;
  list_httpRoutes _ := Some []; list_grpcRoutes _ := Some [] |}.
Lemma rotation_ignored :
  let enqueued := @enqueued bare_cluster run_client run_views class_reader (noise_reader "a") one_grant no_policies "us" false
    (Some [HTTPRouteWrapper run_route]) in
  enqueued (CreateEvent rotated_secret) = [("prod", "web")] /\ enqueued (UpdateEvent rotated_secret rotated_secret) = [].
Proof. vm_compute. split; reflexivity. Qed.

(** ** Events of Services *)

(** The objects of an event, as the maps see them. *)
Definition event_parts (ev : WatchEvent) : list Watched :=
  match ev with CreateEvent o | DeleteEvent o => [wo_Object o] | UpdateEvent old new => [wo_Object old; wo_Object new] end.
(** A Service, or a slice of its endpoints. *)
Definition of_service (namespace name : string) (o : Watched) : Prop :=
  o = WatchedService namespace name \/ o = WatchedEndpointSlice namespace name.
Definition generation_kept (ev : WatchEvent) : bool :=
  match ev with UpdateEvent old new => (wo_Generation new =? wo_Generation old)%Z | _ => false end.
(** The references that name a Service: the backendRefs, the mirrors, what a ServiceImport stands for. *)
Definition names_service (namespace name routeNamespace : string) (ref : GwBackendRef) : bool :=
  isMirrorableBackendRef ref && bool_decide (ref_target ref routeNamespace = (namespace, name)).
Definition uses_service (namespace name routeNamespace : string) (ref : GwBackendRef) : bool :=
  IsServiceBackendRef ref && bool_decide (ref_target ref routeNamespace = (namespace, name)).
Lemma uses_service_matches namespace name routeNamespace ref :
  backendRefMatchesService ref routeNamespace namespace name = uses_service namespace name routeNamespace ref.
Proof.
  unfold backendRefMatchesService, uses_service, ref_target. destruct (IsServiceBackendRef ref); [|done]. cbn.
  apply eq_bool_prop_intro. rewrite andb_True, !bool_decide_spec. split; [by intros [-> ->]|by intros [= -> ->]].
Qed.

Section service_events.
Context {durations : DurationParser} {parser : UrlParser} {sorter : SortFunc}.
Context {cluster : Cluster} {kube : KubeClient} {views : ListenerViews} {gateways : GatewayReader}.
Context {reader : ConfigReader} {grants : GrantClient} {policies : PolicyReader} (controllerName : string) (watchNamespaceLabels : bool).
Local Notation enqueued := (enqueued controllerName watchNamespaceLabels).

(** What both maps of a Service select. *)
Lemma mapped_service {R} kind (refs : RouteObject R -> list GwBackendRef) all namespace name o req :
  of_service namespace name o -> name <> "" ->
  req ∈ map_watched controllerName (Some (wrapper kind refs <$> all)) o <->
  exists route, route ∈ all /\ IsRouteAcceptedByGateway controllerName (wrapper kind refs route) = true /\
    existsb (uses_service namespace name (ro_Namespace route)) (refs route) = true /\ req = (ro_Namespace route, ro_Name route).
Proof.
  intros Ho Hn.
  assert (map_watched controllerName (Some (wrapper kind refs <$> all)) o =
    FindRoutesForService namespace name (List.filter (IsRouteAcceptedByGateway controllerName) (wrapper kind refs <$> all))) as ->.
  { destruct Ho as [-> | ->]; [done|]. cbn. unfold FindRoutesForEndpointSlice. by rewrite bool_decide_eq_false_2. }
  unfold FindRoutesForService. rewrite list_elem_of_fmap.
  assert (forall route, existsb (fun ref => backendRefMatchesService ref (ro_Namespace route) namespace name) (refs route) =
    existsb (uses_service namespace name (ro_Namespace route)) (refs route)) as Href.
  { intros route. induction (refs route) as [|ref rs IH]; [done|]. cbn. by rewrite uses_service_matches, IH. }
  split.
  - intros (w & -> & Hw). apply list_elem_of_In, filter_In in Hw as [Hw Hs]. apply filter_In in Hw as [Hw Ha].
    apply list_elem_of_In, list_elem_of_fmap in Hw as (route & -> & Hr). exists route. cbn in Hs. by rewrite Href in Hs.
  - intros (route & Hr & Ha & Hs & ->). exists (wrapper kind refs route). split; [done|]. apply list_elem_of_In, filter_In.
    split; [|cbn; by rewrite Href]. apply filter_In. split; [|done]. apply list_elem_of_In, list_elem_of_fmap. eauto.
Qed.
(** The routes an event of a Service, or of its slices, enqueues. *)
Lemma enqueued_service {R} kind (refs : RouteObject R -> list GwBackendRef) all namespace name ev req :
  Forall (of_service namespace name) (event_parts ev) -> name <> "" ->
  req ∈ enqueued (Some (wrapper kind refs <$> all)) ev <->
  generation_kept ev = false /\
  exists route, route ∈ all /\ IsRouteAcceptedByGateway controllerName (wrapper kind refs route) = true /\
    existsb (uses_service namespace name (ro_Namespace route)) (refs route) = true /\ req = (ro_Namespace route, ro_Name route).
Proof.
  intros Hev Hn. set (selected := exists route, _).
  assert (forall o, o ∈ event_parts ev -> req ∈ map_watched controllerName (Some (wrapper kind refs <$> all)) o <-> selected) as Hm.
  { intros o Ho. apply mapped_service; [|done]. rewrite Forall_forall in Hev. by apply Hev. }
  assert (watch_predicate watchNamespaceLabels (wo_Object (event_object ev)) ev = negb (generation_kept ev)) as Hp.
  { rewrite Forall_forall in Hev. assert (of_service namespace name (wo_Object (event_object ev))) as Ho by (apply Hev; destruct ev; set_solver).
    unfold watch_predicate. destruct Ho as [-> | ->]; by destruct ev. }
  unfold RouteController.enqueued. rewrite Hp. destruct (generation_kept ev); cbn [negb]; [set_solver|].
  unfold EnqueueRequestsFromMapFunc. destruct ev as [o|old new|o]; rewrite elem_of_remove_dups, ?elem_of_app; cbn [event_parts] in Hm;
    rewrite !Hm by set_solver; tauto.
Qed.
Lemma existsb_uses f refs : existsb f refs = true -> exists ref : GwBackendRef, ref ∈ refs /\ f ref = true.
Proof. intros (ref & Hr & Hf)%existsb_exists. exists ref. by rewrite list_elem_of_In. Qed.

(** C16: An event of a Service reaches the routes that use it.  An event of a
    Service or of one of its EndpointSlices enqueues, in each route controller,
    exactly the routes of its kind that a Gateway of this controller accepts and
    that have a backendRef to the Service, unless it is an update that keeps the
    generation, which the watch drops.  So when what the event changed (ports,
    protocols, policies that select the Service, addresses, readiness) changes the
    configuration built from the accepted routes, one of these routes is enqueued,
    except after such an update, or when a route names the Service in a mirror or
    through a ServiceImport, which the maps do not follow. *)
Theorem service_event_delivered namespace name ev rv1 rv2 grpcRv1 grpcRv2 cli1 cli2
    (all : list (RouteObject HTTPRouteRule)) (allGRPC : list (RouteObject GRPCRouteRule)) routes grpcRoutes failed grpcFailed counter :
  name <> "" -> Forall (of_service namespace name) (event_parts ev) ->
  (forall req, req ∈ enqueued (Some (HTTPRouteWrapper <$> all)) ev <-> generation_kept ev = false /\
     exists route, route ∈ all /\ IsRouteAcceptedByGateway controllerName (HTTPRouteWrapper route) = true /\
       existsb (uses_service namespace name (ro_Namespace route)) (http_refs route) = true /\ req = (ro_Namespace route, ro_Name route)) /\
  (forall req, req ∈ enqueued (Some (GRPCRouteWrapper <$> allGRPC)) ev <-> generation_kept ev = false /\
     exists route, route ∈ allGRPC /\ IsRouteAcceptedByGateway controllerName (GRPCRouteWrapper route) = true /\
       existsb (uses_service namespace name (ro_Namespace route)) (grpc_refs route) = true /\ req = (ro_Namespace route, ro_Name route)) /\
  (served controllerName HTTPRouteWrapper all routes -> served controllerName GRPCRouteWrapper allGRPC grpcRoutes ->
   differ_at_service namespace name rv1 rv2 -> differ_at_service namespace name grpcRv1 grpcRv2 ->
   (forall ns n, (ns, n) <> (namespace, name) -> service_agrees cli1 cli2 ns n) ->
   (forall ns n, read_external cli1 ns n = read_external cli2 ns n) ->
   buildProxyConfig rv1 grpcRv1 cli1 routes grpcRoutes failed grpcFailed counter <>
     buildProxyConfig rv2 grpcRv2 cli2 routes grpcRoutes failed grpcFailed counter ->
   generation_kept ev = true \/
   (exists route, route ∈ routes /\ (ro_Namespace route, ro_Name route) ∈ enqueued (Some (HTTPRouteWrapper <$> all)) ev) \/
   (exists route, route ∈ grpcRoutes /\ (ro_Namespace route, ro_Name route) ∈ enqueued (Some (GRPCRouteWrapper <$> allGRPC)) ev) \/
   (exists route ref, route ∈ routes /\ names_service namespace name (ro_Namespace route) ref = true /\
      (ref ∈ http_mirrors route \/ (ref ∈ http_refs route /\ IsServiceImportBackendRef ref = true))) \/
   (exists route ref, route ∈ grpcRoutes /\ names_service namespace name (ro_Namespace route) ref = true /\
      ref ∈ grpc_refs route /\ IsServiceImportBackendRef ref = true)).
Proof.
  intros Hn Hev. split; [intros req; by apply enqueued_service|]. split; [intros req; by apply enqueued_service|].
  intros Hs Hsg Hd Hdg Hsvc Hext Hne. destruct (generation_kept ev) eqn:Hg; [by left|right].
  destruct (existsb (fun route => existsb (names_service namespace name (ro_Namespace route)) (http_refs route ++ http_mirrors route)) routes) eqn:Eh;
    [|destruct (existsb (fun route => existsb (names_service namespace name (ro_Namespace route)) (grpc_refs route)) grpcRoutes) eqn:Eg].
  - apply existsb_exists in Eh as (route & Hr%list_elem_of_In & (ref & Href & Hnm)%existsb_uses). pose proof Hnm as Hnm'.
    unfold names_service, isMirrorableBackendRef in Hnm'. apply andb_true_iff in Hnm' as [Hk Ht]. apply elem_of_app in Href as [Href|Href].
    + destruct (IsServiceBackendRef ref) eqn:Ek.
      * left. exists route. split; [done|]. apply (enqueued_service "HTTPRoute" http_refs) with (namespace := namespace) (name := name); [done..|].
        split; [done|]. destruct (Hs route Hr) as [Ha Hacc]. exists route. split_and!; [done..| |done].
        apply existsb_exists. exists ref. rewrite <-list_elem_of_In. split; [done|]. unfold uses_service. by rewrite Ek, Ht.
      * do 2 right. left. exists route, ref. by auto.
    + do 2 right. left. exists route, ref. by auto.
  - apply existsb_exists in Eg as (route & Hr%list_elem_of_In & (ref & Href & Hnm)%existsb_uses). pose proof Hnm as Hnm'.
    unfold names_service, isMirrorableBackendRef in Hnm'. apply andb_true_iff in Hnm' as [Hk Ht].
    destruct (IsServiceBackendRef ref) eqn:Ek.
    + right. left. exists route. split; [done|]. apply (enqueued_service "GRPCRoute" grpc_refs) with (namespace := namespace) (name := name); [done..|].
      split; [done|]. destruct (Hsg route Hr) as [Ha Hacc]. exists route. split_and!; [done..| |done].
      apply existsb_exists. exists ref. rewrite <-list_elem_of_In. split; [done|]. unfold uses_service. by rewrite Ek, Ht.
    + do 3 right. exists route, ref. by auto.
  - destruct Hne. apply (unnamed_service_irrelevant namespace name); try done; intros route ref Hr Href Hm E.
    + eapply existsb_false in Eh; [|exact Hr]. cbn beta in Eh. eapply existsb_false in Eh; [|exact Href].
      unfold names_service in Eh. by rewrite Hm, E, bool_decide_eq_true_2 in Eh.
    + eapply existsb_false in Eg; [|exact Hr]. cbn beta in Eg. eapply existsb_false in Eg; [|exact Href].
      unfold names_service in Eg. by rewrite Hm, E, bool_decide_eq_true_2 in Eg.
Qed.
End service_events.

(** A route to a Service that appears with a protocol of its own. *)
Definition db_route : RouteObject HTTPRouteRule :=
  mkRouteObject "prod" "web" 1 ["a.example.com"] [ref_to "edge"]
    [mkHTTPRouteRule [] [] [mkHTTPBackendRef (mkGwBackendRef None None "db" None (Some 80%Z) None) []] None].
Definition db_created : WatchEvent := CreateEvent (mkWatchedObject (WatchedService "prod" "db") 0 ∅).
Lemma db_route_served : @served bare_cluster run_client run_views "us" _ HTTPRouteWrapper [db_route] [db_route].
Proof. intros route ->%list_elem_of_singleton. split; [by left|vm_compute; reflexivity]. Qed.
Lemma service_event_delivered_witness :
  ("prod", "web") ∈ @enqueued bare_cluster run_client run_views class_reader (noise_reader "a") one_grant no_policies "us" false
    (Some [HTTPRouteWrapper db_route]) db_created.
Proof.
  destruct (@service_event_delivered no_durations no_urls stable_func bare_cluster run_client run_views class_reader (noise_reader "a") one_grant
    no_policies "us" false "prod" "db" db_created (db_resolvers "") (db_resolvers "kubernetes.io/h2c") (db_resolvers "")
    (db_resolvers "kubernetes.io/h2c") (db_cluster None) (db_cluster (Some (mkService false "None" []))) [db_route] [] [db_route] [] [] [] 1)
    as (_ & _ & H); [discriminate|repeat constructor|].
  destruct H as [H|[(route & Hr & H)|[(route & Hr & _)|[(route & ref & Hr & _ & H)|(route & ref & Hr & _)]]]].
  - apply db_route_served.
  - apply no_grpc_served.
  - apply db_differ.
  - apply db_differ.
  - intros ns n Hne. split; [|reflexivity]. cbn. destruct (bool_decide (ns = "prod")) eqn:E1; [|reflexivity].
    destruct (bool_decide (n = "db")) eqn:E2; [|reflexivity]. apply bool_decide_eq_true in E1 as ->. apply bool_decide_eq_true in E2 as ->.
    destruct Hne. reflexivity.
  - reflexivity.
  - vm_compute. discriminate.
  - discriminate H.
  - apply list_elem_of_singleton in Hr as ->. exact H.
  - by apply elem_of_nil in Hr.
  - apply list_elem_of_singleton in Hr as ->. exfalso. destruct H as [H|[H Hk]]; [by apply elem_of_nil in H|].
    apply list_elem_of_singleton in H as ->. discriminate Hk.
  - by apply elem_of_nil in Hr.
Defined.
