(* ===== verification/StatusEvents.v ===== *)
(** * Events of the Gateway and ListenerSet controllers

    The maps from a changed object to the Gateways and ListenerSets whose status
    depends on it ([gateway_controller.go], [listenerset_controller.go],
    [gateway_infra_reconciler.go]). *)
From Stdlib Require Import Ascii.
From stdpp Require Import sorting.
From stdpp Require Import base sets gmap strings list.
From S2P Require Import Prelude GoStrings Handler RouteBinding ListenerMerge ReferenceGrant IngressBuild Converter ConfigResolver ListenerView ParentBinding SyncAll RouteStatus BackendTLS CertRefs GatewayStatus ListenerSetStatus ConvertFrame Mappers.

(** ** Gateways *)

Definition gateway_request (gateway : GatewayObject) : Request := (gw_Namespace (go_Gateway gateway), gw_Name (go_Gateway gateway)).

Section gateways.
Context {kube : KubeClient} (controllerName : string).
Definition listenerSetToGateways (listenerSet : ListenerSetObject) : list Request :=
  match listenerSetParentGateway listenerSet with
  | None => []
  | Some parent =>
      match managedClassNames controllerName with
      | None => []
      | Some classNames => if negb (bool_decide (go_ClassName parent ∈ classNames)) then [] else [gateway_request parent]
      end
  end.
(** The listed Gateways of managed classes. *)
Definition listed_managed : list GatewayObject :=
  match kube_Gateways, managedClassNames controllerName with
  | Some items, Some classNames => List.filter (fun gw => bool_decide (go_ClassName gw ∈ classNames)) items
  | _, _ => []
  end.
Definition getAllManagedGateways : list Request := gateway_request <$> listed_managed.
Definition gatewayClassToGateways (gatewayClass : GatewayClass) : list Request :=
  if negb (bool_decide (gc_ControllerName gatewayClass = controllerName)) then [] else getAllManagedGateways.
(** The listed Gateways of one namespace. *)
Definition gateways_in (namespace : string) : list GatewayObject :=
  match kube_Gateways with
  | None => []
  | Some items => List.filter (fun gateway => bool_decide (gw_Namespace (go_Gateway gateway) = namespace)) items
  end.
Definition gatewayConfigToGateways (namespace name : string) : list Request :=
  gateway_request <$> List.filter (fun gateway =>
    match go_ParametersRef gateway with
    | None => false
    | Some ref => bool_decide (pr_Group ref = ParametersRefGroup) && bool_decide (pr_Kind ref = GatewayParametersRefKind) &&
                  bool_decide (pr_Name ref = name)
    end) (gateways_in namespace).
(** The infrastructure reconciler's map for GatewayConfigs and Secrets. *)
Definition namespaceInfraGateways (namespace : string) : list Request :=
  gateway_request <$> List.filter HasInfrastructureParametersRef (gateways_in namespace).

Definition grant_to_secrets (grant : ReferenceGrant) : bool :=
  existsb (fun to => bool_decide (gt_Group to = "") && bool_decide (gt_Kind to = kindSecret)) (grant_To grant).
Definition allowsGatewayToSecrets (grant : ReferenceGrant) : bool :=
  existsb (fun from => bool_decide (gf_Group from = GroupName) && bool_decide (gf_Kind from = kindGateway)) (grant_From grant) &&
  grant_to_secrets grant.
Definition ref_in_namespace (own namespace : string) (ref : SecretObjectReference) : bool :=
  bool_decide (default own (sor_Namespace ref) = namespace).
Definition gatewayReferencesSecretsInNamespace (gateway : GatewayObject) (namespace : string) : bool :=
  let own := gw_Namespace (go_Gateway gateway) in
  existsb (fun listener => existsb (ref_in_namespace own namespace) (l_CertificateRefs listener)) (gw_Listeners (go_Gateway gateway)) ||
  match gatewayClientCertRef gateway with Some backendRef => ref_in_namespace own namespace backendRef | None => false end.
Definition referenceGrantToGateways (grant : ReferenceGrant) : list Request :=
  if negb (allowsGatewayToSecrets grant) then []
  else gateway_request <$> List.filter (fun gateway => gatewayReferencesSecretsInNamespace gateway (grant_Namespace grant)) listed_managed.

Definition route_to_gateways_step (classNames : gset string) (routeNamespace : string) (st : list Request * gset Request) (ref : ParentReference)
    : list Request * gset Request :=
  let '(requests, seen) := st in
  if match pref_Kind ref with Some kind => negb (bool_decide (kind = kindGateway)) | None => false end then st
  else
    let gwKey := (default routeNamespace (pref_Namespace ref), pref_Name ref) in
    if bool_decide (gwKey ∈ seen) then st
    else
      let seen := {[gwKey]} ∪ seen in
      match kube_Gateway gwKey.1 gwKey.2 with
      | None => (requests, seen)
      | Some gateway => if negb (bool_decide (go_ClassName gateway ∈ classNames)) then (requests, seen) else (requests ++ [gwKey], seen)
      end.
Definition routeToGateways (routeNamespace : string) (parentRefs : list ParentReference) : list Request :=
  match managedClassNames controllerName with
  | None => []
  | Some classNames => (foldl (route_to_gateways_step classNames routeNamespace) ([], ∅) parentRefs).1
  end.

(** ** ListenerSets *)

Definition set_request (listenerSet : ListenerSetObject) : Request := (ls_Namespace (lso_Set listenerSet), ls_Name (lso_Set listenerSet)).
(** The listed ListenerSets that [concerned] selects. *)
Definition sets_where (concerned : ListenerSetObject -> bool) : list Request :=
  match kube_ListenerSets with None => [] | Some all => set_request <$> List.filter concerned all end.
Definition gatewayToListenerSets (gateway : GatewayObject) : list Request :=
  sets_where (fun listenerSet => listenerSetTargetsGateway listenerSet (go_Gateway gateway)).
Definition listenerSetReferencesSecret (listenerSet : ListenerSet) (namespace name : string) : bool :=
  existsb (fun entry => existsb (fun ref => ref_in_namespace (ls_Namespace listenerSet) namespace ref && bool_decide (sor_Name ref = name))
                          (l_CertificateRefs entry)) (ls_Listeners listenerSet).
Definition listenerSetReferencesSecretsInNamespace (listenerSet : ListenerSet) (namespace : string) : bool :=
  existsb (fun entry => existsb (ref_in_namespace (ls_Namespace listenerSet) namespace) (l_CertificateRefs entry)) (ls_Listeners listenerSet).
Definition grantTargetsSecret (grant : ReferenceGrant) : bool := grant_to_secrets grant.
Definition secretToListenerSets (namespace name : string) : list Request :=
  sets_where (fun listenerSet => listenerSetReferencesSecret (lso_Set listenerSet) namespace name).
Definition referenceGrantToListenerSets (grant : ReferenceGrant) : list Request :=
  if negb (grantTargetsSecret grant) then []
  else sets_where (fun listenerSet => listenerSetReferencesSecretsInNamespace (lso_Set listenerSet) (grant_Namespace grant)).
Definition sets_for_refs_step (routeNamespace : string) (st : list Request * gset Request) (ref : ParentReference) : list Request * gset Request :=
  let '(requests, seen) := st in
  if negb (bool_decide (default "" (pref_Group ref) = "")) && negb (bool_decide (default "" (pref_Group ref) = GroupName)) then st
  else if negb (bool_decide (pref_Kind ref = Some kindListenerSet)) then st
  else
    let key := (default routeNamespace (pref_Namespace ref), pref_Name ref) in
    if bool_decide (key ∈ seen) then st
    else match kube_ListenerSet key.1 key.2 with
         | None => st
         | Some _ => (requests ++ [key], {[key]} ∪ seen)
         end.
Definition collectListenerSetsForParentRefs (parentRefs : list ParentReference) (routeNamespace : string) : list Request :=
  (foldl (sets_for_refs_step routeNamespace) ([], ∅) parentRefs).1.
Definition routeToListenerSets (parentRefs : list ParentReference) (routeNamespace : string) : list Request :=
  if length parentRefs =? 0 then [] else collectListenerSetsForParentRefs parentRefs routeNamespace.
End gateways.

(** ** What an event that maps to nothing leaves alone *)

(** [grants2] has one more grant than [grants1]. *)
Definition grant_added (grant : ReferenceGrant) (grants1 grants2 : GrantClient) : Prop :=
  (forall namespace, namespace <> grant_Namespace grant -> @list_grants grants1 namespace = @list_grants grants2 namespace) /\
  exists before after, @list_grants grants1 (grant_Namespace grant) = Some (before ++ after) /\
    @list_grants grants2 (grant_Namespace grant) = Some (before ++ grant :: after).
Lemma existsb_added {A} (f : A -> bool) before x after : f x = false -> existsb f (before ++ x :: after) = existsb f (before ++ after).
Proof. intros H. rewrite !existsb_app. cbn. by rewrite H. Qed.
Lemma grant_to_secret_targets grant name : grant_to_secrets grant = false -> existsb (grant_to_secret name) (grant_To grant) = false.
Proof.
  unfold grant_to_secrets. intros H. induction (grant_To grant) as [|to tos IH]; [done|]. cbn in *. apply orb_false_iff in H as [H1 H2].
  unfold grant_to_secret at 1. by rewrite H1, IH.
Qed.
Lemma grant_from_kind kind grant namespace :
  existsb (fun from => bool_decide (gf_Group from = GroupName) && bool_decide (gf_Kind from = kind)) (grant_From grant) = false ->
  grant_from kind grant namespace = false.
Proof.
  unfold grant_from. intros H. induction (grant_From grant) as [|from froms IH]; [done|]. cbn in *. apply orb_false_iff in H as [H1 H2].
  by rewrite H1, IH.
Qed.
(** Whether a verdict over grants can tell the two lists apart. *)
Lemma grants_verdict (f : ReferenceGrant -> bool) grant grants1 grants2 namespace {E A : Type} (err : res E A) (k : bool -> res E A) :
  grant_added grant grants1 grants2 -> (namespace = grant_Namespace grant -> f grant = false) ->
  match @list_grants grants1 namespace with None => err | Some items => k (existsb f items) end =
  match @list_grants grants2 namespace with None => err | Some items => k (existsb f items) end.
Proof.
  intros [Hne (before & after & E1 & E2)] Hf. destruct (decide (namespace = grant_Namespace grant)) as [->|Hn]; [|by rewrite Hne].
  rewrite E1, E2. by rewrite existsb_added by auto.
Qed.

Section grant_events.
Context {kube : KubeClient} {texts : ApiText} {pem : PemReader} {x509 : X509} {secrets : SecretReader} (controllerName : string).
Context (grant : ReferenceGrant) (grants1 grants2 : GrantClient) (Hadded : grant_added grant grants1 grants2).
Lemma gateway_grant_irrelevant gateway ref :
  allowsGatewayToSecrets grant = false \/ gatewayReferencesSecretsInNamespace gateway (grant_Namespace grant) = false ->
  (exists listener, listener ∈ gw_Listeners (go_Gateway gateway) /\ ref ∈ l_CertificateRefs listener) \/ gatewayClientCertRef gateway = Some ref ->
  default (gw_Namespace (go_Gateway gateway)) (sor_Namespace ref) = grant_Namespace grant ->
  grant_from kindGateway grant (gw_Namespace (go_Gateway gateway)) && existsb (grant_to_secret (sor_Name ref)) (grant_To grant) = false.
Proof.
  intros [H|H] Href Hns.
  - unfold allowsGatewayToSecrets in H. apply andb_false_iff in H as [H|H].
    + rewrite grant_from_kind; [done|exact H].
    + rewrite (grant_to_secret_targets grant) by done. apply andb_false_r.
  - exfalso. unfold gatewayReferencesSecretsInNamespace in H. apply orb_false_iff in H as [H1 H2].
    assert (ref_in_namespace (gw_Namespace (go_Gateway gateway)) (grant_Namespace grant) ref = true) as Hin by by apply bool_decide_eq_true.
    destruct Href as [(l & Hl & Hr)|Hr]; [|by rewrite Hr, Hin in H2].
    eapply existsb_false in H1; [|exact Hl]. eapply existsb_false in H1; [|exact Hr]. congruence.
Qed.
Lemma set_grant_irrelevant listenerSet entry ref :
  grantTargetsSecret grant = false \/ listenerSetReferencesSecretsInNamespace listenerSet (grant_Namespace grant) = false ->
  entry ∈ ls_Listeners listenerSet -> ref ∈ l_CertificateRefs entry ->
  default (ls_Namespace listenerSet) (sor_Namespace ref) = grant_Namespace grant ->
  grantAllowsListenerSet grant (ls_Namespace listenerSet) && existsb (grant_to_secret (sor_Name ref)) (grant_To grant) = false.
Proof.
  intros [H|H] Hentry Href Hns; [by rewrite (grant_to_secret_targets grant), andb_false_r by done|].
  exfalso. eapply existsb_false in H; [|exact Hentry]. eapply existsb_false in H; [|exact Href].
  unfold ref_in_namespace in H. by rewrite Hns, bool_decide_eq_true_2 in H.
Qed.
Lemma first_refused_ext check1 check2 refs :
  (forall ref, ref ∈ refs -> check1 ref = check2 ref) -> first_refused check1 refs = first_refused check2 refs.
Proof.
  induction refs as [|ref refs IH]; intros H; [done|]. cbn [first_refused]. rewrite H by by left.
  destruct (bool_decide _); [done|]. apply IH. intros x Hx. apply H. by right.
Qed.
Lemma gateway_refs_kept gateway :
  allowsGatewayToSecrets grant = false \/ gatewayReferencesSecretsInNamespace gateway (grant_Namespace grant) = false ->
  (forall listener, listener ∈ gw_Listeners (go_Gateway gateway) ->
     @validateTLSCertificateRefs grants1 secrets texts pem (go_Gateway gateway) listener =
     @validateTLSCertificateRefs grants2 secrets texts pem (go_Gateway gateway) listener) /\
  loadGatewayClientCertPEM (@checkSecretReferenceGrantForGateway grants1) gateway =
    loadGatewayClientCertPEM (@checkSecretReferenceGrantForGateway grants2) gateway.
Proof.
  intros H. split.
  - intros listener Hl. apply first_refused_ext. intros ref Hr. unfold validateSingleCertRef. destruct (_ || _); [done|].
    set (target := default _ (sor_Namespace ref)). destruct (bool_decide (target = _)); [done|]. cbn [negb].
    assert (@checkSecretReferenceGrant grants1 (go_Gateway gateway) target ref = @checkSecretReferenceGrant grants2 (go_Gateway gateway) target ref) as ->; [|done].
    apply (grants_verdict _ grant); [done|]. intros Hns. apply gateway_grant_irrelevant; [done|left; eauto|done].
  - unfold loadGatewayClientCertPEM. destruct (gatewayClientCertRef gateway) as [ref|] eqn:Href; [|done]. destruct (negb (isCoreSecretRef ref)); [done|].
    set (target := default _ (sor_Namespace ref)). destruct (bool_decide (target = _)); [done|]. cbn [negb].
    assert (@checkSecretReferenceGrantForGateway grants1 (go_Gateway gateway) target ref =
      @checkSecretReferenceGrantForGateway grants2 (go_Gateway gateway) target ref) as ->; [|done].
    apply (grants_verdict _ grant); [done|]. intros Hns. apply gateway_grant_irrelevant; [done|by right|done].
Qed.
Lemma resolve_entry_refs_ext (grants1' grants2' : GrantClient) (secrets1 secrets2 : SecretReader) listenerSet refs :
  (forall ref, ref ∈ refs -> @validateListenerSetCertRef grants1' secrets1 texts pem listenerSet ref =
                             @validateListenerSetCertRef grants2' secrets2 texts pem listenerSet ref) ->
  @resolve_entry_refs grants1' secrets1 texts pem listenerSet refs = @resolve_entry_refs grants2' secrets2 texts pem listenerSet refs.
Proof.
  induction refs as [|ref refs IH]; intros H; [done|]. cbn [resolve_entry_refs]. rewrite H by by left.
  destruct (validateListenerSetCertRef listenerSet ref); [|done]. cbn. destruct (bool_decide _); [done|]. apply IH. intros x Hx. apply H. by right.
Qed.
Lemma set_refs_kept listenerSet entry :
  grantTargetsSecret grant = false \/ listenerSetReferencesSecretsInNamespace listenerSet (grant_Namespace grant) = false ->
  entry ∈ ls_Listeners listenerSet ->
  @resolveListenerEntryRefs grants1 secrets texts pem listenerSet entry = @resolveListenerEntryRefs grants2 secrets texts pem listenerSet entry.
Proof.
  intros H He. apply resolve_entry_refs_ext. intros ref Hr. unfold validateListenerSetCertRef. destruct (_ || _); [done|].
  set (target := default _ (sor_Namespace ref)). destruct (bool_decide (target = _)); [done|]. cbn [negb].
  assert (@checkListenerSetSecretReferenceGrant grants1 listenerSet target ref = @checkListenerSetSecretReferenceGrant grants2 listenerSet target ref) as ->; [|done].
  apply (grants_verdict _ grant); [done|]. intros Hns. by eapply set_grant_irrelevant.
Qed.
End grant_events.

Lemma unselected {A} (f : A -> bool) (request : A -> Request) items x : request x ∉ request <$> List.filter f items -> x ∈ items -> f x = false.
Proof.
  intros Hn Hx. apply not_true_is_false. intros Hf. apply Hn, list_elem_of_fmap. exists x. split; [done|].
  apply list_elem_of_In, filter_In. by rewrite <-list_elem_of_In.
Qed.
Lemma set_secret_kept {texts : ApiText} {pem : PemReader} {grants : GrantClient} (secrets1 secrets2 : SecretReader) namespace name listenerSet entry :
  (forall ns n, (ns, n) <> (namespace, name) -> @read_secret secrets1 ns n = @read_secret secrets2 ns n) ->
  listenerSetReferencesSecret listenerSet namespace name = false -> entry ∈ ls_Listeners listenerSet ->
  @resolveListenerEntryRefs grants secrets1 texts pem listenerSet entry = @resolveListenerEntryRefs grants secrets2 texts pem listenerSet entry.
Proof.
  intros Hs H He. apply resolve_entry_refs_ext. intros ref Hr. eapply existsb_false in H; [|exact He]. eapply existsb_false in H; [|exact Hr].
  unfold ref_in_namespace in H. unfold validateListenerSetCertRef, validateListenerSetSecretExists. set (target := default _ (sor_Namespace ref)) in *.
  rewrite (Hs target (sor_Name ref)); [done|]. intros [= E1 E2]. by rewrite E1, E2, !bool_decide_eq_true_2 in H.
Qed.
(** A status controller that an event does not enqueue would report the same
    references.  A ReferenceGrant that comes or goes without enqueueing a managed
    Gateway leaves the verdict on every certificate of its listeners and on its
    client certificate; one that does not enqueue a ListenerSet leaves the verdict
    on its entries; and so does a change of a Secret that does not enqueue it. *)
Theorem unmapped_status_event_irrelevant {kube : KubeClient} {texts : ApiText} {pem : PemReader} {x509 : X509} (secrets : SecretReader)
    controllerName grant grants1 grants2 gateway :
  grant_added grant grants1 grants2 -> gateway ∈ listed_managed controllerName ->
  (gateway_request gateway ∉ referenceGrantToGateways controllerName grant ->
   (forall listener, listener ∈ gw_Listeners (go_Gateway gateway) ->
      @validateTLSCertificateRefs grants1 secrets texts pem (go_Gateway gateway) listener =
      @validateTLSCertificateRefs grants2 secrets texts pem (go_Gateway gateway) listener) /\
   loadGatewayClientCertPEM (@checkSecretReferenceGrantForGateway grants1) gateway =
     loadGatewayClientCertPEM (@checkSecretReferenceGrantForGateway grants2) gateway) /\
  (forall sets listenerSet entry, kube_ListenerSets = Some sets -> listenerSet ∈ sets -> entry ∈ ls_Listeners (lso_Set listenerSet) ->
     (set_request listenerSet ∉ referenceGrantToListenerSets grant ->
      @resolveListenerEntryRefs grants1 secrets texts pem (lso_Set listenerSet) entry =
      @resolveListenerEntryRefs grants2 secrets texts pem (lso_Set listenerSet) entry) /\
     (forall namespace name secrets', (forall ns n, (ns, n) <> (namespace, name) -> @read_secret secrets ns n = @read_secret secrets' ns n) ->
      set_request listenerSet ∉ secretToListenerSets namespace name ->
      @resolveListenerEntryRefs grants1 secrets texts pem (lso_Set listenerSet) entry =
      @resolveListenerEntryRefs grants1 secrets' texts pem (lso_Set listenerSet) entry)).
Proof.
  intros Hadded Hg. split; [|intros sets listenerSet entry Hsets Hset He; split].
  - intros Hn. apply (gateway_refs_kept grant); [done|]. unfold referenceGrantToGateways in Hn.
    destruct (allowsGatewayToSecrets grant); [|by left]. right. cbn [negb] in Hn. by apply (unselected _ _ _ _ Hn) in Hg.
  - intros Hn. apply (set_refs_kept grant); [done| |done]. unfold referenceGrantToListenerSets, sets_where in Hn. rewrite Hsets in Hn.
    destruct (grantTargetsSecret grant); [|by left]. right. cbn [negb] in Hn. by apply (unselected _ _ _ _ Hn) in Hset.
  - intros namespace name secrets' Hs Hn. apply (set_secret_kept secrets secrets' namespace name); [done| |done].
    unfold secretToListenerSets, sets_where in Hn. rewrite Hsets in Hn. by apply (unselected _ _ _ _ Hn) in Hset.
Qed.

(** ** Examples *)

Definition tls_gateway : GatewayObject :=
  mkGatewayObject (mkGateway "edge" "prod" [mkListener "web" None 443 "HTTPS" None [mkSecretObjectReference None None "crt" (Some "certs")]] None) 1 "class"
    None None.
Definition tls_client : KubeClient := {|
  kube_Gateway _ _ := Some tls_gateway; kube_ListenerSet _ _ := None; kube_Gateways := Some [tls_gateway]; kube_ListenerSets := Some [];
  kube_GatewayClasses := Some [mkGatewayClass "class" "us" None] |}.
Definition unrelated_grant : ReferenceGrant := mkReferenceGrant "other" [mkGrantFrom GroupName kindGateway "prod"] [mkGrantTo "" kindSecret None].
Definition grants_of (present : bool) : GrantClient := fun ns =>
  Some (if present && bool_decide (ns = "other") then [unrelated_grant] else []).
Definition crt_secret (present : bool) : SecretReader := fun ns n =>
  if present && bool_decide (ns = "certs") && bool_decide (n = "crt")
  then Found (mkSecret SecretTypeTLS {[TLSCertKey := "crt"; TLSPrivateKeyKey := "key"]}) else NotFound.
Lemma unmapped_status_event_irrelevant_witness :
  @validateTLSCertificateRefs (grants_of false) (crt_secret true) plain_api crt_pem (go_Gateway tls_gateway)
    (mkListener "web" None 443 "HTTPS" None [mkSecretObjectReference None None "crt" (Some "certs")]) =
  @validateTLSCertificateRefs (grants_of true) (crt_secret true) plain_api crt_pem (go_Gateway tls_gateway)
    (mkListener "web" None 443 "HTTPS" None [mkSecretObjectReference None None "crt" (Some "certs")]).
Proof.
  apply (@unmapped_status_event_irrelevant tls_client plain_api crt_pem crt_x509 (crt_secret true) "us" unrelated_grant (grants_of false) (grants_of true)
    tls_gateway).
  - split; [|exists [], []; split; reflexivity]. intros ns Hne. unfold list_grants, grants_of. cbn. by rewrite bool_decide_eq_false_2.
  - vm_compute. by left.
  - vm_compute. by intros ?%elem_of_nil.
  - by left.
Defined.
(** The Secret of a listener's certificate: it appears, the verdict changes, and no
    Gateway is enqueued. *)
Lemma listener_certificate_unmapped :
  let grants : GrantClient := one_grant in
  let verdict present := rk_Status (@validateTLSCertificateRefs grants (crt_secret present) plain_api crt_pem (go_Gateway tls_gateway)
    (mkListener "web" None 443 "HTTPS" None [mkSecretObjectReference None None "crt" (Some "certs")])) in
  verdict false = ConditionFalse /\ verdict true = ConditionTrue /\
  @getAllManagedGateways tls_client "us" = [("prod", "edge")] /\
  @MapSecretToRequests tls_client (noise_reader "") grants "us" (@getAllManagedGateways tls_client "us") "certs" "crt" = [].
Proof. vm_compute. split_and!; reflexivity. Qed.
