(* ===== verification/ClassStatus.v ===== *)
(** * GatewayClass and GatewayClassConfig ([controller/gatewayclass*_controller.go])

    The finalizer and the status of a GatewayClass, with the check of the installed
    Gateway API bundle, and the verdict on a GatewayClassConfig.  Writes go through
    [StatusWriter]; reads of the CRD and of the Secret are parameters. *)
From Stdlib Require Import Ascii DecimalString DecimalZ.
From stdpp Require Import sorting.
From stdpp Require Import base sets gmap strings list.
From S2P Require Import Prelude GoStrings GoHttp Shadow Filters RouteBinding IngressBuild Converter ConfigResolver ListenerView SyncAll RouteStatus BackendTLS StatusWriter CertRefs GatewayStatus Mappers.

(** ** Versions *)

(** [strconv.Atoi]: an optional sign and decimal digits, in 64 bits. *)
Definition Atoi (s : string) : option Z :=
  let parsed := match s with
                | String "+" s' => Decimal.Pos <$> NilZero.uint_of_string s'
                | _ => NilZero.int_of_string s
                end in
  n ← Z.of_int <$> parsed;
  if ((- 9223372036854775808 <=? n) && (n <=? 9223372036854775807))%Z then Some n else None.
Definition parseMajorMinor (version : string) : option (Z * Z) :=
  let trimmed := TrimPrefix (TrimSpace version) "v" in
  match SplitByte trimmed "." with
  | major :: minor :: _ => major ← Atoi major; minor ← Atoi minor; Some (major, minor)
  | _ => None
  end.

Definition gatewayClassCRDName : string := "gatewayclasses.gateway.networking.k8s.io".
Definition BundleVersion : string := "v1.6.1".
Definition BundleVersionAnnotation : string := "gateway.networking.k8s.io/bundle-version".
Definition GatewayClassFinalizerGatewaysExist : string := "gateway-exists-finalizer.gateway.networking.k8s.io".
Definition GatewayClassConditionStatusAccepted : string := "Accepted".
Definition GatewayClassConditionStatusSupportedVersion : string := "SupportedVersion".
Definition GatewayClassReasonAccepted : string := "Accepted".
Definition GatewayClassReasonSupportedVersion : string := "SupportedVersion".
Definition GatewayClassReasonUnsupportedVersion : string := "UnsupportedVersion".
Definition ConditionTypeValid : string := "Valid".
Definition ConditionTypeSecretsResolved : string := "SecretsResolved".
Definition configValidationRequeueDelay : Z := 300000.
Definition priorityGatewayClassConfig : Z := 100.

(** ** The class *)

Record StoredClass := mkStoredClass {
  scl_Name : string; scl_ControllerName : string; scl_Generation : Z; scl_Deleting : bool;
  scl_Finalizers : list string; scl_Conditions : list Condition }.
(** The annotations of the CRD; [None] without a reader. *)
Notation CRDReader := (option (Lookup (gmap string string))).

Definition bundleVersionSupported (expected : string) (crd : CRDReader) : res unit (bool * string) :=
  match parseMajorMinor expected with
  | None => Ok (false, "controller has malformed supported bundle version " +:+ quoted expected)
  | Some (expectedMajor, expectedMinor) =>
      match crd with
      | None => Ok (false, "Gateway API CRD bundle version could not be verified: no reader configured")
      | Some NotFound => Ok (false, "Gateway API CRD " +:+ quoted gatewayClassCRDName +:+ " is not installed")
      | Some Unavailable => Err tt
      | Some (Found annotations) =>
          let installed := default "" (annotations !! BundleVersionAnnotation) in
          if bool_decide (installed = "") then
            Ok (false, "Gateway API CRD " +:+ quoted gatewayClassCRDName +:+ " is missing the " +:+ quoted BundleVersionAnnotation +:+ " annotation")
          else
            match parseMajorMinor installed with
            | None => Ok (false, "Gateway API CRD bundle version " +:+ quoted installed +:+ " is not a valid version")
            | Some (installedMajor, installedMinor) =>
                if negb (bool_decide (installedMajor = expectedMajor)) || negb (bool_decide (installedMinor = expectedMinor)) then
                  Ok (false, "Gateway API CRD bundle version " +:+ installed +:+ " is not supported; controller requires " +:+
                        Itoa expectedMajor +:+ "." +:+ Itoa expectedMinor +:+ ".x")
                else Ok (true, "Gateway API CRD bundle version " +:+ installed +:+ " is supported")
            end
      end
  end.
Definition bundleVersionCondition (crd : CRDReader) (generation now : Z) : res unit Condition :=
  verdict ← bundleVersionSupported BundleVersion crd;
  let '(supported, message) := verdict in
  Ok (mkCondition GatewayClassConditionStatusSupportedVersion (condition_status supported) generation now
        (if supported then GatewayClassReasonSupportedVersion else GatewayClassReasonUnsupportedVersion) message).
Definition class_accepted (generation now : Z) : Condition :=
  mkCondition GatewayClassConditionStatusAccepted ConditionTrue generation now GatewayClassReasonAccepted
    "GatewayClass is accepted by cloudflare-tunnel controller".
(** The conditions, and whether the CRD could be read. *)
Definition setAcceptedConditions (crd : CRDReader) (class : StoredClass) (now : Z) : StoredClass :=
  let news := class_accepted (scl_Generation class) now ::
    match bundleVersionCondition crd (scl_Generation class) now with Ok c => [c] | Err _ => [] end in
  mkStoredClass (scl_Name class) (scl_ControllerName class) (scl_Generation class) (scl_Deleting class) (scl_Finalizers class)
    (foldl (SetStatusCondition now) (scl_Conditions class) news).

Inductive ClassError := errGetClass | errListGateways | errUpdateFinalizers | errClassStatus (e : WriteError) | errBundleVersion.
Section class.
Context (controllerName : string).
(** The new finalizers; [None] when nothing is to be written. *)
Definition reconcileFinalizer (gateways : option (list GatewayObject)) (class : StoredClass) : res ClassError (option (list string)) :=
  match gateways with
  | None => Err errListGateways
  | Some items =>
      let inUse := existsb (fun gateway => bool_decide (go_ClassName gateway = scl_Name class)) items in
      let hasFinalizer := bool_decide (GatewayClassFinalizerGatewaysExist ∈ scl_Finalizers class) in
      if inUse && negb hasFinalizer && negb (scl_Deleting class) then
        Ok (Some (scl_Finalizers class ++ [GatewayClassFinalizerGatewaysExist]))
      else if negb inUse && hasFinalizer then
        Ok (Some (List.filter (fun f => negb (bool_decide (f = GatewayClassFinalizerGatewaysExist))) (scl_Finalizers class)))
      else Ok None
  end.
Definition class_stale (reconciledGen : Z) (class : StoredClass) : bool :=
  if negb (bool_decide (scl_ControllerName class = controllerName)) then true
  else ownedConditionsStale (scl_Conditions class) reconciledGen
         [GatewayClassConditionStatusAccepted; GatewayClassConditionStatusSupportedVersion].
(** [updateStatus]: the write, and the error that requeues an unread CRD. *)
Definition Class_updateStatus (crd : CRDReader) (reconciledGen : Z) (attempts : nat -> StatusAttempt StoredClass)
    : res WriteError (StatusWrite StoredClass) * bool :=
  match write_status (class_stale reconciledGen) (setAcceptedConditions crd) attempts with
  | Ok (write_stored before after) =>
      (Ok (write_stored before after), match bundleVersionSupported BundleVersion crd with Err _ => true | Ok _ => false end)
  | r => (r, false)
  end.
(** What a reconcile did: the finalizers it wrote, and the status. *)
Record ClassOutcome := mkClassOutcome {
  co_Finalizers : option (list string); co_Status : option (StatusWrite StoredClass); co_Error : option ClassError }.
Definition Class_Reconcile (read : Lookup StoredClass) (gateways : option (list GatewayObject)) (finalizersStored : bool)
    (crd : CRDReader) (attempts : nat -> StatusAttempt StoredClass) : ClassOutcome :=
  match read with
  | NotFound => mkClassOutcome None None None
  | Unavailable => mkClassOutcome None None (Some errGetClass)
  | Found class =>
      if negb (bool_decide (scl_ControllerName class = controllerName)) then mkClassOutcome None None None
      else
        match reconcileFinalizer gateways class with
        | Err e => mkClassOutcome None None (Some e)
        | Ok finalizers =>
            if bool_decide (is_Some finalizers) && negb finalizersStored then mkClassOutcome None None (Some errUpdateFinalizers)
            else if scl_Deleting class then mkClassOutcome finalizers None None
            else
              match Class_updateStatus crd (scl_Generation class) attempts with
              | (Err e, _) => mkClassOutcome finalizers None (Some (errClassStatus e))
              | (Ok write, bundleErr) => mkClassOutcome finalizers (Some write) (if bundleErr : bool then Some errBundleVersion else None)
              end
        end
  end.
Definition gatewayClassForGateway (gateway : GatewayObject) : list string := [go_ClassName gateway].
End class.

(** ** The configuration of a class *)

Section config.
Context {reader : ConfigReader} (DefaultNamespace : string) (secret_failure : string).
Definition validateCredentialsSecret (config : GatewayClassConfig) : bool * list string :=
  let credRef := gcc_CloudflareCredentialsSecretRef config in
  let credNamespace := if bool_decide (sref_Namespace credRef = "") then DefaultNamespace else sref_Namespace credRef in
  match get_Secret credNamespace (sref_Name credRef) with
  | Err apiNotFound => (false, ["credentials secret '" +:+ sref_Name credRef +:+ "' not found in namespace '" +:+ credNamespace +:+ "'"])
  | Err _ => (false, ["failed to get credentials secret: " +:+ secret_failure])
  | Ok secret =>
      let apiTokenKey := GetAPITokenKey credRef in
      match secret !! apiTokenKey with
      | None => (false, ["credentials secret missing key '" +:+ apiTokenKey +:+ "'"])
      | Some _ => (true, [])
      end
  end.
Definition buildSecretsCondition (resolved : bool) (generation now : Z) : Condition :=
  if resolved then
    mkCondition ConditionTypeSecretsResolved ConditionTrue generation now "SecretsFound" "All referenced secrets exist and contain required keys"
  else
    mkCondition ConditionTypeSecretsResolved ConditionFalse generation now "SecretsMissing" "One or more referenced secrets are missing or invalid".
Definition buildValidCondition (validationErrors : list string) (generation now : Z) : Condition :=
  match validationErrors with
  | [] => mkCondition ConditionTypeValid ConditionTrue generation now "Valid" "Configuration is valid"
  | first :: rest =>
      let errMsg := if 0 <? length rest then first +:+ " (and " +:+ Itoa (Z.of_nat (length rest)) +:+ " more errors)" else first in
      mkCondition ConditionTypeValid ConditionFalse generation now "Invalid" (truncateMessage errMsg)
  end.
Definition validateConfig (config : GatewayClassConfig) (generation now : Z) : list Condition :=
  let '(credResolved, validationErrors) := validateCredentialsSecret config in
  [buildSecretsCondition credResolved generation now; buildValidCondition validationErrors generation now].

Record StoredConfig := mkStoredConfig { scf_Config : GatewayClassConfig; scf_Generation : Z; scf_Conditions : list Condition }.
Definition validated (config : StoredConfig) (now : Z) : StoredConfig :=
  mkStoredConfig (scf_Config config) (scf_Generation config) (validateConfig (scf_Config config) (scf_Generation config) now).
Inductive ConfigOutcome := config_gone | config_unreadable | config_failed (e : WriteError) | config_validated (write : StatusWrite StoredConfig) (requeue : Result).
Definition ClassConfig_Reconcile (read : Lookup StoredConfig) (attempts : nat -> StatusAttempt StoredConfig) : ConfigOutcome :=
  match read with
  | NotFound => config_gone
  | Unavailable => config_unreadable
  | Found config =>
      match write_status (fun fresh => statusGenerationStale (scf_Generation config) [scf_Conditions fresh]) validated attempts with
      | Err e => config_failed e
      | Ok write => config_validated write (mkResult configValidationRequeueDelay (Some priorityGatewayClassConfig))
      end
  end.
(** [None] is a failed list; a configuration is cluster-scoped. *)
Definition secretToConfigs (configs : option (list GatewayClassConfig)) (namespace name : string) : list string :=
  match configs with
  | None => []
  | Some items => gcc_Name <$> List.filter (fun cfg => SecretMatchesConfig namespace name cfg) items
  end.
End config.

(** ** Versions round trip *)

Lemma int_of_Itoa z : NilZero.int_of_string (Itoa z) = Some (Z.to_int z).
Proof.
  unfold Itoa. apply NilZero.isi.
  - intros H. pose proof (DecimalZ.of_to z) as Hz. rewrite H in Hz. cbn in Hz. by subst z.
  - intros H. pose proof (DecimalZ.of_to z) as Hz. rewrite H in Hz. cbn in Hz. by subst z.
Qed.
Lemma Atoi_Itoa z :
  (- 9223372036854775808 <= z <= 9223372036854775807)%Z -> Atoi (Itoa z) = Some z.
Proof.
  intros Hz. unfold Atoi. assert (Hp : forall s, Itoa z <> String "+" s).
  { intros s H. pose proof (Itoa_bytes z) as Hb. by rewrite H in Hb. }
  replace (match Itoa z with String "+" s' => Decimal.Pos <$> NilZero.uint_of_string s' | _ => NilZero.int_of_string (Itoa z) end)
    with (Some (Z.to_int z)).
  - cbn. rewrite DecimalZ.of_to. destruct (Z.leb_spec (- 9223372036854775808) z); [|lia].
    destruct (Z.leb_spec z 9223372036854775807); [done|lia].
  - rewrite int_of_Itoa. destruct (Itoa z) as [|c s] eqn:He; [done|].
    destruct c as [[] [] [] [] [] [] [] []]; try done. by destruct (Hp s).
Qed.
Lemma SplitByte_lacks c s : lacks c s -> SplitByte s c = [s].
Proof.
  intros Hs. apply SplitByte_plain. revert Hs. unfold lacks. induction s as [|d s IH]; cbn; [done|].
  rewrite orb_false_iff. intros [-> Hs]. cbn. by apply IH.
Qed.
(** A string that starts and ends in a visible byte is its own trim. *)
Lemma TrimRightSpace_visible s c : is_space c = false -> TrimRightSpace (s +:+ String c "") = s +:+ String c "".
Proof.
  intros Hc. induction s as [|d s IH]; [rewrite sapp_nil_l; cbn [TrimRightSpace]; by rewrite Hc|]. rewrite sapp_cons. cbn [TrimRightSpace].
  rewrite IH. destruct s; by rewrite ?sapp_nil_l, ?sapp_cons.
Qed.
Lemma visible_end s : s <> "" -> str_forallb (fun c => negb (is_space c)) s = true -> exists t c, s = t +:+ String c "" /\ is_space c = false.
Proof.
  induction s as [|d s IH]; [done|]. intros _. cbn [str_forallb]. rewrite andb_true_iff, negb_true_iff. intros [Hd Hs].
  destruct s as [|e s]; [exists "", d; by rewrite sapp_nil_l|]. destruct IH as (t & c & -> & Hc); [done..|].
  exists (String d t), c. by rewrite sapp_cons.
Qed.
Lemma Itoa_visible z : Itoa z <> "" /\ str_forallb (fun c => negb (is_space c)) (Itoa z) = true.
Proof.
  split; [intros H; pose proof (int_of_Itoa z) as Hi; by rewrite H in Hi|].
  generalize (Itoa_bytes z). generalize (Itoa z). intros s. induction s as [|c s IH]; cbn [str_forallb]; [done|].
  rewrite !andb_true_iff. intros [Hc Hs]. split; [|by apply IH]. revert Hc. by destruct c as [[] [] [] [] [] [] [] []].
Qed.
Definition release (major minor patch : Z) : string := "v" +:+ Itoa major +:+ "." +:+ Itoa minor +:+ "." +:+ Itoa patch.
Lemma parse_release major minor patch :
  (- 9223372036854775808 <= major <= 9223372036854775807)%Z -> (- 9223372036854775808 <= minor <= 9223372036854775807)%Z ->
  parseMajorMinor (release major minor patch) = Some (major, minor).
Proof.
  intros HM Hm. unfold parseMajorMinor, release.
  assert (TrimSpace ("v" +:+ Itoa major +:+ "." +:+ Itoa minor +:+ "." +:+ Itoa patch) =
          "v" +:+ Itoa major +:+ "." +:+ Itoa minor +:+ "." +:+ Itoa patch) as ->.
  { unfold TrimSpace. change (TrimLeftSpace ("v" +:+ ?r)) with ("v" +:+ r).
    destruct (Itoa_visible patch) as [Hn Hv]. destruct (visible_end _ Hn Hv) as (t & c & -> & Hc).
    rewrite <- !sapp_assoc. by apply TrimRightSpace_visible. }
  cbv zeta. rewrite TrimPrefix_app.
  assert (Hdot : forall s t, SplitByte (s +:+ "." +:+ t) "." = SplitByte s "." ++ SplitByte t ".") by (intros; apply SplitByte_app).
  rewrite !Hdot, (SplitByte_lacks "." (Itoa major)) by (by apply lacks_Itoa).
  rewrite (SplitByte_lacks "." (Itoa minor)) by (by apply lacks_Itoa). cbn [app].
  by rewrite !Atoi_Itoa.
Qed.

(** ** The bundle *)

(** The installed bundle a supported controller asks for. *)
Definition bundle_matches (crd : CRDReader) : Prop :=
  exists annotations version, crd = Some (Found annotations) /\ annotations !! BundleVersionAnnotation = Some version /\
    parseMajorMinor version = parseMajorMinor BundleVersion.
Lemma bundle_version_verdict crd :
  match bundleVersionSupported BundleVersion crd with
  | Ok (supported, _) => crd <> Some Unavailable /\ (supported = true <-> bundle_matches crd)
  | Err _ => crd = Some Unavailable
  end.
Proof.
  unfold bundleVersionSupported, bundle_matches. change (parseMajorMinor BundleVersion) with (Some (1, 6)%Z). cbv beta iota.
  destruct crd as [[annotations| |]|]; [|naive_solver..].
  destruct (annotations !! BundleVersionAnnotation) as [installed|] eqn:Ha; [|split; [done|]; naive_solver].
  change (default "" (Some installed)) with installed.
  case_bool_decide as He; [subst; split; [done|]; split; [done|]; intros (? & ? & [= <-] & Hv & Hp); by simplify_eq|].
  destruct (parseMajorMinor installed) as [[major minor]|] eqn:Hp; [|split; [done|]; naive_solver].
  destruct (bool_decide_reflect (major = 1%Z)), (bool_decide_reflect (minor = 6%Z)); cbn [negb orb]; split; naive_solver.
Qed.

(** For a release of the Gateway API bundle whose version is written as
    [v<major>.<minor>.<patch>] the controller reads back the numbers that were
    written, and supports it exactly when it is a 1.6 release, whatever the patch. *)
Theorem supported_release_exact major minor patch annotations :
  (- 9223372036854775808 <= major <= 9223372036854775807)%Z -> (- 9223372036854775808 <= minor <= 9223372036854775807)%Z ->
  annotations !! BundleVersionAnnotation = Some (release major minor patch) ->
  parseMajorMinor (release major minor patch) = Some (major, minor) /\
  exists message, bundleVersionSupported BundleVersion (Some (Found annotations)) = Ok (bool_decide (major = 1 /\ minor = 6)%Z, message).
Proof.
  intros HM Hm Ha. pose proof (parse_release major minor patch HM Hm) as Hp. split; [done|].
  pose proof (bundle_version_verdict (Some (Found annotations))) as Hv.
  destruct (bundleVersionSupported BundleVersion (Some (Found annotations))) as [[supported message]|]; [|done].
  exists message. f_equal. f_equal. apply eq_bool_prop_intro. destruct Hv as [_ Hv]. rewrite bool_decide_spec, Is_true_true, Hv.
  unfold bundle_matches. change (parseMajorMinor BundleVersion) with (Some (1, 6)%Z). split; [|intros [-> ->]; eauto].
  intros (a & v & [= <-] & H1 & H2). rewrite Ha in H1. injection H1 as <-. rewrite Hp in H2. by simplify_eq.
Qed.
Lemma supported_release_exact_witness :
  exists message, bundleVersionSupported BundleVersion (Some (Found {[BundleVersionAnnotation := release 1 6 3]})) = Ok (true, message).
Proof.
  destruct (supported_release_exact 1 6 3 {[BundleVersionAnnotation := release 1 6 3]}) as [_ [message Hm]]; [lia|lia|done|].
  by exists message.
Defined.

(** ** The class *)

Definition class_conditions_owned : list string := [GatewayClassConditionStatusAccepted; GatewayClassConditionStatusSupportedVersion].
(** A status write: only the two conditions change, [Accepted] is true, and
    [SupportedVersion] is the verdict unless the bundle could not be read, when
    what was stored stays. *)
Definition class_status_written (crd : CRDReader) (before after : StoredClass) : Prop :=
  (scl_Name after, scl_ControllerName after, scl_Generation after, scl_Deleting after, scl_Finalizers after) =
    (scl_Name before, scl_ControllerName before, scl_Generation before, scl_Deleting before, scl_Finalizers before) /\
  others class_conditions_owned (scl_Conditions after) = others class_conditions_owned (scl_Conditions before) /\
  (exists c, FindStatusCondition (scl_Conditions after) GatewayClassConditionStatusAccepted = Some c /\
     cond_Status c = ConditionTrue /\ cond_ObservedGeneration c = scl_Generation before) /\
  match crd with
  | Some Unavailable =>
    FindStatusCondition (scl_Conditions after) GatewayClassConditionStatusSupportedVersion =
    FindStatusCondition (scl_Conditions before) GatewayClassConditionStatusSupportedVersion
  | _ =>
    exists c, FindStatusCondition (scl_Conditions after) GatewayClassConditionStatusSupportedVersion = Some c /\
      cond_ObservedGeneration c = scl_Generation before /\ (cond_Status c = ConditionTrue <-> bundle_matches crd)
  end.

Lemma class_update_written crd class now : class_status_written crd class (setAcceptedConditions crd class now).
Proof.
  unfold class_status_written, setAcceptedConditions. cbn [scl_Name scl_ControllerName scl_Generation scl_Deleting scl_Finalizers scl_Conditions].
  set (news := _ :: _). split; [done|].
  assert (Hnews : match crd with
    | Some Unavailable => news = [class_accepted (scl_Generation class) now]
    | _ => exists supported reason message, news = [class_accepted (scl_Generation class) now;
        mkCondition GatewayClassConditionStatusSupportedVersion (condition_status supported) (scl_Generation class) now reason message] /\
        (supported = true <-> bundle_matches crd)
    end).
  { subst news. pose proof (bundle_version_verdict crd) as Hv. unfold bundleVersionCondition.
    destruct (bundleVersionSupported BundleVersion crd) as [[supported message]|] eqn:Hb; cbn; [|by rewrite Hv].
    destruct Hv as [Hn Hv]. destruct crd as [[| |]|]; [|by eauto 10|done|]; by eauto 10. }
  assert (Hin : forall c, c ∈ news -> cond_Type c ∈ class_conditions_owned).
  { intros c Hc. unfold class_conditions_owned. destruct crd as [[| |]|]; try destruct Hnews as (? & ? & ? & -> & _); try rewrite Hnews in Hc; set_solver. }
  assert (Hnd : NoDup (cond_Type <$> news)).
  { destruct crd as [[| |]|]; try destruct Hnews as (? & ? & ? & -> & _); try rewrite Hnews; by apply (bool_decide_unpack _). }
  split; [by apply apply_others|]. split.
  - destruct (apply_find now (scl_Conditions class) news (class_accepted (scl_Generation class) now)) as (c & Hc & Hs); [by left|done|].
    exists c. by destruct Hs as (_ & -> & -> & _).
  - assert (Hset : forall supported reason message, news = [class_accepted (scl_Generation class) now;
        mkCondition GatewayClassConditionStatusSupportedVersion (condition_status supported) (scl_Generation class) now reason message] ->
        (supported = true <-> bundle_matches crd) ->
        exists c, FindStatusCondition (foldl (SetStatusCondition now) (scl_Conditions class) news) GatewayClassConditionStatusSupportedVersion = Some c /\
          cond_ObservedGeneration c = scl_Generation class /\ (cond_Status c = ConditionTrue <-> bundle_matches crd)).
    { intros supported reason message Hn Hs. edestruct (apply_find now (scl_Conditions class) news) as (c & Hc & _ & Hst & Hg & _);
        [rewrite Hn; right; left|done|]. exists c. split; [exact Hc|]. split; [exact Hg|]. rewrite Hst, <- Hs. by destruct supported. }
    destruct crd as [[| |]|]; [destruct Hnews as (? & ? & ? & ? & ?); by eapply Hset..| |destruct Hnews as (? & ? & ? & ? & ?); by eapply Hset].
    rewrite apply_find_other; [done|]. rewrite Hnews. by apply (bool_decide_unpack _).
Qed.

(** A list of finalizers but for the one of the controller. *)
Definition foreign_finalizers (finalizers : list string) : list string :=
  List.filter (fun f => negb (bool_decide (f = GatewayClassFinalizerGatewaysExist))) finalizers.
Definition class_in_use (items : list GatewayObject) (class : StoredClass) : Prop :=
  exists gateway, gateway ∈ items /\ go_ClassName gateway = scl_Name class.
(** The finalizer is missing from a class in use that is not being deleted, or left on one that is not in use. *)
Definition finalizer_due (items : list GatewayObject) (class : StoredClass) : Prop :=
  class_in_use items class /\ GatewayClassFinalizerGatewaysExist ∉ scl_Finalizers class /\ scl_Deleting class = false \/
  ~ class_in_use items class /\ GatewayClassFinalizerGatewaysExist ∈ scl_Finalizers class.
Lemma filter_twice {A} (f : A -> bool) l : List.filter f (List.filter f l) = List.filter f l.
Proof. induction l as [|x l IH]; cbn; [done|]. destruct (f x) eqn:Hf; cbn; by rewrite ?Hf, ?IH. Qed.
Lemma reconcileFinalizer_exact items class :
  exists written, reconcileFinalizer (Some items) class = Ok written /\ (is_Some written <-> finalizer_due items class) /\
    let after := default (scl_Finalizers class) written in
    (GatewayClassFinalizerGatewaysExist ∈ after <->
     class_in_use items class /\ (GatewayClassFinalizerGatewaysExist ∈ scl_Finalizers class \/ scl_Deleting class = false)) /\
    foreign_finalizers after = foreign_finalizers (scl_Finalizers class).
Proof.
  unfold reconcileFinalizer. set (F := GatewayClassFinalizerGatewaysExist). set (inUse := existsb _ items).
  assert (Hu : inUse = true <-> class_in_use items class).
  { unfold inUse, class_in_use. rewrite existsb_exists. setoid_rewrite bool_decide_eq_true. by setoid_rewrite list_elem_of_In. }
  unfold finalizer_due. fold F. setoid_rewrite <- Hu. unfold foreign_finalizers. fold F.
  destruct inUse; destruct (bool_decide_reflect (F ∈ scl_Finalizers class)) as [HF|HF]; cbn [negb andb].
  - exists None. split; [done|]. rewrite is_Some_alt. cbn. naive_solver.
  - destruct (scl_Deleting class); cbn [negb andb]; eexists; (split; [reflexivity|]); rewrite is_Some_alt; cbn [default from_option id];
      [naive_solver|]. split; [by intuition|]. split; [split; [by auto|intros _; apply elem_of_app; right; by left]|].
    rewrite List.filter_app. cbn. rewrite bool_decide_eq_true_2 by done. by rewrite app_nil_r.
  - eexists. split; [reflexivity|]. rewrite is_Some_alt. cbn [default from_option id]. split; [naive_solver|]. split.
    + rewrite list_elem_of_In, filter_In, negb_true_iff, bool_decide_eq_false. naive_solver.
    + apply filter_twice.
  - exists None. split; [done|]. rewrite is_Some_alt. cbn. naive_solver.
Qed.

(** A copy that was handed to another controller, or whose own conditions were
    computed from a newer generation. *)
Definition class_ahead (controllerName : string) (generation : Z) (class : StoredClass) : Prop :=
  scl_ControllerName class <> controllerName \/
  exists type c, type ∈ class_conditions_owned /\ FindStatusCondition (scl_Conditions class) type = Some c /\
    (generation < cond_ObservedGeneration c)%Z.
Lemma class_stale_ahead controllerName generation class :
  class_stale controllerName generation class = true <-> class_ahead controllerName generation class.
Proof.
  unfold class_stale, class_ahead, ownedConditionsStale.
  destruct (bool_decide_reflect (scl_ControllerName class = controllerName)) as [Hc|Hc]; cbn [negb]; [|by intuition].
  rewrite existsb_exists. setoid_rewrite <-list_elem_of_In. fold class_conditions_owned. split.
  - intros (type & Hin & Hc'). right. destruct (FindStatusCondition _ type) as [c|] eqn:Hf; [|done].
    exists type, c. apply Z.ltb_lt in Hc'. done.
  - intros [?|(type & c & Hin & Hf & Hlt)]; [done|]. exists type. rewrite Hf. split; [done|]. by apply Z.ltb_lt.
Qed.
(** What a reconcile reports of the status write. *)
Definition class_write_reported (crd : CRDReader) (r : res WriteError (StatusWrite StoredClass)) (o : ClassOutcome) : Prop :=
  match r with
  | Ok write => co_Status o = Some write /\
      (co_Error o = Some errBundleVersion <-> crd = Some Unavailable /\ write <> write_skipped) /\
      (co_Error o = None <-> crd <> Some Unavailable \/ write = write_skipped)
  | Err e => co_Status o = None /\ co_Error o = Some (errClassStatus e)
  end.

(** C36: What a reconcile of a GatewayClass does, for a store whose resource
    versions identify objects.  A class of another controller, or one that cannot be
    read, is not written, and without the list of Gateways nothing is.  The
    finalizers are written exactly when the gateway-exists finalizer is missing from a
    class in use that is not being deleted, or left on a class no Gateway uses; if
    the store refuses them, nothing else happens.  Afterwards the finalizer is there
    exactly when a Gateway uses the class, except that a class in deletion that lacked
    it does not get it; every other finalizer keeps its place.  The status of a class
    in deletion is left alone.  Otherwise the first attempt that meets no conflict
    decides: it is skipped exactly when the copy read belongs to another controller or
    carries an own condition of a newer generation than the one reconciled, and else,
    unless the store refuses it, [Accepted] is true and [SupportedVersion] is the
    verdict on the installed bundle, both of the copy's generation, over foreign
    conditions that stay; a bundle that cannot be read is reported after the write. *)
Theorem class_reconcile_exact controllerName read gateways finalizersStored crd attempts :
  versions_identify attempts ->
  let o := Class_Reconcile controllerName read gateways finalizersStored crd attempts in
  match read with
  | Found class =>
      if bool_decide (scl_ControllerName class = controllerName) then
        match gateways with
        | None => o = mkClassOutcome None None (Some errListGateways)
        | Some items =>
            (finalizer_due items class /\ finalizersStored = false /\ o = mkClassOutcome None None (Some errUpdateFinalizers)) \/
            (~ (finalizer_due items class /\ finalizersStored = false) /\
             (is_Some (co_Finalizers o) <-> finalizer_due items class) /\
             let after := default (scl_Finalizers class) (co_Finalizers o) in
             (GatewayClassFinalizerGatewaysExist ∈ after <->
              class_in_use items class /\ (GatewayClassFinalizerGatewaysExist ∈ scl_Finalizers class \/ scl_Deleting class = false)) /\
             foreign_finalizers after = foreign_finalizers (scl_Finalizers class) /\
             if scl_Deleting class then co_Status o = None /\ co_Error o = None
             else exists r,
               write_outcome (setAcceptedConditions crd) (class_ahead controllerName (scl_Generation class)) attempts r /\
               class_write_reported crd r o)
        end
      else o = mkClassOutcome None None None
  | NotFound => o = mkClassOutcome None None None
  | Unavailable => o = mkClassOutcome None None (Some errGetClass)
  end /\
  forall before after, co_Status o = Some (write_stored before after) ->
    scl_ControllerName before = controllerName /\ class_status_written crd before after.
Proof.
  intros Hver. cbv zeta. unfold Class_Reconcile. destruct read as [class| |]; [|done..].
  destruct (bool_decide_reflect (scl_ControllerName class = controllerName)) as [Hc|Hc]; cbn [negb]; [|done].
  destruct gateways as [items|]; [|done].
  destruct (reconcileFinalizer_exact items class) as (written & -> & Hdue & Hfin & Hforeign). cbv beta iota.
  destruct (bool_decide (is_Some written) && negb finalizersStored) eqn:Hw.
  { apply andb_true_iff in Hw as [Hw%bool_decide_eq_true Hf%negb_true_iff]. split; [left|done]. by rewrite <-Hdue. }
  assert (Hok : ~ (finalizer_due items class /\ finalizersStored = false)).
  { rewrite <-Hdue. apply andb_false_iff in Hw as [Hw|Hw]; breflect; naive_solver. }
  destruct (scl_Deleting class) eqn:Hd; [split; [right; by split_and!|done]|]. unfold Class_updateStatus.
  pose proof (class_stale_ahead controllerName (scl_Generation class)) as Hst.
  pose proof (proj1 (write_status_outcome _ (setAcceptedConditions crd) _ Hst attempts _) eq_refl) as Hout.
  pose proof (write_status_spec (class_stale controllerName (scl_Generation class)) (setAcceptedConditions crd) attempts Hver) as Hws.
  destruct (write_status _ _ attempts) as [write|e].
  2:{ split; [right|done]. split_and!; try done. by exists (Err e). }
  assert (Hrep : forall o, o = mkClassOutcome written (Some write)
      (if match write with write_skipped => false | write_stored _ _ => match bundleVersionSupported BundleVersion crd with Err _ => true | Ok _ => false end end
       then Some errBundleVersion else None) -> class_write_reported crd (Ok write) o).
  { intros o ->. cbn. pose proof (bundle_version_verdict crd) as Hbv. split; [done|].
    destruct write; [naive_solver|]. destruct (bundleVersionSupported BundleVersion crd) as [[? ?]|]; naive_solver. }
  split.
  - right. split_and!; [done|by destruct write..|]. exists (Ok write). split; [done|]. apply Hrep. by destruct write.
  - intros before after Hs. assert (Hwrite : write = write_stored before after) by (destruct write; simpl in Hs; congruence).
    subst write. destruct Hws as (i & _ & _ & Hns & ->). split; [|apply class_update_written].
    unfold class_stale in Hns. destruct (bool_decide_reflect (scl_ControllerName before = controllerName)); [done|discriminate Hns].
Qed.
Module ClassExample.
Definition class : StoredClass := mkStoredClass "tunnel" "cf/controller" 3 false ["other"] [].
Definition attempt : StatusAttempt StoredClass := mkStatusAttempt (Found (7, class)%Z) 100 (7, class)%Z None.
Definition gateway : GatewayObject := mkGatewayObject (mkGateway "web" "default" [] None) 1 "tunnel" None None.
End ClassExample.
Lemma class_reconcile_exact_witness :
  exists o, o = Class_Reconcile "cf/controller" (Found ClassExample.class) (Some [ClassExample.gateway]) true
                  (Some (Found {[BundleVersionAnnotation := release 1 6 0]})) (fun _ => ClassExample.attempt) /\
  GatewayClassFinalizerGatewaysExist ∈ default ["other"] (co_Finalizers o) /\
  exists before after, co_Status o = Some (write_stored before after) /\
    class_status_written (Some (Found {[BundleVersionAnnotation := release 1 6 0]})) before after.
Proof.
  eexists. split; [reflexivity|]. set (o := Class_Reconcile _ _ _ _ _ _).
  destruct (class_reconcile_exact "cf/controller" (Found ClassExample.class) (Some [ClassExample.gateway]) true
              (Some (Found {[BundleVersionAnnotation := release 1 6 0]})) (fun _ => ClassExample.attempt)) as [Hr Hw].
  { intros i version fresh [= <- <-] _. done. }
  destruct Hr as [(_ & He & _)|(_ & _ & Hf & _)]; [discriminate He|].
  split; [apply Hf; split; [|by right]; exists ClassExample.gateway; split; [by left|done]|].
  eexists _, _. split; [reflexivity|]. apply Hw. reflexivity.
Defined.

(** ** The configuration *)

Definition condition_true (conditions : list Condition) (type : string) : Prop :=
  exists c, FindStatusCondition conditions type = Some c /\ cond_Status c = ConditionTrue.

Section verdict.
Context {reader : ConfigReader} (DefaultNamespace secret_failure : string).
Local Abbreviation resolve := (resolveConfig DefaultNamespace).

Lemma credentials_resolved config :
  gcc_TunnelID config <> "" ->
  ((validateCredentialsSecret DefaultNamespace secret_failure config).1 = true <->
   (exists r, resolve config = Ok r) \/ resolve config = Err errEmptyKey).
Proof.
  intros Ht. unfold validateCredentialsSecret, resolveConfig, getSecret. rewrite (bool_decide_eq_false_2 (gcc_TunnelID config = "")) by done.
  destruct (get_Secret _ _) as [secret|e]; cbn [map_err mbind res_bind].
  - destruct (secret !! GetAPITokenKey (gcc_CloudflareCredentialsSecretRef config)) as [token|]; [|naive_solver].
    case_bool_decide; naive_solver.
  - destruct e; naive_solver.
Qed.
Lemma verdict_conditions config generation now :
  let conditions := validateConfig DefaultNamespace secret_failure config generation now in
  let resolved := (validateCredentialsSecret DefaultNamespace secret_failure config).1 = true in
  (condition_true conditions ConditionTypeValid <-> resolved) /\
  (condition_true conditions ConditionTypeSecretsResolved <-> resolved) /\
  Forall (fun c => cond_ObservedGeneration c = generation) conditions.
Proof.
  cbv zeta. unfold validateConfig, condition_true.
  assert (He : (validateCredentialsSecret DefaultNamespace secret_failure config).1 = true <->
               (validateCredentialsSecret DefaultNamespace secret_failure config).2 = []).
  { unfold validateCredentialsSecret. destruct (get_Secret _ _) as [secret|[]]; [|done..]. by destruct (secret !! _). }
  destruct (validateCredentialsSecret DefaultNamespace secret_failure config) as [resolved [|error errors]]; cbn [fst snd] in *.
  - destruct He as [_ ->]; [|done]. cbn. split_and!; [by naive_solver..|]. repeat constructor.
  - destruct resolved; [by destruct He as [He _]; specialize (He eq_refl)|]. cbn. 
    split_and!; [|naive_solver|repeat constructor]. split; [|done]. by intros (c & [= <-] & Hc).
Qed.

(** What the status of a GatewayClassConfig says, for a store whose resource
    versions identify objects.  A reconcile that stores a status replaces the
    conditions by [SecretsResolved] and [Valid], which agree and carry the generation
    of the copy they were computed from, and asks to be run again.  For a
    configuration with a tunnel ID, [Valid] is true exactly when the resolver would
    resolve that configuration, or would fail on nothing but an empty token. *)
Theorem config_verdict_agrees read attempts before after requeue :
  versions_identify attempts ->
  ClassConfig_Reconcile DefaultNamespace secret_failure read attempts = config_validated (write_stored before after) requeue ->
  scf_Config after = scf_Config before /\ (0 < RequeueAfter requeue)%Z /\
  Forall (fun c => cond_ObservedGeneration c = scf_Generation before) (scf_Conditions after) /\
  (condition_true (scf_Conditions after) ConditionTypeSecretsResolved <-> condition_true (scf_Conditions after) ConditionTypeValid) /\
  (gcc_TunnelID (scf_Config before) <> "" ->
   (condition_true (scf_Conditions after) ConditionTypeValid <->
    (exists r, resolve (scf_Config before) = Ok r) \/ resolve (scf_Config before) = Err errEmptyKey)).
Proof.
  intros Hver. unfold ClassConfig_Reconcile. destruct read as [config| |]; [|done..].
  pose proof (write_status_spec (fun fresh => statusGenerationStale (scf_Generation config) [scf_Conditions fresh])
                (validated DefaultNamespace secret_failure) attempts Hver) as Hws.
  destruct (write_status _ _ attempts) as [write|e]; [|done]. intros [= -> <-]. destruct Hws as (i & _ & _ & _ & ->).
  destruct (verdict_conditions (scf_Config before) (scf_Generation before) (sa_Now (attempts i))) as (Hv & Hs & Hg).
  cbn [scf_Config scf_Conditions validated]. split_and!; [done|done|exact Hg|by rewrite Hv, Hs|]. intros Ht. by rewrite Hv, credentials_resolved.
Qed.
End verdict.

Module ConfigExample.
Definition token_reader (token : string) : ConfigReader := {|
  get_GatewayConfig _ _ := Err apiNotFound;
  get_GatewayClass _ := Err apiNotFound;
  get_GatewayClassConfig _ := Err apiNotFound;
  get_Secret ns _ := if bool_decide (ns = "system") then Ok {["api-token" := token]} else Err apiNotFound |}.
Definition config : GatewayClassConfig := mkGatewayClassConfig "main" (mkSecretReference "cloudflare" "" "") "" "tunnel".
Definition stored : StoredConfig := mkStoredConfig config 2 [].
Definition attempt : StatusAttempt StoredConfig := mkStatusAttempt (Found (5, stored)%Z) 100 (5, stored)%Z None.
End ConfigExample.
Lemma config_verdict_agrees_witness :
  exists before after requeue,
    @ClassConfig_Reconcile (ConfigExample.token_reader "key") "system" "" (Found ConfigExample.stored) (fun _ => ConfigExample.attempt)
      = config_validated (write_stored before after) requeue /\
    (condition_true (scf_Conditions after) ConditionTypeValid <->
     (exists r, @resolveConfig (ConfigExample.token_reader "key") "system" (scf_Config before) = Ok r) \/
     @resolveConfig (ConfigExample.token_reader "key") "system" (scf_Config before) = Err errEmptyKey).
Proof.
  do 3 eexists. split; [reflexivity|].
  apply (@config_verdict_agrees (ConfigExample.token_reader "key") "system" "" (Found ConfigExample.stored) (fun _ => ConfigExample.attempt)
           ConfigExample.stored _ (mkResult configValidationRequeueDelay (Some priorityGatewayClassConfig))); [|reflexivity|done].
  intros i version fresh [= <- <-] _. done.
Defined.

(** A token that is there but empty is reported valid, and fails to resolve. *)
Lemma empty_token_reported_valid :
  condition_true (@validateConfig (ConfigExample.token_reader "") "system" "" ConfigExample.config 2 100) ConditionTypeValid /\
  @resolveConfig (ConfigExample.token_reader "") "system" ConfigExample.config = Err errEmptyKey.
Proof. split; [|reflexivity]. eexists. split; reflexivity. Qed.
