(* ===== verification/Resync.v ===== *)
(** * Events on proxy pods and tokens ([controller/proxy_endpoint_reconciler.go],
      [controller/proxy_secret_reconciler.go])

    What an EndpointSlice event replays to which proxies, and how a rotated tunnel
    token rolls the shared proxy.  Replays go through [PushSync]. *)
From Stdlib Require Import Ascii Sorted.
From stdpp Require Import sorting.
From stdpp Require Import base sets gmap strings list.
From S2P Require Import Prelude GoStrings GoHttp Filters RouterState ConfigPush ProxyConfig Shadow RouteBinding IngressBuild Converter RenderNames ConfigResolver ListenerView ParentBinding RouteSync RoutePartition SyncAll PushSync Render.

(** ** Which slices are watched *)

Record proxyServiceTarget := mkProxyServiceTarget { pst_namespace : string; pst_name : string }.
Instance proxyServiceTarget_eq : EqDecision proxyServiceTarget.
Proof. solve_decision. Defined.
(** A slice with the fields the reconciler reads. *)
Record SliceObject := mkSliceObject { slo_Namespace : string; slo_Labels : gmap string string }.
Definition LabelServiceName : string := "kubernetes.io/service-name".
Definition ipv4SegmentCount : nat := 4.

Definition isProbablyIP (host : string) : bool :=
  let parts := SplitByte host "." in
  (length parts =? ipv4SegmentCount) && forallb (fun p => negb (bool_decide (p = "")) && str_forallb is_digit p) parts.

Section targets.
Context {parser : UrlParser}.
(** The Service an endpoint URL names, if it names one. *)
Definition service_target (raw : string) : option proxyServiceTarget :=
  let trimmed := TrimSpace raw in
  if bool_decide (trimmed = "") then None
  else
    match url_Parse trimmed with
    | None => None
    | Some parsed =>
        let host := (splitHostPort (url_Host parsed)).1 in
        if bool_decide (url_Host parsed = "") || bool_decide (host = "") then None
        else if ContainsByte host ":" || isProbablyIP host then None
        else match SplitByte host "." with
             | name :: namespace :: _ => Some (mkProxyServiceTarget namespace name)
             | _ => None
             end
    end.
Definition parseProxyServiceTargets (endpoints : list string) : list proxyServiceTarget :=
  foldl (fun out raw => match service_target raw with
                        | Some target => if bool_decide (target ∈ out) then out else out ++ [target]
                        | None => out
                        end) [] endpoints.
Definition endpointSliceMatchesProxy (targets : list proxyServiceTarget) (slice : SliceObject) : bool :=
  if negb (bool_decide (default "" (slo_Labels slice !! GatewayLabel) = "")) then true
  else
    let serviceName := default "" (slo_Labels slice !! LabelServiceName) in
    if bool_decide (serviceName = "") then false
    else existsb (fun target => bool_decide (pst_name target = serviceName) && bool_decide (pst_namespace target = slo_Namespace slice)) targets.
(** [SetupWithManager]: the predicate of the watch, if there is one. *)
Definition endpoint_watch (endpoints : list string) : option (SliceObject -> bool) :=
  let targets := parseProxyServiceTargets endpoints in
  if length targets =? 0 then None else Some (endpointSliceMatchesProxy targets).
End targets.

(** ** One event *)

Section endpoint_reconcile.
Context {hash : Sha256} {codec : JsonConfig}.
(** [gateways] lists the Gateways of the namespace; [None] is a failed list. *)
Definition partitionKeyForLabel (gateways : option (list GatewayObject)) (namespace labelValue : string) : option string :=
  match gateways with
  | None => None
  | Some items =>
      gateway ← List.find (fun gateway => bool_decide (GatewayLabelValue (gw_Name (go_Gateway gateway)) = labelValue)) items;
      Some (namespace +:+ "/" +:+ gw_Name (go_Gateway gateway))
  end.
Definition ResyncEndpoints {W} (dns : list string -> list string) (push : string -> string -> Config -> W -> W * bool)
    (defaultAuthToken : string) (endpoints : list string) (targets : Targets) (w : W) : bool * Targets * W :=
  resyncTarget push sharedPartitionKey (dns endpoints) defaultAuthToken targets w.
(** [list_gateways ns] is the list of a namespace, [range] the order in which the
    map of targets is iterated. *)
Definition Endpoint_Reconcile {W} (dns : list string -> list string) (push : string -> string -> Config -> W -> W * bool)
    (defaultAuthToken : string) (ProxyEndpoints : list string) (list_gateways : string -> option (list GatewayObject))
    (range : Targets -> list (string * pushTarget)) (read : Lookup SliceObject) (targets : Targets) (w : W) : bool * Targets * W :=
  match read with
  | NotFound | Unavailable => ResyncAllPartitions dns push range targets w
  | Found slice =>
      let labelValue := default "" (slo_Labels slice !! GatewayLabel) in
      if negb (bool_decide (labelValue = "")) then
        match partitionKeyForLabel (list_gateways (slo_Namespace slice)) (slo_Namespace slice) labelValue with
        | None => ResyncAllPartitions dns push range targets w
        | Some key => ResyncPartition dns push key targets w
        end
      else ResyncEndpoints dns push defaultAuthToken ProxyEndpoints targets w
  end.
(** An event of a slice, as the watch delivers it: [read] is what the reconcile
    then reads of it. *)
Definition Endpoint_event {parser : UrlParser} {W} (dns : list string -> list string)
    (push : string -> string -> Config -> W -> W * bool) (defaultAuthToken : string) (ProxyEndpoints : list string)
    (list_gateways : string -> option (list GatewayObject)) (range : Targets -> list (string * pushTarget))
    (object : SliceObject) (read : Lookup SliceObject) (targets : Targets) (w : W) : bool * Targets * W :=
  match endpoint_watch ProxyEndpoints with
  | None => (false, targets, w)
  | Some matches =>
      if matches object then Endpoint_Reconcile dns push defaultAuthToken ProxyEndpoints list_gateways range read targets w
      else (false, targets, w)
  end.
End endpoint_reconcile.

(** ** The tunnel token of the shared proxy *)

Definition tokenRevisionAnnotation : string := "cf.k8s.lex.la/tunnel-token-revision".
Inductive TokenSecretError := errEmptyProxyTokenSecret | errInvalidProxyTokenSecret (got : string) | errInvalidProxyDeploymentLabel (got : string).
Record ProxySecretReconciler := mkProxySecretReconciler {
  psr_TokenSecretNamespace : string; psr_TokenSecretName : string; psr_DeploymentLabelKey : string; psr_DeploymentLabelValue : string }.
(** [strings.SplitN(s, sep, 2)] into two non-empty parts. *)
Definition split_pair (s sep : string) : option (string * string) :=
  match Cut s sep with
  | Some (a, b) => if bool_decide (a = "") || bool_decide (b = "") then None else Some (a, b)
  | None => None
  end.
Definition NewProxySecretReconciler (proxyTokenSecret proxyDeploymentLabel : string) : res TokenSecretError ProxySecretReconciler :=
  let proxyTokenSecret := TrimSpace proxyTokenSecret in
  if bool_decide (proxyTokenSecret = "") then Err errEmptyProxyTokenSecret
  else
    match split_pair proxyTokenSecret "/" with
    | None => Err (errInvalidProxyTokenSecret proxyTokenSecret)
    | Some (namespace, name) =>
        let trimmed := TrimSpace proxyDeploymentLabel in
        if bool_decide (trimmed = "") then Ok (mkProxySecretReconciler namespace name "app.kubernetes.io/component" "proxy")
        else
          match split_pair trimmed "=" with
          | None => Err (errInvalidProxyDeploymentLabel proxyDeploymentLabel)
          | Some (labelKey, labelValue) => Ok (mkProxySecretReconciler namespace name labelKey labelValue)
          end
    end.

Definition NUL : string := String "000" EmptyString.
(** What is hashed: every key with its value, by key. *)
Definition secret_content (data : gmap string string) : string :=
  foldr (fun k s => k +:+ "=" +:+ default "" (data !! k) +:+ NUL +:+ s) "" (stable_sort str_ltb (fst <$> map_to_list data)).

(** A Deployment with the fields the reconciler reads and writes. *)
Record RolledDeployment := mkRolledDeployment {
  rd_Namespace : string; rd_Name : string; rd_Labels : gmap string string; rd_TemplateAnnotations : gmap string string }.
Inductive RotationError := errFetchSecret | errListDeployments | errPatch (namespace name : string).

Section rotation.
Context {hash : Sha256} (r : ProxySecretReconciler).
Definition hashSecretData (data : gmap string string) : string := hex_EncodeToString (sha256_Sum (secret_content data)).
Definition matchesTokenSecret (namespace name : string) : bool :=
  bool_decide (namespace = psr_TokenSecretNamespace r) && bool_decide (name = psr_TokenSecretName r).
(** What the list selects in the namespace of the Secret. *)
Definition selected (namespace : string) (dep : RolledDeployment) : bool :=
  bool_decide (rd_Namespace dep = namespace) && bool_decide (rd_Labels dep !! psr_DeploymentLabelKey r = Some (psr_DeploymentLabelValue r)).
Definition revised (revision : string) (dep : RolledDeployment) : RolledDeployment :=
  mkRolledDeployment (rd_Namespace dep) (rd_Name dep) (rd_Labels dep) (<[tokenRevisionAnnotation := revision]> (rd_TemplateAnnotations dep)).
(** The Deployment after it, and whether it was patched; [None] is a refused patch. *)
Definition patchRevision (patch_ok : RolledDeployment -> bool) (revision : string) (dep : RolledDeployment) : option (RolledDeployment * bool) :=
  if bool_decide (default "" (rd_TemplateAnnotations dep !! tokenRevisionAnnotation) = revision) then Some (dep, false)
  else if patch_ok dep then Some (revised revision dep, true) else None.
(** The store after the loop, the number of patches, and the error that ended it. *)
Fixpoint patch_loop (patch_ok : RolledDeployment -> bool) (namespace revision : string) (store : list RolledDeployment)
    : list RolledDeployment * nat * option RotationError :=
  match store with
  | [] => ([], 0, None)
  | dep :: rest =>
      if selected namespace dep then
        match patchRevision patch_ok revision dep with
        | None => (store, 0, Some (errPatch (rd_Namespace dep) (rd_Name dep)))
        | Some (dep', patched) =>
            let '(rest', n, e) := patch_loop patch_ok namespace revision rest in
            (dep' :: rest', if patched : bool then S n else n, e)
        end
      else let '(rest', n, e) := patch_loop patch_ok namespace revision rest in (dep :: rest', n, e)
  end.
(** [listed] is whether the list of Deployments succeeds. *)
Definition Secret_Reconcile (patch_ok : RolledDeployment -> bool) (listed : bool) (namespace : string)
    (read : Lookup (gmap string string)) (store : list RolledDeployment) : list RolledDeployment * nat * option RotationError :=
  match read with
  | NotFound => (store, 0, None)
  | Unavailable => (store, 0, Some errFetchSecret)
  | Found data => if listed then patch_loop patch_ok namespace (hashSecretData data) store else (store, 0, Some errListDeployments)
  end.
End rotation.

(** ** What a replay sends *)

Section sends.
Context {hash : Sha256} {codec : JsonConfig} (dns : list string -> list string) (accepts : Send -> bool).
(** Pushing to endpoints that record what they are sent, and may refuse it. *)
Definition recorder (endpoint token : string) (cfg : Config) (w : list Send) : list Send * bool :=
  let s := mkSend endpoint token cfg in (w ++ [s], accepts s).
(** The replay of a partition: its cached configuration, with its own token, to its own endpoints. *)
Definition partition_sends (key : string) (targets : Targets) : list Send :=
  match replayableTarget key targets with
  | Some (target, cfg) => (fun e => mkSend e (pt_authToken target) cfg) <$> dns (pt_endpointURLs target)
  | None => []
  end.
Definition shared_sends (token : string) (endpoints : list string) (targets : Targets) : list Send :=
  match replayableTarget sharedPartitionKey targets with
  | Some (_, cfg) => (fun e => mkSend e token cfg) <$> dns endpoints
  | None => []
  end.

Lemma push_records cfg resolved token w :
  pushToEndpoints recorder cfg resolved token w =
  (w ++ ((fun e => mkSend e token cfg) <$> resolved), negb (forallb (fun e => accepts (mkSend e token cfg)) resolved)).
Proof.
  revert w. induction resolved as [|e es IH]; intros w; cbn; [by rewrite app_nil_r|]. rewrite IH. cbn.
  rewrite <- app_assoc. cbn. by destruct (accepts _).
Qed.
Lemma resync_records key resolved token targets w :
  (resyncTarget recorder key resolved token targets w).2 =
  w ++ match replayableTarget key targets with Some (_, cfg) => (fun e => mkSend e token cfg) <$> resolved | None => [] end.
Proof.
  unfold resyncTarget. destruct (replayableTarget key targets) as [[target cfg]|]; [|by rewrite app_nil_r].
  rewrite push_records. done.
Qed.
Lemma partition_records key targets w : (ResyncPartition dns recorder key targets w).2 = w ++ partition_sends key targets.
Proof.
  unfold ResyncPartition, partition_sends. destruct (targets !! key) as [target|] eqn:Ht.
  - rewrite resync_records. unfold replayableTarget. rewrite Ht. by destruct (pt_lastCfg target).
  - unfold replayableTarget. by rewrite Ht, app_nil_r.
Qed.
(** A replay changes nothing that a replay reads. *)
Lemma resync_keeps key resolved token targets w key' :
  let targets' := (resyncTarget recorder key resolved token targets w).1.2 in partition_sends key' targets' = partition_sends key' targets.
Proof.
  cbn zeta. unfold resyncTarget. destruct (replayableTarget key targets) as [[target cfg]|] eqn:Hr; [|done]. rewrite push_records. cbn [fst snd].
  unfold recordResync. rewrite Hr. unfold partition_sends, replayableTarget in *. destruct (decide (key = key')) as [<-|Hne].
  - match goal with |- context [@lookup string pushTarget ?M ?I key (<[key := ?v]> targets)] =>
      replace (@lookup string pushTarget M I key (<[key := v]> targets)) with (Some v) by (symmetry; apply lookup_insert_eq) end.
    destruct (targets !! key) as [t|]; [|done]. destruct (pt_lastCfg t) as [c|] eqn:Hc; [|done].
    injection Hr as -> ->. by destruct (negb _); cbn; rewrite Hc.
  - match goal with |- context [@lookup string pushTarget ?M ?I key' (<[key := ?v]> targets)] =>
      replace (@lookup string pushTarget M I key' (<[key := v]> targets)) with (targets !! key') by (symmetry; by apply lookup_insert_ne) end.
    done.
Qed.
(** Every plane of the map once, in some order. *)
Definition every_plane (targets : Targets) (w after : list Send) : Prop :=
  exists keys, keys ≡ₚ (map_to_list targets).*1 /\ after = w ++ (keys ≫= fun key => partition_sends key targets).
Lemma all_records range targets w : range targets ≡ₚ map_to_list targets ->
  every_plane targets w (ResyncAllPartitions dns recorder range targets w).2.
Proof.
  intros Hr. exists ((range targets).*1). split; [by rewrite Hr|]. unfold ResyncAllPartitions. generalize ((range targets).*1). intros keys.
  assert (H : forall failed targets' w', (forall key, partition_sends key targets' = partition_sends key targets) ->
    (foldl (fun '(failed, targets, w) key => let '(failed', targets, w) := ResyncPartition dns recorder key targets w in
       (failed || failed', targets, w)) (failed, targets', w') keys).2 = w' ++ (keys ≫= fun key => partition_sends key targets)).
  { induction keys as [|key keys IH]; intros failed targets' w' Hsame; cbn [foldl mbind list_bind]; [by rewrite app_nil_r|].
    pose proof (partition_records key targets' w') as Hw. destruct (ResyncPartition dns recorder key targets' w') as [[f t] w2] eqn:Hp.
    rewrite IH; [|].
    - cbn in Hw. by rewrite Hw, Hsame, <- app_assoc.
    - intros key'. rewrite <- Hsame. unfold ResyncPartition in Hp. destruct (targets' !! key) as [target|] eqn:Ht; [|by simplify_eq].
      pose proof (resync_keeps key (dns (pt_endpointURLs target)) (pt_authToken target) targets' w' key') as Hk. by rewrite Hp in Hk. }
  by apply H.
Qed.
End sends.

(** ** Attribution *)

Lemma truncateName_nonempty {hash : Sha256} {laws : Sha256Laws hash} n : truncateName n <> "".
Proof.
  destruct (truncateName_cases n) as [(-> & (_ & _ & He) & _)| ->]; [by intros ->|].
  destruct (name_hash_spec n) as [Hl _]. intros H. apply (f_equal String.length) in H. revert H.
  change nameHashLength with 8 in Hl. change (String.length "") with 0.
  case_bool_decide; rewrite ?length_sapp, Hl; [done|]. lia.
Qed.
Lemma targets_exact {parser : UrlParser} endpoints target :
  target ∈ parseProxyServiceTargets endpoints <-> exists raw, raw ∈ endpoints /\ service_target raw = Some target.
Proof.
  unfold parseProxyServiceTargets.
  assert (H : forall out, target ∈ foldl (fun out raw => match service_target raw with
        | Some target => if bool_decide (target ∈ out) then out else out ++ [target] | None => out end) out endpoints <->
      target ∈ out \/ exists raw, raw ∈ endpoints /\ service_target raw = Some target).
  { induction endpoints as [|raw rest IH]; intros out; cbn [foldl]; [set_solver|]. rewrite IH. clear IH.
    destruct (service_target raw) as [t|] eqn:Ht; [|set_solver]. case_bool_decide; set_solver. }
  rewrite H. set_solver.
Qed.
Lemma label_of_resources {hash : Sha256} gateway : resourceLabels gateway !! GatewayLabel = Some (GatewayLabelValue (pl_Name gateway)).
Proof.
  unfold resourceLabels. rewrite !lookup_insert_ne by done. unfold selectorLabels.
  apply lookup_union_Some_l. by rewrite lookup_insert_ne, lookup_singleton_eq.
Qed.

(** The slices the watch delivers, when there is one. *)
Definition slice_watched {parser : UrlParser} (endpoints : list string) (slice : SliceObject) : Prop :=
  (exists label, slo_Labels slice !! GatewayLabel = Some label /\ label <> "") \/
  (exists raw name, raw ∈ endpoints /\ service_target raw = Some (mkProxyServiceTarget (slo_Namespace slice) name) /\
     slo_Labels slice !! LabelServiceName = Some name /\ name <> "").
Lemma endpoint_watch_spec {parser : UrlParser} endpoints :
  match endpoint_watch endpoints with
  | None => forall raw, raw ∈ endpoints -> service_target raw = None
  | Some matches => (exists raw target, raw ∈ endpoints /\ service_target raw = Some target) /\
      forall slice, matches slice = true <-> slice_watched endpoints slice
  end.
Proof.
  unfold endpoint_watch. destruct (parseProxyServiceTargets endpoints) as [|t ts] eqn:Hp; cbn [length Nat.eqb].
  - intros raw Hin. destruct (service_target raw) as [t|] eqn:Ht; [|done].
    assert (t ∈ parseProxyServiceTargets endpoints) as Hi by (apply targets_exact; by exists raw). rewrite Hp in Hi. by apply elem_of_nil in Hi.
  - split; [destruct (proj1 (targets_exact endpoints t)) as (raw & ? & ?); [rewrite Hp; by left|by exists raw, t]|].
    intros slice. rewrite <-Hp. unfold endpointSliceMatchesProxy, slice_watched.
    assert (Hlabel : bool_decide (default "" (slo_Labels slice !! GatewayLabel) = "") = false <->
      exists label, slo_Labels slice !! GatewayLabel = Some label /\ label <> "").
    { rewrite bool_decide_eq_false. destruct (slo_Labels slice !! GatewayLabel); naive_solver. }
    destruct (bool_decide (default "" (slo_Labels slice !! GatewayLabel) = "")) eqn:Hl; cbn [negb]; [|by split; [left; apply Hlabel|]].
    destruct (bool_decide_reflect (default "" (slo_Labels slice !! LabelServiceName) = "")) as [Hs|Hs].
    { split; [done|]. intros [?%Hlabel|(raw & name & _ & _ & Hn & Hne)]; [done|]. by rewrite Hn in Hs. }
    destruct (slo_Labels slice !! LabelServiceName) as [name|]; [|done]. cbn [default from_option id] in *.
    rewrite existsb_exists. split.
    + intros ([ns n] & Hin & [H1%bool_decide_eq_true H2%bool_decide_eq_true]%andb_true_iff). cbn in *. subst ns n.
      apply list_elem_of_In, targets_exact in Hin as (raw & Hin & Ht). right. by exists raw, name.
    + intros [?%Hlabel|(raw & name' & Hin & Ht & [= <-] & Hne)]; [done|]. exists (mkProxyServiceTarget (slo_Namespace slice) name). split.
      * apply list_elem_of_In, targets_exact. by exists raw.
      * cbn. by rewrite !bool_decide_eq_true_2.
Qed.
(** The label of a slice, when it has one that is not empty. *)
Lemma label_cases slice (A : Type) (x y : A) :
  (if negb (bool_decide (default "" (slo_Labels slice !! GatewayLabel) = "")) then x else y) =
  match slo_Labels slice !! GatewayLabel with Some label => if bool_decide (label = "") then y else x | None => y end.
Proof. destruct (slo_Labels slice !! GatewayLabel) as [l|]; cbn; [by destruct (bool_decide (l = ""))|done]. Qed.

(** C28: An endpoint event reaches the proxies it concerns, and only those, when the
    watch is installed: at least one configured endpoint names a Service.  (When all
    are addresses nothing is watched, and no event replays anything, the ones of
    dedicated planes included.)  Then a slice of the Service a Gateway renders, in
    whatever form its labels carry the Gateway's name, replays the cached
    configuration of that Gateway's plane, with its own token, to its own
    endpoints, as long as no other Gateway of the namespace shares the label value;
    a slice of a Service named by a configured endpoint replays the shared
    configuration to the configured endpoints; a watched slice that cannot be read,
    or whose label names no Gateway, replays every plane of the syncer's map once;
    and any other slice replays nothing. *)
Theorem endpoint_event_reaches_plane {hash : Sha256} {laws : Sha256Laws hash} {codec : JsonConfig} {parser : UrlParser}
    dns accepts token endpoints list_gateways range targets w :
  range targets ≡ₚ map_to_list targets ->
  let sent object read := (Endpoint_event dns (recorder accepts) token endpoints list_gateways range object read targets w).2 in
  let watching := exists raw target, raw ∈ endpoints /\ service_target raw = Some target in
  (~ watching -> forall object read, sent object read = w) /\
  (watching ->
   (forall gateway items slice,
      list_gateways (pl_Namespace gateway) = Some items -> pl_Object gateway ∈ items ->
      (forall g, g ∈ items -> GatewayLabelValue (gw_Name (go_Gateway g)) = GatewayLabelValue (pl_Name gateway) ->
         gw_Name (go_Gateway g) = pl_Name gateway) ->
      slo_Namespace slice = pl_Namespace gateway -> resourceLabels gateway ⊆ slo_Labels slice ->
      sent slice (Found slice) = w ++ partition_sends dns (gateway_key (pl_Object gateway)) targets) /\
   (forall raw slice name, raw ∈ endpoints -> service_target raw = Some (mkProxyServiceTarget (slo_Namespace slice) name) ->
      name <> "" -> slo_Labels slice !! LabelServiceName = Some name -> slo_Labels slice !! GatewayLabel = None ->
      sent slice (Found slice) = w ++ shared_sends dns token endpoints targets) /\
   (forall object, slice_watched endpoints object ->
      every_plane dns targets w (sent object NotFound) /\ every_plane dns targets w (sent object Unavailable)) /\
   (forall slice label, slo_Labels slice !! GatewayLabel = Some label -> label <> "" ->
      (forall items g, list_gateways (slo_Namespace slice) = Some items -> g ∈ items -> GatewayLabelValue (gw_Name (go_Gateway g)) <> label) ->
      every_plane dns targets w (sent slice (Found slice))) /\
   (forall object read, ~ slice_watched endpoints object -> sent object read = w)).
Proof.
  intros Hrange sent watching. subst sent watching. cbv beta. unfold Endpoint_event. pose proof (endpoint_watch_spec endpoints) as Hw.
  destruct (endpoint_watch endpoints) as [matches|].
  2:{ split; [done|]. intros (raw & target & Hin & Ht). by rewrite (Hw raw Hin) in Ht. }
  destruct Hw as [Hsome Hm]. split; [by intros []|]. intros _.
  assert (Hpass : forall object, slice_watched endpoints object -> matches object = true) by (intros; by apply Hm).
  unfold Endpoint_Reconcile. refine (conj _ (conj _ (conj _ (conj _ _)))).
  - intros gateway items slice Hl Hin Huniq Hns Hlab.
    assert (Hv : slo_Labels slice !! GatewayLabel = Some (GatewayLabelValue (pl_Name gateway))).
    { eapply lookup_weaken; [apply label_of_resources|exact Hlab]. }
    assert (Hne : GatewayLabelValue (pl_Name gateway) <> "") by apply truncateName_nonempty.
    rewrite Hpass by (left; by eexists). rewrite label_cases, Hv, bool_decide_eq_false_2 by done. cbn [default from_option id].
    rewrite Hns, Hl. unfold partitionKeyForLabel. destruct (List.find _ items) as [g|] eqn:Hf.
    + apply find_some in Hf as [Hg He%bool_decide_eq_true]. apply list_elem_of_In in Hg. cbn [mbind option_bind].
      rewrite (Huniq _ Hg He). apply partition_records.
    + exfalso. pose proof (find_none _ _ Hf (pl_Object gateway)) as Hn. rewrite <- list_elem_of_In in Hn. specialize (Hn Hin).
      by rewrite bool_decide_eq_false in Hn.
  - intros raw slice name Hin Ht Hne Hname Hlab. rewrite Hpass by (right; by exists raw, name). rewrite label_cases, Hlab.
    unfold ResyncEndpoints. rewrite resync_records. unfold shared_sends. by destruct (replayableTarget _ _) as [[? ?]|].
  - intros object Ho. rewrite (Hpass object Ho). split; by apply all_records.
  - intros slice label Hl Hne Hno. rewrite Hpass by (left; by exists label). rewrite label_cases, Hl, bool_decide_eq_false_2 by done.
    cbn [default from_option id].
    unfold partitionKeyForLabel. destruct (list_gateways (slo_Namespace slice)) as [items|] eqn:Hg; [|by apply all_records].
    destruct (List.find _ items) as [g|] eqn:Hf; [|by apply all_records].
    apply find_some in Hf as [Hgi He%bool_decide_eq_true]. apply list_elem_of_In in Hgi. by destruct (Hno items g eq_refl Hgi).
  - intros object read Ho. destruct (matches object) eqn:E; [|done]. by apply Hm in E.
Qed.

Module ResyncExample.
Definition url_of (host : string) : UrlParser := fun _ => Some (mkURL "http" host "" "" "").
Definition edge : PlaneGateway := mkPlaneGateway (mkGatewayObject (mkGateway "edge" "a" [] None) 1 "class" None None) "uid" false ∅ ∅.
Definition cached (endpoint token : string) : pushTarget := mkPushTarget (Some (http_config 3)) "" "" ∅ [endpoint] token 0.
Definition targets : Targets := <["a/edge" := cached "http://edge" "mine"]> {["b/other" := cached "http://other" "theirs"]}.
Definition slice : SliceObject := mkSliceObject "a" (@resourceLabels constant_digest edge).
Definition shared : SliceObject := mkSliceObject "system" {[LabelServiceName := "proxy"]}.
Definition event (parser : UrlParser) (slice : SliceObject) : bool * Targets * list Send :=
  @Endpoint_event constant_digest content_codec parser (list Send) id (recorder (fun _ => true)) "token" ["http://proxy.system.svc:8081"]
    (fun ns => if bool_decide (ns = "a") then Some [pl_Object edge] else None) map_to_list slice (Found slice) targets [].
End ResyncExample.
Lemma endpoint_event_reaches_plane_witness :
  let parser := ResyncExample.url_of "proxy.system.svc:8081" in
  (ResyncExample.event parser ResyncExample.slice).2 = [mkSend "http://edge" "mine" (http_config 3)] /\
  (ResyncExample.event parser ResyncExample.shared).2 = [].
Proof.
  destruct (@endpoint_event_reaches_plane constant_digest constant_digest_laws content_codec (ResyncExample.url_of "proxy.system.svc:8081")
    id (fun _ => true) "token" ["http://proxy.system.svc:8081"]
    (fun ns => if bool_decide (ns = "a") then Some [pl_Object ResyncExample.edge] else None) map_to_list ResyncExample.targets [])
    as (_ & H); [done|].
  destruct H as (Hown & Hshared & _).
  { exists "http://proxy.system.svc:8081", (mkProxyServiceTarget "system" "proxy"). split; [by left|reflexivity]. }
  split.
  - apply (Hown ResyncExample.edge [pl_Object ResyncExample.edge] ResyncExample.slice);
      [reflexivity|by left|by intros g ->%list_elem_of_singleton|reflexivity|reflexivity].
  - apply (Hshared "http://proxy.system.svc:8081" ResyncExample.shared "proxy"); [by left|reflexivity|done|reflexivity|reflexivity].
Defined.

(** Endpoints given by address name no Service: nothing is watched then, the slices
    of dedicated planes included, although the predicate would let them through. *)
Lemma address_endpoints_unwatched :
  @endpoint_watch (ResyncExample.url_of "10.0.0.7:8081") ["http://10.0.0.7:8081"] = None /\
  @endpointSliceMatchesProxy [] ResyncExample.slice = true.
Proof. split; reflexivity. Qed.
(** A Service name without its namespace is not recognised. *)
Lemma bare_service_unrecognised : @service_target (ResyncExample.url_of "proxy:8081") "http://proxy:8081" = None.
Proof. reflexivity. Qed.

(** ** The revision of a token *)

Definition plain_secret (data : gmap string string) : Prop :=
  forall k v, data !! k = Some v -> lacks "="%char k /\ lacks "000"%char v.
Definition secret_entries (data : gmap string string) : list (string * string) :=
  (fun k => (k, default "" (data !! k))) <$> stable_sort str_ltb (fst <$> map_to_list data).
Lemma secret_content_entries data :
  secret_content data = foldr (fun '(k, v) s => k +:+ String "=" (v +:+ String "000" s)) "" (secret_entries data).
Proof. unfold secret_content, secret_entries. induction (stable_sort str_ltb _) as [|k ks IH]; [done|]. cbn [foldr fmap list_fmap]. by rewrite <- IH. Qed.
Lemma secret_entries_spec data k v : (k, v) ∈ secret_entries data <-> data !! k = Some v.
Proof.
  unfold secret_entries. rewrite list_elem_of_fmap. setoid_rewrite elem_of_stable_sort. setoid_rewrite list_elem_of_fmap. split.
  - intros (k' & [= -> ->] & (k2 & v2) & -> & Hin). apply elem_of_map_to_list in Hin. cbn. by rewrite Hin.
  - intros H. exists k. rewrite H. split; [done|]. exists (k, v). split; [done|]. by apply elem_of_map_to_list.
Qed.
Lemma entries_content_inj l1 l2 :
  (forall k v, (k, v) ∈ l1 -> lacks "="%char k /\ lacks "000"%char v) -> (forall k v, (k, v) ∈ l2 -> lacks "="%char k /\ lacks "000"%char v) ->
  foldr (fun '(k, v) s => k +:+ String "=" (v +:+ String "000" s)) "" l1 =
  foldr (fun '(k, v) s => k +:+ String "=" (v +:+ String "000" s)) "" l2 -> l1 = l2.
Proof.
  revert l2. induction l1 as [|[k1 v1] l1 IH]; intros [|[k2 v2] l2] H1 H2; cbn [foldr]; [done|by destruct k2|by destruct k1|].
  intros He. destruct (H1 k1 v1) as [Hk1 Hv1]; [by left|]. destruct (H2 k2 v2) as [Hk2 Hv2]; [by left|].
  apply cut_inj in He as [-> He]; [|done..]. apply cut_inj in He as [-> He]; [|done..]. f_equal. apply IH; [..|done].
  - intros k v Hin. apply H1. by right.
  - intros k v Hin. apply H2. by right.
Qed.
Lemma secret_content_inj data1 data2 :
  plain_secret data1 -> plain_secret data2 -> secret_content data1 = secret_content data2 -> data1 = data2.
Proof.
  intros H1 H2 He. rewrite !secret_content_entries in He. apply entries_content_inj in He.
  - apply map_eq. intros k. destruct (data1 !! k) as [v|] eqn:Hk.
    + apply secret_entries_spec in Hk. rewrite He in Hk. by apply secret_entries_spec in Hk.
    + destruct (data2 !! k) as [v|] eqn:Hk2; [|done]. apply secret_entries_spec in Hk2. rewrite <- He in Hk2. apply secret_entries_spec in Hk2. congruence.
  - intros k v Hin%secret_entries_spec. by eapply H1.
  - intros k v Hin%secret_entries_spec. by eapply H2.
Qed.
(** A value with a zero byte can look like another entry, and the revision stays. *)
Lemma revision_ambiguous :
  let one : gmap string string := {["a" := "x" +:+ NUL +:+ "b=y"]} in
  let two : gmap string string := <["a" := "x"]> {["b" := "y"]} in
  one <> two /\ forall hash, @hashSecretData hash one = @hashSecretData hash two.
Proof.
  cbv zeta. split; [intros H; apply (f_equal (lookup "b")) in H; by vm_compute in H|]. intros hash. reflexivity.
Qed.

Section rotation_spec.
Context {hash : Sha256} {laws : Sha256Laws hash} (r : ProxySecretReconciler) (patch_ok : RolledDeployment -> bool).
Lemma revision_nonempty data : hashSecretData data <> "".
Proof.
  unfold hashSecretData. intros H. apply (f_equal String.length) in H. rewrite hex_Encode_length, sha256_length in H. done.
Qed.
(** What one store becomes: selected Deployments carry the revision, nothing else changes. *)
Definition rolled (namespace revision : string) (before after : RolledDeployment) : Prop :=
  if selected r namespace before then after = revised revision before else after = before.
Definition outdated (namespace revision : string) (dep : RolledDeployment) : bool :=
  selected r namespace dep && negb (bool_decide (default "" (rd_TemplateAnnotations dep !! tokenRevisionAnnotation) = revision)).
Lemma current_revised revision dep :
  revision <> "" -> default "" (rd_TemplateAnnotations dep !! tokenRevisionAnnotation) = revision -> revised revision dep = dep.
Proof.
  intros Hne H. destruct dep as [ns n labels ann]. unfold revised. cbn in *. f_equal.
  destruct (ann !! tokenRevisionAnnotation) as [v|] eqn:Hv; cbn in H; [|done]. subst v. by apply insert_id.
Qed.
Lemma patch_loop_spec namespace revision store :
  revision <> "" ->
  match patch_loop r patch_ok namespace revision store with
  | (after, n, None) => Forall2 (rolled namespace revision) store after /\ n = length (List.filter (outdated namespace revision) store)
  | (after, _, Some (errPatch ns name)) => exists dep, dep ∈ store /\ outdated namespace revision dep = true /\ patch_ok dep = false /\
      (rd_Namespace dep, rd_Name dep) = (ns, name) /\ Forall2 (fun before after => after = before \/ rolled namespace revision before after) store after
  | (_, _, Some _) => False
  end.
Proof.
  intros Hne. induction store as [|dep rest IH]; cbn [patch_loop]; [by split|]. unfold patchRevision.
  destruct (selected r namespace dep) eqn:Hs.
  - destruct (bool_decide_reflect (default "" (rd_TemplateAnnotations dep !! tokenRevisionAnnotation) = revision)) as [Hc|Hc].
    + destruct (patch_loop r patch_ok namespace revision rest) as [[after n] [e|]].
      * destruct e as [| |ns name]; [done..|]. destruct IH as (d & Hin & Ho & Hp & Hk & Hf). exists d.
        split_and!; try done; [by right|]. constructor; [by left|done].
      * destruct IH as [Hf ->]. split.
        -- constructor; [|done]. unfold rolled. rewrite Hs. by rewrite current_revised.
        -- cbn [List.filter]. unfold outdated at 2. by rewrite Hs, bool_decide_eq_true_2.
    + destruct (patch_ok dep) eqn:Hp.
      * destruct (patch_loop r patch_ok namespace revision rest) as [[after n] [e|]].
        -- destruct e as [| |ns name]; [done..|]. destruct IH as (d & Hin & Ho & Hpd & Hk & Hf). exists d.
           split_and!; try done; [by right|]. constructor; [|done]. right. unfold rolled. by rewrite Hs.
        -- destruct IH as [Hf ->]. split; [constructor; [|done]; unfold rolled; by rewrite Hs|].
           cbn [List.filter]. unfold outdated at 2. by rewrite Hs, bool_decide_eq_false_2.
      * exists dep. split_and!; [by left| |done|done|].
        -- unfold outdated. by rewrite Hs, bool_decide_eq_false_2.
        -- clear. induction (dep :: rest) as [|d ds IHd]; constructor; [by left|done].
  - destruct (patch_loop r patch_ok namespace revision rest) as [[after n] [e|]].
    + destruct e as [| |ns name]; [done..|]. destruct IH as (d & Hin & Ho & Hp & Hk & Hf). exists d.
      split_and!; try done; [by right|]. constructor; [by left|done].
    + destruct IH as [Hf ->]. split; [constructor; [|done]; unfold rolled; by rewrite Hs|].
      cbn [List.filter]. unfold outdated at 2. by rewrite Hs.
Qed.

Lemma rolled_settled namespace revision store after :
  revision <> "" -> Forall2 (rolled namespace revision) store after ->
  forall patch_ok', patch_loop r patch_ok' namespace revision after = (after, 0, None).
Proof.
  intros Hne Hf patch_ok'. induction Hf as [|d d' ds ds' Hd Hf IH]; cbn [patch_loop]; [done|]. rewrite IH.
  unfold rolled in Hd. destruct (selected r namespace d) eqn:Hs; subst d'; [|by rewrite Hs].
  assert (selected r namespace (revised revision d) = true) as -> by exact Hs.
  unfold patchRevision. cbn [revised rd_TemplateAnnotations]. rewrite lookup_insert_eq. cbn [default from_option id].
  by rewrite bool_decide_eq_true_2.
Qed.

(** A rotated tunnel token rolls the proxies, once.  After a reconcile of the
    token's Secret that reports no error, every selected Deployment of its
    namespace carries the revision of the Secret's data, nothing else of the
    cluster changed, and reconciling again patches nothing; it patched the
    Deployments whose revision was another one.  A reconcile that fails was refused
    a patch that was due, and left every Deployment as it was or revised.  Two
    contents without zero bytes in their values are only given the same input to
    the digest when they are the same. *)
Theorem token_rotation_rolls namespace data store :
  let revision := hashSecretData data in
  let '(after, n, e) := Secret_Reconcile r patch_ok true namespace (Found data) store in
  match e with
  | None =>
      Forall2 (rolled namespace revision) store after /\ n = length (List.filter (outdated namespace revision) store) /\
      forall patch_ok', Secret_Reconcile r patch_ok' true namespace (Found data) after = (after, 0, None)
  | Some (errPatch ns name) =>
      (exists dep, dep ∈ store /\ outdated namespace revision dep = true /\ patch_ok dep = false /\ (rd_Namespace dep, rd_Name dep) = (ns, name)) /\
      Forall2 (fun before after => after = before \/ rolled namespace revision before after) store after
  | Some _ => False
  end /\
  forall data', plain_secret data -> plain_secret data' -> secret_content data' = secret_content data -> data' = data.
Proof.
  cbv zeta. unfold Secret_Reconcile. pose proof (patch_loop_spec namespace (hashSecretData data) store (revision_nonempty data)) as H.
  destruct (patch_loop r patch_ok namespace (hashSecretData data) store) as [[after n] e]. split.
  - destruct e as [[| |ns name]|]; [done..| |].
    + destruct H as (dep & ? & ? & ? & ? & Hf). split; [by exists dep|done].
    + destruct H as [Hf ->]. split_and!; [done|done|]. intros patch_ok'. eapply rolled_settled; [apply revision_nonempty|exact Hf].
  - intros data' H1 H2. by apply secret_content_inj.
Qed.
End rotation_spec.

(** A reference [<namespace>/<name>] is read back as it was written. *)
Lemma token_secret_read_back namespace name :
  namespace <> "" -> name <> "" -> lacks "/"%char namespace -> TrimSpace (namespace +:+ "/" +:+ name) = namespace +:+ "/" +:+ name ->
  NewProxySecretReconciler (namespace +:+ "/" +:+ name) "" = Ok (mkProxySecretReconciler namespace name "app.kubernetes.io/component" "proxy").
Proof.
  intros Hns Hn Hl Ht. unfold NewProxySecretReconciler. rewrite Ht. change (TrimSpace "") with "". rewrite (bool_decide_eq_false_2 (namespace +:+ "/" +:+ name = "")).
  - unfold split_pair. change ("/" +:+ name) with (String "/" name). rewrite (Cut_byte_app namespace "/"%char name Hl).
    by rewrite (bool_decide_eq_false_2 (namespace = "")), (bool_decide_eq_false_2 (name = "")).
  - intros H. apply (f_equal String.length) in H. rewrite !length_sapp in H. cbn in H. lia.
Qed.

Module RotationExample.
Definition watcher : ProxySecretReconciler := mkProxySecretReconciler "system" "token" "app.kubernetes.io/component" "proxy".
Definition proxy : RolledDeployment := mkRolledDeployment "system" "proxy" {["app.kubernetes.io/component" := "proxy"]} ∅.
Definition other : RolledDeployment := mkRolledDeployment "system" "db" ∅ ∅.
Definition token : gmap string string := {["tunnel-token" := "t"]}.
End RotationExample.
Lemma token_rotation_rolls_witness :
  exists after, @Secret_Reconcile constant_digest RotationExample.watcher (fun _ => true) true "system" (Found RotationExample.token)
                  [RotationExample.proxy; RotationExample.other] = (after, 1, None) /\
    Forall2 (@rolled RotationExample.watcher "system" (@hashSecretData constant_digest RotationExample.token))
      [RotationExample.proxy; RotationExample.other] after.
Proof.
  destruct (@token_rotation_rolls constant_digest constant_digest_laws RotationExample.watcher (fun _ => true) "system" RotationExample.token
    [RotationExample.proxy; RotationExample.other]) as [(Hf & _ & _) _].
  eexists. split; [reflexivity|]. exact Hf.
Defined.
