(* ===== verification/ProxyMain.v ===== *)
(** * The proxy process ([cmd/proxy/main.go], [internal/tunnel/bootstrap.go])

    How the environment configures the data plane, and the life of the process in
    tunnel mode: waiting for a first configuration, dialling the edge, and the two
    stages of its shutdown, as a step relation of its goroutines. *)
From Stdlib Require Import Ascii.
From stdpp Require Import sorting.
From stdpp Require Import base relations sets gmap strings list.
From S2P Require Import Prelude GoStrings GoHttp ProxyConfig Router RouterState Converter ConfigResolver.

(** ** The environment *)

(** [os.Getenv]: unset variables are empty. *)
Notation Env := (string -> string).
Definition envOrDefault (env : Env) (key defaultValue : string) : string :=
  if negb (bool_decide (env key = "")) then env key else defaultValue.
Definition truthyEnvOne : string := "1".
Definition truthyEnvTrue : string := "true".
Definition isTruthyEnv (env : Env) (name : string) : bool :=
  let raw := ToLower (TrimSpace (env name)) in
  bool_decide (raw = truthyEnvOne) || bool_decide (raw = truthyEnvTrue).
Definition tracingEnabled (env : Env) : bool := isTruthyEnv env "PROXY_TRACING_ENABLED".
Definition accessLogEnabled (env : Env) : bool := isTruthyEnv env "PROXY_ACCESS_LOG_ENABLED".
Definition metricsEnabled (env : Env) : bool :=
  let raw := ToLower (TrimSpace (env "PROXY_METRICS_ENABLED")) in
  negb (bool_decide (raw = "0")) && negb (bool_decide (raw = "false")).

(** [strconv.ParseFloat] *)
Class FloatParser := { Float : Type; float_one : Float; ParseFloat : string -> option Float }.
(** Durations in nanoseconds. *)
Definition defaultStartupProtocolWait : Z := 30000000000.
Definition defaultGracePeriod : Z := 30000000000.
(** [connection.MaxGracePeriod] of cloudflared *)
Definition MaxGracePeriod : Z := 180000000000.
(** [proxy/handler_websocket.go] *)
Definition defaultWSDialTimeout : Z := 30000000000.
Definition defaultWSHandshakeReadTimeout : Z := 30000000000.
Definition defaultConfigAddr : string := ":8081".
Definition defaultProxyAddr : string := ":8080".

Section options.
Context {durations : DurationParser} {floats : FloatParser} (env : Env).
Definition parseEnvDuration (name : string) : Z :=
  if bool_decide (env name = "") then 0%Z else match ParseDuration (env name) with Ok parsed => parsed | Err _ => 0%Z end.
Definition startupProtocolWait : Z :=
  let d := parseEnvDuration "PROXY_TUNNEL_PROTOCOL_WAIT" in if (0 <? d)%Z then d else defaultStartupProtocolWait.
Definition parseSampleRateEnv (name : string) : Float :=
  let raw := TrimSpace (env name) in
  if bool_decide (raw = "") then float_one else default float_one (ParseFloat raw).
Definition parseWSEnvDurations : Z * Z := (parseEnvDuration "PROXY_WS_DIAL_TIMEOUT", parseEnvDuration "PROXY_WS_HANDSHAKE_TIMEOUT").
Inductive HandlerOption :=
| WithWSDialTimeout (d : Z) | WithWSHandshakeReadTimeout (d : Z) | WithAccessLog (rate : Float) | WithAccessLogStripQuery | WithTracing | WithMetrics.
Definition wsHandlerOptions : list HandlerOption :=
  let '(dialTimeout, handshakeTimeout) := parseWSEnvDurations in
  (if (0 <? dialTimeout)%Z then [WithWSDialTimeout dialTimeout] else []) ++
  (if (0 <? handshakeTimeout)%Z then [WithWSHandshakeReadTimeout handshakeTimeout] else []).
Definition accessLogHandlerOption : option HandlerOption :=
  if negb (accessLogEnabled env) then None else Some (WithAccessLog (parseSampleRateEnv "PROXY_ACCESS_LOG_SAMPLING_RATE")).
Definition accessLogStripQueryOption : option HandlerOption :=
  if negb (accessLogEnabled env) then None
  else if negb (isTruthyEnv env "PROXY_ACCESS_LOG_STRIP_QUERY") then None else Some WithAccessLogStripQuery.
Definition tracingHandlerOption : option HandlerOption := if negb (tracingEnabled env) then None else Some WithTracing.
Definition handlerOptions : list HandlerOption :=
  wsHandlerOptions ++ option_list accessLogHandlerOption ++ option_list accessLogStripQueryOption ++ option_list tracingHandlerOption.
Definition parseTracingSampleRate : Float := parseSampleRateEnv "PROXY_TRACING_SAMPLE_RATE".
Record TracingConfig := mkTracingConfig { trc_Enabled : bool; trc_Endpoint : string; trc_SampleRate : Float; trc_ServiceName : string }.
Definition tracingConfigFromEnv : TracingConfig :=
  mkTracingConfig (tracingEnabled env) (TrimSpace (env "PROXY_TRACING_ENDPOINT")) parseTracingSampleRate "proxy".

(** *** The options on the handler *)

(** The knobs of a [Handler]: its two WebSocket timeouts, the access log with its rate,
    and what is on. *)
Record HandlerConfig := mkHandlerConfig {
  hc_wsDialTimeout : Z; hc_wsHandshakeReadTimeout : Z; hc_accessLog : option Float; hc_accessLogStripQuery : bool;
  hc_tracingEnabled : bool; hc_metrics : bool }.
Definition apply_option (h : HandlerConfig) (opt : HandlerOption) : HandlerConfig :=
  match opt with
  | WithWSDialTimeout d =>
      mkHandlerConfig (if (0 <? d)%Z then d else hc_wsDialTimeout h) (hc_wsHandshakeReadTimeout h) (hc_accessLog h) (hc_accessLogStripQuery h)
        (hc_tracingEnabled h) (hc_metrics h)
  | WithWSHandshakeReadTimeout d =>
      mkHandlerConfig (hc_wsDialTimeout h) (if (0 <? d)%Z then d else hc_wsHandshakeReadTimeout h) (hc_accessLog h) (hc_accessLogStripQuery h)
        (hc_tracingEnabled h) (hc_metrics h)
  | WithAccessLog rate =>
      mkHandlerConfig (hc_wsDialTimeout h) (hc_wsHandshakeReadTimeout h) (Some rate) (hc_accessLogStripQuery h) (hc_tracingEnabled h) (hc_metrics h)
  | WithAccessLogStripQuery =>
      mkHandlerConfig (hc_wsDialTimeout h) (hc_wsHandshakeReadTimeout h) (hc_accessLog h) true (hc_tracingEnabled h) (hc_metrics h)
  | WithTracing =>
      mkHandlerConfig (hc_wsDialTimeout h) (hc_wsHandshakeReadTimeout h) (hc_accessLog h) (hc_accessLogStripQuery h) true (hc_metrics h)
  | WithMetrics =>
      mkHandlerConfig (hc_wsDialTimeout h) (hc_wsHandshakeReadTimeout h) (hc_accessLog h) (hc_accessLogStripQuery h) (hc_tracingEnabled h) true
  end.
Definition NewHandler (opts : list HandlerOption) : HandlerConfig := foldl apply_option (mkHandlerConfig 0 0 None false false false) opts.
Definition effectiveWSDialTimeout (h : HandlerConfig) : Z := if (0 <? hc_wsDialTimeout h)%Z then hc_wsDialTimeout h else defaultWSDialTimeout.
Definition effectiveWSHandshakeReadTimeout (h : HandlerConfig) : Z :=
  if (0 <? hc_wsHandshakeReadTimeout h)%Z then hc_wsHandshakeReadTimeout h else defaultWSHandshakeReadTimeout.
(** The option, and whether the config API serves [/metrics]. *)
Definition buildProxyMetrics : option HandlerOption * bool := if negb (metricsEnabled env) then (None, false) else (Some WithMetrics, true).
(** The handler, the token of the config API, and whether it exposes the metrics. *)
Definition buildDataPlane : HandlerConfig * string * bool :=
  let opts := handlerOptions in
  let '(metricsOpt, metricsHandler) := buildProxyMetrics in
  (NewHandler (opts ++ option_list metricsOpt), env "PROXY_AUTH_TOKEN", metricsHandler).

(** The environment decides the handler: a positive timeout that parses replaces the
    default of 30 seconds and nothing else does, the log is on when asked for, with the
    parsed rate or all requests, the query is only stripped from a log that is on, and
    the metrics are on, and served, unless they are refused. *)
Lemma data_plane_from_env :
  let '(h, token, metricsHandler) := buildDataPlane in
  let timeout name := let d := parseEnvDuration name in if (0 <? d)%Z then d else 30000000000%Z in
  effectiveWSDialTimeout h = timeout "PROXY_WS_DIAL_TIMEOUT" /\
  effectiveWSHandshakeReadTimeout h = timeout "PROXY_WS_HANDSHAKE_TIMEOUT" /\
  hc_accessLog h = (if isTruthyEnv env "PROXY_ACCESS_LOG_ENABLED" then Some (parseSampleRateEnv "PROXY_ACCESS_LOG_SAMPLING_RATE") else None) /\
  (hc_accessLogStripQuery h = true <-> isTruthyEnv env "PROXY_ACCESS_LOG_ENABLED" = true /\ isTruthyEnv env "PROXY_ACCESS_LOG_STRIP_QUERY" = true) /\
  hc_tracingEnabled h = isTruthyEnv env "PROXY_TRACING_ENABLED" /\ hc_metrics h = metricsEnabled env /\ metricsHandler = metricsEnabled env.
Proof.
  unfold buildDataPlane, buildProxyMetrics, handlerOptions, wsHandlerOptions, parseWSEnvDurations, accessLogHandlerOption, accessLogStripQueryOption,
    tracingHandlerOption, accessLogEnabled, tracingEnabled, effectiveWSDialTimeout, effectiveWSHandshakeReadTimeout.
  set (d := parseEnvDuration "PROXY_WS_DIAL_TIMEOUT"). set (r := parseEnvDuration "PROXY_WS_HANDSHAKE_TIMEOUT").
  destruct (metricsEnabled env), (isTruthyEnv env "PROXY_ACCESS_LOG_ENABLED"), (isTruthyEnv env "PROXY_ACCESS_LOG_STRIP_QUERY"),
    (isTruthyEnv env "PROXY_TRACING_ENABLED"), (0 <? d)%Z eqn:Hd, (0 <? r)%Z eqn:Hr; cbn; rewrite ?Hd, ?Hr; cbn; rewrite ?Hd, ?Hr; cbn; rewrite ?Hd, ?Hr;
    (split_and!; try done; tauto).
Qed.
Definition resolveGracePeriod (period : Z) : Z :=
  if (period <=? 0)%Z then defaultGracePeriod else if (MaxGracePeriod <? period)%Z then MaxGracePeriod else period.
End options.

(** The transport flag of cloudflared; [None] is an unknown protocol. *)
Definition resolveProtocolFlag (protocol : string) : option string :=
  let p := ToLower (TrimSpace protocol) in
  if bool_decide (p = "") || bool_decide (p = "auto") then Some "auto"
  else if bool_decide (p = "http2") then Some "http2"
  else if bool_decide (p = "quic") then Some "quic"
  else None.

(** ** The goroutines of tunnel mode *)

(** How [StartTunnel] ended. *)
Inductive TunnelExit := tunnel_done | tunnel_canceled | tunnel_failed.
Inductive SignalThread := SigWaiting | SigDraining | SigExited.
(** The main goroutine between its steps: before the transport is resolved, before
    the drain check, after it, while the daemon runs, after it returned, before the
    exit. *)
Inductive MainThread :=
| MainResolving | MainResolved (protocol : string) | MainChecked (protocol : string) | MainTunnel (protocol : string)
| MainReturned (exit : TunnelExit) | MainShutdown (exit : TunnelExit) | MainExited (code : Z).
(** What happened, the latest first. *)
Inductive ProcessEvent := ev_signal | ev_drain | ev_force | ev_dial (protocol : string) | ev_connected | ev_server_failed.
Record Process := mkProcess {
  pr_pending : nat;                     (* signals in the channel *)
  pr_signals : SignalThread;
  pr_main : MainThread;
  pr_drained : bool;                    (* [graceC] is closed *)
  pr_cancelled : bool;                  (* the context *)
  pr_dialed : string;                   (* [Router.SetDialedProtocol] *)
  pr_connected : bool;                  (* [Router.SetTunnelConnected] *)
  pr_log : list ProcessEvent }.
Definition process_start : Process := mkProcess 0 SigWaiting MainResolving false false "" false [].
Definition with_main (m : MainThread) (s : Process) : Process :=
  mkProcess (pr_pending s) (pr_signals s) m (pr_drained s) (pr_cancelled s) (pr_dialed s) (pr_connected s) (pr_log s).
Definition cancel_ctx (s : Process) : Process :=
  mkProcess (pr_pending s) (pr_signals s) (pr_main s) (pr_drained s) true (pr_dialed s) (pr_connected s) (pr_log s).
Definition logged (e : ProcessEvent) (s : Process) : Process :=
  mkProcess (pr_pending s) (pr_signals s) (pr_main s) (pr_drained s) (pr_cancelled s) (pr_dialed s) (pr_connected s) (e :: pr_log s).
Definition exited (s : Process) : bool := match pr_main s with MainExited _ => true | _ => false end.

(** [signal.Notify] on a channel of two: a third signal in a row is dropped. *)
Definition os_signal (s : Process) : Process :=
  logged ev_signal (mkProcess (if pr_pending s <? 2 then S (pr_pending s) else pr_pending s) (pr_signals s) (pr_main s) (pr_drained s)
                      (pr_cancelled s) (pr_dialed s) (pr_connected s) (pr_log s)).
(** [handleDrainSignals]: what its goroutine may do next. *)
Inductive handleDrainSignals (s : Process) : Process -> Prop :=
| drain_first : pr_signals s = SigWaiting -> 0 < pr_pending s ->
    handleDrainSignals s (logged ev_drain (mkProcess (pred (pr_pending s)) SigDraining (pr_main s) true (pr_cancelled s) (pr_dialed s) (pr_connected s) (pr_log s)))
| drain_second : pr_signals s = SigDraining -> 0 < pr_pending s ->
    handleDrainSignals s (logged ev_force (mkProcess (pred (pr_pending s)) SigExited (pr_main s) (pr_drained s) true (pr_dialed s) (pr_connected s) (pr_log s)))
| drain_ctx : pr_signals s <> SigExited -> pr_cancelled s = true ->
    handleDrainSignals s (mkProcess (pr_pending s) SigExited (pr_main s) (pr_drained s) (pr_cancelled s) (pr_dialed s) (pr_connected s) (pr_log s)).
(** Which branch of the [select] of [ResolveStartupProtocol] can be taken. *)
Definition startup_ready (configured : string) (event : StartupEvent) (s : Process) : Prop :=
  match event with
  | drained => pr_drained s = true
  | ctxDone => pr_cancelled s = true
  | firstConfig _ | waitExpired => True
  end.
(** [errors.Is(err, context.Canceled)] spares the exit code. *)
Definition exit_code (e : TunnelExit) : Z := match e with tunnel_failed => 1 | _ => 0 end.
(** [runTunnelMode], and the goroutines it starts: the config server that can fail,
    [waitConnected] of [StartTunnel], and the daemon that ends on its own time. *)
Inductive main_step (configured : string) (s : Process) : Process -> Prop :=
| main_resolve event : pr_main s = MainResolving -> startup_ready configured event s ->
    main_step configured s (let p := ResolveStartupProtocol configured event in
      mkProcess (pr_pending s) (pr_signals s) (MainResolved p) (pr_drained s) (pr_cancelled s) p (pr_connected s) (pr_log s))
| main_skip p : pr_main s = MainResolved p -> pr_drained s = true ->
    main_step configured s (with_main (MainShutdown tunnel_done) (cancel_ctx s))
| main_check p : pr_main s = MainResolved p -> pr_drained s = false -> main_step configured s (with_main (MainChecked p) s)
| main_dial p : pr_main s = MainChecked p -> main_step configured s (logged (ev_dial p) (with_main (MainTunnel p) s))
| main_after e : pr_main s = MainReturned e -> main_step configured s (with_main (MainShutdown e) (cancel_ctx s))
| main_exit e : pr_main s = MainShutdown e -> main_step configured s (with_main (MainExited (exit_code e)) s).
Inductive process_step (configured : string) (s : Process) : Process -> Prop :=
| step_signal : exited s = false -> process_step configured s (os_signal s)
| step_drain s' : exited s = false -> handleDrainSignals s s' -> process_step configured s s'
| step_main s' : main_step configured s s' -> process_step configured s s'
| step_server : exited s = false -> ev_server_failed ∉ pr_log s -> process_step configured s (logged ev_server_failed (cancel_ctx s))
| step_connected p : exited s = false -> ev_dial p ∈ pr_log s -> pr_connected s = false ->
    process_step configured s (logged ev_connected (mkProcess (pr_pending s) (pr_signals s) (pr_main s) (pr_drained s) (pr_cancelled s) (pr_dialed s) true (pr_log s)))
| step_tunnel p e : pr_main s = MainTunnel p -> process_step configured s (with_main (MainReturned e) s).

(** *** Standalone mode *)

(** What the [select] of [waitForShutdown] saw: a signal, or how a server ended. *)
Inductive ServeResult := ErrServerClosed | ServeError.
Inductive ShutdownCause := GotSignal | ServerEnded (err : option ServeResult).
Definition waitForShutdown (cause : ShutdownCause) : bool :=
  match cause with ServerEnded (Some ServeError) => true | _ => false end.
(** [runStandaloneMode]: the exit code. *)
Definition runStandaloneMode (cause : ShutdownCause) : Z := if waitForShutdown cause then 1 else 0.

(** ** Invariants *)

Definition is_signal (e : ProcessEvent) : bool := match e with ev_signal => true | _ => false end.
Definition is_drain (e : ProcessEvent) : bool := match e with ev_drain => true | _ => false end.
Definition is_force (e : ProcessEvent) : bool := match e with ev_force => true | _ => false end.
Definition is_failure (e : ProcessEvent) : bool := match e with ev_server_failed => true | _ => false end.
Definition is_connected (e : ProcessEvent) : bool := match e with ev_connected => true | _ => false end.
Definition times (kind : ProcessEvent -> bool) (s : Process) : nat := length (List.filter kind (pr_log s)).
Fixpoint dials_of (log : list ProcessEvent) : list string :=
  match log with [] => [] | ev_dial p :: rest => p :: dials_of rest | _ :: rest => dials_of rest end.
Definition dials (s : Process) : list string := dials_of (pr_log s).
Definition resolved (configured : string) (p : string) : Prop := exists event, p = ResolveStartupProtocol configured event.
(** What each position of the main goroutine knows: the transport it carries is the
    one the router recorded, and the edge was dialled with it at most once. *)
Definition main_inv (configured : string) (s : Process) : Prop :=
  match pr_main s with
  | MainResolving => pr_dialed s = "" /\ dials s = []
  | MainResolved p | MainChecked p => p = pr_dialed s /\ resolved configured p /\ dials s = []
  | MainTunnel p => p = pr_dialed s /\ resolved configured p /\ dials s = [p]
  | MainReturned _ => resolved configured (pr_dialed s) /\ dials s = [pr_dialed s]
  | MainShutdown e => resolved configured (pr_dialed s) /\ (dials s = [pr_dialed s] \/ dials s = [] /\ e = tunnel_done /\ pr_drained s = true)
  | MainExited code => resolved configured (pr_dialed s) /\ (dials s = [pr_dialed s] \/ dials s = [] /\ code = 0%Z /\ pr_drained s = true)
  end.
Definition main_done (m : MainThread) : Prop := match m with MainShutdown _ | MainExited _ => True | _ => False end.
(** The signal goroutine: drains before it forces, once each, and a signal for each. *)
Definition signals_inv (s : Process) : Prop :=
  times is_drain s + times is_force s + pr_pending s <= times is_signal s /\
  (pr_drained s = true <-> times is_drain s = 1) /\
  match pr_signals s with
  | SigWaiting => times is_drain s = 0 /\ times is_force s = 0
  | SigDraining => times is_drain s = 1 /\ times is_force s = 0
  | SigExited => times is_force s <= times is_drain s <= 1
  end.
Record process_inv (configured : string) (s : Process) : Prop := mkProcessInv {
  pi_signals : signals_inv s;
  pi_cancelled : pr_cancelled s = true -> times is_force s = 1 \/ times is_failure s = 1 \/ main_done (pr_main s);
  pi_failures : times is_failure s <= 1;
  pi_connected : if pr_connected s then times is_connected s = 1 /\ dials s <> [] else times is_connected s = 0;
  pi_main : main_inv configured s }.
Lemma process_start_inv configured : process_inv configured process_start.
Proof. split; cbn; try done; try lia. Qed.
Lemma no_failures s : ev_server_failed ∉ pr_log s -> times is_failure s = 0.
Proof.
  unfold times. induction (pr_log s) as [|e log IH]; [done|]. intros H.
  rewrite not_elem_of_cons in H. destruct H as [He H]. destruct e; cbn; by try apply IH.
Qed.
Lemma dialed_in p log : ev_dial p ∈ log -> dials_of log <> [].
Proof. induction log as [|e log IH]; intros H; [by apply not_elem_of_nil in H|]. apply elem_of_cons in H as [<-|H]; [done|]. destruct e; cbn; by try apply IH. Qed.

(** Exposes the fields of the state after a step, and the invariant's clauses. *)
Ltac process_cbn :=
  unfold signals_inv, main_inv, times, dials, main_done in *;
  cbn [pr_pending pr_signals pr_main pr_drained pr_cancelled pr_dialed pr_connected pr_log logged with_main cancel_ctx os_signal
       is_signal is_drain is_force is_failure is_connected List.filter length dials_of] in *.
Lemma signal_inv configured s : process_inv configured s -> process_inv configured (os_signal s).
Proof.
  intros [(H1 & H2 & H3) H4 H5 H6 H7]. split; process_cbn; try done.
  split_and!; [destruct (Nat.ltb_spec (pr_pending s) 2); lia|done|done].
Qed.
Lemma drain_inv configured s s' : process_inv configured s -> handleDrainSignals s s' -> process_inv configured s'.
Proof.
  intros [(H1 & H2 & H3) H4 H5 H6 H7] Hs. destruct Hs as [Hw Hp|Hw Hp|Hw Hc]; (split; process_cbn; try done).
  - rewrite Hw in H3. split_and!; lia.
  - destruct (pr_main s); try done; tauto.
  - rewrite Hw in H3. split_and!; try lia. done.
  - rewrite Hw in H3. lia.
  - split; [done|]. split; [done|]. destruct (pr_signals s); lia.
Qed.
Lemma process_main_inv configured s s' : process_inv configured s -> main_step configured s s' -> process_inv configured s'.
Proof.
  intros [(H1 & H2 & H3) H4 H5 H6 H7] Hs.
  destruct Hs as [event Hm _|p Hm Hd|p Hm Hd|p Hm|e Hm|e Hm]; (split; process_cbn; rewrite ?Hm in *; try done).
  - split_and!; [done|by exists event|tauto].
  - tauto.
  - destruct H7 as (-> & Hr & Hn). split; [done|by right].
  - by destruct (pr_connected s); [destruct H6|].
  - destruct H7 as (-> & Hr & ->). done.
  - tauto.
  - destruct H7 as [Hr Hn]. split; [done|by left].
  - destruct H7 as [Hr [Hn|(Hn & -> & Hd)]]; (split; [done|]); [by left|by right].
Qed.
Lemma process_step_inv configured s s' : process_inv configured s -> process_step configured s s' -> process_inv configured s'.
Proof.
  intros Hi Hs. destruct Hs as [_|s' _ Hs|s' Hs|He Hf|p He Hp Hc|p e Hm].
  - by apply signal_inv.
  - by eapply drain_inv.
  - by eapply process_main_inv.
  - apply no_failures in Hf. destruct Hi as [(H1 & H2 & H3) H4 H5 H6 H7]. split; process_cbn; try done; lia.
  - apply dialed_in in Hp. destruct Hi as [(H1 & H2 & H3) H4 H5 H6 H7]. rewrite Hc in H6. split; process_cbn; try done. by rewrite H6.
  - destruct Hi as [(H1 & H2 & H3) H4 H5 H6 H7]. split; process_cbn; rewrite ?Hm in *; try done.
    destruct H7 as (-> & Hr & Hn). done.
Qed.
Lemma process_reachable_inv configured s : rtc (process_step configured) process_start s -> process_inv configured s.
Proof. revert s. apply rtc_ind_r; [apply process_start_inv|]. intros x y _ Hs IH. by eapply process_step_inv. Qed.

(** [resolveProtocolFlag] knows every transport [ResolveStartupProtocol] returns. *)
Lemma resolved_flag configured p : resolved configured p -> resolveProtocolFlag p = Some p.
Proof.
  intros [event ->]. unfold ResolveStartupProtocol.
  repeat case_match; done.
Qed.
Lemma drained_quiet configured s : process_inv configured s -> pr_drained s = true ->
  match pr_main s with MainResolving | MainResolved _ => True | MainShutdown e => e = tunnel_done | MainExited code => code = 0%Z | _ => False end ->
  forall s', rtc (process_step configured) s s' ->
  dials s' = dials s /\ match pr_main s' with MainExited code => code = 0%Z | _ => True end.
Proof.
  intros Hi Hd Hm s' Hr.
  enough (H : dials s' = dials s /\ pr_drained s' = true /\
    match pr_main s' with MainResolving | MainResolved _ => True | MainShutdown e => e = tunnel_done | MainExited code => code = 0%Z | _ => False end)
    by (destruct H as (-> & _ & H); split; [done|by destruct (pr_main s')]).
  revert s' Hr. apply rtc_ind_r; [done|]. intros s' s'' _ Hs (IH1 & IH2 & IH3).
  rewrite <- IH1. clear IH1 Hi Hd Hm.
  destruct Hs as [_|? _ [? ?|? ?|? ?]|? [? Hx ?|? Hx ?|? Hx ?|? Hx|? Hx|? Hx]|_ ?|? _ _ _|? ? Hx];
    cbn; try done; rewrite Hx in IH3; try done; [congruence|by subst].
Qed.

(** ** Properties *)

(** C33: The shutdown of tunnel mode is staged. In every reachable state: connectors drain
    at most once, and only for a received signal; the context that keeps in-flight
    requests alive is cancelled before the daemon has returned only by a second
    signal, or by the failure of the config server; the edge is dialled at most once,
    over a transport that [ResolveStartupProtocol] chose, that the router recorded and
    that [resolveProtocolFlag] accepts; readiness flips only after that dial, once;
    and a process that never dialled exits 0. *)
Theorem tunnel_shutdown_staged (configured : string) (s : Process)
    (Hreach : rtc (process_step configured) process_start s) :
  (pr_drained s = true -> times is_drain s = 1 /\ 1 <= times is_signal s) /\ times is_drain s <= 1 /\
  (pr_cancelled s = true -> main_done (pr_main s) \/ times is_failure s = 1 \/ (times is_force s = 1 /\ times is_drain s = 1 /\ 2 <= times is_signal s)) /\
  (forall p, dials s <> [] -> p ∈ dials s -> dials s = [p] /\ pr_dialed s = p /\ resolved configured p /\ resolveProtocolFlag p = Some p) /\
  (pr_connected s = true -> times is_connected s = 1 /\ dials s <> []) /\
  (forall code, pr_main s = MainExited code -> dials s = [] -> code = 0%Z /\ 1 <= times is_signal s).
Proof.
  apply process_reachable_inv in Hreach as [(H1 & H2 & H3) H4 H5 H6 H7].
  assert (Hd : times is_force s <= times is_drain s <= 1) by (destruct (pr_signals s); lia).
  assert (Hp : dials s = [] \/ (dials s = [pr_dialed s] /\ resolved configured (pr_dialed s))).
  { unfold main_inv in H7. destruct (pr_main s); naive_solver. }
  split_and!.
  - intros Hc. apply H2 in Hc. lia.
  - lia.
  - intros [Hc|[Hc|Hc]]%H4; [right; right; lia|by right; left|by left].
  - intros p Hn Hin. destruct Hp as [?|[Hp Hr]]; [done|]. rewrite Hp in Hin |- *.
    apply list_elem_of_singleton in Hin as ->. split_and!; [done..|by eapply resolved_flag].
  - intros Hc. by rewrite Hc in H6.
  - intros code Hm Hn. unfold main_inv in H7. rewrite Hm, Hn in H7.
    destruct H7 as [_ [?|(_ & -> & Hc)]]; [done|]. apply H2 in Hc. split; [done|lia].
Qed.

(** A process told to terminate before it dialled never dials: once the drain is
    signalled while the transport is being resolved (or just was), no continuation
    contacts the edge or flips readiness, whatever signals and failures follow; every
    exit is 0, and the main goroutine reaches it alone, without waiting for a
    configuration. *)
Theorem early_drain_never_dials (configured : string) (s : Process)
    (Hreach : rtc (process_step configured) process_start s) (Hdrained : pr_drained s = true)
    (Hmain : pr_main s = MainResolving \/ exists p, pr_main s = MainResolved p) :
  (forall s', rtc (process_step configured) s s' ->
     dials s' = [] /\ pr_connected s' = false /\ forall code, pr_main s' = MainExited code -> code = 0%Z) /\
  exists s', rtc (main_step configured) s s' /\ pr_main s' = MainExited 0.
Proof.
  pose proof (process_reachable_inv _ _ Hreach) as Hi. split.
  - intros s' Hr. assert (Hi' : process_inv configured s') by (apply process_reachable_inv; by etrans).
    destruct (drained_quiet configured s Hi Hdrained) with (s' := s') as [Hq Hc]; [by destruct Hmain as [->|[? ->]]|done|].
    assert (Hn : dials s' = []).
    { rewrite Hq. destruct Hmain as [Hm|[? Hm]]; pose proof (pi_main _ _ Hi) as H; unfold main_inv in H; rewrite Hm in H; tauto. }
    split_and!; [done| |intros code Hm; by rewrite Hm in Hc].
    pose proof (pi_connected _ _ Hi') as Hx. destruct (pr_connected s'); [by destruct Hx|done].
  - assert (Hlast : forall x, pr_drained x = true -> (exists p, pr_main x = MainResolved p) ->
      exists y, rtc (main_step configured) x y /\ pr_main y = MainExited 0).
    { intros x Hx [p Hp]. exists (with_main (MainExited (exit_code tunnel_done)) (with_main (MainShutdown tunnel_done) (cancel_ctx x))). split; [|reflexivity].
      eapply rtc_l; [by eapply main_skip|]. apply rtc_once. by apply (main_exit _ _ tunnel_done). }
    destruct Hmain as [Hm|Hm]; [|by apply Hlast].
    edestruct Hlast as (y & Hy & Hc); [| |exists y; split; [eapply rtc_l; [by apply (main_resolve _ _ drained)|exact Hy]|done]]; [done|by eexists].
Qed.

(** ** Runs *)

Definition ends_in (configured : string) (m : MainThread) : Prop :=
  exists s, rtc (process_step configured) process_start s /\ pr_main s = m /\ times is_signal s = 0.
(** One step of a run: the constructor, with its side conditions computed. *)
Ltac run_step c := eapply rtc_l; [eapply c; try reflexivity; try apply not_elem_of_nil; try (cbn; lia)|].
Ltac run_main c := eapply rtc_l; [apply step_main; eapply c; reflexivity|].

(** A config server that cannot listen cancels the context, so the daemon returns
    [context.Canceled] and the process exits 0; standalone mode exits 1. *)
Lemma config_failure_exits_zero :
  ends_in "quic" (MainExited 0) /\ runStandaloneMode (ServerEnded (Some ServeError)) = 1%Z.
Proof.
  split; [|done]. eexists. split.
  - run_step step_server. eapply rtc_l; [apply step_main; by apply (main_resolve _ _ ctxDone)|].
    run_main main_check. run_main main_dial. eapply rtc_l; [by eapply (step_tunnel _ _ _ tunnel_canceled)|].
    run_main main_after. run_main main_exit. reflexivity.
  - done.
Qed.

(** A drain and its escalation while the daemon runs. *)
Definition forced : Process :=
  mkProcess 0 SigExited (MainTunnel "quic") true true "quic" true [ev_force; ev_signal; ev_drain; ev_signal; ev_connected; ev_dial "quic"].
Definition terminated_early : Process := mkProcess 0 SigDraining MainResolving true false "" false [ev_drain; ev_signal].
Lemma forced_reachable : rtc (process_step "quic") process_start forced.
Proof.
  eapply rtc_l; [apply step_main; by apply (main_resolve _ _ waitExpired)|].
  run_main main_check. run_main main_dial.
  eapply rtc_l; [eapply (step_connected _ _ "quic"); [reflexivity| |reflexivity]; cbn; set_solver|].
  run_step step_signal. eapply rtc_l; [apply step_drain; [done|]; apply drain_first; cbn; [done|lia]|].
  run_step step_signal. eapply rtc_l; [apply step_drain; [done|]; apply drain_second; cbn; [done|lia]|]. reflexivity.
Qed.
Lemma terminated_reachable : rtc (process_step "auto") process_start terminated_early.
Proof.
  run_step step_signal. eapply rtc_l; [apply step_drain; [done|]; apply drain_first; cbn; [done|lia]|]. reflexivity.
Qed.
Lemma tunnel_shutdown_staged_witness :
  pr_cancelled forced = true /\ times is_force forced = 1 /\ dials forced = ["quic"] /\ times is_drain forced <= 1.
Proof. split; [done|]. split; [done|]. split; [done|]. apply (tunnel_shutdown_staged "quic" forced forced_reachable). Defined.
Lemma early_drain_never_dials_witness :
  exists s', rtc (main_step "auto") terminated_early s' /\ pr_main s' = MainExited 0.
Proof. apply (early_drain_never_dials "auto" terminated_early terminated_reachable); [reflexivity|by left]. Defined.
