(* ===== verification/OriginProxy.v ===== *)
(** * The origin of the tunnel ([internal/tunnel/origin.go])

    [GatewayOriginProxy] hands a request of cloudflared to the data plane: an upgrade
    gets its hop-by-hop headers back, and every other response goes through the
    trailer bridge, which turns the trailers a Go handler leaves in its header map
    into [AddTrailer] calls.  The cloudflared writer is the sequence of calls it
    receives. *)
From Stdlib Require Import Ascii.
From stdpp Require Import sorting.
From stdpp Require Import base sets gmap strings list.
From S2P Require Import Prelude GoStrings GoHttp ProxyConfig Filters Router RouterState BackendPasses Handler.

(** ** The trailer bridge *)

(** The calls on [connection.ResponseWriter]; [WriteHeader] serializes the header map. *)
Inductive WireCall :=
| wire_WriteHeader (status : Z) (header : Header) | wire_Write (payload : string) | wire_Flush | wire_Hijack
| wire_AddTrailer (name value : string).
(** What a handler does with the writer it is given; [op_Header] is a mutation of the map. *)
Inductive WriterOp :=
| op_Header (f : Header -> Header) | op_WriteHeader (status : Z) | op_Write (payload : string) | op_Flush | op_Hijack.
Record trailerBridge := mkTrailerBridge {
  tb_inner : Header;                 (* the header map of the cloudflared writer *)
  tb_wire : list WireCall;
  tb_header : Header;
  tb_announced : gset string;
  tb_wroteHeader : bool;
  tb_hijacked : bool }.
Definition TrailerPrefix : string := "Trailer:".
Definition StatusOK : Z := 200.
Definition newTrailerBridge (inner : Header) : trailerBridge := mkTrailerBridge inner [] ∅ ∅ false false.

Definition call (c : WireCall) (b : trailerBridge) : trailerBridge :=
  mkTrailerBridge (tb_inner b) (tb_wire b ++ [c]) (tb_header b) (tb_announced b) (tb_wroteHeader b) (tb_hijacked b).
(** One entry of the loop of [WriteHeader]. *)
Definition announce (announced : gset string) (values : list string) : gset string :=
  foldl (fun s value => foldl (fun s name => {[CanonicalHeaderKey (TrimSpace name)]} ∪ s) s (SplitByte value ",")) announced values.
Definition header_entry (acc : gset string * Header) (entry : string * list string) : gset string * Header :=
  let '(announced, dst) := acc in
  let '(key, values) := entry in
  if bool_decide (CanonicalHeaderKey key = "Trailer") then (announce announced values, dst)
  else if HasPrefix key TrailerPrefix then (announced, dst)
  else (announced, <[key := values]> dst).

Section bridge.
(** The orders in which the two loops may see a header map. *)
Context (range range' : Header -> list (string * list string)) (flusher : bool).
Definition bridge_WriteHeader (status : Z) (b : trailerBridge) : trailerBridge :=
  if tb_wroteHeader b then b
  else
    let '(announced, dst) := foldl header_entry (tb_announced b, tb_inner b) (range (tb_header b)) in
    mkTrailerBridge dst (tb_wire b ++ [wire_WriteHeader status dst]) (tb_header b) announced true (tb_hijacked b).
Definition bridge_Write (payload : string) (b : trailerBridge) : trailerBridge :=
  let b := if negb (tb_wroteHeader b) then bridge_WriteHeader StatusOK b else b in call (wire_Write payload) b.
Definition bridge_Flush (b : trailerBridge) : trailerBridge := if flusher then call wire_Flush b else b.
Definition bridge_Hijack (b : trailerBridge) : trailerBridge :=
  call wire_Hijack (mkTrailerBridge (tb_inner b) (tb_wire b) (tb_header b) (tb_announced b) (tb_wroteHeader b) true).
Definition trailer_name (announced : gset string) (key : string) : string :=
  if HasPrefix key TrailerPrefix then TrimPrefix key TrailerPrefix
  else if bool_decide (CanonicalHeaderKey key ∈ announced) then key else "".
Definition flushTrailers (b : trailerBridge) : list WireCall :=
  if tb_hijacked b || negb (tb_wroteHeader b) then []
  else range' (tb_header b) ≫= fun entry =>
         let name := trailer_name (tb_announced b) entry.1 in
         if bool_decide (name = "") then [] else wire_AddTrailer name <$> entry.2.
Definition bridge_op (b : trailerBridge) (op : WriterOp) : trailerBridge :=
  match op with
  | op_Header f => mkTrailerBridge (tb_inner b) (tb_wire b) (f (tb_header b)) (tb_announced b) (tb_wroteHeader b) (tb_hijacked b)
  | op_WriteHeader status => bridge_WriteHeader status b
  | op_Write payload => bridge_Write payload b
  | op_Flush => bridge_Flush b
  | op_Hijack => bridge_Hijack b
  end.
(** [ProxyHTTP] for a plain request: what reaches the wire when the handler does [ops]. *)
Definition ProxyHTTP (inner : Header) (ops : list WriterOp) : list WireCall :=
  let b := foldl bridge_op (newTrailerBridge inner) ops in tb_wire b ++ flushTrailers b.
End bridge.

(** [ProxyHTTP] for an upgrade: the request the handler gets, with the raw writer. *)
Definition websocket_request (req : Request) : Request :=
  let h := header_Set (req_Header req) "Connection" "Upgrade" in
  let h := header_Set h "Upgrade" "websocket" in
  let h := header_Set h "Sec-Websocket-Version" "13" in
  set_Body nilBody 0 (set_Header h req).
Inductive ProxyError_TCP := errTCPNotSupported.
Definition ProxyTCP : res ProxyError_TCP unit := Err errTCPNotSupported.
(** [writeGRPCStatus] of the handler, on the writer. *)
Definition writeGRPCStatus (status message : string) : list WriterOp :=
  [op_Header (fun h => header_Set h "Content-Type" "application/grpc"); op_WriteHeader StatusOK;
   op_Header (fun h => header_Set h (TrailerPrefix +:+ "Grpc-Status") status);
   op_Header (fun h => header_Set h (TrailerPrefix +:+ "Grpc-Message") message)].

(** ** What the bridge promises *)

Definition header_after (h : Header) (ops : list WriterOp) : Header :=
  foldl (fun h op => match op with op_Header f => f h | _ => h end) h ops.
Definition hijacks (ops : list WriterOp) : bool := existsb (fun op => match op with op_Hijack => true | _ => false end) ops.
(** The calls of a handler that pass through. *)
Definition passes (flusher : bool) (ops : list WriterOp) : list WireCall :=
  ops ≫= fun op => match op with
                   | op_Write payload => [wire_Write payload]
                   | op_Flush => if flusher then [wire_Flush] else []
                   | op_Hijack => [wire_Hijack]
                   | op_Header _ | op_WriteHeader _ => []
                   end.
(** The status that ends the header, with what precedes and what follows. *)
Fixpoint first_status (ops : list WriterOp) : option (list WriterOp * Z * list WriterOp) :=
  match ops with
  | [] => None
  | op_WriteHeader status :: rest => Some ([], status, rest)
  | op_Write payload :: rest => Some ([], StatusOK, op_Write payload :: rest)
  | op :: rest => '(before, status, after) ← first_status rest; Some (op :: before, status, after)
  end.
Definition is_trailer_key (key : string) : bool := bool_decide (CanonicalHeaderKey key = "Trailer") || HasPrefix key TrailerPrefix.
(** The header the client gets: the handler's without its trailers, over the writer's own. *)
Definition sent_header (inner header : Header) : Header := filter (fun kv => is_trailer_key kv.1 = false) header ∪ inner.
(** The names a header map announces. *)
Definition announces (header : Header) (name : string) : Prop :=
  exists key values value part, header !! key = Some values /\ CanonicalHeaderKey key = "Trailer" /\ value ∈ values /\
    part ∈ SplitByte value "," /\ name = CanonicalHeaderKey (TrimSpace part).
Definition trailer_calls (calls : list WireCall) : list WireCall :=
  List.filter (fun c => match c with wire_AddTrailer _ _ => true | _ => false end) calls.

(** ** The two loops *)

Lemma announce_spec values announced name :
  name ∈ announce announced values <->
  name ∈ announced \/ exists value part, value ∈ values /\ part ∈ SplitByte value "," /\ name = CanonicalHeaderKey (TrimSpace part).
Proof.
  assert (Hparts : forall parts (s : gset string), name ∈ foldl (fun (s : gset string) name => {[CanonicalHeaderKey (TrimSpace name)]} ∪ s) s parts <->
    name ∈ s \/ exists part, part ∈ parts /\ name = CanonicalHeaderKey (TrimSpace part)).
  { induction parts as [|p parts IH]; intros s; cbn; [set_solver|]. rewrite IH. setoid_rewrite elem_of_cons. set_solver. }
  unfold announce. revert announced. induction values as [|v values IH]; intros announced; cbn; [set_solver|].
  rewrite IH, Hparts. setoid_rewrite (elem_of_cons values). naive_solver.
Qed.
Lemma header_loop_spec l announced dst :
  NoDup l.*1 ->
  let '(announced', dst') := foldl header_entry (announced, dst) l in
  (forall key, dst' !! key = if is_trailer_key key then dst !! key else match (list_to_map l : Header) !! key with Some v => Some v | None => dst !! key end) /\
  (forall name, name ∈ announced' <-> name ∈ announced \/
     exists key values value part, (key, values) ∈ l /\ CanonicalHeaderKey key = "Trailer" /\ value ∈ values /\
       part ∈ SplitByte value "," /\ name = CanonicalHeaderKey (TrimSpace part)).
Proof.
  revert announced dst. induction l as [|[k vs] l IH]; intros announced dst Hnd; cbn [foldl].
  - split; [intros key; by destruct (is_trailer_key key)|set_solver].
  - cbn in Hnd. apply NoDup_cons in Hnd as [Hk Hnd]. specialize (IH (header_entry (announced, dst) (k, vs)).1 (header_entry (announced, dst) (k, vs)).2 Hnd).
    destruct (header_entry (announced, dst) (k, vs)) as [a1 d1] eqn:He. cbn [fst snd] in IH.
    destruct (foldl header_entry (a1, d1) l) as [a2 d2]. destruct IH as [Hd Ha].
    assert (Hfresh : (list_to_map l : Header) !! k = None) by by apply not_elem_of_list_to_map.
    split.
    + intros key. rewrite Hd. cbn [header_entry list_to_map foldr fst snd] in He |- *. unfold is_trailer_key in *.
      destruct (decide (k = key)) as [<-|Hne].
      * change (list_to_map ((k, vs) :: l)) with (<[k := vs]> (list_to_map l : Header)). rewrite lookup_insert_eq, Hfresh.
        destruct (bool_decide (CanonicalHeaderKey k = "Trailer")), (HasPrefix k TrailerPrefix); cbn; simplify_eq; try done; by rewrite lookup_insert_eq.
      * change (list_to_map ((k, vs) :: l)) with (<[k := vs]> (list_to_map l : Header)). rewrite lookup_insert_ne by done.
        assert (d1 !! key = dst !! key) as ->; [|done].
        destruct (bool_decide (CanonicalHeaderKey k = "Trailer")), (HasPrefix k TrailerPrefix); simplify_eq; try done; by rewrite lookup_insert_ne.
    + intros name. rewrite Ha. cbn [header_entry] in He. setoid_rewrite elem_of_cons.
      destruct (bool_decide_reflect (CanonicalHeaderKey k = "Trailer")) as [Ht|Ht].
      * simplify_eq. rewrite announce_spec. split; [|naive_solver].
        intros [[?|(value & part & ?)]|(key & values & value & part & ?)]; [by left|right; exists k, vs, value, part; naive_solver|right; exists key, values, value, part; naive_solver].
      * assert (a1 = announced) as -> by (destruct (HasPrefix k TrailerPrefix); by simplify_eq). naive_solver.
Qed.

Section bridge_spec.
Context (range range' : Header -> list (string * list string)) (flusher : bool).
Hypothesis range_perm : forall h, range h ≡ₚ map_to_list h.

Lemma header_loop_map announced inner header :
  let '(announced', dst) := foldl header_entry (announced, inner) (range header) in
  dst = sent_header inner header /\ forall name, name ∈ announced' <-> name ∈ announced \/ announces header name.
Proof.
  assert (Hnd : NoDup (range header).*1) by (rewrite range_perm; apply NoDup_fst_map_to_list).
  pose proof (header_loop_spec (range header) announced inner Hnd) as H.
  destruct (foldl header_entry (announced, inner) (range header)) as [a d]. destruct H as [Hd Ha].
  assert (Hl : (list_to_map (range header) : Header) = header).
  { rewrite (list_to_map_proper _ (map_to_list header)) by done. apply list_to_map_to_list. }
  split.
  - apply map_eq. intros key. rewrite Hd, Hl. unfold sent_header. rewrite lookup_union.
    destruct (header !! key) as [v|] eqn:Hk.
    + destruct (is_trailer_key key) eqn:Ht.
      * rewrite map_lookup_filter_None_2; [by destruct (inner !! key)|]. right. intros ? _. cbn. by rewrite Ht.
      * rewrite (map_lookup_filter_Some_2 _ _ _ v); [by destruct (inner !! key)|done|done].
    + rewrite map_lookup_filter_None_2 by (left; done). by destruct (is_trailer_key key), (inner !! key).
  - intros name. rewrite Ha. unfold announces. setoid_rewrite range_perm. by setoid_rewrite elem_of_map_to_list.
Qed.

(** Once the header is out, calls pass through. *)
Lemma run_written ops b :
  tb_wroteHeader b = true ->
  let b' := foldl (bridge_op range flusher) b ops in
  tb_wire b' = tb_wire b ++ passes flusher ops /\ tb_header b' = header_after (tb_header b) ops /\
  tb_announced b' = tb_announced b /\ tb_wroteHeader b' = true /\ tb_hijacked b' = tb_hijacked b || hijacks ops.
Proof.
  revert b. induction ops as [|op ops IH]; intros b Hw; cbn [foldl].
  - split_and!; try done; [by rewrite app_nil_r|by rewrite orb_false_r].
  - assert (Hw' : tb_wroteHeader (bridge_op range flusher b op) = true).
    { destruct op; cbn; unfold bridge_WriteHeader, bridge_Write, bridge_Flush; rewrite ?Hw; cbn; try done. by destruct flusher. }
    destruct (IH _ Hw') as (H1 & H2 & H3 & H4 & H5). rewrite H1, H2, H3, H4, H5.
    destruct op; cbn; unfold bridge_WriteHeader, bridge_Write, bridge_Flush; rewrite ?Hw; cbn; try done.
    + by rewrite <- app_assoc.
    + destruct flusher; cbn; [by rewrite <- app_assoc|done].
    + rewrite <- app_assoc. split_and!; try done. by rewrite orb_true_r.
Qed.
Lemma run_unwritten ops b :
  tb_wroteHeader b = false ->
  let b' := foldl (bridge_op range flusher) b ops in
  tb_header b' = header_after (tb_header b) ops /\ tb_hijacked b' = tb_hijacked b || hijacks ops /\
  match first_status ops with
  | None => tb_wire b' = tb_wire b ++ passes flusher ops /\ tb_wroteHeader b' = false
  | Some (before, status, after) =>
      let '(announced, dst) := foldl header_entry (tb_announced b, tb_inner b) (range (header_after (tb_header b) before)) in
      tb_wire b' = tb_wire b ++ passes flusher before ++ wire_WriteHeader status dst :: passes flusher after /\
      tb_announced b' = announced /\ tb_wroteHeader b' = true
  end.
Proof.
  revert b. induction ops as [|op ops IH]; intros b Hw; cbn [foldl first_status].
  - split_and!; try done; [by rewrite orb_false_r|by rewrite app_nil_r].
  - destruct op as [f|status|payload| |]; cbn [bridge_op].
    + destruct (IH (bridge_op range flusher b (op_Header f)) Hw) as (H1 & H2 & H3). cbn [bridge_op] in *.
      split; [done|]. split; [done|]. destruct (first_status ops) as [[[before status] after]|]; exact H3.
    + cbn. unfold bridge_WriteHeader. rewrite Hw. destruct (foldl header_entry _ _) as [announced dst].
      destruct (run_written ops (mkTrailerBridge dst (tb_wire b ++ [wire_WriteHeader status dst]) (tb_header b) announced true (tb_hijacked b)) eq_refl)
        as (H1 & H2 & H3 & H4 & H5). cbn in *. rewrite H1, H2, H3, H4, H5. split_and!; try done. by rewrite <- app_assoc.
    + cbn. unfold bridge_Write. rewrite Hw. cbn [negb]. unfold bridge_WriteHeader. rewrite Hw. destruct (foldl header_entry _ _) as [announced dst].
      destruct (run_written ops (call (wire_Write payload) (mkTrailerBridge dst (tb_wire b ++ [wire_WriteHeader StatusOK dst]) (tb_header b) announced true (tb_hijacked b))) eq_refl)
        as (H1 & H2 & H3 & H4 & H5). cbn in *. rewrite H1, H2, H3, H4, H5. split_and!; try done. by rewrite <- !app_assoc.
    + unfold bridge_Flush. destruct flusher eqn:Hf; cbn [call].
      * destruct (IH (call wire_Flush b) Hw) as (H1 & H2 & H3). split; [exact H1|]. split; [exact H2|].
        destruct (first_status ops) as [[[before status] after]|]; cbn in *.
        -- destruct (foldl header_entry _ _) as [announced dst]. destruct H3 as (-> & H4 & H5). split_and!; try done. by rewrite <- app_assoc.
        -- destruct H3 as [-> H4]. split; [by rewrite <- app_assoc|done].
      * destruct (IH b Hw) as (H1 & H2 & H3). split; [exact H1|]. split; [exact H2|].
        destruct (first_status ops) as [[[before status] after]|]; exact H3.
    + destruct (IH (bridge_Hijack b) Hw) as (H1 & H2 & H3). split; [exact H1|].
      split; [rewrite H2; cbn; by rewrite orb_true_r|].
      destruct (first_status ops) as [[[before status] after]|]; cbn in *.
      * destruct (foldl header_entry _ _) as [announced dst]. destruct H3 as (-> & H4 & H5). split_and!; try done. by rewrite <- app_assoc.
      * destruct H3 as [-> H4]. split; [by rewrite <- app_assoc|done].
Qed.
End bridge_spec.

(** ** Properties *)

(** C19: The trailer bridge loses no trailer and invents none.  Whatever a handler does
    with the writer and in whatever order the header maps are iterated, the wire gets
    one header: the first status (200 when a body comes first) with the handler's
    fields of that moment over the writer's own, the announcement and the prefixed
    keys left out; the body, the flushes and a hijack pass through in order; and after
    everything else come the trailers of the final map, value by value: the keys with
    the prefix, and the keys that the header announced.  A hijacked connection and a
    response that was never written get none. *)
Theorem trailers_bridged (range range' : Header -> list (string * list string)) (flusher : bool) (inner : Header) (ops : list WriterOp)
    (Hrange : forall h, range h ≡ₚ map_to_list h) (Hrange' : forall h, range' h ≡ₚ map_to_list h) :
  let wire := ProxyHTTP range range' flusher inner ops in
  match first_status ops with
  | None => wire = passes flusher ops
  | Some (before, status, after) =>
      let header := header_after ∅ before in
      let final := header_after ∅ ops in
      exists trailers,
        wire = passes flusher before ++ wire_WriteHeader status (sent_header inner header) :: passes flusher after ++ trailers /\
        (hijacks ops = true -> trailers = []) /\
        (hijacks ops = false -> exists announced : gset string, (forall name, name ∈ announced <-> announces header name) /\
           trailers ≡ₚ map_to_list final ≫= (fun entry => let name := trailer_name announced entry.1 in
                                                         if bool_decide (name = "") then [] else wire_AddTrailer name <$> entry.2) /\
           forall name value, wire_AddTrailer name value ∈ trailers <->
             name <> "" /\ exists key values, final !! key = Some values /\ value ∈ values /\
               (key = TrailerPrefix +:+ name \/ (key = name /\ HasPrefix key TrailerPrefix = false /\ announces header (CanonicalHeaderKey name))))
  end.
Proof.
  intros wire. subst wire. unfold ProxyHTTP.
  pose proof (run_unwritten range flusher ops (newTrailerBridge inner) eq_refl) as (Hh & Hj & Hw).
  set (b := foldl (bridge_op range flusher) (newTrailerBridge inner) ops) in *. unfold flushTrailers.
  destruct (first_status ops) as [[[before status] after]|].
  2:{ destruct Hw as [-> ->]. rewrite orb_true_r. by rewrite app_nil_r. }
  cbn [newTrailerBridge tb_header tb_announced tb_inner tb_wire tb_hijacked] in *.
  pose proof (header_loop_map range Hrange ∅ inner (header_after ∅ before)) as Hl.
  destruct (foldl header_entry (∅, inner) (range (header_after ∅ before))) as [announced dst].
  destruct Hl as [-> Ha], Hw as (Hwire & Hann & Hwrote). rewrite Hwire, Hj, Hwrote, Hh, Hann. cbn [orb negb app].
  eexists. split; [by rewrite <- app_assoc|]. rewrite orb_false_r. split; [intros Hhj; by rewrite Hhj|]. intros Hhj. rewrite Hhj.
  assert (Han : forall name, name ∈ announced <-> announces (header_after ∅ before) name) by (intros name; rewrite Ha; set_solver).
  exists announced. split; [done|]. rewrite Hrange'. split; [done|].
  intros name value. rewrite list_elem_of_bind. split.
  - intros ([key values] & Hin & Hkv). rewrite Hrange', elem_of_map_to_list in Hkv. cbn [fst snd] in Hin.
    destruct (bool_decide_reflect (trailer_name announced key = "")) as [|Hne]; [by apply not_elem_of_nil in Hin|].
    apply list_elem_of_fmap in Hin as (v & [= -> <-] & Hv). split; [done|]. exists key, values. split_and!; [done|done|].
    unfold trailer_name in *. destruct (HasPrefix key TrailerPrefix) eqn:Hp.
    + left. apply HasPrefix_spec in Hp as [t ->]. by rewrite TrimPrefix_app.
    + right. destruct (bool_decide_reflect (CanonicalHeaderKey key ∈ announced)); [|done]. split_and!; [done|done|]. by apply Han.
  - intros (Hne & key & values & Hkv & Hv & Hk). exists (key, values). rewrite Hrange', elem_of_map_to_list. split; [|done]. cbn [fst snd].
    assert (trailer_name announced key = name) as ->.
    { unfold trailer_name. destruct Hk as [->|(-> & -> & Hk)]; [by rewrite HasPrefix_app, TrimPrefix_app|]. apply Han in Hk. by rewrite bool_decide_eq_true_2. }
    rewrite bool_decide_eq_false_2 by done. apply list_elem_of_fmap. by exists value.
Qed.
Lemma trailers_bridged_witness :
  exists trailers,
    ProxyHTTP map_to_list map_to_list true ∅ (writeGRPCStatus "12" "no matching route") =
      wire_WriteHeader 200 {["Content-Type" := ["application/grpc"]]} :: trailers /\
    wire_AddTrailer "Grpc-Status" "12" ∈ trailers /\ wire_AddTrailer "Content-Type" "application/grpc" ∉ trailers.
Proof.
  destruct (trailers_bridged map_to_list map_to_list true ∅ (writeGRPCStatus "12" "no matching route") (fun h => reflexivity _) (fun h => reflexivity _))
    as (trailers & Hw & _ & Ht).
  destruct (Ht eq_refl) as (announced & _ & _ & Hin). exists trailers. split_and!.
  - etrans; [exact Hw|]. reflexivity.
  - apply Hin. split; [done|]. exists "Trailer:Grpc-Status", ["12"]. split_and!; [reflexivity|by left|by left].
  - intros Hc. apply Hin in Hc as (_ & key & values & Hk & _ & [->|(_ & _ & Ha)]); [done|].
    destruct Ha as (k & vs & v & part & Hl & Hc & _).
    assert (H : k = "Content-Type") by (destruct (decide (k = "Content-Type")) as [|Hne]; [done|]; cbn in Hl;
      unfold header_Set in Hl; change (CanonicalHeaderKey "Content-Type") with "Content-Type" in Hl; rewrite lookup_insert_ne in Hl by done; done).
    by subst k.
Defined.

(** The refusal of an unroutable gRPC call reaches the client as gRPC reads it,
    whatever the order of the maps. *)
Lemma grpc_status_reaches_client range range' flusher status message :
  (forall h, range h ≡ₚ map_to_list h) -> (forall h, range' h ≡ₚ map_to_list h) ->
  exists trailers, ProxyHTTP range range' flusher ∅ (writeGRPCStatus status message) =
      wire_WriteHeader StatusOK {["Content-Type" := ["application/grpc"]]} :: trailers /\
    trailers ≡ₚ [wire_AddTrailer "Grpc-Status" status; wire_AddTrailer "Grpc-Message" message].
Proof.
  intros Hr Hr'. pose proof (run_unwritten range flusher (writeGRPCStatus status message) (newTrailerBridge ∅) eq_refl) as (Hh & Hj & Hw).
  unfold ProxyHTTP, flushTrailers. cbn [first_status writeGRPCStatus mbind option_bind] in Hw.
  pose proof (header_loop_map range Hr ∅ ∅ (header_after ∅ [op_Header (fun h => header_Set h "Content-Type" "application/grpc")])) as Hl.
  cbn [tb_header tb_announced tb_inner newTrailerBridge] in Hw. destruct (foldl header_entry (∅, ∅) _) as [announced dst].
  destruct Hl as [-> Ha], Hw as (Hwire & Hann & Hwrote). rewrite Hwire, Hj, Hwrote, Hh, Hann. cbn [orb negb app newTrailerBridge tb_hijacked hijacks existsb].
  eexists. split; [reflexivity|].
  change (hijacks (writeGRPCStatus status message) || false) with false. cbv match.
  etrans; [exact (bind_Permutation _ _ _ (Hr' _))|].
  assert (Hn : announced = ∅).
  { apply set_eq. intros name. rewrite Ha. split; [|set_solver]. intros [?|(k & vs & v & part & Hl & Hc & _)]; [set_solver|].
    cbn in Hl. unfold header_Set in Hl. apply lookup_insert_Some in Hl as [[<- _]|[_ ?]]; done. }
  clear Hann Ha. subst announced. cbn [header_after foldl writeGRPCStatus tb_header newTrailerBridge]. unfold header_Set.
  change (CanonicalHeaderKey "Content-Type") with "Content-Type". change (CanonicalHeaderKey (TrailerPrefix +:+ "Grpc-Status")) with "Trailer:Grpc-Status".
  change (CanonicalHeaderKey (TrailerPrefix +:+ "Grpc-Message")) with "Trailer:Grpc-Message".
  rewrite (map_to_list_insert _ "Trailer:Grpc-Message"), (map_to_list_insert _ "Trailer:Grpc-Status"), map_to_list_insert, map_to_list_empty
    by (rewrite ?lookup_insert_ne by done; done).
  unfold trailer_name. cbn [mbind list_bind fst snd]. cbn. apply perm_swap.
Qed.

(** ** Upgrades *)

(** The field names of [websocket_request] as the handler reads them. *)
Lemma websocket_headers req :
  header_Values (req_Header (websocket_request req)) "Connection" = ["Upgrade"] /\
  header_Get (req_Header (websocket_request req)) "Upgrade" = "websocket".
Proof.
  unfold websocket_request. cbn [req_Header set_Body set_Header]. unfold header_Get. rewrite !header_Values_Set. split; reflexivity.
Qed.
(** An upgrade of cloudflared takes the upgrade path exactly when the backend allows
    it, although the tunnel stripped the hop-by-hop headers; without them it never would. *)
Theorem tunnel_upgrade_path {hash : Sha256} {parser : UrlParser} {guts : HttpGuts} (req : Request) (result : RouteResult)
    (b : BackendRef) (backendURL : URL) (Htoken : HeaderValuesContainsToken ["Upgrade"] "upgrade" = true)
    (Hb : dialable result backendURL b) :
  (proxyToBackend (websocket_request req) result =
     if be_WebSocket b
     then upgraded (buildBackendUpgradeRequest (websocket_request req) backendURL) backendURL (be_TLS b) (rr_Filters result ++ rr_BackendFilters result)
     else proxied (transportKey (url_Host backendURL) (be_Protocol b) (be_TLS b) (ruleHeaderTimeout (rule_Timeouts (rr_Rule result))))
            (Director backendURL (websocket_request req)) (rr_Filters result ++ rr_BackendFilters result)) /\
  (header_Get (req_Header req) "Upgrade" = "" -> forall out u tls filters, proxyToBackend req result <> upgraded out u tls filters).
Proof.
  destruct Hb as ((Hi & Hlook) & Hu & Hp & Hs). unfold proxyToBackend.
  rewrite (proj2 (Z.ltb_ge _ _) Hi), Hlook, Hu. cbn [negb Z.eqb]. rewrite Hp, bool_decide_eq_false_2 by done.
  unfold shouldUseWebSocketUpgradePath, isHTTPUpgradeRequest. destruct (websocket_headers req) as [H1 H2]. rewrite H1, H2, Htoken.
  cbn [bool_decide]. split.
  - rewrite (bool_decide_eq_false_2 ("websocket" = "")) by done. by rewrite andb_true_r.
  - intros ->. rewrite (bool_decide_eq_true_2 ("" = "")) by done. by rewrite andb_false_r.
Qed.

(** ** Where the code departs from its comments *)

(** An informational status is taken for the final one: after an early hint the
    status of the response never reaches the writer. *)
Lemma informational_status_final flusher :
  ProxyHTTP map_to_list map_to_list flusher ∅ [op_WriteHeader 103; op_WriteHeader 404; op_Write "not found"] =
  [wire_WriteHeader 103 ∅; wire_Write "not found"].
Proof. reflexivity. Qed.
(** A field that is announced as a trailer and already set is sent twice. *)
Lemma announced_field_sent_twice :
  let wire := ProxyHTTP map_to_list map_to_list true ∅
                [op_Header (fun h => header_Set (header_Set h "Trailer" "X-Sum") "X-Sum" "1"); op_WriteHeader 200] in
  wire_WriteHeader 200 {["X-Sum" := ["1"]]} ∈ wire /\ wire_AddTrailer "X-Sum" "1" ∈ wire.
Proof. cbv zeta. split; apply list_elem_of_In; vm_compute; tauto. Qed.
