(* ===== verification/Observe.v ===== *)
(** * Observing requests ([proxy/accesslog.go], [proxy/metrics.go])

    The writer that records the status and the bytes of a response, the access-log
    line with its sampling, the accounting of a request in the metrics, and
    [instrumentRequest] of [proxy/handler.go], which puts them around [ServeHTTP].
    A metric is the sequence of updates it receives, so that requests interleave
    update by update.  Sampling rates are IEEE floats ([SpecFloat]). *)
From Stdlib Require Import Floats.SpecFloat.
From stdpp Require Import sorting.
From stdpp Require Import base sets gmap strings list.
From S2P Require Import Prelude GoStrings GoHttp ProxyConfig Filters Router RouterState BackendPasses Handler.

(** ** The counting writer *)

(** The calls of a handler, with the number of bytes the inner writer accepts, and
    whether its hijack succeeds. *)
Inductive WriterCall := w_WriteHeader (status : Z) | w_Write (n : Z) | w_ReadFrom (n : Z) | w_Flush | w_Hijack (ok : bool).
(** [cw_inner] are the calls the wrapped writer receives. *)
Record countingResponseWriter := mkCounting { cw_bytesWritten : Z; cw_status : Z; cw_writeHeaderCalled : bool; cw_inner : list WriterCall }.
Definition newCountingResponseWriter : countingResponseWriter := mkCounting 0 0 false [].
Definition counted_call (c : countingResponseWriter) (call : WriterCall) : countingResponseWriter :=
  match call with
  | w_WriteHeader status =>
      if cw_writeHeaderCalled c then c
      else mkCounting (cw_bytesWritten c) (int32 status) true (cw_inner c ++ [call])
  | w_Write n | w_ReadFrom n =>
      mkCounting (int64 (cw_bytesWritten c + n)) (if cw_writeHeaderCalled c then cw_status c else 200) true (cw_inner c ++ [call])
  | w_Flush | w_Hijack _ => mkCounting (cw_bytesWritten c) (cw_status c) (cw_writeHeaderCalled c) (cw_inner c ++ [call])
  end.
Definition Status (c : countingResponseWriter) : Z := cw_status c.
Definition BytesWritten (c : countingResponseWriter) : Z := cw_bytesWritten c.
Definition counted_run (calls : list WriterCall) : countingResponseWriter := foldl counted_call newCountingResponseWriter calls.

(** ** The access log *)

Definition float_zero : spec_float := S754_zero false.
Definition float_one : spec_float := S754_finite false 4503599627370496 (-52).
Definition shouldSampleAccessLog (rate : spec_float) (status : Z) (randFn : spec_float) : bool :=
  if (500 <=? status)%Z then true
  else
    let clamped := if SFltb rate float_zero then float_zero else rate in
    let clamped := if SFltb float_one clamped then float_one else clamped in
    if SFeqb clamped float_zero then false
    else if SFleb float_one clamped then true
    else SFltb randFn clamped.
(** [tracing.clampSampleRate] *)
Definition clampSampleRate (rate : spec_float) : spec_float :=
  if SFltb rate float_zero || SFltb float_one rate then float_one else rate.
Record accessLogSnapshot := mkSnapshot { sn_method : string; sn_host : string; sn_path : string; sn_query : string; sn_userAgent : string }.
Definition newAccessLogSnapshot (req : Request) (stripQuery : bool) : accessLogSnapshot :=
  mkSnapshot (req_Method req) (req_Host req) (url_Path (req_URL req)) (if stripQuery then "" else url_RawQuery (req_URL req))
    (header_Get (req_Header req) "User-Agent").
Record AccessLine := mkAccessLine { al_snapshot : accessLogSnapshot; al_status : Z; al_bytes_written : Z }.
Definition maybeEmitAccessLog (accessLog : bool) (rate randFn : spec_float) (counted : countingResponseWriter) (snapshot : accessLogSnapshot)
    : option AccessLine :=
  if negb accessLog then None
  else
    let status := Status counted in
    if (status =? 0)%Z then None
    else if (status =? 101)%Z then None
    else if negb (shouldSampleAccessLog rate status randFn) then None
    else Some (mkAccessLine snapshot status (BytesWritten counted)).

(** ** The metrics *)

Definition statusClassUpgrade : string := "1xx".
Definition statusClassAborted : string := "aborted".
Definition maxValidHTTPStatus : Z := 600.
(** [None] is an index out of range. *)
Definition statusClass (status : Z) : option string :=
  if (status =? 0)%Z then Some statusClassAborted
  else if (status <? 100)%Z then Some statusClassAborted
  else if (status <? maxValidHTTPStatus)%Z then
    let index := (Z.quot status 100 - 1)%Z in
    if (index <? 0)%Z then None else [statusClassUpgrade; "2xx"; "3xx"; "4xx"; "5xx"] !! Z.to_nat index
  else Some "other".
(** The kinds of error [errors.As] and [errors.Is] look for in a chain. *)
Inductive ChainError :=
| OpError (Op : string)                          (* *net.OpError *)
| RecordHeaderError                              (* tls *)
| CertificateInvalidError | HostnameError | UnknownAuthorityError    (* x509 *)
| verify_error (e : VerifyError)                 (* the sentinels of [verifyBackendTLS] *)
| other_error.
(** A chain from the outside in; the first record is what [errorHandler] looks at. *)
Record BackendError := mkBackendError { ber_proxy : ProxyError; ber_chain : list ChainError }.
(** [errors.As] takes the first [OpError]. *)
Definition is_dial (e : BackendError) : bool :=
  match omap (fun n => match n with OpError op => Some op | _ => None end) (ber_chain e) with op :: _ => bool_decide (op = "dial") | [] => false end.
Definition isTLSBackendError (e : BackendError) : bool :=
  existsb (fun n => match n with
    | RecordHeaderError | CertificateInvalidError | HostnameError | UnknownAuthorityError
    | verify_error errBackendTLSNoPeerCert | verify_error errBackendTLSSANMissing | verify_error errBackendTLSChainVerify => true
    | OpError _ | other_error => false
    end) (ber_chain e).
Definition classifyBackendError (err : option BackendError) : string :=
  match err with
  | None => "other"
  | Some e =>
      if pe_canceled (ber_proxy e) then "canceled"
      else if is_dial e then "dial"
      else if isTLSBackendError e then "tls"
      else if pe_deadline (ber_proxy e) || pe_timeout (ber_proxy e) then "timeout"
      else "other"
  end.

(** One atomic update of an instrument. *)
Inductive Update :=
| requestsInFlight (delta : Z) | wsActiveSessions (delta : Z) | requestDuration (hostname : string)
| requestsTotal (hostname : string) (class : option string) | backendErrors (hostname reason : string)
| responseBytes (hostname : string) (n : Z) | requestBytes (hostname : string) (n : Z).
Record metricsRequestState := mkMetricsState {
  ms_counted : countingResponseWriter; ms_hostname : string; ms_bodyBytes : Z; ms_upgraded : bool }.
(** The state and the updates of [beginRequest], [onUpgrade] and [finish]. *)
Definition beginRequest : metricsRequestState * list Update := (mkMetricsState newCountingResponseWriter "" 0 false, [requestsInFlight 1]).
Definition upgrade_class (s : metricsRequestState) : option string :=
  let status := Status (ms_counted s) in if (status =? 0)%Z then Some statusClassUpgrade else statusClass status.
Definition onUpgrade (s : metricsRequestState) : metricsRequestState * list Update :=
  if ms_upgraded s then (s, [])
  else (mkMetricsState (ms_counted s) (ms_hostname s) (ms_bodyBytes s) true,
        [requestsInFlight (-1); wsActiveSessions 1; requestDuration (ms_hostname s); requestsTotal (ms_hostname s) (upgrade_class s)]).
Definition metrics_finish (s : metricsRequestState) : list Update :=
  let hostname := ms_hostname s in
  if ms_upgraded s then [wsActiveSessions (-1); requestBytes hostname (ms_bodyBytes s)]
  else [requestsInFlight (-1); requestDuration hostname; requestsTotal hostname (statusClass (Status (ms_counted s)));
        responseBytes hostname (BytesWritten (ms_counted s)); requestBytes hostname (ms_bodyBytes s)].

(** What happens while a request is served: it is routed, the handler uses the writer,
    the transport reads the body, a backend fails. *)
Inductive RequestEvent := re_route (hostname : string) | re_call (call : WriterCall) | re_body (n : Z) | re_backend_error (reason : string).
Definition setHostname (s : metricsRequestState) (hostname : string) : metricsRequestState :=
  mkMetricsState (ms_counted s) hostname (ms_bodyBytes s) (ms_upgraded s).
Definition recordBackendError (s : metricsRequestState) (reason : string) : list Update := [backendErrors (ms_hostname s) reason].
Definition request_event (s : metricsRequestState) (e : RequestEvent) : metricsRequestState * list Update :=
  match e with
  | re_route hostname => (setHostname s hostname, [])
  | re_call call =>
      let s := mkMetricsState (counted_call (ms_counted s) call) (ms_hostname s) (ms_bodyBytes s) (ms_upgraded s) in
      match call with w_Hijack true => onUpgrade s | _ => (s, []) end
  | re_body n => (mkMetricsState (ms_counted s) (ms_hostname s) (int64 (ms_bodyBytes s + n)) (ms_upgraded s), [])
  | re_backend_error reason => (s, recordBackendError s reason)
  end.
Fixpoint request_updates (s : metricsRequestState) (events : list RequestEvent) : list Update :=
  match events with
  | [] => metrics_finish s
  | e :: rest => let '(s', updates) := request_event s e in updates ++ request_updates s' rest
  end.
(** Every update of one request, in order; a panic cuts the events, the tail is deferred. *)
Definition observed_updates (events : list RequestEvent) : list Update :=
  let '(s, updates) := beginRequest in updates ++ request_updates s events.
(** [proxyErrorHandler] *)
Definition proxyErrorHandler (metrics : bool) (s : metricsRequestState) (err : option BackendError) : option Reply * list Update :=
  (errorHandler (ber_proxy <$> err), if metrics then recordBackendError s (classifyBackendError err) else []).

(** ** Errors of the Cloudflare API *)

Definition ErrorTypeAuth : string := "auth".
Definition ErrorTypeRateLimit : string := "rate_limit".
Definition ErrorTypeServerError : string := "server_error".
Definition ErrorTypeClientError : string := "client_error".
Definition ErrorTypeTimeout : string := "timeout".
Definition ErrorTypeNetwork : string := "network".
Definition ErrorTypeUnknown : string := "unknown".
(** An error of the SDK somewhere in the chain, or any other with its text. *)
Inductive CloudflareError := apiError (statusCode : Z) | plainError (message : string).
(** [strings.Contains] *)
Fixpoint Contains (s substr : string) : bool :=
  HasPrefix s substr || match s with EmptyString => false | String _ s' => Contains s' substr end.
Definition classifyByStatusCode (statusCode : Z) : string :=
  if (statusCode =? 401)%Z || (statusCode =? 403)%Z then ErrorTypeAuth
  else if (statusCode =? 429)%Z then ErrorTypeRateLimit
  else if (500 <=? statusCode)%Z && (statusCode <? 600)%Z then ErrorTypeServerError
  else if (400 <=? statusCode)%Z && (statusCode <? 500)%Z then ErrorTypeClientError
  else ErrorTypeUnknown.
Definition classifyByErrorMessage (errStr : string) : string :=
  let errLower := ToLower errStr in
  if Contains errLower "timeout" || Contains errLower "deadline" then ErrorTypeTimeout
  else if Contains errLower "connection refused" || Contains errLower "no such host" then ErrorTypeNetwork
  else ErrorTypeUnknown.
Definition ClassifyCloudflareError (err : option CloudflareError) : string :=
  match err with
  | None => ""
  | Some (apiError statusCode) => classifyByStatusCode statusCode
  | Some (plainError message) => classifyByErrorMessage message
  end.

(** ** Around a request *)

Record Instrumentation := mkInstrumentation {
  in_accessLog : bool; in_accessLogSamplingRate : spec_float; in_accessLogStripQuery : bool; in_tracingEnabled : bool; in_metrics : bool }.
(** What [endServerSpan] records. *)
Inductive SpanEnd := span_plain | span_upgrade | span_status (status : Z) (error : bool).
Definition endServerSpan (counted : option countingResponseWriter) : SpanEnd :=
  match counted with
  | None => span_plain
  | Some counted =>
      let status := Status counted in
      if (status =? 101)%Z then span_upgrade
      else if negb (status =? 0)%Z then span_status status (500 <=? status)%Z
      else span_plain
  end.
Record Observation := mkObservation {
  ob_calls : list WriterCall;            (* what the client's writer receives *)
  ob_line : option AccessLine; ob_span : option SpanEnd; ob_updates : list Update }.
Definition calls_of (events : list RequestEvent) : list WriterCall :=
  omap (fun e => match e with re_call call => Some call | _ => None end) events.
(** [req] is the request as it arrived: the snapshot is taken before the filters run. *)
Definition instrumentRequest (h : Instrumentation) (req : Request) (randFn : spec_float) (events : list RequestEvent) : Observation :=
  let wrapped := in_accessLog h || in_tracingEnabled h || in_metrics h in
  let counted := counted_run (calls_of events) in
  mkObservation
    (if wrapped then cw_inner counted else calls_of events)
    (if in_accessLog h
     then maybeEmitAccessLog true (in_accessLogSamplingRate h) randFn counted (newAccessLogSnapshot req (in_accessLogStripQuery h))
     else None)
    (if in_tracingEnabled h then Some (endServerSpan (Some counted)) else None)
    (if in_metrics h then observed_updates events else []).

(** ** The recorded response *)

Lemma int64_add a b : int64 (int64 a + b) = int64 (a + b).
Proof.
  unfold int64, wrap. f_equal.
  replace ((a + 2 ^ (64 - 1)) mod 2 ^ 64 - 2 ^ (64 - 1) + b + 2 ^ (64 - 1))%Z with ((a + 2 ^ (64 - 1)) mod 2 ^ 64 + b)%Z by lia.
  rewrite Zplus_mod_idemp_l. f_equal. lia.
Qed.
Definition call_bytes (call : WriterCall) : Z := match call with w_Write n | w_ReadFrom n => n | _ => 0 end.
Definition bytes_of (calls : list WriterCall) : Z := foldr Z.add 0%Z (call_bytes <$> calls).
(** The status a sequence of calls settles: the first one, 200 for a body without one. *)
Fixpoint settled (calls : list WriterCall) : option Z :=
  match calls with
  | [] => None
  | w_WriteHeader status :: _ => Some (int32 status)
  | (w_Write _ | w_ReadFrom _) :: _ => Some 200%Z
  | (w_Flush | w_Hijack _) :: rest => settled rest
  end.
(** The calls without the statuses that come too late. *)
Fixpoint effective (written : bool) (calls : list WriterCall) : list WriterCall :=
  match calls with
  | [] => []
  | w_WriteHeader status :: rest => if written then effective true rest else w_WriteHeader status :: effective true rest
  | (w_Write _ | w_ReadFrom _) as call :: rest => call :: effective true rest
  | (w_Flush | w_Hijack _) as call :: rest => call :: effective written rest
  end.
Lemma counted_from calls c x :
  cw_bytesWritten c = int64 x ->
  let c' := foldl counted_call c calls in
  cw_bytesWritten c' = int64 (x + bytes_of calls) /\
  cw_status c' = (if cw_writeHeaderCalled c then cw_status c else default (cw_status c) (settled calls)) /\
  cw_inner c' = cw_inner c ++ effective (cw_writeHeaderCalled c) calls.
Proof.
  revert c x. induction calls as [|call calls IH]; intros c x Hx; cbn [foldl].
  - cbn. rewrite app_nil_r, Z.add_0_r. by destruct (cw_writeHeaderCalled c).
  - assert (Hx' : cw_bytesWritten (counted_call c call) = int64 (x + call_bytes call)).
    { destruct call; cbn; rewrite ?Z.add_0_r; try done; [by destruct (cw_writeHeaderCalled c)|by rewrite Hx, int64_add..]. }
    destruct (IH _ _ Hx') as (-> & -> & ->). change (bytes_of (call :: calls)) with (call_bytes call + bytes_of calls)%Z. rewrite Z.add_assoc.
    split; [done|]. destruct call; cbn; rewrite <- ?app_assoc; destruct (cw_writeHeaderCalled c) eqn:Hw; cbn; rewrite ?Hw, <- ?app_assoc; done.
Qed.
Lemma counted_spec calls :
  Status (counted_run calls) = default 0%Z (settled calls) /\ BytesWritten (counted_run calls) = int64 (bytes_of calls) /\
  cw_inner (counted_run calls) = effective false calls.
Proof. destruct (counted_from calls newCountingResponseWriter 0 eq_refl) as (H1 & H2 & H3). done. Qed.

(** ** Sampling *)

Lemma sample_server_error rate status randFn : (500 <= status)%Z -> shouldSampleAccessLog rate status randFn = true.
Proof. intros H. unfold shouldSampleAccessLog. by rewrite (proj2 (Z.leb_le _ _) H). Qed.
Lemma sample_rate rate status randFn :
  (status < 500)%Z ->
  shouldSampleAccessLog rate status randFn =
    (SFleb float_one rate || (SFltb float_zero rate && SFltb randFn rate)).
Proof.
  intros H. unfold shouldSampleAccessLog. rewrite (proj2 (Z.leb_gt _ _) H).
  destruct rate as [s|s| |s m e]; try (destruct s; reflexivity); [by destruct randFn|].
  destruct s; [reflexivity|]. unfold SFltb, SFleb, SFeqb, SFcompare, float_zero, float_one.
  destruct (Z.compare (-52) e) eqn:He. all: try done.
  all: try (destruct (Pos.compare_cont Eq 4503599627370496 m) eqn:Hc); cbv beta iota; rewrite ?He, ?Hc; try reflexivity.
Qed.

(** ** The accounting of one request *)

Definition total (sel : Update -> Z) (updates : list Update) : Z := foldr Z.add 0%Z (sel <$> updates).
Definition in_flight (u : Update) : Z := match u with requestsInFlight d => d | _ => 0 end.
Definition sessions (u : Update) : Z := match u with wsActiveSessions d => d | _ => 0 end.
Definition durations (hostname : string) (u : Update) : Z :=
  match u with requestDuration h => if decide (h = hostname) then 1 else 0 | _ => 0 end.
Definition completed (label : string * option string) (u : Update) : Z :=
  match u with requestsTotal h class => if decide ((h, class) = label) then 1 else 0 | _ => 0 end.
Lemma total_app sel l1 l2 : total sel (l1 ++ l2) = (total sel l1 + total sel l2)%Z.
Proof. unfold total. induction l1 as [|u l1 IH]; cbn; [lia|]. rewrite IH. lia. Qed.
Lemma total_cons sel u l : total sel (u :: l) = (sel u + total sel l)%Z.
Proof. done. Qed.
(** The hostname and the class under which a request is counted: at its upgrade, or at its end. *)
Fixpoint request_label (s : metricsRequestState) (events : list RequestEvent) : string * option string :=
  match events with
  | [] => (ms_hostname s, statusClass (Status (ms_counted s)))
  | e :: rest =>
      let s' := (request_event s e).1 in
      if negb (ms_upgraded s) && ms_upgraded s' then (ms_hostname s', upgrade_class s') else request_label s' rest
  end.
Definition run_label (events : list RequestEvent) : string * option string := request_label beginRequest.1 events.

(** From [a] requests in flight and [b] sessions, the gauges stay between none and one. *)
Fixpoint within (a b : Z) (updates : list Update) : Prop :=
  (0 <= a /\ 0 <= b /\ a + b <= 1)%Z /\
  match updates with [] => True | u :: rest => within (a + in_flight u) (b + sessions u) rest end.
Lemma within_prefix a b l p :
  within a b l -> p `prefix_of` l ->
  (0 <= a + total in_flight p /\ 0 <= b + total sessions p /\ (a + total in_flight p) + (b + total sessions p) <= 1)%Z.
Proof.
  revert a b l. induction p as [|u p IH]; intros a b l Hw Hp.
  - unfold total. cbn. destruct l; cbn in Hw; lia.
  - destruct Hp as [k ->]. cbn in Hw. destruct Hw as [_ Hw]. rewrite !total_cons.
    specialize (IH _ _ (p ++ k) Hw ltac:(by exists k)). lia.
Qed.
Definition gauge_http (s : metricsRequestState) : Z := if ms_upgraded s then 0 else 1.
Definition gauge_ws (s : metricsRequestState) : Z := if ms_upgraded s then 1 else 0.
Lemma updates_within events s : within (gauge_http s) (gauge_ws s) (request_updates s events).
Proof.
  revert s. induction events as [|e events IH]; intros s; cbn [request_updates].
  - unfold gauge_http, gauge_ws, metrics_finish. destruct (ms_upgraded s); cbn; lia.
  - destruct e as [h|call|n|r]; cbn [request_event].
    + exact (IH (setHostname s h)).
    + assert (Hquiet : forall c, within (gauge_http s) (gauge_ws s) (request_updates (mkMetricsState c (ms_hostname s) (ms_bodyBytes s) (ms_upgraded s)) events)).
      { intros c. exact (IH (mkMetricsState c (ms_hostname s) (ms_bodyBytes s) (ms_upgraded s))). }
      destruct call as [|n|n| |[]]; try apply Hquiet. unfold onUpgrade. cbn [ms_upgraded].
      destruct (ms_upgraded s) eqn:Hu; [specialize (Hquiet (counted_call (ms_counted s) (w_Hijack true))); unfold gauge_http, gauge_ws in *; by rewrite Hu in *|].
      unfold gauge_http, gauge_ws. rewrite Hu. cbn [app within in_flight sessions ms_hostname].
      split_and!; try lia. exact (IH (mkMetricsState _ (ms_hostname s) (ms_bodyBytes s) true)).
    + exact (IH (mkMetricsState _ _ _ (ms_upgraded s))).
    + cbn [app within in_flight sessions recordBackendError]. rewrite !Z.add_0_r. split; [|apply IH].
      unfold gauge_http, gauge_ws. destruct (ms_upgraded s); lia.
Qed.
Lemma updates_total events s :
  let t := request_updates s events in
  (total in_flight t = - gauge_http s)%Z /\ (total sessions t = - gauge_ws s)%Z /\
  forall label, total (completed label) t = (if ms_upgraded s then 0 else if decide (request_label s events = label) then 1 else 0)%Z.
Proof.
  revert s. induction events as [|e events IH]; intros s; cbn [request_updates request_label].
  - unfold gauge_http, gauge_ws, metrics_finish. destruct (ms_upgraded s); cbn; [done|]. split_and!; [done|done|].
    intros label. destruct (decide _); lia.
  - destruct e as [h|call|n|r]; cbn [request_event fst].
    + destruct (IH (setHostname s h)) as (H1 & H2 & H3). cbn [ms_upgraded setHostname]. rewrite andb_negb_l. split_and!; [exact H1|exact H2|exact H3].
    + assert (Hquiet : forall c, let s' := mkMetricsState c (ms_hostname s) (ms_bodyBytes s) (ms_upgraded s) in
        let t := request_updates s' events in
        (total in_flight t = - gauge_http s)%Z /\ (total sessions t = - gauge_ws s)%Z /\
        forall label, total (completed label) t = (if ms_upgraded s then 0 else if decide (request_label s' events = label) then 1 else 0)%Z).
      { intros c. exact (IH (mkMetricsState c (ms_hostname s) (ms_bodyBytes s) (ms_upgraded s))). }
      destruct call as [st|n|n| |[]]; cbn [fst ms_upgraded]; rewrite ?andb_negb_l; try apply Hquiet.
      unfold onUpgrade. cbn [ms_upgraded]. destruct (ms_upgraded s) eqn:Hu; cbn [fst ms_upgraded negb andb].
      * specialize (Hquiet (counted_call (ms_counted s) (w_Hijack true))). exact Hquiet.
      * destruct (IH (mkMetricsState (counted_call (ms_counted s) (w_Hijack true)) (ms_hostname s) (ms_bodyBytes s) true)) as (H1 & H2 & H3).
        cbn [app ms_counted ms_hostname ms_bodyBytes]. unfold gauge_http, gauge_ws in *. rewrite Hu. cbn [ms_upgraded] in *.
        rewrite !total_cons, H1, H2. cbn [in_flight sessions]. split_and!; [lia|lia|]. intros label. rewrite !total_cons, H3. cbn [completed].
        destruct (decide _); lia.
    + destruct (IH (mkMetricsState (ms_counted s) (ms_hostname s) (int64 (ms_bodyBytes s + n)) (ms_upgraded s))) as (H1 & H2 & H3).
      cbn [ms_upgraded]. rewrite andb_negb_l. split_and!; [exact H1|exact H2|exact H3].
    + destruct (IH s) as (H1 & H2 & H3). rewrite andb_negb_l. cbn [app recordBackendError]. split_and!; [exact H1|exact H2|exact H3].
Qed.

(** ** Requests side by side *)

(** The updates of one request in a log of many, in their order. *)
Definition own (i : nat) (log : list (nat * Update)) : list Update := (List.filter (fun e => bool_decide (e.1 = i)) log).*2.
(** The requests advance in any interleaving of their updates. *)
Definition interleaved (traces : list (list Update)) (log : list (nat * Update)) : Prop :=
  (forall i u, (i, u) ∈ log -> i < length traces) /\ forall i trace, traces !! i = Some trace -> own i log `prefix_of` trace.
Definition complete (traces : list (list Update)) (log : list (nat * Update)) : Prop :=
  forall i trace, traces !! i = Some trace -> own i log = trace.
Definition sum_upto (f : nat -> Z) (n : nat) : Z := foldr Z.add 0%Z (f <$> seq 0 n).
Lemma sum_upto_S f n : sum_upto f (S n) = (sum_upto f n + f n)%Z.
Proof.
  unfold sum_upto. rewrite seq_S, fmap_app. cbn. induction (f <$> seq 0 n) as [|x l IH]; cbn; [lia|]. rewrite IH. lia.
Qed.
Lemma sum_upto_le f g n : (forall i, i < n -> (f i <= g i)%Z) -> (sum_upto f n <= sum_upto g n)%Z.
Proof. induction n as [|n IH]; intros H; [done|]. rewrite !sum_upto_S. pose proof (H n ltac:(lia)). specialize (IH ltac:(intros; apply H; lia)). lia. Qed.
Lemma sum_upto_eq f g n : (forall i, i < n -> f i = g i) -> sum_upto f n = sum_upto g n.
Proof. induction n as [|n IH]; intros H; [done|]. by rewrite !sum_upto_S, IH, H by (intros; try apply H; lia). Qed.
Lemma sum_upto_plus f g n : sum_upto (fun i => f i + g i)%Z n = (sum_upto f n + sum_upto g n)%Z.
Proof. induction n as [|n IH]; [done|]. rewrite !sum_upto_S, IH. lia. Qed.
Lemma sum_upto_const c n : sum_upto (fun _ => c) n = (Z.of_nat n * c)%Z.
Proof. induction n as [|n IH]; [done|]. rewrite sum_upto_S, IH. lia. Qed.
Lemma sum_upto_single i c n : i < n -> sum_upto (fun j => if decide (j = i) then c else 0)%Z n = c.
Proof.
  induction n as [|n IH]; intros H; [lia|]. rewrite sum_upto_S. destruct (decide (n = i)) as [->|Hne].
  - rewrite (sum_upto_eq _ (fun _ => 0%Z)), sum_upto_const; [lia|]. intros j Hj. destruct (decide (j = i)); [lia|done].
  - rewrite IH by lia. lia.
Qed.
(** A metric is the sum over the requests of what each added to it. *)
Lemma total_by_request sel log n :
  (forall i u, (i, u) ∈ log -> i < n) -> total sel log.*2 = sum_upto (fun i => total sel (own i log)) n.
Proof.
  induction log as [|[i u] log IH]; intros H.
  - cbn. by rewrite (sum_upto_const 0), Z.mul_0_r.
  - change (((i, u) :: log).*2) with (u :: log.*2). rewrite total_cons, IH by (intros j v Hj; apply (H j v); by right).
    rewrite <- (sum_upto_single i (sel u) n) by (apply (H i u); by left). rewrite <- sum_upto_plus. apply sum_upto_eq. intros j _.
    unfold own. cbn [List.filter fst]. destruct (bool_decide_reflect (i = j)) as [->|Hne].
    + rewrite decide_True by done. by rewrite fmap_cons, total_cons.
    + by rewrite decide_False by congruence.
Qed.
Lemma observed_within events : within 0 0 (observed_updates events).
Proof. split; [lia|]. exact (updates_within events beginRequest.1). Qed.
Lemma observed_total events :
  let t := observed_updates events in
  total in_flight t = 0%Z /\ total sessions t = 0%Z /\
  forall label, total (completed label) t = (if decide (run_label events = label) then 1 else 0)%Z.
Proof.
  destruct (updates_total events beginRequest.1) as (H1 & H2 & H3). cbv zeta. unfold observed_updates, beginRequest in *.
  cbn [fst app] in *. rewrite !total_cons, H1, H2. split_and!; [done|done|]. intros label. rewrite total_cons, H3. done.
Qed.

(** *** Labels *)

Definition status_classes : list string := ["1xx"; "2xx"; "3xx"; "4xx"; "5xx"; "aborted"; "other"].
Lemma statusClass_closed status : exists class, statusClass status = Some class /\ class ∈ status_classes.
Proof.
  unfold statusClass, status_classes. destruct (status =? 0)%Z; [eexists; split; [done|set_solver]|].
  destruct (Z.ltb_spec status 100) as [H1|H1]; [eexists; split; [done|set_solver]|].
  destruct (Z.ltb_spec status maxValidHTTPStatus) as [H2|H2]; [|eexists; split; [done|set_solver]]. unfold maxValidHTTPStatus in H2.
  assert (Hq : (1 <= Z.quot status 100 <= 5)%Z).
  { split; [apply Z.quot_le_lower_bound; lia|]. apply Z.lt_succ_r, Z.quot_lt_upper_bound; lia. }
  destruct (Z.ltb_spec (Z.quot status 100 - 1) 0) as [H3|H3]; [lia|].
  assert (Hc : (Z.quot status 100 = 1 \/ Z.quot status 100 = 2 \/ Z.quot status 100 = 3 \/ Z.quot status 100 = 4 \/ Z.quot status 100 = 5)%Z) by lia.
  destruct Hc as [->|[->|[->|[->| ->]]]]; (eexists; split; [reflexivity|set_solver]).
Qed.
Lemma request_label_closed events s : exists class, (request_label s events).2 = Some class /\ class ∈ status_classes.
Proof.
  revert s. induction events as [|e events IH]; intros s; cbn [request_label]; [apply statusClass_closed|].
  destruct (negb _ && _); [|apply IH]. cbn [snd]. unfold upgrade_class. destruct (Status _ =? 0)%Z; [|apply statusClass_closed].
  exists statusClassUpgrade. split; [done|]. unfold status_classes. set_solver.
Qed.

Lemma sum_upto_lookup {A} (f : A -> Z) (l : list A) :
  sum_upto (fun i => match l !! i with Some x => f x | None => 0%Z end) (length l) = foldr Z.add 0%Z (f <$> l).
Proof.
  induction l as [|x l IH] using rev_ind; [done|]. rewrite length_app, Nat.add_comm. cbn [length Nat.add]. rewrite sum_upto_S.
  rewrite lookup_app_r, Nat.sub_diag by lia. cbn. rewrite (sum_upto_eq _ (fun i => match l !! i with Some y => f y | None => 0%Z end)).
  - rewrite IH. rewrite fmap_app. cbn. clear IH. induction (f <$> l) as [|y ys IH]; cbn; lia.
  - intros i Hi. by rewrite lookup_app_l by done.
Qed.
Lemma count_filter {A} (p : A -> bool) (l : list A) :
  foldr Z.add 0%Z ((fun x => if p x then 1 else 0)%Z <$> l) = Z.of_nat (length (List.filter p l)).
Proof. induction l as [|x l IH]; cbn; [done|]. rewrite IH. destruct (p x); cbn; lia. Qed.

(** ** Properties *)

(** C26: The gauges never leak.  However the updates of any number of requests interleave,
    wherever a panic cuts them, and with any number of hijacks: the in-flight and the
    session gauge are never negative and together never exceed the requests that have
    begun; when every request is over both are zero, and the counter of a hostname
    and a class counts exactly the requests with that label, so that each is counted
    once; and the class of a request is one of seven, whatever status was written. *)
Theorem gauges_never_leak (runs : list (list RequestEvent)) (log : list (nat * Update))
    (Hlog : interleaved (observed_updates <$> runs) log) :
  let value sel := total sel log.*2 in
  (0 <= value in_flight /\ 0 <= value sessions)%Z /\
  (value in_flight + value sessions <= sum_upto (fun i => if bool_decide (own i log = []) then 0 else 1) (length runs))%Z /\
  (complete (observed_updates <$> runs) log ->
     value in_flight = 0%Z /\ value sessions = 0%Z /\
     forall label, value (completed label) = Z.of_nat (length (List.filter (fun events => bool_decide (run_label events = label)) runs))) /\
  (forall events, events ∈ runs -> exists class, (run_label events).2 = Some class /\ class ∈ status_classes).
Proof.
  intros value. subst value. cbv beta. destruct Hlog as [Hid Hpre]. rewrite length_fmap in Hid.
  assert (Hown : forall i, i < length runs -> exists events, runs !! i = Some events /\ own i log `prefix_of` observed_updates events).
  { intros i Hi. apply lookup_lt_is_Some_2 in Hi as [events He]. exists events. split; [done|]. apply Hpre. by rewrite list_lookup_fmap, He. }
  assert (Hb : forall i, i < length runs ->
    (0 <= total in_flight (own i log) /\ 0 <= total sessions (own i log) /\
     total in_flight (own i log) + total sessions (own i log) <= if bool_decide (own i log = []) then 0 else 1)%Z).
  { intros i Hi. destruct (Hown i Hi) as (events & _ & Hp). pose proof (within_prefix 0 0 _ _ (observed_within events) Hp) as H.
    destruct (bool_decide_reflect (own i log = [])) as [->|_]; [done|lia]. }
  rewrite !(total_by_request _ _ _ Hid), <- sum_upto_plus. split_and!.
  - rewrite <- (Z.mul_0_r (Z.of_nat (length runs))), <- sum_upto_const. apply sum_upto_le. intros i Hi. by apply Hb.
  - rewrite <- (Z.mul_0_r (Z.of_nat (length runs))), <- sum_upto_const. apply sum_upto_le. intros i Hi. by apply Hb.
  - apply sum_upto_le. intros i Hi. by apply Hb.
  - intros Hc. assert (Ht : forall i, i < length runs -> exists events, runs !! i = Some events /\ own i log = observed_updates events).
    { intros i Hi. destruct (Hown i Hi) as (events & He & _). exists events. split; [done|]. apply Hc. by rewrite list_lookup_fmap, He. }
    split_and!.
    + rewrite (sum_upto_eq _ (fun _ => 0%Z)), sum_upto_const; [lia|]. intros i Hi. destruct (Ht i Hi) as (events & _ & ->). apply observed_total.
    + rewrite (sum_upto_eq _ (fun _ => 0%Z)), sum_upto_const; [lia|]. intros i Hi. destruct (Ht i Hi) as (events & _ & ->). apply observed_total.
    + intros label. rewrite (total_by_request _ _ _ Hid), <- count_filter, <- sum_upto_lookup. apply sum_upto_eq. intros i Hi.
      destruct (Ht i Hi) as (events & -> & ->). rewrite (proj2 (proj2 (observed_total events))), bool_decide_decide.
      by destruct (decide _).
  - intros events _. apply request_label_closed.
Qed.

(** What the access log says.  A line is written exactly when the log is on, the
    response has a status other than the switch of protocols, and the status is a
    server error or the draw falls under the rate, which logs everything from one up
    and nothing from zero down; it shows the request as it arrived, without its query
    when that is stripped, the status the first call settled and the bytes written.
    The writer of the client receives the calls of the handler, only the statuses that
    come after the first are dropped, and without instrumentation it receives them all. *)
Theorem access_log_exact (h : Instrumentation) (req : Request) (randFn : spec_float) (events : list RequestEvent) :
  let calls := calls_of events in
  let observed := instrumentRequest h req randFn events in
  let status := default 0%Z (settled calls) in
  (forall line, ob_line observed = Some line <->
     in_accessLog h = true /\ status <> 0%Z /\ status <> 101%Z /\
     ((500 <= status)%Z \/ SFleb float_one (in_accessLogSamplingRate h) = true \/
      (SFltb float_zero (in_accessLogSamplingRate h) = true /\ SFltb randFn (in_accessLogSamplingRate h) = true)) /\
     line = mkAccessLine (mkSnapshot (req_Method req) (req_Host req) (url_Path (req_URL req))
                            (if in_accessLogStripQuery h then "" else url_RawQuery (req_URL req)) (header_Get (req_Header req) "User-Agent"))
              status (int64 (bytes_of calls))) /\
  ob_calls observed = (if in_accessLog h || in_tracingEnabled h || in_metrics h then effective false calls else calls) /\
  (in_tracingEnabled h = true -> forall s error, ob_span observed = Some (span_status s error) -> s = status /\ (error = true <-> (500 <= s)%Z)).
Proof.
  intros calls observed status. subst observed. unfold instrumentRequest. fold calls. destruct (counted_spec calls) as (Hs & Hb & Hc).
  cbn [ob_line ob_calls ob_span]. rewrite Hc. split_and!; [|done|].
  - intros line. unfold maybeEmitAccessLog. rewrite Hs, Hb. fold status. cbn [negb].
    destruct (in_accessLog h); [|split; [done|by intros [? _]]].
    destruct (Z.eqb_spec status 0) as [H0|H0]; [split; [done|by intros (_ & ? & _)]|].
    destruct (Z.eqb_spec status 101) as [H1|H1]; [split; [done|by intros (_ & _ & ? & _)]|].
    destruct (Z.le_gt_cases 500 status) as [H5|H5].
    + rewrite sample_server_error by done. cbn [negb]. unfold newAccessLogSnapshot. naive_solver.
    + rewrite sample_rate by lia. unfold newAccessLogSnapshot.
      destruct (SFleb float_one _), (SFltb float_zero _), (SFltb randFn _); cbn [orb andb negb];
        (split; [intros [= <-]; split_and!; auto|intros (_ & _ & _ & [?|[?|[??]]] & ->); done || lia]).
  - intros Ht s error. rewrite Ht. cbn. rewrite Hs. fold status. destruct (status =? 101)%Z; [done|].
    destruct (negb (status =? 0)%Z); [|done]. intros [= <- <-]. split; [done|]. by rewrite Z.leb_le.
Qed.

(** The metrics do not change what the client gets; every failure of a backend lands in
    one of five reasons: a canceled request is the one that is not answered, a timeout
    is answered 504, and what is neither dial, TLS nor timeout 502. *)
Lemma backend_error_reasons metrics s e :
  let '(reply, updates) := proxyErrorHandler metrics s (Some e) in
  let reason := classifyBackendError (Some e) in
  reply = errorHandler (Some (ber_proxy e)) /\
  updates = (if metrics then [backendErrors (ms_hostname s) reason] else []) /\
  reason ∈ ["canceled"; "dial"; "tls"; "timeout"; "other"] /\
  (reason = "canceled" <-> reply = None) /\
  (reason = "timeout" -> reply = Some (httpError "gateway timeout" 504)) /\
  (reason = "other" -> reply = Some (httpError "bad gateway" 502)).
Proof.
  unfold proxyErrorHandler, classifyBackendError. destruct e as [[c d r] chain]. set (e := mkBackendError _ chain).
  destruct (is_dial e), (isTLSBackendError e), c, d, r; cbn; split_and!; (done || set_solver || naive_solver).
Qed.

Lemma Contains_spec s substr : Contains s substr = true <-> exists before after, s = before +:+ substr +:+ after.
Proof.
  induction s as [|c s IH]; cbn -[HasPrefix]; rewrite orb_true_iff, HasPrefix_spec.
  - split; [intros [[t Ht]|]; [by exists "", t|done]|]. intros (before & after & H). left. destruct before; [by exists after|done].
  - rewrite IH. split.
    + intros [[t Ht]|(before & after & ->)]; [by exists "", t|by exists (String c before), after].
    + intros (before & after & H). destruct before as [|c' before]; [left; by exists after|]. right. injection H as -> ->. by exists before, after.
Qed.
(** The classes of Cloudflare errors are closed, a status decides alone and a message
    regardless of its case: 401 and 403 are authentication, 429 the rate limit, the other
    statuses from 400 on go by their hundred. *)
Lemma cloudflare_error_classified err :
  (ClassifyCloudflareError err = "" <-> err = None) /\
  (forall code, err = Some (apiError code) ->
     ClassifyCloudflareError err = (if (code =? 401) || (code =? 403) then "auth" else if code =? 429 then "rate_limit"
       else if code / 100 =? 5 then "server_error" else if code / 100 =? 4 then "client_error" else "unknown")%Z) /\
  (forall message, err = Some (plainError message) -> ClassifyCloudflareError err = ClassifyCloudflareError (Some (plainError (ToLower message)))).
Proof.
  split_and!.
  - destruct err as [[code|message]|]; cbn; [| |done]; split; try done; unfold classifyByStatusCode, classifyByErrorMessage; repeat case_match; done.
  - intros code ->. cbn. unfold classifyByStatusCode.
    assert (H5 : (code / 100 =? 5)%Z = (500 <=? code)%Z && (code <? 600)%Z) by (pose proof (Z.div_mod code 100 ltac:(done)); pose proof (Z.mod_pos_bound code 100 ltac:(done)); apply eq_true_iff_eq; rewrite andb_true_iff, Z.eqb_eq, Z.leb_le, Z.ltb_lt; lia).
    assert (H4 : (code / 100 =? 4)%Z = (400 <=? code)%Z && (code <? 500)%Z) by (pose proof (Z.div_mod code 100 ltac:(done)); pose proof (Z.mod_pos_bound code 100 ltac:(done)); apply eq_true_iff_eq; rewrite andb_true_iff, Z.eqb_eq, Z.leb_le, Z.ltb_lt; lia).
    by rewrite H5, H4.
  - intros message ->. cbn. unfold classifyByErrorMessage. by rewrite ToLower_idemp.
Qed.

Module ObserveExample.
Definition runs : list (list RequestEvent) := [[re_route "a.example"]; [re_call (w_WriteHeader 101); re_call (w_Hijack true)]].
(** The upgrade has moved to the sessions, the other request is being served. *)
Definition log : list (nat * Update) :=
  [(0, requestsInFlight 1); (1, requestsInFlight 1); (1, requestsInFlight (-1)); (1, wsActiveSessions 1)].
Definition everything (rate : spec_float) : Instrumentation := mkInstrumentation true rate false true true.
End ObserveExample.
Lemma gauges_never_leak_witness :
  total in_flight ObserveExample.log.*2 = 1%Z /\ total sessions ObserveExample.log.*2 = 1%Z /\
  (total in_flight ObserveExample.log.*2 + total sessions ObserveExample.log.*2 <= 2)%Z.
Proof.
  split; [reflexivity|]. split; [reflexivity|].
  refine (proj1 (proj2 (gauges_never_leak ObserveExample.runs ObserveExample.log _))). split.
  - intros i u Hi. unfold ObserveExample.log in Hi. rewrite !elem_of_cons in Hi. cbn. destruct Hi as [[= -> ->]|[[= -> ->]|[[= -> ->]|[[= -> ->]|Hi]]]]; try lia.
    by apply not_elem_of_nil in Hi.
  - intros [|[|i]] trace Ht; cbn in Ht; [injection Ht as <-|injection Ht as <-|done]; eexists; reflexivity.
Defined.

(** ** Where the code departs from its comments *)

(** An informational status is recorded and forwarded as the final one: the status of
    the response is dropped, in the log, the metrics and at the client. *)
Lemma informational_status_recorded :
  let events := [re_call (w_WriteHeader 103); re_call (w_WriteHeader 404); re_call (w_Write 9)] in
  let observed := instrumentRequest (ObserveExample.everything float_one) (plain_request "GET" "h" "/" "" ∅) float_zero events in
  ob_calls observed = [w_WriteHeader 103; w_Write 9] /\ (al_status <$> ob_line observed) = Some 103%Z /\ (run_label events).2 = Some "1xx".
Proof. split_and!; reflexivity. Qed.
(** A rate that is not a number logs no response below 500. *)
Lemma nan_rate_logs_nothing status randFn : (status < 500)%Z -> shouldSampleAccessLog S754_nan status randFn = false.
Proof. intros H. rewrite sample_rate by done. by destruct randFn. Qed.
(** The rate of the traces has the same gap: a rate that is not a number is passed on. *)
Lemma nan_trace_rate_unclamped : clampSampleRate S754_nan = S754_nan.
Proof. reflexivity. Qed.
