(* ===== verification/Durations.v ===== *)
(** * Durations on the wire ([time.Duration] of the Go standard library,
      [RouteTimeouts] and [ParseConfig] of [proxy/config.go])

    The timeouts of a rule travel from the controller to the proxy as strings.  The
    printer and the parser of [time] are translated, and every 64-bit duration is read
    back as it was written; the product in floating point of the parser is a parameter
    that is exact where a double is. *)
From Stdlib Require Import Ascii DecimalString DecimalZ.
From stdpp Require Import sorting.
From stdpp Require Import base sets gmap strings list.
From S2P Require Import Prelude GoStrings GoHttp GoJson ProxyConfig Matcher Filters RouterState ConfigPush Converter.

(** ** [Duration.String] *)

Definition Nanosecond : Z := 1.
Definition Microsecond : Z := 1000.
Definition Millisecond : Z := 1000000.
Definition Second : Z := 1000000000.
Definition Minute : Z := 60000000000.
Definition Hour : Z := 3600000000000.
Definition digit_char (n : Z) : ascii := ascii_of_N (48 + Z.to_N n).
(** [fmtInt], of a number of at most twenty digits. *)
Fixpoint fmtInt_loop (fuel : nat) (v : Z) (acc : string) : string :=
  match fuel with
  | 0 => acc
  | S fuel => if (v <? 10)%Z then String (digit_char v) acc else fmtInt_loop fuel (v / 10) (String (digit_char (v mod 10)) acc)
  end.
Definition fmtInt (v : Z) : string := fmtInt_loop 20 v "".
(** The loop of [fmtFrac]: whether a digit was printed, the digits, and what is left. *)
Fixpoint fmtFrac_loop (prec : nat) (v : Z) (print : bool) (acc : string) : bool * string * Z :=
  match prec with
  | 0 => (print, acc, v)
  | S prec =>
      let digit := (v mod 10)%Z in
      let print := print || negb (digit =? 0)%Z in
      fmtFrac_loop prec (v / 10) print (if print then String (digit_char digit) acc else acc)
  end.
Definition fmtFrac (v : Z) (prec : nat) : string * Z :=
  let '(print, digits, v) := fmtFrac_loop prec v false "" in (if print then String "." digits else "", v).
(** The micro sign is U+00B5. *)
Definition micro : string := String (ascii_of_N 194) (String (ascii_of_N 181) EmptyString).
Definition micro_greek : string := String (ascii_of_N 206) (String (ascii_of_N 188) EmptyString).
Definition Duration_format (u : Z) : string :=
  if (u <? Second)%Z then
    if (u =? 0)%Z then "0s"
    else
      let '(prec, unit) := if (u <? Microsecond)%Z then (0, "ns") else if (u <? Millisecond)%Z then (3, micro +:+ "s") else (6, "ms") in
      let '(frac, v) := fmtFrac u prec in fmtInt v +:+ frac +:+ unit
  else
    let '(frac, u) := fmtFrac u 9 in
    let seconds := fmtInt (u mod 60) +:+ frac +:+ "s" in
    let u := (u / 60)%Z in
    if (0 <? u)%Z then
      let minutes := fmtInt (u mod 60) +:+ "m" +:+ seconds in
      let u := (u / 60)%Z in
      if (0 <? u)%Z then fmtInt u +:+ "h" +:+ minutes else minutes
    else seconds.
Definition Duration_String (d : Z) : string := if (d <? 0)%Z then "-" +:+ Duration_format (- d) else Duration_format d.

(** ** [time.ParseDuration] *)

(** [uint64(float64(f) * (float64(unit) / scale))] *)
Class FloatProduct := float_product : Z -> Z -> Z -> Z.
(** Doubles represent the integers below 2^53, and the operations on them that stay
    there are exact. *)
Class FloatProductLaws (fp : FloatProduct) : Prop :=
  float_product_exact f unit k : (0 <= f)%Z -> (0 < k)%Z -> (0 < unit)%Z -> (unit * k < 2 ^ 53)%Z -> (f * unit < 2 ^ 53)%Z ->
    float_product f (unit * k) k = (f * unit)%Z.
Inductive DurationError := invalid_duration | missing_unit | unknown_unit.
Definition digit_value (c : ascii) : Z := Z.of_N (byte_val c) - 48.
Definition MaxUint63 : Z := 9223372036854775808.      (* 1 << 63 *)
Fixpoint leadingInt (x : Z) (s : string) : option (Z * string) :=
  match s with
  | String c rest =>
      if is_digit c then
        if (MaxUint63 / 10 <? x)%Z then None
        else let x := (x * 10 + digit_value c)%Z in if (MaxUint63 <? x)%Z then None else leadingInt x rest
      else Some (x, s)
  | EmptyString => Some (x, s)
  end.
Fixpoint leadingFraction (x scale : Z) (overflow : bool) (s : string) : Z * Z * string :=
  match s with
  | String c rest =>
      if is_digit c then
        if overflow then leadingFraction x scale true rest
        else if ((MaxUint63 - 1) / 10 <? x)%Z then leadingFraction x scale true rest
        else
          let y := (x * 10 + digit_value c)%Z in
          if (MaxUint63 <? y)%Z then leadingFraction x scale true rest else leadingFraction y (scale * 10) false rest
      else (x, scale, s)
  | EmptyString => (x, scale, s)
  end.
Fixpoint split_unit (s : string) : string * string :=
  match s with
  | String c rest => if bool_decide (c = "."%char) || is_digit c then ("", s) else let '(u, rest) := split_unit rest in (String c u, rest)
  | EmptyString => ("", "")
  end.
Definition unitMap (u : string) : option Z :=
  if bool_decide (u = "ns") then Some Nanosecond
  else if bool_decide (u = "us") then Some Microsecond
  else if bool_decide (u = micro +:+ "s") then Some Microsecond
  else if bool_decide (u = micro_greek +:+ "s") then Some Microsecond
  else if bool_decide (u = "ms") then Some Millisecond
  else if bool_decide (u = "s") then Some Second
  else if bool_decide (u = "m") then Some Minute
  else if bool_decide (u = "h") then Some Hour
  else None.

Section parse.
Context {fp : FloatProduct}.
(** One round of the loop: what is added, and the rest. *)
Definition parse_component (s : string) : res DurationError (Z * string) :=
  match s with
  | EmptyString => Err invalid_duration
  | String c _ =>
      if negb (bool_decide (c = "."%char) || is_digit c) then Err invalid_duration
      else
        match leadingInt 0 s with
        | None => Err invalid_duration
        | Some (v, s1) =>
            let pre := negb (String.length s =? String.length s1) in
            let '(f, scale, s2, post) :=
              match s1 with
              | String "." s' => let '(f, scale, s2) := leadingFraction 0 1 false s' in (f, scale, s2, negb (String.length s' =? String.length s2))
              | _ => (0%Z, 1%Z, s1, false)
              end in
            if negb pre && negb post then Err invalid_duration
            else
              let '(u, rest) := split_unit s2 in
              if bool_decide (u = "") then Err missing_unit
              else
                match unitMap u with
                | None => Err unknown_unit
                | Some unit =>
                    if (MaxUint63 / unit <? v)%Z then Err invalid_duration
                    else
                      let v := (v * unit)%Z in
                      if (0 <? f)%Z then
                        let v := ((v + float_product f unit scale) mod 2 ^ 64)%Z in
                        if (MaxUint63 <? v)%Z then Err invalid_duration else Ok (v, rest)
                      else Ok (v, rest)
                end
        end
  end.
(** The loop; every round consumes a byte, so the length of the string is enough. *)
Fixpoint parse_loop (fuel : nat) (d : Z) (s : string) : res DurationError Z :=
  match s with
  | EmptyString => Ok d
  | String _ _ =>
      match fuel with
      | 0 => Err invalid_duration
      | S fuel =>
          '(v, rest) ← parse_component s;
          let d := ((d + v) mod 2 ^ 64)%Z in
          if (MaxUint63 <? d)%Z then Err invalid_duration else parse_loop fuel d rest
      end
  end.
Definition time_ParseDuration (s : string) : res DurationError Z :=
  let '(neg, s) := match s with
                   | String "-" rest => (true, rest)
                   | String "+" rest => (false, rest)
                   | _ => (false, s)
                   end in
  if bool_decide (s = "0") then Ok 0%Z
  else if bool_decide (s = "") then Err invalid_duration
  else
    d ← parse_loop (String.length s) 0 s;
    if neg : bool then Ok (int64 (- d)) else if (MaxInt64 <? d)%Z then Err invalid_duration else Ok d.

(** ** The timeouts of a rule *)

(** The wire format; an empty field is omitted. *)
Record routeTimeoutsJSON := mkTimeoutsJSON { tj_Request : string; tj_Backend : string }.
Class TimeoutsCodec := { timeouts_Marshal : routeTimeoutsJSON -> string; timeouts_Unmarshal : string -> option routeTimeoutsJSON }.
Inductive TimeoutsError := invalid_timeouts_JSON | invalid_request_timeout (raw : string) | invalid_backend_timeout (raw : string).
Definition RouteTimeouts_MarshalJSON {codec : TimeoutsCodec} (rt : RouteTimeouts) : string :=
  timeouts_Marshal (mkTimeoutsJSON (if negb (to_Request rt =? 0)%Z then Duration_String (to_Request rt) else "")
                                   (if negb (to_Backend rt =? 0)%Z then Duration_String (to_Backend rt) else "")).
(** [rt] is the value the method is called on. *)
Definition RouteTimeouts_UnmarshalJSON {codec : TimeoutsCodec} (rt : RouteTimeouts) (data : string) : res TimeoutsError RouteTimeouts :=
  match timeouts_Unmarshal data with
  | None => Err invalid_timeouts_JSON
  | Some aux =>
      request ← (if negb (bool_decide (tj_Request aux = "")) then map_err (fun _ => invalid_request_timeout (tj_Request aux)) (time_ParseDuration (tj_Request aux))
                 else Ok (to_Request rt));
      backend ← (if negb (bool_decide (tj_Backend aux = "")) then map_err (fun _ => invalid_backend_timeout (tj_Backend aux)) (time_ParseDuration (tj_Backend aux))
                 else Ok (to_Backend rt));
      Ok (mkRouteTimeouts request backend)
  end.
End parse.
Inductive ParseConfigError := parse_failed | invalid_config (e : ConfigError).
Definition ParseConfig {codec : JsonConfig} (data : string) : res ParseConfigError Config :=
  match config_Unmarshal data with
  | None => Err parse_failed
  | Some cfg => _ ← map_err invalid_config (Validate cfg); Ok cfg
  end.

(** ** Digits *)

Local Open Scope Z_scope.
Fixpoint dval (s : string) : Z :=
  match s with String c rest => digit_value c * 10 ^ Z.of_nat (String.length rest) + dval rest | EmptyString => 0 end.
Notation digits s := (str_forallb is_digit s = true).
Lemma digit_char_spec n : 0 <= n < 10 -> is_digit (digit_char n) = true /\ digit_value (digit_char n) = n.
Proof.
  intros H. assert (Hall : forallb (fun n => is_digit (digit_char n) && (digit_value (digit_char n) =? n)) (seqZ 0 10) = true) by reflexivity.
  rewrite forallb_forall in Hall. specialize (Hall n). rewrite <- list_elem_of_In, elem_of_seqZ, andb_true_iff, Z.eqb_eq in Hall. by apply Hall.
Qed.
Lemma digit_value_range c : is_digit c = true -> 0 <= digit_value c < 10.
Proof. unfold is_digit, in_range, digit_value. intros H. apply andb_true_iff in H as [H1 H2]. apply N.leb_le in H1, H2. unfold byte_val in *. cbn in H1, H2. lia. Qed.
Lemma dval_app a b : dval (a +:+ b) = dval a * 10 ^ Z.of_nat (String.length b) + dval b.
Proof.
  induction a as [|c a IH]; [rewrite sapp_nil_l; cbn; lia|]. rewrite sapp_cons. cbn [dval]. rewrite IH, length_sapp, Nat2Z.inj_add, Z.pow_add_r by lia. lia.
Qed.
Lemma pow10_S (n : nat) : 10 ^ Z.of_nat (S n) = 10 * 10 ^ Z.of_nat n.
Proof. rewrite Nat2Z.inj_succ, Z.pow_succ_r by lia. done. Qed.
Lemma pow10_pos (n : nat) : 0 < 10 ^ Z.of_nat n.
Proof. apply Z.pow_pos_nonneg; lia. Qed.
Lemma dval_range s : digits s -> 0 <= dval s < 10 ^ Z.of_nat (String.length s).
Proof.
  induction s as [|c s IH]; [cbn; lia|]. cbn [str_forallb String.length dval]. rewrite andb_true_iff, pow10_S. intros [Hc Hs].
  pose proof (digit_value_range c Hc). specialize (IH Hs). pose proof (pow10_pos (String.length s)). nia.
Qed.
Lemma fmtInt_loop_spec fuel v acc :
  0 <= v < 10 ^ Z.of_nat fuel -> (0 < fuel)%nat ->
  exists ds, fmtInt_loop fuel v acc = ds +:+ acc /\ digits ds /\ ds <> "" /\ dval ds = v.
Proof.
  revert v acc. induction fuel as [|fuel IH]; intros v acc Hv Hf; [lia|]. cbn [fmtInt_loop]. destruct (Z.ltb_spec v 10) as [Hs|Hs].
  - destruct (digit_char_spec v ltac:(lia)) as [Hd Hval]. exists (String (digit_char v) ""). split_and!; [done| |done|cbn; lia]. cbn. by rewrite Hd.
  - rewrite pow10_S in Hv. assert (Hq : 0 <= v / 10 < 10 ^ Z.of_nat fuel).
    { split; [apply Z.div_pos; lia|apply Z.div_lt_upper_bound; lia]. }
    destruct fuel as [|fuel]; [cbn in Hq; assert (1 <= v / 10) by (apply Z.div_le_lower_bound; lia); lia|].
    destruct (IH (v / 10) (String (digit_char (v mod 10)) acc) Hq ltac:(lia)) as (ds & -> & Hds & Hne & Hval).
    pose proof (Z.mod_pos_bound v 10 ltac:(lia)) as Hm. destruct (digit_char_spec (v mod 10) Hm) as [Hd Hdv].
    exists (ds +:+ String (digit_char (v mod 10)) ""). rewrite sapp_assoc, str_forallb_app, Hds, dval_app. cbn. rewrite Hd, Hval, Hdv.
    split_and!; [done|done|by destruct ds|]. pose proof (Z.div_mod v 10 ltac:(lia)). lia.
Qed.
Lemma fmtInt_spec v : 0 <= v <= MaxUint63 -> exists ds, fmtInt v = ds /\ digits ds /\ ds <> "" /\ dval ds = v.
Proof.
  intros Hv. unfold MaxUint63 in Hv. destruct (fmtInt_loop_spec 20 v "" ltac:(cbn; lia) ltac:(lia)) as (ds & He & H). exists ds.
  unfold fmtInt. rewrite He, sapp_nil_r. done.
Qed.
Lemma fmtFrac_loop_true prec v acc : (fmtFrac_loop prec v true acc).1.1 = true.
Proof. revert v acc. induction prec as [|prec IH]; intros v acc; [done|apply IH]. Qed.
Lemma fmtFrac_loop_spec prec v print acc :
  0 <= v -> (print = false -> acc = "") ->
  let '(print', acc', v') := fmtFrac_loop prec v print acc in
  v' = v / 10 ^ Z.of_nat prec /\
  exists ds, acc' = ds +:+ acc /\ digits ds /\ (String.length ds <= prec)%nat /\ (print = true -> String.length ds = prec) /\
    dval ds * 10 ^ Z.of_nat (prec - String.length ds) = v mod 10 ^ Z.of_nat prec /\
    (print = false -> print' = negb (bool_decide (ds = ""))).
Proof.
  revert v print acc. induction prec as [|prec IH]; intros v print acc Hv Hacc; cbn [fmtFrac_loop].
  - split; [by rewrite Z.div_1_r|]. exists "". rewrite sapp_nil_l. split_and!; try done. cbn. by rewrite Z.mod_1_r.
  - pose proof (Z.mod_pos_bound v 10 ltac:(lia)) as Hm. pose proof (Z.div_pos v 10 Hv ltac:(lia)) as Hq.
    destruct (digit_char_spec (v mod 10) Hm) as [Hd Hdv].
    assert (Hdiv : v / 10 / 10 ^ Z.of_nat prec = v / 10 ^ Z.of_nat (S prec)) by (rewrite Z.div_div, pow10_S; [done|lia|apply pow10_pos]).
    assert (Hmod : v mod 10 ^ Z.of_nat (S prec) = v mod 10 + 10 * ((v / 10) mod 10 ^ Z.of_nat prec)).
    { rewrite pow10_S, Z.rem_mul_r; [done|lia|apply pow10_pos]. }
    destruct (print || negb (v mod 10 =? 0)) eqn:Hp.
    + specialize (IH (v / 10) true (String (digit_char (v mod 10)) acc) Hq ltac:(done)).
      destruct (fmtFrac_loop prec (v / 10) true _) as [[print' acc'] v'] eqn:Hl. destruct IH as (-> & ds & -> & Hds & Hlen & Hfull & Hval & _).
      split; [exact Hdiv|]. specialize (Hfull eq_refl). exists (ds +:+ String (digit_char (v mod 10)) "").
      rewrite sapp_assoc, str_forallb_app, Hds, length_sapp, dval_app, Hmod. cbn [String.length str_forallb dval]. rewrite Hd, Hdv.
      replace (S prec - (String.length ds + 1))%nat with 0%nat by lia. rewrite Hfull, Nat.sub_diag in Hval. change (10 ^ Z.of_nat 0) with 1 in *. change (10 ^ Z.of_nat 1) with 10.
      split_and!; [done|done|lia|intros; lia|lia|]. intros _. rewrite bool_decide_eq_false_2 by (intros He; apply (f_equal String.length) in He; rewrite length_sapp in He; cbn in He; lia).
      change print' with (print', ds +:+ String (digit_char (v mod 10)) acc, v / 10 / 10 ^ Z.of_nat prec).1.1. rewrite <- Hl. apply fmtFrac_loop_true.
    + apply orb_false_iff in Hp as [-> Hz]. apply negb_false_iff, Z.eqb_eq in Hz. rewrite (Hacc eq_refl).
      specialize (IH (v / 10) false "" Hq ltac:(done)). destruct (fmtFrac_loop prec (v / 10) false "") as [[print' acc'] v'].
      destruct IH as (-> & ds & -> & Hds & Hlen & _ & Hval & Hpr). split; [exact Hdiv|]. exists ds. rewrite Hmod, Hz, <- Hval.
      replace (S prec - String.length ds)%nat with (S (prec - String.length ds)) by lia. rewrite pow10_S.
      split_and!; [done|done|lia|done|lia|]. intros _. by apply Hpr.
Qed.

(** ** Reading digits back *)

(** What may follow a number or a unit. *)
Definition no_digit (s : string) : Prop := match s with String c _ => is_digit c = false | EmptyString => True end.
Definition unit_stops (s : string) : Prop := match s with String c _ => (c = "."%char \/ is_digit c = true) | EmptyString => True end.
Lemma leadingInt_digits ds rest x :
  digits ds -> no_digit rest -> 0 <= x -> x * 10 ^ Z.of_nat (String.length ds) + dval ds <= MaxUint63 ->
  leadingInt x (ds +:+ rest) = Some (x * 10 ^ Z.of_nat (String.length ds) + dval ds, rest).
Proof.
  revert x. induction ds as [|c ds IH]; intros x Hds Hr Hx Hb.
  - rewrite sapp_nil_l. cbn [String.length dval] in *. change (10 ^ Z.of_nat 0) with 1 in *. replace (x * 1 + 0) with x by lia.
    destruct rest as [|c rest]; [done|]. cbn in *. by rewrite Hr.
  - cbn [str_forallb] in Hds. apply andb_true_iff in Hds as [Hc Hds]. cbn [String.length dval] in *. rewrite pow10_S in Hb |- *.
    pose proof (digit_value_range c Hc) as Hv. pose proof (dval_range ds Hds) as Hd. pose proof (pow10_pos (String.length ds)) as Hp.
    rewrite sapp_cons. cbn [leadingInt]. rewrite Hc.
    assert (Hle : x * 10 + digit_value c <= MaxUint63) by nia.
    rewrite (proj2 (Z.ltb_ge _ _)) by (apply Z.div_le_lower_bound; lia). rewrite (proj2 (Z.ltb_ge _ _)) by lia.
    rewrite IH by (try done; nia). do 2 f_equal. lia.
Qed.
Lemma leadingFraction_digits ds rest x scale :
  digits ds -> no_digit rest -> 0 <= x -> x * 10 ^ Z.of_nat (String.length ds) + dval ds < MaxUint63 ->
  leadingFraction x scale false (ds +:+ rest) =
    (x * 10 ^ Z.of_nat (String.length ds) + dval ds, scale * 10 ^ Z.of_nat (String.length ds), rest).
Proof.
  revert x scale. induction ds as [|c ds IH]; intros x scale Hds Hr Hx Hb.
  - rewrite sapp_nil_l. cbn [String.length dval] in *. change (10 ^ Z.of_nat 0) with 1 in *. replace (x * 1 + 0) with x by lia. rewrite Z.mul_1_r.
    destruct rest as [|c rest]; [done|]. cbn in *. by rewrite Hr.
  - cbn [str_forallb] in Hds. apply andb_true_iff in Hds as [Hc Hds]. cbn [String.length dval] in *. rewrite pow10_S in Hb |- *.
    pose proof (digit_value_range c Hc) as Hv. pose proof (dval_range ds Hds) as Hd. pose proof (pow10_pos (String.length ds)) as Hp.
    rewrite sapp_cons. cbn [leadingFraction]. rewrite Hc.
    assert (Hle : x * 10 + digit_value c < MaxUint63) by nia.
    rewrite (proj2 (Z.ltb_ge _ _)) by (apply Z.div_le_lower_bound; lia). rewrite (proj2 (Z.ltb_ge _ _)) by lia.
    rewrite IH by (try done; nia). apply f_equal2; [apply f_equal2; lia|done].
Qed.
Definition plain_unit (u : string) : Prop := str_forallb (fun c => negb (bool_decide (c = "."%char) || is_digit c)) u = true /\ u <> "".
Lemma split_unit_app u rest : plain_unit u -> unit_stops rest -> split_unit (u +:+ rest) = (u, rest).
Proof.
  intros [Hu _] Hr. induction u as [|c u IH].
  - rewrite sapp_nil_l. destruct rest as [|c rest]; [done|]. cbn. destruct Hr as [->|Hr]; [done|]. by rewrite Hr, orb_true_r.
  - cbn [str_forallb] in Hu. apply andb_true_iff in Hu as [Hc Hu]. apply negb_true_iff in Hc. rewrite sapp_cons. cbn [split_unit]. by rewrite Hc, (IH Hu).
Qed.
Lemma plain_no_digit u rest : plain_unit u -> no_digit (u +:+ rest).
Proof.
  intros [Hu Hne]. destruct u as [|c u]; [done|]. cbn in *. apply andb_true_iff in Hu as [Hc _]. apply negb_true_iff, orb_false_iff in Hc. tauto.
Qed.
Lemma plain_no_dot u rest : plain_unit u -> forall s, u +:+ rest <> String "." s.
Proof.
  intros [Hu Hne] s He. destruct u as [|c u]; [done|]. rewrite sapp_cons in He. injection He as -> _. done.
Qed.
(** A component that starts with digits passes the first test. *)
Lemma digits_head ds rest : digits ds -> ds <> "" -> exists c s, ds +:+ rest = String c s /\ is_digit c = true.
Proof. intros Hd Hne. destruct ds as [|c ds]; [done|]. cbn in Hd. apply andb_true_iff in Hd as [Hc _]. by exists c, (ds +:+ rest). Qed.

(** A printed duration ends in its unit. *)
Lemma unit_not_zero s t : s +:+ t +:+ "s" <> "0".
Proof. intros H. apply (f_equal (fun x => HasSuffix x "s")) in H. rewrite <- sapp_assoc, HasSuffix_app in H. discriminate. Qed.

Section roundtrip.
Context {fp : FloatProduct} {laws : FloatProductLaws fp}.
Lemma no_dot_match {A} (s : string) (f : string -> A) (d : A) :
  (forall s', s <> String "." s') -> match s with String "." s' => f s' | _ => d end = d.
Proof. intros H. destruct s as [|c s]; [done|]. destruct (decide (c = "."%char)) as [->|Hc]; [by destruct (H s)|]. destruct c as [[] [] [] [] [] [] [] []]; done. Qed.
Lemma component_int v u unit rest :
  0 <= v -> 0 < unit -> v * unit <= MaxUint63 -> plain_unit u -> unitMap u = Some unit -> unit_stops rest ->
  parse_component (fmtInt v +:+ u +:+ rest) = Ok (v * unit, rest).
Proof.
  intros Hv Hunit Hb Hu Hmap Hr. assert (Hv' : v <= MaxUint63) by nia.
  destruct (fmtInt_spec v ltac:(lia)) as (ds & -> & Hds & Hne & Hval). unfold parse_component.
  destruct (digits_head ds (u +:+ rest) Hds Hne) as (c & s & He & Hc). rewrite He, Hc, orb_true_r. cbn [negb]. rewrite <- He.
  rewrite leadingInt_digits by first [done|by apply plain_no_digit|lia]. rewrite Z.mul_0_l, Z.add_0_l, Hval.
  rewrite (no_dot_match (u +:+ rest) (fun s' => let '(f, scale, s2) := leadingFraction 0 1 false s' in (f, scale, s2, negb (String.length s' =? String.length s2)%nat)))
    by (by apply plain_no_dot).
  assert (Hpre : (String.length (ds +:+ u +:+ rest) =? String.length (u +:+ rest))%nat = false).
  { apply Nat.eqb_neq. rewrite (length_sapp ds). destruct ds; [done|cbn; lia]. }
  rewrite Hpre. cbn [negb andb]. rewrite split_unit_app by done. destruct Hu as [_ Hne']. rewrite bool_decide_eq_false_2 by done.
  rewrite Hmap. rewrite (proj2 (Z.ltb_ge _ _)) by (apply Z.div_le_lower_bound; lia). done.
Qed.
Lemma component_frac w i prec u rest :
  0 <= w -> 0 <= i -> i * 10 ^ Z.of_nat prec + w mod 10 ^ Z.of_nat prec <= MaxUint63 -> (prec <= 9)%nat ->
  plain_unit u -> unitMap u = Some (10 ^ Z.of_nat prec) -> unit_stops rest ->
  parse_component (fmtInt i +:+ (fmtFrac w prec).1 +:+ u +:+ rest) = Ok (i * 10 ^ Z.of_nat prec + w mod 10 ^ Z.of_nat prec, rest).
Proof.
  intros Hw Hi Hb Hprec Hu Hmap Hr. unfold fmtFrac. pose proof (fmtFrac_loop_spec prec w false "" Hw ltac:(done)) as H.
  destruct (fmtFrac_loop prec w false "") as [[print acc] v]. destruct H as (_ & ds & Hacc & Hds & Hlen & _ & Hval & Hprint).
  rewrite sapp_nil_r in Hacc. subst acc. specialize (Hprint eq_refl). cbn [fst].
  pose proof (pow10_pos prec) as Hp. pose proof (Z.mod_pos_bound w _ Hp) as Hm.
  destruct print.
  - assert (Hib : i <= MaxUint63) by nia.
    destruct (fmtInt_spec i ltac:(lia)) as (is_ & -> & His & Hine & Hival). unfold parse_component.
    destruct (digits_head is_ (String "." (ds +:+ u +:+ rest)) His Hine) as (c & s & He & Hc). rewrite ?sapp_cons. rewrite He, Hc, orb_true_r. cbn [negb]. rewrite <- He.
    rewrite leadingInt_digits by (try done; lia). rewrite Z.mul_0_l, Z.add_0_l, Hival.
    pose proof (dval_range ds Hds) as Hdr. assert (Hpl : 10 ^ Z.of_nat (String.length ds) <= 10 ^ 9) by (apply Z.pow_le_mono_r; lia).
    assert (Hc9 : 10 ^ 9 = 1000000000) by done. assert (Hpb : 10 ^ Z.of_nat prec <= 10 ^ 9) by (apply Z.pow_le_mono_r; lia).
    rewrite leadingFraction_digits by first [done|by apply plain_no_digit|unfold MaxUint63; lia]. rewrite Z.mul_0_l, Z.add_0_l, Z.mul_1_l.
    assert (Hpre : (String.length (is_ +:+ String "." (ds +:+ u +:+ rest)) =? String.length (String "." (ds +:+ u +:+ rest)))%nat = false).
    { apply Nat.eqb_neq. rewrite (length_sapp is_). destruct is_; [done|cbn; lia]. }
    rewrite Hpre. cbn [negb andb]. rewrite split_unit_app by done. pose proof Hu as [_ Hne']. rewrite bool_decide_eq_false_2 by done. rewrite Hmap.
    rewrite (proj2 (Z.ltb_ge _ _)) by (apply Z.div_le_lower_bound; lia).
    assert (Hsplit : 10 ^ Z.of_nat prec = 10 ^ Z.of_nat (prec - String.length ds) * 10 ^ Z.of_nat (String.length ds)).
    { rewrite <- Z.pow_add_r by lia. f_equal. lia. }
    pose proof (pow10_pos (prec - String.length ds)) as Hq. pose proof (pow10_pos (String.length ds)) as Hq'.
    destruct (Z.ltb_spec 0 (dval ds)) as [Hf|Hf].
    + assert (Hfp : float_product (dval ds) (10 ^ Z.of_nat prec) (10 ^ Z.of_nat (String.length ds)) = w mod 10 ^ Z.of_nat prec).
      { rewrite <- Hval, Hsplit. apply float_product_exact; lia. }
      rewrite Hfp, Z.mod_small by (unfold MaxUint63 in *; lia). by rewrite (proj2 (Z.ltb_ge _ _)) by lia.
    + assert (Hz : dval ds = 0) by lia. rewrite Hz in Hval. do 2 f_equal. lia.
  - symmetry in Hprint. apply negb_false_iff, bool_decide_eq_true in Hprint. subst ds. cbn in Hval. rewrite sapp_nil_l.
    rewrite (component_int i u _ rest Hi Hp) by (try done; lia). do 2 f_equal. lia.
Qed.
Lemma fmtFrac_rest w prec : 0 <= w -> (fmtFrac w prec).2 = w / 10 ^ Z.of_nat prec.
Proof.
  intros Hw. unfold fmtFrac. pose proof (fmtFrac_loop_spec prec w false "" Hw ltac:(done)) as H.
  destruct (fmtFrac_loop prec w false "") as [[print acc] v]. by destruct H as [-> _].
Qed.

Lemma parse_loop_mono n m d s x : parse_loop n d s = Ok x -> (n <= m)%nat -> parse_loop m d s = Ok x.
Proof.
  revert m d s. induction n as [|n IH]; intros m d s H Hle.
  - destruct s; [by destruct m|done].
  - destruct s as [|c s]; [by destruct m|]. destruct m as [|m]; [lia|]. cbn [parse_loop] in *.
    destruct (parse_component (String c s)) as [[v rest]|e]; [|done]. cbn in *. destruct (MaxUint63 <? _); [done|]. apply IH; [done|lia].
Qed.
(** [s] reads as [u] in [n] rounds, on top of what was read before. *)
Definition reads (n : nat) (s : string) (u : Z) : Prop :=
  (n <= String.length s)%nat /\ 0 <= u /\ (exists c s', s = String c s' /\ is_digit c = true) /\
  forall d, 0 <= d -> d + u <= MaxUint63 -> parse_loop n d s = Ok (d + u).
Lemma reads_eq n s x y : reads n s x -> x = y -> reads n s y.
Proof. by intros H <-. Qed.
Lemma reads_last s u : 0 <= u -> (exists c s', s = String c s' /\ is_digit c = true) -> parse_component s = Ok (u, "") -> reads 1 s u.
Proof.
  intros Hu (c & s' & -> & Hc) Hp. split_and!; [cbn; lia|done|by exists c, s'|]. intros d Hd Hb. cbn [parse_loop]. rewrite Hp. cbn.
  rewrite Z.mod_small by (unfold MaxUint63 in *; lia). by rewrite (proj2 (Z.ltb_ge _ _)) by lia.
Qed.
Lemma reads_cons n pre s v u :
  0 <= v -> (exists c s', pre +:+ s = String c s' /\ is_digit c = true) -> pre <> "" -> parse_component (pre +:+ s) = Ok (v, s) -> reads n s u ->
  reads (S n) (pre +:+ s) (v + u).
Proof.
  intros Hv (c & s' & He & Hc) Hne Hp (Hlen & Hu & _ & Hs). split_and!.
  - rewrite length_sapp. destruct pre; [done|cbn; lia].
  - lia.
  - by exists c, s'.
  - intros d Hd Hb. rewrite He. cbn [parse_loop]. rewrite <- He, Hp. cbn. rewrite Z.mod_small by (unfold MaxUint63 in *; lia).
    rewrite (proj2 (Z.ltb_ge _ _)) by lia. rewrite Hs by lia. f_equal. lia.
Qed.
Lemma fmtInt_head v rest : 0 <= v <= MaxUint63 -> exists c s', fmtInt v +:+ rest = String c s' /\ is_digit c = true.
Proof. intros Hv. destruct (fmtInt_spec v Hv) as (ds & -> & Hd & Hne & _). by apply digits_head. Qed.
Lemma fmtInt_nonempty v u : 0 <= v <= MaxUint63 -> fmtInt v +:+ u <> "".
Proof. intros Hv H. destruct (fmtInt_head v u Hv) as (c & s & He & _). congruence. Qed.
Lemma reads_int n v u unit s x :
  0 <= v -> 0 < unit -> v * unit <= MaxUint63 -> plain_unit u -> unitMap u = Some unit -> reads n s x ->
  reads (S n) (fmtInt v +:+ u +:+ s) (v * unit + x).
Proof.
  intros Hv Hunit Hb Hu Hmap Hs. assert (Hv' : v <= MaxUint63) by nia. rewrite <- sapp_assoc. apply reads_cons; [lia| | | |done].
  - rewrite sapp_assoc. by apply fmtInt_head.
  - by apply fmtInt_nonempty.
  - rewrite sapp_assoc. apply component_int; try done. destruct Hs as (_ & _ & (c & s' & -> & Hc) & _). by right.
Qed.
Lemma reads_frac w i prec u :
  0 <= w -> 0 <= i -> i * 10 ^ Z.of_nat prec + w mod 10 ^ Z.of_nat prec <= MaxUint63 -> (prec <= 9)%nat ->
  plain_unit u -> unitMap u = Some (10 ^ Z.of_nat prec) ->
  reads 1 (fmtInt i +:+ (fmtFrac w prec).1 +:+ u) (i * 10 ^ Z.of_nat prec + w mod 10 ^ Z.of_nat prec).
Proof.
  intros Hw Hi Hb Hprec Hu Hmap. pose proof (component_frac w i prec u "" Hw Hi Hb Hprec Hu Hmap I) as Hp. rewrite sapp_nil_r in Hp.
  pose proof (pow10_pos prec) as Hpow. pose proof (Z.mod_pos_bound w _ Hpow) as Hm.
  apply reads_last; [nia| |done]. apply fmtInt_head. nia.
Qed.
Lemma reads_small w prec u :
  0 <= w <= MaxUint63 -> (prec <= 9)%nat -> plain_unit u -> unitMap u = Some (10 ^ Z.of_nat prec) ->
  let '(frac, v) := fmtFrac w prec in reads 1 (fmtInt v +:+ frac +:+ u) w.
Proof.
  intros Hw Hprec Hu Hmap. pose proof (fmtFrac_rest w prec ltac:(lia)) as Hv. pose proof (pow10_pos prec) as Hp.
  pose proof (Z.div_mod w (10 ^ Z.of_nat prec) ltac:(lia)) as Hdm. pose proof (Z.div_pos w _ (proj1 Hw) Hp) as Hq.
  pose proof (reads_frac w (w / 10 ^ Z.of_nat prec) prec u (proj1 Hw) Hq ltac:(lia) Hprec Hu Hmap) as Hr.
  destruct (fmtFrac w prec) as [frac v]. cbn [fst snd] in *. subst v.
  assert (He : w / 10 ^ Z.of_nat prec * 10 ^ Z.of_nat prec + w mod 10 ^ Z.of_nat prec = w) by lia. rewrite He in Hr. exact Hr.
Qed.
Lemma format_reads u : 0 <= u <= MaxUint63 -> (exists n, reads n (Duration_format u) u) /\ Duration_format u <> "0".
Proof.
  intros Hu. unfold Duration_format. destruct (Z.ltb_spec u Second) as [Hs|Hs].
  - destruct (Z.eqb_spec u 0) as [->|Hz]; [split; [|done]; exists 1%nat; apply reads_last; [lia|by eexists _, _|reflexivity]|].
    destruct (Z.ltb_spec u Microsecond); [|destruct (Z.ltb_spec u Millisecond)].
    + pose proof (reads_small u 0 "ns" Hu ltac:(lia) ltac:(done) eq_refl) as H1. destruct (fmtFrac u 0) as [frac v].
      split; [by exists 1%nat|]. rewrite <- sapp_assoc. apply (unit_not_zero _ "n").
    + pose proof (reads_small u 3 (micro +:+ "s") Hu ltac:(lia) ltac:(done) eq_refl) as H1. destruct (fmtFrac u 3) as [frac v].
      split; [by exists 1%nat|]. rewrite <- sapp_assoc. apply (unit_not_zero _ micro).
    + pose proof (reads_small u 6 "ms" Hu ltac:(lia) ltac:(done) eq_refl) as H1. destruct (fmtFrac u 6) as [frac v].
      split; [by exists 1%nat|]. rewrite <- sapp_assoc. apply (unit_not_zero _ "m").
  - pose proof (fmtFrac_rest u 9 ltac:(lia)) as Hv. pose proof (reads_frac u) as Hfrac. specialize (Hfrac ((u / 10 ^ Z.of_nat 9) mod 60) 9%nat "s").
    change (10 ^ Z.of_nat 9) with Second in *. set (v := u / Second) in *. destruct (fmtFrac u 9) as [frac v']. cbn [fst snd] in *. subst v'.
    assert (Hvb : 0 <= v /\ u = Second * v + u mod Second /\ 0 <= u mod Second < Second).
    { split; [apply Z.div_pos; unfold Second in *; lia|]. split; [apply Z.div_mod; done|apply Z.mod_pos_bound; done]. }
    pose proof (Z.mod_pos_bound v 60 ltac:(lia)) as Hm1. pose proof (Z.div_mod v 60 ltac:(lia)) as Hd1. pose proof (Z.div_pos v 60 ltac:(lia) ltac:(lia)) as Hp1.
    assert (Hsec : reads 1 (fmtInt (v mod 60) +:+ frac +:+ "s") (v mod 60 * Second + u mod Second)).
    { apply Hfrac; try done; unfold Second, MaxUint63 in *; lia. }
    split.
    + destruct (Z.ltb_spec 0 (v / 60)) as [Hpos|Hpos].
      2:{ exists 1%nat. eapply reads_eq; [exact Hsec|unfold Second in *; lia]. }
      pose proof (Z.mod_pos_bound (v / 60) 60 ltac:(lia)) as Hm2. pose proof (Z.div_mod (v / 60) 60 ltac:(lia)) as Hd2.
      pose proof (Z.div_pos (v / 60) 60 ltac:(lia) ltac:(lia)) as Hp2.
      assert (Hmin : reads 2 (fmtInt ((v / 60) mod 60) +:+ "m" +:+ fmtInt (v mod 60) +:+ frac +:+ "s")
                       ((v / 60) mod 60 * Minute + (v mod 60 * Second + u mod Second))).
      { apply reads_int; try done; unfold Minute, MaxUint63 in *; lia. }
      destruct (Z.ltb_spec 0 (v / 60 / 60)) as [Hpos2|Hpos2].
      * exists 3%nat. apply (reads_eq _ _ (v / 60 / 60 * Hour + ((v / 60) mod 60 * Minute + (v mod 60 * Second + u mod Second)))).
        -- apply reads_int; try done; unfold Hour, Second, MaxUint63 in *; lia.
        -- unfold Hour, Minute, Second in *; lia.
      * exists 2%nat. eapply reads_eq; [exact Hmin|unfold Minute, Second in *; lia].
    + destruct (0 <? v / 60); [destruct (0 <? v / 60 / 60)|]; intros H; apply (f_equal (fun x => HasSuffix x "s")) in H;
        rewrite <- ?sapp_assoc, HasSuffix_app in H; discriminate.
Qed.
Lemma sign_of_digit c s :
  is_digit c = true ->
  match String c s with String "-" rest => (true, rest) | String "+" rest => (false, rest) | _ => (false, String c s) end = (false, String c s).
Proof. destruct c as [[] [] [] [] [] [] [] []]; done. Qed.
(** Every 64-bit duration, the least one included, is read back as it was printed. *)
Lemma parse_format d : is_int64 d -> time_ParseDuration (Duration_String d) = Ok d.
Proof.
  intros Hd. unfold is_int64, MaxInt64 in Hd. unfold time_ParseDuration, Duration_String. destruct (Z.ltb_spec d 0) as [Hn|Hn].
  - destruct (format_reads (- d)) as [(n & Hlen & _ & (c & s & He & _) & Hr) Hz]; [unfold MaxUint63; lia|].
    change ("-" +:+ Duration_format (- d)) with (String "-" (Duration_format (- d))). cbv iota beta.
    rewrite bool_decide_eq_false_2 by done. rewrite (bool_decide_eq_false_2 (Duration_format (- d) = "")) by (rewrite He; done).
    rewrite (parse_loop_mono n _ 0 _ (- d)) by (try done; apply Hr; unfold MaxUint63; lia). cbn [mbind res_bind].
    rewrite Z.opp_involutive, int64_id; [done|unfold is_int64, MaxInt64; lia].
  - destruct (format_reads d) as [(n & Hlen & _ & (c & s & He & Hc) & Hr) Hz]; [unfold MaxUint63; lia|].
    rewrite He, (sign_of_digit c s Hc), <- He. rewrite bool_decide_eq_false_2 by done.
    rewrite (bool_decide_eq_false_2 (Duration_format d = "")) by (rewrite He; done).
    rewrite (parse_loop_mono n _ 0 _ d) by (try done; apply Hr; unfold MaxUint63; lia). cbn [mbind res_bind].
    by rewrite (proj2 (Z.ltb_ge _ _)) by (unfold MaxInt64; lia).
Qed.
Lemma String_nonempty d : is_int64 d -> Duration_String d <> "".
Proof. intros Hd H. pose proof (parse_format d Hd) as Hp. rewrite H in Hp. done. Qed.

(** ** Durations print as UTF-8 *)

(** A prefix that decodes by itself into valid runes. *)
Definition utf8_text (s : string) : Prop := forall t, ValidString (s +:+ t) = ValidString t.
Lemma utf8_nil : utf8_text "".
Proof. done. Qed.
Lemma utf8_app a b : utf8_text a -> utf8_text b -> utf8_text (a +:+ b).
Proof. intros Ha Hb t. by rewrite sapp_assoc, Ha, Hb. Qed.
Lemma utf8_cons c s : (byte_val c <? 128)%N = true -> utf8_text s -> utf8_text (String c s).
Proof. intros Hc Hs t. rewrite sapp_cons, <- (Hs t). unfold ValidString. cbn [runes]. by rewrite Hc. Qed.
Lemma utf8_micro s : utf8_text s -> utf8_text (micro +:+ s).
Proof. intros Hs t. rewrite <- (Hs t). reflexivity. Qed.
Lemma digit_char_ascii n : n < 10 -> (byte_val (digit_char n) <? 128)%N = true.
Proof. intros Hn. unfold byte_val, digit_char. rewrite N_ascii_embedding by lia. apply N.ltb_lt. lia. Qed.
Lemma fmtInt_loop_utf8 fuel v acc : utf8_text acc -> utf8_text (fmtInt_loop fuel v acc).
Proof.
  revert v acc. induction fuel as [|fuel IH]; intros v acc Ha; cbn [fmtInt_loop]; [done|].
  destruct (Z.ltb_spec v 10); [|apply IH]; apply utf8_cons; try done; apply digit_char_ascii; [lia|].
  apply Z.mod_pos_bound. lia.
Qed.
Lemma fmtFrac_loop_utf8 prec v print acc : utf8_text acc -> utf8_text (fmtFrac_loop prec v print acc).1.2.
Proof.
  revert v print acc. induction prec as [|prec IH]; intros v print acc Ha; cbn [fmtFrac_loop]; [done|].
  apply IH. destruct (_ || _); [|done]. apply utf8_cons; [apply digit_char_ascii, Z.mod_pos_bound; lia|done].
Qed.
Lemma fmtFrac_utf8 v prec : utf8_text (fmtFrac v prec).1.
Proof.
  unfold fmtFrac. pose proof (fmtFrac_loop_utf8 prec v false "" utf8_nil) as H.
  destruct (fmtFrac_loop prec v false "") as [[print digits] v']. simpl in *. destruct print; [by apply utf8_cons|done].
Qed.
Lemma fmtInt_utf8 v s : utf8_text s -> utf8_text (fmtInt v +:+ s).
Proof. intros Hs. apply utf8_app; [by apply fmtInt_loop_utf8|done]. Qed.
Lemma Duration_format_utf8 u : utf8_text (Duration_format u).
Proof.
  unfold Duration_format. destruct (u <? Second).
  - destruct (u =? 0); [done|]. destruct (u <? Microsecond); [|destruct (u <? Millisecond)].
    all: match goal with |- context [fmtFrac ?w ?p] => pose proof (fmtFrac_utf8 w p) as Hf; destruct (fmtFrac w p) as [frac v] end.
    all: apply fmtInt_utf8, utf8_app; [exact Hf|].
    + done.
    + by apply utf8_micro.
    + done.
  - pose proof (fmtFrac_utf8 u 9) as Hf. destruct (fmtFrac u 9) as [frac v]. simpl in Hf.
    assert (Hs : forall w, utf8_text (fmtInt w +:+ frac +:+ "s")) by (intros w; by apply fmtInt_utf8, utf8_app).
    repeat case_match; try done; repeat first [apply Hs|apply fmtInt_utf8, utf8_cons; [done|]].
Qed.
(** Every duration prints as a valid string, the micro sign included. *)
Lemma Duration_String_valid d : ValidString (Duration_String d) = true.
Proof.
  assert (H : utf8_text (Duration_String d)).
  { unfold Duration_String. destruct (d <? 0); [apply utf8_cons; [done|]|]; apply Duration_format_utf8. }
  rewrite <- (sapp_nil_r (Duration_String d)). by rewrite H.
Qed.

(** ** Properties *)

(** C18: The timeouts of a rule survive the wire: what the controller marshals, the proxy
    unmarshals to the same pair, for every pair of 64-bit durations, negative, zero and
    extreme ones included, when the JSON codec is faithful on objects of valid UTF-8
    strings (it replaces other bytes, and a duration never prints any); a zero is
    omitted, and is the only one that is; and the proxy rejects a timeout exactly when
    its string is not a duration, the request's first. *)
Theorem timeouts_survive_wire {codec : TimeoutsCodec} (rt : RouteTimeouts)
    (Hcodec : forall aux, ValidString (tj_Request aux) = true -> ValidString (tj_Backend aux) = true ->
       timeouts_Unmarshal (timeouts_Marshal aux) = Some aux)
    (Hrequest : is_int64 (to_Request rt)) (Hbackend : is_int64 (to_Backend rt)) :
  RouteTimeouts_UnmarshalJSON (mkRouteTimeouts 0 0) (RouteTimeouts_MarshalJSON rt) = Ok rt /\
  (exists aux, timeouts_Unmarshal (RouteTimeouts_MarshalJSON rt) = Some aux /\
     (tj_Request aux = "" <-> to_Request rt = 0) /\ (tj_Backend aux = "" <-> to_Backend rt = 0)) /\
  (forall data aux old, timeouts_Unmarshal data = Some aux ->
     let valid s := s = "" \/ is_ok (time_ParseDuration s) = true in
     (is_ok (RouteTimeouts_UnmarshalJSON old data) = true <-> valid (tj_Request aux) /\ valid (tj_Backend aux)) /\
     (RouteTimeouts_UnmarshalJSON old data = Err (invalid_request_timeout (tj_Request aux)) <-> ~ valid (tj_Request aux))).
Proof.
  destruct rt as [req back]. cbn [to_Request to_Backend] in *. unfold RouteTimeouts_MarshalJSON.
  assert (Hvalid : forall d, ValidString (if negb (d =? 0) then Duration_String d else "") = true).
  { intros d. destruct (negb _); [apply Duration_String_valid|done]. }
  split_and!.
  - unfold RouteTimeouts_UnmarshalJSON. rewrite Hcodec by apply Hvalid. cbn [tj_Request tj_Backend to_Request to_Backend].
    assert (Hfield : forall d (err : string -> TimeoutsError), is_int64 d ->
      (if negb (bool_decide ((if negb (d =? 0) then Duration_String d else "") = ""))
       then map_err (fun _ => err (if negb (d =? 0) then Duration_String d else "")) (time_ParseDuration (if negb (d =? 0) then Duration_String d else ""))
       else Ok 0) = Ok d).
    { intros d err Hd. destruct (Z.eqb_spec d 0) as [->|Hz]; [done|]. cbn [negb]. rewrite bool_decide_eq_false_2 by (by apply String_nonempty). by rewrite parse_format. }
    rewrite (Hfield req invalid_request_timeout Hrequest). cbn [mbind res_bind]. by rewrite (Hfield back invalid_backend_timeout Hbackend).
  - eexists. split; [apply Hcodec; apply Hvalid|]. cbn [tj_Request tj_Backend to_Request to_Backend].
    split; [destruct (Z.eqb_spec req 0) as [->|Hz]|destruct (Z.eqb_spec back 0) as [->|Hz]]; cbn [negb]; try done;
      (split; [intros He; by apply String_nonempty in He|done]).
  - intros data aux old Ha. cbv zeta. unfold RouteTimeouts_UnmarshalJSON. rewrite Ha.
    destruct (bool_decide_reflect (tj_Request aux = "")) as [H1|H1], (bool_decide_reflect (tj_Backend aux = "")) as [H2|H2]; cbn [negb];
      try destruct (time_ParseDuration (tj_Request aux)); try destruct (time_ParseDuration (tj_Backend aux)); cbn; naive_solver.
Qed.
End roundtrip.

(** A product that is exact on the integers. *)
Definition exact_product : FloatProduct := fun f unit scale => (f * unit / scale)%Z.
Lemma exact_product_laws : FloatProductLaws exact_product.
Proof.
  intros f unit k _ Hk _ _ _. unfold float_product, exact_product. rewrite Z.mul_assoc. by apply Z.div_mul, Z.neq_sym, Z.lt_neq.
Qed.
(** Two strings that hold no bar, side by side. *)
Definition bar_codec : TimeoutsCodec := {|
  timeouts_Marshal aux := Itoa (Z.of_nat (String.length (tj_Request aux))) +:+ "|" +:+ tj_Request aux +:+ tj_Backend aux;
  timeouts_Unmarshal data := '(n, rest) ← Cut data "|"; z ← NilZero.int_of_string n;
    Some (mkTimeoutsJSON (str_take (Z.to_nat (Z.of_int z)) rest) (str_drop (Z.to_nat (Z.of_int z)) rest)) |}.
Lemma bar_codec_law aux : @timeouts_Unmarshal bar_codec (@timeouts_Marshal bar_codec aux) = Some aux.
Proof.
  destruct aux as [r b]. cbn [timeouts_Unmarshal timeouts_Marshal bar_codec tj_Request tj_Backend].
  change ("|" +:+ r +:+ b) with (String "|" (r +:+ b)). rewrite Cut_byte_app by (by apply lacks_Itoa). cbn [mbind option_bind].
  unfold Itoa. rewrite NilZero.isi.
  - cbn [mbind option_bind]. rewrite DecimalZ.of_to, Nat2Z.id. by rewrite str_take_app, str_drop_app.
  - generalize (Z.of_nat (String.length r)). intros z H. pose proof (DecimalZ.of_to z) as Hz. rewrite H in Hz. cbn in Hz. by subst z.
  - generalize (Z.of_nat (String.length r)). intros z H. pose proof (DecimalZ.of_to z) as Hz. rewrite H in Hz. cbn in Hz. by subst z.
Qed.
Lemma timeouts_survive_wire_witness :
  is_int64 (- MaxInt64 - 1)%Z /\
  @RouteTimeouts_UnmarshalJSON exact_product bar_codec (mkRouteTimeouts 0 0)
    (@RouteTimeouts_MarshalJSON bar_codec (mkRouteTimeouts 1500000000 (- MaxInt64 - 1))) = Ok (mkRouteTimeouts 1500000000 (- MaxInt64 - 1)).
Proof.
  split; [unfold is_int64, MaxInt64; lia|].
  apply (@timeouts_survive_wire exact_product exact_product_laws bar_codec (mkRouteTimeouts 1500000000 (- MaxInt64 - 1)) (fun aux _ _ => bar_codec_law aux));
    unfold is_int64, MaxInt64; cbn; lia.
Defined.

(** The configuration a proxy parses is one that decodes and is valid. *)
Lemma ParseConfig_spec {codec : JsonConfig} data cfg :
  ParseConfig data = Ok cfg <-> config_Unmarshal data = Some cfg /\ Validate cfg = Ok tt.
Proof.
  unfold ParseConfig. destruct (config_Unmarshal data) as [c|]; [|naive_solver]. destruct (Validate c) as [[]|e] eqn:Hv; cbn.
  - split; [intros [= <-]; done|by intros [[= ->] _]].
  - split; [done|intros [[= ->] H]; congruence].
Qed.
