(* ===== verification/Fanout.v ===== *)
(** * Concurrent pushes ([PushWithToken] of [proxy/pusher.go],
      [pushPartitionsConcurrently] of [controller/route_syncer.go])

    Both start a goroutine for every index of a list and wait for all of them, the
    second at most sixteen at a time; each goroutine writes the slot of its index.  The
    goroutines share a world (the version counter, the replicas) and interleave. *)
From stdpp Require Import sorting.
From stdpp Require Import base relations sets gmap strings list.
From S2P Require Import Prelude GoStrings GoHttp ProxyConfig Matcher Shadow Filters Router RouterState ConfigPush RouteBinding IngressBuild BackendPasses Converter RenderNames ConfigResolver ListenerView ParentBinding EffectiveHostnames RouteSync RoutePartition SyncAll PushSync.

(** ** A group of goroutines *)

(** [gr_next] is the next index to start, [gr_running] the goroutines that have started
    and not returned. *)
Record Group (R W : Type) := mkGroup { gr_next : nat; gr_running : gset nat; gr_slots : list (option R); gr_world : W }.
Arguments mkGroup {R W}.
Arguments gr_next {R W}.
Arguments gr_running {R W}.
Arguments gr_slots {R W}.
Arguments gr_world {R W}.

Section group.
Context {R W : Type}.
(** What a goroutine may do to the world while it runs, and how it may return. *)
Context (act : nat -> W -> W -> Prop) (returns : nat -> W -> R -> W -> Prop).
Context (limit n : nat).
Definition group_start (w : W) : Group R W := mkGroup 0 ∅ (replicate n None) w.
Inductive group_step (g : Group R W) : Group R W -> Prop :=
| group_go : gr_next g < n -> size (gr_running g) < limit ->
    group_step g (mkGroup (S (gr_next g)) ({[gr_next g]} ∪ gr_running g) (gr_slots g) (gr_world g))
| group_act i w : i ∈ gr_running g -> act i (gr_world g) w ->
    group_step g (mkGroup (gr_next g) (gr_running g) (gr_slots g) w)
| group_return i r w : i ∈ gr_running g -> returns i (gr_world g) r w ->
    group_step g (mkGroup (gr_next g) (gr_running g ∖ {[i]}) (<[i := Some r]> (gr_slots g)) w).
(** [Wait] returns. *)
Definition group_done (g : Group R W) : Prop := gr_next g = n /\ gr_running g = ∅.
Definition slot_ok (i : nat) (slot : option R) : Prop := match slot with Some r => exists w w', returns i w r w' | None => True end.
Record group_inv (g : Group R W) : Prop := mkGroupInv {
  gi_next : gr_next g <= n;
  gi_limit : size (gr_running g) <= limit;
  gi_length : length (gr_slots g) = n;
  gi_running : forall i, i ∈ gr_running g -> i < gr_next g /\ gr_slots g !! i = Some None;
  gi_slots : forall i slot, gr_slots g !! i = Some slot -> slot_ok i slot /\ (slot = None <-> gr_next g <= i \/ i ∈ gr_running g) }.
Lemma group_start_inv w : group_inv (group_start w).
Proof.
  split; cbn; [lia|rewrite size_empty; lia|apply length_replicate|set_solver|].
  intros i slot [-> Hi]%lookup_replicate. split; [done|]. split; [intros _; left; lia|done].
Qed.
Lemma group_step_inv g g' : group_inv g -> group_step g g' -> group_inv g'.
Proof.
  intros [H1 H2 H3 H4 H5] Hs. destruct Hs as [Hn Hl|i w Hi _|i r w Hi Hr]; split; cbn [gr_next gr_running gr_slots gr_world]; try done; try lia.
  - rewrite size_union_alt. pose proof (subseteq_size ({[gr_next g]} ∖ gr_running g) {[gr_next g]} ltac:(set_solver)). rewrite size_singleton in *.
    pose proof (size_union_alt ({[gr_next g]} : gset nat) (gr_running g)). pose proof (subseteq_size (gr_running g ∖ {[gr_next g]}) (gr_running g) ltac:(set_solver)). lia.
  - intros i [->%elem_of_singleton|Hi]%elem_of_union; [|destruct (H4 i Hi); split; [lia|done]].
    split; [lia|]. destruct (gr_slots g !! gr_next g) as [slot|] eqn:He.
    + f_equal. apply (H5 _ _ He). by left.
    + apply lookup_ge_None in He. lia.
  - intros i slot Hslot. destruct (H5 i slot Hslot) as [Hok Hnone]. split; [done|]. rewrite Hnone, elem_of_union, elem_of_singleton.
    destruct (decide (i = gr_next g)); [naive_solver lia|]. split; intros [?|?]; auto; [left; lia|naive_solver lia|naive_solver].
  - pose proof (subseteq_size (gr_running g ∖ {[i]}) (gr_running g) ltac:(set_solver)). lia.
  - by rewrite length_insert.
  - intros j [Hj Hne]%elem_of_difference. rewrite not_elem_of_singleton in Hne. destruct (H4 j Hj). split; [done|]. by rewrite list_lookup_insert_ne.
  - intros j slot Hslot. destruct (H4 i Hi) as [Hlt Hold]. destruct (decide (i = j)) as [<-|Hne].
    + rewrite list_lookup_insert_eq in Hslot by (apply lookup_lt_Some in Hold; done). injection Hslot as <-. split; [by eexists _, _|].
      split; [done|intros [?|?]; [lia|set_solver]].
    + rewrite list_lookup_insert_ne in Hslot by done. destruct (H5 j slot Hslot) as [Hok Hnone]. split; [done|]. rewrite Hnone. set_solver.
Qed.
Lemma group_reachable_inv w g : rtc group_step (group_start w) g -> group_inv g.
Proof. revert g. apply rtc_ind_r; [apply group_start_inv|]. intros x y _ Hs IH. by eapply group_step_inv. Qed.
Lemma group_done_slots g : group_inv g -> group_done g -> exists rs, gr_slots g = Some <$> rs /\ length rs = n /\ forall i r, rs !! i = Some r -> exists w w', returns i w r w'.
Proof.
  intros [H1 H2 H3 H4 H5] [Hn Hr]. assert (Hall : forall i, i < n -> exists r, gr_slots g !! i = Some (Some r) /\ exists w w', returns i w r w').
  { intros i Hi. rewrite <- H3 in Hi. apply lookup_lt_is_Some_2 in Hi as [slot Hs]. destruct (H5 i slot Hs) as [Hok Hnone].
    destruct slot as [r|]; [by exists r|]. destruct (proj1 Hnone eq_refl) as [?|?]; [apply lookup_lt_Some in Hs; lia|set_solver]. }
  exists (omap id (gr_slots g)).
  assert (Hs : gr_slots g = Some <$> omap id (gr_slots g)).
  { assert (Hsome : Forall (fun slot => slot <> None) (gr_slots g)).
    { apply Forall_lookup. intros i slot Hs ->. pose proof (lookup_lt_Some _ _ _ Hs) as Hi. destruct (Hall i ltac:(lia)) as (r & Hr' & _). congruence. }
    clear -Hsome. induction Hsome as [|[r|] slots Hs _ IH]; [done| |done]. cbn. by rewrite <- IH. }
  split; [done|]. split; [rewrite <- H3; rewrite Hs at 2; by rewrite length_fmap|].
  intros i r Hi. assert (Hl : gr_slots g !! i = Some (Some r)) by (rewrite Hs, list_lookup_fmap, Hi; done).
  destruct (H5 i _ Hl) as [Hok _]. exact Hok.
Qed.
(** Starting and returning use up the group; a group that is not done can go on. *)
Definition group_measure (g : Group R W) : nat := 2 * (n - gr_next g) + size (gr_running g).
Definition productive (g g' : Group R W) : Prop := group_measure g' < group_measure g.
Lemma group_progress g :
  group_inv g -> 0 < limit -> (forall i w, i < n -> exists r w', returns i w r w') -> group_done g \/ exists g', group_step g g' /\ productive g g'.
Proof.
  intros [H1 H2 H3 H4 H5] Hl Hret. destruct (decide (gr_running g = ∅)) as [He|Hne].
  - destruct (decide (gr_next g = n)) as [Hn|Hn]; [by left|]. right. eexists. split; [apply group_go; [lia|rewrite He, size_empty; lia]|].
    unfold productive, group_measure. cbn. rewrite He, size_union, size_singleton, size_empty by set_solver. lia.
  - right. apply set_choose_L in Hne as [i Hi]. destruct (Hret i (gr_world g)) as (r & w' & Hr); [destruct (H4 i Hi); lia|]. eexists. split; [by eapply group_return|].
    unfold productive, group_measure. cbn. rewrite size_difference, size_singleton by set_solver.
    assert (0 < size (gr_running g)) by (apply Nat.neq_0_lt_0, size_non_empty_iff; set_solver). lia.
Qed.
Lemma group_finishes g :
  group_inv g -> 0 < limit -> (forall i w, i < n -> exists r w', returns i w r w') -> exists g', rtc group_step g g' /\ group_done g'.
Proof.
  intros Hi Hl Hret. induction (well_founded_ltof _ group_measure g) as [g _ IH].
  destruct (group_progress g Hi Hl Hret) as [Hd|(g' & Hs & Hp)]; [by exists g|].
  destruct (IH g' Hp ltac:(by eapply group_step_inv)) as (g'' & Hr & Hd). exists g''. split; [by eapply rtc_l|done].
Qed.
End group.

(** ** Pushing to the endpoints of a plane *)

Record PushResult := mkEndpointResult { epr_Endpoint : string; epr_Err : option ConfigPush.PushError }.
Section push.
Context {hash : Sha256} {parser : UrlParser} {engine : Regexp} {order : WildcardOrder} {codec : JsonConfig}.
(** The tokens of the replicas, and which endpoints make a request. *)
Context (replicaToken : string -> string) (endpoint_ok : string -> bool).
(** The version counter of the process and the replica behind every index. *)
Record FanWorld := mkFanWorld { fw_counter : Z; fw_replicas : nat -> RouterState }.
Definition push_returns (body authToken : string) (endpoints : list string) (i : nat) (w : FanWorld) (r : PushResult) (w' : FanWorld) : Prop :=
  exists endpoint env, endpoints !! i = Some endpoint /\
    let '(w1, result) := pushToEndpoint (replicaToken endpoint) (endpoint_ok endpoint) env body authToken (mkWorld (fw_counter w) (fw_replicas w i)) in
    r = mkEndpointResult endpoint (match result with Ok _ => None | Err e => Some e end) /\
    w' = mkFanWorld (w_counter w1) (fun j => if decide (j = i) then w_replica w1 else fw_replicas w j).
(** [PushWithToken]: the results of a schedule; a configuration that does not marshal is
    not sent. *)
Definition PushWithToken (cfg : Config) (endpoints : list string) (authToken : string) (w : FanWorld) (results : list PushResult) : Prop :=
  match config_Marshal cfg with
  | None => results = (fun endpoint => mkEndpointResult endpoint (Some errMarshal)) <$> endpoints
  | Some body =>
      exists g, rtc (group_step (fun _ _ _ => False) (push_returns body authToken endpoints) (length endpoints) (length endpoints))
                  (group_start (length endpoints) w) g /\
        group_done (length endpoints) g /\ gr_slots g = Some <$> results
  end.
Definition Push (defaultToken : string) (cfg : Config) (endpoints : list string) (w : FanWorld) (results : list PushResult) : Prop :=
  PushWithToken cfg endpoints defaultToken w results.
Lemma push_returns_total body authToken endpoints i w : i < length endpoints -> exists r w', push_returns body authToken endpoints i w r w'.
Proof.
  intros Hi. apply lookup_lt_is_Some_2 in Hi as [endpoint He].
  destruct (pushToEndpoint (replicaToken endpoint) (endpoint_ok endpoint) quiet body authToken (mkWorld (fw_counter w) (fw_replicas w i))) as [w1 result] eqn:Hp.
  eexists _, _. exists endpoint, quiet. split; [done|]. rewrite Hp. by split.
Qed.
End push.

(** ** Pushing to the partitions *)

Definition maxConcurrentPartitionPushes : nat := 16.
Section partitions.
Context {hash : Sha256} {W : Type}.
(** [SyncPartition] of the proxy syncer on a shared world, which other syncs may change
    while it runs ([act]). *)
Context (act : nat -> W -> W -> Prop).
Context (SyncPartition : string -> string -> list string -> list (RouteObject HTTPRouteRule) -> list (RouteObject GRPCRouteRule) ->
  W -> partitionPushResult -> W -> Prop).
Context (defaultAuthToken clusterDomain : string) (proxyEndpoints : list string).
Definition SyncRoutes (endpoints : list string) (routes : list (RouteObject HTTPRouteRule)) (grpcRoutes : list (RouteObject GRPCRouteRule)) :
    W -> partitionPushResult -> W -> Prop :=
  SyncPartition sharedPartitionKey defaultAuthToken endpoints routes grpcRoutes.
(** The goroutine of one partition; a dedicated partition without a Gateway is a nil
    dereference. *)
Definition partition_push (p : routePartition) : W -> partitionPushResult -> W -> Prop :=
  match rp_PerGateway p, rp_Gateway p with
  | None, _ => SyncRoutes proxyEndpoints (rp_HTTPRoutes p) (rp_GRPCRoutes p)
  | Some perGateway, Some gateway =>
      SyncPartition (rp_Key p) (pg_AuthToken perGateway) [ConfigEndpointURL (gw_Name (go_Gateway gateway)) (gw_Namespace (go_Gateway gateway)) clusterDomain]
        (rp_HTTPRoutes p) (rp_GRPCRoutes p)
  | Some _, None => fun _ _ _ => False
  end.
Definition partition_returns (partitions : list routePartition) (i : nat) (w : W) (r : partitionPushResult) (w' : W) : Prop :=
  exists partition, partitions !! i = Some partition /\ partition_push partition w r w'.
(** A state of the group of [pushPartitionsConcurrently]. *)
Definition pushPartitionsConcurrently (partitions : list routePartition) (w : W) (g : Group partitionPushResult W) : Prop :=
  rtc (group_step act (partition_returns partitions) maxConcurrentPartitionPushes (length partitions)) (group_start (length partitions) w) g.
(** Every dedicated partition names its Gateway ([routed_partitions_named]). *)
Definition gateways_named (partitions : list routePartition) : Prop :=
  Forall (fun p => rp_PerGateway p <> None -> rp_Gateway p <> None) partitions.
(** The key and the token a partition is pushed with. *)
Definition partition_credentials (p : routePartition) : string * string :=
  match rp_PerGateway p with Some perGateway => (rp_Key p, pg_AuthToken perGateway) | None => (sharedPartitionKey, defaultAuthToken) end.
End partitions.

(** ** Properties *)

(** The syncer qualifies: a partition is converted, prepared, pushed and recorded, here
    without interference; the world holds the targets, the version counter and whatever
    the pushes reach. *)
Section syncer.
Context {hash : Sha256} {codec : JsonConfig} {durations : DurationParser} {parser : UrlParser} {sorter : SortFunc}.
Context {cluster : Cluster} {kube : KubeClient} {views : ListenerViews} {W : Type}.
Context (rv grpcRv : Resolvers) (cli : ServiceReader) (dns : list string -> list string) (push : string -> string -> Config -> W -> W * bool).
Context (failedRefs grpcFailedRefs : list BackendRefError).
Definition syncer_partition (key authToken : string) (endpoints : list string) (routes : list (RouteObject HTTPRouteRule))
    (grpcRoutes : list (RouteObject GRPCRouteRule)) (w : PushSync.Targets * Z * W) (r : partitionPushResult) (w' : PushSync.Targets * Z * W) : Prop :=
  let '(targets, counter, replicas) := w in
  let '(cfg, counter) := PushSync.buildProxyConfig rv grpcRv cli routes grpcRoutes failedRefs grpcFailedRefs counter in
  let '(diagnostics, failed, targets, replicas) := PushSync.SyncPartition push key authToken endpoints (dns endpoints) cfg targets replicas in
  w' = (targets, counter, replicas) /\ ppr_diags r = diagnostics /\ (failed = true <-> ppr_err r <> None) /\
  ppr_streak r = PushSync.pushFailureStreak key targets.
Lemma syncer_partition_total key authToken endpoints routes grpcRoutes w :
  exists r w', syncer_partition key authToken endpoints routes grpcRoutes w r w'.
Proof.
  destruct w as [[targets counter] replicas]. unfold syncer_partition. destruct (PushSync.buildProxyConfig _ _ _ _ _ _ _ _) as [cfg counter'].
  destruct (PushSync.SyncPartition _ _ _ _ _ _ _ _) as [[[diagnostics failed] targets'] replicas'].
  exists (mkPushResult diagnostics (if failed then Some (errPush "push failed") else None) (PushSync.pushFailureStreak key targets')), (targets', counter', replicas').
  cbn. by destruct failed.
Qed.
End syncer.

Lemma partition_push_total {hash : Sha256} {W} (sync : string -> string -> list string -> list (RouteObject HTTPRouteRule) -> list (RouteObject GRPCRouteRule) -> W -> partitionPushResult -> W -> Prop)
    defaultAuthToken clusterDomain proxyEndpoints partitions p w :
  (forall key token endpoints routes grpcRoutes w, exists r w', sync key token endpoints routes grpcRoutes w r w') ->
  gateways_named partitions -> p ∈ partitions ->
  exists r w', partition_push sync defaultAuthToken clusterDomain proxyEndpoints p w r w'.
Proof.
  intros Htotal Hnamed Hp. pose proof (proj1 (Forall_forall _ _) Hnamed p Hp) as Hgw. cbn in Hgw. unfold partition_push, SyncRoutes.
  destruct (rp_PerGateway p); [|apply Htotal]. destruct (rp_Gateway p); [apply Htotal|]. by destruct (Hgw ltac:(done)).
Qed.
Lemma partition_push_own {hash : Sha256} {W} (sync : string -> string -> list string -> list (RouteObject HTTPRouteRule) -> list (RouteObject GRPCRouteRule) -> W -> partitionPushResult -> W -> Prop)
    defaultAuthToken clusterDomain proxyEndpoints p w r w' :
  partition_push sync defaultAuthToken clusterDomain proxyEndpoints p w r w' ->
  exists endpoints w w', let '(key, token) := partition_credentials defaultAuthToken p in sync key token endpoints (rp_HTTPRoutes p) (rp_GRPCRoutes p) w r w'.
Proof.
  unfold partition_push, SyncRoutes, partition_credentials. destruct (rp_PerGateway p) as [pg|]; [destruct (rp_Gateway p) as [gw|]; [|done]|]; intros H; eexists _, _, _; exact H.
Qed.

(** The partitions of a sync qualify. *)
Lemma routed_partitions_named httpResult grpcResult infra : keys_disjoint infra -> gateways_named (partitionRoutes httpResult grpcResult infra).
Proof.
  intros Hd. unfold gateways_named. rewrite partitionRoutes_eq by done. apply Forall_fmap, Forall_forall. intros key _.
  unfold compose, expected_partition. cbn. by destruct (infra ≫= _).
Qed.

(** C13: Pushing concurrently is pushing each.  Whatever the pushes do to the shared world and
    however they interleave, at most sixteen run at once; from every state the group can
    finish, a failed or slow push holding up nobody else for good; when it has finished
    there is one result for every partition, in the order of the partitions, each
    returned by the sync of its own partition under its own key and token, so the shared
    token never goes to a dedicated plane; and when the result of a push is a function of
    its partition, as the synchronisation assumes, the results are that function mapped
    over the partitions. *)
Theorem partition_pushes_refine {hash : Sha256} {W} (act : nat -> W -> W -> Prop)
    (sync : string -> string -> list string -> list (RouteObject HTTPRouteRule) -> list (RouteObject GRPCRouteRule) -> W -> partitionPushResult -> W -> Prop)
    (defaultAuthToken clusterDomain : string) (proxyEndpoints : list string)
    (partitions : list routePartition) (w : W) (g : Group partitionPushResult W)
    (Htotal : forall key token endpoints routes grpcRoutes w, exists r w', sync key token endpoints routes grpcRoutes w r w')
    (Hnamed : gateways_named partitions)
    (Hrun : pushPartitionsConcurrently act sync defaultAuthToken clusterDomain proxyEndpoints partitions w g) :
  let returns := partition_returns sync defaultAuthToken clusterDomain proxyEndpoints partitions in
  size (gr_running g) <= maxConcurrentPartitionPushes /\
  (exists g', rtc (group_step act returns maxConcurrentPartitionPushes (length partitions)) g g' /\ group_done (length partitions) g') /\
  (group_done (length partitions) g ->
     exists results, gr_slots g = Some <$> results /\ length results = length partitions /\
       (forall i partition r, partitions !! i = Some partition -> results !! i = Some r ->
          exists endpoints w w', let '(key, token) := partition_credentials defaultAuthToken partition in
            sync key token endpoints (rp_HTTPRoutes partition) (rp_GRPCRoutes partition) w r w') /\
       forall f, (forall partition w r w', partition_push sync defaultAuthToken clusterDomain proxyEndpoints partition w r w' -> r = f partition) ->
         results = f <$> partitions).
Proof.
  intros returns. pose proof (group_reachable_inv _ _ _ _ _ _ Hrun) as Hinv. split_and!; [apply Hinv| |].
  - apply group_finishes; [done|unfold maxConcurrentPartitionPushes; lia|].
    intros i v Hi. apply lookup_lt_is_Some_2 in Hi as [p Hp].
    destruct (partition_push_total sync defaultAuthToken clusterDomain proxyEndpoints partitions p v Htotal Hnamed) as (r & v' & Hr); [by apply list_elem_of_lookup_2 in Hp|].
    exists r, v', p. done.
  - intros Hd. destruct (group_done_slots (fun _ _ _ => False) _ _ _ _ Hinv Hd) as (results & Hs & Hlen & Hres). exists results. split_and!; [done|done| |].
    + intros i partition r Hp Hr. destruct (Hres i r Hr) as (v & v' & p & Hp' & H). rewrite Hp in Hp'. injection Hp' as <-.
      by eapply partition_push_own.
    + intros f Hf. apply list_eq. intros i. rewrite list_lookup_fmap. destruct (results !! i) as [r|] eqn:Hr.
      * destruct (Hres i r Hr) as (v & v' & p & Hp & H). rewrite Hp. cbn. f_equal. by eapply Hf.
      * apply lookup_ge_None in Hr. rewrite (proj2 (lookup_ge_None partitions i)) by lia. done.
Qed.

(** [PushWithToken] always has an outcome, and every outcome has one result for every
    endpoint, in order, under its own name: a refusal to marshal for all of them, or what
    the push to that endpoint returned, whatever happened at the others. *)
Theorem push_with_token_exact {hash : Sha256} {parser : UrlParser} {engine : Regexp} {order : WildcardOrder} {codec : JsonConfig}
    (replicaToken : string -> string) (endpoint_ok : string -> bool) (cfg : Config) (endpoints : list string) (authToken : string) (w : FanWorld) :
  (exists results, PushWithToken replicaToken endpoint_ok cfg endpoints authToken w results) /\
  forall results, PushWithToken replicaToken endpoint_ok cfg endpoints authToken w results ->
    epr_Endpoint <$> results = endpoints /\
    forall i result, results !! i = Some result ->
      match config_Marshal cfg with
      | None => epr_Err result = Some errMarshal
      | Some body => exists env w0, let '(_, outcome) := pushToEndpoint (replicaToken (epr_Endpoint result)) (endpoint_ok (epr_Endpoint result)) env body authToken w0 in
          epr_Err result = match outcome with Ok _ => None | Err e => Some e end
      end.
Proof.
  unfold PushWithToken. destruct (config_Marshal cfg) as [body|].
  2:{ split; [by eexists|]. intros results ->. split.
      - clear. induction endpoints as [|e es IH]; [done|]. cbn. by f_equal.
      - intros i result Hi. rewrite list_lookup_fmap in Hi. destruct (endpoints !! i); [|done]. cbn in Hi. by injection Hi as <-. }
  set (returns := push_returns replicaToken endpoint_ok body authToken endpoints). split.
  - destruct (decide (endpoints = [])) as [->|Hne].
    + exists []. eexists. split; [reflexivity|]. by split.
    + destruct (group_finishes (fun _ _ _ => False) returns (length endpoints) (length endpoints) (group_start (length endpoints) w)) as (g & Hg & Hd).
      * apply group_start_inv.
      * destruct endpoints; [done|cbn; lia].
      * intros i v Hi. exact (push_returns_total replicaToken endpoint_ok body authToken endpoints i v Hi).
      * destruct (group_done_slots (fun _ _ _ => False) returns (length endpoints) (length endpoints) g) as (results & Hs & _); [by eapply group_reachable_inv|done|].
        by exists results, g.
  - intros results (g & Hg & Hd & Hs). pose proof (group_reachable_inv _ _ _ _ _ _ Hg) as Hinv.
    destruct (group_done_slots (fun _ _ _ => False) _ _ _ _ Hinv Hd) as (results' & Hs' & Hlen & Hres).
    rewrite Hs' in Hs. apply (inj (fmap Some)) in Hs. subst results'. split.
    + apply list_eq. intros i. rewrite list_lookup_fmap. destruct (results !! i) as [r|] eqn:Hr.
      * destruct (Hres i r Hr) as (v & v' & endpoint & env & He & Hp). rewrite He. destruct (pushToEndpoint _ _ _ _ _ _) as [w1 outcome]. by destruct Hp as [-> _].
      * apply lookup_ge_None in Hr. symmetry. apply lookup_ge_None. lia.
    + intros i result Hi. destruct (Hres i result Hi) as (v & v' & endpoint & env & He & Hp). exists env, (mkWorld (fw_counter v) (fw_replicas v i)).
      destruct (pushToEndpoint (replicaToken endpoint) (endpoint_ok endpoint) env body authToken (mkWorld (fw_counter v) (fw_replicas v i))) as [w1 outcome] eqn:Hpe.
      destruct Hp as [-> _]. cbn [epr_Endpoint epr_Err]. by rewrite Hpe.
Qed.

Module FanoutExample.
Definition shared : routePartition := mkRoutePartition "" None None [] [].
(** A push that counts. *)
Definition sync (_ _ : string) (_ : list string) (_ : list (RouteObject HTTPRouteRule)) (_ : list (RouteObject GRPCRouteRule))
    (w : nat) (r : partitionPushResult) (w' : nat) : Prop := r = mkPushResult [] None 0 /\ w' = S w.
Definition no_hash : Sha256 := fun s => s.
End FanoutExample.
Lemma partition_pushes_refine_witness :
  exists g, rtc (group_step (fun _ _ _ => False) (@partition_returns FanoutExample.no_hash nat FanoutExample.sync "t" "cluster.local" [] [FanoutExample.shared])
      maxConcurrentPartitionPushes 1) (group_start 1 0) g /\
    group_done 1 g.
Proof.
  apply (@partition_pushes_refine FanoutExample.no_hash nat (fun _ _ _ => False) FanoutExample.sync "t" "cluster.local" [] [FanoutExample.shared] 0 (group_start 1 0)).
  - intros key token endpoints routes grpcRoutes w. exists (mkPushResult [] None 0), (S w). by split.
  - apply Forall_singleton. done.
  - apply rtc_refl.
Defined.
