(* ===== verification/RouteReconcilers.v ===== *)
(** * The two route reconcilers ([controller/httproute_controller.go],
      [controller/grpcroute_controller.go])

    [HTTPRouteReconciler] and [GRPCRouteReconciler] instantiate the shared reconcile,
    sync, startup and mapping code for their kind.  A sync covers the routes of both
    kinds, but each reconciler writes the statuses of its own kind only. *)
From Stdlib Require Import Ascii.
From stdpp Require Import sorting.
From stdpp Require Import base sets gmap strings list.
From S2P Require Import Prelude GoStrings GoHttp ProxyConfig Matcher Shadow RouterState Handler RenderNames Ingress RouteBinding ReferenceGrant IngressBuild BackendPasses Converter HostnameOwnership ConfigResolver ListenerView ParentBinding EffectiveHostnames RouteSync RoutePartition SyncAll RouteStatus PushSync BackendTLS CertRefs GatewayStatus ConvertFrame Mappers RouteController.

(** ** One status per route *)

Inductive RouteKind := HTTPKind | GRPCKind.
(** One call of [updateRouteStatus]: the route, the Events and what the write returned. *)
Record StatusWrite := mkStatusWrite { sw_kind : RouteKind; sw_route : string * string; sw_events : list Event; sw_result : res WriteError Written }.
Definition write_failure (error_text : WriteError -> string) (w : StatusWrite) : option string :=
  match sw_result w with Err e => Some (error_text e) | Ok _ => None end.
(** What [grpcProtocolWarning] puts into its message. *)
Record ProtocolWarning := mkProtocolWarning { pwn_grpcRouteCount : nat; pwn_protocol : string }.
Definition grpcProtocolWarning (protocol : string) (grpcRouteCount : nat) : option ProtocolWarning :=
  if grpcRouteCount =? 0 then None
  else if negb (isExplicitQUIC protocol) then None
  else Some (mkProtocolWarning grpcRouteCount protocol).
(** [syncUpdateParams]: the push is absent without a syncer or endpoints; the entries
    are given with their updates. *)
Record syncUpdateParams := mkSyncUpdateParams {
  su_proxySyncer : option (list string -> routePartition -> partitionPushResult);
  su_proxyEndpoints : list string; su_pushProxy : bool; su_tunnelProtocol : string;
  su_statusEntries : SyncResult -> list RouteDiagnostic -> option RunError -> list StatusWrite }.
Definition su_push (params : syncUpdateParams) : option (routePartition -> partitionPushResult) :=
  match su_proxySyncer params with
  | Some push => if su_pushProxy params && (0 <? length (su_proxyEndpoints params)) then Some (push (su_proxyEndpoints params)) else None
  | None => None
  end.
(** What one [syncAndUpdateStatusCommon] returns, writes and warns about. *)
Record SyncReport := mkSyncReport { sy_result : Result * option SyncAll.ReconcileError; sy_writes : list StatusWrite; sy_warning : option ProtocolWarning }.
Definition sync_diagnostics (params : syncUpdateParams) (syncResult : SyncResult) : list RouteDiagnostic :=
  match su_push params ≫= (fun push => pushPartitionConfigs push syncResult) with Some summary => ps_diagnostics summary | None => [] end ++
  sr_CollisionDiagnostics syncResult.
(** The first failure of the writes, all of which are made. *)
Definition first_failure (error_text : WriteError -> string) (writes : list StatusWrite) : option string :=
  head (omap (write_failure error_text) writes).
Definition sync_report (error_text : WriteError -> string) (params : syncUpdateParams) (run : SyncRun) : SyncReport :=
  mkSyncReport
    (syncAndUpdateStatusCommon (su_push params) (fun sr diagnostics err => first_failure error_text (su_statusEntries params sr diagnostics err)) run)
    (match run_sync run with Some sr => su_statusEntries params sr (sync_diagnostics params sr) (run_err run) | None => [] end)
    (match run_sync run with
     | Some sr => if bool_decide (su_tunnelProtocol params = "") then None else grpcProtocolWarning (su_tunnelProtocol params) (length (res_accepted (sr_GRPC sr)))
     | None => None
     end).

(** ** The reconcilers *)

Record HTTPRouteReconciler := mkHTTPRouteReconciler {
  hr_ControllerName : string; hr_ProxySyncer : option (list string -> routePartition -> partitionPushResult);
  hr_ProxyEndpoints : list string; hr_Recorder : bool; hr_HostnameOwnership : option Policy }.
Record GRPCRouteReconciler := mkGRPCRouteReconciler {
  gr_ControllerName : string; gr_ProxySyncer : option (list string -> routePartition -> partitionPushResult);
  gr_ProxyEndpoints : list string; gr_Recorder : bool; gr_TunnelProtocol : string; gr_HostnameOwnership : option Policy }.
(** What the API server answers the status writes of a kind: the generation the sync
    listed, and every attempt. *)
Record StatusServer (R : Type) := mkStatusServer { ss_Generation : RouteObject R -> Z; ss_Attempts : RouteObject R -> nat -> Attempt }.
Arguments mkStatusServer {R}.
Arguments ss_Generation {R}.
Arguments ss_Attempts {R}.
Definition entry_key {R} (entry : routeStatusEntry R) : string * string := (ro_Namespace (se_route entry), ro_Name (se_route entry)).
Definition wrap_read {R} (wrap : RouteObject R -> Route) (read : Lookup (RouteObject R)) : Lookup Route :=
  match read with Found route => Found (wrap route) | NotFound => NotFound | Unavailable => Unavailable end.
Definition listed_as {R} (wrap : RouteObject R -> Route) (routes : option (list (RouteObject R))) : option (list Route) :=
  match routes with Some routes => Some (wrap <$> routes) | None => None end.
(** A change of a route of either kind, or of another watched object. *)
Inductive ClusterEvent := on_route (kind : RouteKind) (ev : WatchEvent) | on_object (ev : WatchEvent).

Section reconcilers.
Context {texts : ErrorText} {cluster : Cluster} {kube : KubeClient} {views : ListenerViews} {gateways : GatewayReader}.
Context {reader : ConfigReader} {grants : GrantClient} {policies : PolicyReader} (error_text : WriteError -> string).

Section http.
Context (r : HTTPRouteReconciler) (server : StatusServer HTTPRouteRule).
Definition http_status_write (syncErr : option RunError) (entry : routeStatusEntry HTTPRouteRule) : StatusWrite :=
  let '(events, result) := http_updateRouteStatus (hr_ControllerName r) (hr_Recorder r) (ss_Generation server (se_route entry))
                             (ss_Attempts server (se_route entry)) entry syncErr in
  mkStatusWrite HTTPKind (entry_key entry) events result.
Definition http_syncParams : syncUpdateParams :=
  mkSyncUpdateParams (hr_ProxySyncer r) (hr_ProxyEndpoints r) true ""
    (fun sr diagnostics syncErr => http_status_write syncErr <$> httpStatusEntries sr diagnostics).
Definition http_syncAndUpdateStatus (run : SyncRun) : SyncReport := sync_report error_text http_syncParams run.
(** [run] is the sync this reconcile would make. *)
Definition http_Reconcile (startupComplete : bool) (read : Lookup (RouteObject HTTPRouteRule)) (run : SyncRun) : RouteOutcome * list StatusWrite :=
  let report := http_syncAndUpdateStatus run in
  match reconcileRoute (hr_ControllerName r) startupComplete (wrap_read HTTPRouteWrapper read) (sy_result report) with
  | route_synced result => (route_synced result, sy_writes report)
  | outcome => (outcome, [])
  end.
Definition http_Start (runs : nat -> SyncRun) (cancelled stopped : nat -> bool) (fuel : nat) : option (nat * bool) :=
  runStartupSync runs (fun _ => su_push http_syncParams)
    (fun _ sr diagnostics err => first_failure error_text (su_statusEntries http_syncParams sr diagnostics err)) cancelled stopped fuel.
(** What an event enqueues at this controller: it watches the routes of its own kind. *)
Definition http_SetupWithManager (routes : option (list (RouteObject HTTPRouteRule))) (ev : ClusterEvent) : list Request :=
  match ev with
  | on_route HTTPKind ev | on_object ev =>
      enqueued (hr_ControllerName r) (bool_decide (is_Some (hr_HostnameOwnership r))) (listed_as HTTPRouteWrapper routes) ev
  | on_route GRPCKind _ => []
  end.
End http.

Section grpc.
Context (r : GRPCRouteReconciler) (server : StatusServer GRPCRouteRule).
Definition grpc_status_write (syncErr : option RunError) (entry : routeStatusEntry GRPCRouteRule) : StatusWrite :=
  let '(events, result) := grpc_updateRouteStatus (gr_ControllerName r) (gr_Recorder r) (gr_TunnelProtocol r) (ss_Generation server (se_route entry))
                             (ss_Attempts server (se_route entry)) entry syncErr in
  mkStatusWrite GRPCKind (entry_key entry) events result.
Definition grpc_syncParams : syncUpdateParams :=
  mkSyncUpdateParams (gr_ProxySyncer r) (gr_ProxyEndpoints r) true (gr_TunnelProtocol r)
    (fun sr diagnostics syncErr => grpc_status_write syncErr <$> grpcStatusEntries sr diagnostics).
Definition grpc_syncAndUpdateStatus (run : SyncRun) : SyncReport := sync_report error_text grpc_syncParams run.
Definition grpc_Reconcile (startupComplete : bool) (read : Lookup (RouteObject GRPCRouteRule)) (run : SyncRun) : RouteOutcome * list StatusWrite :=
  let report := grpc_syncAndUpdateStatus run in
  match reconcileRoute (gr_ControllerName r) startupComplete (wrap_read GRPCRouteWrapper read) (sy_result report) with
  | route_synced result => (route_synced result, sy_writes report)
  | outcome => (outcome, [])
  end.
Definition grpc_Start (runs : nat -> SyncRun) (cancelled stopped : nat -> bool) (fuel : nat) : option (nat * bool) :=
  runStartupSync runs (fun _ => su_push grpc_syncParams)
    (fun _ sr diagnostics err => first_failure error_text (su_statusEntries grpc_syncParams sr diagnostics err)) cancelled stopped fuel.

(** [routes] is what the list of GRPCRoutes returns, [None] when it fails. *)
Context (routes : option (list (RouteObject GRPCRouteRule))).
Definition grpc_listed : option (list Route) := listed_as GRPCRouteWrapper routes.
Definition grpc_isRouteForOurGateway (route : RouteObject GRPCRouteRule) : bool := IsRouteAcceptedByGateway (gr_ControllerName r) (GRPCRouteWrapper route).
Definition grpc_findRoutesForGateway (gateway : GatewayObject) : list Request :=
  match routes with None => [] | Some routes => FindRoutesForGateway (gr_ControllerName r) gateway (GRPCRouteWrapper <$> routes) end.
Definition grpc_findRoutesForListenerSet (listenerSet : ListenerSetObject) : list Request :=
  match routes with None => [] | Some routes => findRoutesAttachedToListenerSet (gr_ControllerName r) listenerSet (GRPCRouteWrapper <$> routes) end.
Definition grpc_ours (find : list Route -> list Request) : list Request :=
  match routes with None => [] | Some routes => find (GRPCRouteWrapper <$> List.filter grpc_isRouteForOurGateway routes) end.
Definition grpc_findRoutesForReferenceGrant (namespace : string) : list Request := grpc_ours (FindRoutesForReferenceGrant namespace).
Definition grpc_findRoutesForEndpointSlice (namespace serviceName : string) : list Request := grpc_ours (FindRoutesForEndpointSlice namespace serviceName).
Definition grpc_findRoutesForService (namespace name : string) : list Request := grpc_ours (FindRoutesForService namespace name).
Definition grpc_findRoutesForExternalBackend (namespace name : string) : list Request := grpc_ours (FindRoutesForExternalBackend namespace name).
Definition grpc_getAllRelevantRoutes : list Request :=
  match routes with None => [] | Some routes => FilterAcceptedRoutes (gr_ControllerName r) (GRPCRouteWrapper <$> routes) end.
(** The maps [SetupWithManager] hands to [setupRouteController]. *)
Definition grpc_map_watched (o : Watched) : list Request :=
  match o with
  | WatchedRoute namespace name => [(namespace, name)]
  | WatchedGateway gateway => grpc_findRoutesForGateway gateway
  | WatchedListenerSet listenerSet => grpc_findRoutesForListenerSet listenerSet
  | WatchedGatewayClassConfig cfg => MapConfigToRequests (gr_ControllerName r) grpc_getAllRelevantRoutes cfg
  | WatchedSecret namespace name => MapSecretToRequests (gr_ControllerName r) grpc_getAllRelevantRoutes namespace name
  | WatchedReferenceGrant namespace => grpc_findRoutesForReferenceGrant namespace
  | WatchedNamespace name => namespaceScopedRequests grpc_getAllRelevantRoutes name
  | WatchedService namespace name => grpc_findRoutesForService namespace name
  | WatchedEndpointSlice namespace serviceName => grpc_findRoutesForEndpointSlice namespace serviceName
  | WatchedExternalBackend namespace name => grpc_findRoutesForExternalBackend namespace name
  | WatchedBackendTLSPolicy => grpc_getAllRelevantRoutes
  | WatchedConfigMap namespace name => if negb (isConfigMapReferencedByBackendTLSPolicy namespace name) then [] else grpc_getAllRelevantRoutes
  end.
Definition grpc_SetupWithManager (ev : ClusterEvent) : list Request :=
  match ev with
  | on_route GRPCKind ev | on_object ev =>
      if watch_predicate (bool_decide (is_Some (gr_HostnameOwnership r))) (wo_Object (event_object ev)) ev
      then EnqueueRequestsFromMapFunc grpc_map_watched ev else []
  | on_route HTTPKind _ => []
  end.
End grpc.
End reconcilers.

(** ** Every route of the kind, once *)

Lemma filter_wrapped {A B} (wrap : A -> B) (keep : B -> bool) l : List.filter keep (wrap <$> l) = wrap <$> List.filter (fun x => keep (wrap x)) l.
Proof. induction l as [|x l IH]; [done|]. cbn. destruct (keep (wrap x)); cbn; by rewrite IH. Qed.
(** The maps of the GRPCRoute reconciler are those of the shared controller. *)
Lemma grpc_setup_shared {cluster : Cluster} {kube : KubeClient} {views : ListenerViews} {gateways : GatewayReader}
    {reader : ConfigReader} {grants : GrantClient} {policies : PolicyReader} r routes ev :
  grpc_SetupWithManager r routes (on_object ev) = enqueued (gr_ControllerName r) (bool_decide (is_Some (gr_HostnameOwnership r))) (grpc_listed routes) ev.
Proof.
  assert (Hours : forall find, grpc_ours r routes find = over_accepted (gr_ControllerName r) (grpc_listed routes) find).
  { intros find. unfold grpc_ours, over_accepted, grpc_listed, listed_as. destruct routes as [routes|]; [|done]. cbn. f_equal.
    symmetry. apply (filter_wrapped GRPCRouteWrapper). }
  assert (Hmap : forall o, grpc_map_watched r routes o = map_watched (gr_ControllerName r) (grpc_listed routes) o).
  { intros o. destruct o; cbn; try apply Hours; destruct routes; reflexivity. }
  unfold grpc_SetupWithManager, enqueued, EnqueueRequestsFromMapFunc. destruct ev; by rewrite !Hmap.
Qed.

Lemma reject_loop_perm {R} losers (routes : list (RouteObject R)) result :
  let result' := foldl (reject_loser losers) result routes in
  res_accepted result' ++ res_rejected result' ≡ₚ res_accepted result ++ res_rejected result ++ routes.
Proof.
  revert result. induction routes as [|route routes IH]; intros result; cbn; [by rewrite app_nil_r|]. rewrite IH.
  unfold reject_loser. case_bool_decide; cbn; solve_Permutation.
Qed.
Lemma rejectCrossTypeLosers_perm {R} losers (result : routeResult R) :
  res_accepted (rejectCrossTypeLosers losers result) ++ res_rejected (rejectCrossTypeLosers losers result) ≡ₚ res_accepted result ++ res_rejected result.
Proof. unfold rejectCrossTypeLosers. destruct (size losers =? 0); [done|]. rewrite reject_loop_perm. cbn. by rewrite Permutation_app_comm. Qed.
Lemma first_failure_none error_text writes : first_failure error_text writes = None <-> Forall (fun w => exists written, sw_result w = Ok written) writes.
Proof.
  unfold first_failure, write_failure. induction writes as [|w writes IH]; [by split|]. rewrite Forall_cons, <-IH. cbn.
  destruct (sw_result w) as [written|]; cbn; [|by split; [|intros [[] ?]]]. split; [intros H; split; [by eexists|exact H]|by intros [_ ?]].
Qed.
(** The writes are those of [updateRoutesStatus]. *)
Lemma first_failure_entries {R} error_text (write : routeStatusEntry R -> StatusWrite) entries :
  first_failure error_text (write <$> entries) = updateRoutesStatus (fun entry => write_failure error_text (write entry)) entries.
Proof.
  unfold first_failure, updateRoutesStatus. set (step := fun firstErr entry => _).
  assert (Hs : forall l err, foldl step (Some err) l = Some err).
  { induction l as [|e l IH]; intros err; [done|]. cbn. subst step. cbn. by destruct (write_failure _ _). }
  induction entries as [|e entries IH]; [done|]. cbn. subst step. cbn. destruct (write_failure error_text (write e)); cbn; [by rewrite Hs|exact IH].
Qed.

Section reports.
Context {texts : ErrorText} {cluster : Cluster} {kube : KubeClient} {views : ListenerViews}.
Context {reader : ConfigReader} {decoder : TokenDecoder} {hash : Sha256} {uuids : UuidParser}.
Context {parser : UrlParser} {sorter : EntrySort} {api : CloudflareAPI}.
Context (controllerName defaultNamespace clusterDomain : string) (ownership : option Policy).
Context (client : option Client) (validator : option GrantClient).
Context (httpRoutes : list (RouteObject HTTPRouteRule)) (grpcRoutes : list (RouteObject GRPCRouteRule)).
Notation relevant_http := (getRelevantHTTPRoutes controllerName ownership httpRoutes).
Notation relevant_grpc := (getRelevantGRPCRoutes controllerName ownership grpcRoutes).
Notation run_of := (SyncAllRoutes controllerName defaultNamespace clusterDomain ownership client validator (Some httpRoutes) (Some grpcRoutes)).
(** A sync whose lists were read has a result, with every relevant route of both kinds,
    and one that fails asks to come back. *)
Lemma sync_covers cache :
  exists sr, run_sync (run_of cache) = Some sr /\
    res_accepted (sr_HTTP sr) ++ res_rejected (sr_HTTP sr) ≡ₚ res_accepted relevant_http ++ res_rejected relevant_http /\
    res_accepted (sr_GRPC sr) ++ res_rejected (sr_GRPC sr) ≡ₚ res_accepted relevant_grpc ++ res_rejected relevant_grpc /\
    (is_Some (run_err (run_of cache)) -> run_result (run_of cache) = retry_later).
Proof.
  unfold SyncAllRoutes. destruct (resolveConfigForController controllerName defaultNamespace) as [resolved|]; [|by eexists].
  destruct (ResolveAccountID _ _ _) as [[account|] cache']; [|by eexists]. unfold sync_routes.
  pose proof (rejectCrossTypeLosers_perm (R := HTTPRouteRule)) as Hh. pose proof (rejectCrossTypeLosers_perm (R := GRPCRouteRule)) as Hg.
  unfold resolveCrossTypeConflicts. destruct (cross_losers _ _) as [hl gl]. cbn [fst snd].
  destruct (resolveInfraGateways _ _) as [infra|]; [|by eexists].
  destruct (syncTunnelGroups _ _ _ _ _) as [outcome cache''].
  destruct (_ && _); [|destruct (0 <? _); [|destruct (0 <? _)]]; eexists; (split; [reflexivity|]);
    (split; [apply Hh|split; [apply Hg|]]); cbn; by intros [].
Qed.
Lemma requeue_kept result lostRace : (0 < RequeueAfter result)%Z -> (0 < RequeueAfter (withLostRacePushRequeue result lostRace))%Z.
Proof. unfold withLostRacePushRequeue, lostRacePushRequeueDelay. destruct lostRace; [|done]. cbn. by destruct (_ || _)%bool. Qed.
(** The error a sync returns: that of the first failed write when the sync itself went
    well; when it did not, none, but a delay. *)
Lemma report_result (error_text : WriteError -> string) params cache :
  let report := sync_report error_text params (run_of cache) in
  match run_err (run_of cache) with
  | None => ((sy_result report).2 = None <-> Forall (fun w => exists written, sw_result w = Ok written) (sy_writes report))
  | Some _ => (sy_result report).2 = None /\ (0 < RequeueAfter (sy_result report).1)%Z
  end.
Proof.
  destruct (sync_covers cache) as (sr & Hsr & _ & _ & Hretry). cbn. rewrite Hsr. cbn.
  unfold syncAndUpdateStatusCommon, sync_diagnostics. rewrite Hsr.
  destruct (run_err (run_of cache)) as [e|].
  - rewrite Hretry by done. destruct (su_push params) as [push|]; cbn; [|done].
    destruct (pushPartitionConfigs push sr) as [summary|]; cbn; [|done].
    pose proof (requeue_kept retry_later (ps_lostRace summary) ltac:(done)) as Hpos.
    rewrite (proj2 (Z.ltb_lt _ _) Hpos). done.
  - clear Hretry. rewrite <-(first_failure_none error_text). destruct (su_push params) as [push|]; cbn; [destruct (pushPartitionConfigs push sr) as [summary|]; cbn|]; by destruct (first_failure _ _).
Qed.
End reports.

(** ** Over an explicit quic tunnel *)

Section quic.
Context {texts : ErrorText} {kube : KubeClient}.
(** A stored write is one of the attempts. *)
Lemma status_write_stored params attempts info failed syncErr before after :
  (forall i r, at_Read (attempts i) = Some r -> st_ResourceVersion r = st_ResourceVersion (at_Stored (attempts i)) -> r = at_Stored (attempts i)) ->
  updateRouteStatusGeneric params attempts info failed syncErr = Ok (stored before after) ->
  exists classNames now, write_of params classNames now info failed syncErr before after.
Proof.
  intros Hver. unfold updateRouteStatusGeneric. destruct (managedClassNames _) as [classNames|]; [|done]. intros H.
  destruct (RetryOnConflict_spec default_retry_steps (fun i => updateRouteParentStatuses params (attempts i) classNames info failed syncErr) 0)
    as [(k & _ & _ & _ & Hr)|[_ Hr]]; rewrite Hr in H; [|done].
  apply updateRouteParentStatuses_stored in H as [_ Hw]; [by eexists _, _|apply Hver].
Qed.
(** A parent with an override has its two standard conditions and is not accepted. *)
Lemma overridden_parent ref ns cn g t info refIdx failed syncErr o diagnostics ruleCount :
  exists accepted, ps_Conditions (buildParentStatus ref ns cn g t info refIdx failed syncErr (Some o) diagnostics ruleCount) =
    [accepted; buildResolvedRefsCondition g t failed diagnostics] /\ cond_Status accepted = ConditionFalse.
Proof.
  unfold buildParentStatus. destruct (diagnosticConditions _ _ _ _) as [dov partial]. cbn [ps_Conditions app].
  set (acc := buildAcceptedCondition _ _ _ _ _ _).
  assert (Hf : cond_Status acc = ConditionFalse).
  { subst acc. unfold buildAcceptedCondition. by repeat case_match. }
  exists acc. rewrite Hf. by rewrite !bool_decide_eq_false_2.
Qed.
Lemma resolved_refs_type g t failed diagnostics : cond_Type (buildResolvedRefsCondition g t failed diagnostics) = RouteConditionResolvedRefs.
Proof. unfold buildResolvedRefsCondition. by repeat case_match. Qed.
(** A write with an override leaves no Accepted=True of this controller. *)
Lemma overridden_write controllerName o diagnostics generation attempts info failed syncErr before after p c :
  (forall i r, at_Read (attempts i) = Some r -> st_ResourceVersion r = st_ResourceVersion (at_Stored (attempts i)) -> r = at_Stored (attempts i)) ->
  updateRouteStatusGeneric (mkStatusParams controllerName (Some o) diagnostics generation) attempts info failed syncErr = Ok (stored before after) ->
  p ∈ st_Parents after -> ps_ControllerName p = controllerName -> c ∈ ps_Conditions p -> cond_Type c = RouteConditionAccepted ->
  cond_Status c = ConditionFalse.
Proof.
  intros Hver Hw Hp Hn Hc Ht. apply status_write_stored in Hw as (classNames & now & _ & _ & Hown & _); [|done].
  assert (Hin : p ∈ own (mkStatusParams controllerName (Some o) diagnostics generation) (st_Parents after)).
  { apply list_elem_of_In, filter_In. split; [by apply list_elem_of_In|]. by apply bool_decide_eq_true. }
  rewrite Hown in Hin. apply elem_of_take in Hin as (j & Hj & _). apply list_elem_of_lookup_2 in Hj. unfold our_entries in Hj.
  apply list_elem_of_In, in_concat in Hj as (l & Hl & Hj). apply list_elem_of_In, elem_of_lookup_imap in Hl as (i & ref & -> & _).
  unfold resolveParentRefStatus in Hj. destruct (negb _); [done|]. destruct Hj as [<-|[]].
  destruct (overridden_parent ref (default (st_Namespace before) (pref_Namespace ref)) controllerName (st_Generation before) now info i failed syncErr o
    diagnostics (st_RuleCount before)) as (accepted & Hcs & Hf). cbn [up_controllerName up_acceptedOverride up_diagnostics] in Hc. rewrite Hcs in Hc.
  rewrite elem_of_cons, list_elem_of_singleton in Hc. destruct Hc as [->| ->]; [done|]. by rewrite resolved_refs_type in Ht.
Qed.
Lemma diagnostic_events_reason seen diagnostics : Forall (fun e => ev_Reason e <> ev_Reason grpc_edge_hint) (diagnostic_events seen diagnostics).
Proof.
  revert seen. induction diagnostics as [|d ds IH]; intros seen; cbn; [constructor|]. case_bool_decide; [done|]. apply Forall_app. split; [|done].
  unfold diagnostic_event. destruct (diag_Target d); cbn; repeat constructor; cbn; by apply (bool_decide_unpack _).
Qed.
End quic.

(** ** Properties *)

Definition route_keys {R} (result : routeResult R) : list (string * string) :=
  (fun route => (ro_Namespace route, ro_Name route)) <$> res_accepted result ++ res_rejected result.

(** C14: A reconcile reports the routes of its kind, all of them and nothing else.  Whatever
    happens to the configuration, the data planes or the tunnels, a sync whose route lists
    were read writes one status per relevant route of the reconciler's kind, accepted or
    rejected, and none of the other kind; a failed write does not stop the others and is
    returned; a failed sync is not returned but asks to come back; and both reconcilers
    behave so after a route was deleted and for every route they manage. *)
Theorem reconcile_reports_kind {texts : ErrorText} {cluster : Cluster} {kube : KubeClient} {views : ListenerViews} {gateways : GatewayReader}
    {reader : ConfigReader} {decoder : TokenDecoder} {hash : Sha256} {uuids : UuidParser}
    {parser : UrlParser} {sorter : EntrySort} {api : CloudflareAPI}
    (controllerName defaultNamespace clusterDomain : string) (ownership : option Policy) (client : option Client) (validator : option GrantClient)
    (httpRoutes : list (RouteObject HTTPRouteRule)) (grpcRoutes : list (RouteObject GRPCRouteRule)) (cache : gmap string string)
    (error_text : WriteError -> string) (r : HTTPRouteReconciler) (hs : StatusServer HTTPRouteRule) (g : GRPCRouteReconciler) (gs : StatusServer GRPCRouteRule) :
  let run := SyncAllRoutes controllerName defaultNamespace clusterDomain ownership client validator (Some httpRoutes) (Some grpcRoutes) cache in
  let http := http_syncAndUpdateStatus error_text r hs run in
  let grpc := grpc_syncAndUpdateStatus error_text g gs run in
  let settled (report : SyncReport) :=
    match run_err run with
    | None => (sy_result report).2 = None <-> Forall (fun w => exists written, sw_result w = Ok written) (sy_writes report)
    | Some _ => (sy_result report).2 = None /\ (0 < RequeueAfter (sy_result report).1)%Z
    end in
  (sw_route <$> sy_writes http ≡ₚ route_keys (getRelevantHTTPRoutes controllerName ownership httpRoutes)) /\
  Forall (fun w => sw_kind w = HTTPKind) (sy_writes http) /\ settled http /\
  (sw_route <$> sy_writes grpc ≡ₚ route_keys (getRelevantGRPCRoutes controllerName ownership grpcRoutes)) /\
  Forall (fun w => sw_kind w = GRPCKind) (sy_writes grpc) /\ settled grpc /\
  (forall route, routeReferencesOurGateways (hr_ControllerName r) (HTTPRouteWrapper route) = true ->
     http_Reconcile error_text r hs true (Found route) run = (route_synced (sy_result http), sy_writes http)) /\
  http_Reconcile error_text r hs true NotFound run = (route_synced (sy_result http), sy_writes http) /\
  (forall route, routeReferencesOurGateways (gr_ControllerName g) (GRPCRouteWrapper route) = true ->
     grpc_Reconcile error_text g gs true (Found route) run = (route_synced (sy_result grpc), sy_writes grpc)) /\
  grpc_Reconcile error_text g gs true NotFound run = (route_synced (sy_result grpc), sy_writes grpc).
Proof.
  intros run http grpc settled.
  destruct (sync_covers controllerName defaultNamespace clusterDomain ownership client validator httpRoutes grpcRoutes cache) as (sr & Hsr & Hh & Hg & _).
  assert (Hhw : sw_route <$> sy_writes http = route_keys (sr_HTTP sr) /\ Forall (fun w => sw_kind w = HTTPKind) (sy_writes http)).
  { subst http. cbn. fold run in Hsr. rewrite Hsr. cbn. unfold route_keys, httpStatusEntries. split.
    - rewrite <-list_fmap_compose, !fmap_app. by f_equal; unfold buildStatusEntries; rewrite <-!list_fmap_compose.
    - apply Forall_fmap, Forall_true. intros e. done. }
  assert (Hgw : sw_route <$> sy_writes grpc = route_keys (sr_GRPC sr) /\ Forall (fun w => sw_kind w = GRPCKind) (sy_writes grpc)).
  { subst grpc. cbn. fold run in Hsr. rewrite Hsr. cbn. unfold route_keys, grpcStatusEntries. split.
    - rewrite <-list_fmap_compose, !fmap_app. by f_equal; unfold buildStatusEntries; rewrite <-!list_fmap_compose.
    - apply Forall_fmap, Forall_true. intros e. done. }
  destruct Hhw as [-> ?], Hgw as [-> ?].
  split_and!; try done.
  - unfold route_keys. by rewrite Hh.
  - exact (report_result controllerName defaultNamespace clusterDomain ownership client validator httpRoutes grpcRoutes error_text (http_syncParams r hs) cache).
  - unfold route_keys. by rewrite Hg.
  - exact (report_result controllerName defaultNamespace clusterDomain ownership client validator httpRoutes grpcRoutes error_text (grpc_syncParams g gs) cache).
  - intros route Hr. unfold http_Reconcile, reconcileRoute. cbn [wrap_read negb]. by rewrite Hr.
  - intros route Hr. unfold grpc_Reconcile, reconcileRoute. cbn [wrap_read negb]. by rewrite Hr.
Qed.

(** C35: gRPC over an explicit quic tunnel is refused in the open.  Every GRPCRoute whose
    status is stored is left without an Accepted=True of this controller, no Event claims
    that only the edge needs configuring, and the reconciler warns exactly when some
    GRPCRoute is accepted; the HTTPRoute reconciler never warns. *)
Theorem quic_tunnel_refuses_grpc {texts : ErrorText} {kube : KubeClient}
    (error_text : WriteError -> string) (g : GRPCRouteReconciler) (gs : StatusServer GRPCRouteRule) (r : HTTPRouteReconciler) (hs : StatusServer HTTPRouteRule)
    (run : SyncRun) (sr : SyncResult) (Hsr : run_sync run = Some sr) (Hquic : isExplicitQUIC (gr_TunnelProtocol g) = true)
    (Hver : forall route i copy, at_Read (ss_Attempts gs route i) = Some copy ->
       st_ResourceVersion copy = st_ResourceVersion (at_Stored (ss_Attempts gs route i)) -> copy = at_Stored (ss_Attempts gs route i)) :
  let grpc := grpc_syncAndUpdateStatus error_text g gs run in
  (forall w before after p c, w ∈ sy_writes grpc -> sw_result w = Ok (stored before after) -> p ∈ st_Parents after ->
     ps_ControllerName p = gr_ControllerName g -> c ∈ ps_Conditions p -> cond_Type c = RouteConditionAccepted -> cond_Status c = ConditionFalse) /\
  (forall w, w ∈ sy_writes grpc -> grpc_edge_hint ∉ sw_events w) /\
  (is_Some (sy_warning grpc) <-> res_accepted (sr_GRPC sr) <> []) /\
  sy_warning (http_syncAndUpdateStatus error_text r hs run) = None.
Proof.
  assert (Hov : grpc_override (gr_TunnelProtocol g) = Some (mkAcceptedOverride "UnsupportedProtocol" grpcQUICUnsupportedStatusMessage)).
  { unfold grpc_override. by rewrite Hquic. }
  cbn. rewrite Hsr. split_and!.
  - intros w before after p c (e & -> & _)%list_elem_of_fmap. unfold grpc_status_write, grpc_updateRouteStatus. cbn [sw_result]. rewrite Hov.
    intros Hw Hp Hn Hc Ht. eapply (overridden_write _ _ _ _ _ _ _ _ _ _ p c (Hver (se_route e)) Hw Hp Hn Hc Ht).
  - intros w (e & -> & _)%list_elem_of_fmap Hin. unfold grpc_status_write, grpc_updateRouteStatus in Hin. cbn [sw_events] in Hin.
    apply elem_of_app in Hin as [Hin|Hin].
    + unfold emitDiagnosticEvents in Hin. destruct (gr_Recorder g); [|by apply elem_of_nil in Hin].
      pose proof (diagnostic_events_reason [] (se_diagnostics e)) as Hev. rewrite Forall_forall in Hev. exact (Hev _ Hin eq_refl).
    + unfold grpcRouteWillBeAccepted in Hin. rewrite Hov, (bool_decide_eq_true_2 (is_Some (Some _))), orb_true_r in Hin by done. by apply elem_of_nil in Hin.
  - rewrite bool_decide_eq_false_2.
    + unfold grpcProtocolWarning. rewrite Hquic. destruct (res_accepted (sr_GRPC sr)); cbn; split; [by intros []|done|done|by eexists].
    + intros He. rewrite He in Hquic. vm_compute in Hquic. done.
  - done.
Qed.

(** ** Examples *)

Module RouteExample.
(** A GRPCRoute on the Gateway and host of the older [run_route]. *)
Definition grpc_route : RouteObject GRPCRouteRule := mkRouteObject "prod" "rpc" 2 ["a.example.com"] [ref_to "edge"] [].
Definition run (http : list (RouteObject HTTPRouteRule)) : SyncRun :=
  @SyncAllRoutes bare_cluster run_client run_views run_reader tenant_decoder constant_digest lower_uuid no_urls insertion_entries good_api
    "us" "system" "cluster.local" None (Some run_services) None (Some http) (Some [grpc_route]) ∅.
Definition r : HTTPRouteReconciler := mkHTTPRouteReconciler "us" None [] true None.
Definition g (protocol : string) : GRPCRouteReconciler := mkGRPCRouteReconciler "us" None [] true protocol None.
(** An API server that takes every write. *)
Definition stored_at (route : string * string) (refs : list ParentReference) : StoredRoute := mkStoredRoute 1 1 route.1 refs 1 [].
Definition server {R} : StatusServer R :=
  mkStatusServer (fun _ => 1%Z) (fun route _ =>
    let copy := stored_at (ro_Namespace route, ro_Name route) (ro_ParentRefs route) in mkAttempt (Some copy) 7 copy None).
Definition write_text (_ : WriteError) : string := "write failed".
(** The reasons of the Accepted conditions a report stored, by route. *)
Definition reasons (writes : list StatusWrite) : list (string * list string) :=
  (fun w => ((sw_route w).2,
     match sw_result w with
     | Ok (stored _ after) => omap (fun p => cond_Reason <$> FindStatusCondition (ps_Conditions p) RouteConditionAccepted) (st_Parents after)
     | _ => [] end)) <$> writes.
Definition deletion : WatchEvent := DeleteEvent (mkWatchedObject (WatchedRoute "prod" "web") 1 ∅).
End RouteExample.
Lemma quic_tunnel_refuses_grpc_witness :
  let g := RouteExample.g " QUIC" in
  let grpc := @grpc_syncAndUpdateStatus terse_errors run_client RouteExample.write_text g RouteExample.server (RouteExample.run []) in
  RouteExample.reasons (sy_writes grpc) = [("rpc", ["UnsupportedProtocol"])] /\ is_Some (sy_warning grpc).
Proof.
  cbn zeta. split; [vm_compute; reflexivity|].
  destruct (@sync_covers bare_cluster run_client run_views run_reader tenant_decoder constant_digest lower_uuid no_urls insertion_entries good_api
    "us" "system" "cluster.local" None (Some run_services) None [] [RouteExample.grpc_route] ∅) as (sr & Hsr & _).
  refine (proj2 (proj1 (proj2 (proj2 (@quic_tunnel_refuses_grpc terse_errors run_client RouteExample.write_text (RouteExample.g " QUIC") RouteExample.server
    RouteExample.r RouteExample.server (RouteExample.run []) sr Hsr _ _)))) _).
  - vm_compute. reflexivity.
  - by intros route i copy [= <-] _.
  - assert (H : (fun s => length (res_accepted (sr_GRPC s))) <$> run_sync (RouteExample.run []) = Some 1) by (vm_compute; reflexivity).
    unfold RouteExample.run in H. rewrite Hsr in H. cbn in H. by destruct (res_accepted (sr_GRPC sr)).
Defined.
(** A GRPCRoute rejected for an HTTPRoute stays reported rejected after that route is
    gone.  Deleting the HTTPRoute programs the GRPCRoute, but the event enqueues nothing
    at the GRPCRoute reconciler, and the HTTPRoute reconciler writes no GRPCRoute status. *)
Lemma cross_type_loser_stale :
  let http run := @http_Reconcile terse_errors run_client class_reader RouteExample.write_text RouteExample.r RouteExample.server true run in
  let grpc run := @grpc_Reconcile terse_errors run_client class_reader RouteExample.write_text (RouteExample.g "auto") RouteExample.server true (Found RouteExample.grpc_route) run in
  RouteExample.reasons (grpc (RouteExample.run [run_route])).2 = [("rpc", ["Conflicted"])] /\
  @grpc_SetupWithManager bare_cluster run_client run_views class_reader run_reader one_grant no_policies (RouteExample.g "auto")
    (Some [RouteExample.grpc_route]) (on_route HTTPKind RouteExample.deletion) = [] /\
  @http_SetupWithManager bare_cluster run_client run_views class_reader run_reader one_grant no_policies RouteExample.r
    (Some []) (on_route HTTPKind RouteExample.deletion) = [("prod", "web")] /\
  (http NotFound (RouteExample.run [])).2 = [] /\
  (match run_sync (RouteExample.run []) with Some sr => (fun p => (rp_Key p, ro_Name <$> rp_GRPCRoutes p)) <$> sr_Partitions sr | None => [] end)
    = [("shared", ["rpc"]); ("tenant/edge", [])] /\
  RouteExample.reasons (grpc (RouteExample.run [])).2 = [("rpc", ["Accepted"])].
Proof. vm_compute. repeat split. Qed.
