(* ===== verification/Manager.v ===== *)
(** * The controller process ([cmd/controller/cmd/root.go], [controller/manager.go],
      [internal/dns/detect.go])

    The cluster domain the process works with, and [Run]: the guards and the order in
    which the reconcilers are built and registered.  What controller-runtime answers
    ([NewManager], the schemes, [SetupWithManager], the probes, [Start]) is the
    parameter [ManagerEnv]; the reconcilers are the records of their files. *)
From Stdlib Require Import Ascii.
From stdpp Require Import sorting.
From stdpp Require Import base sets gmap strings list.
From S2P Require Import Prelude GoStrings RouteBinding ListenerView RoutePartition SyncAll HostnameOwnership RouteStatus RouteReconcilers Resync.

(** ** The cluster domain *)

(** [strings.Fields] *)
Fixpoint fields_loop (word : string) (s : string) : list string :=
  let emit (rest : list string) := if bool_decide (word = "") then rest else word :: rest in
  match s with
  | EmptyString => emit []
  | String c s' => if is_space c then emit (fields_loop "" s') else fields_loop (word +:+ String c EmptyString) s'
  end.
Definition Fields (s : string) : list string := fields_loop "" s.
Definition DefaultClusterDomain : string := "cluster.local".
(** [bufio.MaxScanTokenSize]: a scan ends at a longer line. *)
Definition MaxScanTokenSize : nat := Z.to_nat 65536.
Definition extractClusterDomain (domains : list string) : string :=
  default "" (head (omap (fun domain =>
    match CutPrefix domain "svc." with Some d => if bool_decide (d = "") then None else Some d | None => None end) domains)).
Fixpoint scan_lines (lines : list string) : option string :=
  match lines with
  | [] => None
  | text :: rest =>
      if MaxScanTokenSize <=? String.length text then None
      else
        let line := TrimSpace text in
        if bool_decide (line = "") || HasPrefix line "#" || HasPrefix line ";" then scan_lines rest
        else if HasPrefix line "search " then
          let domain := extractClusterDomain (tail (Fields line)) in
          if negb (bool_decide (domain = "")) then Some domain else scan_lines rest
        else scan_lines rest
  end.
Definition parseResolvConf (content : string) : option string := scan_lines (SplitByte content "010"%char).
(** [None] is a file that cannot be opened. *)
Definition DetectClusterDomainFromFile (file : option string) : option string := file ≫= parseResolvConf.
(** [configured] is the flag [--cluster-domain] or its environment variable. *)
Definition resolveClusterDomain (configured : string) (resolvConf : option string) : string :=
  if negb (bool_decide (configured = "")) then configured
  else match DetectClusterDomainFromFile resolvConf with Some detected => detected | None => DefaultClusterDomain end.

(** ** The configuration of the manager *)

Record Config := mkManagerConfig {
  mc_ClusterDomain : string; mc_ControllerName : string; mc_MetricsAddr : string; mc_HealthAddr : string;
  mc_LeaderElect : bool; mc_LeaderElectNS : string; mc_LeaderElectName : string;
  mc_ProxyEndpoints : list string; mc_ProxyAuthToken : string; mc_TunnelProtocol : string;
  mc_HostnameOwnershipEnforce : bool; mc_HostnameOwnershipLabelKey : string; mc_HostnameOwnershipNamespaceSelector : string;
  mc_MonitoringNamespaceSelector : string; mc_RenderNetworkPolicy : bool; mc_ProxyImage : string;
  mc_ProxyTokenSecret : string; mc_ProxyDeploymentLabel : string; mc_Tracing : bool }.
Definition sanitiseProxyEndpoints (endpoints : list string) : list string :=
  omap (fun ep => let trimmed := TrimSpace ep in if bool_decide (trimmed = "") then None else Some trimmed) endpoints.
(** [metav1.ParseToLabelSelector] *)
Class LabelSelectorParser := ParseToLabelSelector : string -> option LabelSelector.
Inductive Scheme := gatewayv1 | gatewayv1beta1 | v1alpha1 | mcsv1alpha1 | apiextensionsv1.
(** The namespace of the controller: the variable, the file of the downward API, or [default]. *)
Definition getControllerNamespace (env : string) (file : option string) : string :=
  if negb (bool_decide (env = "")) then env else default "default" file.
(** [ctrl.Options]; the lease is the namespace and the name of the leader election. *)
Record ManagerOptions := mkManagerOptions { mo_BindAddress : string; mo_HealthProbeBindAddress : string; mo_FieldValidation : string; mo_lease : option (string * string) }.
Definition manager_options (cfg : Config) : ManagerOptions :=
  mkManagerOptions (mc_MetricsAddr cfg) (mc_HealthAddr cfg) "Warn"
    (if mc_LeaderElect cfg then Some (mc_LeaderElectNS cfg, mc_LeaderElectName cfg) else None).
(** [initProxySyncer] *)
Record SyncerOptions := mkSyncerOptions { so_ClusterDomain : string; so_AuthToken : string; so_ControllerName : string; so_Tracing : bool }.
Definition initProxySyncer (cfg : Config) : SyncerOptions :=
  mkSyncerOptions (mc_ClusterDomain cfg) (mc_ProxyAuthToken cfg) (mc_ControllerName cfg) (mc_Tracing cfg).

(** A registered reconciler with what it was built from. *)
Inductive Component :=
| c_Gateway (controllerName proxyImage : string)
| c_GatewayInfra (controllerName proxyImage tunnelProtocol namespace : string) (monitoring : option LabelSelector) (renderNetworkPolicy : bool)
| c_HTTPRoute (r : HTTPRouteReconciler)
| c_GRPCRoute (r : GRPCRouteReconciler)
| c_ListenerSet (controllerName : string)
| c_GatewayClassConfig (defaultNamespace : string)
| c_ProxyEndpoint (syncer : SyncerOptions) (endpoints : list string)
| c_ProxySecret (r : ProxySecretReconciler)
| c_GatewayClass (controllerName : string)
| c_BackendTLSPolicy (controllerName : string).
Inductive ManagerError :=
| errNoProxyEndpoints | errCreateManager | errScheme (s : Scheme) | errSetup (c : Component) | errMonitoringSelector
| errOwnershipPolicy (e : OwnershipError) | errProxySecret (e : TokenSecretError) | errHealthCheck | errReadyCheck | errStart.
Class ManagerEnv := {
  env_NewManager : ManagerOptions -> bool; env_Install : Scheme -> bool; env_SetupWithManager : Component -> bool;
  env_AddHealthzCheck : bool; env_AddReadyzCheck : bool; env_Start : bool;
  env_CONTROLLER_NAMESPACE : string; env_namespace_file : option string }.

(** ** [Run] *)

(** A computation that registers components and may fail. *)
Definition Setup (A : Type) : Type := list Component -> list Component * res ManagerError A.
#[export] Instance Setup_ret : MRet Setup := fun _ x log => (log, Ok x).
#[export] Instance Setup_bind : MBind Setup := fun _ _ k m log =>
  match m log with (log, Ok x) => k x log | (log, Err e) => (log, Err e) end.
Definition require (ok : bool) (e : ManagerError) : Setup unit := fun log => (log, if ok then Ok tt else Err e).
Definition lift {A E} (wrap : E -> ManagerError) (r : res E A) : Setup A :=
  fun log => (log, match r with Ok x => Ok x | Err e => Err (wrap e) end).

Section run.
Context {env : ManagerEnv} {selectors : LabelSelectorParser} {parser : SelectorParser}.
(** The pushes a syncer with these options makes. *)
Context (NewProxySyncer : SyncerOptions -> list string -> routePartition -> partitionPushResult).
Definition register (c : Component) : Setup unit :=
  fun log => if env_SetupWithManager c then (log ++ [c], Ok tt) else (log, Err (errSetup c)).
Definition installSchemes : Setup unit :=
  foldr (fun s rest => _ ← require (env_Install s) (errScheme s); rest) (mret tt) [gatewayv1; gatewayv1beta1; v1alpha1; mcsv1alpha1; apiextensionsv1].
Definition parseNamespaceSelector (selectorStr : string) : res unit (option LabelSelector) :=
  if bool_decide (TrimSpace selectorStr = "") then Ok None
  else match ParseToLabelSelector selectorStr with Some selector => Ok (Some selector) | None => Err tt end.
Definition setupListenerSetReconciler (controllerName : string) : Setup unit := register (c_ListenerSet controllerName).
Definition setupProxyEndpointReconciler (syncer : SyncerOptions) (proxyEndpoints : list string) : Setup unit := register (c_ProxyEndpoint syncer proxyEndpoints).
Definition setupProxySecretReconciler (proxyTokenSecret proxyDeploymentLabel : string) : Setup unit :=
  if bool_decide (TrimSpace proxyTokenSecret = "") then mret tt
  else
    reconciler ← lift errProxySecret (NewProxySecretReconciler proxyTokenSecret proxyDeploymentLabel);
    register (c_ProxySecret reconciler).
Definition setupStatusReconcilers (controllerName : string) : Setup unit :=
  _ ← register (c_GatewayClass controllerName);
  register (c_BackendTLSPolicy controllerName).
Definition http_reconciler (cfg : Config) (proxyEndpoints : list string) (ownership : option Policy) : HTTPRouteReconciler :=
  mkHTTPRouteReconciler (mc_ControllerName cfg) (Some (NewProxySyncer (initProxySyncer cfg))) proxyEndpoints true ownership.
Definition grpc_reconciler (cfg : Config) (proxyEndpoints : list string) (ownership : option Policy) : GRPCRouteReconciler :=
  mkGRPCRouteReconciler (mc_ControllerName cfg) (Some (NewProxySyncer (initProxySyncer cfg))) proxyEndpoints true (mc_TunnelProtocol cfg) ownership.
Definition Run_setup (cfg : Config) : Setup unit :=
  let proxyEndpoints := sanitiseProxyEndpoints (mc_ProxyEndpoints cfg) in
  _ ← require (negb (length proxyEndpoints =? 0)) errNoProxyEndpoints;
  _ ← require (env_NewManager (manager_options cfg)) errCreateManager;
  _ ← installSchemes;
  let defaultNamespace := getControllerNamespace env_CONTROLLER_NAMESPACE env_namespace_file in
  _ ← register (c_Gateway (mc_ControllerName cfg) (mc_ProxyImage cfg));
  monitoringSelector ← lift (fun _ => errMonitoringSelector) (parseNamespaceSelector (mc_MonitoringNamespaceSelector cfg));
  _ ← register (c_GatewayInfra (mc_ControllerName cfg) (mc_ProxyImage cfg) (mc_TunnelProtocol cfg) defaultNamespace monitoringSelector
                  (mc_RenderNetworkPolicy cfg));
  ownership ← (if mc_HostnameOwnershipEnforce cfg
               then policy ← lift errOwnershipPolicy (New (mc_HostnameOwnershipLabelKey cfg) (mc_HostnameOwnershipNamespaceSelector cfg)); mret (Some policy)
               else mret None);
  let proxySyncer := initProxySyncer cfg in
  _ ← register (c_HTTPRoute (http_reconciler cfg proxyEndpoints ownership));
  _ ← register (c_GRPCRoute (grpc_reconciler cfg proxyEndpoints ownership));
  _ ← setupListenerSetReconciler (mc_ControllerName cfg);
  _ ← register (c_GatewayClassConfig defaultNamespace);
  _ ← setupProxyEndpointReconciler proxySyncer proxyEndpoints;
  _ ← setupProxySecretReconciler (mc_ProxyTokenSecret cfg) (mc_ProxyDeploymentLabel cfg);
  _ ← setupStatusReconcilers (mc_ControllerName cfg);
  _ ← require env_AddHealthzCheck errHealthCheck;
  _ ← require env_AddReadyzCheck errReadyCheck;
  require env_Start errStart.
(** What was registered when [Run] returned, and its error. *)
Definition Run (cfg : Config) : list Component * res ManagerError unit := Run_setup cfg [].
End run.

(** ** What a running controller is made of *)

Section plan.
Context {env : ManagerEnv} {selectors : LabelSelectorParser} {parser : SelectorParser}.
Context (NewProxySyncer : SyncerOptions -> list string -> routePartition -> partitionPushResult) (cfg : Config).
Definition ok_or_none {A E} (r : res E A) : option A := match r with Ok x => Some x | Err _ => None end.
Definition compiled_policy : option Policy :=
  if mc_HostnameOwnershipEnforce cfg then ok_or_none (New (mc_HostnameOwnershipLabelKey cfg) (mc_HostnameOwnershipNamespaceSelector cfg)) else None.
Definition token_watcher : option ProxySecretReconciler :=
  if bool_decide (TrimSpace (mc_ProxyTokenSecret cfg) = "") then None
  else ok_or_none (NewProxySecretReconciler (mc_ProxyTokenSecret cfg) (mc_ProxyDeploymentLabel cfg)).
Definition planned : list Component :=
  let name := mc_ControllerName cfg in
  let endpoints := sanitiseProxyEndpoints (mc_ProxyEndpoints cfg) in
  let namespace := getControllerNamespace env_CONTROLLER_NAMESPACE env_namespace_file in
  [c_Gateway name (mc_ProxyImage cfg);
   c_GatewayInfra name (mc_ProxyImage cfg) (mc_TunnelProtocol cfg) namespace
     (default None (ok_or_none (parseNamespaceSelector (mc_MonitoringNamespaceSelector cfg)))) (mc_RenderNetworkPolicy cfg);
   c_HTTPRoute (http_reconciler NewProxySyncer cfg endpoints compiled_policy);
   c_GRPCRoute (grpc_reconciler NewProxySyncer cfg endpoints compiled_policy);
   c_ListenerSet name; c_GatewayClassConfig namespace; c_ProxyEndpoint (initProxySyncer cfg) endpoints] ++
  option_list (c_ProxySecret <$> token_watcher) ++ [c_GatewayClass name; c_BackendTLSPolicy name].
(** The settings [Run] refuses to start with. *)
Definition settings_valid : Prop :=
  sanitiseProxyEndpoints (mc_ProxyEndpoints cfg) <> [] /\
  (exists selector, parseNamespaceSelector (mc_MonitoringNamespaceSelector cfg) = Ok selector) /\
  (mc_HostnameOwnershipEnforce cfg = true -> exists policy, New (mc_HostnameOwnershipLabelKey cfg) (mc_HostnameOwnershipNamespaceSelector cfg) = Ok policy) /\
  (TrimSpace (mc_ProxyTokenSecret cfg) <> "" ->
     exists r, NewProxySecretReconciler (mc_ProxyTokenSecret cfg) (mc_ProxyDeploymentLabel cfg) = Ok r).
(** *** One step of [Run] *)

Lemma require_step ok e (k : Setup unit) log (P : list Component * res ManagerError unit -> Prop) :
  (ok = false -> P (log, Err e)) -> (ok = true -> P (k log)) -> P ((_ ← require ok e; k) log).
Proof. unfold mbind, Setup_bind, require. destruct ok; auto. Qed.
Lemma register_step c (k : Setup unit) log (P : list Component * res ManagerError unit -> Prop) :
  P (log, Err (errSetup c)) -> P (k (log ++ [c])) -> P ((_ ← register c; k) log).
Proof. unfold mbind, Setup_bind, register. destruct (env_SetupWithManager c); auto. Qed.
Lemma schemes_step (k : Setup unit) log (P : list Component * res ManagerError unit -> Prop) :
  (forall s, P (log, Err (errScheme s))) -> P (k log) -> P ((_ ← installSchemes; k) log).
Proof.
  unfold mbind, Setup_bind, installSchemes, require, mret, Setup_ret. intros He Hk. cbn. unfold mbind, Setup_bind.
  do 5 (destruct (env_Install _); [|apply He]). exact Hk.
Qed.
Lemma status_step name (k : Setup unit) log (P : list Component * res ManagerError unit -> Prop) :
  (forall e, P (log, Err e)) -> (forall e, P (log ++ [c_GatewayClass name], Err e)) -> P (k (log ++ [c_GatewayClass name; c_BackendTLSPolicy name])) ->
  P ((_ ← setupStatusReconcilers name; k) log).
Proof.
  unfold mbind, Setup_bind, setupStatusReconcilers, mbind, Setup_bind, register. intros H1 H2 Hk.
  destruct (env_SetupWithManager (c_GatewayClass name)); [|apply H1]. destruct (env_SetupWithManager (c_BackendTLSPolicy name)); [|apply H2].
  by rewrite <-app_assoc.
Qed.
Lemma lift_step {A E} (wrap : E -> ManagerError) (r : res E A) (k : A -> Setup unit) log (P : list Component * res ManagerError unit -> Prop) :
  (forall e, r = Err e -> P (log, Err (wrap e))) -> (forall x, r = Ok x -> P (k x log)) -> P ((x ← lift wrap r; k x) log).
Proof. unfold mbind, Setup_bind, lift. destruct r; auto. Qed.
Lemma policy_step (k : option Policy -> Setup unit) log (P : list Component * res ManagerError unit -> Prop) :
  (forall e, mc_HostnameOwnershipEnforce cfg = true -> New (mc_HostnameOwnershipLabelKey cfg) (mc_HostnameOwnershipNamespaceSelector cfg) = Err e ->
     P (log, Err (errOwnershipPolicy e))) ->
  ((mc_HostnameOwnershipEnforce cfg = true -> exists policy, New (mc_HostnameOwnershipLabelKey cfg) (mc_HostnameOwnershipNamespaceSelector cfg) = Ok policy) ->
     P (k compiled_policy log)) ->
  P ((ownership ← (if mc_HostnameOwnershipEnforce cfg
                   then policy ← lift errOwnershipPolicy (New (mc_HostnameOwnershipLabelKey cfg) (mc_HostnameOwnershipNamespaceSelector cfg)); mret (Some policy)
                   else mret None); k ownership) log).
Proof.
  unfold compiled_policy, mbind, Setup_bind, lift, mret, Setup_ret. destruct (mc_HostnameOwnershipEnforce cfg); [|intros _ H; by apply H].
  destruct (New _ _) as [policy|e]; [|intros H _; by apply H]. intros _ H. apply H. by eexists.
Qed.
Lemma secret_step (k : Setup unit) log (P : list Component * res ManagerError unit -> Prop) :
  (forall e, P (log, Err e)) ->
  ((TrimSpace (mc_ProxyTokenSecret cfg) <> "" -> exists r, NewProxySecretReconciler (mc_ProxyTokenSecret cfg) (mc_ProxyDeploymentLabel cfg) = Ok r) ->
     P (k (log ++ option_list (c_ProxySecret <$> token_watcher)))) ->
  P ((_ ← setupProxySecretReconciler (mc_ProxyTokenSecret cfg) (mc_ProxyDeploymentLabel cfg); k) log).
Proof.
  unfold setupProxySecretReconciler, token_watcher, mbind, Setup_bind, lift, register, mret, Setup_ret. intros He Hk.
  case_bool_decide; [cbn in Hk; rewrite app_nil_r in Hk; by apply Hk|]. destruct (NewProxySecretReconciler _ _) as [r|]; [|apply He].
  destruct (env_SetupWithManager _); [|apply He]. apply Hk. by eexists.
Qed.

(** Before the policy is compiled. *)
Definition before_policy : list Component := take 2 planned.
Definition run_outcome (outcome : list Component * res ManagerError unit) : Prop :=
  let '(registered, result) := outcome in
  registered `prefix_of` planned /\ (result = Ok tt -> registered = planned /\ settings_valid) /\
  (sanitiseProxyEndpoints (mc_ProxyEndpoints cfg) = [] -> registered = [] /\ result = Err errNoProxyEndpoints) /\
  (forall e, mc_HostnameOwnershipEnforce cfg = true -> New (mc_HostnameOwnershipLabelKey cfg) (mc_HostnameOwnershipNamespaceSelector cfg) = Err e ->
     registered `prefix_of` before_policy /\ result <> Ok tt).
(** A failure after [n] registrations. *)
Lemma outcome_failed n e :
  sanitiseProxyEndpoints (mc_ProxyEndpoints cfg) <> [] -> n <= 2 \/ (mc_HostnameOwnershipEnforce cfg = true -> exists policy, New (mc_HostnameOwnershipLabelKey cfg) (mc_HostnameOwnershipNamespaceSelector cfg) = Ok policy) ->
  run_outcome (take n planned, Err e).
Proof.
  intros Hne Hn. split_and!; [apply prefix_take|done|done|]. intros e' He Hnew. split; [|done].
  destruct Hn as [Hn|Hn]; [|destruct (Hn He) as [policy ?]; congruence]. unfold before_policy.
  rewrite <-(Nat.min_l n 2 Hn), <-take_take. apply prefix_take.
Qed.
Lemma run_planned : run_outcome (Run NewProxySyncer cfg).
Proof.
  unfold Run, Run_setup. apply require_step.
  { intros He%negb_false_iff%Nat.eqb_eq%nil_length_inv. split_and!; [apply prefix_nil|done|done|]. intros. split; [apply prefix_nil|done]. }
  intros Hne%negb_true_iff%Nat.eqb_neq.
  assert (Hends : sanitiseProxyEndpoints (mc_ProxyEndpoints cfg) <> []) by (intros E; by rewrite E in Hne).
  assert (Hfail : forall registered e n, registered = take n planned -> n <= 2 -> run_outcome (registered, Err e)).
  { intros registered e n -> Hn. apply outcome_failed; auto. }
  apply require_step; [intros _; by apply (Hfail [] _ 0); [|lia]|intros _].
  apply schemes_step; [intros s; by apply (Hfail [] _ 0); [|lia]|].
  apply register_step; [by apply (Hfail [] _ 0); [|lia]|].
  apply lift_step; [intros e _; by apply (Hfail _ _ 1); [|lia]|intros selector Hselector].
  apply register_step; [by apply (Hfail _ _ 1); [|lia]|].
  assert (Hplan : default None (ok_or_none (parseNamespaceSelector (mc_MonitoringNamespaceSelector cfg))) = selector) by (by rewrite Hselector).
  apply policy_step; [intros e He Hnew; apply (Hfail _ _ 2); [by rewrite <-Hplan|lia]|intros Hpolicy].
  assert (Hlate : forall registered e, registered `prefix_of` planned -> run_outcome (registered, Err e)).
  { intros registered e Hprefix. split_and!; [done|done|done|]. intros e' He Hnew. destruct (Hpolicy He) as [policy ?]. congruence. }
  unfold planned in Hlate. rewrite Hplan in Hlate.
  do 2 (apply register_step; [apply Hlate; by eexists|]).
  unfold setupListenerSetReconciler, setupProxyEndpointReconciler.
  do 3 (apply register_step; [apply Hlate; by eexists|]).
  apply secret_step; [intros e; apply Hlate; by eexists|intros Hsecret].
  apply status_step; [intros e; apply Hlate; by eexists|intros e; apply Hlate; eexists; by rewrite <-!app_assoc|].
  do 2 (apply require_step; [intros _; apply Hlate; exists []; by rewrite <-!app_assoc, app_nil_r|intros _]).
  unfold require. destruct env_Start; [|apply Hlate; exists []; by rewrite <-!app_assoc, app_nil_r].
  assert (Heq : planned = _) by reflexivity. unfold planned in Heq at 2. rewrite Hplan in Heq.
  unfold run_outcome. rewrite Heq. split_and!; [exists []; by rewrite <-!app_assoc, app_nil_r| |done|].
  - intros _. split; [by rewrite <-!app_assoc|]. unfold settings_valid. split_and!; [done|by eexists|done|done].
  - intros e He Hnew. destruct (Hpolicy He) as [policy ?]. congruence.
Qed.
End plan.

(** ** Endpoints and domains *)

Definition no_space (s : string) : Prop := str_forallb (fun c => negb (is_space c)) s = true.
Definition starts_visible (s : string) : Prop := match s with String c _ => is_space c = false | EmptyString => True end.
Lemma TrimLeftSpace_visible s : starts_visible (TrimLeftSpace s).
Proof. induction s as [|c s IH]; [done|]. cbn [TrimLeftSpace]. destruct (is_space c) eqn:E; [done|]. exact E. Qed.
Lemma TrimLeftSpace_id s : starts_visible s -> TrimLeftSpace s = s.
Proof. destruct s as [|c s]; [done|]. cbn [TrimLeftSpace starts_visible]. by intros ->. Qed.
Lemma TrimRightSpace_starts s : starts_visible s -> starts_visible (TrimRightSpace s).
Proof. destruct s as [|c s]; [done|]. cbn [TrimRightSpace starts_visible]. intros Hc. destruct (TrimRightSpace s); [|done]. by rewrite Hc. Qed.
Lemma TrimRightSpace_idem s : TrimRightSpace (TrimRightSpace s) = TrimRightSpace s.
Proof.
  induction s as [|c s IH]; [done|]. cbn [TrimRightSpace]. destruct (TrimRightSpace s) as [|d t] eqn:E.
  - destruct (is_space c) eqn:Ec; [done|]. cbn [TrimRightSpace]. by rewrite Ec.
  - change (TrimRightSpace (String c (String d t))) with (match TrimRightSpace (String d t) with EmptyString => if is_space c then EmptyString else String c EmptyString | u => String c u end). by rewrite IH.
Qed.
Lemma TrimSpace_idem s : TrimSpace (TrimSpace s) = TrimSpace s.
Proof.
  unfold TrimSpace. rewrite TrimLeftSpace_id by (apply TrimRightSpace_starts, TrimLeftSpace_visible). apply TrimRightSpace_idem.
Qed.
Lemma sanitised_endpoints endpoints e :
  e ∈ sanitiseProxyEndpoints endpoints <-> exists raw, raw ∈ endpoints /\ e = TrimSpace raw /\ e <> "".
Proof.
  unfold sanitiseProxyEndpoints. rewrite list_elem_of_omap. split; intros (raw & Hin & H); exists raw.
  - cbn in H. case_bool_decide; [done|]. by injection H as <-.
  - destruct H as [-> Hne]. split; [done|]. cbn. by rewrite bool_decide_eq_false_2.
Qed.

Lemma fields_word w0 w c rest : no_space w -> is_space c = true -> w0 +:+ w <> "" ->
  fields_loop w0 (w +:+ String c rest) = (w0 +:+ w) :: fields_loop "" rest.
Proof.
  revert w0. induction w as [|d w IH]; intros w0 Hw Hc Hne.
  - rewrite sapp_nil_r in *. rewrite sapp_nil_l. cbn [fields_loop]. rewrite Hc. by rewrite bool_decide_eq_false_2.
  - unfold no_space in Hw. cbn [str_forallb] in Hw. apply andb_true_iff in Hw as [Hd%negb_true_iff Hw]. rewrite ?sapp_cons. cbn [fields_loop]. rewrite Hd.
    rewrite (IH (w0 +:+ String d "")); [|done|done|]; rewrite ?sapp_assoc; [done|]. by destruct w0.
Qed.
Lemma fields_last w0 w : no_space w -> w0 +:+ w <> "" -> fields_loop w0 w = [w0 +:+ w].
Proof.
  revert w0. induction w as [|d w IH]; intros w0 Hw Hne.
  - rewrite sapp_nil_r in *. cbn. by rewrite bool_decide_eq_false_2.
  - unfold no_space in Hw. cbn [str_forallb] in Hw. apply andb_true_iff in Hw as [Hd%negb_true_iff Hw]. rewrite ?sapp_cons. cbn [fields_loop]. rewrite Hd.
    rewrite IH; [|done|]; rewrite ?sapp_assoc; [done|]. by destruct w0.
Qed.

(** The line kubelet writes: the domain is the one after [svc.], whatever other
    directives come before it. *)
Definition kubernetes_search (namespace domain : string) : string :=
  "search " +:+ namespace +:+ ".svc." +:+ domain +:+ " svc." +:+ domain +:+ " " +:+ domain.
Lemma no_space_app s t : no_space (s +:+ t) <-> no_space s /\ no_space t.
Proof. unfold no_space. induction s as [|c s IH]; [rewrite sapp_nil_l; naive_solver|]. rewrite sapp_cons. cbn [str_forallb]. rewrite !andb_true_iff, IH. tauto. Qed.
Lemma TrimRightSpace_word s w : no_space w -> w <> "" -> TrimRightSpace (s +:+ w) = s +:+ w.
Proof.
  intros Hw Hne. assert (Hword : TrimRightSpace w = w).
  { clear s. induction w as [|c w IH]; [done|]. unfold no_space in Hw. cbn [str_forallb] in Hw. apply andb_true_iff in Hw as [Hc%negb_true_iff Hw].
    cbn [TrimRightSpace]. destruct w as [|d w]; [cbn [TrimRightSpace]; by rewrite Hc|]. by rewrite IH. }
  induction s as [|c s IH]; [by rewrite sapp_nil_l|]. rewrite sapp_cons. cbn [TrimRightSpace]. rewrite IH. destruct (s +:+ w) eqn:E; [|done].
  destruct s; [by rewrite sapp_nil_l in E|done].
Qed.
Lemma kubernetes_domain_detected before namespace domain after :
  no_space namespace -> no_space domain -> domain <> "" -> HasPrefix (namespace +:+ ".svc." +:+ domain) "svc." = false ->
  String.length (kubernetes_search namespace domain) < MaxScanTokenSize ->
  Forall (fun l => String.length l < MaxScanTokenSize /\ HasPrefix (TrimSpace l) "search " = false) before ->
  scan_lines (before ++ kubernetes_search namespace domain :: after) = Some domain.
Proof.
  intros Hns Hd Hne Hpre Hlen Hbefore. induction Hbefore as [|l before [Hl Hs] _ IH]; cbn [app scan_lines].
  2:{ rewrite (proj2 (Nat.leb_gt _ _) Hl), Hs. by destruct (_ || _). }
  rewrite (proj2 (Nat.leb_gt _ _) Hlen).
  assert (Htrim : TrimSpace (kubernetes_search namespace domain) = kubernetes_search namespace domain).
  { unfold TrimSpace. rewrite TrimLeftSpace_id by done. unfold kubernetes_search. rewrite <-!sapp_assoc. by apply TrimRightSpace_word. }
  rewrite Htrim. change (HasPrefix (kubernetes_search namespace domain) "#") with false. change (HasPrefix (kubernetes_search namespace domain) ";") with false.
  rewrite (bool_decide_eq_false_2 (kubernetes_search namespace domain = "")) by done. cbn [orb].
  change (HasPrefix (kubernetes_search namespace domain) "search ") with (HasPrefix (namespace +:+ ".svc." +:+ domain +:+ " svc." +:+ domain +:+ " " +:+ domain) "").
  replace (HasPrefix _ "") with true by (by destruct namespace).
  assert (Hf : Fields (kubernetes_search namespace domain) = ["search"; namespace +:+ ".svc." +:+ domain; "svc." +:+ domain; domain]).
  { unfold Fields, kubernetes_search. change ("search " +:+ ?s) with ("search" +:+ String " " s). rewrite fields_word by done.
    rewrite sapp_nil_l. f_equal.
    replace (namespace +:+ ".svc." +:+ domain +:+ " svc." +:+ domain +:+ " " +:+ domain)
      with ((namespace +:+ ".svc." +:+ domain) +:+ String " " (("svc." +:+ domain) +:+ String " " domain)) by (by rewrite !sapp_assoc).
    rewrite fields_word; [|by rewrite !no_space_app|done|by destruct namespace]. rewrite sapp_nil_l. f_equal.
    rewrite fields_word; [|by rewrite no_space_app|done|done]. rewrite sapp_nil_l. f_equal. rewrite fields_last; [by rewrite sapp_nil_l|done|by rewrite sapp_nil_l]. }
  rewrite Hf. unfold extractClusterDomain, CutPrefix. cbn [tail omap list_omap]. rewrite Hpre, HasPrefix_app.
  change (str_drop (String.length "svc.") ("svc." +:+ domain)) with domain. rewrite (bool_decide_eq_false_2 (domain = "")) by done. cbn [head default].
  by rewrite bool_decide_eq_false_2.
Qed.
(** The search list of a namespace alone is not recognised, although the comment of
    [DetectClusterDomain] looks for [*.svc.<domain>]. *)
Lemma namespace_domain_unrecognised : parseResolvConf "search default.svc.cluster.local" = None.
Proof. reflexivity. Qed.

(** ** Properties *)

(** C25: The controller runs complete or not at all.  Components are registered in one order
    and a failure stops it; [Run] only succeeds with all of them registered and with every
    setting valid: endpoints left after trimming, a parsed monitoring selector, a compiled
    ownership policy when it is enforced, a well-formed token Secret when one is named.
    Every route reconciler that is registered, even in a [Run] that fails later, has a
    push to make, over the endpoints that are the trimmed non-blank ones given, polices
    hostnames when that is enforced, and judges gRPC by the configured transport; and
    without endpoints nothing is registered. *)
Theorem manager_starts_complete {texts : ErrorText} {kube : KubeClient} {env : ManagerEnv} {selectors : LabelSelectorParser} {parser : SelectorParser}
    (NewProxySyncer : SyncerOptions -> list string -> routePartition -> partitionPushResult) (cfg : Config) :
  let '(registered, result) := Run NewProxySyncer cfg in
  registered `prefix_of` planned NewProxySyncer cfg /\
  (result = Ok tt -> registered = planned NewProxySyncer cfg /\ settings_valid cfg) /\
  (sanitiseProxyEndpoints (mc_ProxyEndpoints cfg) = [] -> registered = [] /\ result = Err errNoProxyEndpoints) /\
  (forall r server, c_HTTPRoute r ∈ registered ->
     is_Some (su_push (http_syncParams r server)) /\ hr_ProxyEndpoints r = sanitiseProxyEndpoints (mc_ProxyEndpoints cfg) /\
     (is_Some (hr_HostnameOwnership r) <-> mc_HostnameOwnershipEnforce cfg = true)) /\
  (forall r server, c_GRPCRoute r ∈ registered ->
     is_Some (su_push (grpc_syncParams r server)) /\ gr_ProxyEndpoints r = sanitiseProxyEndpoints (mc_ProxyEndpoints cfg) /\
     (is_Some (gr_HostnameOwnership r) <-> mc_HostnameOwnershipEnforce cfg = true) /\ gr_TunnelProtocol r = mc_TunnelProtocol cfg) /\
  (forall e, e ∈ sanitiseProxyEndpoints (mc_ProxyEndpoints cfg) <-> exists raw, raw ∈ mc_ProxyEndpoints cfg /\ e = TrimSpace raw /\ e <> "").
Proof.
  pose proof (run_planned NewProxySyncer cfg) as H. destruct (Run NewProxySyncer cfg) as [registered result]. destruct H as (Hprefix & Hok & Hnone & Hdenied).
  assert (Hroute : forall c, c ∈ registered -> c ∉ before_policy NewProxySyncer cfg ->
    0 < length (sanitiseProxyEndpoints (mc_ProxyEndpoints cfg)) /\ (is_Some (compiled_policy cfg) <-> mc_HostnameOwnershipEnforce cfg = true)).
  { intros c Hc Hnot. split.
    - destruct (sanitiseProxyEndpoints (mc_ProxyEndpoints cfg)) eqn:E; [|cbn; lia]. destruct (Hnone eq_refl) as [-> _]. by apply elem_of_nil in Hc.
    - unfold compiled_policy. destruct (mc_HostnameOwnershipEnforce cfg) eqn:Ee; [|by split; [intros []|]]. split; [done|intros _].
      destruct (New _ _) as [policy|e] eqn:En; [by eexists|]. destruct (Hdenied e eq_refl eq_refl) as [[k Hk] _]. destruct Hnot. rewrite Hk. apply elem_of_app. by left. }
  assert (Hin : forall c, c ∈ registered -> c ∈ planned NewProxySyncer cfg) by (intros c; destruct Hprefix as [k ->]; rewrite elem_of_app; by left).
  split_and!; [done|done|done| | |apply sanitised_endpoints].
  - intros r server Hr. destruct (Hroute _ Hr) as [Hlen Hpol]; [unfold before_policy; set_solver|].
    assert (r = http_reconciler NewProxySyncer cfg (sanitiseProxyEndpoints (mc_ProxyEndpoints cfg)) (compiled_policy cfg)) as ->.
    { specialize (Hin _ Hr). unfold planned in Hin. destruct (token_watcher cfg); set_solver. }
    split_and!; [|done|done]. unfold su_push. cbn [su_proxySyncer su_pushProxy su_proxyEndpoints http_syncParams grpc_syncParams http_reconciler grpc_reconciler hr_ProxySyncer hr_ProxyEndpoints gr_ProxySyncer gr_ProxyEndpoints andb].
    rewrite (proj2 (Nat.ltb_lt _ _) Hlen). by eexists.
  - intros r server Hr. destruct (Hroute _ Hr) as [Hlen Hpol]; [unfold before_policy; set_solver|].
    assert (r = grpc_reconciler NewProxySyncer cfg (sanitiseProxyEndpoints (mc_ProxyEndpoints cfg)) (compiled_policy cfg)) as ->.
    { specialize (Hin _ Hr). unfold planned in Hin. destruct (token_watcher cfg); set_solver. }
    split_and!; [|done|done|done]. unfold su_push. cbn [su_proxySyncer su_pushProxy su_proxyEndpoints http_syncParams grpc_syncParams http_reconciler grpc_reconciler hr_ProxySyncer hr_ProxyEndpoints gr_ProxySyncer gr_ProxyEndpoints andb].
    rewrite (proj2 (Nat.ltb_lt _ _) Hlen). by eexists.
Qed.
