(* ===== verification/TunnelStart.v ===== *)
(** * Starting the tunnel ([internal/tunnel/bootstrap.go])

    [StartTunnel]: the token, the TLS settings of the edge, the transport, the
    orchestrator with its in-process proxy, and the channels that announce a connection
    and a drain.  cloudflared is the parameter [Cloudflared]: what its constructors
    answer and what its daemon returns. *)
From Stdlib Require Import Ascii.
From stdpp Require Import sorting.
From stdpp Require Import base sets gmap strings list.
From S2P Require Import Prelude GoStrings RenderNames RouterState ConfigResolver ProxyMain.

(** ** cloudflared *)

Record TLSSettings := mkTLSSettings { tls_ServerName : string; tls_NextProtos : list string }.
Class Cloudflared := {
  Protocol : Type;
  Certificate : Type;
  ProtocolList : list Protocol;
  protocol_TLSSettings : Protocol -> option TLSSettings;
  SystemCertPool : option (list Certificate);
  GetCloudflareRootCA : option (list Certificate);
  (** The constructors that may fail, on what they are given. *)
  NewProtocolSelector : string -> string -> bool;        (* flag, account *)
  NewFeatureSelector : string -> bool;
  NewClientConfig : string -> bool;
  ParseIngress : string -> bool;                         (* the service of the only rule *)
  NewOrchestrator : string -> bool;
  (** The endpoint of a decoded token. *)
  token_Endpoint : Token -> string }.
(** [Config]: in-process when an origin proxy is given. *)
Record TunnelConfigIn := mkTunnelIn {
  ti_Token : string; ti_ProxyURL : string; ti_OriginProxy : bool; ti_Protocol : string; ti_OnConnected : bool; ti_GraceShutdownC : bool; ti_GracePeriod : Z }.
Inductive StartError :=
| errToken (e : TokenError) | errRootCA | errUnknownTLS | errUnknownProtocol | errProtocolSelector | errFeatureSelector | errClientConfig
| errIngress | errOrchestrator.

Section start.
Context {cfd : Cloudflared} {decoder : TokenDecoder}.
Record EdgeTLS := mkEdgeTLS { et_RootCAs : list Certificate; et_ServerName : string; et_MinVersion : Z; et_NextProtos : option (list string) }.
Record TunnelConfig := mkTunnelConfig {
  tc_EdgeTLSConfigs : list (Protocol * EdgeTLS); tc_ProtocolFlag : string; tc_GracePeriod : Z; tc_Region : string; tc_HAConnections : Z;
  tc_Retries : Z; tc_MaxEdgeAddrRetries : Z; tc_RPCTimeout : Z; tc_WriteStreamTimeout : Z;
  tc_QUICConnection : Z; tc_QUICStream : Z;
  tc_Credentials : option (Token * string) (* [NamedTunnel] *) }.
(** What the daemon is started with. *)
Record Daemon := mkDaemon { dm_config : TunnelConfig; dm_ingress : string; dm_OverrideProxy : bool }.

Definition VersionTLS12 : Z := 771.
Definition defaultHAConnections : Z := 4.
Definition defaultRPCTimeout : Z := 5000000000.
Definition defaultWriteStreamTimeout : Z := 10000000000.
Definition defaultQUICFlowControlConn : Z := 31457280.
Definition defaultQUICFlowControlStr : Z := 6291456.
Definition defaultRetries : Z := 5.
Definition defaultMaxEdgeAddrRetries : Z := 8.
Definition proxyVersion : string := "cloudflare-tunnel-gateway-proxy".

Definition buildRootCAPool : res StartError (list Certificate) :=
  let pool := default [] SystemCertPool in
  match GetCloudflareRootCA with None => Err errRootCA | Some cfCerts => Ok (pool ++ cfCerts) end.
Fixpoint edge_configs (rootCAs : list Certificate) (protocols : list Protocol) : res StartError (list (Protocol * EdgeTLS)) :=
  match protocols with
  | [] => Ok []
  | proto :: rest =>
      match protocol_TLSSettings proto with
      | None => Err errUnknownTLS
      | Some settings =>
          configs ← edge_configs rootCAs rest;
          Ok ((proto, mkEdgeTLS rootCAs (tls_ServerName settings) VersionTLS12
                 (if 0 <? length (tls_NextProtos settings) then Some (tls_NextProtos settings) else None)) :: configs)
      end
  end.
Definition buildEdgeTLSConfigs : res StartError (list (Protocol * EdgeTLS)) :=
  rootCAs ← buildRootCAPool;
  edge_configs rootCAs ProtocolList.
Definition require_ok (ok : bool) (e : StartError) : res StartError unit := if ok then Ok tt else Err e.
Definition buildProtocolAndClient (token : Token) (protocol : string) : res StartError TunnelConfig :=
  protocolFlag ← match resolveProtocolFlag protocol with Some flag => Ok flag | None => Err errUnknownProtocol end;
  _ ← require_ok (NewProtocolSelector protocolFlag (tok_AccountTag token)) errProtocolSelector;
  _ ← require_ok (NewFeatureSelector (tok_AccountTag token)) errFeatureSelector;
  _ ← require_ok (NewClientConfig proxyVersion) errClientConfig;
  Ok (mkTunnelConfig [] protocolFlag defaultGracePeriod (token_Endpoint token) defaultHAConnections defaultRetries defaultMaxEdgeAddrRetries
        defaultRPCTimeout defaultWriteStreamTimeout defaultQUICFlowControlConn defaultQUICFlowControlStr None).
Definition buildCatchAllIngress (proxyURL : string) : res StartError string := if ParseIngress proxyURL then Ok proxyURL else Err errIngress.
Definition with_edge (configs : list (Protocol * EdgeTLS)) (token : Token) (c : TunnelConfig) : TunnelConfig :=
  mkTunnelConfig configs (tc_ProtocolFlag c) (tc_GracePeriod c) (tc_Region c) (tc_HAConnections c) (tc_Retries c) (tc_MaxEdgeAddrRetries c)
    (tc_RPCTimeout c) (tc_WriteStreamTimeout c) (tc_QUICConnection c) (tc_QUICStream c) (Some (token, token_Endpoint token)).
Definition with_grace (period : Z) (c : TunnelConfig) : TunnelConfig :=
  mkTunnelConfig (tc_EdgeTLSConfigs c) (tc_ProtocolFlag c) period (tc_Region c) (tc_HAConnections c) (tc_Retries c) (tc_MaxEdgeAddrRetries c)
    (tc_RPCTimeout c) (tc_WriteStreamTimeout c) (tc_QUICConnection c) (tc_QUICStream c) (tc_Credentials c).
Definition buildTunnelConfig (token : Token) (proxyURL protocol : string) : res StartError (TunnelConfig * string) :=
  edgeTLSConfigs ← buildEdgeTLSConfigs;
  tunnelCfg ← buildProtocolAndClient token protocol;
  ingressRules ← buildCatchAllIngress proxyURL;
  Ok (with_edge edgeTLSConfigs token tunnelCfg, ingressRules).
Definition buildOrchestrator (cfg : TunnelConfigIn) (token : Token) : res StartError Daemon :=
  let proxyURL := if ti_OriginProxy cfg then "http://localhost:0" else ti_ProxyURL cfg in
  out ← buildTunnelConfig token proxyURL (ti_Protocol cfg);
  let '(tunnelCfg, ingressRules) := out in
  _ ← require_ok (NewOrchestrator ingressRules) errOrchestrator;
  Ok (mkDaemon (with_grace (resolveGracePeriod (ti_GracePeriod cfg)) tunnelCfg) ingressRules (ti_OriginProxy cfg)).
(** The channel that starts the drain: the one given, or one that closes with the context. *)
Inductive GraceChannel := explicit_channel | closes_with_context.
Definition graceChannel (explicit : bool) : GraceChannel := if explicit then explicit_channel else closes_with_context.
(** The ends of [waitConnected]: a [select] on the connection and the cancellation, and
    whether [onConnected] ran. *)
Inductive waitConnected (onConnected connected cancelled : bool) : bool -> Prop :=
| wait_connected : connected = true -> waitConnected onConnected connected cancelled onConnected
| wait_cancelled : cancelled = true -> waitConnected onConnected connected cancelled false.
(** [StartTunnel] up to the daemon: what it is started with, or the error. *)
Definition StartTunnel (cfg : TunnelConfigIn) : res StartError (Daemon * GraceChannel) :=
  token ← map_err errToken (ParseTunnelToken (ti_Token cfg));
  daemon ← buildOrchestrator cfg token;
  Ok (daemon, graceChannel (ti_GraceShutdownC cfg)).
End start.

(** ** Properties *)

Section start_facts.
Context {cfd : Cloudflared} {decoder : TokenDecoder}.
Definition cloudflare_edge (proto : Protocol) (c : EdgeTLS) : Prop :=
  et_MinVersion c = VersionTLS12 /\
  (exists settings, protocol_TLSSettings proto = Some settings /\ et_ServerName c = tls_ServerName settings /\
     (tls_NextProtos settings <> [] -> et_NextProtos c = Some (tls_NextProtos settings))) /\
  exists cfCerts, GetCloudflareRootCA = Some cfCerts /\ cfCerts ⊆ et_RootCAs c.
Lemma edge_configs_spec rootCAs protocols configs cfCerts :
  GetCloudflareRootCA = Some cfCerts -> cfCerts ⊆ rootCAs -> edge_configs rootCAs protocols = Ok configs ->
  configs.*1 = protocols /\ Forall (fun entry => cloudflare_edge entry.1 entry.2) configs.
Proof.
  intros Hroot Hsub. revert configs. induction protocols as [|proto rest IH]; intros configs; cbn; [by intros [= <-]|].
  destruct (protocol_TLSSettings proto) as [settings|] eqn:Hs; [|done]. destruct (edge_configs rootCAs rest) as [l|]; [|done]. cbn.
  intros [= <-]. destruct (IH l eq_refl) as [H1 H2]. cbn. split; [by f_equal|]. constructor; [|done].
  split_and!; [done| |by exists cfCerts]. exists settings. split_and!; [done|done|]. cbn. by destruct (tls_NextProtos settings).
Qed.
Lemma grace_period_bounds period : (0 < resolveGracePeriod period <= MaxGracePeriod)%Z /\ ((0 < period <= MaxGracePeriod)%Z -> resolveGracePeriod period = period).
Proof. unfold resolveGracePeriod, defaultGracePeriod, MaxGracePeriod. destruct (Z.leb_spec period 0), (Z.ltb_spec 180000000000 period); lia. Qed.
Lemma flag_known protocol flag : resolveProtocolFlag protocol = Some flag -> flag ∈ ["auto"; "http2"; "quic"].
Proof. unfold resolveProtocolFlag. repeat case_match; intros; simplify_eq; set_solver. Qed.
Lemma buildTunnelConfig_spec token proxyURL protocol out :
  buildTunnelConfig token proxyURL protocol = Ok out ->
  out.2 = proxyURL /\ resolveProtocolFlag protocol = Some (tc_ProtocolFlag out.1) /\ tc_Credentials out.1 = Some (token, token_Endpoint token) /\
  (tc_EdgeTLSConfigs out.1).*1 = ProtocolList /\ Forall (fun entry => cloudflare_edge entry.1 entry.2) (tc_EdgeTLSConfigs out.1).
Proof.
  unfold buildTunnelConfig, buildEdgeTLSConfigs, buildRootCAPool, buildProtocolAndClient, buildCatchAllIngress, require_ok.
  destruct GetCloudflareRootCA as [cfCerts|] eqn:Hroot; [|done]. cbn.
  destruct (edge_configs _ _) as [configs|] eqn:Hedge; [|done]. cbn.
  destruct (resolveProtocolFlag protocol) as [flag|]; [|done]. cbn.
  destruct (NewProtocolSelector _ _); [|done]. destruct (NewFeatureSelector _); [|done]. destruct (NewClientConfig _); [|done]. cbn.
  destruct (ParseIngress proxyURL); [|done]. cbn. intros [= <-]. cbn.
  destruct (edge_configs_spec (default [] SystemCertPool ++ cfCerts) _ _ cfCerts Hroot ltac:(set_solver) Hedge). by split_and!.
Qed.

(** C34: A daemon is only started as configured.  Its credentials are those of the token, its
    transport one that cloudflared knows and the one asked for, its drain window positive
    and within the three minutes the edge allows, and the configured one when that is in
    range; every protocol of the edge is spoken over TLS 1.2 or newer and trusted by
    Cloudflare's roots; in process, requests go to the proxy and never to the placeholder
    of the ingress; and the drain channel is the given one, or else ends with the
    context.  A token that does not parse stops it before anything else, an unknown
    transport before the ingress. *)
Theorem tunnel_start_exact (cfg : TunnelConfigIn) :
  match StartTunnel cfg with
  | Ok (daemon, grace) =>
      exists token, ParseTunnelToken (ti_Token cfg) = Ok token /\ tc_Credentials (dm_config daemon) = Some (token, token_Endpoint token) /\
        resolveProtocolFlag (ti_Protocol cfg) = Some (tc_ProtocolFlag (dm_config daemon)) /\ tc_ProtocolFlag (dm_config daemon) ∈ ["auto"; "http2"; "quic"] /\
        (0 < tc_GracePeriod (dm_config daemon) <= MaxGracePeriod)%Z /\
        ((0 < ti_GracePeriod cfg <= MaxGracePeriod)%Z -> tc_GracePeriod (dm_config daemon) = ti_GracePeriod cfg) /\
        (tc_EdgeTLSConfigs (dm_config daemon)).*1 = ProtocolList /\
        Forall (fun entry => cloudflare_edge entry.1 entry.2) (tc_EdgeTLSConfigs (dm_config daemon)) /\
        dm_OverrideProxy daemon = ti_OriginProxy cfg /\ (ti_OriginProxy cfg = false -> dm_ingress daemon = ti_ProxyURL cfg) /\
        (grace = closes_with_context <-> ti_GraceShutdownC cfg = false)
  | Err e =>
      (forall te, ParseTunnelToken (ti_Token cfg) = Err te -> e = errToken te) /\
      (e = errUnknownProtocol -> resolveProtocolFlag (ti_Protocol cfg) = None) /\
      (resolveProtocolFlag (ti_Protocol cfg) = None -> e <> errIngress /\ e <> errOrchestrator)
  end.
Proof.
  unfold StartTunnel, buildOrchestrator. destruct (ParseTunnelToken (ti_Token cfg)) as [token|te] eqn:Ht; cbn.
  2:{ split_and!; [by intros ? [= <-]|done|done]. }
  destruct (buildTunnelConfig token _ (ti_Protocol cfg)) as [out|e] eqn:Hb; cbn.
  - pose proof (buildTunnelConfig_spec _ _ _ _ Hb) as (Hurl & Hflag & Hcred & Hlist & Hedge). destruct out as [c ingress]. cbn in *.
    destruct (NewOrchestrator ingress); cbn.
    + exists token. destruct (grace_period_bounds (ti_GracePeriod cfg)) as [Hg1 Hg2].
      split_and!; try done; [by eapply flag_known|apply Hg1|apply Hg1|by intros E; rewrite E in Hurl|]. unfold graceChannel. by destruct (ti_GraceShutdownC cfg).
    + split_and!; [done|done|]. intros Hn. by rewrite Hn in Hflag.
  - split; [done|]. revert Hb. unfold buildTunnelConfig, buildEdgeTLSConfigs, buildRootCAPool, buildProtocolAndClient, buildCatchAllIngress, require_ok.
    destruct GetCloudflareRootCA as [cfCerts|]; [|by intros [= <-]]. cbn.
    assert (Hedge : forall e', edge_configs (default [] SystemCertPool ++ cfCerts) ProtocolList = Err e' -> e' = errUnknownTLS).
    { generalize (default [] SystemCertPool ++ cfCerts). intros roots. induction ProtocolList as [|p ps IH]; cbn; [done|]. intros e'.
      destruct (protocol_TLSSettings p); [|by intros [= <-]]. destruct (edge_configs roots ps); cbn; [done|]. intros [= <-]. by apply IH. }
    destruct (edge_configs _ _) as [configs|e'] eqn:He; cbn; [|intros [= <-]; by rewrite (Hedge e' eq_refl)].
    destruct (resolveProtocolFlag (ti_Protocol cfg)) as [flag|]; cbn; [|by intros [= <-]].
    destruct (NewProtocolSelector _ _); [|by intros [= <-]]. destruct (NewFeatureSelector _); [|by intros [= <-]]. destruct (NewClientConfig _); [|by intros [= <-]]. cbn.
    destruct (ParseIngress _); [done|by intros [= <-]].
Qed.
(** Readiness follows the connection: [onConnected] runs only once connected, and without
    a connection a cancelled wait ends. *)
Lemma connected_spec onConnected connected cancelled called :
  waitConnected onConnected connected cancelled called ->
  (called = true -> connected = true /\ onConnected = true) /\ (cancelled = false -> called = onConnected).
Proof. by intros [-> | ->]. Qed.
End start_facts.
