(* ===== verification/WebSocketPipe.v ===== *)
(** * The session of an upgraded connection ([proxy/handler_websocket.go])

    What [proxyWebSocketUpgrade] does with its connections, as the list of events on
    them, and the byte pipe that follows a 101 as a step relation of its two copy
    goroutines, the handler and the two peers.  [Handler] has the request and the
    reply; the connections follow the contract of [net.Conn]. *)
From stdpp Require Import base relations strings list.
From S2P Require Import Prelude GoStrings GoHttp ProxyConfig Filters Handler ProxyMain.

(** ** Dialling and the handshake *)

Definition backendErrReasonWSDial : string := "ws_dial".
Definition backendErrReasonWSHandshake : string := "ws_handshake".

Section upgrade.
Context {x509 : X509} {floats : FloatParser}.
(** What the backend and the client's writer answer: the connect, the TLS handshake, the
    write of the request, the parsed response, and [Hijack], absent when the writer has none. *)
Record UpgradeNet := mkUpgradeNet {
  un_Dial : string -> bool; un_Handshake : TLSConfig -> bool; un_Write : Request -> bool; un_ReadResponse : option Response;
  un_Hijack : option bool }.
Inductive ConnEvent :=
| ev_dialled (host : string) (timeout : Z)
| ev_handshake (cfg : TLSConfig)                   (* a handshake that succeeded *)
| ev_request (out : Request)
| ev_read_deadline (after : option Z)              (* [None] clears it *)
| ev_client_error (message : string) (status : Z)  (* [http.Error] *)
| ev_client_header (status : Z) (header : Header)
| ev_body_copied
| ev_hijacked
| ev_client_closed
| ev_body_closed
| ev_backend_closed
| ev_backend_error (hostname reason : string).
Inductive DialError := errDial | errBackendCABundleInvalid | errHandshake.
Inductive Session := ended | piping | panicked.

Context (h : HandlerConfig) (net : UpgradeNet).
Definition dial (host : string) : res DialError (list ConnEvent) :=
  if un_Dial net host then Ok [ev_dialled host (effectiveWSDialTimeout h)] else Err errDial.
Definition dialBackendForUpgrade (backendURL : URL) (backendHostname : string) (backendTLS : option BackendTLSConfig) : list ConnEvent * option DialError :=
  if negb (bool_decide (url_Scheme backendURL = "https")) then
    match dial (url_Host backendURL) with Ok events => (events, None) | Err e => ([], Some e) end
  else
    match backendUpgradeTLSConfig backendHostname backendTLS with
    | None => ([], Some errBackendCABundleInvalid)
    | Some tlsConfig =>
        match dial (url_Host backendURL) with
        | Err e => ([], Some e)
        | Ok events =>
            if un_Handshake net tlsConfig then (events ++ [ev_handshake tlsConfig], None)
            else (events ++ [ev_backend_closed], Some errHandshake)
        end
    end.
(** A 502, and the reason on the metrics. *)
Definition refuse (hostname reason : string) : list ConnEvent :=
  [ev_backend_error hostname reason; ev_client_error "bad gateway" 502].
(** Up to the copy goroutines. *)
Definition pipeWebSocket (responseHeader : Header) : list ConnEvent * Session :=
  let events := [ev_client_header 101 (copyHeaderValues ∅ responseHeader)] in
  match un_Hijack net with
  | None | Some false => (events, ended)
  | Some true => (events ++ [ev_hijacked], piping)
  end.
(** The deferred closes run when the function ends; those of a piped session are the
    last steps of the pipe. *)
Definition deferring (events : list ConnEvent) (closes : list ConnEvent) (out : list ConnEvent * Session) : list ConnEvent * Session :=
  (events ++ out.1 ++ match out.2 with piping => [] | _ => closes end, out.2).
Definition proxyWebSocketUpgrade (req : Request) (backendURL : URL) (backendHostname : string) (backendTLS : option BackendTLSConfig)
    (filters : list Filter) (hostname : string) : list ConnEvent * Session :=
  let '(dialled, err) := dialBackendForUpgrade backendURL backendHostname backendTLS in
  match err with
  | Some _ => (dialled ++ refuse hostname backendErrReasonWSDial, ended)
  | None =>
      let outReq := buildBackendUpgradeRequest req backendURL in
      if negb (un_Write net outReq) then deferring dialled [ev_backend_closed] (refuse hostname backendErrReasonWSHandshake, ended)
      else
        let events := dialled ++ [ev_request outReq; ev_read_deadline (Some (effectiveWSHandshakeReadTimeout h))] in
        match un_ReadResponse net with
        | None => deferring events [ev_backend_closed] (refuse hostname backendErrReasonWSHandshake, ended)
        | Some resp =>
            deferring (events ++ [ev_read_deadline None]) [ev_body_closed; ev_backend_closed]
              match ApplyResponseFilters filters resp with
              | None => ([], panicked)
              | Some resp =>
                  if negb (resp_StatusCode resp =? 101)%Z
                  then ([ev_client_header (resp_StatusCode resp) (copyHeaderValues ∅ (resp_Header resp)); ev_body_copied], ended)
                  else pipeWebSocket (resp_Header resp)
              end
        end
  end.
End upgrade.
Arguments ConnEvent {x509}.

(** ** The pipe *)

Notation bytes := (list Byte.byte).
(** How an [io.Copy] ended: at the end of its source, or with an error of either side. *)
Inductive CopyEnd := copied | sourceFailed | sinkFailed.
Inductive Copier := copying | writing (chunk : bytes) | sending (e : CopyEnd) | exited (e : CopyEnd).
(** One direction: what its source sent, what of that was not read yet, what its
    destination got; whether the source ended, cleanly or not; whether the destination
    refused a write before the copy began. *)
Record Direction := mkDirection {
  d_sent : bytes; d_pending : bytes; d_delivered : bytes; d_end : option bool; d_broken : bool; d_copier : Copier }.
(** The handler: waiting for the first error, closing the client, closing the backend. *)
Inductive PipeMain := waitFirst | closeClient | closeBackend | pipeReturned.
Record Pipe := mkPipe { p_toBackend : Direction; p_toClient : Direction; p_errCh : nat; p_main : PipeMain }.

(** [flushBufferedToBackend]: [written] bytes of what the client had sent reach the
    backend; its error is ignored. *)
Definition flushBufferedToBackend (buffered : bytes) (written : nat) : Direction :=
  mkDirection buffered [] (take written buffered) None (written <? length buffered) copying.
(** [early] is what the reader of the response already holds of the backend's bytes. *)
Definition pipe_start (buffered : bytes) (written : nat) (early : bytes) : Pipe :=
  mkPipe (flushBufferedToBackend buffered written) (mkDirection early early [] None false copying) 0 waitFirst.

Definition set_copier (d : Direction) (pending delivered : bytes) (c : Copier) : Direction :=
  mkDirection (d_sent d) pending delivered (d_end d) (d_broken d) c.
(** [io.Copy], one call on a connection at a time; a reader may still hold bytes of a
    closed connection. *)
Inductive copy_step (srcGone dstGone : bool) (d : Direction) : Direction -> Prop :=
| read_chunk chunk rest : d_copier d = copying -> d_pending d = chunk ++ rest -> chunk <> [] ->
    copy_step srcGone dstGone d (set_copier d rest (d_delivered d) (writing chunk))
| read_eof : d_copier d = copying -> d_pending d = [] -> d_end d = Some true ->
    copy_step srcGone dstGone d (set_copier d [] (d_delivered d) (sending copied))
| read_error : d_copier d = copying -> d_end d = Some false \/ srcGone = true ->
    copy_step srcGone dstGone d (set_copier d (d_pending d) (d_delivered d) (sending sourceFailed))
| write_ok chunk : d_copier d = writing chunk -> dstGone = false -> d_broken d = false ->
    copy_step srcGone dstGone d (set_copier d (d_pending d) (d_delivered d ++ chunk) copying)
| write_error chunk : d_copier d = writing chunk -> dstGone || d_broken d = true ->
    copy_step srcGone dstGone d (set_copier d (d_pending d) (d_delivered d) (sending sinkFailed))
| write_short chunk n : d_copier d = writing chunk -> n < length chunk -> d_broken d = false ->
    copy_step srcGone dstGone d (set_copier d (d_pending d) (d_delivered d ++ take n chunk) (sending sinkFailed)).
(** The peer that is the source of a direction. *)
Inductive peer_step (d : Direction) : Direction -> Prop :=
| peer_sends more : d_end d = None ->
    peer_step d (mkDirection (d_sent d ++ more) (d_pending d ++ more) (d_delivered d) (d_end d) (d_broken d) (d_copier d))
| peer_ends clean : d_end d = None ->
    peer_step d (mkDirection (d_sent d) (d_pending d) (d_delivered d) (Some clean) (d_broken d) (d_copier d)).

(** [closes]: the client connection is ended by its [Close]; that of the tunnel ignores it
    and ends with the handler. *)
Definition client_gone (closes : bool) (m : PipeMain) : bool :=
  match m with waitFirst | closeClient => false | closeBackend => closes | pipeReturned => true end.
Definition backend_gone (m : PipeMain) : bool := match m with pipeReturned => true | _ => false end.
Definition main_events {x509 : X509} (m : PipeMain) : list ConnEvent :=
  match m with waitFirst | closeClient => [] | closeBackend => [ev_client_closed] | pipeReturned => [ev_client_closed; ev_body_closed; ev_backend_closed] end.
(** The channel has room for two. *)
Definition errCh_capacity : nat := 2.
Inductive pipe_step (closes : bool) (p : Pipe) : Pipe -> Prop :=
| copy_to_backend d : copy_step (client_gone closes (p_main p)) (backend_gone (p_main p)) (p_toBackend p) d ->
    pipe_step closes p (mkPipe d (p_toClient p) (p_errCh p) (p_main p))
| copy_to_client d : copy_step (backend_gone (p_main p)) (client_gone closes (p_main p)) (p_toClient p) d ->
    pipe_step closes p (mkPipe (p_toBackend p) d (p_errCh p) (p_main p))
| send_to_backend e : d_copier (p_toBackend p) = sending e -> p_errCh p < errCh_capacity ->
    pipe_step closes p (mkPipe (set_copier (p_toBackend p) (d_pending (p_toBackend p)) (d_delivered (p_toBackend p)) (exited e)) (p_toClient p) (S (p_errCh p)) (p_main p))
| send_to_client e : d_copier (p_toClient p) = sending e -> p_errCh p < errCh_capacity ->
    pipe_step closes p (mkPipe (p_toBackend p) (set_copier (p_toClient p) (d_pending (p_toClient p)) (d_delivered (p_toClient p)) (exited e)) (S (p_errCh p)) (p_main p))
| receive_first n : p_main p = waitFirst -> p_errCh p = S n -> pipe_step closes p (mkPipe (p_toBackend p) (p_toClient p) n closeClient)
| close_client : p_main p = closeClient -> pipe_step closes p (mkPipe (p_toBackend p) (p_toClient p) (p_errCh p) closeBackend)
| close_backend : p_main p = closeBackend -> pipe_step closes p (mkPipe (p_toBackend p) (p_toClient p) (p_errCh p) pipeReturned).
Inductive peers_step (p : Pipe) : Pipe -> Prop :=
| client_acts d : peer_step (p_toBackend p) d -> peers_step p (mkPipe d (p_toClient p) (p_errCh p) (p_main p))
| backend_acts d : peer_step (p_toClient p) d -> peers_step p (mkPipe (p_toBackend p) d (p_errCh p) (p_main p)).
Definition session_step (closes : bool) (p p' : Pipe) : Prop := pipe_step closes p p' \/ peers_step p p'.

(** ** Invariants *)

(** Why a copy ended while neither connection was closed by the handler. *)
Definition own_end (d : Direction) (e : CopyEnd) : Prop :=
  match e with copied => d_end d = Some true | sourceFailed => d_end d = Some false | sinkFailed => length (d_delivered d) < length (d_sent d) end.
Definition copier_end (c : Copier) : option CopyEnd := match c with sending e | exited e => Some e | _ => None end.
Definition in_flight (c : Copier) : bytes := match c with writing chunk => chunk | _ => [] end.
Record direction_inv (d : Direction) : Prop := {
  di_order : d_delivered d `prefix_of` d_sent d;
  di_broken : d_broken d = true -> length (d_delivered d) < length (d_sent d);
  di_whole : d_broken d = false -> copier_end (d_copier d) <> Some sinkFailed -> d_sent d = d_delivered d ++ in_flight (d_copier d) ++ d_pending d;
  di_chunk : d_copier d <> writing [];
  di_eof : copier_end (d_copier d) = Some copied -> d_end d = Some true /\ d_pending d = [];
  di_short : copier_end (d_copier d) = Some sinkFailed -> length (d_delivered d) < length (d_sent d) }.
Definition open_inv (d : Direction) : Prop := forall e, copier_end (d_copier d) = Some e -> own_end d e.
Definition exited_count (d : Direction) : nat := match d_copier d with exited _ => 1 | _ => 0 end.
Record pipe_inv (p : Pipe) : Prop := {
  pi_toBackend : direction_inv (p_toBackend p);
  pi_toClient : direction_inv (p_toClient p);
  pi_count : exited_count (p_toBackend p) + exited_count (p_toClient p) = p_errCh p + match p_main p with waitFirst => 0 | _ => 1 end;
  pi_open : p_main p = waitFirst \/ p_main p = closeClient -> open_inv (p_toBackend p) /\ open_inv (p_toClient p);
  pi_first : p_main p <> waitFirst ->
    exists d e, (d = p_toBackend p \/ d = p_toClient p) /\ d_copier d = exited e /\ own_end d e }.

Lemma prefix_shorter {A} (l k : list A) : l `prefix_of` k -> l <> k -> length l < length k.
Proof.
  intros [t ->] H. rewrite length_app. destruct t as [|x t]; cbn; [|lia]. by rewrite app_nil_r in H.
Qed.
Lemma prefix_through {A} (a b c : list A) n : a ++ take n b `prefix_of` a ++ b ++ c.
Proof. apply prefix_app. transitivity b; [apply prefix_take|apply prefix_app_r; done]. Qed.

Lemma copy_keeps srcGone dstGone d d' : copy_step srcGone dstGone d d' -> direction_inv d ->
  direction_inv d' /\ d_sent d' = d_sent d /\ d_end d' = d_end d /\ exited_count d = 0 /\ exited_count d' = 0 /\
  (srcGone = false -> dstGone = false -> open_inv d').
Proof.
  intros Hs [Hord Hbr Hw Hc He Hsh].
  assert (Hshort : forall chunk, d_copier d = writing chunk -> length (d_delivered d) < length (d_sent d)).
  { intros chunk Hcp. destruct (d_broken d) eqn:Hb; [by apply Hbr|]. rewrite Hw by (rewrite ?Hcp; done). rewrite Hcp. cbn.
    destruct chunk; [done|]. rewrite !length_app. cbn. lia. }
  destruct Hs as [chunk rest Hcp Hp Hne|Hcp Hp Hend|Hcp Hend|chunk Hcp Hg Hb|chunk Hcp Hg|chunk n Hcp Hlt Hb];
    unfold exited_count, open_inv; rewrite ?Hcp in *; cbn in *; repeat apply conj; try done.
  - split; cbn; [done|done| |congruence|done|done]. intros Hb _. rewrite (Hw Hb) by done. by rewrite Hp.
  - split; cbn; [done|done| |done| |done]; [|by intros _].
    intros Hb _. rewrite (Hw Hb) by done. by rewrite Hp.
  - intros _ _ e [= <-]. done.
  - split; cbn; try done. intros Hb _. by apply Hw.
  - intros -> _ e [= <-]. by destruct Hend as [|].
  - pose proof (Hw Hb ltac:(done)) as Hsent. split; cbn; try done; [|congruence|].
    + rewrite Hsent. apply prefix_app, prefix_app_r. done.
    + intros _ _. rewrite Hsent. by rewrite <- app_assoc.
  - split; cbn; try done. intros _. by eapply Hshort.
  - intros _ _ e [= <-]. by eapply Hshort.
  - pose proof (Hw Hb ltac:(done)) as Hsent. split; cbn; try done.
    + rewrite Hsent. apply prefix_through.
    + congruence.
    + intros _. rewrite Hsent, !length_app, length_take. lia.
  - pose proof (Hw Hb ltac:(done)) as Hsent. intros _ _ e [= <-]. cbn. rewrite Hsent, !length_app, length_take. lia.
Qed.
Lemma peer_keeps d d' : peer_step d d' -> direction_inv d ->
  direction_inv d' /\ d_copier d' = d_copier d /\ (open_inv d -> open_inv d') /\ (forall e, own_end d e -> own_end d' e).
Proof.
  intros Hs [Hord Hbr Hw Hc He Hsh]. destruct Hs as [more Hend|clean Hend]; unfold open_inv, own_end; cbn; repeat apply conj; try done.
  - split; cbn; try done.
    + by apply prefix_app_r.
    + intros Hb. rewrite length_app. specialize (Hbr Hb). lia.
    + intros Hb Hcp. rewrite (Hw Hb Hcp). by rewrite <- !app_assoc.
    + intros Hcp. destruct (He Hcp). congruence.
    + intros Hcp. rewrite length_app. specialize (Hsh Hcp). lia.
  - intros Ho e Hcp. specialize (Ho e Hcp). destruct e; cbn in *; try congruence. rewrite length_app. lia.
  - intros [] H; cbn in *; try congruence. rewrite length_app. lia.
  - split; cbn; try done. intros Hcp. destruct (He Hcp). congruence.
  - intros Ho e Hcp. specialize (Ho e Hcp). destruct e; cbn in *; congruence.
  - intros [] H; cbn in *; congruence.
Qed.
Lemma send_keeps d e : d_copier d = sending e -> direction_inv d ->
  let d' := set_copier d (d_pending d) (d_delivered d) (exited e) in
  direction_inv d' /\ exited_count d = 0 /\ (open_inv d -> open_inv d' /\ own_end d' e).
Proof.
  intros Hcp [Hord Hbr Hw Hc He Hsh]. cbn zeta. unfold open_inv, exited_count. rewrite Hcp in *. cbn in *. repeat apply conj; [|done|].
  - by split.
  - intros Ho. specialize (Ho e eq_refl). split; [intros e' [= <-]|]; by destruct e.
Qed.
Lemma first_exited d1 d2 n : exited_count d1 + exited_count d2 = S n -> direction_inv d1 -> direction_inv d2 -> open_inv d1 -> open_inv d2 ->
  exists d e, (d = d1 \/ d = d2) /\ d_copier d = exited e /\ own_end d e.
Proof.
  unfold exited_count, open_inv. intros Hn _ _ H1 H2. destruct (d_copier d1) as [| | |e] eqn:Hc.
  4: { exists d1, e. rewrite Hc. split_and!; [by left|done|by apply H1]. }
  all: destruct (d_copier d2) as [| | |e2] eqn:Hc2; try (cbn in Hn; lia); exists d2, e2; rewrite Hc2; split_and!; [by right|done|by apply H2].
Qed.
Lemma pipe_inv_start buffered written early : pipe_inv (pipe_start buffered written early).
Proof.
  split; cbn; try done.
  - split; cbn -[Nat.ltb]; try done.
    + apply prefix_take.
    + intros H%Nat.ltb_lt. rewrite length_take. lia.
    + intros H%Nat.ltb_ge _. by rewrite take_ge, app_nil_r.
  - split; cbn; try done. apply prefix_nil.
Qed.
Lemma exited_one d e : d_copier d = exited e -> exited_count d = 1.
Proof. unfold exited_count. by intros ->. Qed.
Lemma session_keeps closes p p' : session_step closes p p' -> pipe_inv p -> pipe_inv p'.
Proof.
  intros Hs [Hb Hc Hn Ho Hf].
  assert (Hgone : p_main p = waitFirst \/ p_main p = closeClient -> client_gone closes (p_main p) = false /\ backend_gone (p_main p) = false)
    by (intros [-> | ->]; done).
  destruct Hs as [[d Hs|d Hs|e Hcp Hlt|e Hcp Hlt|n Hm Hch|Hm|Hm]|[d Hs|d Hs]].
  - destruct (copy_keeps _ _ _ _ Hs Hb) as (Hd & _ & _ & H0 & H1 & Hopen). split; cbn; try done; [lia| |].
    + intros Hm. destruct (Hgone Hm). by split; [apply Hopen|apply Ho].
    + intros Hm. destruct (Hf Hm) as (x & e & [->| ->] & Hx & Hown); [by rewrite (exited_one _ _ Hx) in H0|]. exists (p_toClient p), e. auto.
  - destruct (copy_keeps _ _ _ _ Hs Hc) as (Hd & _ & _ & H0 & H1 & Hopen). split; cbn; try done; [lia| |].
    + intros Hm. destruct (Hgone Hm). by split; [apply Ho|apply Hopen].
    + intros Hm. destruct (Hf Hm) as (x & e & [->| ->] & Hx & Hown); [|by rewrite (exited_one _ _ Hx) in H0]. exists (p_toBackend p), e. auto.
  - destruct (send_keeps _ _ Hcp Hb) as (Hd & H0 & Hopen). split; cbn; try done; [lia| |].
    + intros Hm. destruct (Ho Hm). by split; [apply Hopen|].
    + intros Hm. destruct (Hf Hm) as (x & e' & [->| ->] & Hx & Hown); [congruence|]. exists (p_toClient p), e'. auto.
  - destruct (send_keeps _ _ Hcp Hc) as (Hd & H0 & Hopen). split; cbn; try done; [lia| |].
    + intros Hm. destruct (Ho Hm). by split; [|apply Hopen].
    + intros Hm. destruct (Hf Hm) as (x & e' & [->| ->] & Hx & Hown); [|congruence]. exists (p_toBackend p), e'. auto.
  - rewrite Hm, Hch in Hn. destruct (Ho (or_introl Hm)). split; cbn; try done; [lia|]. intros _. apply (first_exited _ _ n); [lia|done..].
  - rewrite Hm in *. split; cbn; try done; [by intros []|]. intros _. by apply Hf.
  - rewrite Hm in *. split; cbn; try done; [by intros []|]. intros _. by apply Hf.
  - destruct (peer_keeps _ _ Hs Hb) as (Hd & Hcp & Hopen & Hown). split; cbn; try done; [by unfold exited_count in *; rewrite Hcp| |].
    + intros Hm. destruct (Ho Hm). auto.
    + intros Hm. destruct (Hf Hm) as (x & e & [->| ->] & Hx & Hx'); [exists d, e; rewrite Hcp|exists (p_toClient p), e]; auto.
  - destruct (peer_keeps _ _ Hs Hc) as (Hd & Hcp & Hopen & Hown). split; cbn; try done; [by unfold exited_count in *; rewrite Hcp| |].
    + intros Hm. destruct (Ho Hm). auto.
    + intros Hm. destruct (Hf Hm) as (x & e & [->| ->] & Hx & Hx'); [exists (p_toBackend p), e|exists d, e; rewrite Hcp]; auto.
Qed.
Lemma session_inv closes buffered written early p : rtc (session_step closes) (pipe_start buffered written early) p -> pipe_inv p.
Proof.
  pose proof (pipe_inv_start buffered written early) as H. intros Hrun. induction Hrun as [p|p q r Hs _ IH]; [done|].
  apply IH. by eapply session_keeps.
Qed.

(** ** Termination *)

Definition direction_measure (d : Direction) : nat :=
  3 * length (d_pending d) + match d_copier d with copying => 2 | writing _ => 3 | sending _ => 1 | exited _ => 0 end.
Definition pipe_measure (p : Pipe) : nat :=
  direction_measure (p_toBackend p) + direction_measure (p_toClient p) +
  match p_main p with waitFirst => 3 | closeClient => 2 | closeBackend => 1 | pipeReturned => 0 end.
Lemma copy_decreases srcGone dstGone d d' : copy_step srcGone dstGone d d' -> direction_measure d' < direction_measure d.
Proof.
  intros [chunk rest Hcp Hp Hne|Hcp Hp Hend|Hcp Hend|chunk Hcp Hg Hb|chunk Hcp Hg|chunk n Hcp Hlt Hb]; unfold direction_measure; cbn;
    rewrite ?Hcp, ?Hp, ?length_app; cbn; try lia. destruct chunk; [done|]. cbn. lia.
Qed.
Lemma pipe_decreases closes p p' : pipe_step closes p p' -> pipe_measure p' < pipe_measure p.
Proof.
  intros [d Hs%copy_decreases|d Hs%copy_decreases|e Hcp Hlt|e Hcp Hlt|n Hm Hch|Hm|Hm]; unfold pipe_measure; cbn -[Nat.mul]; rewrite ?Hm; try lia;
    unfold direction_measure; cbn -[Nat.mul]; rewrite Hcp; lia.
Qed.
Lemma pipe_terminates closes p : sn (pipe_step closes) p.
Proof.
  remember (pipe_measure p) as n eqn:Hn. revert p Hn. induction n as [n IH] using lt_wf_ind. intros p ->.
  constructor. intros p' Hs. eapply IH; [|done]. by apply pipe_decreases in Hs.
Qed.
(** Nothing has happened that the handler waits for. *)
Definition idle (p : Pipe) : Prop :=
  p_main p = waitFirst /\ Forall (fun d => d_copier d = copying /\ d_pending d = [] /\ d_end d = None) [p_toBackend p; p_toClient p].
Definition finished (p : Pipe) : Prop :=
  p_main p = pipeReturned /\ Forall (fun d => exited_count d = 1) [p_toBackend p; p_toClient p].
Definition stuck (srcGone : bool) (d : Direction) : Prop :=
  match d_copier d with copying => d_pending d = [] /\ d_end d = None /\ srcGone = false | writing _ => False | _ => True end.
(** A copier that cannot move waits for its peer, or is done. *)
Lemma copier_stuck srcGone dstGone d : direction_inv d -> (forall d', ~ copy_step srcGone dstGone d d') ->
  stuck srcGone d.
Proof.
  unfold stuck. intros [Hord Hbr Hw Hc He Hsh] Hno. destruct (d_copier d) as [|chunk| |] eqn:Hcp; [| |done|done].
  - destruct srcGone; [edestruct Hno; apply read_error; auto|].
    destruct (d_pending d) as [|b rest] eqn:Hp; [|edestruct Hno; by apply (read_chunk _ _ _ [b] rest)].
    destruct (d_end d) as [[]|] eqn:Hend; [edestruct Hno; by apply read_eof|edestruct Hno; apply read_error; auto|done].
  - destruct (dstGone || d_broken d) eqn:Hg; [edestruct Hno; by eapply write_error|].
    apply orb_false_iff in Hg as [Hg Hb]. edestruct Hno. by eapply write_ok.
Qed.
Lemma waiting_copier srcGone d : stuck srcGone d -> (forall e, d_copier d <> sending e) -> exited_count d = 0 ->
  d_copier d = copying /\ d_pending d = [] /\ d_end d = None.
Proof. unfold stuck, exited_count. destruct (d_copier d) as [| |e|]; intros H Hs He; [tauto|done|by destruct (Hs e)|done]. Qed.
Lemma gone_copier d : stuck true d -> (forall e, d_copier d <> sending e) -> exited_count d = 1.
Proof. unfold stuck, exited_count. destruct (d_copier d) as [| |e|]; intros H Hs; [|done|by destruct (Hs e)|done]. destruct H as (_ & _ & [=]). Qed.
Lemma exited_le d : exited_count d <= 1.
Proof. unfold exited_count. destruct (d_copier d); lia. Qed.
Lemma pipe_stuck closes p : pipe_inv p -> nf (pipe_step closes) p -> idle p \/ finished p.
Proof.
  intros [Hb Hc Hn Ho Hf] Hnf.
  assert (Hno : forall p', ~ pipe_step closes p p') by (intros p' Hs; apply Hnf; by exists p').
  pose proof (copier_stuck (client_gone closes (p_main p)) (backend_gone (p_main p)) _ Hb) as Hsb.
  pose proof (copier_stuck (backend_gone (p_main p)) (client_gone closes (p_main p)) _ Hc) as Hsc.
  specialize (Hsb ltac:(intros d Hd; by eapply Hno, copy_to_backend)). specialize (Hsc ltac:(intros d Hd; by eapply Hno, copy_to_client)).
  assert (Hsend : p_errCh p < errCh_capacity -> forall e, d_copier (p_toBackend p) <> sending e /\ d_copier (p_toClient p) <> sending e)
    by (intros Hlt e; split; intros H; [by eapply Hno, send_to_backend|by eapply Hno, send_to_client]).
  destruct (p_main p) eqn:Hm.
  - destruct (p_errCh p) as [|n] eqn:Hch; [|by edestruct Hno; eapply receive_first].
    specialize (Hsend ltac:(unfold errCh_capacity; lia)). left. split; [done|].
    repeat constructor; eapply waiting_copier; eauto; first [lia | intros e; by destruct (Hsend e)].
  - by edestruct Hno; apply close_client.
  - by edestruct Hno; apply close_backend.
  - right. split; [done|].
    assert (Hlt : forall d e, d = p_toBackend p \/ d = p_toClient p -> d_copier d <> sending e).
    { intros d e Hd H. pose proof (exited_le (p_toBackend p)). pose proof (exited_le (p_toClient p)).
      assert (exited_count d = 0) by (unfold exited_count; by rewrite H).
      specialize (Hsend ltac:(unfold errCh_capacity; destruct Hd as [-> | ->]; lia) e). destruct Hd as [-> | ->]; tauto. }
    repeat constructor; [apply (gone_copier _ Hsb)|apply (gone_copier _ Hsc)]; eauto.
Qed.

(** ** Properties *)

(** A peer has ended its side, or a copy has ended. *)
Definition session_ended (p : Pipe) : Prop :=
  exists d, d ∈ [p_toBackend p; p_toClient p] /\ (d_end d <> None \/ copier_end (d_copier d) <> None).
Lemma session_ended_or p : session_ended p <->
  (d_end (p_toBackend p) <> None \/ copier_end (d_copier (p_toBackend p)) <> None) \/
  (d_end (p_toClient p) <> None \/ copier_end (d_copier (p_toClient p)) <> None).
Proof.
  unfold session_ended. split.
  - by intros (d & [->|[->|[]%elem_of_nil]%elem_of_cons]%elem_of_cons & H); [left|right].
  - by intros [H|H]; eexists; (split; [|exact H]); [left|right; left].
Qed.
Lemma copy_ended srcGone dstGone d d' : copy_step srcGone dstGone d d' ->
  d_end d <> None \/ copier_end (d_copier d) <> None -> d_end d' <> None \/ copier_end (d_copier d') <> None.
Proof. intros Hs [Hx|Hx]; destruct Hs; cbn in *; auto. all: match goal with Hc : d_copier _ = _ |- _ => by rewrite Hc in Hx end. Qed.
Lemma ended_keeps closes p p' : pipe_step closes p p' -> session_ended p -> session_ended p'.
Proof.
  rewrite !session_ended_or. intros [d Hs|d Hs|e Hcp Hlt|e Hcp Hlt|n Hm Hch|Hm|Hm]; cbn; try done.
  - pose proof (copy_ended _ _ _ _ Hs). tauto.
  - pose proof (copy_ended _ _ _ _ Hs). tauto.
  - intros _. left. by right.
  - intros _. right. by right.
Qed.
Lemma ended_run closes p p' : rtc (pipe_step closes) p p' -> session_ended p -> session_ended p'.
Proof. induction 1; eauto using ended_keeps. Qed.
Lemma ended_not_idle p : session_ended p -> ~ idle p.
Proof.
  intros (d & Hd & H) [_ Hall]. rewrite Forall_forall in Hall. destruct (Hall d Hd) as (Hc & _ & He).
  rewrite Hc in H. by destruct H.
Qed.
(** What was sent has arrived when the copy ended with its source, or rests with nothing in hand. *)
Lemma all_delivered d : direction_inv d -> d_broken d = false -> d_pending d = [] ->
  d_copier d = copying \/ copier_end (d_copier d) = Some copied -> d_delivered d = d_sent d.
Proof.
  intros [_ _ Hw _ _ _] Hb Hp Hc. rewrite (Hw Hb), Hp.
  - destruct (d_copier d); try (by destruct Hc); by rewrite !app_nil_r.
  - destruct Hc as [-> | ->]; done.
Qed.
Lemma eof_delivered d : direction_inv d -> d_broken d = false -> copier_end (d_copier d) = Some copied ->
  d_delivered d = d_sent d.
Proof. intros Hd Hb He. apply all_delivered; [done|done|by apply di_eof|by right]. Qed.

(** C15: An upgraded session keeps the bytes in order, and comes to an end once one of its
    sides does.  However the two copiers, the handler and the peers interleave:
    - each side receives a prefix of what the other sent, and all of it when the copier of
      that direction itself ended at the end of its source and the bytes buffered before the
      copy had been passed on (a copier that is cut off may lose what is in flight);
    - no copier blocks on the error channel;
    - the handler closes nothing before one copy ended by itself: at the end of its source, by
      an error of it, or on a refused write;
    - between two actions of the peers only finitely many steps happen.  Once a peer has ended
      its side or a copy has ended, they all lead to the handler returned and both copiers
      gone.  Otherwise they can also come to rest with both sides still open, and then
      everything sent has been delivered (unless the first flush already failed). *)
Theorem upgraded_session_settles (closes : bool) (buffered : bytes) (written : nat) (early : bytes) (p : Pipe)
    (Hrun : rtc (session_step closes) (pipe_start buffered written early) p) :
  Forall (fun d => d_delivered d `prefix_of` d_sent d /\
            (d_broken d = false -> copier_end (d_copier d) = Some copied -> d_delivered d = d_sent d)) [p_toBackend p; p_toClient p] /\
  (forall d e, d ∈ [p_toBackend p; p_toClient p] -> d_copier d = sending e -> p_errCh p < errCh_capacity) /\
  (p_main p <> waitFirst -> exists d e, d ∈ [p_toBackend p; p_toClient p] /\ d_copier d = exited e /\ own_end d e /\
     (e = copied -> d_broken d = false -> d_delivered d = d_sent d)) /\
  sn (pipe_step closes) p /\
  (session_ended p -> forall p', rtc (pipe_step closes) p p' -> nf (pipe_step closes) p' -> finished p') /\
  (nf (pipe_step closes) p ->
     (idle p /\ Forall (fun d => d_broken d = false -> d_delivered d = d_sent d) [p_toBackend p; p_toClient p]) \/ finished p).
Proof.
  pose proof (session_inv _ _ _ _ _ Hrun) as Hinv. destruct (Hinv) as [Hb Hc Hn Ho Hf]. split_and!.
  - repeat constructor; [by apply Hb|by apply eof_delivered|by apply Hc|by apply eof_delivered].
  - intros d e Hd Hs. unfold errCh_capacity.
    assert (exited_count d = 0) by (unfold exited_count; by rewrite Hs).
    pose proof (exited_le (p_toBackend p)). pose proof (exited_le (p_toClient p)).
    apply elem_of_cons in Hd as [->|[->|[]%elem_of_nil]%elem_of_cons]; destruct (p_main p); lia.
  - intros Hm. destruct (Hf Hm) as (d & e & Hd & He & Hown). exists d, e. split_and!; [destruct Hd as [-> | ->]; set_solver|done|done|].
    intros -> Hbr. apply eof_delivered; [destruct Hd as [-> | ->]; done|done|by rewrite He].
  - apply pipe_terminates.
  - intros Hend p' Hp' Hnf. pose proof (ended_run _ _ _ Hp' Hend) as Hend'.
    assert (Hrun' : rtc (session_step closes) (pipe_start buffered written early) p').
    { etrans; [exact Hrun|]. eapply rtc_subrel; [|exact Hp']. by left. }
    destruct (pipe_stuck closes p' (session_inv _ _ _ _ _ Hrun') Hnf) as [Hi|]; [|done]. by destruct (ended_not_idle p').
  - intros Hnf. destruct (pipe_stuck closes p Hinv Hnf) as [Hi|]; [left|by right]. split; [done|].
    destruct Hi as [_ Hall]. rewrite Forall_forall in Hall. apply Forall_forall. intros d Hd Hbr.
    destruct (Hall d Hd) as (Hcp & Hp & _). apply all_delivered; [|done|done|by left].
    apply elem_of_cons in Hd as [->|[->|[]%elem_of_nil]%elem_of_cons]; done.
Qed.

(** *** The connections of one upgrade *)

Section released.
Context {x509 : X509} {floats : FloatParser}.
Definition is_dialled (e : ConnEvent) : bool := match e with ev_dialled _ _ => true | _ => false end.
Definition is_backend_closed (e : ConnEvent) : bool := match e with ev_backend_closed => true | _ => false end.
Definition is_hijacked (e : ConnEvent) : bool := match e with ev_hijacked => true | _ => false end.
Definition is_client_closed (e : ConnEvent) : bool := match e with ev_client_closed => true | _ => false end.
Definition count_events (which : ConnEvent -> bool) (events : list ConnEvent) : nat := length (List.filter which events).
(** The events of a session whose pipe, if there was one, has returned. *)
Definition whole_session (out : list ConnEvent * Session) : list ConnEvent :=
  out.1 ++ match out.2 with piping => main_events pipeReturned | _ => [] end.
(** What the client is answered. *)
Definition event_reply (e : ConnEvent) : option UpgradeReply :=
  match e with
  | ev_client_error _ _ => Some upgradeError
  | ev_client_header status header => Some (if (status =? 101)%Z then piped header else forwarded status header)
  | _ => None
  end.
(** The backend's side as [Handler] sees it. *)
Definition attempt (net : UpgradeNet) (err : option DialError) (out : Request) : UpgradeAttempt :=
  match err with
  | Some _ => dialFailed
  | None => if negb (un_Write net out) then writeFailed else match un_ReadResponse net with None => readFailed | Some resp => responded resp end
  end.

Ltac session_simpl := cbn -[copyHeaderValues buildBackendUpgradeRequest effectiveWSHandshakeReadTimeout].
Ltac no_event :=
  repeat match goal with
  | |- _ <-> _ => split
  | |- forall _, _ => intros ?
  | H : _ ∈ [] |- _ => by apply elem_of_nil in H
  | H : _ ∈ _ :: _ |- _ => apply elem_of_cons in H as [H|H]
  | H : @eq ConnEvent _ _ |- _ => first [discriminate H | injection H as H; subst]
  | H : @eq Session _ _ |- _ => discriminate H
  | |- ev_hijacked ∈ _ => by repeat constructor
  end.
Inductive dial_outcome (h : HandlerConfig) (backendURL : URL) (backendHostname : string) (backendTLS : option BackendTLSConfig) :
    list ConnEvent * option DialError -> Prop :=
| not_opened e : dial_outcome h backendURL backendHostname backendTLS ([], Some e)
| opened_and_closed t : dial_outcome h backendURL backendHostname backendTLS ([ev_dialled (url_Host backendURL) t; ev_backend_closed], Some errHandshake)
| opened_plain t : url_Scheme backendURL <> "https" ->
    dial_outcome h backendURL backendHostname backendTLS ([ev_dialled (url_Host backendURL) t], None)
| opened_tls t cfg : backendUpgradeTLSConfig backendHostname backendTLS = Some cfg ->
    dial_outcome h backendURL backendHostname backendTLS ([ev_dialled (url_Host backendURL) t; ev_handshake cfg], None).
Lemma dial_cases h net backendURL backendHostname backendTLS :
  dial_outcome h backendURL backendHostname backendTLS (dialBackendForUpgrade h net backendURL backendHostname backendTLS).
Proof.
  unfold dialBackendForUpgrade, dial. destruct (bool_decide_reflect (url_Scheme backendURL = "https")); cbn [negb].
  - destruct (backendUpgradeTLSConfig _ _) eqn:Hcfg; [|constructor].
    destruct (un_Dial _ _); [|constructor]. destruct (un_Handshake _ _); by constructor.
  - destruct (un_Dial _ _); by constructor.
Qed.

(** Every upgrade gives back what it took.  At most one connection is opened to the
    backend and it is closed exactly once, and so is a hijacked client connection, on
    every path, a panic of a filter included; the client is answered what [Handler] says
    for this backend; and the request is only ever written to the dialled backend itself,
    over a completed handshake with its TLS policy when it is reached over https, under a
    deadline that is lifted before anything is copied. *)
Theorem upgrade_connections_released (h : HandlerConfig) (net : UpgradeNet) (req : Request) (backendURL : URL) (backendHostname : string)
    (backendTLS : option BackendTLSConfig) (filters : list Filter) (hostname : string) :
  let out := proxyWebSocketUpgrade h net req backendURL backendHostname backendTLS filters hostname in
  let events := whole_session out in
  let outReq := buildBackendUpgradeRequest req backendURL in
  count_events is_dialled events <= 1 /\ count_events is_backend_closed events = count_events is_dialled events /\
  count_events is_client_closed events = count_events is_hijacked events /\
  (out.2 = piping <-> ev_hijacked ∈ events) /\
  head (omap event_reply events) =
    Handler.proxyWebSocketUpgrade (attempt net (dialBackendForUpgrade h net backendURL backendHostname backendTLS).2) outReq filters /\
  (forall written, ev_request written ∈ events -> written = outReq /\
     exists before after, events = before ++ ev_request outReq :: ev_read_deadline (Some (effectiveWSHandshakeReadTimeout h)) :: after /\
       match before with
       | [ev_dialled host _] => host = url_Host backendURL /\ url_Scheme backendURL <> "https"
       | [ev_dialled host _; ev_handshake cfg] => host = url_Host backendURL /\ backendUpgradeTLSConfig backendHostname backendTLS = Some cfg
       | _ => False
       end /\ match after with ev_read_deadline None :: _ => un_ReadResponse net <> None | _ => un_ReadResponse net = None end).
Proof.
  cbn zeta. unfold proxyWebSocketUpgrade, deferring, pipeWebSocket, refuse.
  destruct (dial_cases h net backendURL backendHostname backendTLS) as [e|t|t Hs|t cfg Hcfg].
  1,2: session_simpl; split_and!; try lia; by no_event.
  all: unfold attempt, Handler.proxyWebSocketUpgrade; destruct (un_Write net _); cbn [negb];
    [|session_simpl; split_and!; try lia; by no_event].
  all: destruct (un_ReadResponse net) as [resp|] eqn:Hresp;
    [destruct (ApplyResponseFilters filters resp) as [resp'|] eqn:Hfilters; [destruct (resp_StatusCode resp' =? 101)%Z eqn:H101; [destruct (un_Hijack net) as [[]|]|]|]|].
  all: session_simpl; rewrite ?Hfilters; session_simpl; rewrite ?H101; split_and!; try lia; try done; no_event.
  all: try done; refine (conj eq_refl _).
  all: first [eexists [_], _; split; [reflexivity|] | eexists [_; _], _; split; [reflexivity|]]; by rewrite ?Hresp.
Qed.
End released.

(** ** Examples *)

Module PipeExample.
Definition a : Byte.byte := Byte.x61.
Definition b : Byte.byte := Byte.x62.
(** The client ends, the backend's byte was delivered, and everybody is gone. *)
Definition over : Pipe :=
  mkPipe (mkDirection [a] [] [a] (Some true) false (exited copied)) (mkDirection [b] [] [b] None false (exited sourceFailed)) 1 pipeReturned.
Ltac internal := eapply rtc_l; [left|cbn].
Lemma to_returned closes d : rtc (session_step closes) (mkPipe (mkDirection [a] [] [a] (Some true) false copying) d 0 waitFirst)
  (mkPipe (mkDirection [a] [] [a] (Some true) false (exited copied)) d 0 closeClient).
Proof.
  internal; [apply copy_to_backend; by apply read_eof|]. internal; [apply (send_to_backend _ _ copied); unfold errCh_capacity; cbn; auto with lia|].
  internal; [by apply (receive_first _ _ 0)|]. done.
Qed.
Lemma session closes : rtc (session_step closes) (pipe_start [a] 1 [b]) over.
Proof.
  internal; [by apply copy_to_client, (read_chunk _ _ _ [b] [])|]. internal; [by apply copy_to_client, (write_ok _ _ _ [b])|].
  eapply rtc_l; [right; apply client_acts; by apply (peer_ends _ true)|]. cbn. etrans; [apply to_returned|].
  internal; [by apply close_client|]. internal; [by apply close_backend|].
  internal; [apply copy_to_client, read_error; auto|]. internal; [apply (send_to_client _ _ sourceFailed); unfold errCh_capacity; cbn; auto with lia|]. done.
Qed.
End PipeExample.
Lemma upgraded_session_settles_witness :
  (exists d e, d ∈ [p_toBackend PipeExample.over; p_toClient PipeExample.over] /\ d_copier d = exited e /\ own_end d e) /\
  forall p', rtc (pipe_step true) PipeExample.over p' -> nf (pipe_step true) p' -> finished p'.
Proof.
  destruct (upgraded_session_settles true [PipeExample.a] 1 [PipeExample.b] PipeExample.over (PipeExample.session true))
    as (_ & _ & Hfirst & _ & Hend & _).
  split.
  - destruct (Hfirst ltac:(done)) as (d & e & H1 & H2 & H3 & _). by exists d, e.
  - apply Hend. exists (p_toBackend PipeExample.over). split; [by left|by left].
Defined.

(** The comment of [pipeWebSocket] says the client connection is closed only after both
    copies have ended; the handler waits for the first, so it can return while the other
    copier is about to write what it has read to the client. *)
Lemma handler_returns_while_copying closes : exists p, rtc (session_step closes) (pipe_start [PipeExample.a] 1 [PipeExample.b]) p /\
  p_main p = pipeReturned /\ d_copier (p_toClient p) = writing [PipeExample.b].
Proof.
  eexists. split; [|split].
  - eapply rtc_l; [right; apply client_acts; by apply (peer_ends _ true)|]. cbn. etrans; [apply PipeExample.to_returned|].
    PipeExample.internal; [by apply copy_to_client, (read_chunk _ _ _ [PipeExample.b] [])|].
    PipeExample.internal; [by apply close_client|]. PipeExample.internal; [by apply close_backend|]. done.
  - done.
  - done.
Qed.
